(* ===== verification/_CoqProject ===== *)
-Q . S2P
Prelude.v
GoErrors.v
GoTime.v
GoText.v
GoFloat.v
TaskTypes.v
Encoding.v
SchedContract.v
SchedRequest.v
SchedStore.v
SchedStoreInv.v
SchedStoreProps.v
SchedStoreReads.v
SchedHistory.v
SchedStoreTheorems.v
Recurrence.v
RecurrenceTheorems.v
SchedRuntime.v
SchedRuntimeInv.v
SchedRuntimeSafety.v
SchedWorld.v
SchedRuntimeTheorems.v
GoPath.v
GoTimestamp.v
TaskLifetime.v
LifetimeClosure.v
LifetimeClosureTheorems.v
ControlDir.v
ControlLifetime.v
ControlLifetimeProps.v
ControlProtocol.v
ControlProtocolTheorems.v
LifetimeCgroup.v
ResourcePolicy.v
ResourceChecker.v
ResourceCheckerProps.v
ResourceRun.v
ResourceTheorems.v
ResourceCgroup.v
ResourceCgroupTheorems.v
ProviderJson.v
ProviderJsonGrammar.v
ProviderJsonSound.v
ProviderJsonTheorems.v
ProviderJsonFields.v
ProviderJsonRecords.v
StrictJson.v
StrictJsonTheorems.v
Interaction.v
InteractionTheorems.v
InteractionJournal.v
InteractionJournalProps.v
InteractionJournalTheorems.v
Budget.v
BudgetTheorems.v
TaskConfiguration.v
TaskRecords.v
TaskReducer.v
TaskReducerTheorems.v
TaskRecordsJson.v
TaskDir.v
TaskDirOps.v
TaskPublication.v
TaskSession.v
TaskDirProps.v
TaskLaunchProps.v
TaskSessionProps.v
TaskHistory.v
TaskFixture.v
TaskHistoryTheorems.v
TaskSessionTheorems.v
TeamContract.v
TeamContractProps.v
TeamCatalog.v
TeamCatalogProps.v
TeamCatalogTheorems.v
PiEvidence.v
PiProtocol.v
PiTheorems.v
PiPublication.v
