(* ===== verification/Prelude.v ===== *)
(** * Delegation Layer: a verification library (root file)

    The Delegation Layer runs coding agents as durable tasks: a task directory records
    what was requested, what was launched and what came of it; a guardian runs the
    provider under a budget; schedules start tasks at their times; resource admission
    delays them under pressure; sessions hand a conversation from one task to the next.
    This library models that core from the Go sources under [src/internal] and proves
    what makes it correct.  Names follow the sources.

    ** Shared parts
    - [Prelude]: errors as trees of sentinels, wraps and joins, the [result] monad, the
      sentinels of every package, common lemmas.  [GoErrors]: [task/error_causes.go] and the
      other walks over error trees.
    - [GoTime], [GoTimestamp], [GoFloat], [GoText], [GoPath]: what the
      sources use of Go's library: instants as nanoseconds with their 64-bit range, RFC 3339
      text, durations, civil dates, binary64 parsing and rates, bytes and runes, slash paths.
    - [Encoding]: [MarshalCanonical] ([task/json.go]) with the escaping of [encoding/json], and
      SHA-256.  [StrictJson]: [DecodeStrict] ([task/json.go], [task/required_json.go]), its
      pass over the tokens, its check of the fields against a Go type, and, as far as those
      use it, the decoder of [encoding/json] on trees.  [StrictJsonTheorems]: every value is
      decoded from the canonical text of its type's encoder, when the text is no longer
      than a control record; and the fuel of the parser, twice the length of the text, is
      never used up.

    ** Schedules ([scheduler/])
    - [SchedContract], [SchedRequest]: schedules, occurrences, skips, state changes, history
      pages and stored requests ([contract/]).
    - [SchedStore]: the SQLite store ([internal/sqlitestore/]) with its statements, constraints,
      triggers, row decoding and transactions whose driver behaves arbitrarily.
      [SchedStoreInv], [SchedStoreProps], [SchedStoreReads], [SchedHistory] and [SchedStoreTheorems]
      prove the invariant of the database, what a claim authorizes, read-back and paging.
    - [Recurrence] ([recurrence/]): [Next] over an arbitrary cron backend and zone;
      [RecurrenceTheorems] shows it returns the first later occurrence.
    - [SchedRuntime] ([runtime/]): tick, admission, claims, observation and the loop as a step
      relation over a class of ports; [SchedWorld] instantiates the ports with the store.
      [SchedRuntimeInv], [SchedRuntimeSafety], [SchedRuntimeTheorems]: at most one dispatch of an
      occurrence, inside its window, with consistent bookkeeping.

    ** Lifetimes ([task/lifetime*.go], [taskdir/control*.go], [lifetime/])
    - [TaskLifetime], [LifetimeClosure]: records, validators, launch capacity and the closure
      decision; [LifetimeClosureTheorems]: when it closes, and that it never reopens.
    - [ControlDir], [ControlLifetime]: a directory of immutable records under arbitrary faults and
      the operations on its lifetime records.  [ControlProtocol] is their abstract
      specification as a transition relation; [ControlProtocolTheorems] proves that every
      operation refines it, that fences and terminations are final and that sealing makes
      progress.
    - [LifetimeCgroup]: the cgroup v2 location of a process, from [/proc] text, with its
      theorems.

    ** Tasks ([task/], [taskdir/], [predicate/], [execution/])
    - [TaskTypes], [TaskConfiguration], [TaskRecords], [TaskRecordsJson]: vocabulary, request
      normalization, every control record with its validator and canonical encoding.
      [TaskReducer]: comparisons, the publication reducer, the fixture predicate.
    - [TaskDir]: validated readers of a task directory ([taskdir.go], [publication.go], [stop.go],
      [launch_refusal.go], [supervisor_records.go]).  [TaskDirOps]: preparation, permits,
      submission, start, runner records, stops, the fence of a task never launched.
      [TaskPublication]: seal, predicate registry, collection and finalization.
      [TaskHistory] composes them: a history is any sequence of calls by any processes, each
      with its own faults, between which everything but the control records changes
      arbitrarily.  [TaskDirProps] and [TaskLaunchProps] carry the lemmas, and [TaskHistory] those on
      what a publication leaves and rests on; [TaskHistoryTheorems] proves that a provider is
      launched at most once, that refusals are final and that all callers are given one
      outcome, and what a granted start writes; [TaskFixture] is the concrete
      directory of their witnesses.
    - [TaskSession] ([session.go], [session_handoff.go]) with [TaskSessionProps] and
      [TaskSessionTheorems]: a conversation has one holder, and a released task does not
      return while its release is provable.
    - [Interaction], [InteractionJournal]: the dialogue with a running provider and its durable
      journal, whose records [decodeInteraction] reads with the strict decoder; their theorem
      files prove the state machine and delivery at most once.  [InteractionJournalProps]:
      what a replay of the records determines and what an append does.
    - [Budget] ([execution/budget.go]): goroutines and callbacks around one deadline as a step
      relation, with every authorization of [supervised.go] and [interaction.go], of which
      the one before a delivery has no listener; [BudgetTheorems]: the arbitration it
      refines, and that calls return.
    - [ProviderJson] ([providerjson/]): the streaming cursor over readers that fail anywhere.
      [ProviderJsonGrammar] states the JSON it must accept; [ProviderJsonSound],
      [ProviderJsonTheorems], [ProviderJsonFields], [ProviderJsonRecords] prove acceptance, field
      selection and framing.

    ** Providers ([provider/pi/])
    - [PiEvidence]: what the Pi adapter makes of a sealed task: the contracts and references of
      its revisions ([contract.go]), the state of the parser and the parser of the current wire
      over the cursor of [ProviderJson] ([current_*.go]), and the interpreters that
      [TaskPublication] collects ([predicate.go]).
    - [PiProtocol]: the protocol of the event stream as a machine with five positions, the
      simulation of the parser by it, and what the events before each position look like.
    - [PiTheorems]: the parser is the protocol on every stream; a complete stream is committed;
      and whatever is committed is the text of the message that three events agree on, found
      again in a second reading.
    - [PiPublication]: the adapter under the publication of [TaskPublication]: the payload of a
      published task is the answer in its sealed transcript; nothing the adapter returns is
      refused or too large on the way; its registry resolves every revision; and a complete
      transcript is published, without faults, by a collection.

    ** Teams ([teams/])
    - [TeamContract] ([contract/]): team definitions, their validation, the scan that refuses
      what the JSON decoder would replace, the canonical encoding, and selections.
      [TeamContractProps]: the scan is exact, and what is encoded is decoded by the strict
      decoder, which meets the class [StrictDecoder] that the catalog asks of its decoder.
    - [TeamCatalog]: the second SQLite store, one operation per call of [mutations.go],
      [defaults.go] and [reads.go] down to the file: preparation ([catalog.go]), schema guard
      ([schema.go]) and transaction ([transaction.go]).  [TeamCatalogProps]: what any call
      under any faults may do to the file.  [TeamCatalogTheorems]: revisions identify
      definitions, no acknowledged change is lost, and without faults the calls, listings
      among them, follow the specification of a table of teams and defaults.

    ** Resource admission ([resourceadmission/])
    - [ResourcePolicy], [ResourceChecker], [ResourceCgroup]: readings, verdicts with binary64 rates,
      the check over its ports, and the cgroup reader with bounded reads.  The props and
      theorem files show that pressure and clearance rest on evidence, when a check fails,
      that the walk over parents ends and what the CPU count of a cpuset is modulo 2^64.

    ** Modelling choices
    - Integers are [Z] with their wrap-around or range written where it can be reached.
    - The file system is a finite map from names to bytes.  Every call into it, and every
      lock and context check, takes the next fault of an arbitrary list: none, an error
      before its effect, or an error after it.  Locks held by others are arbitrary values
      of a call.
    - A call on a task directory, a control directory, a session ledger, the store or the teams
      catalog is one step of a history; the transactions of SQLite exclude each other.  Its
      driver may fail anywhere, but reports an absent row only of a query without rows.
      Submissions exclude each other and the fence by the admission lock, starts exclude
      each other, the fence, proofs and collections by the run lock.  A stop shares the
      maintenance lock with the others, so the finality of a stop speaks of the calls that
      begin after it was recorded.
    - Loops follow the sources by structural recursion; where there is none, the fuel is the
      length of the input, which every iteration shortens, or a bound the code itself
      checks (interaction records, bounded reads); the walk over cgroup parents, which the
      code does not bound, has a theorem that it ends.
    - Parameters with their laws: the decoders of schedule requests and of the records of
      task and control directories, which are [DecodeStrict] at other types (the few
      theorems that need a law ask it of the records they name), the cron backend and
      zones, the SQLite driver, the ports of loop and check, file trees, Unicode case
      folding (its only law, [CaseFold], is what it does to ASCII), interpreters of
      predicates, the proofs other task directories give a session.
    - Sealed evidence is read whole and without faults by an interpreter, as the buffers of its
      reader deliver it, and is shorter than 2^63 bytes: a read that fails poisons the
      evidence, which is a fault of the evaluation in [TaskPublication].
    - Error messages keep their constant text only.

    ** Not modelled
    Processes, pipes, signals, sockets and the commands ([execution/run.go], [guardian],
    [supervisor], [pueue], [app]); the other provider adapters ([provider/]) and, of the Pi
    adapter, launching and the parser of the revisions before the current wire, which is an
    argument of its interpreters; workspaces and their git operations; task lifecycle, inspection and admission, which orchestrate
    the modelled operations; lock files, stage files and root stores below the calls that
    use them; raw captures and launch files, whose effects on a task directory are
    arbitrary steps.  Rechecks of a published task are modelled up to their report. *)
From stdpp Require Export base gmap strings list sorting.
From Stdlib Require Export ZArith Lia.

#[global] Open Scope Z_scope.

(** ** Error values

    Go's error interface as the tree that [errors.Is], [errors.Join] and
    [fmt.Errorf] build.  A sentinel is a package variable compared by identity. *)
Inductive sentinel : Set :=
| fs_ErrNotExist | fs_ErrExist | fs_ErrPermission | os_ErrClosed
| io_EOF | io_ErrUnexpectedEOF | io_ErrShortWrite | io_ErrNoProgress
| context_Canceled | context_DeadlineExceeded
| sql_ErrTxDone
| gocron_ErrCronJobParse | gocron_ErrCronJobInvalid
| task_ErrInvalidTaskID | task_ErrInvalidRootID | task_ErrUnsupportedSchema
| task_ErrControlRecordTooBig | task_ErrIdentityMismatch | task_ErrInvalidEnum
| task_ErrInvariantFault | task_ErrLockBusy | task_ErrEvidenceFault
| task_ErrInvalidTeamSelection | task_ErrTerminalTask | task_ErrAlreadyStarted
| task_ErrInvalidPermit | task_ErrLifetimeUnlaunched | task_ErrLifetimeDeadlineNotExpired
| task_ErrDuplicateKey | task_ErrTrailingJSON | task_ErrUncertainDurability
| task_ErrNoSeal | task_ErrIncompatiblePredicate | task_ErrInvalidDiagnostic | task_ErrInvalidRecheck
| task_ErrInteractionUnavailable | task_ErrInteractionConflict
| task_ErrInteractionClosed | task_ErrInteractionRequest
| task_ErrSessionBusy | task_ErrRequestConflict | task_ErrAlreadySubmitted
| task_ErrStopAlreadyRequested | task_ErrOutcomeConflict | task_ErrPermitAlreadyUsed
| taskdir_errNoOutcome | taskdir_ErrStopInspectionLimit
| policy_ErrInvalidBudget | policy_ErrInvalidMode | policy_ErrUnsupportedProvider
| contract_ErrConflict
| sqlitestore_errCommitOutcomeUnknown
| recurrence_ErrInvalidExpression | recurrence_ErrInvalidTimezone
| recurrence_ErrLocalTimezone | recurrence_ErrRangeExhausted | recurrence_ErrLookup
| runtime_ErrRootIdentity | runtime_ErrTaskCleanupUnresolved | runtime_errSkipConflict
| resourceadmission_errMalformed
| lifetime_ErrInvalidRef
| execution_errBudgetExpiredBeforeStart
| contract_ErrInvalidDefinition
| teams_ErrNotFound | teams_ErrConflict | teams_ErrCatalogIdentity | teams_ErrProjectContext | teams_ErrProjectMismatch
| teams_ErrUnavailable | teams_ErrSchema | teams_errMissingCatalog | sql_ErrNoRows | workspace_ErrNotGitRepository.

#[global] Instance sentinel_eq_dec : EqDecision sentinel.
Proof. solve_decision. Defined.

(** [New] is a fresh [errors.New] (or [fmt.Errorf] without [%w]); [Errorf] wraps
    one cause; [Joined] is [errors.Join] or [fmt.Errorf] with several [%w];
    [Sqlite] is a driver error that carries a result code.  Messages keep the
    constant part of the format string. *)
Inductive error : Set :=
| Sentinel (s : sentinel)
| New (msg : string)
| Sqlite (code : Z)
| Errorf (msg : string) (cause : error)
| Joined (msg : string) (causes : list error).

(** ** The error monad: a Go function returning [(T, error)] *)
Inductive result (A : Type) : Type :=
| Ok (a : A)
| Err (e : error).
Arguments Ok {A} _.
Arguments Err {A} _.

#[global] Instance result_ret : MRet result := fun A a => Ok a.
#[global] Instance result_bind : MBind result := fun A B f m =>
  match m with Ok a => f a | Err e => Err e end.
#[global] Instance result_fmap : FMap result := fun A B f m =>
  match m with Ok a => Ok (f a) | Err e => Err e end.

(** [if cond { return err }] *)
Definition fail_if (b : bool) (e : error) : result unit :=
  if b then Err e else Ok tt.

(** [if err != nil { return wrap(err) }] *)
Definition wrap_err {A} (f : error -> error) (m : result A) : result A :=
  match m with Ok a => Ok a | Err e => Err (f e) end.

Definition is_ok {A} (m : result A) : bool :=
  match m with Ok _ => true | Err _ => false end.

(** The error part of a result, as Go's nilable [error]. *)
Definition err_of {A} (m : result A) : option error :=
  match m with Ok _ => None | Err e => Some e end.

(** [if v != nil { return f(v) }; return nil] over an optional value. *)
Definition when_some {A} (o : option A) (f : A -> result unit) : result unit :=
  match o with Some a => f a | None => Ok tt end.

(** ** Machine integers *)
Definition min_int64 : Z := - 2 ^ 63.
Definition max_int64 : Z := 2 ^ 63 - 1.
Definition max_uint64 : Z := 2 ^ 64 - 1.

(** Two's-complement wrap of a mathematical integer to [int64]. *)
Definition int64 (z : Z) : Z := (z + 2 ^ 63) mod 2 ^ 64 - 2 ^ 63.
Definition uint64 (z : Z) : Z := z mod 2 ^ 64.
Definition in_int64 (z : Z) : Prop := min_int64 <= z <= max_int64.

(** ** Lemmas and automation *)
Lemma bind_Ok {A B} (m : result A) (f : A -> result B) b :
  (m ≫= f) = Ok b <-> exists a, m = Ok a /\ f a = Ok b.
Proof. destruct m; cbn; naive_solver. Qed.

Lemma fail_if_Ok b e u : fail_if b e = Ok u <-> b = false.
Proof. destruct u, b; cbn; naive_solver. Qed.

Lemma wrap_err_Ok {A} f (m : result A) a : wrap_err f m = Ok a <-> m = Ok a.
Proof. destruct m; cbn; naive_solver. Qed.

Lemma fmap_Ok {A B} (f : A -> B) (m : result A) b :
  (f <$> m) = Ok b <-> exists a, m = Ok a /\ b = f a.
Proof. destruct m; cbn; naive_solver. Qed.

Lemma when_some_Ok {A} (o : option A) f u :
  when_some o f = Ok u <-> forall a, o = Some a -> f a = Ok tt.
Proof. destruct u, o; cbn; naive_solver. Qed.

Lemma int64_id z : in_int64 z -> int64 z = z.
Proof.
  unfold in_int64, int64, min_int64, max_int64. intros H.
  rewrite Z.mod_small by lia. lia.
Qed.

Lemma int64_range z : in_int64 (int64 z).
Proof.
  unfold in_int64, int64, min_int64, max_int64.
  pose proof (Z.mod_pos_bound (z + 2 ^ 63) (2 ^ 64) ltac:(lia)). lia.
Qed.

Create HintDb delegate.
#[export] Hint Resolve int64_range : delegate.
#[export] Hint Rewrite @bind_Ok @fail_if_Ok @wrap_err_Ok @fmap_Ok : result_rw.

(** Invert every successful computation in the context. *)
Ltac inv_ok :=
  repeat match goal with
  | u : unit |- _ => destruct u
  | H : (_ ≫= _) = Ok _ |- _ => apply bind_Ok in H as (? & ? & ?)
  | H : fail_if _ _ = Ok _ |- _ => apply fail_if_Ok in H
  | H : wrap_err _ _ = Ok _ |- _ => apply wrap_err_Ok in H
  | H : (_ <$> _) = Ok _ |- _ => apply fmap_Ok in H as (? & ? & ?)
  | H : Ok _ = Ok _ |- _ => injection H as H
  | H : Err _ = Ok _ |- _ => discriminate H
  | H : Ok _ = Err _ |- _ => discriminate H
  end; simplify_eq.

(** Boolean tests over [Z] and decisions, as propositions. *)
Ltac bool_prop :=
  repeat match goal with
  | H : _ && _ = true |- _ => apply andb_true_iff in H as [? ?]
  | H : _ || _ = false |- _ => apply orb_false_iff in H as [? ?]
  | H : negb _ = true |- _ => apply negb_true_iff in H
  | H : negb _ = false |- _ => apply negb_false_iff in H
  | H : bool_decide _ = true |- _ => apply bool_decide_eq_true in H
  | H : bool_decide _ = false |- _ => apply bool_decide_eq_false in H
  | H : (_ <? _) = true |- _ => apply Z.ltb_lt in H
  | H : (_ <? _) = false |- _ => apply Z.ltb_ge in H
  | H : (_ <=? _) = true |- _ => apply Z.leb_le in H
  | H : (_ <=? _) = false |- _ => apply Z.leb_gt in H
  | H : (_ =? _) = true |- _ => apply Z.eqb_eq in H
  | H : (_ =? _) = false |- _ => apply Z.eqb_neq in H
  end.
