(* ===== verification/GoErrors.v ===== *)
(** * Error trees

    [errors.Is], [errors.Join] and the three tree walks of the source that decide
    whether a whole error is one expected cause: [task.AllErrorCauses],
    [runtime.onlyCauses] and [recurrence.onlyNoCandidate]. *)
From S2P Require Import Prelude.

(** [errors.Is(err, target)] for a sentinel target. *)
Fixpoint errors_Is (err : error) (target : sentinel) : bool :=
  match err with
  | Sentinel s => bool_decide (s = target)
  | New _ | Sqlite _ => false
  | Errorf _ cause => errors_Is cause target
  | Joined _ causes => existsb (fun c => errors_Is c target) causes
  end.

(** [errors.Join]: nil arguments are dropped; all nil gives nil. *)
Definition errors_Join (errs : list (option error)) : option error :=
  match omap id errs with
  | [] => None
  | causes => Some (Joined "" causes)
  end.

(** [task.AllErrorCauses]; a nil error is [None] and never matches. *)
Fixpoint AllErrorCauses (err : error) (leaf : error -> bool) : bool :=
  match err with
  | Joined _ [] => false
  | Joined _ causes => forallb (fun c => AllErrorCauses c leaf) causes
  | Errorf _ cause => AllErrorCauses cause leaf
  | Sentinel _ | New _ | Sqlite _ => leaf err
  end.

(** [task.AnyErrorNode] *)
Fixpoint AnyErrorNode (err : error) (matches : error -> bool) : bool :=
  if matches err then true
  else match err with
       | Joined _ causes => existsb (fun c => AnyErrorNode c matches) causes
       | Errorf _ cause => AnyErrorNode cause matches
       | Sentinel _ | New _ | Sqlite _ => false
       end.

(** [task.RecordAbsent] *)
Definition RecordAbsent (err : error) : bool :=
  if errors_Is err task_ErrIdentityMismatch || errors_Is err task_ErrEvidenceFault ||
     errors_Is err context_Canceled || errors_Is err context_DeadlineExceeded
  then false
  else AllErrorCauses err (fun cause => errors_Is cause fs_ErrNotExist).

(** [runtime.onlyCauses] on a non-nil error. *)
Fixpoint onlyCauses (err : error) (allowed : list sentinel) : bool :=
  match err with
  | Joined _ causes =>
      forallb (fun c => onlyCauses c allowed) causes && (0 <? Z.of_nat (length causes))
  | Errorf _ cause => onlyCauses cause allowed
  | Sentinel _ | New _ | Sqlite _ => existsb (errors_Is err) allowed
  end.

(** [onlyCauses] on Go's nilable error: nil has only allowed causes. *)
Definition onlyCauses_nilable (err : option error) (allowed : list sentinel) : bool :=
  match err with None => true | Some e => onlyCauses e allowed end.

(** [runtime.cancellationOnly] *)
Definition cancellationOnly (err : option error) : bool :=
  onlyCauses_nilable err [context_Canceled; context_DeadlineExceeded].

(** [recurrence.onlyNoCandidate] *)
Fixpoint onlyNoCandidate (err : error) : bool :=
  if negb (errors_Is err gocron_ErrCronJobInvalid) then false
  else match err with
       | Joined _ causes => forallb onlyNoCandidate causes
       | Errorf _ cause => onlyNoCandidate cause
       | Sentinel _ | New _ | Sqlite _ => true
       end.

(** The leaves of an error tree. *)
Fixpoint leaves (err : error) : list error :=
  match err with
  | Joined _ causes => concat (map leaves causes)
  | Errorf _ cause => leaves cause
  | Sentinel _ | New _ | Sqlite _ => [err]
  end.

(** A join with no causes somewhere in the tree ([errors.Join] never builds one). *)
Fixpoint has_empty_join (err : error) : bool :=
  match err with
  | Joined _ causes =>
      match causes with [] => true | _ => existsb has_empty_join causes end
  | Errorf _ cause => has_empty_join cause
  | Sentinel _ | New _ | Sqlite _ => false
  end.

(** ** Induction over error trees *)
Section error_induction.
Context (P : error -> Prop).
Context (HS : forall s, P (Sentinel s)) (HN : forall m, P (New m)) (HQ : forall c, P (Sqlite c)).
Context (HE : forall m c, P c -> P (Errorf m c)).
Context (HJ : forall m cs, Forall P cs -> P (Joined m cs)).

Fixpoint error_tree_ind (e : error) : P e :=
  match e with
  | Sentinel s => HS s
  | New m => HN m
  | Sqlite c => HQ c
  | Errorf m c => HE m c (error_tree_ind c)
  | Joined m cs =>
      HJ m cs ((fix go cs : Forall P cs :=
                  match cs with
                  | [] => Forall_nil_2 P
                  | c :: cs => Forall_cons_2 P c cs (error_tree_ind c) (go cs)
                  end) cs)
  end.
End error_induction.

Lemma forallb_concat {A} (f : A -> bool) ls :
  forallb f (concat ls) = forallb (forallb f) ls.
Proof. induction ls as [|l ls IH]; [done|]; cbn. by rewrite forallb_app, IH. Qed.

Lemma forallb_map_ext {A B} (g : A -> B) (f : B -> bool) (h : A -> bool) l :
  Forall (fun a => h a = f (g a)) l -> forallb h l = forallb f (map g l).
Proof. induction 1 as [|a l Ha _ IH]; cbn; [done|]. by rewrite Ha, IH. Qed.

Lemma negb_existsb {A} (f : A -> bool) l : negb (existsb f l) = forallb (fun a => negb (f a)) l.
Proof. induction l as [|a l IH]; cbn; [done|]. by rewrite negb_orb, IH. Qed.

Lemma forallb_and {A} (f g : A -> bool) l :
  forallb (fun a => f a && g a) l = forallb f l && forallb g l.
Proof.
  induction l as [|a l IH]; cbn; [done|]. rewrite IH.
  destruct (f a), (g a); cbn; try done. by rewrite andb_false_r.
Qed.

(** [onlyCauses] is exactly: no empty join, and every leaf is an allowed sentinel. *)
Lemma onlyCauses_leaves err allowed :
  onlyCauses err allowed =
    negb (has_empty_join err) && forallb (fun l => existsb (errors_Is l) allowed) (leaves err).
Proof.
  induction err as [s|m|c|m c IH|m cs IH] using error_tree_ind; cbn;
    try (by rewrite andb_true_r); [done|].
  destruct cs as [|c0 cs']; [done|].
  set (cs := c0 :: cs') in *.
  replace (0 <? Z.of_nat (length cs)) with true by (symmetry; apply Z.ltb_lt; cbn; lia).
  rewrite andb_true_r, forallb_concat.
  rewrite <- (forallb_map_ext leaves _ _ cs (Forall_true _ _ (fun a => eq_refl))).
  rewrite negb_existsb. rewrite <- forallb_and.
  induction IH as [|a l Ha _ IHl]; cbn; [done|]. by rewrite Ha, IHl.
Qed.
