(* ===== verification/GoTime.v ===== *)
(** * Instants, durations and civil dates

    A [time.Time] is its instant in nanoseconds since the Unix epoch together with
    its [Location] pointer; the code compares the pointer only against [time.UTC].
    Go keeps seconds as [int64], so the instant is exact over every date the code
    can name; [UnixNano] and [Sub] keep their 64-bit behaviour. *)
From S2P Require Import Prelude.

Inductive Location : Set := UTC | Zone (name : string).

#[global] Instance Location_eq_dec : EqDecision Location.
Proof. solve_decision. Defined.

Record time : Set := MkTime { nanos : Z; location : Location }.

#[global] Instance time_eq_dec : EqDecision time.
Proof. solve_decision. Defined.

Definition Nanosecond : Z := 1.
Definition Second : Z := 10 ^ 9.
Definition Minute : Z := 60 * Second.
Definition Hour : Z := 60 * Minute.

(** The zero [time.Time]: January 1, year 1, UTC. *)
Definition zero_time : time := MkTime (- 62135596800 * Second) UTC.

Definition IsZero (t : time) : bool := nanos t =? nanos zero_time.
Definition Before (t u : time) : bool := nanos t <? nanos u.
Definition After (t u : time) : bool := nanos u <? nanos t.
Definition Equal (t u : time) : bool := nanos t =? nanos u.

(** [t.Add(d)] *)
Definition Add (t : time) (d : Z) : time := MkTime (nanos t + d) (location t).

(** [t.Sub(u)] saturates at the [Duration] range. *)
Definition Sub (t u : time) : Z :=
  Z.max min_int64 (Z.min max_int64 (nanos t - nanos u)).

(** [t.UTC()] *)
Definition toUTC (t : time) : time := MkTime (nanos t) UTC.

(** [t.UnixNano()]: the low 64 bits when the date is outside the range. *)
Definition UnixNano (t : time) : Z := int64 (nanos t).

(** [time.Unix(0, n).UTC()] *)
Definition UnixUTC (n : Z) : time := MkTime n UTC.

(** [d.Microseconds()] truncates toward zero. *)
Definition Microseconds (d : Z) : Z := Z.quot d 1000.

Lemma Before_spec t u : Before t u = true <-> nanos t < nanos u.
Proof. apply Z.ltb_lt. Qed.
Lemma After_spec t u : After t u = true <-> nanos u < nanos t.
Proof. apply Z.ltb_lt. Qed.
Lemma Equal_spec t u : Equal t u = true <-> nanos t = nanos u.
Proof. apply Z.eqb_eq. Qed.
Lemma Before_false t u : Before t u = false <-> nanos u <= nanos t.
Proof. apply Z.ltb_ge. Qed.
Lemma After_false t u : After t u = false <-> nanos t <= nanos u.
Proof. apply Z.ltb_ge. Qed.
Lemma Equal_false t u : Equal t u = false <-> nanos t <> nanos u.
Proof. apply Z.eqb_neq. Qed.

Lemma Sub_exact t u : in_int64 (nanos t - nanos u) -> Sub t u = nanos t - nanos u.
Proof. unfold Sub, in_int64. lia. Qed.

Lemma time_eta t : MkTime (nanos t) (location t) = t.
Proof. by destruct t. Qed.

(** Turn every time comparison in the context into an inequality. *)
Ltac time_prop :=
  repeat match goal with
  | H : Before _ _ = true |- _ => apply Before_spec in H
  | H : After _ _ = true |- _ => apply After_spec in H
  | H : Equal _ _ = true |- _ => apply Equal_spec in H
  | H : Before _ _ = false |- _ => apply Before_false in H
  | H : After _ _ = false |- _ => apply After_false in H
  | H : Equal _ _ = false |- _ => apply Equal_false in H
  end.

(** ** Civil dates in UTC

    The part of [time.Time] the recurrence uses: the Gregorian year of an instant, year
    starts and [AddDate(n, 0, 0)], over whole days since the epoch. *)

Definition Day : Z := 24 * Hour.

Definition dayOf (t : time) : Z := nanos t / Day.

Definition isLeap (y : Z) : bool :=
  (y mod 4 =? 0) && (negb (y mod 100 =? 0) || (y mod 400 =? 0)).

(** Leap days before January 1 of year [y], from a fixed origin. *)
Definition leapsBefore (y : Z) : Z := (y - 1) / 4 - (y - 1) / 100 + (y - 1) / 400.

(** Days from the epoch to January 1 of year [y]. *)
Definition daysBeforeYear (y : Z) : Z := 365 * (y - 1970) + (leapsBefore y - 477).

(** The year that holds day [d]: an estimate from the 400-year cycle, off by at most
    one year. *)
Definition yearOf (d : Z) : Z :=
  let y := 1970 + d * 400 / 146097 in
  if d <? daysBeforeYear y then y - 1
  else if daysBeforeYear (y + 1) <=? d then y + 1 else y.

Definition monthLengths (leap : bool) : list Z :=
  [31; if leap then 29 else 28; 31; 30; 31; 30; 31; 31; 30; 31; 30; 31].

(** Days of the year before the month at index [m]. *)
Definition daysBeforeMonth (leap : bool) (m : nat) : Z :=
  fold_right Z.add 0 (take m (monthLengths leap)).

(** Month index and day of the month, both from 0, of a day of the year. *)
Fixpoint monthDay (lengths : list Z) (m : nat) (yd : Z) : nat * Z :=
  match lengths with
  | [] => (m, yd)
  | l :: rest => if yd <? l then (m, yd) else monthDay rest (S m) (yd - l)
  end.

(** [time.Date(y, time.January, 1, 0, 0, 0, 0, time.UTC)] *)
Definition yearStart (y : Z) : time := UnixUTC (daysBeforeYear y * Day).

(** [t.UTC().Year()] *)
Definition Year (t : time) : Z := yearOf (dayOf t).

(** [t.AddDate(years, 0, 0)] for an instant in UTC: the same month, day and clock of
    another year, with a day past the end of the month carried over. *)
Definition AddDate (t : time) (years : Z) : time :=
  let d := dayOf t in
  let y := yearOf d in
  let '(m, dom) := monthDay (monthLengths (isLeap y)) 0 (d - daysBeforeYear y) in
  let d' := daysBeforeYear (y + years) + daysBeforeMonth (isLeap (y + years)) m + dom in
  MkTime (d' * Day + nanos t mod Day) (location t).

(** ** Lemmas *)
Lemma yearOf_spec d :
  daysBeforeYear (yearOf d) <= d < daysBeforeYear (yearOf d + 1).
Proof.
  unfold yearOf. set (y := 1970 + d * 400 / 146097).
  assert (daysBeforeYear (y - 1) <= d < daysBeforeYear (y + 2)) as Hb.
  { unfold daysBeforeYear, leapsBefore, y. Z.div_mod_to_equations. lia. }
  destruct (Z.ltb_spec d (daysBeforeYear y)).
  - replace (y - 1 + 1) with y by lia. lia.
  - destruct (Z.leb_spec (daysBeforeYear (y + 1)) d); [|lia].
    replace (y + 1 + 1) with (y + 2) by lia. lia.
Qed.

Lemma daysBeforeYear_step y : daysBeforeYear (y + 1) = daysBeforeYear y + (if isLeap y then 366 else 365).
Proof.
  unfold daysBeforeYear, leapsBefore, isLeap. replace (y + 1 - 1) with y by lia.
  destruct (Z.eqb_spec (y mod 4) 0), (Z.eqb_spec (y mod 100) 0), (Z.eqb_spec (y mod 400) 0); cbn;
    Z.div_mod_to_equations; lia.
Qed.

Lemma daysBeforeYear_add y n : 0 <= n -> daysBeforeYear y + 365 * n <= daysBeforeYear (y + n).
Proof.
  intros Hn. revert y. revert n Hn.
  apply (natlike_ind (fun n => forall y, daysBeforeYear y + 365 * n <= daysBeforeYear (y + n))).
  - intros y. replace (y + 0) with y by lia. lia.
  - intros x Hx IH y. pose proof (daysBeforeYear_step y). specialize (IH (y + 1)).
    replace (y + Z.succ x) with (y + 1 + x) by lia. destruct (isLeap y); lia.
Qed.

Lemma monthDay_spec (leap : bool) (yd : Z) :
  0 <= yd < (if leap then 366 else 365) ->
  let '(m, dom) := monthDay (monthLengths leap) 0 yd in
  (m < 12)%nat /\ daysBeforeMonth leap m + dom = yd.
Proof.
  intros H. destruct leap; cbn [monthDay monthLengths];
    repeat (match goal with |- context [?a <? ?b] => destruct (Z.ltb_spec a b) end;
            [cbn; lia|]); lia.
Qed.

Lemma daysBeforeMonth_leap m b b' : daysBeforeMonth b m <= daysBeforeMonth b' m + 1.
Proof. do 13 (destruct m as [|m]; [by destruct b, b'|]). by destruct b, b', m. Qed.

(** Adding years moves an instant by at least 365 days a year, less one leap day. *)
Lemma AddDate_bounds t n :
  0 <= n -> nanos t + (365 * n - 1) * Day <= nanos (AddDate t n).
Proof.
  intros Hn. unfold AddDate. set (d := dayOf t). set (y := yearOf d).
  pose proof (yearOf_spec d) as [Hl Hu]. fold y in Hl, Hu. rewrite daysBeforeYear_step in Hu.
  pose proof (monthDay_spec (isLeap y) (d - daysBeforeYear y)) as Hm.
  destruct (monthDay _ _ _) as [m dom]. destruct Hm as [_ Hm]; [destruct (isLeap y); lia|].
  pose proof (daysBeforeMonth_leap m (isLeap y) (isLeap (y + n))).
  pose proof (daysBeforeYear_add y n Hn).
  assert (nanos t = d * Day + nanos t mod Day) as Ht.
  { unfold d, dayOf. pose proof (Z.div_mod (nanos t) Day ltac:(done)). lia. }
  cbn [nanos]. rewrite Ht at 1. assert (0 < Day) by done. nia.
Qed.

(** One more year moves an instant forward. *)
Lemma AddDate_mono t n : nanos (AddDate t n) <= nanos (AddDate t (n + 1)).
Proof.
  unfold AddDate. set (d := dayOf t). set (y := yearOf d).
  destruct (monthDay _ _ _) as [m dom]. cbn [nanos].
  pose proof (daysBeforeMonth_leap m (isLeap (y + n)) (isLeap (y + (n + 1)))).
  pose proof (daysBeforeYear_step (y + n)) as Hs. replace (y + n + 1) with (y + (n + 1)) in Hs by lia.
  assert (0 < Day) by done. destruct (isLeap (y + n)); nia.
Qed.
