(* ===== verification/GoText.v ===== *)
(** * Byte strings, runes and decimal numbers

    The parts of [strings], [unicode], [unicode/utf8], [strconv] and
    [path/filepath] (Unix) the source uses, over byte strings. *)
From S2P Require Import Prelude.
From Stdlib Require Import Ascii.

Definition byte_of (c : ascii) : Z := Z.of_N (N_of_ascii c).
Definition bytes (s : string) : list ascii := String.list_ascii_of_string s.
Definition str (l : list ascii) : string := String.string_of_list_ascii l.

(** [len(s)] *)
Definition len (s : string) : Z := Z.of_nat (String.length s).

(** ** UTF-8 *)
Definition RuneError : Z := 65533.

Definition between (lo x hi : Z) : bool := (lo <=? x) && (x <=? hi).
Definition continuation (c : ascii) : bool := between 128 (byte_of c) 191.

Definition two_byte (a b : ascii) : bool :=
  between 194 (byte_of a) 223 && continuation b.

Definition three_byte (a b c : ascii) : bool :=
  let x := byte_of a in
  between 224 x 239 && continuation c &&
  between (if x =? 224 then 160 else 128) (byte_of b) (if x =? 237 then 159 else 191).

Definition four_byte (a b c d : ascii) : bool :=
  let x := byte_of a in
  between 240 x 244 && continuation c && continuation d &&
  between (if x =? 240 then 144 else 128) (byte_of b) (if x =? 244 then 143 else 191).

(** The runes of a string as [for _, r := range s] yields them, each with its bytes;
    an invalid byte yields [RuneError] of width one. *)
Fixpoint decodeRunes (l : list ascii) : list (Z * list ascii) :=
  match l with
  | [] => []
  | a :: l1 =>
    if byte_of a <? 128 then (byte_of a, [a]) :: decodeRunes l1
    else match l1 with
    | [] => (RuneError, [a]) :: decodeRunes l1
    | b :: l2 =>
      if two_byte a b
      then ((byte_of a - 192) * 64 + (byte_of b - 128), [a; b]) :: decodeRunes l2
      else match l2 with
      | [] => (RuneError, [a]) :: decodeRunes l1
      | c :: l3 =>
        if three_byte a b c
        then ((byte_of a - 224) * 4096 + (byte_of b - 128) * 64 + (byte_of c - 128), [a; b; c])
             :: decodeRunes l3
        else match l3 with
        | [] => (RuneError, [a]) :: decodeRunes l1
        | d :: l4 =>
          if four_byte a b c d
          then ((byte_of a - 240) * 262144 + (byte_of b - 128) * 4096
                + (byte_of c - 128) * 64 + (byte_of d - 128), [a; b; c; d]) :: decodeRunes l4
          else (RuneError, [a]) :: decodeRunes l1
        end
      end
    end
  end.

Definition runes (s : string) : list (Z * list ascii) := decodeRunes (bytes s).

(** [utf8.ValidString] *)
Definition ValidString (s : string) : bool :=
  forallb (fun p => negb ((fst p =? RuneError) && (Z.of_nat (length (snd p)) =? 1))) (runes s).

(** [unicode.IsControl] *)
Definition IsControl (r : Z) : bool := between 0 r 31 || between 127 r 159.

(** [unicode.IsSpace] *)
Definition IsSpace (r : Z) : bool :=
  between 9 r 13 || (r =? 32) || (r =? 133) || (r =? 160) || (r =? 5760) ||
  between 8192 r 8202 || (r =? 8232) || (r =? 8233) || (r =? 8239) || (r =? 8287) || (r =? 12288).

(** [s > t] on strings: bytewise. *)
Definition text_after (s t : string) : bool := negb (String.leb s t).

(** [strings.ContainsFunc] *)
Definition ContainsFunc (s : string) (f : Z -> bool) : bool :=
  existsb (fun p => f (fst p)) (runes s).

(** [strings.ContainsRune] for an ASCII rune *)
Definition ContainsByte (s : string) (c : ascii) : bool :=
  existsb (fun d => bool_decide (d = c)) (bytes s).

Fixpoint dropSpace (l : list (Z * list ascii)) : list (Z * list ascii) :=
  match l with
  | [] => []
  | p :: l' => if IsSpace (fst p) then dropSpace l' else l
  end.

Definition unchunk (l : list (Z * list ascii)) : list ascii := concat (map snd l).

(** [strings.TrimSpace] *)
Definition TrimSpace (s : string) : string :=
  str (unchunk (rev (dropSpace (rev (dropSpace (runes s)))))).

(** [strings.Fields]: the maximal runs of non-space runes. *)
Fixpoint fieldsFrom (l : list (Z * list ascii)) (word : list ascii) : list string :=
  match l with
  | [] => match word with [] => [] | _ => [str word] end
  | p :: l' =>
      if IsSpace (fst p)
      then match word with [] => fieldsFrom l' [] | _ => str word :: fieldsFrom l' [] end
      else fieldsFrom l' (word ++ snd p)
  end.
Definition Fields (s : string) : list string := fieldsFrom (runes s) [].

(** [strings.Split(s, sep)] for a one-byte separator. *)
Fixpoint splitBytes (l : list ascii) (sep : ascii) (word : list ascii) : list string :=
  match l with
  | [] => [str word]
  | c :: l' =>
      if bool_decide (c = sep) then str word :: splitBytes l' sep []
      else splitBytes l' sep (word ++ [c])
  end.
Definition Split (s : string) (sep : ascii) : list string := splitBytes (bytes s) sep [].

(** [strings.Cut(s, sep)] for a one-byte separator. *)
Fixpoint cutBytes (l : list ascii) (sep : ascii) (word : list ascii) : string * string * bool :=
  match l with
  | [] => (str word, ""%string, false)
  | c :: l' =>
      if bool_decide (c = sep) then (str word, str l', true)
      else cutBytes l' sep (word ++ [c])
  end.
Definition Cut (s : string) (sep : ascii) : string * string * bool := cutBytes (bytes s) sep [].

(** [strings.CutPrefix] and [strings.HasSuffix] *)
Fixpoint stripPrefix (p l : list ascii) : option (list ascii) :=
  match p, l with
  | [], _ => Some l
  | a :: p', b :: l' => if bool_decide (a = b) then stripPrefix p' l' else None
  | _ :: _, [] => None
  end.
Definition CutPrefix (s prefix : string) : string * bool :=
  match stripPrefix (bytes prefix) (bytes s) with
  | Some rest => (str rest, true)
  | None => (s, false)
  end.
Definition HasSuffix (s suffix : string) : bool :=
  match stripPrefix (rev (bytes suffix)) (rev (bytes s)) with Some _ => true | None => false end.

(** ** Character classes and decimal numbers *)
Definition isDigit (c : ascii) : bool := between 48 (byte_of c) 57.
Definition isLower (c : ascii) : bool := between 97 (byte_of c) 122.
Definition isUpper (c : ascii) : bool := between 65 (byte_of c) 90.
Definition isHexLower (c : ascii) : bool := isDigit c || between 97 (byte_of c) 102.
Definition isAlpha (c : ascii) : bool := isLower c || isUpper c.

Definition digit (c : ascii) : Z := byte_of c - 48.
Definition decimal (l : list ascii) : Z := fold_left (fun n c => 10 * n + digit c) l 0.

(** [strconv.ParseUint(s, 10, 64)] *)
Definition ParseUint (s : string) : result Z :=
  let l := bytes s in
  if negb (0 <? Z.of_nat (length l)) || negb (forallb isDigit l) then Err (New "invalid syntax")
  else if max_uint64 <? decimal l then Err (New "value out of range")
  else Ok (decimal l).

(** [strconv.Atoi] on a 64-bit platform *)
Definition Atoi (s : string) : result Z :=
  let l := bytes s in
  let '(neg, digits) := match l with
                        | c :: l' => if bool_decide (c = "-"%char) then (true, l')
                                     else if bool_decide (c = "+"%char) then (false, l')
                                     else (false, l)
                        | [] => (false, l)
                        end in
  if negb (0 <? Z.of_nat (length digits)) || negb (forallb isDigit digits)
  then Err (New "invalid syntax")
  else let v := if neg then - decimal digits else decimal digits in
       if (v <? min_int64) || (max_int64 <? v) then Err (New "value out of range") else Ok v.

(** ** Paths (Unix) *)
Definition IsAbs (s : string) : bool :=
  match bytes s with c :: _ => bool_decide (c = "/"%char) | [] => false end.

(** The component stack of [filepath.Clean], innermost first. *)
Fixpoint cleanParts (rooted : bool) (parts stack : list string) : list string :=
  match parts with
  | [] => stack
  | p :: parts' =>
      if bool_decide (p = ""%string) || bool_decide (p = "."%string)
      then cleanParts rooted parts' stack
      else if bool_decide (p = ".."%string) then
        match stack with
        | top :: rest => if bool_decide (top = ".."%string)
                         then cleanParts rooted parts' (p :: stack)
                         else cleanParts rooted parts' rest
        | [] => cleanParts rooted parts' (if rooted then [] else [p])
        end
      else cleanParts rooted parts' (p :: stack)
  end.

(** [filepath.Clean] *)
Definition Clean (s : string) : string :=
  let rooted := IsAbs s in
  let parts := rev (cleanParts rooted (Split s "/") []) in
  let joined := String.concat "/" parts in
  if rooted then String.append "/" joined
  else if bool_decide (joined = ""%string) then "."%string else joined.

(** ** Lemmas *)
Lemma bytes_str l : bytes (str l) = l.
Proof. apply String.list_ascii_of_string_of_list_ascii. Qed.
Lemma str_bytes s : str (bytes s) = s.
Proof. apply String.string_of_list_ascii_of_string. Qed.
Lemma stripPrefix_app p l : stripPrefix p (p ++ l) = Some l.
Proof. induction p as [|a p IH]; cbn; [done|]. by rewrite bool_decide_true. Qed.
Lemma byte_range c : 0 <= byte_of c < 256.
Proof. unfold byte_of. pose proof (N_ascii_bounded c). lia. Qed.

(** ** ASCII text without spaces *)
Definition spaceless (c : ascii) : bool := (byte_of c <? 128) && negb (IsSpace (byte_of c)).

Lemma decodeRunes_spaceless l : forallb spaceless l = true -> decodeRunes l = map (fun c => (byte_of c, [c])) l.
Proof.
  induction l as [|c l IH]; [done|]. cbn [forallb map]. intros [Hc HF]%andb_true_iff.
  apply andb_true_iff in Hc as [Hb _]. cbn [decodeRunes]. by rewrite Hb, IH.
Qed.

Lemma dropSpace_spaceless l : forallb spaceless l = true ->
  dropSpace (map (fun c => (byte_of c, [c])) l) = map (fun c => (byte_of c, [c])) l.
Proof.
  destruct l as [|c l]; [done|]. cbn. intros [Hc _]%andb_true_iff. unfold spaceless in Hc.
  apply andb_true_iff in Hc as [_ Hs%negb_true_iff]. by rewrite Hs.
Qed.

Lemma TrimSpace_spaceless s : forallb spaceless (bytes s) = true -> TrimSpace s = s.
Proof.
  intros HF. unfold TrimSpace, runes. rewrite decodeRunes_spaceless, dropSpace_spaceless by done.
  rewrite <- map_rev, dropSpace_spaceless.
  - rewrite <- map_rev, rev_involutive. unfold unchunk. rewrite map_map. cbn.
    replace (concat (map (fun c => [c]) (bytes s))) with (bytes s); [apply str_bytes|].
    induction (bytes s) as [|c l IH]; [done|]. cbn in HF |- *. apply andb_true_iff in HF as [_ HF].
    by rewrite <- IH.
  - rewrite forallb_forall in *. intros c Hc. apply HF. by apply in_rev.
Qed.

Lemma digit_spaceless c : isDigit c = true -> spaceless c = true.
Proof.
  unfold isDigit, spaceless, between, IsSpace, between. intros Hc. bool_prop.
  apply andb_true_iff. split; [apply Z.ltb_lt; lia|]. apply negb_true_iff.
  repeat (apply orb_false_iff; split); try (apply andb_false_iff);
    first [apply Z.eqb_neq; lia|left; apply Z.leb_gt; lia|right; apply Z.leb_gt; lia].
Qed.

Lemma digits_spaceless l : forallb isDigit l = true -> forallb spaceless l = true.
Proof. rewrite !forallb_forall. intros HF c Hc. by apply digit_spaceless, HF. Qed.
