(* ===== verification/GoFloat.v ===== *)
(** * [float64] and [time.ParseDuration]

    [float64] is IEEE 754 binary64 with round to nearest even, computed by the
    Standard Library's executable specification ([SpecFloat]) at precision 53 and
    maximal exponent 1024. *)
From S2P Require Import Prelude GoTime GoText.
From Stdlib Require Import SpecFloat Ascii.

Definition float64 : Set := spec_float.

Definition fadd : float64 -> float64 -> float64 := SFadd 53 1024.
Definition fsub : float64 -> float64 -> float64 := SFsub 53 1024.
Definition fmul : float64 -> float64 -> float64 := SFmul 53 1024.
Definition fdiv : float64 -> float64 -> float64 := SFdiv 53 1024.
Definition flt : float64 -> float64 -> bool := SFltb.
Definition fle : float64 -> float64 -> bool := SFleb.
Definition feq : float64 -> float64 -> bool := SFeqb.
Definition fzero : float64 := S754_zero false.

(** [float64(n)] for an integer [n] *)
Definition of_int (n : Z) : float64 := binary_normalize 53 1024 n 0 false.

(** The constant [n/d] of the source, rounded once. *)
Definition const (n d : Z) : float64 := fdiv (of_int n) (of_int d).

Definition IsNaN (f : float64) : bool := match f with S754_nan => true | _ => false end.
Definition IsInf (f : float64) : bool := match f with S754_infinity _ => true | _ => false end.

(** The built-in [min] on floats: NaN if either is NaN, and [-0 < +0]. *)
Definition fmin (a b : float64) : float64 :=
  if IsNaN a || IsNaN b then S754_nan
  else if flt b a then b
  else match a, b with
       | S754_zero _, S754_zero true => b
       | _, _ => a
       end.

(** [uint64(f)] for a non-negative [f] in range: truncation toward zero. *)
Definition truncate (f : float64) : Z :=
  match f with
  | S754_finite false m e => Z.shiftl (Z.pos m) e
  | _ => 0
  end.

(** ** [time.ParseDuration] *)
Definition unitMap (u : string) : option Z :=
  if bool_decide (u = "ns"%string) then Some Nanosecond
  else if bool_decide (u = "us"%string) then Some 1000
  else if bool_decide (bytes u = ["194"%char; "181"%char; "s"%char]) then Some 1000 (* U+00B5 *)
  else if bool_decide (bytes u = ["206"%char; "188"%char; "s"%char]) then Some 1000 (* U+03BC *)
  else if bool_decide (u = "ms"%string) then Some 1000000
  else if bool_decide (u = "s"%string) then Some Second
  else if bool_decide (u = "m"%string) then Some Minute
  else if bool_decide (u = "h"%string) then Some Hour
  else None.

(** [leadingInt]: [None] on overflow past [1<<63]. *)
Fixpoint leadingInt (l : list ascii) (x : Z) : option (Z * list ascii) :=
  match l with
  | c :: l' =>
      if isDigit c then
        if 2 ^ 63 / 10 <? x then None
        else let x' := x * 10 + digit c in
             if 2 ^ 63 <? x' then None else leadingInt l' x'
      else Some (x, l)
  | [] => Some (x, l)
  end.

(** [leadingFraction]: digits past an overflow are skipped. *)
Fixpoint leadingFraction (l : list ascii) (x : Z) (scale : float64) (overflow : bool)
    : Z * float64 * list ascii :=
  match l with
  | c :: l' =>
      if isDigit c then
        if overflow then leadingFraction l' x scale true
        else if (2 ^ 63 - 1) / 10 <? x then leadingFraction l' x scale true
        else let y := x * 10 + digit c in
             if 2 ^ 63 <? y then leadingFraction l' x scale true
             else leadingFraction l' y (fmul scale (of_int 10)) false
      else (x, scale, l)
  | [] => (x, scale, l)
  end.

Definition unitByte (c : ascii) : bool := negb (bool_decide (c = "."%char) || isDigit c).

Fixpoint spanUnit (l : list ascii) : list ascii * list ascii :=
  match l with
  | c :: l' => if unitByte c then let '(u, r) := spanUnit l' in (c :: u, r) else ([], l)
  | [] => ([], [])
  end.

Definition durationError : error := New "time: invalid duration".

(** One [number unit] group of the duration: its nanoseconds and the rest. *)
Definition durationGroup (l : list ascii) : result (Z * list ascii) :=
  match l with
  | [] => Err durationError
  | c :: _ =>
    if negb (bool_decide (c = "."%char) || isDigit c) then Err durationError else
    match leadingInt l 0 with
    | None => Err durationError
    | Some (v, l1) =>
      let pre := negb (Z.of_nat (length l) =? Z.of_nat (length l1)) in
      let '(f, scale, l2, post) :=
        match l1 with
        | d :: l1' => if bool_decide (d = "."%char)
                      then let '(f, scale, l2) := leadingFraction l1' 0 (of_int 1) false in
                           (f, scale, l2, negb (Z.of_nat (length l1') =? Z.of_nat (length l2)))
                      else (0, of_int 1, l1, false)
        | [] => (0, of_int 1, l1, false)
        end in
      if negb pre && negb post then Err durationError else
      let '(u, l3) := spanUnit l2 in
      match u, unitMap (str u) with
      | [], _ => Err durationError
      | _, None => Err durationError
      | _, Some unit =>
        if 2 ^ 63 / unit <? v then Err durationError else
        let v1 := v * unit in
        let v2 := if 0 <? f then v1 + truncate (fmul (of_int f) (fdiv (of_int unit) scale)) else v1 in
        if (0 <? f) && (2 ^ 63 <? v2) then Err durationError else Ok (v2, l3)
      end
    end
  end.

(** The loop consumes at least a unit per turn, so the length bounds its turns. *)
Fixpoint durationLoop (fuel : nat) (l : list ascii) (d : Z) : result Z :=
  match l, fuel with
  | [], _ => Ok d
  | _, O => Err durationError
  | _, S fuel' =>
      '(v, l') ← durationGroup l;
      let d' := uint64 (d + v) in
      if 2 ^ 63 <? d' then Err durationError else durationLoop fuel' l' d'
  end.

Definition ParseDuration (s : string) : result Z :=
  let '(neg, l) := match bytes s with
                   | c :: l' => if bool_decide (c = "-"%char) then (true, l')
                                else if bool_decide (c = "+"%char) then (false, l')
                                else (false, c :: l')
                   | [] => (false, [])
                   end in
  if bool_decide (l = ["0"%char]) then Ok 0
  else match l with
  | [] => Err durationError
  | _ =>
      d ← durationLoop (length l) l 0;
      if neg then Ok (- d)
      else if 2 ^ 63 - 1 <? d then Err durationError else Ok d
  end.
