(* ===== verification/TaskTypes.v ===== *)
(** * Task values shared by the components

    [internal/task]: identifiers, digests, closed enumerations and requested
    options; [internal/config/policy]: budgets, modes and provider identifiers. *)
From S2P Require Import Prelude GoErrors GoTime GoText GoFloat.
From Stdlib Require Import Ascii.

Definition MaxControlRecordSize : Z := 1024 * 1024.
Definition MaxBriefSize : Z := 8 * 1024 * 1024.

(** ** Identifiers and digests *)

(** [hexPattern] and [hex64Pattern]: [n] lowercase hexadecimal bytes. *)
Definition hexText (n : Z) (s : string) : bool :=
  (len s =? n) && forallb isHexLower (bytes s).

Definition ValidateTaskID (id : string) : result unit :=
  fail_if (negb (hexText 32 id)) (Sentinel task_ErrInvalidTaskID).

Definition ValidateRootID (id : string) : result unit :=
  fail_if (negb (hexText 32 id)) (Sentinel task_ErrInvalidRootID).

Definition ValidateSHA256 (s : string) : result unit :=
  fail_if (negb (hexText 64 s))
    (New "invalid SHA-256 digest: must be exactly 64 lowercase hex characters").

(** ** Closed enumerations, stored as [uint8] *)
Definition LivenessUndetermined : Z := 0.
Definition LivenessRunning : Z := 1.
Definition LivenessEnded : Z := 2.

Definition AdmissionUnknown : Z := 0.
Definition AdmissionNotAdmitted : Z := 1.
Definition AdmissionAdmitted : Z := 2.

Definition PublicationUnknown : Z := 0.
Definition PublicationPending : Z := 1.
Definition PublicationCommitted : Z := 2.
Definition PublicationRejected : Z := 3.

(** ** Requested options *)
Record ReviewTarget : Set := MkReviewTarget { rt_Kind : string; rt_Value : string }.

Record TaskConfig : Set := MkTaskConfig {
  tc_Interactive : bool;
  tc_Model : string;
  tc_Effort : string;
  tc_Permission : string;
  tc_Budget : string;
  tc_NativeTimeout : string;
  tc_ReviewTarget : option ReviewTarget
}.

Record TeamProject : Set := MkTeamProject { tp_Kind : string; tp_Path : string }.

Record TeamReference : Set := MkTeamReference {
  tr_Scope : string;
  tr_TeamID : string;
  tr_Project : option TeamProject
}.

Record TeamTarget : Set := MkTeamTarget {
  tt_Team : TeamReference;
  tt_MemberID : string;
  tt_CatalogID : string
}.

#[global] Instance ReviewTarget_eq_dec : EqDecision ReviewTarget.
Proof. solve_decision. Defined.
#[global] Instance TaskConfig_eq_dec : EqDecision TaskConfig.
Proof. solve_decision. Defined.
#[global] Instance TeamProject_eq_dec : EqDecision TeamProject.
Proof. solve_decision. Defined.
#[global] Instance TeamReference_eq_dec : EqDecision TeamReference.
Proof. solve_decision. Defined.
#[global] Instance TeamTarget_eq_dec : EqDecision TeamTarget.
Proof. solve_decision. Defined.

Definition eqs (a b : string) : bool := bool_decide (a = b).

(** ** Policy *)
Definition DefaultBudgetDuration : Z := 30 * Minute.
Definition DefaultCodexReviewBudgetDuration : Z := Hour.
Definition DefaultMode : string := "read-only".
Definition ModeReadOnly : string := "read-only".
Definition ModeWorkspaceWrite : string := "workspace-write".
Definition ProviderCodexReview : string := "codex:review".

Definition ParseBudget (budgetStr : string) : result Z :=
  if eqs budgetStr "" then Ok DefaultBudgetDuration
  else
    duration ← wrap_err (fun e => Joined "" [Sentinel policy_ErrInvalidBudget; e])
                 (ParseDuration budgetStr);
    if duration <=? 0 then Err (Sentinel policy_ErrInvalidBudget) else Ok duration.

Definition ParseBudgetForProvider (provider budgetStr : string) : result Z :=
  if eqs budgetStr "" && eqs provider ProviderCodexReview
  then Ok DefaultCodexReviewBudgetDuration
  else ParseBudget budgetStr.

Definition ValidateMode (mode : string) : result unit :=
  let mode := if eqs mode "" then DefaultMode else mode in
  if eqs mode ModeReadOnly || eqs mode ModeWorkspaceWrite then Ok tt
  else Err (Errorf "" (Sentinel policy_ErrInvalidMode)).

Definition validProviderComponent (value : string) : bool :=
  match bytes value with
  | [] => false
  | c :: rest =>
      isLower c &&
      forallb (fun p => let r := fst p in
                 between 97 r 122 || between 48 r 57 || (r =? 45) || (r =? 95) || (r =? 46))
              (decodeRunes rest)
  end.

Definition ValidateProvider (provider : string) : result unit :=
  let '(name, transport, found) := Cut provider ":" in
  fail_if (negb found || ContainsByte transport ":" ||
           negb (validProviderComponent name) || negb (validProviderComponent transport))
    (Errorf "" (Sentinel policy_ErrUnsupportedProvider)).

(** ** Option checks *)
Definition nonblank (value : string) : bool :=
  negb (eqs (TrimSpace value) "") && negb (ContainsByte value "000").

Definition IsCanonicalCwd (value : string) : bool :=
  nonblank value && IsAbs value && eqs (Clean value) value.

Definition errNativeTimeoutBounds : error :=
  New "native timeout must be positive and no greater than the task budget".

Definition parseNativeTimeout (value : string) : result Z :=
  match ParseDuration value with
  | Err _ => Err errNativeTimeoutBounds
  | Ok duration => if duration <=? 0 then Err errNativeTimeoutBounds else Ok duration
  end.

Definition checkNativeTimeoutBudget (timeout budget : Z) : result unit :=
  fail_if (budget <? timeout) errNativeTimeoutBounds.

Definition validateModelEffort (model effort : string) : result unit :=
  fail_if (existsb (fun value => negb (eqs (TrimSpace value) value) || ContainsByte value "000")
             [model; effort])
    (New "model and effort must be nonblank literal values when supplied").

Definition validReviewTargetValue (value : string) : bool :=
  if negb (nonblank value) || (MaxControlRecordSize <? len value) ||
     negb (eqs (TrimSpace value) value) || negb (ValidString value)
  then false
  else forallb (fun p => let c := fst p in
                  negb ((c <? 32) || (c =? 127) || ((128 <=? c) && (c <=? 159)))) (runes value).

Definition ReviewTargetUncommitted : string := "uncommitted".
Definition ReviewTargetBase : string := "base".
Definition ReviewTargetCommit : string := "commit".

Definition ValidateReviewTarget (target : option ReviewTarget) : result unit :=
  match target with
  | None => Ok tt
  | Some t =>
      if eqs (rt_Kind t) ReviewTargetUncommitted
      then fail_if (negb (eqs (rt_Value t) "")) (New "uncommitted review target cannot have a value")
      else if eqs (rt_Kind t) ReviewTargetBase || eqs (rt_Kind t) ReviewTargetCommit
      then fail_if (negb (validReviewTargetValue (rt_Value t)))
             (New "review target value must be a nonblank literal")
      else Err (New "unknown review target")
  end.

Definition ValidateRequestedOptions (request : TaskConfig) : result unit :=
  (if eqs (tc_Permission request) "" then Ok tt else ValidateMode (tc_Permission request)) ;;
  budget ← (if eqs (tc_Budget request) "" then Ok 0 else ParseBudget (tc_Budget request));
  (if eqs (tc_NativeTimeout request) "" then Ok tt
   else timeout ← parseNativeTimeout (tc_NativeTimeout request);
        if eqs (tc_Budget request) "" then Ok tt
        else checkNativeTimeoutBudget timeout budget) ;;
  validateModelEffort (tc_Model request) (tc_Effort request) ;;
  ValidateReviewTarget (tc_ReviewTarget request).

(** ** Team selection *)

(** [teamIdentifier]: [^[a-z0-9]+(-[a-z0-9]+)*$], one state per position:
    [inWord] holds after at least one letter or digit of the current word. *)
Fixpoint teamIdentifier (l : list ascii) (inWord : bool) : bool :=
  match l with
  | [] => inWord
  | c :: l' =>
      if isDigit c || isLower c then teamIdentifier l' true
      else bool_decide (c = "-"%char) && inWord && teamIdentifier l' false
  end.

Definition ValidateTeamID (id : string) : result unit :=
  fail_if ((64 <? len id) || negb (teamIdentifier (bytes id) false))
    (Errorf "identifier must be 1-64 lowercase letters/digits with internal single hyphens"
       (Sentinel task_ErrInvalidTeamSelection)).

Definition ValidateTeamReference (reference : TeamReference) : result unit :=
  ValidateTeamID (tr_TeamID reference) ;;
  if eqs (tr_Scope reference) "user"
  then fail_if (match tr_Project reference with Some _ => true | None => false end)
         (Errorf "user scope cannot carry a project" (Sentinel task_ErrInvalidTeamSelection))
  else if eqs (tr_Scope reference) "project"
  then fail_if (match tr_Project reference with
                | None => true
                | Some p => negb (IsCanonicalCwd (tp_Path p)) ||
                            (negb (eqs (tp_Kind p) "git") && negb (eqs (tp_Kind p) "directory"))
                end)
         (Errorf "project scope requires a canonical git/directory project"
            (Sentinel task_ErrInvalidTeamSelection))
  else Err (Errorf "scope must be user or project" (Sentinel task_ErrInvalidTeamSelection)).

Definition ValidateTeamTarget (target : TeamTarget) (requireCatalog : bool) : result unit :=
  ValidateTeamReference (tt_Team target) ;;
  ValidateTeamID (tt_MemberID target) ;;
  if negb (eqs (tt_CatalogID target) "") || requireCatalog
  then wrap_err (fun e => Joined "invalid catalog identity" [Sentinel task_ErrInvalidTeamSelection; e])
         (ValidateRootID (tt_CatalogID target))
  else Ok tt.

(** ** Lemmas *)
Lemma eqs_true a b : eqs a b = true <-> a = b.
Proof. apply bool_decide_eq_true. Qed.
Lemma eqs_false a b : eqs a b = false <-> a <> b.
Proof. apply bool_decide_eq_false. Qed.
Lemma eqs_refl a : eqs a a = true.
Proof. by apply eqs_true. Qed.

Lemma ValidateTaskID_Ok id : ValidateTaskID id = Ok tt <-> hexText 32 id = true.
Proof. unfold ValidateTaskID. rewrite fail_if_Ok, negb_false_iff. done. Qed.

Lemma ValidateSHA256_Ok s : ValidateSHA256 s = Ok tt <-> hexText 64 s = true.
Proof. unfold ValidateSHA256. rewrite fail_if_Ok, negb_false_iff. done. Qed.
