(* ===== verification/Encoding.v ===== *)
(** * Canonical JSON and SHA-256

    [task.MarshalCanonical] over the JSON values the modelled records build, with
    the string escaping of [encoding/json], and [task.ComputeSHA256] with the
    SHA-256 function of FIPS 180-4 over 32-bit words. *)
From S2P Require Import Prelude GoText TaskTypes.
From Stdlib Require Import Ascii.
From Stdlib Require DecimalString DecimalZ.

Definition byte (z : Z) : ascii := ascii_of_N (Z.to_N z).

Definition hexDigit (d : Z) : ascii := if d <? 10 then byte (48 + d) else byte (87 + d).

(** ** SHA-256 *)
Section SHA256.
Definition w32 (z : Z) : Z := z mod 2 ^ 32.
Definition rotr (n x : Z) : Z := Z.lor (Z.shiftr x n) (w32 (Z.shiftl x (32 - n))).
Definition Ch (x y z : Z) : Z := Z.lxor (Z.land x y) (Z.land (Z.lxor x (2 ^ 32 - 1)) z).
Definition Maj (x y z : Z) : Z := Z.lxor (Z.land x y) (Z.lxor (Z.land x z) (Z.land y z)).
Definition Sigma0 (x : Z) : Z := Z.lxor (rotr 2 x) (Z.lxor (rotr 13 x) (rotr 22 x)).
Definition Sigma1 (x : Z) : Z := Z.lxor (rotr 6 x) (Z.lxor (rotr 11 x) (rotr 25 x)).
Definition sigma0 (x : Z) : Z := Z.lxor (rotr 7 x) (Z.lxor (rotr 18 x) (Z.shiftr x 3)).
Definition sigma1 (x : Z) : Z := Z.lxor (rotr 17 x) (Z.lxor (rotr 19 x) (Z.shiftr x 10)).

(** The constants of the hash, as FIPS 180-4 defines them: the first 32 bits of the
    fractional parts of the cube (square) roots of the first 64 (8) primes. *)
Definition prime (n : nat) : bool :=
  (1 <? n)%nat && forallb (fun d => negb (n mod d =? 0)%nat) (seq 2 (n - 2)).

(** The largest [r < 2 ^ bits] whose cube is at most [n], bit by bit. *)
Fixpoint cubeRoot (bits : nat) (r n : Z) : Z :=
  match bits with
  | O => r
  | S b => let r' := r + 2 ^ Z.of_nat b in cubeRoot b (if r' * r' * r' <=? n then r' else r) n
  end.

Definition primes : list Z := Eval vm_compute in map Z.of_nat (filter prime (seq 0 312)).
Definition K256 : list Z := Eval vm_compute in map (fun p => w32 (cubeRoot 40 0 (p * 2 ^ 96))) primes.
Definition H256 : list Z := Eval vm_compute in map (fun p => w32 (Z.sqrt (p * 2 ^ 64))) (take 8 primes).

Definition nthZ (l : list Z) (n : nat) : Z := nth n l 0.

(** The message schedule, newest word first. *)
Fixpoint extend (n : nat) (w : list Z) : list Z :=
  match n with
  | O => w
  | S n' => extend n' (w32 (sigma1 (nthZ w 1) + nthZ w 6 + sigma0 (nthZ w 14) + nthZ w 15) :: w)
  end.

Definition round256 (v : list Z) (kw : Z * Z) : list Z :=
  match v with
  | [a; b; c; d; e; f; g; h] =>
      let t1 := h + Sigma1 e + Ch e f g + fst kw + snd kw in
      let t2 := Sigma0 a + Maj a b c in
      [w32 (t1 + t2); a; b; c; w32 (d + t1); e; f; g]
  | _ => v
  end.

Definition compress (h block : list Z) : list Z :=
  let w := rev (extend 48 (rev block)) in
  zip_with (fun x y => w32 (x + y)) h (fold_left round256 (zip K256 w) h).

Definition bigEndian (n : nat) (z : Z) : list Z :=
  map (fun i => Z.shiftr z (8 * Z.of_nat i) mod 256) (rev (seq 0 n)).

Fixpoint words (l : list Z) : list Z :=
  match l with
  | a :: b :: c :: d :: l' => (a * 2 ^ 24 + b * 2 ^ 16 + c * 2 ^ 8 + d) :: words l'
  | _ => []
  end.

Fixpoint blocks (fuel : nat) (l : list Z) (h : list Z) : list Z :=
  match fuel, l with
  | S fuel', _ :: _ => blocks fuel' (drop 16 l) (compress h (take 16 l))
  | _, _ => h
  end.

Definition pad (l : list Z) : list Z :=
  let n := Z.of_nat (length l) in
  l ++ 128 :: replicate (Z.to_nat ((55 - n) mod 64)) 0 ++ bigEndian 8 (8 * n).

Definition sha256 (l : list Z) : list Z :=
  let w := words (pad l) in concat (map (bigEndian 4) (blocks (length w) w H256)).
End SHA256.

(** [task.ComputeSHA256] *)
Definition ComputeSHA256 (data : string) : string :=
  str (concat (map (fun b => [hexDigit (b / 16); hexDigit (b mod 16)])
                 (sha256 (map byte_of (bytes data))))).

(** ** JSON *)
Inductive json : Set :=
| JString (s : string)
| JInt (n : Z)
| JBool (b : bool)
| JArray (entries : list json)
| JObject (fields : list (string * json)).

Definition escapeRune (p : Z * list ascii) : list ascii :=
  let r := fst p in
  let u (a b c d : Z) := "\"%char :: "u"%char :: map hexDigit [a; b; c; d] in
  if r <? 128 then
    if (r =? 34) || (r =? 92) then "\"%char :: snd p
    else if r =? 8 then ["\"%char; "b"%char]
    else if r =? 12 then ["\"%char; "f"%char]
    else if r =? 10 then ["\"%char; "n"%char]
    else if r =? 13 then ["\"%char; "r"%char]
    else if r =? 9 then ["\"%char; "t"%char]
    else if (r <? 32) || (r =? 60) || (r =? 62) || (r =? 38) then u 0 0 (r / 16) (r mod 16)
    else snd p
  else if (r =? RuneError) && (Z.of_nat (length (snd p)) =? 1) then u 15 15 15 13
  else if (r =? 8232) || (r =? 8233) then u 2 0 2 (r mod 16)
  else snd p.

Definition quote : ascii := "034"%char.

Definition jsonString (s : string) : list ascii :=
  quote :: concat (map escapeRune (runes s)) ++ [quote].

Definition decimalText (n : Z) : list ascii :=
  bytes (DecimalString.NilZero.string_of_int (Z.to_int n)).

Fixpoint commaSep (l : list (list ascii)) : list ascii :=
  match l with
  | [] => []
  | [x] => x
  | x :: l' => x ++ ","%char :: commaSep l'
  end.

Fixpoint render (j : json) : list ascii :=
  match j with
  | JString s => jsonString s
  | JInt n => decimalText n
  | JBool b => if b then bytes "true" else bytes "false"
  | JArray entries => "["%char :: commaSep (map render entries) ++ ["]"%char]
  | JObject fields =>
      "{"%char :: commaSep (map (fun f => jsonString (fst f) ++ ":"%char :: render (snd f)) fields)
        ++ ["}"%char]
  end.

(** [task.MarshalCanonical]: compact JSON followed by a newline. *)
Definition MarshalCanonical (j : json) : string := str (render j ++ ["010"%char]).

(** [omitempty] *)
Definition omitempty (name : string) (o : option json) : list (string * json) :=
  match o with Some j => [(name, j)] | None => [] end.
Definition omitString (name s : string) : list (string * json) :=
  omitempty name (if eqs s "" then None else Some (JString s)).
Definition omitInt (name : string) (n : Z) : list (string * json) :=
  omitempty name (if n =? 0 then None else Some (JInt n)).
Definition omitBool (name : string) (b : bool) : list (string * json) :=
  omitempty name (if b then Some (JBool b) else None).

#[global] Arguments MarshalCanonical _ : simpl never.
#[global] Arguments ComputeSHA256 _ : simpl never.

(** ** A digest is 64 lowercase hexadecimal digits *)
Lemma round256_length v kw : length (round256 v kw) = length v.
Proof. do 9 (destruct v as [|? v]; [done|]). done. Qed.

Lemma compress_length h block : length h = 8%nat -> length (compress h block) = 8%nat.
Proof.
  intros Hh. unfold compress. rewrite length_zip_with.
  assert (forall l v, length (fold_left round256 l v) = length v) as ->.
  { induction l as [|kw l IH]; intros v; cbn; [done|]. by rewrite IH, round256_length. }
  lia.
Qed.

Lemma blocks_length fuel l h : length h = 8%nat -> length (blocks fuel l h) = 8%nat.
Proof.
  revert l h. induction fuel as [|fuel IH]; intros l h Hh; cbn; [done|].
  destruct l; [done|]. by apply IH, compress_length.
Qed.

Lemma sha256_bytes l : length (sha256 l) = 32%nat /\ Forall (fun b => 0 <= b < 256) (sha256 l).
Proof.
  unfold sha256. assert (length (blocks (length (words (pad l))) (words (pad l)) H256) = 8%nat) as H
    by (by apply blocks_length).
  revert H. generalize (blocks (length (words (pad l))) (words (pad l)) H256). intros h H.
  do 8 (destruct h as [|? h]; [done|]). destruct h; [|done]. split; [done|].
  repeat apply Forall_cons_2; try apply Z.mod_pos_bound; try done.
Qed.

Lemma hexDigit_hex d : 0 <= d < 16 -> isHexLower (hexDigit d) = true.
Proof.
  intros H. assert (d = 0 \/ d = 1 \/ d = 2 \/ d = 3 \/ d = 4 \/ d = 5 \/ d = 6 \/ d = 7 \/ d = 8 \/ d = 9 \/
    d = 10 \/ d = 11 \/ d = 12 \/ d = 13 \/ d = 14 \/ d = 15) as Hd by lia.
  repeat (destruct Hd as [->|Hd]; [done|]). by subst.
Qed.

Lemma length_list_ascii s : length (bytes s) = String.length s.
Proof. induction s; cbn; [done|]. by rewrite <- IHs. Qed.

Lemma ComputeSHA256_hex data : hexText 64 (ComputeSHA256 data) = true.
Proof.
  unfold hexText, ComputeSHA256, len. rewrite bytes_str, <- length_list_ascii, bytes_str.
  destruct (sha256_bytes (map byte_of (bytes data))) as [Hl Hf].
  revert Hl Hf. generalize (sha256 (map byte_of (bytes data))). intros l Hl Hf.
  assert (length (concat (map (fun b => [hexDigit (b / 16); hexDigit (b mod 16)]) l)) = (2 * length l)%nat) as ->.
  { clear. induction l; cbn; [done|]. rewrite IHl. lia. }
  rewrite Hl. cbn [Nat.mul Nat.add]. apply andb_true_iff. split; [done|].
  clear Hl. induction Hf as [|b l Hb Hf IH]; [done|]. cbn. rewrite !hexDigit_hex; [done| |].
  - apply Z.mod_pos_bound. done.
  - split; [apply Z.div_pos; lia|apply Z.div_lt_upper_bound; lia].
Qed.

Lemma ComputeSHA256_nonempty data : ComputeSHA256 data <> ""%string.
Proof. intros E. pose proof (ComputeSHA256_hex data) as H. rewrite E in H. done. Qed.

(** ** Decimal text *)
Section decimal.
Import Decimal.

Fixpoint uintValue (u : uint) (acc : Z) : Z :=
  match u with
  | Nil => acc
  | D0 u => uintValue u (10 * acc) | D1 u => uintValue u (10 * acc + 1) | D2 u => uintValue u (10 * acc + 2)
  | D3 u => uintValue u (10 * acc + 3) | D4 u => uintValue u (10 * acc + 4) | D5 u => uintValue u (10 * acc + 5)
  | D6 u => uintValue u (10 * acc + 6) | D7 u => uintValue u (10 * acc + 7) | D8 u => uintValue u (10 * acc + 8)
  | D9 u => uintValue u (10 * acc + 9)
  end.

Lemma uintValue_acc u acc : uintValue u (Z.pos acc) = Z.pos (Pos.of_uint_acc u acc).
Proof.
  revert acc. induction u as [|u IH|u IH|u IH|u IH|u IH|u IH|u IH|u IH|u IH|u IH]; intros acc; cbn [uintValue Pos.of_uint_acc];
    [done|rewrite <- IH; f_equal; lia..].
Qed.

Lemma uintValue_of u : uintValue u 0 = Z.of_N (Pos.of_uint u).
Proof. induction u; cbn; [done|by rewrite Z.mul_0_r|..];
  rewrite Z.mul_0_r; apply (uintValue_acc u). Qed.

Lemma fold_string_of_uint u acc :
  fold_left (fun n c => 10 * n + digit c) (bytes (DecimalString.NilEmpty.string_of_uint u)) acc = uintValue u acc.
Proof. revert acc. induction u; intros acc; cbn; try done; rewrite IHu; f_equal; unfold digit, byte_of; cbn -[Z.mul Z.add]; lia. Qed.

Lemma digits_string_of_uint u : forallb isDigit (bytes (DecimalString.NilEmpty.string_of_uint u)) = true.
Proof. induction u; cbn; done. Qed.

Lemma decimalText_uint n : 0 <= n -> exists u,
  decimalText n = bytes (DecimalString.NilEmpty.string_of_uint u) /\ u <> Nil /\ uintValue u 0 = n.
Proof.
  intros Hn. unfold decimalText.
  destruct (Z.to_int n) as [u|u] eqn:E.
  - assert (uintValue u 0 = n) as Hv.
    { rewrite uintValue_of. pose proof (DecimalZ.of_to n) as Ho. rewrite E in Ho. exact Ho. }
    destruct u as [|u|u|u|u|u|u|u|u|u|u]; [|eexists; split; [reflexivity|done]..].
    exists (D0 Nil). split; [reflexivity|]. cbn in *. done.
  - destruct n; cbn in E; [done|done|lia].
Qed.
End decimal.

Lemma decimalText_digits n : 0 <= n -> forallb isDigit (decimalText n) = true.
Proof. intros (u & -> & _ & _)%decimalText_uint. apply digits_string_of_uint. Qed.

Lemma decimalText_value n : 0 <= n -> decimal (decimalText n) = n.
Proof. intros (u & -> & _ & Hv)%decimalText_uint. unfold decimal. by rewrite fold_string_of_uint. Qed.

Lemma decimalText_nonempty n : 0 <= n -> 0 < Z.of_nat (length (decimalText n)).
Proof. intros (u & -> & Hu & _)%decimalText_uint. destruct u; cbn; (done || lia). Qed.
