(* ===== verification/SchedContract.v ===== *)
(** * Scheduler contract: instants, schedules, occurrences, skips

    [internal/scheduler/contract] except the request codec (see [SchedRequest]):
    the pure validity rules every store operation applies to its input and to
    every stored row. *)
From S2P Require Import Prelude GoErrors GoTime GoText TaskTypes.
From Stdlib Require Import Ascii.

Definition MaxOpaqueTextBytes : Z := 256.
Definition MaxPageLimit : Z := 100.

(** ** instant.go *)
Definition InstantFromUnixNanos (n : Z) : time := UnixUTC n.
Definition minimumInstant : time := InstantFromUnixNanos min_int64.
Definition maximumInstant : time := InstantFromUnixNanos max_int64.

Definition ValidateInstant (name : string) (instant : time) : result unit :=
  if negb (bool_decide (location instant = UTC)) then Err (New (name ++ " must be a UTC instant"))
  else fail_if (Before instant minimumInstant || After instant maximumInstant)
         (New (name ++ " is outside the int64 Unix nanosecond range")).

Definition UnixNanos (name : string) (instant : time) : result Z :=
  ValidateInstant name instant ;; Ok (UnixNano instant).

(** ** definition.go: text and identity rules *)
Definition validateBriefLength (length : Z) : result unit :=
  fail_if ((length <? 1) || (MaxBriefSize <? length))
    (New "schedule brief must be between 1 byte and 8 MiB").

Definition validateScheduleID (id : string) : result unit :=
  wrap_err (Errorf "schedule id") (ValidateTaskID id).

Definition validateOpaqueText (name value : string) : result unit :=
  if eqs value "" || (MaxOpaqueTextBytes <? len value) || negb (ValidString value)
  then Err (New (name ++ " must be nonempty UTF-8"))
  else fail_if (existsb (fun p => IsControl (fst p)) (runes value))
         (New (name ++ " contains control characters")).

(** ** schedule.go *)
Inductive State : Set := StateEnabled | StatePaused | StateDeleted | StateOther (s : string).

#[global] Instance State_eq_dec : EqDecision State.
Proof. solve_decision. Defined.

(** A stored [State] is a string; the three named constants are its valid values. *)
Definition state_of_string (s : string) : State :=
  if eqs s "enabled" then StateEnabled
  else if eqs s "paused" then StatePaused
  else if eqs s "deleted" then StateDeleted else StateOther s.

Definition string_of_state (s : State) : string :=
  match s with
  | StateEnabled => "enabled" | StatePaused => "paused" | StateDeleted => "deleted"
  | StateOther s => s
  end.

Definition ValidateState (state : State) : result unit :=
  match state with
  | StateEnabled | StatePaused | StateDeleted => Ok tt
  | StateOther _ => Err (Errorf "schedule state" (Sentinel task_ErrInvalidEnum))
  end.

Definition validateMutable (createdAt : time) (state : State) (cursor : time) : result unit :=
  ValidateState state ;;
  ValidateInstant "schedule cursor" cursor ;;
  fail_if (Before cursor createdAt) (New "schedule cursor precedes the schedule creation time").

(** ** skip.go *)
Inductive SkipReason : Set :=
| SkipOverlapActive | SkipBlockedUncertain | SkipMissedUnavailable | SkipMissedCapacity | SkipPaused
| SkipOther (s : string).

#[global] Instance SkipReason_eq_dec : EqDecision SkipReason.
Proof. solve_decision. Defined.

(** A stored reason is a string; the named constants are its valid values. *)
Definition string_of_reason (r : SkipReason) : string :=
  match r with
  | SkipOverlapActive => "overlap_active" | SkipBlockedUncertain => "blocked_uncertain"
  | SkipMissedUnavailable => "missed_unavailable" | SkipMissedCapacity => "missed_capacity"
  | SkipPaused => "paused" | SkipOther s => s
  end.
Definition reason_of_string (s : string) : SkipReason :=
  if eqs s "overlap_active" then SkipOverlapActive
  else if eqs s "blocked_uncertain" then SkipBlockedUncertain
  else if eqs s "missed_unavailable" then SkipMissedUnavailable
  else if eqs s "missed_capacity" then SkipMissedCapacity
  else if eqs s "paused" then SkipPaused else SkipOther s.

Definition ValidateSkipReason (reason : SkipReason) : result unit :=
  match reason with
  | SkipOverlapActive | SkipBlockedUncertain | SkipMissedUnavailable | SkipMissedCapacity
  | SkipPaused => Ok tt
  | SkipOther _ => Err (Errorf "skip reason" (Sentinel task_ErrInvalidEnum))
  end.

Record SkipSpan : Set := MkSkipSpan { ss_From : time; ss_To : time; ss_Reason : SkipReason }.

#[global] Instance SkipSpan_eq_dec : EqDecision SkipSpan.
Proof. solve_decision. Defined.

Definition Covers (s : SkipSpan) (due : time) : bool :=
  After due (ss_From s) && negb (After due (ss_To s)).

Record Skip : Set := MkSkip { sk_ScheduleID : string; sk_ExpectedCursor : time; sk_Span : SkipSpan }.

Definition validateCursorAdvance (expectedCursor from : time) : result unit :=
  ValidateInstant "expected cursor" expectedCursor ;;
  fail_if (Before from expectedCursor) (New "skip span starts before the expected cursor").

Definition ValidateSkipSpan (span : SkipSpan) : result unit :=
  ValidateSkipReason (ss_Reason span) ;;
  ValidateInstant "skip from" (ss_From span) ;;
  ValidateInstant "skip to" (ss_To span) ;;
  fail_if (negb (After (ss_To span) (ss_From span))) (New "skip span must end after it starts").

Definition ValidateSkip (skip : Skip) : result unit :=
  validateScheduleID (sk_ScheduleID skip) ;;
  fail_if (bool_decide (ss_Reason (sk_Span skip) = SkipPaused))
    (New "paused skip spans are recorded only by resuming the schedule") ;;
  ValidateSkipSpan (sk_Span skip) ;;
  validateCursorAdvance (sk_ExpectedCursor skip) (ss_From (sk_Span skip)).

(** ** state_change.go *)
Record Resume : Set := MkResume { rs_ExpectedCursor : time; rs_From : time; rs_To : time }.

Record StateChange : Set := MkStateChange {
  sc_ScheduleID : string;
  sc_From : State;
  sc_To : State;
  sc_Resume : option Resume
}.

Definition Span (r : Resume) : SkipSpan := MkSkipSpan (rs_From r) (rs_To r) SkipPaused.

Definition permittedTransition (from to : State) : bool :=
  match from with
  | StateEnabled => bool_decide (to = StatePaused) || bool_decide (to = StateDeleted)
  | StatePaused => bool_decide (to = StateEnabled) || bool_decide (to = StateDeleted)
  | StateDeleted => false
  | StateOther _ => false
  end.

Definition ValidateStateChange (change : StateChange) : result unit :=
  validateScheduleID (sc_ScheduleID change) ;;
  ValidateState (sc_From change) ;;
  ValidateState (sc_To change) ;;
  fail_if (negb (permittedTransition (sc_From change) (sc_To change)))
    (New "schedule state cannot change") ;;
  when_some (sc_Resume change) (fun resume =>
    fail_if (negb (bool_decide (sc_From change = StatePaused)) ||
             negb (bool_decide (sc_To change = StateEnabled)))
      (New "only resuming a paused schedule records a paused span") ;;
    ValidateSkipSpan (Span resume) ;;
    validateCursorAdvance (rs_ExpectedCursor resume) (rs_From resume)).

(** ** occurrence_facts.go *)

(** [codePattern]: [^[a-z_]{1,64}$] *)
Definition codePattern (code : string) : bool :=
  between 1 (len code) 64 &&
  forallb (fun c => isLower c || bool_decide (c = "_"%char)) (bytes code).

Definition validateCode (name code : string) : result unit :=
  fail_if (negb (codePattern code)) (New (name ++ " must match [a-z_]{1,64}")).

Record Observation : Set := MkObservation {
  ob_ObservedAt : time;
  ob_Admission : Z;
  ob_Liveness : Z;
  ob_Publication : Z;
  ob_OutcomeSHA256 : string;
  ob_FaultCode : string
}.

Record OccurrenceObservation : Set := MkOccurrenceObservation {
  oo_TaskID : string;
  oo_Observation : Observation
}.

Inductive ReleaseKind : Set := ReleaseNotCreated | ReleaseClosed | ReleaseOther (s : string).

(** A stored kind is a string; the named constants are its valid values. *)
Definition string_of_kind (k : ReleaseKind) : string :=
  match k with
  | ReleaseNotCreated => "not_created" | ReleaseClosed => "closed" | ReleaseOther s => s
  end.
Definition kind_of_string (s : string) : ReleaseKind :=
  if eqs s "not_created" then ReleaseNotCreated
  else if eqs s "closed" then ReleaseClosed else ReleaseOther s.

Record Release : Set := MkRelease {
  rl_ReleasedAt : time;
  rl_Kind : ReleaseKind;
  rl_Ref : string
}.

Record OccurrenceRelease : Set := MkOccurrenceRelease {
  or_TaskID : string;
  or_Release : Release
}.

#[global] Instance Observation_eq_dec : EqDecision Observation.
Proof. solve_decision. Defined.
#[global] Instance ReleaseKind_eq_dec : EqDecision ReleaseKind.
Proof. solve_decision. Defined.
#[global] Instance Release_eq_dec : EqDecision Release.
Proof. solve_decision. Defined.

Definition validateAdmission (admission : Z) : result unit :=
  if (admission =? AdmissionUnknown) || (admission =? AdmissionNotAdmitted) ||
     (admission =? AdmissionAdmitted)
  then Ok tt else Err (Errorf "observation admission" (Sentinel task_ErrInvalidEnum)).

Definition validateLiveness (liveness : Z) : result unit :=
  if (liveness =? LivenessUndetermined) || (liveness =? LivenessRunning) ||
     (liveness =? LivenessEnded)
  then Ok tt else Err (Errorf "observation liveness" (Sentinel task_ErrInvalidEnum)).

Definition publicationHasOutcome (publication : Z) : result bool :=
  if (publication =? PublicationCommitted) || (publication =? PublicationRejected) then Ok true
  else if (publication =? PublicationUnknown) || (publication =? PublicationPending) then Ok false
  else Err (Errorf "observation publication" (Sentinel task_ErrInvalidEnum)).

Definition ValidateObservation (o : Observation) : result unit :=
  ValidateInstant "observation observed_at" (ob_ObservedAt o) ;;
  validateAdmission (ob_Admission o) ;;
  validateLiveness (ob_Liveness o) ;;
  outcome ← publicationHasOutcome (ob_Publication o);
  fail_if (negb outcome && negb (eqs (ob_OutcomeSHA256 o) ""))
    (New "observation outcome digest requires a committed or rejected publication") ;;
  (if outcome : bool
   then wrap_err (Errorf "observation outcome digest") (ValidateSHA256 (ob_OutcomeSHA256 o))
   else Ok tt) ;;
  if eqs (ob_FaultCode o) "" then Ok tt
  else validateCode "observation fault code" (ob_FaultCode o).

Definition ValidateOccurrenceObservation (record : OccurrenceObservation) : result unit :=
  wrap_err (Errorf "occurrence task id") (ValidateTaskID (oo_TaskID record)) ;;
  ValidateObservation (oo_Observation record).

Definition ValidateRelease (release : Release) : result unit :=
  ValidateInstant "occurrence released_at" (rl_ReleasedAt release) ;;
  match rl_Kind release with
  | ReleaseNotCreated => validateCode "not-created release code" (rl_Ref release)
  | ReleaseClosed => wrap_err (Errorf "closed release digest") (ValidateSHA256 (rl_Ref release))
  | ReleaseOther _ => Err (Errorf "release kind" (Sentinel task_ErrInvalidEnum))
  end.

Definition ValidateOccurrenceRelease (record : OccurrenceRelease) : result unit :=
  wrap_err (Errorf "occurrence task id") (ValidateTaskID (or_TaskID record)) ;;
  ValidateRelease (or_Release record).

Definition CheckRepeatedRelease (stored requested : Release) : result unit :=
  if bool_decide (rl_Kind stored = rl_Kind requested) && eqs (rl_Ref stored) (rl_Ref requested)
  then Ok tt
  else Err (Errorf "occurrence was already released" (Sentinel contract_ErrConflict)).

(** ** occurrence.go *)
Record Claim : Set := MkClaim {
  cl_ScheduleID : string;
  cl_ExpectedCursor : time;
  cl_Due : time;
  cl_TaskID : string;
  cl_ArmedAt : time
}.

Definition ValidateClaim (claim : Claim) : result unit :=
  validateScheduleID (cl_ScheduleID claim) ;;
  wrap_err (Errorf "occurrence task id") (ValidateTaskID (cl_TaskID claim)) ;;
  ValidateInstant "claim expected cursor" (cl_ExpectedCursor claim) ;;
  ValidateInstant "occurrence due" (cl_Due claim) ;;
  fail_if (negb (After (cl_Due claim) (cl_ExpectedCursor claim)))
    (New "occurrence due time must be after the expected cursor") ;;
  ValidateInstant "occurrence armed_at" (cl_ArmedAt claim).

Inductive ClaimOutcome : Set := ClaimUnknown | ClaimExisting | ClaimNewlyCommitted
| ClaimOutcomeOther (n : Z).

Record ClaimResult : Set := MkClaimResult { cr_Outcome : ClaimOutcome; cr_TaskID : string }.

(** The zero [ClaimResult]. *)
Definition zeroClaimResult : ClaimResult := MkClaimResult ClaimUnknown "".

Definition AuthorizesInvocation (r : ClaimResult) : bool :=
  match cr_Outcome r with
  | ClaimNewlyCommitted => true
  | ClaimUnknown | ClaimExisting => false
  | ClaimOutcomeOther _ => false
  end.

Record Occurrence : Set := MkOccurrence {
  oc_TaskID : string;
  oc_ScheduleID : string;
  oc_Due : time;
  oc_ArmedAt : time;
  oc_Observation : option Observation;
  oc_Release : option Release
}.

#[global] Instance Occurrence_eq_dec : EqDecision Occurrence.
Proof. solve_decision. Defined.

Definition ValidateOccurrence (o : Occurrence) : result unit :=
  wrap_err (Errorf "occurrence task id") (ValidateTaskID (oc_TaskID o)) ;;
  validateScheduleID (oc_ScheduleID o) ;;
  ValidateInstant "occurrence due" (oc_Due o) ;;
  ValidateInstant "occurrence armed_at" (oc_ArmedAt o) ;;
  when_some (oc_Observation o) ValidateObservation ;;
  when_some (oc_Release o) ValidateRelease.

(** ** history.go *)

(** [HistoryEntry]: [historyInvalid] is the zero value. *)
Inductive HistoryEntry : Set :=
| historyInvalid
| historyOccurrence (o : Occurrence)
| historySkip (s : SkipSpan).

Definition OccurrenceEntry (o : Occurrence) : HistoryEntry := historyOccurrence o.
Definition SkipEntry (span : SkipSpan) : HistoryEntry := historySkip span.

Definition errEmptyHistoryEntry : error := New "empty schedule history entry".

Definition Endpoint (e : HistoryEntry) : result time :=
  match e with
  | historyOccurrence o => Ok (oc_Due o)
  | historySkip s => Ok (ss_To s)
  | historyInvalid => Err errEmptyHistoryEntry
  end.

Definition ValidateHistoryEntry (scheduleID : string) (entry : HistoryEntry) : result unit :=
  match entry with
  | historyOccurrence o =>
      ValidateOccurrence o ;;
      fail_if (negb (eqs (oc_ScheduleID o) scheduleID))
        (Errorf "occurrence belongs to another schedule" (Sentinel task_ErrIdentityMismatch))
  | historySkip s => ValidateSkipSpan s
  | historyInvalid => Err errEmptyHistoryEntry
  end.

Definition validateLimit (limit : Z) : result unit :=
  fail_if ((limit <? 1) || (MaxPageLimit <? limit)) (New "page limit must be between 1 and 100").

Record SchedulePage : Set := MkSchedulePage { sp_AfterScheduleID : string; sp_Limit : Z }.
Record ActivePage : Set := MkActivePage { ap_AfterScheduleID : string; ap_Limit : Z }.
Record HistoryPage : Set := MkHistoryPage {
  hp_ScheduleID : string;
  hp_Before : option time;
  hp_Limit : Z
}.

Record ActivePageResult : Set := MkActivePageResult {
  apr_Occurrences : list Occurrence;
  apr_More : bool
}.
Record HistoryPageResult : Set := MkHistoryPageResult {
  hpr_Entries : list HistoryEntry;
  hpr_More : bool
}.

Definition ValidateSchedulePage (page : SchedulePage) : result unit :=
  (if eqs (sp_AfterScheduleID page) "" then Ok tt
   else validateScheduleID (sp_AfterScheduleID page)) ;;
  validateLimit (sp_Limit page).

Definition ValidateActivePage (page : ActivePage) : result unit :=
  (if eqs (ap_AfterScheduleID page) "" then Ok tt
   else validateScheduleID (ap_AfterScheduleID page)) ;;
  validateLimit (ap_Limit page).

Definition ValidateHistoryPage (page : HistoryPage) : result unit :=
  validateScheduleID (hp_ScheduleID page) ;;
  when_some (hp_Before page) (ValidateInstant "history before") ;;
  validateLimit (hp_Limit page).

(** [HistoryPageResult.Next] *)
Definition NextPage (r : HistoryPageResult) (page : HistoryPage) : result (option HistoryPage) :=
  if negb (hpr_More r) then Ok None
  else match last (hpr_Entries r) with
  | None => Ok None
  | Some entry =>
      endpoint ← Endpoint entry;
      Ok (Some (MkHistoryPage (hp_ScheduleID page) (Some endpoint) (hp_Limit page)))
  end.

(** ** Lemmas: what each accepted value satisfies *)
Definition canonical (t : time) : Prop := location t = UTC /\ in_int64 (nanos t).

Lemma ValidateInstant_Ok name t : ValidateInstant name t = Ok tt <-> canonical t.
Proof.
  unfold ValidateInstant, canonical, in_int64, Before, After, minimumInstant, maximumInstant,
    InstantFromUnixNanos, UnixUTC; cbn.
  case_bool_decide as Hl; cbn; [|naive_solver].
  rewrite fail_if_Ok, orb_false_iff, !Z.ltb_ge. naive_solver.
Qed.

Lemma canonical_UnixNano t : canonical t -> UnixNano t = nanos t.
Proof. intros [_ H]. by apply int64_id. Qed.

Lemma canonical_restore t : canonical t -> InstantFromUnixNanos (UnixNano t) = t.
Proof.
  intros Hc. rewrite (canonical_UnixNano _ Hc). destruct Hc as [Hl _].
  unfold InstantFromUnixNanos, UnixUTC. rewrite <- Hl. apply time_eta.
Qed.

Lemma canonical_instant n : in_int64 n -> canonical (InstantFromUnixNanos n).
Proof. done. Qed.

Lemma canonical_eq t u : canonical t -> canonical u -> nanos t = nanos u -> t = u.
Proof. destruct t, u. unfold canonical; cbn. naive_solver. Qed.

Lemma validateScheduleID_Ok id : validateScheduleID id = Ok tt <-> hexText 32 id = true.
Proof. unfold validateScheduleID. by rewrite wrap_err_Ok, ValidateTaskID_Ok. Qed.

Ltac instants :=
  repeat match goal with
  | H : ValidateInstant _ _ = Ok _ |- _ => apply ValidateInstant_Ok in H
  end.

(** Unfold one validator, split it into its checks and read each of them. *)
Ltac validated := inv_ok; instants; bool_prop; time_prop.

Lemma ValidateState_Ok s : ValidateState s = Ok tt <-> forall x, s <> StateOther x.
Proof. destruct s; cbn; naive_solver. Qed.

Lemma ValidateSkipSpan_Ok span :
  ValidateSkipSpan span = Ok tt ->
  canonical (ss_From span) /\ canonical (ss_To span) /\ nanos (ss_From span) < nanos (ss_To span).
Proof. unfold ValidateSkipSpan. intros. validated. eauto. Qed.

Lemma ValidateClaim_Ok claim :
  ValidateClaim claim = Ok tt ->
  hexText 32 (cl_ScheduleID claim) = true /\ hexText 32 (cl_TaskID claim) = true /\
  canonical (cl_ExpectedCursor claim) /\ canonical (cl_Due claim) /\
  nanos (cl_ExpectedCursor claim) < nanos (cl_Due claim) /\ canonical (cl_ArmedAt claim).
Proof.
  unfold ValidateClaim. intros. validated.
  repeat match goal with
  | H : validateScheduleID _ = _ |- _ => apply validateScheduleID_Ok in H
  | H : ValidateTaskID _ = _ |- _ => apply ValidateTaskID_Ok in H
  end. eauto 10.
Qed.

Lemma ValidateSkip_Ok skip :
  ValidateSkip skip = Ok tt ->
  hexText 32 (sk_ScheduleID skip) = true /\ ss_Reason (sk_Span skip) <> SkipPaused /\
  ValidateSkipSpan (sk_Span skip) = Ok tt /\ canonical (sk_ExpectedCursor skip) /\
  nanos (sk_ExpectedCursor skip) <= nanos (ss_From (sk_Span skip)).
Proof.
  unfold ValidateSkip, validateCursorAdvance. intros. validated.
  repeat match goal with
  | H : validateScheduleID _ = _ |- _ => apply validateScheduleID_Ok in H
  end. eauto 10.
Qed.
