(* ===== verification/SchedRequest.v ===== *)
(** * Scheduler definitions: stored requests and digests

    [contract/request.go], [contract/definition.go] and the schedule values of
    [contract/schedule.go].  [DecodeStrict] at the [Request] type is the one
    operation left as a section variable: it is [encoding/json] reflection, and
    the codec is correct whatever it returns, because [encodeRequest] decodes
    what it encoded and compares. *)
From S2P Require Import Prelude GoErrors GoTime GoText TaskTypes Encoding SchedContract.

(** ** Data *)
Record Request : Set := MkRequest {
  rq_Provider : string;
  rq_Auto : bool;
  rq_CanonicalCwd : string;
  rq_Config : TaskConfig;
  rq_Team : option TeamTarget
}.

#[global] Instance Request_eq_dec : EqDecision Request.
Proof. solve_decision. Defined.

Record DefinitionHeader : Set := MkDefinitionHeader {
  dh_ScheduleID : string;
  dh_CreatedAt : time;
  dh_Cron : string;
  dh_Timezone : string;
  dh_Request : Request
}.

Record ScheduleDefinition : Set := MkDefinition {
  df_Header : DefinitionHeader;
  df_Brief : string
}.

Record Digests : Set := MkDigests { dg_BriefSHA256 : string; dg_DefinitionSHA256 : string }.

#[global] Instance Digests_eq_dec : EqDecision Digests.
Proof. solve_decision. Defined.

Record Schedule : Set := MkSchedule {
  sd_Definition : ScheduleDefinition;
  sd_State : State;
  sd_Cursor : time
}.

Record ScheduleSummary : Set := MkScheduleSummary {
  sm_Header : DefinitionHeader;
  sm_Digests : Digests;
  sm_BriefLength : Z;
  sm_State : State;
  sm_Cursor : time
}.

Record SchedulePageResult : Set := MkSchedulePageResult {
  spr_Schedules : list ScheduleSummary;
  spr_More : bool
}.

(** ** Canonical JSON of the records *)
Definition jsonReviewTarget (t : ReviewTarget) : json :=
  JObject (("kind"%string, JString (rt_Kind t)) :: omitString "value" (rt_Value t)).

Definition jsonTaskConfig (c : TaskConfig) : json :=
  JObject (omitBool "interactive" (tc_Interactive c) ++ omitString "model" (tc_Model c) ++
           omitString "effort" (tc_Effort c) ++ omitString "permission" (tc_Permission c) ++
           omitString "budget" (tc_Budget c) ++ omitString "native_timeout" (tc_NativeTimeout c) ++
           omitempty "review_target" (jsonReviewTarget <$> tc_ReviewTarget c)).

Definition jsonTeamProject (p : TeamProject) : json :=
  JObject [("kind"%string, JString (tp_Kind p)); ("path"%string, JString (tp_Path p))].

Definition jsonTeamReference (r : TeamReference) : json :=
  JObject ([("scope"%string, JString (tr_Scope r)); ("team_id"%string, JString (tr_TeamID r))] ++
           omitempty "project" (jsonTeamProject <$> tr_Project r)).

Definition jsonTeamTarget (t : TeamTarget) : json :=
  JObject ([("team"%string, jsonTeamReference (tt_Team t));
            ("member_id"%string, JString (tt_MemberID t))] ++
           omitString "catalog_id" (tt_CatalogID t)).

Definition jsonRequest (r : Request) : json :=
  JObject (omitString "provider" (rq_Provider r) ++ omitBool "auto" (rq_Auto r) ++
           [("canonical_cwd"%string, JString (rq_CanonicalCwd r));
            ("config"%string, jsonTaskConfig (rq_Config r))] ++
           omitempty "team" (jsonTeamTarget <$> rq_Team r)).

Definition definitionDigestVersion : Z := 1.

(** [definitionDigestRecord] *)
Definition jsonDigestRecord (h : DefinitionHeader) (briefSHA256 : string) : json :=
  JObject [("digest_version"%string, JInt definitionDigestVersion);
           ("schedule_id"%string, JString (dh_ScheduleID h));
           ("created_at_unix_nanos"%string, JInt (UnixNano (dh_CreatedAt h)));
           ("cron"%string, JString (dh_Cron h));
           ("timezone"%string, JString (dh_Timezone h));
           ("request"%string, jsonRequest (dh_Request h));
           ("brief_sha256"%string, JString briefSHA256)].

(** ** Request validation *)
Definition validateSelection (provider : string) (auto : bool) : result unit :=
  if auto
  then fail_if (negb (eqs provider ""))
         (New "schedule request must select either auto or one provider, not both")
  else
    fail_if (eqs provider "") (New "schedule request must select auto or one provider") ;;
    wrap_err (Errorf "schedule request provider") (ValidateProvider provider).

Definition validateRequestSelection (request : Request) : result unit :=
  match rq_Team request with
  | None => validateSelection (rq_Provider request) (rq_Auto request)
  | Some team =>
      ValidateTeamTarget team true ;;
      if negb (eqs (rq_Provider request) "") || rq_Auto request
      then validateSelection (rq_Provider request) (rq_Auto request)
      else Ok tt
  end.

Definition validateRequestFields (request : Request) : result unit :=
  validateRequestSelection request ;;
  fail_if (negb (IsCanonicalCwd (rq_CanonicalCwd request)))
    (New "schedule request cwd must be a clean absolute path") ;;
  fail_if (tc_Interactive (rq_Config request)) (New "scheduled requests cannot be interactive") ;;
  wrap_err (Errorf "schedule request options") (ValidateRequestedOptions (rq_Config request)).

(** [sameRequest] compares the optional targets by value and every other field. *)
Definition sameRequest (left right : Request) : bool :=
  let bare r := MkRequest (rq_Provider r) (rq_Auto r) (rq_CanonicalCwd r)
                  (MkTaskConfig (tc_Interactive (rq_Config r)) (tc_Model (rq_Config r))
                     (tc_Effort (rq_Config r)) (tc_Permission (rq_Config r))
                     (tc_Budget (rq_Config r)) (tc_NativeTimeout (rq_Config r)) None) None in
  if negb (bool_decide (rq_Team left = rq_Team right)) then false
  else if negb (bool_decide (bare left = bare right)) then false
  else match tc_ReviewTarget (rq_Config left), tc_ReviewTarget (rq_Config right) with
       | Some l, Some r => bool_decide (l = r)
       | None, None => true
       | _, _ => false
       end.

Section codec.
Context (DecodeStrict : string -> result Request).

Definition encodeRequest (request : Request) : result string :=
  validateRequestFields request ;;
  let encoded := MarshalCanonical (jsonRequest request) in
  fail_if (MaxControlRecordSize <? len encoded)
    (Errorf "schedule request" (Sentinel task_ErrControlRecordTooBig)) ;;
  stored ← wrap_err (Errorf "schedule request") (DecodeStrict encoded);
  fail_if (negb (sameRequest stored request))
    (New "schedule request contains a string that canonical JSON cannot represent exactly") ;;
  Ok encoded.

Definition MarshalRequest (request : Request) : result string := encodeRequest request.

Definition DecodeRequest (data : string) : result Request :=
  request ← wrap_err (Errorf "schedule request") (DecodeStrict data);
  canonical ← encodeRequest request;
  fail_if (negb (eqs canonical data)) (New "schedule request is not canonically encoded") ;;
  Ok request.

(** ** Definition validation and digests *)
Definition validateHeader (header : DefinitionHeader) : result unit :=
  validateScheduleID (dh_ScheduleID header) ;;
  ValidateInstant "schedule created_at" (dh_CreatedAt header) ;;
  validateOpaqueText "schedule cron" (dh_Cron header) ;;
  validateOpaqueText "schedule timezone" (dh_Timezone header) ;;
  encodeRequest (dh_Request header) ;;
  Ok tt.

Definition ValidateDefinition (d : ScheduleDefinition) : result unit :=
  validateHeader (df_Header d) ;; validateBriefLength (len (df_Brief d)).

Definition HeaderSHA256 (header : DefinitionHeader) (briefSHA256 : string) : result string :=
  validateHeader header ;;
  wrap_err (Errorf "schedule brief digest") (ValidateSHA256 briefSHA256) ;;
  Ok (ComputeSHA256 (MarshalCanonical (jsonDigestRecord header briefSHA256))).

Definition DefinitionDigests (d : ScheduleDefinition) : result Digests :=
  validateBriefLength (len (df_Brief d)) ;;
  let briefSHA256 := ComputeSHA256 (df_Brief d) in
  definitionSHA256 ← HeaderSHA256 (df_Header d) briefSHA256;
  Ok (MkDigests briefSHA256 definitionSHA256).

Definition VerifyDefinitionDigests (d : ScheduleDefinition) (stored : Digests) : result unit :=
  computed ← DefinitionDigests d;
  fail_if (negb (bool_decide (computed = stored)))
    (Errorf "schedule digests do not match its definition" (Sentinel task_ErrInvariantFault)).

(** ** schedule.go *)
Definition InitialSchedule (d : ScheduleDefinition) : result Schedule :=
  ValidateDefinition d ;;
  Ok (MkSchedule d StateEnabled (dh_CreatedAt (df_Header d))).

Definition ValidateSchedule (s : Schedule) : result unit :=
  ValidateDefinition (sd_Definition s) ;;
  validateMutable (dh_CreatedAt (df_Header (sd_Definition s))) (sd_State s) (sd_Cursor s).

Definition ValidateSummary (s : ScheduleSummary) : result unit :=
  validateBriefLength (sm_BriefLength s) ;;
  definitionSHA256 ← HeaderSHA256 (sm_Header s) (dg_BriefSHA256 (sm_Digests s));
  fail_if (negb (eqs definitionSHA256 (dg_DefinitionSHA256 (sm_Digests s))))
    (Errorf "schedule definition digest does not match its metadata"
       (Sentinel task_ErrInvariantFault)) ;;
  validateMutable (dh_CreatedAt (sm_Header s)) (sm_State s) (sm_Cursor s).

(** ** Codec properties *)
Lemma sameRequest_eq left right : sameRequest left right = true <-> left = right.
Proof.
  unfold sameRequest. destruct left as [p a c [i m e pm b n rt] t], right as [p' a' c' [i' m' e' pm' b' n' rt'] t'].
  cbn. split.
  - intros H. repeat case_bool_decide; cbn in H; simplify_eq; try done.
    destruct rt, rt'; simplify_eq; try done. by apply bool_decide_eq_true in H as ->.
  - intros ?; simplify_eq. rewrite !bool_decide_true by done; cbn.
    destruct rt'; [by apply bool_decide_eq_true|done].
Qed.

Lemma encodeRequest_Ok r data :
  encodeRequest r = Ok data <->
  validateRequestFields r = Ok tt /\ data = MarshalCanonical (jsonRequest r) /\
  len data <= MaxControlRecordSize /\ DecodeStrict data = Ok r.
Proof.
  unfold encodeRequest. split.
  - intros H. inv_ok. bool_prop. rename select (sameRequest _ _ = true) into Hs.
    apply sameRequest_eq in Hs as ->. auto.
  - intros (Hv & -> & Hl & Hd). rewrite Hv; cbn.
    replace (MaxControlRecordSize <? _) with false by (symmetry; apply Z.ltb_ge; done); cbn.
    rewrite Hd; cbn. by rewrite (proj2 (sameRequest_eq r r) eq_refl).
Qed.

(** A stored request decodes to exactly the request that was encoded, and only
    canonical encodings decode. *)
Lemma request_codec r data : MarshalRequest r = Ok data <-> DecodeRequest data = Ok r.
Proof.
  unfold MarshalRequest, DecodeRequest. split.
  - intros H. pose proof (proj1 (encodeRequest_Ok _ _) H) as (_ & _ & _ & Hd).
    rewrite Hd; cbn. rewrite H; cbn. by rewrite eqs_refl.
  - intros H. inv_ok. bool_prop. rename select (eqs _ _ = true) into He.
    by apply eqs_true in He as ->.
Qed.
End codec.
