(* ===== verification/SchedStore.v ===== *)
(** * The SQLite schedule store

    [internal/scheduler/internal/sqlitestore]: stored rows and their decoding
    ([rows.go]), the tables with their CHECK, UNIQUE and trigger clauses
    ([schema.go]), the transaction wrapper ([transaction.go], [errors.go]) and one
    definition per store operation ([schedules.go], [occurrences.go],
    [history.go]).  Each SQL statement is the function its text denotes on the
    three tables.  The connection is [txEnv]: every driver call may fail, a failed
    COMMIT may or may not have taken effect, and the guard is arbitrary. *)
From S2P Require Import Prelude GoErrors GoTime GoText TaskTypes Encoding SchedContract SchedRequest.

(** ** Rows *)
Record scheduleRow : Set := MkScheduleRow {
  sr_id : string;
  sr_created : Z;
  sr_cron : string;
  sr_timezone : string;
  sr_request : string;
  sr_brief : string;
  sr_briefSHA256 : string;
  sr_definitionSHA256 : string;
  sr_state : string;
  sr_cursor : Z
}.

Record occurrenceRow : Set := MkOccurrenceRow {
  or_taskID : string;
  or_scheduleID : string;
  or_due : Z;
  or_armedAt : Z;
  or_observedAt : option Z;
  or_admission : option Z;
  or_liveness : option Z;
  or_publication : option Z;
  or_outcomeSHA256 : option string;
  or_faultCode : option string;
  or_releasedAt : option Z;
  or_releaseKind : option string;
  or_releaseRef : option string
}.

Record spanRow : Set := MkSpanRow {
  sp_scheduleID : string;
  sp_from : Z;
  sp_to : Z;
  sp_reason : string
}.

#[global] Instance scheduleRow_eq_dec : EqDecision scheduleRow.
Proof. solve_decision. Defined.
#[global] Instance occurrenceRow_eq_dec : EqDecision occurrenceRow.
Proof. solve_decision. Defined.
#[global] Instance spanRow_eq_dec : EqDecision spanRow.
Proof. solve_decision. Defined.

(** The tables, each by its primary key. *)
Record database : Set := MkDatabase {
  schedules : gmap string scheduleRow;
  occurrences : gmap string occurrenceRow;
  skip_spans : gmap (string * Z) spanRow
}.

Definition set_schedules (m : gmap string scheduleRow) (db : database) : database :=
  MkDatabase m (occurrences db) (skip_spans db).
Definition set_occurrences (m : gmap string occurrenceRow) (db : database) : database :=
  MkDatabase (schedules db) m (skip_spans db).
Definition set_skip_spans (m : gmap (string * Z) spanRow) (db : database) : database :=
  MkDatabase (schedules db) (occurrences db) m.

(** ** errors.go *)
Definition SQLITE_BUSY : Z := 5.
Definition SQLITE_LOCKED : Z := 6.
Definition SQLITE_READONLY : Z := 8.
Definition SQLITE_CORRUPT : Z := 11.
Definition SQLITE_CONSTRAINT : Z := 19.
Definition SQLITE_NOTADB : Z := 26.
Definition SQLITE_CONSTRAINT_CHECK : Z := 275.
Definition SQLITE_CONSTRAINT_FOREIGNKEY : Z := 787.
Definition SQLITE_CONSTRAINT_PRIMARYKEY : Z := 1555.
Definition SQLITE_CONSTRAINT_TRIGGER : Z := 1811.
Definition SQLITE_CONSTRAINT_UNIQUE : Z := 2067.

(** [errors.As] with a driver error target: the first result code in the tree. *)
Fixpoint asSqlite (err : error) : option Z :=
  match err with
  | Sqlite code => Some code
  | Errorf _ cause => asSqlite cause
  | Joined _ causes => head (omap asSqlite causes)
  | Sentinel _ | New _ => None
  end.

Definition errForeignDatabase : error :=
  Errorf "database is not a scheduler database" (Sentinel task_ErrUnsupportedSchema).

Definition classify (err : error) : error :=
  match asSqlite err with
  | None => err
  | Some code =>
      let primary := Z.land code 255 in
      if (primary =? SQLITE_BUSY) || (primary =? SQLITE_LOCKED)
      then Joined "" [Sentinel task_ErrLockBusy; err]
      else if primary =? SQLITE_READONLY
      then Joined "scheduler database is read-only" [Sentinel fs_ErrPermission; err]
      else if primary =? SQLITE_CORRUPT then Joined "" [Sentinel task_ErrInvariantFault; err]
      else if primary =? SQLITE_NOTADB then Joined "" [errForeignDatabase; err]
      else if primary =? SQLITE_CONSTRAINT then
        if (code =? SQLITE_CONSTRAINT_UNIQUE) || (code =? SQLITE_CONSTRAINT_PRIMARYKEY)
        then Joined "" [Sentinel contract_ErrConflict; err]
        else Joined "" [Sentinel task_ErrInvariantFault; err]
      else err
  end.

Definition storedFault (subject : string) (err : error) : error :=
  Joined ("stored " ++ subject) [Sentinel task_ErrInvariantFault; err].

(** ** transaction.go *)
Record txEnv : Set := MkTxEnv {
  te_Conn : option error;       (* s.db.Conn *)
  te_Begin : option error;      (* conn.BeginTx *)
  te_Statement : option error;  (* a driver failure of any statement of the body *)
  te_Rollback : option error;   (* tx.Rollback *)
  te_Commit : option error;     (* tx.Commit *)
  te_Applied : bool;            (* whether a failed commit reached the database *)
  te_Ctx : option error;        (* ctx.Err() *)
  te_Retire : option error;     (* faults of retiring the connection *)
  te_Close : option error       (* conn.Close of a clean connection *)
}.

(** No failure anywhere. *)
Definition txOk : txEnv := MkTxEnv None None None None None false None None None.

(** [releaseConnection] *)
Definition releaseConnection (env : txEnv) (clean : bool) : option error :=
  if clean then te_Close env else te_Retire env.

(** [resultErr = errors.Join(resultErr, extra)] on the way out. *)
Definition joinOut {A} (m : result A) (extra : option error) : result A :=
  match m, extra with
  | Ok a, None => Ok a
  | Ok _, Some e => Err (Joined "" [e])
  | Err e, None => Err (Joined "" [e])
  | Err e, Some e' => Err (Joined "" [e; e'])
  end.

Definition transact {A} (env : txEnv) (guard : database -> result unit)
    (body : database -> result (A * database)) (db : database) : result A * database :=
  match te_Conn env with
  | Some e => (Err (classify e), db)
  | None =>
    match te_Begin env with
    | Some e => (joinOut (Err (classify e)) (releaseConnection env false), db)
    | None =>
      match (guard db ;;
             match te_Statement env with Some e => Err (classify e) | None => body db end) with
      | Err stepErr =>
          let clean := match te_Rollback env with None => true | Some _ => false end in
          let rollbackErr :=
            match te_Rollback env, te_Ctx env with
            | Some e, Some _ => if errors_Is e sql_ErrTxDone then None else Some e
            | r, _ => r
            end in
          let joined := match rollbackErr with
                        | None => Joined "" [stepErr]
                        | Some e => Joined "" [stepErr; classify e]
                        end in
          (joinOut (Err joined)
             (releaseConnection env (clean && match te_Ctx env with None => true | _ => false end)),
           db)
      | Ok (a, db') =>
          match te_Commit env with
          | Some commitErr =>
              (joinOut (Err (Joined "" [Sentinel sqlitestore_errCommitOutcomeUnknown; classify commitErr]))
                 (releaseConnection env false),
               if te_Applied env then db' else db)
          | None =>
              (joinOut (Ok a)
                 (releaseConnection env match te_Ctx env with None => true | _ => false end),
               db')
          end
      end
    end
  end.

(** ** Row decoding *)
Section rows.
Context (DecodeStrict : string -> result Request).

Definition header (r : scheduleRow) : result DefinitionHeader :=
  request ← wrap_err (storedFault "schedule request") (DecodeRequest DecodeStrict (sr_request r));
  Ok (MkDefinitionHeader (sr_id r) (InstantFromUnixNanos (sr_created r)) (sr_cron r)
        (sr_timezone r) request).

Definition schedule (r : scheduleRow) : result Schedule :=
  h ← header r;
  let definition := MkDefinition h (sr_brief r) in
  let stored := MkDigests (sr_briefSHA256 r) (sr_definitionSHA256 r) in
  wrap_err (storedFault "schedule") (VerifyDefinitionDigests DecodeStrict definition stored) ;;
  let s := MkSchedule definition (state_of_string (sr_state r)) (InstantFromUnixNanos (sr_cursor r)) in
  wrap_err (storedFault "schedule") (ValidateSchedule DecodeStrict s) ;;
  Ok s.

Definition summary (r : scheduleRow) : result ScheduleSummary :=
  h ← header r;
  let s := MkScheduleSummary h (MkDigests (sr_briefSHA256 r) (sr_definitionSHA256 r))
             (len (sr_brief r)) (state_of_string (sr_state r)) (InstantFromUnixNanos (sr_cursor r)) in
  wrap_err (storedFault "schedule summary") (ValidateSummary DecodeStrict s) ;;
  Ok s.
End rows.

Definition valid {A} (o : option A) : bool := match o with Some _ => true | None => false end.

Definition allEqual (values : list bool) : bool :=
  match values with
  | [] => true
  | first :: _ => forallb (fun value => Bool.eqb value first) values
  end.

Definition smallEnum (name : string) (value : Z) : result Z :=
  if (value <? 0) || (255 <? value)
  then Err (New ("observation " ++ name ++ " is out of range")) else Ok value.

Definition optionalText (name : string) (value : option string) : result string :=
  match value with
  | Some s => if eqs s "" then Err (New ("stored empty " ++ name)) else Ok s
  | None => Ok ""%string
  end.

Definition observation (r : occurrenceRow) : result (option Observation) :=
  if negb (allEqual [valid (or_observedAt r); valid (or_admission r); valid (or_liveness r);
                     valid (or_publication r)])
  then Err (New "partial observation tuple")
  else match or_observedAt r with
  | None =>
      if valid (or_outcomeSHA256 r) || valid (or_faultCode r)
      then Err (New "observation facts without an observation") else Ok None
  | Some observedAt =>
      let admission := smallEnum "admission" (default 0 (or_admission r)) in
      let liveness := smallEnum "liveness" (default 0 (or_liveness r)) in
      let publication := smallEnum "publication" (default 0 (or_publication r)) in
      let outcome := optionalText "outcome digest" (or_outcomeSHA256 r) in
      let fault := optionalText "fault code" (or_faultCode r) in
      match errors_Join [err_of admission; err_of liveness; err_of publication;
                         err_of outcome; err_of fault] with
      | Some e => Err e
      | None =>
          a ← admission; l ← liveness; p ← publication; o ← outcome; f ← fault;
          Ok (Some (MkObservation (InstantFromUnixNanos observedAt) a l p o f))
      end
  end.

Definition releaseFact (r : occurrenceRow) : result (option Release) :=
  if negb (allEqual [valid (or_releasedAt r); valid (or_releaseKind r); valid (or_releaseRef r)])
  then Err (New "partial release tuple")
  else match or_releasedAt r with
  | None => Ok None
  | Some at' => Ok (Some (MkRelease (InstantFromUnixNanos at')
                            (kind_of_string (default ""%string (or_releaseKind r)))
                            (default ""%string (or_releaseRef r))))
  end.

Definition occurrence (r : occurrenceRow) : result Occurrence :=
  wrap_err (storedFault "occurrence")
    (obs ← observation r;
     rel ← releaseFact r;
     let o := MkOccurrence (or_taskID r) (or_scheduleID r) (InstantFromUnixNanos (or_due r))
                (InstantFromUnixNanos (or_armedAt r)) obs rel in
     ValidateOccurrence o ;;
     Ok o).

(** ** schema.go: the clauses of each table *)
Definition hex32Check (s : string) : bool := hexText 32 s.
Definition hex64Check (s : string) : bool := hexText 64 s.
Definition codeCheck (s : string) : bool := codePattern s.

(** CHECK clauses of [schedules] *)
Definition scheduleCheck (r : scheduleRow) : bool :=
  hex32Check (sr_id r) && between 1 (len (sr_cron r)) 256 && between 1 (len (sr_timezone r)) 256 &&
  between 1 (len (sr_request r)) 1048576 && between 1 (len (sr_brief r)) 8388608 &&
  hex64Check (sr_briefSHA256 r) && hex64Check (sr_definitionSHA256 r) &&
  (eqs (sr_state r) "enabled" || eqs (sr_state r) "paused" || eqs (sr_state r) "deleted") &&
  (sr_created r <=? sr_cursor r).

(** A CHECK over a NULL column passes. *)
Definition nullOr {A} (o : option A) (p : A -> bool) : bool :=
  match o with Some a => p a | None => true end.

(** CHECK clauses of [occurrences] *)
Definition occurrenceCheck (r : occurrenceRow) : bool :=
  let seen := valid (or_observedAt r) in
  let released := valid (or_releasedAt r) in
  hex32Check (or_taskID r) &&
  nullOr (or_admission r) (fun v => between 0 v 2) && nullOr (or_liveness r) (fun v => between 0 v 2) &&
  nullOr (or_publication r) (fun v => between 0 v 3) &&
  nullOr (or_outcomeSHA256 r) hex64Check && nullOr (or_faultCode r) codeCheck &&
  nullOr (or_releaseKind r) (fun k => eqs k "not_created" || eqs k "closed") &&
  (Bool.eqb seen (valid (or_admission r)) && Bool.eqb seen (valid (or_liveness r)) &&
   Bool.eqb seen (valid (or_publication r))) &&
  (seen || (negb (valid (or_outcomeSHA256 r)) && negb (valid (or_faultCode r)))) &&
  (negb seen || nullOr (or_publication r)
     (fun p => Bool.eqb ((p =? 2) || (p =? 3)) (valid (or_outcomeSHA256 r)))) &&
  (Bool.eqb released (valid (or_releaseKind r)) && Bool.eqb released (valid (or_releaseRef r))) &&
  match or_releaseKind r, or_releaseRef r with
  | Some k, Some ref => (eqs k "not_created" && codeCheck ref) || (eqs k "closed" && hex64Check ref)
  | _, _ => true
  end.

(** CHECK clauses of [skip_spans] *)
Definition spanCheck (r : spanRow) : bool :=
  (sp_from r <? sp_to r) &&
  existsb (eqs (sp_reason r))
    ["overlap_active"; "blocked_uncertain"; "missed_unavailable"; "missed_capacity"; "paused"]%string.

Definition abort {A} (code : Z) : result A := Err (Sqlite code).

(** [INSERT INTO schedules] *)
Definition insertSchedule (db : database) (r : scheduleRow) : result database :=
  if negb (scheduleCheck r) then abort SQLITE_CONSTRAINT_CHECK
  else match schedules db !! sr_id r with
       | Some _ => abort SQLITE_CONSTRAINT_PRIMARYKEY
       | None => Ok (set_schedules (<[sr_id r := r]> (schedules db)) db)
       end.

(** The row after setting the columns that are given. *)
Definition setSchedule (old : scheduleRow) (newState : option string) (newCursor : option Z)
    : scheduleRow :=
  MkScheduleRow (sr_id old) (sr_created old) (sr_cron old) (sr_timezone old)
    (sr_request old) (sr_brief old) (sr_briefSHA256 old) (sr_definitionSHA256 old)
    (default (sr_state old) newState) (default (sr_cursor old) newCursor).

(** [UPDATE schedules SET state, cursor ... WHERE schedule_id = ? AND ...]: the
    new row, the triggers [schedules_deleted_terminal] and
    [schedules_cursor_forward] of the columns it sets, then the CHECKs. *)
Definition updateSchedule (db : database) (id : string) (where' : scheduleRow -> bool)
    (newState : option string) (newCursor : option Z) : result (Z * database) :=
  match schedules db !! id with
  | None => Ok (0, db)
  | Some old =>
      if negb (where' old) then Ok (0, db) else
      let r := setSchedule old newState newCursor in
      if (valid newState && eqs (sr_state old) "deleted") ||
         (valid newCursor && (sr_cursor r <=? sr_cursor old))
      then abort SQLITE_CONSTRAINT_TRIGGER
      else if negb (scheduleCheck r) then abort SQLITE_CONSTRAINT_CHECK
      else Ok (1, set_schedules (<[id := r]> (schedules db)) db)
  end.

(** The rows of a table that satisfy a WHERE clause. *)
Definition selectOccurrences (db : database) (p : occurrenceRow -> bool) : list occurrenceRow :=
  List.filter p (snd <$> map_to_list (occurrences db)).

Definition active (r : occurrenceRow) : bool := negb (valid (or_releasedAt r)).

Definition armedRow (taskID scheduleID : string) (due armedAt : Z) : occurrenceRow :=
  MkOccurrenceRow taskID scheduleID due armedAt None None None None None None None None None.

(** [INSERT INTO occurrences (task_id, schedule_id, due, armed_at)]: its CHECKs,
    the primary key, [UNIQUE (schedule_id, due_unix_nanos)], the partial unique
    index [occurrences_one_active] and the foreign key. *)
Definition insertOccurrence (db : database) (taskID scheduleID : string) (due armedAt : Z)
    : result database :=
  let r := armedRow taskID scheduleID due armedAt in
  if negb (occurrenceCheck r) then abort SQLITE_CONSTRAINT_CHECK
  else if valid (occurrences db !! taskID) then abort SQLITE_CONSTRAINT_PRIMARYKEY
  else if negb (bool_decide (selectOccurrences db
                  (fun o => eqs (or_scheduleID o) scheduleID && (or_due o =? due)) = []))
  then abort SQLITE_CONSTRAINT_UNIQUE
  else if negb (bool_decide (selectOccurrences db
                  (fun o => eqs (or_scheduleID o) scheduleID && active o) = []))
  then abort SQLITE_CONSTRAINT_UNIQUE
  else if negb (valid (schedules db !! scheduleID)) then abort SQLITE_CONSTRAINT_FOREIGNKEY
  else Ok (set_occurrences (<[taskID := r]> (occurrences db)) db).

(** [UPDATE occurrences SET ... WHERE task_id = ? AND ...] on a row the statement
    maps to [set' old]; [fires] are the BEFORE UPDATE triggers of its columns. *)
Definition updateOccurrence (db : database) (taskID : string) (where' : occurrenceRow -> bool)
    (set' : occurrenceRow -> occurrenceRow) (fires : occurrenceRow -> occurrenceRow -> bool)
    : result (Z * database) :=
  match occurrences db !! taskID with
  | None => Ok (0, db)
  | Some old =>
      if negb (where' old) then Ok (0, db)
      else if fires old (set' old) then abort SQLITE_CONSTRAINT_TRIGGER
      else if negb (occurrenceCheck (set' old)) then abort SQLITE_CONSTRAINT_CHECK
      else Ok (1, set_occurrences (<[taskID := set' old]> (occurrences db)) db)
  end.

(** [INSERT INTO skip_spans] *)
Definition insertSpan (db : database) (r : spanRow) : result database :=
  if negb (spanCheck r) then abort SQLITE_CONSTRAINT_CHECK
  else if valid (skip_spans db !! (sp_scheduleID r, sp_to r)) then abort SQLITE_CONSTRAINT_PRIMARYKEY
  else if negb (valid (schedules db !! sp_scheduleID r)) then abort SQLITE_CONSTRAINT_FOREIGNKEY
  else Ok (set_skip_spans (<[(sp_scheduleID r, sp_to r) := r]> (skip_spans db)) db).

(** A statement whose driver error is classified before it is returned. *)
Definition exec {A} (m : result A) : result A := wrap_err classify m.

(** [updateOne] *)
Definition updateOne (m : result (Z * database)) : result database :=
  '(changed, db) ← exec m;
  if changed =? 1 then Ok db
  else Err (Errorf "rows changed" (Sentinel contract_ErrConflict)).

(** ORDER BY over a key, as a stable merge sort. *)
Definition byText {A} (key : A -> string) (a b : A) : Prop := String.le (key a) (key b).
#[global] Instance byText_dec {A} (key : A -> string) : RelDecision (byText key).
Proof. intros a b. unfold byText. apply _. Defined.
Definition newestFirst {A} (key : A -> Z) (a b : A) : Prop := key b <= key a.
#[global] Instance newestFirst_dec {A} (key : A -> Z) : RelDecision (newestFirst key).
Proof. intros a b. unfold newestFirst. apply _. Defined.

(** Decode at most [limit] rows in order, stopping at the first bad one; [true] when
    one more row was read. *)
Fixpoint scanRows {R A} (decode : R -> result A) (limit : nat) (rows : list R)
    : result (list A * bool) :=
  match rows, limit with
  | [], _ => Ok ([], false)
  | _ :: _, O => Ok ([], true)
  | r :: rows', S limit' =>
      a ← decode r;
      '(rest, more) ← scanRows decode limit' rows';
      Ok (a :: rest, more)
  end.

(** ** Operations *)
Section operations.
Context (DecodeStrict : string -> result Request) (currentGuard : database -> result unit).

(** *** schedules.go *)
Definition CreateSchedule (env : txEnv) (definition : ScheduleDefinition) (db : database)
    : result unit * database :=
  match (initial ← InitialSchedule DecodeStrict definition;
         digests ← DefinitionDigests DecodeStrict (sd_Definition initial);
         request ← MarshalRequest DecodeStrict (dh_Request (df_Header (sd_Definition initial)));
         Ok (initial, digests, request)) with
  | Err e => (Err e, db)
  | Ok (initial, digests, request) =>
      let stored := df_Header (sd_Definition initial) in
      let created := UnixNano (dh_CreatedAt stored) in
      transact env currentGuard (fun db =>
        db' ← exec (insertSchedule db
                (MkScheduleRow (dh_ScheduleID stored) created (dh_Cron stored) (dh_Timezone stored)
                   request (df_Brief (sd_Definition initial)) (dg_BriefSHA256 digests)
                   (dg_DefinitionSHA256 digests) (string_of_state (sd_State initial)) created));
        Ok (tt, db')) db
  end.

Definition validScheduleID (scheduleID : string) : result unit :=
  wrap_err (Errorf "schedule id") (ValidateTaskID scheduleID).

Definition GetSchedule (env : txEnv) (scheduleID : string) (db : database)
    : result Schedule * database :=
  match validScheduleID scheduleID with
  | Err e => (Err e, db)
  | Ok _ =>
      transact env currentGuard (fun db =>
        match schedules db !! scheduleID with
        | None => Err (Errorf "schedule" (Sentinel fs_ErrNotExist))
        | Some row => s ← schedule DecodeStrict row; Ok (s, db)
        end) db
  end.

Definition ListSchedules (env : txEnv) (page : SchedulePage) (db : database)
    : result SchedulePageResult * database :=
  match ValidateSchedulePage page with
  | Err e => (Err e, db)
  | Ok _ =>
      transact env currentGuard (fun db =>
        let rows := take (Z.to_nat (sp_Limit page + 1))
          (merge_sort (byText sr_id)
             (List.filter (fun r => text_after (sr_id r) (sp_AfterScheduleID page))
                (snd <$> map_to_list (schedules db)))) in
        '(found, more) ← scanRows (summary DecodeStrict) (Z.to_nat (sp_Limit page)) rows;
        Ok (MkSchedulePageResult found more, db)) db
  end.

(** [scheduleState]: the validated mutable state and cursor. *)
Definition scheduleState (db : database) (scheduleID : string) : result (State * Z) :=
  match schedules db !! scheduleID with
  | None => Err (Errorf "schedule" (Sentinel fs_ErrNotExist))
  | Some row =>
      wrap_err (storedFault "schedule state") (ValidateState (state_of_string (sr_state row))) ;;
      Ok (state_of_string (sr_state row), sr_cursor row)
  end.

Definition conflict (msg : string) : error := Errorf msg (Sentinel contract_ErrConflict).

Definition insertSkipSpan (db : database) (scheduleID : string) (cursor : Z) (expected : time)
    (span : SkipSpan) : result database :=
  if negb (cursor =? UnixNano expected) then Err (conflict "schedule cursor moved")
  else exec (insertSpan db (MkSpanRow scheduleID (UnixNano (ss_From span)) (UnixNano (ss_To span))
                              (string_of_reason (ss_Reason span)))).

Definition ChangeState (env : txEnv) (change : StateChange) (db : database)
    : result unit * database :=
  match ValidateStateChange change with
  | Err e => (Err e, db)
  | Ok _ =>
      transact env currentGuard (fun db =>
        '(state, cursor) ← scheduleState db (sc_ScheduleID change);
        fail_if (negb (bool_decide (state = sc_From change))) (conflict "schedule is not in state") ;;
        let from := string_of_state (sc_From change) in
        let to := string_of_state (sc_To change) in
        match sc_Resume change with
        | None =>
            db' ← updateOne (updateSchedule db (sc_ScheduleID change)
                               (fun r => eqs (sr_state r) from) (Some to) None);
            Ok (tt, db')
        | Some resume =>
            db1 ← insertSkipSpan db (sc_ScheduleID change) cursor (rs_ExpectedCursor resume)
                    (Span resume);
            db' ← updateOne (updateSchedule db1 (sc_ScheduleID change)
                               (fun r => eqs (sr_state r) from && (sr_cursor r =? cursor))
                               (Some to) (Some (UnixNano (rs_To resume))));
            Ok (tt, db')
        end) db
  end.

(** *** occurrences.go *)
Definition claimedTask (db : database) (claim : Claim) : result string :=
  match selectOccurrences db (fun o => eqs (or_scheduleID o) (cl_ScheduleID claim) &&
                                       (or_due o =? UnixNano (cl_Due claim))) with
  | [] => Ok ""%string
  | row :: _ =>
      wrap_err (storedFault "occurrence task id") (ValidateTaskID (or_taskID row)) ;;
      Ok (or_taskID row)
  end.

Definition armOccurrence (db : database) (claim : Claim) : result database :=
  '(state, cursor) ← scheduleState db (cl_ScheduleID claim);
  fail_if (negb (bool_decide (state = StateEnabled))) (conflict "schedule state") ;;
  fail_if (negb (cursor =? UnixNano (cl_ExpectedCursor claim))) (conflict "schedule cursor moved") ;;
  fail_if (negb (bool_decide (length (selectOccurrences db (fun o =>
             eqs (or_scheduleID o) (cl_ScheduleID claim) && active o)) = 0%nat)))
    (conflict "schedule already has an active occurrence") ;;
  db1 ← exec (insertOccurrence db (cl_TaskID claim) (cl_ScheduleID claim) (UnixNano (cl_Due claim))
                (UnixNano (cl_ArmedAt claim)));
  updateOne (updateSchedule db1 (cl_ScheduleID claim)
               (fun r => eqs (sr_state r) "enabled" && (sr_cursor r =? cursor))
               None (Some (UnixNano (cl_Due claim)))).

(** The result and the error, as Go returns both. *)
Definition ClaimAndArm (env : txEnv) (claim : Claim) (db : database)
    : ClaimResult * option error * database :=
  match ValidateClaim claim with
  | Err e => (zeroClaimResult, Some e, db)
  | Ok _ =>
      let '(outcome, db') :=
        transact env currentGuard (fun db =>
          found ← claimedTask db claim;
          if negb (eqs found "") then Ok (found, db)
          else db' ← armOccurrence db claim; Ok (""%string, db')) db in
      match outcome with
      | Err e => (zeroClaimResult, Some e, db')
      | Ok existing =>
          if negb (eqs existing "") then (MkClaimResult ClaimExisting existing, None, db')
          else (MkClaimResult ClaimNewlyCommitted (cl_TaskID claim), None, db')
      end
  end.

Definition nullableText (value : string) : option string :=
  if eqs value "" then None else Some value.

Definition readOccurrence (db : database) (taskID : string) : result Occurrence :=
  match occurrences db !! taskID with
  | None => Err (Errorf "occurrence" (Sentinel fs_ErrNotExist))
  | Some row => occurrence row
  end.

(** The columns [RecordObservation] sets. *)
Definition observedRow (o : Observation) (r : occurrenceRow) : occurrenceRow :=
  MkOccurrenceRow (or_taskID r) (or_scheduleID r) (or_due r) (or_armedAt r)
    (Some (UnixNano (ob_ObservedAt o))) (Some (ob_Admission o)) (Some (ob_Liveness o))
    (Some (ob_Publication o)) (nullableText (ob_OutcomeSHA256 o)) (nullableText (ob_FaultCode o))
    (or_releasedAt r) (or_releaseKind r) (or_releaseRef r).

Definition RecordObservation (env : txEnv) (record : OccurrenceObservation) (db : database)
    : result unit * database :=
  match ValidateOccurrenceObservation record with
  | Err e => (Err e, db)
  | Ok _ =>
      let observation := oo_Observation record in
      let at' := UnixNano (ob_ObservedAt observation) in
      transact env currentGuard (fun db =>
        '(changed, db') ← exec (updateOccurrence db (oo_TaskID record)
            (fun r => match or_observedAt r with None => true | Some seen => seen <? at' end)
            (observedRow observation)
            (fun old new => match or_observedAt old, or_observedAt new with
                            | Some seen, None => true
                            | Some seen, Some next => next <=? seen
                            | None, _ => false
                            end));
        if changed =? 1 then Ok (tt, db')
        else readOccurrence db' (oo_TaskID record) ;; Ok (tt, db')) db
  end.

(** The columns [Release] sets. *)
Definition releasedRow (l : Release) (r : occurrenceRow) : occurrenceRow :=
  MkOccurrenceRow (or_taskID r) (or_scheduleID r) (or_due r) (or_armedAt r)
    (or_observedAt r) (or_admission r) (or_liveness r) (or_publication r)
    (or_outcomeSHA256 r) (or_faultCode r)
    (Some (UnixNano (rl_ReleasedAt l))) (Some (string_of_kind (rl_Kind l))) (Some (rl_Ref l)).

Definition ReleaseOccurrence (env : txEnv) (record : OccurrenceRelease) (db : database)
    : result unit * database :=
  match ValidateOccurrenceRelease record with
  | Err e => (Err e, db)
  | Ok _ =>
      let release := or_Release record in
      transact env currentGuard (fun db =>
        '(changed, db') ← exec (updateOccurrence db (or_TaskID record) active (releasedRow release)
                                  (fun old _ => valid (or_releasedAt old)));
        if changed =? 1 then Ok (tt, db')
        else
          stored ← readOccurrence db' (or_TaskID record);
          match oc_Release stored with
          | None => Err (Errorf "occurrence release did not apply" (Sentinel task_ErrInvariantFault))
          | Some winner => CheckRepeatedRelease winner release ;; Ok (tt, db')
          end) db
  end.

Definition GetOccurrence (env : txEnv) (taskID : string) (db : database)
    : result Occurrence * database :=
  match wrap_err (Errorf "occurrence task id") (ValidateTaskID taskID) with
  | Err e => (Err e, db)
  | Ok _ => transact env currentGuard (fun db => o ← readOccurrence db taskID; Ok (o, db)) db
  end.

Definition ActiveOccurrences (env : txEnv) (page : ActivePage) (db : database)
    : result ActivePageResult * database :=
  match ValidateActivePage page with
  | Err e => (Err e, db)
  | Ok _ =>
      transact env currentGuard (fun db =>
        let rows := take (Z.to_nat (ap_Limit page + 1))
          (merge_sort (byText or_scheduleID)
             (selectOccurrences db (fun o => active o &&
                text_after (or_scheduleID o) (ap_AfterScheduleID page)))) in
        '(found, more) ← scanRows occurrence (Z.to_nat (ap_Limit page)) rows;
        Ok (MkActivePageResult found more, db)) db
  end.

(** *** history.go *)
Definition RecordSkip (env : txEnv) (skip : Skip) (db : database) : result unit * database :=
  match ValidateSkip skip with
  | Err e => (Err e, db)
  | Ok _ =>
      transact env currentGuard (fun db =>
        '(state, cursor) ← scheduleState db (sk_ScheduleID skip);
        fail_if (negb (bool_decide (state = StateEnabled))) (conflict "schedule state") ;;
        db1 ← insertSkipSpan db (sk_ScheduleID skip) cursor (sk_ExpectedCursor skip) (sk_Span skip);
        db' ← updateOne (updateSchedule db1 (sk_ScheduleID skip) (fun r => sr_cursor r =? cursor)
                           None (Some (UnixNano (ss_To (sk_Span skip)))));
        Ok (tt, db')) db
  end.

Definition spanOf (r : spanRow) : result SkipSpan :=
  let span := MkSkipSpan (InstantFromUnixNanos (sp_from r)) (InstantFromUnixNanos (sp_to r))
                (reason_of_string (sp_reason r)) in
  wrap_err (storedFault "skip span") (ValidateSkipSpan span) ;;
  Ok span.

(** [due < before OR (inclusive AND due = before)] *)
Definition belowEndpoint (before : Z) (inclusive : bool) (key : Z) : bool :=
  (key <? before) || (inclusive && (key =? before)).

Definition querySkipSpans (db : database) (page : HistoryPage) (before : Z) (inclusive : bool)
    : result (list SkipSpan) :=
  let rows := take (Z.to_nat (hp_Limit page + 1))
    (merge_sort (newestFirst sp_to)
       (List.filter (fun r => eqs (sp_scheduleID r) (hp_ScheduleID page) &&
                              belowEndpoint before inclusive (sp_to r))
          (snd <$> map_to_list (skip_spans db)))) in
  '(spans, _) ← scanRows spanOf (length rows) rows;
  Ok spans.

(** [mergeHistory]'s loop: [room] is [page.Limit + 1 - len(entries)]. *)
Fixpoint mergeEntries (room : nat) (os : list Occurrence) (ss : list SkipSpan)
    : result (list HistoryEntry) :=
  match room with
  | O => Ok []
  | S room' =>
    match os, ss with
    | [], [] => Ok []
    | o :: os', [] => rest ← mergeEntries room' os' []; Ok (OccurrenceEntry o :: rest)
    | [], s :: ss' => rest ← mergeEntries room' [] ss'; Ok (SkipEntry s :: rest)
    | o :: os', s :: ss' =>
        if After (oc_Due o) (ss_To s)
        then rest ← mergeEntries room' os' ss; Ok (OccurrenceEntry o :: rest)
        else if After (ss_To s) (oc_Due o)
        then rest ← mergeEntries room' os ss'; Ok (SkipEntry s :: rest)
        else Err (Errorf "schedule has two history entries at one endpoint"
                    (Sentinel task_ErrInvariantFault))
    end
  end.

Fixpoint validateEntries (scheduleID : string) (entries : list HistoryEntry) : result unit :=
  match entries with
  | [] => Ok tt
  | e :: rest =>
      wrap_err (storedFault "history entry") (ValidateHistoryEntry scheduleID e) ;;
      validateEntries scheduleID rest
  end.

Definition mergeHistory (page : HistoryPage) (os : list Occurrence) (ss : list SkipSpan)
    : result HistoryPageResult :=
  entries ← mergeEntries (Z.to_nat (hp_Limit page + 1)) os ss;
  let more := hp_Limit page <? Z.of_nat (length entries) in
  let kept := if more then take (Z.to_nat (hp_Limit page)) entries else entries in
  validateEntries (hp_ScheduleID page) kept ;;
  Ok (MkHistoryPageResult kept more).

Definition History (env : txEnv) (page : HistoryPage) (db : database)
    : result HistoryPageResult * database :=
  match ValidateHistoryPage page with
  | Err e => (Err e, db)
  | Ok _ =>
      let inclusive := negb (valid (hp_Before page)) in
      let before := match hp_Before page with None => max_int64 | Some t => UnixNano t end in
      transact env currentGuard (fun db =>
        scheduleState db (hp_ScheduleID page) ;;
        let rows := take (Z.to_nat (hp_Limit page + 1))
          (merge_sort (newestFirst or_due)
             (selectOccurrences db (fun o => eqs (or_scheduleID o) (hp_ScheduleID page) &&
                belowEndpoint before inclusive (or_due o)))) in
        '(os, _) ← scanRows occurrence (Z.to_nat (hp_Limit page + 1)) rows;
        ss ← querySkipSpans db page before inclusive;
        r ← mergeHistory page os ss;
        Ok (r, db)) db
  end.
End operations.
