(* ===== verification/SchedStoreInv.v ===== *)
(** * Invariants of the schedule store

    The well-formedness of the three tables, what every operation leaves fixed
    ([extends]), and that every operation preserves both under any driver
    behaviour. *)
From S2P Require Import Prelude GoErrors GoTime GoText TaskTypes Encoding SchedContract SchedRequest.
From S2P Require Import SchedStore.

(** ** Definitions *)

(** Stored integers are 64-bit. *)
Definition occurrence_ints (r : occurrenceRow) : Prop :=
  in_int64 (or_due r) /\ in_int64 (or_armedAt r) /\
  (forall t, or_observedAt r = Some t -> in_int64 t) /\
  (forall t, or_releasedAt r = Some t -> in_int64 t).

(** An occurrence row accounts for the due time [or_due]; a span row for
    [(sp_from, sp_to]].  No instant is accounted for twice, and the cursor bounds
    everything recorded. *)
Record wf (db : database) : Prop := {
  wf_schedule id r : schedules db !! id = Some r ->
    sr_id r = id /\ scheduleCheck r = true /\ in_int64 (sr_created r) /\ in_int64 (sr_cursor r);
  wf_occurrence id r : occurrences db !! id = Some r ->
    or_taskID r = id /\ occurrenceCheck r = true /\ occurrence_ints r /\
    exists s, schedules db !! or_scheduleID r = Some s /\
              sr_created s < or_due r <= sr_cursor s;
  wf_span k r : skip_spans db !! k = Some r ->
    k = (sp_scheduleID r, sp_to r) /\ spanCheck r = true /\
    in_int64 (sp_from r) /\ in_int64 (sp_to r) /\
    exists s, schedules db !! sp_scheduleID r = Some s /\
              sr_created s <= sp_from r /\ sp_to r <= sr_cursor s;
  wf_one_active id1 id2 r1 r2 :
    occurrences db !! id1 = Some r1 -> occurrences db !! id2 = Some r2 ->
    or_scheduleID r1 = or_scheduleID r2 -> active r1 = true -> active r2 = true -> id1 = id2;
  wf_due_unique id1 id2 r1 r2 :
    occurrences db !! id1 = Some r1 -> occurrences db !! id2 = Some r2 ->
    or_scheduleID r1 = or_scheduleID r2 -> or_due r1 = or_due r2 -> id1 = id2;
  wf_span_disjoint k1 k2 r1 r2 :
    skip_spans db !! k1 = Some r1 -> skip_spans db !! k2 = Some r2 ->
    sp_scheduleID r1 = sp_scheduleID r2 -> k1 <> k2 ->
    sp_to r1 <= sp_from r2 \/ sp_to r2 <= sp_from r1;
  wf_due_not_skipped id k r s :
    occurrences db !! id = Some r -> skip_spans db !! k = Some s ->
    or_scheduleID r = sp_scheduleID s -> ~ (sp_from s < or_due r <= sp_to s)
}.

Definition empty_database : database := MkDatabase ∅ ∅ ∅.

(** The permanent part of a schedule row: its definition columns. *)
Definition definition_columns (r : scheduleRow) :=
  (sr_id r, sr_created r, sr_cron r, sr_timezone r, sr_request r, sr_brief r, sr_briefSHA256 r,
   sr_definitionSHA256 r).

(** The permanent part of an occurrence row: its identity. *)
Definition identity_columns (r : occurrenceRow) :=
  (or_taskID r, or_scheduleID r, or_due r, or_armedAt r).

Definition release_columns (r : occurrenceRow) :=
  (or_releasedAt r, or_releaseKind r, or_releaseRef r).

(** What a later database must keep of an earlier one. *)
Record extends (db db' : database) : Prop := {
  ext_schedule id r : schedules db !! id = Some r ->
    exists r', schedules db' !! id = Some r' /\ definition_columns r' = definition_columns r /\
               sr_cursor r <= sr_cursor r' /\
               (sr_state r = "deleted"%string -> sr_state r' = "deleted"%string);
  ext_occurrence id r : occurrences db !! id = Some r ->
    exists r', occurrences db' !! id = Some r' /\ identity_columns r' = identity_columns r /\
               (active r = false -> release_columns r' = release_columns r) /\
               (forall t, or_observedAt r = Some t ->
                  exists t', or_observedAt r' = Some t' /\ t <= t');
  ext_span k r : skip_spans db !! k = Some r -> skip_spans db' !! k = Some r
}.

(** The operations of the port that may write; reads return the database as it is. *)
Inductive operation : Set :=
| OpCreate (d : ScheduleDefinition)
| OpChange (c : StateChange)
| OpClaim (c : Claim)
| OpObserve (o : OccurrenceObservation)
| OpRelease (r : OccurrenceRelease)
| OpSkip (s : Skip).

Section run.
Context (DecodeStrict : string -> result Request) (guard : database -> result unit).

Definition run (env : txEnv) (op : operation) (db : database) : database :=
  match op with
  | OpCreate d => snd (CreateSchedule DecodeStrict guard env d db)
  | OpChange c => snd (ChangeState guard env c db)
  | OpClaim c => snd (ClaimAndArm guard env c db)
  | OpObserve o => snd (RecordObservation guard env o db)
  | OpRelease r => snd (ReleaseOccurrence guard env r db)
  | OpSkip s => snd (RecordSkip guard env s db)
  end.

Inductive reaches (db : database) : database -> Prop :=
| reaches_refl : reaches db db
| reaches_step env op db' : reaches db db' -> reaches db (run env op db').
End run.

(** ** Table lemmas *)
Lemma elem_selectOccurrences db p r :
  r ∈ selectOccurrences db p <-> exists id, occurrences db !! id = Some r /\ p r = true.
Proof.
  unfold selectOccurrences. rewrite list_elem_of_In, filter_In, <- list_elem_of_In.
  rewrite list_elem_of_fmap. split.
  - intros [([id r'] & -> & H) Hp]. exists id. by apply elem_of_map_to_list in H.
  - intros (id & H & Hp). split; [|done]. exists (id, r). by rewrite elem_of_map_to_list.
Qed.

Lemma selectOccurrences_nil db p :
  selectOccurrences db p = [] <-> forall id r, occurrences db !! id = Some r -> p r = false.
Proof.
  split.
  - intros H id r Hl. apply not_true_iff_false. intros Hp.
    assert (r ∈ selectOccurrences db p) as Hin by (apply elem_selectOccurrences; eauto).
    rewrite H in Hin. by apply not_elem_of_nil in Hin.
  - intros H. destruct (selectOccurrences db p) as [|r l] eqn:E; [done|].
    assert (r ∈ selectOccurrences db p) as Hin by (rewrite E; left).
    apply elem_selectOccurrences in Hin as (id & Hl & Hp). by rewrite (H _ _ Hl) in Hp.
Qed.

Lemma valid_false {A} (o : option A) : valid o = false <-> o = None.
Proof. destruct o; cbn; naive_solver. Qed.

Lemma valid_true {A} (o : option A) : valid o = true <-> is_Some o.
Proof. destruct o; cbn; rewrite ?is_Some_alt; naive_solver. Qed.

Lemma transact_snd {A} env guard (body : database -> result (A * database)) db :
  snd (transact env guard body db) = db \/
  exists a, body db = Ok (a, snd (transact env guard body db)).
Proof.
  unfold transact. destruct (te_Conn env), (te_Begin env); cbn; auto.
  destruct (guard db) as [[]|]; cbn; [|auto].
  destruct (te_Statement env); cbn; [auto|].
  destruct (body db) as [[a db']|]; cbn; [|auto].
  destruct (te_Commit env); cbn; [destruct (te_Applied env)|]; eauto.
Qed.

Lemma transact_Ok {A} env guard (body : database -> result (A * database)) db a db' :
  transact env guard body db = (Ok a, db') -> body db = Ok (a, db') /\ guard db = Ok tt.
Proof.
  unfold transact. destruct (te_Conn env); [done|]. destruct (te_Begin env) as [e|]; cbn.
  { destruct (te_Retire env); done. }
  destruct (guard db) as [[]|]; cbn.
  2: { destruct (releaseConnection _ _); done. }
  destruct (te_Statement env); cbn.
  { destruct (releaseConnection _ _); done. }
  destruct (body db) as [[a' db'']|]; cbn.
  2: { destruct (releaseConnection _ _); done. }
  destruct (te_Commit env); cbn; [destruct (te_Retire env); done|].
  destruct (releaseConnection _ _); cbn; naive_solver.
Qed.

(** ** [extends] is a preorder *)
Lemma extends_refl db : extends db db.
Proof. split; intros; eauto 10 with lia. Qed.

Lemma extends_trans db1 db2 db3 : extends db1 db2 -> extends db2 db3 -> extends db1 db3.
Proof.
  intros H12 H23. split.
  - intros id r H. destruct (ext_schedule _ _ H12 _ _ H) as (r2 & H2 & E2 & C2 & D2).
    destruct (ext_schedule _ _ H23 _ _ H2) as (r3 & H3 & E3 & C3 & D3).
    exists r3. repeat split; [done|congruence|lia|auto].
  - intros id r H. destruct (ext_occurrence _ _ H12 _ _ H) as (r2 & H2 & E2 & R2 & O2).
    destruct (ext_occurrence _ _ H23 _ _ H2) as (r3 & H3 & E3 & R3 & O3).
    exists r3. repeat split; [done|congruence| |].
    + intros Ha. rewrite <- (R2 Ha). apply R3. specialize (R2 Ha).
      unfold active, release_columns in *. by simplify_eq; destruct (or_releasedAt r), (or_releasedAt r2).
    + intros t Ht. destruct (O2 _ Ht) as (t2 & Ht2 & Hle).
      destruct (O3 _ Ht2) as (t3 & Ht3 & Hle3). exists t3; split; [done|lia].
  - intros k r H. apply (ext_span _ _ H23), (ext_span _ _ H12), H.
Qed.

#[global] Instance extends_preorder : PreOrder extends.
Proof. split; [exact extends_refl | exact extends_trans]. Qed.

Lemma wf_empty : wf empty_database.
Proof. split; intros *; cbn; rewrite ?lookup_empty; done. Qed.

Lemma definition_columns_eq s' s :
  definition_columns s' = definition_columns s ->
  sr_id s' = sr_id s /\ sr_created s' = sr_created s.
Proof. unfold definition_columns. intros H. by injection H. Qed.

Lemma identity_columns_eq r' r :
  identity_columns r' = identity_columns r ->
  or_taskID r' = or_taskID r /\ or_scheduleID r' = or_scheduleID r /\ or_due r' = or_due r /\
  or_armedAt r' = or_armedAt r.
Proof. unfold identity_columns. intros H. by injection H. Qed.

(** ** Table updates that keep the invariant *)
Lemma wf_touch db id s s' :
  wf db -> schedules db !! id = Some s -> definition_columns s' = definition_columns s ->
  sr_cursor s <= sr_cursor s' -> in_int64 (sr_cursor s') -> scheduleCheck s' = true ->
  wf (set_schedules (<[id := s']> (schedules db)) db).
Proof.
  intros W Hs [Ei Ec]%definition_columns_eq Hc Hi Hk.
  split; cbn; try apply W.
  - intros id' r [[<- <-]|[Hne H]]%lookup_insert_Some; [|by apply W].
    destruct (wf_schedule _ W _ _ Hs) as (? & _ & ? & _). by rewrite Ei, Ec.
  - intros id' r H. destruct (wf_occurrence _ W _ _ H) as (? & ? & ? & s0 & H0 & ?).
    do 3 (split; [done|]). destruct (decide (id = or_scheduleID r)) as [->|Hne].
    + exists s'. rewrite lookup_insert_eq. simplify_eq. split; [done|lia].
    + exists s0. by rewrite lookup_insert_ne.
  - intros k r H. destruct (wf_span _ W _ _ H) as (? & ? & ? & ? & s0 & H0 & ?).
    do 4 (split; [done|]). destruct (decide (id = sp_scheduleID r)) as [->|Hne].
    + exists s'. rewrite lookup_insert_eq. simplify_eq. split; [done|lia].
    + exists s0. by rewrite lookup_insert_ne.
Qed.

Lemma wf_insert_schedule db r :
  wf db -> schedules db !! sr_id r = None -> scheduleCheck r = true ->
  in_int64 (sr_created r) -> in_int64 (sr_cursor r) ->
  wf (set_schedules (<[sr_id r := r]> (schedules db)) db).
Proof.
  intros W Hn Hk Hc Hu. split; cbn; try apply W.
  - intros id' r' [[<- <-]|[Hne H]]%lookup_insert_Some; [done|by apply W].
  - intros id' r' H. destruct (wf_occurrence _ W _ _ H) as (? & ? & ? & s0 & H0 & ?).
    do 3 (split; [done|]). exists s0. rewrite lookup_insert_ne by congruence. done.
  - intros k r' H. destruct (wf_span _ W _ _ H) as (? & ? & ? & ? & s0 & H0 & ?).
    do 4 (split; [done|]). exists s0. rewrite lookup_insert_ne by congruence. done.
Qed.

Lemma wf_insert_occurrence db r s :
  wf db -> occurrences db !! or_taskID r = None -> occurrenceCheck r = true ->
  occurrence_ints r ->
  schedules db !! or_scheduleID r = Some s -> sr_created s < or_due r <= sr_cursor s ->
  (forall id o, occurrences db !! id = Some o -> or_scheduleID o = or_scheduleID r ->
     or_due o <> or_due r /\ active o = false) ->
  (forall k p, skip_spans db !! k = Some p -> sp_scheduleID p = or_scheduleID r ->
     sp_to p < or_due r) ->
  wf (set_occurrences (<[or_taskID r := r]> (occurrences db)) db).
Proof.
  intros W Hn Hk Hi Hs Hb Ho Hp. split; cbn; try apply W.
  - intros id o [[<- <-]|[Hne H]]%lookup_insert_Some; [by eauto 10|by apply W].
  - intros id1 id2 r1 r2 [[<- <-]|[Hne1 H1]]%lookup_insert_Some
      [[<- <-]|[Hne2 H2]]%lookup_insert_Some E A1 A2; try done.
    + destruct (Ho _ _ H2 (eq_sym E)) as [_ ?]. congruence.
    + destruct (Ho _ _ H1 E) as [_ ?]. congruence.
    + by eapply (wf_one_active _ W).
  - intros id1 id2 r1 r2 [[<- <-]|[Hne1 H1]]%lookup_insert_Some
      [[<- <-]|[Hne2 H2]]%lookup_insert_Some E A; try done.
    + by destruct (Ho _ _ H2 (eq_sym E)) as [[] _].
    + by destruct (Ho _ _ H1 E) as [[] _].
    + by eapply (wf_due_unique _ W).
  - intros id k o p [[<- <-]|[Hne1 H1]]%lookup_insert_Some Hpk E.
    + specialize (Hp _ _ Hpk (eq_sym E)). lia.
    + by eapply (wf_due_not_skipped _ W).
Qed.

Lemma wf_insert_span db r s :
  wf db -> skip_spans db !! (sp_scheduleID r, sp_to r) = None -> spanCheck r = true ->
  in_int64 (sp_from r) -> in_int64 (sp_to r) ->
  schedules db !! sp_scheduleID r = Some s -> sr_created s <= sp_from r -> sp_to r <= sr_cursor s ->
  (forall id o, occurrences db !! id = Some o -> or_scheduleID o = sp_scheduleID r ->
     or_due o <= sp_from r) ->
  (forall k p, skip_spans db !! k = Some p -> sp_scheduleID p = sp_scheduleID r ->
     sp_to p <= sp_from r) ->
  wf (set_skip_spans (<[(sp_scheduleID r, sp_to r) := r]> (skip_spans db)) db).
Proof.
  intros W Hn Hk Hf Ht Hs Hc Hu Ho Hp. split; cbn; try apply W.
  - intros k o [[<- <-]|[Hne H]]%lookup_insert_Some; [by eauto 10|by apply W].
  - intros k1 k2 r1 r2 [[<- <-]|[Hne1 H1]]%lookup_insert_Some
      [[<- <-]|[Hne2 H2]]%lookup_insert_Some E A; try done.
    + right. by apply (Hp _ _ H2).
    + left. by apply (Hp _ _ H1).
    + by eapply (wf_span_disjoint _ W).
  - intros id k o p Hok [[<- <-]|[Hne H]]%lookup_insert_Some E.
    + specialize (Ho _ _ Hok E). lia.
    + by eapply (wf_due_not_skipped _ W).
Qed.

Lemma wf_update_occurrence db id old new :
  wf db -> occurrences db !! id = Some old -> identity_columns new = identity_columns old ->
  (active new = true -> active old = true) -> occurrenceCheck new = true -> occurrence_ints new ->
  wf (set_occurrences (<[id := new]> (occurrences db)) db).
Proof.
  intros W Hold (Ei & Es & Ed & Ea)%identity_columns_eq Hact Hk Hi.
  split; cbn; try apply W.
  - intros id' r [[<- <-]|[Hne H]]%lookup_insert_Some; [|by apply W].
    destruct (wf_occurrence _ W _ _ Hold) as (? & ? & ? & s & ? & ?).
    rewrite Ei, Es, Ed. eauto 10.
  - intros id1 id2 r1 r2 [[<- <-]|[Hne1 H1]]%lookup_insert_Some
      [[<- <-]|[Hne2 H2]]%lookup_insert_Some E A1 A2; [done| | |].
    + eapply (wf_one_active _ W _ _ _ _ Hold H2); [congruence|auto|done].
    + eapply (wf_one_active _ W _ _ _ _ H1 Hold); [congruence|done|auto].
    + by eapply (wf_one_active _ W).
  - intros id1 id2 r1 r2 [[<- <-]|[Hne1 H1]]%lookup_insert_Some
      [[<- <-]|[Hne2 H2]]%lookup_insert_Some E A; [done| | |].
    + eapply (wf_due_unique _ W _ _ _ _ Hold H2); congruence.
    + eapply (wf_due_unique _ W _ _ _ _ H1 Hold); congruence.
    + by eapply (wf_due_unique _ W).
  - intros id1 k o p [[<- <-]|[Hne1 H1]]%lookup_insert_Some Hpk E.
    + rewrite Ed. eapply (wf_due_not_skipped _ W _ _ _ _ Hold Hpk). congruence.
    + by eapply (wf_due_not_skipped _ W).
Qed.

(** ** Table updates that extend the database *)
Lemma extends_touch db id s s' :
  schedules db !! id = Some s -> definition_columns s' = definition_columns s ->
  sr_cursor s <= sr_cursor s' -> (sr_state s = "deleted" -> sr_state s' = "deleted")%string ->
  extends db (set_schedules (<[id := s']> (schedules db)) db).
Proof.
  intros Hs_ Hd Hc Hst. split; cbn; eauto 10 with lia.
  intros id' r H. destruct (decide (id = id')) as [<-|Hne].
  - rewrite lookup_insert_eq. rewrite H in Hs_. injection Hs_ as ->. eexists; split_and!; eauto.
  - rewrite lookup_insert_ne by done. eauto 10 with lia.
Qed.

Lemma extends_insert_schedule db r :
  schedules db !! sr_id r = None ->
  extends db (set_schedules (<[sr_id r := r]> (schedules db)) db).
Proof.
  intros Hn. split; cbn; eauto 10 with lia.
  intros id' r' H. rewrite lookup_insert_ne by congruence. eauto 10 with lia.
Qed.

Lemma extends_insert_occurrence db r :
  occurrences db !! or_taskID r = None ->
  extends db (set_occurrences (<[or_taskID r := r]> (occurrences db)) db).
Proof.
  intros Hn. split; cbn; eauto 10 with lia.
  intros id' r' H. rewrite lookup_insert_ne by congruence. eauto 10 with lia.
Qed.

Lemma extends_insert_span db r :
  skip_spans db !! (sp_scheduleID r, sp_to r) = None ->
  extends db (set_skip_spans (<[(sp_scheduleID r, sp_to r) := r]> (skip_spans db)) db).
Proof.
  intros Hn. split; cbn; eauto 10 with lia.
  intros k r' H. rewrite lookup_insert_ne by congruence. done.
Qed.

Lemma extends_update_occurrence db id old new :
  occurrences db !! id = Some old -> identity_columns new = identity_columns old ->
  (active old = false -> release_columns new = release_columns old) ->
  (forall t, or_observedAt old = Some t -> exists t', or_observedAt new = Some t' /\ t <= t') ->
  extends db (set_occurrences (<[id := new]> (occurrences db)) db).
Proof.
  intros Hs_ Hid Hr Ho. split; cbn; eauto 10 with lia.
  intros id' r H. destruct (decide (id = id')) as [<-|Hne].
  - rewrite lookup_insert_eq. rewrite H in Hs_. injection Hs_ as ->. eexists; split_and!; eauto.
  - rewrite lookup_insert_ne by done. eauto 10 with lia.
Qed.

(** ** What each successful statement did *)
Lemma updateOne_Ok m db' : updateOne m = Ok db' <-> m = Ok (1, db').
Proof.
  unfold updateOne, exec. split.
  - intros H. inv_ok. destruct x as [n db1]. cbn in *.
    destruct (n =? 1) eqn:E; bool_prop; inv_ok. done.
  - by intros ->.
Qed.

Lemma updateSchedule_Ok db id w ns nc db' :
  updateSchedule db id w ns nc = Ok (1, db') ->
  exists old, schedules db !! id = Some old /\ w old = true /\
    (valid ns = true -> sr_state old <> "deleted"%string) /\
    (forall c, nc = Some c -> sr_cursor old < c) /\
    scheduleCheck (setSchedule old ns nc) = true /\
    db' = set_schedules (<[id := setSchedule old ns nc]> (schedules db)) db.
Proof.
  unfold updateSchedule. destruct (schedules db !! id) as [old|]; [|done].
  destruct (w old) eqn:Ew; cbn [negb]; [|done].
  destruct (_ || _) eqn:Et; [done|]. destruct (scheduleCheck _) eqn:Ec; cbn [negb]; [|done].
  intros H; inv_ok. apply orb_false_iff in Et as [E1 E2]. exists old. split_and!; try done.
  - intros Hv. rewrite Hv in E1. cbn in E1. by apply eqs_false in E1.
  - intros c ->. cbn in E2. by apply Z.leb_gt in E2.
Qed.

Lemma insertOccurrence_Ok db tid sid due armed db' :
  insertOccurrence db tid sid due armed = Ok db' ->
  occurrenceCheck (armedRow tid sid due armed) = true /\ occurrences db !! tid = None /\
  (forall id o, occurrences db !! id = Some o -> or_scheduleID o = sid -> or_due o <> due) /\
  (forall id o, occurrences db !! id = Some o -> or_scheduleID o = sid -> active o = false) /\
  is_Some (schedules db !! sid) /\
  db' = set_occurrences (<[tid := armedRow tid sid due armed]> (occurrences db)) db.
Proof.
  unfold insertOccurrence. destruct (occurrenceCheck _); cbn [negb]; [|done].
  destruct (valid (occurrences db !! tid)) eqn:Ev; [done|]. apply valid_false in Ev.
  case_bool_decide as Hd; cbn [negb]; [|done]. case_bool_decide as Ha; cbn [negb]; [|done].
  destruct (valid (schedules db !! sid)) eqn:Es; cbn [negb]; [|done]. apply valid_true in Es.
  rewrite selectOccurrences_nil in Hd, Ha. intros H; inv_ok. split_and!; try done.
  - intros id o Ho <- <-. specialize (Hd _ _ Ho). by rewrite eqs_refl, Z.eqb_refl in Hd.
  - intros id o Ho <-. specialize (Ha _ _ Ho). by rewrite eqs_refl in Ha.
Qed.

Lemma insertSpan_Ok db r db' :
  insertSpan db r = Ok db' ->
  spanCheck r = true /\ skip_spans db !! (sp_scheduleID r, sp_to r) = None /\
  is_Some (schedules db !! sp_scheduleID r) /\
  db' = set_skip_spans (<[(sp_scheduleID r, sp_to r) := r]> (skip_spans db)) db.
Proof.
  unfold insertSpan. destruct (spanCheck r); cbn [negb]; [|done].
  destruct (valid (skip_spans db !! _)) eqn:Ev; [done|]. apply valid_false in Ev.
  destruct (valid (schedules db !! _)) eqn:Es; cbn [negb]; [|done]. apply valid_true in Es.
  intros H; inv_ok. done.
Qed.

Lemma updateOccurrence_Ok db tid w set' fires n db' :
  updateOccurrence db tid w set' fires = Ok (n, db') ->
  (n = 0 /\ db' = db) \/
  (n = 1 /\ exists old, occurrences db !! tid = Some old /\ w old = true /\
     occurrenceCheck (set' old) = true /\
     db' = set_occurrences (<[tid := set' old]> (occurrences db)) db).
Proof.
  unfold updateOccurrence. destruct (occurrences db !! tid) as [old|]; [|naive_solver].
  destruct (w old) eqn:Ew; cbn [negb]; [|naive_solver].
  destruct (fires _ _); [done|]. destruct (occurrenceCheck _) eqn:Ec; cbn [negb]; [|done].
  intros H; inv_ok. right. eauto 10.
Qed.

Lemma state_of_string_eq s st :
  ValidateState st = Ok tt -> state_of_string s = st <-> s = string_of_state st.
Proof.
  unfold state_of_string.
  destruct (eqs s "enabled") eqn:E1; [apply eqs_true in E1 as ->; destruct st; cbn; naive_solver|].
  destruct (eqs s "paused") eqn:E2; [apply eqs_true in E2 as ->; destruct st; cbn; naive_solver|].
  destruct (eqs s "deleted") eqn:E3; [apply eqs_true in E3 as ->; destruct st; cbn; naive_solver|].
  apply eqs_false in E1, E2, E3. destruct st; cbn; naive_solver.
Qed.

Lemma scheduleState_Ok db id state cursor :
  scheduleState db id = Ok (state, cursor) <->
  exists row, schedules db !! id = Some row /\ sr_cursor row = cursor /\
    ValidateState state = Ok tt /\ sr_state row = string_of_state state.
Proof.
  unfold scheduleState. destruct (schedules db !! id) as [row|]; [|split; [done|by intros (? & ? & _)]].
  split.
  - intros H. inv_ok. exists row. split_and!; try done. by apply state_of_string_eq.
  - intros (row' & [= <-] & <- & Hv & Hs). apply (state_of_string_eq _ _ Hv) in Hs. by rewrite Hs, Hv.
Qed.

(** Every recorded endpoint of a schedule is at most its cursor. *)
Lemma wf_due_le db id o s :
  wf db -> occurrences db !! id = Some o -> schedules db !! or_scheduleID o = Some s ->
  or_due o <= sr_cursor s.
Proof. intros W Ho Hs. destruct (wf_occurrence _ W _ _ Ho) as (_ & _ & _ & s' & ? & ?). simplify_eq. lia. Qed.

Lemma wf_span_le db k p s :
  wf db -> skip_spans db !! k = Some p -> schedules db !! sp_scheduleID p = Some s ->
  sp_to p <= sr_cursor s.
Proof. intros W Hp Hs. destruct (wf_span _ W _ _ Hp) as (_ & _ & _ & _ & s' & ? & ?). simplify_eq. lia. Qed.

Lemma wf_created_le db id s : wf db -> schedules db !! id = Some s -> sr_created s <= sr_cursor s.
Proof.
  intros W H. destruct (wf_schedule _ W _ _ H) as (_ & Hk & _). unfold scheduleCheck in Hk. bool_prop. done.
Qed.

(** ** The body of each operation *)
Lemma armOccurrence_Ok db claim db' :
  ValidateClaim claim = Ok tt -> armOccurrence db claim = Ok db' ->
  let row := armedRow (cl_TaskID claim) (cl_ScheduleID claim) (nanos (cl_Due claim))
               (nanos (cl_ArmedAt claim)) in
  exists s, schedules db !! cl_ScheduleID claim = Some s /\ sr_state s = "enabled"%string /\
    sr_cursor s = nanos (cl_ExpectedCursor claim) /\
    occurrences db !! cl_TaskID claim = None /\ occurrenceCheck row = true /\
    (forall id o, occurrences db !! id = Some o -> or_scheduleID o = cl_ScheduleID claim ->
       or_due o <> nanos (cl_Due claim) /\ active o = false) /\
    scheduleCheck (setSchedule s None (Some (nanos (cl_Due claim)))) = true /\
    db' = MkDatabase
            (<[cl_ScheduleID claim := setSchedule s None (Some (nanos (cl_Due claim)))]> (schedules db))
            (<[cl_TaskID claim := row]> (occurrences db)) (skip_spans db).
Proof.
  intros (Hs & Ht & Ce & Cd & Hlt & Ca)%ValidateClaim_Ok. unfold armOccurrence, exec.
  rewrite !canonical_UnixNano by done. intros H. inv_ok. destruct x as [state cursor]. inv_ok. bool_prop.
  subst state. rename select (updateOne _ = _) into Hu. rename select (insertOccurrence _ _ _ _ _ = _) into Hi.
  rename select (scheduleState _ _ = _) into Hst.
  apply insertOccurrence_Ok in Hi as (Hk & Hn & Hd & Ha & _ & ->).
  apply updateOne_Ok, updateSchedule_Ok in Hu as (old & Hold & Hw & _ & _ & Hck & ->).
  cbn in Hold. apply scheduleState_Ok in Hst as (row & Hrow & Hc & _ & Hen).
  rewrite Hold in Hrow. injection Hrow as <-. rewrite <- Hc in *.
  exists old. split_and!; eauto 10 with congruence.
Qed.

Lemma arm_preserves db claim db' :
  wf db -> ValidateClaim claim = Ok tt -> armOccurrence db claim = Ok db' ->
  wf db' /\ extends db db'.
Proof.
  intros W V H. pose proof (ValidateClaim_Ok _ V) as (_ & _ & _ & [_ Hd] & Hlt & [_ Ha]).
  apply armOccurrence_Ok in H as (s & Hs & He & Hc & Hn & Hk & Ho & Hck & ->); [|done].
  set (s' := setSchedule s None (Some (nanos (cl_Due claim)))).
  set (row := armedRow _ _ _ _).
  set (db1 := set_schedules (<[cl_ScheduleID claim := s']> (schedules db)) db).
  assert (wf db1) as W1 by (apply (wf_touch _ _ s); [done..|cbn; lia|done|done]).
  assert (extends db db1) as E1 by (apply (extends_touch _ _ s); [done|done|cbn; lia|done]).
  pose proof (wf_created_le _ _ _ W Hs).
  split.
  - change (wf (set_occurrences (<[or_taskID row := row]> (occurrences db1)) db1)).
    apply (wf_insert_occurrence db1 row s'); try done.
    + cbn. by rewrite lookup_insert_eq.
    + cbn. lia.
    + intros k p Hp E. destruct (wf_span _ W1 _ _ Hp) as (_ & _ & _ & _ & s0 & H0 & _ & Hle).
      rewrite E in H0. destruct (wf_span _ W _ _ Hp) as (_ & _ & _ & _ & s1 & H1 & _ & Hle1).
      cbn in E. rewrite E in H1. simplify_eq. cbn. lia.
  - transitivity db1; [done|]. by apply (extends_insert_occurrence db1 row).
Qed.

(** A span that starts at or after the cursor, with the cursor moved to its end. *)
Lemma skip_preserves db id s span st db1 db' :
  wf db -> schedules db !! id = Some s -> ValidateSkipSpan span = Ok tt ->
  sr_cursor s <= nanos (ss_From span) ->
  insertSpan db (MkSpanRow id (nanos (ss_From span)) (nanos (ss_To span))
                   (string_of_reason (ss_Reason span))) = Ok db1 ->
  scheduleCheck (setSchedule s st (Some (nanos (ss_To span)))) = true ->
  (valid st = true -> sr_state s <> "deleted"%string) ->
  db' = set_schedules (<[id := setSchedule s st (Some (nanos (ss_To span)))]> (schedules db1)) db1 ->
  wf db' /\ extends db db'.
Proof.
  intros W Hs ([_ Hf] & [_ Ht] & Hlt)%ValidateSkipSpan_Ok Hc Hi Hck Hst ->.
  apply insertSpan_Ok in Hi as (Hk & Hn & _ & ->).
  set (row := MkSpanRow _ _ _ _) in *.
  set (s' := setSchedule s st (Some (nanos (ss_To span)))) in *.
  set (db1 := set_schedules (<[id := s']> (schedules db)) db).
  assert (wf db1) as W1 by (apply (wf_touch _ _ s); [done..|cbn; lia|done|done]).
  assert (extends db db1) as E1.
  { apply (extends_touch _ _ s); [done|done|cbn; lia|]. intros E. destruct st; [by destruct Hst|done]. }
  change (wf (set_skip_spans (<[(sp_scheduleID row, sp_to row) := row]> (skip_spans db1)) db1) /\
          extends db (set_skip_spans (<[(sp_scheduleID row, sp_to row) := row]> (skip_spans db1)) db1)).
  split; [|transitivity db1; [done|by apply (extends_insert_span db1 row)]].
  pose proof (wf_created_le _ _ _ W Hs).
  apply (wf_insert_span db1 row s'); try done; cbn; try lia.
  - by rewrite lookup_insert_eq.
  - intros id' o Ho E. rewrite <- E in Hs. pose proof (wf_due_le _ _ _ _ W Ho Hs). lia.
  - intros k p Hp E. rewrite <- E in Hs. pose proof (wf_span_le _ _ _ _ W Hp Hs). lia.
Qed.

Section preservation.
Context (DecodeStrict : string -> result Request) (guard : database -> result unit).

(** An operation preserves a relation when its body does. *)
Lemma transact_preserves (R : database -> database -> Prop) {A} env
    (body : database -> result (A * database)) db :
  R db db -> (forall a db', body db = Ok (a, db') -> R db db') ->
  R db (snd (transact env guard body db)).
Proof.
  intros Hrefl H. destruct (transact_snd env guard body db) as [->|[a Ha]]; [done|].
  by eapply H.
Qed.

Definition kept (db db' : database) : Prop := wf db -> wf db' /\ extends db db'.

Lemma kept_refl db : kept db db.
Proof. intros W. split; [done|reflexivity]. Qed.

Lemma InitialSchedule_Ok d initial :
  InitialSchedule DecodeStrict d = Ok initial ->
  initial = MkSchedule d StateEnabled (dh_CreatedAt (df_Header d)) /\
  ValidateDefinition DecodeStrict d = Ok tt.
Proof. unfold InitialSchedule. intros H. inv_ok. done. Qed.

Lemma CreateSchedule_kept env d db : kept db (run DecodeStrict guard env (OpCreate d) db).
Proof.
  unfold run, CreateSchedule. destruct (_ ≫= _) as [[[initial digests] request]|]; [|apply kept_refl].
  apply transact_preserves; [apply kept_refl|]. unfold exec. intros [] db' H W. inv_ok.
  rename select (insertSchedule _ _ = _) into Hi. unfold insertSchedule in Hi.
  destruct (scheduleCheck _) eqn:Hk in Hi; cbn [negb] in Hi; [|done].
  destruct (schedules db !! _) eqn:Hn in Hi; [done|]. inv_ok. split.
  - by apply wf_insert_schedule; [..|apply int64_range|apply int64_range].
  - by apply extends_insert_schedule.
Qed.

Lemma ClaimAndArm_kept env c db : kept db (run DecodeStrict guard env (OpClaim c) db).
Proof.
  unfold run, ClaimAndArm. destruct (ValidateClaim c) as [[]|] eqn:V; [|apply kept_refl].
  pose proof (transact_preserves kept env (fun db =>
    found ← claimedTask db c;
    if negb (eqs found "") then Ok (found, db)
    else db' ← armOccurrence db c; Ok (""%string, db')) db (kept_refl db)) as Hp.
  destruct (transact _ _ _ _) as [[existing|e] db'] eqn:E; cbn in *.
  - destruct (negb (eqs existing "")); cbn; apply Hp; intros a db'' Hb W; inv_ok;
      (destruct (negb (eqs x "")); inv_ok; [apply kept_refl, W|by eapply arm_preserves]).
  - apply Hp; intros a db'' Hb W; inv_ok;
      (destruct (negb (eqs x "")); inv_ok; [apply kept_refl, W|by eapply arm_preserves]).
Qed.

(** A touch of a schedule row by [updateSchedule]. *)
Lemma updateSchedule_kept db id w ns nc db' :
  (forall c, nc = Some c -> in_int64 c) ->
  updateSchedule db id w ns nc = Ok (1, db') -> kept db db'.
Proof.
  intros Hi (s & Hs & _ & Hd & Hc & Hk & ->)%updateSchedule_Ok W.
  destruct (wf_schedule _ W _ _ Hs) as (_ & _ & _ & Hcur).
  assert (sr_cursor s <= sr_cursor (setSchedule s ns nc)).
  { destruct nc as [c|]; cbn; [specialize (Hc _ eq_refl)|]; lia. }
  assert (sr_state s = "deleted"%string -> sr_state (setSchedule s ns nc) = "deleted"%string).
  { intros E. destruct ns; [by destruct Hd|done]. }
  split.
  - apply (wf_touch _ _ s); try done. destruct nc; [by apply Hi|done].
  - by apply (extends_touch _ _ s).
Qed.

Lemma insertSkipSpan_Ok db id cursor expected span db1 :
  ValidateSkipSpan span = Ok tt -> canonical expected ->
  insertSkipSpan db id cursor expected span = Ok db1 ->
  cursor = nanos expected /\
  insertSpan db (MkSpanRow id (nanos (ss_From span)) (nanos (ss_To span))
                   (string_of_reason (ss_Reason span))) = Ok db1.
Proof.
  intros (Hf & Ht & _)%ValidateSkipSpan_Ok He. unfold insertSkipSpan, exec.
  rewrite !canonical_UnixNano by done. destruct (_ =? _) eqn:E; cbn [negb]; [|done].
  intros H. inv_ok. bool_prop. done.
Qed.

(** A span inserted at the cursor, then the conditional update of the same row. *)
Lemma span_update_kept db id s expected span w ns db1 db' :
  schedules db !! id = Some s -> ValidateSkipSpan span = Ok tt -> canonical expected ->
  nanos expected <= nanos (ss_From span) ->
  insertSkipSpan db id (sr_cursor s) expected span = Ok db1 ->
  updateSchedule db1 id w ns (Some (UnixNano (ss_To span))) = Ok (1, db') -> kept db db'.
Proof.
  intros Hs V He Hle Hi Hu W.
  apply insertSkipSpan_Ok in Hi as [Ec Hi]; [|done..].
  pose proof (ValidateSkipSpan_Ok _ V) as (_ & Ht & _). rewrite (canonical_UnixNano _ Ht) in Hu.
  apply updateSchedule_Ok in Hu as (s1 & H1 & _ & Hd & _ & Hk & E).
  assert (schedules db1 = schedules db) as Es by (apply insertSpan_Ok in Hi as (_ & _ & _ & ->); done).
  rewrite Es in H1. rewrite Hs in H1. injection H1 as <-.
  eapply (skip_preserves db id s span ns db1); eauto. lia.
Qed.

Lemma ValidateStateChange_Ok c :
  ValidateStateChange c = Ok tt ->
  ValidateState (sc_From c) = Ok tt /\ ValidateState (sc_To c) = Ok tt /\
  permittedTransition (sc_From c) (sc_To c) = true /\
  forall r, sc_Resume c = Some r ->
    sc_From c = StatePaused /\ sc_To c = StateEnabled /\ ValidateSkipSpan (Span r) = Ok tt /\
    canonical (rs_ExpectedCursor r) /\ nanos (rs_ExpectedCursor r) <= nanos (rs_From r).
Proof.
  unfold ValidateStateChange. intros H. inv_ok. bool_prop.
  rename select (when_some _ _ = _) into Hw. rewrite when_some_Ok in Hw.
  split_and!; try done. intros r Hr. specialize (Hw _ Hr). unfold validateCursorAdvance in Hw.
  validated. auto.
Qed.

Lemma ChangeState_kept env c db : kept db (run DecodeStrict guard env (OpChange c) db).
Proof.
  unfold run, ChangeState. destruct (ValidateStateChange c) as [[]|] eqn:V; [|apply kept_refl].
  apply ValidateStateChange_Ok in V as (_ & _ & _ & Hr).
  apply transact_preserves; [apply kept_refl|]. intros [] db' H. inv_ok. destruct x as [st cursor].
  inv_ok. bool_prop. rename select (scheduleState _ _ = _) into Hst.
  apply scheduleState_Ok in Hst as (s & Hs & <- & _ & _).
  destruct (sc_Resume c) as [r|] eqn:Er; inv_ok;
    rename select (updateOne _ = _) into Hu; apply updateOne_Ok in Hu.
  - destruct (Hr _ eq_refl) as (_ & _ & Vs & He & Hle). by eapply (span_update_kept db _ s).
  - assert (forall z : Z, None = Some z -> in_int64 z) as Hnone by done.
    exact (updateSchedule_kept _ _ _ _ _ _ Hnone Hu).
Qed.

Lemma RecordSkip_kept env k db : kept db (run DecodeStrict guard env (OpSkip k) db).
Proof.
  unfold run, RecordSkip. destruct (ValidateSkip k) as [[]|] eqn:V; [|apply kept_refl].
  apply ValidateSkip_Ok in V as (_ & _ & Vs & He & Hle).
  apply transact_preserves; [apply kept_refl|]. intros [] db' H. inv_ok. destruct x as [st cursor].
  inv_ok. bool_prop. rename select (scheduleState _ _ = _) into Hst.
  apply scheduleState_Ok in Hst as (s & Hs & <- & _ & _).
  rename select (updateOne _ = _) into Hu. apply updateOne_Ok in Hu.
  by eapply (span_update_kept db _ s).
Qed.

Lemma RecordObservation_kept env o db : kept db (run DecodeStrict guard env (OpObserve o) db).
Proof.
  unfold run, RecordObservation. destruct (ValidateOccurrenceObservation o) as [[]|]; [|apply kept_refl].
  apply transact_preserves; [apply kept_refl|]. unfold exec. intros [] db' H W. inv_ok.
  destruct x as [n db1]. inv_ok. rename select (updateOccurrence _ _ _ _ _ = _) into Hu.
  assert (db' = db1) as -> by (destruct (n =? 1); inv_ok; done).
  apply updateOccurrence_Ok in Hu as [[_ ->]|[_ (old & Hold & Hw & Hk & ->)]]; [by apply kept_refl|].
  split.
  - apply (wf_update_occurrence _ _ old); try done.
    destruct (wf_occurrence _ W _ _ Hold) as (_ & _ & (? & ? & _ & ?) & _).
    split_and!; try done. intros t [= <-]. apply int64_range.
  - apply (extends_update_occurrence _ _ old); try done. intros t Ht. rewrite Ht in Hw. bool_prop.
    eexists; split; [done|lia].
Qed.

Lemma ReleaseOccurrence_kept env l db : kept db (run DecodeStrict guard env (OpRelease l) db).
Proof.
  unfold run, ReleaseOccurrence. destruct (ValidateOccurrenceRelease l) as [[]|]; [|apply kept_refl].
  apply transact_preserves; [apply kept_refl|]. unfold exec. intros [] db' H W. inv_ok.
  destruct x as [n db1]. inv_ok. rename select (updateOccurrence _ _ _ _ _ = _) into Hu.
  assert (db' = db1) as ->.
  { destruct (n =? 1); inv_ok; [done|]. destruct (oc_Release _); inv_ok; done. }
  apply updateOccurrence_Ok in Hu as [[_ ->]|[_ (old & Hold & Hw & Hk & ->)]]; [by apply kept_refl|].
  split.
  - apply (wf_update_occurrence _ _ old); try done.
    destruct (wf_occurrence _ W _ _ Hold) as (_ & _ & (? & ? & ? & _) & _).
    split_and!; try done. intros t [= <-]. apply int64_range.
  - apply (extends_update_occurrence _ _ old); try done.
    + congruence.
    + intros t Ht. exists t. split; [done|lia].
Qed.

Lemma run_kept env op db : kept db (run DecodeStrict guard env op db).
Proof.
  destruct op; [apply CreateSchedule_kept | apply ChangeState_kept | apply ClaimAndArm_kept
    | apply RecordObservation_kept | apply ReleaseOccurrence_kept | apply RecordSkip_kept].
Qed.

Lemma reaches_kept db db' : reaches DecodeStrict guard db db' -> kept db db'.
Proof.
  induction 1 as [|env op db' _ IH]; [apply kept_refl|]. intros W. destruct (IH W) as [W' E].
  destruct (run_kept env op db' W') as [W'' E']. split; [done|by transitivity db'].
Qed.
End preservation.
