(* ===== verification/SchedStoreProps.v ===== *)
(** * Guarantees of the schedule store

    Stored rows decode, claims authorize at most one invocation, releases are
    immutable, and the decision of [ClaimAndArm] against an abstract
    specification. *)
From S2P Require Import Prelude GoErrors GoTime GoText TaskTypes Encoding SchedContract SchedRequest.
From S2P Require Import SchedStore SchedStoreInv.

(** ** The schema's CHECK clauses imply the contract's validity rules *)
Lemma hexText_nonempty n s : 0 < n -> hexText n s = true -> eqs s "" = false.
Proof.
  unfold hexText. intros Hn [H _]%andb_true_iff. apply Z.eqb_eq in H.
  apply eqs_false. intros ->. unfold len in H. cbn in H. lia.
Qed.

Lemma codePattern_nonempty s : codePattern s = true -> eqs s "" = false.
Proof.
  unfold codePattern. intros H. apply eqs_false. by intros ->.
Qed.

Lemma instant_valid name n : in_int64 n -> ValidateInstant name (InstantFromUnixNanos n) = Ok tt.
Proof. intros H. by apply ValidateInstant_Ok. Qed.

Lemma smallEnum_ok name v : 0 <= v <= 255 -> smallEnum name v = Ok v.
Proof.
  intros H. unfold smallEnum. destruct (v <? 0) eqn:?, (255 <? v) eqn:?; bool_prop; cbn; lia || done.
Qed.

Lemma optionalText_ok name o :
  (forall s, o = Some s -> eqs s "" = false) ->
  optionalText name o = Ok (default ""%string o).
Proof. destruct o as [s|]; cbn; [|done]. intros H. by rewrite H. Qed.

Lemma enum3 v : between 0 v 2 = true -> v = 0 \/ v = 1 \/ v = 2.
Proof. unfold between. intros H. bool_prop. lia. Qed.

Lemma enum4 v : between 0 v 3 = true -> v = 0 \/ v = 1 \/ v = 2 \/ v = 3.
Proof. unfold between. intros H. bool_prop. lia. Qed.

(** The observation an accepted row decodes to. *)
Definition rowObservation (r : occurrenceRow) : option Observation :=
  match or_observedAt r with
  | None => None
  | Some t => Some (MkObservation (InstantFromUnixNanos t) (default 0 (or_admission r))
                      (default 0 (or_liveness r)) (default 0 (or_publication r))
                      (default ""%string (or_outcomeSHA256 r)) (default ""%string (or_faultCode r)))
  end.

Definition rowRelease (r : occurrenceRow) : option Release :=
  match or_releasedAt r with
  | None => None
  | Some t => Some (MkRelease (InstantFromUnixNanos t)
                      (kind_of_string (default ""%string (or_releaseKind r)))
                      (default ""%string (or_releaseRef r)))
  end.

Definition rowOccurrence (r : occurrenceRow) : Occurrence :=
  MkOccurrence (or_taskID r) (or_scheduleID r) (InstantFromUnixNanos (or_due r))
    (InstantFromUnixNanos (or_armedAt r)) (rowObservation r) (rowRelease r).

Lemma observation_row r : occurrenceCheck r = true -> observation r = Ok (rowObservation r).
Proof.
  unfold occurrenceCheck. intros H. bool_prop.
  unfold observation, rowObservation.
  destruct (or_observedAt r) as [t|]; cbn [valid] in *.
  - destruct (or_admission r) as [a|], (or_liveness r) as [l|], (or_publication r) as [p|];
      cbn [valid Bool.eqb nullOr negb orb] in *; try done.
    cbn [allEqual forallb Bool.eqb andb negb].
    repeat match goal with
    | H : between 0 _ 2 = true |- _ => apply enum3 in H
    | H : between 0 _ 3 = true |- _ => apply enum4 in H
    end. cbn [default id from_option].
    rewrite !smallEnum_ok by lia.
    rewrite !optionalText_ok.
    + done.
    + intros s E. rewrite E in *. by apply codePattern_nonempty.
    + intros s E. rewrite E in *. by apply (hexText_nonempty 64).
  - destruct (or_admission r), (or_liveness r), (or_publication r); cbn [valid Bool.eqb] in *; try done.
    destruct (or_outcomeSHA256 r), (or_faultCode r); cbn in *; done.
Qed.

Lemma releaseFact_row r : occurrenceCheck r = true -> releaseFact r = Ok (rowRelease r).
Proof.
  unfold occurrenceCheck. intros H. bool_prop. unfold releaseFact, rowRelease.
  destruct (or_releasedAt r), (or_releaseKind r), (or_releaseRef r); cbn [valid Bool.eqb] in *; done.
Qed.

Lemma observation_valid r o :
  occurrenceCheck r = true -> occurrence_ints r -> rowObservation r = Some o ->
  ValidateObservation o = Ok tt.
Proof.
  unfold occurrenceCheck, rowObservation. intros H (_ & _ & Hi & _). bool_prop.
  destruct (or_observedAt r) as [t|]; [|done]. intros [= <-]. specialize (Hi _ eq_refl).
  destruct (or_admission r) as [a|], (or_liveness r) as [l|], (or_publication r) as [p|];
    cbn [valid Bool.eqb nullOr negb orb] in *; try done.
  unfold ValidateObservation; cbn [ob_ObservedAt ob_Admission ob_Liveness ob_Publication
    ob_OutcomeSHA256 ob_FaultCode default id from_option].
  rewrite instant_valid by done. cbn [mbind result_bind].
  repeat match goal with
  | H : between 0 _ 2 = true |- _ => apply enum3 in H
  | H : between 0 _ 3 = true |- _ => apply enum4 in H
  end.
  replace (validateAdmission a) with (Ok tt) by (by destruct_or!; subst).
  replace (validateLiveness l) with (Ok tt) by (by destruct_or!; subst).
  cbn [mbind result_bind].
  assert (publicationHasOutcome p = Ok (valid (or_outcomeSHA256 r))) as ->.
  { rename select (Bool.eqb _ _ = true) into E.
    repeat match goal with E : Bool.eqb _ _ = true |- _ => apply Bool.eqb_prop in E end.
    destruct_or!; subst p; cbn in *; destruct (valid _); done. }
  assert ((if eqs (default ""%string (or_faultCode r)) "" then Ok tt
           else validateCode "observation fault code" (default ""%string (or_faultCode r))) = Ok tt) as Hf.
  { destruct (or_faultCode r) as [c|] eqn:Ec; cbn in *; [|done].
    unfold codeCheck in *. rewrite codePattern_nonempty by done. unfold validateCode.
    by replace (codePattern c) with true. }
  destruct (or_outcomeSHA256 r) as [d|] eqn:Ed; cbn [valid default id from_option nullOr] in *.
  - cbn [negb andb fail_if mbind result_bind]. rewrite (proj2 (ValidateSHA256_Ok d)) by done. exact Hf.
  - cbn [negb andb fail_if mbind result_bind]. exact Hf.
Qed.

Lemma release_valid r l :
  occurrenceCheck r = true -> occurrence_ints r -> rowRelease r = Some l ->
  ValidateRelease l = Ok tt.
Proof.
  unfold occurrenceCheck, rowRelease. intros H (_ & _ & _ & Hi). apply andb_true_iff in H as [H E].
  bool_prop.
  destruct (or_releasedAt r) as [t|]; [|done]. intros [= <-]. specialize (Hi _ eq_refl).
  destruct (or_releaseKind r) as [k|], (or_releaseRef r) as [ref|]; cbn [valid Bool.eqb] in *; try done.
  unfold ValidateRelease; cbn [rl_ReleasedAt rl_Kind rl_Ref default id from_option].
  rewrite instant_valid by done. cbn [mbind result_bind].
  apply orb_true_iff in E as [[Hk Hr]%andb_true_iff|[Hk Hr]%andb_true_iff];
    apply eqs_true in Hk as ->; cbn [kind_of_string]; cbn.
  - unfold validateCode, codeCheck in *. by rewrite Hr.
  - by rewrite (proj2 (ValidateSHA256_Ok ref)).
Qed.

Lemma when_some_intro {A} (o : option A) f :
  (forall a, o = Some a -> f a = Ok tt) -> when_some o f = Ok tt.
Proof. apply when_some_Ok. Qed.

(** The row of a well-formed database decodes to the occurrence its columns spell. *)
Lemma occurrence_decodes db id r :
  wf db -> occurrences db !! id = Some r -> occurrence r = Ok (rowOccurrence r).
Proof.
  intros W Hr. destruct (wf_occurrence _ W _ _ Hr) as (_ & Hk & Hi & s & Hs & _).
  destruct (wf_schedule _ W _ _ Hs) as (Hid & Hsk & _).
  unfold occurrence. rewrite (observation_row _ Hk), (releaseFact_row _ Hk). cbn [mbind result_bind].
  enough (ValidateOccurrence (rowOccurrence r) = Ok tt) as E.
  { unfold rowOccurrence in E. rewrite E. done. }
  pose proof Hi as (Hd & Ha & _). unfold ValidateOccurrence, rowOccurrence; cbn.
  assert (hexText 32 (or_taskID r) = true) as HT.
  { unfold occurrenceCheck, hex32Check in Hk. by bool_prop. }
  assert (hexText 32 (or_scheduleID r) = true) as HS.
  { unfold scheduleCheck, hex32Check in Hsk. bool_prop. by rewrite <- Hid. }
  rewrite (proj2 (ValidateTaskID_Ok _) HT), (proj2 (validateScheduleID_Ok _) HS). cbn.
  rewrite !instant_valid by done. cbn.
  rewrite !when_some_intro; [done| |].
  - intros o Ho. by eapply observation_valid.
  - intros l Hl. by eapply release_valid.
Qed.

Lemma span_decodes db k r :
  wf db -> skip_spans db !! k = Some r -> exists span, spanOf r = Ok span /\
    ss_From span = InstantFromUnixNanos (sp_from r) /\ ss_To span = InstantFromUnixNanos (sp_to r) /\
    ValidateSkipSpan span = Ok tt.
Proof.
  intros W Hr. destruct (wf_span _ W _ _ Hr) as (_ & Hk & Hf & Ht & _).
  unfold spanCheck in Hk. apply andb_true_iff in Hk as [Hlt Hreason]. apply Z.ltb_lt in Hlt.
  assert (ValidateSkipReason (reason_of_string (sp_reason r)) = Ok tt) as HR.
  { cbn in Hreason. repeat (apply orb_true_iff in Hreason as [Hreason|Hreason]);
      try done; apply eqs_true in Hreason as ->; done. }
  assert (ValidateSkipSpan (MkSkipSpan (InstantFromUnixNanos (sp_from r))
            (InstantFromUnixNanos (sp_to r)) (reason_of_string (sp_reason r))) = Ok tt) as HV.
  { unfold ValidateSkipSpan; cbn [ss_Reason ss_From ss_To]. rewrite HR. cbn.
    rewrite !instant_valid by done. cbn. unfold After; cbn. by rewrite (proj2 (Z.ltb_lt _ _)). }
  unfold spanOf. rewrite HV. cbn. eauto.
Qed.

(** ** A transaction without driver failures *)
Definition transacted {A} (db : database) (m : result (A * database)) : result A * database :=
  match m with
  | Ok (a, db') => (Ok a, db')
  | Err e => (Err (Joined "" [Joined "" [e]]), db)
  end.

Lemma transact_txOk {A} guard (body : database -> result (A * database)) db :
  guard db = Ok tt -> transact txOk guard body db = transacted db (body db).
Proof. intros H. unfold transact, transacted; cbn. rewrite H; cbn. by destruct (body db) as [[]|]. Qed.

(** ** Claims *)
Section claims.
Context (DecodeStrict : string -> result Request) (guard : database -> result unit).

Lemma claimedTask_new db c :
  claimedTask db c = Ok ""%string ->
  forall id o, occurrences db !! id = Some o -> or_scheduleID o = cl_ScheduleID c ->
    or_due o <> UnixNano (cl_Due c).
Proof.
  unfold claimedTask.
  destruct (selectOccurrences db _) as [|row rows] eqn:E.
  - intros _ id o Ho Hs Hd. rewrite selectOccurrences_nil in E. specialize (E _ _ Ho).
    cbn in E. by rewrite Hs, Hd, eqs_refl, Z.eqb_refl in E.
  - intros H. inv_ok. rename select (ValidateTaskID _ = _) into Hv. rename select (or_taskID _ = _) into Hr.
    rewrite Hr in Hv. done.
Qed.

(** The task of a recorded due time is found, whatever task the claim names. *)
Lemma claimedTask_found db c id o :
  wf db -> occurrences db !! id = Some o -> or_scheduleID o = cl_ScheduleID c ->
  or_due o = UnixNano (cl_Due c) -> claimedTask db c = Ok id /\ eqs id "" = false.
Proof.
  intros W Ho Hs Hd. unfold claimedTask.
  destruct (selectOccurrences db _) as [|row rows] eqn:E.
  { rewrite selectOccurrences_nil in E. specialize (E _ _ Ho). cbn in E.
    by rewrite Hs, Hd, eqs_refl, Z.eqb_refl in E. }
  assert (row ∈ selectOccurrences db (fun o => eqs (or_scheduleID o) (cl_ScheduleID c) &&
            (or_due o =? UnixNano (cl_Due c)))) as Hin by (rewrite E; left).
  apply elem_selectOccurrences in Hin as (id' & Hr & Hp). bool_prop.
  rename select (eqs _ _ = true) into Heq. apply eqs_true in Heq.
  assert (id = id') as <- by (eapply (wf_due_unique _ W _ _ _ _ Ho Hr); congruence).
  rewrite Ho in Hr. injection Hr as <-.
  destruct (wf_occurrence _ W _ _ Ho) as (Hid & Hk & _).
  assert (hexText 32 (or_taskID o) = true) as HT.
  { unfold occurrenceCheck, hex32Check in Hk. by bool_prop. }
  rewrite (proj2 (ValidateTaskID_Ok _) HT). cbn. split; [by rewrite Hid|].
  rewrite Hid in HT. by apply (hexText_nonempty 32).
Qed.

(** What a claim that authorizes an invocation has done. *)
Lemma authorized_claim env c db r err db' :
  ClaimAndArm guard env c db = (r, err, db') -> AuthorizesInvocation r = true ->
  err = None /\ cr_TaskID r = cl_TaskID c /\ guard db = Ok tt /\ ValidateClaim c = Ok tt /\
  claimedTask db c = Ok ""%string /\ armOccurrence db c = Ok db'.
Proof.
  unfold ClaimAndArm. destruct (ValidateClaim c) as [[]|]; [|by intros [= <- <- <-]].
  destruct (transact _ _ _ _) as [[existing|e] db1] eqn:E; [|by intros [= <- <- <-]].
  destruct (eqs existing "") eqn:Ee; cbn [negb]; intros [= <- <- <-] Ha; [|done].
  apply transact_Ok in E as [Hb Hg]. inv_ok. destruct (negb (eqs x "")) eqn:Ex; inv_ok; [by rewrite Ee in Ex|].
  apply negb_false_iff, eqs_true in Ex. subst. split_and!; auto.
Qed.

Lemma authorized_advances env c db r err db' :
  wf db -> ClaimAndArm guard env c db = (r, err, db') -> AuthorizesInvocation r = true ->
  exists s s', schedules db !! cl_ScheduleID c = Some s /\
    schedules db' !! cl_ScheduleID c = Some s' /\
    sr_cursor s = nanos (cl_ExpectedCursor c) /\ sr_cursor s' = nanos (cl_Due c) /\
    nanos (cl_ExpectedCursor c) < nanos (cl_Due c) /\
    occurrences db' !! cl_TaskID c =
      Some (armedRow (cl_TaskID c) (cl_ScheduleID c) (nanos (cl_Due c)) (nanos (cl_ArmedAt c))).
Proof.
  intros W H A. destruct (authorized_claim _ _ _ _ _ _ H A) as (_ & _ & _ & V & _ & Harm).
  pose proof (ValidateClaim_Ok _ V) as (_ & _ & _ & _ & Hlt & _).
  apply armOccurrence_Ok in Harm as (s & Hs & _ & Hc & _ & _ & _ & _ & ->); [|done].
  eexists s, _. split; [done|]. cbn. rewrite !lookup_insert_eq. done.
Qed.

Lemma authorized_preserves env c db r err db' :
  wf db -> ClaimAndArm guard env c db = (r, err, db') -> AuthorizesInvocation r = true ->
  wf db' /\ extends db db'.
Proof.
  intros W H A. destruct (authorized_claim _ _ _ _ _ _ H A) as (_ & _ & _ & V & _ & Harm).
  by eapply arm_preserves.
Qed.

Lemma claim_existing c db id o :
  wf db -> guard db = Ok tt -> ValidateClaim c = Ok tt ->
  occurrences db !! id = Some o -> or_scheduleID o = cl_ScheduleID c -> or_due o = UnixNano (cl_Due c) ->
  ClaimAndArm guard txOk c db = (MkClaimResult ClaimExisting id, None, db).
Proof.
  intros W G V Ho Hs Hd. destruct (claimedTask_found db c id o W Ho Hs Hd) as [Hf Hne].
  unfold ClaimAndArm. rewrite V, transact_txOk, Hf by done. cbn. rewrite Hne. cbn. by rewrite Hne.
Qed.
End claims.

(** ** The decision of a claim *)
Inductive claim_decision : Type :=
| Existing (taskID : string)
| Armed (db : database)
| Refused (cause : sentinel).

Definition accounted (db : database) (scheduleID : string) (due : Z) : list occurrenceRow :=
  selectOccurrences db (fun o => eqs (or_scheduleID o) scheduleID && (or_due o =? due)).

(** The contract's reading of a claim: an accounted due time answers with its task;
    otherwise the schedule must be enabled, at the expected cursor and without an
    active occurrence, and the task identity unused. *)
Definition claim_spec (db : database) (c : Claim) : claim_decision :=
  match accounted db (cl_ScheduleID c) (nanos (cl_Due c)) with
  | o :: _ => Existing (or_taskID o)
  | [] =>
    match schedules db !! cl_ScheduleID c with
    | None => Refused fs_ErrNotExist
    | Some s =>
        if eqs (sr_state s) "enabled" && (sr_cursor s =? nanos (cl_ExpectedCursor c)) &&
           bool_decide (selectOccurrences db (fun o => eqs (or_scheduleID o) (cl_ScheduleID c) && active o) = []) &&
           bool_decide (occurrences db !! cl_TaskID c = None)
        then Armed (MkDatabase
               (<[cl_ScheduleID c := setSchedule s None (Some (nanos (cl_Due c)))]> (schedules db))
               (<[cl_TaskID c := armedRow (cl_TaskID c) (cl_ScheduleID c) (nanos (cl_Due c))
                                   (nanos (cl_ArmedAt c))]> (occurrences db)) (skip_spans db))
        else Refused contract_ErrConflict
    end
  end.

Definition claim_answer (db : database) (c : Claim) (d : claim_decision)
    (answer : ClaimResult * option error * database) : Prop :=
  match d with
  | Existing id => answer = (MkClaimResult ClaimExisting id, None, db)
  | Armed db' => answer = (MkClaimResult ClaimNewlyCommitted (cl_TaskID c), None, db')
  | Refused cause => exists e, answer = (zeroClaimResult, Some e, db) /\
      errors_Is e cause = true /\ errors_Is e task_ErrInvariantFault = false
  end.

Lemma scheduleState_wf db id s :
  wf db -> schedules db !! id = Some s ->
  scheduleState db id = Ok (state_of_string (sr_state s), sr_cursor s).
Proof.
  intros W Hs. destruct (wf_schedule _ W _ _ Hs) as (_ & Hk & _).
  unfold scheduleCheck in Hk. apply andb_true_iff in Hk as [[Hk E]%andb_true_iff _].
  unfold scheduleState. rewrite Hs.
  by apply orb_true_iff in E as [[E|E]%orb_true_iff|E]; apply eqs_true in E as ->.
Qed.

Lemma state_enabled s :
  bool_decide (state_of_string s = StateEnabled) = eqs s "enabled".
Proof.
  apply bool_decide_ext.
  exact (state_of_string_eq s StateEnabled eq_refl).
Qed.

(** A refusal of the transaction body, as [ClaimAndArm] returns it. *)
Lemma claim_refused guard c db e cause :
  ValidateClaim c = Ok tt -> guard db = Ok tt ->
  (found ← claimedTask db c;
   if negb (eqs found "") then Ok (found, db)
   else db' ← armOccurrence db c; Ok (""%string, db')) = Err e ->
  errors_Is e cause = true -> errors_Is e task_ErrInvariantFault = false ->
  claim_answer db c (Refused cause) (ClaimAndArm guard txOk c db).
Proof.
  intros V G E Hc Hf. unfold ClaimAndArm. rewrite V, transact_txOk, E by done. cbn.
  eexists. split; [done|]. cbn. by rewrite Hc, Hf.
Qed.

Lemma claim_decides guard c db :
  wf db -> guard db = Ok tt -> ValidateClaim c = Ok tt ->
  claim_answer db c (claim_spec db c) (ClaimAndArm guard txOk c db).
Proof.
  intros W G V. pose proof (ValidateClaim_Ok _ V) as (Hsid & Htid & Ce & Cd & Hlt & Ca).
  unfold claim_spec. destruct (accounted _ _ _) as [|o rows] eqn:E.
  2: { assert (o ∈ accounted db (cl_ScheduleID c) (nanos (cl_Due c))) as Hin by (rewrite E; left).
       apply elem_selectOccurrences in Hin as (id & Ho & Hp). bool_prop.
       rename select (eqs _ _ = true) into Hs. apply eqs_true in Hs.
       rewrite <- (canonical_UnixNano _ Cd) in *.
       destruct (claimedTask_found db c id o W Ho Hs) as [Hf Hne]; [done|].
       destruct (wf_occurrence _ W _ _ Ho) as (-> & _).
       by apply (claim_existing guard c db _ o). }
  assert (claimedTask db c = Ok ""%string) as Hf.
  { unfold claimedTask. rewrite (canonical_UnixNano _ Cd). unfold accounted in E. by rewrite E. }
  destruct (schedules db !! cl_ScheduleID c) as [s|] eqn:Hs.
  2: { eapply claim_refused; [done..|rewrite Hf; cbn; unfold armOccurrence, scheduleState; rewrite Hs; done|done|done]. }
  pose proof (scheduleState_wf _ _ _ W Hs) as Hst.
  destruct (eqs (sr_state s) "enabled") eqn:He; cbn [andb].
  2: { eapply claim_refused; [done..|rewrite Hf; cbn; unfold armOccurrence; rewrite Hst; cbn;
         rewrite state_enabled, He; done|done|done]. }
  destruct (sr_cursor s =? nanos (cl_ExpectedCursor c)) eqn:Hc; cbn [andb].
  2: { eapply claim_refused; [done..|rewrite Hf; cbn; unfold armOccurrence; rewrite Hst; cbn;
         rewrite state_enabled, He, (canonical_UnixNano _ Ce), Hc; done|done|done]. }
  set (actives := selectOccurrences db _).
  destruct (bool_decide (actives = [])) eqn:Ha; cbn [andb].
  2: { eapply claim_refused; [done..|rewrite Hf; cbn; unfold armOccurrence; rewrite Hst; cbn;
         rewrite state_enabled, He, (canonical_UnixNano _ Ce), Hc; cbn; fold actives;
         rewrite bool_decide_false; [done|]|done|done].
       apply bool_decide_eq_false in Ha. by destruct actives. }
  apply bool_decide_eq_true in Ha.
  assert (occurrenceCheck (armedRow (cl_TaskID c) (cl_ScheduleID c) (nanos (cl_Due c)) (nanos (cl_ArmedAt c))) = true) as Hk.
  { unfold occurrenceCheck, hex32Check; cbn. by rewrite Htid. }
  assert (armOccurrence db c =
    db1 ← exec (insertOccurrence db (cl_TaskID c) (cl_ScheduleID c) (nanos (cl_Due c)) (nanos (cl_ArmedAt c)));
    updateOne (updateSchedule db1 (cl_ScheduleID c)
                 (fun r => eqs (sr_state r) "enabled" && (sr_cursor r =? sr_cursor s))
                 None (Some (nanos (cl_Due c))))) as Harm.
  { unfold armOccurrence. rewrite Hst; cbn. rewrite state_enabled, He, (canonical_UnixNano _ Ce), Hc; cbn.
    fold actives. rewrite Ha; cbn. by rewrite !canonical_UnixNano. }
  case_bool_decide as Hn.
  2: { eapply claim_refused; [done..|rewrite Hf; cbn; rewrite Harm; unfold insertOccurrence;
         rewrite Hk, (proj2 (valid_true _)) by (by apply not_eq_None_Some); done|done|done]. }
  assert (insertOccurrence db (cl_TaskID c) (cl_ScheduleID c) (nanos (cl_Due c)) (nanos (cl_ArmedAt c)) =
    Ok (set_occurrences (<[cl_TaskID c := armedRow (cl_TaskID c) (cl_ScheduleID c) (nanos (cl_Due c))
                                   (nanos (cl_ArmedAt c))]> (occurrences db)) db)) as Hins.
  { unfold insertOccurrence. rewrite Hk, Hn, Hs; cbn. fold actives. rewrite Ha. unfold accounted in E.
    by rewrite E. }
  assert (scheduleCheck (setSchedule s None (Some (nanos (cl_Due c)))) = true) as Hsk.
  { destruct (wf_schedule _ W _ _ Hs) as (_ & Hsk & _). apply Z.eqb_eq in Hc.
    unfold scheduleCheck in *. cbn. apply andb_true_iff in Hsk as [Hsk Hle]. apply Z.leb_le in Hle.
    rewrite Hsk. cbn. apply Z.leb_le. lia. }
  unfold claim_answer, ClaimAndArm. rewrite V, transact_txOk, Hf by done. cbn.
  rewrite Harm, Hins. cbn. unfold updateOne, updateSchedule; cbn. rewrite Hs. cbn.
  rewrite He, Z.eqb_refl, Hsk. cbn.
  apply Z.eqb_eq in Hc. rewrite (proj2 (Z.leb_gt _ _)) by lia. done.
Qed.
