(* ===== verification/SchedStoreReads.v ===== *)
(** * Reading the schedule store back

    Every schedule row of a reachable database spells a valid definition, so a read
    decodes it; releases and observations as their readers see them. *)
From S2P Require Import Prelude GoErrors GoTime GoText TaskTypes Encoding SchedContract SchedRequest.
From S2P Require Import SchedStore SchedStoreInv SchedStoreProps.

Section reads.
Context (DecodeStrict : string -> result Request) (guard : database -> result unit).

(** The row spells the definition, as [CreateSchedule] wrote it. *)
Record stored (d : ScheduleDefinition) (r : scheduleRow) : Prop := {
  st_valid : ValidateDefinition DecodeStrict d = Ok tt;
  st_id : sr_id r = dh_ScheduleID (df_Header d);
  st_created : sr_created r = nanos (dh_CreatedAt (df_Header d));
  st_cron : sr_cron r = dh_Cron (df_Header d);
  st_timezone : sr_timezone r = dh_Timezone (df_Header d);
  st_request : MarshalRequest DecodeStrict (dh_Request (df_Header d)) = Ok (sr_request r);
  st_brief : sr_brief r = df_Brief d;
  st_digests : DefinitionDigests DecodeStrict d = Ok (MkDigests (sr_briefSHA256 r) (sr_definitionSHA256 r))
}.

Definition sound (db : database) : Prop :=
  forall id r, schedules db !! id = Some r -> exists d, stored d r.

Lemma stored_columns d r r' :
  definition_columns r' = definition_columns r -> stored d r -> stored d r'.
Proof.
  unfold definition_columns. intros E [V H1 H2 H3 H4 H5 H6 H7].
  injection E as E1 E2 E3 E4 E5 E6 E7 E8.
  split; rewrite ?E1, ?E2, ?E3, ?E4, ?E5, ?E6, ?E7, ?E8; done.
Qed.

(** ** Where the schedule rows of a later database come from *)
Definition inherits (db db' : database) : Prop :=
  forall id r', schedules db' !! id = Some r' ->
    exists r, schedules db !! id = Some r /\ definition_columns r' = definition_columns r.

Lemma inherits_same db db' : schedules db' = schedules db -> inherits db db'.
Proof. intros E id r' H. rewrite E in H. eauto. Qed.

Lemma inherits_sound db db' : inherits db db' -> sound db -> sound db'.
Proof.
  intros I S id r' H. destruct (I _ _ H) as (r & Hr & E). destruct (S _ _ Hr) as [d Hd].
  exists d. by eapply stored_columns.
Qed.

Lemma updateSchedule_inherits db id w ns nc db' :
  updateSchedule db id w ns nc = Ok (1, db') -> inherits db db'.
Proof.
  intros (old & Ho & _ & _ & _ & _ & ->)%updateSchedule_Ok id' r'. cbn.
  intros [[<- <-]|[_ H]]%lookup_insert_Some; eauto.
Qed.

Lemma inherits_trans db1 db2 db3 : inherits db1 db2 -> inherits db2 db3 -> inherits db1 db3.
Proof.
  intros H12 H23 id r3 H. destruct (H23 _ _ H) as (r2 & H2 & E2).
  destruct (H12 _ _ H2) as (r1 & H1 & E1). exists r1. split; [done|congruence].
Qed.

Lemma insertSkipSpan_schedules db id cursor e span db' :
  insertSkipSpan db id cursor e span = Ok db' -> schedules db' = schedules db.
Proof.
  unfold insertSkipSpan, exec. destruct (_ =? _); cbn; [|done]. intros H. inv_ok.
  rename select (insertSpan _ _ = _) into Hi. by apply insertSpan_Ok in Hi as (_ & _ & _ & ->).
Qed.

Lemma updateOccurrence_schedules db tid w s f n db' :
  updateOccurrence db tid w s f = Ok (n, db') -> schedules db' = schedules db.
Proof. by intros [[_ ->]|(_ & o & _ & _ & _ & ->)]%updateOccurrence_Ok. Qed.

Lemma span_update_inherits db id cursor e span w ns nc db1 db' :
  insertSkipSpan db id cursor e span = Ok db1 ->
  updateOne (updateSchedule db1 id w ns nc) = Ok db' -> inherits db db'.
Proof.
  intros Hi Hu%updateOne_Ok. eapply inherits_trans; [|by eapply updateSchedule_inherits].
  by eapply inherits_same, insertSkipSpan_schedules.
Qed.

Lemma armOccurrence_inherits db c db' :
  ValidateClaim c = Ok tt -> armOccurrence db c = Ok db' -> inherits db db'.
Proof.
  intros V (s & Hs & _ & _ & _ & _ & _ & _ & ->)%armOccurrence_Ok; [|done].
  intros id r'. cbn. intros [[<- <-]|[_ H]]%lookup_insert_Some; eauto.
Qed.

(** Every operation but a creation inherits its schedule rows. *)
Lemma run_inherits env op db :
  (forall d, op <> OpCreate d) -> inherits db (run DecodeStrict guard env op db).
Proof.
  intros Hop. assert (inherits db db) as Hrefl by by apply inherits_same.
  destruct op as [d|c|c|o|l|k]; unfold run; [by destruct (Hop d)|..]; clear Hop.
  - unfold ChangeState. destruct (ValidateStateChange c); [|done].
    apply transact_preserves; [done|]. intros [] db' H. inv_ok. destruct x as [st cursor]. inv_ok.
    destruct (sc_Resume c); inv_ok; [by eapply span_update_inherits|].
    rename select (updateOne _ = _) into Hu. apply updateOne_Ok in Hu. by eapply updateSchedule_inherits.
  - unfold ClaimAndArm. destruct (ValidateClaim c) as [[]|] eqn:V; [|done].
    pose proof (transact_preserves guard inherits env (fun db =>
      found ← claimedTask db c;
      if negb (eqs found "") then Ok (found, db)
      else db' ← armOccurrence db c; Ok (""%string, db')) db Hrefl) as Hp.
    destruct (transact _ _ _ _) as [[existing|e] db1]; cbn in *;
      [destruct (negb (eqs existing "")); cbn|]; apply Hp; intros a db' Hb; inv_ok;
      (destruct (negb (eqs x "")); inv_ok; [done|by eapply armOccurrence_inherits]).
  - unfold RecordObservation. destruct (ValidateOccurrenceObservation o); [|done].
    apply transact_preserves; [done|]. unfold exec. intros [] db' H. inv_ok. destruct x as [n db1]. inv_ok.
    apply inherits_same. rename select (updateOccurrence _ _ _ _ _ = _) into Hu.
    apply updateOccurrence_schedules in Hu. by destruct (n =? 1); inv_ok.
  - unfold ReleaseOccurrence. destruct (ValidateOccurrenceRelease l); [|done].
    apply transact_preserves; [done|]. unfold exec. intros [] db' H. inv_ok. destruct x as [n db1]. inv_ok.
    apply inherits_same. rename select (updateOccurrence _ _ _ _ _ = _) into Hu.
    apply updateOccurrence_schedules in Hu. destruct (n =? 1); inv_ok; [done|].
    by destruct (oc_Release _); inv_ok.
  - unfold RecordSkip. destruct (ValidateSkip k); [|done].
    apply transact_preserves; [done|]. intros [] db' H. inv_ok. destruct x as [st cursor]. inv_ok.
    by eapply span_update_inherits.
Qed.

Lemma ValidateDefinition_Ok d :
  ValidateDefinition DecodeStrict d = Ok tt ->
  validateScheduleID (dh_ScheduleID (df_Header d)) = Ok tt /\ canonical (dh_CreatedAt (df_Header d)).
Proof. unfold ValidateDefinition, validateHeader. intros. inv_ok. instants. done. Qed.

Lemma insertSchedule_Ok db r db' :
  insertSchedule db r = Ok db' ->
  scheduleCheck r = true /\ schedules db !! sr_id r = None /\
  db' = set_schedules (<[sr_id r := r]> (schedules db)) db.
Proof.
  unfold insertSchedule. destruct (scheduleCheck r); cbn; [|done].
  destruct (schedules db !! sr_id r); [done|]. by intros [= <-].
Qed.

Lemma CreateSchedule_body env d db :
  snd (CreateSchedule DecodeStrict guard env d db) = db \/
  exists r, stored d r /\ sr_state r = "enabled"%string /\ sr_cursor r = sr_created r /\
    schedules db !! sr_id r = None /\
    snd (CreateSchedule DecodeStrict guard env d db) =
      set_schedules (<[sr_id r := r]> (schedules db)) db.
Proof.
  unfold CreateSchedule.
  destruct (_ ≫= _) as [[[initial digests] request]|e] eqn:E; [|by left].
  inv_ok. apply InitialSchedule_Ok in H as [-> V]. cbn in *.
  destruct (transact_snd env guard (fun db =>
    db' ← exec (insertSchedule db
            (MkScheduleRow (dh_ScheduleID (df_Header d)) (UnixNano (dh_CreatedAt (df_Header d)))
               (dh_Cron (df_Header d)) (dh_Timezone (df_Header d)) request (df_Brief d)
               (dg_BriefSHA256 digests) (dg_DefinitionSHA256 digests) "enabled"
               (UnixNano (dh_CreatedAt (df_Header d))))); Ok (tt, db')) db) as [Hs|[[] Hs]]; [by left|].
  right. unfold exec in Hs. inv_ok. rename select (insertSchedule _ _ = _) into Hi.
  apply insertSchedule_Ok in Hi as (_ & Hn & Hdb).
  eexists. split; [|split; [|split; [|split; [exact Hn|]]]]; [|done..|exact Hdb].
  apply ValidateDefinition_Ok in V as HV. destruct HV as [_ Hc].
  split; cbn; try done; [by apply canonical_UnixNano|by destruct digests].
Qed.

Lemma run_sound env op db : sound db -> sound (run DecodeStrict guard env op db).
Proof.
  intros S. destruct op as [d|c|c|o|l|k];
    [|by apply (inherits_sound db); [apply run_inherits|]..].
  unfold run. destruct (CreateSchedule_body env d db) as [->|(r & Hst & _ & _ & _ & ->)]; [done|].
  intros id r'. cbn. intros [[<- <-]|[_ H]]%lookup_insert_Some; eauto.
Qed.

Lemma reaches_sound db db' : reaches DecodeStrict guard db db' -> sound db -> sound db'.
Proof. induction 1; intros S; [done|]. by apply run_sound; auto. Qed.

(** ** Decoding a stored schedule *)
Definition storedSchedule (d : ScheduleDefinition) (r : scheduleRow) : Schedule :=
  MkSchedule d (state_of_string (sr_state r)) (InstantFromUnixNanos (sr_cursor r)).

Lemma stored_header d r : stored d r -> header DecodeStrict r = Ok (df_Header d).
Proof.
  intros [V H1 H2 H3 H4 H5 H6 H7]. unfold header.
  apply request_codec in H5. rewrite H5. cbn.
  apply ValidateDefinition_Ok in V as [_ Hc].
  rewrite H1, H2, H3, H4. rewrite <- (canonical_UnixNano _ Hc), canonical_restore by done.
  by destruct (df_Header d).
Qed.

Lemma validMutable db id d r :
  wf db -> schedules db !! id = Some r -> stored d r ->
  validateMutable (dh_CreatedAt (df_Header d)) (state_of_string (sr_state r))
    (InstantFromUnixNanos (sr_cursor r)) = Ok tt.
Proof.
  intros W Hr Hd. pose proof (scheduleState_wf _ _ _ W Hr) as Hs.
  apply scheduleState_Ok in Hs as (_ & _ & _ & Hst & _).
  destruct (wf_schedule _ W _ _ Hr) as (_ & _ & _ & Hi).
  pose proof (wf_created_le _ _ _ W Hr) as Hle. rewrite (st_created _ _ Hd) in Hle.
  unfold validateMutable. rewrite Hst. cbn. rewrite instant_valid by done. cbn.
  unfold Before; cbn. by rewrite (proj2 (Z.ltb_ge _ _)).
Qed.

Lemma schedule_decodes db id d r :
  wf db -> schedules db !! id = Some r -> stored d r ->
  schedule DecodeStrict r = Ok (storedSchedule d r).
Proof.
  intros W Hr Hd. unfold schedule. rewrite (stored_header _ _ Hd). cbn.
  assert (MkDefinition (df_Header d) (sr_brief r) = d) as -> by (rewrite (st_brief _ _ Hd); by destruct d).
  unfold VerifyDefinitionDigests. rewrite (st_digests _ _ Hd). cbn.
  rewrite bool_decide_true by done. cbn.
  unfold ValidateSchedule; cbn. rewrite (st_valid _ _ Hd). cbn.
  by rewrite (validMutable _ _ _ _ W Hr Hd).
Qed.

Lemma stored_brief_length d r : stored d r -> validateBriefLength (len (sr_brief r)) = Ok tt.
Proof.
  intros Hd. rewrite (st_brief _ _ Hd). pose proof (st_valid _ _ Hd) as V.
  unfold ValidateDefinition in V. by inv_ok.
Qed.

Lemma stored_HeaderSHA256 d r :
  stored d r -> HeaderSHA256 DecodeStrict (df_Header d) (sr_briefSHA256 r) = Ok (sr_definitionSHA256 r).
Proof.
  intros Hd. pose proof (st_digests _ _ Hd) as HD. unfold DefinitionDigests in HD. inv_ok. congruence.
Qed.

Definition storedSummary (d : ScheduleDefinition) (r : scheduleRow) : ScheduleSummary :=
  MkScheduleSummary (df_Header d) (MkDigests (sr_briefSHA256 r) (sr_definitionSHA256 r))
    (len (sr_brief r)) (state_of_string (sr_state r)) (InstantFromUnixNanos (sr_cursor r)).

Lemma summary_decodes db id d r :
  wf db -> schedules db !! id = Some r -> stored d r ->
  summary DecodeStrict r = Ok (storedSummary d r).
Proof.
  intros W Hr Hd. unfold summary. rewrite (stored_header _ _ Hd). cbn.
  unfold ValidateSummary; cbn. rewrite (stored_brief_length _ _ Hd). cbn.
  rewrite (stored_HeaderSHA256 _ _ Hd).
  cbn. rewrite eqs_refl. cbn. by rewrite (validMutable _ _ _ _ W Hr Hd).
Qed.

(** ** Creation and lookup *)
Lemma sound_empty : sound empty_database.
Proof. intros id r. cbn. by rewrite lookup_empty. Qed.

Lemma CreateSchedule_stores env d db db' :
  CreateSchedule DecodeStrict guard env d db = (Ok tt, db') ->
  exists r, stored d r /\ schedules db' !! dh_ScheduleID (df_Header d) = Some r.
Proof.
  unfold CreateSchedule.
  destruct (_ ≫= _) as [[[initial digests] request]|e] eqn:E; [|done].
  inv_ok. apply InitialSchedule_Ok in H as [-> V]. cbn in *.
  intros [Hb _]%transact_Ok. unfold exec in Hb. inv_ok.
  rename select (insertSchedule _ _ = _) into Hi.
  apply insertSchedule_Ok in Hi as (_ & Hn & ->). eexists. split; [|cbn; by rewrite lookup_insert_eq].
  apply ValidateDefinition_Ok in V as HV. destruct HV as [_ Hc].
  split; cbn; try done; [by apply canonical_UnixNano|by destruct digests].
Qed.

Lemma GetSchedule_stored db d r :
  wf db -> guard db = Ok tt -> schedules db !! dh_ScheduleID (df_Header d) = Some r -> stored d r ->
  GetSchedule DecodeStrict guard txOk (dh_ScheduleID (df_Header d)) db = (Ok (storedSchedule d r), db).
Proof.
  intros W G Hr Hd. unfold GetSchedule.
  pose proof (st_valid _ _ Hd) as V. apply ValidateDefinition_Ok in V as [V _].
  change (validScheduleID (dh_ScheduleID (df_Header d))) with (validateScheduleID (dh_ScheduleID (df_Header d))).
  rewrite V, transact_txOk, Hr by done. by rewrite (schedule_decodes _ _ _ _ W Hr Hd).
Qed.

(** ** Releases *)
Lemma kind_roundtrip l : ValidateRelease l = Ok tt -> kind_of_string (string_of_kind (rl_Kind l)) = rl_Kind l.
Proof. unfold ValidateRelease. intros. inv_ok. by destruct (rl_Kind l). Qed.

Lemma ValidateOccurrenceRelease_Ok rec :
  ValidateOccurrenceRelease rec = Ok tt ->
  ValidateTaskID (or_TaskID rec) = Ok tt /\ ValidateRelease (or_Release rec) = Ok tt.
Proof. unfold ValidateOccurrenceRelease. intros. by inv_ok. Qed.

(** The recorded release of a row states the fact of a request. *)
Definition releaseFactIs (r : occurrenceRow) (l : Release) : Prop :=
  exists stored, rowRelease r = Some stored /\ CheckRepeatedRelease stored l = Ok tt.

Lemma CheckRepeatedRelease_Ok stored l :
  CheckRepeatedRelease stored l = Ok tt <-> rl_Kind stored = rl_Kind l /\ rl_Ref stored = rl_Ref l.
Proof.
  unfold CheckRepeatedRelease. destruct (_ && _) eqn:E.
  - apply andb_true_iff in E as [E1%bool_decide_eq_true E2%eqs_true]. done.
  - split; [done|]. intros [E1 E2]. by rewrite bool_decide_true, (proj2 (eqs_true _ _)) in E.
Qed.

Lemma CheckRepeatedRelease_Err stored l e :
  CheckRepeatedRelease stored l = Err e ->
  e = Errorf "occurrence was already released" (Sentinel contract_ErrConflict).
Proof. unfold CheckRepeatedRelease. destruct (_ && _); naive_solver. Qed.

Lemma readOccurrence_wf db id r :
  wf db -> occurrences db !! id = Some r -> readOccurrence db id = Ok (rowOccurrence r).
Proof. intros W H. unfold readOccurrence. rewrite H. by eapply occurrence_decodes. Qed.

Lemma active_rowRelease r : active r = false <-> is_Some (rowRelease r).
Proof.
  unfold active, rowRelease. rewrite negb_false_iff. destruct (or_releasedAt r); cbn; split; eauto; [done|by intros []].
Qed.

Lemma release_columns_row r r' :
  release_columns r' = release_columns r -> rowRelease r' = rowRelease r.
Proof. unfold release_columns, rowRelease. intros E. injection E as -> -> ->. done. Qed.

(** A successful release leaves the row with the fact it states. *)
Lemma ReleaseOccurrence_records env rec db db' :
  wf db -> ReleaseOccurrence guard env rec db = (Ok tt, db') ->
  exists r, occurrences db' !! or_TaskID rec = Some r /\ releaseFactIs r (or_Release rec).
Proof.
  intros W. unfold ReleaseOccurrence.
  destruct (ValidateOccurrenceRelease rec) as [[]|] eqn:V; [|done].
  apply ValidateOccurrenceRelease_Ok in V as [_ V].
  intros [H _]%transact_Ok. unfold exec in H. inv_ok. destruct x as [n db1].
  rename select (updateOccurrence _ _ _ _ _ = _) into Hu.
  apply updateOccurrence_Ok in Hu as [[-> ->]|(-> & old & Ho & Ha & Hk & ->)]; cbn in *.
  - inv_ok. rename select (readOccurrence _ _ = _) into Hr.
    unfold readOccurrence in Hr. destruct (occurrences db !! or_TaskID rec) as [r|] eqn:Er; [|done].
    rewrite (occurrence_decodes _ _ _ W Er) in Hr. injection Hr as <-. cbn in *.
    destruct (rowRelease r) as [stored|] eqn:Hrel; inv_ok. exists r. split; [done|]. by exists stored.
  - inv_ok. eexists. cbn. rewrite lookup_insert_eq. split; [done|].
    eexists. split; [done|]. cbn. apply CheckRepeatedRelease_Ok. split; [by apply kind_roundtrip|done].
Qed.

(** Releasing a released occurrence compares the facts and writes nothing. *)
Lemma ReleaseOccurrence_released rec db r stored :
  wf db -> guard db = Ok tt -> ValidateOccurrenceRelease rec = Ok tt ->
  occurrences db !! or_TaskID rec = Some r -> rowRelease r = Some stored ->
  ReleaseOccurrence guard txOk rec db =
    transacted db (CheckRepeatedRelease stored (or_Release rec) ;; Ok (tt, db)).
Proof.
  intros W G V Hr Hs. unfold ReleaseOccurrence. rewrite V, transact_txOk by done. f_equal.
  unfold updateOccurrence. rewrite Hr. rewrite (proj2 (active_rowRelease r)) by eauto.
  cbn. rewrite (readOccurrence_wf _ _ _ W Hr). cbn. by rewrite Hs.
Qed.

(** ** Observations *)
Lemma RecordObservation_txOk rec db r :
  wf db -> guard db = Ok tt -> ValidateOccurrenceObservation rec = Ok tt ->
  occurrences db !! oo_TaskID rec = Some r ->
  occurrenceCheck (observedRow (oo_Observation rec) r) = true ->
  RecordObservation guard txOk rec db =
    (Ok tt, if match or_observedAt r with
               | None => true | Some seen => seen <? UnixNano (ob_ObservedAt (oo_Observation rec)) end
            then set_occurrences (<[oo_TaskID rec := observedRow (oo_Observation rec) r]> (occurrences db)) db
            else db).
Proof.
  intros W G V Hr Hk. unfold RecordObservation. rewrite V, transact_txOk by done.
  unfold updateOccurrence. rewrite Hr.
  destruct (match or_observedAt r with None => true | Some _ => _ end) eqn:Hw; cbn [negb].
  - replace (match or_observedAt r with None => false | Some _ => _ end) with false.
    + rewrite Hk. done.
    + destruct (or_observedAt r); [|done]. cbn. apply Z.ltb_lt in Hw. symmetry. by apply Z.leb_gt.
  - cbn. by rewrite (readOccurrence_wf _ _ _ W Hr).
Qed.

Lemma observedRow_check db id rec r :
  wf db -> occurrences db !! id = Some r -> ValidateOccurrenceObservation rec = Ok tt ->
  occurrenceCheck (observedRow (oo_Observation rec) r) = true.
Proof.
  intros W Hr V. destruct (wf_occurrence _ W _ _ Hr) as (_ & Hk & _).
  unfold ValidateOccurrenceObservation, ValidateObservation in V. inv_ok.
  destruct (oo_Observation rec) as [at' a l p d f]. cbn in *.
  assert (between 0 a 2 = true) as Ha.
  { unfold validateAdmission in *. destruct (_ || _) eqn:E; [|done].
    repeat (apply orb_true_iff in E as [E|E]); apply Z.eqb_eq in E as ->; done. }
  assert (between 0 l 2 = true) as Hl.
  { unfold validateLiveness in *. destruct (_ || _) eqn:E; [|done].
    repeat (apply orb_true_iff in E as [E|E]); apply Z.eqb_eq in E as ->; done. }
  assert (between 0 p 3 = true /\ x = ((p =? 2) || (p =? 3))) as [Hp Hx].
  { rename select (publicationHasOutcome p = _) into E. unfold publicationHasOutcome in E.
    unfold PublicationCommitted, PublicationRejected, PublicationUnknown, PublicationPending in E.
    destruct ((p =? 2) || (p =? 3)) eqn:E1; inv_ok.
    - apply orb_true_iff in E1 as [E1|E1]; apply Z.eqb_eq in E1 as ->; done.
    - destruct ((p =? 0) || (p =? 1)) eqn:E2; inv_ok.
      apply orb_true_iff in E2 as [E2|E2]; apply Z.eqb_eq in E2 as ->; done. }
  assert (nullOr (nullableText d) hex64Check = true /\
          Bool.eqb ((p =? 2) || (p =? 3)) (valid (nullableText d)) = true) as [Hd He].
  { unfold nullableText. rewrite <- Hx. destruct x; inv_ok.
    - rename select (ValidateSHA256 d = _) into Hd. apply ValidateSHA256_Ok in Hd.
      rewrite (hexText_nonempty 64) by done. done.
    - bool_prop. rename select (negb _ && _ = false) into E. cbn in E. apply negb_false_iff in E. by rewrite E. }
  assert (nullOr (nullableText f) codeCheck = true) as Hf.
  { unfold nullableText. destruct (eqs f "") eqn:Ef; [done|]. cbn.
    rename select (validateCode _ _ = _) into E. unfold validateCode in E. inv_ok. by bool_prop. }
  unfold occurrenceCheck in *. cbn.
  rewrite Ha, Hl, Hp, Hd, He, Hf. cbn.
  bool_prop. repeat match goal with |- _ && _ = true => apply andb_true_iff; split end; done.
Qed.
End reads.
