(* ===== verification/SchedHistory.v ===== *)
(** * The schedule history

    [History] against its specification: the newest-first timeline of a schedule's
    occurrences and skip spans, cut into pages. *)
From S2P Require Import Prelude GoErrors GoTime GoText TaskTypes Encoding SchedContract SchedRequest.
From S2P Require Import SchedStore SchedStoreInv SchedStoreProps SchedStoreReads.

(** ** Specification *)
Definition rowSpan (r : spanRow) : SkipSpan :=
  MkSkipSpan (InstantFromUnixNanos (sp_from r)) (InstantFromUnixNanos (sp_to r))
    (reason_of_string (sp_reason r)).

Definition entryKey (e : HistoryEntry) : Z :=
  match e with
  | historyOccurrence o => nanos (oc_Due o)
  | historySkip s => nanos (ss_To s)
  | historyInvalid => 0
  end.

Definition dueRows (db : database) (id : string) : list occurrenceRow :=
  selectOccurrences db (fun o => eqs (or_scheduleID o) id).
Definition skipRows (db : database) (id : string) : list spanRow :=
  List.filter (fun r => eqs (sp_scheduleID r) id) (snd <$> map_to_list (skip_spans db)).

(** Everything recorded for a schedule. *)
Definition allEntries (db : database) (id : string) : list HistoryEntry :=
  ((OccurrenceEntry ∘ rowOccurrence) <$> dueRows db id) ++ ((SkipEntry ∘ rowSpan) <$> skipRows db id).

Definition beforePage (page : HistoryPage) (key : Z) : bool :=
  match hp_Before page with None => true | Some t => key <? nanos t end.

(** The entries a page selects from, newest first. *)
Definition timeline (db : database) (page : HistoryPage) : list HistoryEntry :=
  merge_sort (newestFirst entryKey)
    (List.filter (fun e => beforePage page (entryKey e)) (allEntries db (hp_ScheduleID page))).

(** ** Sorting by a key *)
Section keyed.
Context {A : Type} (key : A -> Z).

#[global] Instance newestFirst_total : Total (newestFirst key).
Proof. intros x y. unfold newestFirst. lia. Qed.
#[global] Instance newestFirst_trans : Transitive (newestFirst key).
Proof. intros x y z. unfold newestFirst. lia. Qed.

Definition keyed (l : list A) : Prop := forall x y, x ∈ l -> y ∈ l -> key x = key y -> x = y.

Lemma newestFirst_unique l1 l2 :
  keyed l1 -> Sorted (newestFirst key) l1 -> Sorted (newestFirst key) l2 -> l1 ≡ₚ l2 -> l1 = l2.
Proof.
  intros K S1 S2 P. apply (StronglySorted_unique_strong (newestFirst key)).
  - intros x y Hx Hy Rxy Ryx. apply K; [done|by rewrite P|]. unfold newestFirst in *. lia.
  - by apply Sorted_StronglySorted; [apply _|].
  - by apply Sorted_StronglySorted; [apply _|].
  - done.
Qed.

Lemma sort_unique l l' :
  keyed l -> Sorted (newestFirst key) l' -> l' ≡ₚ l -> merge_sort (newestFirst key) l = l'.
Proof.
  intros K S P. apply newestFirst_unique; [|apply Sorted_merge_sort, _|done|by rewrite merge_sort_Permutation, P].
  intros x y. rewrite !merge_sort_Permutation. apply K.
Qed.

(** Selecting before or after sorting gives the same list. *)
Lemma filter_sorted p l :
  Sorted (newestFirst key) l -> Sorted (newestFirst key) (List.filter p l).
Proof.
  intros S%Sorted_StronglySorted; [|apply _]. apply StronglySorted_Sorted.
  induction S as [|x l _ IH F]; cbn; [constructor|].
  destruct (p x); [|done]. constructor; [done|].
  rewrite Forall_forall in F |- *. intros y Hy. apply F. rewrite list_elem_of_In in *.
  by apply filter_In in Hy as [? _].
Qed.

(** In a list sorted by distinct keys, the entries below the last key of a prefix
    are exactly the entries after it. *)
Lemma filter_below_prefix l n e :
  keyed l -> NoDup l -> Sorted (newestFirst key) l -> last (take n l) = Some e ->
  List.filter (fun x => key x <? key e) l = drop n l.
Proof.
  intros K N S%Sorted_StronglySorted Hl; [|apply _].
  assert (l = take n l ++ drop n l) as El by by rewrite take_drop.
  apply last_Some in Hl as [l0 Hl]. rewrite Hl in El. clear Hl.
  rewrite El at 1. rewrite El in S, N, K. clear El.
  rewrite List.filter_app. apply StronglySorted_app in S as (S1 & S2 & _).
  apply NoDup_app in N as (_ & Hdis & _).
  assert (List.filter (fun x => key x <? key e) (l0 ++ [e]) = []) as ->.
  { apply StronglySorted_app in S2 as (S2 & _). clear -S2.
    induction l0 as [|a l0 IH]; cbn; [by rewrite Z.ltb_irrefl|].
    assert (newestFirst key a e) by (apply S2; [left|by left]). unfold newestFirst in *.
    rewrite (proj2 (Z.ltb_ge _ _)) by done. apply IH. intros x1 x2 H1 H2. apply S2; [by right|done]. }
  cbn. assert (forall x, x ∈ drop n l -> key x < key e) as Hlt.
  { intros x Hx. assert (newestFirst key e x) as Hle by (apply S1; [apply elem_of_app; right; by left|done]).
    unfold newestFirst in Hle. destruct (decide (key x = key e)) as [E|]; [|lia].
    assert (x = e) as ->; [|by destruct (Hdis e); [apply elem_of_app; right; left|]].
    apply K; [by apply elem_of_app; right|apply elem_of_app; left; apply elem_of_app; right; by left|done]. }
  clear -Hlt. induction (drop n l) as [|a l' IH]; cbn; [done|].
  rewrite (proj2 (Z.ltb_lt _ _)) by (apply Hlt; left). f_equal. apply IH. intros x Hx. apply Hlt. by right.
Qed.
End keyed.

(** Only the first [n] of each list can be among the first [n] of the merge. *)
Lemma take_list_merge {A} (R : relation A) `{!RelDecision R} n n1 n2 l1 l2 :
  (n <= n1)%nat -> (n <= n2)%nat ->
  take n (list_merge R (take n1 l1) (take n2 l2)) = take n (list_merge R l1 l2).
Proof.
  revert n1 n2 l1 l2. induction n as [|n IH]; intros n1 n2 l1 l2 H1 H2; [done|].
  destruct n1 as [|n1], n2 as [|n2]; [lia..|].
  destruct l1 as [|x1 l1], l2 as [|x2 l2]; cbn [take]; rewrite ?list_merge_nil_l, ?list_merge_nil_r.
  - done.
  - cbn. f_equal. rewrite take_take. f_equal. lia.
  - cbn. f_equal. rewrite take_take. f_equal. lia.
  - rewrite !list_merge_cons. case_decide; cbn [take]; f_equal.
    + rewrite <- (IH n1 (S n2) l1 (x2 :: l2)) by lia. done.
    + rewrite <- (IH (S n1) n2 (x1 :: l1) l2) by lia. done.
Qed.

(** ** The pieces of [History] *)
Lemma scanRows_Ok {R A} (decode : R -> result A) (f : R -> A) rows n :
  (forall r, r ∈ rows -> decode r = Ok (f r)) ->
  scanRows decode n rows = Ok (f <$> take n rows, (n <? length rows)%nat).
Proof.
  revert n. induction rows as [|r rows IH]; intros [|n] H; cbn; try done.
  rewrite H by left. cbn. rewrite IH by (intros; apply H; by right). done.
Qed.

(** The merge loop, on lists with no common endpoint. *)
Lemma mergeEntries_merge room os ss :
  (forall o s, o ∈ os -> s ∈ ss -> nanos (oc_Due o) <> nanos (ss_To s)) ->
  mergeEntries room os ss =
    Ok (take room (list_merge (newestFirst entryKey) (OccurrenceEntry <$> os) (SkipEntry <$> ss))).
Proof.
  revert os ss. induction room as [|room IH]; intros os ss H; [done|].
  assert (forall o, o ∈ tail os -> o ∈ os) as Ho by (destruct os; [done|by right]).
  assert (forall s, s ∈ tail ss -> s ∈ ss) as Hs by (destruct ss; [done|by right]).
  destruct os as [|o os], ss as [|s ss]; cbn [mergeEntries fmap list_fmap]; rewrite ?list_merge_nil_l, ?list_merge_nil_r.
  - done.
  - rewrite IH by (cbn in Hs; auto). cbn [mbind result_bind fmap list_fmap]. by rewrite ?list_merge_nil_l.
  - rewrite IH by (cbn in Ho; auto). cbn [mbind result_bind fmap list_fmap]. by rewrite ?list_merge_nil_r.
  - rewrite list_merge_cons. cbn in Ho, Hs.
    assert (nanos (oc_Due o) <> nanos (ss_To s)) by (apply H; left).
    destruct (After (oc_Due o) (ss_To s)) eqn:E1; time_prop.
    + rewrite IH by auto. cbn [mbind result_bind].
      rewrite decide_True by (unfold newestFirst; cbn; lia). done.
    + rewrite (proj2 (After_spec _ _)) by lia. rewrite IH by auto. cbn [mbind result_bind].
      rewrite decide_False by (unfold newestFirst; cbn; lia). done.
Qed.

Lemma occurrence_valid r o : occurrence r = Ok o -> ValidateOccurrence o = Ok tt.
Proof. unfold occurrence. intros H. inv_ok. done. Qed.

Lemma spanOf_row r span : spanOf r = Ok span -> span = rowSpan r /\ ValidateSkipSpan span = Ok tt.
Proof. unfold spanOf. intros H. inv_ok. done. Qed.

Lemma validateEntries_Ok id entries :
  (forall e, e ∈ entries -> ValidateHistoryEntry id e = Ok tt) -> validateEntries id entries = Ok tt.
Proof.
  induction entries as [|e rest IH]; intros H; cbn; [done|]. rewrite H by left. cbn.
  apply IH. intros; apply H; by right.
Qed.

(** ** The entries of a well-formed database *)
Section wellformed.
Context (db : database) (W : wf db).

Lemma elem_dueRows id r :
  r ∈ dueRows db id <-> exists tid, occurrences db !! tid = Some r /\ or_scheduleID r = id.
Proof. unfold dueRows. rewrite elem_selectOccurrences. setoid_rewrite eqs_true. done. Qed.

Lemma elem_skipRows id r :
  r ∈ skipRows db id <-> exists k, skip_spans db !! k = Some r /\ sp_scheduleID r = id.
Proof.
  unfold skipRows. rewrite list_elem_of_In, filter_In, <- list_elem_of_In, eqs_true.
  rewrite list_elem_of_fmap. split.
  - intros [([k r'] & -> & H) Hp]. exists k. by apply elem_of_map_to_list in H.
  - intros (k & H & Hp). split; [|done]. exists (k, r). by rewrite elem_of_map_to_list.
Qed.

Lemma elem_allEntries id e :
  e ∈ allEntries db id <->
  (exists tid r, occurrences db !! tid = Some r /\ or_scheduleID r = id /\ e = OccurrenceEntry (rowOccurrence r)) \/
  (exists k r, skip_spans db !! k = Some r /\ sp_scheduleID r = id /\ e = SkipEntry (rowSpan r)).
Proof.
  unfold allEntries. rewrite elem_of_app, !list_elem_of_fmap.
  setoid_rewrite elem_dueRows. setoid_rewrite elem_skipRows. split.
  - intros [(r & -> & t & H & E)|(r & -> & t & H & E)]; [left|right]; eauto 10.
  - intros [(t & r & H & E & ->)|(t & r & H & E & ->)]; [left|right]; eauto 10.
Qed.

(** No two entries of a schedule end at the same instant. *)
Lemma allEntries_keyed id : keyed entryKey (allEntries db id).
Proof.
  intros x y Hx%elem_allEntries Hy%elem_allEntries E.
  destruct Hx as [(t1 & r1 & H1 & E1 & ->)|(k1 & r1 & H1 & E1 & ->)],
    Hy as [(t2 & r2 & H2 & E2 & ->)|(k2 & r2 & H2 & E2 & ->)]; cbn in E.
  - assert (t1 = t2) as <- by (eapply (wf_due_unique _ W); eauto; congruence). by simplify_eq.
  - destruct (wf_due_not_skipped _ W _ _ _ _ H1 H2); [congruence|].
    destruct (wf_span _ W _ _ H2) as (_ & Hk & _). unfold spanCheck in Hk. bool_prop. lia.
  - destruct (wf_due_not_skipped _ W _ _ _ _ H2 H1); [congruence|].
    destruct (wf_span _ W _ _ H1) as (_ & Hk & _). unfold spanCheck in Hk. bool_prop. lia.
  - destruct (wf_span _ W _ _ H1) as (K1 & _), (wf_span _ W _ _ H2) as (K2 & _).
    assert (k1 = k2) as <- by congruence. by simplify_eq.
Qed.

Lemma entryKey_int64 id e : e ∈ allEntries db id -> in_int64 (entryKey e).
Proof.
  intros [(t & r & H & _ & ->)|(k & r & H & _ & ->)]%elem_allEntries; cbn.
  - by destruct (wf_occurrence _ W _ _ H) as (_ & _ & (? & _) & _).
  - by destruct (wf_span _ W _ _ H) as (_ & _ & _ & ? & _).
Qed.

Lemma map_to_list_values_NoDup {K A} `{Countable K} (m : gmap K A) (k : A -> K) :
  (forall i a, m !! i = Some a -> i = k a) -> NoDup (snd <$> map_to_list m).
Proof.
  intros H1. apply (NoDup_fmap_1 k). rewrite <- list_fmap_compose.
  assert ((k ∘ snd) <$> map_to_list m = fst <$> map_to_list m) as ->; [|apply NoDup_fst_map_to_list].
  apply list_fmap_ext. intros i [a b] Hi%list_elem_of_lookup_2%elem_of_map_to_list. cbn. symmetry. auto.
Qed.

Lemma NoDup_List_filter {A} (p : A -> bool) l : NoDup l -> NoDup (List.filter p l).
Proof. rewrite !NoDup_ListNoDup. apply List.NoDup_filter. Qed.

Lemma allEntries_NoDup id : NoDup (allEntries db id).
Proof.
  unfold allEntries, dueRows, skipRows, selectOccurrences.
  apply NoDup_app. split_and!.
  - apply (NoDup_fmap_2_strong _).
    + intros r1 r2. rewrite !list_elem_of_In, !filter_In, <- !list_elem_of_In, !list_elem_of_fmap.
      intros [([i1 x1] & -> & H1%elem_of_map_to_list) _] [([i2 x2] & -> & H2%elem_of_map_to_list) _] E. cbn in *.
      destruct (wf_occurrence _ W _ _ H1) as (E1 & _), (wf_occurrence _ W _ _ H2) as (E2 & _).
      assert (i1 = i2) as <- by (injection E; intros; congruence). by simplify_eq.
    + apply NoDup_List_filter, (map_to_list_values_NoDup _ or_taskID).
      intros i a Hi. by destruct (wf_occurrence _ W _ _ Hi) as (-> & _).
  - intros e (r & -> & _)%list_elem_of_fmap (r' & E & _)%list_elem_of_fmap. done.
  - apply (NoDup_fmap_2_strong _).
    + intros r1 r2. rewrite !list_elem_of_In, !filter_In, <- !list_elem_of_In, !list_elem_of_fmap.
      intros [([i1 x1] & -> & H1%elem_of_map_to_list) Hs1%eqs_true]
        [([i2 x2] & -> & H2%elem_of_map_to_list) Hs2%eqs_true] E. cbn in *.
      destruct (wf_span _ W _ _ H1) as (E1 & _), (wf_span _ W _ _ H2) as (E2 & _).
      assert (i1 = i2) as <- by (injection E; intros; congruence). by simplify_eq.
    + apply NoDup_List_filter, (map_to_list_values_NoDup _ (fun r => (sp_scheduleID r, sp_to r))).
      intros i a Hi. by destruct (wf_span _ W _ _ Hi) as (-> & _).
Qed.
End wellformed.

Lemma filter_Permutation_bool {A} (p : A -> bool) l l' :
  l ≡ₚ l' -> List.filter p l ≡ₚ List.filter p l'.
Proof.
  induction 1 as [|x l l' _ IH|x y l|l l' l'' _ IH1 _ IH2]; cbn; [done| | |by rewrite IH1].
  - destruct (p x); by rewrite IH.
  - destruct (p x), (p y); done || constructor.
Qed.

(** ** Pages *)
Section page.
Context (guard : database -> result unit).
Context (db : database) (W : wf db) (page : HistoryPage) (V : ValidateHistoryPage page = Ok tt).

Let id := hp_ScheduleID page.
Let inclusive := negb (valid (hp_Before page)).
Let before := match hp_Before page with None => max_int64 | Some t => UnixNano t end.

Lemma page_limit : 1 <= hp_Limit page <= 100.
Proof. unfold ValidateHistoryPage, validateLimit, MaxPageLimit in V. inv_ok. bool_prop. lia. Qed.

Lemma page_before t : hp_Before page = Some t -> canonical t.
Proof.
  intros E. unfold ValidateHistoryPage in V. inv_ok. rename select (when_some _ _ = _) into Hw.
  rewrite when_some_Ok in Hw. eapply ValidateInstant_Ok. by apply Hw.
Qed.

Lemma belowEndpoint_page key : in_int64 key -> belowEndpoint before inclusive key = beforePage page key.
Proof.
  unfold belowEndpoint, beforePage, before, inclusive, in_int64. intros [_ H].
  destruct (hp_Before page) as [t|] eqn:E; cbn; rewrite ?orb_false_r.
  - by rewrite canonical_UnixNano by (by apply page_before).
  - destruct (Z.ltb_spec key max_int64), (Z.eqb_spec key max_int64); cbn; lia || done.
Qed.

Lemma filter_andb {A} (p q : A -> bool) l :
  List.filter (fun a => p a && q a) l = List.filter q (List.filter p l).
Proof.
  induction l as [|a l IH]; cbn; [done|]. rewrite IH. destruct (p a); cbn; [|done]. by destruct (q a).
Qed.

Lemma filter_fmap {A B} (f : A -> B) p l :
  List.filter p (f <$> l) = f <$> List.filter (fun a => p (f a)) l.
Proof. induction l as [|a l IH]; cbn; [done|]. rewrite IH. by destruct (p (f a)). Qed.

Definition sortedDue : list occurrenceRow :=
  merge_sort (newestFirst or_due)
    (selectOccurrences db (fun o => eqs (or_scheduleID o) id && belowEndpoint before inclusive (or_due o))).
Definition sortedSkips : list spanRow :=
  merge_sort (newestFirst sp_to)
    (List.filter (fun r => eqs (sp_scheduleID r) id && belowEndpoint before inclusive (sp_to r))
       (snd <$> map_to_list (skip_spans db))).

Lemma sortedDue_perm : sortedDue ≡ₚ List.filter (fun r => beforePage page (or_due r)) (dueRows db id).
Proof.
  unfold sortedDue, dueRows, selectOccurrences. rewrite merge_sort_Permutation, filter_andb.
  match goal with |- ?l ≡ₚ ?l' => assert (l = l') as ->; [|done] end.
  apply List.filter_ext_in. intros r Hr%list_elem_of_In. apply belowEndpoint_page.
  change (r ∈ dueRows db id) in Hr. apply elem_dueRows in Hr as (t & Hr & _).
  by destruct (wf_occurrence _ W _ _ Hr) as (_ & _ & (? & _) & _).
Qed.

Lemma sortedSkips_perm : sortedSkips ≡ₚ List.filter (fun r => beforePage page (sp_to r)) (skipRows db id).
Proof.
  unfold sortedSkips, skipRows. rewrite merge_sort_Permutation, filter_andb.
  match goal with |- ?l ≡ₚ ?l' => assert (l = l') as ->; [|done] end.
  apply List.filter_ext_in. intros r Hr%list_elem_of_In. apply belowEndpoint_page.
  change (r ∈ skipRows db id) in Hr. apply elem_skipRows in Hr as (t & Hr & _).
  by destruct (wf_span _ W _ _ Hr) as (_ & _ & _ & ? & _).
Qed.

Lemma elem_sortedDue r : r ∈ sortedDue -> r ∈ dueRows db id.
Proof. rewrite sortedDue_perm, !list_elem_of_In. by intros [? _]%filter_In. Qed.

Lemma elem_sortedSkips r : r ∈ sortedSkips -> r ∈ skipRows db id.
Proof. rewrite sortedSkips_perm, !list_elem_of_In. by intros [? _]%filter_In. Qed.

Lemma pageEntries_keyed :
  keyed entryKey (List.filter (fun e => beforePage page (entryKey e)) (allEntries db id)).
Proof.
  intros x y. rewrite !list_elem_of_In. intros [Hx%list_elem_of_In _]%filter_In [Hy%list_elem_of_In _]%filter_In.
  by apply (allEntries_keyed db W id).
Qed.

Lemma timeline_merge :
  timeline db page = list_merge (newestFirst entryKey)
    ((OccurrenceEntry ∘ rowOccurrence) <$> sortedDue) ((SkipEntry ∘ rowSpan) <$> sortedSkips).
Proof.
  apply sort_unique; [apply pageEntries_keyed|..].
  - apply Sorted_list_merge; [apply _|..].
    + eapply Sorted_fmap; [|apply Sorted_merge_sort, _]. done.
    + eapply Sorted_fmap; [|apply Sorted_merge_sort, _]. done.
  - rewrite merge_Permutation, sortedDue_perm, sortedSkips_perm.
    unfold allEntries. by rewrite List.filter_app, !filter_fmap.
Qed.

Lemma timeline_elem e : e ∈ timeline db page -> e ∈ allEntries db id.
Proof. unfold timeline. rewrite merge_sort_Permutation, !list_elem_of_In. by intros [? _]%filter_In. Qed.

Lemma elem_valid e : e ∈ allEntries db id -> ValidateHistoryEntry id e = Ok tt.
Proof.
  intros [(t & r & H & E & ->)|(k & r & H & E & ->)]%elem_allEntries; cbn.
  - rewrite (occurrence_valid _ _ (occurrence_decodes _ _ _ W H)). cbn. by rewrite E, eqs_refl.
  - destruct (span_decodes _ _ _ W H) as (span & Hd & _). by destruct (spanOf_row _ _ Hd) as [-> ?].
Qed.

Lemma history_body :
  (os ← (fst <$> scanRows occurrence (Z.to_nat (hp_Limit page + 1)) (take (Z.to_nat (hp_Limit page + 1)) sortedDue));
   ss ← (fst <$> (let rows := take (Z.to_nat (hp_Limit page + 1)) sortedSkips in
                  scanRows spanOf (length rows) rows));
   mergeHistory page os ss) =
  Ok (MkHistoryPageResult (take (Z.to_nat (hp_Limit page)) (timeline db page))
        (Z.to_nat (hp_Limit page) <? length (timeline db page))%nat).
Proof.
  pose proof page_limit as HL. set (n := Z.to_nat (hp_Limit page + 1)).
  rewrite (scanRows_Ok occurrence rowOccurrence).
  2: { intros r Hr. apply elem_of_take in Hr as (i & Hi & _).
       apply list_elem_of_lookup_2, elem_sortedDue, elem_dueRows in Hi as (t & Ht & _).
       by eapply occurrence_decodes. }
  cbv zeta. rewrite (scanRows_Ok spanOf rowSpan).
  2: { intros r Hr. apply elem_of_take in Hr as (i & Hi & _).
       apply list_elem_of_lookup_2, elem_sortedSkips, elem_skipRows in Hi as (k & Hk & _).
       destruct (span_decodes _ _ _ W Hk) as (span & Hd & _).
       by destruct (spanOf_row _ _ Hd) as [<- _]. }
  cbn [fmap result_fmap mbind result_bind fst]. rewrite take_take, Nat.min_id, firstn_all.
  unfold mergeHistory. fold n. rewrite mergeEntries_merge.
  2: { intros o s (r & -> & Hr)%list_elem_of_fmap (r' & -> & Hr')%list_elem_of_fmap. cbn.
       apply elem_of_take in Hr as (i & Hi & _), Hr' as (i' & Hi' & _).
       apply list_elem_of_lookup_2, elem_sortedDue, elem_dueRows in Hi as (t & Ht & E).
       apply list_elem_of_lookup_2, elem_sortedSkips, elem_skipRows in Hi' as (k & Hk & E').
       intros Heq. destruct (wf_due_not_skipped _ W _ _ _ _ Ht Hk); [congruence|].
       destruct (wf_span _ W _ _ Hk) as (_ & Hc & _). unfold spanCheck in Hc. bool_prop. lia. }
  cbn [mbind result_bind].
  rewrite <- !list_fmap_compose, !fmap_take, take_list_merge by lia.
  rewrite <- timeline_merge. rewrite length_take.
  set (T := timeline db page).
  assert ((hp_Limit page <? Z.of_nat (Nat.min n (length T))) = (Z.to_nat (hp_Limit page) <? length T)%nat) as ->.
  { apply eq_true_iff_eq. rewrite Z.ltb_lt, Nat.ltb_lt. lia. }
  assert ((if (Z.to_nat (hp_Limit page) <? length T)%nat then take (Z.to_nat (hp_Limit page)) (take n T)
           else take n T) = take (Z.to_nat (hp_Limit page)) T) as ->.
  { destruct (Nat.ltb_spec (Z.to_nat (hp_Limit page)) (length T)).
    - rewrite take_take. f_equal. lia.
    - rewrite !take_ge by lia. done. }
  rewrite validateEntries_Ok; [done|].
  intros e (i & Hi & _)%elem_of_take. by eapply elem_valid, timeline_elem, list_elem_of_lookup_2.
Qed.

Lemma History_timeline :
  guard db = Ok tt -> is_Some (schedules db !! id) ->
  History guard txOk page db =
    (Ok (MkHistoryPageResult (take (Z.to_nat (hp_Limit page)) (timeline db page))
           (Z.to_nat (hp_Limit page) <? length (timeline db page))%nat), db).
Proof.
  intros G [s Hs]. unfold History. rewrite V, transact_txOk by done.
  unfold id in Hs. rewrite (scheduleState_wf _ _ _ W Hs). cbn [mbind result_bind].
  pose proof history_body as HB. unfold querySkipSpans.
  fold id before inclusive. fold sortedDue sortedSkips.
  destruct (scanRows occurrence _ _) as [[os b]|]; cbn [fmap result_fmap mbind result_bind fst] in HB |- *; [|done].
  cbv zeta in HB |- *.
  destruct (scanRows spanOf _ _) as [[ss b']|]; cbn [fmap result_fmap mbind result_bind fst] in HB |- *; [|done].
  by rewrite HB.
Qed.

(** ** Continuation *)
Lemma timeline_NoDup : NoDup (timeline db page).
Proof.
  unfold timeline. rewrite merge_sort_Permutation. by apply NoDup_List_filter, (allEntries_NoDup db W).
Qed.

Lemma timeline_sorted : Sorted (newestFirst entryKey) (timeline db page).
Proof. apply Sorted_merge_sort, _. Qed.

Lemma timeline_keyed : keyed entryKey (timeline db page).
Proof. intros x y Hx%timeline_elem Hy%timeline_elem. by apply (allEntries_keyed db W id). Qed.

Lemma elem_Endpoint e : e ∈ allEntries db id -> exists t, Endpoint e = Ok t /\ nanos t = entryKey e /\ canonical t.
Proof.
  intros H. pose proof (entryKey_int64 db W _ _ H).
  apply elem_allEntries in H as [(t & r & _ & _ & ->)|(k & r & _ & _ & ->)]; cbn in *;
    eexists; (split; [done|split; [done|by apply canonical_instant]]).
Qed.

(** The page after [e], the last entry returned. *)
Lemma timeline_next e t :
  last (take (Z.to_nat (hp_Limit page)) (timeline db page)) = Some e -> nanos t = entryKey e ->
  timeline db (MkHistoryPage id (Some t) (hp_Limit page)) =
    drop (Z.to_nat (hp_Limit page)) (timeline db page).
Proof.
  intros Hl Ht.
  rewrite <- (filter_below_prefix _ _ _ _ timeline_keyed timeline_NoDup timeline_sorted Hl).
  apply sort_unique.
  - intros x y. rewrite !list_elem_of_In. intros [Hx%list_elem_of_In _]%filter_In [Hy%list_elem_of_In _]%filter_In.
    by apply (allEntries_keyed db W id).
  - apply filter_sorted, timeline_sorted.
  - unfold beforePage. cbn [hp_Before hp_ScheduleID]. rewrite Ht.
    assert (e ∈ timeline db page) as He.
    { apply last_Some in Hl as [l0 Hl]. rewrite <- (take_drop (Z.to_nat (hp_Limit page)) (timeline db page)), Hl.
      apply elem_of_app. left. apply elem_of_app. right. by left. }
    assert (beforePage page (entryKey e) = true) as Hb.
    { unfold timeline in He. rewrite merge_sort_Permutation, list_elem_of_In in He. by apply filter_In in He as [_ He]. }
    fold id. unfold timeline. fold id.
    rewrite (filter_Permutation_bool _ _ _ (merge_sort_Permutation _ _)).
    rewrite <- filter_andb. match goal with |- ?l ≡ₚ ?l' => assert (l = l') as ->; [|done] end.
    apply List.filter_ext. intros x. destruct (Z.ltb_spec (entryKey x) (entryKey e)); [|by rewrite andb_false_r].
    rewrite andb_true_r. unfold beforePage in *. destruct (hp_Before page); [|done].
    apply Z.ltb_lt in Hb. apply Z.ltb_lt. lia.
Qed.

Lemma NextPage_spec :
  let T := timeline db page in
  let r := MkHistoryPageResult (take (Z.to_nat (hp_Limit page)) T) (Z.to_nat (hp_Limit page) <? length T)%nat in
  ((length T <= Z.to_nat (hp_Limit page))%nat /\ NextPage r page = Ok None) \/
  ((Z.to_nat (hp_Limit page) < length T)%nat /\
   exists t, NextPage r page = Ok (Some (MkHistoryPage id (Some t) (hp_Limit page))) /\ canonical t /\
     timeline db (MkHistoryPage id (Some t) (hp_Limit page)) = drop (Z.to_nat (hp_Limit page)) T).
Proof.
  intros T r. pose proof page_limit. unfold r, NextPage; cbn [hpr_More hpr_Entries].
  destruct (Nat.ltb_spec (Z.to_nat (hp_Limit page)) (length T)); cbn [negb]; [right|left; auto].
  split; [done|].
  destruct (last (take (Z.to_nat (hp_Limit page)) T)) as [e|] eqn:El.
  2: { apply last_None in El. apply (f_equal length) in El. rewrite length_take in El. cbn in El. lia. }
  assert (e ∈ T) as He.
  { apply last_Some in El as [l0 El]. rewrite <- (take_drop (Z.to_nat (hp_Limit page)) T), El.
    apply elem_of_app. left. apply elem_of_app. right. by left. }
  destruct (elem_Endpoint _ (timeline_elem _ He)) as (t & Ht & Hn & Hc).
  rewrite Ht. cbn. exists t. split; [done|]. split; [done|]. by eapply timeline_next.
Qed.
End page.
