(* ===== verification/SchedStoreTheorems.v ===== *)
(** * Theorems of the schedule store

    The properties of [SchedStore] that its clients rely on, each with a concrete
    run of the operations on a small database. *)
From S2P Require Import Prelude GoErrors GoTime GoText TaskTypes Encoding SchedContract SchedRequest.
From S2P Require Import SchedStore SchedStoreInv SchedStoreProps SchedStoreReads SchedHistory.

(** ** A concrete store *)
Definition demoRequest : Request :=
  MkRequest "codex:exec" false "/work" (MkTaskConfig false "" "" "" "" "" None) None.
Definition demoDecode (data : string) : result Request :=
  if eqs data (MarshalCanonical (jsonRequest demoRequest)) then Ok demoRequest
  else Err (New "not the stored request").
Definition demoGuard (_ : database) : result unit := Ok tt.
Definition demoSchedule : string := "0123456789abcdef0123456789abcdef".
Definition demoTask : string := "00000000000000000000000000000001".
Definition demoTask2 : string := "00000000000000000000000000000002".
Definition at_minute (n : Z) : time := UnixUTC (n * Minute).
Definition demoDefinition : ScheduleDefinition :=
  MkDefinition (MkDefinitionHeader demoSchedule (at_minute 1) "* * * * *" "UTC" demoRequest) "brief".
Definition demoCreated : database :=
  run demoDecode demoGuard txOk (OpCreate demoDefinition) empty_database.
Definition demoClaim : Claim :=
  MkClaim demoSchedule (at_minute 1) (at_minute 2) demoTask (at_minute 2).
Definition demoArmed : database := run demoDecode demoGuard txOk (OpClaim demoClaim) demoCreated.
Definition demoRelease : OccurrenceRelease :=
  MkOccurrenceRelease demoTask (MkRelease (at_minute 3) ReleaseNotCreated "not_created").
Definition demoReleased : database :=
  run demoDecode demoGuard txOk (OpRelease demoRelease) demoArmed.
Definition demoClaim2 : Claim :=
  MkClaim demoSchedule (at_minute 2) (at_minute 4) demoTask2 (at_minute 4).
Definition demoRearmed : database := run demoDecode demoGuard txOk (OpClaim demoClaim2) demoReleased.

Lemma demo_reaches_created : reaches demoDecode demoGuard empty_database demoCreated.
Proof. apply reaches_step, reaches_refl. Qed.
Lemma demo_reaches_armed : reaches demoDecode demoGuard empty_database demoArmed.
Proof. apply reaches_step, demo_reaches_created. Qed.
Lemma demo_reaches_rearmed : reaches demoDecode demoGuard empty_database demoRearmed.
Proof. apply reaches_step, reaches_step, demo_reaches_armed. Qed.
Lemma wf_created : wf demoCreated.
Proof. exact (proj1 (reaches_kept _ _ _ _ demo_reaches_created wf_empty)). Qed.

Lemma wf_armed : wf demoArmed.
Proof. exact (proj1 (reaches_kept _ _ _ _ demo_reaches_armed wf_empty)). Qed.

Section theorems.
Context (DecodeStrict : string -> result Request) (guard : database -> result unit).

(** C3: Every database the store's operations can reach from an empty one, whatever
    the driver, the connection and the guard do (failed statements, rollbacks,
    commits with an unknown outcome), is well formed: rows satisfy the schema, each
    due time has at most one occurrence and at most one skip span accounts for it,
    never both, a schedule has at most one active occurrence, and its cursor
    bounds everything recorded. *)
Theorem store_invariant db :
  reaches DecodeStrict guard empty_database db -> wf db.
Proof. intros H. exact (proj1 (reaches_kept _ _ _ _ H wf_empty)). Qed.

(** No operation rewrites history: definitions, occurrence identities, skip
    spans and releases once recorded never change, cursors and observation times
    only move forward, and a deleted schedule stays deleted. *)
Theorem store_monotone db db' :
  wf db -> reaches DecodeStrict guard db db' -> extends db db'.
Proof. intros W H. exact (proj2 (reaches_kept _ _ _ _ H W)). Qed.
(** C2: At most one invocation per schedule and due time, and in order: once a claim
    authorized an invocation, every later authorized claim of that schedule, over
    any operations and driver failures in between, is for a strictly later due
    time. *)
Theorem authorized_claims_advance env1 env2 c1 c2 db db1 db2 db3 r1 r2 e1 e2 :
  wf db ->
  ClaimAndArm guard env1 c1 db = (r1, e1, db1) -> AuthorizesInvocation r1 = true ->
  reaches DecodeStrict guard db1 db2 ->
  ClaimAndArm guard env2 c2 db2 = (r2, e2, db3) -> AuthorizesInvocation r2 = true ->
  cl_ScheduleID c2 = cl_ScheduleID c1 ->
  nanos (cl_Due c1) < nanos (cl_Due c2).
Proof.
  intros W H1 A1 R H2 A2 E.
  destruct (authorized_preserves _ _ _ _ _ _ _ W H1 A1) as [W1 _].
  destruct (reaches_kept _ _ _ _ R W1) as [W2 X].
  destruct (authorized_advances _ _ _ _ _ _ _ W H1 A1) as (_ & s1 & _ & Hs1 & _ & C1 & _).
  destruct (authorized_advances _ _ _ _ _ _ _ W2 H2 A2) as (s2 & _ & Hs2 & _ & C2 & _ & Hlt & _).
  destruct (ext_schedule _ _ X _ _ Hs1) as (s2' & Hs2' & _ & Hle & _).
  rewrite E, Hs2' in Hs2. injection Hs2 as <-. lia.
Qed.

(** C5: A claim authorizes an invocation only when it returned no error and its
    transaction is in the database: the occurrence row is there, armed and
    unreleased, and the cursor moved from the expected instant to the due time. *)
Theorem authorized_claim_committed env c db r err db' :
  wf db -> ClaimAndArm guard env c db = (r, err, db') -> AuthorizesInvocation r = true ->
  err = None /\ cr_TaskID r = cl_TaskID c /\
  occurrences db !! cl_TaskID c = None /\
  occurrences db' !! cl_TaskID c =
    Some (armedRow (cl_TaskID c) (cl_ScheduleID c) (nanos (cl_Due c)) (nanos (cl_ArmedAt c))) /\
  sr_cursor <$> schedules db !! cl_ScheduleID c = Some (nanos (cl_ExpectedCursor c)) /\
  sr_cursor <$> schedules db' !! cl_ScheduleID c = Some (nanos (cl_Due c)).
Proof.
  intros W H A. destruct (authorized_claim _ _ _ _ _ _ _ H A) as (-> & E & _ & V & _ & Harm).
  destruct (authorized_advances _ _ _ _ _ _ _ W H A) as (s & s' & -> & -> & <- & <- & _ & Ho).
  apply armOccurrence_Ok in Harm as (_ & _ & _ & _ & Hn & _); done.
Qed.

(** C4: Without driver failures [ClaimAndArm] is its contract: an accounted due time
    answers [ClaimExisting] with its task, an enabled schedule at the expected
    cursor with no active occurrence and a fresh task identity is armed with
    exactly the two row changes, and every refusal is [ErrNotExist] or
    [ErrConflict], never an invariant fault, and writes nothing. *)
Theorem claim_follows_spec c db :
  wf db -> guard db = Ok tt -> ValidateClaim c = Ok tt ->
  claim_answer db c (claim_spec db c) (ClaimAndArm guard txOk c db).
Proof. apply claim_decides. Qed.

(** A retried claim after an authorized one (for instance after a commit whose
    outcome the caller never learned) is answered with the task that was armed,
    and changes nothing. *)
Theorem claim_retry_existing env c c' db db1 db2 r e :
  wf db -> ClaimAndArm guard env c db = (r, e, db1) -> AuthorizesInvocation r = true ->
  reaches DecodeStrict guard db1 db2 -> guard db2 = Ok tt -> ValidateClaim c' = Ok tt ->
  cl_ScheduleID c' = cl_ScheduleID c -> cl_Due c' = cl_Due c ->
  ClaimAndArm guard txOk c' db2 = (MkClaimResult ClaimExisting (cl_TaskID c), None, db2).
Proof.
  intros W H A R G V Es Ed.
  destruct (authorized_preserves _ _ _ _ _ _ _ W H A) as [W1 _].
  destruct (reaches_kept _ _ _ _ R W1) as [W2 X].
  destruct (authorized_advances _ _ _ _ _ _ _ W H A) as (_ & _ & _ & _ & _ & _ & _ & Ho).
  destruct (ext_occurrence _ _ X _ _ Ho) as (o & Ho2 & (_ & Hsid & Hdue & _)%identity_columns_eq & _).
  eapply claim_existing; eauto; cbn in *.
  - congruence.
  - apply ValidateClaim_Ok in V as (_ & _ & _ & Cd & _). rewrite canonical_UnixNano by done. congruence.
Qed.

(** What [CreateSchedule] stored is what [GetSchedule] returns, whatever
    operations ran in between: the same definition, byte for byte, with a valid
    state and a cursor at or after its creation. *)
Theorem create_get_roundtrip env d db db1 db2 :
  wf db -> sound DecodeStrict db ->
  CreateSchedule DecodeStrict guard env d db = (Ok tt, db1) ->
  reaches DecodeStrict guard db1 db2 -> guard db2 = Ok tt ->
  exists s, GetSchedule DecodeStrict guard txOk (dh_ScheduleID (df_Header d)) db2 = (Ok s, db2) /\
    sd_Definition s = d /\ ValidateState (sd_State s) = Ok tt /\
    Before (sd_Cursor s) (dh_CreatedAt (df_Header d)) = false.
Proof.
  intros W S H R G.
  destruct (CreateSchedule_stores _ _ _ _ _ _ H) as (r & Hst & Hr).
  pose proof (CreateSchedule_kept DecodeStrict guard env d db W) as [W1 _]. cbn [run] in W1. rewrite H in W1.
  destruct (reaches_kept _ _ _ _ R W1) as [W2 X].
  destruct (ext_schedule _ _ X _ _ Hr) as (r2 & Hr2 & Ec & _).
  pose proof (stored_columns _ _ _ _ Ec Hst) as Hst2.
  exists (storedSchedule d r2).
  split; [by eapply GetSchedule_stored|]. split; [done|].
  pose proof (validMutable _ _ _ _ _ W2 Hr2 Hst2) as V. unfold validateMutable in V. inv_ok. done.
Qed.

(** A read of a reachable database never reports an invariant fault: every
    stored schedule decodes, validates and matches its digests, so [GetSchedule]
    returns it, or reports that the schedule does not exist. *)
Theorem reads_never_fault db id :
  reaches DecodeStrict guard empty_database db -> guard db = Ok tt -> ValidateTaskID id = Ok tt ->
  (exists r d, schedules db !! id = Some r /\ stored DecodeStrict d r /\
     GetSchedule DecodeStrict guard txOk id db = (Ok (storedSchedule d r), db)) \/
  (exists e, GetSchedule DecodeStrict guard txOk id db = (Err e, db) /\
     RecordAbsent e = true /\ schedules db !! id = None).
Proof.
  intros R G V. destruct (reaches_kept _ _ _ _ R wf_empty) as [W _].
  pose proof (reaches_sound _ _ _ _ R (sound_empty _)) as S.
  destruct (schedules db !! id) as [r|] eqn:Hr.
  - left. destruct (S _ _ Hr) as [d Hd]. exists r, d. split_and!; [done..|].
    assert (id = dh_ScheduleID (df_Header d)) as ->.
    { rewrite <- (st_id _ _ _ Hd). by destruct (wf_schedule _ W _ _ Hr) as (-> & _). }
    by eapply GetSchedule_stored.
  - right. unfold GetSchedule, validScheduleID. rewrite V, transact_txOk, Hr by done. cbn. by eexists.
Qed.

(** The first release of an occurrence is final: any later release request, over
    any operations in between, writes nothing and succeeds exactly when it states
    the same kind and reference. *)
Theorem release_is_final env rec rec' db db1 db2 :
  wf db -> ReleaseOccurrence guard env rec db = (Ok tt, db1) ->
  reaches DecodeStrict guard db1 db2 -> guard db2 = Ok tt ->
  ValidateOccurrenceRelease rec' = Ok tt -> or_TaskID rec' = or_TaskID rec ->
  if bool_decide (rl_Kind (or_Release rec') = rl_Kind (or_Release rec) /\
                  rl_Ref (or_Release rec') = rl_Ref (or_Release rec))
  then ReleaseOccurrence guard txOk rec' db2 = (Ok tt, db2)
  else exists e, ReleaseOccurrence guard txOk rec' db2 = (Err e, db2) /\
                 errors_Is e contract_ErrConflict = true.
Proof.
  intros W H R G V E.
  destruct (ReleaseOccurrence_records _ _ _ _ _ W H) as (r & Hr & stored & Hs & Hc).
  pose proof (ReleaseOccurrence_kept DecodeStrict guard env rec db W) as [W1 _]. cbn [run] in W1.
  rewrite H in W1.
  destruct (reaches_kept _ _ _ _ R W1) as [W2 X].
  destruct (ext_occurrence _ _ X _ _ Hr) as (r2 & Hr2 & _ & Hrel & _).
  rewrite <- E in Hr2.
  assert (rowRelease r2 = Some stored) as Hs2.
  { rewrite (release_columns_row r); [done|]. apply Hrel, active_rowRelease. eauto. }
  rewrite (ReleaseOccurrence_released _ _ _ _ _ W2 G V Hr2 Hs2).
  apply CheckRepeatedRelease_Ok in Hc as [Hk Hf].
  case_bool_decide as Hd.
  - destruct Hd as [Hk' Hf'].
    assert (CheckRepeatedRelease stored (or_Release rec') = Ok tt) as ->; [|done].
    apply CheckRepeatedRelease_Ok. split; congruence.
  - destruct (CheckRepeatedRelease stored (or_Release rec')) as [[]|e] eqn:Ec.
    + apply CheckRepeatedRelease_Ok in Ec as [Hk' Hf']. destruct Hd. split; congruence.
    + apply CheckRepeatedRelease_Err in Ec as ->. cbn. by eexists.
Qed.

(** Recording a valid observation of a known occurrence always succeeds; it
    replaces the stored one exactly when it is newer, so an observation that
    arrives late never overwrites a later one. *)
Theorem observation_newest_wins rec db r :
  wf db -> guard db = Ok tt -> ValidateOccurrenceObservation rec = Ok tt ->
  occurrences db !! oo_TaskID rec = Some r ->
  RecordObservation guard txOk rec db =
    (Ok tt, if match or_observedAt r with
               | None => true | Some seen => seen <? UnixNano (ob_ObservedAt (oo_Observation rec)) end
            then set_occurrences (<[oo_TaskID rec := observedRow (oo_Observation rec) r]> (occurrences db)) db
            else db).
Proof. intros W G V Hr. apply RecordObservation_txOk; [done..|]. by eapply observedRow_check. Qed.
End theorems.

(** ** The theorems on the concrete store *)
Lemma store_invariant_witness :
  reaches demoDecode demoGuard empty_database demoRearmed /\ wf demoRearmed.
Proof.
  split; [exact demo_reaches_rearmed|].
  exact (store_invariant demoDecode demoGuard demoRearmed demo_reaches_rearmed).
Defined.

Lemma store_monotone_witness : extends demoCreated demoRearmed.
Proof.
  apply (store_monotone demoDecode demoGuard); [exact wf_created|].
  do 3 apply reaches_step. apply reaches_refl.
Defined.

Lemma authorized_claims_advance_witness :
  nanos (cl_Due demoClaim) < nanos (cl_Due demoClaim2).
Proof.
  apply (authorized_claims_advance demoDecode demoGuard txOk txOk demoClaim demoClaim2 demoCreated
           demoArmed demoReleased demoRearmed (MkClaimResult ClaimNewlyCommitted demoTask)
           (MkClaimResult ClaimNewlyCommitted demoTask2) None None);
    [exact wf_created|vm_compute; reflexivity|reflexivity| |vm_compute; reflexivity|reflexivity|reflexivity].
  apply reaches_step, reaches_refl.
Defined.

Lemma authorized_claim_committed_witness :
  occurrences demoArmed !! demoTask =
    Some (armedRow demoTask demoSchedule (2 * Minute) (2 * Minute)).
Proof.
  apply (authorized_claim_committed demoGuard txOk demoClaim demoCreated
           (MkClaimResult ClaimNewlyCommitted demoTask) None demoArmed);
    [exact wf_created|vm_compute; reflexivity|reflexivity].
Defined.

Lemma claim_follows_spec_witness :
  claim_answer demoCreated demoClaim (claim_spec demoCreated demoClaim)
    (ClaimAndArm demoGuard txOk demoClaim demoCreated) /\
  claim_spec demoCreated demoClaim = Armed demoArmed.
Proof.
  split; [|vm_compute; reflexivity].
  apply claim_follows_spec; [exact wf_created|reflexivity|vm_compute; reflexivity].
Defined.

Lemma claim_retry_existing_witness :
  ClaimAndArm demoGuard txOk demoClaim demoRearmed =
    (MkClaimResult ClaimExisting demoTask, None, demoRearmed).
Proof.
  apply (claim_retry_existing demoDecode demoGuard txOk demoClaim demoClaim demoCreated demoArmed
           demoRearmed (MkClaimResult ClaimNewlyCommitted demoTask) None);
    [exact wf_created|vm_compute; reflexivity|reflexivity| |reflexivity|vm_compute; reflexivity|done|done].
  do 2 apply reaches_step. apply reaches_refl.
Defined.

Lemma create_get_roundtrip_witness :
  exists s, GetSchedule demoDecode demoGuard txOk demoSchedule demoRearmed = (Ok s, demoRearmed) /\
    sd_Definition s = demoDefinition.
Proof.
  destruct (create_get_roundtrip demoDecode demoGuard txOk demoDefinition empty_database demoCreated
              demoRearmed) as (s & H & E & _);
    [exact wf_empty|apply sound_empty|vm_compute; reflexivity| |reflexivity|exists s; split; [exact H|exact E]].
  do 3 apply reaches_step. apply reaches_refl.
Defined.

Lemma reads_never_fault_witness :
  exists e, GetSchedule demoDecode demoGuard txOk demoTask demoRearmed = (Err e, demoRearmed) /\
    RecordAbsent e = true.
Proof.
  destruct (reads_never_fault demoDecode demoGuard demoRearmed demoTask demo_reaches_rearmed)
    as [(r & d & Hr & _)|(e & H & Ha & _)];
    [reflexivity|vm_compute; reflexivity|vm_compute in Hr; discriminate|exists e; split; [exact H|exact Ha]].
Defined.

Lemma release_is_final_witness :
  ReleaseOccurrence demoGuard txOk demoRelease demoRearmed = (Ok tt, demoRearmed).
Proof.
  refine (release_is_final demoDecode demoGuard txOk demoRelease demoRelease demoArmed demoReleased
            demoRearmed _ _ _ eq_refl _ eq_refl);
    [exact wf_armed
    |vm_compute; reflexivity| |vm_compute; reflexivity].
  apply reaches_step, reaches_refl.
Defined.

Definition demoObservation (n : Z) : OccurrenceObservation :=
  MkOccurrenceObservation demoTask
    (MkObservation (at_minute n) AdmissionAdmitted LivenessRunning PublicationPending "" "").

Lemma observation_newest_wins_witness :
  let r := armedRow demoTask demoSchedule (2 * Minute) (2 * Minute) in
  RecordObservation demoGuard txOk (demoObservation 3) demoArmed =
    (Ok tt, set_occurrences (<[demoTask := observedRow (oo_Observation (demoObservation 3)) r]>
                               (occurrences demoArmed)) demoArmed).
Proof.
  exact (observation_newest_wins demoGuard (demoObservation 3) demoArmed
           (armedRow demoTask demoSchedule (2 * Minute) (2 * Minute)) wf_armed eq_refl
           ltac:(vm_compute; reflexivity) ltac:(vm_compute; reflexivity)).
Defined.

(** ** History and schedule state

    One page is a prefix of the timeline, following [Next] returns all of it, and skips and
    state changes account for what they pass over. *)

(** A reader that follows [Next] from a page, for at most [fuel] pages. *)
Fixpoint readPages (guard : database -> result unit) (fuel : nat) (page : HistoryPage) (db : database)
    : result (list HistoryEntry) :=
  match fuel with
  | O => Err (New "out of pages")
  | S fuel' =>
      r ← fst (History guard txOk page db);
      next ← NextPage r page;
      match next with
      | None => Ok (hpr_Entries r)
      | Some page' => rest ← readPages guard fuel' page' db; Ok (hpr_Entries r ++ rest)
      end
  end.

(** What is left of a skip: the span it recorded and the cursor it moved. *)
Definition skipped (db : database) (skip : Skip) (s : scheduleRow) : database :=
  let span := sk_Span skip in
  let row := MkSpanRow (sk_ScheduleID skip) (nanos (ss_From span)) (nanos (ss_To span))
               (string_of_reason (ss_Reason span)) in
  MkDatabase (<[sk_ScheduleID skip := setSchedule s None (Some (nanos (ss_To span)))]> (schedules db))
    (occurrences db) (<[(sk_ScheduleID skip, nanos (ss_To span)) := row]> (skip_spans db)).

Lemma readPages_timeline guard db fuel page :
  wf db -> guard db = Ok tt -> ValidateHistoryPage page = Ok tt ->
  is_Some (schedules db !! hp_ScheduleID page) -> (length (timeline db page) < fuel)%nat ->
  readPages guard fuel page db = Ok (timeline db page).
Proof.
  intros W G V Hs. revert page V Hs. induction fuel as [|fuel IH]; intros page V Hs Hf; [lia|].
  cbn [readPages]. rewrite (History_timeline guard db W page V G Hs). cbn [fst mbind result_bind].
  pose proof (page_limit page V).
  destruct (NextPage_spec db W page V) as [[Hl ->]|(Hl & t & -> & Hc & Ht)]; cbn [mbind result_bind hpr_Entries].
  - by rewrite take_ge.
  - rewrite IH.
    + rewrite Ht. cbn [mbind result_bind]. by rewrite take_drop.
    + unfold ValidateHistoryPage in *; cbn in *. inv_ok.
      rename select (validateScheduleID _ = _) into E1. rename select (validateLimit _ = _) into E2.
      rewrite E1, E2. cbn. by rewrite (proj2 (ValidateInstant_Ok _ _) Hc).
    + done.
    + rewrite Ht, length_drop. lia.
Qed.

Lemma RecordSkip_body db skip db' :
  wf db -> ValidateSkip skip = Ok tt ->
  ('(state, cursor) ← scheduleState db (sk_ScheduleID skip);
   fail_if (negb (bool_decide (state = StateEnabled))) (conflict "schedule state") ;;
   db1 ← insertSkipSpan db (sk_ScheduleID skip) cursor (sk_ExpectedCursor skip) (sk_Span skip);
   db' ← updateOne (updateSchedule db1 (sk_ScheduleID skip) (fun r => sr_cursor r =? cursor)
                      None (Some (UnixNano (ss_To (sk_Span skip)))));
   Ok (tt, db')) = Ok (tt, db') ->
  exists s, schedules db !! sk_ScheduleID skip = Some s /\ sr_state s = "enabled"%string /\
    sr_cursor s = nanos (sk_ExpectedCursor skip) /\ db' = skipped db skip s.
Proof.
  intros W V H. inv_ok. destruct x as [state cursor]. inv_ok. bool_prop. subst state.
  apply ValidateSkip_Ok in V as (_ & _ & Vs & Hc & _).
  pose proof (ValidateSkipSpan_Ok _ Vs) as (_ & Ht & _).
  rename select (scheduleState _ _ = _) into Hst. apply scheduleState_Ok in Hst as (s & Hs & <- & _ & He).
  rename select (insertSkipSpan _ _ _ _ _ = _) into Hi.
  apply insertSkipSpan_Ok in Hi as [Ec Hi]; [|done..].
  apply insertSpan_Ok in Hi as (_ & _ & _ & ->).
  rename select (updateOne _ = _) into Hu. apply updateOne_Ok, updateSchedule_Ok in Hu as (s' & Hs' & _ & _ & _ & _ & ->).
  cbn in Hs'. rewrite Hs in Hs'. injection Hs' as <-. rewrite (canonical_UnixNano _ Ht).
  exists s. done.
Qed.

Lemma ChangeState_body db c db' :
  ValidateStateChange c = Ok tt ->
  (exists env guard, ChangeState guard env c db = (Ok tt, db')) ->
  exists s s', schedules db !! sc_ScheduleID c = Some s /\ sr_state s = string_of_state (sc_From c) /\
    schedules db' !! sc_ScheduleID c = Some s' /\ sr_state s' = string_of_state (sc_To c) /\
    match sc_Resume c with
    | None => sr_cursor s' = sr_cursor s
    | Some r => sr_cursor s = nanos (rs_ExpectedCursor r) /\ sr_cursor s' = nanos (rs_To r)
    end.
Proof.
  intros V (env & guard & H). unfold ChangeState in H. rewrite V in H.
  apply ValidateStateChange_Ok in V as (Vf & _ & _ & Hr).
  apply transact_Ok in H as [H _]. inv_ok. destruct x as [st cursor]. inv_ok. bool_prop. subst st.
  rename select (scheduleState _ _ = _) into Hst. apply scheduleState_Ok in Hst as (s & Hs & <- & _ & He).
  exists s. destruct (sc_Resume c) as [r|] eqn:Er; inv_ok.
  - destruct (Hr _ eq_refl) as (_ & _ & Vs & Hc & _). pose proof (ValidateSkipSpan_Ok _ Vs) as (_ & Ht & _).
    rename select (insertSkipSpan _ _ _ _ _ = _) into Hi. apply insertSkipSpan_Ok in Hi as [Ec Hi]; [|done..].
    apply insertSpan_Ok in Hi as (_ & _ & _ & ->).
    rename select (updateOne _ = _) into Hu. apply updateOne_Ok, updateSchedule_Ok in Hu as (s' & Hs' & _ & _ & _ & _ & ->).
    cbn in Hs'. rewrite Hs in Hs'. injection Hs' as <-. cbn. rewrite lookup_insert_eq.
    eexists; split_and!; try done. cbn. by apply canonical_UnixNano.
  - rename select (updateOne _ = _) into Hu. apply updateOne_Ok, updateSchedule_Ok in Hu as (s' & Hs' & _ & _ & _ & _ & ->).
    rewrite Hs in Hs'. injection Hs' as <-. cbn. rewrite lookup_insert_eq.
    eexists; split_and!; done.
Qed.

Section theorems.
Context (guard : database -> result unit).

(** A history page is exactly the newest entries below its endpoint, at most
    [limit] of them, newest first, and [More] says whether any are left; no entry
    of a well-formed store fails to decode or to merge. *)
Theorem history_page_correct db page :
  wf db -> guard db = Ok tt -> ValidateHistoryPage page = Ok tt ->
  is_Some (schedules db !! hp_ScheduleID page) ->
  History guard txOk page db =
    (Ok (MkHistoryPageResult (take (Z.to_nat (hp_Limit page)) (timeline db page))
           (Z.to_nat (hp_Limit page) <? length (timeline db page))%nat), db).
Proof. intros W G V Hs. by apply History_timeline. Qed.

(** C38: Following [Next] from any page returns every entry of the timeline exactly
    once, newest first, and ends after finitely many pages. *)
Theorem history_pages_complete db page :
  wf db -> guard db = Ok tt -> ValidateHistoryPage page = Ok tt ->
  is_Some (schedules db !! hp_ScheduleID page) ->
  readPages guard (S (length (timeline db page))) page db = Ok (timeline db page) /\
  NoDup (timeline db page) /\ Sorted (newestFirst entryKey) (timeline db page) /\
  (forall e, e ∈ timeline db page <->
     e ∈ allEntries db (hp_ScheduleID page) /\ beforePage page (entryKey e) = true).
Proof.
  intros W G V Hs. split; [apply readPages_timeline; auto with lia|].
  split; [by apply timeline_NoDup|]. split; [by apply timeline_sorted|].
  intros e. unfold timeline. by rewrite merge_sort_Permutation, !list_elem_of_In, filter_In.
Qed.

(** Whatever the driver does, a skip is atomic: either nothing is written and an
    error is returned, or exactly two things happen to an enabled schedule whose
    cursor is the one the skip expects: the span is added and the cursor moves to
    the span's end. *)
Theorem skip_moves_cursor env skip db db' r :
  wf db -> ValidateSkip skip = Ok tt -> RecordSkip guard env skip db = (r, db') ->
  (is_ok r = false /\ db' = db) \/
  exists s, schedules db !! sk_ScheduleID skip = Some s /\ sr_state s = "enabled"%string /\
    sr_cursor s = nanos (sk_ExpectedCursor skip) /\ db' = skipped db skip s.
Proof.
  intros W V H. unfold RecordSkip in H. rewrite V in H. destruct r as [[]|e].
  - right. apply transact_Ok in H as [H _]. by eapply RecordSkip_body.
  - match type of H with transact env guard ?b db = _ =>
      destruct (transact_snd env guard b db) as [E|[[] E]] end; rewrite H in E; cbn [snd] in E;
      [by left|right; by eapply RecordSkip_body].
Qed.

(** A successful state change follows one permitted transition of the stored
    state ([enabled] and [paused] to each other, either to [deleted]); only
    resuming moves the cursor, from the expected instant to the end of the paused
    span. *)
Theorem state_change_transition env c db db' :
  ChangeState guard env c db = (Ok tt, db') ->
  permittedTransition (sc_From c) (sc_To c) = true /\
  exists s s', schedules db !! sc_ScheduleID c = Some s /\ sr_state s = string_of_state (sc_From c) /\
    schedules db' !! sc_ScheduleID c = Some s' /\ sr_state s' = string_of_state (sc_To c) /\
    match sc_Resume c with
    | None => sr_cursor s' = sr_cursor s
    | Some r => sr_cursor s = nanos (rs_ExpectedCursor r) /\ sr_cursor s' = nanos (rs_To r)
    end.
Proof.
  intros H. destruct (ValidateStateChange c) as [[]|] eqn:V.
  2: { unfold ChangeState in H. by rewrite V in H. }
  split; [by apply ValidateStateChange_Ok in V as (_ & _ & ? & _)|].
  apply ChangeState_body; eauto.
Qed.
End theorems.

(** ** The theorems on the concrete store *)
Definition demoPage (limit : Z) : HistoryPage := MkHistoryPage demoSchedule None limit.

Lemma wf_rearmed : wf demoRearmed.
Proof. exact (proj1 (reaches_kept _ _ _ _ demo_reaches_rearmed wf_empty)). Qed.

Lemma history_page_correct_witness :
  exists o, History demoGuard txOk (demoPage 1) demoRearmed =
    (Ok (MkHistoryPageResult [OccurrenceEntry o] true), demoRearmed) /\ oc_TaskID o = demoTask2.
Proof.
  eexists. split.
  - rewrite (history_page_correct demoGuard demoRearmed (demoPage 1) wf_rearmed eq_refl
               ltac:(vm_compute; reflexivity) ltac:(vm_compute; eauto)).
    vm_compute. reflexivity.
  - reflexivity.
Defined.

Lemma history_pages_complete_witness :
  readPages demoGuard 3 (demoPage 1) demoRearmed = Ok (timeline demoRearmed (demoPage 1)) /\
  length (timeline demoRearmed (demoPage 1)) = 2%nat.
Proof.
  split; [|vm_compute; reflexivity].
  exact (proj1 (history_pages_complete demoGuard demoRearmed (demoPage 1) wf_rearmed eq_refl
                  ltac:(vm_compute; reflexivity) ltac:(vm_compute; eauto))).
Defined.

Definition demoSkip : Skip :=
  MkSkip demoSchedule (at_minute 1) (MkSkipSpan (at_minute 1) (at_minute 3) SkipMissedUnavailable).
Definition demoSkipped : database := snd (RecordSkip demoGuard txOk demoSkip demoCreated).

Lemma skip_moves_cursor_witness :
  (is_ok (@Ok unit tt) = false /\ demoSkipped = demoCreated) \/
  exists s, schedules demoCreated !! demoSchedule = Some s /\ sr_state s = "enabled"%string /\
    sr_cursor s = nanos (at_minute 1) /\ demoSkipped = skipped demoCreated demoSkip s.
Proof.
  apply (skip_moves_cursor demoGuard txOk demoSkip demoCreated demoSkipped (Ok tt) wf_created);
    vm_compute; reflexivity.
Defined.

Lemma state_change_transition_witness :
  permittedTransition StateEnabled StatePaused = true.
Proof.
  apply (state_change_transition demoGuard txOk (MkStateChange demoSchedule StateEnabled StatePaused None)
           demoCreated
           (snd (ChangeState demoGuard txOk (MkStateChange demoSchedule StateEnabled StatePaused None) demoCreated))).
  vm_compute. reflexivity.
Defined.
