(* ===== verification/Recurrence.v ===== *)
(** * Schedule recurrence

    [internal/scheduler/recurrence]: the cron grammar fence ([grammar.go]), the
    probing lookup over the calendar backend ([lookup.go]), the walk over native
    offset intervals ([next.go]), first realizations ([fold.go]) and the advisories
    ([warnings.go]).

    The backend ([gocron.Cron]) and the zone tables ([time.LoadLocation]) are
    parameters.  Loops take fuel; [None] means the fuel ran out. *)
From S2P Require Import Prelude GoErrors GoTime GoText TaskTypes SchedContract.
From Stdlib Require Import Ascii.

(** A loaded [*time.Location]: the offset in force at an instant, in seconds, and the
    bounds of its interval, [None] where Go returns the zero time. *)
Record zone : Type := MkZone {
  zn_name : string;
  zn_offset : Z -> Z;
  zn_bounds : Z -> option Z * option Z
}.

(** [gocron.Cron] after [IsValid] parsed the expression; the location is UTC. *)
Record cron : Type := MkCron {
  cr_IsValid : string -> time -> option error;
  cr_Next : string -> time -> time
}.

Record Warning : Set := MkWarning { wn_Code : string; wn_Message : string }.

(** ** grammar.go *)
Definition ErrInvalidExpression (detail : string) : error :=
  Errorf detail (Sentinel recurrence_ErrInvalidExpression).
Definition ErrLookup (detail : string) : error := Errorf detail (Sentinel recurrence_ErrLookup).

Fixpoint skipDigits (l : list ascii) : list ascii :=
  match l with
  | c :: l' => if isDigit c then skipDigits l' else l
  | [] => []
  end.

(** [[0-9]+] or [[A-Za-z]{3}] at the start of the text: what follows it. *)
Definition fieldAtom (l : list ascii) : option (list ascii) :=
  match l with
  | c :: rest =>
      if isDigit c then Some (skipDigits rest)
      else match l with
           | a :: b :: d :: rest' => if isAlpha a && isAlpha b && isAlpha d then Some rest' else None
           | _ => None
           end
  | [] => None
  end.

(** An optional [/step] at the end of the element. *)
Definition fieldStep (l : list ascii) : bool :=
  match l with
  | [] => true
  | c :: d :: rest =>
      bool_decide (c = "/"%char) && isDigit d && match skipDigits rest with [] => true | _ => false end
  | _ => false
  end.

Definition fieldElement (element : string) : bool :=
  let l := bytes element in
  match l with
  | c :: rest =>
      if bool_decide (c = "*"%char) then fieldStep rest
      else match fieldAtom l with
           | None => false
           | Some (d :: rest') =>
               if bool_decide (d = "-"%char)
               then match fieldAtom rest' with Some rest'' => fieldStep rest'' | None => false end
               else fieldStep (d :: rest')
           | Some [] => true
           end
  | [] => false
  end.

Definition validateGrammar (expression : string) : result unit :=
  fail_if ((MaxOpaqueTextBytes <? len expression) || ContainsFunc expression IsControl)
    (ErrInvalidExpression "expected bounded text without control characters") ;;
  let fields := Fields expression in
  fail_if (negb (Z.of_nat (length fields) =? 5))
    (ErrInvalidExpression "expected five minute/hour/day/month/weekday fields") ;;
  fail_if (negb (forallb (fun field => forallb fieldElement (Split field ","%char)) fields))
    (ErrInvalidExpression "unsupported field element").

(** ** fold.go *)

(** The offset of [t.In(location)]. *)
Definition offsetAt (location : zone) (t : time) : Z := zn_offset location (nanos t).

(** The wall clock of an instant in the zone, as the UTC instant with those fields. *)
Definition wallPoint (instant : time) (location : zone) : time :=
  UnixUTC (nanos instant + offsetAt location instant * Second).

(** [time.Unix(value.Unix()+seconds, int64(value.Nanosecond())).UTC()] *)
Definition shiftSeconds (value : time) (seconds : Z) : time :=
  UnixUTC ((nanos value / Second + seconds) * Second + nanos value mod Second).

Fixpoint realizationLoop (fuel : nat) (candidate wall : time) (location : zone) (seen : list Z)
    (probe : time) : option (result bool) :=
  match fuel with
  | O => None
  | S fuel' =>
      let offset := offsetAt location probe in
      let checked := existsb (Z.eqb offset) seen in
      let seen' := if checked then seen else offset :: seen in
      let alternative := shiftSeconds wall (- offset) in
      if negb checked && Before alternative candidate && Equal (wallPoint alternative location) wall
      then Some (Ok false)
      else match fst (zn_bounds location (nanos probe)) with
      | None => Some (Ok true)
      | Some start =>
          let previous := UnixUTC (start - Nanosecond) in
          if negb (Before previous probe)
          then Some (Err (ErrLookup "native zone interval did not progress backwards"))
          else realizationLoop fuel' candidate wall location seen' previous
      end
  end.

Definition firstRealization (fuel : nat) (candidate : time) (location : zone) : option (result bool) :=
  realizationLoop fuel candidate (wallPoint candidate location) location [] candidate.

(** ** lookup.go *)

(** The loop of [lookupBetween] in UTC; [factory] is what each call of it returns. *)
Fixpoint lookupLoop (fuel : nat) (expression : string) (probe through : time) (factory : option cron)
    : option (result (time * bool)) :=
  if negb (Before probe through) then Some (Ok (zero_time, false))
  else match fuel with
  | O => None
  | S fuel' =>
    match factory with
    | None => Some (Err (ErrLookup "nil cron implementation"))
    | Some backend =>
      match cr_IsValid backend expression probe with
      | None =>
          let candidate := cr_Next backend expression probe in
          if negb (After candidate probe) || negb (nanos candidate mod Minute =? 0)
          then Some (Err (ErrLookup "backend candidate does not progress at minute precision"))
          else Some (Ok (candidate, negb (After candidate through)))
      | Some err =>
          if errors_Is err gocron_ErrCronJobParse
          then Some (Err (Joined "" [Sentinel recurrence_ErrInvalidExpression; err]))
          else if negb (onlyNoCandidate err)
          then Some (Err (Joined "" [Sentinel recurrence_ErrLookup; err]))
          else
            let next := AddDate (toUTC probe) 4 in
            if negb (After next probe) then Some (Err (ErrLookup "calendar probe did not progress"))
            else lookupLoop fuel' expression next through factory
      end
    end
  end.

(** Each turn but the last advances by more than three years, so this fuel is enough
    ([lookupBetween_total]). *)
Definition lookupFuel (after through : time) : nat :=
  S (Z.to_nat ((nanos through - nanos after) / (1459 * Day))).

Definition lookupBetween (expression : string) (after through : time) (factory : option cron)
    : option (result (time * bool)) :=
  lookupLoop (lookupFuel after through) expression after through factory.

(** ** next.go *)
Definition intervalUpper (probe : time) (end' : option Z) (through : time) : result time :=
  let bounded (e : Z) : time :=
    if e <=? nanos through then UnixUTC (e - Nanosecond) else through in
  match end' with
  | None => Ok through
  | Some e =>
      if e <=? nanos probe then
        let first := yearStart (Year probe) in
        let nextYear := AddDate first 1 in
        let leapYear := Sub nextYear first =? 366 * 24 * Hour in
        if negb leapYear || negb (e =? nanos first + 365 * 24 * Hour) || negb (Before probe nextYear)
        then Err (ErrLookup "native interval ends before its probe")
        else Ok (bounded (nanos nextYear))
      else Ok (bounded e)
  end.

(** [back] is the fuel of each [firstRealization]. *)
Fixpoint nextInZone (back fuel : nat) (expression : string) (location : zone) (cursor through : time)
    (factory : option cron) : option (result time) :=
  if negb (Before cursor through) then Some (Err (Sentinel recurrence_ErrRangeExhausted))
  else match fuel with
  | O => None
  | S fuel' =>
      let probe := Add cursor Nanosecond in
      let offset := offsetAt location probe in
      match intervalUpper probe (snd (zn_bounds location (nanos probe))) through with
      | Err e => Some (Err e)
      | Ok upper =>
        match lookupBetween expression (shiftSeconds cursor offset) (shiftSeconds upper offset) factory with
        | None => None
        | Some (Err e) => Some (Err e)
        | Some (Ok (candidate, found)) =>
          if found : bool then
            let actual := shiftSeconds candidate (- offset) in
            if negb (After actual cursor) || After actual upper ||
               negb (Equal (wallPoint actual location) candidate)
            then Some (Err (ErrLookup "calendar candidate failed its native interval round trip"))
            else match firstRealization back actual location with
            | None => None
            | Some (Err e) => Some (Err e)
            | Some (Ok true) => Some (Ok (toUTC actual))
            | Some (Ok false) => nextInZone back fuel' expression location actual through factory
            end
          else if negb (After upper cursor)
          then Some (Err (ErrLookup "native interval did not progress"))
          else nextInZone back fuel' expression location upper through factory
        end
      end
  end.

(** ** timezone.go and warnings.go *)
Section named.
Context (LoadLocation : string -> result zone).

Definition namedLocation (name : string) : result zone :=
  fail_if (eqs name "" || eqs name "Local" || (MaxOpaqueTextBytes <? len name) ||
           ContainsFunc name IsSpace)
    (Errorf "supply a nonempty named timezone other than Local"
       (Sentinel recurrence_ErrInvalidTimezone)) ;;
  wrap_err (fun e => Joined "" [Sentinel recurrence_ErrInvalidTimezone; e]) (LoadLocation name).

(** [Next] with [defaultCron]'s backend. *)
Definition Next (back fuel : nat) (defaultCron : option cron) (expression zoneName : string) (after : time)
    : option (result time) :=
  match validateGrammar expression with
  | Err e => Some (Err e)
  | Ok _ =>
    match namedLocation zoneName with
    | Err e => Some (Err e)
    | Ok location =>
      let after := toUTC after in
      match ValidateInstant "schedule after" after with
      | Err e => Some (Err (Joined "" [Sentinel recurrence_ErrRangeExhausted; e]))
      | Ok _ => nextInZone back fuel expression location after (InstantFromUnixNanos max_int64) defaultCron
      end
    end
  end.

Definition Warnings (expression zoneName : string) : list Warning :=
  match validateGrammar expression with
  | Err _ => []
  | Ok _ =>
    match namedLocation zoneName with
    | Err _ => []
    | Ok location =>
        let omission := MkWarning "calendar_omission"
          "Nonexistent calendar dates are skipped; February 29 occurs only in leap years." in
        match zn_bounds location 0 with
        | (None, None) => [omission]
        | _ => [omission; MkWarning "timezone_omission"
                  "Zone rules may omit or repeat local minutes: missing minutes are skipped and repeated minutes use the first occurrence. This is not a prediction of future transitions."]
        end
    end
  end.
End named.
