(* ===== verification/RecurrenceTheorems.v ===== *)
(** * The next occurrence of a schedule

    [nextInZone] returns the first eligible instant of its range, whatever the zone
    and the expression, under the documented behaviour of the zone tables
    ([zone_ok]) and of the calendar backend ([cron_ok]). *)
From S2P Require Import Prelude GoErrors GoTime GoText TaskTypes SchedContract Recurrence.

(** ** What the parameters promise *)

(** [ZoneBounds]: the interval in force at an instant holds one offset; the
    documented exception is a year-end bound of 365 days in a leap year, whose last
    day keeps the offset.  [first] precedes every transition. *)
Record zone_ok (z : zone) (first : Z) : Prop := {
  zo_start t s : fst (zn_bounds z t) = Some s ->
    s <= t /\ forall u, s <= u <= t -> zn_offset z u = zn_offset z t;
  zo_begin t : fst (zn_bounds z t) = None -> forall u, u <= t -> zn_offset z u = zn_offset z t;
  zo_end t e : snd (zn_bounds z t) = Some e -> t < e ->
    forall u, t <= u < e -> zn_offset z u = zn_offset z t;
  zo_forever t : snd (zn_bounds z t) = None -> forall u, t <= u -> zn_offset z u = zn_offset z t;
  zo_tail t e : snd (zn_bounds z t) = Some e -> e <= t ->
    let y := Year (UnixUTC t) in
    isLeap y = true /\ e = nanos (yearStart y) + 365 * Day /\
    forall u, t <= u < nanos (yearStart (y + 1)) -> zn_offset z u = zn_offset z t;
  zo_first t : t < first -> fst (zn_bounds z t) = None
}.

(** The backend decides a set [M] of UTC minutes: it returns the least one after the
    probe, or reports that there is none within five calendar years. *)
Record cron_ok (backend : cron) (expression : string) (M : Z -> Prop) : Prop := {
  co_next p : location p = UTC -> cr_IsValid backend expression p = None ->
    let c := nanos (cr_Next backend expression p) in
    nanos p < c /\ M c /\ c mod Minute = 0 /\ forall m, M m -> nanos p < m -> c <= m;
  co_none p err : location p = UTC -> cr_IsValid backend expression p = Some err ->
    errors_Is err gocron_ErrCronJobParse = false /\ onlyNoCandidate err = true /\
    forall m, M m -> nanos p < m -> nanos (AddDate p 5) < m
}.

(** The wall clock of an instant, and the instants a schedule may fire at: the
    matching minutes, each at its first realization. *)
Definition wall (z : zone) (t : Z) : Z := t + zn_offset z t * Second.

Definition eligible (z : zone) (M : Z -> Prop) (t : Z) : Prop :=
  M (wall z t) /\ forall u, u < t -> wall z u <> wall z t.

(** ** Arithmetic *)
Lemma shiftSeconds_nanos v s : nanos (shiftSeconds v s) = nanos v + s * Second.
Proof.
  unfold shiftSeconds; cbn [nanos UnixUTC].
  pose proof (Z.div_mod (nanos v) Second ltac:(done)). lia.
Qed.

Lemma wallPoint_nanos t z : nanos (wallPoint t z) = wall z (nanos t).
Proof. done. Qed.

Lemma daysBeforeYear_mono y y' : y <= y' -> daysBeforeYear y <= daysBeforeYear y'.
Proof. intros H. pose proof (daysBeforeYear_add y (y' - y)). replace (y + (y' - y)) with y' in * by lia. lia. Qed.

Lemma yearOf_start y : yearOf (daysBeforeYear y) = y.
Proof.
  pose proof (yearOf_spec (daysBeforeYear y)) as [H1 H2].
  destruct (Z.lt_trichotomy (yearOf (daysBeforeYear y)) y) as [H|[H|H]]; [|done|].
  - pose proof (daysBeforeYear_mono (yearOf (daysBeforeYear y) + 1) y). lia.
  - pose proof (daysBeforeYear_mono (y + 1) (yearOf (daysBeforeYear y))).
    pose proof (daysBeforeYear_step y). destruct (isLeap y); lia.
Qed.

Lemma AddDate_yearStart y : AddDate (yearStart y) 1 = yearStart (y + 1).
Proof.
  unfold AddDate, dayOf, yearStart, UnixUTC; cbn [nanos location].
  rewrite Z.div_mul, Z.mod_mul, yearOf_start, Z.sub_diag by done.
  assert (monthDay (monthLengths (isLeap y)) 0 0 = (0%nat, 0)) as -> by (by destruct (isLeap y)).
  f_equal. cbn. lia.
Qed.

Lemma Year_bounds t : nanos (yearStart (Year t)) <= nanos t < nanos (yearStart (Year t + 1)).
Proof.
  unfold yearStart, Year; cbn [nanos UnixUTC]. pose proof (yearOf_spec (dayOf t)) as [H1 H2].
  unfold dayOf in *. pose proof (Z.div_mod (nanos t) Day ltac:(done)).
  pose proof (Z.mod_pos_bound (nanos t) Day ltac:(done)). set (q := nanos t / Day) in *.
  assert (daysBeforeYear (yearOf q) * Day <= q * Day) by (apply Z.mul_le_mono_nonneg_r; [done|lia]).
  assert ((q + 1) * Day <= daysBeforeYear (yearOf q + 1) * Day) by (apply Z.mul_le_mono_nonneg_r; [done|lia]).
  lia.
Qed.

(** ** The lookup *)
Section lookup.
Context (backend : cron) (expression : string) (M : Z -> Prop).
Context (HB : cron_ok backend expression M).

Definition looked_up (after through : Z) (r : time * bool) : Prop :=
  if snd r
  then after < nanos (fst r) <= through /\ M (nanos (fst r)) /\
       forall m, M m -> after < m -> nanos (fst r) <= m
  else forall m, M m -> after < m -> through < m.

Lemma lookupLoop_correct fuel probe through :
  location probe = UTC ->
  (Z.to_nat ((nanos through - nanos probe) / (1459 * Day) + 1) <= fuel)%nat ->
  exists r, lookupLoop fuel expression probe through (Some backend) = Some (Ok r) /\
    looked_up (nanos probe) (nanos through) r.
Proof.
  revert probe. induction fuel as [|fuel IH]; intros probe HU Hf;
    cbn [lookupLoop]; destruct (Before probe through) eqn:Eb; cbn [negb]; time_prop;
    try (eexists; split; [done|]; intros m _ Hm; cbn; lia).
  { assert (0 <= (nanos through - nanos probe) / (1459 * Day)) by (apply Z.div_pos; [lia|done]). lia. }
  destruct (cr_IsValid backend expression probe) as [err|] eqn:EV.
  - destruct (co_none _ _ _ HB _ _ HU EV) as (-> & -> & Hno). cbn [negb].
    assert (toUTC probe = probe) as Ep by (destruct probe; cbn in *; by subst).
    rewrite Ep. pose proof (AddDate_bounds probe 4 ltac:(lia)) as Hb.
    pose proof (AddDate_mono probe 4) as Hm. replace (4 + 1) with 5 in Hm by lia.
    assert (0 < Day) by done.
    rewrite (proj2 (After_spec _ _)) by lia. cbn [negb].
    destruct (IH (AddDate probe 4)) as (r & Hr & HP).
    + unfold AddDate. destruct (monthDay _ _ _). done.
    + assert ((nanos through - nanos (AddDate probe 4)) / (1459 * Day) <=
              (nanos through - nanos probe) / (1459 * Day) - 1) as Hd.
      { replace ((nanos through - nanos probe) / (1459 * Day) - 1)
          with ((nanos through - nanos probe + (-1) * (1459 * Day)) / (1459 * Day))
          by (rewrite Z.div_add by done; lia).
        apply Z.div_le_mono; [done|]. lia. }
      assert (0 <= (nanos through - nanos probe) / (1459 * Day)) by (apply Z.div_pos; [lia|done]).
      set (q0 := _ / _) in *. set (q1 := (_ - nanos (AddDate _ _)) / _) in *. clearbody q0 q1. lia.
    + exists r. split; [done|]. unfold looked_up in *. destruct (snd r).
      * destruct HP as ((? & ?) & HM & Hleast). split; [lia|]. split; [done|].
        intros m Hm1 Hm2. specialize (Hno m Hm1 Hm2). apply Hleast; [done|lia].
      * intros m Hm1 Hm2. specialize (Hno m Hm1 Hm2). apply HP; [done|lia].
  - destruct (co_next _ _ _ HB _ HU EV) as (Hlt & HM & Hmin & Hleast).
    rewrite (proj2 (After_spec _ _)) by done. rewrite (proj2 (Z.eqb_eq _ _)) by done. cbn [negb orb].
    eexists. split; [done|]. unfold looked_up. cbn [fst snd].
    destruct (After (cr_Next backend expression probe) through) eqn:EA; time_prop; cbn [negb].
    + intros m Hm1 Hm2. specialize (Hleast m Hm1 Hm2). lia.
    + split; [lia|]. done.
Qed.

Lemma lookupBetween_correct after through :
  location after = UTC ->
  exists r, lookupBetween expression after through (Some backend) = Some (Ok r) /\
    looked_up (nanos after) (nanos through) r.
Proof. intros HU. apply lookupLoop_correct; [done|]. unfold lookupFuel. lia. Qed.
End lookup.

(** ** First realizations *)
Section zone.
Context (z : zone) (first : Z) (HZ : zone_ok z first).

Lemma realizationLoop_correct fuel candidate seen probe :
  nanos probe <= nanos candidate ->
  (forall u, nanos probe < u <= nanos candidate -> existsb (Z.eqb (zn_offset z u)) seen = true) ->
  (forall o, existsb (Z.eqb o) seen = true ->
     let a := wall z (nanos candidate) - o * Second in
     a < nanos candidate -> wall z a <> wall z (nanos candidate)) ->
  (Z.to_nat (nanos probe - first + 1) < fuel)%nat ->
  exists b, realizationLoop fuel candidate (wallPoint candidate z) z seen probe = Some (Ok b) /\
    (b = true <-> forall u, u < nanos candidate -> wall z u <> wall z (nanos candidate)).
Proof.
  revert seen probe. induction fuel as [|fuel IH]; intros seen probe Hp Hseen Hmiss Hf; [lia|].
  cbn [realizationLoop]. unfold offsetAt. set (o := zn_offset z (nanos probe)).
  set (alt := shiftSeconds (wallPoint candidate z) (- o)).
  assert (nanos alt = wall z (nanos candidate) - o * Second) as Halt.
  { unfold alt. rewrite shiftSeconds_nanos, wallPoint_nanos. lia. }
  destruct (negb (existsb (Z.eqb o) seen) && Before alt candidate && Equal (wallPoint alt z) (wallPoint candidate z)) eqn:Ehit.
  { bool_prop. time_prop. rewrite !wallPoint_nanos in *. exists false. split; [done|].
    split; [done|]. intros Hall. by destruct (Hall (nanos alt)). }
  set (seen' := if existsb (Z.eqb o) seen then seen else o :: seen).
  assert (existsb (Z.eqb o) seen' = true) as Ho.
  { unfold seen'. destruct (existsb (Z.eqb o) seen) eqn:E; [done|]. cbn. by rewrite Z.eqb_refl. }
  assert (forall u, existsb (Z.eqb (zn_offset z u)) seen = true -> existsb (Z.eqb (zn_offset z u)) seen' = true) as Hsub.
  { intros u Hu. unfold seen'. destruct (existsb (Z.eqb o) seen); [done|]. cbn. by rewrite Hu, orb_true_r. }
  assert (forall o', existsb (Z.eqb o') seen' = true ->
     let a := wall z (nanos candidate) - o' * Second in
     a < nanos candidate -> wall z a <> wall z (nanos candidate)) as Hmiss'.
  { intros o' Ho' a Ha Hw. unfold seen' in Ho'. destruct (existsb (Z.eqb o) seen) eqn:E; [by eapply Hmiss|].
    cbn in Ho'. apply orb_true_iff in Ho' as [->%Z.eqb_eq|Ho']; [|by eapply Hmiss].
    cbn in Ehit. fold a in Halt. rewrite (proj2 (Before_spec _ _)) in Ehit by lia. cbn in Ehit.
    apply Equal_false in Ehit. rewrite !wallPoint_nanos in Ehit. rewrite Halt in Ehit. done. }
  destruct (fst (zn_bounds z (nanos probe))) as [s|] eqn:Es.
  - destruct (zo_start _ _ HZ _ _ Es) as [Hs Hconst].
    assert (first <= nanos probe).
    { destruct (Z.lt_ge_cases (nanos probe) first) as [Hlt|]; [|done]. by rewrite (zo_first _ _ HZ _ Hlt) in Es. }
    rewrite (proj2 (Before_spec _ _)) by (cbn; unfold Nanosecond; lia). cbn [negb].
    apply IH; cbn [nanos UnixUTC]; unfold Nanosecond; [lia| |done|lia].
    intros u Hu. destruct (Z.le_gt_cases u (nanos probe)) as [Hle|Hgt].
    + rewrite Hconst by lia. done.
    + apply Hsub, Hseen. lia.
  - exists true. split; [done|]. split; [|done]. intros _ u Hu Hw.
    assert (existsb (Z.eqb (zn_offset z u)) seen' = true) as Hin.
    { destruct (Z.le_gt_cases u (nanos probe)) as [Hle|Hgt].
      - by rewrite (zo_begin _ _ HZ _ Es _ Hle).
      - apply Hsub, Hseen. lia. }
    apply (Hmiss' _ Hin); unfold wall in *; rewrite <- Hw;
      replace (u + zn_offset z u * Second - zn_offset z u * Second) with u by lia; done.
Qed.

Lemma firstRealization_correct fuel candidate :
  (Z.to_nat (nanos candidate - first + 1) < fuel)%nat ->
  exists b, firstRealization fuel candidate z = Some (Ok b) /\
    (b = true <-> forall u, u < nanos candidate -> wall z u <> wall z (nanos candidate)).
Proof. intros Hf. apply realizationLoop_correct; [lia| | |done]; [lia|done]. Qed.

(** ** Offset intervals *)
Lemma intervalUpper_correct cursor through :
  nanos cursor < nanos through ->
  let probe := Add cursor Nanosecond in
  exists upper, intervalUpper probe (snd (zn_bounds z (nanos probe))) through = Ok upper /\
    nanos cursor < nanos upper <= nanos through /\
    forall u, nanos cursor < u <= nanos upper -> zn_offset z u = offsetAt z probe.
Proof.
  intros Hlt probe. assert (nanos probe = nanos cursor + 1) as Hp by done.
  unfold intervalUpper, offsetAt. rewrite !Hp.
  assert (forall e, nanos cursor + 1 < e ->
    (forall u, nanos cursor + 1 <= u < e -> zn_offset z u = zn_offset z (nanos cursor + 1)) ->
    let upper := if e <=? nanos through then UnixUTC (e - Nanosecond) else through in
    nanos cursor < nanos upper <= nanos through /\
    forall u, nanos cursor < u <= nanos upper -> zn_offset z u = zn_offset z (nanos cursor + 1)) as Hbounded.
  { intros e He Hconst upper. unfold upper, Nanosecond. destruct (Z.leb_spec e (nanos through)); cbn [nanos UnixUTC].
    - split; [lia|]. intros u Hu. apply Hconst. lia.
    - split; [lia|]. intros u Hu. apply Hconst. lia. }
  destruct (snd (zn_bounds z (nanos cursor + 1))) as [e|] eqn:Ee.
  - destruct (Z.leb_spec e (nanos cursor + 1)) as [Hle|Hgt].
    + destruct (zo_tail _ _ HZ _ _ Ee Hle) as (Hleap & He & Hconst).
      change (UnixUTC (nanos cursor + 1)) with (toUTC probe) in *.
      assert (Year (toUTC probe) = Year probe) as EY by done. rewrite EY in *.
      rewrite AddDate_yearStart.
      pose proof (Year_bounds probe) as [HY1 HY2]. rewrite Hp in HY1, HY2.
      assert ((Sub (yearStart (Year probe + 1)) (yearStart (Year probe)) =? 366 * 24 * Hour) = true) as ->.
      { apply Z.eqb_eq. unfold Sub, yearStart; cbn [nanos UnixUTC]. rewrite daysBeforeYear_step, Hleap.
        replace ((daysBeforeYear (Year probe) + 366) * Day - daysBeforeYear (Year probe) * Day) with (366 * Day) by lia.
        done. }
      cbn [negb orb].
      rewrite (proj2 (Z.eqb_eq e _)) by (rewrite He; done). cbn [negb orb].
      rewrite (proj2 (Before_spec probe _)) by lia. cbn [negb].
      eexists. split; [done|]. apply Hbounded; [lia|done].
    + eexists. split; [done|]. apply Hbounded; [done|]. by apply (zo_end _ _ HZ).
  - eexists. split; [done|]. split; [lia|]. intros u Hu. apply (zo_forever _ _ HZ); [done|lia].
Qed.

(** ** The walk over intervals *)
Context (backend : cron) (expression : string) (M : Z -> Prop) (HB : cron_ok backend expression M).

(** The first eligible instant after [after], up to [through]. *)
Definition first_eligible (after through : Z) (r : result time) : Prop :=
  match r with
  | Ok t => location t = UTC /\ after < nanos t <= through /\ eligible z M (nanos t) /\
            forall u, after < u < nanos t -> ~ eligible z M u
  | Err e => e = Sentinel recurrence_ErrRangeExhausted /\
             forall u, after < u <= through -> ~ eligible z M u
  end.

Lemma first_eligible_later after after' through r :
  after <= after' -> (forall u, after < u <= after' -> ~ eligible z M u) ->
  first_eligible after' through r -> first_eligible after through r.
Proof.
  intros Hle Hno. destruct r as [t|e]; cbn.
  - intros (HU & Hr & He & Hl). split; [done|]. split; [lia|]. split; [done|]. intros u Hu.
    destruct (Z.le_gt_cases u after'); [apply Hno; lia|apply Hl; lia].
  - intros [-> Hl]. split; [done|]. intros u Hu.
    destruct (Z.le_gt_cases u after'); [apply Hno; lia|apply Hl; lia].
Qed.

Lemma nextInZone_correct back fuel cursor through :
  (Z.to_nat (nanos through - first + 1) < back)%nat ->
  (Z.to_nat (nanos through - nanos cursor) <= fuel)%nat ->
  exists r, nextInZone back fuel expression z cursor through (Some backend) = Some r /\
    first_eligible (nanos cursor) (nanos through) r.
Proof.
  intros Hback. revert cursor. induction fuel as [|fuel IH]; intros cursor Hf;
    cbn [nextInZone]; destruct (Before cursor through) eqn:Eb; cbn [negb]; time_prop;
    try (eexists; split; [done|]; split; [done|]; intros u Hu; lia).
  { lia. }
  destruct (intervalUpper_correct cursor through Eb) as (upper & -> & Hu & Hconst).
  set (o := offsetAt z (Add cursor Nanosecond)) in *.
  destruct (lookupBetween_correct backend expression M HB (shiftSeconds cursor o) (shiftSeconds upper o))
    as ([c found] & -> & HL); [done|].
  rewrite !shiftSeconds_nanos in HL. unfold looked_up in HL. cbn [fst snd] in HL.
  assert (forall u, nanos cursor < u <= nanos upper -> wall z u = u + o * Second) as Hwall.
  { intros u Hu'. unfold wall. by rewrite Hconst. }
  destruct found.
  - destruct HL as (Hc & HM & Hleast). set (actual := shiftSeconds c (- o)).
    assert (nanos actual = nanos c - o * Second) as Ha by (unfold actual; rewrite shiftSeconds_nanos; lia).
    rewrite (proj2 (After_spec _ _)) by lia. rewrite (proj2 (After_false _ _)) by lia.
    rewrite (proj2 (Equal_spec _ _)) by (rewrite wallPoint_nanos, Hwall by lia; lia). cbn [negb orb].
    destruct (firstRealization_correct back actual) as (b & -> & Hb); [lia|].
    assert (wall z (nanos actual) = nanos c) as Hwa by (rewrite Hwall by lia; lia).
    assert (forall u, nanos cursor < u < nanos actual -> ~ eligible z M u) as Hnone.
    { intros u Hu' [HMu _]. rewrite Hwall in HMu by lia. specialize (Hleast _ HMu). lia. }
    destruct b.
    + eexists. split; [done|]. cbn [first_eligible nanos toUTC location]. split; [done|]. split; [lia|].
      split; [|done]. split; [by rewrite Hwa|]. by apply Hb.
    + destruct (IH actual) as (r & -> & HR); [lia|]. exists r. split; [done|].
      apply (first_eligible_later _ (nanos actual)); [lia| |done].
      intros u Hu' He. destruct (Z.eq_dec u (nanos actual)) as [->|]; [|by apply (Hnone u); [lia|]].
      destruct He as [_ Hfirst]. assert (false = true) by (apply Hb; done). done.
  - rewrite (proj2 (After_spec _ _)) by lia. cbn [negb].
    destruct (IH upper) as (r & -> & HR); [lia|]. exists r. split; [done|].
    apply (first_eligible_later _ (nanos upper)); [lia| |done].
    intros u Hu' [HMu _]. rewrite Hwall in HMu by lia.
    assert (nanos upper + o * Second < u + o * Second) by (apply HL; [done|lia]). lia.
Qed.
End zone.

(** ** The theorem and a concrete schedule *)

(** C36: For an accepted expression and zone, [Next] always returns: the first
    instant strictly after the query whose wall clock is a matching minute at its
    first realization, with every earlier instant ineligible, or
    [ErrRangeExhausted] exactly when no instant of the supported range is
    eligible.  Nothing else, and no fault, comes out, for every zone table (folds,
    gaps, year-end tails) and every set of matching minutes. *)
Theorem Next_first_occurrence LoadLocation z first backend expression M zoneName after back fuel :
  validateGrammar expression = Ok tt -> namedLocation LoadLocation zoneName = Ok z ->
  zone_ok z first -> cron_ok backend expression M -> in_int64 (nanos after) ->
  (Z.to_nat (max_int64 - first + 1) < back)%nat -> (Z.to_nat (max_int64 - nanos after) <= fuel)%nat ->
  exists r, Next LoadLocation back fuel (Some backend) expression zoneName after = Some r /\
    first_eligible z M (nanos after) max_int64 r.
Proof.
  intros HG HN HZ HB HI Hb Hf. unfold Next. rewrite HG, HN.
  rewrite (proj2 (ValidateInstant_Ok _ _)) by (by split).
  exact (nextInZone_correct z first HZ backend expression M HB back fuel (toUTC after)
           (InstantFromUnixNanos max_int64) Hb Hf).
Qed.

(** A zone one hour east with one hour repeated at the tenth hour, and a backend for
    [0 * * * *]. *)
Definition foldZone : zone :=
  MkZone "Fold"
    (fun t => if t <? 10 * Hour then 3600 else 0)
    (fun t => if t <? 10 * Hour then (None, Some (10 * Hour)) else (Some (10 * Hour), None)).

Definition hourly : cron :=
  MkCron (fun _ _ => None) (fun _ p => UnixUTC ((nanos p / Hour + 1) * Hour)).

Lemma foldZone_ok : zone_ok foldZone 0.
Proof.
  split; cbn; intros t; destruct (Z.ltb_spec t (10 * Hour)); cbn; try done;
    intros; simplify_eq; try (split; [lia|]); intros;
    repeat match goal with |- context [?a <? ?b] => destruct (Z.ltb_spec a b) end; try done; try lia.
  exfalso. assert (0 < 10 * Hour) by done. lia.
Qed.

Lemma hourly_ok : cron_ok hourly "0 * * * *" (fun m => m mod Hour = 0).
Proof.
  split; [|done]. intros p _ _. cbn [cr_Next hourly nanos UnixUTC].
  pose proof (Z.div_mod (nanos p) Hour ltac:(done)). pose proof (Z.mod_pos_bound (nanos p) Hour ltac:(done)).
  split; [lia|]. split; [by apply Z.mod_mul|]. split.
  - replace ((nanos p / Hour + 1) * Hour) with ((nanos p / Hour + 1) * 60 * Minute) by (unfold Hour; lia).
    by apply Z.mod_mul.
  - intros m Hm Hlt. pose proof (Z.div_mod m Hour ltac:(done)).
    assert (nanos p / Hour < m / Hour) by (apply Z.div_lt_upper_bound || nia; done || nia). nia.
Qed.

Lemma hourly_grammar : validateGrammar "0 * * * *" = Ok tt.
Proof. vm_compute. reflexivity. Qed.

Lemma Next_first_occurrence_witness :
  exists back fuel r, Next (fun _ => Ok foldZone) back fuel (Some hourly) "0 * * * *" "Fold" (UnixUTC 0) = Some r /\
    first_eligible foldZone (fun m => m mod Hour = 0) (nanos (UnixUTC 0)) max_int64 r.
Proof.
  pose proof (fun back fuel => Next_first_occurrence (fun _ => Ok foldZone) foldZone 0 hourly "0 * * * *"
    (fun m => m mod Hour = 0) "Fold" (UnixUTC 0) back fuel hourly_grammar eq_refl foldZone_ok hourly_ok
    ltac:(split; vm_compute; discriminate)) as H.
  eexists _, _. eapply H; [apply Nat.lt_succ_diag_r|apply Nat.le_refl].
Defined.

(** The repeated hour fires once: after 09:00 UTC (wall 10:00) the next occurrence is
    11:00 UTC, because 10:00 UTC repeats the same wall clock. *)
Example fold_skips_repeat :
  Next (fun _ => Ok foldZone) 5 5 (Some hourly) "0 * * * *" "Fold" (UnixUTC (9 * Hour)) =
    Some (Ok (UnixUTC (11 * Hour))).
Proof. vm_compute. reflexivity. Qed.
