(* ===== verification/SchedRuntime.v ===== *)
(** * The scheduler loop

    [internal/scheduler/runtime]: the tick decision ([decision.go]), admission and
    claims ([admission.go]), observations and releases ([observation.go]), the scan
    ([scan.go]) and the loop that drains, scans and waits ([loop.go]).

    The loop is sequential; everything it talks to is an interface over a world
    [W]: the store, the clock, the task ID source and the context.  [W] may change
    in any way between two calls (other processes use the same store).  Workers are
    the jobs of [workers]; the step relation delivers their results in any order.
    [None] is a paging loop that used up its fuel. *)
From S2P Require Import Prelude GoErrors GoTime GoText TaskTypes Encoding SchedContract SchedRequest.

(** ** ports.go *)
Definition AdmissionLimit : Z := 4.
Definition ClaimWindow : Z := 5 * Second.
Definition IdleInterval : Z := Second.

Definition ErrRootIdentity : sentinel := runtime_ErrRootIdentity.
Definition ErrTaskCleanupUnresolved : sentinel := runtime_ErrTaskCleanupUnresolved.

Record DispatchRequest : Set := MkDispatchRequest {
  dr_TaskID : string;
  dr_Definition : ScheduleDefinition
}.

Record TaskState : Set := MkTaskState {
  ts_Observation : Observation;
  ts_Release : option Release
}.

Record Event : Set := MkEvent {
  ev_ScheduleID : string;
  ev_TaskID : string;
  ev_Phase : string;
  ev_Code : string
}.

(** [recurrence.Next], as the loop uses it; its law is what the loop relies on. *)
Class Recurrence : Type := {
  recurrence_Next : string -> string -> time -> result time;
  recurrence_Next_after cron zoneName after due :
    recurrence_Next cron zoneName after = Ok due ->
    location due = UTC /\ nanos after < nanos due <= max_int64
}.

(** The world: [contract.Store], [Clock.Now], [NewTaskID] and [ctx.Err]. *)
Class World (W : Type) : Type := {
  w_Now : W -> time * W;
  w_CtxErr : W -> option error * W;
  w_NewTaskID : W -> result string * W;
  w_ActiveOccurrences : ActivePage -> W -> result ActivePageResult * W;
  w_ListSchedules : SchedulePage -> W -> result SchedulePageResult * W;
  w_GetSchedule : string -> W -> result Schedule * W;
  w_GetOccurrence : string -> W -> result Occurrence * W;
  w_ClaimAndArm : Claim -> W -> (ClaimResult * option error) * W;
  w_RecordObservation : OccurrenceObservation -> W -> result unit * W;
  w_Release : OccurrenceRelease -> W -> result unit * W;
  w_RecordSkip : Skip -> W -> result unit * W
}.

(** ** decision.go *)
Record tickDecision : Set := MkTickDecision {
  td_due : time;
  td_skip : option SkipSpan;
  td_hold : bool
}.

Definition noDecision : tickDecision := MkTickDecision zero_time None false.

Record tickInput : Set := MkTickInput {
  ti_summary : ScheduleSummary;
  ti_startup : time;
  ti_now : time;
  ti_held : time;
  ti_active : option Occurrence;
  ti_admissionAvailable : bool
}.

Definition skippedTick (from to : time) (reason : SkipReason) : tickDecision :=
  MkTickDecision zero_time (Some (MkSkipSpan from to reason)) false.

Definition blockerReason (active : option Occurrence) : SkipReason :=
  match active with
  | None => SkipMissedUnavailable
  | Some o =>
      match oc_Observation o with
      | Some obs => if ob_Admission obs =? AdmissionAdmitted then SkipOverlapActive
                    else SkipBlockedUncertain
      | None => SkipBlockedUncertain
      end
  end.

Definition idle (active : option Occurrence) : bool :=
  match active with None => true | Some _ => false end.

Definition decideTick `{Recurrence} (input : tickInput) : result tickDecision :=
  let summary := ti_summary input in
  if negb (bool_decide (sm_State summary = StateEnabled)) then Ok noDecision
  else
    due ← recurrence_Next (dh_Cron (sm_Header summary)) (dh_Timezone (sm_Header summary))
            (sm_Cursor summary);
    if negb (After due (ti_startup input))
    then Ok (skippedTick (sm_Cursor summary) (ti_startup input) SkipMissedUnavailable)
    else if After due (ti_now input) then Ok noDecision
    else if negb (Before (ti_now input) (Add due ClaimWindow)) then
      if Equal due (ti_held input) then
        if idle (ti_active input) && negb (ti_admissionAvailable input)
        then Ok (skippedTick (sm_Cursor summary) due SkipMissedCapacity)
        else Ok (skippedTick (sm_Cursor summary) due (blockerReason (ti_active input)))
      else Ok (skippedTick (sm_Cursor summary) (Add (ti_now input) (- ClaimWindow)) SkipMissedUnavailable)
    else if idle (ti_active input) && negb (ti_admissionAvailable input)
    then Ok (skippedTick (sm_Cursor summary) due SkipMissedCapacity)
    else Ok (MkTickDecision due None (negb (idle (ti_active input)))).

Definition sameOccurrence (left right : Occurrence) : bool :=
  eqs (oc_TaskID left) (oc_TaskID right) && eqs (oc_ScheduleID left) (oc_ScheduleID right) &&
  Equal (oc_Due left) (oc_Due right) && Equal (oc_ArmedAt left) (oc_ArmedAt right).

Definition claimOccurrence (claim : Claim) : Occurrence :=
  MkOccurrence (cl_TaskID claim) (cl_ScheduleID claim) (cl_Due claim) (cl_ArmedAt claim) None None.

(** ** The loop's state and its monad *)

(** A goroutine of [l.workers]: a dispatch carries its request, an observation none. *)
Record worker : Set := MkWorker {
  wk_occurrence : Occurrence;
  wk_request : option DispatchRequest
}.

Definition wk_dispatch (k : worker) : bool :=
  match wk_request k with Some _ => true | None => false end.

Record taskResult : Set := MkTaskResult {
  tk_occurrence : Occurrence;
  tk_state : TaskState;
  tk_err : option error;
  tk_dispatch : bool
}.

(** [started] is every worker ever started; the code keeps no such list. *)
Record loop : Type := MkLoop {
  lp_startup : time;
  lp_live : gset string;
  lp_held : gmap string time;
  lp_admissions : Z;
  lp_reconciling : string;
  lp_selectionAfter : string;
  lp_idleAfter : string;
  lp_observedRound : gmap string Z;
  lp_observedDue : gmap string time;
  lp_observationRound : Z;
  lp_observationAt : time;
  lp_workers : list worker;
  lp_events : list Event;
  lp_started : list worker
}.

Definition newLoop (startup : time) : loop :=
  MkLoop startup ∅ ∅ 0 "" "" "" ∅ ∅ 0 zero_time [] [] [].

Definition set_live v l := MkLoop (lp_startup l) v (lp_held l) (lp_admissions l) (lp_reconciling l)
  (lp_selectionAfter l) (lp_idleAfter l) (lp_observedRound l) (lp_observedDue l)
  (lp_observationRound l) (lp_observationAt l) (lp_workers l) (lp_events l) (lp_started l).
Definition set_held v l := MkLoop (lp_startup l) (lp_live l) v (lp_admissions l) (lp_reconciling l)
  (lp_selectionAfter l) (lp_idleAfter l) (lp_observedRound l) (lp_observedDue l)
  (lp_observationRound l) (lp_observationAt l) (lp_workers l) (lp_events l) (lp_started l).
Definition set_admissions v l := MkLoop (lp_startup l) (lp_live l) (lp_held l) v (lp_reconciling l)
  (lp_selectionAfter l) (lp_idleAfter l) (lp_observedRound l) (lp_observedDue l)
  (lp_observationRound l) (lp_observationAt l) (lp_workers l) (lp_events l) (lp_started l).
Definition set_reconciling v l := MkLoop (lp_startup l) (lp_live l) (lp_held l) (lp_admissions l) v
  (lp_selectionAfter l) (lp_idleAfter l) (lp_observedRound l) (lp_observedDue l)
  (lp_observationRound l) (lp_observationAt l) (lp_workers l) (lp_events l) (lp_started l).
Definition set_selectionAfter v l := MkLoop (lp_startup l) (lp_live l) (lp_held l) (lp_admissions l)
  (lp_reconciling l) v (lp_idleAfter l) (lp_observedRound l) (lp_observedDue l)
  (lp_observationRound l) (lp_observationAt l) (lp_workers l) (lp_events l) (lp_started l).
Definition set_idleAfter v l := MkLoop (lp_startup l) (lp_live l) (lp_held l) (lp_admissions l)
  (lp_reconciling l) (lp_selectionAfter l) v (lp_observedRound l) (lp_observedDue l)
  (lp_observationRound l) (lp_observationAt l) (lp_workers l) (lp_events l) (lp_started l).
Definition set_observed r d l := MkLoop (lp_startup l) (lp_live l) (lp_held l) (lp_admissions l)
  (lp_reconciling l) (lp_selectionAfter l) (lp_idleAfter l) r d
  (lp_observationRound l) (lp_observationAt l) (lp_workers l) (lp_events l) (lp_started l).
Definition set_round n t l := MkLoop (lp_startup l) (lp_live l) (lp_held l) (lp_admissions l)
  (lp_reconciling l) (lp_selectionAfter l) (lp_idleAfter l) (lp_observedRound l) (lp_observedDue l)
  n t (lp_workers l) (lp_events l) (lp_started l).
Definition set_workers ws started l := MkLoop (lp_startup l) (lp_live l) (lp_held l) (lp_admissions l)
  (lp_reconciling l) (lp_selectionAfter l) (lp_idleAfter l) (lp_observedRound l) (lp_observedDue l)
  (lp_observationRound l) (lp_observationAt l) ws (lp_events l) started.
Definition add_event e l := MkLoop (lp_startup l) (lp_live l) (lp_held l) (lp_admissions l)
  (lp_reconciling l) (lp_selectionAfter l) (lp_idleAfter l) (lp_observedRound l) (lp_observedDue l)
  (lp_observationRound l) (lp_observationAt l) (lp_workers l) (lp_events l ++ [e]) (lp_started l).

(** [l.workers.Go] *)
Definition go (k : worker) (l : loop) : loop :=
  set_workers (lp_workers l ++ [k]) (lp_started l ++ [k]) l.

Definition M (W A : Type) : Type := loop -> W -> option (result A * loop * W).

Definition ret {W A} (r : result A) : M W A := fun l w => Some (r, l, w).
Definition andThen {W A B} (m : M W A) (f : A -> M W B) : M W B := fun l w =>
  match m l w with
  | Some (Ok a, l', w') => f a l' w'
  | Some (Err e, l', w') => Some (Err e, l', w')
  | None => None
  end.
(** A call whose error the caller inspects. *)
Definition attempt {W A} (m : M W A) : M W (result A) := fun l w =>
  match m l w with Some (r, l', w') => Some (Ok r, l', w') | None => None end.
Definition outOfFuel {W A} : M W A := fun _ _ => None.
(** A call of the world whose results are all returned. *)
Definition call {W A} (f : W -> A * W) : M W A := fun l w => let '(a, w') := f w in Some (Ok a, l, w').
(** A call of the world that returns Go's [(T, error)]. *)
Definition callE {W A} (f : W -> result A * W) : M W A := fun l w => let '(r, w') := f w in Some (r, l, w').
Definition modify {W} (f : loop -> loop) : M W unit := fun l w => Some (Ok tt, f l, w).
Definition get {W A} (f : loop -> A) : M W A := fun l w => Some (Ok (f l), l, w).
Definition ok {W A} (a : A) : M W A := ret (Ok a).
Definition raise {W A} (e : error) : M W A := ret (Err e).

Declare Scope loop_scope.
Delimit Scope loop_scope with loop.
Notation "x <- m ;; k" := (andThen m (fun x => k))
  (at level 100, m at next level, right associativity) : loop_scope.
Notation "m ;;; k" := (andThen m (fun _ => k)) (at level 100, right associativity) : loop_scope.

Definition storeError (operation : string) (err : error) : error :=
  Errorf ("scheduler " ++ operation) err.
Definition fault (msg : string) : error := Errorf msg (Sentinel task_ErrInvariantFault).

Section runtime.
Context `{Recurrence} {W : Type} `{World W}.
Context (DecodeStrict : string -> result Request).
#[local] Open Scope loop_scope.

Definition now : M W time := call w_Now.
Definition nowUTC : M W time := t <- now ;; ok (toUTC t).
Definition ctxErr : M W (option error) := call w_CtxErr.
Definition fromResult {A} (r : result A) : M W A := ret r.

(** [if err := ctx.Err(); err != nil { return err }] *)
Definition checkCtx : M W unit :=
  e <- ctxErr ;; match e with Some err => raise err | None => ok tt end.

Definition event (o : Occurrence) (phase code : string) : M W unit :=
  modify (add_event (MkEvent (oc_ScheduleID o) (oc_TaskID o) phase code)).

Definition scheduleEvent (id phase code : string) : M W unit :=
  modify (add_event (MkEvent id "" phase code)).

(** ** observation.go *)
Definition phaseOf (dispatch : bool) : string := if dispatch then "dispatch" else "observe".

Definition reportTaskError (result : taskResult) : M W unit :=
  match tk_err result with
  | None => ok tt
  | Some err =>
      event (tk_occurrence result) (phaseOf (tk_dispatch result)) "task_error" ;;;
      if errors_Is err ErrRootIdentity || errors_Is err ErrTaskCleanupUnresolved
      then raise (storeError (phaseOf (tk_dispatch result)) err) else ok tt
  end.

Definition readback (original : Occurrence) : M W Occurrence :=
  stored <- attempt (callE (w_GetOccurrence (oc_TaskID original))) ;;
  match stored with
  | Err e => raise (storeError "readback" e)
  | Ok stored =>
      if negb (sameOccurrence stored original) then raise (fault "changed occurrence identity")
      else ok stored
  end.

(** One attempt of [recordObservation]: [true] asks for the next one. *)
Definition observationAttempt (last : bool) (o : Occurrence) (observation : Observation) : M W bool :=
  r <- attempt (callE (w_RecordObservation (MkOccurrenceObservation (oc_TaskID o) observation))) ;;
  match r with
  | Ok _ => ok false
  | Err err =>
      stored <- readback o ;;
      if errors_Is err task_ErrInvariantFault then raise (storeError "observation" err)
      else if match oc_Observation stored with
              | Some seen => negb (Before (ob_ObservedAt seen) (ob_ObservedAt observation))
              | None => false
              end then ok false
      else if onlyCauses err [contract_ErrConflict]
      then event o "observe" "conflict" ;;; ok false
      else checkCtx ;;; if last : bool then raise (storeError "observation" err) else ok true
  end.

Definition recordObservation (o : Occurrence) (observation : Observation) : M W unit :=
  again <- observationAttempt false o observation ;;
  if again : bool then observationAttempt true o observation ;;; ok tt else ok tt.

Definition releaseAttempt (last : bool) (o : Occurrence) (release : Release) : M W bool :=
  checkCtx ;;;
  r <- attempt (callE (w_Release (MkOccurrenceRelease (oc_TaskID o) release))) ;;
  match r with
  | Ok _ => event o "release" (string_of_kind (rl_Kind release)) ;;; ok false
  | Err err =>
      stored <- readback o ;;
      if errors_Is err task_ErrInvariantFault then raise (storeError "release" err)
      else match oc_Release stored with
      | Some winner =>
          match CheckRepeatedRelease winner release with
          | Ok _ => ok false
          | Err _ => event o "release" "conflict" ;;; ok false
          end
      | None =>
          if last || onlyCauses err [contract_ErrConflict] then raise (storeError "release" err)
          else ok true
      end
  end.

Definition recordRelease (o : Occurrence) (release : Release) : M W unit :=
  again <- releaseAttempt false o release ;;
  if again : bool then releaseAttempt true o release ;;; ok tt else ok tt.

Definition finish (result : taskResult) : M W unit :=
  (if tk_dispatch result
   then modify (fun l => set_admissions (lp_admissions l - 1)
                           (set_live (lp_live l ∖ {[oc_TaskID (tk_occurrence result)]}) l))
   else modify (set_reconciling "")) ;;;
  let phase := phaseOf (tk_dispatch result) in
  let o := tk_occurrence result in
  let observed := ts_Observation (tk_state result) in
  reportTaskError result ;;;
  checkCtx ;;;
  if IsZero (ob_ObservedAt observed) then
    match tk_err result, ts_Release (tk_state result) with
    | Some _, None => ok tt
    | _, _ => raise (fault "missing task observation")
    end
  else
    fromResult (wrap_err (fun e => storeError "invalid observation" (Joined "" [Sentinel task_ErrInvariantFault; e]))
                  (ValidateObservation observed)) ;;;
    recordObservation o observed ;;;
    (if eqs (ob_FaultCode observed) "" then ok tt else event o phase (ob_FaultCode observed)) ;;;
    match ts_Release (tk_state result) with
    | Some release =>
        fromResult (wrap_err (fun e => storeError "invalid release" (Joined "" [Sentinel task_ErrInvariantFault; e]))
                      (ValidateRelease release)) ;;;
        recordRelease o release
    | None => event o phase "observed"
    end.

(** ** admission.go *)

(** [now.Before(due) || !now.Before(due.Add(ClaimWindow))] *)
Definition outsideWindow (at' due : time) : bool :=
  Before at' due || negb (Before at' (Add due ClaimWindow)).

Definition prepareCandidate (summary : ScheduleSummary) (due : time)
    : M W (option (Claim * ScheduleDefinition)) :=
  let id := dh_ScheduleID (sm_Header summary) in
  stored <- attempt (callE (w_GetSchedule id)) ;;
  match stored with
  | Err e => raise (Errorf "scheduler definition" e)
  | Ok schedule =>
      fromResult (ValidateSchedule DecodeStrict schedule) ;;;
      fromResult (VerifyDefinitionDigests DecodeStrict (sd_Definition schedule) (sm_Digests summary)) ;;;
      if negb (bool_decide (sd_State schedule = StateEnabled)) ||
         negb (Equal (sd_Cursor schedule) (sm_Cursor summary))
      then ok None
      else
        taskID <- attempt (callE w_NewTaskID) ;;
        match taskID with
        | Err e => raise (Errorf "scheduler task identity" e)
        | Ok taskID =>
            armedAt <- nowUTC ;;
            let claim := MkClaim id (sd_Cursor schedule) due taskID armedAt in
            fromResult (ValidateClaim claim) ;;;
            ok (Some (claim, sd_Definition schedule))
        end
  end.

Definition existingClaim (claim : Claim) (taskID : string) (claimErr : option error) : M W unit :=
  match claimErr with
  | Some e => raise (storeError "existing claim" e)
  | None =>
      stored <- attempt (callE (w_GetOccurrence taskID)) ;;
      match stored with
      | Err e => raise (storeError "existing claim readback" e)
      | Ok stored =>
          if negb (eqs (oc_ScheduleID stored) (cl_ScheduleID claim)) ||
             negb (Equal (oc_Due stored) (cl_Due claim))
          then raise (fault "conflicting existing occurrence") else ok tt
      end
  end.

(** [true] asks for a retry. *)
Definition resolveUnknown (claim : Claim) (claimErr : option error) : M W bool :=
  stored <- attempt (callE (w_GetOccurrence (cl_TaskID claim))) ;;
  match claimErr with
  | Some e =>
      if errors_Is e task_ErrInvariantFault then raise (storeError "claim" e) else ok tt
  | None => ok tt
  end ;;;
  match stored with
  | Ok stored =>
      if negb (sameOccurrence stored (claimOccurrence claim)) then raise (fault "conflicting claim readback")
      else event stored "claim" "uncertain_commit" ;;; ok false
  | Err readErr =>
      if negb (onlyCauses readErr [fs_ErrNotExist]) then raise (storeError "claim readback" readErr)
      else match claimErr with
      | None => raise (fault "unknown claim without error")
      | Some e =>
          if onlyCauses e [contract_ErrConflict]
          then callE (w_GetSchedule (cl_ScheduleID claim)) ;;; ok false
          else
            checkCtx ;;;
            t <- nowUTC ;;
            if outsideWindow t (cl_Due claim) then raise (storeError "claim" e) else ok true
      end
  end.

(** [(invoke, retry)] *)
Definition resolveClaim (claim : Claim) (result : ClaimResult) (claimErr : option error)
    : M W (bool * bool) :=
  match cr_Outcome result with
  | ClaimNewlyCommitted =>
      if match claimErr with Some _ => true | None => false end ||
         negb (eqs (cr_TaskID result) (cl_TaskID claim))
      then raise (fault "invalid newly committed claim result") else ok (true, false)
  | ClaimExisting => existingClaim claim (cr_TaskID result) claimErr ;;; ok (false, false)
  | ClaimUnknown => retry <- resolveUnknown claim claimErr ;; ok (false, retry)
  | ClaimOutcomeOther _ => raise (fault "invalid claim outcome")
  end.

Definition nilError : error := New "nil".

(** The loop of two attempts; [attempts] is how many are left. *)
Fixpoint claimLoop (attempts : nat) (claim : Claim) : M W bool :=
  match attempts with
  | O => raise (fault "claim resolution exhausted")
  | S rest =>
      r <- call (w_ClaimAndArm claim) ;;
      decision <- resolveClaim claim (fst r) (snd r) ;;
      if negb (snd decision) then ok (fst decision)
      else match rest with
           | O => raise (storeError "claim" (default nilError (snd r)))
           | S _ => claimLoop rest claim
           end
  end.

Definition claim (c : Claim) : M W bool := claimLoop 2 c.

(** The part of [admitDue] from [l.live[claim.TaskID] = true] on. *)
Definition armAndDispatch (c : Claim) (definition : ScheduleDefinition) : M W unit :=
  modify (fun l => set_admissions (lp_admissions l + 1) (set_live ({[cl_TaskID c]} ∪ lp_live l) l)) ;;;
  authorized <- attempt (claim c) ;;
  match authorized with
  | Ok true =>
      modify (fun l => set_selectionAfter (cl_ScheduleID c) (set_held (delete (cl_ScheduleID c) (lp_held l)) l)) ;;;
      event (claimOccurrence c) "claim" "armed" ;;;
      modify (go (MkWorker (claimOccurrence c) (Some (MkDispatchRequest (cl_TaskID c) definition))))
  | r =>
      modify (fun l => set_admissions (lp_admissions l - 1) (set_live (lp_live l ∖ {[cl_TaskID c]}) l)) ;;;
      match r with Ok _ => ok tt | Err e => raise e end
  end.

(** [loop.admit]. *)
Definition admitDue (summary : ScheduleSummary) (due : time) : M W unit :=
  candidate <- prepareCandidate summary due ;;
  match candidate with
  | None => ok tt
  | Some (c, definition) =>
      l <- get (fun l => l) ;;
      if bool_decide (cl_TaskID c ∈ lp_live l) || eqs (lp_reconciling l) (cl_TaskID c)
      then raise (fault "scheduler reused live task")
      else
        checkCtx ;;;
        t <- nowUTC ;;
        if outsideWindow t due then ok tt else armAndDispatch c definition
  end.

(** ** scan.go *)
Definition recordSkip (summary : ScheduleSummary) (span : SkipSpan) : M W unit :=
  let id := dh_ScheduleID (sm_Header summary) in
  r <- attempt (callE (w_RecordSkip (MkSkip id (sm_Cursor summary) span))) ;;
  match r with
  | Ok _ => scheduleEvent id "skip" (string_of_reason (ss_Reason span))
  | Err err =>
      stored <- attempt (callE (w_GetSchedule id)) ;;
      match stored with
      | Err readErr => raise (Errorf "scheduler skip readback" readErr)
      | Ok _ =>
          if onlyCauses err [contract_ErrConflict] then raise (Sentinel runtime_errSkipConflict)
          else raise (Errorf "scheduler skip" err)
      end
  end.

Definition setCursor (summary : ScheduleSummary) (cursor : time) : ScheduleSummary :=
  MkScheduleSummary (sm_Header summary) (sm_Digests summary) (sm_BriefLength summary)
    (sm_State summary) cursor.

(** [Some summary'] is [proceed], with the cursor the span moved. *)
Definition skipTick (summary : ScheduleSummary) (span : SkipSpan) : M W (option ScheduleSummary) :=
  r <- attempt (recordSkip summary span) ;;
  match r with
  | Err e => if errors_Is e runtime_errSkipConflict then ok None else raise e
  | Ok _ =>
      modify (fun l => set_held (delete (dh_ScheduleID (sm_Header summary)) (lp_held l)) l) ;;;
      ok (Some (setCursor summary (ss_To span)))
  end.

Definition heldAt (id : string) (l : loop) : time := default zero_time (lp_held l !! id).

(** The loop of [consider]: [turns] is 3 at first. The result marks a held task's
    priority. *)
Fixpoint considerLoop (turns : nat) (summary : ScheduleSummary) (prior : option Occurrence)
    : M W (option string) :=
  match turns with
  | O => ok None
  | S rest =>
      let id := dh_ScheduleID (sm_Header summary) in
      checkCtx ;;;
      t <- nowUTC ;;
      l <- get (fun l => l) ;;
      decision <- fromResult (wrap_err (Errorf "scheduler recurrence")
        (decideTick (MkTickInput summary (lp_startup l) t (heldAt id l) prior
                       (lp_admissions l <? AdmissionLimit)))) ;;
      match td_skip decision with
      | Some span =>
          proceed <- skipTick summary span ;;
          match proceed with
          | None => ok None
          | Some summary' => considerLoop rest summary' prior
          end
      | None =>
          if IsZero (td_due decision) then ok None
          else if td_hold decision then
            modify (fun l => set_held (<[id := td_due decision]> (lp_held l)) l) ;;;
            ok (oc_TaskID <$> prior)
          else admitDue summary (td_due decision) ;;; ok None
      end
  end.

Definition consider (summary : ScheduleSummary) (active : gmap string Occurrence) : M W (option string) :=
  fromResult (wrap_err (Errorf "scheduler metadata") (ValidateSummary DecodeStrict summary)) ;;;
  let id := dh_ScheduleID (sm_Header summary) in
  modify (fun l =>
    if negb (bool_decide (sm_State summary = StateEnabled)) || negb (After (heldAt id l) (sm_Cursor summary))
    then set_held (delete id (lp_held l)) l else l) ;;;
  considerLoop 3 summary (active !! id).

(** The schedules of one page, in order; [true] stops the range at [through]. *)
Fixpoint scanPage (schedules : list ScheduleSummary) (after through : string)
    (active : gmap string Occurrence) (priority : gset string)
    : M W (bool * string * gset string) :=
  match schedules with
  | [] => ok (false, after, priority)
  | summary :: rest =>
      let id := dh_ScheduleID (sm_Header summary) in
      if negb (eqs through "") && negb (String.leb id through) then ok (true, after, priority)
      else if String.leb id after then raise (fault "unordered schedule page")
      else
        mark <- consider summary active ;;
        scanPage rest id through active
          (match mark with Some taskID => {[taskID]} ∪ priority | None => priority end)
  end.

Fixpoint scanRange (fuel : nat) (after through : string) (active : gmap string Occurrence)
    (priority : gset string) : M W (gset string) :=
  match fuel with
  | O => outOfFuel
  | S fuel' =>
      checkCtx ;;;
      r <- attempt (callE (w_ListSchedules (MkSchedulePage after MaxPageLimit))) ;;
      match r with
      | Err e => raise (Errorf "scheduler list schedules" e)
      | Ok result =>
          s <- scanPage (spr_Schedules result) after through active priority ;;
          let '(stop, after', priority') := s in
          if stop : bool then ok priority'
          else if negb (spr_More result) then ok priority'
          else match spr_Schedules result with
               | [] => raise (fault "empty schedule continuation page")
               | _ => scanRange fuel' after' through active priority'
               end
      end
  end.

(** The occurrences of one active page, in order. *)
Fixpoint activePage (os : list Occurrence) (after : string) : result string :=
  match os with
  | [] => Ok after
  | o :: rest =>
      match ValidateOccurrence o with
      | Err e => Err (storeError "active occurrence" e)
      | Ok _ =>
          if String.leb (oc_ScheduleID o) after ||
             match oc_Release o with Some _ => true | None => false end
          then Err (fault "invalid active occurrence page")
          else activePage rest (oc_ScheduleID o)
      end
  end.

Fixpoint readActiveFrom (fuel : nat) (after : string) (found : list Occurrence) : M W (list Occurrence) :=
  match fuel with
  | O => outOfFuel
  | S fuel' =>
      checkCtx ;;;
      r <- attempt (callE (w_ActiveOccurrences (MkActivePage after MaxPageLimit))) ;;
      match r with
      | Err e => raise (Errorf "scheduler active occurrences" e)
      | Ok result =>
          after' <- fromResult (activePage (apr_Occurrences result) after) ;;
          let found' := found ++ apr_Occurrences result in
          if negb (apr_More result) then ok found'
          else match apr_Occurrences result with
               | [] => raise (fault "empty active continuation page")
               | _ => readActiveFrom fuel' after' found'
               end
      end
  end.

Definition readActive (fuel : nat) : M W (list Occurrence) := readActiveFrom fuel "" [].

Definition refreshObservationRound : M W unit :=
  t <- now ;;
  modify (fun l =>
    if IsZero (lp_observationAt l) || Before t (lp_observationAt l) ||
       (IdleInterval <=? Sub t (lp_observationAt l))
    then set_round (uint64 (lp_observationRound l + 1)) t l else l).

(** Whether the scan of [startObservation] takes this occurrence. *)
Definition observable (l : loop) (priority : gset string) (dueOnly : bool) (o : Occurrence) : bool :=
  let id := oc_TaskID o in
  let held := heldAt (oc_ScheduleID o) l in
  let freshDue := dueOnly && negb (Equal (default zero_time (lp_observedDue l !! id)) held) in
  negb (bool_decide (id ∈ lp_live l) || (dueOnly && negb (bool_decide (id ∈ priority)))) &&
  negb (match lp_observedRound l !! id with
        | Some round => (round =? lp_observationRound l) && negb freshDue
        | None => false
        end).

(** [sort.Search]: the first index whose element satisfies a monotone predicate. *)
Fixpoint sort_Search {A} (p : A -> bool) (l : list A) : nat :=
  match l with
  | [] => O
  | a :: l' => if p a then O else S (sort_Search p l')
  end.

(** [active[(start+offset)%len(active)]] for each offset in order. *)
Definition rotate (after : string) (active : list Occurrence) : list Occurrence :=
  let start := sort_Search (fun o => negb (String.leb (oc_ScheduleID o) after)) active in
  drop start active ++ take start active.

Definition observe (dueOnly : bool) (o : Occurrence) (l : loop) : loop :=
  go (MkWorker o None)
    (set_idleAfter (oc_ScheduleID o)
      (set_observed (<[oc_TaskID o := lp_observationRound l]> (lp_observedRound l))
         (if dueOnly then <[oc_TaskID o := heldAt (oc_ScheduleID o) l]> (lp_observedDue l)
          else lp_observedDue l)
         (set_reconciling (oc_TaskID o) l))).

Definition startObservation (active : list Occurrence) (priority : gset string) : M W unit :=
  l <- get (fun l => l) ;;
  if negb (eqs (lp_reconciling l) "") then ok tt
  else
    e <- ctxErr ;;
    match e with
    | Some _ => ok tt
    | None =>
        let candidates := rotate (lp_idleAfter l) active in
        match find (observable l priority true) candidates with
        | Some o => modify (observe true o)
        | None =>
            match find (observable l priority false) candidates with
            | Some o => modify (observe false o)
            | None => ok tt
            end
        end
    end.

Definition scan (fuel : nat) : M W unit :=
  refreshObservationRound ;;;
  active <- readActive fuel ;;
  let bySchedule := list_to_map ((fun o => (oc_ScheduleID o, o)) <$> reverse active) : gmap string Occurrence in
  let activeTasks := list_to_set (oc_TaskID <$> active) : gset string in
  modify (fun l => set_observed (filter (fun p => p.1 ∈ activeTasks) (lp_observedRound l))
                     (filter (fun p => p.1 ∈ activeTasks \/ lp_observedRound l !! p.1 = None) (lp_observedDue l)) l) ;;;
  after <- get lp_selectionAfter ;;
  priority <- scanRange fuel after "" bySchedule ∅ ;;
  priority' <- (if eqs after "" then ok priority else scanRange fuel "" after bySchedule priority) ;;
  startObservation active priority'.

(** ** loop.go *)

(** [wait] when the waker or the context ends it. *)
Definition waitEnded (waited : option error) : M W unit :=
  match waited with Some e => raise e | None => ok tt end.

(** [wait] when a result arrives first and the joined wait returned [waited]. *)
Definition waitResult (waited : option error) (result : taskResult) : M W unit :=
  if negb (cancellationOnly waited)
  then r <- attempt (reportTaskError result) ;;
       raise (default nilError (errors_Join [waited; err_of r]))
  else finish result.

(** [settledErrors] over the results that arrived before the workers were joined. *)
Fixpoint settledErrors (results : list taskResult) (faults : option error) : M W (option error) :=
  match results with
  | [] => ok faults
  | result :: rest =>
      r <- attempt (reportTaskError result) ;;
      settledErrors rest (errors_Join [faults; err_of r])
  end.

(** Where the loop is; [Stopped] carries the error of [run]. *)
Inductive phase : Type := Top | Draining | Waiting | Stopped (err : option error).

Record machine : Type := MkMachine { ma_loop : loop; ma_world : W; ma_phase : phase }.

(** A worker leaves [workers] with its result. *)
Inductive delivers (k : worker) (result : taskResult) : loop -> loop -> Prop :=
| delivers_intro l ws1 ws2 :
    lp_workers l = ws1 ++ k :: ws2 ->
    tk_occurrence result = wk_occurrence k -> tk_dispatch result = wk_dispatch k ->
    delivers k result l (set_workers (ws1 ++ ws2) (lp_started l) l).

Definition next_phase (r : result unit) (p : phase) : phase :=
  match r with Ok _ => p | Err e => Stopped (Some e) end.

(** [run]: drain, scan, wait, until the context ends or a step fails.  [interferes]
    is what other processes may do to the world between two steps. *)
Inductive step (interferes : W -> W -> Prop) : machine -> machine -> Prop :=
| step_top l w e w' :
    w_CtxErr w = (e, w') ->
    step interferes (MkMachine l w Top)
      (MkMachine l w' (match e with None => Draining | Some _ => Stopped None end))
| step_drain k result l l0 w r l' w' :
    delivers k result l l0 -> finish result l0 w = Some (r, l', w') ->
    step interferes (MkMachine l w Draining) (MkMachine l' w' (next_phase r Draining))
| step_scan fuel l w r l' w' :
    scan fuel l w = Some (r, l', w') ->
    step interferes (MkMachine l w Draining) (MkMachine l' w' (next_phase r Waiting))
| step_wake waited l w r l' w' :
    waitEnded waited l w = Some (r, l', w') ->
    step interferes (MkMachine l w Waiting) (MkMachine l' w' (next_phase r Top))
| step_result waited k result l l0 w r l' w' :
    delivers k result l l0 -> waitResult waited result l0 w = Some (r, l', w') ->
    step interferes (MkMachine l w Waiting) (MkMachine l' w' (next_phase r Top))
| step_other l w w' p :
    interferes w w' -> step interferes (MkMachine l w p) (MkMachine l w' p).

(** [Run] from a startup instant it accepted. *)
Inductive runs (interferes : W -> W -> Prop) (startup : time) (w0 : W) : machine -> Prop :=
| runs_start : ValidateInstant "scheduler startup" startup = Ok tt ->
    runs interferes startup w0
      (MkMachine (add_event (MkEvent "" "" "runtime" "ready") (newLoop startup)) w0 Top)
| runs_step m m' : runs interferes startup w0 m -> step interferes m m' -> runs interferes startup w0 m'.

(** What [Run] returns for the error of [run], the context and the settled faults. *)
Definition runResult (err ctx settled : option error) : option error :=
  let runErr := match ctx with
                | Some _ => if cancellationOnly err then None else err
                | None => err
                end in
  errors_Join [runErr; settled].
End runtime.
