(* ===== verification/SchedRuntimeInv.v ===== *)
(** * Invariants of the scheduler loop

    A small Hoare logic for the loop's monad, the invariant that ties the loop's
    bookkeeping to the workers in flight, and the contract of the world
    ([WorldLaws]) under which no due time is dispatched twice. *)
From S2P Require Import Prelude GoErrors GoTime GoText TaskTypes Encoding SchedContract SchedRequest.
From S2P Require Import SchedRuntime.

(** ** A Hoare logic of partial correctness

    [P] holds before, [Q r] after a run that ends with [r]. *)
Definition triple {W A} (P : loop -> W -> Prop) (m : M W A) (Q : result A -> loop -> W -> Prop) : Prop :=
  forall l w r l' w', P l w -> m l w = Some (r, l', w') -> Q r l' w'.

Definition keeps {W A} (P : loop -> W -> Prop) (m : M W A) : Prop := triple P m (fun _ => P).

Lemma andThen_Some {W A B} (m : M W A) (f : A -> M W B) l w r l' w' :
  andThen m f l w = Some (r, l', w') ->
  (exists e, m l w = Some (Err e, l', w') /\ r = Err e) \/
  (exists a l1 w1, m l w = Some (Ok a, l1, w1) /\ f a l1 w1 = Some (r, l', w')).
Proof.
  unfold andThen. destruct (m l w) as [[[[a|e] l1] w1]|]; [|intros [= <- <- <-]|done]; eauto 10.
Qed.

Lemma triple_andThen {W A B} P (m : M W A) R (f : A -> M W B) Q :
  triple P m R -> (forall a, triple (fun l w => R (Ok a) l w) (f a) Q) ->
  (forall e l w, R (Err e) l w -> Q (Err e) l w) -> triple P (andThen m f) Q.
Proof.
  intros Hm Hf He l w r l' w' HP [(e & Hr & ->)|(a & l1 & w1 & Hr & Hk)]%andThen_Some.
  - apply He. by eapply Hm.
  - eapply Hf; [|exact Hk]. by eapply Hm.
Qed.

Section keeps.
Context {W : Type} (P : loop -> W -> Prop).

Lemma keeps_andThen {A B} (m : M W A) (f : A -> M W B) :
  keeps P m -> (forall a, keeps P (f a)) -> keeps P (andThen m f).
Proof. intros Hm Hf. eapply triple_andThen; [exact Hm|exact Hf|done]. Qed.

Lemma keeps_attempt {A} (m : M W A) : keeps P m -> keeps P (attempt m).
Proof.
  intros Hm l w r l' w' HP. unfold attempt. destruct (m l w) as [[[r1 l1] w1]|] eqn:E; [|done].
  intros [= <- <- <-]. by eapply Hm.
Qed.

Lemma keeps_ret {A} (r : result A) : keeps P (ret r).
Proof. intros l w r' l' w' HP [= <- <- <-]. done. Qed.

Lemma keeps_get {A} (f : loop -> A) : keeps P (get f).
Proof. intros l w r' l' w' HP [= <- <- <-]. done. Qed.

Lemma keeps_modify (f : loop -> loop) : (forall l w, P l w -> P (f l) w) -> keeps P (modify f).
Proof. intros Hf l w r' l' w' HP [= <- <- <-]. auto. Qed.

Lemma keeps_call {A} (f : W -> A * W) :
  (forall l w, P l w -> P l (snd (f w))) -> keeps P (call f).
Proof.
  intros Hf l w r l' w' HP. unfold call. destruct (f w) as [a w1] eqn:E. intros [= <- <- <-].
  specialize (Hf _ _ HP). by rewrite E in Hf.
Qed.

Lemma keeps_callE {A} (f : W -> result A * W) :
  (forall l w, P l w -> P l (snd (f w))) -> keeps P (callE f).
Proof.
  intros Hf l w r l' w' HP. unfold callE. destruct (f w) as [a w1] eqn:E. intros [= <- <- <-].
  specialize (Hf _ _ HP). by rewrite E in Hf.
Qed.
End keeps.

(** ** The tick decision *)

(** An admission decision: the schedule is enabled, nothing of it is active, there is
    capacity, and now is within the claim window of a due time after startup. *)
Lemma decideTick_admits `{Recurrence} input d :
  decideTick input = Ok d -> td_skip d = None -> IsZero (td_due d) = false -> td_hold d = false ->
  sm_State (ti_summary input) = StateEnabled /\ ti_admissionAvailable input = true /\
  ti_active input = None /\
  nanos (sm_Cursor (ti_summary input)) < nanos (td_due d) /\
  nanos (ti_startup input) < nanos (td_due d) <= nanos (ti_now input) /\
  nanos (ti_now input) < nanos (td_due d) + ClaimWindow.
Proof.
  unfold decideTick. case_bool_decide as Hs; cbn [negb]; [|by intros [= <-]].
  destruct (recurrence_Next _ _ _) as [due|e] eqn:En; [|done]. cbn [mbind result_bind].
  apply recurrence_Next_after in En as (_ & Hc & _).
  destruct (After due (ti_startup input)) eqn:E1; cbn [negb]; [|by intros [= <-]].
  destruct (After due (ti_now input)) eqn:E2; [by intros [= <-]|].
  destruct (Before (ti_now input) (Add due ClaimWindow)) eqn:E3; cbn [negb].
  2: { destruct (Equal _ _); [destruct (_ && _)|]; by intros [= <-]. }
  destruct (idle (ti_active input)) eqn:Ei; cbn [andb negb].
  - destruct (ti_admissionAvailable input) eqn:Ea; cbn [negb]; [|by intros [= <-]].
    intros [= <-] _ _ _. cbn [td_due]. time_prop. cbn [nanos Add] in *.
    destruct (ti_active input); [done|]. split_and!; try done; lia.
  - by intros [= <-] _ _ ?.
Qed.

Create HintDb loop_keeps.
#[export] Hint Resolve keeps_ret keeps_get keeps_attempt : loop_keeps.

(** Walk down a computation, one construct at a time. *)
Ltac keep_step :=
  match goal with
  | |- keeps _ (andThen _ _) => apply keeps_andThen; [|intros ?]
  | |- keeps _ (attempt _) => apply keeps_attempt
  | |- keeps _ (ret _) => apply keeps_ret
  | |- keeps _ (ok _) => apply keeps_ret
  | |- keeps _ (raise _) => apply keeps_ret
  | |- keeps _ (fromResult _) => apply keeps_ret
  | |- keeps _ (get _) => apply keeps_get
  | |- keeps _ (match ?x with _ => _ end) => destruct x
  end.
Ltac keep := repeat keep_step; eauto with loop_keeps.

(** A property of the loop alone is kept by every call of the world, and by an event. *)
Definition local {W} (P : loop -> Prop) : loop -> W -> Prop := fun l _ => P l.
Definition event_blind (P : loop -> Prop) : Prop := forall e l, P l -> P (add_event e l).

(** What a step of the bookkeeping can see: everything but events, marks of
    observation rounds and scan positions. *)
Definition core (l : loop) := (lp_live l, lp_admissions l, lp_reconciling l, lp_workers l, lp_started l).
Definition core_only (P : loop -> Prop) : Prop := forall l l', core l = core l' -> P l -> P l'.

Section bookkeeping.
Context `{Recurrence} {W : Type} `{World W}.
Context (DecodeStrict : string -> result Request).
Context (P : loop -> W -> Prop).

(** Every call of the world other than a claim keeps [P]; [P] sees only the core. *)
Record environment : Prop := {
  ev_core l l' w : core l = core l' -> P l w -> P l' w;
  ev_Now l w : P l w -> P l (snd (w_Now w));
  ev_CtxErr l w : P l w -> P l (snd (w_CtxErr w));
  ev_NewTaskID l w : P l w -> P l (snd (w_NewTaskID w));
  ev_Active p l w : P l w -> P l (snd (w_ActiveOccurrences p w));
  ev_List p l w : P l w -> P l (snd (w_ListSchedules p w));
  ev_Get id l w : P l w -> P l (snd (w_GetSchedule id w));
  ev_GetOccurrence id l w : P l w -> P l (snd (w_GetOccurrence id w));
  ev_Observe o l w : P l w -> P l (snd (w_RecordObservation o w));
  ev_Release o l w : P l w -> P l (snd (w_Release o w));
  ev_Skip k l w : P l w -> P l (snd (w_RecordSkip k w))
}.

Context (E : environment).

Lemma keeps_core (f : loop -> loop) : (forall l, core l = core (f l)) -> keeps P (modify f).
Proof. intros Hf. apply keeps_modify. intros l w. by apply (ev_core E). Qed.

Lemma keeps_now : keeps P now.
Proof. apply keeps_call, (ev_Now E). Qed.
Lemma keeps_nowUTC : keeps P nowUTC.
Proof. unfold nowUTC. keep. apply keeps_now. Qed.
Lemma keeps_ctxErr : keeps P ctxErr.
Proof. apply keeps_call, (ev_CtxErr E). Qed.
Lemma keeps_checkCtx : keeps P checkCtx.
Proof. unfold checkCtx. keep. apply keeps_ctxErr. Qed.
Lemma keeps_event o ph c : keeps P (event o ph c).
Proof. by apply keeps_core. Qed.
Lemma keeps_scheduleEvent o ph c : keeps P (scheduleEvent o ph c).
Proof. by apply keeps_core. Qed.
Lemma keeps_GetSchedule id : keeps P (callE (w_GetSchedule id)).
Proof. apply keeps_callE, (ev_Get E). Qed.
Lemma keeps_GetOccurrence id : keeps P (callE (w_GetOccurrence id)).
Proof. apply keeps_callE, (ev_GetOccurrence E). Qed.
Lemma keeps_NewTaskID : keeps P (callE w_NewTaskID).
Proof. apply keeps_callE, (ev_NewTaskID E). Qed.
Lemma keeps_RecordObservation o : keeps P (callE (w_RecordObservation o)).
Proof. apply keeps_callE, (ev_Observe E). Qed.
Lemma keeps_Release o : keeps P (callE (w_Release o)).
Proof. apply keeps_callE, (ev_Release E). Qed.
Lemma keeps_RecordSkip k : keeps P (callE (w_RecordSkip k)).
Proof. apply keeps_callE, (ev_Skip E). Qed.
Lemma keeps_List p : keeps P (callE (w_ListSchedules p)).
Proof. apply keeps_callE, (ev_List E). Qed.
Lemma keeps_Active p : keeps P (callE (w_ActiveOccurrences p)).
Proof. apply keeps_callE, (ev_Active E). Qed.

#[local] Hint Resolve keeps_now keeps_nowUTC keeps_ctxErr keeps_checkCtx keeps_event keeps_scheduleEvent
  keeps_GetSchedule keeps_GetOccurrence keeps_NewTaskID keeps_RecordObservation keeps_Release
  keeps_RecordSkip keeps_List keeps_Active : loop_keeps.

Lemma keeps_reportTaskError r : keeps P (reportTaskError r).
Proof. unfold reportTaskError. keep. Qed.
Lemma keeps_readback o : keeps P (readback o).
Proof. unfold readback. keep. Qed.
#[local] Hint Resolve keeps_reportTaskError keeps_readback : loop_keeps.

Lemma keeps_recordObservation o obs : keeps P (recordObservation o obs).
Proof. unfold recordObservation, observationAttempt. keep. Qed.
Lemma keeps_recordRelease o l : keeps P (recordRelease o l).
Proof. unfold recordRelease, releaseAttempt. keep. Qed.
Lemma keeps_prepareCandidate s due : keeps P (prepareCandidate DecodeStrict s due).
Proof. unfold prepareCandidate. keep. Qed.
Lemma keeps_resolveClaim c r e : keeps P (resolveClaim c r e).
Proof. unfold resolveClaim, existingClaim, resolveUnknown. keep. Qed.
Lemma keeps_skipTick s span : keeps P (skipTick s span).
Proof. unfold skipTick, recordSkip. keep. by apply keeps_core. Qed.
Lemma keeps_refresh : keeps P refreshObservationRound.
Proof. unfold refreshObservationRound. keep. apply keeps_core. intros l. by destruct (_ || _). Qed.
Lemma keeps_readActive fuel after found : keeps P (readActiveFrom fuel after found).
Proof.
  revert after found. induction fuel as [|fuel IH]; intros; [by intros ?|]. cbn [readActiveFrom]. keep.
Qed.

(** The rest of the loop keeps [P] when an admission with spare capacity does. *)
Context (Hadmit : forall s due,
  triple (fun l w => P l w /\ lp_admissions l < AdmissionLimit) (admitDue DecodeStrict s due) (fun _ => P)).

Lemma keeps_considerLoop turns s prior : keeps P (considerLoop DecodeStrict turns s prior).
Proof.
  revert s. induction turns as [|turns IH]; intros; cbn [considerLoop]; [keep|].
  apply keeps_andThen; [keep|intros _]. apply keeps_andThen; [keep|intros t].
  intros l w r l' w' HP. unfold get at 1, andThen at 1, fromResult, andThen at 1.
  unfold ret at 1. destruct (decideTick _) as [d|e] eqn:Ed; cbn [wrap_err]; [|by intros [= <- <- <-]].
  destruct (td_skip d) eqn:Es.
  - revert HP. generalize l, w, r, l', w'. change (keeps P
      (proceed <- skipTick s s0 ;; match proceed with None => ok None
       | Some summary' => considerLoop DecodeStrict turns summary' prior end)%loop).
    keep. apply keeps_skipTick.
  - destruct (IsZero (td_due d)) eqn:Ez; [by intros [= <- <- <-]|].
    destruct (td_hold d) eqn:Eh.
    + intros [= <- <- <-]. by apply (ev_core E l).
    + intros Hr. destruct (decideTick_admits _ _ Ed Es Ez Eh) as (_ & Ha & _).
      cbn in Ha. apply Z.ltb_lt in Ha.
      apply andThen_Some in Hr as [(e & Hr & ->)|([] & l1 & w1 & Hr & Hk)].
      * by apply (Hadmit _ _ _ _ _ _ _ (conj HP Ha)) in Hr.
      * injection Hk as <- <- <-. by apply (Hadmit _ _ _ _ _ _ _ (conj HP Ha)) in Hr.
Qed.

Lemma keeps_consider s active : keeps P (consider DecodeStrict s active).
Proof.
  unfold consider. keep; [|apply keeps_considerLoop]. apply keeps_core. intros l. by destruct (_ || _).
Qed.

Lemma keeps_scanPage ss after through active prio : keeps P (scanPage DecodeStrict ss after through active prio).
Proof.
  revert after prio. induction ss as [|s ss IH]; intros; cbn [scanPage]; keep. apply keeps_consider.
Qed.

Lemma keeps_scanRange fuel after through active prio : keeps P (scanRange DecodeStrict fuel after through active prio).
Proof.
  revert after prio. induction fuel as [|fuel IH]; intros; [by intros ?|]. cbn [scanRange]. keep.
  apply keeps_scanPage.
Qed.
End bookkeeping.
