(* ===== verification/SchedRuntimeSafety.v ===== *)
(** * Safety of the scheduler loop

    What the world promises about claims ([WorldLaws]), the loop's bookkeeping
    invariant, and both over every reachable state of the loop. *)
From S2P Require Import Prelude GoErrors GoTime GoText TaskTypes Encoding SchedContract SchedRequest.
From S2P Require Import SchedRuntime SchedRuntimeInv.

(** ** What the loop relies on

    [wl_claimed w s d]: the store accounts for due time [d] of schedule [s].  No call
    forgets a claim, and a claim that authorizes an invocation is for a due time
    that was not yet claimed. *)
Class WorldLaws (W : Type) `{World W} : Type := {
  wl_inv : W -> Prop;
  wl_claimed : W -> string -> Z -> Prop;
  wl_evolves : W -> W -> Prop := fun w w' =>
    wl_inv w -> wl_inv w' /\ forall s d, wl_claimed w s d -> wl_claimed w' s d;
  wl_Now w : wl_evolves w (snd (w_Now w));
  wl_CtxErr w : wl_evolves w (snd (w_CtxErr w));
  wl_NewTaskID w : wl_evolves w (snd (w_NewTaskID w));
  wl_Active p w : wl_evolves w (snd (w_ActiveOccurrences p w));
  wl_List p w : wl_evolves w (snd (w_ListSchedules p w));
  wl_Get id w : wl_evolves w (snd (w_GetSchedule id w));
  wl_GetOccurrence id w : wl_evolves w (snd (w_GetOccurrence id w));
  wl_Observe o w : wl_evolves w (snd (w_RecordObservation o w));
  wl_Release o w : wl_evolves w (snd (w_Release o w));
  wl_Skip k w : wl_evolves w (snd (w_RecordSkip k w));
  wl_Claim c w : wl_evolves w (snd (w_ClaimAndArm c w));
  wl_authorize c w : wl_inv w -> AuthorizesInvocation (fst (fst (w_ClaimAndArm c w))) = true ->
    ~ wl_claimed w (cl_ScheduleID c) (nanos (cl_Due c)) /\
    wl_claimed (snd (w_ClaimAndArm c w)) (cl_ScheduleID c) (nanos (cl_Due c))
}.

(** ** The bookkeeping of workers *)
Definition wk_task (k : worker) : string := oc_TaskID (wk_occurrence k).
Definition dispatching (ws : list worker) : list worker := List.filter wk_dispatch ws.
Definition observing (ws : list worker) : list worker := List.filter (fun k => negb (wk_dispatch k)) ws.

#[global] Arguments dispatching _ : simpl never.
#[global] Arguments observing _ : simpl never.

(** The schedule and due time a worker was started for. *)
Definition wk_key (k : worker) : string * Z :=
  (oc_ScheduleID (wk_occurrence k), nanos (oc_Due (wk_occurrence k))).

Record bookkeeping (l : loop) : Prop := {
  bk_live : lp_live l = list_to_set (wk_task <$> dispatching (lp_workers l));
  bk_unique : NoDup (wk_task <$> dispatching (lp_workers l));
  bk_admissions : lp_admissions l = Z.of_nat (length (dispatching (lp_workers l)));
  bk_limit : lp_admissions l <= AdmissionLimit;
  bk_reconciling : wk_task <$> observing (lp_workers l) =
                   if eqs (lp_reconciling l) "" then [] else [lp_reconciling l];
  bk_apart : lp_reconciling l <> ""%string -> lp_reconciling l ∉ lp_live l
}.

Section safety.
Context `{Recurrence} {W : Type} `{WorldLaws W}.
Context (DecodeStrict : string -> result Request).
#[local] Open Scope loop_scope.

(** Every dispatch ever started was for a claimed due time, each for its own. *)
Definition dispatched_once (l : loop) (w : W) : Prop :=
  wl_inv w /\ NoDup (wk_key <$> dispatching (lp_started l)) /\
  forall k, k ∈ dispatching (lp_started l) -> wl_claimed w (fst (wk_key k)) (snd (wk_key k)).

Definition safe (l : loop) (w : W) : Prop := bookkeeping l /\ dispatched_once l w.

(** ** What the calls of the world keep *)
Lemma dispatched_evolves l w w' : wl_evolves w w' -> dispatched_once l w -> dispatched_once l w'.
Proof.
  intros Ev (Hi & Hn & Hc). destruct (Ev Hi) as [Hi' Hmono]. split; [done|]. split; [done|].
  intros k Hk. by apply Hmono, Hc.
Qed.

Lemma core_eq l l' : core l = core l' ->
  lp_live l = lp_live l' /\ lp_admissions l = lp_admissions l' /\ lp_reconciling l = lp_reconciling l' /\
  lp_workers l = lp_workers l' /\ lp_started l = lp_started l'.
Proof. unfold core. intros E. by injection E. Qed.

Lemma bookkeeping_core l l' : core l = core l' -> bookkeeping l -> bookkeeping l'.
Proof.
  intros (E1 & E2 & E3 & E4 & E5)%core_eq [B1 B2 B3 B4 B5 B6].
  split; rewrite <- ?E1, <- ?E2, <- ?E3, <- ?E4; done.
Qed.

Lemma dispatched_core l l' w : core l = core l' -> dispatched_once l w -> dispatched_once l' w.
Proof. intros (_ & _ & _ & _ & E)%core_eq. unfold dispatched_once. by rewrite E. Qed.

(** A property of the core beside [dispatched_once] is kept by the environment. *)
Lemma environment_of (P : loop -> Prop) :
  (forall l l', core l = core l' -> P l -> P l') ->
  environment (fun l w => P l /\ dispatched_once l w).
Proof.
  intros HP. split; try (intros; rename select (_ /\ _) into HH; destruct HH as [HPl HD]; split; [done|]).
  1: { intros l l' w E [HPl HD]. split; [by apply (HP l)|by apply (dispatched_core l)]. }
  all: (eapply dispatched_evolves; [|exact HD]).
  - apply wl_Now.
  - apply wl_CtxErr.
  - apply wl_NewTaskID.
  - apply wl_Active.
  - apply wl_List.
  - apply wl_Get.
  - apply wl_GetOccurrence.
  - apply wl_Observe.
  - apply wl_Release.
  - apply wl_Skip.
Qed.

Lemma safe_environment : environment safe.
Proof. apply environment_of, bookkeeping_core. Qed.

(** ** Claims *)

(** [resolveClaim] lets the caller invoke only on a committed claim of its own task. *)
Lemma resolveClaim_invoke c r e l w b l' w' :
  resolveClaim c r e l w = Some (Ok (true, b), l', w') ->
  cr_Outcome r = ClaimNewlyCommitted /\ e = None /\ cr_TaskID r = cl_TaskID c.
Proof.
  unfold resolveClaim. destruct (cr_Outcome r).
  - intros [(? & _ & ?)|(a & l1 & w1 & _ & Hr)]%andThen_Some; [done|]. by injection Hr.
  - intros [(? & _ & ?)|(a & l1 & w1 & _ & Hr)]%andThen_Some; [done|]. by injection Hr.
  - destruct e as [e|]; cbn [orb]; [done|]. destruct (eqs _ _) eqn:E; cbn [negb]; [|done].
    intros _. by apply eqs_true in E.
  - done.
Qed.

Lemma ClaimAndArm_keeps l w c :
  dispatched_once l w -> dispatched_once l (snd (w_ClaimAndArm c w)).
Proof. apply dispatched_evolves, wl_Claim. Qed.

(** An authorized claim is for a due time no earlier dispatch was for. *)
Definition fresh_claim (c : Claim) (l : loop) (w : W) : Prop :=
  wl_claimed w (cl_ScheduleID c) (nanos (cl_Due c)) /\
  (cl_ScheduleID c, nanos (cl_Due c)) ∉ wk_key <$> dispatching (lp_started l).

Lemma claimLoop_fresh (P : loop -> Prop) (HP : forall l l', core l = core l' -> P l -> P l') n c :
  triple (fun l w => P l /\ dispatched_once l w) (claimLoop n c)
    (fun r l w => (P l /\ dispatched_once l w) /\ (r = Ok true -> fresh_claim c l w)).
Proof.
  pose proof (environment_of P HP) as Env.
  induction n as [|n IH]; intros l w r l' w' HPD; cbn [claimLoop].
  { intros [= <- <- <-]. done. }
  intros [(e & Hc & ->)|([res err] & l1 & w1 & Hc & Hk)]%andThen_Some.
  { unfold call in Hc. destruct (w_ClaimAndArm c w). done. }
  unfold call in Hc. destruct (w_ClaimAndArm c w) as [res' w1'] eqn:EC. injection Hc as -> <- <-.
  assert (P l /\ dispatched_once l w1') as HPD1.
  { destruct HPD as [HPl HD]. split; [done|]. replace w1' with (snd (w_ClaimAndArm c w)) by by rewrite EC.
    by apply ClaimAndArm_keeps. }
  cbn [fst snd] in Hk.
  apply andThen_Some in Hk as [(e & Hd & ->)|([invoke retry] & l2 & w2 & Hd & Hk)].
  { split; [|done]. by apply (keeps_resolveClaim _ Env _ _ _ _ _ _ _ _ HPD1) in Hd. }
  pose proof (keeps_resolveClaim _ Env _ _ _ _ _ _ _ _ HPD1 Hd) as HPD2.
  cbn [fst snd] in Hk. destruct retry; cbn [negb] in Hk.
  - destruct n as [|n].
    + injection Hk as <- <- <-. done.
    + by eapply IH.
  - injection Hk as <- <- <-. split; [done|]. intros [= ->].
    destruct (resolveClaim_invoke _ _ _ _ _ _ _ _ Hd) as (Ho & -> & Ht).
    unfold resolveClaim in Hd. rewrite Ho in Hd. cbn [orb] in Hd.
    rewrite Ht, eqs_refl in Hd. cbn [negb] in Hd. injection Hd as <- <-.
    destruct HPD as [_ (Hi & _ & Hcl)].
    destruct (wl_authorize c w Hi) as [Hno Hyes].
    { rewrite EC. unfold AuthorizesInvocation; cbn. by rewrite Ho. }
    rewrite EC in Hyes. split; [done|]. intros (k & Hk & Hin)%list_elem_of_fmap.
    apply Hno. specialize (Hcl k Hin). by rewrite <- Hk in Hcl.
Qed.

(** ** Admission *)
Definition reserve (id : string) (l : loop) : loop :=
  set_admissions (lp_admissions l + 1) (set_live ({[id]} ∪ lp_live l) l).
Definition unreserve (id : string) (l : loop) : loop :=
  set_admissions (lp_admissions l - 1) (set_live (lp_live l ∖ {[id]}) l).

(** Spare capacity; and a task identity no worker holds. *)
Definition spare (l : loop) : Prop := bookkeeping l /\ lp_admissions l < AdmissionLimit.
Definition unclaimed (id : string) (l : loop) : Prop :=
  spare l /\ id ∉ lp_live l /\ lp_reconciling l <> id.

Lemma spare_core l l' : core l = core l' -> spare l -> spare l'.
Proof.
  intros E [Hb Ha]. split; [by eapply bookkeeping_core|]. by apply core_eq in E as (_ & <- & _).
Qed.
Lemma unclaimed_core id l l' : core l = core l' -> unclaimed id l -> unclaimed id l'.
Proof.
  intros E [Hs [Hx Hy]]. split; [by eapply spare_core|]. by apply core_eq in E as (<- & _ & <- & _).
Qed.

(** The loop as it is while a claim for [id] is pending. *)
Definition reserved (id : string) (l' : loop) : Prop :=
  exists l, bookkeeping l /\ lp_admissions l < AdmissionLimit /\ id ∉ lp_live l /\
    lp_reconciling l <> id /\ core l' = core (reserve id l).

Lemma reserved_core id l l' : core l = core l' -> reserved id l -> reserved id l'.
Proof. intros E (l0 & ? & ? & ? & ? & E0). exists l0. split_and!; try done. congruence. Qed.

Lemma unreserve_core id l l' : core l = core l' -> core (unreserve id l) = core (unreserve id l').
Proof. intros (E1 & E2 & E3 & E4 & E5)%core_eq. unfold unreserve, core; cbn. by rewrite E1, E2, E3, E4, E5. Qed.

Lemma unreserve_reserve id l : id ∉ lp_live l -> core (unreserve id (reserve id l)) = core l.
Proof.
  intros Hn. unfold unreserve, reserve, core; cbn.
  assert ((({[id]} ∪ lp_live l) ∖ {[id]}) = lp_live l) as -> by set_solver.
  assert (lp_admissions l + 1 - 1 = lp_admissions l) as -> by lia. done.
Qed.

Lemma dispatching_app ws ws' : dispatching (ws ++ ws') = dispatching ws ++ dispatching ws'.
Proof. apply List.filter_app. Qed.
Lemma observing_app ws ws' : observing (ws ++ ws') = observing ws ++ observing ws'.
Proof. apply List.filter_app. Qed.

Lemma dispatching_cons k ws : dispatching (k :: ws) = if wk_dispatch k then k :: dispatching ws else dispatching ws.
Proof. done. Qed.
Lemma observing_cons k ws : observing (k :: ws) = if wk_dispatch k then observing ws else k :: observing ws.
Proof. unfold observing; cbn. by destruct (wk_dispatch k). Qed.

Lemma go_dispatch k l :
  wk_dispatch k = true -> reserved (wk_task k) l -> bookkeeping (go k l).
Proof.
  intros Hk (l0 & [B1 B2 B3 B4 B5 B6] & Hlim & Hn & Hr & (E1 & E2 & E3 & E4 & E5)%core_eq). cbn in *.
  assert (dispatching [k] = [k]) as D1 by by rewrite dispatching_cons, Hk.
  assert (observing [k] = []) as D2 by by rewrite observing_cons, Hk.
  split; unfold go; cbn; rewrite ?E1, ?E2, ?E3, ?E4, ?dispatching_app, ?observing_app, ?D1, ?D2,
    ?fmap_app, ?app_nil_r, ?length_app; cbn.
  - rewrite list_to_set_app_L. cbn. rewrite <- B1. set_solver.
  - apply NoDup_app. split; [done|]. split; [|apply NoDup_singleton].
    intros x Hx ->%list_elem_of_singleton. apply Hn. rewrite B1. by apply elem_of_list_to_set.
  - lia.
  - unfold AdmissionLimit in *. lia.
  - done.
  - intros Hne. apply not_elem_of_union. split; [|by apply B6].
    intros Hin%elem_of_singleton. done.
Qed.

(** A pending claim leaves the loop safe, with a worker when it authorized one. *)
Lemma armAndDispatch_safe c definition :
  triple (fun l w => unclaimed (cl_TaskID c) l /\ dispatched_once l w) (armAndDispatch c definition)
    (fun _ => safe).
Proof.
  intros l w r l' w' [[[Hb Ha] [Hn Hrc]] HD] Hk. unfold armAndDispatch in Hk.
  unfold modify at 1, andThen at 1 in Hk. fold (reserve (cl_TaskID c) l) in Hk.
  assert (reserved (cl_TaskID c) (reserve (cl_TaskID c) l) /\ dispatched_once (reserve (cl_TaskID c) l) w) as HR.
  { split; [|done]. by exists l. }
  unfold attempt, andThen at 1 in Hk.
  destruct (claim c (reserve (cl_TaskID c) l) w) as [[[authorized l4] w4]|] eqn:EC; [|done].
  pose proof (claimLoop_fresh _ (reserved_core (cl_TaskID c)) 2 c _ _ _ _ _ HR EC) as [[HR4 HD4] Hfresh].
  assert (safe (unreserve (cl_TaskID c) l4) w4) as Hun.
  { destruct HR4 as (l0 & Hb0 & _ & Hn0 & _ & E0). split; [|done].
    apply (bookkeeping_core l0); [|done]. rewrite (unreserve_core _ _ _ E0). by rewrite unreserve_reserve. }
  destruct authorized as [[|]|e]; unfold modify, event, andThen in Hk; injection Hk as <- <- <-; [|done|done].
  destruct (Hfresh eq_refl) as [Hclaimed Hnew]. destruct HD4 as (Hi & Hnd & Hcl). split.
  { apply go_dispatch; [done|]. by apply (reserved_core _ l4). }
  unfold dispatched_once. cbn. rewrite dispatching_app, fmap_app. cbn. split; [done|]. split.
  - apply NoDup_app. split; [done|]. split; [|apply NoDup_singleton].
    intros x Hx ->%list_elem_of_singleton. done.
  - intros k [Hk| ->%list_elem_of_singleton]%elem_of_app; [by apply Hcl|done].
Qed.

Lemma admit_safe s due :
  triple (fun l w => safe l w /\ lp_admissions l < AdmissionLimit) (admitDue DecodeStrict s due) (fun _ => safe).
Proof.
  intros l w r l' w' [[Hb HD] Ha] Hr. unfold admitDue in Hr.
  pose proof (environment_of spare spare_core) as Env.
  assert (spare l /\ dispatched_once l w) as HP by done.
  apply andThen_Some in Hr as [(e & Hr & ->)|(cand & l1 & w1 & Hr & Hk)];
    pose proof (keeps_prepareCandidate DecodeStrict _ Env _ _ _ _ _ _ _ HP Hr) as [[Hb1 Ha1] HD1]; [done|].
  destruct cand as [[c definition]|]; [|by injection Hk as <- <- <-].
  unfold get at 1, andThen at 1 in Hk.
  destruct (bool_decide (cl_TaskID c ∈ lp_live l1) || eqs (lp_reconciling l1) (cl_TaskID c)) eqn:Ereuse;
    [by injection Hk as <- <- <-|].
  apply orb_false_iff in Ereuse as [Hn%bool_decide_eq_false Hrc%eqs_false].
  pose proof (environment_of (unclaimed (cl_TaskID c)) (unclaimed_core _)) as Env2.
  assert (unclaimed (cl_TaskID c) l1 /\ dispatched_once l1 w1) as HP1 by done.
  apply andThen_Some in Hk as [(e & Hr1 & ->)|([] & l2 & w2 & Hr1 & Hk)];
    pose proof (keeps_checkCtx _ Env2 _ _ _ _ _ HP1 Hr1) as HP2; [by destruct HP2 as [[[? _] _] ?]|].
  apply andThen_Some in Hk as [(e & Hr2 & ->)|(t & l3 & w3 & Hr2 & Hk)];
    pose proof (keeps_nowUTC _ Env2 _ _ _ _ _ HP2 Hr2) as HP3; [by destruct HP3 as [[[? _] _] ?]|].
  destruct (outsideWindow t due); [injection Hk as <- <- <-; by destruct HP3 as [[[? _] _] ?]|].
  exact (armAndDispatch_safe c definition _ _ _ _ _ HP3 Hk).
Qed.

(** ** Results *)
Lemma list_to_set_remove (d1 d2 : list string) id :
  NoDup (d1 ++ id :: d2) ->
  list_to_set (d1 ++ id :: d2) ∖ {[id]} =@{gset string} list_to_set (d1 ++ d2).
Proof.
  intros Hn. assert (id ∉ d1 ++ d2) as Hni.
  { apply (NoDup_cons id). by rewrite Permutation_middle. }
  apply set_eq. intros x. rewrite elem_of_difference, !elem_of_list_to_set, elem_of_singleton.
  rewrite !elem_of_app, elem_of_cons in *. split; [naive_solver|].
  intros Hx. split; [naive_solver|]. intros ->. naive_solver.
Qed.

(** The first statement of [finish] settles the bookkeeping of the delivered worker. *)
Definition settle (result : taskResult) (l : loop) : loop :=
  if tk_dispatch result then unreserve (oc_TaskID (tk_occurrence result)) l else set_reconciling "" l.

Lemma settle_bookkeeping k result l l0 :
  bookkeeping l -> delivers k result l l0 -> bookkeeping (settle result l0).
Proof.
  intros B Hdel. destruct Hdel as [l ws1 ws2 Hw Ho Hd]. destruct B as [B1 B2 B3 B4 B5 B6].
  rewrite Hw, dispatching_app, dispatching_cons in B1, B2, B3.
  rewrite Hw, observing_app, observing_cons in B5. unfold settle. rewrite Hd.
  destruct (wk_dispatch k) eqn:Ek.
  - rewrite fmap_app, fmap_cons in B1, B2. rewrite length_app in B3. cbn in B3.
    assert (oc_TaskID (tk_occurrence result) = wk_task k) as Et by (unfold wk_task; by rewrite Ho).
    split; unfold unreserve, set_workers; cbn; rewrite ?Et, ?dispatching_app, ?observing_app, ?fmap_app, ?length_app.
    + by rewrite B1, list_to_set_remove.
    + apply NoDup_app in B2 as (N1 & N2 & N3). apply NoDup_cons in N3 as [_ N3].
      apply NoDup_app. split; [done|]. split; [|done]. intros x Hx Hx2. apply (N2 x Hx). by right.
    + lia.
    + lia.
    + by rewrite <- fmap_app.
    + intros Hne. specialize (B6 Hne). set_solver.
  - assert (wk_task <$> observing ws1 = [] /\ wk_task <$> observing ws2 = []) as [O1 O2].
    { rewrite fmap_app, fmap_cons in B5. destruct (eqs _ _).
      - by destruct (wk_task <$> observing ws1).
      - destruct (wk_task <$> observing ws1) as [|x [|]]; [|done|done]. cbn in B5. by injection B5. }
    split; unfold set_workers; cbn; rewrite ?dispatching_app, ?observing_app; try done.
    by rewrite fmap_app, O1, O2.
Qed.

Lemma finish_safe k result l l0 w r l' w' :
  safe l w -> delivers k result l l0 -> finish result l0 w = Some (r, l', w') -> safe l' w'.
Proof.
  intros [Hb HD] Hdel Hr. pose proof safe_environment as Env.
  assert (safe (settle result l0) w) as HS.
  { split; [by eapply settle_bookkeeping|]. destruct Hdel. unfold settle. by destruct (tk_dispatch result). }
  unfold finish in Hr.
  apply andThen_Some in Hr as [(e & Hr & ->)|([] & l1 & w1 & Hr & Hk)].
  { by destruct (tk_dispatch result). }
  assert (l1 = settle result l0 /\ w1 = w) as [-> ->].
  { unfold settle. destruct (tk_dispatch result); by injection Hr as <- <-. }
  revert HS Hk. generalize (settle result l0), w, r, l', w'.
  match goal with |- forall l w r l' w', safe l w -> ?m l w = Some (r, l', w') -> safe l' w' =>
    change (keeps safe m) end.
  keep; first [by apply keeps_reportTaskError|by apply keeps_checkCtx|by apply keeps_recordObservation
              |by apply keeps_event|by apply keeps_recordRelease].
Qed.

(** ** Observations *)
Lemma activePage_valid os after after' :
  activePage os after = Ok after' -> Forall (fun o => ValidateOccurrence o = Ok tt) os.
Proof.
  revert after. induction os as [|o os IH]; intros after; cbn; [constructor|].
  destruct (ValidateOccurrence o) as [[]|] eqn:V; [|done]. destruct (_ || _); [done|].
  intros Hr. constructor; [done|]. by eapply IH.
Qed.

Lemma readActiveFrom_valid fuel after found l w os l' w' :
  Forall (fun o => ValidateOccurrence o = Ok tt) found ->
  readActiveFrom fuel after found l w = Some (Ok os, l', w') ->
  Forall (fun o => ValidateOccurrence o = Ok tt) os.
Proof.
  revert after found l w. induction fuel as [|fuel IH]; intros after found l w HF; [done|]. cbn [readActiveFrom].
  intros [(e & _ & ?)|([] & l1 & w1 & _ & Hk)]%andThen_Some; [done|].
  apply andThen_Some in Hk as [(e & _ & ?)|(page & l2 & w2 & _ & Hk)]; [done|].
  destruct page as [page|e]; [|done].
  apply andThen_Some in Hk as [(e & _ & ?)|(after' & l3 & w3 & Hp & Hk)]; [done|].
  assert (activePage (apr_Occurrences page) after = Ok after') as HA by by injection Hp.
  apply activePage_valid in HA.
  assert (Forall (fun o => ValidateOccurrence o = Ok tt) (found ++ apr_Occurrences page)) as HF' by by apply Forall_app.
  destruct (apr_More page); cbn [negb] in Hk; [|by injection Hk as <- _ _].
  destruct (apr_Occurrences page); [done|]. by eapply IH.
Qed.

Lemma ValidateOccurrence_task o : ValidateOccurrence o = Ok tt -> oc_TaskID o <> ""%string.
Proof.
  unfold ValidateOccurrence. intros Hv E. rewrite E in Hv. done.
Qed.

Lemma observer_dispatching o : dispatching [MkWorker o None] = [].
Proof. done. Qed.

Lemma observer_observing o : observing [MkWorker o None] = [MkWorker o None].
Proof. done. Qed.

Lemma observe_safe dueOnly o l w :
  safe l w -> lp_reconciling l = ""%string -> oc_TaskID o <> ""%string -> oc_TaskID o ∉ lp_live l ->
  safe (observe dueOnly o l) w.
Proof.
  intros [[B1 B2 B3 B4 B5 B6] HD] Hr Hne Hnl. rewrite Hr, eqs_refl in B5. split.
  - split; unfold observe, go; cbn; rewrite ?dispatching_app, ?observing_app, ?observer_dispatching, ?app_nil_r; try done.
    rewrite fmap_app, B5, observer_observing. cbn. by rewrite (proj2 (eqs_false _ _)) by done.
  - unfold dispatched_once, observe, go; cbn. by rewrite dispatching_app, observer_dispatching, app_nil_r.
Qed.

Lemma rotate_elem after active o : In o (rotate after active) -> o ∈ active.
Proof.
  unfold rotate. set (n := sort_Search _ _). rewrite <- list_elem_of_In, elem_of_app.
  rewrite <- (take_drop n active) at 3. rewrite elem_of_app. naive_solver.
Qed.

Lemma startObservation_safe active priority :
  Forall (fun o => ValidateOccurrence o = Ok tt) active -> keeps safe (startObservation active priority).
Proof.
  intros HF l w r l' w' HS Hr. unfold startObservation, get in Hr. unfold andThen at 1 in Hr.
  destruct (eqs (lp_reconciling l) "") eqn:Er; cbn [negb] in Hr; [|by injection Hr as <- <- <-].
  apply eqs_true in Er.
  apply andThen_Some in Hr as [(e & Hr & ->)|(ce & l1 & w1 & Hr & Hk)].
  { unfold ctxErr, call in Hr. by destruct (w_CtxErr w). }
  pose proof (keeps_ctxErr _ safe_environment _ _ _ _ _ HS Hr) as HS1.
  assert (l1 = l) as -> by (unfold ctxErr, call in Hr; destruct (w_CtxErr w); by injection Hr).
  destruct ce; [by injection Hk as <- <- <-|].
  assert (forall b o, find (observable l priority b) (rotate (lp_idleAfter l) active) = Some o ->
            safe (observe b o l) w1) as Hfind.
  { intros b o [Hin Hob]%find_some. apply rotate_elem in Hin. rewrite Forall_forall in HF.
    apply observe_safe; [done|done|by apply ValidateOccurrence_task, HF|].
    unfold observable in Hob. apply andb_true_iff in Hob as [Hob _]. apply negb_true_iff, orb_false_iff in Hob as [Hob _].
    by apply bool_decide_eq_false in Hob. }
  destruct (find (observable l priority true) _) eqn:E1; [injection Hk as <- <- <-; by apply Hfind|].
  destruct (find (observable l priority false) _) eqn:E2; injection Hk as <- <- <-; [by apply Hfind|done].
Qed.

(** ** The scan and the loop *)
Lemma scan_safe fuel : keeps safe (scan DecodeStrict fuel).
Proof.
  pose proof safe_environment as Env. unfold scan.
  apply keeps_andThen; [by apply keeps_refresh|intros _].
  intros l w r l' w' HS [(e & Hr & ->)|(active & l1 & w1 & Hr & Hk)]%andThen_Some;
    pose proof (keeps_readActive _ Env _ _ _ _ _ _ _ _ HS Hr) as HS1; [done|].
  assert (Forall (fun o => ValidateOccurrence o = Ok tt) active) as HF
    by (eapply readActiveFrom_valid; [constructor|exact Hr]).
  revert HS1 Hk. generalize l1, w1, r, l', w'.
  match goal with |- forall l w r l' w', safe l w -> ?m l w = Some (r, l', w') -> safe l' w' =>
    change (keeps safe m) end.
  pose proof (keeps_scanRange DecodeStrict _ Env admit_safe) as HR.
  keep; first [by apply startObservation_safe|by apply (keeps_core _ Env)|by apply HR].
Qed.

Lemma waitResult_safe waited k result l l0 w r l' w' :
  safe l w -> delivers k result l l0 -> waitResult waited result l0 w = Some (r, l', w') ->
  is_ok r = true -> safe l' w'.
Proof.
  intros HS Hdel Hr Hok. unfold waitResult in Hr. destruct (cancellationOnly waited); cbn [negb] in Hr.
  - by eapply finish_safe.
  - apply andThen_Some in Hr as [(e & Hr & ->)|(a & l1 & w1 & Hr & Hk)]; [done|].
    injection Hk as <- <- <-. done.
Qed.
End safety.
