(* ===== verification/SchedWorld.v ===== *)
(** * The loop over the SQLite store

    The interfaces of the loop implemented by the other components: [Recurrence] by
    [Recurrence.Next] and [World] by the store's operations on a [database], with a
    clock, a task ID source and the driver's behaviour supplied call by call. *)
From S2P Require Import Prelude GoErrors GoTime GoText TaskTypes Encoding SchedContract SchedRequest.
From S2P Require Import SchedStore SchedStoreInv SchedStoreProps Recurrence SchedRuntime SchedRuntimeInv SchedRuntimeSafety.

(** ** Recurrence *)
Section recurrence.
Context (LoadLocation : string -> result zone) (backend : option cron) (back fuel : nat).

Definition errOutOfFuel : error := New "recurrence fuel".

Definition nextTotal (expression zoneName : string) (after : time) : result time :=
  match Next LoadLocation back fuel backend expression zoneName after with
  | Some r => r
  | None => Err errOutOfFuel
  end.

Lemma intervalUpper_through probe e through upper :
  intervalUpper probe e through = Ok upper -> nanos upper <= nanos through.
Proof.
  unfold intervalUpper.
  assert (forall z, nanos (if z <=? nanos through then UnixUTC (z - Nanosecond) else through) <= nanos through) as Hb.
  { intros z. destruct (Z.leb_spec z (nanos through)); cbn; unfold Nanosecond; lia. }
  destruct e as [e|]; [|by intros [= <-]].
  destruct (e <=? nanos probe); [|by intros [= <-]]. destruct (_ || _); [done|]. by intros [= <-].
Qed.

(** Whatever the zone and the backend do, a result lies in the range asked for. *)
Lemma nextInZone_range n expression z cursor through due :
  nextInZone back n expression z cursor through backend = Some (Ok due) ->
  location due = UTC /\ nanos cursor < nanos due <= nanos through.
Proof.
  revert cursor. induction n as [|n IH]; intros cursor; cbn [nextInZone];
    destruct (Before cursor through); cbn [negb]; try done.
  destruct (intervalUpper _ _ _) as [upper|] eqn:Eu; [|done]. apply intervalUpper_through in Eu.
  destruct (lookupBetween _ _ _ _) as [[[c found]|]|]; [|done..].
  destruct found.
  - set (actual := shiftSeconds c _).
    destruct (_ || _) eqn:Ec; [done|]. bool_prop. time_prop.
    destruct (firstRealization _ _ _) as [[[|]|]|]; [|intros Hr%IH|done..].
    + intros [= <-]. cbn [nanos location toUTC]. split; [done|lia].
    + split; [by apply Hr|lia].
  - destruct (After upper cursor) eqn:Ea; cbn [negb]; [|done]. time_prop.
    intros Hr%IH. split; [by apply Hr|lia].
Qed.

Lemma nextTotal_after expression zoneName after due :
  nextTotal expression zoneName after = Ok due ->
  location due = UTC /\ nanos after < nanos due <= max_int64.
Proof.
  unfold nextTotal, Next. destruct (validateGrammar expression); [|done].
  destruct (namedLocation LoadLocation zoneName); [|done].
  destruct (ValidateInstant _ _); [|done].
  destruct (nextInZone _ _ _ _ _ _ _) as [r|] eqn:En; [|done]. intros ->.
  by apply nextInZone_range in En.
Qed.
End recurrence.

Definition recurrenceOf LoadLocation backend back fuel : Recurrence :=
  {| recurrence_Next := nextTotal LoadLocation backend back fuel;
     recurrence_Next_after := nextTotal_after LoadLocation backend back fuel |}.

(** ** The store *)

(** [sw_calls] numbers the driver calls; the environment of each is arbitrary, and so
    are the clock readings, the task IDs and the context's error at each reading. *)
Record storeWorld : Type := MkStoreWorld {
  sw_db : database;
  sw_calls : nat;
  sw_env : nat -> txEnv;
  sw_clock : nat -> time;
  sw_ids : nat -> result string;
  sw_ctx : nat -> option error
}.

Definition after_call (db : database) (w : storeWorld) : storeWorld :=
  MkStoreWorld db (S (sw_calls w)) (sw_env w) (sw_clock w) (sw_ids w) (sw_ctx w).

Section world.
Context (DecodeStrict : string -> result Request) (currentGuard : database -> result unit).

(** One store operation under the environment of its call. *)
Definition stored {A} (op : txEnv -> database -> A * database) (w : storeWorld) : A * storeWorld :=
  let '(a, db') := op (sw_env w (sw_calls w)) (sw_db w) in (a, after_call db' w).

#[global] Instance sqliteWorld : World storeWorld := {|
  w_Now w := (sw_clock w (sw_calls w), after_call (sw_db w) w);
  w_CtxErr w := (sw_ctx w (sw_calls w), after_call (sw_db w) w);
  w_NewTaskID w := (sw_ids w (sw_calls w), after_call (sw_db w) w);
  w_ActiveOccurrences p := stored (fun env => ActiveOccurrences currentGuard env p);
  w_ListSchedules p := stored (fun env => ListSchedules DecodeStrict currentGuard env p);
  w_GetSchedule id := stored (fun env => GetSchedule DecodeStrict currentGuard env id);
  w_GetOccurrence id := stored (fun env => GetOccurrence currentGuard env id);
  w_ClaimAndArm c := stored (fun env db =>
    let '(r, e, db') := ClaimAndArm currentGuard env c db in ((r, e), db'));
  w_RecordObservation o := stored (fun env => RecordObservation currentGuard env o);
  w_Release r := stored (fun env => ReleaseOccurrence currentGuard env r);
  w_RecordSkip k := stored (fun env => RecordSkip currentGuard env k)
|}.

(** The store accounts for a due time when an occurrence row records it. *)
Definition accounts (w : storeWorld) (scheduleID : string) (due : Z) : Prop :=
  exists id o, occurrences (sw_db w) !! id = Some o /\ or_scheduleID o = scheduleID /\ or_due o = due.

Definition evolves (w w' : storeWorld) : Prop :=
  wf (sw_db w) -> wf (sw_db w') /\ forall s d, accounts w s d -> accounts w' s d.

Lemma extends_accounts db db' w : extends db db' -> sw_db w = db ->
  forall s d, accounts w s d -> accounts (after_call db' w) s d.
Proof.
  intros X <- s d (id & o & Ho & <- & <-).
  destruct (ext_occurrence _ _ X _ _ Ho) as (o' & Ho' & (_ & Es & Ed & _)%identity_columns_eq & _).
  exists id, o'. done.
Qed.

Lemma evolves_kept w db' : kept (sw_db w) db' -> evolves w (after_call db' w).
Proof. intros K W. destruct (K W) as [W' X]. split; [done|]. by apply (extends_accounts _ _ _ X). Qed.

Lemma evolves_same w : evolves w (after_call (sw_db w) w).
Proof. apply evolves_kept, kept_refl. Qed.

Lemma evolves_stored {A} (op : txEnv -> database -> A * database) w :
  (forall env db, kept db (snd (op env db))) -> evolves w (snd (stored op w)).
Proof.
  intros K. unfold stored. specialize (K (sw_env w (sw_calls w)) (sw_db w)).
  destruct (op _ _). by apply evolves_kept.
Qed.

(** A read leaves the database as it is. *)
Lemma kept_read {A} env (body : database -> result (A * database)) db :
  (forall a db', body db = Ok (a, db') -> db' = db) -> kept db (snd (transact env currentGuard body db)).
Proof.
  intros Hr. apply transact_preserves; [apply kept_refl|]. intros a db' ->%Hr. apply kept_refl.
Qed.

Lemma kept_GetSchedule env id db : kept db (snd (GetSchedule DecodeStrict currentGuard env id db)).
Proof.
  unfold GetSchedule. destruct (validScheduleID id); [|apply kept_refl]. apply kept_read.
  intros s db'. destruct (schedules db !! id); [|done]. intros Hr. by inv_ok.
Qed.

Lemma kept_GetOccurrence env id db : kept db (snd (GetOccurrence currentGuard env id db)).
Proof.
  unfold GetOccurrence. destruct (wrap_err _ _); [|apply kept_refl]. apply kept_read. intros o db' Hr. by inv_ok.
Qed.

Lemma kept_ListSchedules env p db : kept db (snd (ListSchedules DecodeStrict currentGuard env p db)).
Proof.
  unfold ListSchedules. destruct (ValidateSchedulePage p); [|apply kept_refl]. apply kept_read.
  intros r db' Hr. inv_ok. destruct x. by inv_ok.
Qed.

Lemma kept_ActiveOccurrences env p db : kept db (snd (ActiveOccurrences currentGuard env p db)).
Proof.
  unfold ActiveOccurrences. destruct (ValidateActivePage p); [|apply kept_refl]. apply kept_read.
  intros r db' Hr. inv_ok. destruct x. by inv_ok.
Qed.

Lemma kept_ClaimAndArm env c db :
  kept db (snd (let '(r, e, db') := ClaimAndArm currentGuard env c db in ((r, e), db'))).
Proof.
  pose proof (ClaimAndArm_kept DecodeStrict currentGuard env c db) as K. cbn [run] in K.
  by destruct (ClaimAndArm currentGuard env c db) as [[r e] db'].
Qed.

Lemma claim_accounts w c :
  wf (sw_db w) -> AuthorizesInvocation (fst (fst (w_ClaimAndArm c w))) = true ->
  ~ accounts w (cl_ScheduleID c) (nanos (cl_Due c)) /\
  accounts (snd (w_ClaimAndArm c w)) (cl_ScheduleID c) (nanos (cl_Due c)).
Proof.
  cbn. unfold stored. intros W.
  destruct (ClaimAndArm currentGuard (sw_env w (sw_calls w)) c (sw_db w)) as [[r e] db'] eqn:EC. cbn.
  intros A. destruct (authorized_claim _ _ _ _ _ _ _ EC A) as (_ & _ & _ & V & Hnew & _).
  destruct (authorized_advances _ _ _ _ _ _ _ W EC A) as (_ & _ & _ & _ & _ & _ & _ & Ho).
  split.
  - intros (id & o & Hlo & Hs & Hd). apply (claimedTask_new _ _ Hnew _ _ Hlo Hs).
    apply ValidateClaim_Ok in V as (_ & _ & _ & Cd & _). by rewrite canonical_UnixNano.
  - eexists _, _. split; [exact Ho|done].
Qed.

#[global] Instance sqliteWorldLaws : WorldLaws storeWorld.
Proof.
  refine {| wl_inv w := wf (sw_db w); wl_claimed := accounts |}; cbn.
  - exact evolves_same.
  - exact evolves_same.
  - exact evolves_same.
  - intros p w. apply evolves_stored. intros; apply kept_ActiveOccurrences.
  - intros p w. apply evolves_stored. intros; apply kept_ListSchedules.
  - intros p w. apply evolves_stored. intros; apply kept_GetSchedule.
  - intros p w. apply evolves_stored. intros; apply kept_GetOccurrence.
  - intros o w. apply evolves_stored. intros; apply (RecordObservation_kept DecodeStrict).
  - intros o w. apply evolves_stored. intros; apply (ReleaseOccurrence_kept DecodeStrict).
  - intros o w. apply evolves_stored. intros; apply (RecordSkip_kept DecodeStrict).
  - intros o w. apply evolves_stored. intros; apply kept_ClaimAndArm.
  - intros c w. apply claim_accounts.
Defined.
End world.
