(* ===== verification/SchedRuntimeTheorems.v ===== *)
(** * Theorems of the scheduler loop

    At most one dispatch per due time over the SQLite store, the bookkeeping of
    workers, where a dispatch comes from, and what a skip may pass over. *)
From S2P Require Import Prelude GoErrors GoTime GoText TaskTypes Encoding SchedContract SchedRequest.
From S2P Require Import SchedStore SchedStoreInv SchedStoreProps SchedStoreReads SchedStoreTheorems SchedRuntime SchedRuntimeInv SchedRuntimeSafety.
From S2P Require Import SchedWorld.

(** ** Over every reachable state *)
Section reachable.
Context `{Recurrence} {W : Type} `{WorldLaws W}.
Context (DecodeStrict : string -> result Request).
Context (interferes : W -> W -> Prop) (Hi : forall w w', interferes w w' -> wl_evolves w w').

Definition running (p : phase) : Prop := forall e, p <> Stopped (Some e).

Lemma newLoop_safe startup w :
  wl_inv w -> safe (add_event (MkEvent "" "" "runtime" "ready") (newLoop startup)) w.
Proof.
  intros Hw. split.
  - split; cbn; unfold AdmissionLimit; try done; lia || constructor.
  - split; [done|]. split; [constructor|]. intros k Hk. by apply not_elem_of_nil in Hk.
Qed.

(** A failed [wait] still keeps what was dispatched. *)
Lemma waitResult_dispatched waited k result l l0 w r l' w' :
  dispatched_once l w -> safe l w -> delivers k result l l0 ->
  waitResult waited result l0 w = Some (r, l', w') -> dispatched_once l' w'.
Proof.
  intros HD HS Hdel Hr. unfold waitResult in Hr. destruct (cancellationOnly waited); cbn [negb] in Hr.
  - by destruct (finish_safe DecodeStrict k result l l0 w r l' w' HS Hdel Hr).
  - pose proof (environment_of (fun _ => True) (fun _ _ _ p => p)) as Env.
    assert (True /\ dispatched_once l0 w) as HD0 by by (split; [done|]; destruct Hdel).
    revert HD0 Hr. generalize l0, w, r, l', w'. intros la wa ra lb wb HD0 Hr.
    apply andThen_Some in Hr as [(e & Hr & ->)|(a & l1 & w1 & Hr & Hk)];
      pose proof (keeps_attempt _ _ (keeps_reportTaskError _ Env result) _ _ _ _ _ HD0 Hr) as [_ HD1]; [done|].
    by injection Hk as <- <- <-.
Qed.

Lemma step_safe m m' :
  step DecodeStrict interferes m m' ->
  dispatched_once (ma_loop m) (ma_world m) -> (running (ma_phase m) -> bookkeeping (ma_loop m)) ->
  dispatched_once (ma_loop m') (ma_world m') /\ (running (ma_phase m') -> bookkeeping (ma_loop m')).
Proof.
  intros Hs HD HB. destruct Hs as [l w e w' Hc|k result l l0 w r l' w' Hdel Hf|fuel l w r l' w' Hf|waited l w r l' w' Hf
    |waited k result l l0 w r l' w' Hdel Hf|l w w' p Hf]; cbn in *.
  - assert (dispatched_once l w') as HD'.
    { replace w' with (snd (w_CtxErr w)) by by rewrite Hc. eapply dispatched_evolves; [apply wl_CtxErr|done]. }
    split; [done|]. intros _. by apply HB.
  - assert (safe l w) as HS by (split; [by apply HB|done]).
    destruct (finish_safe DecodeStrict k result l l0 w r l' w' HS Hdel Hf). done.
  - assert (safe l w) as HS by (split; [by apply HB|done]).
    destruct (scan_safe DecodeStrict fuel l w r l' w' HS Hf). done.
  - unfold waitEnded in Hf. split; destruct waited; injection Hf as <- <- <-; try done; intros _; by apply HB.
  - assert (safe l w) as HS by (split; [by apply HB|done]). split.
    + by eapply waitResult_dispatched.
    + intros Hr. destruct r as [[]|e]; cbn in Hr; [|by destruct (Hr e)].
      by destruct (waitResult_safe DecodeStrict waited k result l l0 w (Ok tt) l' w' HS Hdel Hf eq_refl).
  - split; [|done]. eapply dispatched_evolves; [|done]. by apply Hi.
Qed.

Lemma runs_safe startup w0 m :
  wl_inv w0 -> runs DecodeStrict interferes startup w0 m ->
  dispatched_once (ma_loop m) (ma_world m) /\ (running (ma_phase m) -> bookkeeping (ma_loop m)).
Proof.
  intros Hw Hr. induction Hr as [_|m m' _ [HD HB] Hs].
  - destruct (newLoop_safe startup w0 Hw). done.
  - by eapply step_safe.
Qed.

Lemma filter_lengths (ws : list worker) :
  (length (dispatching ws) + length (observing ws))%nat = length ws.
Proof.
  induction ws as [|k ws IH]; [done|]. rewrite dispatching_cons, observing_cons.
  destruct (wk_dispatch k); cbn; lia.
Qed.
End reachable.

(** ** Where a dispatch comes from *)
Section provenance.
Context `{Recurrence} {W : Type} `{World W}.
Context (DecodeStrict : string -> result Request).
#[local] Open Scope loop_scope.

(** What no call but a dispatch changes. *)
Definition started_is (s : list worker) (l : loop) (w : W) : Prop := lp_started l = s.

Lemma started_environment s : environment (started_is s).
Proof.
  split; unfold started_is; intros; try done. by apply core_eq in H1 as (_ & _ & _ & _ & <-).
Qed.

Lemma prepareCandidate_Ok s due l w c d l' w' :
  prepareCandidate DecodeStrict s due l w = Some (Ok (Some (c, d)), l', w') ->
  cl_ScheduleID c = dh_ScheduleID (sm_Header s) /\ cl_Due c = due /\
  nanos (cl_ExpectedCursor c) = nanos (sm_Cursor s) /\ ValidateClaim c = Ok tt /\
  VerifyDefinitionDigests DecodeStrict d (sm_Digests s) = Ok tt.
Proof.
  unfold prepareCandidate.
  intros [(e & _ & ?)|(stored & l1 & w1 & _ & Hk)]%andThen_Some; [done|]. destruct stored as [sched|]; [|done].
  apply andThen_Some in Hk as [(e & _ & ?)|([] & l2 & w2 & Hv & Hk)]; [done|].
  apply andThen_Some in Hk as [(e & _ & ?)|([] & l3 & w3 & Hd & Hk)]; [done|].
  destruct (negb _ || negb _) eqn:Eg; [done|]. bool_prop. time_prop.
  apply andThen_Some in Hk as [(e & _ & ?)|(tid & l4 & w4 & _ & Hk)]; [done|]. destruct tid as [tid|]; [|done].
  apply andThen_Some in Hk as [(e & _ & ?)|(armedAt & l5 & w5 & _ & Hk)]; [done|].
  apply andThen_Some in Hk as [(e & _ & ?)|([] & l6 & w6 & Hc & Hk)]; [done|].
  injection Hk as <- <- <- <-. unfold fromResult, ret in Hd, Hc. injection Hd as Hd _ _. injection Hc as Hc _ _. done.
Qed.

Lemma claim_started (P : loop -> W -> Prop) c : environment P ->
  (forall l w, P l w -> P l (snd (w_ClaimAndArm c w))) -> keeps P (claim c).
Proof.
  intros E HC. unfold claim. generalize 2%nat. intros n. induction n as [|n IH]; cbn [claimLoop]; keep;
    first [by apply keeps_resolveClaim|apply keeps_call; exact HC].
Qed.

Lemma armAndDispatch_started c d l w r l' w' :
  armAndDispatch c d l w = Some (r, l', w') ->
  lp_started l' = lp_started l \/
  lp_started l' = lp_started l ++ [MkWorker (claimOccurrence c) (Some (MkDispatchRequest (cl_TaskID c) d))].
Proof.
  unfold armAndDispatch, modify at 1, andThen at 1. set (l0 := set_admissions _ _).
  unfold attempt, andThen at 1. destruct (claim c l0 w) as [[[a l4] w4]|] eqn:EC; [|done].
  assert (lp_started l4 = lp_started l) as E4.
  { exact (claim_started _ c (started_environment (lp_started l)) (fun _ _ p => p) l0 w _ _ _ eq_refl EC). }
  destruct a as [[|]|e]; unfold modify, event, andThen; intros [= <- <- <-]; cbn; rewrite E4; auto.
Qed.
End provenance.

(** ** The properties *)
Section properties.
Context (REC : Recurrence) (DecodeStrict : string -> result Request).
Context (currentGuard : database -> result unit).

(** What another process may do to the store between two steps of the loop. *)
Definition otherProcess (w w' : storeWorld) : Prop :=
  exists db, reaches DecodeStrict currentGuard (sw_db w) db /\ w' = after_call db w.

Lemma otherProcess_evolves w w' : otherProcess w w' -> evolves w w'.
Proof. intros (db & Hr & ->). apply evolves_kept. by apply (reaches_kept DecodeStrict currentGuard). Qed.

(** C1: The loop over the SQLite store dispatches each schedule and due time at most
    once: over every run, with any driver failures, any order of worker results and
    any other processes using the store between steps, the dispatches ever started
    are for pairwise distinct (schedule, due) pairs, each recorded in the store. *)
Theorem at_most_one_dispatch startup w0 m :
  wf (sw_db w0) ->
  @runs REC storeWorld (sqliteWorld DecodeStrict currentGuard) DecodeStrict otherProcess startup w0 m ->
  NoDup (wk_key <$> dispatching (lp_started (ma_loop m))) /\
  forall k, k ∈ dispatching (lp_started (ma_loop m)) ->
    accounts (ma_world m) (oc_ScheduleID (wk_occurrence k)) (nanos (oc_Due (wk_occurrence k))).
Proof.
  intros Hw Hr.
  destruct (runs_safe (H1 := sqliteWorldLaws DecodeStrict currentGuard) DecodeStrict otherProcess
              otherProcess_evolves startup w0 m Hw Hr) as [(_ & Hn & Hc) _].
  split; [exact Hn|]. exact Hc.
Qed.

(** While the loop runs, its bookkeeping is exact: [admissions] is the number of
    dispatches in flight and never exceeds the limit of four, [live] is their task
    IDs, at most one observation is in flight and never of a live task, so the
    result channel's five slots always suffice and no worker blocks on it. *)
Theorem loop_bookkeeping startup w0 m :
  wf (sw_db w0) ->
  @runs REC storeWorld (sqliteWorld DecodeStrict currentGuard) DecodeStrict otherProcess startup w0 m ->
  running (ma_phase m) ->
  bookkeeping (ma_loop m) /\ Z.of_nat (length (lp_workers (ma_loop m))) <= AdmissionLimit + 1.
Proof.
  intros Hw Hr Hp.
  destruct (runs_safe (H1 := sqliteWorldLaws DecodeStrict currentGuard) DecodeStrict otherProcess
              otherProcess_evolves startup w0 m Hw Hr) as [_ HB].
  specialize (HB Hp). split; [done|]. destruct HB as [_ _ B3 B4 B5 _].
  apply (f_equal length) in B5. rewrite length_fmap in B5. rewrite <- filter_lengths.
  destruct (eqs _ _); cbn in B5; lia.
Qed.
End properties.

(** ** What the loop skips *)
Definition loop_reason (reason : SkipReason) : Prop :=
  reason = SkipMissedUnavailable \/ reason = SkipMissedCapacity \/ reason = SkipOverlapActive \/
  reason = SkipBlockedUncertain.

Lemma blockerReason_loop active : loop_reason (blockerReason active).
Proof.
  unfold loop_reason, blockerReason. destruct active as [o|]; [|auto].
  destruct (oc_Observation o); [destruct (_ =? _)|]; auto.
Qed.

Lemma loop_skip_valid id cursor to reason :
  validateScheduleID id = Ok tt -> canonical cursor -> canonical to -> nanos cursor < nanos to ->
  loop_reason reason -> ValidateSkip (MkSkip id cursor (MkSkipSpan cursor to reason)) = Ok tt.
Proof.
  intros Hid Hc Ht Hl Hr. unfold ValidateSkip, ValidateSkipSpan, validateCursorAdvance.
  cbn [sk_ScheduleID sk_Span sk_ExpectedCursor ss_Reason ss_From ss_To]. rewrite Hid.
  rewrite bool_decide_false by (unfold loop_reason in Hr; destruct_or!; congruence).
  replace (ValidateSkipReason reason) with (Ok tt) by (unfold loop_reason in Hr; destruct_or!; by subst).
  rewrite !(proj2 (ValidateInstant_Ok _ _)) by done. cbn [fail_if mbind result_bind].
  rewrite (proj2 (After_spec _ _)) by done. cbn [negb fail_if mbind result_bind].
  by rewrite (proj2 (Before_false _ _)).
Qed.

(** The four ways a tick is skipped. *)
Lemma decideTick_skip `{Recurrence} input d span :
  decideTick input = Ok d -> td_skip d = Some span ->
  let summary := ti_summary input in
  exists due reason to,
    recurrence_Next (dh_Cron (sm_Header summary)) (dh_Timezone (sm_Header summary)) (sm_Cursor summary) = Ok due /\
    span = MkSkipSpan (sm_Cursor summary) to reason /\ loop_reason reason /\
    (to = ti_startup input /\ nanos due <= nanos (ti_startup input) \/
     to = due /\ nanos due + ClaimWindow <= nanos (ti_now input) \/
     to = Add (ti_now input) (- ClaimWindow) /\ nanos due + ClaimWindow <= nanos (ti_now input) \/
     to = due /\ nanos due <= nanos (ti_now input) /\ ti_active input = None /\
     ti_admissionAvailable input = false).
Proof.
  unfold decideTick. case_bool_decide; cbn [negb]; [|by intros [= <-]].
  destruct (recurrence_Next _ _ _) as [due|e]; [|done]. cbn [mbind result_bind].
  destruct (After due (ti_startup input)) eqn:E1; cbn [negb]; time_prop.
  2: { intros [= <-] [= <-]. eexists _, _, _. split; [done|]. split; [done|]. unfold loop_reason. auto. }
  destruct (After due (ti_now input)) eqn:E2; [by intros [= <-]|]. time_prop.
  destruct (Before (ti_now input) (Add due ClaimWindow)) eqn:E3; cbn [negb]; time_prop; cbn [nanos Add] in E3.
  - destruct (idle (ti_active input)) eqn:Ei; cbn [andb]; [|by intros [= <-]].
    destruct (ti_admissionAvailable input) eqn:Ea; cbn [negb]; [by intros [= <-]|].
    intros [= <-] [= <-]. eexists _, _, _. split; [done|]. split; [done|]. split; [unfold loop_reason; auto|].
    right. right. right. destruct (ti_active input); [done|]. auto.
  - destruct (Equal due (ti_held input)); [destruct (_ && _)|]; intros [= <-] [= <-];
      eexists _, _, _; (split; [done|]); (split; [done|]);
      (split; [first [apply blockerReason_loop|unfold loop_reason; auto]|]); auto.
Qed.

Section admission.
Context `{Recurrence} {W : Type} `{World W} (DecodeStrict : string -> result Request).

(** A dispatch is started only inside its claim window, for the schedule and due
    time that were considered, and with the definition whose digests the scan read:
    the clock read right before the claim was at or after the due time and less than
    [ClaimWindow] past it.  Nothing else of the loop starts a dispatch. *)
Theorem dispatch_in_window s due l w r l' w' :
  admitDue DecodeStrict s due l w = Some (r, l', w') ->
  lp_started l' = lp_started l \/
  exists c d w1 t w2, lp_started l' =
      lp_started l ++ [MkWorker (claimOccurrence c) (Some (MkDispatchRequest (cl_TaskID c) d))] /\
    w_Now w1 = (t, w2) /\ nanos due <= nanos t < nanos due + ClaimWindow /\
    cl_ScheduleID c = dh_ScheduleID (sm_Header s) /\ cl_Due c = due /\
    cl_TaskID c ∉ lp_live l /\ ValidateClaim c = Ok tt /\
    VerifyDefinitionDigests DecodeStrict d (sm_Digests s) = Ok tt.
Proof.
  intros Hr. unfold admitDue in Hr. set (S0 := fun (l1 : loop) (w1 : W) => core l1 = core l).
  assert (environment S0) as Env.
  { split; unfold S0; intros; try done. congruence. }
  apply andThen_Some in Hr as [(e & Hr & ->)|(cand & l1 & w1 & Hr & Hk)];
    pose proof (keeps_prepareCandidate DecodeStrict _ Env _ _ _ _ _ _ _ eq_refl Hr) as E1;
    [left; by apply core_eq in E1 as (_ & _ & _ & _ & ->)|].
  destruct cand as [[c d]|]; [|injection Hk as <- <- <-; left; by apply core_eq in E1 as (_ & _ & _ & _ & ->)].
  apply prepareCandidate_Ok in Hr as (Hs & Hd & _ & HV & Hdig).
  unfold get at 1, andThen at 1 in Hk.
  destruct (bool_decide _ || _) eqn:Ereuse; [injection Hk as <- <- <-; left; by apply core_eq in E1 as (_ & _ & _ & _ & ->)|].
  apply orb_false_iff in Ereuse as [Hn%bool_decide_eq_false _].
  pose proof E1 as (El1 & _ & _ & _ & _)%core_eq. rewrite El1 in Hn.
  apply andThen_Some in Hk as [(e & Hr1 & ->)|([] & l2 & w2 & Hr1 & Hk)];
    pose proof (keeps_checkCtx _ Env _ _ _ _ _ E1 Hr1) as E2;
    [left; by apply core_eq in E2 as (_ & _ & _ & _ & ->)|].
  apply andThen_Some in Hk as [(e & Hr2 & ->)|(t & l3 & w3 & Hr2 & Hk)];
    pose proof (keeps_nowUTC _ Env _ _ _ _ _ E2 Hr2) as E3;
    [left; by apply core_eq in E3 as (_ & _ & _ & _ & ->)|].
  apply core_eq in E3 as (_ & _ & _ & _ & Est).
  destruct (outsideWindow t due) eqn:Ew; [injection Hk as <- <- <-; by left|].
  apply armAndDispatch_started in Hk as [Hk|Hk]; rewrite Est in Hk; [by left|right].
  unfold outsideWindow in Ew. apply orb_false_iff in Ew as [Ew1 Ew2%negb_false_iff]. time_prop. cbn [nanos Add] in Ew2.
  unfold nowUTC, now, call, andThen in Hr2. destruct (w_Now w2) as [t0 w0'] eqn:EN. injection Hr2 as <- <- <-.
  exists c, d, w2, t0, w0'. done.
Qed.

(** Every skip the loop decides on is accepted by the store's validity rules and
    passes over no occurrence that could still be claimed: each instant of the span
    is before startup, or past its claim window, or up to the single due time that
    found every admission slot taken. *)
Theorem skip_passes_over_nothing_claimable input d span :
  decideTick input = Ok d -> td_skip d = Some span ->
  canonical (sm_Cursor (ti_summary input)) -> canonical (ti_startup input) ->
  canonical (ti_now input) -> validateScheduleID (dh_ScheduleID (sm_Header (ti_summary input))) = Ok tt ->
  ValidateSkip (MkSkip (dh_ScheduleID (sm_Header (ti_summary input))) (sm_Cursor (ti_summary input)) span) = Ok tt /\
  forall t, Covers span t = true ->
    nanos t <= nanos (ti_startup input) \/ nanos t + ClaimWindow <= nanos (ti_now input) \/
    (ti_active input = None /\ ti_admissionAvailable input = false /\
     exists due, recurrence_Next (dh_Cron (sm_Header (ti_summary input)))
                   (dh_Timezone (sm_Header (ti_summary input))) (sm_Cursor (ti_summary input)) = Ok due /\
                 nanos t <= nanos due <= nanos (ti_now input)).
Proof.
  intros Hd Hs Hc Hst Hnow Hid.
  destruct (decideTick_skip _ _ _ Hd Hs) as (due & reason & to & En & -> & Hr & Hto).
  pose proof (recurrence_Next_after _ _ _ _ En) as (Hu & Hlt & Hmax).
  assert (0 < ClaimWindow) by done.
  assert (canonical to /\ nanos (sm_Cursor (ti_summary input)) < nanos to) as [Hct Hl].
  { destruct Hc as [_ [? ?]], Hnow as [? [? ?]], Hst as [? [? ?]]. unfold canonical, in_int64.
    destruct Hto as [(-> & ?)|[(-> & ?)|[(-> & ?)|(-> & ?)]]]; cbn [nanos location Add]; split; try split; try done; lia. }
  split; [by apply loop_skip_valid|]. intros t Ht. unfold Covers in Ht. cbn [ss_From ss_To] in Ht.
  bool_prop. time_prop.
  destruct Hto as [(-> & ?)|[(-> & ?)|[(-> & ?)|(-> & ? & ? & ?)]]]; cbn [nanos Add] in *; [left; lia|right; left; lia..|].
  right. right. split; [done|]. split; [done|]. exists due. split; [done|lia].
Qed.
End admission.

(** ** A concrete loop: one schedule, every minute, started half a minute before its
    second occurrence *)
Definition minutely : Recurrence.
Proof.
  refine {| recurrence_Next := fun _ _ t =>
    let due := UnixUTC ((nanos t / Minute + 1) * Minute) in
    if nanos due <=? max_int64 then Ok due else Err (Sentinel recurrence_ErrRangeExhausted) |}.
  intros cron zoneName after due. cbv zeta.
  destruct (Z.leb_spec (nanos (UnixUTC ((nanos after / Minute + 1) * Minute))) max_int64); [|done].
  intros [= <-]. cbn [nanos UnixUTC location] in *. split; [done|].
  pose proof (Z.div_mod (nanos after) Minute ltac:(done)).
  pose proof (Z.mod_pos_bound (nanos after) Minute ltac:(done)). lia.
Defined.

Definition demoWorld : storeWorld :=
  MkStoreWorld demoCreated 0 (fun _ => txOk) (fun _ => UnixUTC (2 * Minute + Second))
    (fun _ => Ok demoTask) (fun _ => None).

Definition demoStart : time := UnixUTC (90 * Second).

Definition demoOther := otherProcess demoDecode demoGuard.

Definition demoLoop : loop := add_event (MkEvent "" "" "runtime" "ready") (newLoop demoStart).

Definition demoScan := @scan minutely storeWorld (sqliteWorld demoDecode demoGuard) demoDecode 2 demoLoop
  (after_call demoCreated demoWorld).

(** What a step started and how many dispatches are in flight after it. *)
Definition started (o : option (result unit * loop * storeWorld)) : option (list (string * Z) * Z * bool) :=
  match o with
  | Some (r, l, _) => Some (wk_key <$> dispatching (lp_started l), lp_admissions l, is_ok r)
  | None => None
  end.

Lemma started_Some o k n : started o = Some (k, n, true) ->
  exists l w, o = Some (Ok tt, l, w) /\ wk_key <$> dispatching (lp_started l) = k /\ lp_admissions l = n.
Proof. destruct o as [[[[[]|e] l] w]|]; [|done..]. intros [= <- <-]. by exists l, w. Qed.

Lemma demo_started : started demoScan = Some ([(demoSchedule, 2 * Minute)], 1, true).
Proof. vm_compute. reflexivity. Qed.

(** The state of the loop after its first scan. *)
Lemma demo_runs : exists m,
  @runs minutely storeWorld (sqliteWorld demoDecode demoGuard) demoDecode demoOther demoStart demoWorld m /\
  ma_phase m = Waiting /\ lp_admissions (ma_loop m) = 1 /\
  wk_key <$> dispatching (lp_started (ma_loop m)) = [(demoSchedule, 2 * Minute)].
Proof.
  destruct (started_Some _ _ _ demo_started) as (l & w & E & Hk & Hn). unfold demoScan in E.
  exists (MkMachine l w (next_phase (Ok tt) Waiting)).
  split; [|split; [reflexivity|split; [exact Hn|exact Hk]]].
  apply (runs_step _ _ _ _ (MkMachine demoLoop (after_call demoCreated demoWorld) Draining));
    [|exact (step_scan demoDecode demoOther 2 demoLoop _ (Ok tt) l w E)].
  apply (runs_step _ _ _ _ (MkMachine demoLoop demoWorld Top)); [apply runs_start; vm_compute; reflexivity|].
  assert (@w_CtxErr _ (sqliteWorld demoDecode demoGuard) demoWorld = (None, after_call demoCreated demoWorld)) as E0
    by reflexivity.
  exact (step_top demoDecode demoOther demoLoop demoWorld None _ E0).
Qed.

Lemma at_most_one_dispatch_witness : exists m : machine (W := storeWorld),
  wk_key <$> dispatching (lp_started (ma_loop m)) = [(demoSchedule, 2 * Minute)] /\
  NoDup (wk_key <$> dispatching (lp_started (ma_loop m))) /\
  forall k, k ∈ dispatching (lp_started (ma_loop m)) ->
    accounts (ma_world m) (oc_ScheduleID (wk_occurrence k)) (nanos (oc_Due (wk_occurrence k))).
Proof.
  destruct demo_runs as (m & Hr & _ & _ & Hk). exists m. split; [exact Hk|].
  exact (at_most_one_dispatch minutely demoDecode demoGuard demoStart demoWorld m wf_created Hr).
Defined.

Lemma loop_bookkeeping_witness : exists m : machine (W := storeWorld),
  lp_admissions (ma_loop m) = 1 /\
  bookkeeping (ma_loop m) /\ Z.of_nat (length (lp_workers (ma_loop m))) <= AdmissionLimit + 1.
Proof.
  destruct demo_runs as (m & Hr & Hp & Hn & _). exists m. split; [exact Hn|].
  assert (running (ma_phase m)) as Hp' by (intros e; rewrite Hp; discriminate).
  exact (loop_bookkeeping minutely demoDecode demoGuard demoStart demoWorld m wf_created Hr Hp').
Defined.

Definition demoSummary : ScheduleSummary :=
  MkScheduleSummary (df_Header demoDefinition)
    (match DefinitionDigests demoDecode demoDefinition with Ok d => d | Err _ => MkDigests "" "" end)
    5 StateEnabled (at_minute 1).

Lemma admit_started :
  started (@admitDue storeWorld (sqliteWorld demoDecode demoGuard) demoDecode demoSummary (at_minute 2)
             demoLoop demoWorld) = Some ([(demoSchedule, 2 * Minute)], 1, true).
Proof. vm_compute. reflexivity. Qed.

Lemma dispatch_in_window_witness :
  exists l' w',
    @admitDue storeWorld (sqliteWorld demoDecode demoGuard) demoDecode demoSummary (at_minute 2) demoLoop demoWorld =
      Some (Ok tt, l', w') /\
    wk_key <$> dispatching (lp_started l') = [(demoSchedule, 2 * Minute)] /\
    (lp_started l' = lp_started demoLoop \/
     exists c d (w1 : storeWorld) t w2, lp_started l' =
         lp_started demoLoop ++ [MkWorker (claimOccurrence c) (Some (MkDispatchRequest (cl_TaskID c) d))] /\
       @w_Now storeWorld (sqliteWorld demoDecode demoGuard) w1 = (t, w2) /\
       nanos (at_minute 2) <= nanos t < nanos (at_minute 2) + ClaimWindow /\
       cl_ScheduleID c = dh_ScheduleID (sm_Header demoSummary) /\ cl_Due c = at_minute 2 /\
       cl_TaskID c ∉ lp_live demoLoop /\ ValidateClaim c = Ok tt /\
       VerifyDefinitionDigests demoDecode d (sm_Digests demoSummary) = Ok tt).
Proof.
  destruct (started_Some _ _ _ admit_started) as (l & w & E & Hk & _). exists l, w.
  split; [exact E|]. split; [exact Hk|].
  exact (@dispatch_in_window storeWorld (sqliteWorld demoDecode demoGuard) demoDecode demoSummary (at_minute 2)
           demoLoop demoWorld (Ok tt) l w E).
Defined.

Definition lateTick : tickInput :=
  MkTickInput demoSummary demoStart (UnixUTC (10 * Minute)) zero_time None true.

Lemma skip_passes_over_nothing_claimable_witness :
  exists span, @decideTick minutely lateTick = Ok (MkTickDecision zero_time (Some span) false) /\
    ValidateSkip (MkSkip demoSchedule (at_minute 1) span) = Ok tt /\
    forall t, Covers span t = true ->
      nanos t <= nanos demoStart \/ nanos t + ClaimWindow <= nanos (UnixUTC (10 * Minute)) \/
      (None = @None Occurrence /\ true = false /\
       exists due, @recurrence_Next minutely "* * * * *" "UTC" (at_minute 1) = Ok due /\
                   nanos t <= nanos due <= nanos (UnixUTC (10 * Minute))).
Proof.
  eexists. split; [vm_compute; reflexivity|].
  refine (@skip_passes_over_nothing_claimable minutely lateTick _ _ _ _ _ _ _ _);
    [vm_compute; reflexivity|reflexivity| | | |vm_compute; reflexivity];
    (split; [reflexivity|split; vm_compute; discriminate]).
Defined.
