(* ===== verification/GoPath.v ===== *)
(** * Slash-separated paths and line scanning

    The parts of [path], [io/fs] and [bufio] the cgroup readers use, and
    [encoding/base64]'s raw URL alphabet. *)
From S2P Require Import Prelude GoText.
From Stdlib Require Import Ascii.

(** [strings.HasPrefix] and [strings.TrimPrefix] *)
Definition HasPrefix (s prefix : string) : bool := snd (CutPrefix s prefix).
Definition TrimPrefix (s prefix : string) : string := fst (CutPrefix s prefix).

(** [strings.SplitN(s, sep, n)] for a one-byte separator and [n > 0]. *)
Fixpoint splitN (l : list ascii) (sep : ascii) (n : nat) (word : list ascii) : list string :=
  match l, n with
  | [], _ => [str word]
  | _, (O | 1%nat) => [str (word ++ l)]
  | c :: l', S n' =>
      if bool_decide (c = sep) then str word :: splitN l' sep n' []
      else splitN l' sep n (word ++ [c])
  end.
Definition SplitN (s : string) (sep : ascii) (n : nat) : list string := splitN (bytes s) sep n [].

(** [path.Join] *)
Definition Join (elems : list string) : string :=
  match filter (fun e => e <> ""%string) elems with
  | [] => ""%string
  | parts => Clean (String.concat "/" parts)
  end.

(** [path.Dir]: what is before the final slash, cleaned. *)
Fixpoint dropTail (l : list ascii) : list ascii :=
  match l with
  | [] => []
  | c :: l' => if bool_decide (c = "/"%char) then l else dropTail l'
  end.
Definition Dir (s : string) : string := Clean (str (rev (dropTail (rev (bytes s))))).

(** [fs.ValidPath] *)
Definition ValidPath (name : string) : bool :=
  ValidString name &&
  (bool_decide (name = "."%string) ||
   forallb (fun e => negb (bool_decide (e = ""%string) || bool_decide (e = "."%string) || bool_decide (e = ".."%string)))
     (Split name "/")).

(** ** [bufio.Scanner] with [ScanLines]

    The lines in order, each without its final carriage return, and the error that
    ends the scan: a line that fills a buffer of [maxTokenSize] bytes. *)
Definition bufio_MaxScanTokenSize : Z := 64 * 1024.
Definition bufio_ErrTooLong : error := New "bufio.Scanner: token too long".

Definition dropCR (l : list ascii) : list ascii :=
  match rev l with
  | c :: r => if bool_decide (c = "013"%char) then rev r else l
  | [] => l
  end.

Fixpoint scanLines (maxTokenSize : Z) (l : list ascii) (line : list ascii) : list string * option error :=
  match l with
  | [] =>
      match line with
      | [] => ([], None)
      | _ => if maxTokenSize <=? Z.of_nat (length line) then ([], Some bufio_ErrTooLong)
             else ([str (dropCR line)], None)
      end
  | c :: l' =>
      if bool_decide (c = "010"%char) then
        if maxTokenSize <=? Z.of_nat (length line) then ([], Some bufio_ErrTooLong)
        else let '(rest, err) := scanLines maxTokenSize l' [] in (str (dropCR line) :: rest, err)
      else scanLines maxTokenSize l' (line ++ [c])
  end.

(** [for scanner.Scan() { ... }; if err := scanner.Err(); err != nil { return err }]
    over a body that updates a local state and may return an error. *)
Fixpoint forLines {S} (lines : list string) (body : string -> S -> result S) (s : S) : result S :=
  match lines with
  | [] => Ok s
  | l :: rest => s' ← body l s; forLines rest body s'
  end.

Definition scan {S} (maxTokenSize : Z) (data : string) (body : string -> S -> result S) (s : S) : result S :=
  let '(lines, err) := scanLines maxTokenSize (bytes data) [] in
  s' ← forLines lines body s;
  match err with Some e => Err e | None => Ok s' end.

(** ** [base64.RawURLEncoding] *)
Definition base64Digit (d : Z) : ascii :=
  if d <? 26 then ascii_of_N (Z.to_N (65 + d))
  else if d <? 52 then ascii_of_N (Z.to_N (97 + (d - 26)))
  else if d <? 62 then ascii_of_N (Z.to_N (48 + (d - 52)))
  else if d =? 62 then "-"%char else "_"%char.

Definition base64Value (c : ascii) : option Z :=
  let x := byte_of c in
  if between 65 x 90 then Some (x - 65)
  else if between 97 x 122 then Some (x - 97 + 26)
  else if between 48 x 57 then Some (x - 48 + 52)
  else if bool_decide (c = "-"%char) then Some 62
  else if bool_decide (c = "_"%char) then Some 63
  else None.

Definition byteOf (z : Z) : ascii := ascii_of_N (Z.to_N z).

Fixpoint encodeBase64 (l : list ascii) : list ascii :=
  match l with
  | a :: b :: c :: l' =>
      let v := byte_of a * 65536 + byte_of b * 256 + byte_of c in
      base64Digit (v / 262144) :: base64Digit (v / 4096 mod 64) ::
      base64Digit (v / 64 mod 64) :: base64Digit (v mod 64) :: encodeBase64 l'
  | [a; b] =>
      let v := byte_of a * 65536 + byte_of b * 256 in
      [base64Digit (v / 262144); base64Digit (v / 4096 mod 64); base64Digit (v / 64 mod 64)]
  | [a] =>
      let v := byte_of a * 65536 in
      [base64Digit (v / 262144); base64Digit (v / 4096 mod 64)]
  | [] => []
  end.

(** Newlines are ignored; the low bits of the last digit are not checked. *)
Fixpoint decodeGroups (l : list Z) : option (list ascii) :=
  match l with
  | a :: b :: c :: d :: l' =>
      let v := a * 262144 + b * 4096 + c * 64 + d in
      r ← decodeGroups l'; Some (byteOf (v / 65536) :: byteOf (v / 256 mod 256) :: byteOf (v mod 256) :: r)
  | [a; b; c] =>
      let v := a * 262144 + b * 4096 + c * 64 in Some [byteOf (v / 65536); byteOf (v / 256 mod 256)]
  | [a; b] =>
      let v := a * 262144 + b * 4096 in Some [byteOf (v / 65536)]
  | [_] => None
  | [] => Some []
  end.

Definition decodeBase64 (l : list ascii) : option (list ascii) :=
  digits ← mapM base64Value (filter (fun c => c <> "010"%char /\ c <> "013"%char) l);
  decodeGroups digits.

Definition EncodeToString (s : string) : string := str (encodeBase64 (bytes s)).
Definition DecodeString (s : string) : result string :=
  match decodeBase64 (bytes s) with
  | Some l => Ok (str l)
  | None => Err (New "illegal base64 data")
  end.
