(* ===== verification/GoTimestamp.v ===== *)
(** * RFC 3339 timestamps, and durations as text

    [Time.UTC().Format(time.RFC3339Nano)] and [time.Parse(time.RFC3339Nano, s)].
    Parsing follows the general layout walk of package [time]: a one-digit hour, a
    comma before the fraction and offsets up to 24:60 are accepted, and the day is
    checked against its month last.  (The fast path of the package accepts a subset
    of these texts with the same instants.)  A numeric offset gives a location that
    the program never prints. *)
From S2P Require Import Prelude GoErrors GoTime GoText TaskTypes Encoding.
From Stdlib Require Import Ascii.

Definition digitChar (d : Z) : ascii := byte (48 + d).

(** The [w] low decimal digits of [n], with leading zeros. *)
Fixpoint digitsFixed (w : nat) (n : Z) : list ascii :=
  match w with
  | O => []
  | S w' => digitsFixed w' (n / 10) ++ [digitChar (n mod 10)]
  end.

(** [appendInt(b, x, width)] *)
Definition appendInt (w : nat) (n : Z) : list ascii :=
  (if n <? 0 then ["-"%char] else []) ++
  (if Z.abs n <? 10 ^ Z.of_nat w then digitsFixed w (Z.abs n) else decimalText (Z.abs n)).

(** The fields of an instant in UTC. *)
Record civil : Set := MkCivil {
  cv_year : Z; cv_month : Z; cv_day : Z; cv_hour : Z; cv_min : Z; cv_sec : Z; cv_nsec : Z
}.

Definition civilOf (t : time) : civil :=
  let d := dayOf t in
  let y := yearOf d in
  let '(m, dom) := monthDay (monthLengths (isLeap y)) 0 (d - daysBeforeYear y) in
  let clock := nanos t mod Day in
  MkCivil y (Z.of_nat m + 1) (dom + 1) (clock / Hour) (clock mod Hour / Minute)
    (clock mod Minute / Second) (clock mod Second).

(** [time.Date(..., time.UTC)] with fields in range. *)
Definition Date (c : civil) : time :=
  UnixUTC ((daysBeforeYear (cv_year c) +
              daysBeforeMonth (isLeap (cv_year c)) (Z.to_nat (cv_month c - 1)) + (cv_day c - 1)) * Day
           + cv_hour c * Hour + cv_min c * Minute + cv_sec c * Second + cv_nsec c).

(** The fraction of a second: up to nine digits without trailing zeros. *)
Fixpoint dropZeros (l : list ascii) : list ascii :=
  match l with
  | "0"%char :: l' => dropZeros l'
  | _ => l
  end.

Definition appendNano (n : Z) : list ascii :=
  match rev (dropZeros (rev (digitsFixed 9 n))) with
  | [] => []
  | ds => "."%char :: ds
  end.

(** [t.UTC().Format(time.RFC3339Nano)] *)
Definition FormatRFC3339Nano (t : time) : string :=
  let c := civilOf t in
  str (appendInt 4 (cv_year c) ++ "-"%char :: digitsFixed 2 (cv_month c) ++
       "-"%char :: digitsFixed 2 (cv_day c) ++ "T"%char :: digitsFixed 2 (cv_hour c) ++
       ":"%char :: digitsFixed 2 (cv_min c) ++ ":"%char :: digitsFixed 2 (cv_sec c) ++
       appendNano (cv_nsec c) ++ ["Z"%char]).

(** ** Parsing *)

(** [getnum(s, fixed)] *)
Definition getnum (l : list ascii) (fixed : bool) : option (Z * list ascii) :=
  match l with
  | a :: l1 =>
      if isDigit a
      then match l1 with
           | b :: l2 => if isDigit b then Some (10 * digit a + digit b, l2)
                        else if fixed then None else Some (digit a, l1)
           | [] => if fixed then None else Some (digit a, l1)
           end
      else None
  | [] => None
  end.

Definition skip (c : ascii) (l : list ascii) : option (list ascii) :=
  match l with
  | a :: l' => if bool_decide (a = c) then Some l' else None
  | [] => None
  end.

Definition inRange (lo x hi : Z) : option unit := if between lo x hi then Some tt else None.

Fixpoint spanDigits (l : list ascii) : list ascii * list ascii :=
  match l with
  | a :: l' => if isDigit a then let '(ds, rest) := spanDigits l' in (a :: ds, rest) else ([], l)
  | [] => ([], [])
  end.

(** [parseNanoseconds]: digits past the ninth are dropped. *)
Definition nanosOfDigits (ds : list ascii) : Z :=
  let ds := take 9 ds in decimal ds * 10 ^ (9 - Z.of_nat (length ds)).

Definition parseFraction (l : list ascii) : Z * list ascii :=
  match l with
  | p :: d :: _ =>
      if (bool_decide (p = "."%char) || bool_decide (p = ","%char)) && isDigit d
      then let '(ds, rest) := spanDigits (tail l) in (nanosOfDigits ds, rest)
      else (0, l)
  | _ => (0, l)
  end.

(** The zone: [Z], or a signed offset in nanoseconds. *)
Definition parseZone (l : list ascii) : option (option Z * list ascii) :=
  match l with
  | c :: rest =>
      if bool_decide (c = "Z"%char) then Some (None, rest)
      else match l with
           | s :: h1 :: h2 :: colon :: m1 :: m2 :: rest' =>
               if bool_decide (colon = ":"%char)
               then h ← getnum [h1; h2] true; m ← getnum [m1; m2] true;
                    _ ← inRange 0 (fst h) 24; _ ← inRange 0 (fst m) 60;
                    let offset := fst h * Hour + fst m * Minute in
                    if bool_decide (s = "+"%char) then Some (Some offset, rest')
                    else if bool_decide (s = "-"%char) then Some (Some (- offset), rest') else None
               else None
           | _ => None
           end
  | [] => None
  end.

Definition parseYear (l : list ascii) : option (Z * list ascii) :=
  match l with
  | a :: b :: c :: d :: rest =>
      if forallb isDigit [a; b; c; d] then Some (decimal [a; b; c; d], rest) else None
  | _ => None
  end.

Definition parseTimestamp (l : list ascii) : option time :=
  '(year, l) ← parseYear l; l ← skip "-" l;
  '(month, l) ← getnum l true; _ ← inRange 1 month 12; l ← skip "-" l;
  '(day, l) ← getnum l true; l ← skip "T" l;
  '(hour, l) ← getnum l false; _ ← inRange 0 hour 23; l ← skip ":" l;
  '(min, l) ← getnum l true; _ ← inRange 0 min 59; l ← skip ":" l;
  '(sec, l) ← getnum l true; _ ← inRange 0 sec 59;
  let '(nsec, l) := parseFraction l in
  '(zone, l) ← parseZone l;
  match l with
  | _ :: _ => None
  | [] =>
      _ ← inRange 1 day (nth (Z.to_nat (month - 1)) (monthLengths (isLeap year)) 0);
      let t := Date (MkCivil year month day hour min sec nsec) in
      Some (match zone with None => t | Some offset => MkTime (nanos t - offset) (Zone "") end)
  end.

Definition errParseTime : error := New "parsing time".

(** [time.Parse(time.RFC3339Nano, value)] *)
Definition ParseRFC3339Nano (value : string) : result time :=
  match parseTimestamp (bytes value) with Some t => Ok t | None => Err errParseTime end.

(** ** The round trip *)
Lemma digitChar_spec d : 0 <= d <= 9 -> isDigit (digitChar d) = true /\ digit (digitChar d) = d.
Proof.
  intros H. assert (d = 0 \/ d = 1 \/ d = 2 \/ d = 3 \/ d = 4 \/ d = 5 \/ d = 6 \/ d = 7 \/ d = 8 \/ d = 9) as Hd by lia.
  repeat (destruct Hd as [->|Hd]; [done|]). by subst.
Qed.

Lemma digitChar_mod n : isDigit (digitChar (n mod 10)) = true /\ digit (digitChar (n mod 10)) = n mod 10.
Proof. apply digitChar_spec. pose proof (Z.mod_pos_bound n 10 ltac:(done)). lia. Qed.

Lemma digitsFixed_digits w n : Forall (fun c => isDigit c = true) (digitsFixed w n).
Proof.
  revert n. induction w as [|w IH]; intros n; cbn; [constructor|].
  apply Forall_app. split; [done|]. constructor; [apply digitChar_mod|constructor].
Qed.

Lemma digitsFixed_length w n : length (digitsFixed w n) = w.
Proof. revert n. induction w as [|w IH]; intros n; cbn; [done|]. rewrite length_app, IH. cbn. lia. Qed.

Lemma decimal_snoc l c : decimal (l ++ [c]) = 10 * decimal l + digit c.
Proof. unfold decimal. by rewrite fold_left_app. Qed.

Lemma decimal_app a b : decimal (a ++ b) = decimal a * 10 ^ Z.of_nat (length b) + decimal b.
Proof.
  induction b as [|c b IH] using rev_ind; [rewrite app_nil_r; cbn; lia|].
  rewrite app_assoc, !decimal_snoc, IH, length_app, Nat.add_1_r, Nat2Z.inj_succ, Z.pow_succ_r by lia. lia.
Qed.

Lemma decimal_digitsFixed w n : 0 <= n < 10 ^ Z.of_nat w -> decimal (digitsFixed w n) = n.
Proof.
  revert n. induction w as [|w IH]; intros n Hn.
  - cbn in Hn. assert (n = 0) as -> by lia. done.
  - rewrite Nat2Z.inj_succ, Z.pow_succ_r in Hn by lia. cbn [digitsFixed]. rewrite decimal_app, IH.
    + cbn. rewrite (proj2 (digitChar_mod n)). pose proof (Z.div_mod n 10). lia.
    + split; [apply Z.div_pos; lia|apply Z.div_lt_upper_bound; lia].
Qed.

Lemma getnum_digitsFixed n fixed rest :
  0 <= n < 100 -> getnum (digitsFixed 2 n ++ rest) fixed = Some (n, rest).
Proof.
  intros Hn. cbn [digitsFixed app getnum].
  destruct (digitChar_mod (n / 10)) as [-> ->]. destruct (digitChar_mod n) as [-> ->].
  do 2 f_equal. rewrite (Z.mod_small (n / 10)) by (Z.div_mod_to_equations; lia).
  pose proof (Z.div_mod n 10). lia.
Qed.

Lemma parseYear_digitsFixed n rest :
  0 <= n <= 9999 -> parseYear (digitsFixed 4 n ++ rest) = Some (n, rest).
Proof.
  intros Hn. pose proof (decimal_digitsFixed 4 n ltac:(cbn; lia)) as Hd.
  pose proof (digitsFixed_digits 4 n) as Hf. pose proof (digitsFixed_length 4 n) as Hl.
  destruct (digitsFixed 4 n) as [|a [|b [|c [|d [|? ?]]]]]; try discriminate Hl.
  cbn [app parseYear]. rewrite Hd. replace (forallb isDigit [a; b; c; d]) with true; [done|].
  symmetry. apply forallb_forall. intros x Hx. by apply (proj1 (List.Forall_forall _ _) Hf).
Qed.

Lemma spanDigits_app ds rest :
  Forall (fun c => isDigit c = true) ds ->
  match rest with c :: _ => isDigit c = false | [] => True end ->
  spanDigits (ds ++ rest) = (ds, rest).
Proof.
  intros Hd Hr. induction Hd as [|c ds Hc Hd IH]; cbn.
  - destruct rest as [|c rest]; [done|]. cbn. by rewrite Hr.
  - by rewrite Hc, IH.
Qed.

Lemma dropZeros_spec l : exists k, l = replicate k "0"%char ++ dropZeros l.
Proof.
  induction l as [|c l [k IH]]; [by exists O|].
  destruct (decide (c = "0"%char)) as [->|Hc].
  - exists (S k). cbn [replicate dropZeros app]. by f_equal.
  - exists O. cbn [replicate app]. destruct c as [[] [] [] [] [] [] [] []]; try done.
Qed.

Lemma trimZeros_spec l : exists k, l = rev (dropZeros (rev l)) ++ replicate k "0"%char.
Proof.
  destruct (dropZeros_spec (rev l)) as [k Hk]. exists k.
  rewrite <- (rev_involutive l) at 1. rewrite Hk at 1. rewrite rev_app_distr. f_equal.
  clear. induction k as [|k IH]; [done|]. cbn [replicate rev]. rewrite IH.
  clear IH. induction k as [|k IH]; [done|]. cbn [replicate app]. by rewrite IH.
Qed.

Lemma decimal_zeros k : decimal (replicate k "0"%char) = 0.
Proof.
  induction k as [|k IH]; [done|]. change (replicate (S k) "0"%char) with (["0"%char] ++ replicate k "0"%char).
  rewrite decimal_app, IH. done.
Qed.

Lemma parseFraction_appendNano n :
  0 <= n < Second -> parseFraction (appendNano n ++ ["Z"%char]) = (n, ["Z"%char]).
Proof.
  intros Hn. unfold appendNano. destruct (trimZeros_spec (digitsFixed 9 n)) as [k Hk].
  remember (rev (dropZeros (rev (digitsFixed 9 n)))) as l eqn:El. clear El.
  pose proof (digitsFixed_digits 9 n) as Hf. pose proof (digitsFixed_length 9 n) as Hl.
  pose proof (decimal_digitsFixed 9 n Hn) as Hd.
  rewrite Hk in Hf, Hl, Hd. apply Forall_app in Hf as [Hf _].
  rewrite length_app, length_replicate in Hl. rewrite decimal_app, decimal_zeros, length_replicate in Hd.
  destruct l as [|d ds].
  - cbn. do 2 f_equal. cbn in Hd. lia.
  - cbn [app parseFraction tail]. inversion_clear Hf as [|? ? Hc Hr]. rewrite Hc. cbn [bool_decide andb orb].
    change (d :: ds ++ ["Z"%char]) with ((d :: ds) ++ ["Z"%char]).
    rewrite spanDigits_app by (by constructor). cbn [app].
    unfold nanosOfDigits. rewrite take_ge by lia. do 2 f_equal. rewrite <- Hd, Z.add_0_r. do 2 f_equal. lia.
Qed.

Lemma monthDay_day (leap : bool) (yd : Z) :
  0 <= yd < (if leap then 366 else 365) ->
  let '(m, dom) := monthDay (monthLengths leap) 0 yd in 0 <= dom < nth m (monthLengths leap) 0.
Proof.
  intros H. destruct leap; cbn [monthDay monthLengths];
    repeat (match goal with |- context [?a <? ?b] => destruct (Z.ltb_spec a b) end; [cbn; lia|]); lia.
Qed.

(** The fields of an instant are in range and name it. *)
Lemma civilOf_spec t :
  let c := civilOf t in
  1 <= cv_month c <= 12 /\
  1 <= cv_day c <= nth (Z.to_nat (cv_month c - 1)) (monthLengths (isLeap (cv_year c))) 0 /\
  0 <= cv_hour c <= 23 /\ 0 <= cv_min c <= 59 /\ 0 <= cv_sec c <= 59 /\ 0 <= cv_nsec c < Second /\
  Date c = toUTC t.
Proof.
  cbv zeta. unfold civilOf. set (d := dayOf t). set (y := yearOf d).
  pose proof (yearOf_spec d) as [Hl Hu]. fold y in Hl, Hu. rewrite daysBeforeYear_step in Hu.
  assert (0 <= d - daysBeforeYear y < (if isLeap y then 366 else 365)) as Hyd by (destruct (isLeap y); lia).
  pose proof (monthDay_spec (isLeap y) _ Hyd) as Hm. pose proof (monthDay_day (isLeap y) _ Hyd) as Hd.
  destruct (monthDay _ _ _) as [m dom]. destruct Hm as [Hm1 Hm2]. cbn [cv_year cv_month cv_day cv_hour cv_min cv_sec cv_nsec].
  replace (Z.to_nat (Z.of_nat m + 1 - 1)) with m by lia.
  assert (nanos t = d * Day + nanos t mod Day) as Ht
    by (unfold d, dayOf; pose proof (Z.div_mod (nanos t) Day ltac:(done)); lia).
  pose proof (Z.mod_pos_bound (nanos t) Day ltac:(done)) as Hc. set (k := nanos t mod Day) in *.
  pose proof (Z.div_mod k Hour ltac:(done)). pose proof (Z.mod_pos_bound k Hour ltac:(done)).
  pose proof (Z.div_mod k Minute ltac:(done)). pose proof (Z.mod_pos_bound k Minute ltac:(done)).
  pose proof (Z.mod_pos_bound k Second ltac:(done)).
  pose proof (Z.div_mod k Second ltac:(done)).
  assert (Day = 24 * Hour) as HDay by done. assert (Hour = 60 * Minute) as HHour by done.
  assert (Minute = 60 * Second) as HMin by done. assert (Second = 10 ^ 9) as HSec by done.
  assert (k mod Hour mod Minute = k mod Minute) as E1
    by (rewrite HHour, (Z.mul_comm 60); apply Z.mod_mod_divide, Z.divide_factor_l).
  assert (k mod Minute mod Second = k mod Second) as E2
    by (rewrite HMin, (Z.mul_comm 60); apply Z.mod_mod_divide, Z.divide_factor_l).
  pose proof (Z.div_mod (k mod Hour) Minute ltac:(done)) as D1. rewrite E1 in D1.
  pose proof (Z.div_mod (k mod Minute) Second ltac:(done)) as D2. rewrite E2 in D2.
  repeat split; try lia; try (apply Z.div_pos; lia); try (apply Z.lt_succ_r; apply Z.div_lt_upper_bound; lia).
  unfold Date, toUTC, UnixUTC. f_equal. cbn [cv_year cv_month cv_day cv_hour cv_min cv_sec cv_nsec].
  replace (Z.to_nat (Z.of_nat m + 1 - 1)) with m by lia. rewrite Ht.
  replace (daysBeforeYear y + daysBeforeMonth (isLeap y) m + (dom + 1 - 1)) with d by lia. lia.
Qed.

Lemma inRange_between lo x hi : lo <= x <= hi -> inRange lo x hi = Some tt.
Proof.
  intros H. unfold inRange, between. destruct (Z.leb_spec lo x); [|lia]. destruct (Z.leb_spec x hi); [done|lia].
Qed.

Lemma skip_app c l : skip c (c :: l) = Some l.
Proof. cbn. by rewrite bool_decide_true. Qed.

(** The text of an instant of the years 0 to 9999 parses to the instant. *)
Lemma Parse_Format t :
  0 <= cv_year (civilOf t) <= 9999 -> ParseRFC3339Nano (FormatRFC3339Nano t) = Ok (toUTC t).
Proof.
  intros Hy. destruct (civilOf_spec t) as (Hmo & Hda & Hh & Hmi & Hs & Hn & HD).
  unfold ParseRFC3339Nano, FormatRFC3339Nano. rewrite bytes_str. destruct (civilOf t) as [y mo da h mi s n].
  cbn [cv_year cv_month cv_day cv_hour cv_min cv_sec cv_nsec] in *.
  assert (da < 100) as Hda'.
  { destruct (Z.to_nat (mo - 1)) as [|[|[|[|[|[|[|[|[|[|[|[|k]]]]]]]]]]]]; try destruct k; destruct (isLeap y); cbn in Hda; lia. }
  unfold parseTimestamp, appendInt. destruct (Z.ltb_spec y 0); [lia|]. rewrite Z.abs_eq by lia.
  destruct (Z.ltb_spec y (10 ^ Z.of_nat 4)); [|cbn in *; lia]. cbn [app].
  rewrite parseYear_digitsFixed by done. cbn [mbind option_bind]. rewrite skip_app. cbn [mbind option_bind].
  repeat (rewrite getnum_digitsFixed by lia; cbn [mbind option_bind];
          repeat (rewrite inRange_between by lia; cbn [mbind option_bind]);
          repeat (rewrite skip_app; cbn [mbind option_bind])).
  rewrite parseFraction_appendNano by done. cbn [parseZone mbind option_bind].
  rewrite bool_decide_true by done. cbn [mbind option_bind].
  by rewrite HD.
Qed.

(** The text of a year outside 0 to 9999 is refused. *)
Lemma Parse_Format_year t u :
  ParseRFC3339Nano (FormatRFC3339Nano t) = Ok u -> 0 <= cv_year (civilOf t) <= 9999.
Proof.
  unfold ParseRFC3339Nano, FormatRFC3339Nano. rewrite bytes_str.
  destruct (parseTimestamp _) as [u'|] eqn:E; [|done]. intros _. unfold parseTimestamp in E.
  destruct (parseYear _) as [[y l]|] eqn:EY; [|done]. cbn [mbind option_bind] in E.
  destruct (skip "-" l) as [l'|] eqn:ES; [|done]. clear E u u'. set (n := cv_year (civilOf t)) in *. clearbody n.
  revert EY. generalize ("-"%char :: digitsFixed 2 (cv_month (civilOf t)) ++ "-"%char :: digitsFixed 2 (cv_day (civilOf t)) ++
    "T"%char :: digitsFixed 2 (cv_hour (civilOf t)) ++ ":"%char :: digitsFixed 2 (cv_min (civilOf t)) ++
    ":"%char :: digitsFixed 2 (cv_sec (civilOf t)) ++ appendNano (cv_nsec (civilOf t)) ++ ["Z"%char]).
  intros rest. unfold appendInt. destruct (Z.ltb_spec n 0) as [Hn|Hn].
  { cbn [app parseYear]. destruct (_ ++ rest) as [|? [|? [|? ?]]]; done. }
  rewrite Z.abs_eq by lia. destruct (Z.ltb_spec n (10 ^ Z.of_nat 4)) as [H4|H4]; [cbn in H4; lia|].
  cbn [app]. pose proof (decimalText_digits n Hn) as HD. pose proof (decimalText_value n Hn) as HV.
  destruct (decimalText n) as [|a [|b [|c [|d [|x ds]]]]];
    try (exfalso; cbn in H4; rewrite <- HV in H4; cbn in HD; rewrite ?andb_true_iff in HD; unfold decimal, digit in H4;
         cbn [fold_left] in H4; unfold isDigit, between in HD;
         repeat match goal with H : _ /\ _ |- _ => destruct H end; rewrite ?Z.leb_le in *; lia).
  cbn [app parseYear]. destruct (forallb isDigit [a; b; c; d]); [|done]. intros [= _ <-].
  cbn in HD. rewrite !andb_true_iff in HD. destruct HD as (_ & _ & _ & _ & Hx & _).
  cbn in ES. destruct (decide (x = "-"%char)) as [->|Hd]; [done|]. by rewrite bool_decide_false in ES.
Qed.

(** ** Durations as text: [time.Duration.String] *)
(** [fmtInt] *)
Definition fmtInt (n : Z) : list ascii := decimalText n.

(** [fmtFrac] of [v/10^prec]: the fraction without trailing zeros, and the integer part. *)
Fixpoint fmtFracLoop (prec : nat) (v : Z) (acc : list ascii) : list ascii * Z :=
  match prec with
  | O => (acc, v)
  | S prec' =>
      let d := v mod 10 in
      let acc := if (d =? 0) && bool_decide (acc = []) then [] else byte (48 + d) :: acc in
      fmtFracLoop prec' (v / 10) acc
  end.

Definition fmtFrac (v : Z) (prec : nat) : list ascii * Z :=
  let '(digits, rest) := fmtFracLoop prec v [] in
  (match digits with [] => [] | _ => "."%char :: digits end, rest).

Definition micro : list ascii := ["194"%char; "181"%char]. (* U+00B5 *)

(** A duration of less than a second. *)
Definition smallDuration (u : Z) : list ascii :=
  if u =? 0 then bytes "0s"
  else
    let '(prec, unit) := if u <? 1000 then (O, bytes "ns")
                         else if u <? 1000000 then (3%nat, micro ++ bytes "s")
                         else (6%nat, bytes "ms") in
    let '(frac, whole) := fmtFrac u prec in
    fmtInt whole ++ frac ++ unit.

Definition largeDuration (u : Z) : list ascii :=
  let '(frac, seconds) := fmtFrac u 9 in
  let minutes := seconds / 60 in
  let hours := minutes / 60 in
  (if 0 <? minutes then (if 0 <? hours then fmtInt hours ++ bytes "h" else []) ++ fmtInt (minutes mod 60) ++ bytes "m" else []) ++
  fmtInt (seconds mod 60) ++ frac ++ bytes "s".

(** [d.String()] *)
Definition DurationString (d : Z) : string :=
  let u := if d <? 0 then uint64 (- d) else d in
  str ((if d <? 0 then ["-"%char] else []) ++ (if u <? Second then smallDuration u else largeDuration u)).

Example durations : map DurationString [0; 1; 1500; 2000000; 1500000000; 30 * Minute; 90 * Minute + 250000000; - Second; min_int64] =
  ["0s"; "1ns"; str (bytes "1.5" ++ micro ++ bytes "s"); "2ms"; "1.5s"; "30m0s"; "1h30m0.25s"; "-1s"; "-2562047h47m16.854775808s"]%string.
Proof. vm_compute. reflexivity. Qed.
