(* ===== verification/TaskLifetime.v ===== *)
(** * Lifetime records

    [internal/task/lifetime.go], [lifetime_completion.go], [lifetime_capacity.go],
    [lifetime_custody.go] and [lifetime_unlaunched.go]: the records that prove how the
    process scope of one operation was planned, registered, used and closed, their
    validators, the capacity of a launch set, the binding of a worker completion to
    the records it names and the closure decision.  A record pointer that may be nil
    is an [option]. *)
From S2P Require Import Prelude GoErrors GoTime GoText TaskTypes Encoding GoTimestamp.
From Stdlib Require Import Ascii.

Definition SchemaVersion : Z := 1.

Definition LifetimeScopeCgroupV2 : string := "cgroup-v2".
Definition LifetimeScopeProcessGroup : string := "process-group".
Definition LifetimeAssuranceExact : string := "exact".
Definition LifetimeAssuranceCooperative : string := "cooperative".
Definition LifetimeOwnerTask : string := "task".
Definition LifetimeOwnerInspection : string := "inspection".
Definition LifetimeOwnerWorkspace : string := "workspace".
Definition LifetimeTerminationCompleted : string := "completed".
Definition LifetimeTerminationBudget : string := "budget".
Definition LifetimeTerminationRequested : string := "requested".
Definition LifetimeTerminationRecovery : string := "recovery".
Definition LifetimeTerminationPreviousBoot : string := "previous-boot".
Definition LifetimeWorkerWaitSuccess : string := "success".
Definition LifetimeWorkerWaitExitError : string := "exit-error".
Definition LifetimeWorkerWaitError : string := "wait-error".
Definition LifetimeWorkerWaitNotStarted : string := "not-started".
Definition LifetimeWorkerWaitAbsent : string := "absent".
Definition LifetimeAbsenceExactWorker : string := "exact-worker".
Definition LifetimeAbsencePreviousBoot : string := "previous-boot".
Definition LifetimeAbsenceUnregisteredDisposed : string := "unregistered-disposed".
Definition LifetimeUnlaunchedCauseDeadlineExpired : string := "deadline-expired".
Definition MaxLifetimeLaunches : Z := 4096.
Definition MaxLifetimeLaunchBytes : Z := 64 * MaxControlRecordSize.
Definition LifetimeCustodyPlacementVersion : Z := 1.

(** ** Records *)
Record LifetimeIntentRecord : Set := MkIntent {
  li_SchemaVersion : Z; li_RootID : string; li_TaskID : string;
  li_OwnerKind : string; li_OwnerSHA256 : string;
  li_ScopeKind : string; li_Assurance : string; li_ScopePlan : string;
  li_BootID : string; li_Deadline : string; li_CreatedAt : string
}.

Record LifetimeCustodyPlacement : Set := MkPlacement {
  cp_Version : Z; cp_PoolRoot : string; cp_PoolID : string
}.

Record LifetimeRegistrationRecord : Set := MkRegistration {
  lr_SchemaVersion : Z; lr_RootID : string; lr_TaskID : string;
  lr_OwnerKind : string; lr_OwnerSHA256 : string;
  lr_ScopeKind : string; lr_Assurance : string; lr_ScopeID : string;
  lr_BootID : string; lr_Deadline : string; lr_CreatedAt : string;
  lr_CustodyPlacement : option LifetimeCustodyPlacement
}.

Record LifetimeWorkerRecord : Set := MkWorkerRecord {
  lw_SchemaVersion : Z; lw_RootID : string; lw_TaskID : string;
  lw_RegistrationSHA256 : string; lw_PID : Z; lw_ProcessStart : string;
  lw_BootID : string; lw_StartedAt : string
}.

Record LifetimeWorkerWaitRecord : Set := MkWorkerWait {
  ww_SchemaVersion : Z; ww_RootID : string; ww_TaskID : string;
  ww_RegistrationSHA256 : string; ww_WorkerSHA256 : string; ww_ChildPID : Z;
  ww_Result : string; ww_ExitCode : option Z; ww_ObservedAt : string;
  ww_IntentSHA256 : string; ww_AbsenceProof : string; ww_ObservedBootID : string
}.

Record LifetimeLaunchRecord : Set := MkLaunch {
  ll_SchemaVersion : Z; ll_RootID : string; ll_TaskID : string;
  ll_RegistrationSHA256 : string; ll_Sequence : Z; ll_PID : Z;
  ll_ProcessStart : string; ll_PGID : Z; ll_StartedAt : string
}.

Record LifetimeTerminationRecord : Set := MkTermination {
  lt_SchemaVersion : Z; lt_RootID : string; lt_TaskID : string;
  lt_RegistrationSHA256 : string; lt_LaunchCount : Z; lt_LaunchSetSHA256 : string;
  lt_Cause : string; lt_ScopeEmpty : bool; lt_ObservedAt : string
}.

Record LifetimeUnlaunchedRecord : Set := MkUnlaunched {
  lu_SchemaVersion : Z; lu_RootID : string; lu_TaskID : string;
  lu_OwnerKind : string; lu_OwnerSHA256 : string; lu_Deadline : string;
  lu_Cause : string; lu_ObservedAt : string
}.

#[global] Instance Intent_eq_dec : EqDecision LifetimeIntentRecord.
Proof. solve_decision. Defined.
#[global] Instance Placement_eq_dec : EqDecision LifetimeCustodyPlacement.
Proof. solve_decision. Defined.
#[global] Instance Registration_eq_dec : EqDecision LifetimeRegistrationRecord.
Proof. solve_decision. Defined.
#[global] Instance WorkerRecord_eq_dec : EqDecision LifetimeWorkerRecord.
Proof. solve_decision. Defined.
#[global] Instance WorkerWait_eq_dec : EqDecision LifetimeWorkerWaitRecord.
Proof. solve_decision. Defined.
#[global] Instance Launch_eq_dec : EqDecision LifetimeLaunchRecord.
Proof. solve_decision. Defined.
#[global] Instance Termination_eq_dec : EqDecision LifetimeTerminationRecord.
Proof. solve_decision. Defined.
#[global] Instance Unlaunched_eq_dec : EqDecision LifetimeUnlaunchedRecord.
Proof. solve_decision. Defined.

(** ** Canonical encodings: the JSON tags of the record types *)
Definition jsonIntent (r : LifetimeIntentRecord) : json :=
  JObject [("schema_version"%string, JInt (li_SchemaVersion r)); ("root_id"%string, JString (li_RootID r));
           ("task_id"%string, JString (li_TaskID r)); ("owner_kind"%string, JString (li_OwnerKind r));
           ("owner_sha256"%string, JString (li_OwnerSHA256 r)); ("scope_kind"%string, JString (li_ScopeKind r));
           ("assurance"%string, JString (li_Assurance r)); ("scope_plan"%string, JString (li_ScopePlan r));
           ("boot_id"%string, JString (li_BootID r)); ("deadline"%string, JString (li_Deadline r));
           ("created_at"%string, JString (li_CreatedAt r))].

Definition jsonPlacement (p : LifetimeCustodyPlacement) : json :=
  JObject [("version"%string, JInt (cp_Version p)); ("pool_root"%string, JString (cp_PoolRoot p));
           ("pool_id"%string, JString (cp_PoolID p))].

Definition jsonRegistration (r : LifetimeRegistrationRecord) : json :=
  JObject ([("schema_version"%string, JInt (lr_SchemaVersion r)); ("root_id"%string, JString (lr_RootID r));
            ("task_id"%string, JString (lr_TaskID r)); ("owner_kind"%string, JString (lr_OwnerKind r));
            ("owner_sha256"%string, JString (lr_OwnerSHA256 r)); ("scope_kind"%string, JString (lr_ScopeKind r));
            ("assurance"%string, JString (lr_Assurance r)); ("scope_id"%string, JString (lr_ScopeID r));
            ("boot_id"%string, JString (lr_BootID r)); ("deadline"%string, JString (lr_Deadline r));
            ("created_at"%string, JString (lr_CreatedAt r))] ++
           omitempty "custody_placement" (jsonPlacement <$> lr_CustodyPlacement r)).

Definition jsonWorkerRecord (r : LifetimeWorkerRecord) : json :=
  JObject [("schema_version"%string, JInt (lw_SchemaVersion r)); ("root_id"%string, JString (lw_RootID r));
           ("task_id"%string, JString (lw_TaskID r));
           ("registration_sha256"%string, JString (lw_RegistrationSHA256 r)); ("pid"%string, JInt (lw_PID r));
           ("process_start"%string, JString (lw_ProcessStart r)); ("boot_id"%string, JString (lw_BootID r));
           ("started_at"%string, JString (lw_StartedAt r))].

Definition jsonWorkerWait (r : LifetimeWorkerWaitRecord) : json :=
  JObject ([("schema_version"%string, JInt (ww_SchemaVersion r)); ("root_id"%string, JString (ww_RootID r));
            ("task_id"%string, JString (ww_TaskID r));
            ("registration_sha256"%string, JString (ww_RegistrationSHA256 r))] ++
           omitString "worker_sha256" (ww_WorkerSHA256 r) ++
           [("child_pid"%string, JInt (ww_ChildPID r)); ("result"%string, JString (ww_Result r))] ++
           omitempty "exit_code" (JInt <$> ww_ExitCode r) ++
           [("observed_at"%string, JString (ww_ObservedAt r))] ++
           omitString "intent_sha256" (ww_IntentSHA256 r) ++ omitString "absence_proof" (ww_AbsenceProof r) ++
           omitString "observed_boot_id" (ww_ObservedBootID r)).

Definition jsonLaunch (r : LifetimeLaunchRecord) : json :=
  JObject ([("schema_version"%string, JInt (ll_SchemaVersion r)); ("root_id"%string, JString (ll_RootID r));
            ("task_id"%string, JString (ll_TaskID r));
            ("registration_sha256"%string, JString (ll_RegistrationSHA256 r));
            ("sequence"%string, JInt (ll_Sequence r)); ("pid"%string, JInt (ll_PID r));
            ("process_start"%string, JString (ll_ProcessStart r))] ++ omitInt "pgid" (ll_PGID r) ++
           [("started_at"%string, JString (ll_StartedAt r))]).

Definition jsonTermination (r : LifetimeTerminationRecord) : json :=
  JObject [("schema_version"%string, JInt (lt_SchemaVersion r)); ("root_id"%string, JString (lt_RootID r));
           ("task_id"%string, JString (lt_TaskID r));
           ("registration_sha256"%string, JString (lt_RegistrationSHA256 r));
           ("launch_count"%string, JInt (lt_LaunchCount r));
           ("launch_set_sha256"%string, JString (lt_LaunchSetSHA256 r)); ("cause"%string, JString (lt_Cause r));
           ("scope_empty"%string, JBool (lt_ScopeEmpty r)); ("observed_at"%string, JString (lt_ObservedAt r))].

Definition jsonUnlaunched (r : LifetimeUnlaunchedRecord) : json :=
  JObject [("schema_version"%string, JInt (lu_SchemaVersion r)); ("root_id"%string, JString (lu_RootID r));
           ("task_id"%string, JString (lu_TaskID r)); ("owner_kind"%string, JString (lu_OwnerKind r));
           ("owner_sha256"%string, JString (lu_OwnerSHA256 r)); ("deadline"%string, JString (lu_Deadline r));
           ("cause"%string, JString (lu_Cause r)); ("observed_at"%string, JString (lu_ObservedAt r))].

(** ** Shared checks *)
Definition mismatch : error := Sentinel task_ErrIdentityMismatch.

Definition validateLifetimeIdentity (schema : Z) (rootID taskID : string) : result unit :=
  fail_if (negb (schema =? SchemaVersion)) (Errorf "lifetime schema" (Sentinel task_ErrUnsupportedSchema)) ;;
  ValidateRootID rootID ;; ValidateTaskID taskID.

Definition validateLifetimeOwner (ownerKind ownerSHA256 : string) : result unit :=
  fail_if (negb (eqs ownerKind LifetimeOwnerTask || eqs ownerKind LifetimeOwnerInspection ||
                 eqs ownerKind LifetimeOwnerWorkspace))
    (Errorf "invalid lifetime owner kind" (Sentinel task_ErrInvalidEnum)) ;;
  ValidateSHA256 ownerSHA256.

Definition validateLifetimeScope (scopeKind assurance : string) : result unit :=
  if eqs scopeKind LifetimeScopeCgroupV2
  then fail_if (negb (eqs assurance LifetimeAssuranceExact)) mismatch
  else if eqs scopeKind LifetimeScopeProcessGroup
  then fail_if (negb (eqs assurance LifetimeAssuranceCooperative)) mismatch
  else Err (Errorf "invalid lifetime scope kind" (Sentinel task_ErrInvalidEnum)).

Definition validLifetimeToken (value : string) : bool :=
  nonblank value && (len value <=? MaxControlRecordSize).

Definition validateTimestamp (value : string) : result unit :=
  match ParseRFC3339Nano value with
  | Ok _ => Ok tt
  | Err e => Err (Errorf "invalid required RFC3339 timestamp" e)
  end.

Definition validateLifetimeWorkerTimestamp (value : string) : result unit :=
  parsed ← wrap_err (Errorf "invalid required RFC3339 timestamp") (ParseRFC3339Nano value);
  fail_if (negb (eqs (FormatRFC3339Nano parsed) value))
    (New "lifetime worker timestamp is not canonical UTC RFC3339Nano").

Definition ValidateLifetimeCustodyPlacement (p : option LifetimeCustodyPlacement) : result unit :=
  match p with
  | None => Err (New "nil lifetime custody placement")
  | Some p =>
      fail_if (negb (cp_Version p =? LifetimeCustodyPlacementVersion))
        (Errorf "lifetime custody placement version" (Sentinel task_ErrUnsupportedSchema)) ;;
      fail_if (negb (IsCanonicalCwd (cp_PoolRoot p)))
        (Errorf "lifetime custody pool root must be a nonempty, absolute, clean path" mismatch) ;;
      wrap_err (Errorf "lifetime custody pool id") (ValidateSHA256 (cp_PoolID p))
  end.

(** ** Record validators *)
Definition ValidateLifetimeRegistrationRecord (r : option LifetimeRegistrationRecord) : result unit :=
  match r with
  | None => Err (New "nil lifetime registration")
  | Some r =>
      validateLifetimeIdentity (lr_SchemaVersion r) (lr_RootID r) (lr_TaskID r) ;;
      validateLifetimeOwner (lr_OwnerKind r) (lr_OwnerSHA256 r) ;;
      validateLifetimeScope (lr_ScopeKind r) (lr_Assurance r) ;;
      fail_if (negb (validLifetimeToken (lr_ScopeID r)) || negb (validLifetimeToken (lr_BootID r))) mismatch ;;
      validateTimestamp (lr_Deadline r) ;;
      validateTimestamp (lr_CreatedAt r) ;;
      match lr_CustodyPlacement r with
      | Some p => ValidateLifetimeCustodyPlacement (Some p)
      | None => Ok tt
      end
  end.

Definition ValidateLifetimeIntentRecord (r : option LifetimeIntentRecord) : result unit :=
  match r with
  | None => Err (New "nil lifetime intent")
  | Some r =>
      validateLifetimeIdentity (li_SchemaVersion r) (li_RootID r) (li_TaskID r) ;;
      validateLifetimeOwner (li_OwnerKind r) (li_OwnerSHA256 r) ;;
      validateLifetimeScope (li_ScopeKind r) (li_Assurance r) ;;
      fail_if (negb (validLifetimeToken (li_ScopePlan r)) || negb (validLifetimeToken (li_BootID r))) mismatch ;;
      validateTimestamp (li_Deadline r) ;;
      validateTimestamp (li_CreatedAt r)
  end.

Definition ValidateLifetimeLaunchRecord (r : option LifetimeLaunchRecord) : result unit :=
  match r with
  | None => Err (New "nil lifetime launch")
  | Some r =>
      validateLifetimeIdentity (ll_SchemaVersion r) (ll_RootID r) (ll_TaskID r) ;;
      ValidateSHA256 (ll_RegistrationSHA256 r) ;;
      fail_if ((ll_Sequence r =? 0) || (ll_PID r <=? 0) || (ll_PGID r <? 0) ||
               negb (validLifetimeToken (ll_ProcessStart r))) mismatch ;;
      validateTimestamp (ll_StartedAt r)
  end.

Definition ValidateLifetimeWorkerRecord (r : option LifetimeWorkerRecord) : result unit :=
  match r with
  | None => Err (New "nil lifetime worker")
  | Some r =>
      validateLifetimeIdentity (lw_SchemaVersion r) (lw_RootID r) (lw_TaskID r) ;;
      ValidateSHA256 (lw_RegistrationSHA256 r) ;;
      fail_if ((lw_PID r <=? 0) || negb (validLifetimeToken (lw_ProcessStart r)) ||
               negb (validLifetimeToken (lw_BootID r))) mismatch ;;
      validateLifetimeWorkerTimestamp (lw_StartedAt r)
  end.

Definition ValidateLifetimeTerminationRecord (r : option LifetimeTerminationRecord) : result unit :=
  match r with
  | None => Err (New "nil lifetime termination")
  | Some r =>
      validateLifetimeIdentity (lt_SchemaVersion r) (lt_RootID r) (lt_TaskID r) ;;
      ValidateSHA256 (lt_RegistrationSHA256 r) ;;
      ValidateSHA256 (lt_LaunchSetSHA256 r) ;;
      fail_if (negb (eqs (lt_Cause r) LifetimeTerminationCompleted || eqs (lt_Cause r) LifetimeTerminationBudget ||
                     eqs (lt_Cause r) LifetimeTerminationRequested ||
                     eqs (lt_Cause r) LifetimeTerminationRecovery ||
                     eqs (lt_Cause r) LifetimeTerminationPreviousBoot))
        (Errorf "invalid lifetime termination cause" (Sentinel task_ErrInvalidEnum)) ;;
      fail_if (negb (lt_ScopeEmpty r)) mismatch ;;
      validateTimestamp (lt_ObservedAt r)
  end.

(** ** Worker completion *)
Definition errAbsenceProof : error := Errorf "invalid lifetime absence proof" (Sentinel task_ErrInvalidEnum).

Definition present (s : string) : bool := negb (eqs s "").

Definition isAbsenceProof (proof : string) : bool :=
  eqs proof LifetimeAbsenceExactWorker || eqs proof LifetimeAbsencePreviousBoot ||
  eqs proof LifetimeAbsenceUnregisteredDisposed.

Definition validateLifetimeWorkerWaitAbsenceFields (r : LifetimeWorkerWaitRecord) : result unit :=
  if negb (eqs (ww_Result r) LifetimeWorkerWaitAbsent)
  then fail_if (present (ww_IntentSHA256 r) || present (ww_AbsenceProof r) || present (ww_ObservedBootID r)) mismatch
  else
    fail_if (negb (present (ww_RegistrationSHA256 r)) && negb (present (ww_IntentSHA256 r))) mismatch ;;
    fail_if (present (ww_RegistrationSHA256 r) && present (ww_IntentSHA256 r)) mismatch ;;
    (if present (ww_RegistrationSHA256 r) then ValidateSHA256 (ww_RegistrationSHA256 r) else Ok tt) ;;
    (if present (ww_IntentSHA256 r) then ValidateSHA256 (ww_IntentSHA256 r) else Ok tt) ;;
    fail_if (negb (validLifetimeToken (ww_ObservedBootID r))) mismatch ;;
    fail_if (negb (isAbsenceProof (ww_AbsenceProof r))) errAbsenceProof.

Definition is_some {A} (o : option A) : bool := match o with Some _ => true | None => false end.

Definition validateLifetimeWorkerWaitAbsenceResult (r : LifetimeWorkerWaitRecord) : result unit :=
  fail_if (is_some (ww_ExitCode r) || (negb (present (ww_WorkerSHA256 r)) && negb (ww_ChildPID r =? 0)) ||
           (present (ww_WorkerSHA256 r) && (ww_ChildPID r <=? 0))) mismatch ;;
  if eqs (ww_AbsenceProof r) LifetimeAbsenceExactWorker
  then fail_if (negb (present (ww_RegistrationSHA256 r)) || negb (present (ww_WorkerSHA256 r))) mismatch
  else if eqs (ww_AbsenceProof r) LifetimeAbsencePreviousBoot
  then fail_if (present (ww_IntentSHA256 r) && present (ww_WorkerSHA256 r)) mismatch
  else if eqs (ww_AbsenceProof r) LifetimeAbsenceUnregisteredDisposed
  then fail_if (negb (present (ww_IntentSHA256 r)) || present (ww_WorkerSHA256 r)) mismatch
  else Err errAbsenceProof.

Definition validateStartedLifetimeWorkerWait (r : LifetimeWorkerWaitRecord) : result unit :=
  fail_if (ww_ChildPID r <=? 0) mismatch.

Definition LifetimeWorkerWaitProvesNotStarted (wait : option LifetimeWorkerWaitRecord) : bool :=
  match wait with
  | Some w => eqs (ww_Result w) LifetimeWorkerWaitNotStarted && negb (present (ww_WorkerSHA256 w)) &&
              (ww_ChildPID w =? 0) && negb (is_some (ww_ExitCode w))
  | None => false
  end.

Definition validateLifetimeWorkerWaitResult (r : LifetimeWorkerWaitRecord) : result unit :=
  let result := ww_Result r in
  if eqs result LifetimeWorkerWaitAbsent then validateLifetimeWorkerWaitAbsenceResult r
  else if eqs result LifetimeWorkerWaitNotStarted
  then fail_if (negb (LifetimeWorkerWaitProvesNotStarted (Some r))) mismatch
  else if eqs result LifetimeWorkerWaitSuccess
  then validateStartedLifetimeWorkerWait r ;;
       fail_if (match ww_ExitCode r with Some code => negb (code =? 0) | None => true end) mismatch
  else if eqs result LifetimeWorkerWaitExitError
  then validateStartedLifetimeWorkerWait r ;;
       fail_if (match ww_ExitCode r with Some code => code =? 0 | None => true end) mismatch
  else if eqs result LifetimeWorkerWaitError then validateStartedLifetimeWorkerWait r
  else Err (Errorf "invalid lifetime worker wait result" (Sentinel task_ErrInvalidEnum)).

Definition ValidateLifetimeWorkerWaitRecord (r : option LifetimeWorkerWaitRecord) : result unit :=
  match r with
  | None => Err (New "nil lifetime worker wait")
  | Some r =>
      validateLifetimeIdentity (ww_SchemaVersion r) (ww_RootID r) (ww_TaskID r) ;;
      (if negb (eqs (ww_Result r) LifetimeWorkerWaitAbsent) then ValidateSHA256 (ww_RegistrationSHA256 r)
       else Ok tt) ;;
      (if present (ww_WorkerSHA256 r) then ValidateSHA256 (ww_WorkerSHA256 r) else Ok tt) ;;
      validateLifetimeWorkerWaitAbsenceFields r ;;
      validateLifetimeWorkerWaitResult r ;;
      validateLifetimeWorkerTimestamp (ww_ObservedAt r)
  end.

Definition LifetimeWorkerWaitMatchesRegistration (wait : option LifetimeWorkerWaitRecord)
    (registration : option LifetimeRegistrationRecord) (registrationSHA256 : string) : bool :=
  match wait, registration with
  | Some w, Some r => eqs (ww_RootID w) (lr_RootID r) && eqs (ww_TaskID w) (lr_TaskID r) &&
                      eqs (ww_RegistrationSHA256 w) registrationSHA256
  | _, _ => false
  end.

Definition LifetimeWorkerWaitMatchesWorker (wait : option LifetimeWorkerWaitRecord)
    (worker : option LifetimeWorkerRecord) (workerSHA256 : string) : bool :=
  match wait, worker with
  | Some w, Some k => present (ww_WorkerSHA256 w) && eqs (ww_WorkerSHA256 w) workerSHA256 &&
                      eqs (ww_RootID w) (lw_RootID k) && eqs (ww_TaskID w) (lw_TaskID k) &&
                      (ww_ChildPID w =? lw_PID k)
  | _, _ => false
  end.

Definition LifetimeWorkerWaitIsQualified (wait : option LifetimeWorkerWaitRecord) : bool :=
  match wait with
  | Some w => negb (eqs (ww_Result w) LifetimeWorkerWaitAbsent) && present (ww_WorkerSHA256 w)
  | None => false
  end.

Definition LifetimeWorkerWaitProvesAbsence (record : option LifetimeWorkerWaitRecord) : bool :=
  match record with Some r => eqs (ww_Result r) LifetimeWorkerWaitAbsent | None => false end.

Definition LifetimeIntentMatchesRegistration (intent : option LifetimeIntentRecord)
    (registration : option LifetimeRegistrationRecord) : bool :=
  match intent, registration with
  | Some i, Some r =>
      eqs (li_RootID i) (lr_RootID r) && eqs (li_TaskID i) (lr_TaskID r) &&
      eqs (li_OwnerKind i) (lr_OwnerKind r) && eqs (li_OwnerSHA256 i) (lr_OwnerSHA256 r) &&
      eqs (li_ScopeKind i) (lr_ScopeKind r) && eqs (li_Assurance i) (lr_Assurance r) &&
      eqs (li_BootID i) (lr_BootID r) && eqs (li_Deadline i) (lr_Deadline r)
  | _, _ => false
  end.

(** [LifetimeTaskOwnerSHA256] *)
Definition newline : string := str ["010"%char].

Definition LifetimeTaskOwnerSHA256 (specSHA256 metaSHA256 : string) : result string :=
  ValidateSHA256 specSHA256 ;; ValidateSHA256 metaSHA256 ;;
  Ok (ComputeSHA256 ("delegation-layer:lifetime-owner:task:v1" +:+ newline +:+ specSHA256 +:+ newline +:+ metaSHA256)).

(** ** The capacity of a launch set *)
Record lifetimeLaunchLimits : Set := MkLaunchLimits { lm_count : Z; lm_bytes : Z }.

Definition defaultLifetimeLaunchLimits : lifetimeLaunchLimits :=
  MkLaunchLimits MaxLifetimeLaunches MaxLifetimeLaunchBytes.

Record LifetimeLaunchCapacity : Set := MkLaunchCapacity {
  lc_count : Z; lc_bytes : Z; lc_limits : option lifetimeLaunchLimits
}.

Definition zeroLaunchCapacity : LifetimeLaunchCapacity := MkLaunchCapacity 0 0 None.

(** [addEncoded]; an error leaves the accumulator of the caller unchanged. *)
Definition addEncoded (c : LifetimeLaunchCapacity) (size : Z) : result LifetimeLaunchCapacity :=
  let limits := default defaultLifetimeLaunchLimits (lc_limits c) in
  fail_if (MaxControlRecordSize <? size)
    (Errorf "lifetime launch record exceeds canonical bytes" (Sentinel task_ErrEvidenceFault)) ;;
  fail_if (lm_count limits <=? lc_count c) (Errorf "lifetime launches" (Sentinel task_ErrEvidenceFault)) ;;
  fail_if (lm_bytes limits - lc_bytes c <? size)
    (Errorf "lifetime launch records exceed canonical bytes" (Sentinel task_ErrEvidenceFault)) ;;
  Ok (MkLaunchCapacity (lc_count c + 1) (lc_bytes c + size) (lc_limits c)).

Definition launchSize (record : LifetimeLaunchRecord) : Z := len (MarshalCanonical (jsonLaunch record)).

Definition AddLaunch (c : LifetimeLaunchCapacity) (record : LifetimeLaunchRecord) : result LifetimeLaunchCapacity :=
  addEncoded c (launchSize record).

Definition ValidateLifetimeLaunchSequence (sequence : Z) : result unit :=
  fail_if ((sequence =? 0) || (MaxLifetimeLaunches <? sequence))
    (Errorf "lifetime launch sequence is outside" (Sentinel task_ErrEvidenceFault)).

Fixpoint addLaunches (c : LifetimeLaunchCapacity) (launches : list LifetimeLaunchRecord)
  : result LifetimeLaunchCapacity :=
  match launches with
  | [] => Ok c
  | launch :: rest => c' ← AddLaunch c launch; addLaunches c' rest
  end.

Definition ValidateLifetimeLaunchCapacity (launches : list LifetimeLaunchRecord) : result unit :=
  addLaunches zeroLaunchCapacity launches ;; Ok tt.

Definition LifetimeLaunchSetDigest (launches : list LifetimeLaunchRecord) : string :=
  ComputeSHA256 (MarshalCanonical (JArray (map jsonLaunch launches))).

(** ** The unlaunched fence *)
Definition validateLifetimeUnlaunchedTimestamp (name value : string) : result time :=
  fail_if (eqs value "" || negb (eqs (TrimSpace value) value) || ContainsByte value "000")
    (New ("missing " +:+ name)) ;;
  parsed ← wrap_err (Errorf ("invalid " +:+ name)) (ParseRFC3339Nano value);
  fail_if (negb (eqs (FormatRFC3339Nano parsed) value)) (New (name +:+ " is not canonical UTC RFC3339Nano")) ;;
  fail_if (IsZero parsed) (Errorf (name +:+ " is zero") mismatch) ;;
  Ok parsed.

Definition ValidateLifetimeUnlaunchedRecord (r : option LifetimeUnlaunchedRecord) : result unit :=
  match r with
  | None => Err (New "nil lifetime unlaunched record")
  | Some r =>
      validateLifetimeIdentity (lu_SchemaVersion r) (lu_RootID r) (lu_TaskID r) ;;
      validateLifetimeOwner (lu_OwnerKind r) (lu_OwnerSHA256 r) ;;
      fail_if (negb (eqs (lu_OwnerKind r) LifetimeOwnerWorkspace) &&
               negb (eqs (lu_OwnerKind r) LifetimeOwnerInspection)) (Sentinel task_ErrInvalidEnum) ;;
      fail_if (negb (eqs (lu_Cause r) LifetimeUnlaunchedCauseDeadlineExpired))
        (Errorf "invalid lifetime unlaunched cause" (Sentinel task_ErrInvalidEnum)) ;;
      deadline ← validateLifetimeUnlaunchedTimestamp "lifetime unlaunched deadline" (lu_Deadline r);
      observedAt ← validateLifetimeUnlaunchedTimestamp "lifetime unlaunched observed_at" (lu_ObservedAt r);
      fail_if (Before observedAt deadline)
        (Errorf "lifetime unlaunched observation precedes deadline" mismatch)
  end.
