(* ===== verification/LifetimeClosure.v ===== *)
(** * Lifetime evidence and its closure

    [internal/task/lifetime_completion.go]: the set of records of one operation, the
    checks that bind each record to the others, the closure decision
    [ResolveLifetimeClosure] and the factory of worker-absence records.  Digests are
    SHA-256 over the canonical encodings, computed. *)
From S2P Require Import Prelude GoErrors GoTime GoText TaskTypes Encoding GoTimestamp TaskLifetime.

Record LifetimeEvidence : Set := MkEvidence {
  ev_Intent : option LifetimeIntentRecord;
  ev_Registration : option LifetimeRegistrationRecord;
  ev_Worker : option LifetimeWorkerRecord;
  ev_WorkerWait : option LifetimeWorkerWaitRecord;
  ev_Launches : list LifetimeLaunchRecord;
  ev_Termination : option LifetimeTerminationRecord
}.

Inductive LifetimeClosureKind : Set :=
| LifetimeClosureOpen | LifetimeClosureRegisteredNative | LifetimeClosureRegisteredRecovered
| LifetimeClosureLegacyPreviousBoot | LifetimeClosureUnregisteredRecovered.

#[global] Instance closure_eq_dec : EqDecision LifetimeClosureKind.
Proof. solve_decision. Defined.

Definition Closed (kind : LifetimeClosureKind) : bool :=
  match kind with LifetimeClosureOpen => false | _ => true end.

Definition withWait (e : LifetimeEvidence) (w : LifetimeWorkerWaitRecord) : LifetimeEvidence :=
  MkEvidence (ev_Intent e) (ev_Registration e) (ev_Worker e) (Some w) (ev_Launches e) (ev_Termination e).

(** [lifetimeCompletionDigest] at each record type. *)
Definition recordDigest (j : json) : string := ComputeSHA256 (MarshalCanonical j).
Definition intentDigest (r : LifetimeIntentRecord) : string := recordDigest (jsonIntent r).
Definition registrationDigest (r : LifetimeRegistrationRecord) : string := recordDigest (jsonRegistration r).
Definition workerDigest (r : LifetimeWorkerRecord) : string := recordDigest (jsonWorkerRecord r).
Definition waitDigest (r : LifetimeWorkerWaitRecord) : string := recordDigest (jsonWorkerWait r).

(** ** The facts of the records *)
Record lifetimeEvidenceIdentity : Set := MkIdentity { id_rootID : string; id_taskID : string }.

(** [identity.set] *)
Definition setIdentity (identity : lifetimeEvidenceIdentity) (rootID taskID : string)
  : result lifetimeEvidenceIdentity :=
  if eqs (id_rootID identity) "" then Ok (MkIdentity rootID taskID)
  else if negb (eqs (id_rootID identity) rootID) || negb (eqs (id_taskID identity) taskID)
  then Err mismatch else Ok identity.

(** [if record != nil { validate; identity.set }] *)
Definition checkRecord {A} (validate : option A -> result unit) (root task : A -> string)
    (r : option A) (identity : lifetimeEvidenceIdentity) : result lifetimeEvidenceIdentity :=
  match r with
  | None => Ok identity
  | Some a => validate (Some a) ;; setIdentity identity (root a) (task a)
  end.

Definition validateLifetimeScopeEvidence (e : LifetimeEvidence) (identity : lifetimeEvidenceIdentity)
  : result lifetimeEvidenceIdentity :=
  identity ← checkRecord ValidateLifetimeIntentRecord li_RootID li_TaskID (ev_Intent e) identity;
  checkRecord ValidateLifetimeRegistrationRecord lr_RootID lr_TaskID (ev_Registration e) identity.

(** The loop of [validateLifetimeEvidenceLaunches] from an index. *)
Fixpoint evidenceLaunches (launches : list LifetimeLaunchRecord) (index : Z)
    (identity : lifetimeEvidenceIdentity) : result unit :=
  match launches with
  | [] => Ok tt
  | launch :: rest =>
      ValidateLifetimeLaunchRecord (Some launch) ;;
      fail_if (negb (ll_Sequence launch =? index + 1)) mismatch ;;
      identity' ← setIdentity identity (ll_RootID launch) (ll_TaskID launch);
      evidenceLaunches rest (index + 1) identity'
  end.

Definition validateLifetimeEvidenceLaunches (e : LifetimeEvidence) (identity : lifetimeEvidenceIdentity)
  : result unit := evidenceLaunches (ev_Launches e) 0 identity.

Definition validateLifetimeEvidenceRecords (e : LifetimeEvidence) : result unit :=
  identity ← validateLifetimeScopeEvidence e (MkIdentity "" "");
  identity ← checkRecord ValidateLifetimeWorkerRecord lw_RootID lw_TaskID (ev_Worker e) identity;
  identity ← checkRecord ValidateLifetimeWorkerWaitRecord ww_RootID ww_TaskID (ev_WorkerWait e) identity;
  identity ← checkRecord ValidateLifetimeTerminationRecord lt_RootID lt_TaskID (ev_Termination e) identity;
  ValidateLifetimeLaunchCapacity (ev_Launches e) ;;
  validateLifetimeEvidenceLaunches e identity.

Definition validateLifetimeRegisteredEvidenceBindings (e : LifetimeEvidence)
    (registration : LifetimeRegistrationRecord) (digest : string) : result unit :=
  fail_if (match ev_Worker e with
           | Some w => negb (eqs (lw_RegistrationSHA256 w) digest) || negb (eqs (lw_BootID w) (lr_BootID registration))
           | None => false end) mismatch ;;
  fail_if (existsb (fun l => negb (eqs (ll_RegistrationSHA256 l) digest)) (ev_Launches e)) mismatch ;;
  fail_if (match ev_Termination e with
           | Some t => negb (eqs (lt_RegistrationSHA256 t) digest)
           | None => false end) mismatch.

Definition launchCount (e : LifetimeEvidence) : Z := Z.of_nat (length (ev_Launches e)).

Definition validateLifetimeEvidenceTermination (e : LifetimeEvidence) : result unit :=
  match ev_Termination e with
  | None => Ok tt
  | Some t => fail_if (negb (lt_LaunchCount t =? launchCount e) ||
                       negb (eqs (lt_LaunchSetSHA256 t) (LifetimeLaunchSetDigest (ev_Launches e)))) mismatch
  end.

Definition validateLifetimeEvidenceBindings (e : LifetimeEvidence) : result unit :=
  fail_if (negb (is_some (ev_Registration e)) &&
           (is_some (ev_Worker e) || negb (launchCount e =? 0) || is_some (ev_Termination e))) mismatch ;;
  fail_if (is_some (ev_Intent e) && is_some (ev_Registration e) &&
           negb (LifetimeIntentMatchesRegistration (ev_Intent e) (ev_Registration e))) mismatch ;;
  match ev_Registration e with
  | Some r => validateLifetimeRegisteredEvidenceBindings e r (registrationDigest r)
  | None => Ok tt
  end ;;
  validateLifetimeEvidenceTermination e.

Definition validateLifetimeEvidenceFacts (e : LifetimeEvidence) : result unit :=
  validateLifetimeEvidenceRecords e ;; validateLifetimeEvidenceBindings e.

(** ** The binding of a completion *)
Definition validateLifetimeExactWorkerAbsenceBinding (record : LifetimeWorkerWaitRecord)
    (termination : option LifetimeTerminationRecord) (registration : option LifetimeRegistrationRecord)
    (worker : option LifetimeWorkerRecord) : result unit :=
  match registration, worker, termination with
  | Some r, Some w, Some t =>
      fail_if (present (ww_IntentSHA256 record)) mismatch ;;
      fail_if (negb (eqs (ww_RegistrationSHA256 record) (registrationDigest r)) ||
               negb (eqs (ww_ObservedBootID record) (lr_BootID r))) mismatch ;;
      fail_if (negb (eqs (lw_BootID w) (lr_BootID r)) ||
               negb (LifetimeWorkerWaitMatchesWorker (Some record) (Some w) (workerDigest w))) mismatch ;;
      fail_if (eqs (lt_Cause t) LifetimeTerminationPreviousBoot) mismatch
  | _, _, _ => Err mismatch
  end.

Definition validateLifetimeRegisteredPreviousBootAbsenceBinding (record : LifetimeWorkerWaitRecord)
    (termination : option LifetimeTerminationRecord) (r : LifetimeRegistrationRecord)
    (worker : option LifetimeWorkerRecord) : result unit :=
  fail_if (negb (is_some termination)) mismatch ;;
  fail_if (negb (eqs (ww_RegistrationSHA256 record) (registrationDigest r)) ||
           eqs (ww_ObservedBootID record) (lr_BootID r)) mismatch ;;
  match worker with
  | None => fail_if (present (ww_WorkerSHA256 record) || negb (ww_ChildPID record =? 0)) mismatch
  | Some w => fail_if (negb (eqs (lw_BootID w) (lr_BootID r)) ||
                       negb (LifetimeWorkerWaitMatchesWorker (Some record) (Some w) (workerDigest w))) mismatch
  end.

Definition validateLifetimeIntentPreviousBootAbsenceBinding (record : LifetimeWorkerWaitRecord)
    (e : LifetimeEvidence) (intent : option LifetimeIntentRecord) (worker : option LifetimeWorkerRecord)
  : result unit :=
  match intent with
  | None => Err mismatch
  | Some i =>
      fail_if (negb (present (ww_IntentSHA256 record)) || is_some (ev_Termination e) || is_some worker ||
               negb (launchCount e =? 0) || present (ww_WorkerSHA256 record) ||
               negb (ww_ChildPID record =? 0) || eqs (ww_ObservedBootID record) (li_BootID i)) mismatch ;;
      fail_if (negb (eqs (ww_IntentSHA256 record) (intentDigest i))) mismatch
  end.

Definition validateLifetimeUnregisteredAbsenceBinding (record : LifetimeWorkerWaitRecord)
    (e : LifetimeEvidence) (intent : option LifetimeIntentRecord)
    (registration : option LifetimeRegistrationRecord) (worker : option LifetimeWorkerRecord) : result unit :=
  match intent with
  | None => Err mismatch
  | Some i =>
      fail_if (is_some registration || is_some worker || negb (launchCount e =? 0) ||
               is_some (ev_Termination e) || present (ww_RegistrationSHA256 record) ||
               negb (eqs (ww_ObservedBootID record) (li_BootID i))) mismatch ;;
      fail_if (negb (eqs (ww_IntentSHA256 record) (intentDigest i))) mismatch
  end.

Definition validateLifetimeAbsenceBinding (record : LifetimeWorkerWaitRecord) (e : LifetimeEvidence)
    (registration : option LifetimeRegistrationRecord) (intent : option LifetimeIntentRecord)
    (worker : option LifetimeWorkerRecord) : result unit :=
  fail_if (is_some registration && is_some intent &&
           negb (LifetimeIntentMatchesRegistration intent registration)) mismatch ;;
  if eqs (ww_AbsenceProof record) LifetimeAbsenceExactWorker
  then validateLifetimeExactWorkerAbsenceBinding record (ev_Termination e) registration worker
  else if eqs (ww_AbsenceProof record) LifetimeAbsencePreviousBoot
  then match registration with
       | Some r => validateLifetimeRegisteredPreviousBootAbsenceBinding record (ev_Termination e) r worker
       | None => validateLifetimeIntentPreviousBootAbsenceBinding record e intent worker
       end
  else if eqs (ww_AbsenceProof record) LifetimeAbsenceUnregisteredDisposed
  then validateLifetimeUnregisteredAbsenceBinding record e intent registration worker
  else Err errAbsenceProof.

Definition validateLifetimeNativeCompletionBinding (record : LifetimeWorkerWaitRecord) (e : LifetimeEvidence)
  : result unit :=
  match ev_Registration e with
  | None => Err mismatch
  | Some r =>
      let digest := registrationDigest r in
      fail_if (negb (LifetimeWorkerWaitMatchesRegistration (Some record) (Some r) digest)) mismatch ;;
      fail_if (is_some (ev_Intent e) && negb (LifetimeIntentMatchesRegistration (ev_Intent e) (Some r))) mismatch ;;
      match ev_Worker e with
      | None =>
          if LifetimeWorkerWaitProvesNotStarted (Some record)
          then fail_if (negb (launchCount e =? 0)) mismatch
          else fail_if (LifetimeWorkerWaitIsQualified (Some record) ||
                        negb (eqs (lr_Assurance r) LifetimeAssuranceExact)) mismatch
      | Some w =>
          fail_if (negb (eqs (lw_RegistrationSHA256 w) digest) || negb (eqs (lw_BootID w) (lr_BootID r)) ||
                   negb (LifetimeWorkerWaitMatchesWorker (Some record) (Some w) (workerDigest w))) mismatch
      end
  end.

Definition ValidateLifetimeCompletionBinding (record : option LifetimeWorkerWaitRecord) (e : LifetimeEvidence)
  : result unit :=
  match record with
  | None => Err (New "nil lifetime worker completion")
  | Some record =>
      fail_if (match ev_WorkerWait e with
               | Some w => negb (eqs (waitDigest record) (waitDigest w))
               | None => false end) mismatch ;;
      let e := withWait e record in
      validateLifetimeEvidenceFacts e ;;
      if eqs (ww_Result record) LifetimeWorkerWaitAbsent
      then validateLifetimeAbsenceBinding record e (ev_Registration e) (ev_Intent e) (ev_Worker e)
      else validateLifetimeNativeCompletionBinding record e
  end.

(** ** The closure decision *)
Definition lifetimeEvidenceFault (err : error) : error :=
  if errors_Is err task_ErrEvidenceFault then err else Joined "" [Sentinel task_ErrEvidenceFault; err].

Definition ResolveLifetimeClosure (e : LifetimeEvidence) : result LifetimeClosureKind :=
  wrap_err lifetimeEvidenceFault (validateLifetimeEvidenceFacts e) ;;
  match ev_WorkerWait e with
  | Some w =>
      wrap_err lifetimeEvidenceFault (ValidateLifetimeCompletionBinding (Some w) e) ;;
      if eqs (ww_Result w) LifetimeWorkerWaitAbsent
      then Ok (if is_some (ev_Registration e) then LifetimeClosureRegisteredRecovered
               else LifetimeClosureUnregisteredRecovered)
      else Ok (if is_some (ev_Termination e) then LifetimeClosureRegisteredNative else LifetimeClosureOpen)
  | None =>
      match ev_Termination e with
      | Some t =>
          if eqs (lt_Cause t) LifetimeTerminationPreviousBoot
          then if is_some (ev_Registration e) then Ok LifetimeClosureLegacyPreviousBoot
               else Err (lifetimeEvidenceFault mismatch)
          else Ok LifetimeClosureOpen
      | None => Ok LifetimeClosureOpen
      end
  end.

(** ** The absence factory *)
Definition NewLifetimeWorkerAbsence (e : LifetimeEvidence) (proof observedBootID : string) (observedAt : time)
  : result LifetimeWorkerWaitRecord :=
  fail_if (IsZero observedAt) (New "lifetime absence observation time is zero") ;;
  fail_if (is_some (ev_WorkerWait e)) mismatch ;;
  validateLifetimeEvidenceFacts e ;;
  fail_if (negb (validLifetimeToken observedBootID)) mismatch ;;
  '(rootID, taskID, registrationSHA256, intentSHA256) ←
    match ev_Registration e, ev_Intent e with
    | Some r, _ => Ok (lr_RootID r, lr_TaskID r, registrationDigest r, ""%string)
    | None, Some i => Ok (li_RootID i, li_TaskID i, ""%string, intentDigest i)
    | None, None => Err mismatch
    end;
  let '(workerSHA256, childPID) :=
    match ev_Worker e with Some w => (workerDigest w, lw_PID w) | None => (""%string, 0) end in
  let record := MkWorkerWait SchemaVersion rootID taskID registrationSHA256 workerSHA256 childPID
                  LifetimeWorkerWaitAbsent None (FormatRFC3339Nano observedAt) intentSHA256 proof observedBootID in
  ValidateLifetimeWorkerWaitRecord (Some record) ;;
  ValidateLifetimeCompletionBinding (Some record) (withWait e record) ;;
  Ok record.
