(* ===== verification/LifetimeClosureTheorems.v ===== *)
(** * Lifetime closure: theorems

    The closure decision against a declarative account of what closes a lifetime, its
    stability as records are added, the absence factory, and the exact capacity of a
    launch set. *)
From S2P Require Import Prelude GoErrors GoTime GoText TaskTypes Encoding GoTimestamp TaskLifetime LifetimeClosure.

(** ** What closes a lifetime *)

(** The completion names the recorded worker. *)
Definition namesWorker (w : LifetimeWorkerWaitRecord) (k : LifetimeWorkerRecord) : Prop :=
  ww_WorkerSHA256 w = workerDigest k /\ ww_ChildPID w = lw_PID k.

(** The termination observed the registered scope empty after exactly these launches. *)
Definition scopeEmptied (e : LifetimeEvidence) (r : LifetimeRegistrationRecord) (t : LifetimeTerminationRecord) : Prop :=
  lt_ScopeEmpty t = true /\ lt_RegistrationSHA256 t = registrationDigest r /\
  lt_LaunchCount t = launchCount e /\ lt_LaunchSetSHA256 t = LifetimeLaunchSetDigest (ev_Launches e).

(** A native completion accounts for the worker: it names the recorded one, or no
    worker started and nothing was launched, or the scope itself is exact. *)
Definition accountsForWorker (e : LifetimeEvidence) (r : LifetimeRegistrationRecord) (w : LifetimeWorkerWaitRecord) : Prop :=
  match ev_Worker e with
  | Some k => namesWorker w k
  | None => if LifetimeWorkerWaitProvesNotStarted (Some w) then ev_Launches e = []
            else ww_WorkerSHA256 w = "" /\ lr_Assurance r = LifetimeAssuranceExact
  end.

(** A registered absence: the named worker is gone on the boot of the scope, or the
    machine has booted again. *)
Inductive absentRegistered (e : LifetimeEvidence) (r : LifetimeRegistrationRecord) (w : LifetimeWorkerWaitRecord)
    (t : LifetimeTerminationRecord) : Prop :=
| absent_exact k :
    ww_AbsenceProof w = LifetimeAbsenceExactWorker -> ev_Worker e = Some k -> namesWorker w k ->
    ww_ObservedBootID w = lr_BootID r -> lt_Cause t <> LifetimeTerminationPreviousBoot ->
    absentRegistered e r w t
| absent_rebooted :
    ww_AbsenceProof w = LifetimeAbsencePreviousBoot -> ww_ObservedBootID w <> lr_BootID r ->
    match ev_Worker e with
    | Some k => namesWorker w k
    | None => ww_WorkerSHA256 w = ""%string /\ ww_ChildPID w = 0
    end -> absentRegistered e r w t.

Inductive closes (e : LifetimeEvidence) : LifetimeClosureKind -> Prop :=
| closes_native r w t :
    ev_Registration e = Some r -> ev_WorkerWait e = Some w -> ev_Termination e = Some t ->
    ww_Result w <> LifetimeWorkerWaitAbsent -> ww_RegistrationSHA256 w = registrationDigest r ->
    accountsForWorker e r w -> scopeEmptied e r t ->
    closes e LifetimeClosureRegisteredNative
| closes_recovered r w t :
    ev_Registration e = Some r -> ev_WorkerWait e = Some w -> ev_Termination e = Some t ->
    ww_Result w = LifetimeWorkerWaitAbsent -> ww_RegistrationSHA256 w = registrationDigest r ->
    absentRegistered e r w t -> scopeEmptied e r t ->
    closes e LifetimeClosureRegisteredRecovered
| closes_unregistered i w :
    ev_Registration e = None -> ev_Intent e = Some i -> ev_WorkerWait e = Some w ->
    ev_Worker e = None -> ev_Launches e = [] -> ev_Termination e = None ->
    ww_Result w = LifetimeWorkerWaitAbsent -> ww_IntentSHA256 w = intentDigest i ->
    (ww_AbsenceProof w = LifetimeAbsencePreviousBoot /\ ww_ObservedBootID w <> li_BootID i \/
     ww_AbsenceProof w = LifetimeAbsenceUnregisteredDisposed /\ ww_ObservedBootID w = li_BootID i) ->
    closes e LifetimeClosureUnregisteredRecovered
| closes_legacy r t :
    ev_Registration e = Some r -> ev_WorkerWait e = None -> ev_Termination e = Some t ->
    lt_Cause t = LifetimeTerminationPreviousBoot -> scopeEmptied e r t ->
    closes e LifetimeClosureLegacyPreviousBoot.

(** ** Inversion of the record checks *)
Lemma setIdentity_Ok i root task i' :
  setIdentity i root task = Ok i' -> root <> ""%string -> id_rootID i' = root /\ id_taskID i' = task.
Proof.
  unfold setIdentity. destruct (eqs (id_rootID i) "") eqn:E; [by intros [= <-]|].
  destruct (negb _ || negb _) eqn:E2; [done|]. intros [= <-] _.
  apply orb_false_iff in E2 as [E2 E3]. apply negb_false_iff, eqs_true in E2, E3. done.
Qed.

Lemma if_Err_Ok {A} (b : bool) (e : error) (m : result A) a :
  (if b then Err e else m) = Ok a <-> b = false /\ m = Ok a.
Proof. destruct b; naive_solver. Qed.

(** Read a successful check: every guard is false, every test of strings an equation. *)
Ltac read_ok :=
  repeat (inv_ok; match goal with
  | H : Ok _ = Ok _ |- _ => clear H
  | H : (_ || _) = false |- _ => apply orb_false_iff in H as [? ?]
  | H : (_ && _) = true |- _ => apply andb_true_iff in H as [? ?]
  | H : negb _ = false |- _ => apply negb_false_iff in H
  | H : negb _ = true |- _ => apply negb_true_iff in H
  | H : eqs _ _ = true |- _ => apply eqs_true in H
  | H : eqs _ _ = false |- _ => apply eqs_false in H
  | H : present _ = false |- _ => unfold present in H
  | H : present _ = true |- _ => unfold present in H
  | H : (_ =? _) = true |- _ => apply Z.eqb_eq in H
  | H : (_ =? _) = false |- _ => apply Z.eqb_neq in H
  | H : (_ <=? _) = false |- _ => apply Z.leb_gt in H
  | H : (_ <? _) = false |- _ => apply Z.ltb_ge in H
  | H : is_some ?o = true |- _ => destruct o eqn:?; [clear H|discriminate H]
  | H : is_some ?o = false |- _ => destruct o eqn:?; [discriminate H|clear H]
  end).

(** Decide the tests between constants. *)
Ltac eval_eqs :=
  repeat match goal with
  | H : context [eqs ?a ?b] |- _ =>
      let v := eval vm_compute in (eqs a b) in
      match v with true => change (eqs a b) with true in H | false => change (eqs a b) with false in H end
  | |- context [eqs ?a ?b] =>
      let v := eval vm_compute in (eqs a b) in
      match v with true => change (eqs a b) with true | false => change (eqs a b) with false end
  end.

Lemma launchCount_nil e : launchCount e = 0 <-> ev_Launches e = [].
Proof. unfold launchCount. destruct (ev_Launches e); cbn; [done|]. split; [lia|done]. Qed.

Lemma withWait_same e w : ev_WorkerWait e = Some w -> withWait e w = e.
Proof. destruct e. cbn. by intros ->. Qed.

Lemma validateLifetimeIdentity_root schema root task u :
  validateLifetimeIdentity schema root task = Ok u -> root <> ""%string.
Proof. unfold validateLifetimeIdentity, ValidateRootID. intros H. inv_ok. intros ->. bool_prop. by vm_compute in H1. Qed.

Lemma setIdentity_keeps i root task i' :
  setIdentity i root task = Ok i' -> id_rootID i <> ""%string -> i' = i.
Proof.
  unfold setIdentity. intros H Hi. apply eqs_false in Hi. rewrite Hi in H.
  by destruct (negb _ || negb _); simplify_eq.
Qed.

(** One checked record: the accumulated identity is the record's, and was it before
    or empty. *)
Lemma checkRecord_Ok {A} validate (root task : A -> string) r i i' :
  (forall a u, validate (Some a) = Ok u -> root a <> ""%string) ->
  checkRecord validate root task r i = Ok i' ->
  (id_rootID i <> ""%string -> i' = i) /\
  (forall a, r = Some a -> validate (Some a) = Ok tt /\ i' = MkIdentity (root a) (task a) /\ id_rootID i' <> ""%string).
Proof.
  intros Hv H. destruct r as [a|]; cbn in H; [|simplify_eq; done]. inv_ok.
  split; [by apply setIdentity_keeps with (root a) (task a)|]. intros a' [= <-].
  pose proof (Hv _ _ H) as Hr. destruct (setIdentity_Ok _ _ _ _ H0 Hr) as [E1 E2].
  destruct i'; cbn in *; subst. done.
Qed.

Lemma intent_root a u : ValidateLifetimeIntentRecord (Some a) = Ok u -> li_RootID a <> ""%string.
Proof. cbn. intros (? & ?%validateLifetimeIdentity_root & _)%bind_Ok. done. Qed.
Lemma registration_root a u : ValidateLifetimeRegistrationRecord (Some a) = Ok u -> lr_RootID a <> ""%string.
Proof. cbn. intros (? & ?%validateLifetimeIdentity_root & _)%bind_Ok. done. Qed.
Lemma worker_root a u : ValidateLifetimeWorkerRecord (Some a) = Ok u -> lw_RootID a <> ""%string.
Proof. cbn. intros (? & ?%validateLifetimeIdentity_root & _)%bind_Ok. done. Qed.
Lemma wait_root a u : ValidateLifetimeWorkerWaitRecord (Some a) = Ok u -> ww_RootID a <> ""%string.
Proof. cbn. intros (? & ?%validateLifetimeIdentity_root & _)%bind_Ok. done. Qed.
Lemma termination_root a u : ValidateLifetimeTerminationRecord (Some a) = Ok u -> lt_RootID a <> ""%string.
Proof. cbn. intros (? & ?%validateLifetimeIdentity_root & _)%bind_Ok. done. Qed.

(** The records are valid and carry one identity. *)
Record recordFacts (e : LifetimeEvidence) (id : lifetimeEvidenceIdentity) : Prop := {
  rf_intent i : ev_Intent e = Some i ->
    ValidateLifetimeIntentRecord (Some i) = Ok tt /\ id = MkIdentity (li_RootID i) (li_TaskID i);
  rf_registration r : ev_Registration e = Some r ->
    ValidateLifetimeRegistrationRecord (Some r) = Ok tt /\ id = MkIdentity (lr_RootID r) (lr_TaskID r);
  rf_worker k : ev_Worker e = Some k ->
    ValidateLifetimeWorkerRecord (Some k) = Ok tt /\ id = MkIdentity (lw_RootID k) (lw_TaskID k);
  rf_wait w : ev_WorkerWait e = Some w ->
    ValidateLifetimeWorkerWaitRecord (Some w) = Ok tt /\ id = MkIdentity (ww_RootID w) (ww_TaskID w);
  rf_termination t : ev_Termination e = Some t ->
    ValidateLifetimeTerminationRecord (Some t) = Ok tt /\ id = MkIdentity (lt_RootID t) (lt_TaskID t);
  rf_capacity : ValidateLifetimeLaunchCapacity (ev_Launches e) = Ok tt;
  rf_launches : validateLifetimeEvidenceLaunches e id = Ok tt
}.

(** A reverse construction needs the identity at every step; [from] is the identity
    before a record and [id] the final one. *)
Definition consistent (from id : lifetimeEvidenceIdentity) : Prop := id_rootID from = ""%string \/ from = id.

Lemma checkRecord_build {A} validate (root task : A -> string) r from id :
  consistent from id ->
  (forall a, r = Some a -> validate (Some a) = Ok tt /\ id = MkIdentity (root a) (task a)) ->
  exists from', checkRecord validate root task r from = Ok from' /\ consistent from' id /\
                (r = None -> from' = from) /\ (is_some r = true -> from' = id).
Proof.
  intros Hc Hr. destruct r as [a|]; cbn; [|by exists from].
  destruct (Hr a eq_refl) as [-> Hid]. cbn. exists id. unfold setIdentity.
  destruct Hc as [-> | ->]; cbn; [by subst; repeat split; try done; right|].
  destruct (eqs (id_rootID id) "") eqn:E; subst id; cbn in *; [by repeat split; try done; right|].
  rewrite !eqs_refl. cbn. repeat split; try done; by right.
Qed.

Lemma records_facts e :
  validateLifetimeEvidenceRecords e = Ok tt ->
  exists id, recordFacts e id.
Proof.
  unfold validateLifetimeEvidenceRecords, validateLifetimeScopeEvidence. intros H. inv_ok.
  repeat match goal with
  | H : checkRecord ValidateLifetimeIntentRecord _ _ _ _ = Ok _ |- _ => apply (checkRecord_Ok _ _ _ _ _ _ intent_root) in H as [? ?]
  | H : checkRecord ValidateLifetimeRegistrationRecord _ _ _ _ = Ok _ |- _ => apply (checkRecord_Ok _ _ _ _ _ _ registration_root) in H as [? ?]
  | H : checkRecord ValidateLifetimeWorkerRecord _ _ _ _ = Ok _ |- _ => apply (checkRecord_Ok _ _ _ _ _ _ worker_root) in H as [? ?]
  | H : checkRecord ValidateLifetimeWorkerWaitRecord _ _ _ _ = Ok _ |- _ => apply (checkRecord_Ok _ _ _ _ _ _ wait_root) in H as [? ?]
  | H : checkRecord ValidateLifetimeTerminationRecord _ _ _ _ = Ok _ |- _ => apply (checkRecord_Ok _ _ _ _ _ _ termination_root) in H as [? ?]
  end.
  eexists. split; try done; intros a Ha;
    match goal with V : forall b, _ = Some b -> _ |- _ => destruct (V _ Ha) as (? & ? & ?) end;
    (split; [done|]);
    repeat match goal with
    | K : id_rootID ?x <> _ -> ?y = ?x, N : id_rootID ?x <> _ |- _ => specialize (K N); subst y
    end; done.
Qed.

(** With a completion recorded, the facts of the records are also sufficient. *)
Lemma records_build e id w :
  recordFacts e id -> ev_WorkerWait e = Some w -> validateLifetimeEvidenceRecords e = Ok tt.
Proof.
  intros F Hw. unfold validateLifetimeEvidenceRecords, validateLifetimeScopeEvidence.
  assert (consistent (MkIdentity "" "") id) as C0 by (by left).
  destruct (checkRecord_build ValidateLifetimeIntentRecord li_RootID li_TaskID (ev_Intent e) _ id C0 (rf_intent _ _ F))
    as (i1 & E1 & C1 & _).
  destruct (checkRecord_build ValidateLifetimeRegistrationRecord lr_RootID lr_TaskID (ev_Registration e) _ id C1
    (rf_registration _ _ F)) as (i2 & E2 & C2 & _).
  destruct (checkRecord_build ValidateLifetimeWorkerRecord lw_RootID lw_TaskID (ev_Worker e) _ id C2 (rf_worker _ _ F))
    as (i3 & E3 & C3 & _).
  destruct (checkRecord_build ValidateLifetimeWorkerWaitRecord ww_RootID ww_TaskID (ev_WorkerWait e) _ id C3 (rf_wait _ _ F))
    as (i4 & E4 & C4 & _ & S4).
  rewrite Hw in S4. specialize (S4 eq_refl). subst i4.
  destruct (checkRecord_build ValidateLifetimeTerminationRecord lt_RootID lt_TaskID (ev_Termination e) _ id C4
    (rf_termination _ _ F)) as (i5 & E5 & C5 & N5 & S5).
  assert (i5 = id) as -> by (destruct (ev_Termination e); auto).
  rewrite E1. cbn. rewrite E2. cbn. rewrite E3. cbn. rewrite E4. cbn. rewrite E5. cbn.
  by rewrite (rf_capacity _ _ F), (rf_launches _ _ F).
Qed.

(** The records bind each other. *)
Record bindings (e : LifetimeEvidence) : Prop := {
  bd_unregistered : ev_Registration e = None ->
    ev_Worker e = None /\ ev_Launches e = [] /\ ev_Termination e = None;
  bd_intent : is_some (ev_Intent e) = true -> is_some (ev_Registration e) = true ->
    LifetimeIntentMatchesRegistration (ev_Intent e) (ev_Registration e) = true;
  bd_worker r k : ev_Registration e = Some r -> ev_Worker e = Some k ->
    lw_RegistrationSHA256 k = registrationDigest r /\ lw_BootID k = lr_BootID r;
  bd_launches r : ev_Registration e = Some r ->
    Forall (fun l => ll_RegistrationSHA256 l = registrationDigest r) (ev_Launches e);
  bd_termination r t : ev_Registration e = Some r -> ev_Termination e = Some t ->
    lt_RegistrationSHA256 t = registrationDigest r;
  bd_count t : ev_Termination e = Some t ->
    lt_LaunchCount t = launchCount e /\ lt_LaunchSetSHA256 t = LifetimeLaunchSetDigest (ev_Launches e)
}.

Lemma existsb_false {A} (f : A -> bool) l : existsb f l = false <-> Forall (fun a => f a = false) l.
Proof.
  induction l as [|a l IH]; cbn; [by split|]. rewrite orb_false_iff, IH, Forall_cons. done.
Qed.

Lemma bindings_Ok e : validateLifetimeEvidenceBindings e = Ok tt <-> bindings e.
Proof.
  unfold validateLifetimeEvidenceBindings, validateLifetimeRegisteredEvidenceBindings, validateLifetimeEvidenceTermination.
  split.
  - intros H. inv_ok. read_ok. split.
    + intros Hr. rewrite Hr in H. cbn in H. read_ok. by rewrite <- launchCount_nil.
    + intros Hi Hr. rewrite Hi, Hr in H0. cbn in H0. by apply negb_false_iff in H0.
    + intros r k Hr Hk. rewrite Hr in H1. rewrite Hk in H1. inv_ok. by read_ok.
    + intros r Hr. rewrite Hr in H1. inv_ok. apply existsb_false in H3.
      eapply Forall_impl; [exact H3|]. cbn. intros l Hl. by read_ok.
    + intros r t Hr Ht. rewrite Hr, Ht in H1. inv_ok. by read_ok.
    + intros t Ht. rewrite Ht in H2. inv_ok. by read_ok.
  - intros B. destruct (ev_Registration e) as [r|] eqn:Er; cbn [is_some negb andb fail_if mbind result_bind].
    + rewrite andb_true_r. pose proof (bd_intent _ B) as Hi. rewrite Er in Hi.
      replace (is_some (ev_Intent e) && _) with false
        by (destruct (is_some (ev_Intent e)); [by rewrite Hi|done]). cbn.
      replace (match ev_Worker e with Some w => _ | None => false end) with false
        by (destruct (ev_Worker e) as [k|] eqn:Ek; [destruct (bd_worker _ B _ _ Er Ek) as [-> ->]; by rewrite !eqs_refl|done]).
      replace (existsb _ (ev_Launches e)) with false.
      2: { symmetry. apply existsb_false. eapply Forall_impl; [exact (bd_launches _ B _ Er)|].
           cbn. intros l ->. by rewrite eqs_refl. }
      cbn. destruct (ev_Termination e) as [t|] eqn:Et; [|done]. cbn.
      rewrite (bd_termination _ B _ _ Er Et), eqs_refl. cbn.
      destruct (bd_count _ B _ Et) as [-> ->]. by rewrite Z.eqb_refl, eqs_refl.
    + destruct (bd_unregistered _ B Er) as (-> & Hl & ->). rewrite (proj2 (launchCount_nil e) Hl).
      by rewrite andb_false_r.
Qed.

Lemma facts_Ok e :
  validateLifetimeEvidenceFacts e = Ok tt ->
  bindings e /\ exists id, recordFacts e id.
Proof.
  unfold validateLifetimeEvidenceFacts. intros (? & H1 & H2)%bind_Ok. destruct x.
  split; [by apply bindings_Ok|by apply records_facts].
Qed.

(** ** The binding of a completion, declaratively *)
Lemma present_true s : present s = true <-> s <> ""%string.
Proof. unfold present. by rewrite negb_true_iff, eqs_false. Qed.
Lemma present_false s : present s = false <-> s = ""%string.
Proof. unfold present. by rewrite negb_false_iff, eqs_true. Qed.

Lemma matchesWorker_spec w k id :
  id = MkIdentity (ww_RootID w) (ww_TaskID w) -> id = MkIdentity (lw_RootID k) (lw_TaskID k) ->
  LifetimeWorkerWaitMatchesWorker (Some w) (Some k) (workerDigest k) = true <-> namesWorker w k.
Proof.
  intros -> [= E1 E2]. cbn. unfold namesWorker. rewrite !andb_true_iff, present_true, !eqs_true, Z.eqb_eq.
  split; [naive_solver|]. intros [Hd Hp]. repeat split; try done.
  rewrite Hd. apply ComputeSHA256_nonempty.
Qed.

Lemma fail_if_tt b e : fail_if b e = Ok tt <-> b = false.
Proof. apply fail_if_Ok. Qed.

Lemma native_spec e w r id :
  bindings e -> recordFacts e id -> ev_WorkerWait e = Some w -> ev_Registration e = Some r ->
  ww_Result w <> LifetimeWorkerWaitAbsent ->
  validateLifetimeNativeCompletionBinding w e = Ok tt <->
  ww_RegistrationSHA256 w = registrationDigest r /\ accountsForWorker e r w.
Proof.
  intros B F Hw Hr Hres. unfold validateLifetimeNativeCompletionBinding. rewrite Hr.
  destruct (rf_wait _ _ F _ Hw) as [_ Hidw]. destruct (rf_registration _ _ F _ Hr) as [_ Hidr].
  rewrite Hidw in Hidr. injection Hidr as Er Et.
  replace (is_some (ev_Intent e) && _) with false.
  2: { destruct (ev_Intent e) as [i|] eqn:Ei; [|done]. cbn [is_some andb]. rewrite <- Hr, <- Ei.
       rewrite (bd_intent _ B); [done|by rewrite Ei|by rewrite Hr]. }
  assert (LifetimeWorkerWaitMatchesRegistration (Some w) (Some r) (registrationDigest r) = true <->
          ww_RegistrationSHA256 w = registrationDigest r) as HM.
  { cbn. rewrite Er, Et, !eqs_refl. cbn. apply eqs_true. }
  destruct (LifetimeWorkerWaitMatchesRegistration _ _ _) eqn:EM; cbn [negb fail_if mbind result_bind].
  2: { split; [done|]. intros [H _]. by apply HM in H. }
  transitivity (accountsForWorker e r w); [|naive_solver].
  unfold accountsForWorker. destruct (ev_Worker e) as [k|] eqn:Ek.
  - destruct (bd_worker _ B _ _ Hr Ek) as [-> ->]. rewrite !eqs_refl. cbn [negb orb].
    rewrite fail_if_tt, negb_false_iff. apply (matchesWorker_spec w k id); [done|].
    by apply (rf_worker _ _ F).
  - destruct (LifetimeWorkerWaitProvesNotStarted _).
    + by rewrite fail_if_tt, negb_false_iff, Z.eqb_eq, launchCount_nil.
    + rewrite fail_if_tt, orb_false_iff, negb_false_iff, eqs_true. cbn [LifetimeWorkerWaitIsQualified].
      apply eqs_false in Hres. rewrite Hres. cbn. by rewrite present_false.
Qed.

(** What a valid absence record already guarantees. *)
Lemma absence_fields w :
  ValidateLifetimeWorkerWaitRecord (Some w) = Ok tt -> ww_Result w = LifetimeWorkerWaitAbsent ->
  (ww_RegistrationSHA256 w <> "" /\ ww_IntentSHA256 w = "" \/
   ww_RegistrationSHA256 w = "" /\ ww_IntentSHA256 w <> "") /\
  (ww_AbsenceProof w = LifetimeAbsencePreviousBoot -> ww_IntentSHA256 w <> "" ->
   ww_WorkerSHA256 w = "" /\ ww_ChildPID w = 0) /\
  (ww_AbsenceProof w = LifetimeAbsenceUnregisteredDisposed -> ww_RegistrationSHA256 w = "").
Proof.
  intros H Hr. cbn in H. inv_ok. unfold validateLifetimeWorkerWaitAbsenceFields in H2.
  unfold validateLifetimeWorkerWaitResult, validateLifetimeWorkerWaitAbsenceResult in H3.
  rewrite Hr, eqs_refl in H2, H3. cbn [negb] in H2.
  apply bind_Ok in H2 as (? & A1%fail_if_Ok & (? & A2%fail_if_Ok & _)%bind_Ok).
  apply bind_Ok in H3 as (? & A3%fail_if_Ok & A4).
  assert (forall s, present s = false -> s = ""%string) as PF by (intros s; apply present_false).
  assert (forall s, present s = true -> s <> ""%string) as PT by (intros s; apply present_true).
  refine (conj _ (conj _ _)).
  - destruct (present (ww_RegistrationSHA256 w)) eqn:ER, (present (ww_IntentSHA256 w)) eqn:EI; try done; auto.
  - intros Hp Hi%present_true. rewrite Hp in A4. eval_eqs. cbv iota in A4. rewrite Hi in A4.
    apply fail_if_Ok in A4. cbn in A4. rewrite A4 in A3. cbn in A3. read_ok. auto.
  - intros Hp. rewrite Hp in A4. eval_eqs. cbv iota in A4. apply fail_if_Ok, orb_false_iff in A4 as [A4 _].
    apply negb_false_iff in A4. rewrite A4, andb_true_r in A2. auto.
Qed.

Lemma absence_registered e w r id :
  bindings e -> recordFacts e id -> ev_WorkerWait e = Some w -> ev_Registration e = Some r ->
  ww_Result w = LifetimeWorkerWaitAbsent ->
  validateLifetimeAbsenceBinding w e (ev_Registration e) (ev_Intent e) (ev_Worker e) = Ok tt <->
  ww_RegistrationSHA256 w = registrationDigest r /\
  exists t, ev_Termination e = Some t /\ absentRegistered e r w t.
Proof.
  intros B F Hw Hr Hres. unfold validateLifetimeAbsenceBinding.
  destruct (rf_wait _ _ F _ Hw) as [HV Hidw]. destruct (absence_fields w HV Hres) as (HF & _ & HD).
  replace (is_some (ev_Registration e) && is_some (ev_Intent e) && _) with false.
  2: { rewrite Hr. cbn. destruct (is_some (ev_Intent e)) eqn:Ei; [|done]. cbn. rewrite <- Hr, (bd_intent _ B); try done. by rewrite Hr. }
  rewrite Hr. cbn [fail_if mbind result_bind].
  assert (forall k, ev_Worker e = Some k ->
    (negb (eqs (lw_BootID k) (lr_BootID r)) ||
     negb (LifetimeWorkerWaitMatchesWorker (Some w) (Some k) (workerDigest k)) = false <-> namesWorker w k)) as HN.
  { intros k Hk. destruct (bd_worker _ B _ _ Hr Hk) as [_ ->]. rewrite eqs_refl. cbn [negb orb]. rewrite negb_false_iff.
    apply (matchesWorker_spec w k id); [done|]. by apply (rf_worker _ _ F). }
  destruct (eqs (ww_AbsenceProof w) LifetimeAbsenceExactWorker) eqn:E1; [apply eqs_true in E1|].
  { unfold validateLifetimeExactWorkerAbsenceBinding. split.
    - destruct (ev_Worker e) as [k|] eqn:Ek; [|done]. destruct (ev_Termination e) as [t|] eqn:Et; [|done].
      intros H. inv_ok. apply (HN k eq_refl) in H1. read_ok. split; [done|]. exists t. split; [done|].
      by apply absent_exact with k.
    - intros (HR & t & -> & [k _ Hk Hn Hb Hc | Hp _ _]); [|by rewrite E1 in Hp]. rewrite Hk.
      destruct HF as [[_ HI]|[HF _]]; [|exfalso; rewrite HR in HF; by apply ComputeSHA256_nonempty in HF].
      rewrite (proj2 (present_false _) HI). rewrite HR, Hb, !eqs_refl. cbn [negb orb fail_if mbind result_bind].
      rewrite (proj2 (HN k Hk) Hn). cbn. apply eqs_false in Hc. by rewrite Hc. }
  destruct (eqs (ww_AbsenceProof w) LifetimeAbsencePreviousBoot) eqn:E2; [apply eqs_true in E2|].
  { unfold validateLifetimeRegisteredPreviousBootAbsenceBinding. split.
    - destruct (ev_Termination e) as [t|] eqn:Et; [|done]. intros H. inv_ok. read_ok.
      split; [done|]. exists t. split; [done|]. apply absent_rebooted; try done.
      destruct (ev_Worker e) as [k|] eqn:Ek; [apply fail_if_Ok in H1; by apply (HN k eq_refl)|].
      read_ok. done.
    - intros (HR & t & -> & [k Hp _ _ _ _ | _ Hb Hn]); [by rewrite E2 in Hp|]. cbn [is_some negb fail_if mbind result_bind].
      rewrite HR, eqs_refl. apply eqs_false in Hb. rewrite Hb. cbn [negb orb fail_if mbind result_bind].
      destruct (ev_Worker e) as [k|]; [by rewrite (proj2 (HN k eq_refl) Hn)|].
      destruct Hn as [-> ->]. done. }
  split.
  - destruct (eqs (ww_AbsenceProof w) LifetimeAbsenceUnregisteredDisposed); [|done].
    unfold validateLifetimeUnregisteredAbsenceBinding. by destruct (ev_Intent e).
  - intros (_ & t & _ & [k Hp _ _ _ _ | Hp _ _]); rewrite Hp in *; done.
Qed.

Lemma absence_unregistered e w id :
  bindings e -> recordFacts e id -> ev_WorkerWait e = Some w -> ev_Registration e = None ->
  ww_Result w = LifetimeWorkerWaitAbsent ->
  validateLifetimeAbsenceBinding w e (ev_Registration e) (ev_Intent e) (ev_Worker e) = Ok tt <->
  exists i, ev_Intent e = Some i /\ ww_IntentSHA256 w = intentDigest i /\
    (ww_AbsenceProof w = LifetimeAbsencePreviousBoot /\ ww_ObservedBootID w <> li_BootID i \/
     ww_AbsenceProof w = LifetimeAbsenceUnregisteredDisposed /\ ww_ObservedBootID w = li_BootID i).
Proof.
  intros B F Hw Hr Hres. unfold validateLifetimeAbsenceBinding.
  destruct (rf_wait _ _ F _ Hw) as [HV Hidw]. destruct (absence_fields w HV Hres) as (HF & HP & HD).
  destruct (bd_unregistered _ B Hr) as (Hk & Hl & Ht). apply launchCount_nil in Hl. rewrite Hr, Hk. cbn [is_some andb fail_if mbind result_bind].
  destruct (eqs (ww_AbsenceProof w) LifetimeAbsenceExactWorker) eqn:E1; [apply eqs_true in E1|].
  { split; [done|]. rewrite E1. intros (i & _ & _ & [[? _]|[? _]]); done. }
  unfold validateLifetimeIntentPreviousBootAbsenceBinding, validateLifetimeUnregisteredAbsenceBinding. rewrite Ht, Hl.
  destruct (eqs (ww_AbsenceProof w) LifetimeAbsencePreviousBoot) eqn:E2; [apply eqs_true in E2|].
  { rewrite E2. split.
    - destruct (ev_Intent e) as [i|]; [|done]. intros H. inv_ok. read_ok. exists i. naive_solver.
    - intros (i & -> & Hi & [[_ Hb]|[? _]]); [|done].
      assert (ww_IntentSHA256 w <> ""%string) as HI by (rewrite Hi; apply ComputeSHA256_nonempty).
      destruct (HP E2 HI) as [-> ->]. rewrite (proj2 (present_true _) HI). apply eqs_false in Hb.
      by rewrite Hb, Hi, eqs_refl. }
  destruct (eqs (ww_AbsenceProof w) LifetimeAbsenceUnregisteredDisposed) eqn:E3; [apply eqs_true in E3|].
  { rewrite E3. split.
    - destruct (ev_Intent e) as [i|]; [|done]. intros H. inv_ok. read_ok. exists i. naive_solver.
    - intros (i & -> & Hi & [[? _]|[_ Hb]]); [done|]. rewrite (HD E3), Hb, Hi, !eqs_refl. done. }
  split; [done|]. intros (i & _ & _ & [[Hp _]|[Hp _]]); rewrite Hp in *; done.
Qed.

(** ** The closure decision *)
Lemma completion_same e w :
  ev_WorkerWait e = Some w -> validateLifetimeEvidenceFacts e = Ok tt ->
  ValidateLifetimeCompletionBinding (Some w) e =
  (if eqs (ww_Result w) LifetimeWorkerWaitAbsent
   then validateLifetimeAbsenceBinding w e (ev_Registration e) (ev_Intent e) (ev_Worker e)
   else validateLifetimeNativeCompletionBinding w e).
Proof.
  intros Hw HF. cbn. rewrite Hw, eqs_refl, (withWait_same _ _ Hw). cbn. rewrite HF. done.
Qed.

Lemma scope_emptied e id r t :
  bindings e -> recordFacts e id -> ev_Registration e = Some r -> ev_Termination e = Some t -> scopeEmptied e r t.
Proof.
  intros B F Hr Ht. destruct (bd_count _ B _ Ht) as [? ?]. destruct (rf_termination _ _ F _ Ht) as [HV _].
  cbn in HV. inv_ok. read_ok. repeat split; try done; by apply (bd_termination _ B).
Qed.

(** A lifetime is closed only when every record of it is valid and bound, and then
    exactly in the cases of [closes]. *)
Lemma closed_iff e kind :
  Closed kind = true ->
  ResolveLifetimeClosure e = Ok kind <-> validateLifetimeEvidenceFacts e = Ok tt /\ closes e kind.
Proof.
  intros HC. unfold ResolveLifetimeClosure.
  destruct (validateLifetimeEvidenceFacts e) as [[]|err] eqn:EF; cbn [mbind result_bind wrap_err]; [|naive_solver].
  transitivity (closes e kind); [|naive_solver].
  destruct (facts_Ok e EF) as (B & id & F). destruct (ev_WorkerWait e) as [w|] eqn:Ew.
  - rewrite (completion_same e w Ew EF). destruct (eqs (ww_Result w) LifetimeWorkerWaitAbsent) eqn:Ea; [apply eqs_true in Ea|apply eqs_false in Ea].
    + destruct (ev_Registration e) as [r|] eqn:Er.
      * pose proof (absence_registered e w r id B F Ew Er Ea) as HA. rewrite Er in HA. split.
        -- intros (? & H%wrap_err_Ok & [= <-])%bind_Ok. destruct x. apply HA in H as (HR & t & Ht & HT).
           eapply closes_recovered; eauto using scope_emptied.
        -- intros HC'. inversion HC'; simplify_eq; try congruence.
           rewrite (proj2 HA); [done|]. eauto.
      * pose proof (absence_unregistered e w id B F Ew Er Ea) as HA. rewrite Er in HA.
        destruct (bd_unregistered _ B Er) as (Hk & Hl & Ht). split.
        -- intros (? & H%wrap_err_Ok & [= <-])%bind_Ok. destruct x. apply HA in H as (i & Hi & HI & Hc).
           by apply (closes_unregistered e i w).
        -- intros HC'. inversion HC'; simplify_eq; try congruence. rewrite (proj2 HA); [done|]. eauto.
    + split.
      * intros (? & H%wrap_err_Ok & Hk)%bind_Ok. destruct x.
        destruct (ev_Termination e) as [t|] eqn:Et; [|by simplify_eq]. injection Hk as <-.
        destruct (ev_Registration e) as [r|] eqn:Er; [|unfold validateLifetimeNativeCompletionBinding in H; by rewrite Er in H].
        apply (native_spec e w r id) in H as [HR HA]; try done.
        eapply closes_native; eauto using scope_emptied.
      * intros HC'. inversion HC'; simplify_eq; try congruence.
        assert (validateLifetimeNativeCompletionBinding w e = Ok tt) as ->
          by (apply (native_spec e w r id); auto).
        match goal with Ht : ev_Termination e = Some _ |- _ => by rewrite Ht end.
  - split.
    + destruct (ev_Termination e) as [t|] eqn:Et; [|by intros [= <-]].
      destruct (eqs (lt_Cause t) LifetimeTerminationPreviousBoot) eqn:Ec; [|by intros [= <-]].
      destruct (ev_Registration e) as [r|] eqn:Er; [|done]. intros [= <-]. apply eqs_true in Ec.
      eapply closes_legacy; eauto using scope_emptied.
    + intros HC'. inversion HC'; simplify_eq; try congruence.
      match goal with
      | Ht : ev_Termination e = Some _, Hc : lt_Cause _ = _, Hr : ev_Registration e = Some _ |- _ =>
          by rewrite Ht, Hc, eqs_refl, Hr
      end.
Qed.

(** C22: A lifetime is closed exactly when every record of it is valid and bound to the
    others and the records account for it: a native completion that binds the
    registration and the recorded worker (or proves that none started, or has an exact
    scope) with a scope observed empty after exactly the recorded launches; an absence
    witness of the named worker or of a later boot; an absence before registration; or a
    previous-boot termination of an older release.  Every refusal is an evidence fault,
    which no reader takes for an absent record. *)
Theorem closure_decision e kind :
  Closed kind = true ->
  (ResolveLifetimeClosure e = Ok kind <-> validateLifetimeEvidenceFacts e = Ok tt /\ closes e kind) /\
  (forall err, ResolveLifetimeClosure e = Err err ->
     errors_Is err task_ErrEvidenceFault = true /\ RecordAbsent err = false).
Proof.
  intros HC. split; [by apply closed_iff|]. intros err H.
  assert (forall c, errors_Is (lifetimeEvidenceFault c) task_ErrEvidenceFault = true) as HL.
  { intros c. unfold lifetimeEvidenceFault. destruct (errors_Is c task_ErrEvidenceFault) eqn:E; [done|]. cbn. done. }
  assert (errors_Is err task_ErrEvidenceFault = true) as HE.
  { unfold ResolveLifetimeClosure in H.
    destruct (validateLifetimeEvidenceFacts e); cbn [wrap_err mbind result_bind] in H; [|by injection H as <-].
    destruct (ev_WorkerWait e) as [w|].
    - destruct (ValidateLifetimeCompletionBinding (Some w) e); cbn [wrap_err mbind result_bind] in H; [|by injection H as <-].
      by destruct (eqs _ _).
    - destruct (ev_Termination e) as [t|]; [|done]. destruct (eqs _ _); [|done].
      destruct (is_some _); [done|]. by injection H as <-. }
  split; [done|]. unfold RecordAbsent. rewrite HE. by rewrite orb_true_r.
Qed.

(** ** Stability as records are added *)

(** Records are created once and never change; launches are appended. *)
Definition keeps {A} (o o' : option A) : Prop := forall a, o = Some a -> o' = Some a.

Record extends (e e' : LifetimeEvidence) : Prop := {
  ex_intent : keeps (ev_Intent e) (ev_Intent e');
  ex_registration : keeps (ev_Registration e) (ev_Registration e');
  ex_worker : keeps (ev_Worker e) (ev_Worker e');
  ex_wait : keeps (ev_WorkerWait e) (ev_WorkerWait e');
  ex_launches : ev_Launches e `prefix_of` ev_Launches e';
  ex_termination : keeps (ev_Termination e) (ev_Termination e')
}.

Lemma resolve_facts e kind : ResolveLifetimeClosure e = Ok kind -> validateLifetimeEvidenceFacts e = Ok tt.
Proof.
  unfold ResolveLifetimeClosure. destruct (validateLifetimeEvidenceFacts e) as [[]|]; [done|].
  cbn [wrap_err mbind result_bind]. done.
Qed.

Lemma resolve_wait e w kind :
  ev_WorkerWait e = Some w -> ResolveLifetimeClosure e = Ok kind ->
  kind = if eqs (ww_Result w) LifetimeWorkerWaitAbsent
         then if is_some (ev_Registration e) then LifetimeClosureRegisteredRecovered
              else LifetimeClosureUnregisteredRecovered
         else if is_some (ev_Termination e) then LifetimeClosureRegisteredNative else LifetimeClosureOpen.
Proof.
  unfold ResolveLifetimeClosure. intros ->. intros (? & _ & (? & _ & H)%bind_Ok)%bind_Ok.
  destruct (eqs _ _); by injection H as <-.
Qed.

Lemma terminated_launches e e' :
  extends e e' -> bindings e -> bindings e' -> is_some (ev_Termination e) = true ->
  ev_Launches e' = ev_Launches e.
Proof.
  intros X B B' Ht. destruct (ev_Termination e) as [t|] eqn:Et; [|done].
  destruct (bd_count _ B _ Et) as [C1 _]. destruct (bd_count _ B' _ (ex_termination _ _ X _ Et)) as [C2 _].
  destruct (ex_launches _ _ X) as [l El]. unfold launchCount in *.
  assert (length l = 0%nat) as Hl by (rewrite El, length_app in C2; lia).
  apply nil_length_inv in Hl as ->. by rewrite app_nil_r in El.
Qed.

(** C23: A closed lifetime stays closed: when records are only added and the evidence
    still resolves, the closure keeps its kind, except that a previous-boot
    termination of an older release may gain its completion; and once a termination is
    recorded the launches are final. *)
Theorem closure_is_final e e' kind kind' :
  extends e e' -> ResolveLifetimeClosure e = Ok kind -> ResolveLifetimeClosure e' = Ok kind' ->
  (Closed kind = true -> Closed kind' = true /\ (kind' = kind \/ kind = LifetimeClosureLegacyPreviousBoot)) /\
  (is_some (ev_Termination e) = true -> ev_Launches e' = ev_Launches e).
Proof.
  intros X H H'. pose proof (resolve_facts _ _ H) as HF. pose proof (resolve_facts _ _ H') as HF'.
  destruct (facts_Ok _ HF) as (B & id & F). destruct (facts_Ok _ HF') as (B' & id' & F').
  split; [|by apply terminated_launches]. intros HC. apply (closed_iff e kind HC) in H as [_ H].
  destruct H as [r w t Hr Hw Ht Hres _ _ _|r w t Hr Hw Ht Hres _ _ _|i w Hr Hi Hw _ _ _ Hres HI _|r t Hr Hw Ht Hc _].
  - apply (ex_wait _ _ X) in Hw. apply (ex_termination _ _ X) in Ht. rewrite (resolve_wait _ _ _ Hw H'), Ht.
    apply eqs_false in Hres. rewrite Hres. auto.
  - apply (ex_wait _ _ X) in Hw. apply (ex_registration _ _ X) in Hr. rewrite (resolve_wait _ _ _ Hw H'), Hr, Hres. auto.
  - destruct (absence_fields w (proj1 (rf_wait _ _ F _ Hw)) Hres) as ([[_ HF1]|[HF1 _]] & _ & _);
      [exfalso; rewrite HI in HF1; by apply ComputeSHA256_nonempty in HF1|].
    apply (ex_wait _ _ X) in Hw. pose proof (resolve_wait _ _ _ Hw H') as Hk. rewrite Hres, eqs_refl in Hk.
    destruct (ev_Registration e') as [r'|] eqn:Er'; cbn [is_some] in Hk; subst kind'; [|auto].
    apply closed_iff in H' as [_ H']; [|done]. inversion H'; simplify_eq.
    exfalso. match goal with E : ww_RegistrationSHA256 w = registrationDigest _ |- _ => rewrite HF1 in E; symmetry in E;
      by apply ComputeSHA256_nonempty in E end.
  - apply (ex_termination _ _ X) in Ht. split; [|by right]. destruct (ev_WorkerWait e') as [w'|] eqn:Ew'.
    + rewrite (resolve_wait _ _ _ Ew' H'), Ht. cbn [is_some]. by destruct (eqs _ _), (ev_Registration e').
    + unfold ResolveLifetimeClosure in H'. rewrite Ew', Ht, Hc, eqs_refl, (ex_registration _ _ X _ Hr) in H'.
      cbn [is_some] in H'. apply bind_Ok in H' as (? & _ & [= <-]). done.
Qed.

(** ** The absence factory *)

(** The record the factory builds from the registration, or from the intent. *)
Definition absenceRecord (e : LifetimeEvidence) (proof boot : string) (t : time) : option LifetimeWorkerWaitRecord :=
  let worker := match ev_Worker e with Some k => (workerDigest k, lw_PID k) | None => (""%string, 0) end in
  match ev_Registration e, ev_Intent e with
  | Some r, _ => Some (MkWorkerWait SchemaVersion (lr_RootID r) (lr_TaskID r) (registrationDigest r) worker.1 worker.2
                         LifetimeWorkerWaitAbsent None (FormatRFC3339Nano t) "" proof boot)
  | None, Some i => Some (MkWorkerWait SchemaVersion (li_RootID i) (li_TaskID i) "" worker.1 worker.2
                            LifetimeWorkerWaitAbsent None (FormatRFC3339Nano t) (intentDigest i) proof boot)
  | None, None => None
  end.

Lemma New_eq e proof boot t :
  IsZero t = false -> ev_WorkerWait e = None -> validateLifetimeEvidenceFacts e = Ok tt -> validLifetimeToken boot = true ->
  NewLifetimeWorkerAbsence e proof boot t =
  match absenceRecord e proof boot t with
  | Some w => ValidateLifetimeWorkerWaitRecord (Some w) ;;
              ValidateLifetimeCompletionBinding (Some w) (withWait e w) ;; Ok w
  | None => Err mismatch
  end.
Proof.
  intros Hz Hw HF Hb. unfold NewLifetimeWorkerAbsence, absenceRecord. rewrite Hz, Hw, HF, Hb.
  cbn [is_some negb fail_if mbind result_bind].
  destruct (ev_Registration e), (ev_Intent e), (ev_Worker e); reflexivity.
Qed.

(** A witness that the worker of the evidence is gone. *)
Definition absenceWitness (e : LifetimeEvidence) (proof boot : string) : Prop :=
  match ev_Registration e with
  | Some r =>
      proof = LifetimeAbsenceExactWorker /\ boot = lr_BootID r /\ is_some (ev_Worker e) = true /\
        (exists t, ev_Termination e = Some t /\ lt_Cause t <> LifetimeTerminationPreviousBoot) \/
      proof = LifetimeAbsencePreviousBoot /\ boot <> lr_BootID r /\ is_some (ev_Termination e) = true
  | None =>
      exists i, ev_Intent e = Some i /\
        (proof = LifetimeAbsencePreviousBoot /\ boot <> li_BootID i \/
         proof = LifetimeAbsenceUnregisteredDisposed /\ boot = li_BootID i)
  end.

Lemma validateLifetimeWorkerTimestamp_format t :
  0 <= cv_year (civilOf t) <= 9999 -> validateLifetimeWorkerTimestamp (FormatRFC3339Nano t) = Ok tt.
Proof.
  intros Hy. unfold validateLifetimeWorkerTimestamp. rewrite Parse_Format by done. cbn [wrap_err mbind result_bind].
  change (FormatRFC3339Nano (toUTC t)) with (FormatRFC3339Nano t). by rewrite eqs_refl.
Qed.

Lemma digest_valid j : ValidateSHA256 (recordDigest j) = Ok tt.
Proof. apply ValidateSHA256_Ok, ComputeSHA256_hex. Qed.

Lemma digest_present j : present (recordDigest j) = true.
Proof. apply present_true, ComputeSHA256_nonempty. Qed.

Lemma identity_schema schema root task :
  validateLifetimeIdentity schema root task = Ok tt -> validateLifetimeIdentity SchemaVersion root task = Ok tt.
Proof.
  unfold validateLifetimeIdentity. intros ([] & H & H')%bind_Ok. apply fail_if_Ok, negb_false_iff, Z.eqb_eq in H as ->. done.
Qed.

Lemma validLifetimeIdentity e id :
  recordFacts e id -> is_some (ev_Registration e) = true \/ is_some (ev_Intent e) = true ->
  validateLifetimeIdentity SchemaVersion (id_rootID id) (id_taskID id) = Ok tt.
Proof.
  intros F [H|H].
  - destruct (ev_Registration e) as [r|] eqn:Er; [|done]. destruct (rf_registration _ _ F _ Er) as [HV ->].
    cbn in HV. apply bind_Ok in HV as ([] & HV & _). by apply identity_schema in HV.
  - destruct (ev_Intent e) as [r|] eqn:Er; [|done]. destruct (rf_intent _ _ F _ Er) as [HV ->].
    cbn in HV. apply bind_Ok in HV as ([] & HV & _). by apply identity_schema in HV.
Qed.

(** The built record is valid for every proof its evidence supports. *)
Lemma absenceRecord_valid e id proof boot t w :
  0 <= cv_year (civilOf t) <= 9999 -> validLifetimeToken boot = true ->
  bindings e -> recordFacts e id -> absenceWitness e proof boot -> absenceRecord e proof boot t = Some w ->
  ValidateLifetimeWorkerWaitRecord (Some w) = Ok tt.
Proof.
  intros Hy Hb B F HW Hw. pose proof (validLifetimeIdentity e id F) as HI.
  assert (forall k, ev_Worker e = Some k -> lw_PID k <=? 0 = false) as HP.
  { intros k Hk. destruct (rf_worker _ _ F _ Hk) as [HV _]. cbn in HV. inv_ok. by read_ok; apply Z.leb_gt. }
  unfold absenceRecord, absenceWitness in *. destruct (ev_Registration e) as [r|] eqn:Er.
  - injection Hw as <-. destruct (rf_registration _ _ F _ Er) as [_ Hid]. subst id. cbn in HI. cbn.
    rewrite HI by (by left). cbn. unfold validateLifetimeWorkerWaitAbsenceFields, validateLifetimeWorkerWaitResult,
      validateLifetimeWorkerWaitAbsenceResult. cbn -[eqs]. unfold registrationDigest.
    rewrite !digest_present, digest_valid, Hb, validateLifetimeWorkerTimestamp_format by done. cbn -[eqs].
    destruct HW as [(-> & _ & Hk & _)|(-> & _ & _)].
    + destruct (ev_Worker e) as [k|]; [|done]. cbn -[eqs]. unfold workerDigest.
      by rewrite !digest_present, digest_valid, (HP k eq_refl).
    + destruct (ev_Worker e) as [k|]; cbn -[eqs]; [|done]. unfold workerDigest.
      by rewrite !digest_present, digest_valid, (HP k eq_refl).
  - destruct HW as (i & Hi & HW). rewrite Hi in *. injection Hw as <-.
    destruct (bd_unregistered _ B Er) as (Hk & _ & _). rewrite Hk.
    destruct (rf_intent _ _ F _ Hi) as [_ Hid]. subst id. cbn in HI. cbn.
    rewrite HI by (by right). cbn. unfold validateLifetimeWorkerWaitAbsenceFields, validateLifetimeWorkerWaitResult,
      validateLifetimeWorkerWaitAbsenceResult. cbn -[eqs]. unfold intentDigest.
    rewrite !digest_present, digest_valid, Hb, validateLifetimeWorkerTimestamp_format by done.
    by destruct HW as [[-> _]|[-> _]].
Qed.

Lemma bindings_withWait e w : bindings e -> bindings (withWait e w).
Proof. intros []. by split. Qed.

Lemma recordFacts_withWait e id w :
  recordFacts e id -> ValidateLifetimeWorkerWaitRecord (Some w) = Ok tt ->
  id = MkIdentity (ww_RootID w) (ww_TaskID w) -> recordFacts (withWait e w) id.
Proof. intros [] HV Hid. split; try done. cbn. by intros ? [= <-]. Qed.

Lemma facts_withWait e id w :
  bindings e -> recordFacts (withWait e w) id -> validateLifetimeEvidenceFacts (withWait e w) = Ok tt.
Proof.
  intros B F. unfold validateLifetimeEvidenceFacts. rewrite (records_build _ id w F eq_refl). cbn.
  by apply bindings_Ok, bindings_withWait.
Qed.

Lemma absenceRecord_identity e id proof boot t w :
  recordFacts e id -> absenceRecord e proof boot t = Some w ->
  id = MkIdentity (ww_RootID w) (ww_TaskID w) /\ ww_Result w = LifetimeWorkerWaitAbsent.
Proof.
  intros F. unfold absenceRecord. destruct (ev_Registration e) as [r|] eqn:Er.
  - intros [= <-]. by destruct (rf_registration _ _ F _ Er).
  - destruct (ev_Intent e) as [i|] eqn:Ei; [|done]. intros [= <-]. by destruct (rf_intent _ _ F _ Ei).
Qed.

(** Its binding holds exactly for a witness. *)
Lemma absenceRecord_binding e id proof boot t w :
  bindings e -> recordFacts e id -> absenceRecord e proof boot t = Some w ->
  ValidateLifetimeWorkerWaitRecord (Some w) = Ok tt ->
  ValidateLifetimeCompletionBinding (Some w) (withWait e w) = Ok tt <-> absenceWitness e proof boot.
Proof.
  intros B F Hw HV. destruct (absenceRecord_identity _ _ _ _ _ _ F Hw) as [Hid Hres].
  pose proof (recordFacts_withWait _ _ _ F HV Hid) as F'. pose proof (bindings_withWait e w B) as B'.
  rewrite (completion_same (withWait e w) w eq_refl (facts_withWait _ _ _ B F')), Hres, eqs_refl.
  unfold absenceWitness. destruct (ev_Registration e) as [r|] eqn:Er.
  - rewrite (absence_registered (withWait e w) w r id B' F' eq_refl Er Hres).
    unfold absenceRecord in Hw. rewrite Er in Hw. injection Hw as <-. cbn. split.
    + intros (_ & t' & Ht & [k Hp Hk Hn Hb Hc|Hp Hb Hn]); cbn in *.
      * left. rewrite Hk. eauto 6.
      * right. by rewrite Ht.
    + intros [(Hp & Hb & Hk & t' & Ht & Hc)|(Hp & Hb & Ht)]; (split; [done|]).
      * exists t'. split; [done|]. destruct (ev_Worker e) as [k|] eqn:Ek; [|done]. by apply absent_exact with k.
      * destruct (ev_Termination e) as [t'|] eqn:Et; [|done]. exists t'. split; [done|]. apply absent_rebooted; try done.
        cbn. by destruct (ev_Worker e).
  - rewrite (absence_unregistered (withWait e w) w id B' F' eq_refl Er Hres).
    unfold absenceRecord in Hw. rewrite Er in Hw. destruct (ev_Intent e) as [i|] eqn:Ei; [|done]. injection Hw as <-.
    cbn. rewrite Ei. split.
    + intros (i' & [= <-] & _ & H). by exists i.
    + intros (i' & [= <-] & H). by exists i.
Qed.

(** From valid evidence without a completion, the factory builds an absence record
    exactly when the evidence is a witness that the worker is gone: on the boot of the
    scope only for a recorded worker under a termination that is not of a previous
    boot, on another boot for any terminated scope, and before registration from the
    intent alone.  What it builds closes the lifetime as recovered. *)
Theorem absence_factory e proof boot t :
  0 <= cv_year (civilOf t) <= 9999 -> IsZero t = false -> validLifetimeToken boot = true ->
  validateLifetimeEvidenceFacts e = Ok tt -> ev_WorkerWait e = None ->
  ((exists w, NewLifetimeWorkerAbsence e proof boot t = Ok w) <-> absenceWitness e proof boot) /\
  (forall w, NewLifetimeWorkerAbsence e proof boot t = Ok w ->
     ResolveLifetimeClosure (withWait e w) =
     Ok (if is_some (ev_Registration e) then LifetimeClosureRegisteredRecovered
         else LifetimeClosureUnregisteredRecovered)).
Proof.
  intros Hy Hz Hb HF Hn. rewrite New_eq by done. destruct (facts_Ok e HF) as (B & id & F).
  destruct (absenceRecord e proof boot t) as [w|] eqn:Ew.
  2: { split; [|done]. split; [by intros []|]. unfold absenceWitness, absenceRecord in *.
       destruct (ev_Registration e); [done|]. intros (i & Hi & _). by rewrite Hi in Ew. }
  destruct (absenceRecord_identity _ _ _ _ _ _ F Ew) as [Hid Hres].
  split; [split|].
  - intros [? ([] & HV & ([] & HB & _)%bind_Ok)%bind_Ok]. by apply (absenceRecord_binding e id proof boot t w) in HB.
  - intros HW. pose proof (absenceRecord_valid _ _ _ _ _ _ Hy Hb B F HW Ew) as HV. exists w.
    rewrite HV. cbn [mbind result_bind]. by rewrite (proj2 (absenceRecord_binding e id proof boot t w B F Ew HV) HW).
  - intros w' ([] & HV & ([] & HB & [= <-])%bind_Ok)%bind_Ok.
    pose proof (recordFacts_withWait _ _ _ F HV Hid) as F'.
    unfold ResolveLifetimeClosure. rewrite (facts_withWait _ _ _ B F'). cbn [wrap_err mbind result_bind ev_WorkerWait withWait].
    change (MkEvidence _ _ _ _ _ _) with (withWait e w). rewrite HB. cbn [wrap_err mbind result_bind].
    by rewrite Hres, eqs_refl.
Qed.

(** ** The capacity of a launch set *)
Definition totalBytes (launches : list LifetimeLaunchRecord) : Z := fold_right Z.add 0 (map launchSize launches).

Lemma totalBytes_nonneg launches : 0 <= totalBytes launches.
Proof. unfold totalBytes. induction launches as [|l ls IH]; cbn; [done|]. unfold launchSize at 1, len. lia. Qed.

Lemma addLaunches_exact launches c :
  lc_limits c = None ->
  (exists c', addLaunches c launches = Ok c') <->
  (launches = [] \/ lc_count c + Z.of_nat (length launches) <= MaxLifetimeLaunches /\
   Forall (fun l => launchSize l <= MaxControlRecordSize) launches /\
   lc_bytes c + totalBytes launches <= MaxLifetimeLaunchBytes).
Proof.
  revert c. induction launches as [|l launches IH]; intros c Hc; [split; [by left|by exists c]|].
  cbn [addLaunches]. unfold AddLaunch, addEncoded. rewrite Hc. cbn [default defaultLifetimeLaunchLimits lm_count lm_bytes].
  assert (0 <= launchSize l) as Hs by (unfold launchSize, len; lia).
  change (totalBytes (l :: launches)) with (launchSize l + totalBytes launches).
  pose proof (totalBytes_nonneg launches) as Ht. rewrite Forall_cons.
  destruct (Z.ltb_spec MaxControlRecordSize (launchSize l)); cbn [fail_if mbind result_bind];
    [split; [by intros []|intros [|(_ & [? _] & _)]; [done|lia]]|].
  destruct (Z.leb_spec MaxLifetimeLaunches (lc_count c)); cbn [fail_if mbind result_bind];
    [split; [by intros []|intros [|(Hn & _)]; [done|cbn [length] in Hn; lia]]|].
  destruct (Z.ltb_spec (MaxLifetimeLaunchBytes - lc_bytes c) (launchSize l)); cbn [fail_if mbind result_bind];
    [split; [by intros []|intros [|(_ & _ & ?)]; [done|lia]]|].
  rewrite (IH (MkLaunchCapacity _ _ None)) by done. cbn [lc_count lc_bytes length].
  rewrite Nat2Z.inj_succ. split.
  - intros [-> | (? & ? & ?)]; right; [cbn; repeat split; try done; try constructor; lia|repeat split; try done; lia].
  - intros [|(? & [? ?] & ?)]; [done|]. right. repeat split; try done; lia.
Qed.

(** A launch set is within capacity exactly when it holds at most 4096 records,
    each of at most 1 MiB of canonical bytes, and at most 64 MiB together; the two
    limits are independent, and 64 records of the largest size always fit. *)
Theorem launch_capacity_exact launches :
  (ValidateLifetimeLaunchCapacity launches = Ok tt <->
   Z.of_nat (length launches) <= MaxLifetimeLaunches /\
   Forall (fun l => launchSize l <= MaxControlRecordSize) launches /\
   totalBytes launches <= MaxLifetimeLaunchBytes) /\
  ((length launches <= 64)%nat -> Forall (fun l => launchSize l <= MaxControlRecordSize) launches ->
   ValidateLifetimeLaunchCapacity launches = Ok tt).
Proof.
  assert (ValidateLifetimeLaunchCapacity launches = Ok tt <-> exists c', addLaunches zeroLaunchCapacity launches = Ok c') as E.
  { unfold ValidateLifetimeLaunchCapacity. rewrite bind_Ok. naive_solver. }
  assert (ValidateLifetimeLaunchCapacity launches = Ok tt <->
   Z.of_nat (length launches) <= MaxLifetimeLaunches /\
   Forall (fun l => launchSize l <= MaxControlRecordSize) launches /\
   totalBytes launches <= MaxLifetimeLaunchBytes) as E'.
  { rewrite E, addLaunches_exact by done. cbn [zeroLaunchCapacity lc_count lc_bytes]. rewrite !Z.add_0_l. split; [|by right].
    intros [-> |]; [|done]. repeat split; try done. }
  split; [done|]. intros Hn HF. apply E'. split; [unfold MaxLifetimeLaunches; lia|]. split; [done|].
  assert (totalBytes launches <= Z.of_nat (length launches) * MaxControlRecordSize) as Hb.
  { clear -HF. induction HF as [|l ls Hl HF IH]; [done|].
    change (totalBytes (l :: ls)) with (launchSize l + totalBytes ls). cbn [length]. lia. }
  unfold MaxLifetimeLaunchBytes. unfold MaxControlRecordSize in *. lia.
Qed.

(** A worker timestamp is valid exactly when it is the canonical UTC text of an
    instant of the years 0 to 9999, and that instant is the one it parses to: every
    other spelling of an instant (an offset, trailing zeros, a one-digit hour) is
    refused, so equal instants have equal bytes. *)
Theorem worker_timestamp_exact value :
  validateLifetimeWorkerTimestamp value = Ok tt <->
  exists t, 0 <= cv_year (civilOf t) <= 9999 /\ value = FormatRFC3339Nano t /\
            ParseRFC3339Nano value = Ok (toUTC t).
Proof.
  split.
  - unfold validateLifetimeWorkerTimestamp. intros (t & Ht%wrap_err_Ok & H%fail_if_Ok)%bind_Ok.
    apply negb_false_iff, eqs_true in H. exists t.
    assert (0 <= cv_year (civilOf t) <= 9999) as Hy by (apply (Parse_Format_year t t); by rewrite H).
    split; [done|]. split; [done|]. rewrite <- H. by apply Parse_Format.
  - intros (t & Hy & -> & _). by apply validateLifetimeWorkerTimestamp_format.
Qed.

(** ** Witnesses: one lifetime on two boots *)
Definition demoRoot : string := "00000000000000000000000000000001".
Definition demoTask : string := "00000000000000000000000000000002".
Definition demoOwner : string := "0000000000000000000000000000000000000000000000000000000000000003".
Definition demoAt : time := UnixUTC (1700000000 * Second).
Definition demoStamp : string := Eval vm_compute in FormatRFC3339Nano demoAt.

Definition demoIntent : LifetimeIntentRecord :=
  MkIntent 1 demoRoot demoTask "workspace" demoOwner "cgroup-v2" "exact" "plan" "boot-1" demoStamp demoStamp.
Definition demoRegistration : LifetimeRegistrationRecord :=
  MkRegistration 1 demoRoot demoTask "workspace" demoOwner "cgroup-v2" "exact" "scope" "boot-1" demoStamp demoStamp None.
Definition demoRegistrationSHA : string := Eval vm_compute in registrationDigest demoRegistration.
Definition demoWorker : LifetimeWorkerRecord :=
  MkWorkerRecord 1 demoRoot demoTask demoRegistrationSHA 77 "start" "boot-1" demoStamp.
Definition demoWorkerSHA : string := Eval vm_compute in workerDigest demoWorker.
Definition demoLaunch : LifetimeLaunchRecord :=
  MkLaunch 1 demoRoot demoTask demoRegistrationSHA 1 78 "start" 78 demoStamp.
Definition demoLaunchesSHA : string := Eval vm_compute in LifetimeLaunchSetDigest [demoLaunch].
Definition demoTermination (cause : string) : LifetimeTerminationRecord :=
  MkTermination 1 demoRoot demoTask demoRegistrationSHA 1 demoLaunchesSHA cause true demoStamp.
Definition demoWait : LifetimeWorkerWaitRecord :=
  MkWorkerWait 1 demoRoot demoTask demoRegistrationSHA demoWorkerSHA 77 "success" (Some 0) demoStamp "" "" "".

Definition demoTerminated : LifetimeEvidence :=
  MkEvidence (Some demoIntent) (Some demoRegistration) (Some demoWorker) None [demoLaunch]
    (Some (demoTermination "previous-boot")).
Definition demoNative : LifetimeEvidence :=
  MkEvidence (Some demoIntent) (Some demoRegistration) (Some demoWorker) (Some demoWait) [demoLaunch]
    (Some (demoTermination "previous-boot")).

Lemma demoTerminated_resolves : ResolveLifetimeClosure demoTerminated = Ok LifetimeClosureLegacyPreviousBoot.
Proof. vm_compute. reflexivity. Qed.
Lemma demoNative_resolves : ResolveLifetimeClosure demoNative = Ok LifetimeClosureRegisteredNative.
Proof. vm_compute. reflexivity. Qed.
Lemma demo_extends : extends demoTerminated demoNative.
Proof. split; try (by intros ? H); try (intros ? H; exact H). exists []. reflexivity. Qed.
Lemma demoTerminated_facts : validateLifetimeEvidenceFacts demoTerminated = Ok tt.
Proof. exact (resolve_facts _ _ demoTerminated_resolves). Qed.

Lemma closure_decision_witness :
  validateLifetimeEvidenceFacts demoNative = Ok tt /\ closes demoNative LifetimeClosureRegisteredNative.
Proof.
  exact (proj1 (proj1 (closure_decision demoNative LifetimeClosureRegisteredNative eq_refl)) demoNative_resolves).
Defined.

Lemma closure_is_final_witness :
  (Closed LifetimeClosureLegacyPreviousBoot = true ->
   Closed LifetimeClosureRegisteredNative = true /\
   (LifetimeClosureRegisteredNative = LifetimeClosureLegacyPreviousBoot \/
    LifetimeClosureLegacyPreviousBoot = LifetimeClosureLegacyPreviousBoot)) /\
  (is_some (ev_Termination demoTerminated) = true -> ev_Launches demoNative = ev_Launches demoTerminated).
Proof.
  exact (closure_is_final demoTerminated demoNative _ _ demo_extends demoTerminated_resolves demoNative_resolves).
Defined.

Lemma demo_year : 0 <= cv_year (civilOf demoAt) <= 9999.
Proof. vm_compute. split; discriminate. Qed.

Lemma absence_factory_witness :
  exists w, NewLifetimeWorkerAbsence demoTerminated LifetimeAbsencePreviousBoot "boot-2" demoAt = Ok w.
Proof.
  refine (proj2 (proj1 (absence_factory demoTerminated LifetimeAbsencePreviousBoot "boot-2" demoAt demo_year
    eq_refl eq_refl demoTerminated_facts eq_refl)) _).
  right. repeat split. discriminate.
Defined.

Lemma demoLaunch_size : launchSize demoLaunch <= MaxControlRecordSize.
Proof. vm_compute. discriminate. Qed.

Lemma launch_capacity_exact_witness : ValidateLifetimeLaunchCapacity [demoLaunch; demoLaunch] = Ok tt.
Proof.
  apply (proj2 (launch_capacity_exact [demoLaunch; demoLaunch])); [cbn; lia|].
  constructor; [exact demoLaunch_size|]. constructor; [exact demoLaunch_size|constructor].
Defined.
