(* ===== verification/ControlDir.v ===== *)
(** * Control directories

    [internal/taskdir/control.go], [control_records.go], [lifetime_launch_inventory.go]
    and the parts of [rooted.go] and [staging.go] they call: one directory of immutable
    canonical records, its transaction operations [Put], [Read] and [Verify], and the
    inventory of launch records.

    The directory is a finite map from names to bytes.  Every call into the file system
    takes the next fault of an arbitrary list: nothing, an error before its effect, or
    an error after it.  The error of a call is never an absence of its own: only a name
    that is not in the directory reads as [fs.ErrNotExist]. *)
From S2P Require Import Prelude GoErrors GoText TaskTypes Encoding GoPath GoTimestamp TaskLifetime.
From Stdlib Require Import Ascii.

(** ** The file system *)
Inductive ioError : Set :=
| IOFailed (msg : string) | PermissionDenied | HandleClosed | Cancelled | DeadlinePassed.

Definition ioErr (e : ioError) : error :=
  match e with
  | IOFailed msg => New msg
  | PermissionDenied => Sentinel fs_ErrPermission
  | HandleClosed => Sentinel os_ErrClosed
  | Cancelled => Sentinel context_Canceled
  | DeadlinePassed => Sentinel context_DeadlineExceeded
  end.

Inductive fault : Set := NoFault | FailsBefore (e : ioError) | FailsAfter (e : ioError).

Record disk : Set := MkDisk { files : gmap string string; faults : list fault }.

(** A transaction step: a result and the directory it leaves. *)
Definition Tx (A : Type) : Type := disk -> result A * disk.

Definition txRet {A} (a : A) : Tx A := fun d => (Ok a, d).
Definition txErr {A} (e : error) : Tx A := fun d => (Err e, d).
Definition txOf {A} (r : result A) : Tx A := fun d => (r, d).
Definition txBind {A B} (m : Tx A) (f : A -> Tx B) : Tx B := fun d =>
  match m d with (Ok a, d') => f a d' | (Err e, d') => (Err e, d') end.
(** [v, err := m()]: the error is a value. *)
Definition txTry {A} (m : Tx A) : Tx (result A) := fun d => let '(r, d') := m d in (Ok r, d').
Definition txMapErr {A} (f : error -> error) (m : Tx A) : Tx A := fun d =>
  let '(r, d') := m d in (wrap_err f r, d').
Definition txFail (b : bool) (e : error) : Tx unit := txOf (fail_if b e).

Declare Scope tx_scope.
Delimit Scope tx_scope with tx.
Notation "x <- m ;; k" := (txBind m (fun x => k))
  (at level 100, m at next level, k at level 200, right associativity) : tx_scope.
Notation "m ;;; k" := (txBind m (fun _ => k)) (at level 100, k at level 200, right associativity) : tx_scope.
#[local] Open Scope tx_scope.

Definition nextFault : Tx fault := fun d =>
  match faults d with
  | [] => (Ok NoFault, d)
  | f :: rest => (Ok f, MkDisk (files d) rest)
  end.

(** A call whose only effect is to fail. *)
Definition systemCall : Tx unit :=
  f <- nextFault ;;
  match f with NoFault => txRet tt | FailsBefore e | FailsAfter e => txErr (ioErr e) end.

Definition errNotExist : error := Errorf "openat" (Sentinel fs_ErrNotExist).

(** [s.readBytes] with its bound, and the bounded read of [s.readRecord]. *)
Definition readBytes (name : string) (limit : Z) : Tx string :=
  systemCall ;;;
  fun d => match files d !! name with
           | None => (Err errNotExist, d)
           | Some b => (if limit <? len b then Err (Sentinel task_ErrControlRecordTooBig) else Ok b, d)
           end.

Definition faultErr (f : fault) : option error :=
  match f with NoFault => None | FailsBefore e | FailsAfter e => Some (ioErr e) end.

(** [s.stageReaderContext]: [committed], the cleanup error and the commit error.  A
    fault after the link and before its barrier leaves the record in place and reports
    an uncertain, uncommitted publication; after it, the cleanup of the stage file and
    the release of the maintenance lock may fail.  Stage files are not in the map: their
    names are neither record names nor launch names, and nothing reads them. *)
Definition stageReader (name data : string) : Tx (bool * option error * option error) :=
  f <- nextFault ;;
  match f with
  | FailsBefore e => txRet (false, None, Some (ioErr e))
  | _ => fun d =>
      match files d !! name with
      | Some _ =>
          (Ok (false, match f with FailsAfter e => Some (ioErr e) | _ => None end,
               Some (Errorf "link" (Sentinel fs_ErrExist))), d)
      | None =>
          let d' := MkDisk (<[name := data]> (files d)) (faults d) in
          match f with
          | FailsAfter e =>
              (Ok (false, None, Some (Joined "" [Sentinel task_ErrUncertainDurability; ioErr e])), d')
          | _ =>
              (cleanup <- nextFault ;; released <- nextFault ;; txRet (true, faultErr cleanup, faultErr released)) d'
          end
      end
  end.

(** ** Records *)
Definition errControlName : error := Errorf "invalid control record name" (Sentinel task_ErrEvidenceFault).

Definition controlNameChar (c : ascii) : bool := bool_decide (c = "-"%char) || isDigit c || isLower c.

Definition validateControlName (name : string) : result unit :=
  fail_if (negb (HasSuffix name ".json") || (64 <? len name)) errControlName ;;
  let stem := take (length (bytes name) - 5) (bytes name) in
  fail_if (bool_decide (stem = [])) errControlName ;;
  fail_if (negb (forallb controlNameChar stem)) errControlName.

Definition marshalControlRecord (record : json) : result string :=
  let data := MarshalCanonical record in
  if MaxControlRecordSize <? len data then Err (Sentinel task_ErrControlRecordTooBig) else Ok data.

Definition evidenceFault : error := Sentinel task_ErrEvidenceFault.

(** [verifyCanonicalControlRecord] *)
Definition verifyCanonicalRecord (name data : string) : Tx unit :=
  existing <- txMapErr (fun e => Joined "" [evidenceFault; e]) (readBytes name (len data)) ;;
  txFail (negb (eqs existing data)) evidenceFault ;;;
  txMapErr (fun e => Joined "" [evidenceFault; e]) systemCall.

(** [ControlTransaction.Put] *)
Definition Put (name : string) (record : json) : Tx bool :=
  txOf (validateControlName name) ;;;
  data <- txOf (marshalControlRecord record) ;;
  r <- stageReader name data ;;
  let '(created, cleanupErr, commitErr) := r in
  match commitErr with
  | Some e =>
      if errors_Is e fs_ErrExist && negb created
      then v <- txTry (verifyCanonicalRecord name data) ;;
           match errors_Join [cleanupErr; err_of v] with Some e' => txErr e' | None => txRet false end
      else match errors_Join [cleanupErr; commitErr] with Some e' => txErr e' | None => txRet created end
  | None => match errors_Join [cleanupErr] with Some e' => txErr e' | None => txRet created end
  end.

(** The failures of [task.DecodeStrict]: they are never those of a file. *)
Inductive decodeFailure : Set :=
| DecodeFailed (msg : string) | RecordTooBig | DuplicateKey | TrailingJSON.

Definition decodeErr (f : decodeFailure) : error :=
  match f with
  | DecodeFailed msg => New msg
  | RecordTooBig => Sentinel task_ErrControlRecordTooBig
  | DuplicateKey => Errorf "" (Sentinel task_ErrDuplicateKey)
  | TrailingJSON => Sentinel task_ErrTrailingJSON
  end.

(** [ControlTransaction.Read] with the strict decoder of the record type. *)
Definition Read {A} (decode : string -> A + decodeFailure) (name : string) : Tx A :=
  txOf (validateControlName name) ;;;
  data <- readBytes name MaxControlRecordSize ;;
  match decode data with inl a => txRet a | inr f => txErr (decodeErr f) end.

(** [ControlTransaction.Verify] *)
Definition Verify (name : string) (record : json) : Tx unit :=
  txOf (validateControlName name) ;;;
  data <- txOf (marshalControlRecord record) ;;
  verifyCanonicalRecord name data.

(** ** Launch inventory *)
Definition lifetimeLaunchSequenceDigits : Z := 20.

Record lifetimeLaunchNaming : Set := MkNaming { ln_prefix : string; ln_suffix : string }.

Definition controlLifetimeLaunchPrefix : string := "lifetime-launch-".
Definition controlLifetimeLaunchSuffix : string := ".json".
Definition controlLifetimeLaunchNaming : lifetimeLaunchNaming :=
  MkNaming controlLifetimeLaunchPrefix controlLifetimeLaunchSuffix.

Definition controlLifetimeLaunchName (sequence : Z) : string :=
  str (bytes controlLifetimeLaunchPrefix ++ digitsFixed 20 sequence ++ bytes controlLifetimeLaunchSuffix).

(** [lifetimeLaunchNaming.parse]: [None] for a name that is not of the launch shape. *)
Definition parseLaunchName (n : lifetimeLaunchNaming) (name : string) : result (option Z) :=
  if negb (HasPrefix name (ln_prefix n)) || negb (HasSuffix name (ln_suffix n)) ||
     (len name <? len (ln_prefix n) + len (ln_suffix n))
  then Ok None
  else
    let body := drop (length (bytes (ln_prefix n))) (bytes name) in
    let digits := str (take (length body - length (bytes (ln_suffix n))) body) in
    match ParseUint digits with
    | Ok sequence =>
        if negb (len digits =? lifetimeLaunchSequenceDigits)
        then Err (Errorf "malformed lifetime launch record name" mismatch)
        else ValidateLifetimeLaunchSequence sequence ;; Ok (Some sequence)
    | Err _ => Err (Errorf "malformed lifetime launch record name" mismatch)
    end%stdpp.

(** [lifetimeLaunchInventory.visit] *)
Definition visit (n : lifetimeLaunchNaming) (sequences : list Z) (name : string) : result (list Z) :=
  match parseLaunchName n name with
  | Err e => Err e
  | Ok None => Ok sequences
  | Ok (Some sequence) =>
      if MaxLifetimeLaunches <=? Z.of_nat (length sequences)
      then Err (Errorf "lifetime launches" (Sentinel task_ErrEvidenceFault))
      else Ok (sequences ++ [sequence])
  end.

Fixpoint visitNames (n : lifetimeLaunchNaming) (names : list string) (sequences : list Z) : result (list Z) :=
  match names with
  | [] => Ok sequences
  | name :: rest => match visit n sequences name with Ok s => visitNames n rest s | Err e => Err e end
  end.

(** [scanLifetimeLaunchInventory] over an opened directory; the order of the names
    decides only which of several faults is reported. *)
Definition lifetimeLaunchSequences : Tx (list Z) :=
  systemCall ;;;
  names <- (fun d => (Ok (map fst (map_to_list (files d))), d)) ;;
  closed <- txTry systemCall ;;
  match visitNames controlLifetimeLaunchNaming names [], closed with
  | Ok sequences, Ok _ => txRet (merge_sort Z.le sequences)
  | r, c => txErr (default (New "") (errors_Join [err_of r; err_of c]))
  end.

Fixpoint contiguousFrom (index : Z) (sequences : list Z) : result unit :=
  match sequences with
  | [] => Ok tt
  | sequence :: rest =>
      if negb (sequence =? index + 1)
      then Err (Errorf "lifetime launch sequence is not contiguous" mismatch)
      else contiguousFrom (index + 1) rest
  end.

Definition requireContiguousLifetimeLaunches (sequences : list Z) : result unit := contiguousFrom 0 sequences.

(** [lifetimeLaunchSet]: the records read and the capacity they use. *)
Record lifetimeLaunchSet : Set := MkLaunchSet {
  ls_records : list LifetimeLaunchRecord; ls_capacity : LifetimeLaunchCapacity
}.

Definition addToSet (s : lifetimeLaunchSet) (record : LifetimeLaunchRecord) : result lifetimeLaunchSet :=
  capacity ← AddLaunch (ls_capacity s) record;
  Ok (MkLaunchSet (ls_records s ++ [record]) capacity).
