(* ===== verification/ControlLifetime.v ===== *)
(** * The lifetime records of a control directory

    [internal/taskdir/control_lifetime_records.go], [control_lifetime_worker.go],
    [control_lifetime_unlaunched.go] and [lifetime_evidence.go]: reading, recording and
    fencing the lifetime of one auxiliary operation inside locked transactions.  The
    strict decoder of each record type is an argument; a record that is read is also
    verified to have exactly its canonical bytes.  A value that the source returns
    beside an error is dropped here. *)
From S2P Require Import Prelude GoErrors GoTime GoText TaskTypes Encoding GoPath GoTimestamp TaskLifetime LifetimeClosure ControlDir.
From Stdlib Require Import Ascii.
#[local] Open Scope tx_scope.

Definition controlLifetimeIntentName : string := "lifetime-intent.json".
Definition controlLifetimeRegistrationName : string := "lifetime-registration.json".
Definition controlLifetimeWorkerName : string := "lifetime-worker.json".
Definition controlLifetimeWorkerWaitName : string := "lifetime-worker-wait.json".
Definition controlLifetimeTerminationName : string := "lifetime-termination.json".
Definition controlLifetimeUnlaunchedName : string := "lifetime-unlaunched.json".

(** [ControlLifetime]: the identity of one operation. *)
Record ControlLifetime : Set := MkControlLifetime {
  ct_rootID : string; ct_operationID : string; ct_ownerKind : string; ct_ownerSHA256 : string; ct_deadline : time
}.

(** The strict decoders, one per record type. *)
Record Decoders : Set := MkDecoders {
  dec_Intent : string -> LifetimeIntentRecord + decodeFailure;
  dec_Registration : string -> LifetimeRegistrationRecord + decodeFailure;
  dec_Worker : string -> LifetimeWorkerRecord + decodeFailure;
  dec_WorkerWait : string -> LifetimeWorkerWaitRecord + decodeFailure;
  dec_Launch : string -> LifetimeLaunchRecord + decodeFailure;
  dec_Termination : string -> LifetimeTerminationRecord + decodeFailure;
  dec_Unlaunched : string -> LifetimeUnlaunchedRecord + decodeFailure
}.

(** ** Errors *)
Definition controlLifetimeReadError (err : error) : error :=
  if errors_Is err fs_ErrNotExist || errors_Is err os_ErrClosed ||
     errors_Is err context_Canceled || errors_Is err context_DeadlineExceeded
  then err else Joined "invalid persisted record" [Sentinel task_ErrEvidenceFault; err].

Definition inventoriedLifetimeLaunchReadError (err : error) : error :=
  if RecordAbsent err then Joined "inventoried lifetime launch is missing" [Sentinel task_ErrEvidenceFault; err]
  else controlLifetimeReadError err.

Definition lifetimeValidationDependencyError (err : error) : error :=
  if errors_Is err task_ErrIdentityMismatch || errors_Is err task_ErrEvidenceFault ||
     errors_Is err context_Canceled || errors_Is err context_DeadlineExceeded
  then err else Joined "" [Sentinel task_ErrIdentityMismatch; err].

Definition lifetimeCompletionDependencyError (err : error) : error :=
  Joined "" [Sentinel task_ErrEvidenceFault; lifetimeValidationDependencyError err].

(** ** Validation against the operation *)
Definition deadlineText (l : ControlLifetime) : string := FormatRFC3339Nano (ct_deadline l).

Definition controlLifetimeDeadlineText (deadline : time) : result string :=
  if IsZero deadline then Err (New "missing control lifetime deadline") else Ok (FormatRFC3339Nano deadline).

Definition validateControlLifetimeOwner (rootID operationID ownerKind ownerSHA256 deadline : string) : result unit :=
  ValidateLifetimeRegistrationRecord (Some (MkRegistration SchemaVersion rootID operationID ownerKind ownerSHA256
    LifetimeScopeProcessGroup LifetimeAssuranceCooperative "control-lifetime" "control-lifetime" deadline deadline None)).

Definition validateLifetimeOperation (l : ControlLifetime) : result unit :=
  (ValidateRootID (ct_rootID l) ;;
   ValidateTaskID (ct_operationID l) ;;
   deadline ← controlLifetimeDeadlineText (ct_deadline l);
   validateControlLifetimeOwner (ct_rootID l) (ct_operationID l) (ct_ownerKind l) (ct_ownerSHA256 l) deadline)%stdpp.

(** [NewControlLifetime] *)
Definition NewControlLifetime (rootID operationID ownerKind ownerSHA256 : string) (deadline : time)
  : result ControlLifetime :=
  let lifetime := MkControlLifetime rootID operationID ownerKind ownerSHA256 deadline in
  (validateLifetimeOperation lifetime ;; Ok lifetime)%stdpp.

Definition ownedBy (l : ControlLifetime) (rootID taskID ownerKind ownerSHA256 deadline : string) : bool :=
  eqs rootID (ct_rootID l) && eqs taskID (ct_operationID l) && eqs ownerKind (ct_ownerKind l) &&
  eqs ownerSHA256 (ct_ownerSHA256 l) && eqs deadline (deadlineText l).

Definition validateControlLifetimeRegistration (l : ControlLifetime) (r : LifetimeRegistrationRecord) : result unit :=
  (ValidateLifetimeRegistrationRecord (Some r) ;;
   fail_if (negb (ownedBy l (lr_RootID r) (lr_TaskID r) (lr_OwnerKind r) (lr_OwnerSHA256 r) (lr_Deadline r))) mismatch)%stdpp.

Definition validateControlLifetimeIntent (l : ControlLifetime) (r : LifetimeIntentRecord) : result unit :=
  (ValidateLifetimeIntentRecord (Some r) ;;
   fail_if (negb (ownedBy l (li_RootID r) (li_TaskID r) (li_OwnerKind r) (li_OwnerSHA256 r) (li_Deadline r))) mismatch)%stdpp.

Definition controlLifetimeCanonicalTimestamp (name value : string) : result time :=
  (fail_if (eqs value "" || negb (eqs (TrimSpace value) value) || ContainsByte value "000")
     (New ("missing " +:+ name)) ;;
   parsed ← wrap_err (Errorf ("invalid " +:+ name)) (ParseRFC3339Nano value);
   fail_if (negb (eqs (FormatRFC3339Nano parsed) value)) (New (name +:+ " is not canonical UTC RFC3339Nano")) ;;
   Ok parsed)%stdpp.

Definition validateControlLifetimeLaunch (l : ControlLifetime) (r : LifetimeLaunchRecord) (digest : string) : result unit :=
  (ValidateLifetimeLaunchRecord (Some r) ;;
   fail_if (negb (eqs (ll_RootID r) (ct_rootID l)) || negb (eqs (ll_TaskID r) (ct_operationID l)) ||
            negb (eqs (ll_RegistrationSHA256 r) digest) || (ll_Sequence r =? 0) ||
            (MaxLifetimeLaunches <? ll_Sequence r)) mismatch ;;
   started ← controlLifetimeCanonicalTimestamp "control lifetime launch" (ll_StartedAt r);
   match controlLifetimeCanonicalTimestamp "control lifetime deadline" (deadlineText l) with
   | Ok deadline => fail_if (negb (Before started deadline)) mismatch
   | Err _ => Err mismatch
   end)%stdpp.

Definition validateControlLifetimeTermination (l : ControlLifetime) (r : LifetimeTerminationRecord) (digest : string)
    (launches : list LifetimeLaunchRecord) : result unit :=
  (ValidateLifetimeTerminationRecord (Some r) ;;
   fail_if (negb (eqs (lt_RootID r) (ct_rootID l)) || negb (eqs (lt_TaskID r) (ct_operationID l)) ||
            negb (eqs (lt_RegistrationSHA256 r) digest) ||
            negb (lt_LaunchCount r =? Z.of_nat (length launches))) mismatch ;;
   fail_if (negb (eqs (lt_LaunchSetSHA256 r) (LifetimeLaunchSetDigest launches))) mismatch)%stdpp.

Definition validateControlLifetimeWorker (l : ControlLifetime) (r : LifetimeWorkerRecord)
    (registration : LifetimeRegistrationRecord) (digest : string) : result unit :=
  (ValidateLifetimeWorkerRecord (Some r) ;;
   fail_if (negb (eqs (lw_RootID r) (ct_rootID l)) || negb (eqs (lw_TaskID r) (ct_operationID l)) ||
            negb (eqs (lw_RegistrationSHA256 r) digest) || negb (eqs (lw_BootID r) (lr_BootID registration))) mismatch)%stdpp.

(** [validateLifetimeWorkerWaitForTask] *)
Definition validateLifetimeWorkerWaitForTask (record : LifetimeWorkerWaitRecord) (registration : LifetimeRegistrationRecord)
    (registrationSHA : string) (worker : option LifetimeWorkerRecord) (workerSHA : string) : result unit :=
  (fail_if (negb (LifetimeWorkerWaitMatchesRegistration (Some record) (Some registration) registrationSHA)) mismatch ;;
   fail_if (is_some worker && negb (LifetimeWorkerWaitMatchesWorker (Some record) worker workerSHA)) mismatch ;;
   ValidateLifetimeCompletionBinding (Some record) (MkEvidence None (Some registration) worker None [] None))%stdpp.

Definition validateControlLifetimeWorkerWait (l : ControlLifetime) (record : LifetimeWorkerWaitRecord)
    (registration : LifetimeRegistrationRecord) (registrationSHA : string)
    (worker : option LifetimeWorkerRecord) (workerSHA : string) : result unit :=
  (fail_if (negb (eqs (ww_RootID record) (ct_rootID l)) || negb (eqs (ww_TaskID record) (ct_operationID l))) mismatch ;;
   validateLifetimeWorkerWaitForTask record registration registrationSHA worker workerSHA)%stdpp.

(** ** Reads *)
Section operations.
Context (D : Decoders) (l : ControlLifetime).

Definition readRecord {A} (decode : string -> A + decodeFailure) (name : string) : Tx A :=
  txMapErr controlLifetimeReadError (Read decode name).

Definition readControlLifetimeRegistrationTx : Tx (LifetimeRegistrationRecord * string) :=
  record <- readRecord (dec_Registration D) controlLifetimeRegistrationName ;;
  txOf (validateControlLifetimeRegistration l record) ;;;
  Verify controlLifetimeRegistrationName (jsonRegistration record) ;;;
  txRet (record, registrationDigest record).

Definition readControlLifetimeIntentTx : Tx LifetimeIntentRecord :=
  record <- readRecord (dec_Intent D) controlLifetimeIntentName ;;
  txOf (validateControlLifetimeIntent l record) ;;;
  Verify controlLifetimeIntentName (jsonIntent record) ;;;
  txRet record.

Fixpoint readLaunches (sequences : list Z) (digest : string) (set : lifetimeLaunchSet) : Tx lifetimeLaunchSet :=
  match sequences with
  | [] => txRet set
  | sequence :: rest =>
      let name := controlLifetimeLaunchName sequence in
      record <- txMapErr inventoriedLifetimeLaunchReadError (Read (dec_Launch D) name) ;;
      txOf (validateControlLifetimeLaunch l record digest) ;;;
      txFail (negb (ll_Sequence record =? sequence)) mismatch ;;;
      Verify name (jsonLaunch record) ;;;
      set' <- txOf (addToSet set record) ;;
      readLaunches rest digest set'
  end.

Definition readControlLifetimeLaunchSetTx (digest : string) : Tx lifetimeLaunchSet :=
  sequences <- lifetimeLaunchSequences ;;
  txOf (requireContiguousLifetimeLaunches sequences) ;;;
  readLaunches sequences digest (MkLaunchSet [] zeroLaunchCapacity).

Definition readControlLifetimeLaunchesTx (digest : string) : Tx (list LifetimeLaunchRecord) :=
  set <- readControlLifetimeLaunchSetTx digest ;; txRet (ls_records set).

Definition readControlLifetimeTerminationTx (digest : string) (launches : list LifetimeLaunchRecord)
  : Tx LifetimeTerminationRecord :=
  record <- readRecord (dec_Termination D) controlLifetimeTerminationName ;;
  txOf (validateControlLifetimeTermination l record digest launches) ;;;
  Verify controlLifetimeTerminationName (jsonTermination record) ;;;
  txRet record.

Definition dependency {A} (m : Tx A) : Tx A := txMapErr lifetimeValidationDependencyError m.

Definition readBoundControlLifetimeTerminationTx : Tx LifetimeTerminationRecord :=
  record <- readRecord (dec_Termination D) controlLifetimeTerminationName ;;
  txOf (ValidateLifetimeTerminationRecord (Some record)) ;;;
  r <- dependency readControlLifetimeRegistrationTx ;;
  launches <- dependency (readControlLifetimeLaunchesTx r.2) ;;
  readControlLifetimeTerminationTx r.2 launches.

Definition readControlLifetimeTerminationPresenceTx : Tx LifetimeTerminationRecord :=
  record <- readRecord (dec_Termination D) controlLifetimeTerminationName ;;
  txOf (ValidateLifetimeTerminationRecord (Some record)) ;;;
  r <- dependency readControlLifetimeRegistrationTx ;;
  launches <- dependency (readControlLifetimeLaunchesTx r.2) ;;
  txOf (validateControlLifetimeTermination l record r.2 launches) ;;;
  Verify controlLifetimeTerminationName (jsonTermination record) ;;;
  txRet record.

Definition readControlLifetimeWorkerTx : Tx LifetimeWorkerRecord :=
  record <- readRecord (dec_Worker D) controlLifetimeWorkerName ;;
  txOf (ValidateLifetimeWorkerRecord (Some record)) ;;;
  r <- dependency readControlLifetimeRegistrationTx ;;
  txOf (validateControlLifetimeWorker l record r.1 r.2) ;;;
  Verify controlLifetimeWorkerName (jsonWorkerRecord record) ;;;
  txRet record.

(** [if RecordAbsent(err) { return nil }; return record, err] *)
Definition optionalRecord {A} (m : Tx A) : Tx (option A) :=
  r <- txTry m ;;
  match r with
  | Ok a => txRet (Some a)
  | Err e => if RecordAbsent e then txRet None else txErr e
  end.

Definition readControlLifetimeWorkerBindingTx : Tx (option LifetimeWorkerRecord * string) :=
  worker <- optionalRecord readControlLifetimeWorkerTx ;;
  txRet (worker, match worker with Some w => workerDigest w | None => ""%string end).

(** [controlLifetimeTransactionReader.ReadLifetimeLaunchesContext] *)
Definition readReaderLaunches : Tx (list LifetimeLaunchRecord) :=
  r <- optionalRecord readControlLifetimeRegistrationTx ;;
  readControlLifetimeLaunchesTx (match r with Some rd => rd.2 | None => ""%string end).

(** [loadLifetimeDependenciesContext] over the transaction reader. *)
Definition loadLifetimeDependencies : Tx LifetimeEvidence :=
  systemCall ;;;
  termination <- optionalRecord readBoundControlLifetimeTerminationTx ;;
  launches <- optionalRecord readReaderLaunches ;;
  worker <- optionalRecord readControlLifetimeWorkerTx ;;
  registration <- optionalRecord readControlLifetimeRegistrationTx ;;
  intent <- optionalRecord readControlLifetimeIntentTx ;;
  txRet (MkEvidence intent (fst <$> registration) worker None (default [] launches) termination).

Definition readControlLifetimeWorkerWaitTx : Tx LifetimeWorkerWaitRecord :=
  record <- readRecord (dec_WorkerWait D) controlLifetimeWorkerWaitName ;;
  txOf (ValidateLifetimeWorkerWaitRecord (Some record)) ;;;
  if eqs (ww_Result record) LifetimeWorkerWaitAbsent
  then
    evidence <- txMapErr lifetimeCompletionDependencyError loadLifetimeDependencies ;;
    txFail (negb (eqs (ww_RootID record) (ct_rootID l)) || negb (eqs (ww_TaskID record) (ct_operationID l))) mismatch ;;;
    txOf (ValidateLifetimeCompletionBinding (Some record) evidence) ;;;
    Verify controlLifetimeWorkerWaitName (jsonWorkerWait record) ;;;
    txRet record
  else
    r <- dependency readControlLifetimeRegistrationTx ;;
    w <- dependency readControlLifetimeWorkerBindingTx ;;
    txOf (validateControlLifetimeWorkerWait l record r.1 r.2 w.1 w.2) ;;;
    Verify controlLifetimeWorkerWaitName (jsonWorkerWait record) ;;;
    txRet record.

(** [LoadLifetimeEvidenceContext] inside one transaction. *)
Definition LoadLifetimeEvidence : Tx LifetimeEvidence :=
  systemCall ;;;
  completion <- optionalRecord readControlLifetimeWorkerWaitTx ;;
  e <- loadLifetimeDependencies ;;
  let evidence := MkEvidence (ev_Intent e) (ev_Registration e) (ev_Worker e) completion (ev_Launches e) (ev_Termination e) in
  txOf (ResolveLifetimeClosure evidence) ;;;
  txRet evidence.

(** ** Fences *)
Definition alreadyStarted (what : string) : error := Errorf what (Sentinel task_ErrAlreadyStarted).

(** [if _, err := read(); err == nil { return found } else if !RecordAbsent(err) { return err }] *)
Definition refuseRecord {A} (m : Tx A) (found : error) : Tx unit :=
  r <- optionalRecord m ;;
  match r with Some _ => txErr found | None => txRet tt end.

Definition rejectOrphanedLifetimeLaunchesTx : Tx unit :=
  sequences <- lifetimeLaunchSequences ;;
  match sequences with
  | [] => txRet tt
  | sequence :: _ =>
      let name := controlLifetimeLaunchName sequence in
      record <- txMapErr inventoriedLifetimeLaunchReadError (Read (dec_Launch D) name) ;;
      txOf (ValidateLifetimeLaunchRecord (Some record)) ;;;
      txFail (negb (eqs (ll_RootID record) (ct_rootID l)) || negb (eqs (ll_TaskID record) (ct_operationID l))) mismatch ;;;
      Verify name (jsonLaunch record) ;;;
      txErr (alreadyStarted "lifetime launch record already exists")
  end.

Definition ensureNoNativeLifetimeRecordsTx : Tx unit :=
  refuseRecord readControlLifetimeIntentTx (alreadyStarted "lifetime intent already exists") ;;;
  refuseRecord readControlLifetimeRegistrationTx (alreadyStarted "lifetime registration already exists") ;;;
  refuseRecord readControlLifetimeWorkerTx (alreadyStarted "lifetime worker already exists") ;;;
  refuseRecord readControlLifetimeWorkerWaitTx (alreadyStarted "lifetime worker Wait already exists") ;;;
  refuseRecord readControlLifetimeTerminationPresenceTx (Sentinel task_ErrTerminalTask) ;;;
  rejectOrphanedLifetimeLaunchesTx.

Definition readControlLifetimeUnlaunchedTx : Tx LifetimeUnlaunchedRecord :=
  record <- readRecord (dec_Unlaunched D) controlLifetimeUnlaunchedName ;;
  txOf (ValidateLifetimeUnlaunchedRecord (Some record)) ;;;
  txFail (negb (ownedBy l (lu_RootID record) (lu_TaskID record) (lu_OwnerKind record) (lu_OwnerSHA256 record)
                  (lu_Deadline record))) mismatch ;;;
  Verify controlLifetimeUnlaunchedName (jsonUnlaunched record) ;;;
  txMapErr (fun e => Joined "unlaunched fence conflicts with native lifetime state" [Sentinel task_ErrEvidenceFault; e])
    ensureNoNativeLifetimeRecordsTx ;;;
  txRet record.

Definition rejectLifetimeLaunchPermissionTx : Tx unit :=
  refuseRecord readControlLifetimeUnlaunchedTx (Sentinel task_ErrLifetimeUnlaunched) ;;;
  completion <- optionalRecord readControlLifetimeWorkerWaitTx ;;
  txFail (LifetimeWorkerWaitProvesAbsence completion) (Sentinel task_ErrTerminalTask) ;;;
  termination <- optionalRecord readControlLifetimeTerminationPresenceTx ;;
  match termination with
  | Some t => if lt_ScopeEmpty t then txErr (Sentinel task_ErrTerminalTask)
              else txErr (Errorf "termination reader returned invalid record" (Sentinel task_ErrEvidenceFault))
  | None => txRet tt
  end.

(** ** Transactions *)

(** [WithLock]: acquisition and release may fail; a release error is joined. *)
Definition withLock {A} (fn : Tx A) : Tx A :=
  systemCall ;;;
  r <- txTry fn ;;
  unlocked <- txTry systemCall ;;
  match r, unlocked with
  | Ok a, Ok _ => txRet a
  | r, u => txErr (default (New "") (errors_Join [err_of r; err_of u]))
  end.

(** The shared end of every [record...Tx]: an existing record wins when it equals the
    candidate but for its time; a lost creation race is settled by the winner. *)
Section recording.
Context {A : Type} `{!EqDecision A} (name : string) (encode : A -> json) (readTx : Tx A)
  (retime : A -> A -> A).

Definition matchWinner (candidate winner : A) : Tx A :=
  txFail (negb (bool_decide (winner = retime candidate winner))) mismatch ;;; txRet winner.

Definition settleRace (candidate : A) (created : bool) : Tx A :=
  if created then txRet candidate else winner <- readTx ;; matchWinner candidate winner.

Definition putCandidate (candidate : A) : Tx A :=
  created <- Put name (encode candidate) ;; settleRace candidate created.

(** The variant of the completion and of the fence: the winner is read back also when
    the publication reported an error. *)
Definition putReadback (candidate : A) : Tx A :=
  put <- txTry (Put name (encode candidate)) ;;
  match put with
  | Ok true => txRet candidate
  | _ =>
      winner <- txTry readTx ;;
      match winner with
      | Err e => txErr (default e (errors_Join [err_of put; Some e]))
      | Ok w =>
          if negb (bool_decide (w = retime candidate w))
          then txErr (default mismatch (errors_Join [err_of put; Some mismatch]))
          else match put with Err e => txErr e | Ok _ => txRet w end
      end
  end.
End recording.

Definition retimeIntent (c w : LifetimeIntentRecord) : LifetimeIntentRecord :=
  MkIntent (li_SchemaVersion c) (li_RootID c) (li_TaskID c) (li_OwnerKind c) (li_OwnerSHA256 c) (li_ScopeKind c)
    (li_Assurance c) (li_ScopePlan c) (li_BootID c) (li_Deadline c) (li_CreatedAt w).
Definition retimeRegistration (c w : LifetimeRegistrationRecord) : LifetimeRegistrationRecord :=
  MkRegistration (lr_SchemaVersion c) (lr_RootID c) (lr_TaskID c) (lr_OwnerKind c) (lr_OwnerSHA256 c)
    (lr_ScopeKind c) (lr_Assurance c) (lr_ScopeID c) (lr_BootID c) (lr_Deadline c) (lr_CreatedAt w)
    (lr_CustodyPlacement c).
Definition retimeWorker (c w : LifetimeWorkerRecord) : LifetimeWorkerRecord :=
  MkWorkerRecord (lw_SchemaVersion c) (lw_RootID c) (lw_TaskID c) (lw_RegistrationSHA256 c) (lw_PID c)
    (lw_ProcessStart c) (lw_BootID c) (lw_StartedAt w).
Definition retimeWait (c w : LifetimeWorkerWaitRecord) : LifetimeWorkerWaitRecord :=
  MkWorkerWait (ww_SchemaVersion c) (ww_RootID c) (ww_TaskID c) (ww_RegistrationSHA256 c) (ww_WorkerSHA256 c)
    (ww_ChildPID c) (ww_Result c) (ww_ExitCode c) (ww_ObservedAt w) (ww_IntentSHA256 c) (ww_AbsenceProof c)
    (ww_ObservedBootID c).
Definition retimeTermination (c w : LifetimeTerminationRecord) : LifetimeTerminationRecord :=
  MkTermination (lt_SchemaVersion c) (lt_RootID c) (lt_TaskID c) (lt_RegistrationSHA256 c) (lt_LaunchCount c)
    (lt_LaunchSetSHA256 c) (lt_Cause c) (lt_ScopeEmpty c) (lt_ObservedAt w).
Definition retimeUnlaunched (c w : LifetimeUnlaunchedRecord) : LifetimeUnlaunchedRecord :=
  MkUnlaunched (lu_SchemaVersion c) (lu_RootID c) (lu_TaskID c) (lu_OwnerKind c) (lu_OwnerSHA256 c)
    (lu_Deadline c) (lu_Cause c) (lu_ObservedAt w).

(** *** The scope plan *)
Record LifetimeIntentFacts : Set := MkIntentFacts {
  fi_ScopeKind : string; fi_Assurance : string; fi_ScopePlan : string; fi_BootID : string; fi_Deadline : time
}.

Definition recordControlLifetimeIntentTx (candidate : LifetimeIntentRecord) : Tx LifetimeIntentRecord :=
  existing <- optionalRecord readControlLifetimeIntentTx ;;
  rejectLifetimeLaunchPermissionTx ;;;
  match existing with
  | Some e => matchWinner retimeIntent candidate e
  | None =>
      ensureNoNativeLifetimeRecordsTx ;;;
      putCandidate controlLifetimeIntentName jsonIntent readControlLifetimeIntentTx retimeIntent candidate
  end.

Definition RecordLifetimeIntent (facts : LifetimeIntentFacts) (now : time) : Tx LifetimeIntentRecord :=
  txOf (validateLifetimeOperation l) ;;;
  txFail (IsZero (fi_Deadline facts) || negb (eqs (FormatRFC3339Nano (fi_Deadline facts)) (deadlineText l))) mismatch ;;;
  let candidate := MkIntent SchemaVersion (ct_rootID l) (ct_operationID l) (ct_ownerKind l) (ct_ownerSHA256 l)
    (fi_ScopeKind facts) (fi_Assurance facts) (fi_ScopePlan facts) (fi_BootID facts) (deadlineText l)
    (FormatRFC3339Nano now) in
  txOf (validateControlLifetimeIntent l candidate) ;;;
  withLock (recordControlLifetimeIntentTx candidate).

(** *** The registration *)
Record LifetimeRegistrationFacts : Set := MkRegistrationFacts {
  fr_ScopeKind : string; fr_Assurance : string; fr_ScopeID : string; fr_BootID : string; fr_Deadline : time;
  fr_CustodyPlacement : option LifetimeCustodyPlacement
}.

Definition recordControlLifetimeRegistrationTx (candidate : LifetimeRegistrationRecord) : Tx LifetimeRegistrationRecord :=
  let read := (r <- readControlLifetimeRegistrationTx ;; txRet r.1) in
  rejectLifetimeLaunchPermissionTx ;;;
  existing <- optionalRecord read ;;
  match existing with
  | Some e => matchWinner retimeRegistration candidate e
  | None =>
      intent <- readControlLifetimeIntentTx ;;
      txFail (negb (LifetimeIntentMatchesRegistration (Some intent) (Some candidate))) mismatch ;;;
      putCandidate controlLifetimeRegistrationName jsonRegistration read retimeRegistration candidate
  end.

Definition RecordLifetimeRegistration (facts : LifetimeRegistrationFacts) (now : time) : Tx LifetimeRegistrationRecord :=
  txOf (validateLifetimeOperation l) ;;;
  txFail (IsZero (fr_Deadline facts) || negb (eqs (FormatRFC3339Nano (fr_Deadline facts)) (deadlineText l))) mismatch ;;;
  let candidate := MkRegistration SchemaVersion (ct_rootID l) (ct_operationID l) (ct_ownerKind l) (ct_ownerSHA256 l)
    (fr_ScopeKind facts) (fr_Assurance facts) (fr_ScopeID facts) (fr_BootID facts) (deadlineText l)
    (FormatRFC3339Nano now) (fr_CustodyPlacement facts) in
  txOf (validateControlLifetimeRegistration l candidate) ;;;
  withLock (recordControlLifetimeRegistrationTx candidate).

(** *** The worker *)
Record LifetimeWorkerFacts : Set := MkWorkerFacts { fw_PID : Z; fw_ProcessStart : string; fw_BootID : string }.

Definition recordControlLifetimeWorkerTx (candidate : LifetimeWorkerRecord) : Tx LifetimeWorkerRecord :=
  existing <- optionalRecord readControlLifetimeWorkerTx ;;
  match existing with
  | Some e => matchWinner retimeWorker candidate e
  | None => putCandidate controlLifetimeWorkerName jsonWorkerRecord readControlLifetimeWorkerTx retimeWorker candidate
  end.

Definition RecordLifetimeWorker (facts : LifetimeWorkerFacts) (now : time) : Tx LifetimeWorkerRecord :=
  txOf (validateLifetimeOperation l) ;;;
  withLock (
    rejectLifetimeLaunchPermissionTx ;;;
    r <- readControlLifetimeRegistrationTx ;;
    let candidate := MkWorkerRecord SchemaVersion (ct_rootID l) (ct_operationID l) r.2 (fw_PID facts)
      (fw_ProcessStart facts) (fw_BootID facts) (FormatRFC3339Nano now) in
    txOf (validateControlLifetimeWorker l candidate r.1 r.2) ;;;
    recordControlLifetimeWorkerTx candidate).

(** *** Launches *)
Record LifetimeLaunchFacts : Set := MkLaunchFacts {
  fl_Sequence : Z; fl_PID : Z; fl_ProcessStart : string; fl_PGID : Z
}.

Definition controlLifetimeLaunchRecord (facts : LifetimeLaunchFacts) (digest startedAt : string) : LifetimeLaunchRecord :=
  MkLaunch SchemaVersion (ct_rootID l) (ct_operationID l) digest (fl_Sequence facts) (fl_PID facts)
    (fl_ProcessStart facts) (fl_PGID facts) startedAt.

Definition newControlLifetimeLaunchCandidate (facts : LifetimeLaunchFacts) (digest : string) (now : time)
    (set : lifetimeLaunchSet) : result LifetimeLaunchRecord :=
  (let candidate := controlLifetimeLaunchRecord facts digest (FormatRFC3339Nano now) in
   validateControlLifetimeLaunch l candidate digest ;;
   AddLaunch (ls_capacity set) candidate ;;
   Ok candidate)%stdpp.

Definition recordControlLifetimeLaunchTx (facts : LifetimeLaunchFacts) (now : time) : Tx LifetimeLaunchRecord :=
  r <- readControlLifetimeRegistrationTx ;;
  set <- readControlLifetimeLaunchSetTx r.2 ;;
  let launches := ls_records set in
  refuseRecord (readControlLifetimeTerminationTx r.2 launches) (Sentinel task_ErrTerminalTask) ;;;
  let count := Z.of_nat (length launches) in
  if fl_Sequence facts <=? count
  then match launches !! Z.to_nat (fl_Sequence facts - 1) with
       | Some existing =>
           let candidate := controlLifetimeLaunchRecord facts r.2 (ll_StartedAt existing) in
           txOf (validateControlLifetimeLaunch l candidate r.2) ;;;
           txFail (negb (bool_decide (existing = candidate))) mismatch ;;;
           txRet existing
       | None => txErr (New "index out of range")
       end
  else
    txFail (negb (fl_Sequence facts =? count + 1)) mismatch ;;;
    candidate <- txOf (newControlLifetimeLaunchCandidate facts r.2 now set) ;;
    created <- Put (controlLifetimeLaunchName (fl_Sequence facts)) (jsonLaunch candidate) ;;
    if created then txRet candidate
    else
      winners <- readControlLifetimeLaunchesTx r.2 ;;
      match winners !! Z.to_nat (fl_Sequence facts - 1) with
      | Some winner => txFail (negb (bool_decide (winner = candidate))) mismatch ;;; txRet winner
      | None => txErr mismatch
      end.

Definition RecordLifetimeLaunch (facts : LifetimeLaunchFacts) (now : time) : Tx LifetimeLaunchRecord :=
  txOf (validateLifetimeOperation l) ;;;
  txOf (ValidateLifetimeLaunchSequence (fl_Sequence facts)) ;;;
  withLock (recordControlLifetimeLaunchTx facts now).

(** *** Termination *)
Definition recordControlLifetimeTerminationTx (cause : string) (now : time) : Tx LifetimeTerminationRecord :=
  r <- readControlLifetimeRegistrationTx ;;
  launches <- readControlLifetimeLaunchesTx r.2 ;;
  let candidate := MkTermination SchemaVersion (ct_rootID l) (ct_operationID l) r.2 (Z.of_nat (length launches))
    (LifetimeLaunchSetDigest launches) cause true (FormatRFC3339Nano now) in
  txOf (validateControlLifetimeTermination l candidate r.2 launches) ;;;
  existing <- optionalRecord (readControlLifetimeTerminationTx r.2 launches) ;;
  match existing with
  | Some e => matchWinner retimeTermination candidate e
  | None => putCandidate controlLifetimeTerminationName jsonTermination
              (readControlLifetimeTerminationTx r.2 launches) retimeTermination candidate
  end.

Definition RecordLifetimeTermination (cause : string) (now : time) : Tx LifetimeTerminationRecord :=
  txOf (validateLifetimeOperation l) ;;; withLock (recordControlLifetimeTerminationTx cause now).

(** *** Completion *)
Record LifetimeWorkerWaitFacts : Set := MkWaitFacts {
  fx_WorkerSHA256 : string; fx_ChildPID : Z; fx_Result : string; fx_ExitCode : option Z; fx_ObservedAt : time
}.

Definition recordControlLifetimeWorkerWaitTx (candidate : LifetimeWorkerWaitRecord) : Tx LifetimeWorkerWaitRecord :=
  existing <- optionalRecord readControlLifetimeWorkerWaitTx ;;
  match existing with
  | Some e => matchWinner retimeWait candidate e
  | None => putReadback controlLifetimeWorkerWaitName jsonWorkerWait readControlLifetimeWorkerWaitTx retimeWait candidate
  end.

Definition RecordLifetimeWorkerWait (facts : LifetimeWorkerWaitFacts) (now : time) : Tx LifetimeWorkerWaitRecord :=
  txOf (validateLifetimeOperation l) ;;;
  let observedAt := if IsZero (fx_ObservedAt facts) then now else fx_ObservedAt facts in
  withLock (
    r <- readControlLifetimeRegistrationTx ;;
    w <- readControlLifetimeWorkerBindingTx ;;
    let candidate := MkWorkerWait SchemaVersion (ct_rootID l) (ct_operationID l) r.2 (fx_WorkerSHA256 facts)
      (fx_ChildPID facts) (fx_Result facts) (fx_ExitCode facts) (FormatRFC3339Nano observedAt) "" "" "" in
    txOf (validateControlLifetimeWorkerWait l candidate r.1 r.2 w.1 w.2) ;;;
    recordControlLifetimeWorkerWaitTx candidate).

Definition RecordLifetimeWorkerAbsence (proof observedBootID : string) (now : time) : Tx LifetimeWorkerWaitRecord :=
  txOf (validateLifetimeOperation l) ;;;
  withLock (
    evidence <- loadLifetimeDependencies ;;
    candidate <- txOf (NewLifetimeWorkerAbsence evidence proof observedBootID now) ;;
    recordControlLifetimeWorkerWaitTx candidate).

(** *** The unlaunched fence *)
Definition validateControlLifetimeUnlaunched : result unit :=
  (validateLifetimeOperation l ;;
   fail_if (negb (eqs (ct_ownerKind l) LifetimeOwnerWorkspace) && negb (eqs (ct_ownerKind l) LifetimeOwnerInspection))
     (Errorf "unlaunched fences require an auxiliary owner" (Sentinel task_ErrInvalidEnum)))%stdpp.

Definition sealControlLifetimeUnlaunchedTx (now : time) : Tx LifetimeUnlaunchedRecord :=
  existing <- optionalRecord readControlLifetimeUnlaunchedTx ;;
  match existing with
  | Some e => txRet e
  | None =>
      ensureNoNativeLifetimeRecordsTx ;;;
      txFail (IsZero now || Before now (ct_deadline l)) (Sentinel task_ErrLifetimeDeadlineNotExpired) ;;;
      let candidate := MkUnlaunched SchemaVersion (ct_rootID l) (ct_operationID l) (ct_ownerKind l) (ct_ownerSHA256 l)
        (deadlineText l) LifetimeUnlaunchedCauseDeadlineExpired (FormatRFC3339Nano now) in
      txOf (ValidateLifetimeUnlaunchedRecord (Some candidate)) ;;;
      putReadback controlLifetimeUnlaunchedName jsonUnlaunched readControlLifetimeUnlaunchedTx retimeUnlaunched candidate
  end.

(** The owner lease of [SealLifetimeUnlaunchedContext] is two more system calls. *)
Definition SealLifetimeUnlaunched (now : time) : Tx LifetimeUnlaunchedRecord :=
  txOf validateControlLifetimeUnlaunched ;;;
  withLock (withLock (sealControlLifetimeUnlaunchedTx now)).

(** [WithLifetimeLaunchPermissionOrReplayContext] *)
Definition WithLifetimeLaunchPermissionOrReplay {A} (replay : option (Tx A)) (create : Tx A) : Tx A :=
  txOf validateControlLifetimeUnlaunched ;;;
  withLock (
    replayed <- match replay with
                | None => txRet None
                | Some m => optionalRecord m
                end ;;
    match replayed with
    | Some a => txRet a
    | None => rejectLifetimeLaunchPermissionTx ;;; create
    end).

(** [WithLifetimeLaunchPermissionContext] *)
Definition WithLifetimeLaunchPermission (callback : Tx unit) : Tx unit :=
  WithLifetimeLaunchPermissionOrReplay None callback.

(** *** Reading *)
Definition ReadLifetimeIntent : Tx LifetimeIntentRecord :=
  txOf (validateLifetimeOperation l) ;;; withLock readControlLifetimeIntentTx.

Definition ReadLifetimeRegistration : Tx LifetimeRegistrationRecord :=
  txOf (validateLifetimeOperation l) ;;; withLock (r <- readControlLifetimeRegistrationTx ;; txRet r.1).

Definition LifetimeRegistrationDigest : Tx string :=
  registration <- ReadLifetimeRegistration ;; txRet (registrationDigest registration).

Definition ReadLifetimeLaunches : Tx (list LifetimeLaunchRecord) :=
  txOf (validateLifetimeOperation l) ;;; withLock readReaderLaunches.

Definition ReadLifetimeWorker : Tx LifetimeWorkerRecord :=
  txOf (validateLifetimeOperation l) ;;; withLock readControlLifetimeWorkerTx.

Definition ReadLifetimeWorkerWait : Tx LifetimeWorkerWaitRecord :=
  txOf (validateLifetimeOperation l) ;;; withLock readControlLifetimeWorkerWaitTx.

Definition ReadLifetimeUnlaunched : Tx LifetimeUnlaunchedRecord :=
  txOf validateControlLifetimeUnlaunched ;;; withLock readControlLifetimeUnlaunchedTx.

Definition ReadLifetimeTermination : Tx LifetimeTerminationRecord :=
  txOf (validateLifetimeOperation l) ;;; withLock readBoundControlLifetimeTerminationTx.

Definition HasTerminatedLifetime (cause : string) : Tx bool :=
  record <- optionalRecord ReadLifetimeTermination ;;
  txRet (match record with
         | None => false
         | Some r => lt_ScopeEmpty r && (eqs cause "" || eqs (lt_Cause r) cause)
         end).
End operations.
