(* ===== verification/ControlLifetimeProps.v ===== *)
(** * Reads and errors of the control directory

    Reading never changes the directory, and an error that reads as an absent record
    is reported only for a name that is not in the directory. *)
From S2P Require Import Prelude GoErrors GoTime GoText TaskTypes Encoding GoPath GoTimestamp TaskLifetime LifetimeClosure ControlDir ControlLifetime.
From S2P Require Import LifetimeClosureTheorems.
#[local] Open Scope tx_scope.

(** ** Read-only steps *)
Definition readonly {A} (m : Tx A) : Prop := forall d, files (m d).2 = files d.

Create HintDb tx.

Lemma readonly_ret {A} (a : A) : readonly (txRet a).
Proof. done. Qed.
Lemma readonly_err {A} e : readonly (@txErr A e).
Proof. done. Qed.
Lemma readonly_of {A} (r : result A) : readonly (txOf r).
Proof. done. Qed.
Lemma readonly_fail b e : readonly (txFail b e).
Proof. done. Qed.
Lemma readonly_bind {A B} (m : Tx A) (f : A -> Tx B) :
  readonly m -> (forall a, readonly (f a)) -> readonly (txBind m f).
Proof.
  intros Hm Hf d. unfold txBind. specialize (Hm d). destruct (m d) as [[a|e] d']; cbn in *; [by rewrite Hf|done].
Qed.
Lemma readonly_try {A} (m : Tx A) : readonly m -> readonly (txTry m).
Proof. intros Hm d. unfold txTry. specialize (Hm d). by destruct (m d). Qed.
Lemma readonly_mapErr {A} f (m : Tx A) : readonly m -> readonly (txMapErr f m).
Proof. intros Hm d. unfold txMapErr. specialize (Hm d). by destruct (m d). Qed.
Lemma readonly_nextFault : readonly nextFault.
Proof. intros d. unfold nextFault. by destruct (faults d). Qed.
#[export] Hint Resolve readonly_ret readonly_err readonly_of readonly_fail readonly_try readonly_mapErr readonly_nextFault : tx.
#[export] Hint Extern 2 (readonly (txBind _ _)) => apply readonly_bind; [|intros ?] : tx.
#[export] Hint Extern 3 (readonly (match ?x with _ => _ end)) => destruct x : tx.
#[export] Hint Extern 4 (readonly (let '_ := _ in _)) => cbv zeta : tx.

Lemma readonly_systemCall : readonly systemCall.
Proof. unfold systemCall. auto with tx. Qed.
#[export] Hint Resolve readonly_systemCall : tx.

Lemma readonly_readBytes name limit : readonly (readBytes name limit).
Proof. unfold readBytes. apply readonly_bind; [auto with tx|]. intros _ d. by destruct (files d !! name). Qed.
#[export] Hint Resolve readonly_readBytes : tx.

Lemma readonly_Read {A} (decode : string -> A + decodeFailure) name : readonly (Read decode name).
Proof. unfold Read. auto 10 with tx. Qed.
Lemma readonly_verifyBytes name data : readonly (verifyCanonicalRecord name data).
Proof. unfold verifyCanonicalRecord. auto 10 with tx. Qed.
#[export] Hint Resolve readonly_Read readonly_verifyBytes : tx.
Lemma readonly_Verify name record : readonly (Verify name record).
Proof. unfold Verify. auto 10 with tx. Qed.
#[export] Hint Resolve readonly_Verify : tx.

Lemma readonly_inventory : readonly lifetimeLaunchSequences.
Proof.
  unfold lifetimeLaunchSequences. apply readonly_bind; [auto with tx|]. intros _.
  apply readonly_bind; [done|]. intros names. auto 10 with tx.
Qed.
#[export] Hint Resolve readonly_inventory : tx.

Lemma readonly_optional {A} (m : Tx A) : readonly m -> readonly (optionalRecord m).
Proof. unfold optionalRecord. auto 10 with tx. Qed.
Lemma readonly_refuse {A} (m : Tx A) e : readonly m -> readonly (refuseRecord m e).
Proof. unfold refuseRecord. auto 10 using readonly_optional with tx. Qed.
#[export] Hint Resolve readonly_optional readonly_refuse : tx.

Section reads.
Context (D : Decoders) (l : ControlLifetime).

Lemma readonly_registration : readonly (readControlLifetimeRegistrationTx D l).
Proof. unfold readControlLifetimeRegistrationTx, readRecord. auto 10 with tx. Qed.
Lemma readonly_intent : readonly (readControlLifetimeIntentTx D l).
Proof. unfold readControlLifetimeIntentTx, readRecord. auto 10 with tx. Qed.
Lemma readonly_readLaunches sequences digest set : readonly (readLaunches D l sequences digest set).
Proof. revert set. induction sequences as [|s ss IH]; intros set; cbn [readLaunches]; auto 20 with tx. Qed.
Lemma readonly_launchSet digest : readonly (readControlLifetimeLaunchSetTx D l digest).
Proof. unfold readControlLifetimeLaunchSetTx. auto 10 using readonly_readLaunches with tx. Qed.
Lemma readonly_launches digest : readonly (readControlLifetimeLaunchesTx D l digest).
Proof. unfold readControlLifetimeLaunchesTx. auto 10 using readonly_launchSet with tx. Qed.
Lemma readonly_termination digest launches : readonly (readControlLifetimeTerminationTx D l digest launches).
Proof. unfold readControlLifetimeTerminationTx, readRecord. auto 10 with tx. Qed.
#[local] Hint Resolve readonly_registration readonly_intent readonly_launchSet readonly_launches readonly_termination : tx.
Lemma readonly_dependency {A} (m : Tx A) : readonly m -> readonly (dependency m).
Proof. unfold dependency. auto with tx. Qed.
#[local] Hint Resolve readonly_dependency : tx.
Lemma readonly_bound : readonly (readBoundControlLifetimeTerminationTx D l).
Proof. unfold readBoundControlLifetimeTerminationTx, readRecord. auto 20 with tx. Qed.
Lemma readonly_presence : readonly (readControlLifetimeTerminationPresenceTx D l).
Proof. unfold readControlLifetimeTerminationPresenceTx, readRecord. auto 20 with tx. Qed.
Lemma readonly_worker : readonly (readControlLifetimeWorkerTx D l).
Proof. unfold readControlLifetimeWorkerTx, readRecord. auto 20 with tx. Qed.
#[local] Hint Resolve readonly_bound readonly_presence readonly_worker : tx.
Lemma readonly_binding : readonly (readControlLifetimeWorkerBindingTx D l).
Proof. unfold readControlLifetimeWorkerBindingTx. auto 10 with tx. Qed.
Lemma readonly_readerLaunches : readonly (readReaderLaunches D l).
Proof. unfold readReaderLaunches. auto 10 with tx. Qed.
#[local] Hint Resolve readonly_binding readonly_readerLaunches : tx.
Lemma readonly_dependencies : readonly (loadLifetimeDependencies D l).
Proof. unfold loadLifetimeDependencies. auto 20 with tx. Qed.
#[local] Hint Resolve readonly_dependencies : tx.
Lemma readonly_wait : readonly (readControlLifetimeWorkerWaitTx D l).
Proof. unfold readControlLifetimeWorkerWaitTx, readRecord. auto 30 with tx. Qed.
#[local] Hint Resolve readonly_wait : tx.
Lemma readonly_orphans : readonly (rejectOrphanedLifetimeLaunchesTx D l).
Proof. unfold rejectOrphanedLifetimeLaunchesTx. auto 20 with tx. Qed.
#[local] Hint Resolve readonly_orphans : tx.
Lemma readonly_noNative : readonly (ensureNoNativeLifetimeRecordsTx D l).
Proof. unfold ensureNoNativeLifetimeRecordsTx. auto 20 with tx. Qed.
#[local] Hint Resolve readonly_noNative : tx.
Lemma readonly_unlaunched : readonly (readControlLifetimeUnlaunchedTx D l).
Proof. unfold readControlLifetimeUnlaunchedTx, readRecord. auto 20 with tx. Qed.
#[local] Hint Resolve readonly_unlaunched : tx.
Lemma readonly_permission : readonly (rejectLifetimeLaunchPermissionTx D l).
Proof. unfold rejectLifetimeLaunchPermissionTx. auto 20 with tx. Qed.
End reads.
#[export] Hint Resolve readonly_registration readonly_intent readonly_launchSet readonly_launches readonly_termination
  readonly_dependency readonly_bound readonly_presence readonly_worker readonly_binding readonly_readerLaunches
  readonly_dependencies readonly_wait readonly_orphans readonly_noNative readonly_unlaunched readonly_permission : tx.

(** ** Errors that read as absent *)
Lemma absent_notexist e : RecordAbsent e = true -> errors_Is e fs_ErrNotExist = true.
Proof.
  unfold RecordAbsent. destruct (_ || _); [done|]. induction e as [s|m|c|m e IH|m es IH] using error_tree_ind; cbn; try done.
  destruct es as [|e es]; [done|]. cbn. intros [He _]%andb_true_iff. inversion_clear IH as [|? ? H _].
  by rewrite (H He).
Qed.

Lemma fault_not_absent e : errors_Is e task_ErrEvidenceFault = true -> RecordAbsent e = false.
Proof. unfold RecordAbsent. intros ->. by rewrite orb_true_r. Qed.
Lemma mismatch_not_absent e : errors_Is e task_ErrIdentityMismatch = true -> RecordAbsent e = false.
Proof. unfold RecordAbsent. by intros ->. Qed.

(** A pure check whose errors are never those of a missing file. *)
Definition fileless {A} (r : result A) : Prop := forall e, r = Err e -> errors_Is e fs_ErrNotExist = false.

Lemma fileless_Ok {A} (a : A) : fileless (Ok a).
Proof. done. Qed.
Lemma fileless_Err {A} e : errors_Is e fs_ErrNotExist = false -> fileless (@Err A e).
Proof. by intros H ? [= <-]. Qed.
Lemma fileless_fail_if b e : errors_Is e fs_ErrNotExist = false -> fileless (fail_if b e).
Proof. destruct b; [apply fileless_Err|done]. Qed.
Lemma fileless_bind {A B} (m : result A) (f : A -> result B) :
  fileless m -> (forall a, fileless (f a)) -> fileless (m ≫= f).
Proof. intros Hm Hf. destruct m as [a|e]; cbn; [apply Hf|]. intros ? [= <-]. by apply Hm. Qed.
Lemma fileless_wrap {A} f (m : result A) :
  (forall e, errors_Is e fs_ErrNotExist = false -> errors_Is (f e) fs_ErrNotExist = false) ->
  fileless m -> fileless (wrap_err f m).
Proof. intros Hf Hm. destruct m as [a|e]; cbn; [done|]. apply fileless_Err, Hf. by apply Hm. Qed.

Create HintDb fileless.
#[export] Hint Resolve fileless_Ok fileless_Err fileless_fail_if : fileless.
#[export] Hint Extern 1 (fileless (_ ≫= _)) => apply fileless_bind; [|intros ?] : fileless.
#[export] Hint Extern 1 (fileless (wrap_err _ _)) => apply fileless_wrap; [done|] : fileless.
#[export] Hint Extern 2 (fileless (match ?x with _ => _ end)) => destruct x : fileless.
#[export] Hint Extern 2 (errors_Is _ fs_ErrNotExist = false) => reflexivity : fileless.

Ltac fileless := repeat progress (cbv zeta; auto 20 with fileless).

Lemma fileless_RootID s : fileless (ValidateRootID s).
Proof. unfold ValidateRootID. fileless. Qed.
Lemma fileless_TaskID s : fileless (ValidateTaskID s).
Proof. unfold ValidateTaskID. fileless. Qed.
Lemma fileless_SHA256 s : fileless (ValidateSHA256 s).
Proof. unfold ValidateSHA256. fileless. Qed.
#[export] Hint Resolve fileless_RootID fileless_TaskID fileless_SHA256 : fileless.
Lemma fileless_identity s r t : fileless (validateLifetimeIdentity s r t).
Proof. unfold validateLifetimeIdentity. fileless. Qed.
Lemma fileless_owner k s : fileless (validateLifetimeOwner k s).
Proof. unfold validateLifetimeOwner. fileless. Qed.
Lemma fileless_scope k s : fileless (validateLifetimeScope k s).
Proof. unfold validateLifetimeScope. fileless. Qed.
Lemma fileless_parse s : fileless (ParseRFC3339Nano s).
Proof. unfold ParseRFC3339Nano. fileless. Qed.
#[export] Hint Resolve fileless_identity fileless_owner fileless_scope fileless_parse : fileless.
Lemma fileless_timestamp s : fileless (validateTimestamp s).
Proof.
  unfold validateTimestamp. intros e. destruct (ParseRFC3339Nano s) eqn:E; [done|]. intros [= <-]. cbn. by eapply fileless_parse.
Qed.
Lemma fileless_workerTimestamp s : fileless (validateLifetimeWorkerTimestamp s).
Proof. unfold validateLifetimeWorkerTimestamp. fileless. Qed.
Lemma fileless_canonicalTimestamp n s : fileless (controlLifetimeCanonicalTimestamp n s).
Proof. unfold controlLifetimeCanonicalTimestamp. fileless. Qed.
Lemma fileless_unlaunchedTimestamp n s : fileless (validateLifetimeUnlaunchedTimestamp n s).
Proof. unfold validateLifetimeUnlaunchedTimestamp. fileless. Qed.
#[export] Hint Resolve fileless_timestamp fileless_workerTimestamp fileless_canonicalTimestamp fileless_unlaunchedTimestamp : fileless.
Lemma fileless_placement p : fileless (ValidateLifetimeCustodyPlacement p).
Proof. unfold ValidateLifetimeCustodyPlacement. fileless. Qed.
#[export] Hint Resolve fileless_placement : fileless.
Lemma fileless_registration r : fileless (ValidateLifetimeRegistrationRecord r).
Proof. unfold ValidateLifetimeRegistrationRecord. fileless. Qed.
Lemma fileless_intent r : fileless (ValidateLifetimeIntentRecord r).
Proof. unfold ValidateLifetimeIntentRecord. fileless. Qed.
Lemma fileless_launch r : fileless (ValidateLifetimeLaunchRecord r).
Proof. unfold ValidateLifetimeLaunchRecord. fileless. Qed.
Lemma fileless_worker r : fileless (ValidateLifetimeWorkerRecord r).
Proof. unfold ValidateLifetimeWorkerRecord. fileless. Qed.
Lemma fileless_termination r : fileless (ValidateLifetimeTerminationRecord r).
Proof. unfold ValidateLifetimeTerminationRecord. fileless. Qed.
Lemma fileless_unlaunched r : fileless (ValidateLifetimeUnlaunchedRecord r).
Proof. unfold ValidateLifetimeUnlaunchedRecord. fileless. Qed.
Lemma fileless_wait r : fileless (ValidateLifetimeWorkerWaitRecord r).
Proof.
  unfold ValidateLifetimeWorkerWaitRecord, validateLifetimeWorkerWaitAbsenceFields, validateLifetimeWorkerWaitResult,
    validateLifetimeWorkerWaitAbsenceResult, validateStartedLifetimeWorkerWait. fileless.
Qed.
#[export] Hint Resolve fileless_registration fileless_intent fileless_launch fileless_worker fileless_termination
  fileless_unlaunched fileless_wait : fileless.

Lemma fileless_setIdentity i r t : fileless (setIdentity i r t).
Proof. unfold setIdentity. fileless. Qed.
Lemma fileless_addLaunch c r : fileless (AddLaunch c r).
Proof. unfold AddLaunch, addEncoded. fileless. Qed.
#[export] Hint Resolve fileless_setIdentity fileless_addLaunch : fileless.
Lemma fileless_capacity launches : fileless (ValidateLifetimeLaunchCapacity launches).
Proof.
  unfold ValidateLifetimeLaunchCapacity. generalize zeroLaunchCapacity.
  induction launches as [|r rs IH]; intros c; cbn [addLaunches]; [fileless|].
  apply fileless_bind; [|intros; fileless]. apply fileless_bind; [fileless|]. intros c'.
  intros e He. specialize (IH c' e). rewrite He in IH. by apply IH.
Qed.
Lemma fileless_evidenceLaunches launches i id : fileless (evidenceLaunches launches i id).
Proof. revert i id. induction launches as [|r rs IH]; intros i id; cbn [evidenceLaunches]; fileless. Qed.
#[export] Hint Resolve fileless_capacity fileless_evidenceLaunches : fileless.
Lemma fileless_facts e : fileless (validateLifetimeEvidenceFacts e).
Proof.
  unfold validateLifetimeEvidenceFacts, validateLifetimeEvidenceRecords, validateLifetimeScopeEvidence, checkRecord,
    validateLifetimeEvidenceLaunches, validateLifetimeEvidenceBindings, validateLifetimeRegisteredEvidenceBindings,
    validateLifetimeEvidenceTermination. fileless.
Qed.
#[export] Hint Resolve fileless_facts : fileless.
Lemma fileless_completion w e : fileless (ValidateLifetimeCompletionBinding w e).
Proof.
  unfold ValidateLifetimeCompletionBinding, validateLifetimeAbsenceBinding, validateLifetimeNativeCompletionBinding,
    validateLifetimeExactWorkerAbsenceBinding, validateLifetimeRegisteredPreviousBootAbsenceBinding,
    validateLifetimeIntentPreviousBootAbsenceBinding, validateLifetimeUnregisteredAbsenceBinding. fileless.
Qed.
#[export] Hint Resolve fileless_completion : fileless.

Lemma fileless_controlName name : fileless (validateControlName name).
Proof. unfold validateControlName. fileless. Qed.
Lemma fileless_marshal j : fileless (marshalControlRecord j).
Proof. unfold marshalControlRecord. fileless. Qed.
Lemma fileless_contiguous ss : fileless (requireContiguousLifetimeLaunches ss).
Proof.
  unfold requireContiguousLifetimeLaunches. generalize 0. induction ss as [|s ss IH]; intros i; cbn [contiguousFrom]; fileless.
Qed.
Lemma fileless_addToSet s r : fileless (addToSet s r).
Proof. unfold addToSet. fileless. Qed.
#[export] Hint Resolve fileless_controlName fileless_marshal fileless_contiguous fileless_addToSet : fileless.

Section controlChecks.
Context (l : ControlLifetime).
Lemma fileless_controlRegistration r : fileless (validateControlLifetimeRegistration l r).
Proof. unfold validateControlLifetimeRegistration. fileless. Qed.
Lemma fileless_controlIntent r : fileless (validateControlLifetimeIntent l r).
Proof. unfold validateControlLifetimeIntent. fileless. Qed.
Lemma fileless_controlLaunch r d : fileless (validateControlLifetimeLaunch l r d).
Proof. unfold validateControlLifetimeLaunch. fileless. Qed.
Lemma fileless_controlTermination r d ls : fileless (validateControlLifetimeTermination l r d ls).
Proof. unfold validateControlLifetimeTermination. fileless. Qed.
Lemma fileless_controlWorker r reg d : fileless (validateControlLifetimeWorker l r reg d).
Proof. unfold validateControlLifetimeWorker. fileless. Qed.
Lemma fileless_controlWait w r rd k kd : fileless (validateControlLifetimeWorkerWait l w r rd k kd).
Proof. unfold validateControlLifetimeWorkerWait, validateLifetimeWorkerWaitForTask. fileless. Qed.
End controlChecks.
#[export] Hint Resolve fileless_controlRegistration fileless_controlIntent fileless_controlLaunch
  fileless_controlTermination fileless_controlWorker fileless_controlWait : fileless.

(** ** A step whose absence means a fact about the directory *)
Definition absentOnly {A} (P : gmap string string -> Prop) (m : Tx A) : Prop :=
  forall d e, (m d).1 = Err e -> RecordAbsent e = true -> P (files d).

Lemma absent_ret {A} P (a : A) : absentOnly P (txRet a).
Proof. by intros d e H. Qed.
Lemma absent_err {A} P e : RecordAbsent e = false -> absentOnly P (@txErr A e).
Proof. intros H d e' [= <-]. by rewrite H. Qed.
Lemma absent_of {A} P (r : result A) : fileless r -> absentOnly P (txOf r).
Proof. intros H d e He Ha. cbn in He. apply absent_notexist in Ha. by rewrite (H _ He) in Ha. Qed.
Lemma absent_fail P b e : RecordAbsent e = false -> absentOnly P (txFail b e).
Proof. intros H d e'. cbn. destruct b; cbn; [intros [= <-]; by rewrite H|done]. Qed.
Lemma absent_bind {A B} P (m : Tx A) (f : A -> Tx B) :
  readonly m -> absentOnly P m -> (forall a, absentOnly P (f a)) -> absentOnly P (txBind m f).
Proof.
  intros HR Hm Hf d e. unfold txBind. specialize (HR d). specialize (Hm d). destruct (m d) as [[a|e'] d'] eqn:E; cbn in *.
  - intros He Ha. specialize (Hf a d' e He Ha). by rewrite HR in Hf.
  - intros [= ->]. by apply Hm.
Qed.
Lemma absent_map {A} P (f : error -> error) (m : Tx A) :
  (forall e, RecordAbsent (f e) = true -> RecordAbsent e = true) -> absentOnly P m -> absentOnly P (txMapErr f m).
Proof.
  intros Hf Hm d e. unfold txMapErr. specialize (Hm d). destruct (m d) as [[a|e'] d']; cbn in *; [done|].
  intros [= <-] Ha. by apply (Hm e'); [|apply Hf].
Qed.
(** The mapped error is never an absence. *)
Lemma absent_map_never {A} P (f : error -> error) (m : Tx A) :
  (forall e, RecordAbsent (f e) = false) -> absentOnly P (txMapErr f m).
Proof.
  intros Hf d e. unfold txMapErr. destruct (m d) as [[a|e'] d']; cbn; [done|]. intros [= <-]. by rewrite Hf.
Qed.
Lemma absent_weaken {A} (P Q : gmap string string -> Prop) (m : Tx A) :
  absentOnly P m -> (forall f, P f -> Q f) -> absentOnly Q m.
Proof. intros H HPQ d e He Ha. apply HPQ. by eapply H. Qed.

Lemma ioErr_not_absent e : RecordAbsent (ioErr e) = false.
Proof. by destruct e. Qed.
Lemma absent_systemCall P : absentOnly P systemCall.
Proof.
  intros d e. unfold systemCall, txBind, nextFault. destruct (faults d) as [|[|i|i] fs]; cbn; try done;
    intros [= <-]; by rewrite ioErr_not_absent.
Qed.
#[export] Hint Resolve absent_ret absent_err absent_fail absent_systemCall ioErr_not_absent : tx.
#[export] Hint Extern 1 (absentOnly _ (txOf _)) => apply absent_of; fileless : tx.
#[export] Hint Extern 2 (absentOnly _ (txBind _ _)) => apply absent_bind; [|  |intros ?] : tx.
#[export] Hint Extern 3 (absentOnly _ (match ?x with _ => _ end)) => destruct x : tx.
#[export] Hint Extern 1 (RecordAbsent _ = false) => reflexivity : tx.

Lemma absent_readBytes name limit : absentOnly (fun f => f !! name = None) (readBytes name limit).
Proof.
  unfold readBytes. apply absent_bind; [auto with tx..|]. intros _ d e. destruct (files d !! name) eqn:E; cbn; [|done].
  destruct (_ <? _); [|done]. by intros [= <-].
Qed.
Lemma absent_Read {A} (decode : string -> A + decodeFailure) name :
  absentOnly (fun f => f !! name = None) (Read decode name).
Proof.
  unfold Read. apply absent_bind; [auto with tx..|]. intros _. apply absent_bind; [auto with tx|apply absent_readBytes|].
  intros data. destruct (decode data) as [|[]]; auto with tx.
Qed.

Lemma joined_fault_not_absent m e : RecordAbsent (Joined m [Sentinel task_ErrEvidenceFault; e]) = false.
Proof. by apply fault_not_absent. Qed.
#[export] Hint Resolve joined_fault_not_absent : tx.

Lemma absent_verifyBytes P name data : absentOnly P (verifyCanonicalRecord name data).
Proof.
  unfold verifyCanonicalRecord. apply absent_bind; [auto with tx|apply absent_map_never; intros; apply joined_fault_not_absent|].
  intros existing. apply absent_bind; [auto with tx..|]. intros _. apply absent_map_never. intros; apply joined_fault_not_absent.
Qed.
Lemma absent_Verify P name j : absentOnly P (Verify name j).
Proof.
  unfold Verify. apply absent_bind; [auto with tx..|]. intros _. apply absent_bind; [auto with tx..|]. intros data.
  apply absent_verifyBytes.
Qed.
#[export] Hint Resolve absent_Read absent_Verify : tx.

Lemma readError_absent e : RecordAbsent (controlLifetimeReadError e) = true -> RecordAbsent e = true.
Proof. unfold controlLifetimeReadError. destruct (_ || _); [done|]. by rewrite joined_fault_not_absent. Qed.
Lemma dependencyError_not_absent e : RecordAbsent (lifetimeValidationDependencyError e) = false.
Proof.
  unfold lifetimeValidationDependencyError. destruct (_ || _) eqn:E; [unfold RecordAbsent; by rewrite E|].
  by apply mismatch_not_absent.
Qed.
Lemma inventoriedError_not_absent e : RecordAbsent (inventoriedLifetimeLaunchReadError e) = false.
Proof.
  unfold inventoriedLifetimeLaunchReadError. destruct (RecordAbsent e) eqn:E; [apply joined_fault_not_absent|].
  destruct (RecordAbsent (controlLifetimeReadError e)) eqn:E2; [|done]. by rewrite (readError_absent _ E2) in E.
Qed.

Lemma absent_readRecord {A} (decode : string -> A + decodeFailure) name :
  absentOnly (fun f => f !! name = None) (readRecord decode name).
Proof. unfold readRecord. apply absent_map; [apply readError_absent|apply absent_Read]. Qed.
Lemma absent_dependency {A} P (m : Tx A) : absentOnly P (dependency m).
Proof. apply absent_map_never, dependencyError_not_absent. Qed.
#[export] Hint Resolve absent_readRecord absent_dependency : tx.

Lemma absent_optional {A} P (m : Tx A) : absentOnly P (optionalRecord m).
Proof.
  intros d e. unfold optionalRecord, txTry, txBind. destruct (m d) as [[a|e'] d']; cbn; [done|].
  destruct (RecordAbsent e') eqn:E; cbn; [done|]. intros [= <-]. by rewrite E.
Qed.
Lemma absent_refuse {A} P (m : Tx A) e : RecordAbsent e = false -> absentOnly P (refuseRecord m e).
Proof.
  intros He d e'. unfold refuseRecord, optionalRecord, txTry, txBind. destruct (m d) as [[a|e0] d']; cbn.
  - intros [= <-]. by rewrite He.
  - destruct (RecordAbsent e0) eqn:E; cbn; [done|]. intros [= <-]. by rewrite E.
Qed.
#[export] Hint Resolve absent_optional absent_refuse : tx.

Lemma fileless_parseName n name : fileless (parseLaunchName n name).
Proof. unfold parseLaunchName, ValidateLifetimeLaunchSequence. fileless. Qed.
Lemma fileless_visitNames n names s : fileless (visitNames n names s).
Proof.
  revert s. induction names as [|name names IH]; intros s; cbn [visitNames]; [fileless|].
  unfold visit. pose proof (fileless_parseName n name) as H. destruct (parseLaunchName n name) as [[q|]|e].
  - destruct (_ <=? _); [fileless|apply IH].
  - apply IH.
  - apply fileless_Err. by apply H.
Qed.

Lemma ioErr_fileless e : errors_Is (ioErr e) fs_ErrNotExist = false.
Proof. by destruct e. Qed.
Lemma systemCall_fileless d e : (systemCall d).1 = Err e -> errors_Is e fs_ErrNotExist = false.
Proof.
  unfold systemCall, txBind, nextFault. destruct (faults d) as [|[|i|i] fs]; cbn; try done; intros [= <-]; apply ioErr_fileless.
Qed.

Lemma absent_inventory P : absentOnly P lifetimeLaunchSequences.
Proof.
  unfold lifetimeLaunchSequences. apply absent_bind; [auto with tx..|]. intros _.
  apply absent_bind; [done|done|]. intros names d e. unfold txTry, txBind.
  pose proof (systemCall_fileless d) as HS. destruct (systemCall d) as [c d'].
  pose proof (fileless_visitNames controlLifetimeLaunchNaming names []) as HV.
  destruct (visitNames _ names []) as [s|ev]; destruct c as [[]|ec]; cbn; try done; intros [= <-] Ha;
    apply absent_notexist in Ha; cbn in Ha; rewrite ?(HV _ eq_refl), ?(HS _ eq_refl) in Ha; done.
Qed.
#[export] Hint Resolve absent_inventory : tx.

Lemma readonly_readRecord {A} (decode : string -> A + decodeFailure) name : readonly (readRecord decode name).
Proof. unfold readRecord. auto with tx. Qed.
#[export] Hint Resolve readonly_readRecord : tx.

Section absences.
Context (D : Decoders) (l : ControlLifetime).

Lemma absent_registration : absentOnly (fun f => f !! controlLifetimeRegistrationName = None) (readControlLifetimeRegistrationTx D l).
Proof. unfold readControlLifetimeRegistrationTx. auto 20 with tx. Qed.
Lemma absent_intent : absentOnly (fun f => f !! controlLifetimeIntentName = None) (readControlLifetimeIntentTx D l).
Proof. unfold readControlLifetimeIntentTx. auto 20 with tx. Qed.
Lemma absent_readLaunches P sequences digest set : absentOnly P (readLaunches D l sequences digest set).
Proof.
  revert set. induction sequences as [|s ss IH]; intros set; cbn [readLaunches]; cbv zeta; [auto with tx|].
  apply absent_bind; [auto with tx|apply absent_map_never; intros; apply inventoriedError_not_absent|]. intros r.
  repeat (apply absent_bind; [auto with tx..|]; intros ?). apply IH.
Qed.
#[local] Hint Resolve absent_readLaunches : tx.
Lemma absent_launchSet P digest : absentOnly P (readControlLifetimeLaunchSetTx D l digest).
Proof. unfold readControlLifetimeLaunchSetTx. auto 20 with tx. Qed.
#[local] Hint Resolve absent_launchSet : tx.
Lemma absent_launches P digest : absentOnly P (readControlLifetimeLaunchesTx D l digest).
Proof. unfold readControlLifetimeLaunchesTx. auto 20 with tx. Qed.
Lemma absent_termination digest launches :
  absentOnly (fun f => f !! controlLifetimeTerminationName = None) (readControlLifetimeTerminationTx D l digest launches).
Proof. unfold readControlLifetimeTerminationTx. auto 20 with tx. Qed.
#[local] Hint Resolve absent_registration absent_intent absent_launches absent_termination : tx.
Lemma absent_bound :
  absentOnly (fun f => f !! controlLifetimeTerminationName = None) (readBoundControlLifetimeTerminationTx D l).
Proof. unfold readBoundControlLifetimeTerminationTx. auto 30 with tx. Qed.
Lemma absent_presence :
  absentOnly (fun f => f !! controlLifetimeTerminationName = None) (readControlLifetimeTerminationPresenceTx D l).
Proof. unfold readControlLifetimeTerminationPresenceTx. auto 30 with tx. Qed.
Lemma absent_worker : absentOnly (fun f => f !! controlLifetimeWorkerName = None) (readControlLifetimeWorkerTx D l).
Proof. unfold readControlLifetimeWorkerTx. auto 30 with tx. Qed.
Lemma absent_dependencies P : absentOnly P (loadLifetimeDependencies D l).
Proof. unfold loadLifetimeDependencies. auto 30 with tx. Qed.
Lemma completionDependency_not_absent e : RecordAbsent (lifetimeCompletionDependencyError e) = false.
Proof. apply joined_fault_not_absent. Qed.
Lemma absent_wait : absentOnly (fun f => f !! controlLifetimeWorkerWaitName = None) (readControlLifetimeWorkerWaitTx D l).
Proof.
  unfold readControlLifetimeWorkerWaitTx. apply absent_bind; [auto with tx|apply absent_readRecord|].
  intros w. apply absent_bind; [auto with tx..|]. intros _. destruct (eqs _ _); [|auto 30 with tx].
  apply absent_bind; [auto with tx|apply absent_map_never; intros; apply completionDependency_not_absent|]. auto 30 with tx.
Qed.
Lemma absent_unlaunched : absentOnly (fun f => f !! controlLifetimeUnlaunchedName = None) (readControlLifetimeUnlaunchedTx D l).
Proof.
  unfold readControlLifetimeUnlaunchedTx. apply absent_bind; [auto with tx|apply absent_readRecord|]. intros r.
  do 3 (apply absent_bind; [auto with tx..|]; intros ?). apply absent_bind; [auto with tx| |auto with tx].
  apply absent_map_never. intros; apply joined_fault_not_absent.
Qed.
End absences.
#[export] Hint Resolve absent_registration absent_intent absent_launchSet absent_launches absent_termination absent_bound
  absent_presence absent_worker absent_dependencies absent_wait absent_unlaunched : tx.
