(* ===== verification/ControlProtocol.v ===== *)
(** * The protocol of a control directory

    The abstract transition system that the operations of [ControlLifetime] implement:
    a directory only grows, one record at a time, and each kind of record is added only
    in the states that [may_add] lists.  The file holds the invariant of that system,
    the rules for what a step may add, and what a successful read says about the
    directory.  [ControlProtocolTheorems] shows that the operations refine it. *)
From S2P Require Import Prelude GoErrors GoTime GoText TaskTypes Encoding GoPath GoTimestamp TaskLifetime LifetimeClosure ControlDir ControlLifetime.
From S2P Require Import LifetimeClosureTheorems ControlLifetimeProps.
From Stdlib Require Import Ascii.
#[local] Open Scope tx_scope.

(** ** The abstract protocol *)

(** The record [j] is in the directory under [name], in its canonical bytes. *)
Definition holds (f : gmap string string) (name : string) (j : json) : Prop :=
  f !! name = Some (MarshalCanonical j).

Definition lifetimeNames : list string :=
  [controlLifetimeIntentName; controlLifetimeRegistrationName; controlLifetimeWorkerName;
   controlLifetimeWorkerWaitName; controlLifetimeTerminationName; controlLifetimeUnlaunchedName].

(** The launch records are those of [launches], in sequence. *)
Definition launchesHeld (f : gmap string string) (launches : list LifetimeLaunchRecord) : Prop :=
  forall i r, launches !! i = Some r ->
    holds f (controlLifetimeLaunchName (Z.of_nat i + 1)) (jsonLaunch r) /\ ll_Sequence r = Z.of_nat i + 1.

(** What the scan of the directory establishes. *)
Definition scanned (f : gmap string string) (launches : list LifetimeLaunchRecord) : Prop :=
  launchesHeld f launches /\ Z.of_nat (length launches) <= MaxLifetimeLaunches /\
  forall name b, f !! name = Some b -> exists o,
    parseLaunchName controlLifetimeLaunchNaming name = Ok o /\
    forall q, o = Some q -> 1 <= q <= Z.of_nat (length launches).

Definition boundTo (f : gmap string string) (registrationSHA256 : string) : Prop :=
  exists reg, holds f controlLifetimeRegistrationName (jsonRegistration reg) /\
    registrationSHA256 = registrationDigest reg.

Definition describes (t : LifetimeTerminationRecord) (launches : list LifetimeLaunchRecord) : Prop :=
  lt_ScopeEmpty t = true /\ lt_LaunchCount t = Z.of_nat (length launches) /\
    lt_LaunchSetSHA256 t = LifetimeLaunchSetDigest launches.

Definition planned (f : gmap string string) (reg : LifetimeRegistrationRecord) : Prop :=
  exists i, holds f controlLifetimeIntentName (jsonIntent i) /\
    LifetimeIntentMatchesRegistration (Some i) (Some reg) = true.

(** A record that may be added to [f]. *)
Inductive may_add (f : gmap string string) : string -> json -> Prop :=
| add_intent i :
    f !! controlLifetimeUnlaunchedName = None -> f !! controlLifetimeTerminationName = None ->
    f !! controlLifetimeRegistrationName = None -> scanned f [] ->
    may_add f controlLifetimeIntentName (jsonIntent i)
| add_registration reg :
    f !! controlLifetimeUnlaunchedName = None -> f !! controlLifetimeTerminationName = None ->
    planned f reg ->
    may_add f controlLifetimeRegistrationName (jsonRegistration reg)
| add_worker w :
    f !! controlLifetimeUnlaunchedName = None -> f !! controlLifetimeTerminationName = None ->
    boundTo f (lw_RegistrationSHA256 w) ->
    may_add f controlLifetimeWorkerName (jsonWorkerRecord w)
| add_launch launches c :
    scanned f launches -> f !! controlLifetimeTerminationName = None ->
    (forall r, r ∈ launches -> boundTo f (ll_RegistrationSHA256 r)) -> boundTo f (ll_RegistrationSHA256 c) ->
    ll_Sequence c = Z.of_nat (length launches) + 1 -> ll_Sequence c <= MaxLifetimeLaunches ->
    may_add f (controlLifetimeLaunchName (ll_Sequence c)) (jsonLaunch c)
| add_termination launches t :
    scanned f launches -> (forall r, r ∈ launches -> boundTo f (ll_RegistrationSHA256 r)) ->
    describes t launches -> boundTo f (lt_RegistrationSHA256 t) ->
    may_add f controlLifetimeTerminationName (jsonTermination t)
| add_wait w :
    f !! controlLifetimeIntentName <> None \/ f !! controlLifetimeRegistrationName <> None ->
    may_add f controlLifetimeWorkerWaitName (jsonWorkerWait w)
| add_unlaunched u :
    (forall name, name ∈ lifetimeNames -> f !! name = None) -> scanned f [] ->
    may_add f controlLifetimeUnlaunchedName (jsonUnlaunched u).

(** The invariant of the protocol. *)
Record protocolWith (f : gmap string string) (launches : list LifetimeLaunchRecord) : Prop := MkProtocol {
  pr_launches : launchesHeld f launches;
  pr_bound : forall r, r ∈ launches -> boundTo f (ll_RegistrationSHA256 r);
  pr_names : forall name b, f !! name = Some b -> name ∈ lifetimeNames \/
    exists q, name = controlLifetimeLaunchName q /\ 1 <= q <= Z.of_nat (length launches);
  pr_count : Z.of_nat (length launches) <= MaxLifetimeLaunches;
  pr_registration : forall b, f !! controlLifetimeRegistrationName = Some b ->
    exists reg, b = MarshalCanonical (jsonRegistration reg) /\ planned f reg;
  pr_worker : forall b, f !! controlLifetimeWorkerName = Some b ->
    exists w, b = MarshalCanonical (jsonWorkerRecord w) /\ boundTo f (lw_RegistrationSHA256 w);
  pr_wait : f !! controlLifetimeWorkerWaitName <> None -> f !! controlLifetimeIntentName <> None;
  pr_termination : forall b, f !! controlLifetimeTerminationName = Some b ->
    exists t, b = MarshalCanonical (jsonTermination t) /\ describes t launches /\ boundTo f (lt_RegistrationSHA256 t);
  pr_unlaunched : f !! controlLifetimeUnlaunchedName <> None ->
    forall name, f !! name <> None -> name = controlLifetimeUnlaunchedName
}.

Definition protocol (f : gmap string string) : Prop := exists launches, protocolWith f launches.

(** ** Names *)
Lemma parse_launchName q : 1 <= q <= MaxLifetimeLaunches ->
  parseLaunchName controlLifetimeLaunchNaming (controlLifetimeLaunchName q) = Ok (Some q).
Proof.
  intros Hq. unfold parseLaunchName, HasPrefix, HasSuffix, CutPrefix, controlLifetimeLaunchName, controlLifetimeLaunchNaming,
    ln_prefix, ln_suffix. rewrite !bytes_str, stripPrefix_app.
  rewrite rev_app_distr, rev_app_distr, <- app_assoc, stripPrefix_app. cbn [negb orb snd].
  assert (len (str (bytes controlLifetimeLaunchPrefix ++ digitsFixed 20 q ++ bytes controlLifetimeLaunchSuffix)) = 41) as ->.
  { unfold len. rewrite <- length_list_ascii, bytes_str, !length_app, digitsFixed_length. reflexivity. }
  replace (41 <? _) with false by reflexivity. cbv zeta. rewrite drop_app_length.
  replace (length (digitsFixed 20 q ++ _) - _)%nat with (length (digitsFixed 20 q))
    by (rewrite length_app; lia).
  rewrite take_app_length. unfold ParseUint. rewrite bytes_str, digitsFixed_length.
  rewrite decimal_digitsFixed by (unfold MaxLifetimeLaunches in Hq; lia).
  replace (forallb isDigit (digitsFixed 20 q)) with true
    by (symmetry; apply forallb_forall; intros c; pose proof (digitsFixed_digits 20 q) as H; rewrite List.Forall_forall in H; apply H).
  change (0 <? Z.of_nat 20) with true. replace (max_uint64 <? q) with false
    by (symmetry; apply Z.ltb_ge; unfold MaxLifetimeLaunches, max_uint64 in *; lia).
  cbn [negb orb]. assert (len (str (digitsFixed 20 q)) = 20) as ->
    by (unfold len; rewrite <- length_list_ascii, bytes_str, digitsFixed_length; reflexivity).
  change (20 =? lifetimeLaunchSequenceDigits) with true. unfold ValidateLifetimeLaunchSequence.
  replace ((q =? 0) || (MaxLifetimeLaunches <? q)) with false by lia. reflexivity.
Qed.

Lemma parse_lifetimeName name : name ∈ lifetimeNames ->
  parseLaunchName controlLifetimeLaunchNaming name = Ok None.
Proof. unfold lifetimeNames. rewrite !elem_of_cons, elem_of_nil. intros [->|[->|[->|[->|[->|[->|[]]]]]]]; reflexivity. Qed.

Lemma launchName_other q name : 1 <= q <= MaxLifetimeLaunches -> name ∈ lifetimeNames ->
  controlLifetimeLaunchName q <> name.
Proof. intros Hq Hn <-. apply parse_lifetimeName in Hn. by rewrite parse_launchName in Hn. Qed.

Lemma launchName_inj q q' : 1 <= q <= MaxLifetimeLaunches -> 1 <= q' <= MaxLifetimeLaunches ->
  controlLifetimeLaunchName q = controlLifetimeLaunchName q' -> q = q'.
Proof. intros Hq Hq' H. apply parse_launchName in Hq, Hq'. rewrite H in Hq. congruence. Qed.

Ltac in_names := unfold lifetimeNames; set_solver.

(** ** The invariant *)
Section growth.
Context (f : gmap string string) (name : string) (j : json) (Hnew : f !! name = None).
Lemma holds_grow n i : holds f n i -> holds (<[name := MarshalCanonical j]> f) n i.
Proof. unfold holds. intros H. rewrite lookup_insert_ne; [done|]. by intros ->; rewrite Hnew in H. Qed.
Lemma boundTo_grow sha : boundTo f sha -> boundTo (<[name := MarshalCanonical j]> f) sha.
Proof. intros (reg & H & ?). exists reg. split; [by apply holds_grow|done]. Qed.
Lemma planned_grow reg : planned f reg -> planned (<[name := MarshalCanonical j]> f) reg.
Proof. intros (i & H & ?). exists i. split; [by apply holds_grow|done]. Qed.
Lemma launchesHeld_grow launches : launchesHeld f launches -> launchesHeld (<[name := MarshalCanonical j]> f) launches.
Proof. intros H i r Hi. destruct (H i r Hi). split; [by apply holds_grow|done]. Qed.
Lemma present_grow n : f !! n <> None -> <[name := MarshalCanonical j]> f !! n <> None.
Proof. rewrite lookup_insert_None. naive_solver. Qed.

End growth.

(** A record of a fixed name: the clauses of the other names are kept. *)
Lemma grow_fixed f name j launches :
  f !! name = None ->
  name ∈ lifetimeNames -> protocolWith f launches ->
  (name = controlLifetimeRegistrationName -> exists reg, j = jsonRegistration reg /\ planned f reg) ->
  (name = controlLifetimeWorkerName -> exists w, j = jsonWorkerRecord w /\ boundTo f (lw_RegistrationSHA256 w)) ->
  (name = controlLifetimeWorkerWaitName -> f !! controlLifetimeIntentName <> None) ->
  (name = controlLifetimeTerminationName -> exists t, j = jsonTermination t /\ describes t launches /\
     boundTo f (lt_RegistrationSHA256 t)) ->
  (name = controlLifetimeUnlaunchedName -> f = ∅) ->
  (name <> controlLifetimeUnlaunchedName -> f !! controlLifetimeUnlaunchedName = None) ->
  protocolWith (<[name := MarshalCanonical j]> f) launches.
Proof.
  intros Hnew Hin [HL HB HN HC HR HW HX HT HU] KR KW KX KT KU KN. split; try done.
  - by apply launchesHeld_grow.
  - intros r Hr. by apply boundTo_grow, HB.
  - intros n b [[<- _]|[_ H]]%lookup_insert_Some; [by left|by eapply HN].
  - intros b [[-> <-]|[_ H]]%lookup_insert_Some.
    + destruct KR as (reg & -> & ?); [done|]. exists reg. split; [done|by apply planned_grow].
    + destruct (HR b H) as (reg & ? & ?). exists reg. split; [done|by apply planned_grow].
  - intros b [[-> <-]|[_ H]]%lookup_insert_Some.
    + destruct KW as (w & -> & ?); [done|]. exists w. split; [done|by apply boundTo_grow].
    + destruct (HW b H) as (w & ? & ?). exists w. split; [done|by apply boundTo_grow].
  - intros Hp. apply present_grow. destruct (decide (name = controlLifetimeWorkerWaitName)) as [E|E]; [by apply KX|].
    rewrite lookup_insert_ne in Hp by done. by apply HX.
  - intros b [[-> <-]|[_ H]]%lookup_insert_Some.
    + destruct KT as (t & -> & ? & ?); [done|]. exists t. split_and!; [done..|by apply boundTo_grow].
    + destruct (HT b H) as (t & ? & ? & ?). exists t. split_and!; [done..|by apply boundTo_grow].
  - intros Hp n Hn. destruct (decide (name = controlLifetimeUnlaunchedName)) as [E|E].
    + rewrite KU, lookup_insert_None in Hn by done. rewrite lookup_empty in Hn.
      destruct (decide (n = controlLifetimeUnlaunchedName)); [done|]. destruct Hn. split; congruence.
    + rewrite lookup_insert_ne, KN in Hp by done. done.
Qed.
Lemma protocol_empty : protocol ∅.
Proof.
  exists []. split; try (intros *; rewrite lookup_empty; done); try (intros i r; by rewrite lookup_nil).
  - intros r. by rewrite elem_of_nil.
  - done.
Qed.

(** A fresh scan may replace the launches of the invariant before a termination. *)
Lemma protocol_rescan f launches launches' :
  protocolWith f launches -> f !! controlLifetimeTerminationName = None -> scanned f launches' ->
  (forall r, r ∈ launches' -> boundTo f (ll_RegistrationSHA256 r)) -> protocolWith f launches'.
Proof.
  intros [HL HB HN HC HR HW HX HT HU] HT0 (SL & SC & SN) SB. split; try done.
  - intros n b Hb. destruct (HN n b Hb) as [|(q & -> & Hq)]; [by left|right]. exists q. split; [done|].
    destruct (SN _ _ Hb) as (o & Ho & Hr). rewrite parse_launchName in Ho by lia. apply Hr. congruence.
  - by rewrite HT0.
Qed.

Lemma protocol_grow_launch f launches c :
  protocolWith f launches -> f !! controlLifetimeTerminationName = None ->
  boundTo f (ll_RegistrationSHA256 c) -> ll_Sequence c = Z.of_nat (length launches) + 1 ->
  ll_Sequence c <= MaxLifetimeLaunches -> f !! controlLifetimeLaunchName (ll_Sequence c) = None ->
  protocolWith (<[controlLifetimeLaunchName (ll_Sequence c) := MarshalCanonical (jsonLaunch c)]> f) (launches ++ [c]).
Proof.
  intros [HL HB HN HC HR HW HX HT HU] HT0 BC Hs Hm Hnew.
  assert (forall n, n ∈ lifetimeNames -> controlLifetimeLaunchName (ll_Sequence c) <> n) as Hne
    by (intros n; apply launchName_other; lia).
  split.
  - intros i r [Hi|[Hi Hr]]%lookup_app_Some;
      [exact (launchesHeld_grow _ _ _ Hnew _ HL i r Hi)|].
    apply list_lookup_singleton_Some in Hr as [Hi0 <-]. replace (Z.of_nat i + 1) with (ll_Sequence c) by lia.
    split; [apply lookup_insert_eq|done].
  - intros r [Hr|Hr%list_elem_of_singleton]%elem_of_app; [by apply boundTo_grow, HB|subst r; by apply boundTo_grow].
  - intros n b [[<- _]|[_ H]]%lookup_insert_Some; rewrite length_app; cbn [length].
    + right. exists (ll_Sequence c). split; [done|lia].
    + destruct (HN n b H) as [|(q & -> & Hq)]; [by left|right]. exists q. split; [done|lia].
  - rewrite length_app. cbn [length]. lia.
  - intros b. rewrite lookup_insert_ne by (apply Hne; in_names). intros (reg & ? & ?)%HR. exists reg.
    split; [done|by apply planned_grow].
  - intros b. rewrite lookup_insert_ne by (apply Hne; in_names). intros (w & ? & ?)%HW. exists w.
    split; [done|by apply boundTo_grow].
  - intros Hp. rewrite lookup_insert_ne in Hp by (apply Hne; in_names). by apply present_grow, HX.
  - intros b. rewrite lookup_insert_ne by (apply Hne; in_names). by rewrite HT0.
  - intros Hp. rewrite lookup_insert_ne in Hp by (apply Hne; in_names). destruct BC as (reg & Hreg & _).
    specialize (HU Hp controlLifetimeRegistrationName). unfold holds in Hreg. rewrite Hreg in HU.
    discriminate HU. done.
Qed.

Lemma boundTo_present f sha : boundTo f sha -> f !! controlLifetimeRegistrationName <> None.
Proof. by intros (reg & -> & _). Qed.

(** With a registration or a plan in the directory there is no fence. *)
Lemma protocol_no_fence f launches n :
  protocolWith f launches -> f !! n <> None -> n <> controlLifetimeUnlaunchedName ->
  f !! controlLifetimeUnlaunchedName = None.
Proof.
  intros HP Hn Hne. destruct (f !! controlLifetimeUnlaunchedName) eqn:E; [|done]. destruct Hne.
  apply (pr_unlaunched _ _ HP); [by rewrite E|done].
Qed.

Lemma protocol_intent f launches :
  protocolWith f launches -> f !! controlLifetimeRegistrationName <> None -> f !! controlLifetimeIntentName <> None.
Proof.
  intros HP. destruct (f !! controlLifetimeRegistrationName) eqn:E; [intros _|done].
  destruct (pr_registration _ _ HP _ E) as (reg & _ & i & Hi & _). by rewrite Hi.
Qed.

Lemma protocol_step f name j :
  protocol f -> may_add f name j -> f !! name = None -> protocol (<[name := MarshalCanonical j]> f).
Proof.
  intros [launches HP] Hadd Hnew. destruct Hadd as
    [i HU HT HR HS|reg HU HT HI|w HU HT HB|ls c HS HT HB HC Hs Hm|ls t HS HB HD HC|w HW|u HA HS].
  1-3: exists launches; apply grow_fixed; try done; [in_names|eauto..].
  - exists (ls ++ [c]). apply protocol_grow_launch; try done. by eapply protocol_rescan.
  - exists ls. apply grow_fixed; try done; [in_names|by eapply protocol_rescan|eauto|].
    intros _. by eapply protocol_no_fence; [|by eapply boundTo_present|].
  - assert (f !! controlLifetimeIntentName <> None) by (destruct HW; [done|by eapply protocol_intent]).
    exists launches. apply grow_fixed; try done; [in_names|]. intros _. by eapply protocol_no_fence.
  - exists launches. apply grow_fixed; try done; [in_names|]. intros _. apply map_empty. intros n.
    destruct (f !! n) eqn:E; [|done]. destruct (pr_names _ _ HP _ _ E) as [Hn|(q & -> & Hq)].
    + by rewrite HA in E.
    + destruct HS as (_ & _ & SN). destruct (SN _ _ E) as (o & Ho & Hr).
      pose proof (pr_count _ _ HP). rewrite parse_launchName in Ho by lia.
      specialize (Hr q ltac:(congruence)). cbn in Hr. lia.
Qed.

(** ** What a step may add *)
Definition returns {A} (f : gmap string string) (m : Tx A) (a : A) : Prop :=
  exists d, files d = f /\ (m d).1 = Ok a.

(** Started in [f], the step leaves [f] or adds one record that [C] allows. *)
Definition adds {A} (f : gmap string string) (C : string -> json -> Prop) (m : Tx A) : Prop :=
  forall d, files d = f ->
    files (m d).2 = f \/
    exists name j, C name j /\ f !! name = None /\ files (m d).2 = <[name := MarshalCanonical j]> f.

Lemma adds_readonly {A} f C (m : Tx A) : readonly m -> adds f C m.
Proof. intros H d <-. left. apply H. Qed.

Lemma adds_bind {A B} f C (m : Tx A) (k : A -> Tx B) :
  readonly m -> (forall a, returns f m a -> adds f C (k a)) -> adds f C (txBind m k).
Proof.
  intros HR Hk d Hd. unfold txBind. pose proof (HR d) as Hf. destruct (m d) as [[a|e] d'] eqn:E; cbn in *.
  - apply (Hk a); [by exists d; rewrite E|congruence].
  - left. congruence.
Qed.

Lemma adds_then {A B} f C (m : Tx A) (k : A -> Tx B) :
  adds f C m -> (forall a, readonly (k a)) -> adds f C (txBind m k).
Proof.
  intros Hm Hk d Hd. unfold txBind. specialize (Hm d Hd). destruct (m d) as [[a|e] d'] eqn:E; cbn in *; [|done].
  by rewrite (Hk a d').
Qed.

Lemma adds_try {A} f C (m : Tx A) : adds f C m -> adds f C (txTry m).
Proof. intros Hm d Hd. unfold txTry. specialize (Hm d Hd). by destruct (m d). Qed.

Lemma adds_weaken {A} f (C C' : string -> json -> Prop) (m : Tx A) :
  (forall name j, C name j -> C' name j) -> adds f C m -> adds f C' m.
Proof. intros H Hm d Hd. destruct (Hm d Hd) as [|(n & j & HC & ?)]; [by left|right]. exists n, j. auto. Qed.

Lemma adds_stage f name j :
  adds f (fun n i => n = name /\ i = j) (stageReader name (MarshalCanonical j)).
Proof.
  intros d <-. unfold stageReader, txBind, nextFault. destruct (files d !! name) eqn:E.
  - left. destruct (faults d) as [|[|i|i] fs]; cbn; rewrite ?E; cbn. all: done.
  - destruct (faults d) as [|[|i|i] fs] eqn:F; cbn; rewrite ?E; cbn; rewrite ?F; [|destruct fs as [|g [|g' fs]]|by left|]; cbn;
      right; exists name, j; split_and!; done.
Qed.

Lemma adds_Put f name j : adds f (fun n i => n = name /\ i = j) (Put name j).
Proof.
  unfold Put. apply adds_bind; [auto with tx|]. intros _ _. apply adds_bind; [auto with tx|]. intros data (d & _ & Hd).
  cbn in Hd. unfold marshalControlRecord in Hd. destruct (_ <? _); [done|]. injection Hd as <-.
  apply adds_then; [apply adds_stage|]. intros [[created cleanup] commit]. auto 20 with tx.
Qed.

Lemma adds_withLock {A} f C (m : Tx A) : adds f C m -> adds f C (withLock m).
Proof.
  intros Hm. unfold withLock. apply adds_bind; [auto with tx|]. intros _ _. apply adds_then; [by apply adds_try|].
  intros r. apply readonly_bind; [auto with tx|]. intros u. destruct r, u; auto with tx.
Qed.

(** ** What a successful read tells *)
Lemma returns_bind {A B} f (m : Tx A) (k : A -> Tx B) b :
  readonly m -> returns f (txBind m k) b -> exists a, returns f m a /\ returns f (k a) b.
Proof.
  intros HR (d & Hd & H). unfold txBind in H. pose proof (HR d) as Hf. destruct (m d) as [[a|e] d'] eqn:E; [|done].
  exists a. split; [exists d; by rewrite E|]. exists d'. cbn in *. split; [congruence|done].
Qed.

Lemma returns_ret {A} f (a b : A) : returns f (txRet a) b -> b = a.
Proof. by intros (d & _ & [= <-]). Qed.
Lemma returns_of {A} f (r : result A) a : returns f (txOf r) a -> r = Ok a.
Proof. by intros (d & _ & H). Qed.
Lemma returns_fail f b e u : returns f (txFail b e) u -> b = false.
Proof. intros (d & _ & H). by apply fail_if_Ok in H. Qed.
Lemma returns_err {A} f e (a : A) : ~ returns f (txErr e) a.
Proof. by intros (d & _ & H). Qed.
Lemma returns_map {A} f g (m : Tx A) a : returns f (txMapErr g m) a -> returns f m a.
Proof. intros (d & Hd & H). exists d. split; [done|]. unfold txMapErr in H. destruct (m d) as [[]]; cbn in *; congruence. Qed.

Lemma returns_optional {A} f P (m : Tx A) o :
  absentOnly P m -> returns f (optionalRecord m) o ->
  match o with Some a => returns f m a | None => P f end.
Proof.
  intros HP (d & Hd & H). unfold optionalRecord, txTry, txBind in H. specialize (HP d).
  destruct (m d) as [[a|e] d'] eqn:E; cbn in H.
  - injection H as <-. exists d. by rewrite E.
  - destruct (RecordAbsent e) eqn:Ea; [|done]. injection H as <-. rewrite <- Hd. by apply (HP e).
Qed.

Lemma returns_refuse {A} f P (m : Tx A) e u :
  absentOnly P m -> returns f (refuseRecord m e) u -> P f.
Proof.
  intros HP (d & Hd & H). unfold refuseRecord, optionalRecord, txTry, txBind in H. specialize (HP d).
  destruct (m d) as [[a|e'] d'] eqn:E; cbn in H; [done|].
  destruct (RecordAbsent e') eqn:Ea; [|done]. rewrite <- Hd. by apply (HP e').
Qed.

Lemma returns_Verify f name j u : returns f (Verify name j) u -> f !! name = Some (MarshalCanonical j).
Proof.
  intros H. unfold Verify in H. apply returns_bind in H as (? & _ & H); [|auto with tx].
  apply returns_bind in H as (data & Hd%returns_of & H); [|auto with tx].
  unfold marshalControlRecord in Hd. destruct (_ <? _); [done|]. injection Hd as <-.
  unfold verifyCanonicalRecord in H. apply returns_bind in H as (b & Hb%returns_map & H); [|auto with tx].
  apply returns_bind in H as (? & He%returns_fail & _); [|auto with tx]. apply negb_false_iff, eqs_true in He as ->.
  unfold readBytes in Hb. apply returns_bind in Hb as (? & _ & (d & <- & Hb)); [|auto with tx].
  destruct (files d !! name); [|done]. destruct (_ <? _); [done|]. by injection Hb as ->.
Qed.

(** Split a successful sequence of read-only steps. *)
Ltac split_returns :=
  repeat match goal with
  | H : returns _ (txBind _ _) _ |- _ =>
      apply returns_bind in H; [destruct H as (? & ? & ?)|auto 10 with tx]
  | H : returns _ (txRet _) _ |- _ => apply returns_ret in H
  | H : returns _ (txOf _) _ |- _ => apply returns_of in H
  | H : returns _ (txFail _ _) _ |- _ => apply returns_fail in H
  | H : returns _ (Verify _ _) _ |- _ => apply returns_Verify in H
  | H : returns _ (txErr _) _ |- _ => by apply returns_err in H
  end.

Section records.
Context (D : Decoders) (l : ControlLifetime) (f : gmap string string).

Lemma returns_registration r : returns f (readControlLifetimeRegistrationTx D l) r ->
  holds f controlLifetimeRegistrationName (jsonRegistration r.1) /\ r.2 = registrationDigest r.1.
Proof.
  intros H. unfold readControlLifetimeRegistrationTx in H. split_returns. by subst.
Qed.

Lemma returns_intent i : returns f (readControlLifetimeIntentTx D l) i -> holds f controlLifetimeIntentName (jsonIntent i).
Proof. intros H. unfold readControlLifetimeIntentTx in H. split_returns. by subst. Qed.

Lemma registration_bound r : returns f (readControlLifetimeRegistrationTx D l) r -> boundTo f r.2.
Proof. intros [H E]%returns_registration. exists r.1. done. Qed.

Lemma controlLaunch_bound r digest : validateControlLifetimeLaunch l r digest = Ok tt -> ll_RegistrationSHA256 r = digest.
Proof.
  unfold validateControlLifetimeLaunch. destruct (ValidateLifetimeLaunchRecord _); cbn [mbind result_bind]; [|done].
  destruct (fail_if _ _) as [[]|] eqn:E; cbn; [|done]. intros _. apply fail_if_Ok in E.
  rewrite !orb_false_iff in E. destruct E as [[[_ E] _] _]. by apply negb_false_iff, eqs_true in E.
Qed.

(** The records read are appended to the set in the order of the sequences. *)
Lemma returns_readLaunches sequences digest set set' :
  returns f (readLaunches D l sequences digest set) set' ->
  exists records, ls_records set' = ls_records set ++ records /\
    Forall2 (fun q r => holds f (controlLifetimeLaunchName q) (jsonLaunch r) /\ ll_Sequence r = q /\
                        ll_RegistrationSHA256 r = digest) sequences records.
Proof.
  revert set. induction sequences as [|q qs IH]; intros set H; cbn [readLaunches] in H; cbv zeta in H.
  - apply returns_ret in H as ->. exists []. by rewrite app_nil_r.
  - apply returns_bind in H as (r & _ & H); [|auto with tx].
    apply returns_bind in H as ([] & HV%returns_of & H); [|auto with tx].
    apply returns_bind in H as ([] & HQ%returns_fail & H); [|auto with tx].
    apply returns_bind in H as ([] & HB%returns_Verify & H); [|auto with tx].
    apply returns_bind in H as (s' & HS%returns_of & H); [|auto with tx].
    apply IH in H as (rs & E & HF). exists (r :: rs).
    unfold addToSet in HS. destruct (AddLaunch _ _); [|done]. injection HS as <-. cbn in E. rewrite <- app_assoc in E.
    split; [done|]. constructor; [|done]. split_and!; [done|by apply negb_false_iff, Z.eqb_eq in HQ|].
    by apply controlLaunch_bound.
Qed.

Lemma visitNames_visited n names s s' : visitNames n names s = Ok s' ->
  (forall q, q ∈ s -> q ∈ s') /\
  (forall name, name ∈ names -> exists o, parseLaunchName n name = Ok o /\ forall q, o = Some q -> q ∈ s').
Proof.
  revert s. induction names as [|name names IH]; intros s H; cbn [visitNames] in H.
  - injection H as <-. split; [done|]. intros name. by rewrite elem_of_nil.
  - unfold visit in H. destruct (parseLaunchName n name) as [[q|]|e] eqn:E; [|..|done].
    + destruct (_ <=? _); [done|]. apply IH in H as [H1 H2]. split; [intros q' Hq; apply H1, elem_of_app; by left|].
      intros n' [->|Hn]%elem_of_cons; [|by apply H2]. exists (Some q). split; [done|]. intros q' [= <-].
      apply H1, elem_of_app. right. by apply list_elem_of_singleton.
    + apply IH in H as [H1 H2]. split; [done|]. intros n' [->|Hn]%elem_of_cons; [|by apply H2]. by exists None.
Qed.

Lemma visitNames_length n names s s' : Z.of_nat (length s) <= MaxLifetimeLaunches ->
  visitNames n names s = Ok s' -> Z.of_nat (length s') <= MaxLifetimeLaunches.
Proof.
  revert s. induction names as [|name names IH]; intros s Hs H; cbn [visitNames] in H; [by injection H as <-|].
  unfold visit in H. destruct (parseLaunchName n name) as [[q|]|e]; [|by eapply IH|done].
  destruct (Z.leb_spec MaxLifetimeLaunches (Z.of_nat (length s))); [done|]. eapply IH; [|done].
  rewrite length_app. cbn. lia.
Qed.

Lemma contiguous_lookup index sequences : contiguousFrom index sequences = Ok tt ->
  forall i q, sequences !! i = Some q -> q = index + Z.of_nat i + 1.
Proof.
  revert index. induction sequences as [|s ss IH]; intros index H i q; cbn [contiguousFrom] in H; [done|].
  destruct (Z.eqb_spec s (index + 1)); cbn in H; [|done]. destruct i as [|i]; cbn; [intros [= <-]; lia|].
  intros Hq. rewrite (IH _ H i q Hq). lia.
Qed.

Lemma returns_sequences sequences : returns f lifetimeLaunchSequences sequences ->
  Z.of_nat (length sequences) <= MaxLifetimeLaunches /\
  forall name b, f !! name = Some b -> exists o, parseLaunchName controlLifetimeLaunchNaming name = Ok o /\
    forall q, o = Some q -> q ∈ sequences.
Proof.
  intros H. unfold lifetimeLaunchSequences in H. apply returns_bind in H as (? & _ & H); [|auto with tx].
  apply returns_bind in H as (names & (d & <- & Hn) & H); [|done]. injection Hn as <-.
  apply returns_bind in H as (closed & _ & H); [|auto with tx].
  destruct (visitNames _ _ _) as [s|] eqn:E; [|by apply returns_err in H]. destruct closed; [|by apply returns_err in H].
  apply returns_ret in H as ->. pose proof (merge_sort_Permutation Z.le s) as HP. split.
  - rewrite (Permutation_length HP). by eapply visitNames_length; [|done].
  - intros name b Hb. apply visitNames_visited in E as [_ E]. destruct (E name) as (o & Ho & Hq).
    { apply list_elem_of_fmap. exists (name, b). split; [done|by apply elem_of_map_to_list]. }
    exists o. split; [done|]. intros q Eq. rewrite HP. by apply Hq.
Qed.

Lemma returns_launchSet digest set : returns f (readControlLifetimeLaunchSetTx D l digest) set ->
  scanned f (ls_records set) /\ forall r, r ∈ ls_records set -> ll_RegistrationSHA256 r = digest.
Proof.
  intros H. unfold readControlLifetimeLaunchSetTx in H.
  apply returns_bind in H as (qs & [HL HN]%returns_sequences & H); [|auto with tx].
  apply returns_bind in H as ([] & HC%returns_of & H); [|auto using readonly_readLaunches with tx].
  apply returns_readLaunches in H as (rs & E & HF). cbn in E. rewrite E. pose proof (Forall2_length _ _ _ HF) as EL.
  pose proof (contiguous_lookup _ _ HC) as HI. split; [split_and!|].
  - intros i r Hr. destruct (Forall2_lookup_r _ _ _ _ _ HF Hr) as (q & Hq & Hh & Hs & _).
    specialize (HI i q Hq). replace (Z.of_nat i + 1) with q by lia. done.
  - lia.
  - intros name b Hb. destruct (HN _ _ Hb) as (o & Ho & Hq). exists o. split; [done|]. intros q Eq.
    apply Hq, list_elem_of_lookup in Eq as [i Hi]. specialize (HI i q Hi). apply lookup_lt_Some in Hi. lia.
  - intros r [i Hr]%list_elem_of_lookup. by destruct (Forall2_lookup_r _ _ _ _ _ HF Hr) as (q & _ & _ & _ & ?).
Qed.
End records.
