(* ===== verification/ControlProtocolTheorems.v ===== *)
(** * The operations of a control directory follow its protocol

    Every operation of [ControlLifetime], for every decoder, identity, clock and list of
    faults, performs at most one transition of the abstract system of
    [ControlProtocol]; its invariant therefore holds in every directory the operations
    reach, and a termination or an unlaunched fence is final. *)
From S2P Require Import Prelude GoErrors GoTime GoText TaskTypes Encoding GoPath GoTimestamp TaskLifetime LifetimeClosure ControlDir ControlLifetime.
From S2P Require Import LifetimeClosureTheorems ControlLifetimeProps ControlProtocol.
From stdpp Require Import relations.
#[local] Open Scope Z_scope.
#[local] Open Scope tx_scope.

(** ** The operations and their steps *)
Inductive operation : Set :=
| OpIntent (facts : LifetimeIntentFacts) (now : time)
| OpRegistration (facts : LifetimeRegistrationFacts) (now : time)
| OpWorker (facts : LifetimeWorkerFacts) (now : time)
| OpLaunch (facts : LifetimeLaunchFacts) (now : time)
| OpTermination (cause : string) (now : time)
| OpWorkerWait (facts : LifetimeWorkerWaitFacts) (now : time)
| OpWorkerAbsence (proof observedBootID : string) (now : time)
| OpSeal (now : time)
| OpReadIntent
| OpReadRegistration
| OpReadRegistrationDigest
| OpReadLaunches
| OpReadWorker
| OpReadWorkerWait
| OpReadUnlaunched
| OpReadTermination
| OpHasTerminated (cause : string)
| OpReadEvidence.

Definition discard {A} (m : Tx A) : Tx unit := m ;;; txRet tt.

Definition run (D : Decoders) (l : ControlLifetime) (op : operation) : Tx unit :=
  match op with
  | OpIntent facts now => discard (RecordLifetimeIntent D l facts now)
  | OpRegistration facts now => discard (RecordLifetimeRegistration D l facts now)
  | OpWorker facts now => discard (RecordLifetimeWorker D l facts now)
  | OpLaunch facts now => discard (RecordLifetimeLaunch D l facts now)
  | OpTermination cause now => discard (RecordLifetimeTermination D l cause now)
  | OpWorkerWait facts now => discard (RecordLifetimeWorkerWait D l facts now)
  | OpWorkerAbsence proof boot now => discard (RecordLifetimeWorkerAbsence D l proof boot now)
  | OpSeal now => discard (SealLifetimeUnlaunched D l now)
  | OpReadIntent => discard (ReadLifetimeIntent D l)
  | OpReadRegistration => discard (ReadLifetimeRegistration D l)
  | OpReadRegistrationDigest => discard (LifetimeRegistrationDigest D l)
  | OpReadLaunches => discard (ReadLifetimeLaunches D l)
  | OpReadWorker => discard (ReadLifetimeWorker D l)
  | OpReadWorkerWait => discard (ReadLifetimeWorkerWait D l)
  | OpReadUnlaunched => discard (ReadLifetimeUnlaunched D l)
  | OpReadTermination => discard (ReadLifetimeTermination D l)
  | OpHasTerminated cause => discard (HasTerminatedLifetime D l cause)
  | OpReadEvidence => discard (withLock (LoadLifetimeEvidence D l))
  end.

(** One operation of any client, under any faults. *)
Inductive control_step : gmap string string -> gmap string string -> Prop :=
| do_operation D l op d : control_step (files d) (files (run D l op d).2).

Definition reachable : gmap string string -> Prop := rtc control_step ∅.

(** One read-only prefix step of an operation, with what its success says. *)
Ltac step H := apply adds_bind; [auto 20 with tx|]; intros ? H.

(** ** Fences *)
Section operations.
Context (D : Decoders) (l : ControlLifetime) (f : gmap string string).

Lemma returns_permission u : returns f (rejectLifetimeLaunchPermissionTx D l) u ->
  f !! controlLifetimeUnlaunchedName = None /\ f !! controlLifetimeTerminationName = None.
Proof.
  intros H. unfold rejectLifetimeLaunchPermissionTx in H.
  apply returns_bind in H as (? & HU & H); [|auto with tx].
  do 2 (apply returns_bind in H as (? & _ & H); [|auto 10 with tx]).
  apply returns_bind in H as (t & HT & H); [|auto with tx].
  split; [by apply (returns_refuse _ _ _ _ _ (absent_unlaunched D l)) in HU|].
  destruct t as [t|]; [by destruct (lt_ScopeEmpty t); apply returns_err in H|].
  by apply (returns_optional _ _ _ _ (absent_presence D l)) in HT.
Qed.

Lemma returns_noOrphans u : returns f (rejectOrphanedLifetimeLaunchesTx D l) u -> scanned f [].
Proof.
  intros H. unfold rejectOrphanedLifetimeLaunchesTx in H.
  apply returns_bind in H as (qs & [HL HN]%returns_sequences & H); [|auto with tx].
  destruct qs as [|q qs].
  - split_and!; [by intros i r|done|]. intros name b Hb. destruct (HN _ _ Hb) as (o & Ho & Hq).
    exists o. split; [done|]. intros q Eq. by apply Hq, elem_of_nil in Eq.
  - cbv zeta in H. do 4 (apply returns_bind in H as (? & _ & H); [|auto 10 with tx]). by apply returns_err in H.
Qed.

Lemma returns_noNative u : returns f (ensureNoNativeLifetimeRecordsTx D l) u ->
  (forall name, name ∈ lifetimeNames -> name <> controlLifetimeUnlaunchedName -> f !! name = None) /\ scanned f [].
Proof.
  intros H. unfold ensureNoNativeLifetimeRecordsTx in H.
  apply returns_bind in H as (? & HI & H); [|auto with tx]. apply returns_bind in H as (? & HR & H); [|auto with tx].
  apply returns_bind in H as (? & HW & H); [|auto with tx]. apply returns_bind in H as (? & HX & H); [|auto with tx].
  apply returns_bind in H as (? & HT & H); [|auto with tx]. split; [|by eapply returns_noOrphans].
  apply (returns_refuse _ _ _ _ _ (absent_intent D l)) in HI.
  apply (returns_refuse _ _ _ _ _ (absent_registration D l)) in HR.
  apply (returns_refuse _ _ _ _ _ (absent_worker D l)) in HW.
  apply (returns_refuse _ _ _ _ _ (absent_wait D l)) in HX.
  apply (returns_refuse _ _ _ _ _ (absent_presence D l)) in HT.
  intros name Hn Hne. unfold lifetimeNames in Hn. rewrite !elem_of_cons, elem_of_nil in Hn.
  by destruct Hn as [->|[->|[->|[->|[->|[->|[]]]]]]].
Qed.

(** ** Publication *)
Lemma adds_putCandidate {A} `{!EqDecision A} name (encode : A -> json) readTx retime c :
  readonly readTx -> may_add f name (encode c) -> adds f (may_add f) (putCandidate name encode readTx retime c).
Proof.
  intros HR HM. unfold putCandidate. apply adds_then.
  - eapply adds_weaken, adds_Put. by intros n j [-> ->].
  - intros created. unfold settleRace, matchWinner. auto 10 with tx.
Qed.

Lemma adds_putReadback {A} `{!EqDecision A} name (encode : A -> json) readTx retime c :
  readonly readTx -> may_add f name (encode c) -> adds f (may_add f) (putReadback name encode readTx retime c).
Proof.
  intros HR HM. unfold putReadback. apply adds_then.
  - eapply adds_try, adds_weaken, adds_Put. by intros n j [-> ->].
  - intros [[]|]; auto 20 with tx.
Qed.

Lemma readonly_matchWinner {A} `{!EqDecision A} (retime : A -> A -> A) c w : readonly (matchWinner retime c w).
Proof. unfold matchWinner. auto with tx. Qed.
#[local] Hint Resolve adds_readonly readonly_matchWinner : tx.

Lemma adds_intent candidate : adds f (may_add f) (recordControlLifetimeIntentTx D l candidate).
Proof.
  unfold recordControlLifetimeIntentTx. step HE. step HP. apply returns_permission in HP as [HU HT].
  destruct a as [e|]; [auto with tx|]. step HN. apply returns_noNative in HN as [HN HS].
  apply adds_putCandidate; [auto with tx|]. apply add_intent; try done. apply HN; [in_names|done].
Qed.

Lemma adds_registration candidate : adds f (may_add f) (recordControlLifetimeRegistrationTx D l candidate).
Proof.
  unfold recordControlLifetimeRegistrationTx. cbv zeta. step HP. apply returns_permission in HP as [HU HT]. step HE.
  destruct a0 as [e|]; [auto with tx|]. step HI. apply returns_intent in HI. step HM. apply returns_fail, negb_false_iff in HM.
  apply adds_putCandidate; [auto with tx|]. apply add_registration; try done. by exists a0.
Qed.

Lemma adds_worker candidate :
  f !! controlLifetimeUnlaunchedName = None -> f !! controlLifetimeTerminationName = None ->
  boundTo f (lw_RegistrationSHA256 candidate) -> adds f (may_add f) (recordControlLifetimeWorkerTx D l candidate).
Proof.
  intros HU HT HB. unfold recordControlLifetimeWorkerTx. step HE. destruct a; [auto with tx|].
  apply adds_putCandidate; [auto with tx|]. by apply add_worker.
Qed.

Lemma newCandidate_spec facts digest now set c :
  newControlLifetimeLaunchCandidate l facts digest now set = Ok c ->
  ll_Sequence c = fl_Sequence facts /\ ll_Sequence c <= MaxLifetimeLaunches /\ ll_RegistrationSHA256 c = digest.
Proof.
  unfold newControlLifetimeLaunchCandidate. destruct (validateControlLifetimeLaunch _ _ _) as [[]|] eqn:E; [|done].
  cbn [mbind result_bind]. destruct (AddLaunch _ _); [|done]. intros [= <-]. split_and!; [done| |done].
  unfold validateControlLifetimeLaunch in E. destruct (ValidateLifetimeLaunchRecord _); [|done]. cbn [mbind result_bind] in E.
  destruct (fail_if _ _) as [[]|] eqn:F; [|done]. apply fail_if_Ok in F. rewrite !orb_false_iff in F.
  destruct F as [_ F]. by apply Z.ltb_ge in F.
Qed.

Lemma adds_launch facts now : adds f (may_add f) (recordControlLifetimeLaunchTx D l facts now).
Proof.
  unfold recordControlLifetimeLaunchTx. step HR. apply registration_bound in HR. step HS. apply returns_launchSet in HS as [HS HB].
  cbv zeta. step HT. apply (returns_refuse _ _ _ _ _ (absent_termination D l _ _)) in HT.
  destruct (_ <=? _); [apply adds_readonly; destruct (_ !! _); auto 10 with tx|].
  step HQ. apply returns_fail, negb_false_iff, Z.eqb_eq in HQ. step HC. apply returns_of, newCandidate_spec in HC as (Hq & Hm & Hd).
  apply adds_then.
  - eapply adds_weaken, adds_Put. intros n j [-> ->]. rewrite <- Hq. apply (add_launch _ (ls_records a0)); try done.
    + intros r Hr. by rewrite (HB r Hr).
    + by rewrite Hd.
    + lia.
  - intros []; [auto with tx|]. apply readonly_bind; [auto with tx|]. intros ws. destruct (_ !! _); auto 10 with tx.
Qed.

Lemma adds_terminationRecord cause now : adds f (may_add f) (recordControlLifetimeTerminationTx D l cause now).
Proof.
  unfold recordControlLifetimeTerminationTx. step HR. apply registration_bound in HR. step HS.
  unfold readControlLifetimeLaunchesTx in HS. apply returns_bind in HS as (set & [HS HB]%returns_launchSet & ->%returns_ret); [|auto with tx].
  cbv zeta. step HV. step HE. destruct a1; [auto with tx|]. apply adds_putCandidate; [auto with tx|].
  apply (add_termination _ (ls_records set)); try done. intros r Hr. by rewrite (HB r Hr).
Qed.

Lemma adds_waitRecord candidate :
  f !! controlLifetimeIntentName <> None \/ f !! controlLifetimeRegistrationName <> None ->
  adds f (may_add f) (recordControlLifetimeWorkerWaitTx D l candidate).
Proof.
  intros HP. unfold recordControlLifetimeWorkerWaitTx. step HE. destruct a; [auto with tx|].
  apply adds_putReadback; [auto with tx|]. by apply add_wait.
Qed.

Lemma absence_present e proof boot now w : returns f (loadLifetimeDependencies D l) e ->
  NewLifetimeWorkerAbsence e proof boot now = Ok w ->
  f !! controlLifetimeIntentName <> None \/ f !! controlLifetimeRegistrationName <> None.
Proof.
  intros H HN. unfold loadLifetimeDependencies in H. do 4 (apply returns_bind in H as (? & _ & H); [|auto with tx]).
  apply returns_bind in H as (reg & HR & H); [|auto with tx]. apply returns_bind in H as (i & HI & H); [|auto with tx].
  apply returns_ret in H as ->. destruct reg as [reg|], i as [i|];
    try apply (returns_optional _ _ _ _ (absent_registration D l)) in HR;
    try apply (returns_optional _ _ _ _ (absent_intent D l)) in HI.
  1-2: right; apply returns_registration in HR as [HR _]; by rewrite HR.
  - left. apply returns_intent in HI. by rewrite HI.
  - unfold NewLifetimeWorkerAbsence in HN. do 4 apply bind_Ok in HN as (? & _ & HN). by apply bind_Ok in HN as (? & ? & _).
Qed.

Lemma adds_seal now : adds f (may_add f) (sealControlLifetimeUnlaunchedTx D l now).
Proof.
  unfold sealControlLifetimeUnlaunchedTx. step HE. destruct a as [u|]; [auto with tx|].
  apply (returns_optional _ _ _ _ (absent_unlaunched D l)) in HE. step HN. apply returns_noNative in HN as [HN HS].
  step HF. cbv zeta. step HV. apply adds_putReadback; [auto with tx|]. apply add_unlaunched; [|done].
  intros name Hn. destruct (decide (name = controlLifetimeUnlaunchedName)) as [->|Hne]; [done|by apply HN].
Qed.
End operations.

#[export] Hint Resolve adds_readonly readonly_matchWinner adds_intent adds_registration adds_launch adds_terminationRecord
  adds_seal : tx.

Lemma readonly_evidence D l : readonly (LoadLifetimeEvidence D l).
Proof. unfold LoadLifetimeEvidence. auto 10 with tx. Qed.
Lemma readonly_withLock {A} (m : Tx A) : readonly m -> readonly (withLock m).
Proof. intros H. unfold withLock. apply readonly_bind; [auto with tx|]. intros _. apply readonly_bind; [auto with tx|].
  intros r. apply readonly_bind; [auto with tx|]. intros u. destruct r, u; auto with tx. Qed.
#[export] Hint Resolve readonly_evidence readonly_withLock : tx.

Lemma adds_discard {A} f C (m : Tx A) : adds f C m -> adds f C (discard m).
Proof. intros H. by apply adds_then. Qed.

Lemma adds_run D l f op : adds f (may_add f) (run D l op).
Proof.
  destruct op; cbn [run]; apply adds_discard.
  - unfold RecordLifetimeIntent. cbv zeta. do 3 (step H; clear H). apply adds_withLock. auto with tx.
  - unfold RecordLifetimeRegistration. cbv zeta. do 3 (step H; clear H). apply adds_withLock. auto with tx.
  - unfold RecordLifetimeWorker. step HV. apply adds_withLock. step HP. apply returns_permission in HP as [HU HT].
    step HR. apply registration_bound in HR. cbv zeta. step HW. by apply adds_worker.
  - unfold RecordLifetimeLaunch. do 2 (step H; clear H). apply adds_withLock. auto with tx.
  - unfold RecordLifetimeTermination. step HV. apply adds_withLock. auto with tx.
  - unfold RecordLifetimeWorkerWait. step HV. cbv zeta. apply adds_withLock. step HR. step HW. step HX.
    apply adds_waitRecord. right. by eapply boundTo_present, registration_bound.
  - unfold RecordLifetimeWorkerAbsence. step HV. apply adds_withLock. step HE. step HN. apply returns_of in HN.
    apply adds_waitRecord. by eapply absence_present.
  - unfold SealLifetimeUnlaunched. step HV. apply adds_withLock, adds_withLock. auto with tx.
  - apply adds_readonly. unfold ReadLifetimeIntent. auto 10 with tx.
  - apply adds_readonly. unfold ReadLifetimeRegistration. auto 10 with tx.
  - apply adds_readonly. unfold LifetimeRegistrationDigest, ReadLifetimeRegistration. auto 10 with tx.
  - apply adds_readonly. unfold ReadLifetimeLaunches. auto 10 with tx.
  - apply adds_readonly. unfold ReadLifetimeWorker. auto 10 with tx.
  - apply adds_readonly. unfold ReadLifetimeWorkerWait. auto 10 with tx.
  - apply adds_readonly. unfold ReadLifetimeUnlaunched. auto 10 with tx.
  - apply adds_readonly. unfold ReadLifetimeTermination. auto 10 with tx.
  - apply adds_readonly. unfold HasTerminatedLifetime, ReadLifetimeTermination. auto 20 with tx.
  - apply adds_readonly. auto with tx.
Qed.

(** ** Consequences *)
Lemma step_cases f g : control_step f g ->
  g = f \/ exists name j, may_add f name j /\ f !! name = None /\ g = <[name := MarshalCanonical j]> f.
Proof. intros H. destruct H as [D l op d]. exact (adds_run D l (files d) op d eq_refl). Qed.

Lemma steps_protocol f g : rtc control_step f g -> protocol f -> protocol g /\ f ⊆ g.
Proof.
  induction 1 as [f|f g h Hs _ IH]; intros HP; [done|]. destruct (step_cases f g Hs) as [->|(n & j & HA & HN & ->)]; [by apply IH|].
  destruct IH as [Hh Hsub]; [by apply protocol_step|]. split; [done|]. etrans; [|done]. by apply insert_subseteq.
Qed.

Lemma terminated_may_add f name j :
  f !! controlLifetimeTerminationName <> None -> may_add f name j -> f !! name = None -> name = controlLifetimeWorkerWaitName.
Proof. intros HT [] HN; try done. by rewrite H in HT by in_names. Qed.

Lemma fenced_may_add f name j :
  protocol f -> f !! controlLifetimeUnlaunchedName <> None -> may_add f name j -> f !! name <> None.
Proof.
  intros [launches HP] HU HA HN. pose proof (pr_unlaunched _ _ HP HU) as HF.
  assert (forall sha, ~ boundTo f sha) as HB.
  { intros sha H%boundTo_present. by apply HF in H. }
  destruct HA as [| | |ls c HS HT HL HC|ls t HS HL HD HC|w [HW|HW]|]; try done.
  - by apply HB in HC.
  - by apply HB in HC.
  - by apply HF in HW.
  - by apply HF in HW.
Qed.

(** ** Properties *)

(** C6: Whatever the identity, the decoders, the clock and the faults of the file
    system, an operation on a control directory leaves it as it was or performs one
    transition of the protocol: it adds one record, under a name that was absent, in its
    canonical bytes, in a state in which the protocol allows that record.  Nothing is
    ever overwritten or removed. *)
Theorem operations_refine_protocol D l op d :
  files (run D l op d).2 = files d \/
  exists name j, may_add (files d) name j /\ files d !! name = None /\
    files (run D l op d).2 = <[name := MarshalCanonical j]> (files d).
Proof. exact (step_cases _ _ (do_operation D l op d)). Qed.

(** C7: In every directory that operations reach from an empty one, under any faults:
    the launch records are numbered without gaps from one and carry the registration's
    digest, as do the worker and the termination; the registration matches the recorded
    plan; a termination names the exact number and digest of the launches; a completion
    has a plan; an unlaunched fence is alone.  Operations only add records. *)
Theorem reachable_directories_follow_protocol f g :
  reachable f -> rtc control_step f g -> protocol g /\ f ⊆ g.
Proof.
  intros Hf Hg. apply (steps_protocol f g Hg). apply (steps_protocol ∅ f Hf protocol_empty).
Qed.

(** C9: A recorded termination is final: afterwards no operation changes the directory,
    but for recording the worker's completion. *)
Theorem termination_is_final f g name :
  f !! controlLifetimeTerminationName <> None -> rtc control_step f g ->
  name <> controlLifetimeWorkerWaitName -> g !! name = f !! name.
Proof.
  intros HT Hs Hne. induction Hs as [f|f g h Hs _ IH]; [done|].
  destruct (step_cases f g Hs) as [->|(n & j & HA & HN & ->)]; [by apply IH|].
  apply terminated_may_add in HA as ->; [|done..]. rewrite IH; [by rewrite lookup_insert_ne|].
  by rewrite lookup_insert_ne.
Qed.

(** C8: An unlaunched fence is final: in a directory the operations reached, once the
    fence is recorded no operation of any client, late or faulty, adds anything to the
    lifetime. *)
Theorem fence_is_final f g :
  reachable f -> f !! controlLifetimeUnlaunchedName <> None -> rtc control_step f g -> g = f.
Proof.
  intros Hf HU Hs. assert (protocol f) as HP by apply (steps_protocol ∅ f Hf protocol_empty). clear Hf.
  induction Hs as [f|f g h Hs _ IH]; [done|].
  destruct (step_cases f g Hs) as [->|(n & j & HA & HN & ->)]; [by apply IH|].
  by destruct (fenced_may_add f n j HP HU HA).
Qed.

(** *** Sealing makes progress *)

(** The fence that [SealLifetimeUnlaunched] writes at [now]. *)
Definition sealed (l : ControlLifetime) (now : time) : LifetimeUnlaunchedRecord :=
  MkUnlaunched SchemaVersion (ct_rootID l) (ct_operationID l) (ct_ownerKind l) (ct_ownerSHA256 l)
    (deadlineText l) LifetimeUnlaunchedCauseDeadlineExpired (FormatRFC3339Nano now).

Definition fencedDisk (u : LifetimeUnlaunchedRecord) : disk :=
  MkDisk {[controlLifetimeUnlaunchedName := MarshalCanonical (jsonUnlaunched u)]} [].

Section sealing.
Context (D : Decoders) (l : ControlLifetime).

Lemma withLock_quiet {A} (m : Tx A) f a f' :
  m (MkDisk f []) = (Ok a, MkDisk f' []) -> withLock m (MkDisk f []) = (Ok a, MkDisk f' []).
Proof. intros H. unfold withLock, txBind, txTry. cbn. by rewrite H. Qed.

Lemma withLock_quiet_err {A} (m : Tx A) f e f' :
  m (MkDisk f []) = (Err e, MkDisk f' []) -> withLock m (MkDisk f []) = (Err (default (New "") (errors_Join [Some e; None])), MkDisk f' []).
Proof. intros H. unfold withLock, txBind, txTry. cbn. by rewrite H. Qed.

Lemma noNative_fenced u : ensureNoNativeLifetimeRecordsTx D l (fencedDisk u) = (Ok tt, fencedDisk u).
Proof. reflexivity. Qed.

Lemma ownedBy_self u : lu_RootID u = ct_rootID l -> lu_TaskID u = ct_operationID l -> lu_OwnerKind u = ct_ownerKind l ->
  lu_OwnerSHA256 u = ct_ownerSHA256 l -> lu_Deadline u = deadlineText l ->
  ownedBy l (lu_RootID u) (lu_TaskID u) (lu_OwnerKind u) (lu_OwnerSHA256 u) (lu_Deadline u) = true.
Proof. intros -> -> -> -> ->. unfold ownedBy. by rewrite !eqs_refl. Qed.

Context (now : time).
#[local] Abbreviation u := (sealed l now).
#[local] Abbreviation name := controlLifetimeUnlaunchedName.
Context (Hdec : dec_Unlaunched D (MarshalCanonical (jsonUnlaunched u)) = inl u)
  (Hvalid : ValidateLifetimeUnlaunchedRecord (Some u) = Ok tt)
  (Hsize : len (MarshalCanonical (jsonUnlaunched u)) <= MaxControlRecordSize).

Lemma marshal_sealed : marshalControlRecord (jsonUnlaunched u) = Ok (MarshalCanonical (jsonUnlaunched u)).
Proof. unfold marshalControlRecord. by replace (_ <? _) with false by (symmetry; apply Z.ltb_ge; exact Hsize). Qed.

Lemma readBytes_sealed limit : len (MarshalCanonical (jsonUnlaunched u)) <= limit ->
  readBytes name limit (fencedDisk u) = (Ok (MarshalCanonical (jsonUnlaunched u)), fencedDisk u).
Proof.
  intros H. unfold readBytes, txBind, fencedDisk. cbn [systemCall nextFault txBind faults txRet files]. rewrite lookup_singleton_eq.
  by replace (_ <? _) with false by (symmetry; apply Z.ltb_ge; exact H).
Qed.

Lemma read_sealed : readControlLifetimeUnlaunchedTx D l (fencedDisk u) = (Ok u, fencedDisk u).
Proof.
  unfold readControlLifetimeUnlaunchedTx, readRecord, Read, Verify, verifyCanonicalRecord, txBind, txMapErr, txFail, txOf.
  replace (validateControlName name) with (Ok tt) by reflexivity. rewrite readBytes_sealed by exact Hsize. rewrite Hdec.
  cbn [txRet wrap_err]. rewrite Hvalid, ownedBy_self by done. cbn [negb fail_if]. rewrite marshal_sealed.
  rewrite readBytes_sealed by lia. cbn [wrap_err]. rewrite eqs_refl. cbn [negb fail_if].
  cbn [systemCall nextFault txBind faults fencedDisk txRet wrap_err]. rewrite noNative_fenced. reflexivity.
Qed.

Lemma seal_fresh : IsZero now = false -> Before now (ct_deadline l) = false ->
  sealControlLifetimeUnlaunchedTx D l now (MkDisk ∅ []) = (Ok u, fencedDisk u).
Proof.
  intros HZ HB. unfold sealControlLifetimeUnlaunchedTx, txBind at 1.
  replace (optionalRecord (readControlLifetimeUnlaunchedTx D l) (MkDisk ∅ [])) with (Ok (@None LifetimeUnlaunchedRecord), MkDisk ∅ [])
    by reflexivity.
  unfold txBind at 1. replace (ensureNoNativeLifetimeRecordsTx D l (MkDisk ∅ [])) with (Ok tt, MkDisk ∅ []) by reflexivity.
  rewrite HZ, HB. unfold txFail, txOf, txBind at 1. cbn [orb fail_if]. fold u. rewrite Hvalid. cbn iota beta.
  unfold putReadback, Put, txTry, txBind, txOf. replace (validateControlName name) with (Ok tt) by reflexivity.
  rewrite marshal_sealed. reflexivity.
Qed.
End sealing.

(** C10: Sealing makes progress: without faults, an auxiliary operation whose deadline has
    passed and whose directory is empty is fenced by one call; every later call returns
    the same fence and leaves the directory as it is, at any time; and permission to
    launch is refused from then on, with the error that names the fence. *)
Theorem seal_makes_progress D l now :
  validateControlLifetimeUnlaunched l = Ok tt -> IsZero now = false -> Before now (ct_deadline l) = false ->
  ValidateLifetimeUnlaunchedRecord (Some (sealed l now)) = Ok tt ->
  len (MarshalCanonical (jsonUnlaunched (sealed l now))) <= MaxControlRecordSize ->
  dec_Unlaunched D (MarshalCanonical (jsonUnlaunched (sealed l now))) = inl (sealed l now) ->
  SealLifetimeUnlaunched D l now (MkDisk ∅ []) = (Ok (sealed l now), fencedDisk (sealed l now)) /\
  (forall later, SealLifetimeUnlaunched D l later (fencedDisk (sealed l now)) = (Ok (sealed l now), fencedDisk (sealed l now))) /\
  forall A (create : Tx A), exists e, errors_Is e task_ErrLifetimeUnlaunched = true /\
    WithLifetimeLaunchPermissionOrReplay D l None create (fencedDisk (sealed l now)) = (Err e, fencedDisk (sealed l now)).
Proof.
  intros HL HZ HB HV HS HD. pose proof (read_sealed D l now HD HV HS) as HR. unfold fencedDisk in HR. split_and!.
  - unfold SealLifetimeUnlaunched, txBind at 1, txOf. rewrite HL. apply withLock_quiet, withLock_quiet. by apply seal_fresh.
  - intros later. unfold SealLifetimeUnlaunched, txBind at 1, txOf. rewrite HL. apply withLock_quiet, withLock_quiet.
    unfold sealControlLifetimeUnlaunchedTx, optionalRecord, txTry, txBind. by rewrite HR.
  - intros A create. eexists. split; [|unfold WithLifetimeLaunchPermissionOrReplay, txBind at 1, txOf; rewrite HL;
      apply withLock_quiet_err; unfold rejectLifetimeLaunchPermissionTx, refuseRecord, optionalRecord, txTry, txBind, txRet;
      by rewrite HR]. reflexivity.
Qed.


(** *** Witnesses *)
Definition demoLifetime : ControlLifetime := MkControlLifetime demoRoot demoTask "workspace" demoOwner demoAt.
Definition demoFence : LifetimeUnlaunchedRecord := sealed demoLifetime demoAt.

(** Decoders that know the canonical bytes of one fence. *)
Definition demoDecoders : Decoders :=
  let no {A} (_ : string) : A + decodeFailure := inr (DecodeFailed "unknown") in
  MkDecoders no no no no no no
    (fun data => if eqs data (MarshalCanonical (jsonUnlaunched demoFence)) then inl demoFence else no data).

Definition demoFenced : gmap string string := files (run demoDecoders demoLifetime (OpSeal demoAt) (MkDisk ∅ [])).2.

Lemma demoFenced_reachable : reachable demoFenced.
Proof. apply rtc_once. exact (do_operation demoDecoders demoLifetime (OpSeal demoAt) (MkDisk ∅ [])). Qed.

Lemma reachable_directories_follow_protocol_witness :
  demoFenced !! controlLifetimeUnlaunchedName = Some (MarshalCanonical (jsonUnlaunched demoFence)) /\
  protocol demoFenced /\ demoFenced ⊆ demoFenced.
Proof.
  refine (conj _ _); [vm_compute; reflexivity|].
  apply (reachable_directories_follow_protocol demoFenced demoFenced demoFenced_reachable). apply rtc_refl.
Defined.

Lemma fence_is_final_witness :
  files (run demoDecoders demoLifetime (OpSeal demoAt) (MkDisk demoFenced [FailsAfter HandleClosed])).2 = demoFenced.
Proof.
  apply (fence_is_final demoFenced); [apply demoFenced_reachable|vm_compute; discriminate|].
  apply rtc_once. exact (do_operation demoDecoders demoLifetime (OpSeal demoAt) (MkDisk demoFenced [FailsAfter HandleClosed])).
Defined.

Definition demoTerminatedDir : gmap string string :=
  {[controlLifetimeTerminationName := MarshalCanonical (jsonTermination (demoTermination "owner"))]}.

Lemma termination_is_final_witness :
  files (run demoDecoders demoLifetime (OpSeal demoAt) (MkDisk demoTerminatedDir [])).2 !! controlLifetimeUnlaunchedName = None.
Proof.
  rewrite (termination_is_final demoTerminatedDir _ controlLifetimeUnlaunchedName); [reflexivity|discriminate| |discriminate].
  apply rtc_once. exact (do_operation demoDecoders demoLifetime (OpSeal demoAt) (MkDisk demoTerminatedDir [])).
Defined.

Lemma seal_makes_progress_witness :
  (SealLifetimeUnlaunched demoDecoders demoLifetime demoAt (MkDisk ∅ [])).1 = Ok demoFence.
Proof.
  rewrite (proj1 (seal_makes_progress demoDecoders demoLifetime demoAt eq_refl eq_refl eq_refl
    ltac:(vm_compute; reflexivity) ltac:(vm_compute; discriminate) ltac:(vm_compute; reflexivity))). reflexivity.
Defined.
