(* ===== verification/LifetimeCgroup.v ===== *)
(** * The cgroup v2 location of a process

    [internal/lifetime/scope_linux.go] and [cgroup_location_linux.go]: the canonical
    resolver from raw [/proc] text to a cgroup directory, the text of
    [cgroup.events], and the identifier of a cgroup scope; the round trip of the
    identifier and the selection of the mount. *)
From S2P Require Import Prelude GoErrors GoText TaskTypes Encoding GoPath.
From Stdlib Require Import Ascii.

Record cgroupMount : Set := MkCgroupMount { cm_root : string; cm_mountPath : string }.

Record cgroupLocation : Set := MkCgroupLocation {
  cg_mountRoot : string;
  cg_mountPath : string;
  cg_currentPath : string
}.

Definition ErrInvalidRef : error := Sentinel lifetime_ErrInvalidRef.

(** [strings.ContainsRune(s, 0)] *)
Definition hasNUL (s : string) : bool := ContainsByte s "000"%char.

(** ** Scope identifiers *)
Definition encodeCgroupIdentifier (path : string) (dev ino : Z) : string :=
  "cgroup2:" +:+ EncodeToString path +:+ ":" +:+ str (decimalText dev) +:+ ":" +:+ str (decimalText ino).

Definition decodeCgroupIdentifier (identifier : string) : result (string * Z * Z) :=
  match Split identifier ":" with
  | [scheme; encoded; devText; inoText] =>
      if negb (eqs scheme "cgroup2") || eqs encoded ""
      then Err (Errorf "cgroup identifier is malformed" ErrInvalidRef)
      else
        path ← wrap_err (fun _ => Errorf "cgroup path encoding is malformed" ErrInvalidRef) (DecodeString encoded);
        if eqs path "" || negb (IsAbs path) || negb (eqs (Clean path) path) || hasNUL path
        then Err (Errorf "cgroup path is malformed" ErrInvalidRef)
        else
          dev ← wrap_err (fun _ => Errorf "cgroup device identity is malformed" ErrInvalidRef) (ParseUint devText);
          ino ← wrap_err (fun _ => Errorf "cgroup inode identity is malformed" ErrInvalidRef) (ParseUint inoText);
          if ino =? 0 then Err (Errorf "cgroup inode identity is malformed" ErrInvalidRef)
          else Ok (path, dev, ino)
  | _ => Err (Errorf "cgroup identifier is malformed" ErrInvalidRef)
  end.

(** ** cgroup.events *)

(** [strconv.ParseUint(s, 10, 8)] *)
Definition ParseUint8 (s : string) : result Z :=
  v ← ParseUint s;
  if 255 <? v then Err (New "value out of range") else Ok v.

(** The body of the scan; the state is [seen] and [populated]. *)
Definition eventsLine (line : string) (s : bool * bool) : result (bool * bool) :=
  match Fields line with
  | [name; text] =>
      value ← wrap_err (fun _ => New "cgroup.events value is malformed") (ParseUint8 text);
      if 1 <? value then Err (New "cgroup.events value is malformed")
      else if negb (eqs name "populated") then Ok s
      else if fst s then Err (New "cgroup.events has duplicate populated field")
      else Ok (true, value =? 1)
  | _ => Err (New "cgroup.events line is malformed")
  end.

(** [true] when the scope is empty. *)
Definition parseCgroupEvents (data : string) : result bool :=
  s ← scan bufio_MaxScanTokenSize data eventsLine (false, false);
  if negb (fst s) then Err (New "cgroup.events has no populated field") else Ok (negb (snd s)).

(** ** /proc/<pid>/cgroup *)
Definition cgroupLine (line : string) (path : string) : result string :=
  match SplitN line ":" 3 with
  | [id; controllers; p] =>
      if negb (eqs id "0") || negb (eqs controllers "") then Ok path
      else if negb (eqs path "") then Err (New "/proc cgroup has duplicate v2 entries")
      else if eqs p "" || negb (HasPrefix p "/") || hasNUL p
      then Err (New "/proc cgroup v2 path is malformed")
      else if eqs p "/.." || HasPrefix p "/../"
      then Err (New "/proc cgroup v2 path is outside the cgroup namespace view")
      else if negb (eqs (Clean p) p) then Err (New "/proc cgroup v2 path is malformed")
      else Ok p
  | _ => Ok path
  end.

Definition parseCgroupV2Path (data : string) : result string :=
  path ← scan bufio_MaxScanTokenSize data cgroupLine ""%string;
  if eqs path "" then Err (New "/proc cgroup has no v2 entry") else Ok path.

(** ** mountinfo *)

Fixpoint unescapeBytes (l : list ascii) : result (list ascii) :=
  match l with
  | [] => Ok []
  | c :: l1 =>
      if negb (bool_decide (c = "\"%char)) then r ← unescapeBytes l1; Ok (c :: r)
      else match l1 with
      | x :: y :: z :: l2 =>
          let code := str [x; y; z] in
          if eqs code "040" then r ← unescapeBytes l2; Ok (" "%char :: r)
          else if eqs code "011" then r ← unescapeBytes l2; Ok ("009"%char :: r)
          else if eqs code "134" then r ← unescapeBytes l2; Ok ("\"%char :: r)
          else Err (New "mountinfo path escape is unsupported")
      | _ => Err (New "mountinfo path escape is truncated")
      end
  end.

Definition unescapeMountInfoPath (value : string) : result string :=
  l ← unescapeBytes (bytes value); Ok (str l).

(** The index of the first ["-"] field. *)
Fixpoint separatorFrom (fields : list string) (index : Z) : option Z :=
  match fields with
  | [] => None
  | f :: rest => if eqs f "-" then Some index else separatorFrom rest (index + 1)
  end.

Definition fieldAt (fields : list string) (i : Z) : string := nth (Z.to_nat i) fields ""%string.

(** The body of the scan; the state is the mounts found. *)
Definition mountLine (line : string) (mounts : list cgroupMount) : result (list cgroupMount) :=
  let fields := Fields line in
  let separator := default (-1) (separatorFrom fields 0) in
  if (separator <? 6) || (Z.of_nat (length fields) <=? separator + 1) ||
     negb (eqs (fieldAt fields (separator + 1)) "cgroup2")
  then Ok mounts
  else
    root ← unescapeMountInfoPath (fieldAt fields 3);
    mountPath ← unescapeMountInfoPath (fieldAt fields 4);
    if negb (IsAbs root) || negb (IsAbs mountPath) then Err (New "mountinfo cgroup path is not absolute")
    else if negb (eqs (Clean root) root) then Ok mounts
    else Ok (mounts ++ [MkCgroupMount root (Clean mountPath)]).

Definition parseMountInfo (data : string) : result (list cgroupMount) :=
  mounts ← scan (2 ^ 20) data mountLine [];
  match mounts with
  | [] => Err (New "mountinfo has no cgroup v2 mount")
  | _ => Ok mounts
  end.

(** ** The resolver *)

(** [relativeCgroupPath]; [None] is its [false]. *)
Definition relativeCgroupPath (root current : string) : option string :=
  if eqs root "/" then Some current
  else if eqs current root then Some "/"%string
  else if HasPrefix current (root +:+ "/") then Some (TrimPrefix current root)
  else None.

Definition pathWithin (base target : string) : bool :=
  let base := Clean base in
  let target := Clean target in
  if eqs base "/" then IsAbs target
  else eqs target base || HasPrefix target (base +:+ "/").

(** The loop over the mounts; [best] is [bestRootLength]. *)
Fixpoint selectMount (mounts : list cgroupMount) (cgroupPath : string) (best : Z) (selected : option cgroupLocation)
    : option cgroupLocation :=
  match mounts with
  | [] => selected
  | m :: rest =>
      match relativeCgroupPath (cm_root m) cgroupPath with
      | None => selectMount rest cgroupPath best selected
      | Some relative =>
          if len (cm_root m) <=? best then selectMount rest cgroupPath best selected
          else
            let current := Clean (Join [cm_mountPath m; relative]) in
            if negb (pathWithin (cm_mountPath m) current) then selectMount rest cgroupPath best selected
            else selectMount rest cgroupPath (len (cm_root m))
                   (Some (MkCgroupLocation (cm_root m) (cm_mountPath m) current))
      end
  end.

Definition resolveCgroupLocation (cgroupData mountInfoData : string) : result cgroupLocation :=
  cgroupPath ← parseCgroupV2Path cgroupData;
  mounts ← parseMountInfo mountInfoData;
  match selectMount mounts cgroupPath (-1) None with
  | None => Err (New "no cgroup v2 mount contains the current cgroup")
  | Some selected => Ok selected
  end.

Definition ResolveCgroupV2Location (cgroupData mountInfoData : string) : result cgroupLocation :=
  resolveCgroupLocation cgroupData mountInfoData.

(** ** Byte strings *)
Lemma bytes_app a b : bytes (a +:+ b) = bytes a ++ bytes b.
Proof. induction a as [|c a IH]; [done|]. change (c :: bytes (a +:+ b) = c :: bytes a ++ bytes b). by rewrite IH. Qed.

Lemma splitBytes_app l1 l2 sep word : sep ∉ l1 ->
  splitBytes (l1 ++ sep :: l2) sep word = str (word ++ l1) :: splitBytes l2 sep [].
Proof.
  revert word. induction l1 as [|c l1 IH]; intros word Hn; cbn.
  - by rewrite bool_decide_true, app_nil_r.
  - apply not_elem_of_cons in Hn as [Hc Hn]. rewrite bool_decide_false by done.
    rewrite IH by done. by rewrite <- app_assoc.
Qed.

Lemma splitBytes_last l sep word : sep ∉ l -> splitBytes l sep word = [str (word ++ l)].
Proof.
  revert word. induction l as [|c l IH]; intros word Hn; cbn; [by rewrite app_nil_r|].
  apply not_elem_of_cons in Hn as [Hc Hn]. rewrite bool_decide_false by done.
  rewrite IH by done. by rewrite <- app_assoc.
Qed.

Lemma Split_app a sep b : sep ∉ bytes a -> Split (a +:+ String sep b) sep = a :: Split b sep.
Proof. intros Hn. unfold Split. rewrite bytes_app. change (bytes (String sep b)) with (sep :: bytes b).
  rewrite splitBytes_app by done. cbn [app]. by rewrite str_bytes. Qed.

Lemma Split_last a sep : sep ∉ bytes a -> Split a sep = [a].
Proof. intros Hn. unfold Split. rewrite splitBytes_last by done. cbn [app]. by rewrite str_bytes. Qed.

(** ** Decimal numbers *)
Lemma ParseUint_decimalText n : 0 <= n <= max_uint64 -> ParseUint (str (decimalText n)) = Ok n.
Proof.
  intros [Hn Hm]. unfold ParseUint. rewrite bytes_str, decimalText_digits, decimalText_value by done.
  rewrite (proj2 (Z.ltb_lt _ _)) by by apply decimalText_nonempty. cbn [negb orb].
  by rewrite (proj2 (Z.ltb_ge _ _)).
Qed.

Lemma digits_no l c : forallb isDigit l = true -> isDigit c = false -> c ∉ l.
Proof.
  intros HF Hc Hin. apply list_elem_of_In in Hin. rewrite forallb_forall in HF. specialize (HF _ Hin). congruence.
Qed.

(** ** base64 *)
Lemma base64_digits :
  forallb (fun n => match base64Value (base64Digit (Z.of_nat n)) with Some v => v =? Z.of_nat n | None => false end)
    (seq 0 64) = true.
Proof. vm_compute. reflexivity. Qed.

Lemma base64Value_Digit d : 0 <= d < 64 -> base64Value (base64Digit d) = Some d.
Proof.
  intros Hd. pose proof base64_digits as HF. rewrite forallb_forall in HF. specialize (HF (Z.to_nat d)).
  rewrite Z2Nat.id in HF by lia. destruct (base64Value (base64Digit d)) as [v|].
  - f_equal. apply Z.eqb_eq, HF, in_seq. lia.
  - discriminate HF. apply in_seq. lia.
Qed.

Lemma base64Digit_char d c : 0 <= d < 64 -> base64Value c = None -> base64Digit d <> c.
Proof. intros Hd Hc E. rewrite <- E, base64Value_Digit in Hc by done. done. Qed.

Lemma byteOf_byte c : byteOf (byte_of c) = c.
Proof. unfold byteOf, byte_of. by rewrite N2Z.id, ascii_N_embedding. Qed.

Lemma div_small_bounds v k n : 0 < k -> 0 <= v < k * n -> 0 <= v / k < n.
Proof. intros Hk Hv. split; [apply Z.div_pos; lia|]. apply Z.div_lt_upper_bound; lia. Qed.

Lemma mod_bounds v : 0 <= v mod 64 < 64.
Proof. apply Z.mod_pos_bound. lia. Qed.

Ltac digit_list :=
  repeat (apply Forall_cons; split);
  first [apply Forall_nil; exact I|assumption|apply mod_bounds|apply div_small_bounds; lia].

(** The digits of an encoding are valid and decode to the bytes. *)
Lemma encodeBase64_digits l :
  exists ds, Forall (fun d => 0 <= d < 64) ds /\ encodeBase64 l = map base64Digit ds /\ decodeGroups ds = Some l.
Proof.
  induction l as [l IH] using (induction_ltof1 _ (@length ascii)). unfold ltof in IH.
  destruct l as [|a [|b [|c l]]].
  - by exists [].
  - set (v := byte_of a * 65536). exists [v / 262144; v / 4096 mod 64].
    pose proof (byte_range a). split; [digit_list|].
    split; [done|]. cbn [decodeGroups]. do 2 f_equal. rewrite <- (byteOf_byte a). f_equal.
    unfold v. Z.to_euclidean_division_equations. lia.
  - set (v := byte_of a * 65536 + byte_of b * 256). exists [v / 262144; v / 4096 mod 64; v / 64 mod 64].
    pose proof (byte_range a). pose proof (byte_range b).
    split; [digit_list|].
    split; [done|]. cbn [decodeGroups].
    replace (v / 262144 * 262144 + v / 4096 mod 64 * 4096 + v / 64 mod 64 * 64) with v
      by (unfold v; Z.to_euclidean_division_equations; lia).
    replace (v / 65536) with (byte_of a) by (unfold v; Z.to_euclidean_division_equations; lia).
    replace (v / 256 mod 256) with (byte_of b) by (unfold v; Z.to_euclidean_division_equations; lia).
    by rewrite !byteOf_byte.
  - destruct (IH l) as (ds & HF & HE & HD); [cbn; lia|].
    set (v := byte_of a * 65536 + byte_of b * 256 + byte_of c).
    exists (v / 262144 :: v / 4096 mod 64 :: v / 64 mod 64 :: v mod 64 :: ds).
    pose proof (byte_range a). pose proof (byte_range b). pose proof (byte_range c).
    split; [digit_list|].
    split; [cbn [encodeBase64 map]; by rewrite HE|]. cbn [decodeGroups]. rewrite HD. cbn [mbind option_bind].
    replace (v / 262144 * 262144 + v / 4096 mod 64 * 4096 + v / 64 mod 64 * 64 + v mod 64) with v
      by (unfold v; Z.to_euclidean_division_equations; lia).
    replace (v / 65536) with (byte_of a) by (unfold v; Z.to_euclidean_division_equations; lia).
    replace (v / 256 mod 256) with (byte_of b) by (unfold v; Z.to_euclidean_division_equations; lia).
    replace (v mod 256) with (byte_of c) by (unfold v; Z.to_euclidean_division_equations; lia).
    by rewrite !byteOf_byte.
Qed.

Lemma mapM_digits ds : Forall (fun d => 0 <= d < 64) ds -> mapM base64Value (map base64Digit ds) = Some ds.
Proof.
  induction 1 as [|d ds Hd _ IH]; [done|]. cbn. rewrite base64Value_Digit by done. cbn. rewrite IH. done.
Qed.

Lemma digits_avoid ds c : Forall (fun d => 0 <= d < 64) ds -> base64Value c = None -> c ∉ map base64Digit ds.
Proof.
  intros HF Hc (d & E & Hd)%list_elem_of_fmap. rewrite Forall_forall in HF.
  by eapply base64Digit_char; [apply HF, Hd|exact Hc|].
Qed.

Lemma filter_all {A} (P : A -> Prop) `{!forall a, Decision (P a)} l : Forall P l -> filter P l = l.
Proof. induction 1 as [|a l Ha _ IH]; [done|]. rewrite filter_cons, decide_True by done. by rewrite IH. Qed.

Lemma DecodeString_Encode s : DecodeString (EncodeToString s) = Ok s.
Proof.
  unfold DecodeString, EncodeToString, decodeBase64. rewrite bytes_str.
  destruct (encodeBase64_digits (bytes s)) as (ds & HF & -> & HD).
  rewrite filter_all.
  - rewrite mapM_digits by done. cbn [mbind option_bind]. rewrite HD. by rewrite str_bytes.
  - apply Forall_forall. intros c Hc. split; intros ->; revert Hc; by apply digits_avoid.
Qed.

Lemma Encode_no_colon s : ":"%char ∉ bytes (EncodeToString s).
Proof.
  unfold EncodeToString. rewrite bytes_str. destruct (encodeBase64_digits (bytes s)) as (ds & HF & -> & _).
  by apply digits_avoid.
Qed.

Lemma Encode_nonempty s : s <> ""%string -> EncodeToString s <> ""%string.
Proof. intros Hs E. pose proof (DecodeString_Encode s) as HD. rewrite E in HD. injection HD as <-. done. Qed.

Lemma decimal_no_colon n : 0 <= n -> ":"%char ∉ bytes (str (decimalText n)).
Proof. intros Hn. rewrite bytes_str. by apply digits_no; [apply decimalText_digits|]. Qed.

Lemma identifier_parts path dev ino : 0 <= dev -> 0 <= ino ->
  Split ("cgroup2:" +:+ EncodeToString path +:+ ":" +:+ str (decimalText dev) +:+ ":" +:+ str (decimalText ino)) ":" =
    ["cgroup2"%string; EncodeToString path; str (decimalText dev); str (decimalText ino)].
Proof.
  intros Hd Hi.
  change (Split ("cgroup2" +:+ String ":" (EncodeToString path +:+ String ":"
            (str (decimalText dev) +:+ String ":" (str (decimalText ino))))) ":" =
    ["cgroup2"%string; EncodeToString path; str (decimalText dev); str (decimalText ino)]).
  rewrite Split_app by by apply (bool_decide_unpack _).
  rewrite Split_app by apply Encode_no_colon.
  rewrite Split_app by by apply decimal_no_colon.
  by rewrite Split_last by by apply decimal_no_colon.
Qed.

(** ** The properties *)

(** The identifier of a cgroup scope decodes to exactly the directory, device and
    inode it was made from, for every clean absolute path. *)
Theorem cgroup_identifier_roundtrip path dev ino :
  IsAbs path = true -> Clean path = path -> hasNUL path = false ->
  0 <= dev <= max_uint64 -> 0 < ino <= max_uint64 ->
  decodeCgroupIdentifier (encodeCgroupIdentifier path dev ino) = Ok (path, dev, ino).
Proof.
  intros Habs Hclean Hnul Hdev Hino. unfold encodeCgroupIdentifier, decodeCgroupIdentifier.
  rewrite identifier_parts by lia. cbv iota beta.
  assert (path <> ""%string) as Hne by (intros ->; discriminate Habs).
  unfold eqs at 1 2. rewrite bool_decide_true by done. rewrite bool_decide_false by by apply Encode_nonempty.
  cbn [negb orb]. rewrite DecodeString_Encode. cbn [wrap_err mbind result_bind].
  unfold eqs. rewrite bool_decide_false by done. rewrite Habs, Hclean, Hnul, bool_decide_true by done.
  cbn [negb orb]. rewrite !ParseUint_decimalText by lia. cbn [wrap_err mbind result_bind].
  by rewrite (proj2 (Z.eqb_neq _ _)) by lia.
Qed.

Lemma cgroup_identifier_roundtrip_witness :
  decodeCgroupIdentifier (encodeCgroupIdentifier "/sys/fs/cgroup/user.slice/delegate-1" 31 4242) =
    Ok ("/sys/fs/cgroup/user.slice/delegate-1"%string, 31, 4242).
Proof.
  apply cgroup_identifier_roundtrip; [vm_compute; reflexivity|vm_compute; reflexivity|vm_compute; reflexivity|unfold max_uint64; lia|unfold max_uint64; lia].
Defined.

(** ** Scanning *)
Lemma forLines_inv {S} (P : S -> Prop) lines (body : string -> S -> result S) s s' :
  (forall l s s', P s -> body l s = Ok s' -> P s') -> P s -> forLines lines body s = Ok s' -> P s'.
Proof.
  intros HP. revert s. induction lines as [|l lines IH]; intros s Hs; cbn [forLines]; [by intros [= <-]|].
  intros (s1 & H1 & H2)%bind_Ok. apply (IH s1); [by eapply HP|done].
Qed.

Lemma scan_inv {S} (P : S -> Prop) n data (body : string -> S -> result S) s s' :
  (forall l s s', P s -> body l s = Ok s' -> P s') -> P s -> scan n data body s = Ok s' -> P s'.
Proof.
  intros HP Hs. unfold scan. destruct (scanLines _ _ _) as [lines err].
  intros (s1 & H1 & H2)%bind_Ok. destruct err; [done|]. injection H2 as <-. by eapply forLines_inv.
Qed.

(** Case analysis on the test of an equation [(if b then _ else _) = _ -> _]. *)
Ltac split_if := match goal with |- (if ?b then _ else _) = _ -> _ => let E := fresh "E" in destruct b eqn:E end.

(** A membership the resolver accepts: absolute, clean and without a NUL byte. *)
Definition cleanAbs (p : string) : Prop := HasPrefix p "/" = true /\ Clean p = p.

Lemma parseCgroupV2Path_clean data p : parseCgroupV2Path data = Ok p -> cleanAbs p /\ hasNUL p = false.
Proof.
  unfold parseCgroupV2Path. intros (s & Hs & Hp)%bind_Ok.
  assert (s = ""%string \/ (cleanAbs s /\ hasNUL s = false)) as Hinv.
  { eapply (scan_inv (fun s => s = ""%string \/ (cleanAbs s /\ hasNUL s = false))); [|by left|exact Hs].
    intros l s1 s2 H1. unfold cgroupLine.
    destruct (SplitN l ":" 3) as [|a [|b [|c [|]]]]; try (by intros [= <-]).
    do 5 (split_if; [try (by intros [= <-]); done|]).
    intros [= <-]. right. bool_prop. split; [split|]; [done|by apply eqs_true|done]. }
  destruct (eqs s "") eqn:Es; [done|]. injection Hp as <-. apply eqs_false in Es. by destruct Hinv.
Qed.

Definition cleanMount (m : cgroupMount) : Prop := IsAbs (cm_root m) = true /\ Clean (cm_root m) = cm_root m.

Lemma parseMountInfo_clean data ms : parseMountInfo data = Ok ms -> Forall cleanMount ms.
Proof.
  unfold parseMountInfo. intros (s & Hs & Hp)%bind_Ok.
  assert (Forall cleanMount s) as Hinv.
  { eapply (scan_inv (Forall cleanMount)); [|by constructor|exact Hs].
    intros l s1 s2 H1. unfold mountLine. cbv zeta. split_if; [by intros [= <-]|].
    intros (root & _ & (mp & _ & Hk)%bind_Ok)%bind_Ok.
    revert Hk. split_if; [done|]. split_if; [by intros [= <-]|]. intros [= <-].
    bool_prop. match goal with H : eqs _ _ = true |- _ => apply eqs_true in H end. apply Forall_app. split; [done|]. constructor; [done|constructor]. }
  destruct s; [done|]. by injection Hp as <-.
Qed.

(** ** The selected mount *)

(** The directory a mount gives a cgroup, when it shows that cgroup. *)
Definition directoryIn (m : cgroupMount) (p : string) : option string :=
  relative ← relativeCgroupPath (cm_root m) p;
  let current := Clean (Join [cm_mountPath m; relative]) in
  if pathWithin (cm_mountPath m) current then Some current else None.

Lemma selectMount_spec ms p best sel :
  match selectMount ms p best sel with
  | r =>
    (r = sel /\ forall m, m ∈ ms -> directoryIn m p <> None -> len (cm_root m) <= best) \/
    exists m cur, m ∈ ms /\ directoryIn m p = Some cur /\ best < len (cm_root m) /\
      r = Some (MkCgroupLocation (cm_root m) (cm_mountPath m) cur) /\
      forall m', m' ∈ ms -> directoryIn m' p <> None -> len (cm_root m') <= len (cm_root m)
  end.
Proof.
  revert best sel. induction ms as [|m ms IH]; intros best sel.
  { left. split; [done|]. by intros m ?%elem_of_nil. }
  cbn [selectMount].
  assert (forall b s, b = best -> s = sel -> (directoryIn m p <> None -> len (cm_root m) <= best) ->
    (selectMount ms p b s = sel /\ forall m', m' ∈ m :: ms -> directoryIn m' p <> None -> len (cm_root m') <= best) \/
    exists m0 cur, m0 ∈ m :: ms /\ directoryIn m0 p = Some cur /\ best < len (cm_root m0) /\
      selectMount ms p b s = Some (MkCgroupLocation (cm_root m0) (cm_mountPath m0) cur) /\
      forall m', m' ∈ m :: ms -> directoryIn m' p <> None -> len (cm_root m') <= len (cm_root m0)) as Hskip.
  { intros b s -> -> Hm. destruct (IH best sel) as [[E HA]|(m0 & cur & Hin & HD & Hl & E & HA)].
    - left. split; [done|]. intros m' [->|Hin]%elem_of_cons; [done|by apply HA].
    - right. exists m0, cur. split; [by right|]. do 3 (split; [done|]).
      intros m' [->|Hin']%elem_of_cons Hd; [specialize (Hm Hd); lia|by apply HA]. }
  destruct (relativeCgroupPath (cm_root m) p) as [rel|] eqn:Er;
    [|apply Hskip; [done..|]; unfold directoryIn; by rewrite Er].
  destruct (Z.leb_spec (len (cm_root m)) best); [by apply Hskip|].
  destruct (pathWithin (cm_mountPath m) (Clean (Join [cm_mountPath m; rel]))) eqn:Ew; cbn [negb];
    [|apply Hskip; [done..|]; unfold directoryIn; rewrite Er; cbn; by rewrite Ew].
  assert (directoryIn m p = Some (Clean (Join [cm_mountPath m; rel]))) as Hd
    by (unfold directoryIn; rewrite Er; cbn; by rewrite Ew).
  right. set (loc := MkCgroupLocation (cm_root m) (cm_mountPath m) (Clean (Join [cm_mountPath m; rel]))).
  destruct (IH (len (cm_root m)) (Some loc)) as [[E HA]|(m0 & cur & Hin & HD & Hl & E & HA)].
  - exists m, (Clean (Join [cm_mountPath m; rel])). split; [by left|]. do 2 (split; [done|]). split; [exact E|].
    intros m' [->|Hin]%elem_of_cons Hd'; [lia|by apply HA].
  - exists m0, cur. split; [by right|]. split; [done|]. split; [lia|]. split; [exact E|].
    intros m' [->|Hin']%elem_of_cons Hd'; [lia|by apply HA].
Qed.

Lemma directoryIn_Some m p cur : directoryIn m p = Some cur ->
  exists rel, relativeCgroupPath (cm_root m) p = Some rel /\ cur = Clean (Join [cm_mountPath m; rel]) /\
    pathWithin (cm_mountPath m) cur = true.
Proof.
  unfold directoryIn. destruct (relativeCgroupPath (cm_root m) p) as [rel|]; [|done]. cbn.
  destruct (pathWithin _ _) eqn:Ew; [|done]. intros [= <-]. by exists rel.
Qed.

Lemma stripPrefix_Some p l r : stripPrefix p l = Some r -> l = p ++ r.
Proof.
  revert l. induction p as [|a p IH]; intros l; cbn; [by intros [= ->]|]. destruct l as [|b l]; [done|].
  case_bool_decide; [|done]. subst. intros ->%IH. done.
Qed.

Lemma string_app_bytes a b c : bytes c = bytes a ++ bytes b -> c = a +:+ b.
Proof. rewrite <- bytes_app. intros E. by rewrite <- (str_bytes c), E, str_bytes. Qed.

(** [relativeCgroupPath] drops the root of the hierarchy the mount exposes. *)
Lemma relativeCgroupPath_spec root p rel : relativeCgroupPath root p = Some rel ->
  (root = "/"%string /\ rel = p) \/ (p = root /\ rel = "/"%string) \/ (p = root +:+ rel /\ HasPrefix rel "/" = true).
Proof.
  unfold relativeCgroupPath. destruct (eqs root "/") eqn:E1; [intros [= ->]; left; by apply eqs_true in E1|].
  destruct (eqs p root) eqn:E2; [intros [= <-]; right; left; by apply eqs_true in E2|].
  destruct (HasPrefix p (root +:+ "/")) eqn:E3; [|done]. intros [= <-]. right. right.
  unfold HasPrefix, CutPrefix in E3. rewrite bytes_app in E3. destruct (stripPrefix _ _) as [r|] eqn:Es; [|done].
  apply stripPrefix_Some in Es. unfold TrimPrefix, CutPrefix. rewrite Es, <- app_assoc, stripPrefix_app. cbn [fst].
  split; [|done]. apply string_app_bytes. by rewrite Es, bytes_str, <- app_assoc.
Qed.

(** A resolved location is the membership seen through the mount that exposes the
    most of its path: the membership is absolute and clean, the mount's root is an
    ancestor of it, the directory is the rest of the path under the mount point and
    never outside it, and no other mount that shows the membership has a longer
    root.  Without such a mount the resolution fails. *)
Theorem resolved_through_longest_mount cgroupData mountInfoData p ms :
  parseCgroupV2Path cgroupData = Ok p -> parseMountInfo mountInfoData = Ok ms ->
  cleanAbs p /\
  match resolveCgroupLocation cgroupData mountInfoData with
  | Ok loc => exists m rel, m ∈ ms /\ cleanMount m /\
      cg_mountRoot loc = cm_root m /\ cg_mountPath loc = cm_mountPath m /\
      ((cm_root m = "/"%string /\ rel = p) \/ (p = cm_root m /\ rel = "/"%string) \/
       (p = cm_root m +:+ rel /\ HasPrefix rel "/" = true)) /\
      cg_currentPath loc = Clean (Join [cm_mountPath m; rel]) /\
      pathWithin (cm_mountPath m) (cg_currentPath loc) = true /\
      forall m', m' ∈ ms -> directoryIn m' p <> None -> len (cm_root m') <= len (cm_root m)
  | Err _ => forall m, m ∈ ms -> directoryIn m p = None
  end.
Proof.
  intros Hp Hm. split; [by destruct (parseCgroupV2Path_clean _ _ Hp)|].
  unfold resolveCgroupLocation. rewrite Hp, Hm. cbn [mbind result_bind].
  destruct (selectMount_spec ms p (-1) None) as [[-> HA]|(m & cur & Hin & HD & _ & -> & HA)].
  - intros m Hin. destruct (directoryIn m p) eqn:Ed; [|done]. specialize (HA m Hin ltac:(by rewrite Ed)).
    unfold len in HA. lia.
  - apply directoryIn_Some in HD as (rel & Hr & -> & Hw). exists m, rel. split; [done|].
    split; [by apply parseMountInfo_clean in Hm; rewrite Forall_forall in Hm; apply Hm|].
    do 2 (split; [done|]). split; [by apply relativeCgroupPath_spec|]. done.
Qed.

Definition demoCgroup : string := "0::/user.slice/app.scope" +:+ String "010" "".
Definition demoMounts : string :=
  "30 24 0:26 / /sys/fs/cgroup rw shared:9 - cgroup2 cgroup2 rw" +:+ String "010"
  "31 24 0:26 /user.slice /mnt/user\040slice rw shared:9 - cgroup2 cgroup2 rw" +:+ String "010" "".

Lemma resolved_through_longest_mount_witness :
  resolveCgroupLocation demoCgroup demoMounts =
    Ok (MkCgroupLocation "/user.slice" "/mnt/user slice" "/mnt/user slice/app.scope") /\
  cleanAbs "/user.slice/app.scope".
Proof.
  split; [vm_compute; reflexivity|].
  refine (proj1 (resolved_through_longest_mount demoCgroup demoMounts "/user.slice/app.scope"
    [MkCgroupMount "/" "/sys/fs/cgroup"; MkCgroupMount "/user.slice" "/mnt/user slice"] _ _)); vm_compute; reflexivity.
Defined.
