(* ===== verification/ResourcePolicy.v ===== *)
(** * Resource admission: readings, outcomes and the policy

    [internal/resourceadmission]: the data of [assessment.go] and [sample.go], the
    verdicts of [outcome.go] and the classification rules of [policy.go].  Byte
    counts and counters are [uint64]; rates are [float64] ([GoFloat]). *)
From S2P Require Import Prelude GoErrors GoTime GoText GoFloat.

(** ** assessment.go: the vocabulary *)
Inductive Status : Set := StatusClear | StatusPressure | StatusUnknown.

Inductive Metric : Set := MetricHostCPU | MetricHostMemory | MetricCgroupCPU | MetricCgroupMemory.

Inductive Basis : Set := BasisSustained | BasisCritical.

(** [NoReason] is the empty string, the zero value. *)
Inductive Reason : Set :=
| NoReason
| ReasonTargetUnavailable | ReasonTargetChanged | ReasonScopeUnresolved | ReasonCgroupUnsupported
| ReasonPressureUnavailable | ReasonUnreadable | ReasonMalformed | ReasonCounterReset
| ReasonNoElapsedTime | ReasonDeadline | ReasonUnsupportedPlatform
| reasonNotApplicable.

Inductive Advisory : Set := AdvisoryMemoryHighNear.

#[global] Instance Status_eq_dec : EqDecision Status.
Proof. solve_decision. Defined.
#[global] Instance Metric_eq_dec : EqDecision Metric.
Proof. solve_decision. Defined.
#[global] Instance Basis_eq_dec : EqDecision Basis.
Proof. solve_decision. Defined.
#[global] Instance Reason_eq_dec : EqDecision Reason.
Proof. solve_decision. Defined.

(** ** sample.go: one reading of a metric *)

(** The zero value of a Go type. *)
Class Zero (T : Type) : Type := zero : T.

#[global] Instance Zero_Z : Zero Z := 0.
#[global] Instance Zero_string : Zero string := ""%string.

Record reading (T : Type) : Type := MkReading {
  rd_value : T;
  rd_reason : Reason;
  rd_ok : bool
}.
Arguments MkReading {T} _ _ _.
Arguments rd_value {T} _.
Arguments rd_reason {T} _.
Arguments rd_ok {T} _.

Definition observed {T} (value : T) : reading T := MkReading value NoReason true.
Definition unobserved {T} `{Zero T} (reason : Reason) : reading T := MkReading zero reason false.
Definition notApplicable {T} `{Zero T} : reading T := MkReading zero reasonNotApplicable false.

Definition skipped {T} (r : reading T) : bool :=
  negb (rd_ok r) && bool_decide (rd_reason r = reasonNotApplicable).

Definition failure {T} (r : reading T) : Reason :=
  if bool_decide (rd_reason r = NoReason) then ReasonUnreadable else rd_reason r.

#[global] Instance Zero_reading {T} `{Zero T} : Zero (reading T) := MkReading zero NoReason false.

Record cpuCounters : Set := MkCounters { cc_busy : float64; cc_total : float64 }.

(** [memorySource] and [vmPressure] are integers with named constants. *)
Definition memorySourceAvailable : Z := 0.
Definition memorySourceVMPressure : Z := 1.
Definition vmPressureNormal : Z := 1.
Definition vmPressureWarning : Z := 2.
Definition vmPressureCritical : Z := 4.

Record hostMemory : Set := MkHostMemory {
  hm_source : Z;
  hm_total : Z;
  hm_available : Z;
  hm_vm : Z
}.

Record limit : Set := MkLimit { lm_bytes : Z; lm_set : bool }.

Record levelMemory : Set := MkLevelMemory {
  ml_max : limit;
  ml_high : limit;
  ml_workingSet : Z
}.

Record levelCPU : Set := MkLevelCPU {
  cl_quotaCPUs : float64;
  cl_hasQuota : bool;
  cl_cpusetCPUs : Z;
  cl_usageUS : Z
}.

Record cgroupLevel : Type := MkCgroupLevel {
  lv_path : string;
  lv_memory : reading levelMemory;
  lv_cpu : reading levelCPU
}.

Record cgroupSample : Type := MkCgroupSample {
  cs_path : string;
  cs_psiStallUS : reading Z;
  cs_levels : list cgroupLevel;
  cs_hiddenAncestors : bool
}.

#[global] Instance Zero_cpuCounters : Zero cpuCounters := MkCounters fzero fzero.
#[global] Instance Zero_hostMemory : Zero hostMemory := MkHostMemory 0 0 0 0.
#[global] Instance Zero_limit : Zero limit := MkLimit 0 false.
#[global] Instance Zero_levelMemory : Zero levelMemory := MkLevelMemory zero zero 0.
#[global] Instance Zero_levelCPU : Zero levelCPU := MkLevelCPU fzero false 0 0.
#[global] Instance Zero_cgroupSample : Zero cgroupSample := MkCgroupSample "" zero [] false.

Record snapshot : Type := MkSnapshot {
  sn_at : time;
  sn_cpu : reading cpuCounters;
  sn_memory : reading hostMemory;
  sn_cgroup : reading cgroupSample
}.

(** ** outcome.go: one verdict *)
Inductive outcomeState : Set :=
  outcomeUnknown | outcomeClear | outcomeHot | outcomeCritical | outcomeSkipped.

#[global] Instance outcomeState_eq_dec : EqDecision outcomeState.
Proof. solve_decision. Defined.

Record outcome : Set := MkOutcome { oc_state : outcomeState; oc_reason : Reason }.

#[global] Instance outcome_eq_dec : EqDecision outcome.
Proof. solve_decision. Defined.

Definition clearOutcome : outcome := MkOutcome outcomeClear NoReason.
Definition hotOutcome : outcome := MkOutcome outcomeHot NoReason.
Definition criticalOutcome : outcome := MkOutcome outcomeCritical NoReason.
Definition skippedOutcome : outcome := MkOutcome outcomeSkipped NoReason.
Definition unknownOutcome (reason : Reason) : outcome := MkOutcome outcomeUnknown reason.
Definition boolOutcome (hot : bool) : outcome := if hot then hotOutcome else clearOutcome.

(** The loop of [anyOf]; [result] is its local variable. *)
Fixpoint anyOfFrom (result : outcome) (outcomes : list outcome) : outcome :=
  match outcomes with
  | [] => result
  | o :: rest =>
      match oc_state o with
      | outcomeHot => hotOutcome
      | outcomeUnknown =>
          anyOfFrom (match oc_state result with outcomeClear => o | _ => result end) rest
      | outcomeClear | outcomeCritical | outcomeSkipped => anyOfFrom result rest
      end
  end.

Definition anyOf (outcomes : list outcome) : outcome := anyOfFrom clearOutcome outcomes.

Definition allOf (a b : outcome) : outcome :=
  match oc_state a, oc_state b with
  | outcomeClear, outcomeUnknown => MkOutcome outcomeClear (oc_reason b)
  | outcomeUnknown, outcomeClear => MkOutcome outcomeClear (oc_reason a)
  | outcomeClear, _ | _, outcomeClear => clearOutcome
  | outcomeUnknown, _ => a
  | _, outcomeUnknown => b
  | _, _ => hotOutcome
  end.

(** ** policy.go *)
Definition sampleInterval : Z := Second.
Definition requiredStreak : Z := 3.
Definition checkBudget : Z := 4 * Second.
Definition cpuBusyThreshold : float64 := const 95 100.
Definition psiStallThreshold : float64 := const 1 100.
Definition reserveCeiling : Z := 2 ^ 30.
Definition reserveDivisor : Z := 10.

Definition reserveBytes (total : Z) : Z := Z.min reserveCeiling (total / reserveDivisor).

Definition classifyAvailable (total available : Z) : outcome :=
  if (total =? 0) || (total <? available) then unknownOutcome ReasonMalformed
  else
    let reserve := reserveBytes total in
    if available <? reserve / 2 then criticalOutcome
    else if available <? reserve then hotOutcome
    else clearOutcome.

Definition classifyVMPressure (level : Z) : outcome :=
  if level =? vmPressureNormal then clearOutcome
  else if level =? vmPressureWarning then hotOutcome
  else if level =? vmPressureCritical then criticalOutcome
  else unknownOutcome ReasonMalformed.

Definition hostMemoryOutcome (r : reading hostMemory) : outcome :=
  if skipped r then skippedOutcome
  else if negb (rd_ok r) then unknownOutcome (failure r)
  else if hm_source (rd_value r) =? memorySourceVMPressure then classifyVMPressure (hm_vm (rd_value r))
  else if hm_source (rd_value r) =? memorySourceAvailable
  then classifyAvailable (hm_total (rd_value r)) (hm_available (rd_value r))
  else unknownOutcome ReasonMalformed.

Definition validCounters (c : cpuCounters) : bool :=
  let finite := negb (IsNaN (cc_busy c)) && negb (IsInf (cc_busy c)) &&
                negb (IsNaN (cc_total c)) && negb (IsInf (cc_total c)) in
  finite && fle fzero (cc_busy c) && fle (cc_busy c) (cc_total c).

Definition hostCPUOutcome (prev cur : reading cpuCounters) : outcome :=
  if skipped cur || skipped prev then skippedOutcome
  else if negb (rd_ok cur) then unknownOutcome (failure cur)
  else if negb (rd_ok prev) then unknownOutcome (failure prev)
  else if negb (validCounters (rd_value prev)) || negb (validCounters (rd_value cur))
  then unknownOutcome ReasonMalformed
  else
    let busy := fsub (cc_busy (rd_value cur)) (cc_busy (rd_value prev)) in
    let total := fsub (cc_total (rd_value cur)) (cc_total (rd_value prev)) in
    if flt busy fzero || flt total fzero then unknownOutcome ReasonCounterReset
    else if feq total fzero then unknownOutcome ReasonNoElapsedTime
    else if flt total busy then unknownOutcome ReasonMalformed
    else boolOutcome (fle cpuBusyThreshold (fdiv busy total)).

(** [cgroupPair]; [None] is its [true]. *)
Definition cgroupPair (prev cur : reading cgroupSample) (elapsed : Z) : option outcome :=
  if skipped cur || skipped prev then Some skippedOutcome
  else if negb (rd_ok cur) then Some (unknownOutcome (failure cur))
  else if negb (rd_ok prev) then Some (unknownOutcome (failure prev))
  else if negb (bool_decide (cs_path (rd_value prev) = cs_path (rd_value cur))) ||
          negb (bool_decide (length (cs_levels (rd_value prev)) = length (cs_levels (rd_value cur))))
  then Some (unknownOutcome ReasonTargetChanged)
  else if Microseconds elapsed <=? 0 then Some (unknownOutcome ReasonNoElapsedTime)
  else None.

Definition withCoverage (o : outcome) (sample : cgroupSample) : outcome :=
  if cs_hiddenAncestors sample && bool_decide (oc_state o = outcomeClear) && bool_decide (oc_reason o = NoReason)
  then MkOutcome (oc_state o) ReasonScopeUnresolved
  else o.

(** [cpuCapacity]; [None] is its [false]. *)
Definition cpuCapacity (c : levelCPU) : option float64 :=
  if cl_hasQuota c && (0 <? cl_cpusetCPUs c) then Some (fmin (cl_quotaCPUs c) (of_int (cl_cpusetCPUs c)))
  else if cl_hasQuota c then Some (cl_quotaCPUs c)
  else if 0 <? cl_cpusetCPUs c then Some (of_int (cl_cpusetCPUs c))
  else None.

Definition levelCPUOutcome (prev cur : reading levelCPU) (elapsed : Z) : outcome :=
  if negb (rd_ok cur) then unknownOutcome (failure cur)
  else match cpuCapacity (rd_value cur) with
  | None => clearOutcome
  | Some capacity =>
      if fle capacity fzero then unknownOutcome ReasonMalformed
      else if negb (rd_ok prev) then unknownOutcome (failure prev)
      else
        let unchanged := match cpuCapacity (rd_value prev) with
                         | Some prevCapacity => feq prevCapacity capacity
                         | None => false
                         end in
        if negb unchanged then unknownOutcome ReasonTargetChanged
        else if cl_usageUS (rd_value cur) <? cl_usageUS (rd_value prev)
        then unknownOutcome ReasonCounterReset
        else
          let used := of_int (cl_usageUS (rd_value cur) - cl_usageUS (rd_value prev)) in
          let available := fmul (of_int (Microseconds elapsed)) capacity in
          boolOutcome (fle cpuBusyThreshold (fdiv used available))
  end.

(** [prev.value.levels[i]] for every [i] of the current levels: [cgroupPair] has
    checked that the lengths agree. *)
Definition levelCPUOutcomes (prev cur : list cgroupLevel) (elapsed : Z) : list outcome :=
  zip_with (fun p c => levelCPUOutcome (lv_cpu p) (lv_cpu c) elapsed) prev cur.

Definition cgroupCPUOutcome (prev cur : reading cgroupSample) (elapsed : Z) : outcome :=
  match cgroupPair prev cur elapsed with
  | Some bad => bad
  | None =>
      withCoverage (anyOf (levelCPUOutcomes (cs_levels (rd_value prev)) (cs_levels (rd_value cur)) elapsed))
        (rd_value cur)
  end.

Definition headroomLow (limitBytes workingSet : Z) : bool :=
  let headroom := if workingSet <? limitBytes then limitBytes - workingSet else 0 in
  headroom <? reserveBytes limitBytes.

Definition levelMemoryOutcome (r : reading levelMemory) : outcome :=
  if negb (rd_ok r) then unknownOutcome (failure r)
  else if negb (lm_set (ml_max (rd_value r))) then clearOutcome
  else boolOutcome (headroomLow (lm_bytes (ml_max (rd_value r))) (ml_workingSet (rd_value r))).

Definition psiOutcome (prev cur : reading Z) (elapsed : Z) : outcome :=
  if negb (rd_ok cur) then unknownOutcome (failure cur)
  else if negb (rd_ok prev) then unknownOutcome (failure prev)
  else if rd_value cur <? rd_value prev then unknownOutcome ReasonCounterReset
  else if Microseconds elapsed <=? 0 then unknownOutcome ReasonNoElapsedTime
  else
    let stalled := of_int (rd_value cur - rd_value prev) in
    boolOutcome (fle psiStallThreshold (fdiv stalled (of_int (Microseconds elapsed)))).

Definition constrainedLevel (level : cgroupLevel) : bool :=
  negb (rd_ok (lv_memory level)) || lm_set (ml_max (rd_value (lv_memory level))).

Definition cgroupMemoryOutcome (prev cur : reading cgroupSample) (elapsed : Z) : outcome :=
  match cgroupPair prev cur elapsed with
  | Some bad => bad
  | None =>
      let outcomes := map (fun level => levelMemoryOutcome (lv_memory level)) (cs_levels (rd_value cur)) in
      if negb (existsb constrainedLevel (cs_levels (rd_value cur)))
      then withCoverage clearOutcome (rd_value cur)
      else
        let psi := psiOutcome (cs_psiStallUS (rd_value prev)) (cs_psiStallUS (rd_value cur)) elapsed in
        withCoverage (allOf (anyOf outcomes) psi) (rd_value cur)
  end.

Definition memoryHighNear (r : reading cgroupSample) : bool :=
  rd_ok r &&
  existsb (fun level =>
    rd_ok (lv_memory level) && lm_set (ml_high (rd_value (lv_memory level))) &&
    headroomLow (lm_bytes (ml_high (rd_value (lv_memory level)))) (ml_workingSet (rd_value (lv_memory level))))
    (cs_levels (rd_value r)).
