(* ===== verification/ResourceChecker.v ===== *)
(** * Resource admission: the check

    [internal/resourceadmission]: the [track] of one metric ([outcome.go]), the
    [evaluator] ([evaluator.go]), the immutable [Assessment] ([assessment.go]) and
    [Check]/[Scope] with the sampling loop ([checker.go]).

    A check runs in a world [W] behind the ports of [observer.go], [clock.go] and
    [target.go] and its two contexts: the caller's and the derived monitoring
    context [mon] that ends with the check's budget. *)
From S2P Require Import Prelude GoErrors GoTime GoText GoFloat TaskTypes ResourcePolicy.

(** ** outcome.go: a track *)
Record track : Set := MkTrack {
  tr_seen : bool;
  tr_streak : Z;
  tr_critical : bool;
  tr_sustained : bool;
  tr_baselineHot : bool;
  tr_unknown : Reason
}.

Definition newTrack : track := MkTrack false 0 false false false NoReason.

Definition confirmed (t : track) : bool := tr_critical t || tr_sustained t.

Definition pending (t : track) : bool :=
  negb (confirmed t) && ((0 <? tr_streak t) || tr_baselineHot t).

Definition record (o : outcome) (t : track) : track :=
  match oc_state o with
  | outcomeSkipped => t
  | outcomeCritical => MkTrack true (tr_streak t) true (tr_sustained t) false (tr_unknown t)
  | outcomeHot =>
      let streak := tr_streak t + 1 in
      MkTrack true streak (tr_critical t) ((requiredStreak <=? streak) || tr_sustained t) false (tr_unknown t)
  | outcomeUnknown => MkTrack true 0 (tr_critical t) (tr_sustained t) false (oc_reason o)
  | outcomeClear =>
      MkTrack true 0 (tr_critical t) (tr_sustained t) false
        (if bool_decide (oc_reason o = NoReason) then tr_unknown t else oc_reason o)
  end.

Definition baseline (o : outcome) (t : track) : track :=
  match oc_state o with
  | outcomeHot => MkTrack true (tr_streak t) (tr_critical t) (tr_sustained t) true (tr_unknown t)
  | _ => record o t
  end.

Definition invalidate (reason : Reason) (t : track) : track :=
  if negb (tr_seen t) then t else MkTrack true 0 false false false reason.

Definition expire (reason : Reason) (t : track) : track :=
  if tr_seen t && negb (confirmed t)
  then MkTrack (tr_seen t) (tr_streak t) (tr_critical t) (tr_sustained t) (tr_baselineHot t) reason
  else t.

Definition expectTrack (seen : bool) (t : track) : track :=
  MkTrack seen (tr_streak t) (tr_critical t) (tr_sustained t) (tr_baselineHot t) (tr_unknown t).

(** ** evaluator.go *)
Record evaluator : Set := MkEvaluator {
  ev_hostCPU : track;
  ev_hostMemory : track;
  ev_cgroupCPU : track;
  ev_cgroupMemory : track;
  ev_memoryHighHit : bool;
  ev_cgroupPath : string
}.

Definition newEvaluator : evaluator := MkEvaluator newTrack newTrack newTrack newTrack false "".

Definition expect (first : snapshot) (e : evaluator) : evaluator :=
  MkEvaluator (expectTrack (negb (skipped (sn_cpu first))) (ev_hostCPU e))
    (expectTrack (negb (skipped (sn_memory first))) (ev_hostMemory e))
    (expectTrack (negb (skipped (sn_cgroup first))) (ev_cgroupCPU e))
    (expectTrack (negb (skipped (sn_cgroup first))) (ev_cgroupMemory e))
    (ev_memoryHighHit e) (ev_cgroupPath e).

Definition setHostMemory (t : track) (e : evaluator) : evaluator :=
  MkEvaluator (ev_hostCPU e) t (ev_cgroupCPU e) (ev_cgroupMemory e) (ev_memoryHighHit e) (ev_cgroupPath e).

(** The part of [step] that folds a readable cgroup sample. *)
Definition noteCgroup (cur : snapshot) (e : evaluator) : evaluator :=
  if rd_ok (sn_cgroup cur)
  then MkEvaluator (ev_hostCPU e) (ev_hostMemory e) (ev_cgroupCPU e) (ev_cgroupMemory e)
         (ev_memoryHighHit e || memoryHighNear (sn_cgroup cur))
         (if eqs (ev_cgroupPath e) "" then cs_path (rd_value (sn_cgroup cur)) else ev_cgroupPath e)
  else e.

(** [step]; the baseline has no previous snapshot. *)
Definition step (prev : option snapshot) (cur : snapshot) (e : evaluator) : evaluator :=
  match prev with
  | None =>
      let e1 := expect cur e in
      noteCgroup cur (setHostMemory (baseline (hostMemoryOutcome (sn_memory cur)) (ev_hostMemory e1)) e1)
  | Some p =>
      let e2 := noteCgroup cur (setHostMemory (record (hostMemoryOutcome (sn_memory cur)) (ev_hostMemory e)) e) in
      let elapsed := Sub (sn_at cur) (sn_at p) in
      MkEvaluator (record (hostCPUOutcome (sn_cpu p) (sn_cpu cur)) (ev_hostCPU e2))
        (ev_hostMemory e2)
        (record (cgroupCPUOutcome (sn_cgroup p) (sn_cgroup cur) elapsed) (ev_cgroupCPU e2))
        (record (cgroupMemoryOutcome (sn_cgroup p) (sn_cgroup cur) elapsed) (ev_cgroupMemory e2))
        (ev_memoryHighHit e2) (ev_cgroupPath e2)
  end.

(** [metrics], in its order *)
Definition metrics (e : evaluator) : list (Metric * track) :=
  [(MetricHostCPU, ev_hostCPU e); (MetricHostMemory, ev_hostMemory e);
   (MetricCgroupCPU, ev_cgroupCPU e); (MetricCgroupMemory, ev_cgroupMemory e)].

Definition evPending (e : evaluator) : bool :=
  pending (ev_hostCPU e) || pending (ev_hostMemory e) || pending (ev_cgroupCPU e) || pending (ev_cgroupMemory e).

Definition evConfirmed (e : evaluator) : bool :=
  confirmed (ev_hostCPU e) || confirmed (ev_hostMemory e) || confirmed (ev_cgroupCPU e) ||
  confirmed (ev_cgroupMemory e).

Definition evExpire (reason : Reason) (e : evaluator) : evaluator :=
  MkEvaluator (expire reason (ev_hostCPU e)) (expire reason (ev_hostMemory e))
    (expire reason (ev_cgroupCPU e)) (expire reason (ev_cgroupMemory e))
    (ev_memoryHighHit e) (ev_cgroupPath e).

Definition invalidateTarget (reason : Reason) (e : evaluator) : evaluator :=
  MkEvaluator (ev_hostCPU e) (ev_hostMemory e) (invalidate reason (ev_cgroupCPU e))
    (invalidate reason (ev_cgroupMemory e)) false (ev_cgroupPath e).

(** ** assessment.go *)
Record Findings : Set := MkFindings {
  fi_Pressures : list (Metric * Basis);
  fi_Unavailable : list (Metric * Reason);
  fi_Advisories : list Advisory
}.

(** The loop of [findings] over the metrics. *)
Fixpoint findingsFrom (ms : list (Metric * track)) (f : Findings) : Findings :=
  match ms with
  | [] => f
  | (m, t) :: rest =>
      findingsFrom rest
        (if tr_critical t
         then MkFindings (fi_Pressures f ++ [(m, BasisCritical)]) (fi_Unavailable f) (fi_Advisories f)
         else if tr_sustained t
         then MkFindings (fi_Pressures f ++ [(m, BasisSustained)]) (fi_Unavailable f) (fi_Advisories f)
         else if tr_seen t && negb (bool_decide (tr_unknown t = NoReason))
         then MkFindings (fi_Pressures f) (fi_Unavailable f ++ [(m, tr_unknown t)]) (fi_Advisories f)
         else f)
  end.

Definition findings (e : evaluator) : Findings :=
  let f := findingsFrom (metrics e) (MkFindings [] [] []) in
  if ev_memoryHighHit e
  then MkFindings (fi_Pressures f) (fi_Unavailable f) (fi_Advisories f ++ [AdvisoryMemoryHighNear])
  else f.

Record Scope : Set := MkScope { sc_TargetIdentity : string; sc_Cgroup : string }.

#[global] Instance Scope_eq_dec : EqDecision Scope.
Proof. solve_decision. Defined.

Definition zeroScope : Scope := MkScope "" "".

Definition freshnessWindow : Z := 5 * Second.

Record Assessment : Set := MkAssessment {
  as_built : bool;
  as_observedAt : time;
  as_scope : Scope;
  as_findings : Findings
}.

Definition NewAssessment (observedAt : time) (scope : Scope) (f : Findings) : Assessment :=
  MkAssessment true observedAt scope f.

Definition zeroAssessment : Assessment := MkAssessment false zero_time zeroScope (MkFindings [] [] []).

Definition AssessmentStatus (a : Assessment) : Status :=
  if negb (as_built a) then StatusUnknown
  else match fi_Pressures (as_findings a), fi_Unavailable (as_findings a) with
       | _ :: _, _ => StatusPressure
       | [], _ :: _ => StatusUnknown
       | [], [] => StatusClear
       end.

Definition Reusable (a : Assessment) (now : time) (current : Scope) : bool :=
  let age := Sub now (as_observedAt a) in
  as_built a && (0 <=? age) && (age <=? freshnessWindow) && bool_decide (as_scope a = current).

(** ** target.go *)
Record Target : Set := MkTarget {
  tg_Identity : string;
  tg_PID : Z;
  tg_CgroupPath : string
}.

#[global] Instance Target_eq_dec : EqDecision Target.
Proof. solve_decision. Defined.

Definition valid (t : Target) : bool :=
  negb (eqs (tg_Identity t) "") && ((0 <? tg_PID t) || negb (eqs (tg_CgroupPath t) "")).

(** ** The ports of one check *)
Class Ports (W : Type) : Type := {
  p_callerErr : W -> option error * W;
  p_monErr : W -> option error * W;
  p_usesTarget : bool;
  p_observe : option Target -> W -> snapshot * W;
  p_hostMemory : W -> reading hostMemory * W;
  p_membership : Target -> W -> reading string * W;
  p_Now : W -> time * W;
  p_Sleep : Z -> W -> option error * W;
  (** [None] is a nil resolver. *)
  p_ResolveTarget : option (W -> result Target * W)
}.

(** ** checker.go *)
Section checker.
Context {W : Type} `{Ports W}.

(** A method of [run] changes its evaluator and the world. *)
Definition R (A : Type) : Type := evaluator -> W -> A * evaluator * W.

Definition ret {A} (a : A) : R A := fun e w => (a, e, w).
Definition bind {A B} (m : R A) (k : A -> R B) : R B := fun e w =>
  let '(a, e', w') := m e w in k a e' w'.
Definition port {A} (f : W -> A * W) : R A := fun e w => let '(a, w') := f w in (a, e, w').
Definition evaluate (f : evaluator -> evaluator) : R unit := fun e w => (tt, f e, w).
Definition current : R evaluator := fun e w => (e, e, w).

Declare Scope run_scope.
Notation "x <- m ;; k" := (bind m (fun x => k)) (at level 100, m at next level, right associativity) : run_scope.
Notation "m ;;; k" := (bind m (fun _ => k)) (at level 100, k at level 200, right associativity) : run_scope.
#[local] Open Scope run_scope.

(** [ended(mon)] *)
Definition ended : R bool :=
  e <- port p_monErr ;; ret (match e with Some _ => true | None => false end).

(** [usable], which reads the monitoring context only for a resolution that succeeded. *)
Definition usable (r : result Target) : R bool :=
  match r with
  | Err _ => ret false
  | Ok target => over <- ended ;; ret (negb over && valid target)
  end.

(** [resolve]: the current target, or none; the error is the caller's. *)
Definition resolve : R (result (option Target)) :=
  match p_ResolveTarget with
  | None => ret (Ok None)
  | Some resolver =>
      r <- port resolver ;;
      cancelled <- port p_callerErr ;;
      match cancelled with
      | Some err => ret (Err err)
      | None =>
          u <- usable r ;;
          ret (Ok (match r with Ok target => if u : bool then Some target else None | Err _ => None end))
      end
  end.

(** [stop]: whether sampling ends, and the caller's error. *)
Definition stop : R (bool * option error) :=
  cancelled <- port p_callerErr ;;
  match cancelled with
  | Some err => ret (true, Some err)
  | None =>
      over <- ended ;;
      if over : bool then evaluate (evExpire ReasonDeadline) ;;; ret (true, None)
      else ret (false, None)
  end.

Definition pause (prevAt : time) : R (bool * option error) :=
  t <- port p_Now ;;
  let wait := Sub (Add prevAt sampleInterval) t in
  if 0 <? wait then
    slept <- port (p_Sleep wait) ;;
    match slept with
    | Some err =>
        s <- stop ;;
        ret (if fst s then s else (true, Some err))
    | None => stop
    end
  else stop.

Definition stamp (t : time) (s : snapshot) : snapshot :=
  MkSnapshot t (sn_cpu s) (sn_memory s) (sn_cgroup s).

(** The loop of [sample]; [ticks] is how many of its turns are left. *)
Fixpoint sampleLoop (ticks : nat) (target : option Target) (prev : option snapshot) : R (option error) :=
  match ticks with
  | O => ret None
  | S rest =>
      before <- (match prev with None => stop | Some p => pause (sn_at p) end) ;;
      if fst before : bool then ret (snd before)
      else
        seen <- port (p_observe target) ;;
        t <- port p_Now ;;
        let cur := stamp t seen in
        after <- stop ;;
        if fst after : bool then ret (snd after)
        else
          evaluate (step prev cur) ;;;
          e <- current ;;
          if evConfirmed e || (match prev with Some _ => negb (evPending e) | None => false end)
          then ret None
          else sampleLoop rest target (Some cur)
  end.

(** [unsampled]; its time is never read. *)
Definition unsampled : snapshot :=
  MkSnapshot zero_time (unobserved ReasonDeadline) (unobserved ReasonDeadline)
    (if p_usesTarget then unobserved ReasonDeadline else notApplicable).

Definition sample (target : option Target) : R (option error) :=
  evaluate (expect unsampled) ;;; sampleLoop (S (Z.to_nat requiredStreak)) target None.

Definition scopeOf (target : Target) (cgroup : string) : Scope := MkScope (tg_Identity target) cgroup.

(** [criticalPrecheck]: the early assessment, if any, or the caller's error. *)
Definition criticalPrecheck : R (result (option Assessment)) :=
  memory <- port p_hostMemory ;;
  cancelled <- port p_callerErr ;;
  match cancelled with
  | Some err => ret (Err err)
  | None =>
      let o := hostMemoryOutcome memory in
      if negb (bool_decide (oc_state o = outcomeCritical)) then ret (Ok None)
      else
        evaluate (fun e => setHostMemory (record o (ev_hostMemory e)) e) ;;;
        t <- port p_Now ;;
        e <- current ;;
        ret (Ok (Some (NewAssessment t zeroScope (findings e))))
  end.

Definition revalidate (before : Target) : R (option error) :=
  over <- ended ;;
  if over : bool then evaluate (invalidateTarget ReasonDeadline) ;;; port p_callerErr
  else
    after <- resolve ;;
    match after with
    | Err err => ret (Some err)
    | Ok after =>
        over <- ended ;;
        if over : bool then evaluate (invalidateTarget ReasonDeadline) ;;; ret None
        else match after with
        | None => evaluate (invalidateTarget ReasonTargetUnavailable) ;;; ret None
        | Some target =>
            if negb (bool_decide (target = before))
            then evaluate (invalidateTarget ReasonTargetChanged) ;;; ret None
            else ret None
        end
    end.

Definition runScope (target : option Target) (e : evaluator) : Scope :=
  match target with None => zeroScope | Some t => scopeOf t (ev_cgroupPath e) end.

(** The end of [execute] once the target is known. *)
Definition executeFor (target : option Target) : R (result Assessment) :=
  failed <- sample target ;;
  match failed with
  | Some err => ret (Err err)
  | None =>
      changed <- (match target with None => ret None | Some t => revalidate t end) ;;
      match changed with
      | Some err => ret (Err err)
      | None =>
          t <- port p_Now ;;
          e <- current ;;
          ret (Ok (NewAssessment t (runScope target e) (findings e)))
      end
  end.

Definition execute : R (result Assessment) :=
  critical <- criticalPrecheck ;;
  match critical with
  | Err err => ret (Err err)
  | Ok (Some a) => ret (Ok a)
  | Ok None =>
      over <- (if p_usesTarget then ended else ret true) ;;
      target <- (if negb over then resolve else ret (Ok None)) ;;
      match target with
      | Err err => ret (Err err)
      | Ok target => executeFor target
      end
  end.

(** [Check], with [mon] derived from the caller's context. *)
Definition RunCheck (w : W) : result Assessment * W :=
  let '(cancelled, w1) := p_callerErr w in
  match cancelled with
  | Some err => (Err err, w1)
  | None => let '(r, _, w2) := execute newEvaluator w1 in (r, w2)
  end.

(** [Scope] *)
Definition CheckScope (w : W) : result Scope * W :=
  let '(cancelled, w1) := p_callerErr w in
  match cancelled with
  | Some err => (Err err, w1)
  | None =>
      if negb p_usesTarget then (Ok zeroScope, w1)
      else
        let '(r, _, w2) :=
          (target <- resolve ;;
           match target with
           | Err err => ret (Err err)
           | Ok None => ret (Ok zeroScope)
           | Ok (Some t) =>
               cgroup <- port (p_membership t) ;;
               cancelled <- port p_callerErr ;;
               ret (match cancelled with
                    | Some err => Err err
                    | None => Ok (scopeOf t (rd_value cgroup))
                    end)
           end) newEvaluator w1 in
        (r, w2)
  end.
End checker.
