(* ===== verification/ResourceCheckerProps.v ===== *)
(** * Lemmas of the resource check

    What a sequence of outcomes leaves in a track, what the evaluator holds after a
    sequence of snapshots, and what each method of a run does to them. *)
From S2P Require Import Prelude GoErrors GoTime GoText GoFloat TaskTypes ResourcePolicy ResourceChecker.

(** ** Verdicts *)

(** The verdict of one metric over one interval. *)
Definition verdict (m : Metric) (prev cur : snapshot) : outcome :=
  let elapsed := Sub (sn_at cur) (sn_at prev) in
  match m with
  | MetricHostCPU => hostCPUOutcome (sn_cpu prev) (sn_cpu cur)
  | MetricHostMemory => hostMemoryOutcome (sn_memory cur)
  | MetricCgroupCPU => cgroupCPUOutcome (sn_cgroup prev) (sn_cgroup cur) elapsed
  | MetricCgroupMemory => cgroupMemoryOutcome (sn_cgroup prev) (sn_cgroup cur) elapsed
  end.

(** An unknown verdict says why. *)
Definition explained (o : outcome) : Prop := oc_state o = outcomeUnknown -> oc_reason o <> NoReason.

Definition uncritical (o : outcome) : Prop := oc_state o <> outcomeCritical.

Create HintDb verdicts.

Lemma failure_reason {T} (r : reading T) : failure r <> NoReason.
Proof. unfold failure. by case_bool_decide. Qed.

Lemma explained_unknown r : r <> NoReason -> explained (unknownOutcome r).
Proof. by intros ? _. Qed.

Lemma explained_bool b : explained (boolOutcome b).
Proof. by destruct b. Qed.

Lemma uncritical_bool b : uncritical (boolOutcome b).
Proof. by destruct b. Qed.

Lemma uncritical_unknown r : uncritical (unknownOutcome r).
Proof. done. Qed.

#[export] Hint Resolve failure_reason explained_unknown explained_bool uncritical_bool uncritical_unknown : verdicts.
#[export] Hint Extern 1 (_ <> NoReason) => discriminate : verdicts.
#[export] Hint Extern 2 (explained _) => (intros ?; discriminate) : verdicts.
#[export] Hint Extern 2 (uncritical _) => discriminate : verdicts.

(** Split the tests of a classification rule and close every verdict. *)
Ltac verdict_cases :=
  repeat match goal with
  | |- context [match ?x with _ => _ end] => destruct x
  end; auto with verdicts.

Lemma hostMemory_explained r : explained (hostMemoryOutcome r).
Proof. unfold hostMemoryOutcome, classifyVMPressure, classifyAvailable. cbv zeta. verdict_cases. Qed.

Lemma hostCPU_explained p c : explained (hostCPUOutcome p c) /\ uncritical (hostCPUOutcome p c).
Proof. unfold hostCPUOutcome. cbv zeta. split; verdict_cases. Qed.

Lemma cgroupPair_explained p c d o : cgroupPair p c d = Some o -> explained o /\ uncritical o.
Proof.
  unfold cgroupPair. intros E.
  repeat match type of E with context [if ?x then _ else _] => destruct x end;
    try discriminate E; injection E as <-; auto with verdicts.
Qed.

Lemma anyOfFrom_explained l : forall r, Forall explained l -> explained r /\ uncritical r ->
  explained (anyOfFrom r l) /\ uncritical (anyOfFrom r l).
Proof.
  induction l as [|o l IH]; intros r HF Hr; [done|]. apply Forall_cons in HF as [Ho HF]. cbn [anyOfFrom].
  destruct (oc_state o) eqn:Eo; [|by apply IH|split; auto with verdicts|by apply IH..].
  apply IH; [done|]. destruct (oc_state r); [done| |done..]. split; [done|]. unfold uncritical. by rewrite Eo.
Qed.

Lemma anyOf_explained l : Forall explained l -> explained (anyOf l) /\ uncritical (anyOf l).
Proof. intros HF. apply anyOfFrom_explained; [done|]. split; auto with verdicts. Qed.

Lemma allOf_explained a b : explained a /\ uncritical a -> explained b /\ uncritical b ->
  explained (allOf a b) /\ uncritical (allOf a b).
Proof.
  destruct a as [[] ra], b as [[] rb]; cbn; intros [? ?] [? ?]; split; auto with verdicts;
    unfold uncritical in *; cbn in *; congruence.
Qed.

Lemma withCoverage_explained o s : explained o /\ uncritical o ->
  explained (withCoverage o s) /\ uncritical (withCoverage o s).
Proof. unfold withCoverage, explained, uncritical. destruct (_ && _); cbn; [|done]. intuition discriminate. Qed.

Lemma levelCPU_explained p c d : explained (levelCPUOutcome p c d).
Proof. unfold levelCPUOutcome. cbv zeta. verdict_cases. Qed.

Lemma levelMemory_explained r : explained (levelMemoryOutcome r).
Proof. unfold levelMemoryOutcome. verdict_cases. Qed.

Lemma psi_explained p c d : explained (psiOutcome p c d) /\ uncritical (psiOutcome p c d).
Proof. unfold psiOutcome. cbv zeta. split; verdict_cases. Qed.

Lemma cgroupCPU_explained p c d : explained (cgroupCPUOutcome p c d) /\ uncritical (cgroupCPUOutcome p c d).
Proof.
  unfold cgroupCPUOutcome. destruct (cgroupPair p c d) eqn:E; [by eapply cgroupPair_explained|].
  apply withCoverage_explained, anyOf_explained. unfold levelCPUOutcomes.
  generalize (cs_levels (rd_value c)). induction (cs_levels (rd_value p)) as [|x l IH]; intros [|y k]; cbn; constructor;
    [apply levelCPU_explained|apply IH].
Qed.

Lemma cgroupMemory_explained p c d :
  explained (cgroupMemoryOutcome p c d) /\ uncritical (cgroupMemoryOutcome p c d).
Proof.
  unfold cgroupMemoryOutcome. destruct (cgroupPair p c d) eqn:E; [by eapply cgroupPair_explained|]. cbv zeta.
  destruct (negb _); apply withCoverage_explained; [split; auto with verdicts|].
  apply allOf_explained; [|apply psi_explained]. apply anyOf_explained.
  apply Forall_map, Forall_true. intros; apply levelMemory_explained.
Qed.

Lemma verdict_explained m p c : explained (verdict m p c).
Proof.
  destruct m; [apply hostCPU_explained|apply hostMemory_explained|apply cgroupCPU_explained|apply cgroupMemory_explained].
Qed.

(** Only host memory has a critical rule. *)
Lemma verdict_critical m p c : oc_state (verdict m p c) = outcomeCritical -> m = MetricHostMemory.
Proof.
  destruct m; [|done|..]; intros E; exfalso; revert E;
    [apply hostCPU_explained|apply cgroupCPU_explained|apply cgroupMemory_explained].
Qed.

(** ** A track over a sequence of outcomes *)
Definition records (os : list outcome) (t : track) : track := foldl (fun t o => record o t) t os.

Lemma records_snoc os o t : records (os ++ [o]) t = record o (records os t).
Proof. unfold records. by rewrite foldl_snoc. Qed.

Definition hot (o : outcome) : Prop := oc_state o = outcomeHot.

(** A track whose interval streak has not started. *)
Definition fresh (t : track) : Prop := tr_streak t = 0 /\ tr_sustained t = false.

Lemma fresh_baseline o t : fresh t -> fresh (baseline o t).
Proof. unfold fresh, baseline, record. destruct (oc_state o); cbn; naive_solver. Qed.

Lemma records_streak os t : fresh t ->
  0 <= tr_streak (records os t) <= Z.of_nat (length os) /\
  (tr_streak (records os t) = Z.of_nat (length os) -> Forall hot os) /\
  (tr_sustained (records os t) = true -> requiredStreak <= Z.of_nat (length os)).
Proof.
  intros (F1 & F3). induction os as [|o os (IH1 & IH2 & IH3)] using rev_ind.
  - cbn. rewrite F1, F3. split; [lia|]. split; [constructor|discriminate].
  - rewrite records_snoc, length_app. cbn [length]. unfold record.
    destruct (oc_state o) eqn:Eo; cbn [tr_streak tr_sustained]; split_and!; try lia;
      try (intros Hs; first [specialize (IH3 Hs); lia|exfalso; lia]).
    + intros Hs. apply Forall_app. split; [apply IH2; lia|]. by repeat constructor.
    + intros [Hs%Z.leb_le|Hs]%orb_true_iff; [lia|]. specialize (IH3 Hs). lia.
Qed.

(** Sustained pressure within three recorded outcomes means that all were hot. *)
Lemma records_sustained os t : fresh t -> (length os <= 3)%nat ->
  tr_sustained (records os t) = true -> length os = 3%nat /\ Forall hot os.
Proof.
  intros HF Hl. destruct (os) as [|o os' _] using rev_ind.
  { unfold records. cbn. destruct HF as (_ & ->). discriminate. }
  rewrite records_snoc. rewrite length_app in *. cbn [length] in *. intros Hs.
  destruct (records_streak os' t HF) as (B & A & S). unfold requiredStreak in *.
  assert (tr_sustained (records os' t) = false) as Hn.
  { destruct (tr_sustained (records os' t)); [|done]. specialize (S eq_refl). lia. }
  unfold record in Hs. destruct (oc_state o) eqn:Eo; cbn [tr_sustained] in Hs; try congruence.
  rewrite Hn, orb_false_r in Hs. apply Z.leb_le in Hs. unfold requiredStreak in Hs. split; [lia|]. apply Forall_app. split; [apply A; lia|].
  by repeat constructor.
Qed.

Lemma records_critical os t : tr_critical t = false -> tr_critical (records os t) = true ->
  exists o, o ∈ os /\ oc_state o = outcomeCritical.
Proof.
  intros F2. induction os as [|o os IH] using rev_ind; [cbn; congruence|].
  rewrite records_snoc. unfold record. intros Hc.
  destruct (oc_state o) eqn:Eo; cbn [tr_critical] in Hc;
    try (destruct (IH Hc) as (o' & ? & ?); exists o'; split; [apply elem_of_app; by left|done]).
  exists o. split; [apply elem_of_app; right; by left|done].
Qed.

(** A verdict that leaves a metric judged: skipped, hot, or clear without a gap. *)
Definition judged (o : outcome) : Prop :=
  oc_state o = outcomeSkipped \/ oc_state o = outcomeHot \/
  (oc_state o = outcomeClear /\ oc_reason o = NoReason).

(** An unavailability once recorded stays; a track without one judged every outcome. *)
Lemma records_judged os t : Forall explained os -> tr_critical (records os t) = false ->
  tr_unknown (records os t) = NoReason ->
  Forall judged os /\ tr_unknown t = NoReason /\ tr_critical t = false.
Proof.
  induction os as [|o os IH] using rev_ind; [intros _ ? ?; split; [constructor|done]|]. rewrite records_snoc.
  intros [HF [Ho _]%Forall_cons]%Forall_app Hc Hu.
  assert (tr_critical (records os t) = false /\ tr_unknown (records os t) = NoReason /\ judged o) as (? & ? & ?).
  { unfold record, judged, explained in *.
    destruct o as [[] r]; cbn in *; [by destruct (Ho eq_refl)|..|done|by auto]; [|by auto].
    case_bool_decide; [by auto 6|done]. }
  destruct IH as (IH & ? & ?); [done..|]. split; [|done].
  apply Forall_app. split; [done|]. constructor; [done|constructor].
Qed.

Lemma records_seen os t : tr_seen t = true -> tr_seen (records os t) = true.
Proof.
  intros Ht. induction os as [|o os IH] using rev_ind; [done|]. rewrite records_snoc. unfold record.
  by destruct (oc_state o).
Qed.

(** An unseen track recorded only skipped outcomes. *)
Lemma records_unseen os t : tr_seen (records os t) = false -> records os t = t /\ Forall judged os.
Proof.
  induction os as [|o os IH] using rev_ind; [done|]. rewrite records_snoc. unfold record.
  destruct (oc_state o) eqn:Eo; cbn; try discriminate. intros [-> HF]%IH. split; [done|].
  apply Forall_app. split; [done|]. constructor; [by left|constructor].
Qed.

(** Not pending after at least one recorded outcome: the last one was not hot. *)
Lemma pending_last os o t : fresh t -> pending (records (os ++ [o]) t) = false ->
  confirmed (records (os ++ [o]) t) = false -> oc_state o <> outcomeHot.
Proof.
  intros HF Hp Hc Eo. destruct (records_streak os t HF) as ((B & _) & _).
  rewrite records_snoc in Hp, Hc. unfold pending in Hp. rewrite Hc in Hp.
  unfold record in Hp. rewrite Eo in Hp. cbn in Hp. rewrite orb_false_r in Hp. lia.
Qed.

(** ** The evaluator over a sequence of snapshots *)
Definition trackOf (m : Metric) (e : evaluator) : track :=
  match m with
  | MetricHostCPU => ev_hostCPU e
  | MetricHostMemory => ev_hostMemory e
  | MetricCgroupCPU => ev_cgroupCPU e
  | MetricCgroupMemory => ev_cgroupMemory e
  end.

Fixpoint stepAll (prev : option snapshot) (snaps : list snapshot) (e : evaluator) : evaluator :=
  match snaps with
  | [] => e
  | s :: rest => stepAll (Some s) rest (step prev s e)
  end.

Fixpoint verdicts (m : Metric) (prev : snapshot) (snaps : list snapshot) : list outcome :=
  match snaps with
  | [] => []
  | s :: rest => verdict m prev s :: verdicts m s rest
  end.

Lemma length_verdicts m p snaps : length (verdicts m p snaps) = length snaps.
Proof. revert p. induction snaps as [|s snaps IH]; intros p; cbn; [done|]. by rewrite IH. Qed.

Lemma verdicts_explained m p snaps : Forall explained (verdicts m p snaps).
Proof. revert p. induction snaps as [|s snaps IH]; intros p; constructor; [apply verdict_explained|apply IH]. Qed.

Lemma trackOf_noteCgroup m s e : trackOf m (noteCgroup s e) = trackOf m e.
Proof. unfold noteCgroup. destruct (rd_ok _); by destruct m. Qed.

Lemma trackOf_step m p s e : trackOf m (step (Some p) s e) = record (verdict m p s) (trackOf m e).
Proof. cbn [step]. unfold noteCgroup. destruct (rd_ok _); by destruct m. Qed.

Lemma trackOf_stepAll m p snaps e :
  trackOf m (stepAll (Some p) snaps e) = records (verdicts m p snaps) (trackOf m e).
Proof.
  revert p e. induction snaps as [|s snaps IH]; intros p e; [done|]. cbn [stepAll verdicts records foldl].
  rewrite IH, trackOf_step. done.
Qed.

(** What the baseline leaves in a track. *)
Definition seenIn (m : Metric) (s : snapshot) : bool :=
  match m with
  | MetricHostCPU => negb (skipped (sn_cpu s))
  | MetricHostMemory => negb (skipped (sn_memory s))
  | MetricCgroupCPU | MetricCgroupMemory => negb (skipped (sn_cgroup s))
  end.

Definition firstTrack (m : Metric) (s : snapshot) (t : track) : track :=
  match m with
  | MetricHostMemory => baseline (hostMemoryOutcome (sn_memory s)) (expectTrack (seenIn m s) t)
  | _ => expectTrack (seenIn m s) t
  end.

Lemma trackOf_first m s e : trackOf m (step None s e) = firstTrack m s (trackOf m e).
Proof. cbn [step]. rewrite trackOf_noteCgroup. by destruct m. Qed.

Lemma firstTrack_fresh m s t : fresh t -> fresh (firstTrack m s t).
Proof. intros HF. destruct m; cbn; [..|apply fresh_baseline| |]; done. Qed.

Lemma trackOf_expire m r e : trackOf m (evExpire r e) = expire r (trackOf m e).
Proof. by destruct m. Qed.

Definition targeted (m : Metric) : bool :=
  match m with MetricCgroupCPU | MetricCgroupMemory => true | _ => false end.

Lemma trackOf_invalidate m r e :
  trackOf m (invalidateTarget r e) = if targeted m then invalidate r (trackOf m e) else trackOf m e.
Proof. by destruct m. Qed.

(** ** Findings *)
Definition pressureOf (t : track) : option Basis :=
  if tr_critical t then Some BasisCritical else if tr_sustained t then Some BasisSustained else None.

Definition unavailableOf (t : track) : option Reason :=
  if confirmed t then None
  else if tr_seen t && negb (bool_decide (tr_unknown t = NoReason)) then Some (tr_unknown t) else None.

Lemma findingsFrom_spec ms f :
  fi_Pressures (findingsFrom ms f) = fi_Pressures f ++ omap (fun p => pair p.1 <$> pressureOf p.2) ms /\
  fi_Unavailable (findingsFrom ms f) = fi_Unavailable f ++ omap (fun p => pair p.1 <$> unavailableOf p.2) ms.
Proof.
  revert f. induction ms as [|[m t] ms IH]; intros f; cbn [findingsFrom omap list_omap fst snd].
  - by rewrite !app_nil_r.
  - destruct (IH (if tr_critical t then MkFindings (fi_Pressures f ++ [(m, BasisCritical)]) (fi_Unavailable f) (fi_Advisories f)
      else if tr_sustained t then MkFindings (fi_Pressures f ++ [(m, BasisSustained)]) (fi_Unavailable f) (fi_Advisories f)
      else if tr_seen t && negb (bool_decide (tr_unknown t = NoReason))
      then MkFindings (fi_Pressures f) (fi_Unavailable f ++ [(m, tr_unknown t)]) (fi_Advisories f) else f)) as [-> ->].
    unfold pressureOf, unavailableOf, confirmed.
    destruct (tr_critical t), (tr_sustained t); cbn; rewrite <- ?app_assoc; try done.
    destruct (tr_seen t && _); cbn; by rewrite <- ?app_assoc.
Qed.

Lemma findings_pressures e :
  fi_Pressures (findings e) = omap (fun p => pair p.1 <$> pressureOf p.2) (metrics e).
Proof.
  unfold findings. destruct (findingsFrom_spec (metrics e) (MkFindings [] [] [])) as [E _].
  destruct (ev_memoryHighHit e); exact E.
Qed.

Lemma findings_unavailable e :
  fi_Unavailable (findings e) = omap (fun p => pair p.1 <$> unavailableOf p.2) (metrics e).
Proof.
  unfold findings. destruct (findingsFrom_spec (metrics e) (MkFindings [] [] [])) as [_ E].
  destruct (ev_memoryHighHit e); exact E.
Qed.

Lemma elem_of_metrics m t e : (m, t) ∈ metrics e <-> t = trackOf m e.
Proof.
  unfold metrics. rewrite !elem_of_cons, elem_of_nil. split.
  - intros [E|[E|[E|[E|[]]]]]; by injection E as -> ->.
  - intros ->. destruct m; auto.
Qed.

Lemma elem_of_pressures e m b :
  (m, b) ∈ fi_Pressures (findings e) <-> pressureOf (trackOf m e) = Some b.
Proof.
  rewrite findings_pressures, list_elem_of_omap. split.
  - intros ([m' t] & Ht & E). cbn in E. apply fmap_Some in E as (b' & E & [= -> ->]).
    apply elem_of_metrics in Ht as ->. done.
  - intros E. exists (m, trackOf m e). split; [by apply elem_of_metrics|]. cbn. by rewrite E.
Qed.

Lemma elem_of_unavailable e m r :
  (m, r) ∈ fi_Unavailable (findings e) <-> unavailableOf (trackOf m e) = Some r.
Proof.
  rewrite findings_unavailable, list_elem_of_omap. split.
  - intros ([m' t] & Ht & E). cbn in E. apply fmap_Some in E as (b' & E & [= -> ->]).
    apply elem_of_metrics in Ht as ->. done.
  - intros E. exists (m, trackOf m e). split; [by apply elem_of_metrics|]. cbn. by rewrite E.
Qed.

(** The status of an assessment built from an evaluator. *)
Lemma status_clear t s e : AssessmentStatus (NewAssessment t s (findings e)) = StatusClear <->
  forall m, pressureOf (trackOf m e) = None /\ unavailableOf (trackOf m e) = None.
Proof.
  unfold AssessmentStatus. cbn [NewAssessment as_built as_findings negb].
  assert (forall A (l : list A), l = [] <-> forall a, a ∉ l) as Hnil.
  { intros A l. split; [intros ->; intros a; apply not_elem_of_nil|].
    destruct l as [|a l]; [done|]. intros Hn. destruct (Hn a). by left. }
  transitivity (fi_Pressures (findings e) = [] /\ fi_Unavailable (findings e) = []).
  { destruct (fi_Pressures (findings e)), (fi_Unavailable (findings e)); naive_solver. }
  rewrite !Hnil. split.
  - intros [Hp Hu] m. split.
    + destruct (pressureOf (trackOf m e)) as [b|] eqn:E; [|done]. destruct (Hp (m, b)). by apply elem_of_pressures.
    + destruct (unavailableOf (trackOf m e)) as [r|] eqn:E; [|done]. destruct (Hu (m, r)). by apply elem_of_unavailable.
  - intros HA. split; intros [m x].
    + rewrite elem_of_pressures. destruct (HA m) as [-> _]. discriminate.
    + rewrite elem_of_unavailable. destruct (HA m) as [_ ->]. discriminate.
Qed.
