(* ===== verification/ResourceRun.v ===== *)
(** * The run of a resource check

    The world moves only through the ports; [Sampled] is the list of snapshots the
    observer gave, in order; and what [sample] and [execute] compute from them. *)
From S2P Require Import Prelude GoErrors GoTime GoText GoFloat TaskTypes ResourcePolicy ResourceChecker.
From S2P Require Import ResourceCheckerProps.

Section run.
Context {W : Type} `{Ports W}.

(** Any number of calls to the ports. *)
Inductive later (w : W) : W -> Prop :=
| later_refl : later w w
| later_callerErr w' : later w w' -> later w (snd (p_callerErr w'))
| later_monErr w' : later w w' -> later w (snd (p_monErr w'))
| later_observe t w' : later w w' -> later w (snd (p_observe t w'))
| later_hostMemory w' : later w w' -> later w (snd (p_hostMemory w'))
| later_Now w' : later w w' -> later w (snd (p_Now w'))
| later_Sleep d w' : later w w' -> later w (snd (p_Sleep d w'))
| later_ResolveTarget f w' : p_ResolveTarget = Some f -> later w w' -> later w (snd (f w')).

Lemma later_trans w1 w2 w3 : later w1 w2 -> later w2 w3 -> later w1 w3.
Proof. intros H12 H23. induction H23; [done|by constructor..|by eapply later_ResolveTarget]. Qed.

(** [snaps] are observations of [target], each stamped with the next clock reading. *)
Inductive Sampled (target : option Target) (w : W) : list snapshot -> W -> Prop :=
| Sampled_nil w' : later w w' -> Sampled target w [] w'
| Sampled_cons w1 seen w2 t w3 rest w' :
    later w w1 -> p_observe target w1 = (seen, w2) -> p_Now w2 = (t, w3) ->
    Sampled target w3 rest w' -> Sampled target w (stamp t seen :: rest) w'.

Lemma Sampled_later target w0 w snaps w' : later w0 w -> Sampled target w snaps w' -> Sampled target w0 snaps w'.
Proof.
  intros HL HS. destruct HS as [w' HL'|w1 seen w2 t w3 rest w' HL' Ho Hn HS].
  - constructor. by eapply later_trans.
  - econstructor; [by eapply later_trans|done..].
Qed.

Lemma Sampled_ends target w snaps w1 w' : Sampled target w snaps w1 -> later w1 w' -> Sampled target w snaps w'.
Proof.
  intros HS HL. induction HS as [w w1 HL'|w wa seen wb t wc rest w1 HL' Ho Hn HS IH].
  - constructor. by eapply later_trans.
  - econstructor; [done..|by apply IH].
Qed.

Lemma Sampled_end target w snaps w' : Sampled target w snaps w' -> later w w'.
Proof.
  induction 1 as [w' HL|w w1 seen w2 t w3 rest w' HL Ho Hn _ IH]; [done|].
  eapply later_trans; [|exact IH]. replace w3 with (snd (p_Now w2)) by (by rewrite Hn). apply later_Now.
  replace w2 with (snd (p_observe target w1)) by (by rewrite Ho). by apply later_observe.
Qed.

(** The caller's context gave this error. *)
Definition callerGave (w : W) (err : error) : Prop :=
  exists w1, later w w1 /\ fst (p_callerErr w1) = Some err.

(** The monitoring context had ended. *)
Definition monEnded (w : W) : Prop := exists w1, later w w1 /\ fst (p_monErr w1) <> None.

Lemma callerGave_later w w' err : later w w' -> callerGave w' err -> callerGave w err.
Proof. intros HL (w1 & HL' & E). exists w1. split; [by eapply later_trans|done]. Qed.

Lemma later_call {A} (f : W -> A * W) w a w' :
  (forall w0, later w w0 -> later w (snd (f w0))) -> f w = (a, w') -> later w w'.
Proof. intros HL E. replace w' with (snd (f w)) by (by rewrite E). apply HL, later_refl. Qed.

(** ** Each method *)
Lemma bind_inv {A B} (m : @R W A) (k : A -> @R W B) e w b e' w' :
  bind m k e w = (b, e', w') -> exists a e1 w1, m e w = (a, e1, w1) /\ k a e1 w1 = (b, e', w').
Proof. unfold bind. destruct (m e w) as [[a e1] w1]. eauto. Qed.

Lemma port_inv {A} (f : W -> A * W) e w a e' w' : port f e w = (a, e', w') -> e' = e /\ f w = (a, w').
Proof. unfold port. destruct (f w) as [a1 w1]. by intros [= <- <- <-]. Qed.

Lemma ended_run e w b e' w' : ended e w = (b, e', w') ->
  e' = e /\ later w w' /\ (b = true -> monEnded w).
Proof.
  unfold ended. intros (m & e1 & w1 & [-> Hm]%port_inv & Hk)%bind_inv. injection Hk as Hb <- <-.
  split; [done|]. split; [eapply later_call; [|exact Hm]; by constructor|]. intros ->. exists w. split; [constructor|].
  rewrite Hm. by destruct m.
Qed.

Lemma callerErr_run e w c e' w' : port p_callerErr e w = (c, e', w') ->
  e' = e /\ later w w' /\ forall err, c = Some err -> callerGave w err.
Proof.
  intros [-> Hc]%port_inv. split; [done|]. split; [eapply later_call; [|exact Hc]; by constructor|].
  intros err ->. exists w. split; [constructor|]. by rewrite Hc.
Qed.

Lemma Now_run e w t e' w' : port p_Now e w = (t, e', w') -> e' = e /\ later w w' /\ p_Now w = (t, w').
Proof. intros [-> Hn]%port_inv. split; [done|]. split; [eapply later_call; [|exact Hn]; by constructor|done]. Qed.

(** How [stop] answers. *)
Definition stopped (w : W) (r : bool * option error) (e e' : evaluator) : Prop :=
  (exists err, r = (true, Some err) /\ e' = e) \/
  (r = (true, None) /\ e' = evExpire ReasonDeadline e) \/ (r = (false, None) /\ e' = e).

Lemma stop_run e w r e' w' : stop e w = (r, e', w') ->
  later w w' /\ stopped w r e e' /\ (forall err, snd r = Some err -> callerGave w err) /\
  (fst r = false -> fst (p_callerErr w) = None /\ fst (p_monErr (snd (p_callerErr w))) = None).
Proof.
  unfold stop. intros (c & e1 & w1 & Hc & Hk)%bind_inv. pose proof Hc as [_ Ec]%port_inv.
  apply callerErr_run in Hc as (-> & HL & Hg).
  destruct c as [err|]; [injection Hk as <- <- <-; split; [done|]; split; [left; eauto|]; split; [|done];
    intros ? [= <-]; by apply Hg|].
  apply bind_inv in Hk as (over & e2 & w2 & Ho & Hk). pose proof Ho as Ho'.
  apply ended_run in Ho as (-> & HL' & _).
  unfold ended, bind, port in Ho'. rewrite Ec. cbn [fst snd]. destruct (p_monErr w1) as [m w1'] eqn:Em.
  injection Ho' as Ho' <-.
  destruct over; injection Hk as <- <- <-; (split; [by eapply later_trans|]); (split; [unfold stopped; auto|]);
    (split; [done|]); [done|]. intros _. by destruct m.
Qed.

(** [Sleep] answers its context's error only after that context ended. *)
Definition SleepLaw (w : W) : Prop := forall d w1 err w2, later w w1 -> p_Sleep d w1 = (Some err, w2) ->
  fst (p_callerErr w2) <> None \/ fst (p_monErr (snd (p_callerErr w2))) <> None.

Lemma SleepLaw_later w w' : later w w' -> SleepLaw w -> SleepLaw w'.
Proof. intros HL HS d w1 err w2 HL' Es. eapply HS; [|exact Es]. by eapply later_trans. Qed.

Lemma pause_run p e w r e' w' : pause p e w = (r, e', w') ->
  later w w' /\ stopped w r e e' /\
  (SleepLaw w -> forall err, snd r = Some err -> callerGave w err).
Proof.
  unfold pause. intros (t & e1 & w1 & (-> & HL & _)%Now_run & Hk)%bind_inv.
  assert (forall r, stop e w1 = (r, e', w') ->
    later w w' /\ stopped w r e e' /\ forall err, snd r = Some err -> callerGave w err) as Hstop.
  { intros r0 (HL' & HS & HG & _)%stop_run. split; [by eapply later_trans|]. split; [done|].
    intros err E. by eapply callerGave_later, HG. }
  destruct (0 <? _).
  - apply bind_inv in Hk as (slept & e2 & w2 & [-> Es]%port_inv & Hk).
    assert (later w w2) as HL2 by (eapply later_trans; [exact HL|]; eapply later_call; [|exact Es]; by constructor).
    destruct slept as [err|].
    + apply bind_inv in Hk as (s & e3 & w3 & Hs & Hk). pose proof Hs as (HL' & HS & HG & HF)%stop_run.
      injection Hk as <- <- <-. split; [by eapply later_trans|]. destruct s as [[] o]; cbn [fst snd] in *.
      * split; [exact HS|]. intros _ err' E. by eapply callerGave_later, HG.
      * split; [left; exists err; destruct HS as [(? & ? & ?)|[[? ?]|[_ ->]]]; done|].
        intros Hsleep. exfalso. destruct (HF eq_refl) as [F1 F2]. by destruct (Hsleep _ _ _ _ HL Es).
    + apply stop_run in Hk as (HL' & HS & HG & _). split; [by eapply later_trans|]. split; [done|].
      intros _ err E. by eapply callerGave_later, HG.
  - destruct (Hstop _ Hk) as (? & ? & ?). auto.
Qed.

(** How the sampling loop ends without an error: it was cut short by the budget, a
    pressure was confirmed, nothing is pending after an interval, or every tick ran. *)
Definition settled (ticks : nat) (prev : option snapshot) (snaps : list snapshot) (E e' : evaluator) : Prop :=
  e' = evExpire ReasonDeadline E \/
  (e' = E /\ (evConfirmed E = true \/
              (evPending E = false /\ snaps <> [] /\ (prev <> None \/ (2 <= length snaps)%nat)) \/
              length snaps = ticks)).

Lemma sampleLoop_run ticks target prev e w r e' w' :
  sampleLoop ticks target prev e w = (r, e', w') ->
  exists snaps, Sampled target w snaps w' /\ (length snaps <= ticks)%nat /\
    (r = None -> settled ticks prev snaps (stepAll prev snaps e) e') /\
    (SleepLaw w -> forall err, r = Some err -> callerGave w err).
Proof.
  revert prev e w r e' w'. induction ticks as [|ticks IH]; intros prev e w r e' w'; cbn [sampleLoop].
  { intros [= <- <- <-]. exists []. split; [repeat constructor|]. split; [done|]. split; [|done].
    intros _. right. auto. }
  intros (b & e1 & w1 & Hb & Hk)%bind_inv.
  assert (later w w1 /\ stopped w b e e1 /\ (SleepLaw w -> forall err, snd b = Some err -> callerGave w err))
    as (HL & HS & HG).
  { destruct prev as [p|]; [by apply pause_run in Hb|]. apply stop_run in Hb as (? & ? & ? & _). auto. }
  destruct b as [[] o]; cbn [fst snd] in *.
  { injection Hk as <- <- <-. exists []. split; [by constructor|]. split; [cbn; lia|]. split; [|done].
    intros ->. left. by destruct HS as [(? & ? & ?)|[[_ ->]|[? ?]]]. }
  assert (e1 = e) as -> by (by destruct HS as [(? & ? & ?)|[[? ?]|[_ ->]]]). clear HS HG.
  apply bind_inv in Hk as (seen & e2 & w2 & [-> Ho]%port_inv & Hk).
  apply bind_inv in Hk as (t & e3 & w3 & (-> & HL3 & Hn)%Now_run & Hk). cbv zeta in Hk.
  assert (later w1 w2) as HL2 by (eapply later_call; [|exact Ho]; by constructor).
  apply bind_inv in Hk as (a & e4 & w4 & (HL4 & HS & HG & _)%stop_run & Hk).
  assert (later w w3) as HLw3 by (eapply later_trans; [exact HL|]; by eapply later_trans).
  destruct a as [[] o2]; cbn [fst snd] in *.
  { injection Hk as <- <- <-. exists []. split; [constructor; by eapply later_trans|]. split; [cbn; lia|]. split.
    - intros ->. left. by destruct HS as [(? & ? & ?)|[[_ ->]|[? ?]]].
    - intros _ err E. by eapply callerGave_later, HG. }
  assert (e4 = e) as -> by (by destruct HS as [(? & ? & ?)|[[? ?]|[_ ->]]]). clear HS HG.
  set (cur := stamp t seen) in *.
  apply bind_inv in Hk as ([] & e5 & w5 & [= <- <-] & Hk).
  apply bind_inv in Hk as (e6 & e7 & w6 & [= <- <- <-] & Hk).
  destruct (evConfirmed (step prev cur e) || _) eqn:Ed.
  - injection Hk as <- <- <-. exists [cur].
    split; [eapply Sampled_cons; [exact HL|exact Ho|exact Hn|by constructor]|]. split; [cbn; lia|]. split; [|done].
    intros _. right. split; [done|]. cbn [stepAll]. apply orb_true_iff in Ed as [Ed|Ed]; [by left|right; left].
    destruct prev as [p|]; [|done]. split; [by apply negb_true_iff|]. split; [done|by left].
  - apply IH in Hk as (snaps & HSm & Hlen & Hset & HG). exists (cur :: snaps).
    split; [eapply Sampled_cons; [exact HL|exact Ho|exact Hn|by eapply Sampled_later]|].
    split; [cbn; lia|]. cbn [stepAll]. split.
    + intros ->. destruct (Hset eq_refl) as [->|[-> Hd]]; [by left|right]. split; [done|].
      destruct Hd as [Hd|[(Hp & Hs & _)|Hd]]; [by left| |right; right; cbn; by rewrite Hd].
      right. left. split; [done|]. split; [done|]. right. destruct snaps; [done|]. cbn. lia.
    + intros Hlaw err E. assert (later w w4) as HLw4 by (by eapply later_trans).
      apply (callerGave_later _ w4); [done|]. apply HG; [|done]. by eapply SleepLaw_later.
Qed.

(** The resolver answered this target at some point. *)
Definition resolvedAt (w : W) (t : Target) : Prop :=
  exists f w1, p_ResolveTarget = Some f /\ later w w1 /\ fst (f w1) = Ok t.

Lemma resolve_run e w r e' w' : resolve e w = (r, e', w') ->
  e' = e /\ later w w' /\ (forall err, r = Err err -> callerGave w err) /\
  (forall t, r = Ok (Some t) -> valid t = true /\ resolvedAt w t).
Proof.
  unfold resolve. destruct p_ResolveTarget as [f|] eqn:Ef;
    [|intros [= <- <- <-]; split; [done|]; split; [constructor|done]].
  intros (a & e1 & w1 & [-> Ha]%port_inv & Hk)%bind_inv.
  assert (later w w1) as HL1.
  { replace w1 with (snd (f w)) by (by rewrite Ha). eapply later_ResolveTarget; [done|constructor]. }
  apply bind_inv in Hk as (c & e2 & w2 & (-> & HL2 & Hg)%callerErr_run & Hk).
  destruct c as [err|].
  { injection Hk as <- <- <-. split; [done|]. split; [by eapply later_trans|]. split; [|done].
    intros ? [= <-]. eapply callerGave_later; [exact HL1|by apply Hg]. }
  apply bind_inv in Hk as (u & e3 & w3 & Hu & Hk). injection Hk as <- <- <-.
  assert (e3 = e /\ later w2 w3 /\ (forall t, a = Ok t -> u = true -> valid t = true)) as (-> & HL3 & Hv).
  { destruct a as [t|]; [|injection Hu as <- <- <-; split; [done|]; split; [constructor|done]].
    apply bind_inv in Hu as (o & e4 & w4 & (-> & HL4 & _)%ended_run & Hu). injection Hu as <- <- <-.
    split; [done|]. split; [done|]. intros ? [= <-]. by intros [_ ->]%andb_true_iff. }
  split; [done|]. split; [eapply later_trans; [exact HL1|]; by eapply later_trans|]. split; [done|].
  intros t Ht. destruct a as [t0|]; [|done]. destruct u; [|done]. injection Ht as ->. split; [by apply Hv|].
  exists f, w. split; [done|]. split; [constructor|]. by rewrite Ha.
Qed.

Lemma revalidate_run before e w r e' w' : revalidate before e w = (r, e', w') ->
  later w w' /\ (forall err, r = Some err -> callerGave w err) /\
  (r = None -> (e' = e /\ resolvedAt w before) \/ exists reason, reason <> NoReason /\ e' = invalidateTarget reason e).
Proof.
  unfold revalidate. intros (o & e1 & w1 & (-> & HL1 & _)%ended_run & Hk)%bind_inv. destruct o.
  { apply bind_inv in Hk as ([] & e2 & w2 & [= <- <-] & (-> & HL2 & Hg)%callerErr_run).
    split; [by eapply later_trans|]. split; [|intros _; right; by exists ReasonDeadline].
    intros err ->. eapply callerGave_later; [exact HL1|by apply Hg]. }
  apply bind_inv in Hk as (a & e2 & w2 & (-> & HL2 & Hg & Ht)%resolve_run & Hk).
  destruct a as [after|err].
  2: { injection Hk as <- <- <-. split; [by eapply later_trans|]. split; [|done].
       intros ? [= <-]. eapply callerGave_later; [exact HL1|by apply Hg]. }
  apply bind_inv in Hk as (o & e3 & w3 & (-> & HL3 & _)%ended_run & Hk).
  assert (later w w3) as HL by (eapply later_trans; [exact HL1|]; by eapply later_trans).
  destruct o; [|destruct after as [t|]; [case_bool_decide as Et; cbn [negb] in Hk|]].
  all: try (apply bind_inv in Hk as ([] & e4 & w4 & [= <- <-] & Hk)); injection Hk as <- <- <-.
  all: split; [done|]; split; [done|]; intros _.
  1: right; by exists ReasonDeadline.
  2: right; by exists ReasonTargetChanged.
  2: right; by exists ReasonTargetUnavailable.
  left. split; [done|]. subst t. destruct (Ht _ eq_refl) as (_ & f & w5 & Ef & HL5 & E5).
  exists f, w5. split; [done|]. split; [exact (later_trans _ _ _ HL1 HL5)|done].
Qed.

(** What a check that answered an assessment did. *)
Definition startEvaluator : evaluator := expect unsampled newEvaluator.

Inductive checked (w : W) (a : Assessment) (w' : W) : Prop :=
| checked_critical w1 m t :
    later w w1 -> fst (p_hostMemory w1) = m -> oc_state (hostMemoryOutcome m) = outcomeCritical ->
    a = NewAssessment t zeroScope
          (findings (setHostMemory (record (hostMemoryOutcome m) newTrack) newEvaluator)) ->
    checked w a w'
| checked_sampled target snaps w1 F G t :
    (forall tg, target = Some tg -> valid tg = true /\ resolvedAt w tg) ->
    Sampled target w snaps w1 -> later w1 w' -> (length snaps <= 4)%nat ->
    settled 4 None snaps (stepAll None snaps startEvaluator) F ->
    (G = F /\ (forall tg, target = Some tg -> resolvedAt w1 tg)) \/
    (exists reason, reason <> NoReason /\ G = invalidateTarget reason F) ->
    a = NewAssessment t (runScope target G) (findings G) ->
    checked w a w'.

Lemma sample_run target w r e' w' : sample target newEvaluator w = (r, e', w') ->
  exists snaps, Sampled target w snaps w' /\ (length snaps <= 4)%nat /\
    (r = None -> settled 4 None snaps (stepAll None snaps startEvaluator) e') /\
    (SleepLaw w -> forall err, r = Some err -> callerGave w err).
Proof. unfold sample. intros ([] & e1 & w1 & [= <- <-] & Hk)%bind_inv. by apply sampleLoop_run in Hk. Qed.

Lemma resolvedAt_later w0 w t : later w0 w -> resolvedAt w t -> resolvedAt w0 t.
Proof.
  intros HL (f & w1 & Ef & HL1 & E1). exists f, w1. split; [done|]. split; [exact (later_trans _ _ _ HL HL1)|done].
Qed.

Lemma executeFor_run target w r e' w' :
  (forall tg, target = Some tg -> valid tg = true) ->
  executeFor target newEvaluator w = (r, e', w') ->
  (forall a w0, r = Ok a -> later w0 w -> (forall tg, target = Some tg -> resolvedAt w0 tg) -> checked w0 a w') /\
  (SleepLaw w -> forall err, r = Err err -> callerGave w err).
Proof.
  intros Hvalid. unfold executeFor. intros (f & e1 & w1 & (snaps & HS & Hlen & Hset & HG)%sample_run & Hk)%bind_inv.
  destruct f as [err|]; [injection Hk as <- <- <-; split; [done|]; intros HL ? [= <-]; by apply HG|].
  specialize (Hset eq_refl). apply bind_inv in Hk as (c & e2 & w2 & Hc & Hk).
  assert (later w1 w2 /\ (forall err, c = Some err -> callerGave w1 err) /\
          (c = None -> (e2 = e1 /\ (forall tg, target = Some tg -> resolvedAt w1 tg)) \/
                       exists reason, reason <> NoReason /\ e2 = invalidateTarget reason e1)) as (HL2 & Hg & Hv).
  { destruct target as [t|]; [|injection Hc as <- <- <-; split; [constructor|]; split; [done|]; by left].
    apply revalidate_run in Hc as (? & ? & Hr). split; [done|]. split; [done|]. intros ->.
    destruct (Hr eq_refl) as [[-> ?]|?]; [left|by right]. split; [done|]. by intros ? [= <-]. }
  pose proof (Sampled_end _ _ _ _ HS) as HL1.
  destruct c as [err|].
  { injection Hk as <- <- <-. split; [done|]. intros _ ? [= <-]. eapply callerGave_later; [exact HL1|by apply Hg]. }
  apply bind_inv in Hk as (t & e3 & w3 & (-> & HL3 & _)%Now_run & Hk).
  apply bind_inv in Hk as (e4 & e5 & w4 & [= <- <- <-] & Hk). injection Hk as <- <- <-.
  split; [|done]. intros a w0 [= <-] HL0 Hr0.
  eapply (checked_sampled w0 _ w3 target snaps w1 e1 e2); [|by eapply Sampled_later| |done|done|by apply Hv|done].
  - intros tg E. split; [by apply Hvalid|by apply Hr0].
  - exact (later_trans _ _ _ HL2 HL3).
Qed.

Lemma checked_later w0 w a w' : later w0 w -> checked w a w' -> checked w0 a w'.
Proof.
  intros HL [w1 m t HL1 Hm Hc Ha|target snaps w1 F G t Ht HS HL1 Hlen Hset HG Ha].
  - eapply checked_critical; [by eapply later_trans|done..].
  - eapply checked_sampled; [|by eapply Sampled_later|done..]. intros tg E. destruct (Ht tg E) as [? ?].
    split; [done|]. by eapply resolvedAt_later.
Qed.

Lemma execute_run w r e' w' : execute newEvaluator w = (r, e', w') ->
  (forall a, r = Ok a -> checked w a w') /\ (SleepLaw w -> forall err, r = Err err -> callerGave w err).
Proof.
  unfold execute. intros (c & e1 & w1 & Hc & Hk)%bind_inv. unfold criticalPrecheck in Hc.
  apply bind_inv in Hc as (m & e2 & w2 & [-> Hm]%port_inv & Hc).
  assert (later w w2) as HL2 by (eapply later_call; [|exact Hm]; by constructor).
  apply bind_inv in Hc as (x & e3 & w3 & (-> & HL3 & Hg)%callerErr_run & Hc).
  destruct x as [err|].
  { injection Hc as <- <- <-. injection Hk as <- <- <-. split; [done|]. intros _ ? [= <-].
    eapply callerGave_later; [exact HL2|by apply Hg]. }
  cbv zeta in Hc. case_bool_decide as Ecrit; cbn [negb] in Hc.
  - apply bind_inv in Hc as ([] & e4 & w4 & [= <- <-] & Hc).
    apply bind_inv in Hc as (t & e5 & w5 & (-> & _ & _)%Now_run & Hc).
    apply bind_inv in Hc as (e6 & e7 & w6 & [= <- <- <-] & Hc). injection Hc as <- <- <-.
    injection Hk as <- <- <-. split; [|done]. intros a [= <-].
    eapply (checked_critical w _ _ w m t); [constructor|by rewrite Hm|done|done].
  - injection Hc as <- <- <-. assert (later w w3) as HLw by (by eapply later_trans).
    apply bind_inv in Hk as (o & e4 & w4 & Ho & Hk).
    assert (e4 = newEvaluator /\ later w3 w4) as [-> HL4].
    { destruct p_usesTarget; [by apply ended_run in Ho as (? & ? & _)|]. injection Ho as <- <- <-. split; [done|constructor]. }
    apply bind_inv in Hk as (t & e5 & w5 & Ht & Hk).
    assert (e5 = newEvaluator /\ later w4 w5 /\ (forall err, t = Err err -> callerGave w4 err) /\
            forall tg, t = Ok (Some tg) -> valid tg = true /\ resolvedAt w4 tg) as (-> & HL5 & HG & Htg).
    { destruct (negb o); [by apply resolve_run in Ht|].
      injection Ht as <- <- <-. split; [done|]. split; [constructor|done]. }
    assert (later w w5) as HLw5 by exact (later_trans _ _ _ HLw (later_trans _ _ _ HL4 HL5)).
    destruct t as [t|err].
    + apply executeFor_run in Hk as [Ha He]; [|intros tg ->; by apply Htg]. split.
      * intros a E. apply Ha; [done|done|]. intros tg ->. eapply resolvedAt_later; [|by apply Htg].
        exact (later_trans _ _ _ HLw HL4).
      * intros HL err E. eapply callerGave_later; [exact HLw5|]. apply He; [by eapply SleepLaw_later|done].
    + injection Hk as <- <- <-. split; [done|]. intros _ ? [= <-].
      eapply callerGave_later; [|by apply HG]. exact (later_trans _ _ _ HLw HL4).
Qed.

Lemma RunCheck_run w r w' : RunCheck w = (r, w') ->
  (forall a, r = Ok a -> checked w a w') /\ (SleepLaw w -> forall err, r = Err err -> callerGave w err).
Proof.
  unfold RunCheck. destruct (p_callerErr w) as [c w1] eqn:Ec.
  assert (later w w1) as HL by (eapply later_call; [|exact Ec]; by constructor).
  destruct c as [err|].
  { intros [= <- <-]. split; [done|]. intros _ ? [= <-]. exists w. split; [constructor|by rewrite Ec]. }
  destruct (execute newEvaluator w1) as [[r0 e0] w2] eqn:Ex. intros [= <- <-].
  apply execute_run in Ex as [Ha He]. split.
  - intros a E. by eapply checked_later, Ha.
  - intros Hlaw err E. eapply callerGave_later; [exact HL|]. apply He; [by eapply SleepLaw_later|done].
Qed.
End run.
