(* ===== verification/ResourceTheorems.v ===== *)
(** * Theorems of the resource check

    What a reported pressure and a clear status are evidence of, when a target's
    metrics survive, and when a check fails; then the classification rules. *)
From S2P Require Import Prelude GoErrors GoTime GoText GoFloat TaskTypes ResourcePolicy ResourceChecker.
From S2P Require Import ResourceCheckerProps ResourceRun.

(** The evidence of a pressure: a critical host memory sample, or four samples whose
    three intervals all gave a hot verdict for the metric. *)
Definition evidence (m : Metric) (b : Basis) (snaps : list snapshot) : Prop :=
  match b with
  | BasisCritical => m = MetricHostMemory /\
      exists s, s ∈ snaps /\ oc_state (hostMemoryOutcome (sn_memory s)) = outcomeCritical
  | BasisSustained => exists s0 s1 s2 s3, snaps = [s0; s1; s2; s3] /\
      hot (verdict m s0 s1) /\ hot (verdict m s1 s2) /\ hot (verdict m s2 s3)
  end.

(** ** Lemmas *)
Section lemmas.
Context {W : Type} `{Ports W}.

Lemma start_fresh m : fresh (trackOf m startEvaluator) /\ tr_critical (trackOf m startEvaluator) = false.
Proof. by destruct m. Qed.

Lemma verdicts_elem m p snaps o : o ∈ verdicts m p snaps -> exists q s, s ∈ snaps /\ o = verdict m q s.
Proof.
  revert p. induction snaps as [|s snaps IH]; intros p; cbn; [by intros ?%elem_of_nil|].
  rewrite elem_of_cons. intros [->|(q & s' & Hs & ->)%IH]; [exists p, s; split; [by left|done]|].
  exists q, s'. split; [by right|done].
Qed.

Lemma track_evidence m b s0 rest : (length rest <= 3)%nat ->
  pressureOf (trackOf m (stepAll None (s0 :: rest) startEvaluator)) = Some b -> evidence m b (s0 :: rest).
Proof.
  intros Hlen. cbn [stepAll]. rewrite trackOf_stepAll, trackOf_first. destruct (start_fresh m) as [HF Hc].
  unfold pressureOf. destruct (tr_critical (records _ _)) eqn:Ec.
  - intros [= <-]. cbn [evidence]. destruct (tr_critical (firstTrack m s0 (trackOf m startEvaluator))) eqn:E1.
    + assert (m = MetricHostMemory) as -> by (destruct m; cbn in E1, Hc; congruence).
      split; [done|]. exists s0. split; [by left|]. cbn in E1. unfold baseline, record in E1.
      by destruct (oc_state _).
    + destruct (records_critical _ _ E1 Ec) as (o & Ho & Eo). apply verdicts_elem in Ho as (q & s & Hs & ->).
      pose proof (verdict_critical _ _ _ Eo) as ->. split; [done|]. exists s. split; [by right|exact Eo].
  - destruct (tr_sustained _) eqn:Es; [|done]. intros [= <-].
    apply records_sustained in Es as [Hl Hhot]; [|by apply firstTrack_fresh|by rewrite length_verdicts].
    rewrite length_verdicts in Hl. destruct rest as [|s1 [|s2 [|s3 [|]]]]; try done.
    cbn [verdicts] in Hhot. apply Forall_cons in Hhot as [H1 Hhot]. apply Forall_cons in Hhot as [H2 Hhot].
    apply Forall_cons in Hhot as [H3 _]. by exists s0, s1, s2, s3.
Qed.

Lemma pressureOf_expire r t : pressureOf (expire r t) = pressureOf t.
Proof. unfold expire. by destruct (_ && _). Qed.

Lemma pressureOf_invalidate r t b : pressureOf (invalidate r t) = Some b -> pressureOf t = Some b.
Proof. unfold invalidate. by destruct (tr_seen t). Qed.

Lemma settled_pressure ticks prev snaps E F m : settled ticks prev snaps E F ->
  pressureOf (trackOf m F) = pressureOf (trackOf m E).
Proof. intros [->|[-> _]]; [|done]. by rewrite trackOf_expire, pressureOf_expire. Qed.

Lemma start_pressure m : pressureOf (trackOf m startEvaluator) = None.
Proof. by destruct m. Qed.

Lemma settled_evidence snaps F m b : (length snaps <= 4)%nat ->
  settled 4 None snaps (stepAll None snaps startEvaluator) F ->
  pressureOf (trackOf m F) = Some b -> evidence m b snaps.
Proof.
  intros Hlen Hset. rewrite (settled_pressure _ _ _ _ _ _ Hset). destruct snaps as [|s0 rest].
  - cbn [stepAll]. by rewrite start_pressure.
  - apply track_evidence. cbn in Hlen. lia.
Qed.

(** A clear metric was not invalidated, and not expired unless it was never seen. *)
Lemma clear_invalidate r t : r <> NoReason -> unavailableOf (invalidate r t) = None -> invalidate r t = t.
Proof.
  unfold invalidate, unavailableOf. destruct (tr_seen t) eqn:Es; cbn; [|done].
  intros Hr. by rewrite bool_decide_false.
Qed.

Lemma clear_expire r t : r <> NoReason -> pressureOf (expire r t) = None -> unavailableOf (expire r t) = None ->
  tr_seen t = false.
Proof.
  rewrite pressureOf_expire. intros Hr Hp. unfold expire. destruct (tr_seen t) eqn:Es; [|done].
  unfold pressureOf in Hp. unfold unavailableOf, confirmed.
  destruct (tr_critical t) eqn:E1, (tr_sustained t) eqn:E2; try done.
  cbn. rewrite ?Es, ?E1, ?E2. cbn. by rewrite bool_decide_false.
Qed.

Lemma clear_judged m s0 rest :
  let t := trackOf m (stepAll None (s0 :: rest) startEvaluator) in
  pressureOf t = None -> unavailableOf t = None ->
  Forall judged (verdicts m s0 rest) /\ (m = MetricHostMemory -> judged (hostMemoryOutcome (sn_memory s0))).
Proof.
  cbv zeta. cbn [stepAll]. rewrite trackOf_stepAll, trackOf_first. set (t0 := firstTrack _ _ _).
  intros Hp Hu. unfold pressureOf in Hp. destruct (tr_critical _) eqn:Ec; [done|].
  destruct (tr_sustained _) eqn:Es; [done|]. unfold unavailableOf, confirmed in Hu. rewrite Ec, Es in Hu. cbn in Hu.
  assert (Forall judged (verdicts m s0 rest) /\
          (tr_seen t0 = false \/ (tr_unknown t0 = NoReason /\ tr_critical t0 = false))) as [HJ H0].
  { destruct (tr_seen (records (verdicts m s0 rest) t0)) eqn:Eseen; cbn in Hu.
    - case_bool_decide as En; [|done]. pose proof (verdicts_explained m s0 rest) as HE.
      destruct (records_judged _ _ HE Ec En) as (? & ? & ?). auto.
    - destruct (records_unseen _ _ Eseen) as [E HJ]. rewrite E in Eseen. auto. }
  split; [done|]. intros ->. unfold t0, firstTrack, baseline, record in H0.
  pose proof (hostMemory_explained (sn_memory s0)) as HE. unfold explained, judged in *.
  destruct (hostMemoryOutcome (sn_memory s0)) as [[] r] eqn:Eo; cbn in H0, HE |- *; auto.
  - destruct H0 as [|[H0 _]]; [done|]. by destruct (HE eq_refl).
  - destruct H0 as [|[H0 _]]; [done|]. destruct (decide (r = NoReason)) as [->|Er]; [auto|].
    rewrite bool_decide_false in H0 by done. done.
  - destruct H0 as [|[_ H0]]; done.
Qed.

Lemma clear_last m s0 rest o :
  let t := trackOf m (stepAll None (s0 :: rest) startEvaluator) in
  pressureOf t = None -> pending t = false -> last (verdicts m s0 rest) = Some o -> ~ hot o.
Proof.
  cbv zeta. cbn [stepAll]. rewrite trackOf_stepAll, trackOf_first. intros Hp Hq Hl.
  apply last_Some in Hl as (os & E). rewrite E in *. eapply pending_last; [|exact Hq|].
  - apply firstTrack_fresh, start_fresh.
  - unfold pressureOf in Hp. unfold confirmed. destruct (tr_critical _); [done|]. by destruct (tr_sustained _).
Qed.

(** Nothing on a platform without the metric. *)
Lemma unseen_first m s0 rest :
  tr_seen (trackOf m (stepAll None (s0 :: rest) startEvaluator)) = false -> seenIn m s0 = false.
Proof.
  cbn [stepAll]. rewrite trackOf_stepAll, trackOf_first. intros E. pose proof E as [E' _]%records_unseen. rewrite E' in E. revert E.
  destruct m; cbn; try done. unfold baseline, record. destruct (oc_state _); done.
Qed.
End lemmas.

(** ** The check *)
Section check.
Context {W : Type} `{Ports W}.

(** C37: A pressure is never reported without its evidence: either the precheck read
    critical host memory, or the check took at most four samples and the metric
    was critical in one of them or hot over all three intervals of four samples.
    The only metric with a critical rule is host memory. *)
Theorem pressure_has_evidence w a w' m b :
  RunCheck w = (Ok a, w') -> (m, b) ∈ fi_Pressures (as_findings a) ->
  (m = MetricHostMemory /\ b = BasisCritical /\
   exists w1, later w w1 /\ oc_state (hostMemoryOutcome (fst (p_hostMemory w1))) = outcomeCritical) \/
  exists target snaps w1, Sampled target w snaps w1 /\ later w1 w' /\ (length snaps <= 4)%nat /\ evidence m b snaps.
Proof.
  intros [Ha _]%RunCheck_run Hp.
  destruct (Ha a eq_refl) as [w1 r t HL Hr Hc ->|target snaps w1 F G t Ht HS HL Hlen Hset HG ->].
  - left. apply elem_of_pressures in Hp. unfold record in Hp. rewrite Hc in Hp.
    destruct m; try discriminate Hp. injection Hp as <-. split; [done|]. split; [done|].
    exists w1. by rewrite Hr.
  - right. exists target, snaps, w1. do 3 (split; [done|]). apply elem_of_pressures in Hp.
    apply (settled_evidence _ F); [done..|]. destruct HG as [[-> _]|(reason & _ & ->)]; [done|].
    rewrite trackOf_invalidate in Hp. destruct (targeted m); [by eapply pressureOf_invalidate|done].
Qed.

(** A clear status means that everything was judged: no verdict of any metric
    over any sampled interval was unknown or critical or clear with a gap in its
    evidence, the baseline memory included; and, where the platform has a metric at
    all, at least one interval was sampled and either no metric's last verdict was
    hot or all three intervals were used. *)
Theorem clear_means_judged w a w' :
  RunCheck w = (Ok a, w') -> AssessmentStatus a = StatusClear ->
  exists target s0 rest w1, Sampled target w (s0 :: rest) w1 /\ later w1 w' /\ (length rest <= 3)%nat /\
    judged (hostMemoryOutcome (sn_memory s0)) /\
    (forall m, Forall judged (verdicts m s0 rest)) /\
    ((forall m, seenIn m s0 = false) \/
     (rest <> [] /\
      (length rest = 3%nat \/ forall m o, last (verdicts m s0 rest) = Some o -> ~ hot o))).
Proof.
  intros [Ha _]%RunCheck_run Hs.
  destruct (Ha a eq_refl) as [w1 r t HL Hr Hc ->|target snaps w1 F G t Ht HS HL Hlen Hset HG ->].
  { exfalso. apply status_clear with (m := MetricHostMemory) in Hs as [Hp _]. revert Hp. unfold record. by rewrite Hc. }
  rewrite status_clear in Hs.
  assert (forall m, trackOf m G = trackOf m F) as HGF.
  { intros m. destruct HG as [[-> _]|(reason & Hr & ->)]; [done|]. rewrite trackOf_invalidate.
    destruct (targeted m) eqn:Et; [|done]. destruct (Hs m) as [_ Hu]. rewrite trackOf_invalidate, Et in Hu.
    by apply clear_invalidate. }
  assert (forall m, pressureOf (trackOf m F) = None /\ unavailableOf (trackOf m F) = None) as HF.
  { intros m. rewrite <- HGF. apply Hs. }
  set (E := stepAll None snaps startEvaluator) in *.
  assert (forall m, pressureOf (trackOf m E) = None) as HE.
  { intros m. rewrite <- (settled_pressure _ _ _ _ _ m Hset). apply HF. }
  assert (forall m, unavailableOf (trackOf m E) = None) as HU.
  { intros m. destruct Hset as [->|[-> _]]; [|apply HF]. destruct (HF m) as [Hp Hu]. rewrite trackOf_expire in Hp, Hu.
    unfold unavailableOf. rewrite (clear_expire ReasonDeadline _ ltac:(done) Hp Hu). by destruct (confirmed _). }
  destruct snaps as [|s0 rest].
  { exfalso. destruct Hset as [->|[_ [Hc|[(_ & ? & _)|?]]]]; [|by cbn in Hc|done..].
    destruct (HF MetricHostCPU) as [_ Hu]. by cbn in Hu. }
  exists target, s0, rest, w1. do 2 (split; [done|]). split; [cbn in Hlen; lia|].
  split; [by apply (clear_judged MetricHostMemory s0 rest (HE _) (HU _))|].
  split; [intros m; by apply (clear_judged m s0 rest (HE _) (HU _))|].
  destruct Hset as [->|[-> Hd]].
  - left. intros m. destruct (HF m) as [Hp Hu]. rewrite trackOf_expire in Hp, Hu.
    apply (unseen_first m s0 rest). by apply (clear_expire ReasonDeadline).
  - right. destruct Hd as [Hc|[(Hq & _ & Hl)|Hl]].
    + exfalso. unfold evConfirmed in Hc. assert (forall m, confirmed (trackOf m E) = false) as Hn.
      { intros m. specialize (HE m). unfold pressureOf in HE. unfold confirmed. destruct (tr_critical _); [done|].
        by destruct (tr_sustained _). }
      pose proof (Hn MetricHostCPU). pose proof (Hn MetricHostMemory). pose proof (Hn MetricCgroupCPU).
      pose proof (Hn MetricCgroupMemory). cbn [trackOf] in *. by rewrite H0, H1, H2, H3 in Hc.
    + split; [destruct Hl as [Hl|Hl]; [done|destruct rest; [cbn in Hl; lia|done]]|]. right. intros m o Ho.
      eapply clear_last; [apply HE| |exact Ho]. unfold evPending in Hq. fold E. bool_prop. by destruct m.
    + cbn in Hl. split; [destruct rest; [done|done]|]. left. lia.
Qed.

(** A cgroup pressure is only ever reported of the target the check reports: the
    target resolved and valid before sampling, the one sampled, and the one the
    resolver still answered after sampling.  (A nil target has no cgroup reading.) *)
Theorem cgroup_pressure_of_target w a w' m b :
  (forall w1, rd_ok (sn_cgroup (fst (p_observe None w1))) = false) ->
  RunCheck w = (Ok a, w') -> (m, b) ∈ fi_Pressures (as_findings a) -> targeted m = true ->
  exists target snaps w1 path, Sampled (Some target) w snaps w1 /\ later w1 w' /\
    valid target = true /\ resolvedAt w target /\ resolvedAt w1 target /\
    as_scope a = scopeOf target path.
Proof.
  intros Hnil [Ha _]%RunCheck_run Hp Hm.
  destruct (Ha a eq_refl) as [w1 r t HL Hr Hc ->|target snaps w1 F G t Ht HS HL Hlen Hset HG ->];
    apply elem_of_pressures in Hp.
  { unfold record in Hp. rewrite Hc in Hp. by destruct m. }
  assert (G = F /\ forall tg, target = Some tg -> resolvedAt w1 tg) as [-> Hafter].
  { destruct HG as [?|(reason & _ & ->)]; [done|]. exfalso.
    rewrite trackOf_invalidate, Hm in Hp. assert (pressureOf (trackOf m F) = Some b) as HpF by
      by eapply pressureOf_invalidate. revert Hp HpF. unfold invalidate. destruct (tr_seen (trackOf m F)) eqn:Es; [done|].
    intros _ HpF. rewrite (settled_pressure _ _ _ _ _ _ Hset) in HpF.
    destruct snaps as [|s0 rest]; [cbn [stepAll] in HpF; by rewrite start_pressure in HpF|].
    assert (tr_seen (trackOf m (stepAll None (s0 :: rest) startEvaluator)) = false) as Es0.
    { destruct Hset as [->|[-> _]]; [|done]. rewrite trackOf_expire in Es. unfold expire in Es.
      destruct (_ && _) eqn:Ex; [|done]. cbn in Es. done. }
    revert HpF Es0. cbn [stepAll]. rewrite trackOf_stepAll, trackOf_first. intros HpF Es0.
    pose proof (records_unseen _ _ Es0) as [E _]. rewrite E in HpF. by destruct m. }
  pose proof (settled_evidence _ _ _ _ Hlen Hset Hp) as Hev.
  destruct target as [tg|].
  { destruct (Ht tg eq_refl) as [Hv Hb]. exists tg, snaps, w1, (ev_cgroupPath F). do 4 (split; [done|]).
    split; [by apply Hafter|done]. }
  exfalso. destruct b; cbn [evidence] in Hev; [|destruct Hev as [-> _]; done].
  destruct Hev as (s0 & s1 & s2 & s3 & -> & H1 & _).
  assert (rd_ok (sn_cgroup s1) = false) as Hno.
  { inversion HS as [|wa seen wb ta wc rest wd _ Ho _ HS1 E1]. subst. inversion HS1 as [|wa' seen' wb' ta' wc' rest' wd' _ Ho' _ _ E1]. subst.
    cbn. replace seen' with (fst (p_observe None wa')) by (by rewrite Ho'). apply Hnil. }
  assert (forall o, cgroupPair (sn_cgroup s0) (sn_cgroup s1) (Sub (sn_at s1) (sn_at s0)) = Some o ->
            oc_state o <> outcomeHot) as Hpair.
  { unfold cgroupPair. rewrite Hno. intros o. destruct (_ || _); cbn; by intros [= <-]. }
  unfold hot, verdict, cgroupCPUOutcome, cgroupMemoryOutcome in H1.
  destruct (cgroupPair (sn_cgroup s0) (sn_cgroup s1) _) as [o|] eqn:Eo;
    [destruct m; try discriminate Hm; by apply (Hpair o)|].
  revert Eo. unfold cgroupPair. rewrite Hno. by destruct (_ || _).
Qed.

(** A check fails only with an error of the caller's own context; an ended budget,
    an unresolvable target and unreadable metrics never fail it. *)
Theorem check_fails_only_for_caller w err w' :
  SleepLaw w -> RunCheck w = (Err err, w') -> callerGave w err.
Proof. intros HL [_ He]%RunCheck_run. by apply He. Qed.

(** Critical host memory is refused at once: nothing else is read, and the
    assessment is exactly that pressure. *)
Theorem critical_memory_refused_first w w1 r w2 w3 :
  p_callerErr w = (None, w1) -> p_hostMemory w1 = (r, w2) ->
  oc_state (hostMemoryOutcome r) = outcomeCritical -> p_callerErr w2 = (None, w3) ->
  RunCheck w = (Ok (NewAssessment (fst (p_Now w3)) zeroScope
                      (MkFindings [(MetricHostMemory, BasisCritical)] [] [])), snd (p_Now w3)).
Proof.
  intros E1 E2 Ec E3. unfold RunCheck. rewrite E1. unfold execute, criticalPrecheck, bind, port, evaluate, current, ret.
  rewrite E2, E3, Ec. cbv zeta. rewrite bool_decide_true by done. cbn [negb]. destruct (p_Now w3) as [t w4].
  unfold record. rewrite Ec. done.
Qed.
End check.

(** ** A scripted platform

    The world is the number of ticks observed; the clock gives that many seconds, the
    contexts never end, and the resolver answers one target. *)
Definition scripted (cpu : Z -> cpuCounters) (memory : hostMemory) : Ports Z := {|
  p_callerErr w := (None, w);
  p_monErr w := (None, w);
  p_usesTarget := true;
  p_observe target w :=
    (MkSnapshot zero_time (observed (cpu w)) (observed memory)
       (match target with
        | None => unobserved ReasonTargetUnavailable
        | Some _ => observed (MkCgroupSample "/app" (observed 0)
            [MkCgroupLevel "app" (observed (MkLevelMemory (MkLimit 0 false) (MkLimit 0 false) 0))
               (observed (MkLevelCPU (of_int 1) true 0 (w * 1000000)))] false)
        end), w + 1);
  p_hostMemory w := (observed memory, w);
  p_membership _ w := (observed "/app"%string, w);
  p_Now w := (UnixUTC (w * Second), w);
  p_Sleep _ w := (None, w);
  p_ResolveTarget := Some (fun w => (Ok (MkTarget "pid 7" 7 ""), w))
|}.

Definition calmMemory : hostMemory := MkHostMemory memorySourceAvailable (2 ^ 34) (2 ^ 33) 0.
Definition lowMemory : hostMemory := MkHostMemory memorySourceAvailable (2 ^ 34) (2 ^ 20) 0.
Definition busy (w : Z) : cpuCounters := MkCounters (of_int (99 * w)) (of_int (100 * w)).

(** The target's cgroup uses one whole CPU of the one it has. *)
Definition demoAssessment : Assessment :=
  NewAssessment (UnixUTC (4 * Second)) (MkScope "pid 7" "/app")
    (MkFindings [(MetricHostCPU, BasisSustained); (MetricCgroupCPU, BasisSustained)] [] []).

Lemma demo_check : @RunCheck Z (scripted busy calmMemory) 0 = (Ok demoAssessment, 4).
Proof. vm_compute. reflexivity. Qed.

Lemma pressure_has_evidence_witness :
  (MetricCgroupCPU = MetricHostMemory /\ BasisSustained = BasisCritical /\
   exists w1, @later Z (scripted busy calmMemory) 0 w1 /\
     oc_state (hostMemoryOutcome (fst (@p_hostMemory Z (scripted busy calmMemory) w1))) = outcomeCritical) \/
  exists target snaps w1, @Sampled Z (scripted busy calmMemory) target 0 snaps w1 /\
    @later Z (scripted busy calmMemory) w1 4 /\ (length snaps <= 4)%nat /\
    evidence MetricCgroupCPU BasisSustained snaps.
Proof.
  refine (@pressure_has_evidence Z (scripted busy calmMemory) 0 demoAssessment 4 MetricCgroupCPU BasisSustained
            demo_check _).
  cbn. apply elem_of_cons. right. apply elem_of_cons. left. reflexivity.
Defined.

Lemma cgroup_pressure_of_target_witness :
  exists target snaps w1 path, @Sampled Z (scripted busy calmMemory) (Some target) 0 snaps w1 /\
    @later Z (scripted busy calmMemory) w1 4 /\ valid target = true /\
    @resolvedAt Z (scripted busy calmMemory) 0 target /\ @resolvedAt Z (scripted busy calmMemory) w1 target /\
    MkScope "pid 7" "/app" = scopeOf target path.
Proof.
  refine (@cgroup_pressure_of_target Z (scripted busy calmMemory) 0 demoAssessment 4 MetricCgroupCPU BasisSustained
            (fun _ => eq_refl) demo_check _ eq_refl).
  cbn. apply elem_of_cons. right. apply elem_of_cons. left. reflexivity.
Defined.

(** An idle machine: the check ends after one interval. *)
Definition idleCPU (w : Z) : cpuCounters := MkCounters (of_int w) (of_int (100 * w)).

Definition idlePorts : Ports Z := {|
  p_callerErr w := (None, w); p_monErr w := (None, w); p_usesTarget := false;
  p_observe _ w := (MkSnapshot zero_time (observed (idleCPU w)) (observed calmMemory) notApplicable, w + 1);
  p_hostMemory w := (observed calmMemory, w);
  p_membership _ w := (observed ""%string, w);
  p_Now w := (UnixUTC (w * Second), w); p_Sleep _ w := (None, w); p_ResolveTarget := None
|}.

Definition idleAssessment : Assessment := NewAssessment (UnixUTC (2 * Second)) zeroScope (MkFindings [] [] []).

Lemma idle_check : @RunCheck Z idlePorts 0 = (Ok idleAssessment, 2).
Proof. vm_compute. reflexivity. Qed.

Lemma clear_means_judged_witness :
  exists target s0 rest w1, @Sampled Z idlePorts target 0 (s0 :: rest) w1 /\ @later Z idlePorts w1 2 /\
    (length rest <= 3)%nat /\ judged (hostMemoryOutcome (sn_memory s0)) /\
    (forall m, Forall judged (verdicts m s0 rest)) /\
    ((forall m, seenIn m s0 = false) \/
     (rest <> [] /\
      (length rest = 3%nat \/ forall m o, last (verdicts m s0 rest) = Some o -> ~ hot o))).
Proof. exact (@clear_means_judged Z idlePorts 0 idleAssessment 2 idle_check eq_refl). Defined.

(** A caller that gives up while the check waits for its next sample. *)
Definition cancelledPorts : Ports Z := {|
  p_callerErr w := (if 1 <=? w then Some (Sentinel context_Canceled) else None, w);
  p_monErr w := (if 1 <=? w then Some (Sentinel context_Canceled) else None, w);
  p_usesTarget := false;
  p_observe _ w := (MkSnapshot zero_time (observed (idleCPU w)) (observed calmMemory) notApplicable, w);
  p_hostMemory w := (observed calmMemory, w);
  p_membership _ w := (observed ""%string, w);
  p_Now w := (UnixUTC (w * Second), w); p_Sleep _ w := (Some (Sentinel context_Canceled), w + 1);
  p_ResolveTarget := None
|}.

Lemma cancelled_later w w' : @later Z cancelledPorts w w' -> w <= w'.
Proof. induction 1; cbn; try lia. discriminate. Qed.

Lemma check_fails_only_for_caller_witness :
  @RunCheck Z cancelledPorts 0 = (Err (Sentinel context_Canceled), 1) /\
  @callerGave Z cancelledPorts 0 (Sentinel context_Canceled).
Proof.
  assert (@RunCheck Z cancelledPorts 0 = (Err (Sentinel context_Canceled), 1)) as E by (vm_compute; reflexivity).
  split; [exact E|]. refine (@check_fails_only_for_caller Z cancelledPorts 0 _ 1 _ E).
  intros d w1 err w2 HL [= <- <-]. left. apply cancelled_later in HL. cbn.
  rewrite (proj2 (Z.leb_le 1 (w1 + 1))) by lia. discriminate.
Defined.

Lemma critical_memory_refused_first_witness :
  @RunCheck Z (scripted busy lowMemory) 0 =
    (Ok (NewAssessment (UnixUTC 0) zeroScope (MkFindings [(MetricHostMemory, BasisCritical)] [] [])), 0).
Proof.
  exact (@critical_memory_refused_first Z (scripted busy lowMemory) 0 0 (observed lowMemory) 0 0
           eq_refl eq_refl eq_refl eq_refl).
Defined.
