(* ===== verification/ResourceCgroup.v ===== *)
(** * Resource admission: the cgroup v2 reader

    [internal/resourceadmission/cgroupparse_linux.go] and [cgroupfs_linux.go].  The
    file tree is a parameter: a sample reads every file at most once, so a file is
    one answer to [Open].  [task.ReadBounded] is the bounded read of
    [internal/task/json.go]. *)
From S2P Require Import Prelude GoErrors GoText GoFloat TaskTypes Encoding GoPath LifetimeCgroup.
From S2P Require Import ResourcePolicy ResourceChecker.
From Stdlib Require Import Ascii.

Definition errMalformed : error := Sentinel resourceadmission_errMalformed.

(** [fmt.Errorf("%w: %w", errMalformed, err)] *)
Definition malformed (err : error) : error := Joined ": " [errMalformed; err].

(** ** cgroupparse_linux.go *)
Definition deletedSuffix : string := " (deleted)".

Record placement : Set := MkPlacement {
  pl_deleted : bool;
  pl_memoryOutside : bool;
  pl_cpuOutside : bool
}.

(** The controllers of one v1 line. *)
Fixpoint noteControllers (controllers : list string) (p : placement) : placement :=
  match controllers with
  | [] => p
  | c :: rest =>
      noteControllers rest
        (MkPlacement (pl_deleted p) (pl_memoryOutside p || eqs c "memory")
           (pl_cpuOutside p || eqs c "cpu" || eqs c "cpuacct" || eqs c "cpuset"))
  end.

(** The loop of [parsePlacement] over the lines. *)
Fixpoint placementLines (lines : list string) (p : placement) (found : bool) : placement * bool :=
  match lines with
  | [] => (p, found)
  | line :: rest =>
      match SplitN line ":" 3 with
      | [id; controllers; path] =>
          if eqs id "0" && eqs controllers ""
          then placementLines rest (MkPlacement (HasSuffix path deletedSuffix) (pl_memoryOutside p) (pl_cpuOutside p)) true
          else placementLines rest (noteControllers (Split controllers ",") p) found
      | _ => placementLines rest p found
      end
  end.

Definition parsePlacement (data : string) : placement * Reason :=
  let '(p, found) := placementLines (Split data "010") (MkPlacement false false false) false in
  if negb found then (MkPlacement false false false, ReasonCgroupUnsupported) else (p, NoReason).

(** [chain]; [None] is a loop still running after [fuel] turns. *)
Fixpoint chainFrom (fuel : nat) (dirs : list string) (dir top : string) (limit : Z) : option (list string * bool) :=
  match fuel with
  | O => None
  | S fuel' =>
      let dirs' := dirs ++ [dir] in
      if eqs dir top || eqs dir "." then Some (dirs', true)
      else if Z.of_nat (length dirs') =? limit then Some (dirs', false)
      else chainFrom fuel' dirs' (Dir dir) top limit
  end.

Definition chain (fuel : nat) (dir top : string) (limit : Z) : option (list string * bool) :=
  chainFrom fuel [] dir top limit.

Definition parseUint (data : string) : result Z := wrap_err malformed (ParseUint (TrimSpace data)).

Definition parseLimit (data : string) : result limit :=
  if eqs (TrimSpace data) "max" then Ok (MkLimit 0 false)
  else value ← parseUint data; Ok (MkLimit value true).

(** The loop of [keyedValue]. *)
Fixpoint keyedLines (lines : list string) (key : string) : result Z :=
  match lines with
  | [] => Err (Errorf "missing" errMalformed)
  | line :: rest =>
      let '(name, value, found) := Cut line " " in
      if (found : bool) && eqs name key then parseUint value else keyedLines rest key
  end.

Definition keyedValue (data key : string) : result Z := keyedLines (Split data "010") key.

Definition parseCPUMax (data : string) : result (float64 * bool) :=
  match Fields data with
  | [quotaText; periodText] =>
      match parseUint periodText with
      | Err _ => Err (Errorf "cpu.max period" errMalformed)
      | Ok period =>
          if period =? 0 then Err (Errorf "cpu.max period" errMalformed)
          else if eqs quotaText "max" then Ok (fzero, false)
          else quota ← parseUint quotaText; Ok (fdiv (of_int quota) (of_int period), true)
      end
  | _ => Err (Errorf "cpu.max" errMalformed)
  end.

(** One part of a cpuset list: its first and last CPU. *)
Definition cpuRange (part : string) : result (Z * Z) :=
  let bad := Errorf "cpuset" errMalformed in
  let '(first, last, isRange) := Cut part "-" in
  match Atoi first with
  | Err _ => Err bad
  | Ok low =>
      if low <? 0 then Err bad
      else if isRange : bool then
        match Atoi last with
        | Err _ => Err bad
        | Ok high => if high <? low then Err bad else Ok (low, high)
        end
      else Ok (low, low)
  end.

(** The loop of [parseCPUSet]; [count] is an [int], so the sum wraps. *)
Fixpoint countCPUs (parts : list string) (count : Z) : result Z :=
  match parts with
  | [] => Ok count
  | part :: rest =>
      r ← cpuRange part;
      countCPUs rest (int64 (count + int64 (int64 (snd r - fst r) + 1)))
  end.

Definition parseCPUSet (data : string) : result Z :=
  let list := TrimSpace data in
  if eqs list "" then Err (Errorf "empty cpuset" errMalformed)
  else countCPUs (Split list ",") 0.

Fixpoint totalField (fields : list string) : option (result Z) :=
  match fields with
  | [] => None
  | f :: rest =>
      let '(total, isTotal) := CutPrefix f "total=" in
      if isTotal : bool then Some (parseUint total) else totalField rest
  end.

Fixpoint psiLines (lines : list string) : result Z :=
  match lines with
  | [] => Err (Errorf "psi some total" errMalformed)
  | line :: rest =>
      let '(text, found) := CutPrefix line "some " in
      if negb found then psiLines rest
      else match totalField (Fields text) with
           | Some r => r
           | None => psiLines rest
           end
  end.

Definition parsePSISomeTotal (data : string) : result Z := psiLines (Split data "010").

(** ** cgroupfs_linux.go *)

(** An open file: what a read of at most so many bytes returns, and [Close]. *)
Record file : Type := MkFile {
  f_ReadAll : Z -> string * option error;
  f_Close : option error
}.

(** [fs.FS], with [fs.Stat]. *)
Class FS : Type := {
  fs_Open : string -> result file;
  fs_Stat : string -> option error
}.

Definition checkBoundedRead (observed maxBytes : Z) (readErr : option error) : option error :=
  match readErr with
  | Some e => Some (Errorf "reading bounded stream" e)
  | None => if maxBytes <? observed then Some (Sentinel task_ErrControlRecordTooBig) else None
  end.

(** [task.ReadBounded] *)
Definition ReadBounded (f : file) (maxBytes : Z) : result string :=
  let '(data, err) := f_ReadAll f (maxBytes + 1) in
  match checkBoundedRead (len data) maxBytes err with
  | Some e => Err e
  | None => Ok data
  end.

Definition maxMetadataBytes : Z := 2 ^ 20.
Definition maxObservedAncestors : Z := 128.

Definition selfCgroupFile : string := "proc/self/cgroup".
Definition mountinfoFile : string := "proc/self/mountinfo".
Definition hostPressure : string := "proc/pressure/memory".
Definition nonRootMarker : string := "cgroup.events".
Definition memoryPressure : string := "memory.pressure".

Definition reasonOf (err : error) : Reason :=
  if errors_Is err resourceadmission_errMalformed then ReasonMalformed else ReasonUnreadable.

Record located : Set := MkLocated {
  lc_path : string;
  lc_dir : string;
  lc_top : string;
  lc_hidden : bool;
  lc_memoryOutside : bool;
  lc_cpuOutside : bool
}.

Definition workingSet (current inactiveFile : Z) : Z :=
  if current <=? inactiveFile then 0 else current - inactiveFile.

Section reader.
Context `{FS}.

(** [readText]: an absent file is [Ok None]. *)
Definition readText (name : string) : result (option string) :=
  match fs_Open name with
  | Err e => if errors_Is e fs_ErrNotExist then Ok None else Err e
  | Ok f =>
      let data := ReadBounded f maxMetadataBytes in
      match errors_Join [err_of data; f_Close f] with
      | Some e => Err e
      | None => Some <$> data
      end
  end.

(** [place] *)
Definition place (location : cgroupLocation) (p : placement) : located + Reason :=
  let dir0 := TrimPrefix (cg_currentPath location) "/" in
  let top0 := TrimPrefix (cg_mountPath location) "/" in
  let top := if eqs top0 "" then "."%string else top0 in
  let dir := if eqs dir0 "" then "."%string else dir0 in
  if negb (ValidPath dir) || negb (ValidPath top) then inr ReasonScopeUnresolved
  else match fs_Stat dir with
       | Some e => if errors_Is e fs_ErrNotExist then inr ReasonScopeUnresolved else inr ReasonUnreadable
       | None =>
           inl (MkLocated (cg_currentPath location) dir top (negb (eqs (cg_mountRoot location) "/"))
                  (pl_memoryOutside p) (pl_cpuOutside p))
       end.

Definition locate (target : Target) : located + Reason :=
  let source := if 0 <? tg_PID target
                then Join ["proc"%string; str (decimalText (tg_PID target)); "cgroup"%string]
                else selfCgroupFile in
  match readText source with
  | Err _ => inr ReasonUnreadable
  | Ok None => inr ReasonScopeUnresolved
  | Ok (Some text) =>
      let '(p, reason) := parsePlacement text in
      if negb (bool_decide (reason = NoReason)) then inr reason
      else if (0 <? tg_PID target) && pl_deleted p then inr ReasonScopeUnresolved
      else
        let membership := if 0 <? tg_PID target then text
                          else "0::" +:+ tg_CgroupPath target +:+ String "010" "" in
        match readText mountinfoFile with
        | Err _ => inr ReasonUnreadable
        | Ok None => inr ReasonCgroupUnsupported
        | Ok (Some mounts) =>
            match ResolveCgroupV2Location membership mounts with
            | Err _ => inr ReasonScopeUnresolved
            | Ok location => place location p
            end
        end
  end.

Definition cgroupMembership (target : Target) : reading string :=
  match locate target with
  | inr reason => unobserved reason
  | inl where_ => observed (lc_path where_)
  end.

Definition isRealRoot (where_ : located) : bool :=
  if lc_hidden where_ || negb (eqs (lc_dir where_) (lc_top where_)) then false
  else match readText (Join [lc_dir where_; nonRootMarker]) with
       | Ok None => true
       | _ => false
       end.

Definition psi (where_ : located) : reading Z :=
  if lc_memoryOutside where_ then unobserved ReasonCgroupUnsupported
  else
    let own := readText (Join [lc_dir where_; memoryPressure]) in
    let text := match own with
                | Ok None => if isRealRoot where_ then readText hostPressure else own
                | _ => own
                end in
    match text with
    | Err _ | Ok None => unobserved ReasonPressureUnavailable
    | Ok (Some text) =>
        match parsePSISomeTotal text with
        | Err _ => unobserved ReasonMalformed
        | Ok total => observed total
        end
    end.

Definition optionalLimit (dir name : string) : result limit :=
  text ← readText (Join [dir; name]);
  match text with None => Ok (MkLimit 0 false) | Some t => parseLimit t end.

Definition requiredUint (dir name : string) : result Z :=
  text ← readText (Join [dir; name]);
  match text with None => Err (Sentinel fs_ErrNotExist) | Some t => parseUint t end.

Definition requiredKeyed (dir name key : string) : result Z :=
  text ← readText (Join [dir; name]);
  match text with None => Err (Sentinel fs_ErrNotExist) | Some t => keyedValue t key end.

(** [unobserved(reasonOf(err))] for a failed read. *)
Definition readingOf {T} `{Zero T} (r : result T) : reading T :=
  match r with Ok v => observed v | Err e => unobserved (reasonOf e) end.

(** The reads of [levelMemory]. *)
Definition memoryOfLevel (dir : string) : result levelMemory :=
  maxLimit ← optionalLimit dir "memory.max";
  highLimit ← optionalLimit dir "memory.high";
  if negb (lm_set maxLimit) && negb (lm_set highLimit) then Ok (MkLevelMemory (MkLimit 0 false) (MkLimit 0 false) 0)
  else
    current ← requiredUint dir "memory.current";
    inactive ← requiredKeyed dir "memory.stat" "inactive_file";
    Ok (MkLevelMemory maxLimit highLimit (workingSet current inactive)).

(** [levelMemory] *)
Definition readLevelMemory (dir : string) : reading levelMemory := readingOf (memoryOfLevel dir).

(** [levelCPU] *)
Definition readLevelCPU (dir : string) : reading levelCPU :=
  match readText (Join [dir; "cpu.max"%string]) with
  | Err _ => unobserved ReasonUnreadable
  | Ok maxText =>
      match (match maxText with Some t => parseCPUMax t | None => Ok (fzero, false) end) with
      | Err _ => unobserved ReasonMalformed
      | Ok (quota, hasQuota) =>
          match readText (Join [dir; "cpuset.cpus.effective"%string]) with
          | Err _ => unobserved ReasonUnreadable
          | Ok setText =>
              match (match setText with Some t => parseCPUSet t | None => Ok 0 end) with
              | Err _ => unobserved ReasonMalformed
              | Ok cpus =>
                  let level := MkLevelCPU quota hasQuota cpus 0 in
                  match cpuCapacity level with
                  | None => observed level
                  | Some _ =>
                      readingOf (MkLevelCPU quota hasQuota cpus <$> requiredKeyed dir "cpu.stat" "usage_usec")
                  end
              end
          end
      end
  end.

Definition levelOf (where_ : located) (dir : string) : cgroupLevel :=
  MkCgroupLevel dir
    (if lc_memoryOutside where_ then unobserved ReasonCgroupUnsupported else readLevelMemory dir)
    (if lc_cpuOutside where_ then unobserved ReasonCgroupUnsupported else readLevelCPU dir).

(** [sample]; [None] is a [chain] out of fuel. *)
Definition cgroupSampleOf (fuel : nat) (target : option Target) : option (reading cgroupSample) :=
  match target with
  | None => Some (unobserved ReasonTargetUnavailable)
  | Some t =>
      match locate t with
      | inr reason => Some (unobserved reason)
      | inl where_ =>
          match chain fuel (lc_dir where_) (lc_top where_) maxObservedAncestors with
          | None => None
          | Some (dirs, complete) =>
              Some (observed (MkCgroupSample (lc_path where_) (psi where_) (map (levelOf where_) dirs)
                                (lc_hidden where_ || negb complete)))
          end
      end
  end.
End reader.
