(* ===== verification/ResourceCgroupTheorems.v ===== *)
(** * Theorems of the cgroup reader and of the cgroup rules

    Among them [parseCPUSet] on the lists the kernel writes, and where its [int] count wraps. *)
From S2P Require Import Prelude GoErrors GoTime GoText GoFloat TaskTypes Encoding GoPath LifetimeCgroup.
From S2P Require Import ResourcePolicy ResourceChecker ResourceCheckerProps ResourceCgroup.
From Stdlib Require Import Ascii.

(** ** The cgroup rules *)
Lemma anyOfFrom_hot l : forall r, ~ hot r -> (hot (anyOfFrom r l) <-> exists o, o ∈ l /\ hot o).
Proof.
  induction l as [|o l IH]; intros r Hr; cbn [anyOfFrom].
  { split; [done|]. by intros (o & ?%elem_of_nil & _). }
  assert (forall r', ~ hot r' -> ~ hot o -> (hot (anyOfFrom r' l) <-> exists o', o' ∈ o :: l /\ hot o')) as Hnot.
  { intros r' Hr' Ho. rewrite IH by done. split; intros (o' & Hin & Hh).
    - exists o'. split; [by right|done].
    - apply elem_of_cons in Hin as [->|Hin]; [done|]. by exists o'. }
  destruct (oc_state o) eqn:Eo; try (apply Hnot; [done|unfold hot; by rewrite Eo]).
  - apply Hnot; [|unfold hot; by rewrite Eo]. destruct (oc_state r) eqn:Er; unfold hot in *; congruence.
  - split; [|done]. intros _. exists o. split; [by left|done].
Qed.

Lemma anyOf_hot l : hot (anyOf l) <-> exists o, o ∈ l /\ hot o.
Proof. by apply anyOfFrom_hot. Qed.

Lemma withCoverage_hot o s : hot (withCoverage o s) <-> hot o.
Proof. unfold withCoverage, hot. by destruct (_ && _). Qed.

Lemma allOf_hot a b : oc_state a = outcomeHot \/ oc_state a = outcomeClear \/ oc_state a = outcomeUnknown ->
  oc_state b = outcomeHot \/ oc_state b = outcomeClear \/ oc_state b = outcomeUnknown ->
  (hot (allOf a b) <-> hot a /\ hot b).
Proof.
  destruct a as [a ra], b as [b rb]. unfold hot, allOf. cbn.
  intros [->|[->| ->]] [->|[->| ->]]; cbn; naive_solver.
Qed.

Lemma anyOfFrom_plain l r : oc_state r = outcomeClear \/ oc_state r = outcomeUnknown ->
  oc_state (anyOfFrom r l) = outcomeHot \/ oc_state (anyOfFrom r l) = outcomeClear \/
  oc_state (anyOfFrom r l) = outcomeUnknown.
Proof.
  revert r. induction l as [|o l IH]; intros r Hr; cbn [anyOfFrom]; [auto|].
  destruct (oc_state o) eqn:Eo; [|by auto..]. apply IH. destruct Hr as [Hr|Hr]; rewrite Hr; auto.
Qed.

Lemma psi_plain p c d :
  oc_state (psiOutcome p c d) = outcomeHot \/ oc_state (psiOutcome p c d) = outcomeClear \/
  oc_state (psiOutcome p c d) = outcomeUnknown.
Proof.
  unfold psiOutcome. cbv zeta. repeat match goal with |- context [if ?b then _ else _] => destruct b end; auto.
  all: unfold boolOutcome; destruct (fle _ _); auto.
Qed.

Lemma boolOutcome_hot b : hot (boolOutcome b) <-> b = true.
Proof. by destruct b. Qed.

Lemma cgroupPair_hot p c d o : cgroupPair p c d = Some o -> ~ hot o.
Proof.
  unfold cgroupPair. intros E.
  repeat match type of E with context [if ?x then _ else _] => destruct x end;
    first [discriminate E|injection E as <-; done].
Qed.

Lemma levelMemory_hot r : hot (levelMemoryOutcome r) <->
  rd_ok r = true /\ lm_set (ml_max (rd_value r)) = true /\
  headroomLow (lm_bytes (ml_max (rd_value r))) (ml_workingSet (rd_value r)) = true.
Proof.
  unfold levelMemoryOutcome. destruct (rd_ok r); cbn; [|split; [done|by intros (? & _)]].
  destruct (lm_set _); cbn; [|split; [done|by intros (_ & ? & _)]]. rewrite boolOutcome_hot. naive_solver.
Qed.

(** The saturating headroom of a hard limit is below its reserve. *)
Lemma headroomLow_spec bytes used : 0 <= bytes ->
  headroomLow bytes used = true <-> Z.max 0 (bytes - used) < Z.min (2 ^ 30) (bytes / 10).
Proof.
  intros Hb. unfold headroomLow, reserveBytes, reserveCeiling, reserveDivisor.
  destruct (Z.ltb_spec used bytes); rewrite Z.ltb_lt; [rewrite Z.max_r by lia|rewrite Z.max_l by lia]; done.
Qed.

(** Cgroup memory is hot exactly when the two samples are comparable, some
    readable level has a hard limit whose estimated headroom is below the reserve for
    that limit, and the target's own memory stalled for at least 1% of the interval;
    cgroup CPU is hot exactly when some level used at least 95% of its capacity. *)
Theorem cgroup_verdicts p c d :
  (hot (cgroupMemoryOutcome p c d) <->
     cgroupPair p c d = None /\
     hot (psiOutcome (cs_psiStallUS (rd_value p)) (cs_psiStallUS (rd_value c)) d) /\
     exists level, level ∈ cs_levels (rd_value c) /\ rd_ok (lv_memory level) = true /\
       lm_set (ml_max (rd_value (lv_memory level))) = true /\
       headroomLow (lm_bytes (ml_max (rd_value (lv_memory level)))) (ml_workingSet (rd_value (lv_memory level))) = true) /\
  (hot (cgroupCPUOutcome p c d) <->
     cgroupPair p c d = None /\
     exists o, o ∈ levelCPUOutcomes (cs_levels (rd_value p)) (cs_levels (rd_value c)) d /\ hot o).
Proof.
  unfold cgroupMemoryOutcome, cgroupCPUOutcome. destruct (cgroupPair p c d) as [o|] eqn:E.
  { apply cgroupPair_hot in E. split; (split; [done|]; by intros (? & _)). }
  cbv zeta. split; [|rewrite withCoverage_hot, anyOf_hot; naive_solver].
  set (levels := cs_levels (rd_value c)).
  assert ((exists o, o ∈ map (fun level => levelMemoryOutcome (lv_memory level)) levels /\ hot o) <->
    exists level, level ∈ levels /\ rd_ok (lv_memory level) = true /\
      lm_set (ml_max (rd_value (lv_memory level))) = true /\
      headroomLow (lm_bytes (ml_max (rd_value (lv_memory level)))) (ml_workingSet (rd_value (lv_memory level))) = true)
    as Hlevels.
  { split.
    - intros (o & (level & -> & Hin)%list_elem_of_fmap & Hh%levelMemory_hot). by exists level.
    - intros (level & Hin & Hh). exists (levelMemoryOutcome (lv_memory level)).
      split; [apply list_elem_of_fmap; by exists level|by apply levelMemory_hot]. }
  destruct (existsb constrainedLevel levels) eqn:Ec; cbn [negb]; rewrite withCoverage_hot.
  - rewrite allOf_hot by (first [by apply psi_plain|apply anyOfFrom_plain; by left]).
    rewrite anyOf_hot, Hlevels. naive_solver.
  - split; [done|]. intros (_ & _ & level & Hin & Hok & Hset & _). exfalso.
    apply not_true_iff_false in Ec. apply Ec, existsb_exists. exists level.
    split; [by apply list_elem_of_In|]. unfold constrainedLevel. by rewrite Hset, orb_true_r.
Qed.

(** ** The ancestor chain *)
Lemma chainFrom_spec n dirs dir top limit : Z.of_nat (length dirs) + Z.of_nat n = limit -> (0 < n)%nat ->
  exists more complete, chainFrom n dirs dir top limit = Some (dirs ++ dir :: more, complete) /\
    (length (dir :: more) <= n)%nat /\
    (forall i a b, (dir :: more) !! i = Some a -> (dir :: more) !! S i = Some b ->
       b = Dir a /\ a <> top /\ a <> "."%string) /\
    (complete = true -> last (dir :: more) = Some top \/ last (dir :: more) = Some "."%string) /\
    (complete = false -> length (dir :: more) = n /\ top ∉ dir :: more).
Proof.
  revert dirs dir. induction n as [|n IH]; intros dirs dir Hl Hn; [lia|]. cbn [chainFrom].
  rewrite length_app. cbn [length].
  destruct (eqs dir top || eqs dir ".") eqn:E.
  { exists [], true. split; [done|]. split; [cbn; lia|]. split; [intros [|i] a b; done|]. split; [|done].
    intros _. cbn. apply orb_true_iff in E as [E|E]; apply eqs_true in E as ->; auto. }
  apply orb_false_iff in E as [E1 E2]. apply eqs_false in E1, E2.
  destruct (Z.eqb_spec (Z.of_nat (length dirs + 1)) limit) as [He|He].
  { exists [], false. split; [done|]. split; [cbn; lia|]. split; [intros [|i] a b; done|]. split; [done|].
    intros _. split; [cbn; lia|]. rewrite elem_of_cons, elem_of_nil. naive_solver. }
  destruct (IH (dirs ++ [dir]) (Dir dir)) as (more & complete & Hc & Hlen & Hstep & Ht & Hf);
    [rewrite length_app; cbn; lia|lia|].
  exists (Dir dir :: more), complete. split; [by rewrite Hc, <- app_assoc|]. split; [cbn in *; lia|]. split.
  - intros [|i] a b; [|apply Hstep]. cbn. by intros [= <-] [= <-].
  - split; [exact Ht|]. intros Ef. destruct (Hf Ef) as [Hln Hnot]. split; [cbn in *; lia|].
    rewrite elem_of_cons. naive_solver.
Qed.

(** C39: The walk from a cgroup to the top of its mount ends within the limit: it lists
    the directory and then parent after parent, stopping at the top (or the file tree's
    root), and reports an incomplete chain exactly when the limit is used up before
    the top was seen. *)
Theorem chain_terminates dir top limit : 0 < limit ->
  exists more complete, chain (Z.to_nat limit) dir top limit = Some (dir :: more, complete) /\
    Z.of_nat (length (dir :: more)) <= limit /\
    (forall i a b, (dir :: more) !! i = Some a -> (dir :: more) !! S i = Some b ->
       b = Dir a /\ a <> top /\ a <> "."%string) /\
    (complete = true -> last (dir :: more) = Some top \/ last (dir :: more) = Some "."%string) /\
    (complete = false -> Z.of_nat (length (dir :: more)) = limit /\ top ∉ dir :: more).
Proof.
  intros Hl. destruct (chainFrom_spec (Z.to_nat limit) [] dir top limit) as (more & complete & E & Hlen & Hs & Ht & Hf);
    [cbn; lia|lia|]. exists more, complete. split; [exact E|]. split; [lia|]. split; [exact Hs|].
  split; [exact Ht|]. intros Ef. destruct (Hf Ef). split; [lia|done].
Qed.

Lemma chain_terminates_witness :
  exists more complete, chain 128 "sys/fs/cgroup/user.slice/app.scope" "sys/fs/cgroup" 128 =
    Some ("sys/fs/cgroup/user.slice/app.scope"%string :: more, complete) /\
    more = ["sys/fs/cgroup/user.slice"%string; "sys/fs/cgroup"%string] /\ complete = true.
Proof.
  destruct (chain_terminates "sys/fs/cgroup/user.slice/app.scope" "sys/fs/cgroup" 128 ltac:(lia))
    as (more & complete & E & _).
  exists more, complete. split; [exact E|]. vm_compute in E. injection E as <- <-. split; reflexivity.
Defined.

(** ** Bounded reads *)

(** A memory reading with a hard limit is never made up: it comes from complete
    texts of at most 1 MiB, read and closed without a fault, and its working set is
    [memory.current] less [inactive_file], never negative. *)
Theorem memory_reading_complete `{FS} dir v :
  readLevelMemory dir = observed v -> lm_set (ml_max v) = true ->
  exists maxText currentText statText current inactive,
    (forall name text, (name, text) ∈ [("memory.max", maxText); ("memory.current", currentText); ("memory.stat", statText)]%string ->
       exists f, fs_Open (Join [dir; name]) = Ok f /\ f_ReadAll f (maxMetadataBytes + 1) = (text, None) /\
         len text <= maxMetadataBytes /\ f_Close f = None) /\
    parseLimit maxText = Ok (ml_max v) /\ parseUint currentText = Ok current /\
    keyedValue statText "inactive_file" = Ok inactive /\
    ml_workingSet v = Z.max 0 (current - inactive).
Proof.
  intros E Hset. unfold readLevelMemory, readingOf in E.
  destruct (memoryOfLevel dir) as [v'|e] eqn:Em; [injection E as ->|discriminate E].
  assert (forall name text, readText (Join [dir; name]) = Ok (Some text) ->
    exists f, fs_Open (Join [dir; name]) = Ok f /\ f_ReadAll f (maxMetadataBytes + 1) = (text, None) /\
      len text <= maxMetadataBytes /\ f_Close f = None) as Hread.
  { intros name text. unfold readText. destruct (fs_Open _) as [f|e]; [|by destruct (errors_Is _ _)].
    unfold ReadBounded, checkBoundedRead. destruct (f_ReadAll f _) as [data [e|]] eqn:Er; [done|].
    destruct (Z.ltb_spec maxMetadataBytes (len data)); cbn; [done|]. destruct (f_Close f) eqn:Ec; [done|].
    intros [= <-]. by exists f. }
  unfold memoryOfLevel in Em.
  apply bind_Ok in Em as (mx & Hmx & Em). apply bind_Ok in Em as (hi & _ & Em).
  destruct (negb (lm_set mx) && negb (lm_set hi)) eqn:Es; [by injection Em as <-|].
  apply bind_Ok in Em as (current & Hc & Em). apply bind_Ok in Em as (inactive & Hi & Em). injection Em as <-.
  cbn in Hset |- *.
  unfold optionalLimit in Hmx. apply bind_Ok in Hmx as ([maxText|] & Hr1 & Hmx); [|by injection Hmx as <-].
  unfold requiredUint in Hc. apply bind_Ok in Hc as ([curText|] & Hr2 & Hc); [|done].
  unfold requiredKeyed in Hi. apply bind_Ok in Hi as ([statText|] & Hr3 & Hi); [|done].
  exists maxText, curText, statText, current, inactive. split; [|split; [done|]; split; [done|]; split; [done|]].
  - intros name text Hin. apply Hread. rewrite !elem_of_cons in Hin.
    destruct Hin as [[= -> ->]|[[= -> ->]|[[= -> ->]|?%elem_of_nil]]]; done.
  - unfold workingSet. destruct (Z.leb_spec current inactive); lia.
Qed.

(** A file tree with one limited cgroup. *)
Definition textFile (text : string) : file := MkFile (fun _ => (text, None)) None.

Definition demoFS : FS := {|
  fs_Open name :=
    if eqs name "cg/memory.max" then Ok (textFile "1000")
    else if eqs name "cg/memory.current" then Ok (textFile "950")
    else if eqs name "cg/memory.stat" then Ok (textFile "inactive_file 20")
    else Err (Sentinel fs_ErrNotExist);
  fs_Stat _ := None |}.

Lemma memory_reading_complete_witness :
  @readLevelMemory demoFS "cg" = observed (MkLevelMemory (MkLimit 1000 true) (MkLimit 0 false) 930) /\
  exists maxText currentText statText current inactive,
    (forall name text, (name, text) ∈ [("memory.max", maxText); ("memory.current", currentText); ("memory.stat", statText)]%string ->
       exists f, @fs_Open demoFS (Join ["cg"%string; name]) = Ok f /\ f_ReadAll f (maxMetadataBytes + 1) = (text, None) /\
         len text <= maxMetadataBytes /\ f_Close f = None) /\
    parseLimit maxText = Ok (MkLimit 1000 true) /\ parseUint currentText = Ok current /\
    keyedValue statText "inactive_file" = Ok inactive /\ 930 = Z.max 0 (current - inactive).
Proof.
  assert (@readLevelMemory demoFS "cg" = observed (MkLevelMemory (MkLimit 1000 true) (MkLimit 0 false) 930)) as E
    by (vm_compute; reflexivity).
  split; [exact E|]. exact (@memory_reading_complete demoFS "cg" _ E eq_refl).
Defined.

(** ** Numbers and ranges *)
Lemma Atoi_decimalText n : 0 <= n <= max_int64 -> Atoi (str (decimalText n)) = Ok n.
Proof.
  intros [Hn Hm]. unfold Atoi. rewrite bytes_str. pose proof (decimalText_digits n Hn) as HD.
  pose proof (decimalText_nonempty n Hn) as Hl. pose proof (decimalText_value n Hn) as Hv.
  destruct (decimalText n) as [|c l] eqn:E; [cbn in Hl; lia|].
  assert (isDigit c = true) as Hc by (cbn in HD; by apply andb_true_iff in HD as [? _]).
  rewrite !bool_decide_false by (intros ->; discriminate Hc).
  rewrite HD, Hv, (proj2 (Z.ltb_lt _ _)) by done. cbn [negb orb].
  unfold min_int64. rewrite (proj2 (Z.ltb_ge n (- 2 ^ 63))) by lia.
  by rewrite (proj2 (Z.ltb_ge max_int64 n)) by lia.
Qed.

Lemma cutBytes_app l1 l2 sep word : sep ∉ l1 ->
  cutBytes (l1 ++ sep :: l2) sep word = (str (word ++ l1), str l2, true).
Proof.
  revert word. induction l1 as [|c l1 IH]; intros word Hn; cbn.
  - by rewrite bool_decide_true, app_nil_r.
  - apply not_elem_of_cons in Hn as [Hc Hn]. rewrite bool_decide_false by done.
    rewrite IH by done. by rewrite <- app_assoc.
Qed.

(** The text of a range as the kernel writes it. *)
Definition rangeText (r : Z * Z) : list ascii :=
  if fst r =? snd r then decimalText (fst r) else decimalText (fst r) ++ "-"%char :: decimalText (snd r).

Definition goodRange (r : Z * Z) : Prop := 0 <= fst r <= snd r /\ snd r <= max_int64.

Lemma cutBytes_none l sep word : sep ∉ l -> cutBytes l sep word = (str (word ++ l), ""%string, false).
Proof.
  revert word. induction l as [|c l IH]; intros word Hn; cbn; [by rewrite app_nil_r|].
  apply not_elem_of_cons in Hn as [Hc Hn]. rewrite bool_decide_false by done.
  rewrite IH by done. by rewrite <- app_assoc.
Qed.

Lemma digits_no_dash n : 0 <= n -> "-"%char ∉ decimalText n.
Proof. intros Hn. by apply digits_no; [apply decimalText_digits|]. Qed.

Lemma cpuRange_text r : goodRange r -> cpuRange (str (rangeText r)) = Ok r.
Proof.
  destruct r as [lo hi]. unfold goodRange, rangeText, cpuRange, Cut. cbn [fst snd]. intros [Hlo Hhi].
  rewrite bytes_str. destruct (Z.eqb_spec lo hi) as [->|Hne].
  - rewrite cutBytes_none by (apply digits_no_dash; lia). cbn [app]. rewrite Atoi_decimalText by lia.
    by rewrite (proj2 (Z.ltb_ge _ _)) by lia.
  - rewrite cutBytes_app by (apply digits_no_dash; lia). cbn [app]. rewrite !Atoi_decimalText by lia.
    rewrite (proj2 (Z.ltb_ge lo 0)) by lia. by rewrite (proj2 (Z.ltb_ge hi lo)) by lia.
Qed.

Definition rangeSize (r : Z * Z) : Z := snd r - fst r + 1.

Definition total (rs : list (Z * Z)) : Z := foldr (fun r n => rangeSize r + n) 0 rs.

Lemma total_nonneg rs : Forall goodRange rs -> 0 <= total rs.
Proof.
  induction 1 as [|r rs [Hr _] _ IH]; [done|].
  change (total (r :: rs)) with (rangeSize r + total rs). unfold rangeSize. lia.
Qed.

(** Sums that wrap at every step wrap once. *)
Lemma int64_add_l a b : int64 (int64 a + b) = int64 (a + b).
Proof.
  unfold int64. f_equal. replace (_ - 2 ^ 63 + b + 2 ^ 63) with ((a + 2 ^ 63) mod 2 ^ 64 + b) by lia.
  rewrite Z.add_mod_idemp_l by done. f_equal. lia.
Qed.

Lemma int64_add_r a b : int64 (a + int64 b) = int64 (a + b).
Proof. by rewrite Z.add_comm, int64_add_l, Z.add_comm. Qed.

Lemma countCPUs_texts rs n : Forall goodRange rs ->
  countCPUs (map (fun r => str (rangeText r)) rs) (int64 n) = Ok (int64 (n + total rs)).
Proof.
  intros HF. revert n. induction HF as [|r rs Hr HF IH]; intros n; cbn [map countCPUs].
  - cbn. by rewrite Z.add_0_r.
  - rewrite cpuRange_text by done. cbn [mbind result_bind].
    rewrite (int64_add_l (snd r - fst r)), int64_add_r, int64_add_l, IH. do 2 f_equal.
    change (total (r :: rs)) with (rangeSize r + total rs). unfold rangeSize. lia.
Qed.

(** The comma-separated list. *)
Definition listText (rs : list (Z * Z)) : list ascii := commaSep (map rangeText rs).

Lemma rangeText_chars r : goodRange r -> ","%char ∉ rangeText r /\ forallb spaceless (rangeText r) = true /\ rangeText r <> [].
Proof.
  destruct r as [lo hi]. unfold goodRange, rangeText. cbn [fst snd]. intros [Hlo Hhi].
  assert (forall n, 0 <= n -> ","%char ∉ decimalText n) as Hno
    by (intros; apply digits_no; [by apply decimalText_digits|done]).
  assert (forall n, 0 <= n -> decimalText n <> []) as Hne.
  { intros n Hn E. pose proof (decimalText_nonempty n Hn) as Hl. rewrite E in Hl. done. }
  destruct (Z.eqb_spec lo hi).
  - split; [apply Hno; lia|]. split; [apply digits_spaceless, decimalText_digits; lia|apply Hne; lia].
  - split; [rewrite elem_of_app, elem_of_cons; intros [?|[?|?]]; [by eapply Hno; [|done]; lia|done|by eapply Hno; [|done]; lia]|].
    split; [|by destruct (decimalText lo)].
    rewrite forallb_app. cbn [forallb]. rewrite !digits_spaceless by (apply decimalText_digits; lia). done.
Qed.

Lemma splitBytes_commaSep ls : ls <> [] -> Forall (fun l => ","%char ∉ l) ls ->
  splitBytes (commaSep ls) "," [] = map str ls.
Proof.
  intros Hne HF. induction HF as [|l ls Hl HF IH]; [done|]. destruct ls as [|l2 ls]; cbn [commaSep map].
  - by rewrite splitBytes_last.
  - rewrite splitBytes_app by done. cbn [app]. f_equal. by apply IH.
Qed.

Lemma commaSep_spaceless ls : Forall (fun l => forallb spaceless l = true) ls -> forallb spaceless (commaSep ls) = true.
Proof.
  induction 1 as [|l ls Hl HF IH]; [done|]. destruct ls as [|l2 ls]; [done|].
  change (commaSep (l :: l2 :: ls)) with (l ++ ","%char :: commaSep (l2 :: ls)).
  rewrite forallb_app, Hl. exact IH.
Qed.

(** What the parser returns for a list in the kernel's format. *)
Lemma parseCPUSet_text rs : rs <> [] -> Forall goodRange rs -> parseCPUSet (str (listText rs)) = Ok (int64 (total rs)).
Proof.
  intros Hne HF. unfold parseCPUSet, listText.
  assert (Forall (fun l => ","%char ∉ l) (map rangeText rs)) as H1.
  { apply Forall_map. eapply Forall_impl; [exact HF|]. intros r Hr. by destruct (rangeText_chars r Hr). }
  assert (Forall (fun l => forallb spaceless l = true) (map rangeText rs)) as H2.
  { apply Forall_map. eapply Forall_impl; [exact HF|]. intros r Hr. by destruct (rangeText_chars r Hr) as (_ & ? & _). }
  rewrite TrimSpace_spaceless by (rewrite bytes_str; by apply commaSep_spaceless).
  assert (eqs (str (commaSep (map rangeText rs))) "" = false) as ->.
  { apply eqs_false. intros E. apply (f_equal bytes) in E. rewrite bytes_str in E. cbn in E.
    destruct HF as [|r rs Hr HF]; [done|]. destruct (rangeText_chars r Hr) as (_ & _ & Hn). cbn in E.
    destruct (map rangeText rs); [done|]. by destruct (rangeText r). }
  unfold Split. rewrite bytes_str, splitBytes_commaSep by (try done; by destruct rs).
  rewrite map_map. exact (countCPUs_texts rs 0 HF).
Qed.

(** C40: A CPU list in the kernel's format, of any number of ranges whose bounds an [int]
    holds, is never refused and parses to the number of CPUs it names, wrapped to an [int]: exactly that
    number when, and only when, an [int] can hold it.  A list that names more, and at
    most 2^64, gives a count that is not positive, and a level without a quota is then
    judged unconstrained, a clear outcome, whatever its counters say. *)
Theorem cpuset_counts rs : rs <> [] -> Forall goodRange rs ->
  parseCPUSet (str (listText rs)) = Ok (int64 (total rs)) /\
  (parseCPUSet (str (listText rs)) = Ok (total rs) <-> total rs <= max_int64) /\
  (max_int64 < total rs <= 2 ^ 64 ->
   parseCPUSet (str (listText rs)) = Ok (total rs - 2 ^ 64) /\
   forall quota usage prev elapsed,
     levelCPUOutcome prev (observed (MkLevelCPU quota false (total rs - 2 ^ 64) usage)) elapsed = clearOutcome).
Proof.
  intros Hne HF. rewrite parseCPUSet_text by done. pose proof (total_nonneg rs HF) as Hn. split; [done|]. split; [split|].
  - intros [= E]. pose proof (int64_range (total rs)) as Hr. rewrite E in Hr. apply Hr.
  - intros H. rewrite int64_id; [done|]. unfold in_int64, min_int64, max_int64 in *. lia.
  - unfold max_int64. intros [Hlo Hhi]. split.
    + f_equal. unfold int64. rewrite <- (Z.mod_unique_pos _ _ 1 (total rs - 2 ^ 63)); lia.
    + intros quota usage prev elapsed. unfold levelCPUOutcome, cpuCapacity. cbn [rd_ok rd_value observed negb cl_hasQuota andb cl_cpusetCPUs].
      by rewrite (proj2 (Z.ltb_ge _ _)) by lia.
Qed.

Lemma cpuset_counts_witness :
  parseCPUSet (str (listText [(0, 3); (8, 8); (10, 11)])) = Ok 7 /\
  str (listText [(0, max_int64)]) = "0-9223372036854775807"%string /\
  (max_int64 < total [(0, max_int64)] <= 2 ^ 64) /\ parseCPUSet (str (listText [(0, max_int64)])) = Ok min_int64.
Proof.
  assert (Forall goodRange [(0, 3); (8, 8); (10, 11)]) as H1.
  { repeat (apply Forall_cons; split); try apply Forall_nil; try exact I; (split; [split|]; vm_compute; discriminate). }
  assert (Forall goodRange [(0, max_int64)]) as H2 by (constructor; [split; [split|]; vm_compute; discriminate|constructor]).
  assert (total [(0, 3); (8, 8); (10, 11)] = 7) as E1 by (vm_compute; reflexivity).
  assert (total [(0, max_int64)] = 2 ^ 63) as E2 by (vm_compute; reflexivity).
  destruct (cpuset_counts [(0, 3); (8, 8); (10, 11)] ltac:(discriminate) H1) as (_ & [_ HA] & _).
  destruct (cpuset_counts [(0, max_int64)] ltac:(discriminate) H2) as (_ & _ & HB).
  rewrite E1 in HA. rewrite E2 in *. split; [by apply HA|]. split; [vm_compute; reflexivity|].
  split; [done|]. by apply HB.
Defined.
