(* ===== verification/ProviderJson.v ===== *)
(** * Provider JSON

    [internal/providerjson/value.go] and [records.go]: the cursor that validates native
    JSON evidence without retaining it, the selection of fields, and the framing of
    newline-separated records.

    A reader at an offset is its bytes and, possibly, an offset from which every read
    fails.  The chunks in which the cursor hands a string to its consumer depend on the
    buffer and are not modelled: the consumers here see their concatenation.  So the
    bytes a writer already has when a string turns out to be malformed are left out, as
    is which of two errors is reported for a string that is both too long and malformed. *)
From S2P Require Import Prelude GoErrors GoText TaskTypes Encoding.
From Stdlib Require Import Ascii.

Definition maxDepth : Z := 10000.
Definition maxUniqueKeyBytes : Z := 4096.

(** [FieldError], an error of the reader, or an error of the caller's callback. *)
Inductive fault : Set :=
| FieldError (Code : string) (Offset : Z) (Field : string)
| ReadFault (e : error)
| OutOfFuel.

Inductive outcome (A : Type) : Type := Done (a : A) | Fault (f : fault).
Arguments Done {A}. Arguments Fault {A}.

(** ** Readers and values *)
Record ReaderAt : Set := MkReaderAt { ra_content : list ascii; ra_fails : option (Z * error) }.

Record Value : Set := MkValue { v_Reader : option ReaderAt; v_Start : Z; v_End : Z }.

(** What is left of the section, the offset, and how the section ends: [None] is [io.EOF]. *)
Record cursor : Set := MkCursor { rest : list ascii; pos : Z; ending : option error }.

Definition slice (l : list ascii) (start stop : Z) : list ascii :=
  take (Z.to_nat (stop - start)) (drop (Z.to_nat start) l).

(** [v.cursor()]: a section reader over [v.Start, v.End). *)
Definition section (r : ReaderAt) (start stop : Z) : cursor :=
  match ra_fails r with
  | Some (at_, e) =>
      if at_ <? stop
      then MkCursor (slice (ra_content r) start (Z.max start at_)) start (Some e)
      else MkCursor (slice (ra_content r) start stop) start None
  | None => MkCursor (slice (ra_content r) start stop) start None
  end.

(** [v.valid()] *)
Definition valid (v : Value) : outcome ReaderAt :=
  match v_Reader v with
  | Some r => if (v_Start v <? 0) || (v_End v <? v_Start v)
              then Fault (FieldError "missing_or_invalid_value" (Z.max (v_Start v) 0) "")
              else Done r
  | None => Fault (FieldError "missing_or_invalid_value" (Z.max (v_Start v) 0) "")
  end.

(** ** The cursor monad *)
Definition C (A : Type) : Type := cursor -> outcome A * cursor.

Definition ret {A} (a : A) : C A := fun c => (Done a, c).
Definition raise {A} (f : fault) : C A := fun c => (Fault f, c).
Definition bind {A B} (m : C A) (k : A -> C B) : C B := fun c =>
  match m c with (Done a, c') => k a c' | (Fault f, c') => (Fault f, c') end.

Declare Scope cursor_scope.
Delimit Scope cursor_scope with cursor.
Notation "x <- m ;; k" := (bind m (fun x => k))
  (at level 100, m at next level, k at level 200, right associativity) : cursor_scope.
Notation "m ;;; k" := (bind m (fun _ => k)) (at level 100, k at level 200, right associativity) : cursor_scope.
#[local] Open Scope cursor_scope.

(** [c.fault()] *)
Definition malformed (c : cursor) : fault := FieldError "malformed_json" (pos c) "".
Definition fail {A} : C A := fun c => (Fault (malformed c), c).

(** What [c.byte()] and [c.asciiChunk()] report at the end of the section. *)
Definition endFault (c : cursor) : fault :=
  match ending c with
  | None => malformed c
  | Some e => if errors_Is e io_EOF then malformed c else ReadFault e
  end.

Definition advance (c : cursor) (n : nat) : cursor :=
  MkCursor (drop n (rest c)) (pos c + Z.of_nat n) (ending c).

Definition nextByte : C ascii := fun c =>
  match rest c with
  | [] => (Fault (endFault c), c)
  | b :: _ => (Done b, advance c 1)
  end.

Definition isSpaceByte (b : ascii) : bool :=
  bool_decide (b = " "%char) || bool_decide (b = "009"%char) || bool_decide (b = "013"%char) || bool_decide (b = "010"%char).

Fixpoint spaces (l : list ascii) : nat :=
  match l with
  | b :: l' => if isSpaceByte b then S (spaces l') else 0%nat
  | [] => 0%nat
  end.

Definition space : C unit := fun c => (Done tt, advance c (spaces (rest c))).

(** [c.peekRaw()]: the zero byte when nothing can be read. *)
Definition peekRaw : C ascii := fun c => (Done (default "000"%char (head (rest c))), c).

Definition peek : C ascii := space ;;; peekRaw.

Definition expect (want : ascii) : C unit :=
  space ;;; b <- nextByte ;; if bool_decide (b = want) then ret tt else fail.

Definition finish : C unit :=
  space ;;; fun c =>
    match rest c with
    | _ :: _ => (Fault (malformed c), c)
    | [] => match ending c with
            | None => (Done tt, c)
            | Some e => if errors_Is e io_EOF then (Done tt, c) else (Fault (ReadFault e), c)
            end
    end.

Definition separator (stop : ascii) : C ascii :=
  space ;;; b <- nextByte ;;
  if negb (bool_decide (b = stop)) && negb (bool_decide (b = ","%char)) then fail else ret b.

Fixpoint literal (s : list ascii) : C unit :=
  match s with
  | [] => ret tt
  | want :: s' => b <- nextByte ;; if bool_decide (b = want) then literal s' else fail
  end.

(** ** Numbers *)
Fixpoint digitCount (l : list ascii) : nat :=
  match l with
  | b :: l' => if isDigit b then S (digitCount l') else 0%nat
  | [] => 0%nat
  end.

Definition digits (required : bool) : C unit := fun c =>
  let n := digitCount (rest c) in
  let c' := advance c n in
  if required && (Z.of_nat n =? 0) then (Fault (malformed c'), c') else (Done tt, c').

Definition exponent : C unit :=
  b <- peekRaw ;;
  if negb (bool_decide (b = "e"%char)) && negb (bool_decide (b = "E"%char)) then ret tt
  else
    nextByte ;;;
    s <- peekRaw ;;
    (if bool_decide (s = "+"%char) || bool_decide (s = "-"%char) then nextByte ;;; ret tt else ret tt) ;;;
    digits true.

Definition number : C unit :=
  m <- peek ;;
  (if bool_decide (m = "-"%char) then nextByte ;;; ret tt else ret tt) ;;;
  b <- nextByte ;;
  if negb (isDigit b) then fail
  else
    (if bool_decide (b = "0"%char) then ret tt else digits false) ;;;
    p <- peekRaw ;;
    (if bool_decide (p = "."%char) then nextByte ;;; digits true else ret tt) ;;;
    exponent.

(** ** Strings *)

(** [utf8.EncodeRune] *)
Definition EncodeRune (r : Z) : list ascii :=
  if r <? 128 then [byte r]
  else if r <? 2048 then [byte (192 + r / 64); byte (128 + r mod 64)]
  else if r <? 65536 then [byte (224 + r / 4096); byte (128 + r / 64 mod 64); byte (128 + r mod 64)]
  else [byte (240 + r / 262144); byte (128 + r / 4096 mod 64); byte (128 + r / 64 mod 64); byte (128 + r mod 64)].

(** The length of the encoding that a first byte announces; one when it is invalid. *)
Definition runeLength (first : ascii) : Z :=
  let x := byte_of first in
  if between 194 x 223 then 2 else if between 224 x 239 then 3 else if between 240 x 244 then 4 else 1.

Definition secondAccepted (first second : ascii) : bool :=
  let x := byte_of first in
  between (if x =? 224 then 160 else if x =? 240 then 144 else 128) (byte_of second)
          (if x =? 237 then 159 else if x =? 244 then 143 else 191).

(** [utf8.FullRune]: also true of an encoding that is already invalid. *)
Definition FullRune (raw : list ascii) : bool :=
  match raw with
  | [] => false
  | x :: more =>
      (runeLength x <=? Z.of_nat (length raw)) ||
      match more with
      | y :: more' => negb (secondAccepted x y) ||
                      match more' with z :: _ => negb (continuation z) | [] => false end
      | [] => false
      end
  end.

(** [utf8.DecodeRune] *)
Definition DecodeRune (raw : list ascii) : Z * Z :=
  match decodeRunes raw with
  | (r, u) :: _ => (r, Z.of_nat (length u))
  | [] => (RuneError, 0)
  end.

(** The loop of [c.rune(first)]; at most three more bytes. *)
Fixpoint completeRune (fuel : nat) (raw : list ascii) : C (list ascii) :=
  match fuel with
  | S fuel' =>
      if negb (FullRune raw) && (Z.of_nat (length raw) <? 4)
      then b <- nextByte ;; completeRune fuel' (raw ++ [b])
      else ret raw
  | O => ret raw
  end.

Definition rune (first : ascii) : C Z :=
  raw <- completeRune 3 [first] ;;
  let '(r, size) := DecodeRune raw in
  if (r =? RuneError) && (size =? 1) then fail else ret r.

Definition hexValue (b : ascii) : option Z :=
  if isDigit b then Some (byte_of b - 48)
  else if between 97 (byte_of b) 102 then Some (byte_of b - 97 + 10)
  else if between 65 (byte_of b) 70 then Some (byte_of b - 65 + 10)
  else None.

Fixpoint hexLoop (n : nat) (r : Z) : C Z :=
  match n with
  | O => ret r
  | S n' => b <- nextByte ;; match hexValue b with Some d => hexLoop n' (r * 16 + d) | None => fail end
  end.

Definition hex : C Z := hexLoop 4 0.

Definition unicode : C Z :=
  r <- hex ;;
  if between 56320 r 57343 then fail
  else if (r <? 55296) || (56319 <? r) then ret r
  else
    literal ["\"%char; "u"%char] ;;;
    low <- hex ;;
    if (low <? 56320) || (57343 <? low) then fail
    else ret (65536 + (r - 55296) * 1024 + (low - 56320)).

Definition simpleEscape (b : ascii) : option Z :=
  if bool_decide (b = quote) || bool_decide (b = "\"%char) || bool_decide (b = "/"%char) then Some (byte_of b)
  else if bool_decide (b = "b"%char) then Some 8
  else if bool_decide (b = "f"%char) then Some 12
  else if bool_decide (b = "n"%char) then Some 10
  else if bool_decide (b = "r"%char) then Some 13
  else if bool_decide (b = "t"%char) then Some 9
  else None.

Definition escape : C Z :=
  b <- nextByte ;;
  match simpleEscape b with
  | Some r => ret r
  | None => if bool_decide (b = "u"%char) then unicode else fail
  end.

Definition stringRune (b : ascii) : C Z :=
  if bool_decide (b = "\"%char) then escape
  else if byte_of b <? 128 then ret (byte_of b)
  else rune b.

(** [None] at the closing quote. *)
Definition nextStringRune : C (option Z) :=
  b <- nextByte ;;
  if bool_decide (b = quote) then ret None
  else if byte_of b <? 32 then fail
  else r <- stringRune b ;; ret (Some r).

Definition plain (b : ascii) : bool :=
  negb ((byte_of b <? 32) || (128 <=? byte_of b) || bool_decide (b = quote) || bool_decide (b = "\"%char)).

Fixpoint asciiPrefix (l : list ascii) : nat :=
  match l with
  | b :: l' => if plain b then S (asciiPrefix l') else 0%nat
  | [] => 0%nat
  end.

(** [c.asciiChunk]: the ASCII run at the cursor, possibly empty. *)
Definition asciiChunk : C (list ascii) := fun c =>
  match rest c with
  | [] => (Fault (endFault c), c)
  | _ => let n := asciiPrefix (rest c) in (Done (take n (rest c)), advance c n)
  end.

(** The decoded bytes up to the closing quote. *)
Fixpoint stringLoop (fuel : nat) (decoded : list ascii) : C (list ascii) :=
  match fuel with
  | O => raise OutOfFuel
  | S fuel' =>
      chunk <- asciiChunk ;;
      match chunk with
      | _ :: _ => stringLoop fuel' (decoded ++ chunk)
      | [] =>
          r <- nextStringRune ;;
          match r with
          | None => ret decoded
          | Some r => stringLoop fuel' (decoded ++ EncodeRune r)
          end
      end
  end.

(** Enough steps for what is left of the section. *)
Definition withFuel {A} (m : nat -> C A) : C A := fun c => m (S (length (rest c))) c.

Definition stringValue : C (list ascii) := expect quote ;;; withFuel (fun fuel => stringLoop fuel []).

(** ** Values *)
Section container.
Context (element : C unit).

(** The loop of [c.container] after an opening [{] or [[]. *)
Fixpoint memberLoop (fuel : nat) (object : bool) : C unit :=
  match fuel with
  | O => raise OutOfFuel
  | S fuel' =>
      let stop := if object then "}"%char else "]"%char in
      (if object then stringValue ;;; expect ":" else ret tt) ;;;
      element ;;;
      b <- separator stop ;;
      if bool_decide (b = stop) then ret tt else memberLoop fuel' object
  end.

Definition container (fuel : nat) : C unit :=
  opening <- nextByte ;;
  let object := bool_decide (opening = "{"%char) in
  let stop := if object then "}"%char else "]"%char in
  b <- peek ;;
  if bool_decide (b = stop) then nextByte ;;; ret tt else memberLoop fuel object.
End container.

Definition nestingLimit {A} : C A := fun c => (Fault (FieldError "nesting_limit" (pos c) ""), c).

(** [c.value(depth)] *)
Fixpoint value (fuel : nat) (depth : Z) : C unit :=
  match fuel with
  | O => raise OutOfFuel
  | S fuel' =>
      if maxDepth <? depth then nestingLimit
      else
        b <- peek ;;
        if bool_decide (b = quote) then stringValue ;;; ret tt
        else if bool_decide (b = "{"%char) || bool_decide (b = "["%char)
        then container (value fuel' (depth + 1)) fuel'
        else if bool_decide (b = "t"%char) then literal (bytes "true")
        else if bool_decide (b = "f"%char) then literal (bytes "false")
        else if bool_decide (b = "n"%char) then literal (bytes "null")
        else number
  end.

(** [v.Validate()] *)
Definition run {A} (m : C A) (c : cursor) : outcome A := (m c).1.

Definition Validate (v : Value) : outcome unit :=
  match valid v with
  | Fault f => Fault f
  | Done r => run (withFuel (fun fuel => value fuel 0) ;;; finish) (section r (v_Start v) (v_End v))
  end.

(** ** Fields *)

(** [strings.EqualFold]: two keys are equal rune by rune up to the simple case folding
    of Unicode, whose table is the argument [orbit], the least rune of the orbit. *)
Section folding.
Context (orbit : Z -> Z).

Definition EqualFold (s t : string) : bool :=
  bool_decide (map (fun p => orbit (fst p)) (runes s) = map (fun p => orbit (fst p)) (runes t)).

Definition duplicateField (offset : Z) (name : string) : fault := FieldError "duplicate_control_field" offset name.

(** [selectField]: the map of selected fields is an association list without repeats. *)
Fixpoint selectField (fields : gmap string Value) (names : list string) (key : string) (field : Value)
  : outcome (gmap string Value) :=
  match names with
  | [] => Done fields
  | name :: names' =>
      if negb (EqualFold key name) then selectField fields names' key field
      else if bool_decide (is_Some (fields !! name)) || negb (eqs key name)
           then Fault (duplicateField (v_Start field) name)
           else selectField (<[name := field]> fields) names' key field
  end.

(** [c.member]: the key, or [None] when it exceeds the bound. *)
Definition member (reader : option ReaderAt) : C (option string * Value) :=
  key <- stringValue ;;
  expect ":" ;;;
  space ;;;
  start <- (fun c => (Done (pos c), c)) ;;
  withFuel (fun fuel => value fuel 0) ;;;
  stop <- (fun c => (Done (pos c), c)) ;;
  ret (if 4096 <? Z.of_nat (length key) then None else Some (str key), MkValue reader start stop).

Fixpoint objectLoop (fuel : nat) (reader : option ReaderAt) (names : list string) (fields : gmap string Value)
  : C (gmap string Value) :=
  match fuel with
  | O => raise OutOfFuel
  | S fuel' =>
      m <- member reader ;;
      fields' <- match fst m with
                 | Some key => fun c => (selectField fields names key (snd m), c)
                 | None => ret fields
                 end ;;
      b <- separator "}" ;;
      if bool_decide (b = "}"%char) then ret fields' else objectLoop fuel' reader names fields'
  end.

(** [v.Object(names...)] *)
Definition Object (v : Value) (names : list string) : outcome (gmap string Value) :=
  match valid v with
  | Fault f => Fault f
  | Done r =>
      run (expect "{" ;;;
           b <- peek ;;
           if bool_decide (b = "}"%char) then nextByte ;;; finish ;;; ret ∅
           else
             fields <- withFuel (fun fuel => objectLoop fuel (v_Reader v) names ∅) ;;
             finish ;;; ret fields) (section r (v_Start v) (v_End v))
  end.

(** ** Unique keys *)
Definition uniqueKeyDuplicate (keys : list string) (key : string) : bool :=
  existsb (fun previous => EqualFold previous key) keys.

(** [c.uniqueObjectKey]; the offset and the text of the error depend on the chunks. *)
Definition uniqueObjectKey : C string :=
  key <- stringValue ;;
  if maxUniqueKeyBytes <? Z.of_nat (length key) then raise (FieldError "object_key_too_large" 0 "")
  else ret (str key).

Section uniqueContainer.
Context (element : C unit).

Fixpoint uniqueMembers (fuel : nat) (keys : list string) : C unit :=
  match fuel with
  | O => raise OutOfFuel
  | S fuel' =>
      key <- uniqueObjectKey ;;
      (if uniqueKeyDuplicate keys key then fun c => (Fault (duplicateField (pos c) key), c) else ret tt) ;;;
      expect ":" ;;;
      element ;;;
      b <- separator "}" ;;
      if bool_decide (b = "}"%char) then ret tt else uniqueMembers fuel' (keys ++ [key])
  end.

Fixpoint uniqueElements (fuel : nat) : C unit :=
  match fuel with
  | O => raise OutOfFuel
  | S fuel' =>
      element ;;;
      b <- separator "]" ;;
      if bool_decide (b = "]"%char) then ret tt else uniqueElements fuel'
  end.

Definition uniqueObject (fuel : nat) : C unit :=
  nextByte ;;;
  b <- peek ;;
  if bool_decide (b = "}"%char) then nextByte ;;; ret tt else uniqueMembers fuel [].

Definition uniqueArray (fuel : nat) : C unit :=
  nextByte ;;;
  b <- peek ;;
  if bool_decide (b = "]"%char) then nextByte ;;; ret tt else uniqueElements fuel.
End uniqueContainer.

Fixpoint uniqueValue (fuel : nat) (depth : Z) : C unit :=
  match fuel with
  | O => raise OutOfFuel
  | S fuel' =>
      if maxDepth <? depth then nestingLimit
      else
        b <- peek ;;
        if bool_decide (b = "{"%char) then uniqueObject (uniqueValue fuel' (depth + 1)) fuel'
        else if bool_decide (b = "["%char) then uniqueArray (uniqueValue fuel' (depth + 1)) fuel'
        else value fuel depth
  end.

(** [v.ValidateUniqueKeys()] *)
Definition ValidateUniqueKeys (v : Value) : outcome unit :=
  match valid v with
  | Fault f => Fault f
  | Done r => run (withFuel (fun fuel => uniqueValue fuel 0) ;;; finish) (section r (v_Start v) (v_End v))
  end.
End folding.

(** ** Arrays and strings *)
Section visiting.
Context {S : Type} (visit : Value -> S -> option fault * S).

Fixpoint arrayLoop (fuel : nat) (reader : option ReaderAt) (s : S) : cursor -> outcome unit * cursor * S :=
  match fuel with
  | O => fun c => (Fault OutOfFuel, c, s)
  | Datatypes.S fuel' => fun c =>
      let '(r, c1) := (space ;;; start <- (fun c => (Done (pos c), c)) ;;
                       withFuel (fun fuel => value fuel 0) ;;; ret start) c in
      match r with
      | Fault f => (Fault f, c1, s)
      | Done start =>
          match visit (MkValue reader start (pos c1)) s with
          | (Some f, s') => (Fault f, c1, s')
          | (None, s') =>
              match separator "]" c1 with
              | (Fault f, c2) => (Fault f, c2, s')
              | (Done b, c2) =>
                  if bool_decide (b = "]"%char) then (finish c2, s') else arrayLoop fuel' reader s' c2
              end
          end
      end
  end.

(** [v.Array(visit)]: the outcome and the state the visitor leaves. *)
Definition Array (v : Value) (s : S) : outcome unit * S :=
  match valid v with
  | Fault f => (Fault f, s)
  | Done r =>
      match (expect "[" ;;; peek) (section r (v_Start v) (v_End v)) with
      | (Fault f, _) => (Fault f, s)
      | (Done b, c) =>
          if bool_decide (b = "]"%char) then (run (nextByte ;;; finish) c, s)
          else let '(r, _, s') := arrayLoop (Datatypes.S (length (rest c))) (v_Reader v) s c in (r, s')
      end
  end.
End visiting.

(** [v.CopyString(out)]: everything the writer receives. *)
Definition CopyString (v : Value) : outcome (list ascii) :=
  match valid v with
  | Fault f => Fault f
  | Done r => run (decoded <- stringValue ;; finish ;;; ret decoded) (section r (v_Start v) (v_End v))
  end.

(** [v.String(limit)] *)
Definition String (v : Value) (limit : Z) : outcome string :=
  match CopyString v with
  | Done decoded => if limit <? Z.of_nat (length decoded)
                    then Fault (FieldError "control_field_too_large" (v_Start v) "") else Done (str decoded)
  | Fault f => Fault f
  end.

(** [v.Nonblank()]: white space is tested on the decoded runes. *)
Definition Nonblank (v : Value) : outcome bool :=
  match CopyString v with
  | Done decoded => Done (existsb (fun p => negb (IsSpace (fst p))) (decodeRunes decoded))
  | Fault f => Fault f
  end.

(** [v.Raw(limit)]; [io.ReadAll] takes only [io.EOF] itself for the end. *)
Definition Raw (v : Value) (limit : Z) : outcome (list ascii) :=
  match valid v with
  | Fault f => Fault f
  | Done r =>
      if limit <? v_End v - v_Start v then Fault (FieldError "control_field_too_large" (v_Start v) "")
      else
        let c := section r (v_Start v) (v_End v) in
        match ending c with
        | Some (Sentinel io_EOF) | None =>
            if Z.of_nat (length (rest c)) =? v_End v - v_Start v then Done (rest c)
            else Fault (ReadFault (Sentinel io_ErrUnexpectedEOF))
        | Some e => Fault (ReadFault e)
        end
  end.

(** ** Records *)
Section framing.
Context {S : Type} (visit : Z -> Z -> Z -> S -> option error * S).

Record Framer : Type := MkFramer {
  f_offset : Z; f_start : Z; f_line : Z; f_fault : option error; f_done : bool; f_state : S
}.

Definition NewFramer (s : S) : Framer := MkFramer 0 0 0 None false s.

(** [f.deliver(end)]: after the first fault records are only counted. *)
Definition deliver (f : Framer) (stop : Z) : Framer :=
  let line := (f_line f + 1) mod 2 ^ 64 in
  match f_fault f with
  | None => let '(fault, s) := visit (f_start f) stop line (f_state f) in
            MkFramer (f_offset f) (f_start f) line fault (f_done f) s
  | Some e => MkFramer (f_offset f) (f_start f) line (Some e) (f_done f) (f_state f)
  end.

Definition newline : ascii := "010"%char.

Fixpoint feedBytes (f : Framer) (data : list ascii) : Framer :=
  match data with
  | [] => f
  | b :: data' =>
      let f1 := MkFramer (f_offset f + 1) (f_start f) (f_line f) (f_fault f) (f_done f) (f_state f) in
      if bool_decide (b = newline)
      then let f2 := deliver f1 (f_offset f1 - 1) in
           feedBytes (MkFramer (f_offset f2) (f_offset f2) (f_line f2) (f_fault f2) (f_done f2) (f_state f2)) data'
      else feedBytes f1 data'
  end.

Definition Feed (f : Framer) (data : list ascii) : Framer := if f_done f then f else feedBytes f data.

Definition Finish (f : Framer) : Framer :=
  if f_done f then f
  else
    let f' := if f_start f <? f_offset f then deliver f (f_offset f) else f in
    MkFramer (f_offset f') (f_start f') (f_line f') (f_fault f') true (f_state f').

(** One [r.Read(buffer)]: the count it claims, the bytes it wrote and its error. *)
Record readResult : Type := MkRead { rd_n : Z; rd_data : list ascii; rd_err : option error }.

Definition BufferSize : Z := 32768.

(** [Records]: the semantic fault, the read fault and the state of the visitor.  A reader
    is the list of its reads; after them it reports the end of the file. *)
Fixpoint recordsLoop (reads : list readResult) (noProgress : Z) (f : Framer) : option error * option error * S :=
  match reads with
  | [] => let f' := Finish f in (f_fault f', None, f_state f')
  | rd :: reads' =>
      if (rd_n rd <? 0) || (BufferSize <? rd_n rd)
      then let f' := Finish f in (f_fault f', Some (New "invalid native reader byte count"), f_state f')
      else
        let f1 := if 0 <? rd_n rd then Feed f (take (Z.to_nat (rd_n rd)) (rd_data rd)) else f in
        let stalled := if 0 <? rd_n rd then 0 else noProgress + 1 in
        match rd_err rd with
        | None =>
            if (rd_n rd =? 0) && (100 <=? stalled)
            then let f' := Finish f1 in (f_fault f', Some (Sentinel io_ErrNoProgress), f_state f')
            else recordsLoop reads' stalled f1
        | Some e =>
            let f' := Finish f1 in
            (f_fault f', if errors_Is e io_EOF then None else Some e, f_state f')
        end
  end.
End framing.

(** [Records(r, at, visit)] with its nil check. *)
Definition Records {S} (reads : option (list readResult)) (at_ : option ReaderAt)
    (visit : Value -> Z -> S -> option error * S) (s : S) : option error * option error * S :=
  match reads, at_ with
  | Some reads, Some reader =>
      recordsLoop (fun start stop line => visit (MkValue (Some reader) start stop) line) reads 0 (NewFramer s)
  | _, _ => (None, Some (New "nil native evidence reader"), s)
  end.

(** The drain loop of [Document] over a reader with random access. *)
Fixpoint documentLoop (reads : list readResult) (noProgress size : Z) : Z + error :=
  match reads with
  | [] => inl size
  | rd :: reads' =>
      if (rd_n rd <? 0) || (BufferSize <? rd_n rd) then inr (New "invalid native reader byte count")
      else
        let size := size + rd_n rd in
        let stalled := if 0 <? rd_n rd then 0 else noProgress + 1 in
        match rd_err rd with
        | None => if (rd_n rd =? 0) && (100 <=? stalled) then inr (Sentinel io_ErrNoProgress)
                  else documentLoop reads' stalled size
        | Some e => if errors_Is e io_EOF then inl size else inr e
        end
  end.

Definition Document (reads : list readResult) (at_ : ReaderAt) : Value + error :=
  match documentLoop reads 0 0 with inl size => inl (MkValue (Some at_) 0 size) | inr e => inr e end.
