(* ===== verification/ProviderJsonGrammar.v ===== *)
(** * The grammar of native JSON evidence

    JSON texts (RFC 8259) as a relation on bytes: valid UTF-8 in strings, escapes with
    paired surrogates, numbers without leading zeros, and a bound on nesting.  The file
    holds the lemmas that relate each step of the cursor to the grammar, in both
    directions. *)
From S2P Require Import Prelude GoErrors GoText TaskTypes Encoding ProviderJson.
From Stdlib Require Import Ascii.
#[local] Open Scope cursor_scope.

(** ** Texts *)
Definition white (l : list ascii) : Prop := Forall (fun b => isSpaceByte b = true) l.
Definition digitText (l : list ascii) : Prop := Forall (fun b => isDigit b = true) l.

Inductive integerText : list ascii -> Prop :=
| int_zero : integerText ["0"%char]
| int_digits d ds : isDigit d = true -> d <> "0"%char -> digitText ds -> integerText (d :: ds).

Inductive fractionText : list ascii -> Prop :=
| frac_none : fractionText []
| frac_some ds : digitText ds -> ds <> [] -> fractionText ("."%char :: ds).

Inductive exponentText : list ascii -> Prop :=
| exp_none : exponentText []
| exp_some e s ds : e = "e"%char \/ e = "E"%char -> s = [] \/ s = ["+"%char] \/ s = ["-"%char] ->
    digitText ds -> ds <> [] -> exponentText (e :: s ++ ds).

Inductive numberText : list ascii -> Prop :=
| number_text s i f e : s = [] \/ s = ["-"%char] -> integerText i -> fractionText f -> exponentText e ->
    numberText (s ++ i ++ f ++ e).

Definition hexQuad (l : list ascii) (r : Z) : Prop :=
  exists a b c d x y z w, l = [a; b; c; d] /\ hexValue a = Some x /\ hexValue b = Some y /\
    hexValue c = Some z /\ hexValue d = Some w /\ r = ((x * 16 + y) * 16 + z) * 16 + w.

(** The inside of a string, and the bytes it denotes. *)
Inductive chars : list ascii -> list ascii -> Prop :=
| ch_nil : chars [] []
| ch_plain b raw dec : plain b = true -> chars raw dec -> chars (b :: raw) (b :: dec)
| ch_two a b raw dec : two_byte a b = true -> chars raw dec -> chars (a :: b :: raw) (a :: b :: dec)
| ch_three a b c raw dec : three_byte a b c = true -> chars raw dec -> chars (a :: b :: c :: raw) (a :: b :: c :: dec)
| ch_four a b c d raw dec : four_byte a b c d = true -> chars raw dec ->
    chars (a :: b :: c :: d :: raw) (a :: b :: c :: d :: dec)
| ch_escape b r raw dec : simpleEscape b = Some r -> chars raw dec -> chars ("\"%char :: b :: raw) (EncodeRune r ++ dec)
| ch_unicode q r raw dec : hexQuad q r -> ~ 55296 <= r <= 57343 -> chars raw dec ->
    chars ("\"%char :: "u"%char :: q ++ raw) (EncodeRune r ++ dec)
| ch_pair q r q' r' raw dec : hexQuad q r -> 55296 <= r <= 56319 -> hexQuad q' r' -> 56320 <= r' <= 57343 ->
    chars raw dec ->
    chars ("\"%char :: "u"%char :: q ++ "\"%char :: "u"%char :: q' ++ raw)
      (EncodeRune (65536 + (r - 55296) * 1024 + (r' - 56320)) ++ dec).

Definition stringText (t dec : list ascii) : Prop := exists raw, t = quote :: raw ++ [quote] /\ chars raw dec.

(** A value at a depth, the elements of an array and the members of an object. *)
Inductive jsonText (d : Z) : list ascii -> Prop :=
| t_string t dec : d <= maxDepth -> stringText t dec -> jsonText d t
| t_true : d <= maxDepth -> jsonText d (bytes "true")
| t_false : d <= maxDepth -> jsonText d (bytes "false")
| t_null : d <= maxDepth -> jsonText d (bytes "null")
| t_number t : d <= maxDepth -> numberText t -> jsonText d t
| t_emptyArray w : d <= maxDepth -> white w -> jsonText d ("["%char :: w ++ ["]"%char])
| t_emptyObject w : d <= maxDepth -> white w -> jsonText d ("{"%char :: w ++ ["}"%char])
| t_array es : d <= maxDepth -> elementsText (d + 1) es -> jsonText d ("["%char :: es ++ ["]"%char])
| t_object ms : d <= maxDepth -> membersText (d + 1) ms -> jsonText d ("{"%char :: ms ++ ["}"%char])
with elementsText (d : Z) : list ascii -> Prop :=
| e_last w t w' : white w -> jsonText d t -> white w' -> elementsText d (w ++ t ++ w')
| e_more w t w' es : white w -> jsonText d t -> white w' -> elementsText d es ->
    elementsText d (w ++ t ++ w' ++ ","%char :: es)
with membersText (d : Z) : list ascii -> Prop :=
| m_last w1 k dec w2 w t w' : white w1 -> stringText k dec -> white w2 -> white w -> jsonText d t -> white w' ->
    membersText d (w1 ++ k ++ w2 ++ ":"%char :: w ++ t ++ w')
| m_more w1 k dec w2 w t w' ms : white w1 -> stringText k dec -> white w2 -> white w -> jsonText d t -> white w' ->
    membersText d ms -> membersText d (w1 ++ k ++ w2 ++ ":"%char :: w ++ t ++ w' ++ ","%char :: ms).

(** A complete document. *)
Definition document (l : list ascii) : Prop :=
  exists w t w', l = w ++ t ++ w' /\ white w /\ jsonText 0 t /\ white w'.

(** ** Running the cursor *)

(** The step consumes exactly [t], before [r], and returns [a]. *)
Definition accepts {A} (m : C A) (t r : list ascii) (a : A) : Prop :=
  forall p e, m (MkCursor (t ++ r) p e) = (Done a, MkCursor r (p + Z.of_nat (length t)) e).

Lemma accepts_ret {A} (a : A) r : accepts (ret a) [] r a.
Proof. intros p e. cbn. unfold ret. do 2 f_equal. lia. Qed.

Lemma accepts_bind {A B} (m : C A) (k : A -> C B) t1 t2 r a b :
  accepts m t1 (t2 ++ r) a -> accepts (k a) t2 r b -> accepts (bind m k) (t1 ++ t2) r b.
Proof.
  intros Hm Hk p e. unfold bind. rewrite <- app_assoc, Hm, Hk. do 2 f_equal. rewrite length_app. lia.
Qed.

(** The second step consumes nothing, or the first. *)
Lemma accepts_then {A B} (m : C A) (k : A -> C B) t r a b :
  accepts m t r a -> accepts (k a) [] r b -> accepts (bind m k) t r b.
Proof. intros Hm Hk. rewrite <- (app_nil_r t). by eapply accepts_bind. Qed.
Lemma accepts_after {A B} (m : C A) (k : A -> C B) t r a b :
  accepts m [] (t ++ r) a -> accepts (k a) t r b -> accepts (bind m k) t r b.
Proof. intros Hm Hk. by eapply (accepts_bind _ _ []). Qed.
Lemma accepts_cons {A B} (m : C A) (k : A -> C B) x t r a b :
  accepts m [x] (t ++ r) a -> accepts (k a) t r b -> accepts (bind m k) (x :: t) r b.
Proof. intros Hm Hk. by eapply (accepts_bind _ _ [x]). Qed.

Lemma accepts_nextByte b r : accepts nextByte [b] r b.
Proof. intros p e. reflexivity. Qed.

Lemma accepts_peekRaw r : accepts peekRaw [] r (default "000"%char (head r)).
Proof. intros p e. unfold peekRaw. cbn. do 2 f_equal. lia. Qed.

Definition startsPlain (r : list ascii) : Prop := match r with [] => True | b :: _ => isSpaceByte b = false end.

Lemma spaces_app w r : white w -> startsPlain r -> spaces (w ++ r) = length w.
Proof.
  intros Hw Hr. induction Hw as [|b w Hb _ IH]; cbn.
  - destruct r as [|b r]; [done|]. cbn in *. by rewrite Hr.
  - by rewrite Hb, IH.
Qed.

Lemma accepts_space w r : white w -> startsPlain r -> accepts space w r tt.
Proof. intros Hw Hr p e. unfold space, advance. cbn. rewrite spaces_app by done. by rewrite drop_app_length. Qed.

Lemma accepts_peek w r : white w -> startsPlain r -> accepts peek w r (default "000"%char (head r)).
Proof. intros Hw Hr. eapply accepts_then; [by apply accepts_space|apply accepts_peekRaw]. Qed.

Lemma accepts_expect want w r : white w -> isSpaceByte want = false -> accepts (expect want) (w ++ [want]) r tt.
Proof.
  intros Hw Hn. eapply accepts_bind; [by apply accepts_space|]. eapply accepts_then; [apply accepts_nextByte|].
  rewrite bool_decide_true by done. apply accepts_ret.
Qed.

Lemma accepts_separator stop b w r : white w -> isSpaceByte b = false -> b = stop \/ b = ","%char ->
  accepts (separator stop) (w ++ [b]) r b.
Proof.
  intros Hw Hn Hb. eapply accepts_bind; [by apply accepts_space|]. eapply accepts_then; [apply accepts_nextByte|].
  replace (negb _ && _) with false; [apply accepts_ret|]. symmetry. apply andb_false_iff. rewrite !negb_false_iff, !bool_decide_eq_true. tauto.
Qed.

Lemma accepts_literal s r : accepts (literal s) s r tt.
Proof.
  induction s as [|x s IH]; [apply accepts_ret|]. eapply accepts_cons; [apply accepts_nextByte|].
  by rewrite bool_decide_true.
Qed.

(** ** Numbers are accepted *)
Definition noDigit (r : list ascii) : Prop := match r with [] => True | b :: _ => isDigit b = false end.

(** What may follow a value: white space, a comma, a closing bracket or the end. *)
Definition ends (b : ascii) : bool := isSpaceByte b || bool_decide (b ∈ [","%char; "]"%char; "}"%char]).
Definition follows (r : list ascii) : Prop := match r with [] => True | b :: _ => ends b = true end.

Lemma ends_cases b : ends b = true ->
  b ∈ [" "%char; "009"%char; "013"%char; "010"%char; ","%char; "]"%char; "}"%char].
Proof.
  unfold ends, isSpaceByte. rewrite !orb_true_iff, !bool_decide_eq_true. intros [[[[->| ->]| ->]| ->]|H]; set_solver.
Qed.

Lemma follows_head (P : ascii -> bool) r : follows r -> P "000"%char = false ->
  (forall b, b ∈ [" "%char; "009"%char; "013"%char; "010"%char; ","%char; "]"%char; "}"%char] -> P b = false) ->
  P (default "000"%char (head r)) = false.
Proof. destruct r as [|b r]; cbn; [done|]. intros Hb _ HP. by apply HP, ends_cases. Qed.

Ltac ends_tac := intros ?b Hb; rewrite !elem_of_cons, elem_of_nil in Hb;
  repeat (destruct Hb as [->|Hb]; [reflexivity|]); done.

Lemma follows_noDigit r : follows r -> noDigit r.
Proof. intros H. pose proof (follows_head isDigit r H eq_refl ltac:(ends_tac)) as F. by destruct r. Qed.

Lemma digitCount_app ds r : digitText ds -> noDigit r -> digitCount (ds ++ r) = length ds.
Proof.
  intros Hd Hr. induction Hd as [|b ds Hb _ IH]; cbn.
  - destruct r as [|b r]; [done|]. cbn in *. by rewrite Hr.
  - by rewrite Hb, IH.
Qed.

Lemma accepts_digits required ds r : digitText ds -> noDigit r -> (required = true -> ds <> []) ->
  accepts (digits required) ds r tt.
Proof.
  intros Hd Hr Hn p e. unfold digits, advance. cbn. rewrite digitCount_app by done.
  replace (required && _) with false; [by rewrite drop_app_length|].
  destruct required; [|done]. destruct ds; [by destruct (Hn eq_refl)|]. symmetry. apply Z.eqb_neq. cbn. lia.
Qed.

Lemma accepts_exponent t r : exponentText t -> follows r -> accepts exponent t r tt.
Proof.
  intros Ht Hr. unfold exponent. eapply accepts_after; [apply accepts_peekRaw|]. destruct Ht as [|e s ds He Hs Hds Hne].
  - cbn [app]. pose proof (follows_head (fun b => bool_decide (b = "e"%char)) r Hr eq_refl ltac:(ends_tac)) as F1.
    pose proof (follows_head (fun b => bool_decide (b = "E"%char)) r Hr eq_refl ltac:(ends_tac)) as F2.
    rewrite F1, F2. apply accepts_ret.
  - cbn [app head default from_option id]. replace (negb _ && _) with false.
    2:{ symmetry. apply andb_false_iff. rewrite !negb_false_iff, !bool_decide_eq_true. done. }
    eapply accepts_cons; [apply accepts_nextByte|]. eapply accepts_after; [apply accepts_peekRaw|].
    apply follows_noDigit in Hr as Hr'. destruct ds as [|d ds]; [done|]. inversion Hds as [|? ? Hd _]; subst.
    destruct Hs as [->|[->| ->]]; cbn [app head default from_option id].
    + replace (_ || _) with false.
      2:{ symmetry. apply orb_false_iff. rewrite !bool_decide_eq_false. split; intros E; by rewrite E in Hd. }
      eapply accepts_after; [apply accepts_ret|]. by apply accepts_digits.
    + eapply (accepts_bind _ _ ["+"%char]); [eapply accepts_then; [apply accepts_nextByte|apply accepts_ret]|]. by apply accepts_digits.
    + eapply (accepts_bind _ _ ["-"%char]); [eapply accepts_then; [apply accepts_nextByte|apply accepts_ret]|]. by apply accepts_digits.
Qed.

Lemma integer_head i : integerText i -> exists d ds, i = d :: ds /\ isDigit d = true.
Proof. intros []; eauto. Qed.

Lemma digit_not b (c : ascii) : isDigit b = true -> isDigit c = false -> b <> c.
Proof. intros H1 H2 ->. congruence. Qed.

(** What follows the integer part of a number: its fraction, its exponent or its end. *)
Lemma fraction_exponent_noDigit f e r : fractionText f -> exponentText e -> follows r -> noDigit (f ++ e ++ r).
Proof. intros [] [] Hr; cbn; try done; [by apply follows_noDigit|]. by destruct H as [->| ->]. Qed.

Lemma accepts_fraction f e r : fractionText f -> exponentText e -> follows r ->
  accepts (p <- peekRaw ;; (if bool_decide (p = "."%char) then nextByte ;;; digits true else ret tt) ;;; exponent) (f ++ e) r tt.
Proof.
  intros Hf He Hr. eapply accepts_after; [apply accepts_peekRaw|]. destruct Hf as [|ds Hds Hne]; cbn [app].
  - replace (bool_decide _) with false; [eapply accepts_after; [apply accepts_ret|by apply accepts_exponent]|].
    symmetry. destruct He as [|x s ds [->| ->]]; cbn; [|done..].
    exact (follows_head (fun b => bool_decide (b = "."%char)) r Hr eq_refl ltac:(ends_tac)).
  - cbn [head default from_option id]. rewrite bool_decide_true by done.
    change ("."%char :: ds ++ e) with (("."%char :: ds) ++ e). eapply accepts_bind; [|by apply accepts_exponent].
    eapply accepts_cons; [apply accepts_nextByte|]. apply accepts_digits; [done| |done].
    by apply (fraction_exponent_noDigit [] e r frac_none).
Qed.

Lemma accepts_number t r : numberText t -> follows r -> accepts number t r tt.
Proof.
  intros Ht Hr. destruct Ht as [s i f e Hs Hi Hf He]. unfold number.
  pose proof (fraction_exponent_noDigit f e r Hf He Hr) as Hn. apply integer_head in Hi as Hd. destruct Hd as (d & ds & -> & Hd).
  assert (startsPlain ((s ++ (d :: ds) ++ f ++ e) ++ r)) as Hsp.
  { destruct Hs as [->| ->]; cbn; [|done]. destruct (isSpaceByte d) eqn:E; [|done].
    assert (ends d = true) as Hend by (unfold ends; by rewrite E).
    pose proof (follows_head isDigit [d] Hend eq_refl ltac:(ends_tac)) as F. cbn in F. congruence. }
  eapply accepts_after; [apply (accepts_peek []); [constructor|done]|].
  eapply (accepts_bind _ _ s); [instantiate (1 := tt)|].
  - destruct Hs as [->| ->]; cbn [app head default from_option id].
    + rewrite bool_decide_false; [apply accepts_ret|by apply digit_not].
    + rewrite bool_decide_true by done. eapply accepts_then; [apply accepts_nextByte|apply accepts_ret].
  - eapply accepts_cons; [apply accepts_nextByte|]. rewrite Hd. cbn [negb].
    eapply (accepts_bind _ _ ds); [instantiate (1 := tt)|by apply accepts_fraction].
    inversion Hi; subst; [apply accepts_ret|]. rewrite bool_decide_false by done. apply accepts_digits; [done| |done].
    by rewrite <- app_assoc.
Qed.

(** ** Runes *)
Lemma byte_byteOf c : byte (byte_of c) = c.
Proof. unfold byte, byte_of. by rewrite N2Z.id, ascii_N_embedding. Qed.

Lemma between_spec lo x hi : between lo x hi = true <-> lo <= x <= hi.
Proof. unfold between. rewrite andb_true_iff, !Z.leb_le. lia. Qed.
Lemma between_false lo x hi : between lo x hi = false <-> x < lo \/ hi < x.
Proof. unfold between. rewrite andb_false_iff, !Z.leb_gt. lia. Qed.

Lemma two_byte_spec a b : two_byte a b = true <-> 194 <= byte_of a <= 223 /\ 128 <= byte_of b <= 191.
Proof. unfold two_byte, continuation. by rewrite andb_true_iff, !between_spec. Qed.

Lemma three_byte_spec a b c : three_byte a b c = true <->
  224 <= byte_of a <= 239 /\ 128 <= byte_of c <= 191 /\
  (if byte_of a =? 224 then 160 else 128) <= byte_of b <= (if byte_of a =? 237 then 159 else 191).
Proof. unfold three_byte, continuation. rewrite !andb_true_iff, !between_spec. tauto. Qed.

Lemma four_byte_spec a b c d : four_byte a b c d = true <->
  240 <= byte_of a <= 244 /\ 128 <= byte_of c <= 191 /\ 128 <= byte_of d <= 191 /\
  (if byte_of a =? 240 then 144 else 128) <= byte_of b <= (if byte_of a =? 244 then 143 else 191).
Proof. unfold four_byte, continuation. rewrite !andb_true_iff, !between_spec. tauto. Qed.

Ltac if_cases :=
  repeat match goal with
  | |- context [if ?x <? ?y then _ else _] => destruct (Z.ltb_spec x y); [try lia|try lia]
  | H : context [if ?x =? ?y then _ else _] |- _ => destruct (Z.eqb_spec x y)
  end.

(** The digits of a rune in base 64. *)
Lemma base64_two y z : 0 <= z < 64 -> (y * 64 + z) / 64 = y /\ (y * 64 + z) mod 64 = z.
Proof. intros Hz. split; Z.to_euclidean_division_equations; lia. Qed.
Lemma base64_three x y z : 0 <= y < 64 -> 0 <= z < 64 ->
  (x * 4096 + y * 64 + z) / 4096 = x /\ (x * 4096 + y * 64 + z) / 64 = x * 64 + y /\ (x * 4096 + y * 64 + z) mod 64 = z.
Proof. intros Hy Hz. split_and!; Z.to_euclidean_division_equations; lia. Qed.

Ltac bytes_eq := repeat match goal with
  | |- _ :: _ = _ :: _ => f_equal
  | |- byte ?z = ?c => transitivity (byte (byte_of c)); [f_equal; lia|apply byte_byteOf]
  | |- [] = [] => reflexivity
  end.

Lemma EncodeRune_two a b : two_byte a b = true ->
  EncodeRune ((byte_of a - 192) * 64 + (byte_of b - 128)) = [a; b].
Proof.
  rewrite two_byte_spec. intros H. destruct (base64_two (byte_of a - 192) (byte_of b - 128)) as [E1 E2]; [lia|].
  unfold EncodeRune. rewrite E1, E2. if_cases. bytes_eq.
Qed.

Lemma EncodeRune_three a b c : three_byte a b c = true ->
  EncodeRune ((byte_of a - 224) * 4096 + (byte_of b - 128) * 64 + (byte_of c - 128)) = [a; b; c].
Proof.
  rewrite three_byte_spec. intros H.
  assert (128 <= byte_of b <= 191) as Hb by (if_cases; lia).
  destruct (base64_three (byte_of a - 224) (byte_of b - 128) (byte_of c - 128)) as (E1 & E2 & E3); [lia..|].
  destruct (base64_two (byte_of a - 224) (byte_of b - 128)) as [_ E4]; [lia|].
  assert (2048 <= (byte_of a - 224) * 4096 + (byte_of b - 128) * 64 + (byte_of c - 128) < 65536) as Hr by (if_cases; lia).
  unfold EncodeRune. rewrite E1, E2, E3, E4. clear H. if_cases. bytes_eq.
Qed.

Lemma EncodeRune_four a b c d : four_byte a b c d = true ->
  EncodeRune ((byte_of a - 240) * 262144 + (byte_of b - 128) * 4096 + (byte_of c - 128) * 64 + (byte_of d - 128)) = [a; b; c; d].
Proof.
  rewrite four_byte_spec. intros H.
  assert (128 <= byte_of b <= 191) as Hb by (if_cases; lia).
  set (x := byte_of a - 240). set (y := byte_of b - 128). set (z := byte_of c - 128). set (w := byte_of d - 128).
  destruct (base64_three (x * 64 + y) z w) as (E1 & E2 & E3); [lia..|].
  destruct (base64_two (x * 64 + y) z) as [_ E4]; [lia|]. destruct (base64_two x y) as [_ E5]; [lia|].
  assert (x * 262144 + y * 4096 + z * 64 + w = (x * 64 + y) * 4096 + z * 64 + w) as -> by lia.
  assert (65536 <= (x * 64 + y) * 4096 + z * 64 + w) as Hr by (if_cases; lia).
  assert (((x * 64 + y) * 4096 + z * 64 + w) / 262144 = x) as E6 by (Z.to_euclidean_division_equations; lia).
  unfold EncodeRune. rewrite E1, E2, E3, E4, E5, E6. clear H. subst x y z w. if_cases. bytes_eq.
Qed.

(** ** Strings are accepted *)
Lemma runeLength_two a b : two_byte a b = true -> runeLength a = 2.
Proof. rewrite two_byte_spec. intros H. unfold runeLength. by rewrite (proj2 (between_spec 194 (byte_of a) 223)) by lia. Qed.

Lemma runeLength_three a : 224 <= byte_of a <= 239 -> runeLength a = 3.
Proof.
  intros H. unfold runeLength. rewrite (proj2 (between_false 194 (byte_of a) 223)) by lia.
  by rewrite (proj2 (between_spec 224 (byte_of a) 239)) by lia.
Qed.

Lemma runeLength_four a : 240 <= byte_of a <= 244 -> runeLength a = 4.
Proof.
  intros H. unfold runeLength. rewrite (proj2 (between_false 194 (byte_of a) 223)) by lia.
  rewrite (proj2 (between_false 224 (byte_of a) 239)) by lia. by rewrite (proj2 (between_spec 240 (byte_of a) 244)) by lia.
Qed.

Lemma second_three a b c : three_byte a b c = true -> secondAccepted a b = true.
Proof.
  rewrite three_byte_spec. intros (H1 & _ & H2). unfold secondAccepted. apply between_spec.
  destruct (Z.eqb_spec (byte_of a) 240); [lia|]. destruct (Z.eqb_spec (byte_of a) 244); [lia|]. done.
Qed.

Lemma second_four a b c d : four_byte a b c d = true -> secondAccepted a b = true.
Proof.
  rewrite four_byte_spec. intros (H1 & _ & _ & H2). unfold secondAccepted. apply between_spec.
  destruct (Z.eqb_spec (byte_of a) 224); [lia|]. destruct (Z.eqb_spec (byte_of a) 237); [lia|]. done.
Qed.

Lemma decode_two a b r : two_byte a b = true ->
  decodeRunes (a :: b :: r) = ((byte_of a - 192) * 64 + (byte_of b - 128), [a; b]) :: decodeRunes r.
Proof.
  intros H. pose proof (proj1 (two_byte_spec a b) H). cbn [decodeRunes]. rewrite (proj2 (Z.ltb_ge (byte_of a) 128)) by lia.
  by rewrite H.
Qed.

Lemma two_byte_small a b : 224 <= byte_of a -> two_byte a b = false.
Proof. intros H. unfold two_byte. by rewrite (proj2 (between_false 194 (byte_of a) 223)) by lia. Qed.
Lemma three_byte_large a b c : 240 <= byte_of a -> three_byte a b c = false.
Proof. intros H. unfold three_byte. by rewrite (proj2 (between_false 224 (byte_of a) 239)) by lia. Qed.

Lemma decode_three a b c r : three_byte a b c = true ->
  decodeRunes (a :: b :: c :: r) =
    ((byte_of a - 224) * 4096 + (byte_of b - 128) * 64 + (byte_of c - 128), [a; b; c]) :: decodeRunes r.
Proof.
  intros H. pose proof (proj1 (three_byte_spec a b c) H). cbn [decodeRunes]. rewrite (proj2 (Z.ltb_ge (byte_of a) 128)) by lia.
  by rewrite two_byte_small, H by lia.
Qed.

Lemma decode_four a b c d r : four_byte a b c d = true ->
  decodeRunes (a :: b :: c :: d :: r) =
    ((byte_of a - 240) * 262144 + (byte_of b - 128) * 4096 + (byte_of c - 128) * 64 + (byte_of d - 128), [a; b; c; d])
      :: decodeRunes r.
Proof.
  intros H. pose proof (proj1 (four_byte_spec a b c d) H). cbn [decodeRunes]. rewrite (proj2 (Z.ltb_ge (byte_of a) 128)) by lia.
  by rewrite two_byte_small, three_byte_large, H by lia.
Qed.

Lemma accepts_completeRune fuel raw t r : FullRune (raw ++ t) = true -> (Z.of_nat (length (raw ++ t)) <= 4) ->
  (length t <= fuel)%nat -> (forall t1 b t2, t = t1 ++ b :: t2 -> FullRune (raw ++ t1) = false) ->
  accepts (completeRune fuel raw) t r (raw ++ t).
Proof.
  revert raw t. induction fuel as [|fuel IH]; intros raw t HF HL Hf Hp.
  { destruct t; [|cbn in Hf; lia]. rewrite app_nil_r. apply accepts_ret. }
  destruct t as [|b t]; cbn [completeRune].
  - rewrite app_nil_r in *. rewrite HF. apply accepts_ret.
  - pose proof (Hp [] b t eq_refl) as H0. rewrite app_nil_r in H0. rewrite H0.
    rewrite (proj2 (Z.ltb_lt _ _)) by (rewrite length_app in HL; cbn in HL; lia). cbn [negb andb].
    eapply accepts_cons; [apply accepts_nextByte|].
    replace (raw ++ b :: t) with ((raw ++ [b]) ++ t) in * by (by rewrite <- app_assoc).
    apply IH; [done|done|cbn in Hf; lia|].
    intros t1 b' t2 ->. rewrite <- app_assoc. by apply (Hp (b :: t1) b' t2).
Qed.

(** A multi-byte encoding that starts with [a] is read as its rune. *)
Lemma accepts_rune a t r rn : FullRune (a :: t) = true -> (length t <= 3)%nat ->
  (forall t1 b t2, t = t1 ++ b :: t2 -> FullRune (a :: t1) = false) ->
  decodeRunes (a :: t) = [(rn, a :: t)] -> t <> [] -> accepts (rune a) t r rn.
Proof.
  intros HF HL Hp HD Ht. unfold rune. eapply accepts_then.
  - apply (accepts_completeRune 3 [a]); cbn [app length]; [done|lia|done|done].
  - unfold DecodeRune. cbn [app]. rewrite HD. replace ((rn =? RuneError) && _) with false; [apply accepts_ret|].
    symmetry. apply andb_false_iff. right. apply Z.eqb_neq. destruct t; [done|cbn; lia].
Qed.

Lemma FullRune_one a : (runeLength a <=? 1) = false -> FullRune [a] = false.
Proof. intros H. cbn [FullRune length]. change (Z.of_nat 1) with 1. by rewrite H. Qed.

Lemma accepts_rune_two a b r : two_byte a b = true -> accepts (rune a) [b] r ((byte_of a - 192) * 64 + (byte_of b - 128)).
Proof.
  intros H. pose proof (runeLength_two a b H) as HL. apply accepts_rune; [|cbn; lia| |by apply decode_two|done].
  - cbn [FullRune length]. by rewrite HL.
  - intros [|x t1] y t2 E; [|by destruct t1]. apply FullRune_one. by rewrite HL.
Qed.

Lemma accepts_rune_three a b c r : three_byte a b c = true ->
  accepts (rune a) [b; c] r ((byte_of a - 224) * 4096 + (byte_of b - 128) * 64 + (byte_of c - 128)).
Proof.
  intros H. pose proof (proj1 (three_byte_spec a b c) H) as HS. pose proof (runeLength_three a ltac:(lia)) as HL.
  apply accepts_rune; [|cbn; lia| |by apply decode_three|done].
  - cbn [FullRune length]. by rewrite HL.
  - intros [|x [|x' t1]] y t2 E; [apply FullRune_one; by rewrite HL| |by destruct t1]. injection E as <- <- <-.
    cbn [FullRune length]. rewrite HL, (second_three a b c H). done.
Qed.

Lemma accepts_rune_four a b c d r : four_byte a b c d = true ->
  accepts (rune a) [b; c; d] r
    ((byte_of a - 240) * 262144 + (byte_of b - 128) * 4096 + (byte_of c - 128) * 64 + (byte_of d - 128)).
Proof.
  intros H. pose proof (proj1 (four_byte_spec a b c d) H) as HS. pose proof (runeLength_four a ltac:(lia)) as HL.
  apply accepts_rune; [|cbn; lia| |by apply decode_four|done].
  - cbn [FullRune length]. by rewrite HL.
  - intros [|x [|x' [|x'' t1]]] y t2 E; [apply FullRune_one; by rewrite HL| | |by destruct t1]; injection E as <- <- <-;
      cbn [FullRune length]; rewrite HL, (second_four a b c d H); [done|].
    unfold continuation. rewrite (proj2 (between_spec 128 (byte_of c) 191)) by lia. done.
Qed.

(** *** Escapes *)
Lemma accepts_hex q r rn : hexQuad q rn -> accepts hex q r rn.
Proof.
  intros (a & b & c & d & x & y & z & w & -> & Ha & Hb & Hc & Hd & ->). unfold hex. cbn [hexLoop].
  do 4 (eapply accepts_cons; [apply accepts_nextByte|]; rewrite ?Ha, ?Hb, ?Hc, ?Hd). apply accepts_ret.
Qed.

Lemma accepts_unicode q rn r : hexQuad q rn -> ~ 55296 <= rn <= 57343 -> accepts unicode q r rn.
Proof.
  intros Hq Hn. unfold unicode. eapply accepts_then; [by apply accepts_hex|].
  rewrite (proj2 (between_false 56320 rn 57343)) by lia.
  replace ((rn <? 55296) || (56319 <? rn)) with true; [apply accepts_ret|].
  symmetry. apply orb_true_iff. rewrite !Z.ltb_lt. lia.
Qed.

Lemma accepts_pair q rn q' rn' r : hexQuad q rn -> 55296 <= rn <= 56319 -> hexQuad q' rn' -> 56320 <= rn' <= 57343 ->
  accepts unicode (q ++ "\"%char :: "u"%char :: q') r (65536 + (rn - 55296) * 1024 + (rn' - 56320)).
Proof.
  intros Hq Hn Hq' Hn'. unfold unicode. eapply accepts_bind; [by apply accepts_hex|].
  rewrite (proj2 (between_false 56320 rn 57343)) by lia.
  replace ((rn <? 55296) || (56319 <? rn)) with false by (symmetry; apply orb_false_iff; rewrite !Z.ltb_ge; lia).
  change ("\"%char :: "u"%char :: q') with (["\"%char; "u"%char] ++ q'). eapply accepts_bind; [apply accepts_literal|].
  eapply accepts_then; [by apply accepts_hex|].
  replace ((rn' <? 56320) || (57343 <? rn')) with false by (symmetry; apply orb_false_iff; rewrite !Z.ltb_ge; lia).
  apply accepts_ret.
Qed.

Lemma accepts_escape_u t rn r : accepts unicode t r rn -> accepts nextStringRune ("\"%char :: "u"%char :: t) r (Some rn).
Proof.
  intros H. unfold nextStringRune. eapply accepts_cons; [apply accepts_nextByte|]. cbn.
  eapply accepts_then; [|apply accepts_ret]. unfold escape. eapply accepts_cons; [apply accepts_nextByte|]. exact H.
Qed.

Lemma accepts_escape b rn r : simpleEscape b = Some rn -> accepts nextStringRune ["\"%char; b] r (Some rn).
Proof.
  intros H. unfold nextStringRune. eapply accepts_cons; [apply accepts_nextByte|]. cbn.
  eapply accepts_then; [|apply accepts_ret]. unfold escape. eapply accepts_then; [apply accepts_nextByte|]. rewrite H.
  apply accepts_ret.
Qed.

Lemma accepts_multibyte a t rn r : 128 <= byte_of a -> accepts (rune a) t r rn -> accepts nextStringRune (a :: t) r (Some rn).
Proof.
  intros Ha H. unfold nextStringRune. eapply accepts_cons; [apply accepts_nextByte|].
  rewrite bool_decide_false by (intros ->; assert (byte_of quote = 34) by reflexivity; lia). rewrite (proj2 (Z.ltb_ge (byte_of a) 32)) by lia.
  eapply accepts_then; [|apply accepts_ret]. unfold stringRune. rewrite bool_decide_false by (intros ->; assert (byte_of "\"%char = 92) by reflexivity; lia).
  by rewrite (proj2 (Z.ltb_ge (byte_of a) 128)) by lia.
Qed.

(** An item that is not a run of plain bytes. *)
Lemma plain_ascii b : plain b = true -> 32 <= byte_of b < 128 /\ b <> quote /\ b <> "\"%char.
Proof.
  unfold plain. rewrite negb_true_iff, !orb_false_iff, !bool_decide_eq_false, Z.ltb_ge, Z.leb_gt. tauto.
Qed.
Lemma not_plain b : 128 <= byte_of b -> plain b = false.
Proof. intros H. destruct (plain b) eqn:E; [|done]. apply plain_ascii in E. lia. Qed.

Lemma chars_item raw dec : chars raw dec -> raw <> [] -> asciiPrefix raw = 0%nat ->
  exists item rn raw' dec', raw = item ++ raw' /\ dec = EncodeRune rn ++ dec' /\ chars raw' dec' /\ item <> [] /\
    forall r, accepts nextStringRune item r (Some rn).
Proof.
  intros H Hne Hp. destruct H as [|b raw dec Hb|a b raw dec Hb H|a b c raw dec Hb H|a b c d raw dec Hb H|b rn raw dec Hb H
    |q rn raw dec Hq Hn H|q rn q' rn' raw dec Hq Hn Hq' Hn' H]; [done| | | | | | |].
  - cbn in Hp. by rewrite Hb in Hp.
  - pose proof (proj1 (two_byte_spec _ _) Hb). eexists [a; b], _, raw, dec. split_and!; try done; [by rewrite EncodeRune_two|].
    intros r. apply accepts_multibyte; [lia|by apply accepts_rune_two].
  - pose proof (proj1 (three_byte_spec _ _ _) Hb). eexists [a; b; c], _, raw, dec. split_and!; try done; [by rewrite EncodeRune_three|].
    intros r. apply accepts_multibyte; [lia|by apply accepts_rune_three].
  - pose proof (proj1 (four_byte_spec _ _ _ _) Hb). eexists [a; b; c; d], _, raw, dec. split_and!; try done; [by rewrite EncodeRune_four|].
    intros r. apply accepts_multibyte; [lia|by apply accepts_rune_four].
  - exists ["\"%char; b], rn, raw, dec. split_and!; try done. intros r. by apply accepts_escape.
  - exists ("\"%char :: "u"%char :: q), rn, raw, dec. split_and!; try done. intros r. by apply accepts_escape_u, accepts_unicode.
  - eexists ("\"%char :: "u"%char :: q ++ "\"%char :: "u"%char :: q'), _, raw, dec. cbn. rewrite <- app_assoc.
    split_and!; try done. intros r. by apply accepts_escape_u, accepts_pair.
Qed.

(** The leading run of plain bytes. *)
Lemma chars_plain raw dec : chars raw dec -> exists dec',
  chars (drop (asciiPrefix raw) raw) dec' /\ dec = take (asciiPrefix raw) raw ++ dec' /\
  asciiPrefix (drop (asciiPrefix raw) raw) = 0%nat.
Proof.
  intros H. induction H as [|b raw dec Hb H IH|a b raw dec Hb H IH|a b c raw dec Hb H IH|a b c d raw dec Hb H IH|b rn raw dec Hb H IH
    |q rn raw dec Hq Hn H IH|q rn q' rn' raw dec Hq Hn Hq' Hn' H IH].
  - exists []. split_and!; [constructor|done|done].
  - cbn [asciiPrefix]. rewrite Hb. cbn [take drop]. destruct IH as (dec' & Hc & -> & H0). exists dec'. done.
  - pose proof (proj1 (two_byte_spec _ _) Hb). cbn [asciiPrefix]. rewrite !not_plain by lia. cbn. rewrite not_plain by lia.
    eexists. split_and!; [by apply ch_two|done|done].
  - pose proof (proj1 (three_byte_spec _ _ _) Hb). cbn [asciiPrefix]. rewrite !not_plain by lia. cbn. rewrite not_plain by lia.
    eexists. split_and!; [by apply ch_three|done|done].
  - pose proof (proj1 (four_byte_spec _ _ _ _) Hb). cbn [asciiPrefix]. rewrite !not_plain by lia. cbn. rewrite not_plain by lia.
    eexists. split_and!; [by apply ch_four|done|done].
  - eexists. split_and!; [by apply ch_escape|done|done].
  - eexists. split_and!; [by apply ch_unicode|done|done].
  - eexists. split_and!; [by apply ch_pair|done|done].
Qed.

Lemma asciiPrefix_quote raw r : asciiPrefix (raw ++ quote :: r) = asciiPrefix raw.
Proof. induction raw as [|b raw IH]; cbn; [done|]. destruct (plain b); [by rewrite IH|done]. Qed.

Lemma accepts_asciiChunk raw r : accepts asciiChunk (take (asciiPrefix raw) raw) (drop (asciiPrefix raw) raw ++ quote :: r)
  (take (asciiPrefix raw) raw).
Proof.
  intros p e. unfold asciiChunk, advance. cbn [rest]. rewrite app_assoc, take_drop.
  destruct (raw ++ quote :: r) eqn:E; [by destruct raw|]. rewrite <- E, asciiPrefix_quote. clear E.
  assert (asciiPrefix raw <= length raw)%nat as Hl by (induction raw as [|b raw IH]; cbn; [lia|destruct (plain b); lia]).
  rewrite take_app_le, drop_app_le by done. cbn [pos ending]. by rewrite length_take, Nat.min_l by done.
Qed.

Lemma accepts_stringLoop fuel raw dec r acc : chars raw dec -> (length raw < fuel)%nat ->
  accepts (stringLoop fuel acc) (raw ++ [quote]) r (acc ++ dec).
Proof.
  revert raw dec acc. induction fuel as [|fuel IH]; intros raw dec acc Hc Hf; [lia|]. cbn [stringLoop].
  destruct (chars_plain raw dec Hc) as (dec' & Hc' & -> & H0). pose proof (accepts_asciiChunk raw r) as HA.
  pose proof (take_drop (asciiPrefix raw) raw) as HE. clear Hc. revert HA Hc' H0 HE.
  generalize (take (asciiPrefix raw) raw) (drop (asciiPrefix raw) raw). intros chunk raw' HA Hc' H0 <-.
  rewrite length_app in Hf. rewrite <- app_assoc. eapply accepts_bind; [by rewrite <- app_assoc|].
  destruct chunk as [|x chunk].
  - destruct raw' as [|x raw'].
    + inversion Hc'; subst. rewrite !app_nil_r. eapply (accepts_then _ _ _ _ None); [|apply accepts_ret].
      unfold nextStringRune. eapply accepts_then; [apply accepts_nextByte|]. apply accepts_ret.
    + destruct (chars_item _ _ Hc' ltac:(done) H0) as (item & rn & raw'' & dec'' & E & -> & Hc'' & Hi & HI). rewrite E, <- app_assoc.
      eapply accepts_bind; [apply HI|]. rewrite app_nil_l, app_assoc. apply IH; [done|].
      apply (f_equal length) in E. rewrite length_app in E. destruct item; [done|]. cbn in *. lia.
  - rewrite app_assoc. apply IH; [done|]. cbn in Hf. lia.
Qed.

(** ** Values are accepted *)
Lemma accepts_withFuel {A} (m : nat -> C A) t r a :
  (forall fuel, (length t < fuel)%nat -> accepts (m fuel) t r a) -> accepts (withFuel m) t r a.
Proof. intros H p e. unfold withFuel. apply H. cbn [rest]. rewrite length_app. lia. Qed.

Lemma accepts_stringValue w t dec r : white w -> stringText t dec -> accepts stringValue (w ++ t) r dec.
Proof.
  intros Hw (raw & -> & Hc). unfold stringValue. change (w ++ quote :: raw ++ [quote]) with (w ++ [quote] ++ raw ++ [quote]).
  rewrite app_assoc. eapply accepts_bind; [by apply accepts_expect|]. apply accepts_withFuel. intros fuel Hf.
  rewrite length_app in Hf. apply (accepts_stringLoop fuel raw dec r []); [done|lia].
Qed.

Lemma white_follows w b r : white w -> ends b = true -> follows (w ++ b :: r).
Proof. intros [|x w' Hx _] Hb; cbn; [done|]. unfold ends. by rewrite Hx. Qed.

(** The first byte of a value decides how it is read. *)
Definition opens (b : ascii) : bool :=
  bool_decide (b ∈ [quote; "{"%char; "["%char; "t"%char; "f"%char; "n"%char]).

Lemma number_opens t : numberText t -> exists b t', t = b :: t' /\ opens b = false /\ ends b = false.
Proof.
  intros [s i f e [->| ->] Hi _ _].
  - destruct (integer_head i Hi) as (d & ds & -> & Hd). exists d, (ds ++ f ++ e). split; [done|].
    split.
    + unfold opens. apply bool_decide_eq_false. rewrite !elem_of_cons, elem_of_nil. intros Hin.
      repeat (destruct Hin as [->|Hin]; [done|]). done.
    + destruct (ends d) eqn:E; [|done]. apply ends_cases in E. rewrite !elem_of_cons, elem_of_nil in E.
      repeat (destruct E as [->|E]; [done|]). done.
  - exists "-"%char, (i ++ f ++ e). split_and!; [done|reflexivity|reflexivity].
Qed.

Lemma opens_false b : opens b = false ->
  b <> quote /\ b <> "{"%char /\ b <> "["%char /\ b <> "t"%char /\ b <> "f"%char /\ b <> "n"%char.
Proof. unfold opens. rewrite bool_decide_eq_false. set_solver. Qed.

Lemma jsonText_starts d t : jsonText d t -> exists b t', t = b :: t' /\ ends b = false.
Proof.
  intros [t' dec Hd (raw & -> & _)| | | |t' Hd Hn| | | |]; [| | | |by destruct (number_opens t' Hn) as (b & t'' & -> & _ & ?); exists b, t''| | | |];
    eexists; eexists; split; reflexivity.
Qed.

Lemma jsonText_startsPlain d t r : jsonText d t -> startsPlain (t ++ r).
Proof. intros (b & t' & -> & Hb)%jsonText_starts. unfold ends in Hb. by apply orb_false_iff in Hb as [? _]. Qed.

Lemma accepts_value_peek fuel d w t r :
  d <= maxDepth -> white w -> startsPlain (t ++ r) ->
  (forall b, b = default "000"%char (head (t ++ r)) ->
     accepts (if bool_decide (b = quote) then stringValue ;;; ret tt
        else if bool_decide (b = "{"%char) || bool_decide (b = "["%char)
        then container (value fuel (d + 1)) fuel
        else if bool_decide (b = "t"%char) then literal (bytes "true")
        else if bool_decide (b = "f"%char) then literal (bytes "false")
        else if bool_decide (b = "n"%char) then literal (bytes "null")
        else number) t r tt) -> accepts (value (S fuel) d) (w ++ t) r tt.
Proof.
  intros Hd Hw Hs H. cbn [value]. rewrite (proj2 (Z.ltb_ge maxDepth d)) by done.
  eapply accepts_bind; [by apply accepts_peek|]. by apply H.
Qed.

Definition stopByte (object : bool) : ascii := if object then "}"%char else "]"%char.

Scheme jsonText_rec' := Minimality for jsonText Sort Prop
with elementsText_rec' := Minimality for elementsText Sort Prop
with membersText_rec' := Minimality for membersText Sort Prop.
Combined Scheme texts_ind from jsonText_rec', elementsText_rec', membersText_rec'.

Lemma accepts_container (element : C unit) fuel open (object : bool) body r :
  open = (if object then "{"%char else "["%char) ->
  accepts (b <- peek ;; if bool_decide (b = stopByte object) then nextByte ;;; ret tt else memberLoop element fuel object)
    (body ++ [stopByte object]) r tt ->
  accepts (container element fuel) (open :: body ++ [stopByte object]) r tt.
Proof.
  intros -> H. unfold container. eapply accepts_cons; [apply accepts_nextByte|]. by destruct object.
Qed.

Lemma accepts_empty (element : C unit) fuel (object : bool) w r : white w ->
  accepts (b <- peek ;; if bool_decide (b = stopByte object) then nextByte ;;; ret tt else memberLoop element fuel object)
    (w ++ [stopByte object]) r tt.
Proof.
  intros Hw. eapply accepts_bind; [apply accepts_peek; [done|by destruct object]|]. cbn [app head default from_option id].
  rewrite bool_decide_true by done. eapply accepts_then; [apply accepts_nextByte|apply accepts_ret].
Qed.

(** An element or member loop reads its body, whatever white space comes first. *)
Definition loopAccepts (object : bool) (d : Z) (body : list ascii) : Prop :=
  exists w body', body = w ++ body' /\ white w /\ (exists b l, body' = b :: l /\ ends b = false) /\
    forall w1 fv fuel r, white w1 -> (length body' < fuel)%nat -> (length body' < fv)%nat ->
      accepts (memberLoop (value fv d) fuel object) (w1 ++ body' ++ [stopByte object]) r tt.

Definition valueAccepts (d : Z) (t : list ascii) : Prop :=
  forall fuel w r, white w -> follows r -> (length t < fuel)%nat -> accepts (value fuel d) (w ++ t) r tt.

Lemma ends_stop object : ends (stopByte object) = true.
Proof. by destruct object. Qed.

Lemma accepts_body fv d fuel (object : bool) body r : loopAccepts object (d + 1) body ->
  (length body < fuel)%nat -> (length body < fv)%nat ->
  accepts (container (value fv (d + 1)) fuel) ((if object then "{"%char else "["%char) :: body ++ [stopByte object]) r tt.
Proof.
  intros (w & body' & -> & Hw & (b & l & -> & Hb) & H) Hf Hv. apply accepts_container; [done|]. rewrite <- app_assoc.
  rewrite length_app in *. eapply accepts_bind; [apply accepts_peek; [done|]|].
  - cbn. unfold ends in Hb. by apply orb_false_iff in Hb as [? _].
  - cbn [app head default from_option id]. rewrite bool_decide_false.
    + apply (H [] fv fuel r); [constructor|lia..].
    + intros ->. by rewrite ends_stop in Hb.
Qed.

(** The end of a loop: a value, white space and then a comma or the closing bracket. *)
Lemma accepts_lastElement fv d fuel object w t w' r :
  valueAccepts d t -> white w -> white w' -> (length t < fv)%nat ->
  accepts (value fv d ;;; b <- separator (stopByte object) ;;
           if bool_decide (b = stopByte object) then ret tt else memberLoop (value fv d) fuel object)
    (w ++ t ++ w' ++ [stopByte object]) r tt.
Proof.
  intros Ht Hw Hw' Hv. rewrite app_assoc. eapply accepts_bind; [apply Ht; [done| |done]|].
  - rewrite <- app_assoc. apply white_follows; [done|apply ends_stop].
  - eapply accepts_then; [apply accepts_separator; [done|by destruct object|by left]|].
    rewrite bool_decide_true by done. apply accepts_ret.
Qed.

Lemma accepts_nextElement fv d fuel object w t w' body r :
  valueAccepts d t -> white w -> white w' -> (length t < fv)%nat ->
  accepts (memberLoop (value fv d) fuel object) (body ++ [stopByte object]) r tt ->
  accepts (value fv d ;;; b <- separator (stopByte object) ;;
           if bool_decide (b = stopByte object) then ret tt else memberLoop (value fv d) fuel object)
    (w ++ t ++ w' ++ ","%char :: body ++ [stopByte object]) r tt.
Proof.
  intros Ht Hw Hw' Hv H. rewrite app_assoc. eapply accepts_bind; [apply Ht; [done| |done]|].
  - rewrite <- app_assoc. by apply white_follows.
  - rewrite cons_middle, app_assoc. eapply accepts_bind; [apply accepts_separator; [done|done|by right]|].
    rewrite bool_decide_false; [done|by destruct object].
Qed.

Lemma accepts_key w1 k dec w2 r : white w1 -> stringText k dec -> white w2 ->
  accepts (stringValue ;;; expect ":") (w1 ++ k ++ w2 ++ [":"%char]) r tt.
Proof.
  intros Hw1 Hk Hw2. rewrite app_assoc. eapply accepts_bind; [by apply accepts_stringValue|]. by apply accepts_expect.
Qed.

Lemma elements_start d t rest' : jsonText d t -> exists b l, t ++ rest' = b :: l /\ ends b = false.
Proof. intros (b & t' & -> & Hb)%jsonText_starts. by exists b, (t' ++ rest'). Qed.

Lemma string_start k dec rest' : stringText k dec -> exists b l, k ++ rest' = b :: l /\ ends b = false.
Proof. intros (raw & -> & _). by eexists _, _. Qed.

Lemma value_string d t dec : d <= maxDepth -> stringText t dec -> valueAccepts d t.
Proof.
  intros Hd Ht fuel w r Hw _ Hf. destruct fuel as [|fuel]; [lia|].
  apply accepts_value_peek; [done|done| |].
  - by destruct Ht as (raw & -> & _).
  - intros b Hb. destruct Ht as (raw & -> & Hc). cbn in Hb. subst b. rewrite bool_decide_true by done.
    eapply accepts_then; [|apply accepts_ret]. apply (accepts_stringValue [] _ dec); [constructor|by exists raw].
Qed.

Lemma value_literal d t : d <= maxDepth -> t ∈ [bytes "true"; bytes "false"; bytes "null"] -> valueAccepts d t.
Proof.
  intros Hd Ht fuel w r Hw _ Hf. destruct fuel as [|fuel]; [lia|].
  rewrite !elem_of_cons, elem_of_nil in Ht.
  destruct Ht as [->|[->|[->|[]]]]; (apply accepts_value_peek; [done|done|done|intros b ->]); apply accepts_literal.
Qed.

Lemma value_number d t : d <= maxDepth -> numberText t -> valueAccepts d t.
Proof.
  intros Hd Ht fuel w r Hw Hr Hf. destruct fuel as [|fuel]; [lia|].
  destruct (number_opens t Ht) as (b & t' & E & (H1 & H2 & H3 & H4 & H5 & H6)%opens_false & He).
  apply accepts_value_peek; [done|done|rewrite E; cbn; unfold ends in He; by apply orb_false_iff in He as [? _]|].
  intros b' ->. rewrite E. cbn [app head default from_option id]. rewrite <- E. rewrite !bool_decide_false by done. by apply accepts_number.
Qed.

Lemma value_container d (object : bool) body : d <= maxDepth ->
  (forall fuel r, (length body < fuel)%nat ->
     accepts (container (value fuel (d + 1)) fuel) ((if object then "{"%char else "["%char) :: body ++ [stopByte object]) r tt) ->
  valueAccepts d ((if object then "{"%char else "["%char) :: body ++ [stopByte object]).
Proof.
  intros Hd H fuel w r Hw _ Hf. destruct fuel as [|fuel]; [lia|]. cbn [length] in Hf. rewrite length_app in Hf.
  apply accepts_value_peek; [done|done|by destruct object|]. intros b ->.
  destruct object; apply H; lia.
Qed.

Lemma texts_accepted d :
  (forall t, jsonText d t -> valueAccepts d t) /\
  (forall es, elementsText d es -> loopAccepts false d es) /\
  (forall ms, membersText d ms -> loopAccepts true d ms).
Proof.
  revert d. apply texts_ind.
  - intros d t dec Hd Ht. by apply (value_string d t dec).
  - intros d Hd. apply value_literal; [done|set_solver].
  - intros d Hd. apply value_literal; [done|set_solver].
  - intros d Hd. apply value_literal; [done|set_solver].
  - intros d t Hd Ht. by apply value_number.
  - intros d w Hd Hw. apply (value_container d false w); [done|]. intros fuel r _. apply accepts_container; [done|by apply accepts_empty].
  - intros d w Hd Hw. apply (value_container d true w); [done|]. intros fuel r _. apply accepts_container; [done|by apply accepts_empty].
  - intros d es Hd _ IH. apply (value_container d false es); [done|]. intros fuel r Hf. by apply (accepts_body fuel d fuel false).
  - intros d ms Hd _ IH. apply (value_container d true ms); [done|]. intros fuel r Hf. by apply (accepts_body fuel d fuel true).
  - intros d w t w' Hw Ht IHt Hw'. exists w, (t ++ w'). split_and!; [done|done|by eapply elements_start|].
    intros w1 fv fuel r Hw1 Hf Hv. rewrite length_app in *. destruct fuel as [|fuel]; [lia|]. cbn [memberLoop].
    eapply accepts_after; [apply accepts_ret|]. rewrite <- (app_assoc t). apply (accepts_lastElement fv d fuel false); [done..|lia].
  - intros d w t w' es Hw Ht IHt Hw' Hes (w2 & es' & -> & Hw2 & _ & IH). exists w, (t ++ w' ++ ","%char :: w2 ++ es').
    split_and!; [done|done|by eapply elements_start|].
    intros w1 fv fuel r Hw1 Hf Hv. rewrite !length_app in *. cbn [length] in *. rewrite length_app in *.
    destruct fuel as [|fuel]; [lia|]. cbn [memberLoop]. eapply accepts_after; [apply accepts_ret|].
    rewrite <- !app_assoc. cbn [app]. apply (accepts_nextElement fv d fuel false); [done..|lia|].
    rewrite <- app_assoc. apply IH; [done|lia..].
  - intros d w1 k dec w2 w t w' Hw1 Hk Hw2 Hw Ht IHt Hw'. exists w1, (k ++ w2 ++ ":"%char :: w ++ t ++ w').
    split_and!; [done|done|by eapply string_start|].
    intros w0 fv fuel r Hw0 Hf Hv. rewrite !length_app in *. cbn [length] in *. rewrite !length_app in *.
    destruct fuel as [|fuel]; [lia|]. cbn [memberLoop].
    replace (w0 ++ (k ++ w2 ++ ":"%char :: w ++ t ++ w') ++ [stopByte true])
      with ((w0 ++ k ++ w2 ++ [":"%char]) ++ w ++ t ++ w' ++ [stopByte true]) by (by rewrite <- !app_assoc; cbn; rewrite <- !app_assoc).
    eapply accepts_bind; [by eapply accepts_key|]. apply (accepts_lastElement fv d fuel true); [done..|lia].
  - intros d w1 k dec w2 w t w' ms Hw1 Hk Hw2 Hw Ht IHt Hw' Hms (w3 & ms' & -> & Hw3 & _ & IH).
    exists w1, (k ++ w2 ++ ":"%char :: w ++ t ++ w' ++ ","%char :: w3 ++ ms'). split_and!; [done|done|by eapply string_start|].
    intros w0 fv fuel r Hw0 Hf Hv. rewrite !length_app in *. cbn [length] in *. rewrite !length_app in *. cbn [length] in *.
    rewrite !length_app in *. destruct fuel as [|fuel]; [lia|]. cbn [memberLoop].
    replace (w0 ++ (k ++ w2 ++ ":"%char :: w ++ t ++ w' ++ ","%char :: w3 ++ ms') ++ [stopByte true])
      with ((w0 ++ k ++ w2 ++ [":"%char]) ++ w ++ t ++ w' ++ ","%char :: (w3 ++ ms') ++ [stopByte true])
      by (repeat (rewrite <- !app_assoc; cbn [app]); done).
    eapply accepts_bind; [by eapply accepts_key|]. apply (accepts_nextElement fv d fuel true); [done..|lia|].
    rewrite <- app_assoc. apply IH; [done|lia..].
Qed.
