(* ===== verification/ProviderJsonSound.v ===== *)
(** * What the cursor accepts is JSON

    The converse of [ProviderJsonGrammar]: whatever a successful step consumed is a
    text of the grammar; and no step runs out of fuel. *)
From S2P Require Import Prelude GoErrors GoText TaskTypes Encoding ProviderJson ProviderJsonGrammar.
From Stdlib Require Import Ascii.
#[local] Open Scope cursor_scope.

(** From [c] to [c'] exactly [t] was consumed. *)
Definition moved (c : cursor) (t : list ascii) (c' : cursor) : Prop :=
  rest c = t ++ rest c' /\ pos c' = pos c + Z.of_nat (length t) /\ ending c' = ending c.

Lemma moved_refl c : moved c [] c.
Proof. split_and!; [done|cbn; lia|done]. Qed.
Lemma moved_trans c t c' t' c'' : moved c t c' -> moved c' t' c'' -> moved c (t ++ t') c''.
Proof.
  intros (H1 & H2 & H3) (H1' & H2' & H3'). split_and!; [by rewrite H1, H1', app_assoc|rewrite length_app; lia|congruence].
Qed.

Lemma bind_Done {A B} (m : C A) (k : A -> C B) c b c' :
  bind m k c = (Done b, c') -> exists a c1, m c = (Done a, c1) /\ k a c1 = (Done b, c').
Proof. unfold bind. destruct (m c) as [[a|f] c1]; [|done]. eauto. Qed.

(** The step succeeds only on texts in [P]. *)
Definition sound {A} (m : C A) (P : list ascii -> A -> Prop) : Prop :=
  forall c a c', m c = (Done a, c') -> exists t, moved c t c' /\ P t a.

Lemma sound_weaken {A} (m : C A) (P Q : list ascii -> A -> Prop) :
  sound m P -> (forall t a, P t a -> Q t a) -> sound m Q.
Proof. intros H HPQ c a c' E. destruct (H c a c' E) as (t & ? & ?). exists t. auto. Qed.

Lemma sound_bind {A B} (m : C A) (k : A -> C B) P Q :
  sound m P -> (forall a, sound (k a) (Q a)) ->
  sound (bind m k) (fun t b => exists t1 t2 a, t = t1 ++ t2 /\ P t1 a /\ Q a t2 b).
Proof.
  intros Hm Hk c b c' (a & c1 & E1 & E2)%bind_Done. destruct (Hm _ _ _ E1) as (t1 & M1 & H1).
  destruct (Hk a _ _ _ E2) as (t2 & M2 & H2). exists (t1 ++ t2). split; [by eapply moved_trans|]. by exists t1, t2, a.
Qed.

Lemma sound_ret {A} (a : A) : sound (ret a) (fun t b => t = [] /\ b = a).
Proof. intros c b c' [= <- <-]. exists []. split; [apply moved_refl|done]. Qed.
Lemma sound_fail {A} (P : list ascii -> A -> Prop) : sound fail P.
Proof. by intros c a c'. Qed.
Lemma sound_raise {A} f (P : list ascii -> A -> Prop) : sound (raise f) P.
Proof. by intros c a c'. Qed.
Lemma sound_if {A} (b : bool) (m n : C A) P :
  (b = true -> sound m P) -> (b = false -> sound n P) -> sound (if b then m else n) P.
Proof. destruct b; auto. Qed.

Lemma sound_nextByte : sound nextByte (fun t b => t = [b]).
Proof.
  intros c b c'. unfold nextByte, advance. destruct (rest c) as [|x l] eqn:E; [done|]. intros [= <- <-]. exists [x].
  split; [|done]. split_and!; cbn; [by rewrite E|lia|done].
Qed.

Lemma spaces_spec l : white (take (spaces l) l) /\ (spaces l <= length l)%nat.
Proof.
  induction l as [|b l [IH1 IH2]]; cbn; [split; [constructor|done]|]. destruct (isSpaceByte b) eqn:E; cbn.
  - split; [by constructor|lia].
  - split; [constructor|lia].
Qed.

Lemma moved_advance c n : (n <= length (rest c))%nat -> moved c (take n (rest c)) (advance c n).
Proof. intros H. unfold moved, advance. cbn. rewrite take_drop, length_take, Nat.min_l by done. done. Qed.

Lemma sound_space : sound space (fun t _ => white t).
Proof.
  intros c a c' [= _ <-]. destruct (spaces_spec (rest c)). eexists. split; [by apply moved_advance|done].
Qed.

Lemma sound_peekRaw : sound peekRaw (fun t _ => t = []).
Proof. intros c a c' [= _ <-]. exists []. split; [apply moved_refl|done]. Qed.

Lemma sound_peek : sound peek (fun t _ => white t).
Proof.
  eapply sound_weaken; [apply sound_bind; [apply sound_space|intros; apply sound_peekRaw]|].
  intros t a (t1 & t2 & u & -> & Hw & ->). by rewrite app_nil_r.
Qed.

Lemma sound_test want : sound (b <- nextByte ;; if bool_decide (b = want) then ret tt else fail) (fun t _ => t = [want]).
Proof.
  intros c a c' (b & c1 & E1 & E2)%bind_Done. destruct (sound_nextByte _ _ _ E1) as (t & M & ->).
  destruct (bool_decide_reflect (b = want)) as [->|]; [|done]. injection E2 as _ <-. eauto.
Qed.

Lemma sound_expect want : sound (expect want) (fun t _ => exists w, t = w ++ [want] /\ white w).
Proof.
  eapply sound_weaken; [apply sound_bind; [apply sound_space|intros; apply sound_test]|].
  intros t a (t1 & t2 & u & -> & Hw & ->). by exists t1.
Qed.

Lemma sound_separator stop : sound (separator stop) (fun t b => exists w, t = w ++ [b] /\ white w /\ (b = stop \/ b = ","%char)).
Proof.
  intros c a c' (u & c0 & E0 & E1)%bind_Done. destruct (sound_space _ _ _ E0) as (w & M0 & Hw).
  apply bind_Done in E1 as (b & c1 & E1 & E2). destruct (sound_nextByte _ _ _ E1) as (t & M & ->).
  destruct (negb _ && _) eqn:Eb; [done|]. injection E2 as <- <-. apply andb_false_iff in Eb.
  rewrite !negb_false_iff, !bool_decide_eq_true in Eb. exists (w ++ [b]). split; [by eapply moved_trans|]. by exists w.
Qed.

Lemma sound_literal s : sound (literal s) (fun t _ => t = s).
Proof.
  induction s as [|x s IH]; cbn [literal]; [eapply sound_weaken; [apply sound_ret|]; by intros t a [-> _]|].
  intros c a c' (b & c1 & E1 & E2)%bind_Done. destruct (sound_nextByte _ _ _ E1) as (t1 & M1 & ->).
  destruct (bool_decide_reflect (b = x)) as [->|]; [|done]. destruct (IH _ _ _ E2) as (t2 & M2 & ->).
  exists (x :: s). split; [|done]. by apply (moved_trans c [x] c1 s).
Qed.

(** ** Numbers *)
Lemma digitCount_spec l : digitText (take (digitCount l) l) /\ (digitCount l <= length l)%nat.
Proof.
  induction l as [|b l [IH1 IH2]]; cbn; [split; [constructor|done]|]. destruct (isDigit b) eqn:E; cbn.
  - split; [by constructor|lia].
  - split; [constructor|lia].
Qed.

Lemma sound_digits required : sound (digits required) (fun t _ => digitText t /\ (required = true -> t <> [])).
Proof.
  intros c a c'. unfold digits. destruct (digitCount_spec (rest c)) as [Hd Hl].
  destruct (required && _) eqn:E; [done|]. intros [= _ <-]. eexists. split; [by apply moved_advance|]. split; [done|].
  intros ->. cbn in E. apply Z.eqb_neq in E. intros H%(f_equal length). rewrite length_take in H. cbn in H. lia.
Qed.

(** A byte seen by [peekRaw] is the one [nextByte] takes. *)
Lemma peek_then_next x c c1 c2 b : peekRaw c = (Done x, c1) -> nextByte c1 = (Done b, c2) -> b = x /\ moved c [b] c2.
Proof.
  intros [= <- <-] E. destruct (sound_nextByte _ _ _ E) as (t & M & ->). split; [|done]. destruct M as (-> & _). done.
Qed.

Lemma sound_optional x (P : ascii -> bool) c c1 c2 u :
  peekRaw c = (Done x, c1) -> (if P x then nextByte ;;; ret tt else ret tt) c1 = (Done u, c2) ->
  exists t, moved c t c2 /\ (t = [] \/ t = [x] /\ P x = true).
Proof.
  intros E1 E2. destruct (P x) eqn:EP.
  - apply bind_Done in E2 as (b & c3 & E2 & [= <- <-]). destruct (peek_then_next _ _ _ _ _ E1 E2) as [-> M]. exists [x]. auto.
  - injection E2 as <- <-. injection E1 as _ <-. exists []. split; [apply moved_refl|by left].
Qed.

Lemma sound_exponent : sound exponent (fun t _ => exponentText t).
Proof.
  intros c a c' (x & c1 & E1 & E2)%bind_Done. destruct (negb _ && negb _) eqn:Ex.
  - injection E2 as <- <-. injection E1 as _ <-. exists []. split; [apply moved_refl|constructor].
  - apply bind_Done in E2 as (b & c2 & E2 & E3). destruct (peek_then_next _ _ _ _ _ E1 E2) as [-> M1].
    apply bind_Done in E3 as (s & c3 & E3 & E4). apply bind_Done in E4 as (u & c4 & E4 & E5).
    destruct (sound_optional s (fun s => bool_decide (s = "+"%char) || bool_decide (s = "-"%char)) _ _ _ _ E3 E4) as (t & M2 & Ht).
    destruct (sound_digits _ _ _ _ E5) as (ds & M3 & Hd & Hne). exists ([x] ++ t ++ ds).
    split; [eapply moved_trans; [done|by eapply moved_trans]|]. cbn [app]. constructor; [| |done|by apply Hne].
    + apply andb_false_iff in Ex. by rewrite !negb_false_iff, !bool_decide_eq_true in Ex.
    + destruct Ht as [->|[-> Hs]]; [by left|right]. rewrite orb_true_iff, !bool_decide_eq_true in Hs. by destruct Hs as [->| ->]; [left|right].
Qed.

Lemma sound_number : sound number (fun t _ => exists w t', t = w ++ t' /\ white w /\ numberText t').
Proof.
  intros c a c' (m & c1 & E1 & E2)%bind_Done. apply bind_Done in E1 as (u & c0 & E0 & E1).
  destruct (sound_space _ _ _ E0) as (w & M0 & Hw). apply bind_Done in E2 as (u2 & c2 & E2 & E3).
  destruct (sound_optional m (fun m => bool_decide (m = "-"%char)) _ _ _ _ E1 E2) as (s & M1 & Hs).
  apply bind_Done in E3 as (b & c3 & E3 & E4). destruct (sound_nextByte _ _ _ E3) as (t3 & M3 & ->).
  destruct (isDigit b) eqn:Eb; [|done]. cbn [negb] in E4. apply bind_Done in E4 as (u4 & c4 & E4 & E5).
  assert (exists ds, moved c3 ds c4 /\ integerText (b :: ds)) as (ds & M4 & Hi).
  { destruct (bool_decide_reflect (b = "0"%char)) as [->|Hb].
    - injection E4 as <- <-. exists []. split; [apply moved_refl|constructor].
    - destruct (sound_digits _ _ _ _ E4) as (ds & M & Hd & _). exists ds. split; [done|by constructor]. }
  apply bind_Done in E5 as (p & c5 & E5 & E6). apply bind_Done in E6 as (u6 & c6 & E6 & E7).
  assert (exists f, moved c4 f c6 /\ fractionText f) as (f & M6 & Hf).
  { destruct (bool_decide_reflect (p = "."%char)) as [->|Hp].
    - apply bind_Done in E6 as (x & c7 & E6 & E8). destruct (peek_then_next _ _ _ _ _ E5 E6) as [-> M].
      destruct (sound_digits _ _ _ _ E8) as (l & M8 & Hd & Hne). exists ("."%char :: l).
      split; [by apply (moved_trans c4 ["."%char] c7 l)|constructor; [done|by apply Hne]].
    - injection E6 as <- <-. injection E5 as _ <-. exists []. split; [apply moved_refl|constructor]. }
  destruct (sound_exponent _ _ _ E7) as (e & M7 & He).
  exists (w ++ s ++ (b :: ds) ++ f ++ e). split.
  - eapply moved_trans; [done|]. eapply moved_trans; [done|]. change (b :: ds) with ([b] ++ ds). rewrite <- app_assoc.
    repeat (eapply moved_trans; [done|]). done.
  - exists w, (s ++ (b :: ds) ++ f ++ e). split_and!; [done|done|]. constructor; [|done..].
    destruct Hs as [->|[-> Hm]]; [by left|]. apply bool_decide_eq_true in Hm as ->. by right.
Qed.

(** ** Strings *)

(** A text that contributes the rune [r] to the string around it. *)
Definition item (t : list ascii) (r : Z) : Prop :=
  forall raw dec, chars raw dec -> chars (t ++ raw) (EncodeRune r ++ dec).

Lemma sound_completeRune fuel raw : sound (completeRune fuel raw) (fun t out => out = raw ++ t /\ (length t <= fuel)%nat /\
  forall t1 b t2, t = t1 ++ b :: t2 -> FullRune (raw ++ t1) = false).
Proof.
  revert raw. induction fuel as [|fuel IH]; intros raw c a c' E; cbn [completeRune] in E.
  - injection E as <- <-. exists []. rewrite app_nil_r. split_and!; [apply moved_refl|done|cbn; lia|by intros [] ? ?].
  - destruct (FullRune raw) eqn:EF; cbn [negb andb] in E.
    { injection E as <- <-. exists []. rewrite app_nil_r. split_and!; [apply moved_refl|done|cbn; lia|by intros [] ? ?]. }
    destruct (_ <? 4).
    2:{ injection E as <- <-. exists []. rewrite app_nil_r. split_and!; [apply moved_refl|done|cbn; lia|by intros [] ? ?]. }
    apply bind_Done in E as (b & c1 & E1 & E2). destruct (sound_nextByte _ _ _ E1) as (t & M & ->).
    destruct (IH _ _ _ _ E2) as (t & M2 & -> & Hl & Hp). exists (b :: t). split_and!; [by apply (moved_trans c [b] c1 t)|by rewrite <- app_assoc|cbn; lia|].
    intros [|x t1] b' t2 [= <- ->]; [by rewrite app_nil_r|]. specialize (Hp t1 b' t2 eq_refl). by rewrite <- app_assoc in Hp.
Qed.

Lemma not_full a t : FullRune (a :: t) = false -> Z.of_nat (length (a :: t)) < runeLength a.
Proof. unfold FullRune. rewrite orb_false_iff, Z.leb_gt. tauto. Qed.

Lemma item_two a b : two_byte a b = true -> item [a; b] ((byte_of a - 192) * 64 + (byte_of b - 128)).
Proof. intros H raw dec Hc. rewrite EncodeRune_two by done. by apply ch_two. Qed.
Lemma item_three a b c : three_byte a b c = true ->
  item [a; b; c] ((byte_of a - 224) * 4096 + (byte_of b - 128) * 64 + (byte_of c - 128)).
Proof. intros H raw dec Hc. rewrite EncodeRune_three by done. by apply ch_three. Qed.
Lemma item_four a b c d : four_byte a b c d = true ->
  item [a; b; c; d] ((byte_of a - 240) * 262144 + (byte_of b - 128) * 4096 + (byte_of c - 128) * 64 + (byte_of d - 128)).
Proof. intros H raw dec Hc. rewrite EncodeRune_four by done. by apply ch_four. Qed.

Lemma sound_rune a : 128 <= byte_of a -> sound (rune a) (fun t r => item (a :: t) r).
Proof.
  intros Ha c r c' (raw & c1 & E1 & E2)%bind_Done. destruct (sound_completeRune _ _ _ _ _ E1) as (t & M & -> & Hl & Hp).
  unfold DecodeRune in E2. cbn [app] in E2. exists t.
  assert (c1 = c' /\ item (a :: t) r) as [<- H]; [|done].
  assert ((byte_of a <? 128) = false) as HA by (by apply Z.ltb_ge).
  destruct t as [|b [|x [|y [|z t]]]]; cbn [decodeRunes] in E2; rewrite HA in E2; [done| | | |cbn in Hl; lia].
  - destruct (two_byte a b) eqn:E; [|done]. cbn [length] in E2. rewrite andb_false_r in E2. injection E2 as <- <-.
    split; [done|by apply item_two].
  - pose proof (not_full a [b] (Hp [b] x [] eq_refl)) as Hn.
    destruct (two_byte a b) eqn:E; [apply runeLength_two in E; rewrite E in Hn; done|].
    destruct (three_byte a b x) eqn:E3; [|done]. cbn [length] in E2. rewrite andb_false_r in E2. injection E2 as <- <-.
    split; [done|by apply item_three].
  - pose proof (not_full a [b; x] (Hp [b; x] y [] eq_refl)) as Hn.
    destruct (two_byte a b) eqn:E; [apply runeLength_two in E; rewrite E in Hn; done|].
    destruct (three_byte a b x) eqn:E3.
    { apply three_byte_spec in E3 as [E3 _]. rewrite (runeLength_three a E3) in Hn. done. }
    destruct (four_byte a b x y) eqn:E4; [|done]. cbn [length] in E2. rewrite andb_false_r in E2. injection E2 as <- <-.
    split; [done|by apply item_four].
Qed.

Lemma sound_hex : sound hex (fun t r => hexQuad t r).
Proof.
  intros c r c' E. unfold hex in E. cbn [hexLoop] in E.
  apply bind_Done in E as (a & c1 & E1 & E). destruct (sound_nextByte _ _ _ E1) as (t & M1 & ->).
  destruct (hexValue a) as [x|] eqn:Hx; [|done]. apply bind_Done in E as (b & c2 & E2 & E).
  destruct (sound_nextByte _ _ _ E2) as (t & M2 & ->). destruct (hexValue b) as [y|] eqn:Hy; [|done].
  apply bind_Done in E as (d & c3 & E3 & E). destruct (sound_nextByte _ _ _ E3) as (t & M3 & ->).
  destruct (hexValue d) as [z|] eqn:Hz; [|done]. apply bind_Done in E as (e & c4 & E4 & E).
  destruct (sound_nextByte _ _ _ E4) as (t & M4 & ->). destruct (hexValue e) as [w|] eqn:Hw; [|done]. injection E as <- <-.
  exists ([a] ++ [b] ++ [d] ++ [e]). split; [repeat (eapply moved_trans; [done|]); done|].
  exists a, b, d, e, x, y, z, w. split_and!; done.
Qed.

Lemma sound_unicode : sound unicode (fun t r => item ("\"%char :: "u"%char :: t) r).
Proof.
  intros c a c' (r & c1 & E1 & E2)%bind_Done. destruct (sound_hex _ _ _ E1) as (q & M1 & Hq).
  destruct (between 56320 r 57343) eqn:Eb; [done|]. apply between_false in Eb.
  destruct ((r <? 55296) || (56319 <? r)) eqn:Er.
  - injection E2 as <- <-. exists q. split; [done|]. intros raw dec Hc. cbn [app]. apply ch_unicode; [done| |done].
    rewrite orb_true_iff, !Z.ltb_lt in Er. lia.
  - rewrite orb_false_iff, !Z.ltb_ge in Er. apply bind_Done in E2 as (u & c2 & E2 & E3).
    destruct (sound_literal _ _ _ _ E2) as (t & M2 & ->). apply bind_Done in E3 as (r' & c3 & E3 & E4).
    destruct (sound_hex _ _ _ E3) as (q' & M3 & Hq'). destruct ((r' <? 56320) || (57343 <? r')) eqn:Er'; [done|].
    rewrite orb_false_iff, !Z.ltb_ge in Er'. injection E4 as <- <-. exists (q ++ ["\"%char; "u"%char] ++ q').
    split; [repeat (eapply moved_trans; [done|]); done|]. intros raw dec Hc. cbn [app]. rewrite <- app_assoc. cbn [app].
    apply ch_pair; (done || lia).
Qed.

Lemma sound_escape : sound escape (fun t r => item ("\"%char :: t) r).
Proof.
  intros c a c' (b & c1 & E1 & E2)%bind_Done. destruct (sound_nextByte _ _ _ E1) as (t & M1 & ->).
  destruct (simpleEscape b) as [r|] eqn:Es.
  - injection E2 as <- <-. exists [b]. split; [done|]. intros raw dec Hc. by apply ch_escape.
  - destruct (bool_decide_reflect (b = "u"%char)) as [->|]; [|done].
    destruct (sound_unicode _ _ _ E2) as (t & M2 & Ht). exists ("u"%char :: t). split; [by apply (moved_trans c ["u"%char] c1 t)|done].
Qed.

Lemma plain_intro b : 32 <= byte_of b < 128 -> b <> quote -> b <> "\"%char -> plain b = true.
Proof. intros H1 H2 H3. unfold plain. rewrite negb_true_iff, !orb_false_iff, !bool_decide_eq_false, Z.ltb_ge, Z.leb_gt. lia || tauto. Qed.

Lemma sound_nextStringRune : sound nextStringRune (fun t o => match o with None => t = [quote] | Some r => item t r end).
Proof.
  intros c a c' (b & c1 & E1 & E2)%bind_Done. destruct (sound_nextByte _ _ _ E1) as (t & M1 & ->).
  destruct (bool_decide_reflect (b = quote)) as [->|Hq]; [injection E2 as <- <-; by exists [quote]|].
  destruct (Z.ltb_spec (byte_of b) 32) as [|H32]; [done|]. apply bind_Done in E2 as (r & c2 & E2 & [= <- <-]). unfold stringRune in E2.
  destruct (bool_decide_reflect (b = "\"%char)) as [->|Hb].
  - destruct (sound_escape _ _ _ E2) as (t & M2 & Ht). exists ("\"%char :: t). split; [by apply (moved_trans c ["\"%char] c1 t)|done].
  - destruct (Z.ltb_spec (byte_of b) 128) as [H128|H128].
    + injection E2 as <- <-. exists [b]. split; [done|]. intros raw dec Hc.
      assert (EncodeRune (byte_of b) = [b]) as -> by (unfold EncodeRune; rewrite (proj2 (Z.ltb_lt _ _)) by done; by rewrite byte_byteOf).
      apply ch_plain; [by apply plain_intro|done].
    + destruct (sound_rune b H128 _ _ _ E2) as (t & M2 & Ht). exists (b :: t). split; [by apply (moved_trans c [b] c1 t)|done].
Qed.

Lemma asciiPrefix_spec l : Forall (fun b => plain b = true) (take (asciiPrefix l) l) /\ (asciiPrefix l <= length l)%nat.
Proof.
  induction l as [|b l [IH1 IH2]]; cbn; [split; [constructor|done]|]. destruct (plain b) eqn:E; cbn.
  - split; [by constructor|lia].
  - split; [constructor|lia].
Qed.

Lemma sound_asciiChunk : sound asciiChunk (fun t out => out = t /\ Forall (fun b => plain b = true) t).
Proof.
  intros c a c'. unfold asciiChunk. destruct (asciiPrefix_spec (rest c)) as [Hp Hl].
  destruct (rest c) eqn:E; [done|]. rewrite <- E in *. intros [= <- <-]. eexists. split; [by apply moved_advance|done].
Qed.

Lemma chars_run p raw dec : Forall (fun b => plain b = true) p -> chars raw dec -> chars (p ++ raw) (p ++ dec).
Proof. induction 1; [done|]. intros. cbn. apply ch_plain; auto. Qed.

Lemma sound_stringLoop fuel acc : sound (stringLoop fuel acc) (fun t out => exists raw dec, t = raw ++ [quote] /\ chars raw dec /\ out = acc ++ dec).
Proof.
  revert acc. induction fuel as [|fuel IH]; intros acc c a c' E; [done|]. cbn [stringLoop] in E.
  apply bind_Done in E as (chunk & c1 & E1 & E2). destruct (sound_asciiChunk _ _ _ E1) as (t1 & M1 & -> & Hp).
  destruct t1 as [|x t1].
  - apply bind_Done in E2 as (o & c2 & E2 & E3). destruct (sound_nextStringRune _ _ _ E2) as (t2 & M2 & Ht).
    destruct o as [r|].
    + destruct (IH _ _ _ _ E3) as (t3 & M3 & raw & dec & -> & Hc & ->). exists ([] ++ t2 ++ raw ++ [quote]).
      split; [repeat (eapply moved_trans; [done|]); done|]. exists (t2 ++ raw), (EncodeRune r ++ dec). rewrite <- !app_assoc.
      split_and!; [done|by apply Ht|done].
    + injection E3 as <- <-. subst t2. exists [quote]. split; [by apply (moved_trans c [] c1 [quote])|].
      exists [], []. rewrite app_nil_r. split_and!; [done|constructor|done].
  - destruct (IH _ _ _ _ E2) as (t3 & M3 & raw & dec & -> & Hc & ->). exists ((x :: t1) ++ raw ++ [quote]).
    split; [by eapply moved_trans|]. exists ((x :: t1) ++ raw), ((x :: t1) ++ dec). rewrite <- !app_assoc.
    split_and!; [done|by apply chars_run|done].
Qed.

Lemma sound_stringValue : sound stringValue (fun t dec => exists w t', t = w ++ t' /\ white w /\ stringText t' dec).
Proof.
  intros c a c' (u & c1 & E1 & E2)%bind_Done. destruct (sound_expect _ _ _ _ E1) as (t1 & M1 & w & -> & Hw).
  destruct (sound_stringLoop _ _ _ _ _ E2) as (t2 & M2 & raw & dec & -> & Hc & ->).
  exists ((w ++ [quote]) ++ raw ++ [quote]). split; [by eapply moved_trans|]. exists w, (quote :: raw ++ [quote]).
  rewrite <- app_assoc. split_and!; [done|done|by exists raw].
Qed.

(** ** Values *)
Definition valueSound (d : Z) (t : list ascii) : Prop := exists w t', t = w ++ t' /\ white w /\ jsonText d t'.

Lemma peek_inv x c c1 : peek c = (Done x, c1) -> exists w c0, moved c w c0 /\ white w /\ peekRaw c0 = (Done x, c1).
Proof.
  intros (u & c0 & E0 & E1)%bind_Done. destruct (sound_space _ _ _ E0) as (w & M & Hw). by exists w, c0.
Qed.

Definition bodyText (object : bool) (d : Z) : list ascii -> Prop := if object then membersText d else elementsText d.

(** What comes before the value of a member; nothing before an element. *)
Definition keyText (object : bool) (key : list ascii) : Prop :=
  if object
  then exists w1 k dec w2, key = w1 ++ k ++ w2 ++ [":"%char] /\ white w1 /\ stringText k dec /\ white w2
  else key = [].

Lemma body_last object d key w t w' : keyText object key -> white w -> jsonText d t -> white w' ->
  bodyText object d (key ++ w ++ t ++ w').
Proof.
  destruct object; cbn.
  - intros (w1 & k & dec & w2 & -> & H1 & Hk & H2) Hw Ht Hw'. repeat (rewrite <- !app_assoc; cbn [app]). by eapply m_last.
  - intros -> Hw Ht Hw'. rewrite app_nil_l. by apply e_last.
Qed.

Lemma body_more object d key w t w' more : keyText object key -> white w -> jsonText d t -> white w' -> bodyText object d more ->
  bodyText object d (key ++ w ++ t ++ w' ++ ","%char :: more).
Proof.
  destruct object; cbn.
  - intros (w1 & k & dec & w2 & -> & H1 & Hk & H2) Hw Ht Hw' Hm. repeat (rewrite <- !app_assoc; cbn [app]). by eapply m_more.
  - intros -> Hw Ht Hw' Hm. rewrite app_nil_l. by apply e_more.
Qed.

Lemma sound_key (object : bool) :
  sound (if object then stringValue ;;; expect ":" else ret tt) (fun t _ => keyText object t).
Proof.
  intros c u c' E. destruct object.
  - apply bind_Done in E as (k & c0 & E0 & E1). destruct (sound_stringValue _ _ _ E0) as (t0 & M0 & w1 & k' & -> & Hw1 & Hk).
    destruct (sound_expect _ _ _ _ E1) as (t1 & M1 & w2 & -> & Hw2). exists ((w1 ++ k') ++ w2 ++ [":"%char]).
    split; [by eapply moved_trans|]. exists w1, k', k, w2. by rewrite <- !app_assoc.
  - injection E as <- <-. exists []. split; [apply moved_refl|done].
Qed.

Lemma sound_memberLoop (element : C unit) d object fuel :
  sound element (fun t _ => valueSound d t) ->
  sound (memberLoop element fuel object) (fun t _ => exists body, t = body ++ [stopByte object] /\ bodyText object d body).
Proof.
  intros He. induction fuel as [|fuel IH]; intros c a c' E; [done|]. cbn [memberLoop] in E.
  apply bind_Done in E as (u & c1 & E1 & E). destruct (sound_key object _ _ _ E1) as (key & M1 & Hk).
  apply bind_Done in E as (u2 & c2 & E2 & E). destruct (He _ _ _ E2) as (t2 & M2 & w & t & -> & Hw & Ht).
  apply bind_Done in E as (b & c3 & E3 & E). destruct (sound_separator _ _ _ _ E3) as (t3 & M3 & w' & -> & Hw' & Hb).
  change (if object then "}"%char else "]"%char) with (stopByte object) in *.
  destruct (bool_decide_reflect (b = stopByte object)) as [->|Hne].
  - injection E as <- <-. exists (key ++ (w ++ t) ++ w' ++ [stopByte object]).
    split; [repeat (eapply moved_trans; [done|]); done|]. exists (key ++ w ++ t ++ w').
    split; [by rewrite <- !app_assoc|by apply body_last].
  - destruct Hb as [->| ->]; [done|]. destruct (IH _ _ _ E) as (t4 & M4 & body & -> & Hbody).
    exists (key ++ (w ++ t) ++ (w' ++ [","%char]) ++ body ++ [stopByte object]).
    split; [repeat (eapply moved_trans; [done|]); done|]. exists (key ++ w ++ t ++ w' ++ ","%char :: body).
    split; [by repeat (rewrite <- !app_assoc; cbn [app])|by apply body_more].
Qed.

Lemma text_container d (object : bool) body : d <= maxDepth -> bodyText object (d + 1) body ->
  jsonText d ((if object then "{"%char else "["%char) :: body ++ [stopByte object]).
Proof. destruct object; [apply t_object|apply t_array]. Qed.

Lemma text_empty d (object : bool) w : d <= maxDepth -> white w ->
  jsonText d ((if object then "{"%char else "["%char) :: w ++ [stopByte object]).
Proof. destruct object; [apply t_emptyObject|apply t_emptyArray]. Qed.

Lemma body_white object d w body : white w -> bodyText object d body -> bodyText object d (w ++ body).
Proof.
  intros Hw. destruct object; cbn; intros [].
  - rewrite app_assoc. eapply m_last; try done. by apply Forall_app.
  - rewrite app_assoc. eapply m_more; try done. by apply Forall_app.
  - rewrite app_assoc. apply e_last; try done. by apply Forall_app.
  - rewrite app_assoc. apply e_more; try done. by apply Forall_app.
Qed.

(** A container after its opening byte [x]. *)
Lemma sound_container (element : C unit) fuel d x c0 c1 u c' : d <= maxDepth -> x = "{"%char \/ x = "["%char ->
  sound element (fun t _ => valueSound (d + 1) t) ->
  peekRaw c0 = (Done x, c1) -> container element fuel c1 = (Done u, c') -> exists t, moved c0 t c' /\ jsonText d t.
Proof.
  intros Hd Hx He E0 (b & c2 & E1 & E)%bind_Done. destruct (peek_then_next _ _ _ _ _ E0 E1) as [-> M1].
  assert (x = if bool_decide (x = "{"%char) then "{"%char else "["%char) as HX by (by destruct Hx as [->| ->]).
  revert E. cbv zeta. generalize dependent (bool_decide (x = "{"%char)). intros object HX E.
  change (if object then "}"%char else "]"%char) with (stopByte object) in E.
  apply bind_Done in E as (b & c3 & E3 & E). destruct (peek_inv _ _ _ E3) as (w & c4 & M4 & Hw & E4).
  destruct (bool_decide_reflect (b = stopByte object)) as [->|Hne].
  - apply bind_Done in E as (b' & c5 & E5 & [= <- <-]). destruct (peek_then_next _ _ _ _ _ E4 E5) as [-> M5].
    exists ([x] ++ w ++ [stopByte object]). split; [repeat (eapply moved_trans; [done|]); done|]. rewrite HX. by apply text_empty.
  - destruct (sound_memberLoop element (d + 1) object fuel He _ _ _ E) as (t & M & body & -> & Hb).
    injection E4 as _ <-. exists ([x] ++ w ++ body ++ [stopByte object]).
    split; [repeat (eapply moved_trans; [done|]); done|]. rewrite HX. cbn [app]. rewrite app_assoc.
    by apply text_container, body_white.
Qed.

Lemma sound_value fuel d : sound (value fuel d) (fun t _ => valueSound d t).
Proof.
  revert d. induction fuel as [|fuel IH]; intros d c a c' E; [done|]. cbn [value] in E.
  destruct (Z.ltb_spec maxDepth d) as [|Hd]; [done|]. apply bind_Done in E as (x & c1 & E1 & E).
  destruct (peek_inv _ _ _ E1) as (w & c0 & M0 & Hw & E0).
  assert (forall t, moved c0 t c' -> jsonText d t -> exists t0, moved c t0 c' /\ valueSound d t0) as Hdone.
  { intros t M Ht. exists (w ++ t). split; [by eapply moved_trans|]. by exists w, t. }
  assert (forall w2 t, moved c1 (w2 ++ t) c' -> white w2 -> jsonText d t -> exists t0, moved c t0 c' /\ valueSound d t0) as Hdone'.
  { intros w2 t M Hw2 Ht. injection E0 as _ <-. exists (w ++ w2 ++ t). split; [by eapply moved_trans|].
    exists (w ++ w2), t. rewrite app_assoc. split_and!; [done|by apply Forall_app|done]. }
  destruct (bool_decide_reflect (x = quote)).
  { apply bind_Done in E as (dec & c2 & E2 & [= <- <-]). destruct (sound_stringValue _ _ _ E2) as (t & M & w2 & t' & -> & Hw2 & Ht).
    apply (Hdone' w2 t'); [done|done|]. by eapply t_string. }
  destruct (bool_decide_reflect (x = "{"%char)); [|destruct (bool_decide_reflect (x = "["%char))]; cbn [orb] in E;
    try (destruct (sound_container _ _ d x c0 c1 a c' Hd ltac:(auto) (IH (d + 1)) E0 E) as (t & M & Ht); by apply (Hdone t)).
  destruct (bool_decide (x = "t"%char)); [|destruct (bool_decide (x = "f"%char)); [|destruct (bool_decide (x = "n"%char))]].
  1-3: destruct (sound_literal _ _ _ _ E) as (t & M & ->); apply (Hdone' [] _ M); [constructor|by constructor].
  destruct (sound_number _ _ _ E) as (t & M & w2 & t' & -> & Hw2 & Ht). apply (Hdone' w2 t'); [done|done|by constructor].
Qed.

Lemma sound_finish c u c' : finish c = (Done u, c') -> white (rest c) /\
  match ending c with None => True | Some e => errors_Is e io_EOF = true end.
Proof.
  intros (v & c1 & E1 & E2)%bind_Done. destruct (sound_space _ _ _ E1) as (w & (H1 & _ & H3) & Hw).
  cbn beta in E2. destruct (rest c1) eqn:E; [|done]. rewrite app_nil_r in H1. rewrite H1, <- H3. split; [done|].
  destruct (ending c1) as [e|]; [|done]. by destruct (errors_Is e io_EOF).
Qed.

(** ** Fuel *)

(** With less than [n] bytes left the step does not run out of fuel. *)
Definition safe {A} (m : C A) (n : nat) : Prop :=
  forall c f c', (length (rest c) < n)%nat -> m c = (Fault f, c') -> f <> OutOfFuel.

Definition always {A} (m : C A) : Prop := forall n, safe m n.

Lemma moved_shorter c t c' : moved c t c' -> length (rest c) = (length t + length (rest c'))%nat.
Proof. intros (-> & _). by rewrite length_app. Qed.

Lemma safe_bind {A B} (m : C A) (k : A -> C B) P n :
  sound m P -> safe m n -> (forall a, safe (k a) n) -> safe (bind m k) n.
Proof.
  intros HS Hm Hk c f c' Hl E. unfold bind in E. destruct (m c) as [[a|g] c1] eqn:Em.
  - destruct (HS _ _ _ Em) as (t & M%moved_shorter & _). eapply Hk; [|done]. lia.
  - injection E as <- <-. by eapply Hm.
Qed.

(** After a step that consumed something one unit less is enough. *)
Lemma safe_bind_consume {A B} (m : C A) (k : A -> C B) P n :
  sound m P -> (forall t a, P t a -> t <> []) -> safe m (S n) -> (forall a, safe (k a) n) -> safe (bind m k) (S n).
Proof.
  intros HS HP Hm Hk c f c' Hl E. unfold bind in E. destruct (m c) as [[a|g] c1] eqn:Em.
  - destruct (HS _ _ _ Em) as (t & M%moved_shorter & Ht%HP). eapply Hk; [|done]. destruct t; [done|]. cbn in M. lia.
  - injection E as <- <-. by eapply Hm.
Qed.

Lemma always_ret {A} (a : A) : always (ret a).
Proof. by intros n c f c' _. Qed.
Lemma always_fail {A} : always (@fail A).
Proof. by intros n c f c' _ [= <- <-]. Qed.
Lemma always_nextByte : always nextByte.
Proof.
  intros n c f c' _. unfold nextByte, endFault. destruct (rest c); [|done]. intros [= <- <-].
  destruct (ending c) as [e|]; [|done]. by destruct (errors_Is e io_EOF).
Qed.
Lemma always_space : always space.
Proof. by intros n c f c' _. Qed.
Lemma always_peekRaw : always peekRaw.
Proof. by intros n c f c' _. Qed.
Lemma always_bind {A B} (m : C A) (k : A -> C B) : always m -> (forall a, always (k a)) -> always (bind m k).
Proof.
  intros Hm Hk n c f c' Hl E. unfold bind in E. destruct (m c) as [[a|g] c1] eqn:Em.
  - eapply (Hk a (S (length (rest c1)))); [|done]. lia.
  - injection E as <- <-. by eapply Hm.
Qed.
Create HintDb fuel.
#[export] Hint Resolve always_ret always_fail always_nextByte always_space always_peekRaw : fuel.
#[export] Hint Extern 1 (always (bind _ _)) => apply always_bind; [|intros ?] : fuel.
#[export] Hint Extern 2 (always (match ?x with _ => _ end)) => destruct x : fuel.

Lemma always_peek : always peek.
Proof. unfold peek. auto with fuel. Qed.
Lemma always_expect want : always (expect want).
Proof. unfold expect. auto 10 with fuel. Qed.
Lemma always_separator stop : always (separator stop).
Proof. unfold separator. auto 10 with fuel. Qed.
Lemma always_literal s : always (literal s).
Proof. induction s; cbn [literal]; auto 10 with fuel. Qed.
Lemma always_digits required : always (digits required).
Proof. intros n c f c' _. unfold digits. destruct (_ && _); [|done]. by intros [= <- <-]. Qed.
#[export] Hint Resolve always_peek always_expect always_separator always_literal always_digits : fuel.
Lemma always_exponent : always exponent.
Proof. unfold exponent. auto 20 with fuel. Qed.
#[export] Hint Resolve always_exponent : fuel.
Lemma always_number : always number.
Proof. unfold number. auto 30 with fuel. Qed.
Lemma always_completeRune fuel raw : always (completeRune fuel raw).
Proof. revert raw. induction fuel; intros raw; cbn [completeRune]; auto 10 with fuel. Qed.
Lemma always_hexLoop k r : always (hexLoop k r).
Proof. revert r. induction k; intros r; cbn [hexLoop]; auto 10 with fuel. Qed.
#[export] Hint Resolve always_number always_completeRune always_hexLoop : fuel.
Lemma always_nextStringRune : always nextStringRune.
Proof. unfold nextStringRune, stringRune, rune, escape, unicode, hex. auto 40 with fuel. Qed.
Lemma always_asciiChunk : always asciiChunk.
Proof.
  intros n c f c' _. unfold asciiChunk, endFault. destruct (rest c); [|done]. intros [= <- <-].
  destruct (ending c) as [e|]; [|done]. by destruct (errors_Is e io_EOF).
Qed.
#[export] Hint Resolve always_nextStringRune always_asciiChunk : fuel.

Lemma safe_always {A} (m : C A) n : always m -> safe m n.
Proof. intros H. apply H. Qed.
#[export] Hint Resolve safe_always : fuel.

Lemma item_nonempty t r : item t r -> t <> [].
Proof.
  intros H ->. specialize (H [] [] ch_nil). cbn in H. rewrite app_nil_r in H. inversion H as [E0 E| | | | | | |].
  unfold EncodeRune in E. by repeat case_match.
Qed.

Lemma safe_stringLoop fuel acc : safe (stringLoop fuel acc) fuel.
Proof.
  revert acc. induction fuel as [|fuel IH]; intros acc c f c' Hl E; [lia|]. cbn [stringLoop] in E.
  unfold bind at 1 in E. destruct (asciiChunk c) as [[chunk|g] c1] eqn:Ec.
  2:{ injection E as <- <-. by eapply (always_asciiChunk (S (length (rest c)))); [|done]; lia. }
  destruct (sound_asciiChunk _ _ _ Ec) as (t & M%moved_shorter & -> & _). destruct t as [|x t].
  - unfold bind in E. destruct (nextStringRune c1) as [[o|g] c2] eqn:En.
    + destruct (sound_nextStringRune _ _ _ En) as (t & M2%moved_shorter & Ht). destruct o as [r|]; [|done].
      eapply IH; [|done]. apply item_nonempty in Ht. destruct t; [done|]. cbn in M, M2. lia.
    + injection E as <- <-. by eapply (always_nextStringRune (S (length (rest c1)))); [|done]; lia.
  - eapply IH; [|done]. cbn in M. lia.
Qed.

Lemma always_withFuel {A} (m : nat -> C A) : (forall fuel, safe (m fuel) fuel) -> always (withFuel m).
Proof. intros H n c f c' _ E. unfold withFuel in E. eapply H; [|done]. lia. Qed.

Lemma always_stringValue : always stringValue.
Proof. apply always_bind; [auto with fuel|]. intros _. apply always_withFuel. intros fuel. apply safe_stringLoop. Qed.
#[export] Hint Resolve always_stringValue : fuel.

Lemma valueSound_nonempty d t : valueSound d t -> t <> [].
Proof. intros (w & t' & -> & _ & (b & l & -> & _)%jsonText_starts). by destruct w. Qed.

Lemma safe_memberLoop (element : C unit) d object fuel n : sound element (fun t _ => valueSound d t) -> safe element n ->
  (fuel <= n)%nat -> safe (memberLoop element fuel object) fuel.
Proof.
  intros HS He. induction fuel as [|fuel IH]; intros Hn c f c' Hl E; [lia|]. cbn [memberLoop] in E. revert c f c' Hl E.
  change (safe ((if object then stringValue ;;; expect ":" else ret tt) ;;; element ;;; b <- separator (stopByte object) ;;
    if bool_decide (b = stopByte object) then ret tt else memberLoop element fuel object) (S fuel)).
  eapply safe_bind; [apply sound_key|apply safe_always; destruct object; auto with fuel|]. intros _.
  eapply safe_bind_consume; [done|by intros t _ ?%valueSound_nonempty| |].
  - intros c f c' Hl. apply He. lia.
  - intros _. eapply safe_bind; [apply sound_separator|auto with fuel|]. intros b.
    destruct (bool_decide _); [auto with fuel|]. apply IH. lia.
Qed.

Lemma safe_value fuel d : safe (value fuel d) fuel.
Proof.
  revert d. induction fuel as [|fuel IH]; intros d; [intros c f c' Hl; lia|]. cbn [value].
  destruct (maxDepth <? d); [by intros c f c' _ [= <- <-]|].
  eapply safe_bind; [apply sound_peek|auto with fuel|]. intros b.
  destruct (bool_decide _); [auto with fuel|]. destruct (_ || _).
  - unfold container. eapply safe_bind_consume; [apply sound_nextByte|by intros t a ->|auto with fuel|]. intros opening. cbv zeta.
    eapply safe_bind; [apply sound_peek|auto with fuel|]. intros b'. destruct (bool_decide (b' = _)); [auto with fuel|].
    eapply safe_memberLoop; [apply sound_value|apply IH|done].
  - repeat destruct (bool_decide _); auto with fuel.
Qed.

Lemma always_value d : always (withFuel (fun fuel => value fuel d)).
Proof. apply always_withFuel. intros fuel. apply safe_value. Qed.
Lemma always_finish : always finish.
Proof.
  unfold finish. apply always_bind; [auto with fuel|]. intros _ n c f c' _. destruct (rest c); [|by intros [= <- <-]].
  destruct (ending c) as [e|]; [|done]. destruct (errors_Is e io_EOF); [done|]. by intros [= <- <-].
Qed.
#[export] Hint Resolve always_value always_finish : fuel.
