(* ===== verification/ProviderJsonTheorems.v ===== *)
(** * Provider JSON: properties

    Validation is exactly the grammar, canonical records pass through it unchanged, and
    framing depends only on the bytes of the evidence. *)
From S2P Require Import Prelude GoErrors GoText TaskTypes Encoding ProviderJson ProviderJsonGrammar ProviderJsonSound.
From Stdlib Require Import Ascii.
From Stdlib Require DecimalString DecimalZ DecimalPos DecimalN DecimalFacts.
#[local] Open Scope cursor_scope.

(** The value that is all of a text. *)
Definition whole (l : list ascii) : Value := MkValue (Some (MkReaderAt l None)) 0 (Z.of_nat (length l)).

Lemma slice_whole l : slice l 0 (Z.of_nat (length l)) = l.
Proof. unfold slice. rewrite Z.sub_0_r, Nat2Z.id. cbn [Z.to_nat]. rewrite drop_0. by rewrite take_ge. Qed.

(** ** Validation *)
Lemma run_document l start : run (withFuel (fun fuel => value fuel 0) ;;; finish) (MkCursor l start None) = Done tt <-> document l.
Proof.
  unfold run. split.
  - destruct ((_ ;;; finish) _) as [[u|f] c'] eqn:E; cbn; [|done]. intros _.
    apply bind_Done in E as (u1 & c1 & E1 & E2). destruct (sound_value _ _ _ _ _ E1) as (t & (H1 & _ & H3) & w & t' & -> & Hw & Ht).
    destruct (sound_finish _ _ _ E2) as [Hw' _]. cbn in H1. exists w, t', (rest c1). rewrite H1, <- app_assoc. done.
  - intros (w & t & w' & -> & Hw & Ht & Hw'). unfold bind. rewrite (app_assoc w).
    assert (accepts (withFuel (fun fuel => value fuel 0)) (w ++ t) w' tt) as HA.
    { apply accepts_withFuel. intros fuel Hf. rewrite length_app in Hf. apply (texts_accepted 0); [done|done| |lia].
      destruct Hw' as [|b w' Hb _]; [done|]. cbn. unfold ends. by rewrite Hb. }
    rewrite HA. unfold finish, bind, space. cbn. rewrite <- (app_nil_r w') at 1. rewrite spaces_app by done.
    by rewrite drop_all.
Qed.

Lemma validate_run content start stop : 0 <= start <= stop ->
  Validate (MkValue (Some (MkReaderAt content None)) start stop) =
    run (withFuel (fun fuel => value fuel 0) ;;; finish) (MkCursor (slice content start stop) start None).
Proof.
  intros [H0 Hs]. unfold Validate, valid. cbn [v_Reader v_Start v_End].
  by rewrite (proj2 (Z.ltb_ge start 0)), (proj2 (Z.ltb_ge stop start)) by lia.
Qed.

Lemma validate_whole l : document l -> Validate (whole l) = Done tt.
Proof. intros H. unfold whole. rewrite validate_run by lia. rewrite slice_whole. by apply run_document. Qed.

(** C29: Validation decides the grammar of JSON: on any range of an evidence reader
    without read faults it always ends with a verdict, and it accepts exactly the
    complete documents of RFC 8259 with valid UTF-8, paired surrogates and a nesting of
    at most 10000, surrounded by white space. *)
Theorem validate_exact content start stop :
  0 <= start <= stop ->
  let v := MkValue (Some (MkReaderAt content None)) start stop in
  Validate v <> Fault OutOfFuel /\ (Validate v = Done tt <-> document (slice content start stop)).
Proof.
  intros H0 v. unfold v. rewrite validate_run by done.
  split; [|apply run_document]. unfold run. destruct ((_ ;;; finish) _) as [[u|f] c'] eqn:E; cbn; [done|]. intros [= ->].
  assert (always (withFuel (fun fuel => value fuel 0) ;;; finish)) as HA by auto with fuel.
  by eapply (HA (S (length (slice content start stop)))); [|exact E|]; [cbn; lia|].
Qed.

(** ** Strings *)
Lemma CopyString_exact l dec : CopyString (whole l) = Done dec <->
  exists w t w', l = w ++ t ++ w' /\ white w /\ stringText t dec /\ white w'.
Proof.
  unfold CopyString, whole, valid. cbn [v_Reader v_Start v_End]. rewrite (proj2 (Z.ltb_ge (Z.of_nat (length l)) 0)) by lia.
  change (0 <? 0) with false. cbn [orb]. unfold section. cbn [ra_fails ra_content]. rewrite slice_whole. unfold run. split.
  - destruct ((_ <- _ ;; _) _) as [[u|f] c'] eqn:E; cbn; [|done]. intros [= ->].
    apply bind_Done in E as (u1 & c1 & E1 & E2). destruct (sound_stringValue _ _ _ E1) as (t & (H1 & _ & H3) & w & t' & -> & Hw & Ht).
    apply bind_Done in E2 as (u2 & c2 & E2 & [= <- _]). destruct (sound_finish _ _ _ E2) as [Hw' _]. cbn in H1.
    exists w, t', (rest c1). rewrite H1, <- app_assoc. done.
  - intros (w & t & w' & -> & Hw & Ht & Hw'). unfold bind. rewrite (app_assoc w), (accepts_stringValue w t dec w') by done.
    unfold finish, bind, space. cbn. rewrite <- (app_nil_r w') at 1. rewrite spaces_app by done. by rewrite drop_all.
Qed.

(** ** Canonical records *)

(** What [encoding/json] writes for a string: each invalid byte becomes U+FFFD. *)
Definition sanitize (p : Z * list ascii) : list ascii :=
  if (fst p =? RuneError) && (Z.of_nat (length (snd p)) =? 1) then EncodeRune RuneError else snd p.
Definition sanitized (s : string) : list ascii :=
  concat (map sanitize (runes s)).

(** The runes [for range] yields. *)
Inductive decoded : Z * list ascii -> Prop :=
| d_ascii b : byte_of b < 128 -> decoded (byte_of b, [b])
| d_two a b : two_byte a b = true -> decoded ((byte_of a - 192) * 64 + (byte_of b - 128), [a; b])
| d_three a b c : three_byte a b c = true ->
    decoded ((byte_of a - 224) * 4096 + (byte_of b - 128) * 64 + (byte_of c - 128), [a; b; c])
| d_four a b c d : four_byte a b c d = true ->
    decoded ((byte_of a - 240) * 262144 + (byte_of b - 128) * 4096 + (byte_of c - 128) * 64 + (byte_of d - 128), [a; b; c; d])
| d_invalid a : decoded (RuneError, [a]).

Lemma decodeRunes_step a l : exists p more, decodeRunes (a :: l) = p :: decodeRunes more /\ decoded p /\
  a :: l = snd p ++ more /\ (length more <= length l)%nat.
Proof.
  cbn [decodeRunes]. destruct (Z.ltb_spec (byte_of a) 128); [eexists _, l; split_and!; [done|by constructor|done|lia]|].
  assert (exists p more, (RuneError, [a]) :: decodeRunes l = p :: decodeRunes more /\ decoded p /\
    a :: l = snd p ++ more /\ (length more <= length l)%nat) as Hbad
    by (eexists _, l; split_and!; [done|constructor|done|lia]).
  destruct l as [|b l2]; [done|].
  destruct (two_byte a b) eqn:E2; [eexists _, l2; split_and!; [done|by constructor|done|cbn; lia]|].
  destruct l2 as [|c l3]; [done|].
  destruct (three_byte a b c) eqn:E3; [eexists _, l3; split_and!; [done|by constructor|done|cbn; lia]|].
  destruct l3 as [|d l4]; [done|].
  destruct (four_byte a b c d) eqn:E4; [eexists _, l4; split_and!; [done|by constructor|done|cbn; lia]|done].
Qed.

Lemma decodeRunes_spec l : Forall decoded (decodeRunes l) /\ concat (map snd (decodeRunes l)) = l.
Proof.
  induction l as [l IH] using (induction_ltof1 _ (@length ascii)). destruct l as [|a l]; [done|].
  destruct (decodeRunes_step a l) as (p & l' & -> & Hp & E & Hl). destruct (IH l') as [IH1 IH2]; [unfold ltof; cbn; lia|].
  split; [by constructor|]. cbn. by rewrite IH2, E.
Qed.

(** The escapes of a canonical string are items of the grammar. *)
Lemma hexValue_hexDigit d : 0 <= d < 16 -> hexValue (hexDigit d) = Some d.
Proof.
  intros H. assert (d = 0 \/ d = 1 \/ d = 2 \/ d = 3 \/ d = 4 \/ d = 5 \/ d = 6 \/ d = 7 \/ d = 8 \/ d = 9 \/
    d = 10 \/ d = 11 \/ d = 12 \/ d = 13 \/ d = 14 \/ d = 15) as Hd by lia.
  repeat (destruct Hd as [->|Hd]; [reflexivity|]). by subst.
Qed.

Lemma item_unicode a b c d : 0 <= a < 16 -> 0 <= b < 16 -> 0 <= c < 16 -> 0 <= d < 16 ->
  let r := ((a * 16 + b) * 16 + c) * 16 + d in ~ 55296 <= r <= 57343 ->
  item ("\"%char :: "u"%char :: map hexDigit [a; b; c; d]) r.
Proof.
  intros Ha Hb Hc Hd r Hr raw dec H. apply (ch_unicode (map hexDigit [a; b; c; d])); [|done|done].
  exists (hexDigit a), (hexDigit b), (hexDigit c), (hexDigit d), a, b, c, d. by rewrite !hexValue_hexDigit.
Qed.

Lemma item_simple b r : simpleEscape b = Some r -> item ["\"%char; b] r.
Proof. intros H raw dec Hc. by apply ch_escape. Qed.

Lemma EncodeRune_ascii b : byte_of b < 128 -> EncodeRune (byte_of b) = [b].
Proof. intros H. unfold EncodeRune. rewrite (proj2 (Z.ltb_lt _ _) H). by rewrite byte_byteOf. Qed.

Lemma item_plain b : plain b = true -> byte_of b < 128 -> item [b] (byte_of b).
Proof. intros H Hb raw dec Hc. rewrite EncodeRune_ascii by done. by apply ch_plain. Qed.

Lemma byte_of_eq b c : byte_of b = byte_of c -> b = c.
Proof. intros H. rewrite <- (byte_byteOf b), H. apply byte_byteOf. Qed.

Lemma byte_of_bounds b : 0 <= byte_of b < 256.
Proof. apply byte_range. Qed.

Lemma escape_ascii b : byte_of b < 128 -> item (escapeRune (byte_of b, [b])) (byte_of b).
Proof.
  intros Hb. pose proof (byte_of_bounds b) as Hr. unfold escapeRune. cbn [fst snd]. rewrite (proj2 (Z.ltb_lt _ _) Hb).
  destruct ((byte_of b =? 34) || (byte_of b =? 92)) eqn:E1.
  { rewrite orb_true_iff, !Z.eqb_eq in E1. apply item_simple.
    destruct E1 as [E|E]; [apply (byte_of_eq b quote) in E as ->|apply (byte_of_eq b "\"%char) in E as ->]; reflexivity. }
  rewrite orb_false_iff, !Z.eqb_neq in E1.
  destruct (Z.eqb_spec (byte_of b) 8) as [->|]; [by apply item_simple|].
  destruct (Z.eqb_spec (byte_of b) 12) as [->|]; [by apply item_simple|].
  destruct (Z.eqb_spec (byte_of b) 10) as [->|]; [by apply item_simple|].
  destruct (Z.eqb_spec (byte_of b) 13) as [->|]; [by apply item_simple|].
  destruct (Z.eqb_spec (byte_of b) 9) as [->|]; [by apply item_simple|].
  destruct (_ || _) eqn:E2.
  - assert (((0 * 16 + 0) * 16 + byte_of b / 16) * 16 + byte_of b mod 16 = byte_of b) as E by (Z.to_euclidean_division_equations; lia).
    rewrite <- E at 3. apply item_unicode; rewrite ?E; try lia; Z.to_euclidean_division_equations; lia.
  - rewrite !orb_false_iff, Z.ltb_ge in E2. apply item_plain; [|done]. apply plain_intro; [lia|intros ->; exact (proj1 E1 eq_refl)|intros ->; exact (proj2 E1 eq_refl)].
Qed.

Lemma escape_wide r u : 128 <= r -> (r =? RuneError) && (Z.of_nat (length u) =? 1) = false -> EncodeRune r = u -> item u r ->
  item (escapeRune (r, u)) r.
Proof.
  intros Hr Hb Hu Hi. unfold escapeRune. cbn [fst snd]. rewrite (proj2 (Z.ltb_ge _ _) Hr), Hb.
  destruct (_ || _) eqn:E; [|done]. rewrite orb_true_iff, !Z.eqb_eq in E.
  assert (((2 * 16 + 0) * 16 + 2) * 16 + r mod 16 = r) as Er by (destruct E as [->| ->]; reflexivity).
  rewrite <- Er at 2. apply item_unicode; rewrite ?Er; try lia; Z.to_euclidean_division_equations; lia.
Qed.

Lemma escape_item p : decoded p -> exists r, item (escapeRune p) r /\ EncodeRune r = sanitize p.
Proof.
  unfold sanitize. destruct 1 as [b Hb|a b H|a b c H|a b c d H|a]; cbn [fst snd].
  - exists (byte_of b). split; [by apply escape_ascii|]. rewrite EncodeRune_ascii by done. rewrite (proj2 (Z.eqb_neq _ _)); [done|]. unfold RuneError. lia.
  - eexists. rewrite andb_false_r. split; [|by apply EncodeRune_two].
    apply escape_wide; [|by rewrite andb_false_r|by apply EncodeRune_two|by apply item_two]. apply two_byte_spec in H. lia.
  - eexists. rewrite andb_false_r. split; [|by apply EncodeRune_three].
    apply escape_wide; [|by rewrite andb_false_r|by apply EncodeRune_three|by apply item_three].
    apply three_byte_spec in H as (H1 & H2 & H3). if_cases; lia.
  - eexists. rewrite andb_false_r. split; [|by apply EncodeRune_four].
    apply escape_wide; [|by rewrite andb_false_r|by apply EncodeRune_four|by apply item_four].
    apply four_byte_spec in H as (H1 & H2 & H3 & H4). if_cases; lia.
  - exists RuneError. split; [|done]. apply (item_unicode 15 15 15 13); lia.
Qed.

Lemma escaped_chars l : Forall decoded l -> chars (concat (map escapeRune l)) (concat (map sanitize l)).
Proof.
  induction 1 as [|p l Hp _ IH]; cbn; [constructor|]. destruct (escape_item p Hp) as (r & Hi & <-). by apply Hi.
Qed.

Lemma canonical_string s : stringText (jsonString s) (sanitized s).
Proof. eexists. split; [reflexivity|]. apply escaped_chars, decodeRunes_spec. Qed.

Lemma sanitized_valid s : ValidString s = true -> sanitized s = bytes s.
Proof.
  unfold ValidString, sanitized, runes. rewrite forallb_forall. intros H. rewrite <- (proj2 (decodeRunes_spec (bytes s))) at 2.
  f_equal. apply map_ext_in. intros p Hp%H. unfold sanitize. by apply negb_true_iff in Hp as ->.
Qed.

(** Integers have no leading zeros. *)
Lemma digitText_uint u : digitText (bytes (DecimalString.NilEmpty.string_of_uint u)).
Proof. induction u; cbn; repeat constructor; done. Qed.

Lemma to_uint_no_zero p u : Pos.to_uint p <> Decimal.D0 u.
Proof.
  intros E. pose proof (DecimalPos.Unsigned.to_of (Pos.to_uint p)) as H. rewrite DecimalPos.Unsigned.of_to in H.
  change (N.to_uint (N.pos p)) with (Pos.to_uint p) in H. unfold Decimal.unorm in H.
  destruct (Decimal.nzhead (Pos.to_uint p)) as [|u'| | | | | | | | | ] eqn:EZ; try congruence.
  - by apply DecimalPos.Unsigned.to_uint_nonzero in H.
  - by apply DecimalFacts.nzhead_nonzero in EZ.
Qed.

Lemma positive_integerText p : integerText (bytes (DecimalString.NilZero.string_of_uint (Pos.to_uint p))).
Proof.
  pose proof (DecimalPos.Unsigned.to_uint_nonnil p) as Hn. pose proof (to_uint_no_zero p) as H0.
  destruct (Pos.to_uint p) as [|u|u|u|u|u|u|u|u|u|u]; [done|by destruct (H0 u)|..];
    cbn; (constructor; [reflexivity|done|apply digitText_uint]).
Qed.

Lemma decimal_numberText n : numberText (decimalText n).
Proof.
  rewrite <- (app_nil_r (decimalText n)). unfold decimalText. destruct n as [|p|p].
  - apply (number_text [] ["0"%char] [] []); [by left|constructor..].
  - apply (number_text [] _ [] []); [by left|apply positive_integerText|constructor..].
  - apply (number_text ["-"%char] _ [] []); [by right|apply positive_integerText|constructor..].
Qed.

(** The arrays and objects of a value inside one another. *)
Fixpoint nesting (j : json) : Z :=
  match j with
  | JArray (x :: l) => 1 + foldr (fun j n => Z.max (nesting j) n) (nesting x) l
  | JObject ((_, x) :: l) => 1 + foldr (fun f n => Z.max (nesting (snd f)) n) (nesting x) l
  | _ => 0
  end.

Lemma json_forall (P : json -> Prop) :
  (forall s, P (JString s)) -> (forall n, P (JInt n)) -> (forall b, P (JBool b)) ->
  (forall l, Forall P l -> P (JArray l)) -> (forall l, Forall (fun f => P (snd f)) l -> P (JObject l)) -> forall j, P j.
Proof.
  intros HS HI HB HA HO. fix IH 1. intros [s|n|b|l|l]; [apply HS|apply HI|apply HB|apply HA|apply HO].
  - induction l as [|x l IHl]; constructor; [apply IH|apply IHl].
  - induction l as [|[k x] l IHl]; constructor; [apply IH|apply IHl].
Qed.

Lemma fold_max {A} (f : A -> Z) l x a : a ∈ x :: l -> f a <= foldr (fun y n => Z.max (f y) n) (f x) l.
Proof.
  induction l as [|y l IH]; cbn.
  - rewrite elem_of_cons, elem_of_nil. intros [->|[]]. lia.
  - rewrite !elem_of_cons in *. intros [->|[->|H]]; [specialize (IH (or_introl eq_refl)); lia|lia|]. specialize (IH (or_intror H)). lia.
Qed.

Lemma jsonText_depth d t : jsonText d t -> d <= maxDepth.
Proof. by inversion 1. Qed.

Lemma elements_commaSep d l : l <> [] -> Forall (jsonText d) l -> elementsText d (commaSep l).
Proof.
  intros Hl H. induction H as [|t l Ht H IH]; [done|]. destruct l as [|t' l].
  - cbn. rewrite <- (app_nil_r t). apply (e_last d [] t []); first [done|by constructor].
  - apply (e_more d [] t [] (commaSep (t' :: l))); [constructor|done|constructor|by apply IH].
Qed.

Definition memberText (d : Z) (m : list ascii) : Prop :=
  exists k dec t, m = k ++ ":"%char :: t /\ stringText k dec /\ jsonText d t.

Lemma members_commaSep d l : l <> [] -> Forall (memberText d) l -> membersText d (commaSep l).
Proof.
  intros Hl H. induction H as [|m l (k & dec & t & -> & Hk & Ht) H IH]; [done|]. destruct l as [|m' l].
  - cbn. rewrite <- (app_nil_r t). apply (m_last d [] k dec [] [] t []); first [done|by constructor].
  - change (commaSep (_ :: _)) with ((k ++ ":"%char :: t) ++ ","%char :: commaSep (m' :: l)). rewrite <- app_assoc.
    apply (m_more d [] k dec [] [] t [] (commaSep (m' :: l))); first [done|by constructor|by apply IH].
Qed.

Lemma render_text j : forall d, d + nesting j <= maxDepth -> jsonText d (render j).
Proof.
  induction j as [s|n|b|l IH|l IH] using json_forall; intros d Hd; cbn in Hd.
  - apply (t_string d _ (sanitized s)); [lia|apply canonical_string].
  - apply t_number; [lia|apply decimal_numberText].
  - destruct b; [apply t_true|apply t_false]; lia.
  - destruct l as [|x l]; [by apply (t_emptyArray d []); [lia|constructor]|].
    assert (forall y, y ∈ x :: l -> jsonText (d + 1) (render y)) as H.
    { intros y Hy. rewrite Forall_forall in IH. apply IH; [done|]. pose proof (fold_max nesting l x y Hy). lia. }
    apply t_array; [pose proof (jsonText_depth _ _ (H x ltac:(by left))); lia|]. apply elements_commaSep; [done|].
    apply Forall_map, Forall_forall. exact H.
  - destruct l as [|[k x] l]; [by apply (t_emptyObject d []); [lia|constructor]|].
    assert (forall f, f ∈ (k, x) :: l -> jsonText (d + 1) (render (snd f))) as H.
    { intros f Hf. rewrite Forall_forall in IH. apply IH; [done|]. pose proof (fold_max (fun f => nesting (snd f)) l (k, x) f Hf). cbn in *. lia. }
    apply t_object; [pose proof (jsonText_depth _ _ (H (k, x) ltac:(by left))); lia|]. apply members_commaSep; [done|].
    apply Forall_map, Forall_forall. intros f Hf. exists (jsonString (fst f)), (sanitized (fst f)), (render (snd f)).
    split_and!; [done|apply canonical_string|by apply H].
Qed.

Lemma canonical_document j : nesting j <= maxDepth -> document (bytes (MarshalCanonical j)).
Proof.
  intros H. exists [], (render j), ["010"%char]. unfold MarshalCanonical. rewrite bytes_str.
  split_and!; [done|constructor|by apply render_text|by repeat constructor].
Qed.

(** A canonical record goes through native evidence unchanged: whatever
    [task.MarshalCanonical] writes, up to the nesting limit, validates as a JSON
    document, and a string comes back from [CopyString] as it was written, each invalid
    byte replaced by U+FFFD; in particular [String] returns every valid string within
    its limit. *)
Theorem canonical_evidence_roundtrip j :
  nesting j <= maxDepth ->
  Validate (whole (bytes (MarshalCanonical j))) = Done tt /\
  forall s limit, j = JString s ->
    CopyString (whole (bytes (MarshalCanonical j))) = Done (sanitized s) /\
    (ValidString s = true -> len s <= limit -> String (whole (bytes (MarshalCanonical j))) limit = Done s).
Proof.
  intros Hj. split; [by apply validate_whole, canonical_document|]. intros s limit ->.
  assert (CopyString (whole (bytes (MarshalCanonical (JString s)))) = Done (sanitized s)) as HC.
  { apply CopyString_exact. exists [], (jsonString s), ["010"%char]. unfold MarshalCanonical. rewrite bytes_str.
    split_and!; [done|constructor|apply canonical_string|by repeat constructor]. }
  split; [done|]. intros Hs Hl. unfold String. rewrite HC, sanitized_valid by done.
  rewrite (proj2 (Z.ltb_ge _ _)); [by rewrite str_bytes|]. rewrite length_list_ascii. exact Hl.
Qed.

(** An array of numbers is a document; a number with a leading zero is not. *)
Lemma validate_exact_witness :
  document (bytes " [0,-1.5e3] ") /\ ~ document (bytes "01").
Proof.
  split.
  - apply (proj1 (proj2 (validate_exact (bytes " [0,-1.5e3] ") 0 12 ltac:(lia)))). reflexivity.
  - intros H. apply (proj2 (proj2 (validate_exact (bytes "01") 0 2 ltac:(lia)))) in H. discriminate H.
Defined.

Lemma canonical_evidence_roundtrip_witness :
  nesting (JArray [JString "a<b"]) <= maxDepth /\
  Validate (whole (bytes (MarshalCanonical (JArray [JString "a<b"])))) = Done tt /\
  String (whole (bytes (MarshalCanonical (JString "a<b")))) 3 = Done "a<b"%string.
Proof.
  assert (nesting (JArray [JString "a<b"]) <= maxDepth) as H by (vm_compute; done).
  assert (nesting (JString "a<b") <= maxDepth) as H' by (vm_compute; done).
  split; [done|]. split; [exact (proj1 (canonical_evidence_roundtrip _ H))|].
  apply (proj2 (canonical_evidence_roundtrip _ H') "a<b"%string 3 eq_refl); [reflexivity|vm_compute; done].
Defined.
