(* ===== verification/ProviderJsonFields.v ===== *)
(** * Selected fields of canonical records

    [Value.Object] over a record [task.MarshalCanonical] wrote: the fields it selects
    are the ranges of the record that hold their values. *)
From S2P Require Import Prelude GoErrors GoText TaskTypes Encoding ProviderJson ProviderJsonGrammar ProviderJsonSound ProviderJsonTheorems.
From Stdlib Require Import Ascii.
#[local] Open Scope cursor_scope.

(** The text of a field and where its value lies. *)
Definition fieldText (f : string * json) : list ascii := jsonString (fst f) ++ ":"%char :: render (snd f).

Definition placedField (reader : option ReaderAt) (p : Z) (f : string * json) : Value :=
  MkValue reader (p + Z.of_nat (length (jsonString (fst f))) + 1) (p + Z.of_nat (length (fieldText f))).

Fixpoint placed (reader : option ReaderAt) (p : Z) (fields : list (string * json)) : list (string * Value) :=
  match fields with
  | [] => []
  | f :: fields' => (fst f, placedField reader p f) :: placed reader (p + Z.of_nat (length (fieldText f)) + 1) fields'
  end.

Lemma fieldText_length f :
  Z.of_nat (length (fieldText f)) = Z.of_nat (length (jsonString (fst f))) + 1 + Z.of_nat (length (render (snd f))).
Proof. unfold fieldText. rewrite length_app. cbn. lia. Qed.

Lemma slice_middle pre t post start : start = Z.of_nat (length pre) ->
  slice (pre ++ t ++ post) start (start + Z.of_nat (length t)) = t.
Proof.
  intros ->. unfold slice. rewrite Z.add_simpl_l, !Nat2Z.id, drop_app_length. apply take_app_length.
Qed.

(** ** Selection *)
Section selection.
Context (orbit : Z -> Z).

Fixpoint selectAll (names : list string) (acc : gmap string Value) (l : list (string * Value)) : outcome (gmap string Value) :=
  match l with
  | [] => Done acc
  | (k, v) :: l' => match selectField orbit acc names k v with Done acc' => selectAll names acc' l' | Fault f => Fault f end
  end.

Lemma EqualFold_refl s : EqualFold orbit s s = true.
Proof. by apply bool_decide_eq_true. Qed.

Lemma selectField_unmatched fields names key v : (forall name, name ∈ names -> EqualFold orbit key name = false) ->
  selectField orbit fields names key v = Done fields.
Proof.
  revert fields. induction names as [|name names IH]; intros fields H; cbn; [done|].
  rewrite (H name) by set_solver. cbn. apply IH. set_solver.
Qed.

Lemma selectField_exact fields names key v : NoDup names -> fields !! key = None ->
  (forall name, name ∈ names -> EqualFold orbit key name = true -> key = name) ->
  selectField orbit fields names key v = Done (if decide (key ∈ names) then <[key := v]> fields else fields).
Proof.
  intros Hn Hf. induction Hn as [|name names Hin Hn IH]; intros H; cbn; [done|].
  destruct (EqualFold orbit key name) eqn:E; cbn.
  - apply H in E as <-; [|set_solver]. rewrite Hf. rewrite eqs_refl. rewrite bool_decide_false by by intros []. cbn.
    rewrite decide_True by set_solver. apply selectField_unmatched. intros name Hname.
    destruct (EqualFold orbit key name) eqn:E; [|done]. by rewrite (H name) in Hin by set_solver.
  - rewrite IH by set_solver. assert (key <> name) by (intros ->; by rewrite EqualFold_refl in E).
    destruct (decide (key ∈ names)); [by rewrite decide_True by set_solver|by rewrite decide_False by set_solver].
Qed.

Lemma selectAll_exact names l acc : NoDup names -> NoDup (map fst l) ->
  (forall kv, kv ∈ l -> acc !! kv.1 = None) ->
  (forall kv name, kv ∈ l -> name ∈ names -> EqualFold orbit kv.1 name = true -> kv.1 = name) ->
  exists m, selectAll names acc l = Done m /\
    (forall name v, m !! name = Some v <-> acc !! name = Some v \/ (name, v) ∈ l /\ name ∈ names).
Proof.
  intros Hn. revert acc. induction l as [|[k v] l IH]; intros acc Hl Ha H; cbn [selectAll].
  - exists acc. split; [done|]. set_solver.
  - cbn in Hl. apply NoDup_cons in Hl as [Hk Hl]. rewrite selectField_exact; [|done|apply (Ha (k, v)); set_solver|].
    2:{ intros name. apply (H (k, v)). set_solver. }
    destruct (IH (if decide (k ∈ names) then <[k := v]> acc else acc)) as (m & Hm & Hspec); [done| |set_solver|].
    + intros [k' v'] Hin. cbn. assert (k' <> k) by (intros ->; apply Hk; by apply (list_elem_of_fmap_2 fst l (k, v'))).
      specialize (Ha (k', v') ltac:(set_solver)). cbn in Ha. destruct (decide _); [by rewrite lookup_insert_ne|done].
    + exists m. split; [done|]. intros name v'. rewrite Hspec. specialize (Ha (k, v) ltac:(set_solver)). cbn in Ha.
      destruct (decide (k ∈ names)); [|set_solver]. rewrite lookup_insert_Some. set_solver.
Qed.
End selection.

(** ** Reading the members *)

(** Runs the first step of a sequence by a lemma on what it accepts. *)
Ltac accept_step H := unfold bind at 1; let E := fresh in pose proof H as E; unfold accepts in E; cbn [app] in E; rewrite E; clear E.

Lemma member_canonical reader f r p e : ValidString (fst f) = true -> len (fst f) <= 4096 -> nesting (snd f) <= maxDepth ->
  follows r ->
  member reader (MkCursor (fieldText f ++ r) p e) =
    (Done (Some (fst f), placedField reader p f), MkCursor r (p + Z.of_nat (length (fieldText f))) e).
Proof.
  intros Hv Hl Hn Hr. pose proof (render_text (snd f) 0 ltac:(lia)) as HT. unfold member, fieldText at 1.
  rewrite <- app_assoc. cbn [app].
  accept_step (accepts_stringValue [] (jsonString (fst f)) (sanitized (fst f)) (":"%char :: render (snd f) ++ r) (Forall_nil_2 _) (canonical_string _)).
  accept_step (accepts_expect ":" [] (render (snd f) ++ r) (Forall_nil_2 _) eq_refl).
  accept_step (accepts_space [] (render (snd f) ++ r) (Forall_nil_2 _) (jsonText_startsPlain _ _ _ HT)). unfold bind at 1. unfold bind at 1.
  rewrite (accepts_withFuel _ (render (snd f)) r tt) by (intros fuel Hf; apply (proj1 (texts_accepted 0) _ HT fuel [] r); [constructor|done|lia]).
  cbn [bind ret pos length]. unfold bind, ret. rewrite sanitized_valid by done. rewrite (proj2 (Z.ltb_ge 4096 _)) by (rewrite length_list_ascii; exact Hl).
  rewrite str_bytes. unfold placedField. rewrite fieldText_length. by rewrite !Z.add_0_r, !Z.add_assoc.
Qed.

Definition readable (f : string * json) : Prop :=
  ValidString (fst f) = true /\ len (fst f) <= 4096 /\ nesting (snd f) <= maxDepth.

Lemma objectLoop_canonical orbit reader names fields : fields <> [] -> Forall readable fields ->
  forall fuel acc m r p e, (length fields <= fuel)%nat ->
  selectAll orbit names acc (placed reader p fields) = Done m ->
  objectLoop orbit fuel reader names acc (MkCursor (commaSep (map fieldText fields) ++ "}"%char :: r) p e) =
    (Done m, MkCursor r (p + Z.of_nat (length (commaSep (map fieldText fields))) + 1) e).
Proof.
  intros Hne HF. induction HF as [|f fields (Hv & Hl & Hn) HF IH]; [done|]. intros fuel acc m r p e Hf Hsel.
  destruct fuel as [|fuel]; [cbn in Hf; lia|]. cbn [selectAll placed] in Hsel.
  destruct (selectField orbit acc names (fst f) (placedField reader p f)) as [acc'|] eqn:Es; [|done].
  destruct fields as [|g fields].
  - cbn [map commaSep objectLoop]. unfold bind at 1. rewrite member_canonical by done. cbn [fst snd]. unfold bind at 1. rewrite Es.
    accept_step (accepts_separator "}" "}" [] r (Forall_nil_2 _) eq_refl (or_introl eq_refl)). cbn in Hsel. injection Hsel as ->. done.
  - change (commaSep (map fieldText (f :: g :: fields))) with (fieldText f ++ ","%char :: commaSep (map fieldText (g :: fields))).
    rewrite <- app_assoc. cbn [app objectLoop]. unfold bind at 1. rewrite member_canonical by done. cbn [fst snd]. unfold bind at 1. rewrite Es.
    accept_step (accepts_separator "}" "," [] (commaSep (map fieldText (g :: fields)) ++ "}"%char :: r) (Forall_nil_2 _) eq_refl (or_intror eq_refl)).
    rewrite bool_decide_false by done. cbn [length]. rewrite (IH ltac:(done) fuel acc' m); [|cbn in *; lia|done].
    do 2 f_equal. rewrite length_app. cbn [length]. lia.
Qed.

(** ** The ranges of the values *)
Lemma placed_keys reader p fields : map fst (placed reader p fields) = map fst fields.
Proof. revert p. induction fields as [|f fields IH]; intros p; cbn; [done|]. by rewrite IH. Qed.

Lemma placed_slice reader f fields : f ∈ fields -> forall pre post, exists q,
  (fst f, placedField reader q f) ∈ placed reader (Z.of_nat (length pre)) fields /\ 0 <= q /\
  slice (pre ++ commaSep (map fieldText fields) ++ post) (v_Start (placedField reader q f)) (v_End (placedField reader q f)) =
    render (snd f).
Proof.
  induction fields as [|g fields IH]; [set_solver|]. rewrite elem_of_cons. intros [->|Hf] pre post.
  - exists (Z.of_nat (length pre)). split_and!; [cbn [placed]; set_solver|lia|].
    assert (exists more, commaSep (map fieldText (g :: fields)) = fieldText g ++ more) as (more & ->)
      by (destruct fields; [exists []; by rewrite app_nil_r|by eexists]).
    unfold placedField. cbn [v_Start v_End]. unfold fieldText at 1.
    replace (pre ++ _) with ((pre ++ jsonString (fst g) ++ [":"%char]) ++ render (snd g) ++ (more ++ post))
      by (by rewrite <- !app_assoc).
    rewrite fieldText_length, !Z.add_assoc. apply slice_middle. rewrite !length_app. cbn. lia.
  - destruct fields as [|h fields]; [set_solver|].
    destruct (IH Hf (pre ++ fieldText g ++ [","%char]) post) as (q & H1 & H2 & H3). exists q. split_and!; [|done|].
    + cbn [placed]. apply elem_of_cons. right. revert H1. rewrite !length_app. cbn [length].
      by replace (Z.of_nat (length pre + (length (fieldText g) + 1))) with (Z.of_nat (length pre) + Z.of_nat (length (fieldText g)) + 1) by lia.
    + rewrite <- H3. f_equal. change (commaSep (map fieldText (g :: h :: fields)))
        with (fieldText g ++ ","%char :: commaSep (map fieldText (h :: fields))). by rewrite <- !app_assoc.
Qed.

Lemma Raw_range l start stop limit : 0 <= start <= stop -> stop <= Z.of_nat (length l) -> stop - start <= limit ->
  Raw (MkValue (Some (MkReaderAt l None)) start stop) limit = Done (slice l start stop).
Proof.
  intros H1 H2 H3. unfold Raw, valid. cbn [v_Reader v_Start v_End].
  rewrite (proj2 (Z.ltb_ge start 0)), (proj2 (Z.ltb_ge stop start)), (proj2 (Z.ltb_ge limit _)) by lia. cbn [orb].
  unfold section. cbn [ra_fails ra_content ending rest]. rewrite (proj2 (Z.eqb_eq _ _)); [done|].
  unfold slice. rewrite length_take, length_drop. lia.
Qed.

Lemma commaSep_length fields : (length fields <= S (length (commaSep (map fieldText fields))))%nat.
Proof.
  induction fields as [|f [|g fields] IH]; [cbn; lia..|].
  change (commaSep (map fieldText (f :: g :: fields))) with (fieldText f ++ ","%char :: commaSep (map fieldText (g :: fields))).
  rewrite length_app. cbn [length] in *. lia.
Qed.

(** [Object] over the whole of a canonical record is the selection of its placed fields. *)
Lemma Object_canonical orbit fields names m : Forall readable fields ->
  let reader := Some (MkReaderAt (bytes (MarshalCanonical (JObject fields))) None) in
  selectAll orbit names ∅ (placed reader 1 fields) = Done m ->
  Object orbit (whole (bytes (MarshalCanonical (JObject fields)))) names = Done m.
Proof.
  intros HF reader Hsel. unfold Object, valid, whole. cbn [v_Reader v_Start v_End].
  rewrite (proj2 (Z.ltb_ge (Z.of_nat (length _)) 0)) by lia. change (0 <? 0) with false. cbn [orb].
  unfold section. cbn [ra_fails ra_content]. rewrite slice_whole. fold reader. unfold run.
  unfold MarshalCanonical. rewrite bytes_str.
  change (render (JObject fields)) with (["{"%char] ++ commaSep (map fieldText fields) ++ ["}"%char]).
  rewrite <- !app_assoc. cbn [app].
  accept_step (accepts_expect "{" [] (commaSep (map fieldText fields) ++ ["}"%char; "010"%char]) (Forall_nil_2 _) eq_refl).
  destruct fields as [|f fields].
  - cbn in *. by injection Hsel as ->.
  - assert (exists t, commaSep (map fieldText (f :: fields)) = quote :: t) as (t & Et) by (destruct fields; by eexists).
    rewrite Et. cbn [app]. accept_step (accepts_peek [] (quote :: t ++ ["}"%char; "010"%char]) (Forall_nil_2 _) eq_refl).
    cbn [head default from_option id]. rewrite bool_decide_false by done. rewrite app_comm_cons, <- Et.
    unfold bind at 1, withFuel. rewrite (objectLoop_canonical orbit reader names (f :: fields) ltac:(done) HF _ ∅ m); [done| |exact Hsel].
    cbn [rest]. rewrite length_app. pose proof (commaSep_length (f :: fields)). lia.
Qed.

Lemma nesting_fields f fields : f ∈ fields -> nesting (JObject fields) <= maxDepth -> nesting (snd f) <= maxDepth.
Proof.
  destruct fields as [|[k x] fields]; [set_solver|]. intros Hf H. pose proof (fold_max (fun f => nesting (snd f)) fields (k, x) f Hf) as HM.
  cbn in H, HM. lia.
Qed.

(** The value of a placed field is read back whole. *)
Lemma placed_Raw l f q limit : 0 <= q -> Z.of_nat (length (render (snd f))) <= limit -> nesting (snd f) <= maxDepth ->
  let v := placedField (Some (MkReaderAt l None)) q f in
  slice l (v_Start v) (v_End v) = render (snd f) -> Raw v limit = Done (render (snd f)).
Proof.
  intros H0 Hlim Hn v Hs. rewrite <- Hs. pose proof (fieldText_length f) as HL.
  destruct (jsonText_starts 0 (render (snd f)) (render_text (snd f) 0 ltac:(lia))) as (b & t & E & _).
  pose proof (f_equal length Hs) as HS. unfold slice in HS. rewrite length_take, length_drop in HS.
  assert (0 < length (render (snd f)))%nat by (rewrite E; cbn; lia).
  unfold v, placedField in *. cbn [v_Start v_End] in *. apply Raw_range; lia.
Qed.

(** C30: Reading selected fields back from a canonical record: for a record whose keys
    are valid, at most 4096 bytes long and pairwise different, [Object] with distinct
    names that no key matches only up to case succeeds, selects exactly the names the
    record has, and the value it gives for a name holds exactly the bytes
    [task.MarshalCanonical] wrote for that field, which [Raw] returns. *)
Theorem canonical_fields_selected orbit fields names :
  nesting (JObject fields) <= maxDepth ->
  (forall f, f ∈ fields -> ValidString (fst f) = true /\ len (fst f) <= 4096) ->
  NoDup (map fst fields) -> NoDup names ->
  (forall key name, key ∈ map fst fields -> name ∈ names -> EqualFold orbit key name = true -> key = name) ->
  exists m, Object orbit (whole (bytes (MarshalCanonical (JObject fields)))) names = Done m /\
    (forall name, is_Some (m !! name) <-> name ∈ names /\ name ∈ map fst fields) /\
    forall f limit, f ∈ fields -> fst f ∈ names -> Z.of_nat (length (render (snd f))) <= limit ->
      exists v, m !! fst f = Some v /\ Raw v limit = Done (render (snd f)).
Proof.
  intros Hn Hf Hk Hu Hfold. set (l := bytes (MarshalCanonical (JObject fields))). set (reader := Some (MkReaderAt l None)).
  destruct (selectAll_exact orbit names (placed reader 1 fields) ∅ Hu) as (m & Hm & Hspec).
  { by rewrite placed_keys. }
  { intros kv _. apply lookup_empty. }
  { intros kv name Hkv. apply Hfold. rewrite <- (placed_keys reader 1 fields). by apply (list_elem_of_fmap_2 fst). }
  exists m. split; [|split].
  - apply Object_canonical; [|done]. apply Forall_forall. intros f Hin. destruct (Hf f Hin). split_and!; [done|done|by eapply nesting_fields].
  - intros name. split.
    + intros [v [Hv|[Hv Hin]]%Hspec]; [by rewrite lookup_empty in Hv|]. split; [done|].
      rewrite <- (placed_keys reader 1 fields). by apply (list_elem_of_fmap_2 fst _ (name, v)).
    + intros [Hin (f & -> & Hfin)%list_elem_of_fmap_1].
      destruct (placed_slice reader f fields Hfin ["{"%char] ["}"%char; "010"%char]) as (q & Hq & _).
      exists (placedField reader q f). apply Hspec. by right.
  - intros f limit Hin Hname Hlim. destruct (placed_slice reader f fields Hin ["{"%char] ["}"%char; "010"%char]) as (q & Hq & H0 & Hs).
    exists (placedField reader q f). split; [apply Hspec; by right|].
    apply placed_Raw; [done|done|by apply (nesting_fields f fields)|]. rewrite <- Hs. f_equal. unfold l, MarshalCanonical. rewrite bytes_str.
    change (render (JObject fields)) with (["{"%char] ++ commaSep (map fieldText fields) ++ ["}"%char]). by rewrite <- !app_assoc.
Qed.

(** ASCII letters fold to lower case. *)
Definition asciiOrbit (r : Z) : Z := if between 65 r 90 then r + 32 else r.

Lemma canonical_fields_selected_witness :
  let fields := [("schema"%string, JInt 1); ("name"%string, JString "x")] in
  exists m v, Object asciiOrbit (whole (bytes (MarshalCanonical (JObject fields)))) ["name"%string; "Other"%string] = Done m /\
    m !! "name"%string = Some v /\ m !! "schema"%string = None /\ Raw v 10 = Done (jsonString "x").
Proof.
  intros fields. destruct (canonical_fields_selected asciiOrbit fields ["name"%string; "Other"%string]) as (m & H1 & H2 & H3).
  - vm_compute. done.
  - intros f. unfold fields. rewrite !elem_of_cons, elem_of_nil. intros [->|[->|[]]]; (split; [reflexivity|vm_compute; done]).
  - cbn. repeat (apply NoDup_cons; split; [by vm_compute; set_solver|]). apply NoDup_nil_2.
  - repeat (apply NoDup_cons; split; [set_solver|]). apply NoDup_nil_2.
  - intros key name. unfold fields. cbn [map fst]. rewrite !elem_of_cons, !elem_of_nil.
    intros [->|[->|[]]] [->|[->|[]]] E; try reflexivity; vm_compute in E; discriminate E.
  - destruct (H3 ("name"%string, JString "x") 10) as (v & Hv & Hr); [right; left|left|vm_compute; done|].
    exists m, v. split_and!; [exact H1|exact Hv| |exact Hr].
    destruct (m !! "schema"%string) eqn:E; [|done]. destruct (proj1 (H2 "schema"%string)) as [Hin _]; [by rewrite E|].
    rewrite !elem_of_cons, elem_of_nil in Hin. by destruct Hin as [?|[?|[]]].
Defined.
