(* ===== verification/ProviderJsonRecords.v ===== *)
(** * Framing of newline-separated records

    [Records] visits the lines of the evidence in order, whatever the chunks in which the
    bytes arrive; a fault of the visitor stops the visits and not the reads. *)
From S2P Require Import Prelude GoErrors GoText TaskTypes Encoding ProviderJson.
From Stdlib Require Import Ascii.

(** ** The specification *)

(** The ranges and numbers of the lines after the offset [p] and the line [n]; the last
    one has no newline and counts only when it is not empty. *)
Fixpoint placedLines (p n : Z) (lines : list (list ascii)) (last : list ascii) : list (Z * Z * Z) :=
  match lines with
  | [] => if 0 <? Z.of_nat (length last) then [(p, p + Z.of_nat (length last), n + 1)] else []
  | r :: lines' => (p, p + Z.of_nat (length r), n + 1) :: placedLines (p + Z.of_nat (length r) + 1) (n + 1) lines' last
  end.

Definition linesText (lines : list (list ascii)) (last : list ascii) : list ascii :=
  concat (map (fun r => r ++ [newline]) lines) ++ last.

(** A read of a whole chunk. *)
Definition full (c : list ascii) : readResult := MkRead (Z.of_nat (length c)) c None.

(** The reads that end the evidence: its last bytes and the read fault they stand for. *)
Inductive readsEnd : list readResult -> list ascii -> option error -> Prop :=
| end_error c e : Z.of_nat (length c) <= BufferSize ->
    readsEnd [MkRead (Z.of_nat (length c)) c (Some e)] c (if errors_Is e io_EOF then None else Some e)
| end_stalled : readsEnd (replicate 100 (MkRead 0 [] None)) [] (Some (Sentinel io_ErrNoProgress))
| end_invalid n c e : n < 0 \/ BufferSize < n ->
    readsEnd [MkRead n c e] [] (Some (New "invalid native reader byte count")).

Section visits.
Context {S : Type} (visit : Z -> Z -> Z -> S -> option error * S).

(** The visits until the first fault. *)
Fixpoint visitAll (frames : list (Z * Z * Z)) (s : S) : option error * S :=
  match frames with
  | [] => (None, s)
  | (start, stop, line) :: frames' =>
      match visit start stop line s with (Some e, s') => (Some e, s') | (None, s') => visitAll frames' s' end
  end.

(** ** Feeding *)
Lemma feedBytes_app (f : @Framer S) a b : feedBytes visit f (a ++ b) = feedBytes visit (feedBytes visit f a) b.
Proof. revert f. induction a as [|x a IH]; intros f; cbn; [done|]. destruct (bool_decide _); apply IH. Qed.

Definition moveTo (f : @Framer S) (n : Z) : Framer := MkFramer (f_offset f + n) (f_start f) (f_line f) (f_fault f) (f_done f) (f_state f).

Lemma feedBytes_line f r : newline ∉ r -> feedBytes visit f r = moveTo f (Z.of_nat (length r)).
Proof.
  revert f. induction r as [|b r IH]; intros f H; cbn [feedBytes].
  - unfold moveTo. rewrite Z.add_0_r. by destruct f.
  - rewrite bool_decide_false by set_solver. rewrite IH by set_solver. unfold moveTo. cbn [f_offset length]. f_equal. lia.
Qed.

(** What a framer at the start of a line reports after the visits of [frames]. *)
Definition reported (f : @Framer S) (frames : list (Z * Z * Z)) : option error * S :=
  match f_fault f with Some e => (Some e, f_state f) | None => visitAll frames (f_state f) end.

Lemma deliver_reported f stop frames line : f_line f + 1 = line -> 0 <= f_line f -> line < 2 ^ 64 ->
  reported (deliver visit f stop) frames = reported f ((f_start f, stop, line) :: frames).
Proof.
  intros <- H0 H. unfold deliver, reported. rewrite Z.mod_small by lia. destruct (f_fault f) as [e|] eqn:E; [done|].
  cbn [visitAll]. by destruct (visit _ _ _ _) as [[e|] s'].
Qed.

Lemma deliver_fields f stop : f_offset (deliver visit f stop) = f_offset f /\ f_done (deliver visit f stop) = f_done f /\
  f_line (deliver visit f stop) = (f_line f + 1) mod 2 ^ 64.
Proof. unfold deliver. destruct (f_fault f); [done|]. by destruct (visit _ _ _ _). Qed.

(** After a line and its newline. *)
Definition nextLine (f : @Framer S) (r : list ascii) : Framer :=
  let g := deliver visit (moveTo f (Z.of_nat (length r) + 1)) (f_offset f + Z.of_nat (length r)) in
  MkFramer (f_offset g) (f_offset g) (f_line g) (f_fault g) (f_done g) (f_state g).

Lemma nextLine_fields f r : 0 <= f_line f -> f_line f + 1 < 2 ^ 64 ->
  f_offset (nextLine f r) = f_offset f + Z.of_nat (length r) + 1 /\ f_start (nextLine f r) = f_offset (nextLine f r) /\
  f_done (nextLine f r) = f_done f /\ f_line (nextLine f r) = f_line f + 1.
Proof.
  intros H0 Hn. unfold nextLine. cbn [f_offset f_start f_done f_line].
  destruct (deliver_fields (moveTo f (Z.of_nat (length r) + 1)) (f_offset f + Z.of_nat (length r))) as (-> & -> & ->).
  cbn [moveTo f_offset f_done f_line]. rewrite Z.mod_small by lia. split_and!; [lia|done..].
Qed.

Lemma feedBytes_newline f r more : newline ∉ r -> feedBytes visit f ((r ++ [newline]) ++ more) = feedBytes visit (nextLine f r) more.
Proof.
  intros Hr. rewrite <- app_assoc, feedBytes_app, (feedBytes_line f r) by done. cbn [app feedBytes]. rewrite bool_decide_true by done.
  unfold nextLine, moveTo. cbn [f_offset f_start f_line f_fault f_done f_state]. rewrite Z.add_assoc, Z.add_simpl_r. done.
Qed.

Lemma Finish_reported f last : f_done f = false -> f_start f = f_offset f -> 0 <= f_line f -> f_line f + 1 < 2 ^ 64 ->
  newline ∉ last ->
  let f' := Finish visit (feedBytes visit f last) in
  (f_fault f', f_state f') = reported f (placedLines (f_offset f) (f_line f) [] last).
Proof.
  intros Hd Hs H0 Hn Hl f'. unfold f'. rewrite feedBytes_line by done. unfold Finish. cbn [moveTo f_done f_start f_offset]. rewrite Hd, Hs.
  cbn [placedLines]. destruct (Z.ltb_spec (f_offset f) (f_offset f + Z.of_nat (length last))).
  - rewrite (proj2 (Z.ltb_lt 0 _)) by lia. cbn [f_fault f_state].
    pose proof (deliver_reported (moveTo f (Z.of_nat (length last))) (f_offset f + Z.of_nat (length last)) [] (f_line f + 1) eq_refl H0 Hn) as E.
    unfold reported at 1 in E. cbn [moveTo f_start] in E. rewrite Hs in E. cbn [visitAll] in E.
    transitivity (reported (moveTo f (Z.of_nat (length last))) [(f_offset f, f_offset f + Z.of_nat (length last), f_line f + 1)]); [|done].
    rewrite <- E. by destruct (f_fault _).
  - rewrite (proj2 (Z.ltb_ge 0 _)) by lia. cbn. unfold reported. by destruct (f_fault f).
Qed.

Lemma framer_reported lines last : Forall (fun r => newline ∉ r) lines -> newline ∉ last -> forall f,
  f_done f = false -> f_start f = f_offset f -> 0 <= f_line f -> f_line f + Z.of_nat (length lines) + 1 < 2 ^ 64 ->
  let f' := Finish visit (feedBytes visit f (linesText lines last)) in
  (f_fault f', f_state f') = reported f (placedLines (f_offset f) (f_line f) lines last).
Proof.
  intros HL Hlast. induction HL as [|r lines Hr HL IH]; intros f Hd Hs H0 Hn f'.
  - apply Finish_reported; try done. cbn in Hn. lia.
  - unfold f', linesText. cbn [map concat]. rewrite <- app_assoc. rewrite feedBytes_newline by done.
    destruct (nextLine_fields f r ltac:(lia) ltac:(cbn [length] in Hn; lia)) as (Ho & Hst & Hdone & Hline).
    pose proof (IH (nextLine f r) ltac:(congruence) ltac:(congruence) ltac:(lia) ltac:(cbn [length] in Hn; lia)) as E.
    cbn zeta in E. unfold linesText in E. rewrite E, Ho, Hline. cbn [placedLines]. unfold nextLine.
    transitivity (reported (deliver visit (moveTo f (Z.of_nat (length r) + 1)) (f_offset f + Z.of_nat (length r)))
      (placedLines (f_offset f + Z.of_nat (length r) + 1) (f_line f + 1) lines last)); [done|].
    rewrite (deliver_reported _ _ _ (f_line f + 1)); [|done|done|cbn [length] in Hn; lia].
    unfold reported. cbn [moveTo f_start f_fault f_state]. by rewrite Hs.
Qed.

(** ** Reading *)
Lemma Feed_open f data : f_done f = false -> Feed visit f data = feedBytes visit f data.
Proof. intros H. unfold Feed. by rewrite H. Qed.

Lemma feedBytes_done f data : f_done (feedBytes visit f data) = f_done f.
Proof.
  revert f. induction data as [|b data IH]; intros f; cbn [feedBytes]; [done|]. destruct (bool_decide _); rewrite IH; [|done].
  cbn [f_done]. by rewrite (proj1 (proj2 (deliver_fields _ _))).
Qed.

(** The result of a run that finishes with a read fault. *)
Definition outcomeOf (f : @Framer S) (readFault : option error) : option error * option error * S :=
  let f' := Finish visit f in (f_fault f', readFault, f_state f').

Lemma recordsLoop_chunk c reads k f : 0 < Z.of_nat (length c) <= BufferSize -> f_done f = false ->
  recordsLoop visit (full c :: reads) k f = recordsLoop visit reads 0 (feedBytes visit f c).
Proof.
  intros Hc Hd. cbn [recordsLoop full rd_n rd_data rd_err]. rewrite (proj2 (Z.ltb_ge _ 0)), (proj2 (Z.ltb_ge BufferSize _)) by lia.
  cbn [orb]. rewrite (proj2 (Z.ltb_lt 0 _)) by lia. rewrite Feed_open by done. rewrite Nat2Z.id, firstn_all.
  rewrite (proj2 (Z.eqb_neq _ 0)) by lia. done.
Qed.

Lemma recordsLoop_chunks chunks reads k f : Forall (fun c => 0 < Z.of_nat (length c) <= BufferSize) chunks -> f_done f = false ->
  chunks <> [] -> recordsLoop visit (map full chunks ++ reads) k f = recordsLoop visit reads 0 (feedBytes visit f (concat chunks)).
Proof.
  intros H. revert k f. induction H as [|c chunks Hc H IH]; intros k f Hd Hn; [done|]. cbn [map app concat].
  rewrite recordsLoop_chunk by done. destruct chunks as [|c' chunks]; [by rewrite app_nil_r|].
  rewrite IH by (done || by rewrite feedBytes_done). by rewrite feedBytes_app.
Qed.

(** An empty read without an error only counts. *)
Lemma recordsLoop_empty n reads k f : 0 <= k -> k + Z.of_nat n < 100 ->
  recordsLoop visit (replicate n (MkRead 0 [] None) ++ reads) k f = recordsLoop visit reads (k + Z.of_nat n) f.
Proof.
  revert k. induction n as [|n IH]; intros k H0 Hk; [by rewrite Z.add_0_r|]. cbn [replicate app recordsLoop rd_n rd_data rd_err].
  change (0 <? 0) with false. change (BufferSize <? 0) with false. cbn [orb]. change (0 =? 0) with true. cbn [andb].
  rewrite (proj2 (Z.leb_gt 100 (k + 1))) by lia. rewrite IH by lia. f_equal. lia.
Qed.

Lemma recordsLoop_end tail last readFault more f : readsEnd tail last readFault -> f_done f = false ->
  recordsLoop visit (tail ++ more) 0 f = outcomeOf (feedBytes visit f last) readFault.
Proof.
  intros [c e Hc| |n c e Hn] Hd.
  - cbn [app recordsLoop rd_n rd_data rd_err]. rewrite (proj2 (Z.ltb_ge _ 0)), (proj2 (Z.ltb_ge BufferSize _)) by lia. cbn [orb].
    unfold outcomeOf. destruct (Z.ltb_spec 0 (Z.of_nat (length c))); [by rewrite Feed_open, Nat2Z.id, firstn_all by done|].
    destruct c; [done|cbn in *; lia].
  - change (replicate 100 (MkRead 0 [] None)) with (replicate 99 (MkRead 0 [] None) ++ [MkRead 0 [] None]). rewrite <- app_assoc.
    by rewrite recordsLoop_empty.
  - cbn [app recordsLoop rd_n]. rewrite (proj2 (orb_true_iff _ _)); [done|]. rewrite !Z.ltb_lt. lia.
Qed.
End visits.

(** Slicing the placed ranges out of the evidence gives the lines back. *)
Lemma placedLines_slices lines last : forall pre n,
  map (fun p => slice (pre ++ linesText lines last) p.1.1 p.1.2) (placedLines (Z.of_nat (length pre)) n lines last) =
    lines ++ (if 0 <? Z.of_nat (length last) then [last] else []) /\
  map snd (placedLines (Z.of_nat (length pre)) n lines last) =
    map (fun i => n + 1 + Z.of_nat i) (seq 0 (length (lines ++ (if 0 <? Z.of_nat (length last) then [last] else [])))).
Proof.
  induction lines as [|r lines IH]; intros pre n.
  - cbn [placedLines app]. destruct (0 <? _); [|done]. cbn. split; [|by rewrite Z.add_0_r].
    f_equal. unfold linesText, slice. cbn [map concat app]. rewrite Z.add_simpl_l, !Nat2Z.id, drop_app_length. by rewrite firstn_all.
  - destruct (IH ((pre ++ r) ++ [newline]) (n + 1)) as [IH1 IH2]. rewrite !length_app in IH1, IH2. cbn [length] in IH1, IH2.
    assert (Z.of_nat (length pre + length r + 1) = Z.of_nat (length pre) + Z.of_nat (length r) + 1) as El by lia.
    rewrite El in IH1, IH2. cbn [placedLines map app fst snd]. rewrite IH2. split.
    + f_equal.
      * unfold slice. rewrite Z.add_simpl_l, !Nat2Z.id, drop_app_length. unfold linesText. cbn [map concat]. rewrite <- !app_assoc. apply take_app_length.
      * rewrite <- IH1. unfold linesText. cbn [map concat]. by rewrite <- !app_assoc.
    + cbn [length seq map]. f_equal; [lia|]. rewrite <- seq_shift, map_map. apply map_ext. intros i. lia.
Qed.

(** [Records] visits exactly the lines of the evidence, whatever the chunks in which
    they are read: the ranges it hands out are, in order, the bytes between newlines and
    a last line without one when it is not empty, numbered from one; the first fault of
    the visitor ends the visits and is reported; and the reads go on to their own end,
    whose fault (an error other than the end of the file, a hundred empty reads, an
    impossible byte count) is reported independently. *)
Theorem records_framed {S} (visit : Value -> Z -> S -> option error * S) chunks tail final readFault more lines last reader s :
  Forall (fun c => 0 < Z.of_nat (length c) <= BufferSize) chunks -> readsEnd tail final readFault ->
  concat chunks ++ final = linesText lines last -> Forall (fun r => newline ∉ r) lines -> newline ∉ last ->
  Z.of_nat (length lines) + 1 < 2 ^ 64 ->
  let frames := placedLines 0 0 lines last in
  let all := lines ++ (if 0 <? Z.of_nat (length last) then [last] else []) in
  (let '(fault, s') := visitAll (fun start stop line => visit (MkValue (Some reader) start stop) line) frames s in
   Records (Some (map full chunks ++ tail ++ more)) (Some reader) visit s = (fault, readFault, s')) /\
  map (fun p => slice (linesText lines last) p.1.1 p.1.2) frames = all /\
  map snd frames = map (fun i => 1 + Z.of_nat i) (seq 0 (length all)).
Proof.
  intros Hc He Ht Hl Hlast Hn frames all. split; [|by apply (placedLines_slices lines last [] 0)].
  cbn [Records]. set (v := fun start stop line => visit _ line).
  assert (recordsLoop v (map full chunks ++ tail ++ more) 0 (NewFramer s) =
    outcomeOf v (feedBytes v (NewFramer s) (linesText lines last)) readFault) as ->.
  { rewrite <- Ht, feedBytes_app. destruct chunks as [|c chunks]; [by apply (recordsLoop_end v tail final readFault more (NewFramer s))|].
    rewrite recordsLoop_chunks by done. apply recordsLoop_end; [done|by rewrite feedBytes_done]. }
  pose proof (framer_reported v lines last Hl Hlast (NewFramer s) eq_refl eq_refl ltac:(cbn; lia) ltac:(cbn; lia)) as E.
  cbn zeta in E. unfold reported in E. cbn [NewFramer f_fault f_offset f_line f_state] in E.
  fold frames in E. unfold outcomeOf. destruct (visitAll v frames s) as [fault s']. by injection E as -> ->.
Qed.

(** Two lines in two chunks; the visitor fails at the second and the read fault stays. *)
Lemma records_framed_witness :
  let visit (v : Value) (line : Z) (seen : list (Z * Z)) :=
    (if line =? 2 then Some (New "bad record") else None, seen ++ [(v_Start v, v_End v)]) in
  let reader := MkReaderAt [] None in
  Records (Some (map full [["a"%char]; [newline; "b"%char]] ++ [MkRead 1 ["c"%char] (Some (New "disk"))] ++ [full ["d"%char]]))
    (Some reader) visit [] = (Some (New "bad record"), Some (New "disk"), [(0, 1); (2, 4)]).
Proof.
  intros visit reader.
  pose proof (records_framed visit [["a"%char]; [newline; "b"%char]] [MkRead 1 ["c"%char] (Some (New "disk"))] ["c"%char] (Some (New "disk"))
    [full ["d"%char]] [["a"%char]] ["b"%char; "c"%char] reader []) as H.
  apply H.
  - repeat (apply Forall_cons; split; [vm_compute; split; done|]). apply Forall_nil_2.
  - exact (end_error ["c"%char] (New "disk") ltac:(vm_compute; done)).
  - reflexivity.
  - apply Forall_cons; split; [set_solver|apply Forall_nil_2].
  - set_solver.
  - vm_compute. done.
Defined.
