(* ===== verification/StrictJson.v ===== *)
(** * The strict decoder of control records

    [task/json.go] and [task/required_json.go]: the structural pass over the tokens of a
    document, the check of its fields against the Go type of the target, and the decoding
    into that type.  Both rest on [encoding/json] of the standard library, whose scanner,
    string and number literals and typed decoding are modelled here on trees.  The
    simple case folding of Unicode, whose table is the standard library's, is the argument
    [orbit], the least rune of the orbit of a rune. *)
From S2P Require Import Prelude GoErrors GoText TaskTypes Encoding ControlDir ProviderJson.
From Stdlib Require Import Ascii.
#[local] Open Scope Z_scope.

(** ** Results *)
Definition checked (A : Type) : Type := A + decodeFailure.

Definition checkedBind {A B} (m : checked A) (k : A -> checked B) : checked B :=
  match m with inl a => k a | inr f => inr f end.

Declare Scope strict_scope.
Delimit Scope strict_scope with strict.
Notation "x <- m ;; k" := (checkedBind m (fun x => k))
  (at level 100, m at next level, k at level 200, right associativity) : strict_scope.
Notation "m ;;; k" := (checkedBind m (fun _ => k)) (at level 100, k at level 200, right associativity) : strict_scope.
#[local] Open Scope strict_scope.

Definition malformedJson {A} : checked A := inr (DecodeFailed "malformed JSON").

(** ** Trees of [encoding/json] *)
(** A number is its literal. *)
Inductive jvalue : Set :=
| NNull
| NBool (b : bool)
| NNumber (literal : list ascii)
| NString (s : string)
| NArray (entries : list jvalue)
| NObject (members : list (string * jvalue)).

Definition skipSpace (l : list ascii) : list ascii := drop (spaces l) l.

(** *** String literals *)
Definition hex4 (a b c d : ascii) : option Z :=
  match hexValue a, hexValue b, hexValue c, hexValue d with
  | Some x, Some y, Some z, Some w => Some (((x * 16 + y) * 16 + z) * 16 + w)
  | _, _, _, _ => None
  end.

(** [utf16.DecodeRune] on two escaped units, when they are a surrogate pair. *)
Definition surrogatePair (u v : Z) : option Z :=
  if between 55296 u 56319 && between 56320 v 57343 then Some (65536 + (u - 55296) * 1024 + (v - 56320)) else None.

Definition emitting (p : list ascii) (o : option (list ascii * list ascii)) : option (list ascii * list ascii) :=
  match o with Some (decoded, rest) => Some (p ++ decoded, rest) | None => None end.

(** A string literal after its opening quote: the decoded bytes and what follows the
    closing quote.  Invalid UTF-8 and unpaired surrogates become U+FFFD. *)
Fixpoint unquote (l : list ascii) : option (list ascii * list ascii) :=
  match l with
  | [] => None
  | c :: l1 =>
      if bool_decide (c = quote) then Some ([], l1)
      else if bool_decide (c = "\"%char) then
        match l1 with
        | [] => None
        | e :: l2 =>
            if bool_decide (e = "u"%char) then
              match l2 with
              | a :: b :: x :: y :: l6 =>
                  match hex4 a b x y with
                  | None => None
                  | Some u =>
                      if between 55296 u 57343 then
                        match l6 with
                        | s :: t :: a' :: b' :: x' :: y' :: l12 =>
                            match (if bool_decide (s = "\"%char) && bool_decide (t = "u"%char)
                                   then v ← hex4 a' b' x' y'; surrogatePair u v else None) with
                            | Some r => emitting (EncodeRune r) (unquote l12)
                            | None => emitting (EncodeRune RuneError) (unquote l6)
                            end
                        | _ => emitting (EncodeRune RuneError) (unquote l6)
                        end
                      else emitting (EncodeRune u) (unquote l6)
                  end
              | _ => None
              end
            else match simpleEscape e with
                 | Some r => emitting (EncodeRune r) (unquote l2)
                 | None => None
                 end
        end
      else if byte_of c <? 32 then None
      else if byte_of c <? 128 then emitting [c] (unquote l1)
      else match l1 with
           | b :: l2 =>
               if two_byte c b then emitting [c; b] (unquote l2)
               else match l2 with
                    | x :: l3 =>
                        if three_byte c b x then emitting [c; b; x] (unquote l3)
                        else match l3 with
                             | y :: l4 =>
                                 if four_byte c b x y then emitting [c; b; x; y] (unquote l4)
                                 else emitting (EncodeRune RuneError) (unquote l1)
                             | [] => emitting (EncodeRune RuneError) (unquote l1)
                             end
                    | [] => emitting (EncodeRune RuneError) (unquote l1)
                    end
           | [] => emitting (EncodeRune RuneError) (unquote l1)
           end
  end.

(** *** Number literals *)
(** The digits at the head of [l], and the rest. *)
Definition splitDigits (l : list ascii) : list ascii * list ascii := (take (digitCount l) l, drop (digitCount l) l).

Definition exponentLiteral (l : list ascii) : option (list ascii * list ascii) :=
  match l with
  | e :: l1 =>
      if bool_decide (e = "e"%char) || bool_decide (e = "E"%char) then
        let '(sign, l2) := match l1 with
                           | s :: l2 => if bool_decide (s = "+"%char) || bool_decide (s = "-"%char) then ([s], l2) else ([], l1)
                           | [] => ([], l1)
                           end in
        let '(ds, l3) := splitDigits l2 in
        if bool_decide (ds = []) then None else Some (e :: sign ++ ds, l3)
      else Some ([], l)
  | [] => Some ([], l)
  end.

Definition fractionLiteral (l : list ascii) : option (list ascii * list ascii) :=
  match l with
  | p :: l1 =>
      if bool_decide (p = "."%char) then
        let '(ds, l2) := splitDigits l1 in
        if bool_decide (ds = []) then None else Some (p :: ds, l2)
      else Some ([], l)
  | [] => Some ([], l)
  end.

Definition integerLiteral (l : list ascii) : option (list ascii * list ascii) :=
  match l with
  | d :: l1 =>
      if bool_decide (d = "0"%char) then Some ([d], l1)
      else let '(ds, l2) := splitDigits l in if bool_decide (ds = []) then None else Some (ds, l2)
  | [] => None
  end.

Definition numberLiteral (l : list ascii) : option (list ascii * list ascii) :=
  let '(sign, l1) := match l with
                     | m :: l1 => if bool_decide (m = "-"%char) then ([m], l1) else ([], l)
                     | [] => ([], l)
                     end in
  '(i, l2) ← integerLiteral l1;
  '(f, l3) ← fractionLiteral l2;
  '(e, l4) ← exponentLiteral l3;
  Some (sign ++ i ++ f ++ e, l4).

(** *** Values *)
(** What distinguishes the two ways in which the decoder goes over a document. *)
Record mode : Type := MkMode {
  md_key : list string -> string -> bool; (* the key is refused after these keys *)
  md_depth : Z -> bool; (* a container may open inside as many *)
  md_number : list ascii -> bool (* the literal can be read *)
}.

Section values.
Context (md : mode).

Definition outOfFuel {A} : checked A := inr (DecodeFailed "out of fuel").

(** The value at the head of [l] and what follows it. *)
Fixpoint parseValue (fuel : nat) (depth : Z) (l : list ascii) : checked (jvalue * list ascii) :=
  match fuel with
  | O => outOfFuel
  | S fuel =>
      match skipSpace l with
      | [] => malformedJson
      | c :: l1 =>
          if bool_decide (c = "{"%char) then
            if negb (md_depth md depth) then malformedJson
            else if bool_decide (head (skipSpace l1) = Some "}"%char) then inl (NObject [], drop 1 (skipSpace l1))
            else r <- parseMembers fuel (depth + 1) [] l1 ;; inl (NObject r.1, r.2)
          else if bool_decide (c = "["%char) then
            if negb (md_depth md depth) then malformedJson
            else if bool_decide (head (skipSpace l1) = Some "]"%char) then inl (NArray [], drop 1 (skipSpace l1))
            else r <- parseElements fuel (depth + 1) l1 ;; inl (NArray r.1, r.2)
          else if bool_decide (c = quote) then
            match unquote l1 with Some (s, l2) => inl (NString (str s), l2) | None => malformedJson end
          else match stripPrefix (bytes "true") (c :: l1), stripPrefix (bytes "false") (c :: l1), stripPrefix (bytes "null") (c :: l1) with
               | Some l2, _, _ => inl (NBool true, l2)
               | _, Some l2, _ => inl (NBool false, l2)
               | _, _, Some l2 => inl (NNull, l2)
               | None, None, None =>
                   match numberLiteral (c :: l1) with
                   | Some (n, l2) => if md_number md n then inl (NNumber n, l2) else malformedJson
                   | None => malformedJson
                   end
               end
      end
  end
(** The members of an object, from the key of one of them on. *)
with parseMembers (fuel : nat) (depth : Z) (seen : list string) (l : list ascii) : checked (list (string * jvalue) * list ascii) :=
  match fuel with
  | O => outOfFuel
  | S fuel =>
      match skipSpace l with
      | [] => malformedJson
      | q :: l1 =>
          if negb (bool_decide (q = quote)) then malformedJson
          else match unquote l1 with
               | None => malformedJson
               | Some (k, l2) =>
                   if md_key md seen (str k) then inr DuplicateKey
                   else if negb (bool_decide (head (skipSpace l2) = Some ":"%char)) then malformedJson
                   else
                     v <- parseValue fuel depth (drop 1 (skipSpace l2)) ;;
                     match skipSpace v.2 with
                     | c :: l3 =>
                         if bool_decide (c = ","%char) then
                           r <- parseMembers fuel depth (str k :: seen) l3 ;; inl ((str k, v.1) :: r.1, r.2)
                         else if bool_decide (c = "}"%char) then inl ([(str k, v.1)], l3)
                         else malformedJson
                     | [] => malformedJson
                     end
               end
      end
  end
(** The elements of an array, from one of them on. *)
with parseElements (fuel : nat) (depth : Z) (l : list ascii) : checked (list jvalue * list ascii) :=
  match fuel with
  | O => outOfFuel
  | S fuel =>
      v <- parseValue fuel depth l ;;
      match skipSpace v.2 with
      | c :: l1 =>
          if bool_decide (c = ","%char) then r <- parseElements fuel depth l1 ;; inl (v.1 :: r.1, r.2)
          else if bool_decide (c = "]"%char) then inl ([v.1], l1)
          else malformedJson
      | [] => malformedJson
      end
  end.

(** Every two calls that are nested read at least one byte. *)
Definition firstValue (l : list ascii) : checked (jvalue * list ascii) := parseValue (S (2 * length l)) 0 l.
End values.

(** ** Numbers that a token can hold *)
(** The exponent of a literal; [strconv] reads no more of it after 10000. *)
Definition exponentOf (l : list ascii) : Z :=
  let '(negative, ds) := match l with
                         | s :: ds => if bool_decide (s = "-"%char) then (true, ds)
                                      else if bool_decide (s = "+"%char) then (false, ds) else (false, l)
                         | [] => (false, l)
                         end in
  let e := fold_left (fun e c => if e <? 10000 then 10 * e + digit c else e) ds 0 in
  if negative : bool then - e else e.

(** [strconv.ParseFloat] of a literal is in range: its magnitude is below the midpoint of
    the largest [float64] and 2^1024. *)
Definition floatInRange (literal : list ascii) : bool :=
  let l := match literal with m :: l => if bool_decide (m = "-"%char) then l else literal | [] => literal end in
  let '(i, l) := splitDigits l in
  let '(f, l) := match l with
                 | p :: l' => if bool_decide (p = "."%char) then splitDigits l' else ([], l)
                 | [] => ([], l)
                 end in
  let e := match l with _ :: l' => exponentOf l' | [] => 0 end - Z.of_nat (length f) in
  let m := decimal (i ++ f) in
  let bound := (2 ^ 54 - 1) * 2 ^ 970 in
  (m =? 0) || (if 0 <=? e then m * 10 ^ e <? bound else m <? bound * 10 ^ (- e)).

(** ** The structural pass *)
Section strict.
Context (orbit : Z -> Z).

Definition foldJSONKey (key : string) : list Z := map (fun p => orbit (fst p)) (runes key).

(** [seen] and [seenLower] of [checkObject]: the key is one of those before it, or is the
    same as one of them when case is folded. *)
Definition seenKey (seen : list string) (key : string) : bool :=
  existsb (fun old => eqs old key || bool_decide (foldJSONKey old = foldJSONKey key)) seen.

(** [checkTokenValue], [checkObject] and [checkArray] over [dec.Token]. *)
Definition tokens : mode := MkMode seenKey (fun _ => true) floatInRange.

Definition ValidateJSONStructure (data : string) : checked unit :=
  if MaxControlRecordSize <? len data then inr RecordTooBig
  else
    let trimmed := bytes (TrimSpace data) in
    match trimmed with
    | [] => inr (DecodeFailed "empty JSON data")
    | c :: _ =>
        if bool_decide (trimmed = bytes "null") then inr (DecodeFailed "null JSON root rejected")
        else if negb (bool_decide (c = "{"%char)) && negb (bool_decide (c = "["%char))
        then inr (DecodeFailed "expected top-level JSON object or array")
        else
          r <- firstValue tokens trimmed ;;
          if bool_decide (skipSpace r.2 = []) then inl tt else inr TrailingJSON
    end.

(** ** Go types and their values *)
(** The types of control records: a field of a struct has its name, whether it has
    [omitempty] or [omitzero], and its type.  [[]byte] is not among them. *)
Inductive gotype : Set :=
| TString
| TBool
| TInt (* int and int64 *)
| TUint64
| TPointer (t : gotype)
| TSlice (t : gotype)
| TMap (t : gotype) (* map[string]t *)
| TStruct (fields : list (string * bool * gotype)).

(** The members of a map are in the order of the document. *)
Inductive govalue : Set :=
| VString (s : string)
| VBool (b : bool)
| VInt (n : Z)
| VNil
| VPointer (v : govalue)
| VSlice (l : list govalue)
| VMap (l : list (string * govalue))
| VStruct (l : list govalue).

Fixpoint zero (t : gotype) : govalue :=
  match t with
  | TString => VString ""
  | TBool => VBool false
  | TInt | TUint64 => VInt 0
  | TPointer _ | TSlice _ | TMap _ => VNil
  | TStruct fields => VStruct (map (fun f => zero (snd f)) fields)
  end.

(** The parts of a value of a known type; an absent slice or pointer is nil. *)
Definition textOf (v : govalue) : string := match v with VString s => s | _ => "" end.
Definition boolOf (v : govalue) : bool := match v with VBool b => b | _ => false end.
Definition intOf (v : govalue) : Z := match v with VInt n => n | _ => 0 end.
Definition pointeeOf (v : govalue) : option govalue := match v with VPointer v => Some v | _ => None end.
Definition elementsOf (v : govalue) : option (list govalue) := match v with VSlice l => Some l | _ => None end.
Definition textsOf (v : govalue) : list string := map textOf (default [] (elementsOf v)).
Definition entriesOf (v : govalue) : list (string * govalue) := match v with VMap l => l | _ => [] end.

(** ** Required fields *)
Definition memberNamed (name : string) (members : list (string * jvalue)) : option jvalue :=
  snd <$> find (fun m => eqs (fst m) name) members.

Definition deleteMember (name : string) (members : list (string * jvalue)) : list (string * jvalue) :=
  List.filter (fun m => negb (eqs (fst m) name)) members.

(** The fields of [validateJSONObject], each by [validateJSONField]; what is left of the
    members is unknown. *)
Section fields.
Context (validate : gotype -> jvalue -> checked unit).

Fixpoint validateFields (fields : list (string * bool * gotype)) (members : list (string * jvalue)) : checked unit :=
  match fields with
  | [] => match members with [] => inl tt | _ => inr (DecodeFailed "unknown or noncanonical JSON field") end
  | (name, optional, t) :: fields =>
      match memberNamed name members with
      | None => if optional : bool then validateFields fields members
                else inr (DecodeFailed "missing required JSON field")
      | Some v => validate t v ;;; validateFields fields (deleteMember name members)
      end
  end.
End fields.

Section entries.
Context {A B : Type} (f : A -> checked B).

(** A loop that stops at the first error. *)
Fixpoint traverse (l : list A) : checked (list B) :=
  match l with
  | [] => inl []
  | x :: l => y <- f x ;; ys <- traverse l ;; inl (y :: ys)
  end.
End entries.

Fixpoint validateJSONType (t : gotype) (v : jvalue) : checked unit :=
  match v with
  | NNull => inr (DecodeFailed "null protocol field rejected")
  | _ =>
      match t with
      | TPointer t' => validateJSONType t' v
      | TStruct fields =>
          match v with
          | NObject members => validateFields validateJSONType fields members
          | _ => inr (DecodeFailed "cannot unmarshal into a map")
          end
      | TSlice t' =>
          match v with
          | NArray entries => traverse (validateJSONType t') entries ;;; inl tt
          | _ => inr (DecodeFailed "cannot unmarshal into a slice")
          end
      | _ => inl tt
      end
  end.

(** The scanner of [encoding/json]: containers are nested at most [maxNestingDepth] deep. *)
Definition maxNestingDepth : Z := 10000.
Definition scanner : mode := MkMode (fun _ _ => false) (fun depth => depth <? maxNestingDepth) (fun _ => true).

(** [json.Unmarshal] takes the whole of [data]. *)
Definition wholeValue (data : string) : checked jvalue :=
  r <- firstValue scanner (bytes data) ;;
  if bool_decide (skipSpace r.2 = []) then inl r.1 else malformedJson.

(** Only structs and slices are unmarshaled here. *)
Fixpoint readsDocument (t : gotype) : bool :=
  match t with TPointer t => readsDocument t | TStruct _ | TSlice _ => true | _ => false end.

Definition validateRequiredFields (data : string) (t : gotype) : checked unit :=
  if readsDocument t then v <- wholeValue data ;; validateJSONType t v else inl tt.

(** ** Decoding into a type *)
(** The literal is an integer in range. *)
Definition parseInteger (signed : bool) (literal : list ascii) : option Z :=
  let '(negative, ds) := match literal with
                         | m :: ds => if bool_decide (m = "-"%char) then (true, ds) else (false, literal)
                         | [] => (false, literal)
                         end in
  if negb (forallb isDigit ds) || (negative && negb signed) then None
  else
    let n := if negative : bool then - decimal ds else decimal ds in
    if if signed then between min_int64 n max_int64 else n <=? max_uint64 then Some n else None.

(** The key of a member selects the field of that name or else the field that is the same
    when case is folded. *)
Definition selects (names : list string) (key name : string) : bool :=
  eqs key name || negb (existsb (eqs key) names) && bool_decide (foldJSONKey key = foldJSONKey name).

Definition typeError {A} : checked A := inr (DecodeFailed "decoding strict json").

(** The fields of a struct, each from the member that selects it or else zero. *)
Section members.
Context (decode : gotype -> jvalue -> checked govalue) (names : list string) (members : list (string * jvalue)).

Fixpoint decodeFields (fields : list (string * bool * gotype)) : checked (list govalue) :=
  match fields with
  | [] => inl []
  | (name, _, t) :: fields =>
      x <- match snd <$> find (fun m => selects names (fst m) name) members with
           | Some v => decode t v
           | None => inl (zero t)
           end ;;
      xs <- decodeFields fields ;; inl (x :: xs)
  end.
End members.

Definition namesOf (fields : list (string * bool * gotype)) : list string := map (fun f => fst (fst f)) fields.

(** [decodeState.value] into a fresh value, where no key of an object selects a field
    twice: null leaves the zero value, and an unknown field is an error. *)
Fixpoint decodeInto (t : gotype) (v : jvalue) : checked govalue :=
  match v with
  | NNull => inl (zero t)
  | _ =>
      match t, v with
      | TString, NString s => inl (VString s)
      | TBool, NBool b => inl (VBool b)
      | TInt, NNumber n => match parseInteger true n with Some z => inl (VInt z) | None => typeError end
      | TUint64, NNumber n => match parseInteger false n with Some z => inl (VInt z) | None => typeError end
      | TPointer t', _ => x <- decodeInto t' v ;; inl (VPointer x)
      | TSlice t', NArray entries => l <- traverse (decodeInto t') entries ;; inl (VSlice l)
      | TMap t', NObject members => l <- traverse (fun m => x <- decodeInto t' (snd m) ;; inl (fst m, x)) members ;; inl (VMap l)
      | TStruct fields, NObject members =>
          if negb (forallb (fun m => existsb (selects (namesOf fields) (fst m)) (namesOf fields)) members) then typeError
          else l <- decodeFields decodeInto (namesOf fields) members fields ;; inl (VStruct l)
      | _, _ => typeError
      end
  end.

(** [task.DecodeStrict] into a target of the type. *)
Definition DecodeStrict (t : gotype) (data : string) : checked govalue :=
  ValidateJSONStructure data ;;;
  validateRequiredFields data t ;;;
  r <- firstValue scanner (bytes data) ;;
  decodeInto t r.1.
End strict.
