(* ===== verification/StrictJsonTheorems.v ===== *)
(** * Theorems of the strict decoder

    Canonical JSON is parsed to its tree, the structural pass and the check of the fields
    accept what the encoder of a Go type writes, and the typed decoding gives back the
    value it was written from. *)
From S2P Require Import Prelude GoErrors GoText TaskTypes Encoding ControlDir ProviderJson ProviderJsonGrammar ProviderJsonSound ProviderJsonTheorems StrictJson.
From Stdlib Require Import Ascii.
#[local] Open Scope Z_scope.
#[local] Open Scope strict_scope.

(** ** Strings *)
Lemma simpleEscape_not_u b r : simpleEscape b = Some r -> b <> "u"%char.
Proof. by intros H ->. Qed.

Lemma large_not_special a : 128 <= byte_of a -> a <> quote /\ a <> "\"%char.
Proof. intros H. split; intros ->; by vm_compute in H. Qed.

Lemma unquote_large a l : 128 <= byte_of a -> unquote (a :: l) =
  match l with
  | b :: l2 =>
      if two_byte a b then emitting [a; b] (unquote l2)
      else match l2 with
           | x :: l3 =>
               if three_byte a b x then emitting [a; b; x] (unquote l3)
               else match l3 with
                    | y :: l4 => if four_byte a b x y then emitting [a; b; x; y] (unquote l4) else emitting (EncodeRune RuneError) (unquote l)
                    | [] => emitting (EncodeRune RuneError) (unquote l)
                    end
           | [] => emitting (EncodeRune RuneError) (unquote l)
           end
  | [] => emitting (EncodeRune RuneError) (unquote l)
  end.
Proof.
  intros H. destruct (large_not_special a H) as [H1 H2]. cbn [unquote]. rewrite !bool_decide_false by done.
  by rewrite (proj2 (Z.ltb_ge _ _)), (proj2 (Z.ltb_ge _ _)) by lia.
Qed.

Lemma unquote_plain b l : plain b = true -> unquote (b :: l) = emitting [b] (unquote l).
Proof.
  unfold plain. rewrite negb_true_iff, !orb_false_iff, !bool_decide_eq_false. intros [[[H1 H2] H3] H4]. cbn [unquote].
  rewrite !bool_decide_false, H1 by done. by rewrite (proj2 (Z.ltb_lt _ _)) by lia.
Qed.

Lemma unquote_escape b r l : simpleEscape b = Some r -> unquote ("\"%char :: b :: l) = emitting (EncodeRune r) (unquote l).
Proof.
  intros H. cbn [unquote]. rewrite bool_decide_false, bool_decide_true by done.
  rewrite bool_decide_false by by eapply simpleEscape_not_u. by rewrite H.
Qed.

Lemma hexQuad_hex4 q r : hexQuad q r -> exists a b c d, q = [a; b; c; d] /\ hex4 a b c d = Some r.
Proof.
  intros (a & b & c & d & x & y & z & w & -> & Ha & Hb & Hc & Hd & ->). exists a, b, c, d. split; [done|].
  unfold hex4. by rewrite Ha, Hb, Hc, Hd.
Qed.

Lemma unquote_u a b x y l : unquote ("\"%char :: "u"%char :: a :: b :: x :: y :: l) =
  match hex4 a b x y with
  | None => None
  | Some u =>
      if between 55296 u 57343 then
        match l with
        | s :: t :: a' :: b' :: x' :: y' :: l' =>
            match (if bool_decide (s = "\"%char) && bool_decide (t = "u"%char)
                   then v ← hex4 a' b' x' y'; surrogatePair u v else None) with
            | Some r => emitting (EncodeRune r) (unquote l')
            | None => emitting (EncodeRune RuneError) (unquote l)
            end
        | _ => emitting (EncodeRune RuneError) (unquote l)
        end
      else emitting (EncodeRune u) (unquote l)
  end.
Proof. reflexivity. Qed.

Lemma unquote_unicode q r l : hexQuad q r -> ~ 55296 <= r <= 57343 ->
  unquote ("\"%char :: "u"%char :: q ++ l) = emitting (EncodeRune r) (unquote l).
Proof.
  intros (a & b & c & d & -> & H)%hexQuad_hex4 Hr. cbn [app]. rewrite unquote_u, H.
  by rewrite (proj2 (between_false 55296 r 57343)) by lia.
Qed.

Lemma unquote_pair q r q' r' l : hexQuad q r -> 55296 <= r <= 56319 -> hexQuad q' r' -> 56320 <= r' <= 57343 ->
  unquote ("\"%char :: "u"%char :: q ++ "\"%char :: "u"%char :: q' ++ l) =
  emitting (EncodeRune (65536 + (r - 55296) * 1024 + (r' - 56320))) (unquote l).
Proof.
  intros (a & b & c & d & -> & H)%hexQuad_hex4 Hr (a' & b' & c' & d' & -> & H')%hexQuad_hex4 Hr'.
  cbn [app]. rewrite unquote_u, H, (proj2 (between_spec 55296 r 57343)) by lia.
  change (bool_decide ("\"%char = "\"%char) && bool_decide ("u"%char = "u"%char)) with true. rewrite H'. cbn [mbind option_bind].
  unfold surrogatePair. by rewrite (proj2 (between_spec 55296 r 56319)), (proj2 (between_spec 56320 r' 57343)) by lia.
Qed.

(** A string of the grammar is read to the bytes it denotes. *)
Lemma unquote_chars raw dec l : chars raw dec -> unquote (raw ++ quote :: l) = Some (dec, l).
Proof.
  induction 1 as [|b raw dec Hb _ IH|a b raw dec H _ IH|a b c raw dec H _ IH|a b c d raw dec H _ IH|b r raw dec H _ IH|q r raw dec H Hr _ IH
                 |q r q' r' raw dec H Hr H' Hr' _ IH].
  - reflexivity.
  - change ((b :: raw) ++ quote :: l) with (b :: (raw ++ quote :: l)). by rewrite unquote_plain, IH.
  - pose proof (proj1 (two_byte_spec _ _) H). cbn [app]. rewrite unquote_large by lia. by rewrite H, IH.
  - pose proof (proj1 (three_byte_spec _ _ _) H). cbn [app]. rewrite unquote_large, two_byte_small by lia. by rewrite H, IH.
  - pose proof (proj1 (four_byte_spec _ _ _ _) H). cbn [app]. rewrite unquote_large, two_byte_small, three_byte_large by lia. by rewrite H, IH.
  - cbn [app]. by erewrite unquote_escape, IH.
  - cbn [app]. rewrite <- app_assoc. by erewrite unquote_unicode, IH.
  - cbn [app]. rewrite <- app_assoc. cbn [app]. rewrite <- app_assoc. by erewrite unquote_pair, IH.
Qed.

Lemma unquote_string s l : ValidString s = true -> exists t, jsonString s ++ l = quote :: t /\ unquote t = Some (bytes s, l).
Proof.
  intros Hs. destruct (canonical_string s) as (raw & E & Hc). exists (raw ++ quote :: l). split.
  - rewrite E. cbn [app]. by rewrite <- app_assoc.
  - rewrite <- (sanitized_valid s Hs). by apply unquote_chars.
Qed.

(** ** Numbers *)
Lemma splitDigits_app ds r : digitText ds -> noDigit r -> splitDigits (ds ++ r) = (ds, r).
Proof. intros Hd Hr. unfold splitDigits. by rewrite digitCount_app, take_app_length, drop_app_length. Qed.

Lemma integerLiteral_text i r : integerText i -> noDigit r -> integerLiteral (i ++ r) = Some (i, r).
Proof.
  intros [|d ds Hd H0 Hds] Hr; [done|]. cbn [app integerLiteral]. rewrite bool_decide_false by done.
  assert (splitDigits (d :: ds ++ r) = (d :: ds, r)) as -> by (apply (splitDigits_app (d :: ds)); [by constructor|done]).
  by rewrite bool_decide_false.
Qed.

Lemma fractionLiteral_text f r : fractionText f -> (forall t, r <> "."%char :: t) -> noDigit r -> fractionLiteral (f ++ r) = Some (f, r).
Proof.
  intros [|ds Hds Hne] Hp Hr; cbn [app fractionLiteral].
  - destruct r as [|c r]; [done|]. cbn [fractionLiteral]. rewrite bool_decide_false; [done|]. intros ->. by eapply Hp.
  - rewrite bool_decide_true, splitDigits_app by done. by rewrite bool_decide_false.
Qed.

Lemma follows_not (c : ascii) r : follows r -> ends c = false -> forall t, r <> c :: t.
Proof. intros Hr Hc t ->. cbn in Hr. congruence. Qed.

Lemma exponentLiteral_text e r : exponentText e -> follows r -> exponentLiteral (e ++ r) = Some (e, r).
Proof.
  intros [|e0 s ds He Hs Hds Hne] Hr.
  - destruct r as [|c r]; [done|]. cbn [app exponentLiteral]. rewrite !bool_decide_false; [done|..]; intros ->; by eapply follows_not.
  - cbn [app exponentLiteral]. replace (bool_decide (e0 = "e"%char) || _) with true
      by (symmetry; rewrite orb_true_iff, !bool_decide_eq_true; done).
    pose proof (splitDigits_app ds r Hds (follows_noDigit r Hr)) as E. destruct Hs as [->|[->| ->]]; cbn [app].
    + destruct ds as [|d ds]; [done|]. inversion Hds as [|? ? Hd _]; subst. cbn [app].
      rewrite !bool_decide_false by (by apply digit_not). cbn [orb]. rewrite (E : splitDigits (d :: ds ++ r) = _). done.
    + rewrite bool_decide_true by done. cbn [orb]. rewrite E. by rewrite bool_decide_false.
    + rewrite bool_decide_false, bool_decide_true by done. cbn [orb]. rewrite E. by rewrite bool_decide_false.
Qed.

Lemma exponent_point e r : exponentText e -> follows r -> forall t, e ++ r <> "."%char :: t.
Proof. intros [|e0 s ds [->| ->]] Hr t; cbn [app]; [by apply follows_not|done..]. Qed.

(** A number of the grammar is read as its literal. *)
Lemma numberLiteral_text n r : numberText n -> follows r -> numberLiteral (n ++ r) = Some (n, r).
Proof.
  intros [s i f e Hs Hi Hf He] Hr. unfold numberLiteral.
  assert (integerLiteral (i ++ f ++ e ++ r) = Some (i, f ++ e ++ r)) as Ei by (apply integerLiteral_text; [done|by apply fraction_exponent_noDigit]).
  assert (fractionLiteral (f ++ e ++ r) = Some (f, e ++ r)) as Ef
    by (apply fractionLiteral_text; [done|by apply exponent_point|apply (fraction_exponent_noDigit [] e r frac_none He Hr)]).
  pose proof (exponentLiteral_text e r He Hr) as Ee. rewrite <- !app_assoc.
  destruct Hs as [->| ->]; cbn [app].
  - destruct (integer_head i Hi) as (d & ds & -> & Hd). cbn [app] in *. rewrite bool_decide_false by (by apply digit_not).
    rewrite Ei. cbn [mbind option_bind]. rewrite Ef. cbn [mbind option_bind]. by rewrite Ee.
  - rewrite bool_decide_true by done. rewrite Ei. cbn [mbind option_bind]. rewrite Ef. cbn [mbind option_bind]. by rewrite Ee.
Qed.

(** A canonical integer, sign and digits. *)
Lemma decimalText_head n : 0 <= n -> exists b t, decimalText n = b :: t /\ isDigit b = true.
Proof.
  intros Hn. pose proof (decimalText_digits n Hn) as Hd. pose proof (decimalText_nonempty n Hn) as Hl.
  destruct (decimalText n) as [|b t]; [done|]. exists b, t. cbn in Hd. by apply andb_true_iff in Hd as [? _].
Qed.

Lemma decimalText_digitText n : 0 <= n -> digitText (decimalText n).
Proof.
  intros Hn. apply Forall_forall. intros b Hb. pose proof (decimalText_digits n Hn) as H. rewrite forallb_forall in H. by apply H, list_elem_of_In.
Qed.

Lemma decimalText_sign n : exists m, 0 <= m /\
  (n = m /\ decimalText n = decimalText m /\ (forall t, decimalText n <> "-"%char :: t) \/ n = - m /\ 0 < m /\ decimalText n = "-"%char :: decimalText m).
Proof.
  destruct (Z.neg_nonneg_cases n) as [Hn|Hn].
  - exists (- n). split; [lia|]. right. destruct n as [|p|p]; [lia..|]. split_and!; [lia|lia|reflexivity].
  - exists n. split; [done|]. left. split_and!; [done..|]. intros t E. destruct (decimalText_head n Hn) as (b & t' & E' & Hb). rewrite E' in E. by injection E as ->.
Qed.

Lemma parseInteger_decimal signed n : (if signed : bool then in_int64 n else 0 <= n <= max_uint64) -> parseInteger signed (decimalText n) = Some n.
Proof.
  intros Hn. unfold parseInteger. destruct (decimalText_sign n) as (m & Hm & [(-> & _ & Hd)|(-> & Hpos & ->)]).
  - destruct (decimalText_head m Hm) as (b & t & E & Hb).
    assert (match decimalText m with m0 :: ds => if bool_decide (m0 = "-"%char) then (true, ds) else (false, decimalText m) | [] => (false, decimalText m) end
      = (false, decimalText m)) as ->.
    { rewrite E in *. rewrite bool_decide_false; [done|]. intros ->. by eapply Hd. }
    rewrite decimalText_digits, decimalText_value by done. cbn [negb orb andb]. destruct signed.
    + by rewrite (proj2 (between_spec min_int64 m max_int64)) by (unfold in_int64 in Hn; lia).
    + by rewrite (proj2 (Z.leb_le _ _)) by lia.
  - rewrite bool_decide_true by done. rewrite decimalText_digits, decimalText_value by done. cbn [negb orb]. destruct signed; [|lia]. cbn [negb andb].
    by rewrite (proj2 (between_spec min_int64 (- m) max_int64)) by (unfold in_int64 in Hn; lia).
Qed.

Lemma floatInRange_decimal n : - 2 ^ 64 < n < 2 ^ 64 -> floatInRange (decimalText n) = true.
Proof.
  intros Hn. destruct (decimalText_sign n) as (m & Hm & Hd). assert (m < 2 ^ 64) as Hlt by (destruct Hd as [(-> & _)|(-> & _)]; lia).
  assert (match decimalText n with m0 :: l => if bool_decide (m0 = "-"%char) then l else decimalText n | [] => decimalText n end = decimalText m) as E.
  { destruct Hd as [(-> & _ & Hd)|(-> & _ & ->)]; [|by rewrite bool_decide_true].
    destruct (decimalText_head m Hm) as (b & t & E & Hb). rewrite E in *. rewrite bool_decide_false; [done|]. intros ->. by eapply Hd. }
  unfold floatInRange. rewrite E. pose proof (splitDigits_app (decimalText m) [] (decimalText_digitText m Hm) I) as Es. rewrite app_nil_r in Es. rewrite Es.
  rewrite app_nil_r, decimalText_value by done. change (0 <=? 0 - Z.of_nat (length [])) with true. cbn iota. apply orb_true_iff. right. apply Z.ltb_lt.
  change (10 ^ (0 - Z.of_nat (length []))) with 1. assert (2 ^ 64 <= (2 ^ 54 - 1) * 2 ^ 970) by (apply Z.leb_le; vm_compute; reflexivity). lia.
Qed.

(** ** Canonical text is read as its tree *)
(** Every string is valid UTF-8. *)
Fixpoint validJson (j : json) : bool :=
  match j with
  | JString s => ValidString s
  | JInt _ | JBool _ => true
  | JArray l => forallb validJson l
  | JObject l => forallb (fun f => ValidString (fst f) && validJson (snd f)) l
  end.

Fixpoint treeOf (j : json) : jvalue :=
  match j with
  | JString s => NString s
  | JInt n => NNumber (decimalText n)
  | JBool b => NBool b
  | JArray l => NArray (map treeOf l)
  | JObject l => NObject (map (fun f => (fst f, treeOf (snd f))) l)
  end.

Lemma render_cons j : exists b t, render j = b :: t /\ ends b = false.
Proof.
  destruct j as [s|n|b|l|l]; try (by do 2 eexists).
  - cbn. destruct (Z.neg_nonneg_cases n) as [Hn|Hn].
    + destruct n as [|p|p]; [lia..|]. by do 2 eexists.
    + destruct (decimalText_head n Hn) as (b & t & -> & Hb). exists b, t. split; [done|].
      destruct (ends b) eqn:E; [|done]. apply ends_cases in E. rewrite !elem_of_cons, elem_of_nil in E.
      repeat (destruct E as [->|E]; [done|]). done.
  - destruct b; by do 2 eexists.
Qed.

Lemma skipSpace_plain b l : isSpaceByte b = false -> skipSpace (b :: l) = b :: l.
Proof. intros H. unfold skipSpace. cbn [spaces]. by rewrite H. Qed.

Lemma drop_one {A} (x : A) l : drop 1 (x :: l) = l.
Proof. done. Qed.

Lemma ends_plain b : ends b = false -> isSpaceByte b = false.
Proof. unfold ends. by intros [? _]%orb_false_iff. Qed.

Lemma stripPrefix_head p c b l : head p = Some c -> b <> c -> stripPrefix p (b :: l) = None.
Proof. intros Hp H. destruct p as [|c' p]; [done|]. injection Hp as ->. cbn [stripPrefix]. by rewrite bool_decide_false by congruence. Qed.

Section accepted.
Context (md : mode).

Fixpoint keysAccepted (seen keys : list string) : bool :=
  match keys with [] => true | k :: keys => negb (md_key md seen k) && keysAccepted (k :: seen) keys end.

(** The keys, the nesting and the numbers of the value are as the mode wants them. *)
Fixpoint accepted (depth : Z) (j : json) : bool :=
  match j with
  | JString _ | JBool _ => true
  | JInt n => md_number md (decimalText n)
  | JArray l => md_depth md depth && forallb (accepted (depth + 1)) l
  | JObject l => md_depth md depth && keysAccepted [] (map fst l) && forallb (fun f => accepted (depth + 1) (snd f)) l
  end.

(** The value is read from its text before anything that may follow it. *)
Definition reads (depth : Z) (j : json) : Prop := forall fuel r, (2 * length (render j) < fuel)%nat -> follows r ->
  parseValue md fuel depth (render j ++ r) = inl (treeOf j, r).

Lemma parseElements_texts l depth : l <> [] -> Forall (reads depth) l -> forall fuel r,
  (2 * length (commaSep (map render l)) + 1 < fuel)%nat ->
  parseElements md fuel depth (commaSep (map render l) ++ "]"%char :: r) = inl (map treeOf l, r).
Proof.
  intros Hl H. induction H as [|x l Hx H IH]; [done|]. intros [|fuel] r Hf; [lia|]. cbn [parseElements]. destruct l as [|y l].
  - cbn [map commaSep] in *. by rewrite Hx by (done || lia).
  - change (commaSep (map render (x :: y :: l))) with (render x ++ ","%char :: commaSep (map render (y :: l))) in *.
    rewrite length_app in Hf. cbn [length] in Hf. rewrite <- app_assoc. rewrite Hx by (done || lia). cbn [checkedBind fst snd app].
    rewrite skipSpace_plain, bool_decide_true by done. by rewrite IH by (done || lia).
Qed.

Definition fieldText (f : string * json) : list ascii := jsonString (fst f) ++ ":"%char :: render (snd f).
Definition treeField (f : string * json) : string * jvalue := (fst f, treeOf (snd f)).

Lemma parseMembers_texts l depth : l <> [] -> Forall (fun f => ValidString (fst f) = true /\ reads depth (snd f)) l -> forall fuel seen r,
  keysAccepted seen (map fst l) = true -> (2 * length (commaSep (map fieldText l)) + 1 < fuel)%nat ->
  parseMembers md fuel depth seen (commaSep (map fieldText l) ++ "}"%char :: r) = inl (map treeField l, r).
Proof.
  intros Hl H. induction H as [|[k x] l [Hk Hx] H IH]; [done|]. intros [|fuel] seen r Hs Hf; [lia|].
  cbn [map fst snd keysAccepted] in *. apply andb_true_iff in Hs as [Hn%negb_true_iff Hs].
  assert (forall r', exists t, fieldText (k, x) ++ r' = quote :: t /\ unquote t = Some (bytes k, ":"%char :: render x ++ r')) as Hstart.
  { intros r'. unfold fieldText. cbn [fst snd]. rewrite <- app_assoc. by apply unquote_string. }
  assert (length (fieldText (k, x)) >= length (render x) + 2)%nat as Hlen by (unfold fieldText, jsonString; cbn; rewrite !length_app; cbn; lia).
  cbn [parseMembers]. destruct l as [|f l].
  - cbn [map commaSep] in *. destruct (Hstart ("}"%char :: r)) as (t & -> & Hu). rewrite skipSpace_plain, bool_decide_true by done. cbn [negb].
    rewrite Hu, str_bytes, Hn. rewrite skipSpace_plain by done. rewrite drop_one. cbn [head]. rewrite bool_decide_true by done. cbn [negb].
    rewrite Hx by (done || lia). cbn [checkedBind fst snd]. by rewrite skipSpace_plain.
  - change (commaSep (fieldText (k, x) :: map fieldText (f :: l))) with (fieldText (k, x) ++ ","%char :: commaSep (map fieldText (f :: l))) in *.
    rewrite length_app in Hf. cbn [length] in Hf. rewrite <- app_assoc. cbn [app].
    destruct (Hstart (","%char :: commaSep (map fieldText (f :: l)) ++ "}"%char :: r)) as (t & -> & Hu). rewrite skipSpace_plain, bool_decide_true by done. cbn [negb].
    rewrite Hu, str_bytes, Hn. rewrite skipSpace_plain by done. rewrite drop_one. cbn [head]. rewrite bool_decide_true by done. cbn [negb].
    rewrite Hx by (done || lia). cbn [checkedBind fst snd]. rewrite skipSpace_plain, bool_decide_true by done.
    by rewrite IH by (done || lia).
Qed.
Lemma reads_number depth n : md_number md (decimalText n) = true -> reads depth (JInt n).
Proof.
  intros Hn [|fuel] r Hf Hr; [lia|]. cbn [parseValue]. pose proof (decimal_numberText n) as Ht.
  destruct (number_opens _ Ht) as (b & t & E & (H1 & H2 & H3 & H4 & H5 & H6)%opens_false & Hb).
  pose proof (numberLiteral_text _ r Ht Hr) as Hl. cbn [render treeOf]. rewrite E in Hl |- *. cbn [app] in *.
  rewrite skipSpace_plain by by apply ends_plain. rewrite !bool_decide_false by done.
  rewrite (stripPrefix_head (bytes "true") "t"), (stripPrefix_head (bytes "false") "f"), (stripPrefix_head (bytes "null") "n") by done.
  rewrite Hl. rewrite <- E. by rewrite Hn.
Qed.

Lemma reads_bool depth b : reads depth (JBool b).
Proof. intros [|fuel] r Hf Hr; [lia|]. by destruct b. Qed.

Lemma reads_string depth s : ValidString s = true -> reads depth (JString s).
Proof.
  intros Hs [|fuel] r Hf Hr; [lia|]. cbn [parseValue render]. destruct (unquote_string s r Hs) as (t & -> & Hu).
  rewrite skipSpace_plain by done. rewrite !bool_decide_false, bool_decide_true by done. by rewrite Hu, str_bytes.
Qed.

Lemma reads_array depth l : md_depth md depth = true -> Forall (reads (depth + 1)) l -> reads depth (JArray l).
Proof.
  intros Hd Hl [|fuel] r Hf Hr; [lia|]. cbn [parseValue render treeOf app]. rewrite skipSpace_plain by done.
  rewrite bool_decide_false, bool_decide_true by done. rewrite Hd. cbn [negb]. destruct l as [|x l]; [done|].
  rewrite <- app_assoc. cbn [app]. rewrite bool_decide_false.
  - rewrite parseElements_texts; [done|done|done|]. cbn [render length] in Hf. rewrite length_app in Hf. cbn [length] in Hf. lia.
  - destruct (render_cons x) as (b & t & E & Hb). assert (exists t', commaSep (map render (x :: l)) ++ "]"%char :: r = b :: t') as [t' ->].
    { cbn [map commaSep]. rewrite E. destruct (map render l); by eexists. }
    rewrite skipSpace_plain by by apply ends_plain. by intros [= ->].
Qed.

Lemma reads_object depth l : md_depth md depth = true -> keysAccepted [] (map fst l) = true ->
  Forall (fun f => ValidString (fst f) = true /\ reads (depth + 1) (snd f)) l -> reads depth (JObject l).
Proof.
  intros Hd Hk Hl [|fuel] r Hf Hr; [lia|]. cbn [parseValue render treeOf app]. rewrite skipSpace_plain by done.
  rewrite bool_decide_true by done. rewrite Hd. cbn [negb]. destruct l as [|f l]; [done|].
  rewrite <- app_assoc. cbn [app]. fold fieldText treeField. rewrite bool_decide_false.
  - rewrite parseMembers_texts; [done|done|done|done|]. cbn [render length] in Hf. rewrite length_app in Hf. cbn [length] in Hf. fold fieldText in Hf. lia.
  - assert (exists t', commaSep (map fieldText (f :: l)) ++ "}"%char :: r = quote :: t') as [t' ->].
    { assert (exists u, fieldText f = quote :: u) as [u E] by by eexists. cbn [map commaSep]. rewrite E. destruct (map fieldText l); by eexists. }
    by rewrite skipSpace_plain.
Qed.

Lemma accepted_reads j : validJson j = true -> forall depth, accepted depth j = true -> reads depth j.
Proof.
  induction j as [s|n|b|l IH|l IH] using json_forall; cbn [validJson accepted]; intros Hv depth Ha.
  - by apply reads_string.
  - by apply reads_number.
  - apply reads_bool.
  - apply andb_true_iff in Ha as [Hd Ha]. apply reads_array; [done|]. rewrite forallb_forall in Hv, Ha. rewrite Forall_forall in *.
    intros x Hx. apply IH; [done|by apply Hv, list_elem_of_In|by apply Ha, list_elem_of_In].
  - apply andb_true_iff in Ha as [[Hd Hk]%andb_true_iff Ha]. apply reads_object; [done..|]. rewrite forallb_forall in Hv, Ha. rewrite Forall_forall in *.
    intros f Hf. apply list_elem_of_In in Hf as Hf'. apply Hv in Hf' as Hv'. apply andb_true_iff in Hv' as [Hk' Hv']. split; [done|].
    apply IH; [done|done|by apply (Ha f)].
Qed.

Lemma firstValue_render j r : validJson j = true -> accepted 0 j = true -> follows r -> firstValue md (render j ++ r) = inl (treeOf j, r).
Proof. intros Hv Ha Hr. apply accepted_reads; [done|done| |done]. rewrite length_app. lia. Qed.
End accepted.

(** ** The structural pass *)
Lemma ascii_not_continuation c : byte_of c < 128 -> continuation c = false.
Proof. intros H. apply between_false. lia. Qed.

Lemma ascii_after c : byte_of c < 128 -> (forall a, two_byte a c = false) /\ (forall a b, three_byte a b c = false) /\ (forall a b, three_byte a c b = false) /\
  (forall a b d, four_byte a b d c = false) /\ (forall a b d, four_byte a b c d = false) /\ (forall a b d, four_byte a c b d = false).
Proof.
  intros H. pose proof (ascii_not_continuation c H) as Hc. split_and!; intros.
  - unfold two_byte. by rewrite Hc, andb_false_r.
  - unfold three_byte. rewrite Hc. by rewrite ?andb_false_r.
  - unfold three_byte. destruct (_ && _) eqn:E; [|done]. exfalso. rewrite !andb_true_iff, !between_spec in E. if_cases; lia.
  - unfold four_byte. rewrite Hc. by rewrite ?andb_false_r.
  - unfold four_byte. rewrite Hc. by rewrite ?andb_false_r, ?andb_false_l.
  - unfold four_byte. destruct (_ && _) eqn:E; [|done]. exfalso. rewrite !andb_true_iff, !between_spec in E. if_cases; lia.
Qed.

(** An ASCII byte ends whatever sequence precedes it. *)
Lemma decodeRunes_ascii l c m : byte_of c < 128 -> decodeRunes (l ++ c :: m) = decodeRunes l ++ decodeRunes (c :: m).
Proof.
  intros Hc. destruct (ascii_after c Hc) as (H1 & H2 & H3 & H4 & H5 & H6).
  induction l as [l IH] using (induction_ltof1 _ (@length ascii)). unfold ltof in IH. destruct l as [|a l]; [done|].
  assert (forall l', (length l' <= length l)%nat -> decodeRunes (l' ++ c :: m) = decodeRunes l' ++ decodeRunes (c :: m)) as IH'
    by (intros l' Hl; apply IH; cbn; lia). clear IH.
  remember (decodeRunes (c :: m)) as tail eqn:Et. cbn [app decodeRunes]. destruct (byte_of a <? 128); [cbn [app]; by rewrite IH'|].
  destruct l as [|b l].
  { cbn [app]. rewrite H1. rewrite <- Et. destruct m as [|x m]; [done|]. rewrite H3. destruct m as [|y m]; [done|]. by rewrite H6. }
  cbn [app]. destruct (two_byte a b); [cbn [app]; by rewrite IH' by (cbn; lia)|].
  destruct l as [|b2 l].
  { cbn [app]. rewrite H2. change (b :: c :: m) with ([b] ++ c :: m). rewrite IH' by (cbn; lia). destruct m as [|x m]; [done|]. by rewrite H5. }
  cbn [app]. destruct (three_byte a b b2); [cbn [app]; by rewrite IH' by (cbn; lia)|].
  destruct l as [|b3 l].
  { cbn [app]. rewrite H4. change (b :: b2 :: c :: m) with ([b; b2] ++ c :: m). by rewrite IH' by (cbn; lia). }
  cbn [app]. destruct (four_byte a b b2 b3); cbn [app].
  - by rewrite IH' by (cbn; lia).
  - change (b :: b2 :: b3 :: l ++ c :: m) with ((b :: b2 :: b3 :: l) ++ c :: m). by rewrite IH' by (cbn; lia).
Qed.

Definition container (j : json) : bool := match j with JArray _ | JObject _ => true | _ => false end.

Lemma container_render j : container j = true -> exists a l b, render j = a :: l ++ [b] /\
  (a = "{"%char \/ a = "["%char) /\ byte_of b < 128 /\ IsSpace (byte_of b) = false.
Proof.
  destruct j as [s|n|b|l|l]; [done..| |]; intros _; do 3 eexists; (split; [reflexivity|]); (split; [auto|done]).
Qed.

Lemma unchunk_app l k : unchunk (l ++ k) = unchunk l ++ unchunk k.
Proof. unfold unchunk. by rewrite map_app, concat_app. Qed.

Lemma unchunk_runes l : unchunk (decodeRunes l) = l.
Proof. apply decodeRunes_spec. Qed.

(** Trimming takes the newline off a canonical container. *)
Lemma TrimSpace_container j : container j = true -> TrimSpace (MarshalCanonical j) = str (render j).
Proof.
  intros (a & l & b & E & Ha & Hb & Hs)%container_render. unfold TrimSpace, MarshalCanonical, runes. rewrite bytes_str, E. f_equal.
  assert (byte_of a < 128 /\ IsSpace (byte_of a) = false) as [Ha1 Ha2] by (by destruct Ha as [-> | ->]).
  assert (decodeRunes ((a :: l ++ [b]) ++ ["010"%char]) = (byte_of a, [a]) :: decodeRunes l ++ [(byte_of b, [b]); (10, ["010"%char])]) as ->.
  { cbn [app]. rewrite <- app_assoc. cbn [app decodeRunes]. rewrite (proj2 (Z.ltb_lt _ _) Ha1). f_equal. rewrite decodeRunes_ascii by done.
    cbn [decodeRunes]. by rewrite (proj2 (Z.ltb_lt _ _) Hb). }
  cbn [dropSpace fst]. rewrite Ha2. cbn [rev]. rewrite rev_app_distr. cbn [rev app dropSpace fst].
  change (IsSpace 10) with true. cbn iota. rewrite Hs. cbn [rev]. rewrite rev_app_distr, rev_involutive. cbn [rev app].
  change ((byte_of a, [a]) :: decodeRunes l ++ [(byte_of b, [b])]) with ([(byte_of a, [a])] ++ decodeRunes l ++ [(byte_of b, [b])]).
  by rewrite !unchunk_app, unchunk_runes.
Qed.

Lemma nesting_nonneg j : 0 <= nesting j.
Proof.
  induction j as [s|n|b|l IH|l IH] using json_forall; try done.
  - destruct l as [|x l]; [done|]. pose proof (fold_max nesting l x x ltac:(left)) as Hx. inversion IH; subst. cbn [nesting]. lia.
  - destruct l as [|[k x] l]; [done|]. pose proof (fold_max (fun f => nesting (snd f)) l (k, x) (k, x) ltac:(left)) as Hx.
    inversion IH; subst. cbn [nesting snd] in *. lia.
Qed.

Section orbits.
Context (orbit : Z -> Z).

Lemma validateStructure_canonical j : container j = true -> validJson j = true -> accepted (tokens orbit) 0 j = true ->
  len (MarshalCanonical j) <= MaxControlRecordSize -> ValidateJSONStructure orbit (MarshalCanonical j) = inl tt.
Proof.
  intros Hc Hv Ha Hl. unfold ValidateJSONStructure. rewrite (proj2 (Z.ltb_ge _ _)) by lia. rewrite TrimSpace_container, bytes_str by done.
  pose proof (firstValue_render (tokens orbit) j [] Hv Ha I) as E. rewrite app_nil_r in E. cbv zeta.
  destruct (container_render j Hc) as (a & l & b & Er & Hab & _). rewrite Er in *. rewrite bool_decide_false by (by destruct Hab as [-> | ->]).
  rewrite E. by destruct Hab as [-> | ->].
Qed.

Lemma wholeValue_canonical j : validJson j = true -> accepted scanner 0 j = true -> wholeValue (MarshalCanonical j) = inl (treeOf j).
Proof. intros Hv Ha. unfold wholeValue, MarshalCanonical. by rewrite bytes_str, firstValue_render. Qed.

(** ** Keys, nesting and numbers *)
Lemma keysAccepted_distinct seen keys : NoDup (map (foldJSONKey orbit) (keys ++ seen)) -> keysAccepted (tokens orbit) seen keys = true.
Proof.
  revert seen. induction keys as [|k keys IH]; intros seen H; cbn [keysAccepted]; [done|]. apply andb_true_iff. split.
  - cbn [app map] in H. apply NoDup_cons in H as [Hn _]. apply negb_true_iff. cbn [md_key tokens]. unfold seenKey.
    destruct (existsb _ seen) eqn:E; [|done]. exfalso. apply existsb_exists in E as (old & Hin & E). apply Hn.
    assert (foldJSONKey orbit k = foldJSONKey orbit old) as ->.
    { apply orb_true_iff in E as [->%eqs_true|E%bool_decide_eq_true]; [done|by rewrite E]. }
    apply list_elem_of_In. apply in_map, in_or_app. by right.
  - apply IH. eapply NoDup_Permutation_proper; [|exact H]. cbn [app map]. rewrite !map_app. cbn [map]. symmetry. apply Permutation_middle.
Qed.

Lemma keysAccepted_scanner seen keys : keysAccepted scanner seen keys = true.
Proof. revert seen. induction keys as [|k keys IH]; intros seen; [done|]. apply IH. Qed.

Lemma accepted_scanner j depth : depth + nesting j < maxNestingDepth -> accepted scanner depth j = true.
Proof.
  revert depth. induction j as [s|n|b|l IH|l IH] using json_forall; intros depth Hd; try done; cbn [accepted scanner md_depth].
  - assert (depth < maxNestingDepth) as Hlt by (destruct l as [|x l]; [cbn in Hd; lia|]; pose proof (fold_max nesting l x x ltac:(left)) as Hx;
      cbn [nesting] in Hd; pose proof (nesting_nonneg x); lia).
    rewrite (proj2 (Z.ltb_lt _ _) Hlt). apply forallb_forall. intros x Hx%list_elem_of_In. rewrite Forall_forall in IH. apply IH; [done|].
    destruct l as [|y l]; [by apply elem_of_nil in Hx|]. pose proof (fold_max nesting l y x Hx). cbn [nesting] in Hd. lia.
  - assert (depth < maxNestingDepth) as Hlt by (destruct l as [|[k x] l]; [cbn in Hd; lia|]; pose proof (fold_max (fun f => nesting (snd f)) l (k, x) (k, x) ltac:(left)) as Hx;
      cbn [nesting snd] in *; pose proof (nesting_nonneg x); lia).
    rewrite (proj2 (Z.ltb_lt _ _) Hlt), keysAccepted_scanner. apply forallb_forall. intros f Hf%list_elem_of_In. rewrite Forall_forall in IH. apply IH; [done|].
    destruct l as [|[k y] l]; [by apply elem_of_nil in Hf|]. pose proof (fold_max (fun f => nesting (snd f)) l (k, y) f Hf). cbn [nesting snd] in *. lia.
Qed.

(** ** What the encoder of a type writes *)
(** A map is written with the keys it has; a field that may be omitted is, when it is zero. *)
Inductive encodes : gotype -> govalue -> json -> Prop :=
| en_string s : encodes TString (VString s) (JString s)
| en_bool b : encodes TBool (VBool b) (JBool b)
| en_int n : in_int64 n -> encodes TInt (VInt n) (JInt n)
| en_uint n : 0 <= n <= max_uint64 -> encodes TUint64 (VInt n) (JInt n)
| en_pointer t v j : encodes t v j -> encodes (TPointer t) (VPointer v) j
| en_slice t vs js : encodesElements t vs js -> encodes (TSlice t) (VSlice vs) (JArray js)
| en_map t vs js : encodesEntries t vs js -> NoDup (map (foldJSONKey orbit) (map fst js)) -> encodes (TMap t) (VMap vs) (JObject js)
| en_struct fields vs js : encodesFields fields vs js -> encodes (TStruct fields) (VStruct vs) (JObject js)
with encodesElements : gotype -> list govalue -> list json -> Prop :=
| el_nil t : encodesElements t [] []
| el_cons t v vs j js : encodes t v j -> encodesElements t vs js -> encodesElements t (v :: vs) (j :: js)
with encodesEntries : gotype -> list (string * govalue) -> list (string * json) -> Prop :=
| et_nil t : encodesEntries t [] []
| et_cons t k v vs j js : encodes t v j -> encodesEntries t vs js -> encodesEntries t ((k, v) :: vs) ((k, j) :: js)
with encodesFields : list (string * bool * gotype) -> list govalue -> list (string * json) -> Prop :=
| ef_nil : encodesFields [] [] []
| ef_present name optional t fields v vs j js : encodes t v j -> encodesFields fields vs js ->
    encodesFields ((name, optional, t) :: fields) (v :: vs) ((name, j) :: js)
| ef_omitted name t fields vs js : encodesFields fields vs js -> encodesFields ((name, true, t) :: fields) (StrictJson.zero t :: vs) js.

Scheme encodes_mut := Minimality for encodes Sort Prop
  with encodesElements_mut := Minimality for encodesElements Sort Prop
  with encodesEntries_mut := Minimality for encodesEntries Sort Prop
  with encodesFields_mut := Minimality for encodesFields Sort Prop.
Combined Scheme encodes_ind4 from encodes_mut, encodesElements_mut, encodesEntries_mut, encodesFields_mut.

(** The names of the fields of a struct differ even when case is folded. *)
Fixpoint distinctNames (t : gotype) : Prop :=
  match t with
  | TPointer t | TSlice t | TMap t => distinctNames t
  | TStruct fields => NoDup (map (foldJSONKey orbit) (namesOf fields)) /\ foldr (fun f P => distinctNames (snd f) /\ P) True fields
  | _ => True
  end.
Definition distinctFields (fields : list (string * bool * gotype)) : Prop := foldr (fun f P => distinctNames (snd f) /\ P) True fields.

Lemma sublist_map {A B} (f : A -> B) l k : l `sublist_of` k -> map f l `sublist_of` map f k.
Proof. induction 1; cbn; by constructor. Qed.

Lemma sublist_in {A} (l k : list A) x : l `sublist_of` k -> x ∈ l -> x ∈ k.
Proof. induction 1 as [|y l k _ IH|y l k _ IH]; [done|..]; rewrite ?elem_of_cons; [|by auto]. intros [?|?]; auto. Qed.

Lemma fields_sublist fields vs js : encodesFields fields vs js -> map fst js `sublist_of` namesOf fields.
Proof. induction 1; cbn; by constructor. Qed.

Lemma NoDup_folded keys : NoDup (map (foldJSONKey orbit) keys) -> NoDup keys.
Proof. apply NoDup_fmap_1. Qed.

(** The tokens of an encoded value are accepted. *)
Lemma encoded_tokens :
  (forall t v j, encodes t v j -> distinctNames t -> forall depth, accepted (tokens orbit) depth j = true) /\
  (forall t vs js, encodesElements t vs js -> distinctNames t -> forall depth, forallb (accepted (tokens orbit) depth) js = true) /\
  (forall t vs js, encodesEntries t vs js -> distinctNames t -> forall depth, forallb (fun f => accepted (tokens orbit) depth (snd f)) js = true) /\
  (forall fields vs js, encodesFields fields vs js -> distinctFields fields -> forall depth, forallb (fun f => accepted (tokens orbit) depth (snd f)) js = true).
Proof.
  apply encodes_ind4; try done.
  - intros n Hn _ depth. apply floatInRange_decimal. unfold in_int64, min_int64, max_int64 in Hn. lia.
  - intros n Hn _ depth. apply floatInRange_decimal. unfold max_uint64 in Hn. lia.
  - intros t vs js _ IH Hd depth. cbn [accepted tokens md_depth andb]. by apply IH.
  - intros t vs js _ IH Hn Hd depth. cbn [accepted tokens md_depth andb]. rewrite IH by done. rewrite keysAccepted_distinct; [done|by rewrite app_nil_r].
  - intros fields vs js He IH [Hn Hd] depth. cbn [accepted tokens md_depth andb]. rewrite IH by done. rewrite keysAccepted_distinct; [done|].
    rewrite app_nil_r. eapply sublist_NoDup; [exact Hn|]. apply sublist_map. by eapply fields_sublist.
  - intros t v vs j js _ IH1 _ IH2 Hd depth. cbn [forallb]. by rewrite IH1, IH2.
  - intros t k v vs j js _ IH1 _ IH2 Hd depth. cbn [forallb snd]. by rewrite IH1, IH2.
  - intros name o t fields v vs j js _ IH1 _ IH2 [H1 H2] depth. cbn [forallb snd]. by rewrite IH1, IH2.
  - intros name t fields vs js _ IH [_ H] depth. by apply IH.
Qed.

(** ** Encoded values are decoded *)
Lemma memberNamed_cons name k v members : memberNamed name ((k, v) :: members) = if eqs k name then Some v else memberNamed name members.
Proof. unfold memberNamed. cbn. by destruct (eqs k name). Qed.

Lemma memberNamed_absent name members : name ∉ map fst members -> memberNamed name members = None.
Proof.
  induction members as [|[k v] members IH]; intros H; [done|]. rewrite memberNamed_cons. cbn [map fst] in H. apply not_elem_of_cons in H as [Hk H].
  rewrite (proj2 (eqs_false k name)) by congruence. by apply IH.
Qed.

Lemma deleteMember_absent name members : name ∉ map fst members -> deleteMember name members = members.
Proof.
  induction members as [|[k v] members IH]; intros H; [done|]. cbn [map fst] in H. apply not_elem_of_cons in H as [Hk H].
  unfold deleteMember in *. cbn [List.filter fst]. rewrite (proj2 (eqs_false k name)) by congruence. cbn [negb]. by rewrite IH.
Qed.

Lemma treeField_keys js : map fst (map treeField js) = map fst js.
Proof. rewrite map_map. by apply map_ext. Qed.

(** Keys that are names of fields select by equality. *)
Lemma selects_exact names key name : key ∈ names -> selects orbit names key name = eqs key name.
Proof.
  intros H. unfold selects. replace (existsb (eqs key) names) with true; [by rewrite orb_false_r|].
  symmetry. apply existsb_exists. exists key. split; [by apply list_elem_of_In|by apply eqs_true].
Qed.

Lemma find_selects names name members : map fst members ⊆ names ->
  snd <$> find (fun m : string * jvalue => selects orbit names (fst m) name) members = memberNamed name members.
Proof.
  induction members as [|[k v] members IH]; intros H; [done|]. cbn [map fst] in H. rewrite memberNamed_cons. cbn [find fst].
  rewrite selects_exact by set_solver. destruct (eqs k name); [done|]. apply IH. set_solver.
Qed.

Lemma all_selected names (members : list (string * jvalue)) : map fst members ⊆ names ->
  forallb (fun m => existsb (selects orbit names (fst m)) names) members = true.
Proof.
  intros H. apply forallb_forall. intros [k v] Hin. apply existsb_exists. exists k. cbn [fst].
  assert (k ∈ names) as Hk by (apply H, list_elem_of_In; by apply (in_map fst) in Hin).
  split; [by apply list_elem_of_In|]. rewrite selects_exact by done. by apply eqs_true.
Qed.

Lemma fields_keys fields vs js name : encodesFields fields vs js -> name ∉ namesOf fields -> name ∉ map fst js.
Proof. intros He Hn Hin. apply Hn. by eapply sublist_in; [eapply fields_sublist|]. Qed.

(** What an encoded value passes, and what it is decoded to. *)
Definition passes (t : gotype) (v : govalue) (j : json) : Prop :=
  validateJSONType t (treeOf j) = inl tt /\ decodeInto orbit t (treeOf j) = inl v.

Lemma decoded_fields fields vs js : encodesFields fields vs js -> distinctNames (TStruct fields) ->
  (forall names members, (forall name, name ∈ namesOf fields ->
     snd <$> find (fun m => selects orbit names (fst m) name) members = memberNamed name (map treeField js)) ->
   decodeFields orbit (decodeInto orbit) names members fields = inl vs) ->
  validateFields validateJSONType fields (map treeField js) = inl tt -> passes (TStruct fields) (VStruct vs) (JObject js).
Proof.
  intros He [Hn _] Hd Hv. split; [exact Hv|]. cbn [decodeInto treeOf]. fold treeField.
  assert (map fst (map treeField js) ⊆ namesOf fields) as Hsub.
  { rewrite treeField_keys. intros k Hk. by eapply sublist_in; [eapply fields_sublist|]. }
  rewrite all_selected by done. cbn [negb]. rewrite (Hd (namesOf fields) (map treeField js)); [done|]. intros name _. by apply find_selects.
Qed.

Lemma encoded_passes :
  (forall t v j, encodes t v j -> distinctNames t -> passes t v j) /\
  (forall t vs js, encodesElements t vs js -> distinctNames t ->
     (exists us, traverse (validateJSONType t) (map treeOf js) = inl us) /\ traverse (decodeInto orbit t) (map treeOf js) = inl vs) /\
  (forall t vs js, encodesEntries t vs js -> distinctNames t ->
     traverse (fun m => x <- decodeInto orbit t (snd m) ;; inl (fst m, x)) (map treeField js) = inl vs) /\
  (forall fields vs js, encodesFields fields vs js -> distinctFields fields -> NoDup (map (foldJSONKey orbit) (namesOf fields)) ->
     validateFields validateJSONType fields (map treeField js) = inl tt /\
     forall names members, (forall name, name ∈ namesOf fields ->
       snd <$> find (fun m => selects orbit names (fst m) name) members = memberNamed name (map treeField js)) ->
     decodeFields orbit (decodeInto orbit) names members fields = inl vs).
Proof.
  apply encodes_ind4.
  - done.
  - done.
  - intros n Hn _. split; [done|]. cbn [treeOf decodeInto]. by rewrite parseInteger_decimal.
  - intros n Hn _. split; [done|]. cbn [treeOf decodeInto]. by rewrite parseInteger_decimal.
  - intros t v j _ IH Hd. destruct (IH Hd) as [H1 H2]. unfold passes. destruct j; cbn [treeOf validateJSONType decodeInto] in *; by rewrite ?H2.
  - intros t vs js _ IH Hd. destruct (IH Hd) as [[us H1] H2]. split; cbn [treeOf validateJSONType decodeInto]; [by rewrite H1|by rewrite H2].
  - intros t vs js _ IH _ Hd. split; [done|]. cbn [treeOf decodeInto]. fold treeField. by rewrite IH.
  - intros fields vs js He IH [Hn Hd]. destruct (IH Hd Hn). by apply decoded_fields.
  - intros t _. by split; [exists []|].
  - intros t v vs j js _ IH1 _ IH2 Hd. destruct (IH1 Hd) as [H1 H2], (IH2 Hd) as [[us H3] H4]. cbn [map traverse]. rewrite H1, H2, H3, H4. by split; [eexists|].
  - done.
  - intros t k v vs j js _ IH1 _ IH2 Hd. destruct (IH1 Hd) as [_ H2]. cbn [map traverse treeField fst snd]. by rewrite H2, IH2.
  - done.
  - intros name o t fields v vs j js _ IH1 He IH2 [Hd1 Hd2] Hn. cbn [namesOf map] in Hn. fold (namesOf fields) in Hn.
    apply NoDup_cons in Hn as [Hname Hn]. cbn [fst] in Hname.
    assert (name ∉ namesOf fields) as Hname' by (intros Hin; apply Hname; apply list_elem_of_In, in_map; by apply list_elem_of_In).
    destruct (IH1 Hd1) as [H1 H2], (IH2 Hd2 Hn) as [H3 H4]. change (map treeField ((name, j) :: js)) with ((name, treeOf j) :: map treeField js). split.
    + cbn [validateFields]. rewrite memberNamed_cons, eqs_refl, H1. cbn [checkedBind]. unfold deleteMember. cbn [List.filter fst]. rewrite eqs_refl. cbn [negb].
      fold (deleteMember name (map treeField js)). rewrite deleteMember_absent; [done|]. rewrite treeField_keys. by eapply fields_keys.
    + intros names members Hsel. cbn [decodeFields]. rewrite Hsel by (by left). rewrite memberNamed_cons, eqs_refl, H2. cbn [checkedBind].
      rewrite H4; [done|]. intros name' Hin. rewrite Hsel by (by right). rewrite memberNamed_cons. by rewrite (proj2 (eqs_false name name')) by congruence.
  - intros name t fields vs js He IH [Hd1 Hd2] Hn. cbn [namesOf map] in Hn. fold (namesOf fields) in Hn.
    apply NoDup_cons in Hn as [Hname Hn]. cbn [fst] in Hname.
    assert (name ∉ namesOf fields) as Hname' by (intros Hin; apply Hname; apply list_elem_of_In, in_map; by apply list_elem_of_In).
    destruct (IH Hd2 Hn) as [H3 H4]. assert (memberNamed name (map treeField js) = None) as E.
    { apply memberNamed_absent. rewrite treeField_keys. by eapply fields_keys. }
    split; [cbn [validateFields]; by rewrite E|]. intros names members Hsel. cbn [decodeFields]. rewrite Hsel by (by left). rewrite E. cbn [checkedBind].
    rewrite H4; [done|]. intros name' Hin. by apply Hsel; right.
Qed.

(** The strict decoder gives back a value from the canonical text its encoder writes, when
    the text is within the size of a control record. *)
Lemma decode_canonical t v j : distinctNames t -> encodes t v j -> container j = true -> validJson j = true -> nesting j < maxNestingDepth ->
  len (MarshalCanonical j) <= MaxControlRecordSize -> DecodeStrict orbit t (MarshalCanonical j) = inl v.
Proof.
  intros Hd He Hc Hv Hn Hl. destruct (proj1 encoded_passes _ _ _ He Hd) as [H1 H2].
  pose proof (accepted_scanner j 0 ltac:(lia)) as Ha. unfold DecodeStrict.
  rewrite validateStructure_canonical by (done || by apply (proj1 encoded_tokens _ _ _ He Hd)). cbn [checkedBind].
  assert (validateRequiredFields (MarshalCanonical j) t = inl tt) as ->.
  { unfold validateRequiredFields. destruct (readsDocument t); [|done]. by rewrite wholeValue_canonical. }
  cbn [checkedBind]. unfold MarshalCanonical. by rewrite bytes_str, firstValue_render.
Qed.

(** Fields, by the way they are written. *)
Lemma omitString_inv name s : s = ""%string /\ omitString name s = [] \/ omitString name s = [(name, JString s)].
Proof. unfold omitString. destruct (eqs s "") eqn:E; [left; by apply eqs_true in E|by right]. Qed.

Lemma encodes_field name optional t fields v vs j js : encodes t v j -> encodesFields fields vs js ->
  encodesFields ((name, optional, t) :: fields) (v :: vs) ([(name, j)] ++ js).
Proof. intros. by apply ef_present. Qed.

Lemma encodes_omitString name fields s vs js : encodesFields fields vs js ->
  encodesFields ((name, true, TString) :: fields) (VString s :: vs) (omitString name s ++ js).
Proof.
  intros H. unfold omitString. destruct (eqs s "") eqn:E; [apply eqs_true in E as ->; by apply (ef_omitted name TString)|].
  by apply encodes_field; [constructor|].
Qed.

Lemma encodes_omitBool name fields b vs js : encodesFields fields vs js ->
  encodesFields ((name, true, TBool) :: fields) (VBool b :: vs) (omitBool name b ++ js).
Proof. intros H. destruct b; [by apply encodes_field; [constructor|]|by apply (ef_omitted name TBool)]. Qed.

Definition pointerTo (o : option govalue) : govalue := match o with Some v => VPointer v | None => VNil end.

Lemma encodes_omitPointer {A} name t fields (f : A -> govalue) (g : A -> json) o vs js :
  (forall a, o = Some a -> encodes t (f a) (g a)) -> encodesFields fields vs js ->
  encodesFields ((name, true, TPointer t) :: fields) (pointerTo (f <$> o) :: vs) (omitempty name (g <$> o) ++ js).
Proof.
  intros Ho H. destruct o as [a|]; [|by apply (ef_omitted name (TPointer t))]. apply encodes_field; [|done]. constructor. by apply Ho.
Qed.

Lemma encodes_elements {A} t (f : A -> govalue) (g : A -> json) l : (forall a, a ∈ l -> encodes t (f a) (g a)) ->
  encodes (TSlice t) (VSlice (map f l)) (JArray (map g l)).
Proof.
  intros H. constructor. induction l as [|a l IH]; cbn [map]; constructor; [apply H; by left|]. apply IH. intros b Hb. apply H. by right.
Qed.
End orbits.

(** ** ASCII names *)
(** What the decoder relies on of the simple folding of Unicode: the least rune of the orbit
    of an ASCII rune is the upper-case letter, or the rune itself. *)
Definition asciiOrbit (r : Z) : Z := if between 97 r 122 then r - 32 else r.
Class CaseFold (orbit : Z -> Z) : Prop := orbit_ascii r : 0 <= r < 128 -> orbit r = asciiOrbit r.
#[export] Instance asciiOrbit_fold : CaseFold asciiOrbit.
Proof. by intros r _. Qed.

Lemma runes_ascii l : forallb (fun c => byte_of c <? 128) l = true -> decodeRunes l = map (fun c => (byte_of c, [c])) l.
Proof. induction l as [|c l IH]; cbn; [done|]. intros [Hc Hl]%andb_true_iff. by rewrite Hc, IH. Qed.

Definition asciiName (name : string) : bool := forallb (fun c => byte_of c <? 128) (bytes name).
Definition asciiFold (name : string) : list Z := map (fun c => asciiOrbit (byte_of c)) (bytes name).

Lemma foldJSONKey_ascii orbit `{CaseFold orbit} name : asciiName name = true -> foldJSONKey orbit name = asciiFold name.
Proof.
  intros Hn. unfold foldJSONKey, runes, asciiFold. rewrite runes_ascii, map_map by done. unfold asciiName in Hn. rewrite forallb_forall in Hn.
  apply map_ext_in. intros c Hc%Hn. cbn [fst]. apply orbit_ascii. apply Z.ltb_lt in Hc. pose proof (byte_range c). lia.
Qed.

Fixpoint asciiNames (t : gotype) : bool :=
  match t with
  | TPointer t | TSlice t | TMap t => asciiNames t
  | TStruct fields => bool_decide (NoDup (map asciiFold (namesOf fields))) && forallb (fun f => asciiName (fst (fst f)) && asciiNames (snd f)) fields
  | _ => true
  end.

Lemma gotype_forall (P : gotype -> Prop) : P TString -> P TBool -> P TInt -> P TUint64 ->
  (forall t, P t -> P (TPointer t)) -> (forall t, P t -> P (TSlice t)) -> (forall t, P t -> P (TMap t)) ->
  (forall fields, Forall (fun f => P (snd f)) fields -> P (TStruct fields)) -> forall t, P t.
Proof.
  intros H1 H2 H3 H4 HP HS HM HF. fix IH 1. intros [| | | |t|t|t|fields]; [done..|apply HP, IH|apply HS, IH|apply HM, IH|apply HF].
  induction fields as [|[f t] fields IHf]; constructor; [apply IH|apply IHf].
Qed.

Lemma distinct_ascii orbit `{CaseFold orbit} t : asciiNames t = true -> distinctNames orbit t.
Proof.
  induction t as [| | | |t IH|t IH|t IH|fields IH] using gotype_forall; cbn [asciiNames distinctNames]; auto.
  intros [Hn%bool_decide_eq_true Hf]%andb_true_iff. rewrite forallb_forall in Hf. split.
  - replace (map (foldJSONKey orbit) (namesOf fields)) with (map asciiFold (namesOf fields)); [done|]. apply map_ext_in. intros name Hin.
    apply in_map_iff in Hin as (f & <- & Hin). apply Hf in Hin as [Hin _]%andb_true_iff. symmetry. by apply foldJSONKey_ascii.
  - clear Hn. induction IH as [|f fields Hd IH IHf]; [done|]. split; [apply Hd; by specialize (Hf f (or_introl eq_refl)) as [_ ?]%andb_true_iff|].
    apply IHf. intros x Hx. apply Hf. by right.
Qed.

(** ** The fuel is enough *)
Lemma emitting_inv p o dec rest : emitting p o = Some (dec, rest) -> exists dec', o = Some (dec', rest).
Proof. destruct o as [[dec' rest']|]; [|done]. intros [= _ <-]. by exists dec'. Qed.

Lemma unquote_shorter l dec rest : unquote l = Some (dec, rest) -> (length rest < length l)%nat.
Proof.
  revert dec. induction l as [l IH] using (induction_ltof1 _ (@length ascii)). unfold ltof in IH. intros dec H.
  assert (forall p l', (length l' < length l)%nat -> emitting p (unquote l') = Some (dec, rest) -> (length rest < length l)%nat) as Hrec.
  { intros p l' Hl (dec' & H')%emitting_inv. specialize (IH l' Hl dec' H'). lia. }
  destruct l as [|c l]; [done|]. cbn [unquote] in H. case_bool_decide; [injection H as _ <-; cbn; lia|].
  case_bool_decide.
  - destruct l as [|e l]; [done|]. case_bool_decide.
    + destruct l as [|a [|b [|x [|y l]]]]; try done. destruct (hex4 a b x y) as [u|]; [|done]. destruct (between 55296 u 57343); [|eapply Hrec; [|exact H]; cbn; lia].
      destruct l as [|s [|t [|a' [|b' [|x' [|y' l]]]]]]; try (eapply Hrec; [|exact H]; cbn; lia).
      match type of H with match ?x with Some _ => _ | None => _ end = _ => destruct x end; (eapply Hrec; [|exact H]; cbn; lia).
    + destruct (simpleEscape e); [|done]. eapply Hrec; [|exact H]. cbn. lia.
  - destruct (_ <? 32); [done|]. destruct (_ <? 128); [eapply Hrec; [|exact H]; cbn; lia|].
    destruct l as [|b l]; [done|]. destruct (two_byte c b); [eapply Hrec; [|exact H]; cbn; lia|].
    destruct l as [|x l]; [eapply Hrec; [|exact H]; cbn; lia|]. destruct (three_byte c b x); [eapply Hrec; [|exact H]; cbn; lia|].
    destruct l as [|y l]; [eapply Hrec; [|exact H]; cbn; lia|]. destruct (four_byte c b x y); (eapply Hrec; [|exact H]; cbn; lia).
Qed.

Lemma splitDigits_shorter l ds l' : splitDigits l = (ds, l') -> (length l' + length ds = length l)%nat.
Proof. intros [= <- <-]. rewrite Nat.add_comm, <- length_app. by rewrite take_drop. Qed.

Lemma numberLiteral_shorter l n rest : numberLiteral l = Some (n, rest) -> (length rest < length l)%nat.
Proof.
  unfold numberLiteral. destruct (match l with m :: l1 => if bool_decide (m = "-"%char) then ([m], l1) else ([], l) | [] => ([], l) end) as [sign l1] eqn:E1.
  assert (length l1 <= length l)%nat as H1 by (destruct l as [|m l]; [by injection E1 as _ <-|]; case_bool_decide; injection E1 as _ <-; cbn; lia).
  destruct (integerLiteral l1) as [[i l2]|] eqn:E2; [|done]. cbn [mbind option_bind].
  assert (length l2 < length l1)%nat as H2.
  { unfold integerLiteral in E2. destruct l1 as [|d l1]; [done|]. case_bool_decide; [injection E2 as _ <-; cbn; lia|].
    destruct (splitDigits (d :: l1)) as [ds l'] eqn:Es. apply splitDigits_shorter in Es. destruct ds; [done|]. rewrite bool_decide_false in E2 by done. injection E2 as _ <-. cbn in *. lia. }
  destruct (fractionLiteral l2) as [[f l3]|] eqn:E3; [|done]. cbn [mbind option_bind].
  assert (length l3 <= length l2)%nat as H3.
  { unfold fractionLiteral in E3. destruct l2 as [|p l2]; [by injection E3 as _ <-|]. case_bool_decide; [|injection E3 as _ <-; lia].
    destruct (splitDigits l2) as [ds l'] eqn:Es. apply splitDigits_shorter in Es. case_bool_decide; [done|]. injection E3 as _ <-. cbn. lia. }
  destruct (exponentLiteral l3) as [[e l4]|] eqn:E4; [|done]. cbn [mbind option_bind]. intros [= _ <-].
  assert (length l4 <= length l3)%nat as H4; [|lia].
  unfold exponentLiteral in E4. destruct l3 as [|x l3]; [by injection E4 as _ <-|]. destruct (_ || _); [|injection E4 as _ <-; lia].
  destruct (match l3 with s :: l2 => if bool_decide (s = "+"%char) || bool_decide (s = "-"%char) then ([s], l2) else ([], l3) | [] => ([], l3) end) as [sg l'] eqn:Es.
  assert (length l' <= length l3)%nat by (destruct l3 as [|s l3]; [by injection Es as _ <-|]; destruct (_ || _); injection Es as _ <-; cbn; lia).
  destruct (splitDigits l') as [ds l''] eqn:Ed. apply splitDigits_shorter in Ed. case_bool_decide; [done|]. injection E4 as _ <-. cbn. lia.
Qed.

Lemma skipSpace_shorter l : (length (skipSpace l) <= length l)%nat.
Proof. unfold skipSpace. rewrite length_drop. lia. Qed.

Lemma stripPrefix_shorter p l l' : p <> [] -> stripPrefix p l = Some l' -> (length l' < length l)%nat.
Proof.
  revert l. induction p as [|a p IH]; [done|]. intros [|b l] _ H; cbn in H; [done|]. case_bool_decide; [|done].
  destruct p as [|a' p]; [injection H as <-; cbn; lia|]. apply IH in H; [cbn; lia|done].
Qed.

Section fuel.
Context (md : mode).

(** Every step reads some byte. *)
Definition shortens {A} (m : list ascii -> checked (A * list ascii)) : Prop := forall l a r, m l = inl (a, r) -> (length r < length l)%nat.

Lemma checkedBind_inl {A B} (m : checked A) (k : A -> checked B) b : checkedBind m k = inl b -> exists a, m = inl a /\ k a = inl b.
Proof. destruct m as [a|f]; [|done]. intros H. by exists a. Qed.

Lemma parse_shortens fuel : (forall depth, shortens (parseValue md fuel depth)) /\ (forall depth seen, shortens (parseMembers md fuel depth seen)) /\
  (forall depth, shortens (parseElements md fuel depth)).
Proof.
  induction fuel as [|fuel (IHv & IHm & IHe)]; [done|]. split_and!.
  - intros depth l a r H. cbn [parseValue] in H. pose proof (skipSpace_shorter l) as Hs. destruct (skipSpace l) as [|c l1] eqn:El; [done|]. cbn [length] in Hs.
    pose proof (skipSpace_shorter l1) as Hs1.
    assert (forall x, head (skipSpace l1) = Some x -> (length (drop 1 (skipSpace l1)) < length l)%nat) as Hd
      by (intros x Hx; destruct (skipSpace l1); [done|]; rewrite drop_one; cbn in *; lia).
    case_bool_decide.
    { destruct (negb _); [done|]. case_bool_decide as Hh; [injection H as _ <-; by eapply Hd|].
      apply checkedBind_inl in H as ([x l2] & H & [= _ <-]). apply IHm in H. cbn in *. lia. }
    case_bool_decide.
    { destruct (negb _); [done|]. case_bool_decide as Hh; [injection H as _ <-; by eapply Hd|].
      apply checkedBind_inl in H as ([x l2] & H & [= _ <-]). apply IHe in H. cbn in *. lia. }
    case_bool_decide; [destruct (unquote l1) as [[s l2]|] eqn:Eu; [|done]; injection H as _ <-; apply unquote_shorter in Eu; lia|].
    destruct (stripPrefix (bytes "true") _) as [l2|] eqn:E1; [injection H as _ <-; apply stripPrefix_shorter in E1; [cbn in *; lia|done]|].
    destruct (stripPrefix (bytes "false") _) as [l2|] eqn:E2; [injection H as _ <-; apply stripPrefix_shorter in E2; [cbn in *; lia|done]|].
    destruct (stripPrefix (bytes "null") _) as [l2|] eqn:E3; [injection H as _ <-; apply stripPrefix_shorter in E3; [cbn in *; lia|done]|].
    destruct (numberLiteral (c :: l1)) as [[n l2]|] eqn:En; [|done]. destruct (md_number md n); [|done]. injection H as _ <-.
    apply numberLiteral_shorter in En. cbn in *. lia.
  - intros depth seen l a r H. cbn [parseMembers] in H. pose proof (skipSpace_shorter l) as Hs. destruct (skipSpace l) as [|q l1] eqn:El; [done|]. cbn [length] in Hs.
    destruct (negb (bool_decide (q = quote))); [done|]. destruct (unquote l1) as [[k l2]|] eqn:Eu; [|done]. apply unquote_shorter in Eu.
    destruct (md_key md seen (str k)); [done|]. destruct (negb _); [done|].
    apply checkedBind_inl in H as ([v l3] & Hv & H). apply IHv in Hv. cbn [fst snd] in *.
    pose proof (skipSpace_shorter l2) as Hs2. rewrite length_drop in Hv.
    pose proof (skipSpace_shorter l3) as Hs3. destruct (skipSpace l3) as [|c l4]; [done|]. cbn [length] in Hs3.
    case_bool_decide; [apply checkedBind_inl in H as ([x l5] & H & [= _ <-]); apply IHm in H; cbn in *; lia|].
    case_bool_decide; [|done]. injection H as _ <-. lia.
  - intros depth l a r H. cbn [parseElements] in H.
    apply checkedBind_inl in H as ([v l3] & Hv & H). apply IHv in Hv. cbn [fst snd] in *.
    pose proof (skipSpace_shorter l3) as Hs3. destruct (skipSpace l3) as [|c l4]; [done|]. cbn [length] in Hs3.
    case_bool_decide; [apply checkedBind_inl in H as ([x l5] & H & [= _ <-]); apply IHe in H; cbn in *; lia|].
    case_bool_decide; [|done]. injection H as _ <-. lia.
Qed.

Lemma checkedBind_fuel {A B} (m : checked A) (k : A -> checked B) : m <> outOfFuel -> (forall a, m = inl a -> k a <> outOfFuel) -> checkedBind m k <> outOfFuel.
Proof. destruct m as [a|f]; cbn; [auto|]. intros H _ [= ->]. by apply H. Qed.

Lemma parse_fuel fuel :
  (forall depth l, (2 * length l < fuel)%nat -> parseValue md fuel depth l <> outOfFuel) /\
  (forall depth seen l, (2 * length l + 1 < fuel)%nat -> parseMembers md fuel depth seen l <> outOfFuel) /\
  (forall depth l, (2 * length l + 1 < fuel)%nat -> parseElements md fuel depth l <> outOfFuel).
Proof.
  induction fuel as [|fuel (IHv & IHm & IHe)]; [split_and!; lia|]. destruct (parse_shortens fuel) as (HSv & HSm & HSe). split_and!.
  - intros depth l Hl. cbn [parseValue]. pose proof (skipSpace_shorter l) as Hs. destruct (skipSpace l) as [|c l1]; [done|]. cbn [length] in Hs.
    case_bool_decide; [destruct (negb _); [done|]; case_bool_decide; [done|]; apply checkedBind_fuel; [apply IHm; lia|done]|].
    case_bool_decide; [destruct (negb _); [done|]; case_bool_decide; [done|]; apply checkedBind_fuel; [apply IHe; lia|done]|].
    case_bool_decide; [by destruct (unquote l1) as [[]|]|].
    destruct (stripPrefix (bytes "true") _); [done|]. destruct (stripPrefix (bytes "false") _); [done|]. destruct (stripPrefix (bytes "null") _); [done|].
    destruct (numberLiteral _) as [[n l2]|]; [|done]. by destruct (md_number md n).
  - intros depth seen l Hl. cbn [parseMembers]. pose proof (skipSpace_shorter l) as Hs. destruct (skipSpace l) as [|q l1]; [done|]. cbn [length] in Hs.
    destruct (negb (bool_decide (q = quote))); [done|]. destruct (unquote l1) as [[k l2]|] eqn:Eu; [|done]. apply unquote_shorter in Eu.
    destruct (md_key md seen (str k)); [done|]. destruct (negb _); [done|]. pose proof (skipSpace_shorter l2) as Hs2.
    apply checkedBind_fuel; [apply IHv; rewrite length_drop; lia|]. intros [v l3] Hv%HSv. rewrite length_drop in Hv. cbn [fst snd].
    pose proof (skipSpace_shorter l3) as Hs3. destruct (skipSpace l3) as [|c l4]; [done|]. cbn [length] in Hs3.
    case_bool_decide; [apply checkedBind_fuel; [apply IHm; lia|done]|]. by case_bool_decide.
  - intros depth l Hl. cbn [parseElements]. apply checkedBind_fuel; [apply IHv; lia|]. intros [v l3] Hv%HSv. cbn [fst snd].
    pose proof (skipSpace_shorter l3) as Hs3. destruct (skipSpace l3) as [|c l4]; [done|]. cbn [length] in Hs3.
    case_bool_decide; [apply checkedBind_fuel; [apply IHe; lia|done]|]. by case_bool_decide.
Qed.

(** The first value of any document is read, or refused, within the fuel. *)
Lemma firstValue_fuel l : firstValue md l <> outOfFuel.
Proof. apply parse_fuel. lia. Qed.
End fuel.
