(* ===== verification/Interaction.v ===== *)
(** * Task interaction

    [internal/task/interaction.go]: the state that the journal of one interactive task
    reconstructs, its events and the validation of messages.  Each handler assigns to the
    state only on its successful path, so an operation returns the new state or an error.
    A map from question to answers is a [gmap]; a Go slice that is empty or nil is a list. *)
From S2P Require Import Prelude GoErrors GoText TaskTypes Encoding TaskLifetime.

Definition ErrInteractionUnavailable : error := Sentinel task_ErrInteractionUnavailable.
Definition ErrInteractionConflict : error := Sentinel task_ErrInteractionConflict.
Definition ErrInteractionClosed : error := Sentinel task_ErrInteractionClosed.
Definition ErrInteractionRequest : error := Sentinel task_ErrInteractionRequest.

(** ** Data *)
Record InteractionCapabilities : Set := MkCapabilities {
  ic_SupportedModes : list string; ic_Clarification : bool; ic_Steering : bool
}.

Record InteractionQuestion : Set := MkQuestion {
  iq_ID : string; iq_Text : string; iq_Options : list string; iq_Multiple : bool; iq_FreeText : bool
}.

Record InteractionRequest : Set := MkInteractionRequest {
  ir_ID : string; ir_TurnID : string; ir_Questions : list InteractionQuestion; ir_Blocking : bool
}.

Record InteractionMessage : Set := MkMessage {
  im_ID : string; im_Kind : string; im_RequestID : string; im_TurnID : string;
  im_Answers : gmap string (list string); im_Text : string
}.

Record InteractionDelivery : Set := MkDelivery { id_MessageID : string; id_State : string; id_Reason : string }.

Record InteractionEvent : Set := MkEvent {
  ie_Deadline : string; ie_Sequence : Z; ie_Kind : string; ie_TurnID : string;
  ie_Request : option InteractionRequest; ie_RequestID : string; ie_Message : option InteractionMessage;
  ie_Delivery : option InteractionDelivery; ie_Capabilities : option InteractionCapabilities
}.

Record InteractionState : Set := MkState {
  is_Deadline : string; is_Capabilities : InteractionCapabilities; is_TurnID : string;
  is_PendingRequests : list InteractionRequest; is_Deliveries : list InteractionDelivery;
  is_Cursor : Z; is_Closed : bool
}.

#[global] Instance Question_eq_dec : EqDecision InteractionQuestion.
Proof. solve_decision. Defined.
#[global] Instance InteractionRequest_eq_dec : EqDecision InteractionRequest.
Proof. solve_decision. Defined.
#[global] Instance Message_eq_dec : EqDecision InteractionMessage.
Proof. solve_decision. Defined.
#[global] Instance Delivery_eq_dec : EqDecision InteractionDelivery.
Proof. solve_decision. Defined.
#[global] Instance Capabilities_eq_dec : EqDecision InteractionCapabilities.
Proof. solve_decision. Defined.
#[global] Instance Event_eq_dec : EqDecision InteractionEvent.
Proof. solve_decision. Defined.

(** ** Field updates *)
Definition set_pending (f : list InteractionRequest -> list InteractionRequest) (s : InteractionState) : InteractionState :=
  MkState (is_Deadline s) (is_Capabilities s) (is_TurnID s) (f (is_PendingRequests s)) (is_Deliveries s) (is_Cursor s) (is_Closed s).
Definition set_deliveries (f : list InteractionDelivery -> list InteractionDelivery) (s : InteractionState) : InteractionState :=
  MkState (is_Deadline s) (is_Capabilities s) (is_TurnID s) (is_PendingRequests s) (f (is_Deliveries s)) (is_Cursor s) (is_Closed s).
Definition set_cursor (n : Z) (s : InteractionState) : InteractionState :=
  MkState (is_Deadline s) (is_Capabilities s) (is_TurnID s) (is_PendingRequests s) (is_Deliveries s) n (is_Closed s).

(** ** Messages *)
Definition questionBad (seen : list string) (question : InteractionQuestion) : bool :=
  negb (nonblank (iq_ID question)) || existsb (eqs (iq_ID question)) seen || negb (nonblank (iq_Text question)) ||
  negb (ValidString (iq_Text question)) ||
  ((Z.of_nat (length (iq_Options question)) =? 0) && negb (iq_FreeText question)).

Fixpoint questionsFrom (seen : list string) (questions : list InteractionQuestion) : result unit :=
  match questions with
  | [] => Ok tt
  | q :: rest => if questionBad seen q then Err ErrInteractionRequest else questionsFrom (iq_ID q :: seen) rest
  end.

Definition validateInteractionQuestions (questions : list InteractionQuestion) : result unit :=
  if Z.of_nat (length questions) =? 0 then Err ErrInteractionRequest else questionsFrom [] questions.

Definition answerBad (question : InteractionQuestion) (value : string) : bool :=
  eqs (TrimSpace value) "" || negb (ValidString value) ||
  (negb (iq_FreeText question) && negb (existsb (eqs value) (iq_Options question))).

Fixpoint answersFor (answers : gmap string (list string)) (questions : list InteractionQuestion) : result unit :=
  match questions with
  | [] => Ok tt
  | question :: rest =>
      let values := default [] (answers !! iq_ID question) in
      if (Z.of_nat (length values) =? 0) || (negb (iq_Multiple question) && negb (Z.of_nat (length values) =? 1))
      then Err ErrInteractionRequest
      else if existsb (answerBad question) values then Err (Errorf "answer" ErrInteractionRequest)
      else answersFor answers rest
  end.

Definition validateInteractionAnswers (answers : gmap string (list string)) (questions : list InteractionQuestion) : result unit :=
  if negb (Z.of_nat (size answers) =? Z.of_nat (length questions)) || (Z.of_nat (size answers) =? 0)
  then Err ErrInteractionRequest else answersFor answers questions.

Definition validateInteractionSteer (message : InteractionMessage) (state : InteractionState) : result unit :=
  if negb (ic_Steering (is_Capabilities state)) then Err ErrInteractionUnavailable
  else fail_if (eqs (TrimSpace (im_Text message)) "" || (MaxBriefSize <? len (im_Text message)) ||
                negb (ValidString (im_Text message)) || negb (eqs (im_RequestID message) "") ||
                negb (Z.of_nat (size (im_Answers message)) =? 0)) ErrInteractionRequest.

Definition ValidateInteractionMessage (message : InteractionMessage) (state : InteractionState) : result unit :=
  ValidateTaskID (im_ID message) ;;
  fail_if (is_Closed state) ErrInteractionClosed ;;
  fail_if (eqs (im_TurnID message) "" || negb (eqs (im_TurnID message) (is_TurnID state))) ErrInteractionUnavailable ;;
  if eqs (im_Kind message) "steer" then validateInteractionSteer message state
  else if eqs (im_Kind message) "reply" then
    if negb (ic_Clarification (is_Capabilities state)) || negb (eqs (im_Text message) "") then Err ErrInteractionUnavailable
    else match find (fun r => eqs (ir_ID r) (im_RequestID message)) (is_PendingRequests state) with
         | Some request => validateInteractionAnswers (im_Answers message) (ir_Questions request)
         | None => Err ErrInteractionRequest
         end
  else Err ErrInteractionRequest.

(** ** Events *)
Definition validInteractionDelivery (previous next : string) : bool :=
  if eqs previous "queued" then eqs next "unknown" || eqs next "rejected"
  else if eqs previous "unknown" then eqs next "sent" || eqs next "acknowledged" || eqs next "rejected"
  else if eqs previous "sent" then eqs next "acknowledged" || eqs next "rejected"
  else false.

Definition applyInteractionReady (state : InteractionState) (event : InteractionEvent) : result InteractionState :=
  match ie_Capabilities event with
  | Some capabilities =>
      if eqs (ie_TurnID event) "" || negb (eqs (is_TurnID state) "") then Err ErrInteractionConflict
      else
        (if negb (eqs (ie_Deadline event) "") then validateTimestamp (ie_Deadline event) else Ok tt) ;;
        Ok (MkState (ie_Deadline event) capabilities (ie_TurnID event) (is_PendingRequests state) (is_Deliveries state)
              (is_Cursor state) (is_Closed state))
  | None => Err ErrInteractionConflict
  end.

Definition applyInteractionRequest (state : InteractionState) (request : option InteractionRequest) : result InteractionState :=
  match request with
  | None => Err ErrInteractionRequest
  | Some r =>
      fail_if (eqs (ir_ID r) "" || eqs (ir_TurnID r) "" || negb (eqs (ir_TurnID r) (is_TurnID state)) ||
               negb (ic_Clarification (is_Capabilities state))) ErrInteractionRequest ;;
      fail_if (existsb (fun p => eqs (ir_ID p) (ir_ID r)) (is_PendingRequests state)) ErrInteractionConflict ;;
      validateInteractionQuestions (ir_Questions r) ;;
      Ok (set_pending (fun l => l ++ [r]) state)
  end.

Definition applyInteractionResolved (state : InteractionState) (requestID : string) : result InteractionState :=
  fail_if (negb (existsb (fun r => eqs (ir_ID r) requestID) (is_PendingRequests state))) ErrInteractionRequest ;;
  Ok (set_pending (List.filter (fun r => negb (eqs (ir_ID r) requestID))) state).

Definition applyInteractionMessage (state : InteractionState) (message : option InteractionMessage) : result InteractionState :=
  match message with
  | None => Err ErrInteractionRequest
  | Some m =>
      fail_if (existsb (fun d => eqs (id_MessageID d) (im_ID m)) (is_Deliveries state)) ErrInteractionConflict ;;
      ValidateInteractionMessage m state ;;
      Ok (set_deliveries (fun l => l ++ [MkDelivery (im_ID m) "queued" ""]) state)
  end.

(** The loop replaces the first delivery of the message. *)
Fixpoint replaceDelivery (deliveries : list InteractionDelivery) (delivery : InteractionDelivery)
  : result (list InteractionDelivery) :=
  match deliveries with
  | [] => Err ErrInteractionRequest
  | previous :: rest =>
      if negb (eqs (id_MessageID previous) (id_MessageID delivery))
      then rest' ← replaceDelivery rest delivery; Ok (previous :: rest')
      else if negb (validInteractionDelivery (id_State previous) (id_State delivery)) then Err ErrInteractionConflict
      else Ok (delivery :: rest)
  end.

Definition applyInteractionDelivery (state : InteractionState) (delivery : option InteractionDelivery) : result InteractionState :=
  match delivery with
  | None => Err ErrInteractionRequest
  | Some d => deliveries ← replaceDelivery (is_Deliveries state) d; Ok (set_deliveries (fun _ => deliveries) state)
  end.

Definition closeDelivery (d : InteractionDelivery) : InteractionDelivery :=
  if eqs (id_State d) "queued"
  then MkDelivery (id_MessageID d) "rejected" "task interaction ended before delivery" else d.

Definition applyInteractionClosed (state : InteractionState) : InteractionState :=
  MkState (is_Deadline state) (is_Capabilities state) (is_TurnID state) [] (map closeDelivery (is_Deliveries state))
    (is_Cursor state) true.

Definition applyInteractionEvent (state : InteractionState) (event : InteractionEvent) : result InteractionState :=
  if eqs (ie_Kind event) "ready" then applyInteractionReady state event
  else if eqs (ie_Kind event) "request" then applyInteractionRequest state (ie_Request event)
  else if eqs (ie_Kind event) "resolved" then applyInteractionResolved state (ie_RequestID event)
  else if eqs (ie_Kind event) "message" then applyInteractionMessage state (ie_Message event)
  else if eqs (ie_Kind event) "delivery" then applyInteractionDelivery state (ie_Delivery event)
  else if eqs (ie_Kind event) "closed" then Ok (applyInteractionClosed state)
  else Err ErrInteractionRequest.

Definition ApplyInteractionEvent (state : InteractionState) (event : InteractionEvent) : result InteractionState :=
  fail_if (negb (ie_Sequence event =? uint64 (is_Cursor state + 1))) (Sentinel task_ErrEvidenceFault) ;;
  fail_if (is_Closed state) ErrInteractionClosed ;;
  state' ← applyInteractionEvent state event;
  Ok (set_cursor (ie_Sequence event) state').
