(* ===== verification/InteractionTheorems.v ===== *)
(** * Task interaction: properties of the state machine

    The invariant of the state that a journal reconstructs, and the life of a message:
    queued, attempted, possibly sent, and finally acknowledged or rejected. *)
From S2P Require Import Prelude GoErrors GoText TaskTypes Encoding TaskLifetime Interaction.

(** ** The life of a delivery *)
Definition deliveryStates : list string := ["queued"%string; "unknown"%string; "sent"%string; "acknowledged"%string; "rejected"%string].

(** The transitions [validInteractionDelivery] allows, as a relation. *)
Inductive moves : string -> string -> Prop :=
| mv_attempt : moves "queued" "unknown"
| mv_refuse : moves "queued" "rejected"
| mv_sent : moves "unknown" "sent"
| mv_unknown_ack : moves "unknown" "acknowledged"
| mv_unknown_reject : moves "unknown" "rejected"
| mv_sent_ack : moves "sent" "acknowledged"
| mv_sent_reject : moves "sent" "rejected".

Lemma validInteractionDelivery_spec a b : validInteractionDelivery a b = true <-> moves a b.
Proof.
  unfold validInteractionDelivery. split.
  - destruct (eqs a "queued") eqn:E1; [apply eqs_true in E1 as ->; rewrite orb_true_iff, !eqs_true; intros [->| ->]; constructor|].
    destruct (eqs a "unknown") eqn:E2;
      [apply eqs_true in E2 as ->; rewrite !orb_true_iff, !eqs_true; intros [[->| ->]| ->]; constructor|].
    destruct (eqs a "sent") eqn:E3; [apply eqs_true in E3 as ->; rewrite orb_true_iff, !eqs_true; intros [->| ->]; constructor|done].
  - by intros [].
Qed.

(** How far a delivery is; a move never goes back. *)
Definition rank (s : string) : Z :=
  if eqs s "queued" then 0 else if eqs s "unknown" then 1 else if eqs s "sent" then 2 else 3.

Lemma moves_rank a b : moves a b -> rank a < rank b.
Proof. by intros []. Qed.

Lemma moves_states a b : moves a b -> a ∈ deliveryStates /\ b ∈ deliveryStates.
Proof. unfold deliveryStates. intros []; set_solver. Qed.

(** ** The invariant *)
Record wf (s : InteractionState) : Prop := MkWf {
  wf_ids : NoDup (map id_MessageID (is_Deliveries s));
  wf_states : Forall (fun d => id_State d ∈ deliveryStates) (is_Deliveries s);
  wf_messages : Forall (fun d => hexText 32 (id_MessageID d) = true) (is_Deliveries s);
  wf_requests : NoDup (map ir_ID (is_PendingRequests s));
  wf_turn : Forall (fun r => ir_TurnID r = is_TurnID s /\ is_TurnID s <> ""%string) (is_PendingRequests s);
  wf_asked : Forall (fun r => ic_Clarification (is_Capabilities s) = true /\ validateInteractionQuestions (ir_Questions r) = Ok tt)
               (is_PendingRequests s);
  wf_closed : is_Closed s = true -> is_PendingRequests s = [] /\ Forall (fun d => id_State d <> "queued"%string) (is_Deliveries s)
}.

Definition initial : InteractionState := MkState "" (MkCapabilities [] false false) "" [] [] 0 false.

Lemma wf_initial : wf initial.
Proof. split; cbn; try constructor; done. Qed.

(** The events applied in order. *)
Fixpoint applyAll (s : InteractionState) (events : list InteractionEvent) : result InteractionState :=
  match events with
  | [] => Ok s
  | e :: rest => s' ← ApplyInteractionEvent s e; applyAll s' rest
  end.

Lemma applyAll_app s a b : applyAll s (a ++ b) = (s' ← applyAll s a; applyAll s' b).
Proof. revert s. induction a as [|e a IH]; intros s; cbn; [done|]. destruct (ApplyInteractionEvent s e); cbn; [apply IH|done]. Qed.

(** ** Replacing a delivery *)
Lemma replaceDelivery_spec l d l' : replaceDelivery l d = Ok l' ->
  exists pre old post, l = pre ++ old :: post /\ l' = pre ++ d :: post /\ id_MessageID old = id_MessageID d /\
    moves (id_State old) (id_State d) /\ Forall (fun x => id_MessageID x <> id_MessageID d) pre.
Proof.
  revert l'. induction l as [|x l IH]; intros l'; cbn; [done|]. destruct (eqs (id_MessageID x) (id_MessageID d)) eqn:E; cbn.
  - destruct (validInteractionDelivery _ _) eqn:Ev; [|done]. intros [= <-]. apply eqs_true in E. apply validInteractionDelivery_spec in Ev.
    by exists [], x, l.
  - intros (r & Hr & [= <-])%bind_Ok. destruct (IH r Hr) as (pre & old & post & -> & -> & H1 & H2 & H3).
    exists (x :: pre), old, post. split_and!; [done..|]. apply eqs_false in E. by constructor.
Qed.

Lemma replaceDelivery_ids l d l' : replaceDelivery l d = Ok l' -> map id_MessageID l' = map id_MessageID l.
Proof. intros (pre & old & post & -> & -> & E & _)%replaceDelivery_spec. rewrite !map_app. cbn. by rewrite E. Qed.

(** ** Each handler keeps the invariant *)
Lemma ValidateInteractionMessage_Ok m s : ValidateInteractionMessage m s = Ok tt ->
  hexText 32 (im_ID m) = true /\ is_Closed s = false /\ im_TurnID m = is_TurnID s.
Proof.
  unfold ValidateInteractionMessage. intros ([] & H1 & ([] & H2 & ([] & H3 & _)%bind_Ok)%bind_Ok)%bind_Ok.
  apply ValidateTaskID_Ok in H1. apply fail_if_Ok in H2, H3. bool_prop. by repeat split; try apply eqs_true.
Qed.

Lemma existsb_absent {A} (f : A -> string) l k : existsb (fun a => eqs (f a) k) l = false -> k ∉ map f l.
Proof.
  intros H (a & -> & Ha)%list_elem_of_fmap_1. apply not_true_iff_false in H. apply H.
  apply existsb_exists. exists a. split; [by apply list_elem_of_In|apply eqs_refl].
Qed.

Lemma applyMessage_Ok s m s' : applyInteractionMessage s m = Ok s' -> exists msg, m = Some msg /\
  im_ID msg ∉ map id_MessageID (is_Deliveries s) /\ ValidateInteractionMessage msg s = Ok tt /\
  s' = set_deliveries (fun l => l ++ [MkDelivery (im_ID msg) "queued" ""]) s.
Proof.
  destruct m as [msg|]; cbn; [|done]. intros ([] & H1 & ([] & H2 & [= <-])%bind_Ok)%bind_Ok. exists msg. split_and!; [done| |done|done].
  apply fail_if_Ok in H1. by apply existsb_absent in H1.
Qed.

Lemma wf_message s m s' : wf s -> applyInteractionMessage s m = Ok s' -> wf s'.
Proof.
  intros [H1 H2 H3 H4 H5 H6 H7] (msg & -> & Hid & Hv & ->)%applyMessage_Ok.
  apply ValidateInteractionMessage_Ok in Hv as (Hv & Hc & _). split; cbn; try done.
  - rewrite map_app. apply NoDup_app. split_and!; [done| |apply NoDup_singleton]. cbn. set_solver.
  - apply Forall_app. split; [done|]. repeat constructor.
  - apply Forall_app. split; [done|]. by repeat constructor.
  - congruence.
Qed.

Lemma applyDelivery_Ok s d s' : applyInteractionDelivery s d = Ok s' -> exists delivery pre old post, d = Some delivery /\
  is_Deliveries s = pre ++ old :: post /\ s' = set_deliveries (fun _ => pre ++ delivery :: post) s /\
  id_MessageID old = id_MessageID delivery /\ moves (id_State old) (id_State delivery) /\
  Forall (fun x => id_MessageID x <> id_MessageID delivery) pre.
Proof.
  destruct d as [delivery|]; cbn; [|done]. intros (l & Hl & [= <-])%bind_Ok.
  apply replaceDelivery_spec in Hl as (pre & old & post & E & -> & H1 & H2 & H3). by exists delivery, pre, old, post.
Qed.

Lemma wf_delivery s d s' : wf s -> applyInteractionDelivery s d = Ok s' -> wf s'.
Proof.
  intros [H1 H2 H3 H4 H5 H6 H7] (x & pre & old & post & -> & E & -> & Ei & Em & _)%applyDelivery_Ok.
  rewrite E in *. apply moves_states in Em as Hs. split; cbn; try done.
  - rewrite map_app in *. cbn in *. by rewrite <- Ei.
  - rewrite Forall_app, Forall_cons in *. naive_solver.
  - rewrite Forall_app, Forall_cons in *. rewrite <- Ei. naive_solver.
  - intros Hc. destruct (H7 Hc) as [Hp Hq]. split; [done|]. rewrite Forall_app, Forall_cons in *.
    split_and!; [naive_solver| |naive_solver]. intros Eq. rewrite Eq in Em. by inversion Em.
Qed.

Lemma wf_request s r s' : wf s -> is_Closed s = false -> applyInteractionRequest s r = Ok s' -> wf s'.
Proof.
  intros [H1 H2 H3 H4 H5 H6 H7] Hc H. destruct r as [r|]; cbn in H; [|done].
  apply bind_Ok in H as ([] & Ha & H). apply bind_Ok in H as ([] & Hb & H). apply bind_Ok in H as ([] & Hd & [= <-]).
  apply fail_if_Ok in Ha, Hb. rewrite !orb_false_iff, !negb_false_iff, eqs_true, !eqs_false in Ha.
  destruct Ha as [[[Ha1 Ha2] Ha3] Ha4]. split; cbn; try done.
  - rewrite map_app. apply NoDup_app. split_and!; [done| |apply NoDup_singleton].
    cbn. apply existsb_absent in Hb. set_solver.
  - apply Forall_app. split; [done|]. repeat constructor; congruence.
  - apply Forall_app. split; [done|]. by repeat constructor.
  - congruence.
Qed.

Lemma wf_resolved s i s' : wf s -> applyInteractionResolved s i = Ok s' -> wf s'.
Proof.
  intros [H1 H2 H3 H4 H5 H6 H7] H. apply bind_Ok in H as ([] & _ & [= <-]).
  assert (forall P, Forall P (is_PendingRequests s) ->
    Forall P (List.filter (fun r => negb (eqs (ir_ID r) i)) (is_PendingRequests s))) as HF.
  { intros P HP. rewrite Forall_forall in *. intros x Hx. apply HP. apply list_elem_of_In in Hx. apply filter_In in Hx as [Hx _].
    by apply list_elem_of_In. }
  split; cbn; try done; [|by apply HF|by apply HF|].
  - clear -H4. induction (is_PendingRequests s) as [|r l IH]; cbn; [constructor|]. cbn in H4. apply NoDup_cons in H4 as [Hr Hl].
    destruct (negb _); [|by apply IH]. cbn. apply NoDup_cons. split; [|by apply IH]. intros (x & E & Hx)%list_elem_of_fmap_1. apply Hr.
    rewrite E. apply list_elem_of_fmap_2. apply list_elem_of_In in Hx. apply filter_In in Hx as [Hx _]. by apply list_elem_of_In.
  - intros Hc. destruct (H7 Hc) as [Hp Hq]. by rewrite Hp.
Qed.

Lemma wf_ready s e s' : wf s -> applyInteractionReady s e = Ok s' -> wf s'.
Proof.
  intros [H1 H2 H3 H4 H5 H6 H7] H. unfold applyInteractionReady in H. destruct (ie_Capabilities e) as [c|]; [|done].
  destruct (_ || _) eqn:E; [done|]. apply bind_Ok in H as ([] & _ & [= <-]). rewrite orb_false_iff, negb_false_iff, eqs_true in E.
  destruct E as [_ E]. assert (is_PendingRequests s = []) as Hp.
  { destruct (is_PendingRequests s) as [|r l]; [done|]. inversion H5 as [|? ? [_ Hne] _]; by subst. }
  split; cbn; try done; by rewrite Hp.
Qed.

Lemma closeDelivery_id d : id_MessageID (closeDelivery d) = id_MessageID d.
Proof. unfold closeDelivery. by destruct (eqs _ _). Qed.

Lemma closeDelivery_state d : id_State (closeDelivery d) = id_State d \/ moves (id_State d) (id_State (closeDelivery d)).
Proof. unfold closeDelivery. destruct (eqs _ _) eqn:E; [apply eqs_true in E as ->; right; constructor|by left]. Qed.

Lemma wf_closed_event s : wf s -> wf (applyInteractionClosed s).
Proof.
  intros [H1 H2 H3 H4 H5 H6 H7]. split; cbn; try constructor.
  - rewrite map_map. rewrite (map_ext _ id_MessageID); [done|]. apply closeDelivery_id.
  - apply Forall_map. eapply Forall_impl; [exact H2|]. intros d Hd. destruct (closeDelivery_state d) as [E|M]; cbn; [by rewrite E|].
    by apply moves_states in M as [_ ?].
  - apply Forall_map. eapply Forall_impl; [exact H3|]. intros d Hd. cbn. by rewrite closeDelivery_id.
  - done.
  - apply Forall_map. apply Forall_forall. intros d _. unfold closeDelivery. cbn. destruct (eqs _ _) eqn:E; [done|]. by apply eqs_false in E.
Qed.

Lemma wf_set_cursor s n : wf s -> wf (set_cursor n s).
Proof. by intros []. Qed.

Lemma Apply_Ok s e s' : ApplyInteractionEvent s e = Ok s' -> exists s1, s' = set_cursor (ie_Sequence e) s1 /\
  ie_Sequence e = uint64 (is_Cursor s + 1) /\ is_Closed s = false /\ applyInteractionEvent s e = Ok s1.
Proof.
  intros ([] & H1 & ([] & H2 & (s1 & H3 & [= <-])%bind_Ok)%bind_Ok)%bind_Ok. apply fail_if_Ok in H1, H2.
  apply negb_false_iff, Z.eqb_eq in H1. by exists s1.
Qed.

(** The event kinds, one case each. *)
Lemma apply_cases s e s1 : applyInteractionEvent s e = Ok s1 ->
  (ie_Kind e = "ready"%string /\ applyInteractionReady s e = Ok s1) \/
  (ie_Kind e = "request"%string /\ applyInteractionRequest s (ie_Request e) = Ok s1) \/
  (ie_Kind e = "resolved"%string /\ applyInteractionResolved s (ie_RequestID e) = Ok s1) \/
  (ie_Kind e = "message"%string /\ applyInteractionMessage s (ie_Message e) = Ok s1) \/
  (ie_Kind e = "delivery"%string /\ applyInteractionDelivery s (ie_Delivery e) = Ok s1) \/
  (ie_Kind e = "closed"%string /\ s1 = applyInteractionClosed s).
Proof.
  unfold applyInteractionEvent. intros H.
  destruct (eqs _ "ready") eqn:E1; [apply eqs_true in E1; by left|]. right.
  destruct (eqs _ "request") eqn:E2; [apply eqs_true in E2; by left|]. right.
  destruct (eqs _ "resolved") eqn:E3; [apply eqs_true in E3; by left|]. right.
  destruct (eqs _ "message") eqn:E4; [apply eqs_true in E4; by left|]. right.
  destruct (eqs _ "delivery") eqn:E5; [apply eqs_true in E5; by left|]. right.
  destruct (eqs _ "closed") eqn:E6; [|done]. apply eqs_true in E6. split; [done|congruence].
Qed.

Lemma wf_apply s e s' : wf s -> ApplyInteractionEvent s e = Ok s' -> wf s'.
Proof.
  intros Hs (s1 & -> & _ & Hc & H)%Apply_Ok. apply wf_set_cursor.
  apply apply_cases in H as [[_ H]|[[_ H]|[[_ H]|[[_ H]|[[_ H]|[_ ->]]]]]];
    eauto using wf_ready, wf_request, wf_resolved, wf_message, wf_delivery, wf_closed_event.
Qed.

Lemma wf_applyAll s events s' : wf s -> applyAll s events = Ok s' -> wf s'.
Proof.
  revert s. induction events as [|e events IH]; intros s Hs; cbn; [by intros [= <-]|].
  intros (s1 & H & H')%bind_Ok. eauto using wf_apply.
Qed.

(** ** Progress of a message *)
Definition statusOf (s : InteractionState) (id : string) : option string :=
  id_State <$> find (fun d => eqs (id_MessageID d) id) (is_Deliveries s).

Lemma find_middle {A} (f : A -> string) pre x post k : Forall (fun y => f y <> k) pre ->
  find (fun y => eqs (f y) k) (pre ++ x :: post) = if eqs (f x) k then Some x else find (fun y => eqs (f y) k) post.
Proof.
  induction 1 as [|y pre Hy _ IH]; cbn; [done|]. by rewrite (proj2 (eqs_false _ _) Hy).
Qed.

Lemma find_app_same {A} (p : A -> bool) pre l l' : find p l = find p l' -> find p (pre ++ l) = find p (pre ++ l').
Proof. intros E. induction pre as [|x pre IH]; cbn; [done|]. by destruct (p x). Qed.

Lemma find_app {A} (p : A -> bool) a b : find p (a ++ b) = match find p a with Some x => Some x | None => find p b end.
Proof. induction a as [|x a IH]; cbn; [done|]. by destruct (p x). Qed.

Lemma find_None_keys {A} (f : A -> string) l k : k ∉ map f l -> find (fun y => eqs (f y) k) l = None.
Proof.
  induction l as [|x l IH]; cbn; [done|]. rewrite elem_of_cons. intros H. rewrite (proj2 (eqs_false _ _)); [|intros <-; apply H; by left].
  apply IH. tauto.
Qed.

Definition advances (a b : option string) : Prop :=
  match a, b with
  | None, None => True
  | None, Some s => s = "queued"%string
  | Some s, Some t => s = t \/ moves s t
  | Some _, None => False
  end.

Lemma advances_refl a : advances a a.
Proof. destruct a; cbn; auto. Qed.

Lemma status_message s m s' id : applyInteractionMessage s m = Ok s' -> advances (statusOf s id) (statusOf s' id).
Proof.
  intros (msg & -> & Hid & _ & ->)%applyMessage_Ok. unfold statusOf. cbn. rewrite find_app.
  destruct (find _ (is_Deliveries s)) as [d|]; cbn; [by left|]. by destruct (eqs (im_ID msg) id).
Qed.

Lemma status_delivery s d s' id : applyInteractionDelivery s d = Ok s' -> advances (statusOf s id) (statusOf s' id).
Proof.
  intros (x & pre & old & post & -> & E & -> & Ei & Em & Hp)%applyDelivery_Ok. unfold statusOf. cbn. rewrite E.
  destruct (decide (id_MessageID x = id)) as [<-|Hne].
  - rewrite !find_middle by (done || by rewrite Ei). rewrite Ei, eqs_refl. by right.
  - rewrite (find_app_same _ pre (old :: post) (x :: post)); [apply advances_refl|]. cbn.
    by rewrite Ei, (proj2 (eqs_false _ _) Hne).
Qed.

Lemma status_closed s id : advances (statusOf s id) (statusOf (applyInteractionClosed s) id).
Proof.
  unfold statusOf. cbn. induction (is_Deliveries s) as [|d l IH]; cbn; [done|]. rewrite closeDelivery_id.
  destruct (eqs _ _); [|done]. cbn. destruct (closeDelivery_state d) as [->|M]; [by left|by right].
Qed.

Lemma apply_advances s e s' id : ApplyInteractionEvent s e = Ok s' -> advances (statusOf s id) (statusOf s' id).
Proof.
  intros (s1 & -> & _ & _ & H)%Apply_Ok. change (statusOf (set_cursor _ s1) id) with (statusOf s1 id).
  apply apply_cases in H as [[_ H]|[[_ H]|[[_ H]|[[_ H]|[[_ H]|[_ ->]]]]]].
  - unfold applyInteractionReady in H. destruct (ie_Capabilities e); [|done]. destruct (_ || _); [done|].
    apply bind_Ok in H as ([] & _ & [= <-]). apply advances_refl.
  - destruct (ie_Request e); [|done]. apply bind_Ok in H as ([] & _ & ([] & _ & ([] & _ & [= <-])%bind_Ok)%bind_Ok). apply advances_refl.
  - apply bind_Ok in H as ([] & _ & [= <-]). apply advances_refl.
  - by eapply status_message.
  - by eapply status_delivery.
  - apply status_closed.
Qed.

(** The life of one message over a journal. *)
Lemma applyAll_status s events s' id a : applyAll s events = Ok s' -> statusOf s id = Some a ->
  exists b, statusOf s' id = Some b /\ rtc moves a b.
Proof.
  revert s a. induction events as [|e events IH]; intros s a; cbn; [intros [= <-]; eauto using rtc_refl|].
  intros (s1 & H & H')%bind_Ok Ha. apply (apply_advances s e s1 id) in H. rewrite Ha in H.
  destruct (statusOf s1 id) as [b|] eqn:Eb; [|done]. destruct (IH s1 b H' Eb) as (c & Hc & Hr). exists c. split; [done|].
  destruct H as [->|M]; [done|]. by eapply rtc_l.
Qed.

Lemma rank_rtc a b : rtc moves a b -> rank a <= rank b.
Proof. induction 1 as [|a b c M _ IH]; [lia|]. apply moves_rank in M. lia. Qed.

Lemma applyAll_cursor s events s' : 0 <= is_Cursor s -> is_Cursor s + Z.of_nat (length events) < 2 ^ 64 -> applyAll s events = Ok s' ->
  is_Cursor s' = is_Cursor s + Z.of_nat (length events).
Proof.
  revert s. induction events as [|e events IH]; intros s H0 Hn; cbn; [intros [= <-]; lia|].
  intros (s1 & (s2 & -> & Es & _ & _)%Apply_Ok & H)%bind_Ok. cbn [length] in Hn. unfold uint64 in Es. rewrite Z.mod_small in Es by lia.
  rewrite (IH (set_cursor (ie_Sequence e) s2)); [cbn [is_Cursor set_cursor]; lia|cbn [is_Cursor set_cursor]; lia..|exact H].
Qed.

Lemma applyAll_closed s events s' : is_Closed s = true -> applyAll s events = Ok s' -> events = [].
Proof.
  intros Hc. destruct events as [|e events]; [done|]. cbn. intros (s1 & (_ & _ & _ & H & _)%Apply_Ok & _)%bind_Ok. congruence.
Qed.

(** C27: The state machine of task interaction.  Over any journal that replays without
    error from the empty state, followed by any continuation: the invariant holds (one
    delivery per message, one pending request per identifier, each asked in the current
    turn and well formed, nothing pending or queued once closed); the cursor counts the
    events; a message never disappears and its delivery only moves forward, from queued
    through unknown and sent to acknowledged or rejected; and after the closing event no
    event is accepted. *)
Theorem interaction_state_machine events more s s' :
  Z.of_nat (length events + length more) < 2 ^ 64 ->
  applyAll initial events = Ok s -> applyAll s more = Ok s' ->
  wf s' /\ is_Cursor s' = Z.of_nat (length events + length more) /\
  (forall id a, statusOf s id = Some a -> exists b, statusOf s' id = Some b /\ rtc moves a b /\ rank a <= rank b) /\
  (is_Closed s = true -> more = []).
Proof.
  intros Hn H H'. split_and!.
  - eapply wf_applyAll, H'. eapply wf_applyAll, H. apply wf_initial.
  - assert (is_Cursor s = Z.of_nat (length events)) as E by (apply applyAll_cursor in H; cbn [is_Cursor initial] in *; lia).
    apply applyAll_cursor in H'; lia.
  - intros id a Ha. destruct (applyAll_status s more s' id a H' Ha) as (b & Hb & Hr). eauto using rank_rtc.
  - intros Hc. by eapply applyAll_closed.
Qed.

(** A message that is attempted and then closed over. *)
Definition exampleID : string := "0123456789abcdef0123456789abcdef".
Definition exampleReady : InteractionEvent :=
  MkEvent "" 1 "ready" "turn-1" None "" None None (Some (MkCapabilities [] true true)).
Definition exampleMessage : InteractionMessage := MkMessage exampleID "steer" "" "turn-1" ∅ "Focus".
Definition exampleQueued : InteractionEvent := MkEvent "" 2 "message" "" None "" (Some exampleMessage) None None.
Definition exampleAttempt : InteractionEvent :=
  MkEvent "" 3 "delivery" "" None "" None (Some (MkDelivery exampleID "unknown" "")) None.
Definition exampleClosed : InteractionEvent := MkEvent "" 4 "closed" "" None "" None None None.

Lemma interaction_state_machine_witness : exists s s',
  applyAll initial [exampleReady; exampleQueued] = Ok s /\ applyAll s [exampleAttempt; exampleClosed] = Ok s' /\
  wf s' /\ is_Cursor s' = 4 /\ statusOf s exampleID = Some "queued"%string /\ statusOf s' exampleID = Some "unknown"%string.
Proof.
  destruct (applyAll initial [exampleReady; exampleQueued]) as [s|e] eqn:E; [|vm_compute in E; discriminate E].
  destruct (applyAll s [exampleAttempt; exampleClosed]) as [s'|e] eqn:E'.
  2:{ exfalso. vm_compute in E. injection E as <-. vm_compute in E'. discriminate E'. }
  exists s, s'. destruct (interaction_state_machine [exampleReady; exampleQueued] [exampleAttempt; exampleClosed] s s' eq_refl E E') as (H1 & H2 & _).
  split; [reflexivity|]. split; [exact E'|]. split; [exact H1|]. split; [exact H2|].
  vm_compute in E. injection E as <-. split; [reflexivity|]. vm_compute in E'. by injection E' as <-.
Defined.
