(* ===== verification/InteractionJournal.v ===== *)
(** * The interaction journal

    [internal/taskdir/interaction.go]: the records of one task's interaction, appended
    under a lock and replayed by every operation.  The task directory is the disk of
    [ControlDir], with names relative to it, and every call into the file system may
    fail.  What an operation learns from the rest of the task directory (the runner's
    ownership, the prepared request, stop records, the lease, the clock) is arbitrary and
    may change between operations. *)
From S2P Require Import Prelude GoErrors GoTime GoText TaskTypes Encoding GoTimestamp TaskLifetime ControlDir StrictJson Interaction.
#[local] Open Scope tx_scope.

Definition maxInteractionRecords : Z := 8192.
Definition maxInteractionBytes : Z := 16 * MaxControlRecordSize.
Definition interactionCloseReserve : Z := 512.
Definition interactionPageBytes : Z := MaxControlRecordSize / 2.
Definition interactionStateBytes : Z := MaxControlRecordSize / 4.

Record interactionSnapshot : Set := MkSnapshot { sn_state : InteractionState; sn_encodedBytes : Z }.

Record interactionRecord : Set := MkInteractionRecord {
  jr_SchemaVersion : Z; jr_RootID : string; jr_TaskID : string; jr_Event : InteractionEvent
}.

#[global] Instance interactionRecord_eq_dec : EqDecision interactionRecord.
Proof. solve_decision. Defined.

(** ** Canonical JSON *)
Definition jsonStrings (l : list string) : json := JArray (map JString l).
Definition omitList (name : string) (l : list string) : list (string * json) :=
  omitempty name (match l with [] => None | _ => Some (jsonStrings l) end).

Definition jsonCapabilities (c : InteractionCapabilities) : json :=
  JObject (omitList "supported_modes" (ic_SupportedModes c) ++
           [("clarification"%string, JBool (ic_Clarification c)); ("steering"%string, JBool (ic_Steering c))]).

Definition jsonQuestion (q : InteractionQuestion) : json :=
  JObject ([("id"%string, JString (iq_ID q)); ("text"%string, JString (iq_Text q))] ++ omitList "options" (iq_Options q) ++
           [("multiple"%string, JBool (iq_Multiple q)); ("free_text"%string, JBool (iq_FreeText q))]).

Definition jsonInteractionRequest (r : InteractionRequest) : json :=
  JObject [("id"%string, JString (ir_ID r)); ("turn_id"%string, JString (ir_TurnID r));
           ("questions"%string, JArray (map jsonQuestion (ir_Questions r))); ("blocking"%string, JBool (ir_Blocking r))].

(** [encoding/json] writes the keys of a map in order. *)
Definition keyOrder (a b : string * list string) : Prop := String.leb a.1 b.1 = true.
#[global] Instance keyOrder_dec a b : Decision (keyOrder a b).
Proof. unfold keyOrder. apply _. Defined.

Definition sortedAnswers (m : gmap string (list string)) : list (string * list string) := merge_sort keyOrder (map_to_list m).

Definition jsonMessage (m : InteractionMessage) : json :=
  JObject ([("id"%string, JString (im_ID m)); ("kind"%string, JString (im_Kind m))] ++
           omitString "request_id" (im_RequestID m) ++ [("turn_id"%string, JString (im_TurnID m))] ++
           omitempty "answers" (match sortedAnswers (im_Answers m) with
                                | [] => None
                                | l => Some (JObject (map (fun a => (a.1, jsonStrings a.2)) l))
                                end) ++
           omitString "text" (im_Text m)).

Definition jsonDelivery (d : InteractionDelivery) : json :=
  JObject ([("message_id"%string, JString (id_MessageID d)); ("state"%string, JString (id_State d))] ++
           omitString "reason" (id_Reason d)).

Definition jsonEvent (e : InteractionEvent) : json :=
  JObject (omitString "deadline" (ie_Deadline e) ++
           [("sequence"%string, JInt (ie_Sequence e)); ("kind"%string, JString (ie_Kind e))] ++
           omitString "turn_id" (ie_TurnID e) ++ omitempty "request" (jsonInteractionRequest <$> ie_Request e) ++
           omitString "request_id" (ie_RequestID e) ++ omitempty "message" (jsonMessage <$> ie_Message e) ++
           omitempty "delivery" (jsonDelivery <$> ie_Delivery e) ++ omitempty "capabilities" (jsonCapabilities <$> ie_Capabilities e)).

Definition jsonRecord (r : interactionRecord) : json :=
  JObject [("schema_version"%string, JInt (jr_SchemaVersion r)); ("root_id"%string, JString (jr_RootID r));
           ("task_id"%string, JString (jr_TaskID r)); ("event"%string, jsonEvent (jr_Event r))].

Definition jsonState (s : InteractionState) : json :=
  JObject (omitString "deadline" (is_Deadline s) ++ [("capabilities"%string, jsonCapabilities (is_Capabilities s))] ++
           omitString "turn_id" (is_TurnID s) ++
           [("pending_requests"%string, JArray (map jsonInteractionRequest (is_PendingRequests s)));
            ("deliveries"%string, JArray (map jsonDelivery (is_Deliveries s)));
            ("cursor"%string, JInt (is_Cursor s)); ("closed"%string, JBool (is_Closed s))]).

(** The size of the encoded state; its copied deliveries are [null], not [[]], when there
    are none. *)
Definition stateSize (s : InteractionState) : Z :=
  len (MarshalCanonical (jsonState s)) + match is_Deliveries s with [] => 2 | _ => 0 end.

Definition event (sequence : Z) (kind : string) (message : option InteractionMessage) (delivery : option InteractionDelivery)
  : InteractionEvent := MkEvent "" sequence kind "" None "" message delivery None.

Definition withSequence (e : InteractionEvent) (sequence : Z) : InteractionEvent :=
  MkEvent (ie_Deadline e) sequence (ie_Kind e) (ie_TurnID e) (ie_Request e) (ie_RequestID e) (ie_Message e) (ie_Delivery e)
    (ie_Capabilities e).

(** [validateInteractionSnapshotSize]: the state and, unless it is closed, the state after
    closing. *)
Definition validateInteractionSnapshotSize (state : InteractionState) : result unit :=
  fail_if (interactionStateBytes <? stateSize state) (Sentinel task_ErrControlRecordTooBig) ;;
  if is_Closed state then Ok tt
  else
    closed ← ApplyInteractionEvent state (event (uint64 (is_Cursor state + 1)) "closed" None None);
    fail_if (interactionStateBytes <? stateSize closed) (Sentinel task_ErrControlRecordTooBig).

(** ** The record as a Go type *)
Definition capabilitiesType : gotype :=
  TStruct [("supported_modes", true, TSlice TString); ("clarification", false, TBool); ("steering", false, TBool)]%string.
Definition questionType : gotype :=
  TStruct [("id", false, TString); ("text", false, TString); ("options", true, TSlice TString); ("multiple", false, TBool);
           ("free_text", false, TBool)]%string.
Definition requestType : gotype :=
  TStruct [("id", false, TString); ("turn_id", false, TString); ("questions", false, TSlice questionType); ("blocking", false, TBool)]%string.
Definition messageType : gotype :=
  TStruct [("id", false, TString); ("kind", false, TString); ("request_id", true, TString); ("turn_id", false, TString);
           ("answers", true, TMap (TSlice TString)); ("text", true, TString)]%string.
Definition deliveryType : gotype :=
  TStruct [("message_id", false, TString); ("state", false, TString); ("reason", true, TString)]%string.
Definition eventType : gotype :=
  TStruct [("deadline", true, TString); ("sequence", false, TUint64); ("kind", false, TString); ("turn_id", true, TString);
           ("request", true, TPointer requestType); ("request_id", true, TString); ("message", true, TPointer messageType);
           ("delivery", true, TPointer deliveryType); ("capabilities", true, TPointer capabilitiesType)]%string.
Definition recordType : gotype :=
  TStruct [("schema_version", false, TInt); ("root_id", false, TString); ("task_id", false, TString); ("event", false, eventType)]%string.

Definition capabilitiesFrom (v : govalue) : InteractionCapabilities :=
  match v with
  | VStruct [modes; clarification; steering] => MkCapabilities (textsOf modes) (boolOf clarification) (boolOf steering)
  | _ => MkCapabilities [] false false
  end.

Definition questionFrom (v : govalue) : InteractionQuestion :=
  match v with
  | VStruct [id; text; options; multiple; freeText] => MkQuestion (textOf id) (textOf text) (textsOf options) (boolOf multiple) (boolOf freeText)
  | _ => MkQuestion "" "" [] false false
  end.

Definition requestFrom (v : govalue) : InteractionRequest :=
  match v with
  | VStruct [id; turn; questions; blocking] =>
      MkInteractionRequest (textOf id) (textOf turn) (map questionFrom (default [] (elementsOf questions))) (boolOf blocking)
  | _ => MkInteractionRequest "" "" [] false
  end.

Definition messageFrom (v : govalue) : InteractionMessage :=
  match v with
  | VStruct [id; kind; request; turn; answers; text] =>
      MkMessage (textOf id) (textOf kind) (textOf request) (textOf turn) (list_to_map (map (fun a => (fst a, textsOf (snd a))) (entriesOf answers)))
        (textOf text)
  | _ => MkMessage "" "" "" "" ∅ ""
  end.

Definition deliveryFrom (v : govalue) : InteractionDelivery :=
  match v with
  | VStruct [message; state; reason] => MkDelivery (textOf message) (textOf state) (textOf reason)
  | _ => MkDelivery "" "" ""
  end.

Definition eventFrom (v : govalue) : InteractionEvent :=
  match v with
  | VStruct [deadline; sequence; kind; turn; request; requestID; message; delivery; capabilities] =>
      MkEvent (textOf deadline) (intOf sequence) (textOf kind) (textOf turn) (requestFrom <$> pointeeOf request) (textOf requestID)
        (messageFrom <$> pointeeOf message) (deliveryFrom <$> pointeeOf delivery) (capabilitiesFrom <$> pointeeOf capabilities)
  | _ => MkEvent "" 0 "" "" None "" None None None
  end.

Definition recordFrom (v : govalue) : interactionRecord :=
  match v with
  | VStruct [version; root; task; event] => MkInteractionRecord (intOf version) (textOf root) (textOf task) (eventFrom event)
  | _ => MkInteractionRecord 0 "" "" (MkEvent "" 0 "" "" None "" None None None)
  end.

(** [task.DecodeStrict(data, &record)] *)
Definition decodeInteraction (orbit : Z -> Z) (data : string) : interactionRecord + decodeFailure :=
  match DecodeStrict orbit recordType data with inl v => inl (recordFrom v) | inr f => inr f end.

(** ** The rest of the task directory, as one operation finds it *)
Record situation : Set := MkSituation {
  su_owned : result bool; (* [ownedRunner], and whether its evidence is sealed or poisoned *)
  su_ownedAtSeal : result bool; (* the same, when the evidence is written *)
  su_exists : string -> result bool; (* [store.entryExists] in the task directory *)
  su_prepared : result (bool * Z); (* [PreparedRecords]: interactive, budget *)
  su_stops : result Z; (* the number of stop records *)
  su_released : result bool; (* [RunnerLeaseReleased] *)
  su_started : result (string * Z); (* provider.started.json: start, diagnostic time *)
  su_now : time
}.

(** [ownedRunner] and the test of its state. *)
Definition requireRunner (owned : result bool) : result unit :=
  unusable ← owned; fail_if unusable evidenceFault.

Definition interactionDeadlineOpen (u : situation) (budget : Z) (state : InteractionState) : result unit :=
  match su_started u with
  | Err e => if errors_Is e fs_ErrNotExist then Err ErrInteractionUnavailable else Err e
  | Ok (startedAt, diagnostic) =>
      start ← ParseRFC3339Nano startedAt;
      deadline ← (if negb (eqs (is_Deadline state) "") then ParseRFC3339Nano (is_Deadline state)
                  else Ok (Add start (int64 (budget - diagnostic))));
      fail_if (negb (Before (su_now u) deadline)) ErrInteractionClosed
  end.

Definition closedByEntry (u : situation) (name : string) : result unit :=
  exists_ ← su_exists u name; fail_if exists_ ErrInteractionClosed.

Definition interactionOpen (u : situation) (state : InteractionState) : result unit :=
  closedByEntry u "provider.exit" ;;
  closedByEntry u "outcome.json" ;;
  prepared ← su_prepared u;
  fail_if (negb (fst prepared)) ErrInteractionUnavailable ;;
  stops ← su_stops u;
  fail_if (0 <? stops) ErrInteractionClosed ;;
  consumed ← su_exists u "provider.start";
  fail_if (negb consumed) ErrInteractionUnavailable ;;
  released ← su_released u;
  fail_if released ErrInteractionClosed ;;
  interactionDeadlineOpen u (snd prepared) state.

(** [BeginInteraction] *)
Definition BeginInteraction (u : situation) : Tx unit :=
  txOf (requireRunner (su_owned u)) ;;;
  prepared <- txOf (su_prepared u) ;;
  txFail (negb (fst prepared)) ErrInteractionUnavailable ;;;
  systemCall ;;; (* mkdir *)
  systemCall ;;; (* openLock *)
  systemCall. (* its Close *)

(** An operation with a named result: its value when the operation returns, whether or
    not it fails. *)
Definition Op (A : Type) : Type := disk -> A * option error * disk.

Definition opOf {A B} (before after : A) (m : Tx B) : Op A := fun d =>
  match m d with (Ok _, d') => (after, None, d') | (Err e, d') => (before, Some e, d') end.

(** [withInteraction]: the lock around [fn], whose release may fail too. *)
Definition withInteraction {A} (a : A) (fn : Op A) : Op A := fun d =>
  match systemCall d with
  | (Err e, d1) => (a, Some e, d1)
  | (Ok _, d1) =>
      match systemCall d1 with
      | (Err e, d2) => let '(c, d3) := systemCall d2 in (a, errors_Join [Some e; err_of c], d3)
      | (Ok _, d2) =>
          let '(x, err, d3) := fn d2 in
          let '(unlocked, d4) := systemCall d3 in
          let '(closed, d5) := systemCall d4 in
          (x, errors_Join [errors_Join [err; err_of unlocked]; err_of closed], d5)
      end
  end.

Definition interactionName (sequence : Z) : string := str (bytes "interaction/" ++ digitsFixed 20 sequence ++ bytes ".json").

Definition emptyInteraction : InteractionState := MkState "" (MkCapabilities [] false false) "" [] [] 0 false.

Section journal.
Context (decode : string -> interactionRecord + decodeFailure) (RootID TaskID : string).

(** [interactionRecords] from a sequence number on. *)
Fixpoint recordsFrom (fuel : nat) (sequence : Z) (events : list InteractionEvent) (snapshot : interactionSnapshot)
  : Tx (list InteractionEvent * interactionSnapshot) :=
  match fuel with
  | O => txErr (New "unreachable")
  | S fuel' =>
      r <- txTry (readBytes (interactionName sequence) MaxControlRecordSize) ;;
      match r with
      | Err e => if errors_Is e fs_ErrNotExist then txRet (events, snapshot) else txErr e
      | Ok data =>
          let encodedBytes := sn_encodedBytes snapshot + len data in
          txFail ((maxInteractionBytes <? encodedBytes) || (maxInteractionRecords <? sequence))
            (Sentinel task_ErrControlRecordTooBig) ;;;
          record <- txOf (match decode data with inl r => Ok r | inr f => Err (decodeErr f) end) ;;
          txFail (negb (jr_SchemaVersion record =? SchemaVersion) || negb (eqs (jr_RootID record) RootID) ||
                  negb (eqs (jr_TaskID record) TaskID) || negb (ie_Sequence (jr_Event record) =? sequence)) mismatch ;;;
          state <- txOf (ApplyInteractionEvent (sn_state snapshot) (jr_Event record)) ;;
          recordsFrom fuel' (sequence + 1) (events ++ [jr_Event record]) (MkSnapshot state encodedBytes)
      end
  end.

(** The bound on records stops the replay of a longer journal, so this fuel is never used up. *)
Definition replayFuel : nat := Z.to_nat (maxInteractionRecords + 2).

Definition interactionRecords : Tx (list InteractionEvent * interactionSnapshot) :=
  recordsFrom replayFuel 1 [] (MkSnapshot emptyInteraction 0).

Definition appendInteraction (snapshot : interactionSnapshot) (e : InteractionEvent) : Tx unit :=
  let cursor := is_Cursor (sn_state snapshot) in
  let e := withSequence e (uint64 (cursor + 1)) in
  state <- txOf (ApplyInteractionEvent (sn_state snapshot) e) ;;
  data <- txOf (marshalControlRecord (jsonRecord (MkInteractionRecord SchemaVersion RootID TaskID e))) ;;
  txFail (interactionPageBytes <? len data) (Sentinel task_ErrControlRecordTooBig) ;;;
  txOf (validateInteractionSnapshotSize state) ;;;
  let reserve := if eqs (ie_Kind e) "closed" then 0 else interactionCloseReserve in
  (* [state] is the applied copy: its cursor already counts the event *)
  txFail ((maxInteractionBytes <? sn_encodedBytes snapshot + len data + reserve) ||
          (maxInteractionRecords <? is_Cursor state) ||
          ((is_Cursor state =? maxInteractionRecords) && negb (eqs (ie_Kind e) "closed")))
    (Sentinel task_ErrControlRecordTooBig) ;;;
  r <- stageReader (interactionName (ie_Sequence e)) data ;;
  let '(_, cleanup, err) := r in
  match errors_Join [err; cleanup] with Some e' => txErr e' | None => txRet tt end.

Definition RecordInteraction (u : situation) (e : InteractionEvent) : Op unit := fun d =>
  match requireRunner (su_owned u) with
  | Err err => (tt, Some err, d)
  | Ok _ => withInteraction tt (opOf tt tt (s <- interactionRecords ;; appendInteraction (snd s) e)) d
  end.

(** [InteractionState]; the state it returns next to an error is left out. *)
Definition ReadInteractionState (u : situation) : Tx InteractionState :=
  s <- interactionRecords ;;
  let state := sn_state (snd s) in
  if is_Closed state then txRet state
  else match interactionOpen u state with
       | Ok _ => txRet state
       | Err e =>
           if errors_Is e task_ErrInteractionClosed
           then txRet (MkState (is_Deadline state) (is_Capabilities state) (is_TurnID state) [] (is_Deliveries state) (is_Cursor state) true)
           else if errors_Is e task_ErrInteractionUnavailable then txRet state else txErr e
       end.

(** The end of the page that starts at [after]: at most 100 events and, past the first,
    at most [interactionPageBytes]. *)
Fixpoint pageEnd (events : list InteractionEvent) (count bytes : Z) : Z :=
  match events with
  | [] => count
  | e :: rest =>
      let size := len (MarshalCanonical (jsonEvent e)) + 1 in
      if (100 <=? count) || ((0 <? count) && (interactionPageBytes <? bytes + size)) then count
      else pageEnd rest (count + 1) (bytes + size)
  end.

Definition InteractionEvents (after : Z) : Tx (list InteractionEvent * Z) :=
  s <- interactionRecords ;;
  txFail (is_Cursor (sn_state (snd s)) <? after) ErrInteractionRequest ;;;
  let rest := drop (Z.to_nat after) (fst s) in
  let n := pageEnd rest 0 0 in
  txRet (take (Z.to_nat n) rest, after + n).

(** ** Messages *)
Definition messageOf (e : InteractionEvent) (id : string) : option InteractionMessage :=
  match ie_Message e with Some m => if eqs (im_ID m) id then Some m else None | None => None end.

Definition withTurn (m : InteractionMessage) (turn : string) : InteractionMessage :=
  MkMessage (im_ID m) (im_Kind m) (im_RequestID m) turn (im_Answers m) (im_Text m).

Fixpoint firstMessage (events : list InteractionEvent) (id : string) : option InteractionMessage :=
  match events with
  | [] => None
  | e :: rest => match messageOf e id with Some m => Some m | None => firstMessage rest id end
  end.

(** [interactionReplay]: [None] when the message is new. *)
Definition interactionReplay (message : InteractionMessage) (events : list InteractionEvent) (state : InteractionState)
  : option (InteractionDelivery * option error) :=
  match firstMessage events (im_ID message) with
  | None => None
  | Some previous =>
      let message := withTurn message (im_TurnID previous) in
      let none := MkDelivery "" "" "" in
      if negb (eqs (MarshalCanonical (jsonMessage message)) (MarshalCanonical (jsonMessage previous)))
      then Some (none, Some ErrInteractionConflict)
      else match find (fun d => eqs (id_MessageID d) (im_ID message)) (is_Deliveries state) with
           | Some delivery => Some (delivery, None)
           | None => Some (none, Some evidenceFault)
           end
  end.

Definition interactionReplyExists (message : InteractionMessage) (events : list InteractionEvent) : bool :=
  eqs (im_Kind message) "reply" &&
  existsb (fun e => match ie_Message e with
                    | Some m => eqs (im_Kind m) "reply" && eqs (im_RequestID m) (im_RequestID message)
                    | None => false
                    end) events.

(** The map of queued identifiers, last delivery first. *)
Definition queuedIDs (deliveries : list InteractionDelivery) : gmap string bool :=
  fold_left (fun q d => <[id_MessageID d := eqs (id_State d) "queued"]> q) deliveries ∅.

Fixpoint firstQueued (events : list InteractionEvent) (queued : gmap string bool) : option InteractionMessage :=
  match events with
  | [] => None
  | e :: rest =>
      match ie_Message e with
      | Some m => if default false (queued !! im_ID m) then Some m else firstQueued rest queued
      | None => firstQueued rest queued
      end
  end.

Definition nextQueuedInteraction (events : list InteractionEvent) (state : InteractionState) : option InteractionMessage :=
  firstQueued events (queuedIDs (is_Deliveries state)).

Definition noReceipt : InteractionDelivery := MkDelivery "" "" "".

Definition submitLocked (u : situation) (message : InteractionMessage) : Op InteractionDelivery := fun d =>
  match interactionRecords d with
  | (Err e, d1) => (noReceipt, Some e, d1)
  | (Ok (events, snapshot), d1) =>
      let state := sn_state snapshot in
      match interactionReplay message events state with
      | Some (existing, Some e) => (existing, Some e, d1)
      | Some (existing, None) => opOf existing existing systemCall d1 (* the directory barrier *)
      | None =>
          let message := withTurn message (is_TurnID state) in
          opOf noReceipt (MkDelivery (im_ID message) "queued" "")
            (txOf (interactionOpen u state) ;;;
             txOf (ValidateInteractionMessage message state) ;;;
             txFail (interactionReplyExists message events) ErrInteractionConflict ;;;
             appendInteraction snapshot (event 0 "message" (Some message) None)) d1
      end
  end.

(** [SubmitInteraction] *)
Definition SubmitInteraction (u : situation) (message : InteractionMessage) : Op InteractionDelivery :=
  withInteraction noReceipt (submitLocked u message).

Definition attemptedReason : string := "delivery attempted; native acknowledgement pending".

Definition nextLocked (u : situation) (reason : error -> string) : Op (option InteractionMessage) := fun d =>
  match interactionRecords d with
  | (Err e, d1) => (None, Some e, d1)
  | (Ok (events, snapshot), d1) =>
      let state := sn_state snapshot in
      match interactionOpen u state with
      | Err e => (None, Some e, d1)
      | Ok _ =>
          if is_Closed state then (None, None, d1)
          else match nextQueuedInteraction events state with
               | None => (None, None, d1)
               | Some next =>
                   let '(accepted, delivery) :=
                     match ValidateInteractionMessage next state with
                     | Ok _ => (true, MkDelivery (im_ID next) "unknown" attemptedReason)
                     | Err e => (false, MkDelivery (im_ID next) "rejected" (reason e))
                     end in
                   match appendInteraction snapshot (event 0 "delivery" None (Some delivery)) d1 with
                   | (Err e, d2) => (None, Some e, d2)
                   | (Ok _, d2) => (if accepted then Some next else None, None, d2)
                   end
               end
      end
  end.

(** [NextInteraction]; [reason] is the text of an error. *)
Definition NextInteraction (u : situation) (reason : error -> string) : Op (option InteractionMessage) := fun d =>
  match requireRunner (su_owned u) with
  | Err err => (None, Some err, d)
  | Ok _ => withInteraction None (nextLocked u reason) d
  end.

Definition writeInteractionEvidence (u : situation) (data : string) : Tx unit :=
  txOf (requireRunner (su_ownedAtSeal u)) ;;;
  r <- stageReader "raw/interaction" data ;;
  let '(_, cleanup, err) := r in
  match errors_Join [err; cleanup] with Some e' => txErr e' | None => txRet tt end.

Definition transcript (events : list InteractionEvent) : string :=
  str (concat (map (fun e => bytes (MarshalCanonical (jsonEvent e))) events)).

(** [SealInteraction] *)
Definition SealInteraction (u : situation) : Op unit := fun d =>
  match requireRunner (su_owned u) with
  | Err err => (tt, Some err, d)
  | Ok _ =>
      withInteraction tt
        (opOf tt tt
           (s <- interactionRecords ;;
            events <- (if is_Closed (sn_state (snd s)) then txRet (fst s)
                       else appendInteraction (snd s) (event 0 "closed" None None) ;;;
                            s' <- interactionRecords ;; txRet (fst s')) ;;
            writeInteractionEvidence u (transcript events))) d
  end.
End journal.
