(* ===== verification/InteractionJournalProps.v ===== *)
(** * Replaying and extending a journal

    What a replay returns is determined by the records on disk; operations only add
    records, so a later replay extends an earlier one. *)
From S2P Require Import Prelude GoErrors GoTime GoText TaskTypes Encoding GoTimestamp TaskLifetime ControlDir ControlLifetimeProps.
From S2P Require Import StrictJson Interaction InteractionTheorems InteractionJournal.
From stdpp Require Import fin_maps.
#[local] Open Scope Z_scope.
#[local] Open Scope tx_scope.

Lemma txBind_Ok {A B} (m : Tx A) (f : A -> Tx B) d b d' :
  txBind m f d = (Ok b, d') <-> exists a d1, m d = (Ok a, d1) /\ f a d1 = (Ok b, d').
Proof. unfold txBind. destruct (m d) as [[a|e] d1]; split; naive_solver. Qed.

Lemma txFail_Ok b e u d d' : txFail b e d = (Ok u, d') <-> b = false /\ d' = d /\ u = tt.
Proof. unfold txFail, txOf. destruct u, b; cbn; naive_solver. Qed.

Lemma txOf_Ok {A} (r : result A) a d d' : txOf r d = (Ok a, d') <-> r = Ok a /\ d' = d.
Proof. unfold txOf. naive_solver. Qed.

Section journal.
Context (decode : string -> interactionRecord + decodeFailure) (RootID TaskID : string).

Lemma readonly_records fuel n events s : readonly (recordsFrom decode RootID TaskID fuel n events s).
Proof.
  revert n events s. induction fuel as [|fuel IH]; intros n events s; cbn [recordsFrom]; [auto with tx|].
  apply readonly_bind; [auto with tx|]. intros [data|e]; [|auto with tx].
  repeat (apply readonly_bind; [auto with tx|]; intros ?). apply IH.
Qed.

(** The record of one event on disk. *)
Definition entry (fs : gmap string string) (n : Z) (e : InteractionEvent) : Prop :=
  exists data r, fs !! interactionName n = Some data /\ decode data = inl r /\ jr_Event r = e /\
    jr_SchemaVersion r = SchemaVersion /\ jr_RootID r = RootID /\ jr_TaskID r = TaskID /\ ie_Sequence e = n.

Lemma entry_functional fs n e e' : entry fs n e -> entry fs n e' -> e = e'.
Proof. intros (data & r & H1 & H2 & <- & _) (data' & r' & H1' & H2' & <- & _). congruence. Qed.

Lemma readBytes_Ok name limit d data d' : readBytes name limit d = (Ok data, d') -> files d !! name = Some data /\ files d' = files d.
Proof.
  intros (u & d1 & H1 & H2)%txBind_Ok. pose proof (readonly_systemCall d) as HR. rewrite H1 in HR. cbn in HR.
  destruct (files d1 !! name) as [b|] eqn:E; [|done]. destruct (limit <? len b); [done|]. injection H2 as <- <-.
  by rewrite <- HR.
Qed.

Lemma systemCall_notexist d e d' : systemCall d = (Err e, d') -> errors_Is e fs_ErrNotExist = false.
Proof.
  unfold systemCall, txBind, nextFault. destruct (faults d) as [|f fs]; cbn; [done|].
  destruct f; cbn; [done|intros [= <- _]; by destruct e0|intros [= <- _]; by destruct e0].
Qed.

Lemma readBytes_notexist name limit d e d' : readBytes name limit d = (Err e, d') -> errors_Is e fs_ErrNotExist = true ->
  files d !! name = None.
Proof.
  unfold readBytes, txBind. pose proof (readonly_systemCall d) as HR. destruct (systemCall d) as [[u|e'] d1] eqn:E; cbn in HR.
  - rewrite <- HR. destruct (files d1 !! name) as [b|] eqn:Eb; [|done]. destruct (limit <? len b); [|done]. by intros [= <- _].
  - intros [= <- _] H. apply systemCall_notexist in E. congruence.
Qed.

(** What a replay returns. *)
Lemma recordsFrom_spec fuel n events s d E S d' : recordsFrom decode RootID TaskID fuel n events s d = (Ok (E, S), d') ->
  exists E1, E = events ++ E1 /\ applyAll (sn_state s) E1 = Ok (sn_state S) /\
    (forall i e, E1 !! i = Some e -> entry (files d) (n + Z.of_nat i) e /\ n + Z.of_nat i <= maxInteractionRecords) /\
    files d !! interactionName (n + Z.of_nat (length E1)) = None.
Proof.
  revert n events s d. induction fuel as [|fuel IH]; intros n events s d; cbn [recordsFrom]; [done|].
  intros (r & d1 & H1 & H)%txBind_Ok. unfold txTry in H1.
  destruct (readBytes _ _ d) as [[data|e] d2] eqn:ER; injection H1 as <- <-.
  - apply readBytes_Ok in ER as [Hdata Hfs].
    apply txBind_Ok in H as ([] & d3 & (Hb & -> & _)%txFail_Ok & H). apply txBind_Ok in H as (record & d4 & [Hdec ->]%txOf_Ok & H).
    apply txBind_Ok in H as ([] & d5 & (Hid & -> & _)%txFail_Ok & H). apply txBind_Ok in H as (state & d6 & [Happ ->]%txOf_Ok & H).
    destruct (decode data) as [rec|] eqn:Ed; [|done]. injection Hdec as ->.
    rewrite !orb_false_iff, !negb_false_iff, !eqs_true, !Z.eqb_eq in Hid. destruct Hid as [[[Hv Hroot] Htask] Hseq].
    rewrite orb_false_iff, !Z.ltb_ge in Hb. apply IH in H as (E1 & -> & Happ1 & Hent & Hnone). rewrite Hfs in *.
    exists (jr_Event record :: E1). split_and!; [by rewrite <- app_assoc|cbn; by rewrite Happ| |].
    + intros [|i] e Hi; [injection Hi as <-; rewrite Z.add_0_r; split; [|lia]; by exists data, record|].
      destruct (Hent i e Hi) as [H1 H2]. rewrite Nat2Z.inj_succ. replace (n + Z.succ (Z.of_nat i)) with (n + 1 + Z.of_nat i) by lia. done.
    + cbn [length]. rewrite Nat2Z.inj_succ. by replace (n + Z.succ (Z.of_nat (length E1))) with (n + 1 + Z.of_nat (length E1)) by lia.
  - destruct (errors_Is e fs_ErrNotExist) eqn:Ee; [|done]. injection H as <- <- _. exists []. rewrite app_nil_r.
    split_and!; [done|done|done|]. cbn. rewrite Z.add_0_r. by eapply readBytes_notexist.
Qed.

(** A journal on disk and the state it replays to. *)
Definition replays (fs : gmap string string) (E : list InteractionEvent) (s : InteractionState) : Prop :=
  applyAll emptyInteraction E = Ok s /\ (forall i e, E !! i = Some e -> entry fs (1 + Z.of_nat i) e /\ 1 + Z.of_nat i <= maxInteractionRecords) /\
  fs !! interactionName (1 + Z.of_nat (length E)) = None.

Lemma interactionRecords_Ok d E S d' : interactionRecords decode RootID TaskID d = (Ok (E, S), d') ->
  replays (files d) E (sn_state S) /\ files d' = files d.
Proof.
  intros H. pose proof (readonly_records replayFuel 1 [] (MkSnapshot emptyInteraction 0) d) as HR. unfold interactionRecords in H.
  rewrite H in HR. split; [|exact HR]. apply recordsFrom_spec in H as (E1 & -> & H1 & H2 & H3). done.
Qed.

(** Records are never replaced. *)
Definition grows (fs fs' : gmap string string) : Prop :=
  forall n data, fs !! interactionName n = Some data -> fs' !! interactionName n = Some data.

Lemma grows_refl fs : grows fs fs.
Proof. by intros n data. Qed.
Lemma grows_trans a b c : grows a b -> grows b c -> grows a c.
Proof. intros H1 H2 n data H. by apply H2, H1. Qed.
Lemma grows_eq a b : b = a -> grows a b.
Proof. intros ->. apply grows_refl. Qed.
Lemma grows_insert fs name data : fs !! name = None -> grows fs (<[name := data]> fs).
Proof. intros H n data' H'. rewrite lookup_insert_ne; [done|]. intros ->. congruence. Qed.

Lemma entry_grows fs fs' n e : grows fs fs' -> entry fs n e -> entry fs' n e.
Proof. intros Hg (data & r & H1 & H2). exists data, r. split; [by apply Hg|done]. Qed.

Lemma replays_extend fs fs' E s E' s' : grows fs fs' -> replays fs E s -> replays fs' E' s' ->
  exists more, E' = E ++ more /\ applyAll s more = Ok s'.
Proof.
  intros Hg (H1 & H2 & _) (H1' & H2' & H3').
  assert (length E <= length E')%nat as Hl.
  { destruct (Nat.le_gt_cases (length E) (length E')) as [|Hlt]; [done|]. destruct (lookup_lt_is_Some_2 E (length E') Hlt) as [e He].
    destruct (H2 _ _ He) as [(data & r & Hd & _) _]. apply Hg in Hd. congruence. }
  assert (E' = E ++ drop (length E) E') as Heq.
  { rewrite <- (take_drop (length E) E') at 1. f_equal. apply list_eq_same_length with (length E); [done|rewrite length_take; lia|].
    intros i x y Hi Hx Hy. rewrite lookup_take_lt in Hx by done. destruct (H2 _ _ Hy) as [Hent _]. destruct (H2' _ _ Hx) as [Hent' _].
    eapply entry_functional; [exact Hent'|]. by eapply entry_grows. }
  exists (drop (length E) E'). split; [done|]. rewrite Heq, applyAll_app, H1 in H1'. exact H1'.
Qed.

Lemma replays_functional fs E s E' s' : replays fs E s -> replays fs E' s' -> E' = E /\ s' = s.
Proof.
  intros H H'. destruct (replays_extend fs fs E s E' s' (grows_refl fs) H H') as (more & -> & Ha).
  destruct (replays_extend fs fs _ _ _ _ (grows_refl fs) H' H) as (more' & Hl & _).
  apply (f_equal length) in Hl. rewrite !length_app in Hl. destruct more; [|cbn in Hl; lia]. rewrite app_nil_r. cbn in Ha. split; [done|congruence].
Qed.

Lemma replays_wf fs E s : replays fs E s -> wf s.
Proof. intros (H & _). eapply wf_applyAll, H. apply wf_initial. Qed.

Lemma replays_length fs E s : replays fs E s -> Z.of_nat (length E) <= maxInteractionRecords /\ is_Cursor s = Z.of_nat (length E).
Proof.
  intros (H1 & H2 & _). assert (Z.of_nat (length E) <= maxInteractionRecords) as Hl.
  { destruct (length E) as [|k] eqn:Ek; [done|]. destruct (lookup_lt_is_Some_2 E k ltac:(lia)) as [e He]. destruct (H2 _ _ He). lia. }
  split; [done|]. apply applyAll_cursor in H1; [cbn [is_Cursor emptyInteraction] in H1; lia|cbn; lia|cbn [is_Cursor emptyInteraction]; unfold maxInteractionRecords in Hl; lia].
Qed.

(** ** Appending *)
Lemma stageReader_cases name data d r d' : stageReader name data d = (r, d') -> exists c cl err, r = Ok (c, cl, err) /\
  ((files d' = files d /\ err <> None) \/ (files d !! name = None /\ files d' = <[name := data]> (files d))).
Proof.
  destruct d as [fs flts]. unfold stageReader, txBind, nextFault. cbn [faults files].
  destruct flts as [|[|e|e] flts]; cbn; try (destruct (fs !! name) eqn:E; cbn);
    try (intros [= <- <-]; do 3 eexists; split; [reflexivity|cbn; auto]; fail).
  destruct flts as [|g [|h flts]]; cbn; intros [= <- <-]; do 3 eexists; (split; [reflexivity|cbn; by right]).
Qed.

(** An append leaves the directory or adds the next record; success means it added it. *)
Lemma append_cases snapshot e d r d' : appendInteraction RootID TaskID snapshot e d = (r, d') ->
  let n := uint64 (is_Cursor (sn_state snapshot) + 1) in
  let record := MkInteractionRecord SchemaVersion RootID TaskID (withSequence e n) in
  (files d' = files d /\ r <> Ok tt) \/
  (files d !! interactionName n = None /\ files d' = <[interactionName n := MarshalCanonical (jsonRecord record)]> (files d) /\
   len (MarshalCanonical (jsonRecord record)) <= interactionPageBytes /\
   exists s, ApplyInteractionEvent (sn_state snapshot) (withSequence e n) = Ok s).
Proof.
  intros H n record. unfold appendInteraction in H. cbv zeta in H. fold n in H.
  unfold txBind at 1 in H. unfold txOf at 1 in H. destruct (ApplyInteractionEvent _ _) as [s|err] eqn:EA; [|injection H as <- <-; by left].
  unfold txBind at 1 in H. unfold txOf at 1 in H. unfold marshalControlRecord in H. cbv zeta in H. fold record in H.
  destruct (MaxControlRecordSize <? _); [injection H as <- <-; by left|].
  unfold txBind at 1 in H. unfold txFail at 1, txOf at 1 in H. destruct (Z.ltb_spec interactionPageBytes (len (MarshalCanonical (jsonRecord record)))); cbn [fail_if] in H; [injection H as <- <-; by left|].
  unfold txBind at 1 in H. unfold txOf at 1 in H. destruct (validateInteractionSnapshotSize s) as [[]|err]; [|injection H as <- <-; by left].
  unfold txBind at 1 in H. unfold txFail at 1, txOf at 1 in H. destruct (_ || _ || _); cbn [fail_if] in H; [injection H as <- <-; by left|].
  unfold txBind in H. cbn [withSequence ie_Sequence] in H. destruct (stageReader _ _ d) as [r0 d0] eqn:ES.
  apply stageReader_cases in ES as (c & cl & err & -> & Hcase). destruct (errors_Join [err; cl]) as [e'|] eqn:EJ; injection H as <- <-.
  - destruct Hcase as [[? _]|[? ?]]; [by left|right; eauto].
  - destruct Hcase as [[? Hne]|[? ?]]; [|right; eauto]. by destruct err.
Qed.
End journal.
