(* ===== verification/InteractionJournalTheorems.v ===== *)
(** * The interaction journal: delivery

    A message handed to the provider is never handed to it again: whatever fails, whoever
    appends, and however often a runner restarts. *)
From S2P Require Import Prelude GoErrors GoTime GoText TaskTypes Encoding GoTimestamp TaskLifetime ControlDir ControlLifetimeProps.
From S2P Require Import ProviderJsonTheorems StrictJson StrictJsonTheorems Interaction InteractionTheorems InteractionJournal InteractionJournalProps.
#[local] Open Scope Z_scope.
#[local] Open Scope tx_scope.

(** ** Reading the status of a message *)
Lemma find_unique {A} (f : A -> string) l x : NoDup (map f l) -> x ∈ l -> find (fun y => eqs (f y) (f x)) l = Some x.
Proof.
  induction l as [|y l IH]; [set_solver|]. cbn. intros [Hy Hl]%NoDup_cons. rewrite elem_of_cons. intros [->|Hx].
  - by rewrite eqs_refl.
  - rewrite (proj2 (eqs_false _ _)); [by apply IH|]. intros E. apply Hy. rewrite E. by apply list_elem_of_fmap_2.
Qed.

Lemma queuedIDs_true l id : queuedIDs l !! id = Some true -> exists d, d ∈ l /\ id_MessageID d = id /\ id_State d = "queued"%string.
Proof.
  unfold queuedIDs. assert (forall q : gmap string bool, fold_left (fun q d => <[id_MessageID d := eqs (id_State d) "queued"]> q) l q !! id = Some true ->
    (exists d, d ∈ l /\ id_MessageID d = id /\ id_State d = "queued"%string) \/ q !! id = Some true) as H.
  { induction l as [|d l IH]; intros q Hq; cbn in Hq; [by right|].
    apply IH in Hq as [(x & Hx & H)|Hq]; [left; exists x; split; [by right|done]|].
    apply lookup_insert_Some in Hq as [[H1 H2]|[_ H]]; [|by right]. apply eqs_true in H2. left. exists d. split_and!; [left|done..]. }
  intros Hq. apply H in Hq as [?|Hq]; [done|]. by rewrite lookup_empty in Hq.
Qed.

Lemma firstQueued_Some events q m : firstQueued events q = Some m ->
  q !! im_ID m = Some true /\ exists e, e ∈ events /\ ie_Message e = Some m.
Proof.
  induction events as [|e events IH]; cbn; [done|]. destruct (ie_Message e) as [x|] eqn:Ex.
  - destruct (q !! im_ID x) as [[]|] eqn:E; cbn.
    + intros [= ->]. split; [done|]. exists e. split; [left|done].
    + intros H. destruct (IH H) as (H1 & e' & H2 & H3). split; [done|]. exists e'. split; [by right|done].
    + intros H. destruct (IH H) as (H1 & e' & H2 & H3). split; [done|]. exists e'. split; [by right|done].
  - intros H. destruct (IH H) as (H1 & e' & H2 & H3). split; [done|]. exists e'. split; [by right|done].
Qed.

Lemma nextQueued_status events s m : wf s -> nextQueuedInteraction events s = Some m -> statusOf s (im_ID m) = Some "queued"%string.
Proof.
  intros Hw [Hq _]%firstQueued_Some. apply queuedIDs_true in Hq as (d & Hd & E & Es). unfold statusOf.
  rewrite <- E, (find_unique id_MessageID _ d (wf_ids s Hw) Hd). cbn. by rewrite Es.
Qed.

(** The identifiers of messages are ASCII. *)
Lemma ascii_valid s : forallb (fun c => byte_of c <? 128) (bytes s) = true -> ValidString s = true.
Proof.
  unfold ValidString, runes. generalize (bytes s). intros l H. induction l as [|c l IH]; [done|]. cbn [forallb] in H.
  apply andb_true_iff in H as [Hc Hl]. cbn [decodeRunes]. rewrite Hc. cbn [forallb fst snd]. rewrite IH by done.
  apply Z.ltb_lt in Hc. rewrite (proj2 (Z.eqb_neq (byte_of c) RuneError)); [done|]. unfold RuneError. lia.
Qed.

Lemma hexText_valid n s : hexText n s = true -> ValidString s = true.
Proof.
  unfold hexText. intros [_ H]%andb_true_iff. apply ascii_valid. rewrite forallb_forall in *. intros c Hc.
  specialize (H c Hc). unfold isHexLower, isDigit, between in H. apply Z.ltb_lt.
  apply orb_true_iff in H as [H|H]; apply andb_true_iff in H as [_ H]; apply Z.leb_le in H; lia.
Qed.

(** ** Operations on the directory *)
Lemma withInteraction_cases {A} (a : A) fn d x err d' : withInteraction a fn d = (x, err, d') ->
  (x = a /\ err <> None /\ files d' = files d) \/
  exists d1 e d2, files d1 = files d /\ fn d1 = (x, e, d2) /\ files d' = files d2 /\ (err = None -> e = None).
Proof.
  unfold withInteraction. pose proof (readonly_systemCall d) as H1. destruct (systemCall d) as [[[]|e] d1]; cbn in H1;
    [|intros [= <- <- <-]; left; done].
  pose proof (readonly_systemCall d1) as H2. destruct (systemCall d1) as [[[]|e] d2]; cbn in H2.
  - destruct (fn d2) as [[y e] d3] eqn:Ef. pose proof (readonly_systemCall d3) as H3. destruct (systemCall d3) as [u d4]; cbn in H3.
    pose proof (readonly_systemCall d4) as H4. destruct (systemCall d4) as [c d5]; cbn in H4. intros [= <- <- <-]. right.
    exists d2, e, d3. split_and!; [congruence|done|congruence|]. destruct e, u, c; cbn; done.
  - pose proof (readonly_systemCall d2) as H3. destruct (systemCall d2) as [c d3]; cbn in H3. intros [= <- <- <-]. left.
    split_and!; [done|by destruct c|congruence].
Qed.

(** ** The record of an attempt is read back *)

(** What [NextInteraction] appends. *)
Definition attemptRecord (root task : string) (n : Z) (d : InteractionDelivery) : interactionRecord :=
  MkInteractionRecord SchemaVersion root task (event n "delivery" None (Some d)).

Definition attemptJson (root task : string) (n : Z) (delivery : json) : json :=
  JObject [("schema_version", JInt SchemaVersion); ("root_id", JString root); ("task_id", JString task);
           ("event", JObject [("sequence", JInt n); ("kind", JString "delivery"); ("delivery", delivery)])]%string.

Lemma attempt_json root task n d : jsonRecord (attemptRecord root task n d) = attemptJson root task n (jsonDelivery d).
Proof. reflexivity. Qed.

Definition deliveryValue (d : InteractionDelivery) : govalue := VStruct [VString (id_MessageID d); VString (id_State d); VString (id_Reason d)].
Definition attemptValue (root task : string) (n : Z) (d : InteractionDelivery) : govalue :=
  VStruct [VInt SchemaVersion; VString root; VString task;
           VStruct [VString ""; VInt n; VString "delivery"; VString ""; VNil; VString ""; VNil; VPointer (deliveryValue d); VNil]].

Lemma attempt_value root task n d : recordFrom (attemptValue root task n d) = attemptRecord root task n d.
Proof. by destruct d. Qed.

Lemma encodes_delivery orbit d : encodes orbit deliveryType (deliveryValue d) (jsonDelivery d).
Proof.
  constructor. do 2 (apply ef_present; [constructor|]). rewrite <- (app_nil_r (omitString _ _)). apply encodes_omitString. constructor.
Qed.

Lemma encodes_attempt orbit root task n d : 0 <= n <= max_uint64 ->
  encodes orbit recordType (attemptValue root task n d) (attemptJson root task n (jsonDelivery d)).
Proof.
  intros Hn. constructor. apply ef_present; [by constructor|]. do 2 (apply ef_present; [constructor|]).
  apply ef_present; [|constructor]. constructor. apply (ef_omitted orbit "deadline" TString). apply ef_present; [by constructor|].
  apply ef_present; [constructor|]. apply (ef_omitted orbit "turn_id" TString). apply (ef_omitted orbit "request" (TPointer requestType)).
  apply (ef_omitted orbit "request_id" TString). apply (ef_omitted orbit "message" (TPointer messageType)).
  apply ef_present; [constructor; apply encodes_delivery|]. apply (ef_omitted orbit "capabilities" (TPointer capabilitiesType)). constructor.
Qed.

Lemma delivery_nesting d : nesting (jsonDelivery d) = 1.
Proof. unfold jsonDelivery. by destruct (omitString_inv "reason" (id_Reason d)) as [[_ ->]| ->]. Qed.

Lemma delivery_valid d : ValidString (id_MessageID d) = true -> ValidString (id_State d) = true -> ValidString (id_Reason d) = true ->
  validJson (jsonDelivery d) = true.
Proof.
  intros H1 H2 H3. unfold jsonDelivery. destruct (omitString_inv "reason" (id_Reason d)) as [[_ ->]| ->];
    cbn [validJson forallb fst snd app]; by rewrite H1, H2, ?H3.
Qed.

Lemma attempt_decoded orbit `{CaseFold orbit} root task n d : 0 <= n <= max_uint64 ->
  ValidString root = true -> ValidString task = true ->
  ValidString (id_MessageID d) = true -> ValidString (id_State d) = true -> ValidString (id_Reason d) = true ->
  len (MarshalCanonical (jsonRecord (attemptRecord root task n d))) <= MaxControlRecordSize ->
  decodeInteraction orbit (MarshalCanonical (jsonRecord (attemptRecord root task n d))) = inl (attemptRecord root task n d).
Proof.
  rewrite attempt_json. intros Hn Hr Ht H1 H2 H3 Hl. unfold decodeInteraction.
  rewrite (decode_canonical orbit recordType (attemptValue root task n d)); [by rewrite attempt_value|..]; [|by apply encodes_attempt|done| | |done].
  - apply distinct_ascii; [done|]. vm_compute. reflexivity.
  - pose proof (delivery_valid d H1 H2 H3) as Hd. unfold attemptJson. cbn [validJson forallb fst snd]. by rewrite Hr, Ht, Hd.
  - unfold attemptJson. cbn [nesting foldr snd]. rewrite delivery_nesting. vm_compute. done.
Qed.

(** An attempt that applies leaves its message attempted. *)
Lemma attempt_status s n d s' : applyInteractionEvent s (event n "delivery" None (Some d)) = Ok s' ->
  statusOf (set_cursor n s') (id_MessageID d) = Some (id_State d).
Proof.
  intros H. change (applyInteractionDelivery s (Some d) = Ok s') in H.
  apply applyDelivery_Ok in H as (x & pre & old & post & [= <-] & E & -> & Ei & _ & Hp).
  unfold statusOf. cbn. rewrite find_middle by done. by rewrite eqs_refl.
Qed.

(** ** Operations only add records *)
Definition growing {A} (m : Tx A) : Prop := forall d, grows (files d) (files (m d).2).
Definition growingOp {A} (m : Op A) : Prop := forall d, grows (files d) (files (m d).2).

Lemma growing_readonly {A} (m : Tx A) : readonly m -> growing m.
Proof. intros H d. apply grows_eq, H. Qed.
Lemma growing_bind {A B} (m : Tx A) (f : A -> Tx B) : growing m -> (forall a, growing (f a)) -> growing (txBind m f).
Proof.
  intros Hm Hf d. unfold txBind. specialize (Hm d). destruct (m d) as [[a|e] d']; cbn in *; [|done].
  eapply grows_trans; [exact Hm|apply Hf].
Qed.
Lemma growing_stage name data : growing (stageReader name data).
Proof.
  intros d. destruct (stageReader name data d) as [r d'] eqn:E. apply stageReader_cases in E as (c & cl & err & -> & [[E _]|[Hn E]]); cbn;
    rewrite E; [apply grows_refl|by apply grows_insert].
Qed.
Lemma growing_append root task snapshot e : growing (appendInteraction root task snapshot e).
Proof.
  intros d. destruct (appendInteraction root task snapshot e d) as [r d'] eqn:E. apply append_cases in E as [[E _]|(Hn & E & _)]; cbn;
    rewrite E; [apply grows_refl|by apply grows_insert].
Qed.
Lemma growing_of {A B} (a b : A) (m : Tx B) : growing m -> growingOp (opOf a b m).
Proof. intros H d. unfold opOf. specialize (H d). by destruct (m d) as [[x|e] d']. Qed.
Lemma growing_lock {A} (a : A) fn : growingOp fn -> growingOp (withInteraction a fn).
Proof.
  intros H d. destruct (withInteraction a fn d) as [[x err] d'] eqn:E.
  apply withInteraction_cases in E as [(_ & _ & E)|(d1 & e & d2 & E1 & E & E2 & _)]; cbn; [rewrite E; apply grows_refl|].
  rewrite E2, <- E1. specialize (H d1). by rewrite E in H.
Qed.
Lemma growing_records decode root task : growing (interactionRecords decode root task).
Proof. apply growing_readonly, readonly_records. Qed.
#[export] Hint Resolve growing_stage growing_append growing_records growing_of growing_lock : tx.
#[export] Hint Extern 5 (growing _) => apply growing_readonly; solve [auto with tx] : tx.
#[export] Hint Extern 2 (growing (txBind _ _)) => apply growing_bind; [|intros ?] : tx.
#[export] Hint Extern 3 (growing (match ?x with _ => _ end)) => destruct x : tx.

Lemma growing_record decode root task u e : growingOp (RecordInteraction decode root task u e).
Proof. intros d. unfold RecordInteraction. destruct (requireRunner _); [|apply grows_refl]. revert d. apply growing_lock. auto 10 with tx. Qed.

Lemma growing_seal decode root task u : growingOp (SealInteraction decode root task u).
Proof.
  intros d. unfold SealInteraction. destruct (requireRunner _); [|apply grows_refl]. revert d. apply growing_lock, growing_of.
  unfold writeInteractionEvidence. auto 15 with tx.
Qed.

Lemma growing_submit decode root task u m : growingOp (SubmitInteraction decode root task u m).
Proof.
  apply growing_lock. intros d. unfold submitLocked. pose proof (growing_records decode root task d) as HR.
  destruct (interactionRecords _ _ _ d) as [[[events snap]|e] d1]; cbn in HR; [|done].
  eapply grows_trans; [exact HR|]. destruct (interactionReplay _ _ _) as [[existing [e|]]|]; [apply grows_refl| |];
    apply growing_of; auto 10 with tx.
Qed.

Lemma growing_next decode root task u reason : growingOp (NextInteraction decode root task u reason).
Proof.
  intros d. unfold NextInteraction. destruct (requireRunner _); [|apply grows_refl]. revert d. apply growing_lock. intros d.
  unfold nextLocked. pose proof (growing_records decode root task d) as HR.
  destruct (interactionRecords _ _ _ d) as [[[events snap]|e] d1]; cbn in HR; [|done].
  eapply grows_trans; [exact HR|]. destruct (interactionOpen _ _); [|apply grows_refl]. destruct (is_Closed _); [apply grows_refl|].
  destruct (nextQueuedInteraction _ _) as [next|]; [|apply grows_refl].
  destruct (ValidateInteractionMessage next _);
    match goal with |- context [appendInteraction root task snap ?e d1] =>
      pose proof (growing_append root task snap e d1) as HA; destruct (appendInteraction root task snap e d1) as [[[]|?] d2]
    end; exact HA.
Qed.

(** ** The world of a task *)
Inductive journalStep (decode : string -> interactionRecord + decodeFailure) (root task : string)
  : gmap string string -> option InteractionMessage -> gmap string string -> Prop :=
| step_submit u m d : journalStep decode root task (files d) None (files (SubmitInteraction decode root task u m d).2)
| step_next u reason d x err d' : NextInteraction decode root task u reason d = (x, err, d') ->
    journalStep decode root task (files d) x (files d')
| step_record u e d : journalStep decode root task (files d) None (files (RecordInteraction decode root task u e d).2)
| step_seal u d : journalStep decode root task (files d) None (files (SealInteraction decode root task u d).2)
| step_elsewhere fs fs' : (forall n, fs' !! interactionName n = fs !! interactionName n) -> journalStep decode root task fs None fs'.

(** A history and the messages that were handed to the provider. *)
Inductive history (decode : string -> interactionRecord + decodeFailure) (root task : string)
  : gmap string string -> list InteractionMessage -> gmap string string -> Prop :=
| h_nil fs : history decode root task fs [] fs
| h_cons fs x fs1 l fs2 : journalStep decode root task fs x fs1 -> history decode root task fs1 l fs2 ->
    history decode root task fs (option_list x ++ l) fs2.

Lemma step_grows decode root task fs x fs' : journalStep decode root task fs x fs' -> grows fs fs'.
Proof.
  intros [u m d|u reason d y err d' E|u e d|u d|fs1 fs2 E].
  - apply growing_submit.
  - pose proof (growing_next decode root task u reason d) as H. by rewrite E in H.
  - apply growing_record.
  - apply growing_seal.
  - intros n data H. by rewrite E.
Qed.

Section delivery.
Context (orbit : Z -> Z) `{Hfold : CaseFold orbit} (RootID TaskID : string).
#[local] Abbreviation decode := (decodeInteraction orbit).
Hypothesis RootID_hex : hexText 32 RootID = true.
Hypothesis TaskID_hex : hexText 32 TaskID = true.

Abbreviation replays := (replays decode RootID TaskID).

(** A message that no later state of the journal has queued. *)
Definition spent (id : string) (fs : gmap string string) : Prop :=
  forall fs' events s, grows fs fs' -> replays fs' events s -> exists b, statusOf s id = Some b /\ b <> "queued"%string.

Lemma spent_grows id fs fs' : grows fs fs' -> spent id fs -> spent id fs'.
Proof. intros Hg Hs fs'' events s Hg'. apply Hs. by eapply grows_trans. Qed.

(** An appended attempt spends its message. *)
Lemma attempt_spends fs events s d id data n :
  replays fs events s -> statusOf s id = Some "queued"%string -> n = uint64 (is_Cursor s + 1) ->
  id_MessageID d = id -> id_State d = "unknown"%string -> ValidString (id_Reason d) = true ->
  fs !! interactionName n = None ->
  data = MarshalCanonical (jsonRecord (attemptRecord RootID TaskID n d)) -> len data <= interactionPageBytes ->
  spent id (<[interactionName n := data]> fs).
Proof.
  intros Hr Hst Hn Hid Hd Hreason Hnone Hdata Hlen fs' events' s' Hg Hr'.
  destruct (replays_length _ _ _ _ _ _ Hr) as [Hl Hc]. unfold uint64 in Hn. rewrite Z.mod_small in Hn by (unfold maxInteractionRecords in Hl; lia).
  assert (grows fs fs') as Hg0 by (eapply grows_trans; [by apply grows_insert|done]).
  destruct (replays_extend _ _ _ _ _ _ _ _ _ Hg0 Hr Hr') as (more & -> & Hmore).
  assert (fs' !! interactionName n = Some data) as Hfile by (apply Hg; by rewrite lookup_insert_eq).
  destruct more as [|e more].
  { destruct Hr' as (_ & _ & Hnone'). rewrite app_nil_r in Hnone'. replace (1 + Z.of_nat (length events)) with n in Hnone' by lia. congruence. }
  destruct Hr' as (_ & Hent & _). destruct (Hent (length events) e) as [(data' & r & Hd1 & Hd2 & He & _) _]; [by rewrite lookup_app_r, Nat.sub_diag by lia|].
  replace (1 + Z.of_nat (length events)) with n in Hd1 by lia. assert (data' = data) as -> by congruence.
  assert (hexText 32 id = true) as Hhex.
  { pose proof (wf_messages s (replays_wf _ _ _ _ _ _ Hr)) as HF. unfold statusOf in Hst.
    destruct (find _ (is_Deliveries s)) as [x|] eqn:Ef; [|done]. apply find_some in Ef as [Hin Heq]. apply eqs_true in Heq as <-.
    rewrite Forall_forall in HF. by apply HF, list_elem_of_In. }
  assert (decode data = inl (attemptRecord RootID TaskID n d)) as Hread.
  { rewrite Hdata in Hlen |- *. apply attempt_decoded; [done|unfold maxInteractionRecords in Hl; unfold max_uint64; lia|by eapply hexText_valid..|
      rewrite Hid; by eapply hexText_valid|by rewrite Hd|done|etrans; [exact Hlen|done]]. }
  rewrite Hread in Hd2. injection Hd2 as <-. cbn [jr_Event attemptRecord] in He. subst e. cbn [applyAll] in Hmore. apply bind_Ok in Hmore as (s1 & Happ & Hmore).
  assert (statusOf s1 id = Some "unknown"%string) as H1.
  { apply Apply_Ok in Happ as (s2 & -> & _ & _ & Happ). rewrite <- Hd, <- Hid.
    eapply attempt_status. exact Happ. }
  destruct (applyAll_status _ _ _ _ _ Hmore H1) as (b & Hb & Hm). exists b. split; [done|]. intros ->.
  apply rank_rtc in Hm. vm_compute in Hm. done.
Qed.

(** [NextInteraction] hands out a queued message and spends it. *)
Lemma next_spends u reason d m err d' : NextInteraction decode RootID TaskID u reason d = (Some m, err, d') ->
  exists events s, replays (files d) events s /\ statusOf s (im_ID m) = Some "queued"%string /\ spent (im_ID m) (files d').
Proof.
  unfold NextInteraction. destruct (requireRunner (su_owned u)); [|done]. intros H.
  apply withInteraction_cases in H as [(? & _)|(d1 & e & d2 & E1 & H & E2 & _)]; [done|]. rewrite <- E1, E2.
  unfold nextLocked in H. destruct (interactionRecords _ _ _ d1) as [[[events snap]|e'] d3] eqn:ER; [|done].
  apply interactionRecords_Ok in ER as [Hr Hfs]. destruct (interactionOpen u _); [|done]. destruct (is_Closed _); [done|].
  destruct (nextQueuedInteraction _ _) as [next|] eqn:EN; [|done]. apply nextQueued_status in EN; [|by eapply replays_wf].
  destruct (ValidateInteractionMessage next _) eqn:EV; destruct (appendInteraction _ _ _ _ d3) as [[[]|e'] d4] eqn:EA; try done.
  injection H as <- <- <-. apply append_cases in EA as [[_ ?]|(Hnone & Hfiles & Hlen & _)]; [done|].
  exists events, (sn_state snap). split_and!; [done|done|]. rewrite Hfiles, Hfs in *.
  eapply attempt_spends; [exact Hr|exact EN|reflexivity|..]; try reflexivity; try exact Hlen; done.
Qed.

Lemma delivered_not_spent fs l fs' id : history decode RootID TaskID fs l fs' -> spent id fs -> id ∉ map im_ID l.
Proof.
  induction 1 as [fs|fs x fs1 l fs2 Hstep _ IH]; intros Hs; [set_solver|].
  assert (id ∉ map im_ID l) as Hl by (apply IH; eapply spent_grows; [by eapply step_grows|done]).
  destruct x as [m|]; [|done]. cbn. apply not_elem_of_cons. split; [|done]. intros ->.
  inversion Hstep as [|u reason d y err d' E| | |]; subst. apply next_spends in E as (events & s & Hr & Hst & _).
  destruct (Hs _ _ _ (grows_refl _) Hr) as (b & Hb & Hne). congruence.
Qed.

(** C26: At-most-once delivery.  Over any history of a task directory, with submissions,
    recorded events, seals and reservations by any number of processes in any order, any
    file-system failure at any call, and anything happening elsewhere in the directory,
    the messages that [NextInteraction] hands to the provider have different
    identifiers: an attempted message is never selected again, even after a crash or an
    error that leaves its record in doubt.  The records are read by the strict decoder of
    [task/json.go], of which the proof needs only that it reads back the record of an
    attempt, and of the case folding of Unicode what it does to ASCII. *)
Theorem delivered_at_most_once fs l fs' : history decode RootID TaskID fs l fs' -> NoDup (map im_ID l).
Proof.
  induction 1 as [fs|fs x fs1 l fs2 Hstep Hh IH]; [constructor|]. destruct x as [m|]; [|done]. cbn. apply NoDup_cons. split; [|done].
  inversion Hstep as [|u reason d y err d' E| | |]; subst. apply next_spends in E as (_ & _ & _ & _ & Hsp).
  by eapply delivered_not_spent.
Qed.
End delivery.

(** ** A history *)
Definition exampleSituation : situation :=
  MkSituation (Ok false) (Ok false) (fun name => Ok (eqs name "provider.start")) (Ok (true, 10 ^ 12)) (Ok 0) (Ok false)
    (Ok ("2024-01-01T00:00:00Z"%string, 0)) zero_time.
Definition exampleRoot : string := "00000000000000000000000000000001".
Definition exampleSteer : InteractionMessage := MkMessage exampleID "steer" "" "turn-1" ∅ "Focus".

Definition exampleStart : disk := MkDisk ∅ [].
Definition exampleReadyDisk : disk :=
  (RecordInteraction (decodeInteraction asciiOrbit) exampleRoot exampleID exampleSituation exampleReady exampleStart).2.
Definition exampleInbox : disk :=
  (SubmitInteraction (decodeInteraction asciiOrbit) exampleRoot exampleID exampleSituation exampleSteer exampleReadyDisk).2.
Definition exampleNext : option InteractionMessage * option error * disk :=
  NextInteraction (decodeInteraction asciiOrbit) exampleRoot exampleID exampleSituation (fun _ => ""%string) exampleInbox.

(** A message is submitted, reserved once, and not selected by the next reservation. *)
Lemma delivered_at_most_once_witness :
  history (decodeInteraction asciiOrbit) exampleRoot exampleID ∅ [exampleSteer] (files exampleNext.2) /\ NoDup (map im_ID [exampleSteer]) /\
  (NextInteraction (decodeInteraction asciiOrbit) exampleRoot exampleID exampleSituation (fun _ => ""%string) exampleNext.2).1.1 = None.
Proof.
  assert (exampleNext.1.1 = Some exampleSteer) as E by (vm_compute; reflexivity).
  assert (history (decodeInteraction asciiOrbit) exampleRoot exampleID ∅ [exampleSteer] (files exampleNext.2)) as H.
  { apply (h_cons _ _ _ (files exampleStart) None (files exampleReadyDisk) [exampleSteer]); [exact (step_record _ _ _ _ _ _)|].
    apply (h_cons _ _ _ _ None (files exampleInbox) [exampleSteer]); [exact (step_submit _ _ _ _ _ _)|].
    apply (h_cons _ _ _ _ (Some exampleSteer) (files exampleNext.2) []); [|apply h_nil].
    apply (step_next _ _ _ exampleSituation (fun _ => ""%string) exampleInbox _ exampleNext.1.2). fold exampleNext.
    destruct exampleNext as [[x err] d]. cbn in *. congruence. }
  split; [exact H|]. split; [|vm_compute; reflexivity].
  exact (delivered_at_most_once asciiOrbit exampleRoot exampleID eq_refl eq_refl _ _ _ H).
Defined.
