(* ===== verification/Budget.v ===== *)
(** * The execution budget

    Model of [internal/execution/budget.go]: the owner of one deadline, its observer
    goroutine, and the goroutines that authorize starts, complete the work and await the
    stop error.  Every critical section of [b.mu] is one function of the world; the
    goroutines are program counters between them. *)
From S2P Require Import Prelude GoErrors GoTime.
From stdpp Require Import list.
#[local] Open Scope Z_scope.

Definition errBudgetExpiredBeforeStart : error := Sentinel execution_errBudgetExpiredBeforeStart.
Definition canceled : error := Sentinel context_Canceled.

(** [Timer]: its channel delivers once, at the deadline or later; [Stop] before that
    prevents it. *)
Inductive timer : Set := Armed | Fired | Stopped.

(** What happens in order: the calls of [opts.emit], heard when the options of the call
    have a hook; the one durable preparation; the close of [preparedDone]; the calls of
    the start callback. *)
Inductive occurrence : Set :=
| Emitted (heard : bool) (name : string)
| PrepareBudget (deadline : time)
| PreparedClosed
| StartCalled.

(** [budgetOwner], with the clock and the occurrences so far. *)
Record budgetOwner : Set := MkOwner {
  b_now : time;
  b_deadline : time;
  b_completed : bool;
  b_expired : bool;
  b_prepared : bool; (* and [preparedDone] is closed *)
  b_timer : timer;
  b_cancelled : bool; (* the observer's context *)
  b_work : option error; (* [workContext.Err()] *)
  b_wake : bool; (* the buffered wake channel holds a token *)
  b_done : bool;
  b_stopErr : option error;
  b_log : list (time * occurrence) }.

Definition record (x : occurrence) (b : budgetOwner) : budgetOwner :=
  MkOwner (b_now b) (b_deadline b) (b_completed b) (b_expired b) (b_prepared b) (b_timer b) (b_cancelled b) (b_work b)
    (b_wake b) (b_done b) (b_stopErr b) (b_log b ++ [(b_now b, x)]).

(** [opts.emit]; [hooked] says that [opts.Hooks.Event] is set. *)
Definition emit (hooked : bool) (name : string) : budgetOwner -> budgetOwner := record (Emitted hooked name).
Definition set_now (now : time) (b : budgetOwner) : budgetOwner :=
  MkOwner now (b_deadline b) (b_completed b) (b_expired b) (b_prepared b) (b_timer b) (b_cancelled b) (b_work b)
    (b_wake b) (b_done b) (b_stopErr b) (b_log b).
Definition set_completed (b : budgetOwner) : budgetOwner :=
  MkOwner (b_now b) (b_deadline b) true (b_expired b) (b_prepared b) (b_timer b) (b_cancelled b) (b_work b)
    (b_wake b) (b_done b) (b_stopErr b) (b_log b).
Definition set_expired (b : budgetOwner) : budgetOwner :=
  MkOwner (b_now b) (b_deadline b) (b_completed b) true (b_prepared b) (b_timer b) (b_cancelled b) (b_work b)
    (b_wake b) (b_done b) (b_stopErr b) (b_log b).
Definition set_prepared (b : budgetOwner) : budgetOwner :=
  MkOwner (b_now b) (b_deadline b) (b_completed b) (b_expired b) true (b_timer b) (b_cancelled b) (b_work b)
    (b_wake b) (b_done b) (b_stopErr b) (b_log b).
Definition set_timer (t : timer) (b : budgetOwner) : budgetOwner :=
  MkOwner (b_now b) (b_deadline b) (b_completed b) (b_expired b) (b_prepared b) t (b_cancelled b) (b_work b)
    (b_wake b) (b_done b) (b_stopErr b) (b_log b).
Definition cancelObserver (b : budgetOwner) : budgetOwner :=
  MkOwner (b_now b) (b_deadline b) (b_completed b) (b_expired b) (b_prepared b) (b_timer b) true (b_work b)
    (b_wake b) (b_done b) (b_stopErr b) (b_log b).
Definition set_wake (t : bool) (b : budgetOwner) : budgetOwner :=
  MkOwner (b_now b) (b_deadline b) (b_completed b) (b_expired b) (b_prepared b) (b_timer b) (b_cancelled b) (b_work b)
    t (b_done b) (b_stopErr b) (b_log b).
Definition set_done (b : budgetOwner) : budgetOwner :=
  MkOwner (b_now b) (b_deadline b) (b_completed b) (b_expired b) (b_prepared b) (b_timer b) (b_cancelled b) (b_work b)
    (b_wake b) true (b_stopErr b) (b_log b).
Definition set_stopErr (e : option error) (b : budgetOwner) : budgetOwner :=
  MkOwner (b_now b) (b_deadline b) (b_completed b) (b_expired b) (b_prepared b) (b_timer b) (b_cancelled b) (b_work b)
    (b_wake b) (b_done b) e (b_log b).

(** A context keeps its first error. *)
Definition cancelWork (e : error) (b : budgetOwner) : budgetOwner :=
  MkOwner (b_now b) (b_deadline b) (b_completed b) (b_expired b) (b_prepared b) (b_timer b) (b_cancelled b)
    (match b_work b with Some e' => Some e' | None => Some e end) (b_wake b) (b_done b) (b_stopErr b) (b_log b).
Definition workCancel : budgetOwner -> budgetOwner := cancelWork canceled.

(** ** Arming *)
(** [armBudgetUntilContext]: the parent's deadline and error; the observer has emitted
    "timer-armed" before the owner is returned. *)
Definition armBudgetUntilContext (hooked : bool) (inherited : option time) (parent : option error) (now deadline : time) : budgetOwner :=
  let deadline := match inherited with Some t => if Before t deadline then t else deadline | None => deadline end in
  emit hooked "timer-armed"
    (MkOwner now deadline false false false Armed false parent false false None []).

Definition armBudgetUntil (hooked : bool) (now deadline : time) : budgetOwner := armBudgetUntilContext hooked None None now deadline.

Definition armBudget (hooked : bool) (now : time) (budget : Z) : budgetOwner * time :=
  (armBudgetUntil hooked now (GoTime.Add now budget), now).

(** ** Critical sections *)
(** What is authorized: by [authorizeStart] and [authorizeAndStart], by a scoped preflight,
    at the end of a supervised inspection, and before a delivery to the provider. *)
Definition startAuthorized : string := "start-authorized".
Definition preflightAuthorized : string := "preflight-authorized".
Definition inspectionAuthorized : string := "inspection-completed-before-deadline".
Definition deliveryAuthorized : string := "interaction-delivery-authorized".

(** The clock has reached the deadline. *)
Definition late (b : budgetOwner) : bool := negb (Before (b_now b) (b_deadline b)).

(** [if !b.expired { b.expired = true; emit }] *)
Definition observeDeadline (hooked : bool) (b : budgetOwner) : budgetOwner :=
  if b_expired b then b else emit hooked "deadline-observed" (set_expired b).

(** [b.prepareExpiry]: whether there is a request to run, and the error.  [stopper] says
    that a stop capability is configured; [answer] is what its [PrepareBudget] returns. *)
Definition prepareExpiry (hooked stopper : bool) (answer : bool * option error) (b : budgetOwner)
  : (bool * option error) * budgetOwner :=
  if b_completed b || b_prepared b then ((false, None), b)
  else
    let b := workCancel (observeDeadline hooked b) in
    if negb stopper
    then ((false, Some (New "budget expired without a supervisor stop capability")), record PreparedClosed (set_prepared b))
    else
      let b := record PreparedClosed (set_prepared (record (PrepareBudget (b_deadline b)) b)) in
      match answer with
      | (_, Some e) => ((false, Some e), b)
      | (request, None) => ((request, None), b)
      end.

(** [b.recordStopError] *)
Definition recordStopError (err : option error) (b : budgetOwner) : budgetOwner :=
  match err with
  | None => b
  | Some e => set_stopErr (errors_Join [b_stopErr b; Some e]) b
  end.

Inductive decision : Set :=
| Authorized
| Refused (e : error)
| Waits (needsWake : bool). (* for [preparedDone], outside the mutex *)

(** The critical section of [b.authorize]. *)
Definition authorize (hooked : bool) (event : string) (b : budgetOwner) : decision * budgetOwner :=
  if b_completed b then (Refused errBudgetExpiredBeforeStart, b)
  else if b_expired b || b_prepared b || late b
  then let b := workCancel (observeDeadline hooked b) in (Waits (negb (b_prepared b)), b)
  else match b_work b with
       | Some e => (Refused e, b)
       | None => (Authorized, emit hooked event b)
       end.

(** The critical section of [b.authorizeAndStart]: [None] when it goes on to [authorize]. *)
Definition reserveStart (hooked : bool) (b : budgetOwner) : option decision * budgetOwner :=
  if b_completed b || b_expired b || b_prepared b || late b then (None, b)
  else match b_work b with
       | Some e => (Some (Refused e), b)
       | None => (Some Authorized, emit hooked startAuthorized b)
       end.

(** Completion, once the preparation is not pending. *)
Definition finishWork (hooked : bool) (b : budgetOwner) : budgetOwner :=
  let b := workCancel (set_completed b) in
  let b := match b_timer b with Armed => set_timer Stopped b | _ => b end in
  emit hooked "timer-disarmed" (cancelObserver (emit hooked "completion-observed" b)).

(** One round of [b.complete]: whether it returns. *)
Definition complete (hooked : bool) (b : budgetOwner) : bool * budgetOwner :=
  if b_completed b then (true, b)
  else
    let b := if negb (b_expired b) && late b
             then set_wake true (emit hooked "deadline-observed" (workCancel (set_expired b))) else b in
    if b_expired b && negb (b_prepared b) then (false, b)
    else (true, finishWork hooked b).

(** ** Goroutines *)
(** The calls, with whether their options have a hook. *)
Inductive call : Set := Authorize (hooked : bool) (event : string) | AuthorizeAndStart (hooked : bool) | Complete (hooked : bool) | Await.

Inductive pc : Set :=
| Entry
| AtAuthorize (* [authorizeAndStart] on its way into [authorize] *)
| Waking (* about to send on the wake channel *)
| Waiting (* for [preparedDone] *)
| Reserved (* a start is authorized, and the mutex is released *)
| InStart (* in the start callback *)
| Returned (ran : bool) (err : option error). (* [ran]: the start callback was called *)

(** The result of the critical section of [authorize]. *)
Definition afterAuthorize (d : decision) : pc :=
  match d with
  | Authorized => Returned false None
  | Refused e => Returned false (Some e)
  | Waits true => Waking
  | Waits false => Waiting
  end.

(** One step of a calling goroutine; [None] when it is blocked or has returned.
    [answer] is what the start callback returns. *)
Definition threadStep (answer : option error) (b : budgetOwner) (c : call) (p : pc) : option (budgetOwner * pc) :=
  match c, p with
  | _, Returned _ _ => None
  | Authorize hooked event, Entry => let '(d, b) := authorize hooked event b in Some (b, afterAuthorize d)
  | AuthorizeAndStart hooked, Entry =>
      match reserveStart hooked b with
      | (None, b) => Some (b, AtAuthorize)
      | (Some Authorized, b) => Some (b, Reserved)
      | (Some (Refused e), b) => Some (b, Returned false (Some e))
      | (Some (Waits _), b) => None
      end
  | AuthorizeAndStart hooked, AtAuthorize => let '(d, b) := authorize hooked startAuthorized b in Some (b, afterAuthorize d)
  | AuthorizeAndStart _, Reserved => Some (record StartCalled b, InStart)
  | AuthorizeAndStart _, InStart => Some (b, Returned true answer)
  | (Authorize _ _ | AuthorizeAndStart _), Waking => Some (set_wake true b, Waiting)
  | (Authorize _ _ | AuthorizeAndStart _), Waiting =>
      if b_prepared b then Some (b, Returned false (Some errBudgetExpiredBeforeStart)) else None
  | Complete hooked, Entry => let '(returns, b) := complete hooked b in Some (b, if returns then Returned false None else Waiting)
  | Complete _, Waiting => if b_prepared b then Some (b, Entry) else None
  | Await, Entry => if b_done b then Some (b, Returned false (b_stopErr b)) else None
  | _, _ => None
  end.

(** The observer goroutine. *)
Inductive observer : Set :=
| Selecting
| Preparing
| Recording (request : bool) (err : option error)
| Requesting
| RecordingRequest (err : option error)
| Finished.

Inductive branch : Set := OnCancel | OnTimer | OnWake.

(** One step of the observer; [choice] is the ready branch of its select, [answer] what
    [PrepareBudget] returns and [reply] what the request returns. *)
Definition observerStep (hooked stopper : bool) (choice : branch) (answer : bool * option error) (reply : option error)
    (b : budgetOwner) (o : observer) : option (budgetOwner * observer) :=
  match o with
  | Selecting =>
      match choice with
      | OnCancel => if b_cancelled b then Some (set_done b, Finished) else None
      | OnTimer => match b_timer b with Fired => Some (set_timer Stopped b, Preparing) | _ => None end
      | OnWake => if b_wake b then Some (set_wake false b, Preparing) else None
      end
  | Preparing => let '((request, err), b) := prepareExpiry hooked stopper answer b in Some (b, Recording request err)
  | Recording true err => Some (recordStopError err b, Requesting)
  | Recording false err => Some (set_done (recordStopError err b), Finished)
  | Requesting => Some (b, RecordingRequest reply)
  | RecordingRequest err => Some (set_done (recordStopError err b), Finished)
  | Finished => None
  end.

(** ** Executions *)
Record system : Set := MkSystem { s_owner : budgetOwner; s_observer : observer; s_threads : list (call * pc) }.

(** The calls that the code makes: a delivery to the provider is authorized with the zero
    [Options], which have no hook. *)
Definition authorizations : list string := [startAuthorized; preflightAuthorized; inspectionAuthorized; deliveryAuthorized].
Definition calls (c : call) : Prop :=
  match c with Authorize hooked event => event ∈ authorizations /\ (event = deliveryAuthorized -> hooked = false) | _ => True end.

#[global] Instance calls_dec c : Decision (calls c).
Proof. destruct c; apply _. Defined.

(** The environment: time passes, the timer delivers, the caller cancels the work, a
    goroutine makes a call. *)
Inductive outside : system -> system -> Prop :=
| out_tick b o l now : nanos (b_now b) <= nanos now -> outside (MkSystem b o l) (MkSystem (set_now now b) o l)
| out_fire b o l : b_timer b = Armed -> late b = true -> outside (MkSystem b o l) (MkSystem (set_timer Fired b) o l)
| out_cancel b o l e : outside (MkSystem b o l) (MkSystem (cancelWork e b) o l)
| out_call b o l c : calls c -> outside (MkSystem b o l) (MkSystem b o (l ++ [(c, Entry)])).

Inductive internal (hooked stopper : bool) : system -> system -> Prop :=
| in_observer choice answer reply b o l b' o' : observerStep hooked stopper choice answer reply b o = Some (b', o') ->
    internal hooked stopper (MkSystem b o l) (MkSystem b' o' l)
| in_thread i answer b o l c p b' p' : l !! i = Some (c, p) -> threadStep answer b c p = Some (b', p') ->
    internal hooked stopper (MkSystem b o l) (MkSystem b' o (<[i := (c, p')]> l)).

Definition step (hooked stopper : bool) (s s' : system) : Prop := outside s s' \/ internal hooked stopper s s'.

Definition armed (hooked : bool) (inherited : option time) (parent : option error) (now deadline : time) : system :=
  MkSystem (armBudgetUntilContext hooked inherited parent now deadline) Selecting [].

(** [hooked] and [stopper] are those of the options the budget was armed with. *)
Definition reachable (hooked stopper : bool) (s : system) : Prop :=
  exists inherited parent now deadline, rtc (step hooked stopper) (armed hooked inherited parent now deadline) s.
