(* ===== verification/BudgetTheorems.v ===== *)
(** * Theorems of the execution budget

    An abstract arbiter of the owner's decisions, the proof that every execution follows
    it, and the proof that every call returns. *)
From S2P Require Import Prelude GoErrors GoTime TaskTypes Budget.
From stdpp Require Import list relations.
#[local] Open Scope Z_scope.

(** ** The specification *)
Inductive status : Set := Open | Expired | StopOrdered | Prepared | Completed | Disarmed.

#[global] Instance status_eq_dec : EqDecision status.
Proof. solve_decision. Defined.

(** The arbiter of what happens, heard by a hook or not: before the deadline is observed, work may be authorized; after it, one
    stop is prepared and nothing is authorized; completion is final, and never overtakes
    the preparation. *)
Definition arbiter (s : status) (x : occurrence) : option status :=
  match x with
  | Emitted _ name =>
      if eqs name "deadline-observed" then match s with Open => Some Expired | _ => None end
      else if eqs name "completion-observed" then match s with Open | Prepared => Some Completed | _ => None end
      else if eqs name "timer-disarmed" then match s with Completed => Some Disarmed | _ => None end
      else match s with Open => Some Open | _ => None end
  | PrepareBudget _ => match s with Expired => Some StopOrdered | _ => None end
  | PreparedClosed => match s with Expired | StopOrdered => Some Prepared | _ => None end
  | StartCalled => Some s
  end.

Definition arbitrate (s : option status) (l : list (time * occurrence)) : option status :=
  fold_left (fun s x => s ≫= fun s => arbiter s x.2) l s.

#[global] Arguments arbitrate : simpl never.

(** The status of an owner. *)
Definition status_of (b : budgetOwner) : status :=
  if b_completed b then Disarmed else if b_prepared b then Prepared else if b_expired b then Expired else Open.

(** The deadline is observed at the deadline or later; work is authorized before it. *)
Definition timed (deadline : time) (x : time * occurrence) : Prop :=
  match x.2 with
  | Emitted _ name =>
      (name = "deadline-observed"%string -> nanos deadline <= nanos x.1) /\
      (name ∈ authorizations -> nanos x.1 < nanos deadline)
  | PrepareBudget t => t = deadline
  | _ => True
  end.

(** ** The invariant *)
Record core (b : budgetOwner) : Prop := MkCore {
  core_run : arbitrate (Some Open) (b_log b) = Some (status_of b);
  core_timed : Forall (timed (b_deadline b)) (b_log b);
  core_prepared : b_prepared b = true -> b_expired b = true;
  core_completed : b_completed b = true -> b_expired b = true -> b_prepared b = true;
  core_late : b_timer b = Fired \/ b_wake b = true \/ b_expired b = true -> late b = true;
  core_cancelled : b_cancelled b = b_completed b }.

(** How an owner may change. *)
Record evolves (b b' : budgetOwner) : Prop := MkEvolves {
  ev_now : nanos (b_now b) <= nanos (b_now b');
  ev_deadline : b_deadline b' = b_deadline b;
  ev_completed : b_completed b = true -> b_completed b' = true;
  ev_expired : b_expired b = true -> b_expired b' = true;
  ev_prepared : b_prepared b = true -> b_prepared b' = true;
  ev_done : b_done b = true -> b_done b' = true;
  ev_log : b_log b ⊆ b_log b' }.

Definition authorizedStart (b : budgetOwner) : Prop := exists t hooked, (t, Emitted hooked startAuthorized) ∈ b_log b.

Definition closing (b : budgetOwner) : Prop :=
  b_completed b = true \/ b_expired b = true \/ b_prepared b = true \/ late b = true.

Definition threadOK (b : budgetOwner) (t : call * pc) : Prop :=
  match t with
  | (Authorize _ event, Entry) => event ∈ authorizations
  | ((AuthorizeAndStart _ | Complete _ | Await), Entry) => True
  | (AuthorizeAndStart _, AtAuthorize) => closing b
  | ((Authorize _ _ | AuthorizeAndStart _), Waking) => b_expired b = true
  | ((Authorize _ _ | AuthorizeAndStart _ | Complete _), Waiting) => b_expired b = true
  | (AuthorizeAndStart _, (Reserved | InStart)) => authorizedStart b
  | (AuthorizeAndStart _, Returned ran err) => (ran = true -> authorizedStart b) /\ (err = None -> ran = true)
  | ((Authorize _ _ | Await), Returned ran _) => ran = false
  | (Complete _, Returned ran err) => ran = false /\ err = None /\ b_completed b = true
  | _ => False
  end.

Record inv (s : system) : Prop := MkInv {
  inv_core : core (s_owner s);
  inv_threads : Forall (threadOK (s_owner s)) (s_threads s);
  inv_late : s_observer s = Preparing -> late (s_owner s) = true;
  inv_open : s_observer s = Selecting \/ s_observer s = Preparing -> b_prepared (s_owner s) = false;
  inv_observer : b_completed (s_owner s) = false -> b_prepared (s_owner s) = false ->
                 s_observer s = Selecting \/ s_observer s = Preparing;
  inv_wake : b_expired (s_owner s) = true -> b_prepared (s_owner s) = false ->
             b_wake (s_owner s) = true \/ s_observer s = Preparing \/ exists c, (c, Waking) ∈ s_threads s;
  inv_done : s_observer s = Finished -> b_done (s_owner s) = true }.

Lemma arbitrate_app s l l' : arbitrate s (l ++ l') = arbitrate (arbitrate s l) l'.
Proof. apply fold_left_app. Qed.

Lemma evolves_refl b : evolves b b.
Proof. by constructor. Qed.

Lemma evolves_trans b1 b2 b3 : evolves b1 b2 -> evolves b2 b3 -> evolves b1 b3.
Proof. intros [] []. constructor; [lia|congruence|auto|auto|auto|auto|set_solver]. Qed.

Lemma late_spec b : late b = true <-> nanos (b_deadline b) <= nanos (b_now b).
Proof. unfold late. rewrite negb_true_iff. apply Before_false. Qed.

Lemma evolves_late b b' : evolves b b' -> late b = true -> late b' = true.
Proof. rewrite !late_spec. intros [Hn Hd _ _ _ _ _]. rewrite Hd. lia. Qed.

Lemma evolves_thread b b' t : evolves b b' -> threadOK b t -> threadOK b' t.
Proof.
  intros He. pose proof (evolves_late _ _ He) as Hl. destruct He as [_ _ H1 H2 H3 _ H4].
  assert (authorizedStart b -> authorizedStart b') as Ha by (intros (t' & h & Ht); exists t', h; auto).
  destruct t as [c p]. destruct c, p; cbn; unfold closing; naive_solver.
Qed.

(** ** The critical sections *)
Ltac owner := repeat match goal with
  | b : budgetOwner |- _ => destruct b as [now deadline completed expired prepared timer cancelled work wake done stopErr log]
  end; cbn in *.

(** A recorded occurrence that the arbiter takes from one status to the next. *)
Lemma run_emit l s t x s' : arbitrate (Some Open) l = Some s -> arbiter s x = Some s' ->
  arbitrate (Some Open) (l ++ [(t, x)]) = Some s'.
Proof. intros Hl Hx. rewrite arbitrate_app, Hl. exact Hx. Qed.

Lemma timed_emit d l x : Forall (timed d) l -> timed d x -> Forall (timed d) (l ++ [x]).
Proof. intros. by apply Forall_app_2; [|apply Forall_singleton]. Qed.

Lemma observe_core hooked b : core b -> b_completed b = false -> b_prepared b = false -> late b = true ->
  let b' := workCancel (observeDeadline hooked b) in
  core b' /\ evolves b b' /\ b_expired b' = true /\ b_prepared b' = false /\ b_completed b' = false /\ late b' = true /\
  b_wake b' = b_wake b /\ b_log b' = (if b_expired b then b_log b else b_log b ++ [(b_now b, Emitted hooked "deadline-observed")]).
Proof.
  intros [Hr Ht Hp Hc Hw Hx] Hnc Hnp Hl. owner. subst. destruct expired; cbn.
  - split; [constructor; cbn; auto|]. split; [constructor; cbn; set_solver by lia|]. done.
  - split; [|split; [constructor; cbn; set_solver by lia|done]].
    constructor; cbn; try done; [by eapply run_emit|]. apply timed_emit; [done|]. split; cbn; intros H; [by apply late_spec in Hl|].
    exfalso. revert H. by vm_compute; set_solver.
Qed.

Lemma prepare_core hooked stopper answer b : core b -> late b = true -> let b' := (prepareExpiry hooked stopper answer b).2 in
  core b' /\ evolves b b' /\ (b_completed b' = true \/ b_prepared b' = true) /\
  (b_completed b = true -> b' = b).
Proof.
  intros H Hl. cbn zeta. unfold prepareExpiry. destruct (b_completed b) eqn:Ec; [cbn; auto using evolves_refl|].
  destruct (b_prepared b) eqn:Ep; cbn [orb]; [cbn; auto using evolves_refl|].
  destruct (observe_core hooked b H Ec Ep Hl) as (H1 & He & Hx & Hp & Hc & Hl1 & _).
  set (b1 := workCancel (observeDeadline hooked b)) in *. clearbody b1.
  assert (core (record PreparedClosed (set_prepared b1)) /\ evolves b1 (record PreparedClosed (set_prepared b1))) as [Ha Hb].
  { destruct H1 as [Hr1 Ht1 _ _ Hw1 Hx1]. owner. subst. split; [|constructor; cbn; set_solver by lia].
    constructor; cbn; try done; [by eapply run_emit|by apply timed_emit]. }
  destruct stopper; cbn [negb].
  - cbn zeta. assert (core (record PreparedClosed (set_prepared (record (PrepareBudget (b_deadline b1)) b1))) /\
            evolves b1 (record PreparedClosed (set_prepared (record (PrepareBudget (b_deadline b1)) b1)))) as [Hd Hf].
    { destruct H1 as [Hr1 Ht1 _ _ Hw1 Hx1]. clear Ha Hb. owner. subst. split; [|constructor; cbn; set_solver by lia].
      constructor; cbn; try done; [|by do 2 (apply timed_emit; [|done])].
      eapply run_emit; [by eapply run_emit|done]. }
    destruct answer as [request [e|]]; cbn [snd]; (split_and!; [done|by eapply evolves_trans|by right; destruct b1|done]).
  - cbn [snd]. split_and!; [done|by eapply evolves_trans|by right; destruct b1|done].
Qed.

(** What an authorization is. *)
Definition inTime (b : budgetOwner) : Prop :=
  b_completed b = false /\ b_expired b = false /\ b_prepared b = false /\ late b = false.

Lemma authorized_core hooked b event : core b -> inTime b -> event ∈ authorizations ->
  core (emit hooked event b) /\ evolves b (emit hooked event b).
Proof.
  intros [Hr Ht Hp Hc Hw Hx] (H1 & H2 & H3 & H4) He. owner. subst. split; [|constructor; cbn; set_solver by lia].
  apply Before_spec in H4 || (unfold late in H4; apply negb_false_iff, Before_spec in H4). cbn in H4.
  constructor; cbn; try done.
  - eapply run_emit; [done|]. cbn. unfold authorizations in He. rewrite !elem_of_cons in He.
    destruct He as [-> | [-> | [-> | [-> | He]]]]; [done..|set_solver].
  - apply timed_emit; [done|]. split; cbn; [intros ->; exfalso; revert He; by vm_compute; set_solver|done].
Qed.

Lemma authorize_core hooked event b : core b -> event ∈ authorizations ->
  let d := (authorize hooked event b).1 in let b' := (authorize hooked event b).2 in
  core b' /\ evolves b b' /\ b_completed b' = b_completed b /\ b_prepared b' = b_prepared b /\ b_wake b' = b_wake b /\
  match d with
  | Authorized => inTime b /\ b' = emit hooked event b
  | Refused e => b' = b
  | Waits needsWake => b_expired b' = true /\ needsWake = negb (b_prepared b')
  end.
Proof.
  intros H He. cbn zeta. unfold authorize. destruct (b_completed b) eqn:Ec; [cbn; split_and!; auto using evolves_refl|].
  destruct (b_expired b || b_prepared b || late b) eqn:E.
  - assert (late b = true) as Hl.
    { destruct (late b) eqn:El; [done|]. rewrite orb_false_r in E.
      assert (b_expired b = true) as Ex by (apply orb_true_iff in E as [E|E]; [done|by apply core_prepared]).
      rewrite <- El. apply (core_late b H). auto. }
    destruct (b_prepared b) eqn:Ep.
    + pose proof (core_prepared b H Ep) as Ex. cbn zeta. unfold observeDeadline. rewrite Ex. cbn [fst snd].
      split; [|split; [|by destruct b]]; [|constructor; destruct b; cbn; set_solver by lia].
      destruct H. constructor; destruct b; cbn in *; done.
    + destruct (observe_core hooked b H Ec Ep Hl) as (H1 & H2 & H3 & H4 & H5 & _ & H6 & _). cbn zeta. cbn [fst snd]. by rewrite H4.
  - apply orb_false_iff in E as [E El]. apply orb_false_iff in E as [Ex Ep]. assert (inTime b) as Hi by done.
    destruct (b_work b); cbn; [by split_and!; auto using evolves_refl|].
    destruct (authorized_core hooked b event H Hi He). split_and!; [done|done|by destruct b..|done|done].
Qed.

Lemma reserve_core hooked b : core b ->
  let d := (reserveStart hooked b).1 in let b' := (reserveStart hooked b).2 in
  match d with
  | None => b' = b /\ closing b
  | Some Authorized => inTime b /\ b' = emit hooked startAuthorized b
  | Some (Refused _) => b' = b
  | Some (Waits _) => False
  end.
Proof.
  intros H. cbn zeta. unfold reserveStart, closing, inTime. destruct (b_completed b); [cbn; auto|]. destruct (b_expired b); [cbn; auto|].
  destruct (b_prepared b); [cbn; auto|]. destruct (late b); [cbn; auto|]. destruct (b_work b); by cbn.
Qed.

Lemma finish_core hooked b : core b -> b_completed b = false -> b_expired b = b_prepared b ->
  core (finishWork hooked b) /\ evolves b (finishWork hooked b) /\ b_prepared (finishWork hooked b) = b_prepared b /\
  b_completed (finishWork hooked b) = true /\ b_expired (finishWork hooked b) = b_expired b.
Proof.
  intros [Hr Ht Hp Hc Hw Hx] Hnc He. owner. subst. split_and!; [|constructor|by destruct timer..]; [|destruct timer; cbn; set_solver by lia..].
  assert (exists s, arbitrate (Some Open) log = Some s /\ (s = Open \/ s = Prepared)) as (s & Hs & Hcase)
    by (rewrite Hr; unfold status_of; cbn; destruct prepared; eauto).
  assert (arbitrate (Some Open) ((log ++ [(now, Emitted hooked "completion-observed")]) ++ [(now, Emitted hooked "timer-disarmed")]) = Some Disarmed) as Hrun.
  { eapply run_emit; [eapply run_emit; [exact Hs|]|]; [by destruct Hcase as [-> | ->]|done]. }
  assert (Forall (timed deadline) ((log ++ [(now, Emitted hooked "completion-observed")]) ++ [(now, Emitted hooked "timer-disarmed")])) as Hf.
  { do 2 (apply timed_emit; [|by split; cbn; [done|intros Hi; exfalso; revert Hi; vm_compute; set_solver]]). done. }
  destruct timer; constructor; cbn; try done; intros [?|?]; try done; apply Hw; auto.
Qed.

Lemma complete_core hooked b : core b ->
  let b' := (complete hooked b).2 in
  core b' /\ evolves b b' /\ b_prepared b' = b_prepared b /\
  if (complete hooked b).1 then b_completed b' = true /\ b_expired b' = b_expired b
  else b_expired b' = true /\ b_prepared b' = false /\ b_completed b' = false /\ (b_expired b = false \/ b_wake b = true -> b_wake b' = true).
Proof.
  intros H. cbn zeta. unfold complete. destruct (b_completed b) eqn:Ec; [cbn; split_and!; auto using evolves_refl|].
  destruct (b_expired b) eqn:Ex; cbn [negb andb].
  - rewrite Ex. destruct (b_prepared b) eqn:Ep; cbn [negb andb].
    + destruct (finish_core hooked b H Ec) as (H1 & H2 & H3 & H4 & H5); [congruence|]. cbn [fst snd]. split_and!; try done; congruence.
    + cbn [fst snd]. split_and!; auto using evolves_refl. by intros [?|?].
  - assert (b_prepared b = false) as Ep by (destruct (b_prepared b) eqn:E; [by rewrite (core_prepared b H E) in Ex|done]).
    destruct (late b) eqn:El.
    + destruct (observe_core hooked b H Ec Ep El) as (H1 & H2 & H3 & H4 & H5 & H6 & H7 & H8). unfold observeDeadline in *. rewrite Ex in *.
      assert (set_wake true (emit hooked "deadline-observed" (workCancel (set_expired b))) =
              set_wake true (workCancel (emit hooked "deadline-observed" (set_expired b)))) as -> by done.
      set (b1 := workCancel (emit _ _ _)) in *. clearbody b1. assert (core (set_wake true b1) /\ evolves b (set_wake true b1)) as [Ha Hb].
      { destruct H1, H2. split; constructor; destruct b1; cbn in *; done. }
      replace (b_expired (set_wake true b1)) with true by (by destruct b1). replace (b_prepared (set_wake true b1)) with false by (by destruct b1).
      cbn [negb andb fst snd]. split_and!; [exact Ha|exact Hb|clear Ha Hb; destruct b1; cbn in *; congruence..].
    + rewrite Ex. cbn [andb]. destruct (finish_core hooked b H Ec) as (H1 & H2 & H3 & H4 & H5); [congruence|]. cbn [fst snd]. split_and!; try done; congruence.
Qed.

(** ** Goroutines *)
(** A pending preparation stays announced: by a token in the wake channel, or by a
    goroutine about to put one there. *)
Definition announced (b b' : budgetOwner) (p p' : pc) : Prop :=
  b_expired b' = true -> b_prepared b' = false ->
  b_wake b' = true \/ p' = Waking \/ b_expired b = true /\ p <> Waking /\ (b_wake b = true -> b_wake b' = true).

Definition threadSpec (b b' : budgetOwner) (c : call) (p p' : pc) : Prop :=
  core b' /\ evolves b b' /\ b_prepared b' = b_prepared b /\ threadOK b' (c, p') /\ announced b b' p p'.

Lemma unchanged_spec b c p p' : core b -> threadOK b (c, p') -> p <> Waking -> threadSpec b b c p p'.
Proof. intros. split_and!; [done|apply evolves_refl|done|done|]. intros Hx _. auto. Qed.

Lemma inTime_not b : inTime b -> b_expired b = false.
Proof. by intros (_ & ? & _). Qed.

Lemma authorize_spec hooked b c event p : core b -> event ∈ authorizations -> p <> Waking ->
  (c = Authorize hooked event \/ c = AuthorizeAndStart hooked /\ closing b) ->
  threadSpec b (authorize hooked event b).2 c p (afterAuthorize (authorize hooked event b).1).
Proof.
  intros H He Hp Hcall. destruct (authorize_core hooked event b H He) as (H1 & H2 & H3 & H4 & H5 & Hd).
  destruct (authorize hooked event b) as [[|e|n] b']; cbn [fst snd afterAuthorize] in *.
  - destruct Hd as [(Ha & Hb & Hc & Hl) ->]. split_and!; [done|done|done| |].
    + destruct Hcall as [-> |[-> Hcl]]; [done|]. exfalso. destruct Hcl as [?|[?|[?|?]]]; congruence.
    + intros Hx. exfalso. destruct b; cbn in *; congruence.
  - subst b'. apply unchanged_spec; [done| |done]. by destruct Hcall as [-> |[-> _]].
  - destruct Hd as [Hx ->]. split_and!; [done..| |].
    + destruct (b_prepared b'), Hcall as [-> |[-> _]]; done.
    + intros _ ->. auto.
Qed.

Lemma wake_spec b c : core b -> b_expired b = true -> threadOK b (c, Waiting) -> threadSpec b (set_wake true b) c Waking Waiting.
Proof.
  intros [Hr Ht Hp Hc Hw Hx] He Hok. assert (evolves b (set_wake true b)) as Hev by (by destruct b).
  split_and!; [|done|by destruct b|by eapply evolves_thread|by left].
  owner. subst. constructor; cbn; try done. intros _. apply Hw. auto.
Qed.

Lemma start_spec hooked b : core b -> authorizedStart b -> threadSpec b (record StartCalled b) (AuthorizeAndStart hooked) Reserved InStart.
Proof.
  intros [Hr Ht Hp Hc Hw Hx] Ha. assert (evolves b (record StartCalled b)) as Hev by (destruct b; constructor; cbn; set_solver by lia).
  split_and!; [|done|by destruct b|by apply (evolves_thread _ _ (AuthorizeAndStart hooked, Reserved) Hev)|by intros ? _; right; right].
  owner. subst. constructor; cbn; try done; [by eapply run_emit|by apply timed_emit].
Qed.

Lemma reserve_spec hooked b : core b -> let '(d, b') := reserveStart hooked b in
  match d with
  | None => threadSpec b b' (AuthorizeAndStart hooked) Entry AtAuthorize
  | Some Authorized => threadSpec b b' (AuthorizeAndStart hooked) Entry Reserved
  | Some (Refused e) => threadSpec b b' (AuthorizeAndStart hooked) Entry (Returned false (Some e))
  | Some (Waits _) => False
  end.
Proof.
  intros H. pose proof (reserve_core hooked b H) as Hd. destruct (reserveStart hooked b) as [[[|e|n]|] b']; cbn [fst snd] in Hd.
  - destruct Hd as [Hi ->]. destruct (authorized_core hooked b startAuthorized H Hi) as [H1 H2]; [vm_compute; set_solver|].
    split_and!; [done|done|by destruct b| |].
    + exists (b_now b), hooked. apply elem_of_app. right. by apply list_elem_of_singleton.
    + intros Hx. apply inTime_not in Hi. destruct b; cbn in *; congruence.
  - subst. by apply unchanged_spec.
  - done.
  - destruct Hd as [-> Hcl]. by apply unchanged_spec.
Qed.

Lemma complete_spec hooked b : core b -> threadSpec b (complete hooked b).2 (Complete hooked) Entry (if (complete hooked b).1 then Returned false None else Waiting).
Proof.
  intros H. destruct (complete_core hooked b H) as (H1 & H2 & H3 & Hd). destruct (complete hooked b) as [[|] b']; cbn [fst snd] in *.
  - destruct Hd as [Hc Hx]. split_and!; [done..|]. intros He Hp. rewrite (core_completed b' H1 Hc He) in Hp. done.
  - destruct Hd as (Hx & Hp & Hc & Hw). split_and!; [done..|]. intros _ _. destruct (b_expired b) eqn:E; [|by left; apply Hw; left].
    right. right. auto.
Qed.

Lemma threadStep_spec answer b c p b' p' : core b -> threadOK b (c, p) -> threadStep answer b c p = Some (b', p') -> threadSpec b b' c p p'.
Proof.
  intros H Ht Hs. destruct c as [hooked event|hooked|hooked|], p; cbn in Ht, Hs; try done.
  - pose proof (authorize_spec hooked b (Authorize hooked event) event Entry H Ht) as Hsp. destruct (authorize hooked event b). simplify_eq. apply Hsp; auto.
  - simplify_eq. by apply wake_spec.
  - destruct (b_prepared b); [|done]. simplify_eq. by apply unchanged_spec.
  - pose proof (reserve_spec hooked b H) as Hsp. destruct (reserveStart hooked b) as [[[|e|n]|] b2]; simplify_eq; done.
  - pose proof (authorize_spec hooked b (AuthorizeAndStart hooked) startAuthorized AtAuthorize H) as Hsp. destruct (authorize hooked startAuthorized b). simplify_eq.
    apply Hsp; [vm_compute; set_solver|done|auto].
  - simplify_eq. by apply wake_spec.
  - destruct (b_prepared b); [|done]. simplify_eq. by apply unchanged_spec.
  - simplify_eq. by apply start_spec.
  - simplify_eq. by apply unchanged_spec.
  - pose proof (complete_spec hooked b H) as Hsp. destruct (complete hooked b) as [[|] b2]; simplify_eq; done.
  - destruct (b_prepared b); [|done]. simplify_eq. by apply unchanged_spec.
  - destruct (b_done b); [|done]. simplify_eq. by apply unchanged_spec.
Qed.

(** ** The observer and the environment *)
Lemma simple_core b b' : core b -> b_log b' = b_log b -> b_deadline b' = b_deadline b -> b_completed b' = b_completed b ->
  b_expired b' = b_expired b -> b_prepared b' = b_prepared b -> b_cancelled b' = b_cancelled b ->
  (b_timer b' = Fired \/ b_wake b' = true \/ b_expired b' = true -> late b' = true) -> core b'.
Proof. intros [] E1 E2 E3 E4 E5 E6 Hl. constructor; [..|exact Hl|]; unfold status_of in *; rewrite ?E1, ?E2, ?E3, ?E4, ?E5, ?E6; auto. Qed.

Lemma set_done_core b : core b -> core (set_done b) /\ evolves b (set_done b).
Proof. intros H. split; [|by destruct b]. eapply simple_core; [exact H|by destruct b..|]. intros Hx. apply H. by destruct b. Qed.

Lemma stopErr_core e b : core b -> core (recordStopError e b) /\ evolves b (recordStopError e b).
Proof.
  intros H. destruct e as [e|]; [|by auto using evolves_refl]. cbn [recordStopError]. split; [|by destruct b].
  eapply simple_core; [exact H|by destruct b..|]. intros Hx. apply H. by destruct b.
Qed.

Lemma observer_inv hooked stopper choice answer reply b o l b' o' :
  inv (MkSystem b o l) -> observerStep hooked stopper choice answer reply b o = Some (b', o') -> inv (MkSystem b' o' l).
Proof.
  intros [H HT Hl Ho Hb Hw Hd] Hs. cbn [s_owner s_observer s_threads] in *.
  assert (forall b2 o2, core b2 -> evolves b b2 -> (b_completed b2 = true \/ b_prepared b2 = true) ->
            o2 <> Selecting -> o2 <> Preparing -> (o2 = Finished -> b_done b2 = true) -> inv (MkSystem b2 o2 l)) as Hfinal.
  { intros b2 o2 H2 He Hcp Hn1 Hn2 Hdone. constructor; cbn [s_owner s_observer s_threads]; try done.
    - eapply Forall_impl; [exact HT|]. intros t. by apply evolves_thread.
    - by intros [-> | ->].
    - destruct Hcp; congruence.
    - intros Hx Hp. destruct Hcp as [Hc|]; [|congruence]. by rewrite (core_completed b2 H2 Hc Hx) in Hp. }
  assert (o <> Selecting -> o <> Preparing -> b_completed b = true \/ b_prepared b = true) as Hcp.
  { intros Hn1 Hn2. destruct (b_completed b); [by left|]. destruct (b_prepared b); [by right|]. by destruct (Hb eq_refl eq_refl). }
  destruct o; cbn in Hs.
  - destruct choice.
    + destruct (b_cancelled b) eqn:E; [|done]. simplify_eq. destruct (set_done_core b H). apply Hfinal; try done.
      left. rewrite (core_cancelled b H) in E. by destruct b.
    + destruct (b_timer b) eqn:E; simplify_eq. assert (late b = true) as Hlate by (apply (core_late b H); auto).
      assert (evolves b (set_timer Stopped b)) as He by (by destruct b).
      constructor; cbn [s_owner s_observer s_threads];
        [|eapply Forall_impl; [exact HT|]; intros t; by apply evolves_thread|done|by auto|by auto|by auto|done].
      eapply simple_core; [exact H|by destruct b..|]. by destruct b.
    + destruct (b_wake b) eqn:E; [|done]. simplify_eq. assert (late b = true) as Hlate by (apply (core_late b H); auto).
      assert (evolves b (set_wake false b)) as He by (by destruct b).
      constructor; cbn [s_owner s_observer s_threads];
        [|eapply Forall_impl; [exact HT|]; intros t; by apply evolves_thread|done|by auto|by auto|by auto|done].
      eapply simple_core; [exact H|by destruct b..|]. by destruct b.
  - destruct (prepare_core hooked stopper answer b H (Hl eq_refl)) as (H1 & H2 & H3 & _). destruct (prepareExpiry hooked stopper answer b) as [[request err] b2].
    simplify_eq. by apply Hfinal.
  - destruct (stopErr_core err b H) as [H1 H2]. destruct request; simplify_eq.
    + apply Hfinal; try done. destruct Hcp; [done|done|left|right]; by apply H2.
    + destruct (set_done_core _ H1) as [H3 H4]. apply Hfinal; try done; [by eapply evolves_trans|].
      destruct Hcp; [done|done|left|right]; by apply H4, H2.
  - simplify_eq. apply Hfinal; try done. by apply Hcp.
  - destruct (stopErr_core err b H) as [H1 H2]. simplify_eq. destruct (set_done_core _ H1) as [H3 H4].
    apply Hfinal; try done; [by eapply evolves_trans|]. destruct Hcp; [done|done|left|right]; by apply H4, H2.
  - done.
Qed.

Lemma thread_inv i answer b o l c p b' p' : inv (MkSystem b o l) -> l !! i = Some (c, p) -> threadStep answer b c p = Some (b', p') ->
  inv (MkSystem b' o (<[i := (c, p')]> l)).
Proof.
  intros [H HT Hl Ho Hb Hw Hd] Hi Hs. cbn [s_owner s_observer s_threads] in *.
  assert (threadOK b (c, p)) as Hok by (by eapply Forall_lookup_1 in HT).
  destruct (threadStep_spec _ _ _ _ _ _ H Hok Hs) as (H1 & H2 & H3 & H4 & H5).
  constructor; cbn [s_owner s_observer s_threads]; [done| |..].
  - apply Forall_insert; [|done]. eapply Forall_impl; [exact HT|]. intros t. by apply evolves_thread.
  - intros E. eapply evolves_late; [exact H2|auto].
  - rewrite H3. exact Ho.
  - rewrite H3. intros Hc Hp. apply Hb; [|done]. destruct (b_completed b) eqn:E; [|done]. apply (ev_completed _ _ H2) in E. congruence.
  - intros Hx Hp. destruct (H5 Hx Hp) as [?|[->|(Hx0 & Hne & Hwk)]]; [by left| |].
    + right. right. exists c. eapply list_elem_of_lookup_2. apply list_lookup_insert_eq. by eapply lookup_lt_Some.
    + destruct (Hw Hx0) as [?|[?|[c' Hc']]]; [congruence|left; auto|auto|]. right. right. exists c'.
      apply list_elem_of_lookup in Hc' as [j Hj]. apply list_elem_of_lookup. exists j. rewrite list_lookup_insert_ne; [done|].
      intros ->. congruence.
  - intros E. by apply (ev_done _ _ H2), Hd.
Qed.

Lemma outside_inv s s' : outside s s' -> inv s -> inv s'.
Proof.
  intros Hs [H HT Hl Ho Hb Hw Hd]. destruct Hs as [b o l now Hn|b o l Ht Hlate|b o l e|b o l c Hc]; cbn [s_owner s_observer s_threads] in *.
  - assert (evolves b (set_now now b)) as He by (by destruct b).
    constructor; cbn [s_owner s_observer s_threads];
      [|eapply Forall_impl; [exact HT|]; intros t; by apply evolves_thread|intros E; eapply evolves_late; [exact He|auto]|done..].
    eapply simple_core; [exact H|by destruct b..|]. intros Hx. eapply evolves_late; [exact He|]. apply H. by destruct b.
  - assert (evolves b (set_timer Fired b)) as He by (by destruct b).
    constructor; cbn [s_owner s_observer s_threads]; [|eapply Forall_impl; [exact HT|]; intros t; by apply evolves_thread|done..].
    eapply simple_core; [exact H|by destruct b..|]. by destruct b.
  - assert (evolves b (cancelWork e b)) as He by (by destruct b).
    constructor; cbn [s_owner s_observer s_threads]; [|eapply Forall_impl; [exact HT|]; intros t; by apply evolves_thread|done..].
    eapply simple_core; [exact H|by destruct b..|]. intros Hx. apply H. by destruct b.
  - constructor; cbn [s_owner s_observer s_threads]; try done.
    + apply Forall_app_2; [done|]. apply Forall_singleton. destruct c; [apply Hc|done..].
    + intros Hx Hp. destruct (Hw Hx Hp) as [?|[?|[c' Hc']]]; [by left|by right; left|]. right. right. exists c'. set_solver.
Qed.

Lemma armed_inv hooked inherited parent now deadline : inv (armed hooked inherited parent now deadline).
Proof.
  constructor; cbn; try done; [|by auto]. constructor; cbn; try done; [|by intros [?|[?|?]]].
  apply Forall_singleton. split; cbn; [done|]. intros Hx. exfalso. revert Hx. vm_compute. set_solver.
Qed.

Lemma step_inv hooked stopper s s' : step hooked stopper s s' -> inv s -> inv s'.
Proof.
  intros [Hs|Hs] Hi; [by eapply outside_inv|].
  destruct Hs as [choice answer reply b o l b' o' Hs|i answer b o l c p b' p' Hi' Hs]; [by eapply observer_inv|by eapply thread_inv].
Qed.

Lemma reachable_inv hooked stopper s : reachable hooked stopper s -> inv s.
Proof.
  intros (inherited & parent & now & deadline & Hr). pose proof (armed_inv hooked inherited parent now deadline) as Hi.
  induction Hr as [|s1 s2 s3 Hs _ IH]; [done|]. apply IH. by eapply step_inv.
Qed.

(** ** Consequences of the arbiter *)
Definition isPrepare (x : time * occurrence) : bool := match x.2 with PrepareBudget _ => true | _ => false end.

(** How many stops may still be prepared. *)
Definition preparesLeft (s : status) : nat := match s with Open | Expired => 1 | _ => 0 end.

Lemma arbitrate_none l : arbitrate None l = None.
Proof. induction l; [done|]. unfold arbitrate in *. by cbn. Qed.

Lemma arbitrate_prepares l s s' : arbitrate (Some s) l = Some s' ->
  (length (List.filter isPrepare l) + preparesLeft s' <= preparesLeft s)%nat.
Proof.
  revert s. induction l as [|[t x] l IH]; intros s H; [injection H as <-; cbn; lia|].
  change (arbitrate (arbiter s x) l = Some s') in H. destruct (arbiter s x) as [s1|] eqn:E; [|by rewrite arbitrate_none in H].
  apply IH in H. destruct x as [heard name|d| |]; cbn [List.filter isPrepare snd length] in *.
  - cbn in E. repeat case_match; simplify_eq; cbn in *; lia.
  - cbn in E. destruct s; simplify_eq; cbn in *; lia.
  - cbn in E. destruct s; simplify_eq; cbn in *; lia.
  - cbn in E. simplify_eq. lia.
Qed.

(** C24: The budget owner is linearizable.  In every execution, with any number of
    goroutines that make any of the calls of the code (the authorization of a delivery to
    the provider, which no hook hears, included), any timing of the timer and of the
    scheduler and any outcome of the external calls, what happens follows the arbiter:
    work is authorized only before the deadline and before it is observed, at most one
    stop is prepared and only for an observed deadline, and completion is final and never
    overtakes the preparation.  A start callback is only called, and [authorizeAndStart]
    only returns nil, after a start was authorized; [complete] returns with the work
    completed. *)
Theorem budget_arbitration hooked stopper s : reachable hooked stopper s ->
  let b := s_owner s in
  arbitrate (Some Open) (b_log b) = Some (status_of b) /\
  Forall (timed (b_deadline b)) (b_log b) /\
  (length (List.filter isPrepare (b_log b)) <= 1)%nat /\
  (forall hooked ran err, (AuthorizeAndStart hooked, Returned ran err) ∈ s_threads s ->
     (ran = true -> authorizedStart b) /\ (err = None -> ran = true)) /\
  (forall hooked ran err, (Complete hooked, Returned ran err) ∈ s_threads s -> err = None /\ b_completed b = true).
Proof.
  intros Hr. destruct (reachable_inv _ _ _ Hr) as [H HT _ _ _ _ _]. cbn zeta. rewrite Forall_forall in HT. split_and!.
  - apply H.
  - apply H.
  - pose proof (arbitrate_prepares _ _ _ (core_run _ H)) as Hle. cbn in Hle. lia.
  - intros h ran err Hin. exact (HT _ Hin).
  - intros h ran err Hin. destruct (HT _ Hin) as (_ & ? & ?). done.
Qed.

(** ** Every call returns *)
Definition pcRank (prepared : bool) (t : call * pc) : nat :=
  match t with
  | (_, Returned _ _) => 0
  | (Complete _, Entry) => if prepared then 1 else 3
  | (Complete _, _) => 2
  | (Await, _) => 1
  | (Authorize _ _, Entry) => 3
  | (AuthorizeAndStart _, Entry) => 4
  | (_, AtAuthorize) => 3
  | (_, Waking) | (_, Reserved) => 2
  | _ => 1
  end.

Definition observerRank (o : observer) : nat :=
  match o with
  | Selecting => 5 | Preparing => 4 | Recording _ _ => 3 | Requesting => 2 | RecordingRequest _ => 1 | Finished => 0
  end.

(** A bound on the steps that the goroutines can still make. *)
Definition measure (s : system) : nat :=
  observerRank (s_observer s) + sum_list (map (pcRank (b_prepared (s_owner s))) (s_threads s)).

Lemma sum_insert (f : call * pc -> nat) l i t t' : l !! i = Some t -> (f t' < f t)%nat ->
  (sum_list (map f (<[i := t']> l)) < sum_list (map f l))%nat.
Proof.
  revert i. induction l as [|x l IH]; intros [|i] Hi Hlt; cbn in *; [done..| |].
  - simplify_eq. lia.
  - apply Nat.add_lt_mono_l. exact (IH i Hi Hlt).
Qed.

Lemma sum_prepared l (p p' : bool) : (p = true -> p' = true) -> (sum_list (map (pcRank p') l) <= sum_list (map (pcRank p) l))%nat.
Proof.
  intros Hp. induction l as [|[c pc0] l IH]; cbn; [lia|]. destruct c, pc0; cbn; try lia. destruct p, p'; try lia; by specialize (Hp eq_refl).
Qed.

Lemma threadStep_decreases answer b c p b' p' : core b -> threadOK b (c, p) -> threadStep answer b c p = Some (b', p') ->
  b_prepared b' = b_prepared b /\ (pcRank (b_prepared b) (c, p') < pcRank (b_prepared b) (c, p))%nat.
Proof.
  intros H Ht Hs. destruct (threadStep_spec _ _ _ _ _ _ H Ht Hs) as (H1 & _ & H3 & _ & _). split; [done|].
  destruct c as [hooked event|hooked|hooked|], p; cbn in Ht, Hs; try done.
  - destruct (authorize hooked event b) as [[|e|[|]] b2]; simplify_eq; cbn; lia.
  - simplify_eq. cbn. lia.
  - destruct (b_prepared b); simplify_eq. cbn. lia.
  - destruct (reserveStart hooked b) as [[[|e|n]|] b2]; simplify_eq; cbn; lia.
  - destruct (authorize hooked startAuthorized b) as [[|e|[|]] b2]; simplify_eq; cbn; lia.
  - simplify_eq. cbn. lia.
  - destruct (b_prepared b); simplify_eq. cbn. lia.
  - simplify_eq. cbn. lia.
  - simplify_eq. cbn. lia.
  - destruct (complete_core hooked b H) as (_ & _ & Hp & Hd). destruct (complete hooked b) as [[|] b2]; simplify_eq; cbn; [by destruct (b_prepared b); lia|].
    cbn in Hd, Hp. destruct Hd as (_ & Hp2 & _). rewrite <- Hp, Hp2. lia.
  - destruct (b_prepared b); simplify_eq. cbn. lia.
  - destruct (b_done b); simplify_eq. cbn. lia.
Qed.

Lemma observerStep_decreases hooked stopper choice answer reply b o b' o' : observerStep hooked stopper choice answer reply b o = Some (b', o') ->
  (observerRank o' < observerRank o)%nat /\ (b_prepared b = true -> b_prepared b' = true).
Proof.
  destruct o as [| |[|] err| |err|]; cbn; intros Hs; simplify_eq; cbn; try (split; [lia|]).
  - destruct choice; [destruct (b_cancelled b)|destruct (b_timer b)|destruct (b_wake b)]; simplify_eq; cbn; by split; [lia|destruct b].
  - unfold prepareExpiry in Hs. destruct (b_completed b || b_prepared b); [by simplify_eq; cbn; split; [lia|]|].
    destruct stopper, answer as [request [e|]]; cbn in Hs; simplify_eq; cbn; split; try lia; by destruct b.
  - destruct err; by destruct b.
  - destruct err; by destruct b.
  - done.
  - destruct err; by destruct b.
Qed.

Lemma internal_decreases hooked stopper s s' : inv s -> internal hooked stopper s s' -> (measure s' < measure s)%nat.
Proof.
  intros Hinv Hint. destruct Hint as [choice answer reply b o l b' o' Hs|i answer b o l c p b' p' Hi Hs];
    destruct Hinv as [H HT _ _ _ _ _]; unfold measure; cbn [s_owner s_observer s_threads] in *.
  - apply observerStep_decreases in Hs as [Hlt Hp]. pose proof (sum_prepared l _ _ Hp). lia.
  - pose proof (Forall_lookup_1 _ _ _ _ HT Hi) as Hok. destruct (threadStep_decreases _ _ _ _ _ _ H Hok Hs) as [Hp Hlt].
    rewrite Hp. pose proof (sum_insert (pcRank (b_prepared b)) l i (c, p) (c, p') Hi Hlt). lia.
Qed.

(** Executions without new calls, by the number of steps of the goroutines. *)
Inductive execution (hooked stopper : bool) : nat -> system -> system -> Prop :=
| ex_nil s : execution hooked stopper 0 s s
| ex_internal n s s1 s' : internal hooked stopper s s1 -> execution hooked stopper n s1 s' -> execution hooked stopper (S n) s s'
| ex_outside n s s1 s' : outside s s1 -> length (s_threads s1) = length (s_threads s) -> execution hooked stopper n s1 s' ->
    execution hooked stopper n s s'.

Lemma outside_measure s s' : outside s s' -> length (s_threads s') = length (s_threads s) -> measure s' = measure s.
Proof.
  intros [b o l now Hn|b o l Ht Hl|b o l e|b o l c Hc] Hlen; cbn in *; [by destruct b..|].
  rewrite length_app in Hlen. cbn in Hlen. lia.
Qed.

Lemma execution_bounded hooked stopper n s s' : execution hooked stopper n s s' -> inv s -> (n + measure s' <= measure s)%nat /\ inv s'.
Proof.
  induction 1 as [s|n s s1 s' Hi _ IH|n s s1 s' Ho Hl _ IH]; intros H; [by split; [lia|]| |].
  - destruct (IH ltac:(eapply step_inv; [by right|done])) as [Hle Hinv]. pose proof (internal_decreases _ _ _ _ H Hi). split; [lia|done].
  - destruct (IH ltac:(by eapply outside_inv)) as [Hle Hinv]. rewrite (outside_measure _ _ Ho Hl) in Hle. done.
Qed.

(** A call that has returned, or awaits the observer of an owner that is still armed. *)
Definition settled (b : budgetOwner) (t : call * pc) : Prop :=
  (exists ran err, t.2 = Returned ran err) \/ t = (Await, Entry) /\ b_completed b = false.

Lemma thread_enabled hooked stopper i b o l c p b' p' : l !! i = Some (c, p) -> threadStep None b c p = Some (b', p') ->
  exists s', internal hooked stopper (MkSystem b o l) s'.
Proof. intros Hi Hs. eexists. by eapply in_thread. Qed.

Lemma observer_enabled hooked stopper b o l : core b ->
  o = Selecting -> b_completed b = true \/ b_wake b = true -> exists s', internal hooked stopper (MkSystem b o l) s'.
Proof.
  intros H -> [Hc|Hw].
  - eexists. eapply (in_observer _ _ OnCancel (false, None) None). cbn. by rewrite (core_cancelled b H), Hc.
  - eexists. eapply (in_observer _ _ OnWake (false, None) None). cbn. by rewrite Hw.
Qed.

Lemma busy_enabled hooked stopper b o l : o <> Selecting -> o <> Finished -> exists s', internal hooked stopper (MkSystem b o l) s'.
Proof.
  intros Hs Hf. assert (exists b' o', observerStep hooked stopper OnCancel (false, None) None b o = Some (b', o')) as (b' & o' & E).
  { destruct o as [| |[|] err| |err|]; cbn; eauto; try done. destruct (prepareExpiry _ _ _) as [[? ?] ?]. eauto. }
  eexists. by eapply in_observer.
Qed.

(** A goroutine that waits for the preparation is not alone. *)
Lemma waiting_enabled hooked stopper b o l : inv (MkSystem b o l) -> b_expired b = true -> b_prepared b = false ->
  exists s', internal hooked stopper (MkSystem b o l) s'.
Proof.
  intros [H HT Hl Ho Hb Hw Hd] Hx Hp. cbn [s_owner s_observer s_threads] in *.
  destruct (b_completed b) eqn:Ec; [by rewrite (core_completed b H Ec Hx) in Hp|].
  destruct (Hb eq_refl Hp) as [-> | ->]; [|by apply busy_enabled].
  destruct (Hw Hx Hp) as [Hwk|[?|[c Hc]]]; [by apply observer_enabled; [..|right]|done|].
  apply list_elem_of_lookup in Hc as [i Hi]. pose proof (Forall_lookup_1 _ _ _ _ HT Hi) as Hok.
  destruct c; cbn in Hok; try done; by eapply thread_enabled.
Qed.

Lemma stuck_settled hooked stopper s : inv s -> (forall s', ~ internal hooked stopper s s') -> Forall (settled (s_owner s)) (s_threads s).
Proof.
  destruct s as [b o l]. intros Hinv Hstuck. pose proof Hinv as [H HT Hl Ho Hb Hw Hd]. cbn [s_owner s_observer s_threads] in *.
  assert (forall P : Prop, (exists s', internal hooked stopper (MkSystem b o l) s') -> P) as Hno by (intros P [s' Hs']; by destruct (Hstuck s')).
  apply Forall_lookup_2. intros i [c p] Hi. pose proof (Forall_lookup_1 _ _ _ _ HT Hi) as Hok.
  assert (forall b' p', threadStep None b c p = Some (b', p') -> settled b (c, p)) as Hen.
  { intros b' p' Hs. apply Hno. by eapply thread_enabled. }
  destruct p; [| | | | | |by left; eauto].
  - destruct c as [h event|h|h|]; cbn in Hen, Hok.
    + destruct (authorize h event b). by eapply Hen.
    + pose proof (reserve_core h b H) as Hr. destruct (reserveStart h b) as [[[| |]|] ?]; cbn in Hr; try done; by eapply Hen.
    + destruct (complete h b). by eapply Hen.
    + destruct (b_done b) eqn:E; [by eapply Hen|]. right. split; [done|]. destruct (b_completed b) eqn:Ec; [|done]. apply Hno.
      assert (o = Selecting \/ o <> Selecting) as [->|Hs] by (by destruct o; [left|right..]); [by apply observer_enabled; [..|left]|].
      apply busy_enabled; [done|]. intros ->. by specialize (Hd eq_refl).
  - destruct c as [h event|h|h|]; cbn in Hen, Hok; try done. destruct (authorize h startAuthorized b). by eapply Hen.
  - destruct c; cbn in Hen, Hok; try done; by eapply Hen.
  - assert (b_expired b = true) as Hx by (by destruct c).
    destruct (b_prepared b) eqn:Ep; [|by apply Hno, waiting_enabled].
    destruct c; cbn in Hen, Hok; rewrite ?Ep in Hen; try done; by eapply Hen.
  - destruct c; cbn in Hen, Hok; try done; by eapply Hen.
  - destruct c; cbn in Hen, Hok; try done; by eapply Hen.
Qed.

(** C25: Every call returns.  From any reachable state, the goroutines make a bounded
    number of steps however they are scheduled and whatever happens outside, and when
    none of them can step any more every call of [authorize], [authorizeAndStart] and
    [complete] has returned, and every call of [await] too once the work is completed:
    the mutex, the wake channel, [preparedDone] and the observer never deadlock. *)
Theorem budget_calls_return hooked stopper s n s' : reachable hooked stopper s -> execution hooked stopper n s s' ->
  (n <= measure s)%nat /\ ((forall s'', ~ internal hooked stopper s' s'') -> Forall (settled (s_owner s')) (s_threads s')).
Proof.
  intros Hr He. destruct (execution_bounded _ _ _ _ _ He (reachable_inv _ _ _ Hr)) as [Hle Hinv]. split; [lia|]. by apply stuck_settled.
Qed.

(** ** An execution *)
(** A scheduler that performs given steps. *)
Inductive action : Set :=
| Tick (now : time) | Fire | Call (c : call) | Observe (choice : branch) (answer : bool * option error) (reply : option error)
| Run (i : nat) (answer : option error).

Definition perform1 (hooked stopper : bool) (s : system) (a : action) : option system :=
  let 'MkSystem b o l := s in
  match a with
  | Tick now => if nanos (b_now b) <=? nanos now then Some (MkSystem (set_now now b) o l) else None
  | Fire => match b_timer b with Armed => if late b then Some (MkSystem (set_timer Fired b) o l) else None | _ => None end
  | Call c => if decide (calls c) then Some (MkSystem b o (l ++ [(c, Entry)])) else None
  | Observe choice answer reply => '(b', o') ← observerStep hooked stopper choice answer reply b o; Some (MkSystem b' o' l)
  | Run i answer => '(c, p) ← l !! i; '(b', p') ← threadStep answer b c p; Some (MkSystem b' o (<[i := (c, p')]> l))
  end.

Fixpoint perform (hooked stopper : bool) (s : system) (l : list action) : option system :=
  match l with [] => Some s | a :: l => s1 ← perform1 hooked stopper s a; perform hooked stopper s1 l end.

Lemma perform1_step hooked stopper s a s' : perform1 hooked stopper s a = Some s' -> step hooked stopper s s'.
Proof.
  destruct s as [b o l], a as [now| |c|choice answer reply|i answer]; cbn; intros H.
  - destruct (nanos (b_now b) <=? nanos now) eqn:E; simplify_eq. left. apply out_tick. by apply Z.leb_le.
  - destruct (b_timer b) eqn:E, (late b) eqn:El; simplify_eq. left. by apply out_fire.
  - case_decide; simplify_eq. left. by apply out_call.
  - destruct (observerStep _ _ _ _ _ _) as [[b' o']|] eqn:E; cbn in H; simplify_eq. right. by eapply in_observer.
  - destruct (l !! i) as [[c p]|] eqn:Ei; cbn in H; [|done]. destruct (threadStep _ _ _ _) as [[b' p']|] eqn:E; cbn in H; simplify_eq.
    right. by eapply in_thread.
Qed.

Lemma perform_steps hooked stopper l s s' : perform hooked stopper s l = Some s' -> rtc (step hooked stopper) s s'.
Proof.
  revert s. induction l as [|a l IH]; cbn; intros s H; [by simplify_eq|]. destruct (perform1 hooked stopper s a) as [s1|] eqn:E; cbn in H; [|done].
  eapply rtc_l; [by eapply perform1_step|by apply IH].
Qed.

(** A start is authorized and a delivery too, the deadline passes, and the next delivery
    observes it without being heard: the observer prepares a stop, and the completion
    waits for that. *)
Definition exampleDeadline : time := MkTime 10 UTC.
Definition exampleActions : list action :=
  [Call (AuthorizeAndStart true); Call (Complete true); Call (Authorize false deliveryAuthorized); Call (Authorize false deliveryAuthorized);
   Run 0 None; Run 0 None; Run 2 None; Tick exampleDeadline; Run 3 None; Run 3 None; Run 1 None; Observe OnWake (true, None) None;
   Run 0 None; Observe OnWake (true, None) None; Run 1 None; Run 1 None; Run 3 None].
Definition exampleEnd : system := Eval vm_compute in
  let start := armed true None None (MkTime 0 UTC) exampleDeadline in default start (perform true true start exampleActions).

Lemma exampleEnd_reachable : reachable true true exampleEnd.
Proof.
  exists None, None, (MkTime 0 UTC), exampleDeadline. apply (perform_steps true true exampleActions). vm_compute. reflexivity.
Qed.

Lemma budget_arbitration_witness :
  reachable true true exampleEnd /\
  map snd (b_log (s_owner exampleEnd)) =
    [Emitted true "timer-armed"; Emitted true startAuthorized; StartCalled; Emitted false deliveryAuthorized; Emitted false "deadline-observed";
     PrepareBudget exampleDeadline; PreparedClosed; Emitted true "completion-observed"; Emitted true "timer-disarmed"]%string /\
  s_threads exampleEnd =
    [(AuthorizeAndStart true, Returned true None); (Complete true, Returned false None); (Authorize false deliveryAuthorized, Returned false None);
     (Authorize false deliveryAuthorized, Returned false (Some errBudgetExpiredBeforeStart))] /\
  (length (List.filter isPrepare (b_log (s_owner exampleEnd))) <= 1)%nat.
Proof.
  pose proof exampleEnd_reachable as H.
  split; [exact H|]. split; [reflexivity|]. split; [reflexivity|]. apply (budget_arbitration true true exampleEnd H).
Defined.

Lemma budget_calls_return_witness :
  reachable true true exampleEnd /\ execution true true 0 exampleEnd exampleEnd /\ (0 <= measure exampleEnd)%nat.
Proof.
  pose proof exampleEnd_reachable as H.
  split; [exact H|]. split; [constructor|]. exact (proj1 (budget_calls_return true true exampleEnd 0 exampleEnd H (ex_nil true true exampleEnd))).
Defined.
