(* ===== verification/TaskConfiguration.v ===== *)
(** * Task requests and plans

    [internal/task]: the request record and its normalization ([configuration.go],
    [request_types.go], [workspace.go]), the effective policy ([effective_policy.go]),
    the declared launch files ([launch_files.go]), the supervisor coordinates and the
    team context ([team_selection.go]). *)
From S2P Require Import Prelude GoErrors GoTime GoText GoFloat TaskTypes GoPath Encoding GoTimestamp TaskLifetime.
From Stdlib Require Import Ascii.
#[local] Open Scope Z_scope.

(** ** Records *)
Record PredicateRef : Set := MkPredicateRef { pr_Adapter : string; pr_Mode : string; pr_Version : string; pr_SHA256 : string }.

Record PolicySourceDigest : Set := MkSource { ps_Path : string; ps_Kind : string; ps_Present : bool; ps_SHA256 : string }.

Record PolicyDetails : Set := MkPolicy {
  pd_ProfileRevision : string; pd_RuntimeSHA256 : string; pd_Workspace : string;
  pd_WritableRoots : list string; pd_Sources : list PolicySourceDigest }.

Record EffectiveConfig : Set := MkEffectiveConfig {
  ec_Containment : string; ec_Approval : string; ec_Digest : string; ec_Policy : option PolicyDetails }.

Record PriorSession : Set := MkPriorSession { ps_Provider : string; ps_ConversationID : string; ps_PredecessorTaskID : string }.

Record SupervisorRef : Set := MkSupervisorRef {
  sr_ClientExecutable : string; sr_ClientSHA256 : string; sr_DaemonExecutable : string; sr_DaemonSHA256 : string;
  sr_ExecutableIdentity : string; sr_ResolutionOS : string; sr_ResolutionHome : string; sr_ResolutionDataLocal : string;
  sr_ResolutionConfig : string; sr_ResolutionRuntime : string; sr_ResolutionUsername : string; sr_ResolutionCwd : string;
  sr_ResolvedConfigSHA256 : string; sr_Endpoint : string; sr_ConfigPath : string; sr_ConfigDigest : string;
  sr_ObservedVersion : string }.

Record WorkspaceBinding : Set := MkBinding { wb_ID : string; wb_Reservation : Z; wb_RequestSHA256 : string; wb_BudgetNanos : Z }.

Record TeamIntent : Set := MkTeamIntent { ti_Provider : string; ti_Auto : bool; ti_Config : TaskConfig }.

Record TeamRoleContext : Set := MkTeamRole { rc_ID : string; rc_Name : string; rc_Responsibility : string }.

Record TeamContext : Set := MkTeamContext {
  tx_SchemaVersion : Z; tx_Target : TeamTarget; tx_TeamRevision : Z; tx_TeamName : string; tx_TeamPurpose : string;
  tx_MemberName : string; tx_Roles : list TeamRoleContext; tx_Intent : TeamIntent }.

Record TaskRecord : Set := MkTaskRecord {
  tk_SchemaVersion : Z; tk_RootID : string; tk_TaskID : string; tk_Provider : string; tk_Mode : string;
  tk_CanonicalCwd : string; tk_RequestedConfig : TaskConfig; tk_BudgetNanos : Z; tk_PriorSession : option PriorSession;
  tk_BriefSHA256 : string; tk_BriefLength : Z; tk_Workspace : option WorkspaceBinding; tk_Team : option TeamContext }.

Record InputFile : Set := MkInputFile { if_Name : string; if_ArgumentIndex : Z; if_Content : string }.

Record OutputArtifact : Set := MkOutputArtifact { oa_Name : string; oa_ArgumentIndex : Z }.

#[global] Instance PredicateRef_eq_dec : EqDecision PredicateRef. Proof. solve_decision. Defined.
#[global] Instance PolicySourceDigest_eq_dec : EqDecision PolicySourceDigest. Proof. solve_decision. Defined.
#[global] Instance PolicyDetails_eq_dec : EqDecision PolicyDetails. Proof. solve_decision. Defined.
#[global] Instance EffectiveConfig_eq_dec : EqDecision EffectiveConfig. Proof. solve_decision. Defined.
#[global] Instance PriorSession_eq_dec : EqDecision PriorSession. Proof. solve_decision. Defined.
#[global] Instance SupervisorRef_eq_dec : EqDecision SupervisorRef. Proof. solve_decision. Defined.
#[global] Instance WorkspaceBinding_eq_dec : EqDecision WorkspaceBinding. Proof. solve_decision. Defined.
#[global] Instance TeamIntent_eq_dec : EqDecision TeamIntent. Proof. solve_decision. Defined.
#[global] Instance TeamRoleContext_eq_dec : EqDecision TeamRoleContext. Proof. solve_decision. Defined.
#[global] Instance TeamContext_eq_dec : EqDecision TeamContext. Proof. solve_decision. Defined.
#[global] Instance TaskRecord_eq_dec : EqDecision TaskRecord. Proof. solve_decision. Defined.
#[global] Instance InputFile_eq_dec : EqDecision InputFile. Proof. solve_decision. Defined.
#[global] Instance OutputArtifact_eq_dec : EqDecision OutputArtifact. Proof. solve_decision. Defined.

(** [PredicateRef.Equal] *)
Definition PredicateEqual (p other : PredicateRef) : bool :=
  eqs (pr_Adapter p) (pr_Adapter other) && eqs (pr_Mode p) (pr_Mode other) && eqs (pr_Version p) (pr_Version other) &&
  eqs (pr_SHA256 p) (pr_SHA256 other).

Definition SameSupervisorIdentity (left right : SupervisorRef) : bool :=
  eqs (sr_ConfigPath left) (sr_ConfigPath right) && eqs (sr_ConfigDigest left) (sr_ConfigDigest right) &&
  eqs (sr_ResolvedConfigSHA256 left) (sr_ResolvedConfigSHA256 right) && eqs (sr_Endpoint left) (sr_Endpoint right).

(** [for index, value := range values { if err := check(...); err != nil { return err } }] *)
Fixpoint each {A} (check : A -> result unit) (l : list A) : result unit :=
  match l with [] => Ok tt | x :: rest => check x ;; each check rest end.

(** The same loop where the check also reads the previous element. *)
Fixpoint eachAfter {A} (check : option A -> A -> result unit) (previous : option A) (l : list A) : result unit :=
  match l with [] => Ok tt | x :: rest => check previous x ;; eachAfter check (Some x) rest end.

(** A path that is absolute and already clean. *)
Definition cleanAbsolute (value : string) : bool := IsAbs value && eqs (Clean value) value.

(** ** Effective policy *)
Definition MaxPolicySources : Z := 512.
Definition MaxPolicyWritableRoots : Z := 64.

Definition validatePolicyText (value field : string) (required : bool) : result unit :=
  fail_if (negb (ValidString value)) (New "must be valid UTF-8") ;;
  fail_if (ContainsByte value "000") (New "must not contain NUL") ;;
  fail_if (required && eqs (TrimSpace value) "") (New "must be nonblank").

Definition validatePolicyPath (value field : string) : result unit :=
  validatePolicyText value field true ;;
  fail_if (negb (cleanAbsolute value)) (New "must be a clean absolute path").

Definition validateWritableRoots (roots : list string) : result unit :=
  eachAfter (fun previous root =>
    wrap_err (Errorf "policy writable root") (validatePolicyPath root "policy writable root") ;;
    fail_if (match previous with Some p => negb (text_after root p) | None => false end)
      (New "policy writable_roots must be strictly ordered and unique")) None roots.

Definition sourceIdentityAfter (previous current : PolicySourceDigest) : bool :=
  text_after (ps_Path current) (ps_Path previous) ||
  (eqs (ps_Path current) (ps_Path previous) && text_after (ps_Kind current) (ps_Kind previous)).

Definition validatePolicySources (sources : list PolicySourceDigest) : result unit :=
  eachAfter (fun previous source =>
    wrap_err (Errorf "policy source") (validatePolicyPath (ps_Path source) "policy source path") ;;
    wrap_err (Errorf "policy source") (validatePolicyText (ps_Kind source) "policy source kind" true) ;;
    fail_if (match previous with Some p => negb (sourceIdentityAfter p source) | None => false end)
      (New "policy sources must be strictly ordered and unique by path and kind") ;;
    if ps_Present source then wrap_err (Errorf "policy source SHA-256") (ValidateSHA256 (ps_SHA256 source))
    else fail_if (negb (eqs (ps_SHA256 source) "")) (New "policy source absent source must have an empty SHA-256")) None sources.

Definition validatePolicyDetails (policy : PolicyDetails) : result unit :=
  validatePolicyText (pd_ProfileRevision policy) "policy profile revision" true ;;
  (if negb (eqs (pd_RuntimeSHA256 policy) "") then wrap_err (Errorf "policy runtime SHA-256") (ValidateSHA256 (pd_RuntimeSHA256 policy))
   else Ok tt) ;;
  validatePolicyPath (pd_Workspace policy) "policy workspace" ;;
  fail_if (MaxPolicyWritableRoots <? Z.of_nat (length (pd_WritableRoots policy)))
    (New "policy writable_roots exceeds the maximum permitted count") ;;
  validateWritableRoots (pd_WritableRoots policy) ;;
  fail_if (MaxPolicySources <? Z.of_nat (length (pd_Sources policy))) (New "policy sources exceeds the maximum permitted count") ;;
  validatePolicySources (pd_Sources policy).

Definition ValidateEffectiveConfig (config : EffectiveConfig) : result unit :=
  wrap_err (Errorf "effective config digest") (ValidateSHA256 (ec_Digest config)) ;;
  match ec_Policy config with None => Ok tt | Some policy => validatePolicyDetails policy end.

(** [slices.Equal] *)
Definition slicesEqual {A} `{EqDecision A} (a b : list A) : bool := bool_decide (a = b).

Definition comparePolicyDetails (a b : PolicyDetails) : bool :=
  eqs (pd_ProfileRevision a) (pd_ProfileRevision b) && eqs (pd_RuntimeSHA256 a) (pd_RuntimeSHA256 b) &&
  eqs (pd_Workspace a) (pd_Workspace b) && slicesEqual (pd_WritableRoots a) (pd_WritableRoots b) &&
  slicesEqual (pd_Sources a) (pd_Sources b).

Definition CompareEffectiveConfigs (a b : EffectiveConfig) : bool :=
  if negb (eqs (ec_Containment a) (ec_Containment b)) || negb (eqs (ec_Approval a) (ec_Approval b)) ||
     negb (eqs (ec_Digest a) (ec_Digest b)) then false
  else match ec_Policy a, ec_Policy b with
       | Some p, Some q => comparePolicyDetails p q
       | None, None => true
       | _, _ => false
       end.

Definition CompareEffectiveConfigContract (a b : EffectiveConfig) : bool :=
  if negb (eqs (ec_Containment a) (ec_Containment b)) || negb (eqs (ec_Approval a) (ec_Approval b)) then false
  else match ec_Policy a, ec_Policy b with
       | Some p, Some q =>
           eqs (pd_ProfileRevision p) (pd_ProfileRevision q) && eqs (pd_Workspace p) (pd_Workspace q) &&
           slicesEqual (pd_WritableRoots p) (pd_WritableRoots q) && slicesEqual (pd_Sources p) (pd_Sources q)
       | None, None => eqs (ec_Digest a) (ec_Digest b)
       | _, _ => false
       end.

(** ** Team context *)
Fixpoint validateTeamRolesFrom (seen : list string) (roles : list TeamRoleContext) : result unit :=
  match roles with
  | [] => Ok tt
  | role :: rest =>
      ValidateTeamID (rc_ID role) ;;
      fail_if (existsb (eqs (rc_ID role)) seen || negb (ValidString (rc_Name role)) || eqs (TrimSpace (rc_Name role)) "" ||
               negb (ValidString (rc_Responsibility role)) || eqs (TrimSpace (rc_Responsibility role)) "")
        (Errorf "duplicate or invalid role" (Sentinel task_ErrInvalidTeamSelection)) ;;
      validateTeamRolesFrom (rc_ID role :: seen) rest
  end.

Definition validateTeamRoles (roles : list TeamRoleContext) : result unit := validateTeamRolesFrom [] roles.

Definition teamError (msg : string) : error := Errorf msg (Sentinel task_ErrInvalidTeamSelection).

Definition ValidateTeamContext (context : option TeamContext) : result unit :=
  match context with
  | None => Ok tt
  | Some c =>
      fail_if (negb (tx_SchemaVersion c =? 1) || (tx_TeamRevision c <? 1) || (Z.of_nat (length (tx_Roles c)) =? 0))
        (teamError "invalid version, revision or empty roles") ;;
      ValidateTeamTarget (tx_Target c) true ;;
      each (fun value => fail_if (negb (ValidString value) || eqs (TrimSpace value) "") (teamError "invalid descriptive text"))
        [tx_TeamName c; tx_TeamPurpose c; tx_MemberName c] ;;
      validateTeamRoles (tx_Roles c) ;;
      fail_if (ti_Auto (tx_Intent c) && negb (eqs (ti_Provider (tx_Intent c)) ""))
        (teamError "provider and auto are mutually exclusive") ;;
      (if negb (eqs (ti_Provider (tx_Intent c)) "")
       then wrap_err (fun e => Joined "" [Sentinel task_ErrInvalidTeamSelection; e]) (ValidateProvider (ti_Provider (tx_Intent c)))
       else Ok tt) ;;
      ValidateRequestedOptions (ti_Config (tx_Intent c))
  end.

(** ** Workspace binding *)
Definition sameWorkspaceBinding (first second : option WorkspaceBinding) : bool :=
  match first, second with
  | Some a, Some b => bool_decide (a = b)
  | None, None => true
  | _, _ => false
  end.

Definition validateWorkspaceBinding (binding : option WorkspaceBinding) : result unit :=
  match binding with
  | None => Ok tt
  | Some b =>
      fail_if ((wb_Reservation b =? 0) || (wb_BudgetNanos b <=? 0)) mismatch ;;
      match errors_Join [err_of (ValidateTaskID (wb_ID b)); err_of (ValidateSHA256 (wb_RequestSHA256 b))] with
      | Some e => Err e
      | None => Ok tt
      end
  end.

(** ** The requested configuration *)
Definition normalizedNativeTimeout (provider value : string) (budget : Z) : result string :=
  if eqs value "" then Ok ""%string
  else
    ValidateProvider provider ;;
    duration ← parseNativeTimeout value;
    checkNativeTimeoutBudget duration budget ;;
    Ok (DurationString duration).

Definition validateNativeTimeout (provider : string) (request : TaskConfig) (budget : Z) : result unit :=
  normalized ← normalizedNativeTimeout provider (tc_NativeTimeout request) budget;
  fail_if (negb (eqs normalized (tc_NativeTimeout request))) (New "native timeout must be normalized").

Definition validateRequestedConfig (provider : string) (request : TaskConfig) (mode : string) (budget : Z) : result unit :=
  fail_if (eqs mode "" || eqs (tc_Permission request) "" || negb (eqs (tc_Permission request) mode))
    (New "requested permission must match the explicit task mode") ;;
  ValidateMode mode ;;
  duration ← ParseBudgetForProvider provider (tc_Budget request);
  fail_if (negb (eqs (tc_Budget request) (DurationString duration)) || negb (duration =? budget))
    (New "requested budget must be normalized and match budget_nanos") ;;
  validateModelEffort (tc_Model request) (tc_Effort request) ;;
  ValidateReviewTarget (tc_ReviewTarget request).

Definition with_config (r : TaskRecord) (mode : string) (budget : Z) (c : TaskConfig) : TaskRecord :=
  MkTaskRecord (tk_SchemaVersion r) (tk_RootID r) (tk_TaskID r) (tk_Provider r) mode (tk_CanonicalCwd r) c budget
    (tk_PriorSession r) (tk_BriefSHA256 r) (tk_BriefLength r) (tk_Workspace r) (tk_Team r).

(** [normalizeRequestedConfig] *)
Definition normalizeRequestedConfig (r : TaskRecord) : result TaskRecord :=
  let c := tk_RequestedConfig r in
  let mode := if eqs (tk_Mode r) "" then (if eqs (tc_Permission c) "" then DefaultMode else tc_Permission c) else tk_Mode r in
  let permission := if eqs (tc_Permission c) "" then mode else tc_Permission c in
  let budgetText := if eqs (tc_Budget c) "" && (0 <? tk_BudgetNanos r) then DurationString (tk_BudgetNanos r) else tc_Budget c in
  duration ← ParseBudgetForProvider (tk_Provider r) budgetText;
  fail_if (negb (tk_BudgetNanos r =? 0) && negb (tk_BudgetNanos r =? duration))
    (New "requested budget does not match budget_nanos") ;;
  timeout ← normalizedNativeTimeout (tk_Provider r) (tc_NativeTimeout c) duration;
  let c' := MkTaskConfig (tc_Interactive c) (tc_Model c) (tc_Effort c) permission (DurationString duration) timeout (tc_ReviewTarget c) in
  validateRequestedConfig (tk_Provider r) c' mode duration ;;
  Ok (with_config r mode duration c').

(** [NormalizeRequestedConfig]: the record is replaced only when every check passes. *)
Definition NormalizeRequestedConfig (r : option TaskRecord) : result TaskRecord :=
  match r with
  | None => Err (New "nil task record")
  | Some r =>
      normalized ← normalizeRequestedConfig r;
      ValidateProvider (tk_Provider normalized) ;;
      Ok normalized
  end.

Definition validatePriorSession (r : TaskRecord) : result unit :=
  match tk_PriorSession r with
  | None => Ok tt
  | Some prior =>
      fail_if (negb (eqs (ps_Provider prior) (tk_Provider r)) || negb (nonblank (ps_ConversationID prior)) ||
               eqs (ps_PredecessorTaskID prior) (tk_TaskID r)) (New "invalid prior session binding") ;;
      ValidateTaskID (ps_PredecessorTaskID prior)
  end.

Definition validateTaskConfiguration (r : TaskRecord) : result unit :=
  ValidateProvider (tk_Provider r) ;;
  validateRequestedConfig (tk_Provider r) (tk_RequestedConfig r) (tk_Mode r) (tk_BudgetNanos r) ;;
  validateNativeTimeout (tk_Provider r) (tk_RequestedConfig r) (tk_BudgetNanos r) ;;
  fail_if (negb (IsCanonicalCwd (tk_CanonicalCwd r))) (New "saved task cwd must be a clean absolute path") ;;
  validatePriorSession r.

(** [ValidateTaskRecord] *)
Definition ValidateTaskRecord (r : option TaskRecord) : result unit :=
  match r with
  | None => Err (New "nil task record")
  | Some r =>
      fail_if (negb (tk_SchemaVersion r =? SchemaVersion)) (Errorf "task.json schema" (Sentinel task_ErrUnsupportedSchema)) ;;
      ValidateRootID (tk_RootID r) ;;
      ValidateTaskID (tk_TaskID r) ;;
      validateWorkspaceBinding (tk_Workspace r) ;;
      ValidateTeamContext (tk_Team r) ;;
      validateTaskConfiguration r ;;
      wrap_err (Errorf "task record brief_sha256") (ValidateSHA256 (tk_BriefSHA256 r)) ;;
      fail_if ((tk_BriefLength r <=? 0) || (MaxBriefSize <? tk_BriefLength r)) (New "brief_length must be positive and at most 8 MiB")
  end.

(** ** Predicates and supervisors *)
Definition ValidatePredicateRef (ref : PredicateRef) : result unit :=
  ValidateProvider (pr_Adapter ref) ;;
  fail_if (eqs (pr_Mode ref) "") (New "missing predicate mode") ;;
  ValidateMode (pr_Mode ref) ;;
  fail_if (negb (nonblank (pr_Version ref))) (New "missing predicate version") ;;
  ValidateSHA256 (pr_SHA256 ref).

Definition ExecutableIdentityInstalledPathV1 : string := "installed-path-v1".

(** [ExecutableIdentity.Validate] *)
Definition ValidateExecutableIdentity (identity : string) : result unit :=
  fail_if (negb (eqs identity "" || eqs identity ExecutableIdentityInstalledPathV1)) (Sentinel task_ErrInvalidEnum).

Definition validateInstalledSupervisorRef (ref : SupervisorRef) : result unit :=
  fail_if (negb (eqs (sr_ClientSHA256 ref) "") || negb (eqs (sr_DaemonSHA256 ref) ""))
    (New "installed supervisor identity contains executable digests") ;;
  fail_if (eqs (sr_ClientExecutable ref) "") (New "missing saved supervisor client executable") ;;
  ValidateSHA256 (sr_ResolvedConfigSHA256 ref).

Definition validateResolutionPath (value : string) : result unit :=
  fail_if (negb (cleanAbsolute value) || ContainsByte value "000") (New "supervisor resolution must be a clean absolute path").

Definition validateResolutionPathOptional (value : string) : result unit :=
  if eqs value "" then Ok tt else validateResolutionPath value.

Definition validateLegacySupervisorResolution (ref : SupervisorRef) : result unit :=
  fail_if (negb (eqs (sr_ResolutionHome ref) "") || negb (eqs (sr_ResolutionDataLocal ref) "") ||
           negb (eqs (sr_ResolutionConfig ref) "") || negb (eqs (sr_ResolutionRuntime ref) "") ||
           negb (eqs (sr_ResolutionUsername ref) "")) (New "supervisor resolution is incomplete") ;;
  validateResolutionPathOptional (sr_ResolutionCwd ref).

Definition validateRequiredResolutionPaths (ref : SupervisorRef) : result unit :=
  each validateResolutionPath [sr_ResolutionHome ref; sr_ResolutionDataLocal ref; sr_ResolutionConfig ref].

Definition validateSupervisorResolution (ref : SupervisorRef) : result unit :=
  if eqs (sr_ResolutionOS ref) "" then validateLegacySupervisorResolution ref
  else
    fail_if (negb (eqs (sr_ResolutionOS ref) "linux") && negb (eqs (sr_ResolutionOS ref) "darwin"))
      (New "supervisor resolution has an unsupported operating system") ;;
    validateRequiredResolutionPaths ref ;;
    validateResolutionPathOptional (sr_ResolutionCwd ref) ;;
    validateResolutionPathOptional (sr_ResolutionRuntime ref) ;;
    fail_if (eqs (sr_ResolutionUsername ref) "" || ContainsByte (sr_ResolutionUsername ref) "/" ||
             ContainsByte (sr_ResolutionUsername ref) "\" || ContainsByte (sr_ResolutionUsername ref) "000")
      (New "supervisor resolution username is invalid").

Definition validateOptionalSupervisorExecutable (value : string) : result unit :=
  if eqs value "" then Ok tt
  else fail_if (negb (nonblank value) || negb (cleanAbsolute value)) (New "supervisor executable must be a clean absolute path").

Definition ValidateSupervisorRef (ref : SupervisorRef) : result unit :=
  ValidateExecutableIdentity (sr_ExecutableIdentity ref) ;;
  (if eqs (sr_ExecutableIdentity ref) ExecutableIdentityInstalledPathV1 then validateInstalledSupervisorRef ref else Ok tt) ;;
  each validateOptionalSupervisorExecutable [sr_ClientExecutable ref; sr_DaemonExecutable ref] ;;
  each (fun digest => if negb (eqs digest "") then ValidateSHA256 digest else Ok tt)
    [sr_ClientSHA256 ref; sr_DaemonSHA256 ref; sr_ResolvedConfigSHA256 ref] ;;
  validateSupervisorResolution ref ;;
  fail_if (negb (cleanAbsolute (sr_ConfigPath ref))) (New "supervisor config path must be canonical and absolute") ;;
  fail_if (negb (nonblank (sr_Endpoint ref)) || negb (nonblank (sr_ObservedVersion ref))) (New "missing supervisor endpoint or version") ;;
  ValidateSHA256 (sr_ConfigDigest ref).

Definition ValidateFreshSupervisorRef (ref : SupervisorRef) : result unit :=
  ValidateSupervisorRef ref ;;
  if eqs (sr_ExecutableIdentity ref) ExecutableIdentityInstalledPathV1 then Ok tt
  else
    fail_if (eqs (sr_ClientExecutable ref) "") (New "missing saved supervisor client executable") ;;
    ValidateSHA256 (sr_ClientSHA256 ref) ;;
    ValidateSHA256 (sr_ResolvedConfigSHA256 ref).

(** ** Environments *)
Fixpoint validateEnvironmentFrom (seen : list string) (values : list string) : result unit :=
  match values with
  | [] => Ok tt
  | entry :: rest =>
      let '(key, value, ok) := Cut entry "=" in
      fail_if (negb ok || eqs key "" || ContainsByte key "000" || ContainsByte value "000")
        (New "environment entries must be nonempty key-value pairs without NUL bytes") ;;
      fail_if (existsb (eqs key) seen) (New "duplicate environment key") ;;
      validateEnvironmentFrom (key :: seen) rest
  end.

Definition ValidateEnvironment (values : list string) : result unit := validateEnvironmentFrom [] values.

Definition SelectEnvironment (base values : list string) (recorded : bool) : result (list string) :=
  if (Z.of_nat (length values) =? 0) && negb recorded then Ok base
  else ValidateEnvironment values ;; Ok values.

(** ** Launch files *)
Definition MaxOutputArtifacts : Z := 16.
Definition MaxInputFiles : Z := 16.
Definition MaxInputBytes : Z := 64 * 1024.
Definition OutputWriterProcessExitEOF : string := "process-exit-eof-v1".

(** [artifactNamePattern] *)
Definition artifactNamePattern (name : string) : bool :=
  match bytes name with
  | [] => false
  | c :: rest =>
      (isDigit c || isLower c) && (Z.of_nat (length rest) <=? 127) &&
      forallb (fun c => isDigit c || isLower c || bool_decide (c ∈ ["."; "_"; "-"]%char)) rest
  end.

Definition ValidateArtifactName (name : string) : result unit :=
  fail_if (negb (artifactNamePattern name) || eqs name "stdout" || eqs name "stderr" || HasPrefix name "stage.")
    (New "invalid task artifact name").

(** [strings.Compare] on the names *)
Definition nameOrder {A} (name : A -> string) (a b : A) : Prop := String.leb (name a) (name b) = true.
#[global] Instance nameOrder_dec {A} (name : A -> string) : RelDecision (nameOrder name).
Proof. intros a b. unfold nameOrder. apply _. Defined.

(** The check of adjacent names after sorting. *)
Definition distinctNames {A} (name : A -> string) (sorted : list A) : result unit :=
  eachAfter (fun previous x => fail_if (match previous with Some p => eqs (name p) (name x) | None => false end)
                                 (New "duplicate name")) None sorted.

(** The validation loop of [NormalizeInputFiles], with its total of content bytes. *)
Fixpoint inputFilesFrom (total : Z) (files : list InputFile) : result unit :=
  match files with
  | [] => Ok tt
  | file :: rest =>
      ValidateArtifactName (if_Name file) ;;
      fail_if (if_ArgumentIndex file <? 0) (New "negative argument index") ;;
      fail_if (negb (ValidString (if_Content file))) (New "invalid UTF-8") ;;
      let total := total + len (if_Content file) in
      fail_if (MaxInputBytes <? total) (New "input file content exceeds bytes") ;;
      inputFilesFrom total rest
  end.

Definition NormalizeInputFiles (files : list InputFile) : result (list InputFile) :=
  fail_if (MaxInputFiles <? Z.of_nat (length files)) (New "input file count exceeds") ;;
  inputFilesFrom 0 files ;;
  let sorted := merge_sort (nameOrder if_Name) files in
  distinctNames if_Name sorted ;; Ok sorted.

Definition NormalizeOutputArtifacts (artifacts : list OutputArtifact) : result (list OutputArtifact) :=
  fail_if (MaxOutputArtifacts <? Z.of_nat (length artifacts)) (New "output artifact count exceeds") ;;
  each (fun artifact => ValidateArtifactName (oa_Name artifact) ;;
                        fail_if (oa_ArgumentIndex artifact <? 0) (New "negative argument index")) artifacts ;;
  let sorted := merge_sort (nameOrder oa_Name) artifacts in
  distinctNames oa_Name sorted ;; Ok sorted.

Definition ValidateOutputWriterContract (contract : string) : result unit :=
  fail_if (negb (eqs contract "") && negb (eqs contract OutputWriterProcessExitEOF)) (New "unsupported output writer contract").

Definition ValidateOutputArtifacts (artifacts : list OutputArtifact) (writerContract : string) : result unit :=
  ValidateOutputWriterContract writerContract ;;
  normalized ← NormalizeOutputArtifacts artifacts;
  fail_if ((Z.of_nat (length normalized) =? 0) && negb (eqs writerContract ""))
    (New "output writer contract requires at least one output artifact") ;;
  fail_if ((0 <? Z.of_nat (length normalized)) && negb (eqs writerContract OutputWriterProcessExitEOF))
    (New "output artifacts require the process-exit-eof-v1 writer contract").

(** The two maps of [ValidateInputOutputBindings], over the declarations in order. *)
Fixpoint bindingsFrom (names : list string) (indices : list Z) (declarations : list (string * Z)) : result unit :=
  match declarations with
  | [] => Ok tt
  | (name, index) :: rest =>
      fail_if (existsb (eqs name) names) (New "input/output artifact name shadows") ;;
      fail_if (existsb (Z.eqb index) indices) (New "argv index is shared") ;;
      bindingsFrom (name :: names) (index :: indices) rest
  end.

Definition ValidateInputOutputBindings (inputs : list InputFile) (outputs : list OutputArtifact) : result unit :=
  normalizedInputs ← NormalizeInputFiles inputs;
  normalizedOutputs ← NormalizeOutputArtifacts outputs;
  bindingsFrom [] [] (map (fun f => (if_Name f, if_ArgumentIndex f)) normalizedInputs ++
                      map (fun a => (oa_Name a, oa_ArgumentIndex a)) normalizedOutputs).

Definition CompareInputFiles (left right : list InputFile) : bool := bool_decide (left = right).
Definition CompareOutputArtifacts (left right : list OutputArtifact) : bool := slicesEqual left right.

Definition validateCanonicalInputFiles (files : list InputFile) : result unit :=
  normalized ← NormalizeInputFiles files;
  fail_if (negb (CompareInputFiles files normalized)) (New "input files must be strictly sorted by name").

Definition validateCanonicalOutputArtifacts (artifacts : list OutputArtifact) : result unit :=
  normalized ← NormalizeOutputArtifacts artifacts;
  fail_if (negb (CompareOutputArtifacts artifacts normalized)) (New "output artifacts must be strictly sorted by name").
