(* ===== verification/TaskRecords.v ===== *)
(** * Control records of a task

    [internal/task]: the prepared plan, the submission and start records, the seal, the
    outcome, sessions and stop records ([types.go], [supervisor_records.go]), accounting
    ([usage.go]), diagnostics and rechecks ([recheck.go]) and interpretations
    ([interpretation.go]). *)
From S2P Require Import Prelude GoErrors GoTime GoText GoPath TaskTypes Encoding GoTimestamp TaskLifetime TaskConfiguration.
From Stdlib Require Import Ascii.
#[local] Open Scope Z_scope.

Definition MaxProviderRuntimeEvidenceVersionBytes : Z := 64 * 1024.
Definition VerdictCommitted : string := "committed".
Definition VerdictRejected : string := "rejected".
Definition InvocationStarted : string := "started".
Definition InvocationStartFailed : string := "start_failed".
Definition RunnerOwnershipManaged : string := "managed".
Definition RunnerOwnershipCustom : string := "custom".

(** ** Accounting *)
Record UsageMetadata : Set := MkUsage {
  us_Scope : string; us_Source : string; us_Reliability : string; us_InputTokens : option Z; us_OutputTokens : option Z;
  us_ThinkingTokens : option Z; us_TotalTokens : option Z; us_CacheReadTokens : option Z; us_NumTurns : option Z;
  us_DurationSeconds : option string; us_Model : option string; us_CacheCreationTokens : option Z;
  us_EstimatedCostUSD : option string }.

#[global] Instance UsageMetadata_eq_dec : EqDecision UsageMetadata. Proof. solve_decision. Defined.

Definition usageScopes : list string := ["task"; "conversation-cumulative"; "main-agent"; "whole-tree"; "unknown"]%string.
Definition usageSources : list string := ["provider-envelope"; "provider-event"]%string.
Definition usageReliabilities : list string := ["reported"; "unreliable"; "unknown"]%string.

(** [usageNumber]: a JSON number.  Its sign, integer digits, fraction digits and exponent
    (sign and digits). *)
Record numberText : Set := MkNumber {
  nt_negative : bool; nt_integer : list ascii; nt_fraction : list ascii; nt_exponent : bool * list ascii }.

Fixpoint spanDigits (l : list ascii) : list ascii * list ascii :=
  match l with
  | c :: l' => if isDigit c then let '(ds, r) := spanDigits l' in (c :: ds, r) else ([], l)
  | [] => ([], [])
  end.

Definition usageNumber (s : string) : option numberText :=
  let '(negative, l) := match bytes s with
                        | c :: l' => if bool_decide (c = "-"%char) then (true, l') else (false, c :: l')
                        | [] => (false, [])
                        end in
  let '(integer, l1) := spanDigits l in
  if match integer with [] => true | c :: _ => bool_decide (c = "0"%char) && (1 <? Z.of_nat (length integer)) end then None
  else
    '(fraction, l2) ← match l1 with
                      | c :: l1' => if bool_decide (c = "."%char)
                                    then let '(ds, r) := spanDigits l1' in match ds with [] => None | _ => Some (ds, r) end
                                    else Some ([], l1)
                      | [] => Some ([], [])
                      end;
    match l2 with
    | [] => Some (MkNumber negative integer fraction (false, []))
    | c :: l2' =>
        if negb (bool_decide (c ∈ ["e"; "E"]%char)) then None
        else
          let '(small, l3) := match l2' with
                              | d :: l3 => if bool_decide (d = "-"%char) then (true, l3)
                                           else if bool_decide (d = "+"%char) then (false, l3) else (false, l2')
                              | [] => (false, [])
                              end in
          match spanDigits l3 with
          | ((_ :: _) as ds, []) => Some (MkNumber negative integer fraction (small, ds))
          | _ => None
          end
    end.

Definition digitsZ (l : list ascii) : Z := fold_left (fun n c => n * 10 + digit c) l 0.

(** The exponent as [strconv] reads it: digits past 10000 are dropped. *)
Definition exponentZ (l : list ascii) : Z := fold_left (fun n c => if n <? 10000 then n * 10 + digit c else n) l 0.

(** [strconv.ParseFloat(text, 64)] of a JSON number overflows: half a unit in the last
    place above the largest [float64], or more. *)
Definition parseFloatOverflows (n : numberText) : bool :=
  let mantissa := digitsZ (nt_integer n ++ nt_fraction n) in
  let exponent := (if fst (nt_exponent n) then -1 else 1) * exponentZ (snd (nt_exponent n)) - Z.of_nat (length (nt_fraction n)) in
  if mantissa =? 0 then false
  else if 0 <=? exponent then (2 ^ 54 - 1) * 2 ^ 970 <=? mantissa * 10 ^ exponent
  else (2 ^ 54 - 1) * 2 ^ 970 * 10 ^ (- exponent) <=? mantissa.

Definition usageNumberHasNonzeroMagnitude (n : numberText) : bool :=
  existsb (fun c => negb (bool_decide (c = "0"%char))) (nt_integer n ++ nt_fraction n).

Definition validateUsageNumber (value : option string) : result unit :=
  match value with
  | None => Ok tt
  | Some text =>
      if (len text =? 0) || (128 <? len text) then Err (New "invalid usage")
      else match usageNumber text with
           | None => Err (New "invalid usage")
           | Some n =>
               fail_if (nt_negative n && usageNumberHasNonzeroMagnitude n) (New "usage must be finite and nonnegative") ;;
               fail_if (parseFloatOverflows n) (New "usage must be finite and nonnegative")
           end
  end.

(** [ValidateUsageMetadata] on a present record. *)
Definition ValidateUsageMetadata (v : UsageMetadata) : result unit :=
  fail_if (negb (existsb (eqs (us_Scope v)) usageScopes)) (New "invalid usage scope") ;;
  fail_if (negb (existsb (eqs (us_Source v)) usageSources)) (New "invalid usage source") ;;
  fail_if (negb (existsb (eqs (us_Reliability v)) usageReliabilities)) (New "invalid usage reliability") ;;
  fail_if (match us_Model v with
           | None => false
           | Some m => eqs (TrimSpace m) "" || negb (eqs (TrimSpace m) m) || ContainsByte m "000" || negb (ValidString m)
           end) (New "invalid usage model") ;;
  each (fun value => fail_if (match value with Some n => n <? 0 | None => false end) (New "negative usage counter"))
    [us_InputTokens v; us_OutputTokens v; us_ThinkingTokens v; us_TotalTokens v; us_CacheReadTokens v;
     us_CacheCreationTokens v; us_NumTurns v] ;;
  validateUsageNumber (us_DurationSeconds v) ;;
  validateUsageNumber (us_EstimatedCostUSD v).

Definition ValidateUsageMetadataList (values : list UsageMetadata) : result unit :=
  each (fun v => wrap_err (Errorf "usage") (ValidateUsageMetadata v)) values.

(** ** Diagnostics *)
Record OutputDiagnostic : Set := MkDiagnostic {
  dg_Code : string; dg_Message : string; dg_Field : string; dg_Event : Z; dg_Offset : Z }.

#[global] Instance OutputDiagnostic_eq_dec : EqDecision OutputDiagnostic. Proof. solve_decision. Defined.

Definition MaxOutputDiagnostics : Z := 32.
Definition MaxDiagnosticCodeBytes : Z := 64.
Definition MaxDiagnosticMessageBytes : Z := 512.
Definition MaxDiagnosticFieldBytes : Z := 128.

Definition validDiagnosticText (value : string) (limit : Z) (requireNonblank : bool) : bool :=
  if (len value =? 0) || (limit <? len value) || negb (ValidString value) then negb requireNonblank && eqs value ""
  else if requireNonblank && eqs (TrimSpace value) "" then false
  else forallb (fun p => negb (IsControl (fst p))) (runes value).

Definition diagnosticError : error := Errorf "" (Sentinel task_ErrInvalidDiagnostic).

Definition ValidateOutputDiagnostic (d : OutputDiagnostic) : result unit :=
  fail_if (negb (validDiagnosticText (dg_Code d) MaxDiagnosticCodeBytes true)) diagnosticError ;;
  fail_if (negb (validDiagnosticText (dg_Message d) MaxDiagnosticMessageBytes true)) diagnosticError ;;
  fail_if (negb (eqs (dg_Field d) "") && negb (validDiagnosticText (dg_Field d) MaxDiagnosticFieldBytes true)) diagnosticError ;;
  fail_if (dg_Offset d <? 0) diagnosticError.

Definition ValidateOutputDiagnostics (diagnostics : list OutputDiagnostic) : result unit :=
  fail_if (MaxOutputDiagnostics <? Z.of_nat (length diagnostics)) diagnosticError ;;
  each (fun d => wrap_err (fun e => Joined "" [Sentinel task_ErrInvalidDiagnostic; e]) (ValidateOutputDiagnostic d)) diagnostics.

(** ** The provider at the launch boundary

    The records that carry this identity have its three fields side by side; here they
    hold it as one field. *)
Record ProviderRuntimeIdentity : Set := MkRuntime { pi_Executable : string; pi_Version : string; pi_SHA256 : string }.

#[global] Instance ProviderRuntimeIdentity_eq_dec : EqDecision ProviderRuntimeIdentity. Proof. solve_decision. Defined.

Definition validateProviderRuntimeVersion (version : string) : result unit :=
  fail_if (negb (nonblank version)) (New "provider runtime version must not be blank") ;;
  fail_if (negb (ValidString version)) (New "provider runtime version must be valid UTF-8") ;;
  fail_if (existsb (fun p => IsControl (fst p)) (runes version)) (New "provider runtime version contains control characters").

Definition ValidateProviderRuntimeIdentity (identity : ProviderRuntimeIdentity) : result unit :=
  if bool_decide (identity = MkRuntime "" "" "") then Ok tt
  else
    fail_if (negb (cleanAbsolute (pi_Executable identity))) (New "provider runtime executable must be a resolved absolute path") ;;
    (if negb (eqs (pi_Version identity) "") then validateProviderRuntimeVersion (pi_Version identity) else Ok tt) ;;
    if negb (eqs (pi_SHA256 identity) "")
    then wrap_err (Errorf "provider runtime executable digest") (ValidateSHA256 (pi_SHA256 identity)) else Ok tt.

Definition ValidateProviderRuntimeEvidenceIdentity (identity : ProviderRuntimeIdentity) : result unit :=
  ValidateProviderRuntimeIdentity identity ;;
  fail_if (negb (eqs (pi_Executable identity) "") && (MaxProviderRuntimeEvidenceVersionBytes <? len (pi_Version identity)))
    (Errorf "provider runtime version exceeds terminal evidence bound" (Sentinel task_ErrControlRecordTooBig)).

(** ** The prepared plan *)
Record MetaRecord : Set := MkMeta {
  me_SchemaVersion : Z; me_RootID : string; me_TaskID : string; me_SpecSHA256 : string; me_RequestedConfig : TaskConfig;
  me_EffectiveConfig : EffectiveConfig; me_Containment : string; me_Approval : string; me_ProviderExecutable : string;
  me_ProviderVersion : string; me_RuntimePreflightSHA256 : string; me_RunnerExecutable : string; me_RunnerOwnership : string;
  me_PublisherBuild : string; me_PublisherVersion : string; me_Environment : list string; me_EnvironmentRecorded : bool;
  me_Predicate : PredicateRef; me_SupervisorConfig : SupervisorRef; me_CreatedAt : string;
  me_OutputArtifacts : list OutputArtifact; me_OutputWriterContract : string; me_InputFiles : list InputFile }.

#[global] Instance MetaRecord_eq_dec : EqDecision MetaRecord. Proof. solve_decision. Defined.

Definition validateMetaRuntimeObservation (r : MetaRecord) : result unit :=
  if negb (eqs (me_RuntimePreflightSHA256 r) "")
  then fail_if (negb (is_ok (ValidateSHA256 (me_RuntimePreflightSHA256 r))) || negb (eqs (me_ProviderVersion r) "") ||
                negb (me_EnvironmentRecorded r)) (New "invalid pending runtime preflight")
  else fail_if (negb (eqs (me_ProviderVersion r) "") && negb (nonblank (me_ProviderVersion r))) (New "blank provider version").

Definition validateMetaRuntime (r : MetaRecord) : result unit :=
  fail_if (negb (cleanAbsolute (me_ProviderExecutable r))) (New "provider executable must be a resolved absolute path") ;;
  fail_if (negb (eqs (me_RunnerExecutable r) "") && negb (cleanAbsolute (me_RunnerExecutable r)))
    (New "runner executable must be a resolved absolute path") ;;
  fail_if (negb (eqs (me_RunnerOwnership r) "") && negb (eqs (me_RunnerOwnership r) RunnerOwnershipManaged) &&
           negb (eqs (me_RunnerOwnership r) RunnerOwnershipCustom)) (New "invalid runner ownership") ;;
  validateMetaRuntimeObservation r ;;
  fail_if (negb (nonblank (me_PublisherBuild r)) || negb (nonblank (me_PublisherVersion r))) (New "missing publisher build/version") ;;
  ValidateSupervisorRef (me_SupervisorConfig r) ;;
  validateTimestamp (me_CreatedAt r).

Definition validateMetaConfiguration (r : MetaRecord) : result unit :=
  ValidateEnvironment (me_Environment r) ;;
  ValidatePredicateRef (me_Predicate r) ;;
  duration ← ParseBudgetForProvider (pr_Adapter (me_Predicate r)) (tc_Budget (me_RequestedConfig r));
  validateRequestedConfig (pr_Adapter (me_Predicate r)) (me_RequestedConfig r) (pr_Mode (me_Predicate r)) duration ;;
  validateNativeTimeout (pr_Adapter (me_Predicate r)) (me_RequestedConfig r) duration ;;
  fail_if (negb (nonblank (me_Containment r)) || negb (nonblank (me_Approval r)) ||
           negb (eqs (me_Containment r) (ec_Containment (me_EffectiveConfig r))) ||
           negb (eqs (me_Approval r) (ec_Approval (me_EffectiveConfig r))))
    (New "missing or inconsistent effective containment and approval") ;;
  ValidateEffectiveConfig (me_EffectiveConfig r) ;;
  validateMetaRuntime r.

(** The fields that open most record validators. *)
Definition schemaAndIdentity (name : string) (schema : Z) (rootID taskID : string) : result unit :=
  fail_if (negb (schema =? SchemaVersion)) (Errorf name (Sentinel task_ErrUnsupportedSchema)) ;;
  ValidateRootID rootID ;; ValidateTaskID taskID.

Record RootRecord : Set := MkRoot { ro_SchemaVersion : Z; ro_RootID : string; ro_CreatedAt : string }.

Definition ValidateRootRecord (r : option RootRecord) : result unit :=
  match r with
  | None => Err (New "nil root record")
  | Some r =>
      fail_if (negb (ro_SchemaVersion r =? SchemaVersion)) (Errorf "root.json schema" (Sentinel task_ErrUnsupportedSchema)) ;;
      ValidateRootID (ro_RootID r) ;;
      validateTimestamp (ro_CreatedAt r)
  end.

Definition ValidateMetaRecord (r : option MetaRecord) : result unit :=
  match r with
  | None => Err (New "nil meta record")
  | Some r =>
      schemaAndIdentity "meta.json schema" (me_SchemaVersion r) (me_RootID r) (me_TaskID r) ;;
      wrap_err (Errorf "meta record spec_sha256") (ValidateSHA256 (me_SpecSHA256 r)) ;;
      wrap_err (Errorf "meta record input files") (validateCanonicalInputFiles (me_InputFiles r)) ;;
      wrap_err (Errorf "meta record output artifacts") (validateCanonicalOutputArtifacts (me_OutputArtifacts r)) ;;
      wrap_err (Errorf "meta record output contract") (ValidateOutputArtifacts (me_OutputArtifacts r) (me_OutputWriterContract r)) ;;
      wrap_err (Errorf "meta record artifact bindings") (ValidateInputOutputBindings (me_InputFiles r) (me_OutputArtifacts r)) ;;
      validateMetaConfiguration r
  end.

(** ** Submission and start *)
Record SubmitRecord : Set := MkSubmit {
  sb_SchemaVersion : Z; sb_RootID : string; sb_TaskID : string; sb_SpecSHA256 : string; sb_MetaSHA256 : string;
  sb_Label : string; sb_Supervisor : SupervisorRef; sb_CreatedAt : string }.

(** ["delegate:" + root + ":" + task] *)
Definition taskLabel (rootID taskID : string) : string := str (bytes "delegate:" ++ bytes rootID ++ bytes ":" ++ bytes taskID).

Definition ValidateSubmitRecord (r : option SubmitRecord) : result unit :=
  match r with
  | None => Err (New "nil submit record")
  | Some r =>
      schemaAndIdentity "submit.json schema" (sb_SchemaVersion r) (sb_RootID r) (sb_TaskID r) ;;
      wrap_err (Errorf "submit record spec_sha256") (ValidateSHA256 (sb_SpecSHA256 r)) ;;
      wrap_err (Errorf "submit record meta_sha256") (ValidateSHA256 (sb_MetaSHA256 r)) ;;
      fail_if (negb (eqs (sb_Label r) (taskLabel (sb_RootID r) (sb_TaskID r)))) (New "submit label must bind root and task identity") ;;
      ValidateSupervisorRef (sb_Supervisor r) ;;
      validateTimestamp (sb_CreatedAt r)
  end.

Record ProviderStartRecord : Set := MkStart {
  st_SchemaVersion : Z; st_RootID : string; st_TaskID : string; st_SpecSHA256 : string; st_MetaSHA256 : string;
  st_BudgetNanos : Z; st_CreatedAt : string }.

Definition ValidateProviderStartRecord (r : option ProviderStartRecord) : result unit :=
  match r with
  | None => Err (New "nil provider.start record")
  | Some r =>
      schemaAndIdentity "provider.start schema" (st_SchemaVersion r) (st_RootID r) (st_TaskID r) ;;
      wrap_err (Errorf "provider.start spec_sha256") (ValidateSHA256 (st_SpecSHA256 r)) ;;
      wrap_err (Errorf "provider.start meta_sha256") (ValidateSHA256 (st_MetaSHA256 r)) ;;
      fail_if (st_BudgetNanos r <=? 0) (New "budget_nanos must be positive in provider.start") ;;
      validateTimestamp (st_CreatedAt r)
  end.

Record ProviderStartedRecord : Set := MkStarted {
  sd_SchemaVersion : Z; sd_RootID : string; sd_TaskID : string; sd_SpecSHA256 : string; sd_MetaSHA256 : string;
  sd_StartedAt : string; sd_DiagnosticNanos : Z; sd_Provider : ProviderRuntimeIdentity }.

Definition ValidateProviderStartedRecord (r : option ProviderStartedRecord) : result unit :=
  match r with
  | None => Err (New "nil provider.started.json record")
  | Some r =>
      schemaAndIdentity "provider.started.json schema" (sd_SchemaVersion r) (sd_RootID r) (sd_TaskID r) ;;
      wrap_err (Errorf "provider.started.json spec_sha256") (ValidateSHA256 (sd_SpecSHA256 r)) ;;
      wrap_err (Errorf "provider.started.json meta_sha256") (ValidateSHA256 (sd_MetaSHA256 r)) ;;
      fail_if (sd_DiagnosticNanos r <? 0) (New "negative start diagnostic duration") ;;
      wrap_err (Errorf "provider.started runtime identity") (ValidateProviderRuntimeEvidenceIdentity (sd_Provider r)) ;;
      validateTimestamp (sd_StartedAt r)
  end.

(** ** The seal *)
Record RawManifestEntry : Set := MkEntry { rm_Path : string; rm_Size : Z; rm_SHA256 : string }.

#[global] Instance RawManifestEntry_eq_dec : EqDecision RawManifestEntry. Proof. solve_decision. Defined.

Definition jsonEntry (e : RawManifestEntry) : json :=
  JObject [("path"%string, JString (rm_Path e)); ("size"%string, JInt (rm_Size e)); ("sha256"%string, JString (rm_SHA256 e))].
Definition jsonManifest (manifest : list RawManifestEntry) : json := JArray (map jsonEntry manifest).

Definition evidenceError (msg : string) : error := Errorf msg (Sentinel task_ErrEvidenceFault).
Definition evidenceCause (e : error) : error := Joined "" [Sentinel task_ErrEvidenceFault; e].

Definition validateRawEntry (entry : RawManifestEntry) : result unit :=
  let '(name, prefixed) := CutPrefix (rm_Path entry) "raw/" in
  fail_if (negb prefixed || (rm_Size entry <? 0)) (evidenceError "invalid raw entry path or size") ;;
  (if negb (eqs name "stdout") && negb (eqs name "stderr") then wrap_err evidenceCause (ValidateArtifactName name) else Ok tt) ;;
  wrap_err evidenceCause (ValidateSHA256 (rm_SHA256 entry)).

Definition ValidateRawManifest (manifest : list RawManifestEntry) (manifestSHA256 : string) : result unit :=
  fail_if ((Z.of_nat (length manifest) <? 2) || (MaxOutputArtifacts + 2 <? Z.of_nat (length manifest)))
    (evidenceError "invalid raw manifest entry count") ;;
  eachAfter (fun previous entry =>
    validateRawEntry entry ;;
    fail_if (match previous with Some p => negb (text_after (rm_Path entry) (rm_Path p)) | None => false end)
      (evidenceError "raw manifest paths are not strictly sorted and unique")) None manifest ;;
  fail_if (negb (existsb (fun e => eqs (rm_Path e) "raw/stdout") manifest) ||
           negb (existsb (fun e => eqs (rm_Path e) "raw/stderr") manifest)) (evidenceError "raw/stderr and raw/stdout are required") ;;
  fail_if (negb (eqs (ComputeSHA256 (MarshalCanonical (jsonManifest manifest))) manifestSHA256))
    (evidenceError "manifest digest mismatch").

Record ProviderExitRecord : Set := MkExit {
  pe_SchemaVersion : Z; pe_RootID : string; pe_TaskID : string; pe_SpecSHA256 : string; pe_MetaSHA256 : string;
  pe_InvocationState : string; pe_ExitCode : Z; pe_Error : string; pe_Predicate : PredicateRef;
  pe_RawManifest : list RawManifestEntry; pe_ManifestSHA256 : string; pe_ClosedAt : string;
  pe_Provider : ProviderRuntimeIdentity }.

Definition validateExitObservation (r : ProviderExitRecord) : result unit :=
  fail_if ((pe_ExitCode r <? -1) || (255 <? pe_ExitCode r)) (New "exit code must be an observed process exit status") ;;
  fail_if (eqs (pe_InvocationState r) InvocationStartFailed && negb (nonblank (pe_Error r)))
    (New "start failure requires a captured error") ;;
  validateTimestamp (pe_ClosedAt r).

Definition ValidateProviderExitRecord (r : option ProviderExitRecord) : result unit :=
  match r with
  | None => Err (New "nil provider.exit record")
  | Some r =>
      schemaAndIdentity "provider.exit schema version" (pe_SchemaVersion r) (pe_RootID r) (pe_TaskID r) ;;
      wrap_err (Errorf "provider.exit spec_sha256") (ValidateSHA256 (pe_SpecSHA256 r)) ;;
      wrap_err (Errorf "provider.exit meta_sha256") (ValidateSHA256 (pe_MetaSHA256 r)) ;;
      fail_if (negb (eqs (pe_InvocationState r) InvocationStarted) && negb (eqs (pe_InvocationState r) InvocationStartFailed))
        (Errorf "invalid invocation state" (Sentinel task_ErrInvalidEnum)) ;;
      ValidateSHA256 (pe_ManifestSHA256 r) ;;
      ValidateRawManifest (pe_RawManifest r) (pe_ManifestSHA256 r) ;;
      ValidatePredicateRef (pe_Predicate r) ;;
      wrap_err (Errorf "provider.exit runtime identity") (ValidateProviderRuntimeEvidenceIdentity (pe_Provider r)) ;;
      validateExitObservation r
  end.

(** ** The outcome *)
Record PayloadDescriptor : Set := MkPayload { py_Basename : string; py_Length : Z; py_SHA256 : string }.

#[global] Instance PayloadDescriptor_eq_dec : EqDecision PayloadDescriptor. Proof. solve_decision. Defined.

Record OutcomeRecord : Set := MkOutcome {
  oc_SchemaVersion : Z; oc_RootID : string; oc_TaskID : string; oc_SpecSHA256 : string; oc_MetaSHA256 : string;
  oc_Verdict : string; oc_EvidenceSHA256 : string; oc_Predicate : PredicateRef; oc_Payload : PayloadDescriptor;
  oc_Usage : list UsageMetadata; oc_Diagnostics : list OutputDiagnostic }.

#[global] Instance OutcomeRecord_eq_dec : EqDecision OutcomeRecord. Proof. solve_decision. Defined.

Definition invariantError (msg : string) : error := Errorf msg (Sentinel task_ErrInvariantFault).

Definition ValidatePayloadDescriptor (descriptor : PayloadDescriptor) : result unit :=
  fail_if (negb (eqs (py_Basename descriptor) "result.txt") && negb (eqs (py_Basename descriptor) "publish.reject"))
    (invariantError "invalid payload basename") ;;
  fail_if (py_Length descriptor <=? 0) (invariantError "payload must be nonempty") ;;
  wrap_err (Errorf "payload sha256") (ValidateSHA256 (py_SHA256 descriptor)).

Definition validateOutcomePayload (r : OutcomeRecord) : result unit :=
  wrap_err (Errorf "outcome.json payload") (ValidatePayloadDescriptor (oc_Payload r)) ;;
  fail_if (eqs (oc_Verdict r) VerdictCommitted && negb (eqs (py_Basename (oc_Payload r)) "result.txt"))
    (invariantError "committed outcome must have payload basename result.txt") ;;
  fail_if (eqs (oc_Verdict r) VerdictRejected && negb (eqs (py_Basename (oc_Payload r)) "publish.reject"))
    (invariantError "rejected outcome must have payload basename publish.reject").

Definition ValidateOutcomeRecord (r : option OutcomeRecord) : result unit :=
  match r with
  | None => Err (New "nil outcome record")
  | Some r =>
      schemaAndIdentity "outcome.json schema version" (oc_SchemaVersion r) (oc_RootID r) (oc_TaskID r) ;;
      wrap_err (Errorf "outcome.json spec_sha256") (ValidateSHA256 (oc_SpecSHA256 r)) ;;
      wrap_err (Errorf "outcome.json meta_sha256") (ValidateSHA256 (oc_MetaSHA256 r)) ;;
      fail_if (negb (eqs (oc_Verdict r) VerdictCommitted) && negb (eqs (oc_Verdict r) VerdictRejected))
        (Errorf "invalid verdict" (Sentinel task_ErrInvalidEnum)) ;;
      wrap_err (Errorf "outcome.json evidence_sha256") (ValidateSHA256 (oc_EvidenceSHA256 r)) ;;
      ValidatePredicateRef (oc_Predicate r) ;;
      ValidateUsageMetadataList (oc_Usage r) ;;
      ValidateOutputDiagnostics (oc_Diagnostics r) ;;
      validateOutcomePayload r
  end.

(** ** Sessions *)
Record SessionIdentity : Set := MkSessionIdentity { si_Provider : string; si_ConversationID : string }.

Definition ValidateSessionIdentity (v : SessionIdentity) : result unit :=
  fail_if (negb (is_ok (ValidateProvider (si_Provider v))) || negb (nonblank (si_ConversationID v))) mismatch.

Definition validateSessionFields (provider timestamp : string) : result unit :=
  ValidateProvider provider ;; validateTimestamp timestamp.

Record SessionClaimRecord : Set := MkSessionClaim {
  sc_SchemaVersion : Z; sc_Provider : string; sc_ConversationID : string; sc_RootID : string; sc_TaskID : string;
  sc_ClaimedAt : string }.

#[global] Instance SessionClaimRecord_eq_dec : EqDecision SessionClaimRecord. Proof. solve_decision. Defined.

Definition ValidateSessionClaimRecord (r : option SessionClaimRecord) : result unit :=
  match r with
  | None => Err (New "nil session claim record")
  | Some r =>
      schemaAndIdentity "session claim schema" (sc_SchemaVersion r) (sc_RootID r) (sc_TaskID r) ;;
      fail_if (negb (nonblank (sc_Provider r)) || negb (nonblank (sc_ConversationID r)))
        (New "missing provider or conversation_id in session claim") ;;
      validateSessionFields (sc_Provider r) (sc_ClaimedAt r)
  end.

Record SessionReleaseRecord : Set := MkSessionRelease {
  sl_SchemaVersion : Z; sl_Provider : string; sl_ConversationID : string; sl_RootID : string; sl_TaskID : string;
  sl_PredecessorEvidenceSHA256 : string; sl_ReleasedAt : string }.

#[global] Instance SessionReleaseRecord_eq_dec : EqDecision SessionReleaseRecord. Proof. solve_decision. Defined.

Definition ValidateSessionReleaseRecord (r : option SessionReleaseRecord) : result unit :=
  match r with
  | None => Err (New "nil session release record")
  | Some r =>
      schemaAndIdentity "session release schema" (sl_SchemaVersion r) (sl_RootID r) (sl_TaskID r) ;;
      fail_if (negb (nonblank (sl_Provider r)) || negb (nonblank (sl_ConversationID r)))
        (New "missing provider or conversation_id in session release") ;;
      wrap_err (Errorf "session release evidence digest") (ValidateSHA256 (sl_PredecessorEvidenceSHA256 r)) ;;
      validateSessionFields (sl_Provider r) (sl_ReleasedAt r)
  end.

(** ** Supervisor records *)
Definition StopCauseAutomaticAbandonment : string := "automatic-abandonment".

Definition PermanentLaunchRefusalCause (cause : string) : bool := eqs cause "user" || eqs cause StopCauseAutomaticAbandonment.

Definition validateBoundRecord (schema : Z) (root id spec meta : string) : result unit :=
  fail_if (negb (schema =? SchemaVersion)) (Sentinel task_ErrUnsupportedSchema) ;;
  ValidateRootID root ;; ValidateTaskID id ;; ValidateSHA256 spec ;; ValidateSHA256 meta.

Record SupervisorReceipt : Set := MkReceipt {
  rp_SchemaVersion : Z; rp_RootID : string; rp_TaskID : string; rp_SpecSHA256 : string; rp_MetaSHA256 : string;
  rp_NumericTaskID : Z; rp_Label : string; rp_Supervisor : SupervisorRef }.

#[global] Instance SupervisorReceipt_eq_dec : EqDecision SupervisorReceipt. Proof. solve_decision. Defined.

Definition ValidateSupervisorReceipt (r : option SupervisorReceipt) : result unit :=
  match r with
  | None => Err (New "nil supervisor receipt")
  | Some r =>
      validateBoundRecord (rp_SchemaVersion r) (rp_RootID r) (rp_TaskID r) (rp_SpecSHA256 r) (rp_MetaSHA256 r) ;;
      fail_if ((rp_NumericTaskID r <? 0) || negb (eqs (rp_Label r) (taskLabel (rp_RootID r) (rp_TaskID r)))) mismatch ;;
      ValidateFreshSupervisorRef (rp_Supervisor r)
  end.

Record ProviderRefRecord : Set := MkProviderRef {
  pf_SchemaVersion : Z; pf_RootID : string; pf_TaskID : string; pf_SpecSHA256 : string; pf_MetaSHA256 : string;
  pf_Provider : string; pf_ObservedAt : string; pf_ConversationID : string }.

Definition ValidateProviderRefRecord (r : option ProviderRefRecord) : result unit :=
  match r with
  | None => Err (New "nil provider ref")
  | Some r =>
      validateBoundRecord (pf_SchemaVersion r) (pf_RootID r) (pf_TaskID r) (pf_SpecSHA256 r) (pf_MetaSHA256 r) ;;
      ValidateSessionIdentity (MkSessionIdentity (pf_Provider r) (pf_ConversationID r)) ;;
      validateTimestamp (pf_ObservedAt r)
  end.

Definition ValidateStopRequestID (id : string) : result unit := if eqs id "budget" then Ok tt else ValidateTaskID id.

Record StopRequestRecord : Set := MkStopRequest {
  sq_SchemaVersion : Z; sq_RootID : string; sq_TaskID : string; sq_SpecSHA256 : string; sq_MetaSHA256 : string;
  sq_NumericTaskID : option Z; sq_Label : string; sq_BudgetNanos : Z; sq_Deadline : string; sq_RequestID : string;
  sq_Cause : string; sq_Supervisor : SupervisorRef; sq_RequestedAt : string }.

#[global] Instance StopRequestRecord_eq_dec : EqDecision StopRequestRecord. Proof. solve_decision. Defined.

Definition validateStopDeadline (r : StopRequestRecord) : result unit :=
  if eqs (sq_Cause r) "budget" then
    fail_if (negb (eqs (sq_RequestID r) "budget")) mismatch ;; validateTimestamp (sq_Deadline r)
  else if eqs (sq_Cause r) StopCauseAutomaticAbandonment || eqs (sq_Cause r) "user" then
    fail_if (eqs (sq_Cause r) StopCauseAutomaticAbandonment && is_some (sq_NumericTaskID r)) mismatch ;;
    fail_if (eqs (sq_RequestID r) "budget" || negb (eqs (sq_Deadline r) "")) mismatch
  else Err (Sentinel task_ErrInvalidEnum).

Definition ValidateStopRequestRecord (r : option StopRequestRecord) : result unit :=
  match r with
  | None => Err (New "nil stop request")
  | Some r =>
      validateBoundRecord (sq_SchemaVersion r) (sq_RootID r) (sq_TaskID r) (sq_SpecSHA256 r) (sq_MetaSHA256 r) ;;
      ValidateStopRequestID (sq_RequestID r) ;;
      fail_if (match sq_NumericTaskID r with Some n => n <? 0 | None => false end) mismatch ;;
      fail_if (negb (eqs (sq_Label r) (taskLabel (sq_RootID r) (sq_TaskID r))) || (sq_BudgetNanos r <=? 0)) mismatch ;;
      ValidateFreshSupervisorRef (sq_Supervisor r) ;;
      validateStopDeadline r ;;
      validateTimestamp (sq_RequestedAt r)
  end.

Definition validateStopEvidence (schema : Z) (root id spec meta label digest : string) (ref : option SupervisorRef)
    (numeric : option Z) : result unit :=
  validateBoundRecord schema root id spec meta ;;
  match ref, numeric with
  | Some ref, Some n =>
      fail_if (negb (eqs label (taskLabel root id)) || (n <? 0)) mismatch ;;
      ValidateFreshSupervisorRef ref ;; ValidateSHA256 digest
  | _, _ => Err mismatch
  end.

Record StopReplyRecord : Set := MkStopReply {
  sy_SchemaVersion : Z; sy_RootID : string; sy_TaskID : string; sy_SpecSHA256 : string; sy_MetaSHA256 : string;
  sy_Action : string; sy_Label : string; sy_Supervisor : option SupervisorRef; sy_RequestSHA256 : string;
  sy_NumericTaskID : option Z; sy_RequestID : string; sy_Acknowledged : bool; sy_Message : string; sy_RepliedAt : string }.

#[global] Instance StopReplyRecord_eq_dec : EqDecision StopReplyRecord. Proof. solve_decision. Defined.

Definition ValidateStopReplyRecord (r : option StopReplyRecord) : result unit :=
  match r with
  | None => Err (New "nil stop reply")
  | Some r =>
      validateStopEvidence (sy_SchemaVersion r) (sy_RootID r) (sy_TaskID r) (sy_SpecSHA256 r) (sy_MetaSHA256 r) (sy_Label r)
        (sy_RequestSHA256 r) (sy_Supervisor r) (sy_NumericTaskID r) ;;
      ValidateStopRequestID (sy_RequestID r) ;;
      fail_if (negb (eqs (sy_Action r) "kill") && negb (eqs (sy_Action r) "remove") && negb (eqs (sy_Action r) "terminate"))
        (Errorf "invalid stop action" (Sentinel task_ErrInvalidEnum)) ;;
      validateTimestamp (sy_RepliedAt r)
  end.

Record StopObservedRecord : Set := MkStopObserved {
  so_SchemaVersion : Z; so_RootID : string; so_TaskID : string; so_SpecSHA256 : string; so_MetaSHA256 : string;
  so_State : string; so_Label : string; so_Supervisor : option SupervisorRef; so_RequestSHA256 : string;
  so_NumericTaskID : option Z; so_RequestID : string; so_Terminated : bool; so_ObservedAt : string }.

#[global] Instance StopObservedRecord_eq_dec : EqDecision StopObservedRecord. Proof. solve_decision. Defined.

Definition ValidateStopObservedRecord (r : option StopObservedRecord) : result unit :=
  match r with
  | None => Err (New "nil stop observation")
  | Some r =>
      validateStopEvidence (so_SchemaVersion r) (so_RootID r) (so_TaskID r) (so_SpecSHA256 r) (so_MetaSHA256 r) (so_Label r)
        (so_RequestSHA256 r) (so_Supervisor r) (so_NumericTaskID r) ;;
      ValidateStopRequestID (so_RequestID r) ;;
      fail_if (negb (eqs (so_State r) "queued") && negb (eqs (so_State r) "running") && negb (eqs (so_State r) "ended"))
        (Sentinel task_ErrInvalidEnum) ;;
      fail_if (negb (Bool.eqb (so_Terminated r) (eqs (so_State r) "ended"))) mismatch ;;
      validateTimestamp (so_ObservedAt r)
  end.

(** ** Interpretations *)
Record Interpretation : Set := MkInterpretation {
  it_Verdict : string; it_Refusal : string; it_Session : option SessionIdentity; it_Usage : list UsageMetadata;
  it_Diagnostics : list OutputDiagnostic }.

Definition ValidateInterpretation (v : Interpretation) : result unit :=
  ValidateUsageMetadataList (it_Usage v) ;;
  ValidateOutputDiagnostics (it_Diagnostics v) ;;
  when_some (it_Session v) ValidateSessionIdentity ;;
  if eqs (it_Verdict v) VerdictCommitted then fail_if (negb (eqs (it_Refusal v) "")) (New "committed interpretation has refusal")
  else if eqs (it_Verdict v) VerdictRejected then fail_if (eqs (it_Refusal v) "") (New "rejected interpretation has empty refusal")
  else Err (Sentinel task_ErrInvalidEnum).
