(* ===== verification/TaskReducer.v ===== *)
(** * Publication

    [internal/task]: semantic comparison of requests and outcomes and the reduction of
    the evidence to a publication ([reducer.go]), the registered predicate
    ([predicate.go]) and derived assessments ([recheck.go]). *)
From S2P Require Import Prelude GoErrors GoText TaskTypes Encoding TaskLifetime TaskConfiguration TaskRecords.
From Stdlib Require Import Ascii.
#[local] Open Scope Z_scope.

(** ** Comparisons *)
Definition sameRequest (a b : TaskRecord) : bool :=
  if negb (eqs (tk_Provider a) (tk_Provider b)) || negb (eqs (tk_Mode a) (tk_Mode b)) ||
     negb (eqs (tk_CanonicalCwd a) (tk_CanonicalCwd b)) || negb (tk_BudgetNanos a =? tk_BudgetNanos b) ||
     negb (eqs (tk_BriefSHA256 a) (tk_BriefSHA256 b)) || negb (tk_BriefLength a =? tk_BriefLength b) then false
  else if negb (bool_decide (tk_RequestedConfig a = tk_RequestedConfig b)) then false
  else if negb (bool_decide (tk_Team a = tk_Team b)) then false
  else if negb (sameWorkspaceBinding (tk_Workspace a) (tk_Workspace b)) then false
  else match tk_PriorSession a, tk_PriorSession b with
       | None, None => true
       | Some p, Some q => bool_decide (p = q)
       | _, _ => false
       end.

(** [CompareRequests]: nil is only equal to nil. *)
Definition CompareRequests (a b : option TaskRecord) : bool :=
  match a, b with
  | Some a, Some b => sameRequest a b
  | None, None => true
  | _, _ => false
  end.

(** [compareUsage] and [compareDiagnostics]: [reflect.DeepEqual], except that nil and
    empty are the same. *)
Definition compareList {A} `{EqDecision A} (a b : list A) : bool :=
  if (Z.of_nat (length a) =? 0) && (Z.of_nat (length b) =? 0) then true else bool_decide (a = b).
Definition compareUsage (a b : list UsageMetadata) : bool := compareList a b.
Definition compareDiagnostics (a b : list OutputDiagnostic) : bool := compareList a b.

Definition sameOutcome (a b : OutcomeRecord) : bool :=
  if negb (oc_SchemaVersion a =? oc_SchemaVersion b) || negb (eqs (oc_RootID a) (oc_RootID b)) ||
     negb (eqs (oc_TaskID a) (oc_TaskID b)) || negb (eqs (oc_SpecSHA256 a) (oc_SpecSHA256 b)) ||
     negb (eqs (oc_MetaSHA256 a) (oc_MetaSHA256 b)) || negb (eqs (oc_Verdict a) (oc_Verdict b)) ||
     negb (eqs (oc_EvidenceSHA256 a) (oc_EvidenceSHA256 b)) then false
  else if negb (PredicateEqual (oc_Predicate a) (oc_Predicate b)) then false
  else if negb (bool_decide (oc_Payload a = oc_Payload b)) then false
  else compareUsage (oc_Usage a) (oc_Usage b) && compareDiagnostics (oc_Diagnostics a) (oc_Diagnostics b).

Definition CompareOutcomes (a b : option OutcomeRecord) : bool :=
  match a, b with
  | Some a, Some b => sameOutcome a b
  | None, None => true
  | _, _ => false
  end.

(** ** The publication *)
Definition validateOutcomeIdentity (outcome : OutcomeRecord) (rootID taskID spec meta : string) : result unit :=
  fail_if (negb (eqs rootID "") && negb (eqs (oc_RootID outcome) rootID)) (Errorf "root ID mismatch in outcome" mismatch) ;;
  fail_if (negb (eqs taskID "") && negb (eqs (oc_TaskID outcome) taskID)) (Errorf "task ID mismatch in outcome" mismatch) ;;
  fail_if (negb (eqs spec "") && negb (eqs (oc_SpecSHA256 outcome) spec)) (Errorf "spec digest mismatch in outcome" mismatch) ;;
  fail_if (negb (eqs meta "") && negb (eqs (oc_MetaSHA256 outcome) meta)) (Errorf "meta digest mismatch in outcome" mismatch).

(** [ReducePublicationWithIdentity]: with an error the publication is unknown. *)
Definition ReducePublicationWithIdentity (outcome : option OutcomeRecord) (payloadExists : bool) (payloadLength : Z)
    (payloadSHA256 : string) (seal : option ProviderExitRecord) (rootID taskID spec meta : string) : result Z :=
  match outcome with
  | Some o =>
      ValidateOutcomeRecord (Some o) ;;
      validateOutcomeIdentity o rootID taskID spec meta ;;
      fail_if (negb payloadExists || negb (py_Length (oc_Payload o) =? payloadLength) ||
               negb (eqs (py_SHA256 (oc_Payload o)) payloadSHA256)) (Sentinel task_ErrInvariantFault) ;;
      if eqs (oc_Verdict o) VerdictCommitted then Ok PublicationCommitted
      else if eqs (oc_Verdict o) VerdictRejected then Ok PublicationRejected
      else Err (Sentinel task_ErrInvalidEnum)
  | None =>
      match seal with
      | Some s => ValidateProviderExitRecord (Some s) ;; Ok PublicationPending
      | None => if payloadExists then Ok PublicationPending else Ok PublicationUnknown
      end
  end.

Definition ReducePublication (outcome : option OutcomeRecord) (payloadExists : bool) (payloadLength : Z)
    (payloadSHA256 : string) (seal : option ProviderExitRecord) : result Z :=
  ReducePublicationWithIdentity outcome payloadExists payloadLength payloadSHA256 seal "" "" "" "".

(** ** The registered predicate *)
Record PredicateDecision : Set := MkDecision {
  dc_Verdict : string; dc_PayloadBasename : string; dc_RawPath : string; dc_PayloadContent : string }.

Definition dquote : string := str [quote].

(** [fixturePredicateV1Contract]; its quotes are written with [']. *)
Definition fixturePredicateV1Contract : string :=
  str (map (fun c => if bool_decide (c = "'"%char) then quote else c)
    (bytes "{'adapter':'fixture:test','mode':'read-only','version':'1','raw':['raw/stderr','raw/stdout'],'success':'started,exit_code=0,error=empty,stdout-size>0; preserve every stdout byte','refusals':{'start_failed':'start_failed: <error>','error':'capture_error: <error>','nonzero_exit':'provider_exit: <decimal-exit-code>','empty_stdout':'empty_answer'},'precedence':['start_failed','error','nonzero_exit','empty_stdout','success']}"
     ++ ["010"%char])).

Definition FixturePredicateRef : PredicateRef :=
  MkPredicateRef "fixture:test" "read-only" "1" (ComputeSHA256 fixturePredicateV1Contract).

(** [seal.RawManifest[1]]; a validated manifest has two entries. *)
Definition secondEntry (seal : ProviderExitRecord) : RawManifestEntry := nth 1 (pe_RawManifest seal) (MkEntry "" 0 "").

Definition fixtureRefusal (seal : ProviderExitRecord) : string :=
  if eqs (pe_InvocationState seal) InvocationStartFailed then str (bytes "start_failed: " ++ bytes (pe_Error seal))
  else if negb (eqs (pe_Error seal) "") then str (bytes "capture_error: " ++ bytes (pe_Error seal))
  else if negb (pe_ExitCode seal =? 0) then str (bytes "provider_exit: " ++ decimalText (pe_ExitCode seal))
  else if rm_Size (secondEntry seal) =? 0 then "empty_answer"
  else "".

Definition EvaluateRegisteredPredicate (ref : PredicateRef) (seal : option ProviderExitRecord) : result PredicateDecision :=
  fail_if (negb (PredicateEqual ref FixturePredicateRef)) (Sentinel task_ErrIncompatiblePredicate) ;;
  match seal with
  | None => Err (Sentinel task_ErrNoSeal)
  | Some s =>
      ValidateProviderExitRecord (Some s) ;;
      fail_if (negb (PredicateEqual ref (pe_Predicate s))) mismatch ;;
      let reason := fixtureRefusal s in
      if negb (eqs reason "") then Ok (MkDecision VerdictRejected "publish.reject" "" reason)
      else Ok (MkDecision VerdictCommitted "result.txt" "raw/stdout" "")
  end.

(** [EvaluateFixturePredicate]: verdict, payload basename and payload content. *)
Definition EvaluateFixturePredicate (seal : option ProviderExitRecord) (rawStdoutContent : string) : result (string * string * string) :=
  decision ← EvaluateRegisteredPredicate FixturePredicateRef seal;
  let entry := match seal with Some s => secondEntry s | None => MkEntry "" 0 "" end in
  fail_if (negb (rm_Size entry =? len rawStdoutContent) || negb (eqs (rm_SHA256 entry) (ComputeSHA256 rawStdoutContent)))
    (Sentinel task_ErrEvidenceFault) ;;
  Ok (dc_Verdict decision, dc_PayloadBasename decision,
      if negb (eqs (dc_RawPath decision) "") then rawStdoutContent else dc_PayloadContent decision).

(** ** Derived assessments *)
Definition RecheckSchemaVersion : Z := 1.
Definition RecheckStatusRecovered : string := "recovered".
Definition RecheckStatusRejected : string := "rejected".

Record RecheckReport : Set := MkRecheck {
  rr_SchemaVersion : Z; rr_AssessmentID : string; rr_SourceOutcomeSHA256 : string; rr_SourceSealSHA256 : string;
  rr_SourcePredicate : PredicateRef; rr_SourceEvidenceSHA256 : string; rr_TargetPredicate : PredicateRef; rr_Status : string;
  rr_Diagnostics : list OutputDiagnostic; rr_Result : option PayloadDescriptor }.

Record RecheckIdentity : Set := MkRecheckIdentity {
  ri_SourceOutcomeSHA256 : string; ri_SourceSealSHA256 : string; ri_TargetPredicate : PredicateRef }.

Definition jsonPredicateRef (p : PredicateRef) : json :=
  JObject [("adapter"%string, JString (pr_Adapter p)); ("mode"%string, JString (pr_Mode p));
           ("version"%string, JString (pr_Version p)); ("sha256"%string, JString (pr_SHA256 p))].
Definition jsonRecheckIdentity (i : RecheckIdentity) : json :=
  JObject [("source_outcome_sha256"%string, JString (ri_SourceOutcomeSHA256 i));
           ("source_seal_sha256"%string, JString (ri_SourceSealSHA256 i));
           ("target_predicate"%string, jsonPredicateRef (ri_TargetPredicate i))].

Definition validateRecheckIdentity (identity : RecheckIdentity) : result unit :=
  wrap_err (Errorf "invalid recheck identity source outcome") (ValidateSHA256 (ri_SourceOutcomeSHA256 identity)) ;;
  wrap_err (Errorf "invalid recheck identity source seal") (ValidateSHA256 (ri_SourceSealSHA256 identity)) ;;
  wrap_err (Errorf "invalid recheck identity target") (ValidatePredicateRef (ri_TargetPredicate identity)).

Definition RecheckAssessmentID (sourceOutcomeSHA256 sourceSealSHA256 : string) (target : PredicateRef) : result string :=
  let identity := MkRecheckIdentity sourceOutcomeSHA256 sourceSealSHA256 target in
  validateRecheckIdentity identity ;;
  Ok (ComputeSHA256 (MarshalCanonical (jsonRecheckIdentity identity))).

Definition recheckError (msg : string) : error := Errorf msg (Sentinel task_ErrInvalidRecheck).
Definition recheckCause (e : error) : error := Joined "" [Sentinel task_ErrInvalidRecheck; e].

Definition validateRecheckResult (report : RecheckReport) : result unit :=
  if eqs (rr_Status report) RecheckStatusRecovered then
    match rr_Result report with
    | None => Err (recheckError "recovered report requires result")
    | Some descriptor =>
        fail_if (negb (eqs (py_Basename descriptor) "result.txt")) (recheckError "recovered report requires result") ;;
        wrap_err recheckCause (ValidatePayloadDescriptor descriptor)
    end
  else fail_if (is_some (rr_Result report)) (recheckError "rejected report cannot contain result").

Definition ValidateRecheckReport (report : option RecheckReport) : result unit :=
  match report with
  | None => Err (Sentinel task_ErrInvalidRecheck)
  | Some r =>
      fail_if (negb (rr_SchemaVersion r =? RecheckSchemaVersion)) (Errorf "schema version" (Sentinel task_ErrUnsupportedSchema)) ;;
      wrap_err recheckCause (ValidateSHA256 (rr_SourceOutcomeSHA256 r)) ;;
      wrap_err recheckCause (ValidateSHA256 (rr_SourceSealSHA256 r)) ;;
      wrap_err recheckCause (ValidatePredicateRef (rr_SourcePredicate r)) ;;
      wrap_err recheckCause (ValidateSHA256 (rr_SourceEvidenceSHA256 r)) ;;
      wrap_err recheckCause (ValidatePredicateRef (rr_TargetPredicate r)) ;;
      fail_if (PredicateEqual (rr_SourcePredicate r) (rr_TargetPredicate r)) (recheckError "target equals source predicate") ;;
      fail_if (negb (eqs (rr_Status r) RecheckStatusRecovered) && negb (eqs (rr_Status r) RecheckStatusRejected))
        (recheckError "invalid status") ;;
      wrap_err recheckCause (ValidateOutputDiagnostics (rr_Diagnostics r)) ;;
      identityID ← RecheckAssessmentID (rr_SourceOutcomeSHA256 r) (rr_SourceSealSHA256 r) (rr_TargetPredicate r);
      fail_if (negb (eqs (rr_AssessmentID r) identityID)) (recheckError "assessment ID mismatch") ;;
      validateRecheckResult r
  end.
