(* ===== verification/TaskReducerTheorems.v ===== *)
(** * Theorems of publication

    The comparisons decide equality; the reduction of the evidence follows its decision
    table; the registered predicate follows its contract on the manifests it names. *)
From S2P Require Import Prelude GoErrors GoText GoPath TaskTypes Encoding TaskLifetime TaskConfiguration TaskRecords TaskReducer.
From Stdlib Require Import Ascii.
#[local] Open Scope Z_scope.

(** ** Comparisons *)
Lemma PredicateEqual_true p q : PredicateEqual p q = true <-> p = q.
Proof.
  unfold PredicateEqual. rewrite !andb_true_iff, !eqs_true. destruct p, q; cbn. naive_solver.
Qed.

Lemma compareList_true {A} `{EqDecision A} (a b : list A) : compareList a b = true <-> a = b.
Proof.
  unfold compareList. destruct a, b; cbn [length]; try apply bool_decide_eq_true; try done.
Qed.

Lemma sameWorkspaceBinding_true a b : sameWorkspaceBinding a b = true <-> a = b.
Proof. destruct a, b; cbn; rewrite ?bool_decide_eq_true; naive_solver. Qed.

(** A chain of early [return false]. *)
Lemma unless_true (b c : bool) : (if negb b then false else c) = true <-> b = true /\ c = true.
Proof. by destruct b; naive_solver. Qed.

Lemma negb_or (a b : bool) : negb a || negb b = negb (a && b).
Proof. by destruct a, b. Qed.

Lemma compare_outcomes_eq a b : CompareOutcomes a b = true <-> a = b.
Proof.
  destruct a as [a|], b as [b|]; cbn; try naive_solver. unfold sameOutcome, compareUsage, compareDiagnostics.
  rewrite !negb_or, !unless_true, !andb_true_iff, !eqs_true, Z.eqb_eq, PredicateEqual_true, bool_decide_eq_true, !compareList_true.
  destruct a, b; cbn. split; [intros H; destruct_and! H; by subst|intros H; injection H; intros; by subst].
Qed.

(** The part of a request that identifies the work. *)
Definition requestContent (r : TaskRecord) : string * string * string * TaskConfig * Z * option PriorSession * string * Z * option WorkspaceBinding * option TeamContext :=
  (tk_Provider r, tk_Mode r, tk_CanonicalCwd r, tk_RequestedConfig r, tk_BudgetNanos r, tk_PriorSession r, tk_BriefSHA256 r,
   tk_BriefLength r, tk_Workspace r, tk_Team r).

Lemma same_request_eq a b : sameRequest a b = true <-> requestContent a = requestContent b.
Proof.
  unfold sameRequest. rewrite !negb_or, !unless_true, !andb_true_iff, !eqs_true, !Z.eqb_eq, !bool_decide_eq_true, sameWorkspaceBinding_true.
  assert ((match tk_PriorSession a, tk_PriorSession b with
           | None, None => true | Some p, Some q => bool_decide (p = q) | _, _ => false end) = true <-> tk_PriorSession a = tk_PriorSession b) as ->
    by (destruct (tk_PriorSession a), (tk_PriorSession b); rewrite ?bool_decide_eq_true; naive_solver).
  unfold requestContent. split; [intros H; destruct_and! H; congruence|intros H; injection H; intros; by split_and!].
Qed.

(** ** The reduction *)
(** The identity a reader expects; an empty text expects nothing. *)
Definition expects (expected actual : string) : Prop := expected = ""%string \/ actual = expected.

Inductive publication (outcome : option OutcomeRecord) (payloadExists : bool) (payloadLength : Z) (payloadSHA256 : string)
    (seal : option ProviderExitRecord) (rootID taskID spec meta : string) : Z -> Prop :=
| pub_outcome o : outcome = Some o -> ValidateOutcomeRecord (Some o) = Ok tt ->
    expects rootID (oc_RootID o) -> expects taskID (oc_TaskID o) -> expects spec (oc_SpecSHA256 o) -> expects meta (oc_MetaSHA256 o) ->
    payloadExists = true -> py_Length (oc_Payload o) = payloadLength -> py_SHA256 (oc_Payload o) = payloadSHA256 ->
    publication outcome payloadExists payloadLength payloadSHA256 seal rootID taskID spec meta
      (if eqs (oc_Verdict o) VerdictCommitted then PublicationCommitted else PublicationRejected)
| pub_seal s : outcome = None -> seal = Some s -> ValidateProviderExitRecord (Some s) = Ok tt ->
    publication outcome payloadExists payloadLength payloadSHA256 seal rootID taskID spec meta PublicationPending
| pub_payload : outcome = None -> seal = None -> payloadExists = true ->
    publication outcome payloadExists payloadLength payloadSHA256 seal rootID taskID spec meta PublicationPending
| pub_none : outcome = None -> seal = None -> payloadExists = false ->
    publication outcome payloadExists payloadLength payloadSHA256 seal rootID taskID spec meta PublicationUnknown.

Lemma expects_check expected actual : negb (eqs expected "") && negb (eqs actual expected) = false <-> expects expected actual.
Proof.
  unfold expects. rewrite andb_false_iff, !negb_false_iff, !eqs_true. done.
Qed.

Lemma outcome_identity_Ok o rootID taskID spec meta : validateOutcomeIdentity o rootID taskID spec meta = Ok tt <->
  expects rootID (oc_RootID o) /\ expects taskID (oc_TaskID o) /\ expects spec (oc_SpecSHA256 o) /\ expects meta (oc_MetaSHA256 o).
Proof.
  unfold validateOutcomeIdentity. rewrite <- !expects_check.
  repeat match goal with |- context [fail_if ?b _] => destruct b eqn:?; cbn [fail_if mbind result_bind] end; naive_solver.
Qed.

Lemma outcome_verdict o : ValidateOutcomeRecord (Some o) = Ok tt -> oc_Verdict o = VerdictCommitted \/ oc_Verdict o = VerdictRejected.
Proof.
  cbn [ValidateOutcomeRecord]. intros H. do 3 (apply bind_Ok in H as ([] & _ & H)). clear -H. revert H.
  destruct (eqs (oc_Verdict o) VerdictCommitted) eqn:E1; [apply eqs_true in E1; auto|].
  destruct (eqs (oc_Verdict o) VerdictRejected) eqn:E2; [apply eqs_true in E2; auto|]. done.
Qed.

(** C35: The publication of a task is the one its evidence supports: committed or rejected
    exactly by a valid outcome of the expected identity whose payload is present with the
    recorded length and digest; pending by a valid seal or a payload alone; unknown by
    nothing.  In every other case the reduction fails.  The comparison that protects a
    published outcome decides equality of the whole record, and the comparison of requests
    equality of everything but the schema and the identifiers. *)
Theorem publication_exact outcome payloadExists payloadLength payloadSHA256 seal rootID taskID spec meta p :
  (ReducePublicationWithIdentity outcome payloadExists payloadLength payloadSHA256 seal rootID taskID spec meta = Ok p <->
   publication outcome payloadExists payloadLength payloadSHA256 seal rootID taskID spec meta p) /\
  (forall a b, CompareOutcomes a b = true <-> a = b) /\
  (forall a b, CompareRequests (Some a) (Some b) = true <-> requestContent a = requestContent b).
Proof.
  split; [|by split; [apply compare_outcomes_eq|apply same_request_eq]]. split.
  - unfold ReducePublicationWithIdentity. destruct outcome as [o|].
    + intros H. apply bind_Ok in H as ([] & Hv & H). apply bind_Ok in H as ([] & Hi & H). apply bind_Ok in H as ([] & Hp & H).
      apply fail_if_Ok in Hp. apply orb_false_iff in Hp as [Hp Hd]. apply orb_false_iff in Hp as [Hx Hl].
      apply negb_false_iff in Hx, Hl, Hd. apply Z.eqb_eq in Hl. apply eqs_true in Hd. apply outcome_identity_Ok in Hi as (? & ? & ? & ?).
      replace p with (if eqs (oc_Verdict o) VerdictCommitted then PublicationCommitted else PublicationRejected); [by apply (pub_outcome _ _ _ _ _ _ _ _ _ o)|].
      destruct (eqs (oc_Verdict o) VerdictCommitted); [by injection H|]. destruct (eqs (oc_Verdict o) VerdictRejected); [by injection H|done].
    + destruct seal as [s|]; [intros H; apply bind_Ok in H as ([] & Hs & [= <-]); by eapply pub_seal|].
      destruct payloadExists; intros [= <-]; [by apply pub_payload|by apply pub_none].
  - intros [o -> Hv H1 H2 H3 H4 -> H5 H6|s -> -> Hs| -> -> ->| -> -> ->]; unfold ReducePublicationWithIdentity; [|by rewrite Hs|done|done].
    rewrite Hv. cbn [mbind result_bind]. assert (validateOutcomeIdentity o rootID taskID spec meta = Ok tt) as -> by (by apply outcome_identity_Ok).
    rewrite H5, H6, Z.eqb_refl, eqs_refl. cbn [negb orb fail_if mbind result_bind].
    destruct (outcome_verdict o Hv) as [-> | ->]; done.
Qed.

(** ** The registered predicate *)
(** A manifest whose second entry is the standard error. *)
Definition artifactManifest (stderrSHA256 stdoutSHA256 : string) (stderrSize stdoutSize : Z) : list RawManifestEntry :=
  [MkEntry "raw/a" 1 stdoutSHA256; MkEntry "raw/stderr" stderrSize stderrSHA256; MkEntry "raw/stdout" stdoutSize stdoutSHA256].

Lemma seq_Ok {A} (m : result unit) (k : result A) a : m = Ok tt -> k = Ok a -> (m ;; k) = Ok a.
Proof. by intros -> ->. Qed.

Lemma artifact_manifest_valid digest size : hexText 64 digest = true -> 0 <= size ->
  let manifest := artifactManifest digest digest 0 size in
  ValidateRawManifest manifest (ComputeSHA256 (MarshalCanonical (jsonManifest manifest))) = Ok tt.
Proof.
  intros Hd Hs manifest. unfold ValidateRawManifest. apply seq_Ok; [reflexivity|].
  assert (forall path n, 0 <= n -> path ∈ ["raw/a"; "raw/stderr"; "raw/stdout"]%string -> validateRawEntry (MkEntry path n digest) = Ok tt) as He.
  { intros path n Hn Hp. unfold validateRawEntry. cbn [rm_Path rm_Size rm_SHA256]. apply Z.ltb_ge in Hn. rewrite Hn.
    apply ValidateSHA256_Ok in Hd. rewrite Hd. rewrite !elem_of_cons in Hp. destruct Hp as [-> | [-> | [-> | Hp]]]; [vm_compute; reflexivity..|set_solver]. }
  apply seq_Ok; [|apply seq_Ok; [vm_compute; reflexivity|by rewrite eqs_refl]].
  unfold manifest, artifactManifest. cbn [eachAfter].
  apply seq_Ok; [apply seq_Ok; [apply He; [lia|set_solver]|reflexivity]|].
  apply seq_Ok; [apply seq_Ok; [apply He; [lia|set_solver]|vm_compute; reflexivity]|].
  apply seq_Ok; [apply seq_Ok; [apply He; [lia|set_solver]|vm_compute; reflexivity]|done].
Qed.

Lemma predicate_valid digest : hexText 64 digest = true -> ValidatePredicateRef (MkPredicateRef "fixture:test" "read-only" "1" digest) = Ok tt.
Proof.
  intros Hd. unfold ValidatePredicateRef. cbn [pr_Adapter pr_Mode pr_Version pr_SHA256].
  do 4 (apply seq_Ok; [vm_compute; reflexivity|]). by apply ValidateSHA256_Ok.
Qed.

Lemma seal_valid rootID taskID digest ref manifest manifestDigest at_ : hexText 32 rootID = true -> hexText 32 taskID = true ->
  hexText 64 digest = true -> validateTimestamp at_ = Ok tt -> ValidatePredicateRef ref = Ok tt ->
  ValidateRawManifest manifest manifestDigest = Ok tt -> hexText 64 manifestDigest = true ->
  ValidateProviderExitRecord (Some (MkExit SchemaVersion rootID taskID digest digest InvocationStarted 0 "" ref manifest manifestDigest at_
    (MkRuntime "" "" ""))) = Ok tt.
Proof.
  intros Hr Ht Hd Ha Hf Hm Hmd. unfold ValidateProviderExitRecord, schemaAndIdentity, validateExitObservation.
  cbn [pe_SchemaVersion pe_RootID pe_TaskID pe_SpecSHA256 pe_MetaSHA256 pe_InvocationState pe_ManifestSHA256 pe_RawManifest
       pe_Predicate pe_Provider pe_ExitCode pe_ClosedAt pe_Error].
  apply seq_Ok; [apply seq_Ok; [reflexivity|]; apply seq_Ok; [unfold ValidateRootID; by rewrite Hr|by apply ValidateTaskID_Ok]|].
  do 2 (apply seq_Ok; [by apply wrap_err_Ok, ValidateSHA256_Ok|]). apply seq_Ok; [vm_compute; reflexivity|].
  apply seq_Ok; [by apply ValidateSHA256_Ok|]. apply seq_Ok; [exact Hm|].
  apply seq_Ok; [exact Hf|]. apply seq_Ok; [vm_compute; reflexivity|]. apply seq_Ok; [reflexivity|].
  by apply seq_Ok; [vm_compute; reflexivity|].
Qed.

Lemma evaluate_empty seal : ValidateProviderExitRecord (Some seal) = Ok tt -> pe_Predicate seal = FixturePredicateRef ->
  pe_InvocationState seal = InvocationStarted -> pe_Error seal = ""%string -> pe_ExitCode seal = 0 -> rm_Size (secondEntry seal) = 0 ->
  EvaluateRegisteredPredicate FixturePredicateRef (Some seal) = Ok (MkDecision VerdictRejected "publish.reject" "" "empty_answer").
Proof.
  intros Hv Hp H1 H2 H3 H4. unfold EvaluateRegisteredPredicate. rewrite Hp. generalize FixturePredicateRef. intros ref.
  assert (PredicateEqual ref ref = true) as He by (by apply PredicateEqual_true).
  rewrite He, Hv. cbn [negb fail_if mbind result_bind]. unfold fixtureRefusal. rewrite H1, H2, H3, H4. vm_compute. reflexivity.
Qed.

(** The fixture predicate takes the second entry of the manifest for the standard output,
    but the validator accepts a manifest with an artifact before both streams: a seal with
    an empty standard error and a nonempty standard output is refused as empty. *)
Lemma fixture_reads_second_entry rootID taskID digest at_ size : hexText 32 rootID = true -> hexText 32 taskID = true ->
  hexText 64 digest = true -> validateTimestamp at_ = Ok tt -> 0 < size ->
  let manifest := artifactManifest digest digest 0 size in
  let seal := MkExit SchemaVersion rootID taskID digest digest InvocationStarted 0 "" FixturePredicateRef manifest
                (ComputeSHA256 (MarshalCanonical (jsonManifest manifest))) at_ (MkRuntime "" "" "") in
  ValidateProviderExitRecord (Some seal) = Ok tt /\
  EvaluateRegisteredPredicate FixturePredicateRef (Some seal) = Ok (MkDecision VerdictRejected "publish.reject" "" "empty_answer").
Proof.
  intros Hr Ht Hd Ha Hs manifest seal.
  assert (ValidateProviderExitRecord (Some seal) = Ok tt) as Hv.
  { refine (seal_valid _ _ _ _ _ _ _ Hr Ht Hd Ha _ _ _).
    - exact (predicate_valid _ (ComputeSHA256_hex _)).
    - apply artifact_manifest_valid; [exact Hd|lia].
    - apply ComputeSHA256_hex. }
  split; [exact Hv|]. exact (evaluate_empty seal Hv eq_refl eq_refl eq_refl eq_refl eq_refl).
Qed.
