(* ===== verification/TaskRecordsJson.v ===== *)
(** * Canonical JSON of the task records

    The fields of each record of [internal/task] in the order of its Go struct, with
    the [omitempty] fields left out when they are zero.  [MarshalCanonical] of these
    values is what the task directory writes. *)
From S2P Require Import Prelude GoErrors GoTime GoText TaskTypes Encoding SchedRequest TaskLifetime TaskConfiguration TaskRecords TaskReducer.
#[local] Open Scope Z_scope.

Definition field (name value : string) : string * json := (name, JString value).
Definition number (name : string) (value : Z) : string * json := (name, JInt value).

(** ** Requests and plans *)
Definition jsonPriorSession (p : PriorSession) : json :=
  JObject [field "provider" (ps_Provider p); field "conversation_id" (ps_ConversationID p);
           field "predecessor_task_id" (ps_PredecessorTaskID p)].

Definition jsonWorkspaceBinding (w : WorkspaceBinding) : json :=
  JObject [field "id" (wb_ID w); number "reservation" (wb_Reservation w); field "request_sha256" (wb_RequestSHA256 w);
           number "budget_nanos" (wb_BudgetNanos w)].

Definition jsonTeamIntent (t : TeamIntent) : json :=
  JObject (omitString "provider" (ti_Provider t) ++ omitBool "auto" (ti_Auto t) ++
           [("config"%string, jsonTaskConfig (ti_Config t))]).

Definition jsonTeamRole (r : TeamRoleContext) : json :=
  JObject [field "id" (rc_ID r); field "name" (rc_Name r); field "responsibility" (rc_Responsibility r)].

Definition jsonTeamContext (t : TeamContext) : json :=
  JObject [number "schema_version" (tx_SchemaVersion t); ("target"%string, jsonTeamTarget (tx_Target t));
           number "team_revision" (tx_TeamRevision t); field "team_name" (tx_TeamName t);
           field "team_purpose" (tx_TeamPurpose t); field "member_name" (tx_MemberName t);
           ("roles"%string, JArray (map jsonTeamRole (tx_Roles t))); ("intent"%string, jsonTeamIntent (tx_Intent t))].

Definition jsonTaskRecord (r : TaskRecord) : json :=
  JObject ([number "schema_version" (tk_SchemaVersion r); field "root_id" (tk_RootID r); field "task_id" (tk_TaskID r);
            field "provider" (tk_Provider r); field "mode" (tk_Mode r); field "canonical_cwd" (tk_CanonicalCwd r);
            ("requested_config"%string, jsonTaskConfig (tk_RequestedConfig r)); number "budget_nanos" (tk_BudgetNanos r)] ++
           omitempty "prior_session" (jsonPriorSession <$> tk_PriorSession r) ++
           [field "brief_sha256" (tk_BriefSHA256 r); number "brief_length" (tk_BriefLength r)] ++
           omitempty "workspace" (jsonWorkspaceBinding <$> tk_Workspace r) ++
           omitempty "team" (jsonTeamContext <$> tk_Team r)).

Definition jsonSource (s : PolicySourceDigest) : json :=
  JObject [field "path" (ps_Path s); field "kind" (ps_Kind s); ("present"%string, JBool (ps_Present s)); field "sha256" (ps_SHA256 s)].

(** [omitempty] of a slice. *)
Definition omitArray {A} (name : string) (encode : A -> json) (l : list A) : list (string * json) :=
  omitempty name (match l with [] => None | _ => Some (JArray (map encode l)) end).

Definition jsonPolicyDetails (p : PolicyDetails) : json :=
  JObject ([field "profile_revision" (pd_ProfileRevision p); field "runtime_sha256" (pd_RuntimeSHA256 p);
            field "workspace" (pd_Workspace p)] ++
           omitArray "writable_roots" JString (pd_WritableRoots p) ++ omitArray "sources" jsonSource (pd_Sources p)).

Definition jsonEffectiveConfig (c : EffectiveConfig) : json :=
  JObject ([field "containment" (ec_Containment c); field "approval" (ec_Approval c); field "digest" (ec_Digest c)] ++
           omitempty "policy" (jsonPolicyDetails <$> ec_Policy c)).

(** The optional executable and resolution fields, which receipts repeat. *)
Definition resolutionFields (s : SupervisorRef) : list (string * json) :=
  omitString "client_executable" (sr_ClientExecutable s) ++ omitString "client_sha256" (sr_ClientSHA256 s) ++
  omitString "daemon_executable" (sr_DaemonExecutable s) ++ omitString "daemon_sha256" (sr_DaemonSHA256 s) ++
  omitString "executable_identity" (sr_ExecutableIdentity s) ++ omitString "resolution_os" (sr_ResolutionOS s) ++
  omitString "resolution_home" (sr_ResolutionHome s) ++ omitString "resolution_data_local" (sr_ResolutionDataLocal s) ++
  omitString "resolution_config" (sr_ResolutionConfig s) ++ omitString "resolution_runtime" (sr_ResolutionRuntime s) ++
  omitString "resolution_username" (sr_ResolutionUsername s) ++ omitString "resolution_cwd" (sr_ResolutionCwd s) ++
  omitString "resolved_config_sha256" (sr_ResolvedConfigSHA256 s).

Definition jsonSupervisorRef (s : SupervisorRef) : json :=
  JObject (resolutionFields s ++
           [field "endpoint" (sr_Endpoint s); field "config_path" (sr_ConfigPath s); field "config_digest" (sr_ConfigDigest s);
            field "observed_version" (sr_ObservedVersion s)]).

Definition jsonInputFile (f : InputFile) : json :=
  JObject [field "name" (if_Name f); number "argument_index" (if_ArgumentIndex f); field "content" (if_Content f)].
Definition jsonOutputArtifact (a : OutputArtifact) : json :=
  JObject [field "name" (oa_Name a); number "argument_index" (oa_ArgumentIndex a)].

Definition jsonMeta (m : MetaRecord) : json :=
  JObject ([number "schema_version" (me_SchemaVersion m); field "root_id" (me_RootID m); field "task_id" (me_TaskID m);
            field "spec_sha256" (me_SpecSHA256 m); ("requested_config"%string, jsonTaskConfig (me_RequestedConfig m));
            ("effective_config"%string, jsonEffectiveConfig (me_EffectiveConfig m)); field "containment" (me_Containment m);
            field "approval" (me_Approval m); field "provider_executable" (me_ProviderExecutable m);
            field "provider_version" (me_ProviderVersion m)] ++
           omitString "runtime_preflight_sha256" (me_RuntimePreflightSHA256 m) ++
           omitString "runner_executable" (me_RunnerExecutable m) ++ omitString "runner_ownership" (me_RunnerOwnership m) ++
           [field "publisher_build" (me_PublisherBuild m); field "publisher_version" (me_PublisherVersion m)] ++
           omitArray "environment" JString (me_Environment m) ++ omitBool "environment_recorded" (me_EnvironmentRecorded m) ++
           [("predicate"%string, jsonPredicateRef (me_Predicate m));
            ("supervisor_config"%string, jsonSupervisorRef (me_SupervisorConfig m)); field "created_at" (me_CreatedAt m)] ++
           omitArray "output_artifacts" jsonOutputArtifact (me_OutputArtifacts m) ++
           omitString "output_writer_contract" (me_OutputWriterContract m) ++
           omitArray "input_files" jsonInputFile (me_InputFiles m)).

(** ** Guards and observations *)
Definition jsonSubmit (r : SubmitRecord) : json :=
  JObject [number "schema_version" (sb_SchemaVersion r); field "root_id" (sb_RootID r); field "task_id" (sb_TaskID r);
           field "spec_sha256" (sb_SpecSHA256 r); field "meta_sha256" (sb_MetaSHA256 r); field "label" (sb_Label r);
           ("supervisor"%string, jsonSupervisorRef (sb_Supervisor r)); field "created_at" (sb_CreatedAt r)].

Definition jsonReceipt (r : SupervisorReceipt) : json :=
  let s := rp_Supervisor r in
  JObject (omitString "meta_sha256" (rp_MetaSHA256 r) ++ omitString "config_path" (sr_ConfigPath s) ++ resolutionFields s ++
           [number "schema_version" (rp_SchemaVersion r); field "root_id" (rp_RootID r); field "task_id" (rp_TaskID r);
            field "spec_sha256" (rp_SpecSHA256 r); number "numeric_task_id" (rp_NumericTaskID r); field "label" (rp_Label r);
            field "config_digest" (sr_ConfigDigest s); field "endpoint" (sr_Endpoint s);
            field "observed_version" (sr_ObservedVersion s)]).

Definition jsonStart (r : ProviderStartRecord) : json :=
  JObject [number "schema_version" (st_SchemaVersion r); field "root_id" (st_RootID r); field "task_id" (st_TaskID r);
           field "spec_sha256" (st_SpecSHA256 r); field "meta_sha256" (st_MetaSHA256 r); number "budget_nanos" (st_BudgetNanos r);
           field "created_at" (st_CreatedAt r)].

Definition runtimeFields (p : ProviderRuntimeIdentity) : list (string * json) :=
  omitString "provider_executable" (pi_Executable p) ++ omitString "provider_version" (pi_Version p) ++
  omitString "provider_sha256" (pi_SHA256 p).

Definition jsonStarted (r : ProviderStartedRecord) : json :=
  JObject ([number "schema_version" (sd_SchemaVersion r); field "root_id" (sd_RootID r); field "task_id" (sd_TaskID r);
            field "spec_sha256" (sd_SpecSHA256 r); field "meta_sha256" (sd_MetaSHA256 r); field "started_at" (sd_StartedAt r);
            number "diagnostic_nanos" (sd_DiagnosticNanos r)] ++ runtimeFields (sd_Provider r)).

Definition jsonProviderRef (r : ProviderRefRecord) : json :=
  JObject (omitString "meta_sha256" (pf_MetaSHA256 r) ++ omitString "provider" (pf_Provider r) ++
           omitString "observed_at" (pf_ObservedAt r) ++
           [number "schema_version" (pf_SchemaVersion r); field "root_id" (pf_RootID r); field "task_id" (pf_TaskID r);
            field "spec_sha256" (pf_SpecSHA256 r); field "conversation_id" (pf_ConversationID r)]).

(** ** Evidence and outcome *)
Definition jsonExit (r : ProviderExitRecord) : json :=
  JObject ([number "schema_version" (pe_SchemaVersion r); field "root_id" (pe_RootID r); field "task_id" (pe_TaskID r);
            field "spec_sha256" (pe_SpecSHA256 r); field "meta_sha256" (pe_MetaSHA256 r);
            field "invocation_state" (pe_InvocationState r); number "exit_code" (pe_ExitCode r); field "error" (pe_Error r);
            ("predicate"%string, jsonPredicateRef (pe_Predicate r)); ("raw_manifest"%string, jsonManifest (pe_RawManifest r));
            field "manifest_sha256" (pe_ManifestSHA256 r); field "closed_at" (pe_ClosedAt r)] ++ runtimeFields (pe_Provider r)).

Definition jsonUsage (u : UsageMetadata) : json :=
  let counter name o := omitempty name (JInt <$> o) in
  let text name o := omitempty name (JString <$> o) in
  JObject ([field "scope" (us_Scope u); field "source" (us_Source u); field "reliability" (us_Reliability u)] ++
           counter "input_tokens"%string (us_InputTokens u) ++ counter "output_tokens"%string (us_OutputTokens u) ++
           counter "thinking_tokens"%string (us_ThinkingTokens u) ++ counter "total_tokens"%string (us_TotalTokens u) ++
           counter "cache_read_tokens"%string (us_CacheReadTokens u) ++ counter "num_turns"%string (us_NumTurns u) ++
           text "duration_seconds"%string (us_DurationSeconds u) ++ text "model"%string (us_Model u) ++
           counter "cache_creation_tokens"%string (us_CacheCreationTokens u) ++
           text "estimated_cost_usd"%string (us_EstimatedCostUSD u)).

Definition jsonDiagnostic (d : OutputDiagnostic) : json :=
  JObject ([field "code" (dg_Code d); field "message" (dg_Message d)] ++ omitString "field" (dg_Field d) ++
           omitInt "event" (dg_Event d) ++ omitInt "offset" (dg_Offset d)).

Definition jsonPayload (p : PayloadDescriptor) : json :=
  JObject [field "basename" (py_Basename p); number "length" (py_Length p); field "sha256" (py_SHA256 p)].

Definition jsonOutcome (o : OutcomeRecord) : json :=
  JObject ([number "schema_version" (oc_SchemaVersion o); field "root_id" (oc_RootID o); field "task_id" (oc_TaskID o);
            field "spec_sha256" (oc_SpecSHA256 o); field "meta_sha256" (oc_MetaSHA256 o); field "verdict" (oc_Verdict o);
            field "evidence_sha256" (oc_EvidenceSHA256 o); ("predicate"%string, jsonPredicateRef (oc_Predicate o));
            ("payload"%string, jsonPayload (oc_Payload o))] ++
           omitArray "usage" jsonUsage (oc_Usage o) ++ omitArray "diagnostics" jsonDiagnostic (oc_Diagnostics o)).

(** ** Stops and sessions *)
Definition jsonStopRequest (r : StopRequestRecord) : json :=
  JObject (omitempty "numeric_task_id" (JInt <$> sq_NumericTaskID r) ++ omitString "meta_sha256" (sq_MetaSHA256 r) ++
           omitString "label" (sq_Label r) ++ omitInt "budget_nanos" (sq_BudgetNanos r) ++ omitString "deadline" (sq_Deadline r) ++
           [number "schema_version" (sq_SchemaVersion r); field "root_id" (sq_RootID r); field "task_id" (sq_TaskID r);
            field "spec_sha256" (sq_SpecSHA256 r); field "request_id" (sq_RequestID r); field "cause" (sq_Cause r);
            ("supervisor"%string, jsonSupervisorRef (sq_Supervisor r)); field "requested_at" (sq_RequestedAt r)]).

(** The fields that stop replies and stop observations share. *)
Definition stopEvidenceFields (meta label : string) (supervisor : option SupervisorRef) (request : string) (numeric : option Z)
  : list (string * json) :=
  omitString "meta_sha256" meta ++ omitString "label" label ++ omitempty "supervisor" (jsonSupervisorRef <$> supervisor) ++
  omitString "request_sha256" request ++ omitempty "numeric_task_id" (JInt <$> numeric).

Definition jsonStopReply (r : StopReplyRecord) : json :=
  JObject (omitString "action" (sy_Action r) ++
           stopEvidenceFields (sy_MetaSHA256 r) (sy_Label r) (sy_Supervisor r) (sy_RequestSHA256 r) (sy_NumericTaskID r) ++
           [number "schema_version" (sy_SchemaVersion r); field "root_id" (sy_RootID r); field "task_id" (sy_TaskID r);
            field "spec_sha256" (sy_SpecSHA256 r); field "request_id" (sy_RequestID r);
            ("acknowledged"%string, JBool (sy_Acknowledged r)); field "message" (sy_Message r); field "replied_at" (sy_RepliedAt r)]).

Definition jsonStopObserved (r : StopObservedRecord) : json :=
  JObject (omitString "state" (so_State r) ++
           stopEvidenceFields (so_MetaSHA256 r) (so_Label r) (so_Supervisor r) (so_RequestSHA256 r) (so_NumericTaskID r) ++
           [number "schema_version" (so_SchemaVersion r); field "root_id" (so_RootID r); field "task_id" (so_TaskID r);
            field "spec_sha256" (so_SpecSHA256 r); field "request_id" (so_RequestID r);
            ("terminated"%string, JBool (so_Terminated r)); field "observed_at" (so_ObservedAt r)]).

Definition jsonSessionClaim (r : SessionClaimRecord) : json :=
  JObject [number "schema_version" (sc_SchemaVersion r); field "provider" (sc_Provider r);
           field "conversation_id" (sc_ConversationID r); field "root_id" (sc_RootID r); field "task_id" (sc_TaskID r);
           field "claimed_at" (sc_ClaimedAt r)].

Definition jsonSessionRelease (r : SessionReleaseRecord) : json :=
  JObject [number "schema_version" (sl_SchemaVersion r); field "provider" (sl_Provider r);
           field "conversation_id" (sl_ConversationID r); field "root_id" (sl_RootID r); field "task_id" (sl_TaskID r);
           field "predecessor_evidence_sha256" (sl_PredecessorEvidenceSHA256 r); field "released_at" (sl_ReleasedAt r)].
