(* ===== verification/TaskDir.v ===== *)
(** * The task directory: its prepared set and its readers

    [internal/taskdir/taskdir.go], [supervisor_records.go], [execution.go],
    [launch_files.go], [stop.go], [publication.go], [rooted.go]: the validated readers of
    one task's durable records.  A directory is the disk of [ControlDir] with names
    relative to the task directory; every file-system call, lock and context check takes
    the next fault of an arbitrary list.  The strict decoders of [encoding/json] are
    parameters. *)
From S2P Require Import Prelude GoErrors GoTime GoText TaskTypes Encoding GoPath GoTimestamp TaskLifetime LifetimeClosure ControlDir.
From S2P Require Import TaskConfiguration TaskRecords TaskReducer SchedRequest TaskRecordsJson.
From Stdlib Require Import Ascii.
#[local] Open Scope Z_scope.
#[local] Open Scope tx_scope.

(** ** Calls *)
(** [ctx.Err()], [lifetimeContextErr]: a context may end at any check. *)
Definition contextErr : Tx unit := systemCall.

(** [errors.Join(err, call())] after [m], whose value is kept when both succeed. *)
Definition txJoin {A} (m : Tx A) (call : Tx unit) : Tx A :=
  r <- txTry m ;; c <- txTry call ;;
  match r, errors_Join [err_of r; err_of c] with
  | Ok a, None => txRet a
  | _, e => txErr (default (New "") e)
  end.

(** A deferred [errors.Join(resultErr, call())] that runs only when [m] fails. *)
Definition txOnFailure {A} (m : Tx A) (call : Tx unit) : Tx A :=
  r <- txTry m ;;
  match r with
  | Ok a => txRet a
  | Err e => c <- txTry call ;; txErr (default e (errors_Join [Some e; err_of c]))
  end.

(** [errors.Join(a, b)] of two nilable errors, returned. *)
Definition txErrors (errs : list (option error)) : Tx unit :=
  match errors_Join errs with Some e => txErr e | None => txRet tt end.

(** A lock that is tried without waiting; [busy] when another process holds it. *)
Definition tryLock (busy : bool) : Tx unit := systemCall ;;; txFail busy (Sentinel task_ErrLockBusy).
Definition unlock : Tx unit := systemCall.

(** ** Files *)
(** [store.exists], [store.entryExists] *)
Definition exists_ (name : string) : Tx bool :=
  systemCall ;;; fun d => (Ok (bool_decide (is_Some (files d !! name))), d).

Definition decoded {A} (r : A + decodeFailure) : result A :=
  match r with inl a => Ok a | inr f => Err (decodeErr f) end.

(** [store.readRecord] with the strict decoder of the record. *)
Definition readRecord {A} (decode : string -> A + decodeFailure) (name : string) : Tx A :=
  data <- readBytes name MaxControlRecordSize ;; txOf (decoded (decode data)).

(** [store.fileDigest] *)
Definition fileDigest (name : string) : Tx (string * Z) :=
  systemCall ;;;
  fun d => match files d !! name with
           | None => (Err errNotExist, d)
           | Some b => (Ok (ComputeSHA256 b, len b), d)
           end.

(** [store.readDigest] *)
Definition readDigest (name : string) (limit : Z) : Tx (string * Z) :=
  data <- readBytes name limit ;; txRet (ComputeSHA256 data, len data).

(** [commitRecord], and every [errors.Join] of a staging error with its cleanup error. *)
Definition stageRecord (name data : string) : Tx unit :=
  r <- stageReader name data ;;
  let '(_, cleanup, err) := r in txErrors [err; cleanup].

Definition commitRecord (name : string) (record : json) : Tx unit :=
  data <- txOf (marshalControlRecord record) ;; stageRecord name data.

(** [acknowledgeRecord]: the barrier of the directory, between two observers. *)
Definition acknowledgeRecord (name : string) : Tx unit :=
  txMapErr (fun e => Joined "" [Sentinel task_ErrUncertainDurability; e]) systemCall ;;; systemCall.

(** ** Decoders *)
Record TaskDecoders : Set := MkTaskDecoders {
  dec_Task : string -> TaskRecord + decodeFailure;
  dec_Meta : string -> MetaRecord + decodeFailure;
  dec_Submit : string -> SubmitRecord + decodeFailure;
  dec_Receipt : string -> SupervisorReceipt + decodeFailure;
  dec_Start : string -> ProviderStartRecord + decodeFailure;
  dec_ProviderRef : string -> ProviderRefRecord + decodeFailure;
  dec_Exit : string -> ProviderExitRecord + decodeFailure;
  dec_Outcome : string -> OutcomeRecord + decodeFailure;
  dec_StopRequest : string -> StopRequestRecord + decodeFailure;
  dec_StopReply : string -> StopReplyRecord + decodeFailure;
  dec_StopObserved : string -> StopObservedRecord + decodeFailure
}.

Section task.
Context (D : TaskDecoders) (RootID TaskID : string).

(** ** The prepared set *)
Record prepared : Set := MkPrepared { pp_req : TaskRecord; pp_meta : MetaRecord; pp_spec : string; pp_metaHash : string }.

(** [decodeTaskRequest] *)
Definition decodeTaskRequest (data : string) : result TaskRecord :=
  request ← decoded (dec_Task D data);
  ValidateTaskRecord (Some request) ;;
  fail_if (negb (eqs (tk_RootID request) RootID) || negb (eqs (tk_TaskID request) TaskID)) mismatch ;;
  Ok request.

Definition matchPrepared (req : TaskRecord) (meta : MetaRecord) (brief : string * Z) (spec : string) : result unit :=
  fail_if (negb (eqs (tk_RootID req) RootID) || negb (eqs (tk_TaskID req) TaskID) || negb (eqs (me_RootID meta) RootID) ||
           negb (eqs (me_TaskID meta) TaskID) || negb (eqs (me_SpecSHA256 meta) spec)) mismatch ;;
  fail_if (negb (eqs (tk_BriefSHA256 req) (fst brief)) || negb (tk_BriefLength req =? snd brief)) mismatch ;;
  fail_if (negb (eqs (pr_Adapter (me_Predicate meta)) (tk_Provider req)) ||
           negb (eqs (pr_Mode (me_Predicate meta)) (tk_Mode req)) ||
           negb (bool_decide (tk_RequestedConfig req = me_RequestedConfig meta))) mismatch.

(** [if err == nil { check } else if !errors.Is(err, os.ErrNotExist) { return err }] *)
Definition checkPresent {A} (read : Tx A) (check : A -> result unit) : Tx unit :=
  r <- txTry read ;;
  match r with
  | Ok a => txOf (check a)
  | Err e => if errors_Is e fs_ErrNotExist then txRet tt else txErr e
  end.

Definition validateSubmitGuard (meta : MetaRecord) (specHash metaHash : string) : Tx unit :=
  checkPresent (readRecord (dec_Submit D) "submit.json") (fun submit =>
    ValidateSubmitRecord (Some submit) ;;
    fail_if (negb (eqs (sb_RootID submit) RootID) || negb (eqs (sb_TaskID submit) TaskID) ||
             negb (eqs (sb_SpecSHA256 submit) specHash) || negb (eqs (sb_MetaSHA256 submit) metaHash) ||
             negb (bool_decide (sb_Supervisor submit = me_SupervisorConfig meta))) mismatch).

Definition validateStartGuard (req : TaskRecord) (specHash metaHash : string) : Tx unit :=
  checkPresent (readRecord (dec_Start D) "provider.start") (fun start =>
    ValidateProviderStartRecord (Some start) ;;
    fail_if (negb (eqs (st_RootID start) RootID) || negb (eqs (st_TaskID start) TaskID) ||
             negb (eqs (st_SpecSHA256 start) specHash) || negb (eqs (st_MetaSHA256 start) metaHash) ||
             negb (st_BudgetNanos start =? tk_BudgetNanos req)) mismatch).

Definition validateGuards (req : TaskRecord) (meta : MetaRecord) (specHash metaHash : string) : Tx unit :=
  validateSubmitGuard meta specHash metaHash ;;; validateStartGuard req specHash metaHash.

Definition loadAndValidatePreparedSetWithReader (brief : string * Z) (read : string -> Z -> Tx string) : Tx prepared :=
  reqBytes <- read "task.json"%string MaxControlRecordSize ;;
  metaBytes <- read "meta.json"%string MaxControlRecordSize ;;
  req <- txOf (decodeTaskRequest reqBytes) ;;
  meta <- txOf (decoded (dec_Meta D metaBytes)) ;;
  txOf (ValidateMetaRecord (Some meta)) ;;;
  let specHash := ComputeSHA256 reqBytes in
  let metaHash := ComputeSHA256 metaBytes in
  txOf (matchPrepared req meta brief specHash) ;;;
  validateGuards req meta specHash metaHash ;;;
  txRet (MkPrepared req meta specHash metaHash).

Definition loadAndValidatePreparedSet : Tx prepared :=
  brief <- readDigest "brief.md" MaxBriefSize ;;
  loadAndValidatePreparedSetWithReader brief readBytes.

(** [readBytesContext], [readDigestContext] *)
Definition readBytesContext (name : string) (limit : Z) : Tx string :=
  contextErr ;;; txJoin (readBytes name limit) contextErr.

Definition loadPreparedSetContext : Tx prepared :=
  brief <- (contextErr ;;; txJoin (readDigest "brief.md" MaxBriefSize) contextErr) ;;
  loadAndValidatePreparedSetWithReader brief readBytesContext.

Definition loadAndValidatePreparedSetContext : Tx prepared := txJoin loadPreparedSetContext contextErr.

(** ** Raw evidence *)
Definition existingOutputs (outputs : list OutputArtifact) : Tx (list string) :=
  foldr (fun output rest =>
           found <- exists_ (str (bytes "raw/" ++ bytes (oa_Name output))) ;;
           names <- rest ;;
           txRet (if found then oa_Name output :: names else names)) (txRet []) outputs.

Definition admittedRawNames : Tx (list string) :=
  p <- loadAndValidatePreparedSet ;;
  imported <- existingOutputs (me_OutputArtifacts (pp_meta p)) ;;
  txRet (["stderr"; "stdout"]%string ++
         (if tc_Interactive (me_RequestedConfig (pp_meta p)) then ["interaction"%string] else []) ++ imported).

Definition rawPath (name : string) : string := str (bytes "raw/" ++ bytes name).

Fixpoint manifestEntries (names : list string) : Tx (list RawManifestEntry) :=
  match names with
  | [] => txRet []
  | name :: rest =>
      f <- fileDigest (rawPath name) ;;
      entries <- manifestEntries rest ;;
      txRet (MkEntry (rawPath name) (snd f) (fst f) :: entries)
  end.

(** [rawManifest]: the entries of the admitted names in order, and their digest. *)
Definition rawManifest : Tx (list RawManifestEntry * string) :=
  names <- admittedRawNames ;;
  manifest <- manifestEntries (merge_sort (nameOrder id) names) ;;
  txRet (manifest, ComputeSHA256 (MarshalCanonical (jsonManifest manifest))).

Definition allowedRawPaths (meta : MetaRecord) : list string :=
  ["raw/stdout"; "raw/stderr"]%string ++
  (if tc_Interactive (me_RequestedConfig meta) then ["raw/interaction"%string] else []) ++
  map (fun output => rawPath (oa_Name output)) (me_OutputArtifacts meta).

Definition validateManifestDeclarations (manifest : list RawManifestEntry) : Tx unit :=
  p <- loadAndValidatePreparedSet ;;
  txFail (existsb (fun e => negb (bool_decide (rm_Path e ∈ allowedRawPaths (pp_meta p)))) manifest) evidenceFault.

Fixpoint sealedFilesMatch (manifest : list RawManifestEntry) : Tx unit :=
  match manifest with
  | [] => txRet tt
  | entry :: rest =>
      f <- fileDigest (rm_Path entry) ;;
      txFail (negb (eqs (fst f) (rm_SHA256 entry)) || negb (snd f =? rm_Size entry)) evidenceFault ;;;
      sealedFilesMatch rest
  end.

Definition validateSealedFiles (seal : ProviderExitRecord) : Tx unit :=
  validateManifestDeclarations (pe_RawManifest seal) ;;; sealedFilesMatch (pe_RawManifest seal).

Definition readSealRecord (predicate : PredicateRef) (spec meta : string) : Tx ProviderExitRecord :=
  r <- txTry (readRecord (dec_Exit D) "provider.exit") ;;
  match r with
  | Err e => txErr (if errors_Is e fs_ErrNotExist then Sentinel task_ErrNoSeal else e)
  | Ok seal =>
      txOf (ValidateProviderExitRecord (Some seal)) ;;;
      txFail (negb (PredicateEqual (pe_Predicate seal) predicate)) (Sentinel task_ErrIncompatiblePredicate) ;;;
      txFail (negb (eqs (pe_RootID seal) RootID) || negb (eqs (pe_TaskID seal) TaskID) ||
              negb (eqs (pe_SpecSHA256 seal) spec) || negb (eqs (pe_MetaSHA256 seal) meta)) mismatch ;;;
      started <- exists_ "provider.start" ;;
      txFail (negb started) evidenceFault ;;;
      validateSealedFiles seal ;;;
      txRet seal
  end.

Definition readSeal (predicate : PredicateRef) (spec meta : string) : Tx ProviderExitRecord :=
  txMapErr (fun e => if errors_Is e task_ErrNoSeal then e else Joined "" [evidenceFault; e])
    (readSealRecord predicate spec meta).

(** ** The published outcome *)
Definition errNoOutcome : error := Sentinel taskdir_errNoOutcome.

Definition readWinnerRecord (meta : MetaRecord) (specHash metaHash : string) : Tx OutcomeRecord :=
  r <- txTry (readRecord (dec_Outcome D) "outcome.json") ;;
  match r with
  | Err e => txErr (if errors_Is e fs_ErrNotExist then errNoOutcome else e)
  | Ok outcome =>
      txOf (ValidateOutcomeRecord (Some outcome)) ;;;
      txFail (negb (eqs (oc_RootID outcome) RootID) || negb (eqs (oc_TaskID outcome) TaskID) ||
              negb (eqs (oc_SpecSHA256 outcome) specHash) || negb (eqs (oc_MetaSHA256 outcome) metaHash)) mismatch ;;;
      txFail (negb (PredicateEqual (oc_Predicate outcome) (me_Predicate meta))) (Sentinel task_ErrIncompatiblePredicate) ;;;
      f <- fileDigest (py_Basename (oc_Payload outcome)) ;;
      txFail (negb (eqs (fst f) (py_SHA256 (oc_Payload outcome))) || negb (snd f =? py_Length (oc_Payload outcome))) evidenceFault ;;;
      m <- rawManifest ;;
      txFail (negb (eqs (oc_EvidenceSHA256 outcome) (snd m))) evidenceFault ;;;
      txRet outcome
  end.

Definition readWinner (meta : MetaRecord) (specHash metaHash : string) : Tx OutcomeRecord :=
  txMapErr (fun e => if errors_Is e taskdir_errNoOutcome then e else Joined "" [Sentinel task_ErrInvariantFault; e])
    (readWinnerRecord meta specHash metaHash).

(** ** Supervisor records *)
Definition ReadSubmission : Tx SubmitRecord :=
  p <- loadAndValidatePreparedSet ;;
  r <- readRecord (dec_Submit D) "submit.json" ;;
  txOf (ValidateSubmitRecord (Some r)) ;;;
  txFail (negb (eqs (sb_RootID r) RootID) || negb (eqs (sb_TaskID r) TaskID) || negb (eqs (sb_SpecSHA256 r) (pp_spec p)) ||
          negb (eqs (sb_MetaSHA256 r) (pp_metaHash p)) ||
          negb (bool_decide (sb_Supervisor r = me_SupervisorConfig (pp_meta p)))) mismatch ;;;
  txRet r.

Definition matchSupervisorReceipt (r : SupervisorReceipt) (submit : SubmitRecord) : result unit :=
  ValidateSupervisorReceipt (Some r) ;;
  fail_if (negb (eqs (rp_RootID r) (sb_RootID submit)) || negb (eqs (rp_TaskID r) (sb_TaskID submit)) ||
           negb (eqs (rp_SpecSHA256 r) (sb_SpecSHA256 submit)) || negb (eqs (rp_MetaSHA256 r) (sb_MetaSHA256 submit)) ||
           negb (eqs (rp_Label r) (sb_Label submit)) || negb (bool_decide (rp_Supervisor r = sb_Supervisor submit))) mismatch.

Definition ReadSupervisorReceipt : Tx SupervisorReceipt :=
  submit <- ReadSubmission ;;
  r <- readRecord (dec_Receipt D) "supervisor.ref.json" ;;
  txOf (matchSupervisorReceipt r submit) ;;;
  txRet r.

(** [ReadProviderIdentityPresence]: the identity or the error, and whether the record is
    known to be absent.  A not-exist error may come from anywhere in the read, so an exact
    check of the entry decides. *)
Definition matchProviderIdentity (r : ProviderRefRecord) (p : prepared) : result ProviderRefRecord :=
  ValidateProviderRefRecord (Some r) ;;
  fail_if (negb (eqs (pf_RootID r) RootID) || negb (eqs (pf_TaskID r) TaskID) || negb (eqs (pf_SpecSHA256 r) (pp_spec p)) ||
           negb (eqs (pf_MetaSHA256 r) (pp_metaHash p)) || negb (eqs (pf_Provider r) (tk_Provider (pp_req p)))) mismatch ;;
  fail_if (match tk_PriorSession (pp_req p) with
           | Some prior => negb (eqs (pf_ConversationID r) (ps_ConversationID prior))
           | None => false
           end) mismatch ;;
  Ok r.

Definition ReadProviderIdentityPresence : Tx (result ProviderRefRecord * bool) :=
  p <- txTry loadAndValidatePreparedSet ;;
  match p with
  | Err e => txRet (Err e, false)
  | Ok p =>
      r <- txTry (readRecord (dec_ProviderRef D) "provider.ref.json") ;;
      match r with
      | Err e =>
          if negb (RecordAbsent e) then txRet (Err e, false)
          else
            present <- txTry (exists_ "provider.ref.json") ;;
            txRet match present with
                  | Err statErr => (Err (default e (errors_Join [Some e; Some statErr])), false)
                  | Ok present => (Err e, negb present)
                  end
      | Ok r => txRet (matchProviderIdentity r p, false)
      end
  end.

(** [ReadProviderIdentity] *)
Definition ReadProviderIdentity : Tx ProviderRefRecord :=
  r <- ReadProviderIdentityPresence ;; txOf (fst r).

(** ** Stop records *)
Definition stopRequestSuffix : string := ".request.json".
Definition stopReplySuffix : string := ".reply.json".
Definition stopObservedSuffix : string := ".observed.json".
Definition MaxStopRecords : Z := 64.
Definition MaxStopInspectionBytes : Z := 8 * MaxControlRecordSize.
Definition maxStopRecordEntries : Z := 3 * MaxStopRecords.

Definition stopName (id suffix : string) : string := str (bytes "stop/" ++ bytes id ++ bytes suffix).

Definition ReadStopRequest (id : string) : Tx StopRequestRecord :=
  txOf (ValidateStopRequestID id) ;;;
  r <- readRecord (dec_StopRequest D) (stopName id stopRequestSuffix) ;;
  txOf (ValidateStopRequestRecord (Some r)) ;;;
  p <- loadAndValidatePreparedSet ;;
  txFail (negb (eqs (sq_RequestID r) id) || negb (eqs (sq_RootID r) RootID) || negb (eqs (sq_TaskID r) TaskID) ||
          negb (eqs (sq_SpecSHA256 r) (pp_spec p)) || negb (eqs (sq_MetaSHA256 r) (pp_metaHash p)) ||
          negb (bool_decide (sq_Supervisor r = me_SupervisorConfig (pp_meta p))) ||
          negb (sq_BudgetNanos r =? tk_BudgetNanos (pp_req p))) mismatch ;;;
  match sq_NumericTaskID r with
  | None => txRet r
  | Some n =>
      receipt <- ReadSupervisorReceipt ;;
      txFail (negb (n =? rp_NumericTaskID receipt)) mismatch ;;;
      txRet r
  end.

(** [stopEvidence] *)
Definition stopEvidence (id : string) : Tx (StopRequestRecord * string * SupervisorReceipt) :=
  r <- ReadStopRequest id ;;
  txFail (negb (is_some (sq_NumericTaskID r))) mismatch ;;;
  data <- readBytes (stopName id stopRequestSuffix) MaxControlRecordSize ;;
  receipt <- ReadSupervisorReceipt ;;
  txRet (r, ComputeSHA256 data, receipt).

Definition stopEvidenceMatches (request : StopRequestRecord) (digest : string) (receipt : SupervisorReceipt)
    (root id spec meta label requestID requestSHA : string) (supervisor : option SupervisorRef) (numeric : option Z) : bool :=
  eqs root (sq_RootID request) && eqs id (sq_TaskID request) && eqs spec (sq_SpecSHA256 request) &&
  eqs meta (sq_MetaSHA256 request) && eqs label (sq_Label request) && eqs requestID (sq_RequestID request) &&
  eqs requestSHA digest && bool_decide (supervisor = Some (sq_Supervisor request)) &&
  bool_decide (numeric = Some (rp_NumericTaskID receipt)).

Definition ReadStopReply (id : string) : Tx StopReplyRecord :=
  e <- stopEvidence id ;;
  let '(request, digest, receipt) := e in
  r <- readRecord (dec_StopReply D) (stopName id stopReplySuffix) ;;
  txOf (ValidateStopReplyRecord (Some r)) ;;;
  txFail (negb (stopEvidenceMatches request digest receipt (sy_RootID r) (sy_TaskID r) (sy_SpecSHA256 r) (sy_MetaSHA256 r)
                  (sy_Label r) (sy_RequestID r) (sy_RequestSHA256 r) (sy_Supervisor r) (sy_NumericTaskID r))) mismatch ;;;
  txRet r.

Definition ReadStopObservation (id : string) : Tx StopObservedRecord :=
  e <- stopEvidence id ;;
  let '(request, digest, receipt) := e in
  r <- readRecord (dec_StopObserved D) (stopName id stopObservedSuffix) ;;
  txOf (ValidateStopObservedRecord (Some r)) ;;;
  txFail (negb (stopEvidenceMatches request digest receipt (so_RootID r) (so_TaskID r) (so_SpecSHA256 r) (so_MetaSHA256 r)
                  (so_Label r) (so_RequestID r) (so_RequestSHA256 r) (so_Supervisor r) (so_NumericTaskID r))) mismatch ;;;
  txRet r.

Record StopRecord : Set := MkStopRecord {
  sp_Request : StopRequestRecord; sp_Reply : option StopReplyRecord; sp_Observation : option StopObservedRecord }.

Record stopRecordIDs : Set := MkStopIDs {
  sd_requests : gset string; sd_replies : gset string; sd_observations : gset string; sd_entries : Z }.

(** [IsRecognizedStageFile] *)
Definition IsRecognizedStageFile (name : string) : bool :=
  (len name =? 42) && HasPrefix name "stage." && HasSuffix name ".tmp" &&
  forallb isHexLower (take 32 (drop 6 (bytes name))).

Definition trimSuffix (name suffix : string) : string := str (take (length (bytes name) - length (bytes suffix)) (bytes name)).

(** [stopRecordName] *)
Definition stopRecordName (name : string) : option (string * string) :=
  let try suffix := if HasSuffix name suffix then Some suffix else None in
  match try stopRequestSuffix, try stopReplySuffix, try stopObservedSuffix with
  | Some s, _, _ | None, Some s, _ | None, None, Some s =>
      let id := trimSuffix name s in if eqs id "" then None else Some (s, id)
  | None, None, None => None
  end.

Definition stopLimit (msg : string) : error := Errorf msg (Sentinel taskdir_ErrStopInspectionLimit).

Definition addStopRecordName (ids : stopRecordIDs) (name : string) : result stopRecordIDs :=
  if IsRecognizedStageFile name then Ok ids
  else match stopRecordName name with
       | None => Err (Errorf "unexpected stop entry" evidenceFault)
       | Some (kind, id) =>
           wrap_err (fun _ => Errorf "invalid stop entry" evidenceFault) (ValidateStopRequestID id) ;;
           fail_if (maxStopRecordEntries <=? sd_entries ids) (stopLimit "stop record entries") ;;
           let ids := MkStopIDs (sd_requests ids) (sd_replies ids) (sd_observations ids) (sd_entries ids + 1) in
           if eqs kind stopRequestSuffix then
             fail_if (MaxStopRecords <=? Z.of_nat (size (sd_requests ids))) (stopLimit "stop requests") ;;
             Ok (MkStopIDs ({[id]} ∪ sd_requests ids) (sd_replies ids) (sd_observations ids) (sd_entries ids))
           else if eqs kind stopReplySuffix
           then Ok (MkStopIDs (sd_requests ids) ({[id]} ∪ sd_replies ids) (sd_observations ids) (sd_entries ids))
           else Ok (MkStopIDs (sd_requests ids) (sd_replies ids) ({[id]} ∪ sd_observations ids) (sd_entries ids))
       end.

Fixpoint addStopRecordNames (ids : stopRecordIDs) (names : list string) : result stopRecordIDs :=
  match names with
  | [] => Ok ids
  | name :: rest => ids ← addStopRecordName ids name; addStopRecordNames ids rest
  end.

(** The entries of [stop/], in an order that decides only which of several faults is
    reported. *)
Definition stopEntries (fs : gmap string string) : list string :=
  omap (fun name => let '(rest, found) := CutPrefix name "stop/" in if found then Some rest else None)
    (map fst (map_to_list fs)).

(** [discoverStopRecordIDs]; an absent directory has no entries. *)
Definition discoverStopRecordIDs : Tx stopRecordIDs :=
  systemCall ;;;
  names <- (fun d => (Ok (stopEntries (files d)), d)) ;;
  txJoin (txOf (addStopRecordNames (MkStopIDs ∅ ∅ ∅ 0) names)) systemCall.

Definition validateStopRecordIDs (ids : stopRecordIDs) : result unit :=
  fail_if (negb (bool_decide (sd_replies ids ⊆ sd_requests ids))) (Errorf "stop reply without request" mismatch) ;;
  fail_if (negb (bool_decide (sd_observations ids ⊆ sd_requests ids))) (Errorf "stop observation without request" mismatch).

(** [reserveStopRecord]: the bytes read so far, with those of one more record. *)
Definition reserveStopRecord (id suffix : string) (budget : Z) : Tx Z :=
  data <- readBytes (stopName id suffix) MaxControlRecordSize ;;
  txFail (MaxStopInspectionBytes - budget <? len data) (stopLimit "encoded stop evidence") ;;;
  txRet (budget + len data).

Definition readOptional {A} (listed : bool) (id suffix : string) (read : string -> Tx A) (budget : Z) : Tx (option A * Z) :=
  if listed
  then budget <- reserveStopRecord id suffix budget ;; a <- read id ;; txRet (Some a, budget)
  else txRet (None, budget).

Definition readStopRecordRow (id : string) (recordIDs : stopRecordIDs) (budget : Z) : Tx (StopRecord * Z) :=
  budget <- reserveStopRecord id stopRequestSuffix budget ;;
  request <- ReadStopRequest id ;;
  reply <- readOptional (bool_decide (id ∈ sd_replies recordIDs)) id stopReplySuffix ReadStopReply budget ;;
  observation <- readOptional (bool_decide (id ∈ sd_observations recordIDs)) id stopObservedSuffix ReadStopObservation (snd reply) ;;
  txRet (MkStopRecord request (fst reply) (fst observation), snd observation).

Fixpoint readRows (ids : list string) (recordIDs : stopRecordIDs) (budget : Z) : Tx (list StopRecord) :=
  match ids with
  | [] => txRet []
  | id :: rest =>
      row <- readStopRecordRow id recordIDs budget ;;
      rows <- readRows rest recordIDs (snd row) ;;
      txRet (fst row :: rows)
  end.

Definition readStopRecordRows (recordIDs : stopRecordIDs) : Tx (list StopRecord) :=
  readRows (merge_sort (nameOrder id) (elements (sd_requests recordIDs))) recordIDs 0.

Definition ReadStopRecords : Tx (list StopRecord) :=
  loadAndValidatePreparedSet ;;;
  ids <- discoverStopRecordIDs ;;
  txOf (validateStopRecordIDs ids) ;;;
  readStopRecordRows ids.

(** ** The canonical launch refusal *)
Definition isPermanentStop (record : StopRecord) : bool := PermanentLaunchRefusalCause (sq_Cause (sp_Request record)).

(** [permanentLaunchRefusalContext]: the record that refuses a launch and its digest. *)
Definition permanentLaunchRefusal : Tx (option (string * string)) :=
  contextErr ;;;
  p <- loadAndValidatePreparedSetContext ;;
  w <- txTry (readWinnerRecord (pp_meta p) (pp_spec p) (pp_metaHash p)) ;;
  contextErr ;;;
  match w with
  | Ok outcome =>
      data <- txOf (marshalControlRecord (jsonOutcome outcome)) ;;
      txRet (Some ("outcome.json"%string, ComputeSHA256 data))
  | Err e =>
      if negb (errors_Is e taskdir_errNoOutcome) then txErr e
      else
        records <- txJoin ReadStopRecords contextErr ;;
        match find isPermanentStop records with
        | Some record =>
            data <- txOf (marshalControlRecord (jsonStopRequest (sp_Request record))) ;;
            txRet (Some (stopName (sq_RequestID (sp_Request record)) stopRequestSuffix, ComputeSHA256 data))
        | None => txRet None
        end
  end.

(** [requireTaskLaunchPermissionContext] *)
Definition requireTaskLaunchPermission : Tx unit :=
  refusal <- permanentLaunchRefusal ;;
  txFail (is_some refusal) (Sentinel task_ErrTerminalTask).

(** [UserStopRequestedContext] *)
Definition UserStopRequested : Tx bool :=
  contextErr ;;;
  records <- txJoin ReadStopRecords contextErr ;;
  txRet (existsb (fun record => eqs (sq_Cause (sp_Request record)) "user") records).
End task.
