(* ===== verification/TaskDirOps.v ===== *)
(** * The task directory: authority and evidence

    [internal/taskdir]: creating a task, the submission and start guards with their
    permits ([taskdir.go], [permits.go]), the supervisor and provider records
    ([supervisor_records.go], [execution.go]), stop requests and their evidence
    ([stop.go]), the fence that refuses a task never launched ([launch_refusal.go]) and
    the seal ([execution.go]).

    What the rest of the system answers to one call is a [taskSituation]: who holds the
    locks, the execution directories, the clock and the recorded lifetime. *)
From S2P Require Import Prelude GoErrors GoTime GoText TaskTypes Encoding GoPath GoTimestamp TaskLifetime LifetimeClosure ControlDir.
From S2P Require Import TaskConfiguration TaskRecords TaskReducer SchedRequest TaskRecordsJson TaskDir.
#[local] Open Scope Z_scope.
#[local] Open Scope tx_scope.

Record taskSituation : Set := MkSituation {
  ts_maintenance : bool; (* the locks other processes hold *)
  ts_admission : bool;
  ts_run : bool;
  ts_owner : bool;
  ts_directories : string -> result string; (* [config.ValidateDirectories]: the canonical cwd *)
  ts_timestamp : string;
  ts_lifetime : result LifetimeEvidence; (* [LoadLifetimeEvidenceContext] *)
  ts_stopReady : result bool (* [StopTerminationReadyContext] *)
}.

(** ** Leases and permits *)
(** [leaseState] with its one permit: copies of a permit share it. *)
Record leaseState : Set := MkLease {
  le_released : bool; le_releaseErr : option error; le_activeWriters : Z; le_filesPrepared : bool;
  le_artifactsImported : bool; le_sealed : bool; le_poisoned : option error; le_consumed : bool }.

Definition newLease : leaseState := MkLease false None 0 false false false None false.

Definition ErrInvalidPermit : error := Sentinel task_ErrInvalidPermit.

(** [consume] *)
Definition consume (l : leaseState) : result leaseState :=
  fail_if (le_released l) ErrInvalidPermit ;;
  fail_if (le_consumed l) (Sentinel task_ErrPermitAlreadyUsed) ;;
  Ok (MkLease (le_released l) (le_releaseErr l) (le_activeWriters l) (le_filesPrepared l) (le_artifactsImported l)
        (le_sealed l) (le_poisoned l) true).

(** [leaseState.release]: both locks, once. *)
Definition release (l : leaseState) : disk -> option error * leaseState * disk := fun d =>
  if le_released l then (le_releaseErr l, l, d)
  else if negb (le_activeWriters l =? 0) then (Some evidenceFault, l, d)
  else
    let '(a, d1) := unlock d in
    let '(b, d2) := unlock d1 in
    let err := errors_Join [err_of a; err_of b] in
    (err, MkLease true err (le_activeWriters l) (le_filesPrepared l) (le_artifactsImported l) (le_sealed l) (le_poisoned l)
            (le_consumed l), d2).

(** [ownedRunner] *)
Definition ownedRunner (l : leaseState) : result unit :=
  fail_if (le_released l || negb (le_consumed l)) ErrInvalidPermit.

Definition setSealed (l : leaseState) : leaseState :=
  MkLease (le_released l) (le_releaseErr l) (le_activeWriters l) (le_filesPrepared l) (le_artifactsImported l) true
    (le_poisoned l) (le_consumed l).

Definition NormalizeTaskRecord (directories : string -> result string) (record : TaskRecord) : result TaskRecord :=
  normalized ← NormalizeRequestedConfig (Some record);
  cwd ← directories (tk_CanonicalCwd normalized);
  Ok (MkTaskRecord (tk_SchemaVersion normalized) (tk_RootID normalized) (tk_TaskID normalized) (tk_Provider normalized)
        (tk_Mode normalized) cwd (tk_RequestedConfig normalized) (tk_BudgetNanos normalized) (tk_PriorSession normalized)
        (tk_BriefSHA256 normalized) (tk_BriefLength normalized) (tk_Workspace normalized) (tk_Team normalized)).

Definition validateExecutionDirectories (directories : string -> result string) (record : TaskRecord) : result unit :=
  normalized ← NormalizeTaskRecord directories record;
  fail_if (negb (bool_decide (record = normalized))) mismatch.

Section task.
Context (D : TaskDecoders) (RootID TaskID : string).

(** ** Creating a task *)
Definition samePreparedRecord (name existing data : string) : result bool :=
  if negb (eqs name "meta.json") then Ok (eqs existing data)
  else
    old ← decoded (dec_Meta D existing);
    proposed ← decoded (dec_Meta D data);
    ValidateMetaRecord (Some old) ;;
    Ok (bool_decide (old = MkMeta (me_SchemaVersion proposed) (me_RootID proposed) (me_TaskID proposed) (me_SpecSHA256 proposed)
                             (me_RequestedConfig proposed) (me_EffectiveConfig proposed) (me_Containment proposed)
                             (me_Approval proposed) (me_ProviderExecutable proposed) (me_ProviderVersion proposed)
                             (me_RuntimePreflightSHA256 proposed) (me_RunnerExecutable proposed) (me_RunnerOwnership proposed)
                             (me_PublisherBuild proposed) (me_PublisherVersion proposed) (me_Environment proposed)
                             (me_EnvironmentRecorded proposed) (me_Predicate proposed) (me_SupervisorConfig proposed)
                             (me_CreatedAt old) (me_OutputArtifacts proposed) (me_OutputWriterContract proposed)
                             (me_InputFiles proposed))).

Definition validatePreparedRecord (name data : string) (guarded : bool) : Tx bool :=
  let limit := if eqs name "brief.md" then MaxBriefSize else MaxControlRecordSize in
  r <- txTry (readBytes name limit) ;;
  match r with
  | Ok existing =>
      matches <- txOf (samePreparedRecord name existing data) ;;
      txFail (negb matches) (Sentinel task_ErrRequestConflict) ;;;
      txRet true
  | Err e =>
      if negb (errors_Is e fs_ErrNotExist) then txErr e
      else txFail guarded (invariantError "guarded prepared set is incomplete") ;;; txRet false
  end.

(** [prepareSetContext] *)
Definition prepareSet (brief reqData metaData : string) : Tx unit :=
  submitted <- exists_ "submit.json" ;;
  started <- exists_ "provider.start" ;;
  let guarded := submitted || started in
  hasBrief <- validatePreparedRecord "brief.md" brief guarded ;;
  hasTask <- validatePreparedRecord "task.json" reqData guarded ;;
  hasMeta <- validatePreparedRecord "meta.json" metaData guarded ;;
  (if hasBrief : bool then txRet tt else stageRecord "brief.md" brief) ;;;
  (if hasTask : bool then txRet tt else stageRecord "task.json" reqData) ;;;
  (if hasMeta : bool then txRet tt else stageRecord "meta.json" metaData) ;;;
  loadAndValidatePreparedSetContext D RootID TaskID ;;;
  txRet tt.

(** ** Submission *)
Definition PrepareSubmission (u : taskSituation) (supervisor : SupervisorRef) : Tx SubmitRecord :=
  contextErr ;;;
  tryLock (ts_maintenance u) ;;;
  txOnFailure (tryLock (ts_admission u)) unlock ;;;
  txOnFailure
    (p <- loadAndValidatePreparedSetContext D RootID TaskID ;;
     txFail (negb (bool_decide (supervisor = me_SupervisorConfig (pp_meta p)))) mismatch ;;;
     submitted <- exists_ "submit.json" ;;
     txFail submitted (Sentinel task_ErrAlreadySubmitted) ;;;
     requireTaskLaunchPermission D RootID TaskID ;;;
     txOf (validateExecutionDirectories (ts_directories u) (pp_req p)) ;;;
     let rec := MkSubmit SchemaVersion RootID TaskID (pp_spec p) (pp_metaHash p) (taskLabel RootID TaskID) supervisor
                  (ts_timestamp u) in
     txOf (ValidateSubmitRecord (Some rec)) ;;;
     commitRecord "submit.json" (jsonSubmit rec) ;;;
     txRet rec)
    (txJoin unlock unlock).

(** ** Start *)
(** One of the two capture files: created empty, or found empty. *)
Definition initializeRawFile (name : string) : Tx unit :=
  systemCall ;;;
  (fun d => match files d !! rawPath name with
            | Some b => (fail_if (negb (len b =? 0)) (Errorf "unexplained pre-start raw bytes" evidenceFault), d)
            | None => (Ok tt, MkDisk (<[rawPath name := ""%string]> (files d)) (faults d))
            end) ;;;
  systemCall. (* barrier and close *)

Definition initializeRaw : Tx unit :=
  systemCall ;;; (* mkdir *)
  initializeRawFile "stdout" ;;; initializeRawFile "stderr" ;;;
  systemCall. (* barrier *)

Definition startBody (u : taskSituation) (requested : Z) : Tx ProviderStartRecord :=
  p <- loadAndValidatePreparedSet D RootID TaskID ;;
  let budget := if requested =? 0 then tk_BudgetNanos (pp_req p) else requested in
  txFail (negb (budget =? tk_BudgetNanos (pp_req p))) (Sentinel task_ErrRequestConflict) ;;;
  started <- exists_ "provider.start" ;; txFail started (Sentinel task_ErrAlreadyStarted) ;;;
  sealed <- exists_ "provider.exit" ;; txFail sealed (Sentinel task_ErrAlreadyStarted) ;;;
  published <- exists_ "outcome.json" ;; txFail published (Sentinel task_ErrAlreadyStarted) ;;;
  requireTaskLaunchPermission D RootID TaskID ;;;
  txOf (validateExecutionDirectories (ts_directories u) (pp_req p)) ;;;
  initializeRaw ;;;
  let rec := MkStart SchemaVersion RootID TaskID (pp_spec p) (pp_metaHash p) budget (ts_timestamp u) in
  txOf (ValidateProviderStartRecord (Some rec)) ;;;
  commitRecord "provider.start" (jsonStart rec) ;;;
  txRet rec.

Definition PrepareStart (u : taskSituation) (budget : Z) : Tx ProviderStartRecord :=
  tryLock (ts_maintenance u) ;;;
  txOnFailure (tryLock (ts_run u)) unlock ;;;
  txOnFailure (startBody u budget) (txJoin unlock unlock).

(** ** Records of the runner and the supervisor *)
(** [RecordStartedWithIdentity] *)
Definition RecordStarted (l : leaseState) (u : taskSituation) (diagnosticNanos : Z) (identity : ProviderRuntimeIdentity) : Tx unit :=
  txOf (ownedRunner l) ;;;
  txFail (le_sealed l) evidenceFault ;;;
  p <- loadAndValidatePreparedSet D RootID TaskID ;;
  let rec := MkStarted SchemaVersion RootID TaskID (pp_spec p) (pp_metaHash p) (ts_timestamp u) diagnosticNanos identity in
  txOf (ValidateProviderStartedRecord (Some rec)) ;;;
  commitRecord "provider.started.json" (jsonStarted rec).

(** [recordSame]: an equal record is acknowledged again, a different one refused. *)
Definition acknowledgeSame (name : string) (same : bool) : Tx unit :=
  txFail (negb same) mismatch ;;; acknowledgeRecord name.

Definition recordSame (name : string) (record : json) (readSame : Tx bool) : Tx unit :=
  r <- txTry readSame ;;
  match r with
  | Ok same => acknowledgeSame name same
  | Err e =>
      if negb (RecordAbsent e) then txErr e
      else
        data <- txOf (marshalControlRecord record) ;;
        s <- stageReader name data ;;
        let '(_, cleanup, err) := s in
        match err with
        | Some ce =>
            if errors_Is ce fs_ErrExist
            then a <- txTry (same <- readSame ;; acknowledgeSame name same) ;; txErrors [err_of a; cleanup]
            else txErrors [err; cleanup]
        | None => txErrors [err; cleanup]
        end
  end.

(** [recordSameContext], with the context checked between the steps. *)
Definition reconcileStagedWinner (name : string) (cleanup : option error) (readSame : Tx bool) : Tx unit :=
  a <- txTry (contextErr ;;; same <- readSame ;; contextErr ;;; acknowledgeSame name same) ;;
  txErrors [err_of a; cleanup].

Definition recordSameContext (name : string) (record : json) (readSame : Tx bool) : Tx unit :=
  contextErr ;;;
  r <- txTry readSame ;;
  contextErr ;;;
  match r with
  | Ok same => txFail (negb same) mismatch ;;; contextErr ;;; acknowledgeRecord name
  | Err e =>
      if negb (RecordAbsent e) then txErr e
      else
        contextErr ;;;
        data <- txOf (marshalControlRecord record) ;;
        contextErr ;;;
        s <- stageReader name data ;;
        let '(_, cleanup, err) := s in
        match err with
        | Some ce => if errors_Is ce fs_ErrExist then reconcileStagedWinner name cleanup readSame else txErrors [err; cleanup]
        | None => txErrors [err; cleanup]
        end
  end.

Definition RecordSupervisorReceipt (u : taskSituation) (r : SupervisorReceipt) : Tx unit :=
  tryLock (ts_maintenance u) ;;;
  txJoin
    (submit <- ReadSubmission D RootID TaskID ;;
     txOf (matchSupervisorReceipt r submit) ;;;
     recordSame "supervisor.ref.json" (jsonReceipt r)
       (old <- ReadSupervisorReceipt D RootID TaskID ;; txRet (bool_decide (old = r))))
    unlock.

Definition RecordProviderIdentity (l : leaseState) (u : taskSituation) (identity : SessionIdentity) : Tx unit :=
  txOf (ownedRunner l) ;;;
  txFail (le_sealed l) evidenceFault ;;;
  txOf (ValidateSessionIdentity identity) ;;;
  p <- loadAndValidatePreparedSet D RootID TaskID ;;
  txFail (negb (eqs (si_Provider identity) (tk_Provider (pp_req p))) ||
          match tk_PriorSession (pp_req p) with
          | Some prior => negb (eqs (ps_ConversationID prior) (si_ConversationID identity))
          | None => false
          end) mismatch ;;;
  let rec := MkProviderRef SchemaVersion RootID TaskID (pp_spec p) (pp_metaHash p) (si_Provider identity) (ts_timestamp u)
               (si_ConversationID identity) in
  txOf (ValidateProviderRefRecord (Some rec)) ;;;
  recordSame "provider.ref.json" (jsonProviderRef rec)
    (old <- ReadProviderIdentity D RootID TaskID ;;
     txRet (eqs (pf_Provider old) (pf_Provider rec) && eqs (pf_ConversationID old) (pf_ConversationID rec))).

(** ** Stops *)
(** The supervisor and label of a stop: those of the submission when there is one. *)
Definition stopTarget (meta : MetaRecord) : Tx (SupervisorRef * string) :=
  s <- txTry (ReadSubmission D RootID TaskID) ;;
  match s with
  | Ok submit => txRet (sb_Supervisor submit, sb_Label submit)
  | Err e => if RecordAbsent e then txRet (me_SupervisorConfig meta, taskLabel RootID TaskID) else txErr e
  end.

(** The recorded numeric task, when there is a receipt. *)
Definition stopNumericTask : Tx (option Z) :=
  r <- txTry (ReadSupervisorReceipt D RootID TaskID) ;;
  match r with
  | Ok receipt => txRet (Some (rp_NumericTaskID receipt))
  | Err e => if errors_Is e fs_ErrNotExist then txRet None else txErr e
  end.

(** [newStopRequest]; [deadline] is the formatted deadline, empty when there is none. *)
Definition newStopRequest (u : taskSituation) (id cause deadline : string) : Tx StopRequestRecord :=
  p <- loadAndValidatePreparedSet D RootID TaskID ;;
  w <- txTry (readWinner D RootID TaskID (pp_meta p) (pp_spec p) (pp_metaHash p)) ;;
  match w with
  | Ok _ => txErr (Sentinel task_ErrTerminalTask)
  | Err e =>
      txFail (negb (errors_Is e taskdir_errNoOutcome)) e ;;;
      target <- stopTarget (pp_meta p) ;;
      numeric <- stopNumericTask ;;
      let r := MkStopRequest SchemaVersion RootID TaskID (pp_spec p) (pp_metaHash p) numeric (snd target)
                 (tk_BudgetNanos (pp_req p)) deadline id cause (fst target) (ts_timestamp u) in
      txOf (ValidateStopRequestRecord (Some r)) ;;;
      (if eqs cause "budget" then readRecord (dec_Start D) "provider.start" ;;; txRet tt else txRet tt) ;;;
      txRet r
  end.

(** [PrepareStopContext]: the request a permit is granted for. *)
Definition PrepareStop (u : taskSituation) (requestID cause deadline : string) : Tx StopRequestRecord :=
  contextErr ;;;
  txFail (eqs cause StopCauseAutomaticAbandonment) ErrInvalidPermit ;;;
  txOf (ValidateStopRequestID requestID) ;;;
  tryLock (ts_maintenance u) ;;;
  txOnFailure
    (r <- newStopRequest u requestID cause deadline ;;
     existing <- txTry (ReadStopRequest D RootID TaskID requestID) ;;
     match existing with
     | Ok old =>
         txFail (negb (eqs (sq_Cause old) (sq_Cause r)) || negb (eqs (sq_Deadline old) (sq_Deadline r)))
           (Sentinel task_ErrRequestConflict) ;;;
         txErr (Sentinel task_ErrStopAlreadyRequested)
     | Err e =>
         txFail (negb (errors_Is e fs_ErrNotExist)) e ;;;
         data <- txOf (marshalControlRecord (jsonStopRequest r)) ;;
         systemCall ;;; (* mkdir *)
         s <- stageReader (stopName requestID stopRequestSuffix) data ;;
         let '(_, cleanup, err) := s in
         match err with
         | Some ce =>
             if errors_Is ce fs_ErrExist then txErrors [Some (Sentinel task_ErrStopAlreadyRequested); cleanup]
             else txErrors [err; cleanup]
         | None => txErrors [err; cleanup]
         end ;;;
         txRet r
     end)
    unlock.

(** What a supervisor answered, and what was observed of the task. *)
Record StopReplyFacts : Set := MkReplyFacts {
  rf_NumericTaskID : Z; rf_Action : string; rf_Acknowledged : bool; rf_Message : string }.
Record StopObservationFacts : Set := MkObservationFacts { of_NumericTaskID : Z; of_Terminated : bool; of_State : string }.

Definition newStopReplyRecord (u : taskSituation) (request : StopRequestRecord) (digest : string) (receipt : SupervisorReceipt)
    (id : string) (facts : StopReplyFacts) : result StopReplyRecord :=
  fail_if (negb (rf_NumericTaskID facts =? rp_NumericTaskID receipt)) mismatch ;;
  let r := MkStopReply SchemaVersion (sq_RootID request) (sq_TaskID request) (sq_SpecSHA256 request) (sq_MetaSHA256 request)
             (rf_Action facts) (sq_Label request) (Some (sq_Supervisor request)) digest (Some (rf_NumericTaskID facts)) id
             (rf_Acknowledged facts) (rf_Message facts) (ts_timestamp u) in
  ValidateStopReplyRecord (Some r) ;; Ok r.

Definition newStopObservationRecord (u : taskSituation) (request : StopRequestRecord) (digest : string)
    (receipt : SupervisorReceipt) (id : string) (facts : StopObservationFacts) : result StopObservedRecord :=
  fail_if (negb (of_NumericTaskID facts =? rp_NumericTaskID receipt)) mismatch ;;
  let r := MkStopObserved SchemaVersion (sq_RootID request) (sq_TaskID request) (sq_SpecSHA256 request) (sq_MetaSHA256 request)
             (of_State facts) (sq_Label request) (Some (sq_Supervisor request)) digest (Some (of_NumericTaskID facts)) id
             (of_Terminated facts) (ts_timestamp u) in
  ValidateStopObservedRecord (Some r) ;; Ok r.

(** The comparisons ignore the time of the record. *)
Definition sameReply (old r : StopReplyRecord) : bool :=
  bool_decide (old = MkStopReply (sy_SchemaVersion r) (sy_RootID r) (sy_TaskID r) (sy_SpecSHA256 r) (sy_MetaSHA256 r) (sy_Action r)
                       (sy_Label r) (sy_Supervisor r) (sy_RequestSHA256 r) (sy_NumericTaskID r) (sy_RequestID r)
                       (sy_Acknowledged r) (sy_Message r) (sy_RepliedAt old)).
Definition sameObservation (old r : StopObservedRecord) : bool :=
  bool_decide (old = MkStopObserved (so_SchemaVersion r) (so_RootID r) (so_TaskID r) (so_SpecSHA256 r) (so_MetaSHA256 r)
                       (so_State r) (so_Label r) (so_Supervisor r) (so_RequestSHA256 r) (so_NumericTaskID r) (so_RequestID r)
                       (so_Terminated r) (so_ObservedAt old)).

(** [RecordStopReplyContext] *)
Definition RecordStopReply (u : taskSituation) (id : string) (facts : StopReplyFacts) : Tx unit :=
  contextErr ;;;
  systemCall ;;; (* the maintenance lock, waited for *)
  txJoin
    (e <- (contextErr ;;; e <- stopEvidence D RootID TaskID id ;; contextErr ;;; txRet e) ;;
     let '(request, digest, receipt) := e in
     r <- txOf (newStopReplyRecord u request digest receipt id facts) ;;
     recordSameContext (stopName id stopReplySuffix) (jsonStopReply r)
       (old <- ReadStopReply D RootID TaskID id ;; txRet (sameReply old r)))
    unlock.

(** [recordStopObservationOwned] *)
Definition recordStopObservationOwned (u : taskSituation) (id : string) (facts : StopObservationFacts) : Tx unit :=
  ready <- txOf (ts_stopReady u) ;;
  txFail (negb ready) (Sentinel task_ErrSessionBusy) ;;;
  e <- (contextErr ;;; e <- stopEvidence D RootID TaskID id ;; contextErr ;;; txRet e) ;;
  let '(request, digest, receipt) := e in
  r <- txOf (newStopObservationRecord u request digest receipt id facts) ;;
  recordSameContext (stopName id stopObservedSuffix) (jsonStopObserved r)
    (old <- ReadStopObservation D RootID TaskID id ;; txRet (sameObservation old r)).

(** [RecordStopObservationContext], under the owner lease of the lifetime. *)
Definition RecordStopObservation (u : taskSituation) (id : string) (facts : StopObservationFacts) : Tx unit :=
  txFail (negb (of_Terminated facts) || negb (eqs (of_State facts) "ended")) mismatch ;;;
  contextErr ;;;
  systemCall ;;; (* the owner lease *)
  txJoin (recordStopObservationOwned u id facts) unlock.

(** ** The fence of a task never launched *)
Fixpoint taskRecordsAbsent (names : list string) : Tx bool :=
  match names with
  | [] => txRet true
  | name :: rest =>
      present <- txJoin (exists_ name) contextErr ;;
      if present : bool then txRet false else taskRecordsAbsent rest
  end.

Fixpoint rawEmpty (names : list string) : Tx unit :=
  match names with
  | [] => txRet tt
  | name :: rest =>
      r <- txTry (readBytesContext (rawPath name) 0) ;;
      txFail (match r with Err e => negb (RecordAbsent e) | Ok _ => false end) evidenceFault ;;;
      rawEmpty rest
  end.

(** [unlaunchedTaskRawEmptyContext] *)
Definition unlaunchedTaskRawEmpty : Tx bool :=
  names <- admittedRawNames D RootID TaskID ;; rawEmpty names ;;; txRet true.

(** Whether the lifetime records hold nothing. *)
Definition noLifetime (e : LifetimeEvidence) : bool :=
  negb (is_some (ev_Intent e)) && negb (is_some (ev_Registration e)) && negb (is_some (ev_Worker e)) &&
  negb (is_some (ev_WorkerWait e)) && negb (is_some (ev_Termination e)) && bool_decide (ev_Launches e = []).

Definition unlaunchedTaskEvidence (u : taskSituation) : Tx bool :=
  evidence <- txOf (ts_lifetime u) ;;
  if negb (noLifetime evidence) then txRet false
  else
    absent <- taskRecordsAbsent ["provider.start"; "provider.started.json"; "provider.exit"; "provider.ref.json"]%string ;;
    if absent : bool then unlaunchedTaskRawEmpty else txRet false.

(** The first 32 digits of the digest of the cause and the task. *)
Definition abandonmentID : string :=
  str (take 32 (bytes (ComputeSHA256 (str (bytes StopCauseAutomaticAbandonment ++ bytes ":" ++ bytes TaskID))))).

(** [recordAutomaticAbandonmentContext], with its one replay. *)
Definition recordAutomaticAbandonment (u : taskSituation) : Tx unit :=
  candidate <- newStopRequest u abandonmentID StopCauseAutomaticAbandonment "" ;;
  systemCall ;;; (* mkdir *)
  let name := stopName abandonmentID stopRequestSuffix in
  let readSame := winner <- ReadStopRequest D RootID TaskID abandonmentID ;; txRet (bool_decide (candidate = winner)) in
  let write := recordSameContext name (jsonStopRequest candidate) readSame in
  first <- txTry write ;;
  same <- txTry readSame ;;
  s <- (match same with
        | Err e =>
            if RecordAbsent e && negb (is_ok first)
            then again <- txTry write ;; same <- txTry readSame ;; txRet (errors_Join [err_of first; err_of again], same)
            else txRet (err_of first, same)
        | Ok _ => txRet (err_of first, same)
        end) ;;
  let '(writeErr, same) := s in
  match same with
  | Err e => txErrors [writeErr; Some e]
  | Ok false => txErrors [writeErr; Some mismatch]
  | Ok true => a <- txTry (acknowledgeRecord name) ;; c <- txTry contextErr ;; txErrors [writeErr; err_of a; err_of c]
  end.

(** [provePermanentRefusalLockedContext] *)
Definition provePermanentRefusal (u : taskSituation) (fence : bool) (refusal : option (string * string)) : Tx (option string) :=
  refusal <- (if fence && negb (is_some refusal)
              then recordAutomaticAbandonment u ;;; permanentLaunchRefusal D RootID TaskID
              else txRet refusal) ;;
  match refusal with
  | None => txRet None
  | Some (name, digest) =>
      (if fence then acknowledgeRecord name else txRet tt) ;;;
      contextErr ;;;
      txRet (Some digest)
  end.

(** The critical section of the run lock, after it is taken. *)
Definition unlaunchedSection (u : taskSituation) (fence : bool) : Tx (option string) :=
  loadAndValidatePreparedSetContext D RootID TaskID ;;;
  eligible <- unlaunchedTaskEvidence u ;;
  if negb eligible then txRet None
  else
    unsubmitted <- (if fence then taskRecordsAbsent ["submit.json"; "supervisor.ref.json"]%string else txRet true) ;;
    if negb unsubmitted then txRet None
    else
      refusal <- permanentLaunchRefusal D RootID TaskID ;;
      unselected <- (if bool_decide (fst <$> refusal = Some "outcome.json"%string) then txRet true
                     else taskRecordsAbsent ["result.txt"; "publish.reject"]%string) ;;
      if negb unselected then txRet None else provePermanentRefusal u fence refusal.

(** [withUnlaunchedTaskRunLockContext]: a busy lock proves nothing. *)
Definition withUnlaunchedTaskRunLock (u : taskSituation) (fence : bool) : Tx (option string) :=
  contextErr ;;;
  systemCall ;;;
  if ts_run u then txRet None
  else txJoin (unlaunchedSection u fence) unlock.

(** [unlaunchedTaskReferenceContext] *)
Definition ProveUnlaunchedTask (u : taskSituation) : Tx (option string) :=
  systemCall ;;; (* the owner lease *)
  if ts_owner u then txRet None
  else txJoin (withUnlaunchedTaskRunLock u false) unlock.

(** [FenceUnlaunchedTaskContext]: [Some] digest when the refusal is proven. *)
Definition FenceUnlaunchedTask (u : taskSituation) : Tx (option string) :=
  contextErr ;;;
  tryLock (ts_maintenance u) ;;;
  txJoin
    (systemCall ;;;
     if ts_admission u then txRet None
     else
       txJoin
         (systemCall ;;;
          if ts_owner u then txRet None
          else txJoin (withUnlaunchedTaskRunLock u true) unlock)
         unlock)
    unlock.
End task.
