(* ===== verification/TaskPublication.v ===== *)
(** * Seal, predicates and publication

    [internal/taskdir/execution.go] ([Seal]), [publication.go], [predicate_publication.go]
    and [predicate_evidence.go], with the registry of [internal/predicate]: the seal of a
    consumed runner, the evaluation of the sealed evidence by the registered predicate,
    and the one outcome that is published. *)
From S2P Require Import Prelude GoErrors GoTime GoText TaskTypes Encoding GoPath GoTimestamp TaskLifetime LifetimeClosure ControlDir.
From S2P Require Import TaskConfiguration TaskRecords TaskReducer SchedRequest TaskRecordsJson TaskDir TaskDirOps.
#[local] Open Scope Z_scope.
#[local] Open Scope tx_scope.

(** ** Predicates *)
Record SessionExpectation : Set := MkExpectation { se_Required : bool; se_ID : string }.

Record Input : Set := MkInput {
  in_Seal : ProviderExitRecord; in_ExpectedSession : SessionExpectation; in_RecordedSession : option SessionIdentity;
  in_RequestedConfig : TaskConfig }.

(** The sealed streams, path and content, and the declared output names. *)
Record evidence : Set := MkSealed { ed_streams : list (string * string); ed_declared : list string }.

(** [predicate.Interpreter]: [Evaluate] gives the interpretation and what it wrote. *)
Record Interpreter : Set := MkInterpreter {
  ip_Reference : PredicateRef; ip_Evaluate : Input -> evidence -> result Interpretation * string }.

Definition Registry : Set := list (PredicateRef * Interpreter).

(** [predicate.New] *)
Fixpoint registerAll (entries : Registry) (interpreters : list Interpreter) : result Registry :=
  match interpreters with
  | [] => Ok entries
  | v :: rest =>
      let ref := ip_Reference v in
      ValidatePredicateRef ref ;;
      fail_if (existsb (fun old => PredicateEqual ref (fst old)) entries) (New "duplicate predicate reference") ;;
      registerAll (entries ++ [(ref, v)]) rest
  end.

Definition NewRegistry (interpreters : list Interpreter) : result Registry := registerAll [] interpreters.

Fixpoint Resolve (r : Registry) (ref : PredicateRef) : result Interpreter :=
  match r with
  | [] => Err (Sentinel task_ErrIncompatiblePredicate)
  | (key, v) :: rest => if PredicateEqual ref key then Ok v else Resolve rest ref
  end.

(** The content that a stream of the evidence reads. *)
Definition streamOf (path : string) (e : evidence) : option string := snd <$> find (fun s => eqs (fst s) path) (ed_streams e).

Definition stdoutOf (e : evidence) : option string := streamOf "raw/stdout" e.

(** [fixtureV1.Evaluate]: the decision of the registered predicate, and the whole of
    stdout when it names it. *)
Definition interpretDecision (r : result PredicateDecision) (raw : evidence) : result Interpretation * string :=
  match r with
  | Err e => (Err e, ""%string)
  | Ok decision =>
      let interpretation := MkInterpretation (dc_Verdict decision) (dc_PayloadContent decision) None [] [] in
      if eqs (dc_RawPath decision) "" then (Ok interpretation, ""%string)
      else match stdoutOf raw with
           | Some content => (Ok interpretation, content)
           | None => (Err evidenceFault, ""%string)
           end
  end.

Definition fixtureEvaluate (input : Input) (raw : evidence) : result Interpretation * string :=
  interpretDecision (EvaluateRegisteredPredicate FixturePredicateRef (Some (in_Seal input))) raw.

Definition FixtureV1 : Interpreter := MkInterpreter FixturePredicateRef fixtureEvaluate.
Definition DefaultRegistry : Registry := [(FixturePredicateRef, FixtureV1)].

(** ** Staged payloads *)
(** [commitStage]: the link of a staged file and its barriers. *)
Definition commitStage (name data : string) : Tx (bool * option error * option error) :=
  f <- nextFault ;;
  match f with
  | FailsBefore e => txRet (false, None, Some (ioErr e))
  | _ => fun d =>
      match files d !! name with
      | Some _ => (Ok (false, None, Some (Errorf "link" (Sentinel fs_ErrExist))), d)
      | None =>
          let d' := MkDisk (<[name := data]> (files d)) (faults d) in
          match f with
          | FailsAfter e =>
              (Ok (false, None, Some (Joined "" [Sentinel task_ErrUncertainDurability; ioErr e])), d')
          | _ => (cleanup <- nextFault ;; txRet (true, faultErr cleanup, None)) d'
          end
      end
  end.

Definition discard : Tx unit := systemCall.

(** [payloadStage.descriptor] *)
Definition descriptor (name content : string) : PayloadDescriptor := MkPayload name (len content) (ComputeSHA256 content).

(** What a publication returns: the outcome, the cleanup error and the error. *)
Record published : Set := MkPublished { pb_Outcome : option OutcomeRecord; pb_Cleanup : option error; pb_Err : option error }.

(** [commitPayloadStage]: the cleanup error and the error. *)
Definition commitPayloadStage (name content : string) : Tx (option error * option error) :=
  r <- commitStage name content ;;
  let '(_, cleanup, err) := r in
  s <- (match err with
        | Some e =>
            if errors_Is e fs_ErrExist
            then c <- txTry discard ;; txRet (errors_Join [cleanup; err_of c], None)
            else txRet (cleanup, err)
        | None => txRet (cleanup, err)
        end) ;;
  let '(cleanup, err) := s in
  match err with
  | Some _ => txRet (cleanup, err)
  | None =>
      f <- txTry (fileDigest name) ;;
      match f with
      | Err e => txRet (cleanup, errors_Join [Some (Sentinel task_ErrInvariantFault); Some e])
      | Ok (digest, size) =>
          if negb (eqs digest (ComputeSHA256 content)) || negb (size =? len content)
          then txRet (cleanup, Some (Sentinel task_ErrInvariantFault))
          else b <- txTry systemCall ;; txRet (cleanup, err_of b)
      end
  end.

Section task.
Context (D : TaskDecoders) (RootID TaskID : string).

(** ** The seal *)
Fixpoint barrierRawFiles (names : list string) : Tx unit :=
  match names with
  | [] => systemCall (* the directory *)
  | name :: rest => fileDigest (rawPath name) ;;; barrierRawFiles rest
  end.

(** [barrierRaw]: opening a raw file that is not there is an error. *)
Definition barrierRaw : Tx unit := names <- admittedRawNames D RootID TaskID ;; barrierRawFiles names.

(** [SealWithIdentity] up to the point where the lease is marked sealed: the seal that
    exists, or the record to commit. *)
Definition sealCandidate (l : leaseState) (u : taskSituation) (invocation : string) (exitCode : Z) (exitErr : string)
    (predicate : PredicateRef) (identity : ProviderRuntimeIdentity) : Tx (ProviderExitRecord + ProviderExitRecord) :=
  txOf (ownedRunner l) ;;;
  txFail (negb (le_activeWriters l =? 0) || is_some (le_poisoned l)) evidenceFault ;;;
  p <- loadAndValidatePreparedSet D RootID TaskID ;;
  txFail (negb (bool_decide (me_OutputArtifacts (pp_meta p) = [])) && negb (le_artifactsImported l)) evidenceFault ;;;
  txFail (negb (PredicateEqual predicate (me_Predicate (pp_meta p)))) (Sentinel task_ErrIncompatiblePredicate) ;;;
  existing <- txTry (readSeal D RootID TaskID predicate (pp_spec p) (pp_metaHash p)) ;;
  match existing with
  | Ok seal => txRet (inl seal)
  | Err e =>
      txFail (negb (errors_Is e task_ErrNoSeal)) e ;;;
      barrierRaw ;;;
      m <- rawManifest D RootID TaskID ;;
      let rec := MkExit SchemaVersion RootID TaskID (pp_spec p) (pp_metaHash p) invocation exitCode exitErr predicate
                   (fst m) (snd m) (ts_timestamp u) identity in
      txOf (ValidateProviderExitRecord (Some rec)) ;;;
      txRet (inr rec)
  end.

(** [SealWithIdentity]: no writer is admitted after the lease is marked, even when the
    publication of the seal is uncertain. *)
Definition Seal (l : leaseState) (u : taskSituation) (invocation : string) (exitCode : Z) (exitErr : string)
    (predicate : PredicateRef) (identity : ProviderRuntimeIdentity) : disk -> result ProviderExitRecord * leaseState * disk := fun d =>
  match sealCandidate l u invocation exitCode exitErr predicate identity d with
  | (Err e, d1) => (Err e, l, d1)
  | (Ok (inl seal), d1) =>
      let '(r, d2) := acknowledgeRecord "provider.exit" d1 in
      (match r with Ok _ => Ok seal | Err e => Err e end, setSealed l, d2)
  | (Ok (inr rec), d1) =>
      let '(r, d2) := commitRecord "provider.exit" (jsonExit rec) d1 in
      (match r with Ok _ => Ok rec | Err e => Err e end, setSealed l, d2)
  end.

(** ** Sealed evidence *)
(** [openEvidenceEntry]: the file is opened and hashed against its entry. *)
Definition openEvidenceEntry (entry : RawManifestEntry) : Tx (string * string) :=
  systemCall ;;;
  fun d => match files d !! rm_Path entry with
           | None => (Err errNotExist, d)
           | Some b =>
               (if negb (len b =? rm_Size entry) || negb (eqs (ComputeSHA256 b) (rm_SHA256 entry))
                then Err evidenceFault else Ok (rm_Path entry, b), d)
           end.

Fixpoint openEntries (manifest : list RawManifestEntry) : Tx (list (string * string)) :=
  match manifest with
  | [] => txRet []
  | entry :: rest => s <- openEvidenceEntry entry ;; ss <- openEntries rest ;; txRet (s :: ss)
  end.

Definition openValidatedEvidence (seal : ProviderExitRecord) : Tx evidence :=
  validateManifestDeclarations D RootID TaskID (pe_RawManifest seal) ;;;
  p <- loadAndValidatePreparedSet D RootID TaskID ;;
  streams <- txMapErr (fun e => Joined "" [evidenceFault; e]) (openEntries (pe_RawManifest seal)) ;;
  txRet (MkSealed streams (map oa_Name (me_OutputArtifacts (pp_meta p)))).

(** The session a request expects. *)
Definition expectedSession (req : TaskRecord) : SessionExpectation :=
  match tk_PriorSession req with
  | Some prior => MkExpectation true (ps_ConversationID prior)
  | None => MkExpectation false ""
  end.

(** [interpretationInput] *)
Definition interpretationInput (seal : ProviderExitRecord) : Tx Input :=
  p <- loadAndValidatePreparedSet D RootID TaskID ;;
  r <- txTry (ReadProviderIdentity D RootID TaskID) ;;
  let expected := expectedSession (pp_req p) in
  match r with
  | Ok recorded =>
      txRet (MkInput seal expected (Some (MkSessionIdentity (pf_Provider recorded) (pf_ConversationID recorded)))
               (tk_RequestedConfig (pp_req p)))
  | Err e => if errors_Is e fs_ErrNotExist then txRet (MkInput seal expected None (tk_RequestedConfig (pp_req p))) else txErr e
  end.

Definition validateInterpretedIdentity (input : Input) (r : Interpretation) : result unit :=
  when_some (it_Session r) (fun session =>
    fail_if (negb (eqs (si_Provider session) (pr_Adapter (pe_Predicate (in_Seal input))))) mismatch ;;
    fail_if (se_Required (in_ExpectedSession input) &&
             negb (eqs (si_ConversationID session) (se_ID (in_ExpectedSession input)))) mismatch ;;
    when_some (in_RecordedSession input) (fun recorded =>
      fail_if (negb (eqs (si_Provider session) (si_Provider recorded)) ||
               negb (eqs (si_ConversationID session) (si_ConversationID recorded))) mismatch)).

(** The interpretation of the evidence and what it wrote, or the joined failures of the
    evaluation, its readers, its writer and the checks of its result. *)
Definition evaluate (interpreter : Interpreter) (input : Input) (raw : evidence) : Tx (Interpretation * string) :=
  let '(r, written) := ip_Evaluate interpreter input raw in
  closed <- txTry systemCall ;;
  wrote <- txTry systemCall ;;
  match r with
  | Err e => txErr (default e (errors_Join [Some e; err_of closed; err_of wrote]))
  | Ok interpretation =>
      txErrors [err_of closed; err_of wrote; err_of (ValidateInterpretation interpretation);
                err_of (validateInterpretedIdentity input interpretation)] ;;;
      txRet (interpretation, written)
  end.

(** A failure that discards the stage: [return nil, stage.discard(), err]. *)
Definition failDiscarding (e : error) : Tx published :=
  c <- txTry discard ;; txRet (MkPublished None (err_of c) (Some e)).

(** ** Publication *)
Definition acknowledgeWinner (outcome : OutcomeRecord) : Tx published :=
  a <- txTry (acknowledgeRecord "outcome.json") ;; txRet (MkPublished (Some outcome) None (err_of a)).

(** [commitOutcomeContext] *)
Definition commitOutcome (candidate : OutcomeRecord) (data : string) : Tx published :=
  r <- stageReader "outcome.json" data ;;
  let '(committed, cleanup, err) := r in
  match err with
  | Some e =>
      if errors_Is e fs_ErrExist then
        p <- loadAndValidatePreparedSetContext D RootID TaskID ;;
        winner <- readWinner D RootID TaskID (pp_meta p) (pp_spec p) (pp_metaHash p) ;;
        a <- acknowledgeWinner winner ;;
        match pb_Err a with
        | Some _ => txRet a
        | None =>
            txRet (MkPublished (Some winner) None
                     (if CompareOutcomes (Some candidate) (Some winner) then None else Some (Sentinel task_ErrOutcomeConflict)))
        end
      else txRet (MkPublished None cleanup (Some e))
  | None =>
      if negb committed then txRet (MkPublished None cleanup (Some (Sentinel task_ErrUncertainDurability)))
      else txRet (MkPublished (Some candidate) cleanup None)
  end.

(** The payload of an interpretation: what was written, or the refusal. *)
Definition payloadOf (r : Interpretation) (written : string) : string * string :=
  if eqs (it_Verdict r) VerdictRejected then ("publish.reject"%string, it_Refusal r) else ("result.txt"%string, written).

Definition outcomeOf (seal : ProviderExitRecord) (spec meta : string) (r : Interpretation) (name content : string) : OutcomeRecord :=
  MkOutcome SchemaVersion RootID TaskID spec meta (it_Verdict r) (pe_ManifestSHA256 seal) (pe_Predicate seal)
    (descriptor name content) (it_Usage r) (it_Diagnostics r).

(** From the evaluated stage on: the refusal replaces the written payload, the stage is
    finished, the payload is linked and the outcome published. *)
Definition publishPayload (seal : ProviderExitRecord) (spec meta : string) (r : Interpretation) (written : string) : Tx published :=
  let '(name, content) := payloadOf r written in
  (if eqs (it_Verdict r) VerdictRejected then discard ;;; systemCall else txRet tt) ;;;
  w <- txTry (if eqs (it_Verdict r) VerdictRejected then systemCall else txRet tt) ;;
  match w with
  | Err e => failDiscarding e
  | Ok _ =>
      f <- txTry systemCall ;; (* finish *)
      match f with
      | Err e => failDiscarding e
      | Ok _ =>
          let candidate := outcomeOf seal spec meta r name content in
          match ValidateOutcomeRecord (Some candidate), marshalControlRecord (jsonOutcome candidate) with
          | Err e, _ | Ok _, Err e => failDiscarding e
          | Ok _, Ok data =>
              c <- commitPayloadStage name content ;;
              match c with
              | (None, None) => commitOutcome candidate data
              | (cleanup, err) => txRet (MkPublished None cleanup err)
              end
          end
      end
  end.

(** [evaluateAndPublishContext] *)
Definition evaluateAndPublish (interpreter : Interpreter) (seal : ProviderExitRecord) (spec meta : string) : Tx published :=
  raw <- openValidatedEvidence seal ;;
  input <- txOnFailure (interpretationInput seal) systemCall ;;
  txOnFailure systemCall systemCall ;;; (* the stage; its failure closes the evidence *)
  e <- txTry (evaluate interpreter input raw) ;;
  match e with
  | Err err => failDiscarding err
  | Ok (r, written) => publishPayload seal spec meta r written
  end.

(** [collectOwnedContext] *)
Definition collectOwned (registry : Registry) (predicate : PredicateRef) : Tx published :=
  p <- loadAndValidatePreparedSetContext D RootID TaskID ;;
  txFail (negb (PredicateEqual predicate (me_Predicate (pp_meta p)))) (Sentinel task_ErrIncompatiblePredicate) ;;;
  w <- txTry (readWinner D RootID TaskID (pp_meta p) (pp_spec p) (pp_metaHash p)) ;;
  match w with
  | Ok winner => acknowledgeWinner winner
  | Err e =>
      txFail (negb (errors_Is e taskdir_errNoOutcome)) e ;;;
      present <- exists_ "outcome.json" ;;
      txFail present evidenceFault ;;;
      seal <- readSeal D RootID TaskID predicate (pp_spec p) (pp_metaHash p) ;;
      interpreter <- txOf (Resolve registry predicate) ;;
      evaluateAndPublish interpreter seal (pp_spec p) (pp_metaHash p)
  end.

(** The check of [CollectContext] before the run lock. *)
Definition collectCheck (predicate : PredicateRef) : Tx unit :=
  p <- loadAndValidatePreparedSetContext D RootID TaskID ;;
  txFail (negb (PredicateEqual predicate (me_Predicate (pp_meta p)))) (Sentinel task_ErrIncompatiblePredicate) ;;;
  published <- exists_ "outcome.json" ;;
  if published : bool then txRet tt
  else sealed <- exists_ "provider.exit" ;;
       if sealed : bool then txRet tt
       else started <- exists_ "provider.start" ;;
            if started : bool then txRet tt else txErr (Sentinel task_ErrNoSeal).

(** The publication with an early [return nil, nil, err] and a deferred unlock. *)
Definition asPublished (m : Tx published) : disk -> published * disk := fun d =>
  match m d with (Ok p, d') => (p, d') | (Err e, d') => (MkPublished None None (Some e), d') end.

Definition unlocking (m : disk -> published * disk) : disk -> published * disk := fun d =>
  let '(p, d1) := m d in
  let '(c, d2) := unlock d1 in
  (MkPublished (pb_Outcome p) (pb_Cleanup p) (errors_Join [pb_Err p; err_of c]), d2).

(** [withCollectionCheckContext] around [fn]. *)
Definition withCollection (u : taskSituation) (check : Tx unit) (fn : Tx published) : disk -> published * disk := fun d =>
  match tryLock (ts_maintenance u) d with
  | (Err e, d1) => (MkPublished None None (Some e), d1)
  | (Ok _, d1) =>
      unlocking (fun d1 =>
        match (check ;;; tryLock (ts_run u)) d1 with
        | (Err e, d2) => (MkPublished None None (Some e), d2)
        | (Ok _, d2) => unlocking (asPublished fn) d2
        end) d1
  end.

(** [CollectContext] *)
Definition Collect (u : taskSituation) (registry : Registry) (predicate : PredicateRef) : disk -> published * disk := fun d =>
  match contextErr d with
  | (Err e, d1) => (MkPublished None None (Some e), d1)
  | (Ok _, d1) => withCollection u (collectCheck predicate) (collectOwned registry predicate) d1
  end.

(** [Finalize], under the lease of the sealed runner. *)
Definition Finalize (l : leaseState) (registry : Registry) (predicate : PredicateRef) : disk -> published * disk :=
  asPublished
    (txOf (ownedRunner l) ;;;
     txFail (negb (le_sealed l) || negb (le_activeWriters l =? 0) || is_some (le_poisoned l)) evidenceFault ;;;
     collectOwned registry predicate).
End task.
