(* ===== verification/TaskSession.v ===== *)
(** * Provider sessions

    [internal/taskdir/session.go] and [session_handoff.go]: the ledger of one provider
    conversation, a directory of claims and releases that hands the conversation from
    one task to the next, and the proofs in a task's own directory that release it.

    The ledger is a disk of its own.  What a call reads elsewhere is its
    [sessionSituation]: the locks, the task's request, and the proofs other task
    directories give, which are arbitrary calls on the same fault list. *)
From S2P Require Import Prelude GoErrors GoTime GoText TaskTypes Encoding GoPath GoTimestamp TaskLifetime LifetimeClosure ControlDir.
From S2P Require Import TaskConfiguration TaskRecords TaskReducer SchedRequest TaskRecordsJson TaskDir TaskDirOps.
From Stdlib Require Import Ascii.
#[local] Open Scope Z_scope.
#[local] Open Scope tx_scope.

(** ** Names *)
Definition claimSuffix : string := ".claim.json".
Definition releaseSuffix : string := ".release.json".
Definition claimName (id : string) : string := str (bytes id ++ bytes claimSuffix).
Definition releaseName (id : string) : string := str (bytes id ++ bytes releaseSuffix).
Definition sessionLockName : string := ".session.lock".

(** [sessionDirectory], relative to the root *)
Definition sessionDirectory (provider conversation : string) : string :=
  str (bytes "sessions/" ++ bytes (ComputeSHA256 (str (bytes provider ++ bytes ":" ++ bytes conversation)))).

Record SessionDecoders : Set := MkSessionDecoders {
  dec_Claim : string -> SessionClaimRecord + decodeFailure;
  dec_Release : string -> SessionReleaseRecord + decodeFailure }.

Record sessionSituation : Type := MkSessionSituation {
  sn_maintenance : bool;
  sn_locked : bool; (* the session lock stays held until the acquisition deadline *)
  sn_timestamp : string;
  sn_request : result TaskRecord; (* [PreparedRecords] of the calling task *)
  sn_proof : string -> string -> Tx unit; (* [OpenTask] and [terminalProofContext] of a task *)
  sn_handoff : string -> Tx bool (* [matchesHandoffProofContext] of the calling task *)
}.

Section session.
Context (D : SessionDecoders) (RootID TaskID : string).

(** ** Records of the ledger *)
Definition readClaim (id provider conversation : string) : Tx SessionClaimRecord :=
  claim <- readRecord (dec_Claim D) (claimName id) ;;
  txOf (ValidateSessionClaimRecord (Some claim)) ;;;
  txFail (negb (eqs (sc_TaskID claim) id) || negb (eqs (sc_RootID claim) RootID) || negb (eqs (sc_Provider claim) provider) ||
          negb (eqs (sc_ConversationID claim) conversation)) mismatch ;;;
  txRet claim.

(** [readReleaseContext]: a release counts only while its evidence proves it. *)
Definition readRelease (u : sessionSituation) (claim : SessionClaimRecord) : Tx SessionReleaseRecord :=
  r <- readRecord (dec_Release D) (releaseName (sc_TaskID claim)) ;;
  txOf (ValidateSessionReleaseRecord (Some r)) ;;;
  txFail (negb (eqs (sl_TaskID r) (sc_TaskID claim)) || negb (eqs (sl_RootID r) (sc_RootID claim)) ||
          negb (eqs (sl_Provider r) (sc_Provider claim)) || negb (eqs (sl_ConversationID r) (sc_ConversationID claim))) mismatch ;;;
  sn_proof u (sc_TaskID claim) (sl_PredecessorEvidenceSHA256 r) ;;;
  txRet r.

(** [validateReleaseNames] *)
Fixpoint validateReleaseNames (provider conversation : string) (entries : list string) : Tx unit :=
  match entries with
  | [] => txRet tt
  | name :: rest =>
      (if HasSuffix name releaseSuffix
       then txMapErr (fun e => Joined "release without valid claim" [evidenceFault; e])
              (readClaim (trimSuffix name releaseSuffix) provider conversation) ;;; txRet tt
       else txRet tt) ;;;
      validateReleaseNames provider conversation rest
  end.

(** The entry of one claim in the search for the owner. *)
Definition claimOwner (u : sessionSituation) (provider conversation id owner : string) : Tx string :=
  claim <- readClaim id provider conversation ;;
  r <- txTry (readRelease u claim) ;;
  match r with
  | Ok _ => txRet owner
  | Err e =>
      txFail (negb (errors_Is e fs_ErrNotExist)) e ;;;
      txFail (negb (eqs owner "")) (Sentinel task_ErrInvariantFault) ;;;
      txRet id
  end.

Fixpoint activeOwner (u : sessionSituation) (provider conversation : string) (entries : list string) (owner : string) : Tx string :=
  match entries with
  | [] => txRet owner
  | name :: rest =>
      owner <- (if HasSuffix name claimSuffix
                then claimOwner u provider conversation (trimSuffix name claimSuffix) owner
                else txRet owner) ;;
      activeOwner u provider conversation rest owner
  end.

(** The entries of the ledger, in an order that decides only which of several faults is
    reported. *)
Definition ledgerEntries : Tx (list string) :=
  systemCall ;;; systemCall ;;; fun d => (Ok (map fst (map_to_list (files d))), d).

(** [activeSessionOwnerContext]: the task whose claim is not released, or none. *)
Definition activeSessionOwner (u : sessionSituation) (provider conversation : string) : Tx string :=
  entries <- ledgerEntries ;;
  validateReleaseNames provider conversation entries ;;;
  activeOwner u provider conversation entries "".

(** ** The session lock *)
(** [openSessionLock]: created only in an empty ledger. *)
Definition openSessionLock : Tx unit :=
  entries <- ledgerEntries ;;
  systemCall ;;;
  fun d => if bool_decide (entries = []) then (Ok tt, MkDisk (<[sessionLockName := ""%string]> (files d)) (faults d))
           else match files d !! sessionLockName with Some _ => (Ok tt, d) | None => (Err errNotExist, d) end.

(** [withSessionContext] *)
Definition withSession (u : sessionSituation) (fn : Tx unit) : Tx unit :=
  contextErr ;;;
  tryLock (sn_maintenance u) ;;;
  txJoin
    (systemCall ;;; (* mkdir *)
     openSessionLock ;;;
     txJoin
       (txMapErr (fun e => Joined "" [Sentinel task_ErrSessionBusy; e]) systemCall ;;;
        txFail (sn_locked u) (Joined "" [Sentinel task_ErrSessionBusy; Sentinel context_DeadlineExceeded]) ;;;
        fn)
       systemCall)
    unlock.

(** ** Claims *)
(** [claimSessionRecordContext] *)
Definition claimSessionRecord (u : sessionSituation) (rec : SessionClaimRecord) : Tx unit :=
  let provider := sc_Provider rec in
  let conversation := sc_ConversationID rec in
  owner <- activeSessionOwner u provider conversation ;;
  if eqs owner TaskID then systemCall
  else if negb (eqs owner "") then txErr (Sentinel task_ErrSessionBusy)
  else
    old <- txTry (readClaim TaskID provider conversation) ;;
    match old with
    | Ok claim =>
        readRelease u claim ;;;
        txErr (Sentinel task_ErrSessionBusy)
    | Err e =>
        txFail (negb (errors_Is e fs_ErrNotExist)) e ;;;
        commitRecord (claimName TaskID) (jsonSessionClaim rec)
    end.

(** [ClaimSessionContext] *)
Definition ClaimSession (u : sessionSituation) (provider conversation : string) : Tx unit :=
  contextErr ;;;
  let rec := MkSessionClaim SchemaVersion provider conversation RootID TaskID (sn_timestamp u) in
  txOf (ValidateSessionClaimRecord (Some rec)) ;;;
  req <- txOf (sn_request u) ;;
  txFail (negb (eqs (tk_Provider req) provider) ||
          match tk_PriorSession req with
          | Some prior => negb (eqs (ps_ConversationID prior) conversation)
          | None => false
          end) mismatch ;;;
  withSession u (claimSessionRecord u rec).

(** ** Releases *)
(** [reconcileSessionReleaseContext] *)
Definition reconcileSessionRelease (u : sessionSituation) (existing : SessionReleaseRecord) (digest : string) : Tx unit :=
  if eqs (sl_PredecessorEvidenceSHA256 existing) digest then systemCall
  else
    matches <- sn_handoff u (sl_PredecessorEvidenceSHA256 existing) ;;
    txFail (negb matches) evidenceFault ;;;
    sn_proof u TaskID digest ;;;
    systemCall.

(** [releaseSessionRecordContext] *)
Definition releaseSessionRecord (u : sessionSituation) (rec : SessionReleaseRecord) : Tx unit :=
  claim <- readClaim (sl_TaskID rec) (sl_Provider rec) (sl_ConversationID rec) ;;
  existing <- txTry (readRelease u claim) ;;
  match existing with
  | Ok old => reconcileSessionRelease u old (sl_PredecessorEvidenceSHA256 rec)
  | Err e =>
      txFail (negb (errors_Is e fs_ErrNotExist)) e ;;;
      owner <- activeSessionOwner u (sl_Provider rec) (sl_ConversationID rec) ;;
      txFail (negb (eqs owner (sl_TaskID rec))) (Sentinel task_ErrSessionBusy) ;;;
      sn_proof u TaskID (sl_PredecessorEvidenceSHA256 rec) ;;;
      commitRecord (releaseName (sl_TaskID rec)) (jsonSessionRelease rec)
  end.

(** [ReleaseSessionContext] *)
Definition ReleaseSession (u : sessionSituation) (provider conversation digest : string) : Tx unit :=
  contextErr ;;;
  let rec := MkSessionRelease SchemaVersion provider conversation RootID TaskID digest (sn_timestamp u) in
  txOf (ValidateSessionReleaseRecord (Some rec)) ;;;
  withSession u (releaseSessionRecord u rec).
End session.

(** ** Proofs in the task's own directory *)
Section proofs.
Context (D : TaskDecoders) (RootID TaskID : string).

(** [canonicalRecordDigest] *)
Definition recordDigest (record : json) : string := ComputeSHA256 (MarshalCanonical record).

(** The digest of a terminated observation of a budget stop. *)
Definition budgetDigest (record : StopRecord) : option string :=
  if eqs (sq_Cause (sp_Request record)) "budget" then
    match sp_Observation record with
    | Some observation => if so_Terminated observation then Some (recordDigest (jsonStopObserved observation)) else None
    | None => None
    end
  else None.

Definition budgetHandoffDigests : Tx (list string) :=
  records <- ReadStopRecords D RootID TaskID ;; txRet (omap budgetDigest records).

(** [lifetimeClosureHandoffDigestsContext] *)
Definition lifetimeClosureHandoffDigests (u : taskSituation) : Tx (list string) :=
  evidence <- txOf (ts_lifetime u) ;;
  closure <- txOf (ResolveLifetimeClosure evidence) ;;
  txRet (if Closed closure
         then omap id [(fun t => recordDigest (jsonTermination t)) <$> ev_Termination evidence;
                       (fun w => recordDigest (jsonWorkerWait w)) <$> ev_WorkerWait evidence]
         else []).

(** [matchesHandoffProofContext]: a family that cannot be read proves nothing. *)
Definition matchesHandoffProof (u : taskSituation) (digest : string) : Tx bool :=
  contextErr ;;;
  budget <- txTry budgetHandoffDigests ;;
  contextErr ;;;
  if match budget with Ok digests => bool_decide (digest ∈ digests) | Err _ => false end then txRet true
  else
    closure <- txTry (lifetimeClosureHandoffDigests u) ;;
    contextErr ;;;
    txRet (match closure with Ok digests => bool_decide (digest ∈ digests) | Err _ => false end).

Definition timeoutEvidenceDigest : Tx string :=
  digests <- budgetHandoffDigests ;;
  match digests with [] => txErr (Sentinel fs_ErrNotExist) | digest :: _ => txRet digest end.

(** The evidence of a task, once its run lock is held. *)
Definition terminalEvidence (u : taskSituation) (digest : string) : Tx unit :=
  p <- loadAndValidatePreparedSetContext D RootID TaskID ;;
  w <- txTry (readWinner D RootID TaskID (pp_meta p) (pp_spec p) (pp_metaHash p)) ;;
  match w with
  | Ok winner =>
      if eqs (oc_EvidenceSHA256 winner) digest || eqs (py_SHA256 (oc_Payload winner)) digest then acknowledgeRecord "outcome.json"
      else
        matches <- matchesHandoffProof u digest ;;
        if matches : bool then acknowledgeRecord "outcome.json" else txErr evidenceFault
  | Err e =>
      txFail (negb (errors_Is e taskdir_errNoOutcome)) e ;;;
      published <- exists_ "outcome.json" ;;
      txFail published evidenceFault ;;;
      matches <- matchesHandoffProof u digest ;;
      if matches : bool then txRet tt
      else
        seal <- txMapErr (fun e => Joined "" [Sentinel task_ErrSessionBusy; e])
                  (readSeal D RootID TaskID (me_Predicate (pp_meta p)) (pp_spec p) (pp_metaHash p)) ;;
        if eqs (pe_ManifestSHA256 seal) digest then acknowledgeRecord "provider.exit"
        else txErr (Sentinel task_ErrSessionBusy)
  end.

(** [terminalProofContext] *)
Definition terminalProof (u : taskSituation) (digest : string) : Tx unit :=
  txMapErr (fun e => Joined "active runner" [Sentinel task_ErrSessionBusy; e]) (tryLock (ts_run u)) ;;;
  txJoin (terminalEvidence u digest) unlock.
End proofs.

(** ** Releases without an outcome *)
(** [ReleaseSessionAfterTimeoutContext], with [timeoutEvidenceDigest] of the task. *)
Definition ReleaseSessionAfterTimeout (D : SessionDecoders) (RootID TaskID : string) (u : sessionSituation)
    (provider conversation : string) (evidence : result string) : Tx unit :=
  contextErr ;;;
  digest <- txOf evidence ;;
  ReleaseSession D RootID TaskID u provider conversation digest.

(** [ReleaseSessionAfterLifetimeClosureContext], with [lifetimeClosureHandoffDigests]. *)
Definition ReleaseSessionAfterLifetimeClosure (D : SessionDecoders) (RootID TaskID : string) (u : sessionSituation)
    (provider conversation : string) (witnesses : result (list string)) : Tx unit :=
  digests <- txOf witnesses ;;
  match digests with
  | [] => txErr (Errorf "native lifetime is not closed" (Sentinel task_ErrSessionBusy))
  | digest :: _ => ReleaseSession D RootID TaskID u provider conversation digest
  end.
