(* ===== verification/TaskDirProps.v ===== *)
(** * Readers and growth of the task directory

    Readers leave the directory as it is; every operation only adds files; and no
    validator of the task records reports the error that stands for an absent outcome. *)
From S2P Require Import Prelude GoErrors GoTime GoText GoFloat TaskTypes Encoding GoPath GoTimestamp TaskLifetime LifetimeClosure ControlDir ControlLifetimeProps.
From S2P Require Import TaskConfiguration TaskRecords TaskReducer SchedRequest TaskRecordsJson TaskDir TaskDirOps TaskPublication.
From S2P Require Import InteractionJournalProps.
#[local] Open Scope Z_scope.
#[local] Open Scope tx_scope.

(** ** Readers *)
Lemma readonly_join {A} (m : Tx A) c : readonly m -> readonly c -> readonly (txJoin m c).
Proof. unfold txJoin. auto 10 with tx. Qed.
Lemma readonly_onFailure {A} (m : Tx A) c : readonly m -> readonly c -> readonly (txOnFailure m c).
Proof. unfold txOnFailure. auto 10 with tx. Qed.
Lemma readonly_errors es : readonly (txErrors es).
Proof. unfold txErrors. auto with tx. Qed.
Lemma readonly_contextErr : readonly contextErr.
Proof. apply readonly_systemCall. Qed.
Lemma readonly_unlock : readonly unlock.
Proof. apply readonly_systemCall. Qed.
#[export] Hint Resolve readonly_join readonly_onFailure readonly_errors readonly_contextErr readonly_unlock : tx.
Lemma readonly_tryLock b : readonly (tryLock b).
Proof. unfold tryLock. auto with tx. Qed.
Lemma readonly_exists name : readonly (exists_ name).
Proof. unfold exists_. apply readonly_bind; [auto with tx|done]. Qed.
Lemma readonly_record {A} (decode : string -> A + decodeFailure) name : readonly (readRecord decode name).
Proof. unfold readRecord. auto with tx. Qed.
Lemma readonly_fileDigest name : readonly (fileDigest name).
Proof. unfold fileDigest. apply readonly_bind; [auto with tx|]. intros _ d. by destruct (files d !! name). Qed.
Lemma readonly_readDigest name limit : readonly (readDigest name limit).
Proof. unfold readDigest. auto with tx. Qed.
Lemma readonly_acknowledge name : readonly (acknowledgeRecord name).
Proof. unfold acknowledgeRecord. auto with tx. Qed.
Lemma readonly_checkPresent {A} (read : Tx A) check : readonly read -> readonly (checkPresent read check).
Proof. unfold checkPresent. auto 10 with tx. Qed.
Lemma readonly_readBytesContext name limit : readonly (readBytesContext name limit).
Proof. unfold readBytesContext. auto 10 with tx. Qed.
#[export] Hint Resolve readonly_tryLock readonly_exists readonly_record readonly_fileDigest readonly_readDigest
  readonly_acknowledge readonly_checkPresent readonly_readBytesContext : tx.

Section readers.
Context (D : TaskDecoders) (RootID TaskID : string).

Lemma readonly_withReader brief read : (forall name limit, readonly (read name limit)) ->
  readonly (loadAndValidatePreparedSetWithReader D RootID TaskID brief read).
Proof.
  intros H. unfold loadAndValidatePreparedSetWithReader, validateGuards, validateSubmitGuard, validateStartGuard.
  auto 30 with tx.
Qed.
#[local] Hint Resolve readonly_withReader : tx.
Lemma readonly_prepared : readonly (loadAndValidatePreparedSet D RootID TaskID).
Proof. unfold loadAndValidatePreparedSet. auto 10 with tx. Qed.
Lemma readonly_preparedContext : readonly (loadAndValidatePreparedSetContext D RootID TaskID).
Proof. unfold loadAndValidatePreparedSetContext, loadPreparedSetContext. auto 20 with tx. Qed.
#[local] Hint Resolve readonly_prepared readonly_preparedContext : tx.
Lemma readonly_outputs l : readonly (existingOutputs l).
Proof. induction l as [|o l IH]; cbn [existingOutputs foldr]; auto 20 with tx. Qed.
#[local] Hint Resolve readonly_outputs : tx.
Lemma readonly_rawNames : readonly (admittedRawNames D RootID TaskID).
Proof. unfold admittedRawNames. auto 20 with tx. Qed.
Lemma readonly_entries l : readonly (manifestEntries l).
Proof. induction l as [|o l IH]; cbn [manifestEntries]; auto 20 with tx. Qed.
#[local] Hint Resolve readonly_rawNames readonly_entries : tx.
Lemma readonly_rawManifest : readonly (rawManifest D RootID TaskID).
Proof. unfold rawManifest. auto 20 with tx. Qed.
Lemma readonly_sealedFiles l : readonly (sealedFilesMatch l).
Proof. induction l as [|o l IH]; cbn [sealedFilesMatch]; auto 20 with tx. Qed.
Lemma readonly_declarations l : readonly (validateManifestDeclarations D RootID TaskID l).
Proof. unfold validateManifestDeclarations. auto 20 with tx. Qed.
#[local] Hint Resolve readonly_rawManifest readonly_sealedFiles readonly_declarations : tx.
Lemma readonly_readSeal p spec meta : readonly (readSeal D RootID TaskID p spec meta).
Proof. unfold readSeal, readSealRecord, validateSealedFiles. auto 40 with tx. Qed.
Lemma readonly_winnerRecord meta spec hash : readonly (readWinnerRecord D RootID TaskID meta spec hash).
Proof. unfold readWinnerRecord. auto 40 with tx. Qed.
#[local] Hint Resolve readonly_readSeal readonly_winnerRecord : tx.
Lemma readonly_readWinner meta spec hash : readonly (readWinner D RootID TaskID meta spec hash).
Proof. unfold readWinner. auto with tx. Qed.
Lemma readonly_submission : readonly (ReadSubmission D RootID TaskID).
Proof. unfold ReadSubmission. auto 20 with tx. Qed.
#[local] Hint Resolve readonly_readWinner readonly_submission : tx.
Lemma readonly_receipt : readonly (ReadSupervisorReceipt D RootID TaskID).
Proof. unfold ReadSupervisorReceipt. auto 20 with tx. Qed.
Lemma readonly_identity : readonly (ReadProviderIdentity D RootID TaskID).
Proof. unfold ReadProviderIdentity, ReadProviderIdentityPresence. auto 20 with tx. Qed.
#[local] Hint Resolve readonly_receipt readonly_identity : tx.
Lemma readonly_stopRequest id : readonly (ReadStopRequest D RootID TaskID id).
Proof. unfold ReadStopRequest. auto 30 with tx. Qed.
#[local] Hint Resolve readonly_stopRequest : tx.
Lemma readonly_stopEvidence id : readonly (stopEvidence D RootID TaskID id).
Proof. unfold stopEvidence. auto 30 with tx. Qed.
#[local] Hint Resolve readonly_stopEvidence : tx.
Lemma readonly_stopReply id : readonly (ReadStopReply D RootID TaskID id).
Proof. unfold ReadStopReply. auto 30 with tx. Qed.
Lemma readonly_stopObservation id : readonly (ReadStopObservation D RootID TaskID id).
Proof. unfold ReadStopObservation. auto 30 with tx. Qed.
Lemma readonly_reserve id suffix b : readonly (reserveStopRecord id suffix b).
Proof. unfold reserveStopRecord. auto 30 with tx. Qed.
#[local] Hint Resolve readonly_stopReply readonly_stopObservation readonly_reserve : tx.
Lemma readonly_row id ids b : readonly (readStopRecordRow D RootID TaskID id ids b).
Proof. unfold readStopRecordRow, readOptional. auto 60 with tx. Qed.
#[local] Hint Resolve readonly_row : tx.
Lemma readonly_rows l ids b : readonly (readRows D RootID TaskID l ids b).
Proof. revert b. induction l as [|id l IH]; intros b; cbn [readRows]; auto 20 with tx. Qed.
Lemma readonly_discover : readonly discoverStopRecordIDs.
Proof. unfold discoverStopRecordIDs. apply readonly_bind; [auto with tx|]. intros _. apply readonly_bind; [done|auto with tx]. Qed.
#[local] Hint Resolve readonly_rows readonly_discover : tx.
Lemma readonly_stopRecords : readonly (ReadStopRecords D RootID TaskID).
Proof. unfold ReadStopRecords, readStopRecordRows. auto 20 with tx. Qed.
#[local] Hint Resolve readonly_stopRecords : tx.
Lemma readonly_refusal : readonly (permanentLaunchRefusal D RootID TaskID).
Proof. unfold permanentLaunchRefusal. auto 60 with tx. Qed.
#[local] Hint Resolve readonly_refusal : tx.
Lemma readonly_launchPermission : readonly (requireTaskLaunchPermission D RootID TaskID).
Proof. unfold requireTaskLaunchPermission. auto 20 with tx. Qed.
End readers.
#[export] Hint Resolve readonly_prepared readonly_preparedContext readonly_outputs readonly_rawNames readonly_entries
  readonly_rawManifest readonly_sealedFiles readonly_declarations readonly_readSeal readonly_winnerRecord readonly_readWinner
  readonly_submission readonly_receipt readonly_identity readonly_stopRequest readonly_stopEvidence readonly_stopReply
  readonly_stopObservation readonly_stopRecords readonly_refusal readonly_launchPermission : tx.

(** ** Growth *)
Definition extends (fs fs' : gmap string string) : Prop := fs ⊆ fs'.
Definition growing {A} (m : Tx A) : Prop := forall d, extends (files d) (files (m d).2).

Lemma grows_readonly {A} (m : Tx A) : readonly m -> growing m.
Proof. intros H d. unfold extends. by rewrite H. Qed.
Lemma grows_bind {A B} (m : Tx A) (f : A -> Tx B) : growing m -> (forall a, growing (f a)) -> growing (txBind m f).
Proof.
  intros Hm Hf d. unfold txBind. specialize (Hm d). destruct (m d) as [[a|e] d1]; cbn in *; [|done].
  unfold extends in *. etransitivity; [exact Hm|apply Hf].
Qed.
Lemma growing_try {A} (m : Tx A) : growing m -> growing (txTry m).
Proof. intros H d. unfold txTry. specialize (H d). by destruct (m d). Qed.
Lemma grows_stage name data : growing (stageReader name data).
Proof.
  intros d. destruct (stageReader name data d) as [r d'] eqn:E. apply stageReader_cases in E as (c & cl & err & _ & [[H _]|[H1 H2]]); cbn.
  - unfold extends. by rewrite H.
  - unfold extends. rewrite H2. by apply insert_subseteq.
Qed.
Lemma growing_commitStage name data : growing (commitStage name data).
Proof.
  intros [fs flts]. unfold commitStage, txBind, nextFault, extends. cbn [faults files].
  assert (fs !! name = None -> fs ⊆ <[name:=data]> fs) as H by apply insert_subseteq.
  destruct flts as [|[|e|e] flts]; cbn; try done; destruct (fs !! name); cbn; try done; auto; destruct flts; cbn; auto.
Qed.
Lemma growing_rawFile name : growing (initializeRawFile name).
Proof.
  apply grows_bind; [apply grows_readonly; auto with tx|]. intros _.
  apply grows_bind; [|intros _; apply grows_readonly; auto with tx]. intros d. unfold extends.
  destruct (files d !! rawPath name) eqn:E; cbn; [done|by apply insert_subseteq].
Qed.

Create HintDb grow.
#[export] Hint Resolve growing_try grows_stage growing_commitStage growing_rawFile : grow.
#[export] Hint Extern 1 (growing _) => apply grows_readonly; solve [auto 10 with tx] : grow.
#[export] Hint Extern 2 (growing (txBind _ _)) => apply grows_bind; [|intros ?] : grow.
#[export] Hint Extern 3 (growing (match ?x with _ => _ end)) => destruct x : grow.
#[export] Hint Extern 4 (growing (let '_ := _ in _)) => cbv zeta : grow.

Lemma growing_join {A} (m : Tx A) c : growing m -> growing c -> growing (txJoin m c).
Proof. unfold txJoin. auto 10 with grow. Qed.
Lemma growing_onFailure {A} (m : Tx A) c : growing m -> growing c -> growing (txOnFailure m c).
Proof. unfold txOnFailure. auto 10 with grow. Qed.
Lemma growing_stageRecord name data : growing (stageRecord name data).
Proof. unfold stageRecord. auto 10 with grow. Qed.
#[export] Hint Resolve growing_join growing_onFailure growing_stageRecord : grow.
Lemma growing_commitRecord name j : growing (commitRecord name j).
Proof. unfold commitRecord. auto 10 with grow. Qed.
Lemma growing_recordSame name j read : readonly read -> growing (recordSame name j read).
Proof. unfold recordSame, acknowledgeSame. auto 20 with grow. Qed.
Lemma growing_recordSameContext name j read : readonly read -> growing (recordSameContext name j read).
Proof. unfold recordSameContext, reconcileStagedWinner, acknowledgeSame. auto 30 with grow. Qed.
#[export] Hint Resolve growing_commitRecord growing_recordSame growing_recordSameContext : grow.

Section operations.
Context (D : TaskDecoders) (RootID TaskID : string).

Lemma readonly_validatePrepared name data guarded : readonly (validatePreparedRecord D name data guarded).
Proof. unfold validatePreparedRecord. auto 20 with tx. Qed.
#[local] Hint Resolve readonly_validatePrepared : tx.
Lemma growing_prepareSet brief req meta : growing (prepareSet D RootID TaskID brief req meta).
Proof. unfold prepareSet. auto 40 with grow. Qed.
Lemma growing_submission u s : growing (PrepareSubmission D RootID TaskID u s).
Proof. unfold PrepareSubmission. auto 40 with grow. Qed.
Lemma growing_start u b : growing (PrepareStart D RootID TaskID u b).
Proof. unfold PrepareStart, startBody, initializeRaw. auto 60 with grow. Qed.
Lemma growing_started l u n i : growing (RecordStarted D RootID TaskID l u n i).
Proof. unfold RecordStarted. auto 40 with grow. Qed.
Lemma growing_receipt u r : growing (RecordSupervisorReceipt D RootID TaskID u r).
Proof. unfold RecordSupervisorReceipt. auto 40 with grow tx. Qed.
Lemma growing_identity l u i : growing (RecordProviderIdentity D RootID TaskID l u i).
Proof. unfold RecordProviderIdentity. auto 40 with grow tx. Qed.
Lemma readonly_newStop u id cause deadline : readonly (newStopRequest D RootID TaskID u id cause deadline).
Proof. unfold newStopRequest, stopTarget, stopNumericTask. auto 60 with tx. Qed.
#[local] Hint Resolve readonly_newStop : tx.
Lemma growing_stop u id cause deadline : growing (PrepareStop D RootID TaskID u id cause deadline).
Proof. unfold PrepareStop. auto 60 with grow. Qed.
Lemma growing_reply u id f : growing (RecordStopReply D RootID TaskID u id f).
Proof. unfold RecordStopReply. auto 60 with grow tx. Qed.
Lemma growing_observation u id f : growing (RecordStopObservation D RootID TaskID u id f).
Proof. unfold RecordStopObservation, recordStopObservationOwned. auto 60 with grow tx. Qed.
Lemma readonly_recordsAbsent l : readonly (taskRecordsAbsent l).
Proof. induction l as [|n l IH]; cbn [taskRecordsAbsent]; auto 20 with tx. Qed.
Lemma readonly_rawEmpty l : readonly (rawEmpty l).
Proof. induction l as [|n l IH]; cbn [rawEmpty]; auto 20 with tx. Qed.
#[local] Hint Resolve readonly_recordsAbsent readonly_rawEmpty : tx.
Lemma readonly_unlaunchedEvidence u : readonly (unlaunchedTaskEvidence D RootID TaskID u).
Proof. unfold unlaunchedTaskEvidence, unlaunchedTaskRawEmpty. auto 40 with tx. Qed.
#[local] Hint Resolve readonly_unlaunchedEvidence : tx.
Lemma growing_abandonment u : growing (recordAutomaticAbandonment D RootID TaskID u).
Proof. unfold recordAutomaticAbandonment. auto 60 with grow tx. Qed.
#[local] Hint Resolve growing_abandonment : grow.
Lemma growing_section u fence : growing (unlaunchedSection D RootID TaskID u fence).
Proof. unfold unlaunchedSection, provePermanentRefusal. auto 60 with grow. Qed.
#[local] Hint Resolve growing_section : grow.
Lemma growing_runLock u fence : growing (withUnlaunchedTaskRunLock D RootID TaskID u fence).
Proof. unfold withUnlaunchedTaskRunLock. auto 60 with grow. Qed.
#[local] Hint Resolve growing_runLock : grow.
Lemma growing_prove u : growing (ProveUnlaunchedTask D RootID TaskID u).
Proof. unfold ProveUnlaunchedTask. auto 60 with grow. Qed.
Lemma growing_fence u : growing (FenceUnlaunchedTask D RootID TaskID u).
Proof. unfold FenceUnlaunchedTask. auto 60 with grow. Qed.
End operations.

Section publication.
Context (D : TaskDecoders) (RootID TaskID : string).

Lemma readonly_sealCandidate l u i c e p r : readonly (sealCandidate D RootID TaskID l u i c e p r).
Proof.
  assert (forall names, readonly (barrierRawFiles names)) as H by (induction names as [|n names IH]; cbn [barrierRawFiles]; auto 20 with tx).
  unfold sealCandidate, barrierRaw. auto 60 with tx.
Qed.
Lemma grows_seal l u i c e p r d : extends (files d) (files (Seal D RootID TaskID l u i c e p r d).2).
Proof.
  unfold Seal, extends. pose proof (readonly_sealCandidate l u i c e p r d) as H. destruct (sealCandidate _ _ _ _ _ _ _ _ _ _ d) as [[[s|s]|err] d1]; cbn in H.
  - pose proof (readonly_acknowledge "provider.exit" d1) as H1. destruct (acknowledgeRecord _ d1) as [x d2]. cbn in *. by rewrite H1, H.
  - pose proof (growing_commitRecord "provider.exit" (jsonExit s) d1) as H1. destruct (commitRecord _ _ d1) as [x d2]. unfold extends in H1. cbn in *. by rewrite <- H.
  - cbn. by rewrite H.
Qed.

Lemma readonly_sealedEvidence seal : readonly (openValidatedEvidence D RootID TaskID seal).
Proof.
  assert (forall e, readonly (openEvidenceEntry e)) as He.
  { intros e. unfold openEvidenceEntry. apply readonly_bind; [auto with tx|]. intros _ d. by destruct (files d !! rm_Path e). }
  assert (forall m, readonly (openEntries m)) as Hm by (induction m as [|e m IH]; cbn [openEntries]; auto 20 with tx).
  unfold openValidatedEvidence. auto 20 with tx.
Qed.
Lemma readonly_input seal : readonly (interpretationInput D RootID TaskID seal).
Proof. unfold interpretationInput. auto 20 with tx. Qed.
Lemma readonly_evaluate i input raw : readonly (evaluate i input raw).
Proof. unfold evaluate. auto 20 with tx. Qed.
Lemma readonly_failDiscarding e : readonly (failDiscarding e).
Proof. unfold failDiscarding, discard. auto 20 with tx. Qed.
#[local] Hint Resolve readonly_sealedEvidence readonly_input readonly_evaluate readonly_failDiscarding : tx.
Lemma growing_commitPayload name content : growing (commitPayloadStage name content).
Proof. unfold commitPayloadStage, discard. auto 40 with grow tx. Qed.
Lemma readonly_acknowledgeWinner o : readonly (acknowledgeWinner o).
Proof. unfold acknowledgeWinner. auto 20 with tx. Qed.
#[local] Hint Resolve growing_commitPayload readonly_acknowledgeWinner : grow tx.
Lemma growing_commitOutcome o data : growing (commitOutcome D RootID TaskID o data).
Proof. unfold commitOutcome. auto 40 with grow tx. Qed.
#[local] Hint Resolve growing_commitOutcome : grow.
Lemma growing_publish seal spec meta r w : growing (publishPayload D RootID TaskID seal spec meta r w).
Proof.
  unfold publishPayload, discard. destruct (payloadOf r w) as [name content].
  do 2 (apply grows_bind; [apply grows_readonly; auto 10 with tx|intros ?]). destruct a0 as [_|e]; [|apply grows_readonly; auto with tx].
  apply grows_bind; [apply grows_readonly; auto 10 with tx|intros [_|e]]; [|apply grows_readonly; auto with tx].
  cbv zeta. destruct (ValidateOutcomeRecord _); [destruct (marshalControlRecord _)|]; [|apply grows_readonly; auto with tx..].
  apply grows_bind; [auto with grow|]. intros [[c|] [e|]]; [apply grows_readonly; auto with tx..|auto with grow].
Qed.
#[local] Hint Resolve growing_publish : grow.
Lemma growing_evaluateAndPublish i seal spec meta : growing (evaluateAndPublish D RootID TaskID i seal spec meta).
Proof. unfold evaluateAndPublish. auto 60 with grow tx. Qed.
#[local] Hint Resolve growing_evaluateAndPublish : grow.
Lemma growing_collectOwned registry p : growing (collectOwned D RootID TaskID registry p).
Proof. unfold collectOwned. auto 60 with grow tx. Qed.
Lemma readonly_collectCheck p : readonly (collectCheck D RootID TaskID p).
Proof. unfold collectCheck. auto 60 with tx. Qed.
End publication.
#[export] Hint Resolve growing_collectOwned growing_commitOutcome growing_publish : grow.
#[export] Hint Resolve readonly_collectCheck readonly_sealedEvidence readonly_input readonly_evaluate readonly_failDiscarding
  readonly_acknowledgeWinner : tx.

(** ** Successful calls *)
Lemma readonly_files {A} (m : Tx A) d r d' : readonly m -> m d = (r, d') -> files d' = files d.
Proof. intros H E. specialize (H d). by rewrite E in H. Qed.
Lemma growing_files {A} (m : Tx A) d r d' : growing m -> m d = (r, d') -> files d ⊆ files d'.
Proof. intros H E. specialize (H d). by rewrite E in H. Qed.

Lemma txTry_eq {A} (m : Tx A) d r d' : txTry m d = (r, d') <-> exists r', m d = (r', d') /\ r = Ok r'.
Proof. unfold txTry. destruct (m d) as [x d1]. split; [intros [= <- <-]; eauto|intros (r' & [= -> ->] & ->); done]. Qed.

Lemma txJoin_Ok {A} (m : Tx A) c d a d' : txJoin m c d = (Ok a, d') <-> exists d1, m d = (Ok a, d1) /\ c d1 = (Ok tt, d').
Proof.
  unfold txJoin, txBind, txTry. destruct (m d) as [[x|e] d1]; [|destruct (c d1) as [[[]|e'] d2]; cbn; split; [done|naive_solver|done|naive_solver]].
  split.
  - destruct (c d1) as [[[]|e'] d2] eqn:E; cbn; [|done]. intros [= <- <-]. eauto.
  - intros (d1' & [= <- <-] & H). by rewrite H.
Qed.

Lemma txOnFailure_Ok {A} (m : Tx A) c d a d' : txOnFailure m c d = (Ok a, d') <-> m d = (Ok a, d').
Proof. unfold txOnFailure, txBind, txTry. destruct (m d) as [[x|e] d1]; cbn; [done|]. destruct (c d1) as [[]]; cbn; split; done. Qed.

Lemma txErrors_Ok es d u d' : txErrors es d = (Ok u, d') <-> errors_Join es = None /\ d' = d /\ u = tt.
Proof. unfold txErrors. destruct u, (errors_Join es); cbn; split; [done|by intros (? & ? & ?)|intros [= <-]; done|intros (_ & -> & _); done]. Qed.

Lemma exists_Ok name d b d' : exists_ name d = (Ok b, d') -> files d' = files d /\ b = bool_decide (is_Some (files d !! name)).
Proof.
  intros H. pose proof (readonly_exists name) as HR. apply readonly_files with (1 := HR) in H as Hf. split; [done|].
  unfold exists_, txBind in H. pose proof (readonly_systemCall d) as Hs. destruct (systemCall d) as [[[]|e] d1]; [|done]. cbn in *. injection H as <- _. by rewrite Hs.
Qed.

Lemma readRecord_Ok {A} (decode : string -> A + decodeFailure) name d a d' : readRecord decode name d = (Ok a, d') ->
  files d' = files d /\ exists data, files d !! name = Some data /\ decode data = inl a.
Proof.
  unfold readRecord. intros (data & d1 & H1 & H2)%txBind_Ok. apply readBytes_Ok in H1 as [H1 Hf]. apply txOf_Ok in H2 as [H2 ->].
  split; [done|]. exists data. split; [done|]. destruct (decode data); cbn in H2; [by injection H2 as ->|done].
Qed.

Lemma fileDigest_Ok name d r d' : fileDigest name d = (Ok r, d') ->
  files d' = files d /\ exists data, files d !! name = Some data /\ r = (ComputeSHA256 data, len data).
Proof.
  intros H. apply readonly_files with (1 := readonly_fileDigest name) in H as Hf. split; [done|].
  unfold fileDigest, txBind in H. pose proof (readonly_systemCall d) as Hs. destruct (systemCall d) as [[[]|e] d1]; [|done]. cbn in *.
  rewrite Hs in H. destruct (files d !! name) as [b|]; [|done]. injection H as <- _. eauto.
Qed.

Lemma stageRecord_Ok name data d u d' : stageRecord name data d = (Ok u, d') ->
  files d !! name = None /\ files d' = <[name := data]> (files d).
Proof.
  unfold stageRecord. intros ([[c cl] err] & d1 & H1 & H2)%txBind_Ok. apply txErrors_Ok in H2 as (H2 & -> & _).
  apply stageReader_cases in H1 as (c' & cl' & err' & [= -> -> ->] & [[_ H]|H]); [|done]. by destruct err'.
Qed.

Lemma commitRecord_Ok name j d u d' : commitRecord name j d = (Ok u, d') ->
  files d !! name = None /\ files d' = <[name := MarshalCanonical j]> (files d).
Proof.
  unfold commitRecord. intros (data & d1 & H1 & H2)%txBind_Ok. apply txOf_Ok in H1 as [H1 ->]. apply stageRecord_Ok in H2 as [? ?].
  split; [done|]. unfold marshalControlRecord in H1. destruct (_ <? _); [done|]. injection H1 as <-. done.
Qed.

(** Inverts the successful steps of a sequence of calls. *)
Ltac tx_ok :=
  repeat match goal with
  | u : unit |- _ => destruct u
  | H : txBind _ _ _ = (Ok _, _) |- _ => apply txBind_Ok in H as (? & ? & ? & ?)
  | H : txOf _ _ = (Ok _, _) |- _ => apply txOf_Ok in H as [? ->]
  | H : txFail _ _ _ = (Ok _, _) |- _ => apply txFail_Ok in H as (? & -> & _)
  | H : txRet _ _ = (_, _) |- _ => injection H as ? ?; subst
  | H : txJoin _ _ _ = (Ok _, _) |- _ => apply txJoin_Ok in H as (? & ? & ?)
  | H : txOnFailure _ _ _ = (Ok _, _) |- _ => apply txOnFailure_Ok in H
  | H : exists_ _ _ = (Ok _, _) |- _ => apply exists_Ok in H as [? ->]
  | H : bool_decide _ = false |- _ => apply bool_decide_eq_false in H
  end.
(** Replaces the files after a read-only call by those before it. *)
Ltac tx_files :=
  repeat match goal with
  | H : ?m ?d = (_, ?d') |- _ =>
      lazymatch goal with
      | E : files d' = _ |- _ => fail
      | _ => let E := fresh "Hfs" in assert (files d' = files d) as E by (eapply (readonly_files m d); [auto 10 with tx|exact H])
      end
  end.

(** ** Validation never reports an absent outcome *)
(** [errors.Is(err, errNoOutcome)] tells a task that has no outcome from a fault.  The
    error is made in one place; no validator returns an error that wraps it. *)
Definition lacks {A} (s : sentinel) (m : result A) : Prop := forall e, m = Err e -> errors_Is e s = false.

Create HintDb lacks.

Lemma lacks_Ok {A} s (a : A) : lacks s (Ok a).
Proof. done. Qed.
Lemma lacks_Err {A} s e : errors_Is e s = false -> lacks s (@Err A e).
Proof. by intros H e' [= <-]. Qed.
Lemma lacks_bind {A B} s (m : result A) (f : A -> result B) : lacks s m -> (forall a, lacks s (f a)) -> lacks s (m ≫= f).
Proof. destruct m as [a|e]; cbn; intros Hm Hf; [apply Hf|]. intros e' [= <-]. by apply Hm. Qed.
Lemma lacks_fail_if s b e : errors_Is e s = false -> lacks s (fail_if b e).
Proof. intros H e'. destruct b; cbn; congruence. Qed.
Lemma lacks_wrap {A} s f (m : result A) : lacks s m -> (forall e, errors_Is e s = false -> errors_Is (f e) s = false) -> lacks s (wrap_err f m).
Proof. destruct m as [a|e]; cbn; intros Hm Hf e'; [done|intros [= <-]]. by apply Hf, Hm. Qed.
Lemma lacks_when {A} s (o : option A) f : (forall a, lacks s (f a)) -> lacks s (when_some o f).
Proof. destruct o; cbn; [auto|done]. Qed.
Lemma lacks_fmap {A B} s (f : A -> B) (m : result A) : lacks s m -> lacks s (f <$> m).
Proof. destruct m as [a|e]; cbn; [done|]. intros Hm e' [= <-]. by apply Hm. Qed.
Lemma lacks_each {A} s (check : A -> result unit) l : (forall a, lacks s (check a)) -> lacks s (each check l).
Proof. intros H. induction l as [|a l IH]; cbn; [done|]. apply lacks_bind; [apply H|auto]. Qed.
Lemma lacks_eachAfter {A} s (check : option A -> A -> result unit) l previous :
  (forall p a, lacks s (check p a)) -> lacks s (eachAfter check previous l).
Proof. intros H. revert previous. induction l as [|a l IH]; intros p; cbn; [done|]. apply lacks_bind; [apply H|auto]. Qed.

Lemma lacks_Join {A B C} s (x : result A) (y : result B) (c : C) : lacks s x -> lacks s y ->
  lacks s match errors_Join [err_of x; err_of y] with Some e => Err e | None => Ok c end.
Proof.
  intros Hx Hy e. destruct x as [a|ex], y as [b|ey]; cbn; intros [= <-]; cbn;
    rewrite ?(Hx _ eq_refl), ?(Hy _ eq_refl); done.
Qed.

(** One step of the walk over a validator: the combinators, then the head constant. *)
Ltac head t := lazymatch t with ?f _ => head f | _ => t end.
Ltac lacks_step :=
  first
  [ assumption
  | solve [auto with lacks nocore]
  | lazymatch goal with
    | |- lacks _ (Ok _) => apply lacks_Ok
    | |- lacks _ (Err _) => apply lacks_Err; first [reflexivity | cbn; rewrite ?orb_false_r; auto]
    | |- lacks _ (fail_if _ _) => apply lacks_fail_if; reflexivity
    | |- lacks _ (_ ≫= _) => apply lacks_bind; [|intros ?]
    | |- lacks _ (wrap_err _ _) => apply lacks_wrap; [|intros ? ?; cbn; rewrite ?orb_false_r; first [assumption | reflexivity]]
    | |- lacks _ (when_some _ _) => apply lacks_when; intros ?
    | |- lacks _ (_ <$> _) => apply lacks_fmap
    | |- lacks _ (each _ _) => apply lacks_each; intros ?
    | |- lacks _ (eachAfter _ _ _) => apply lacks_eachAfter; intros ? ?
    | |- lacks _ (match errors_Join [err_of _; err_of _] with _ => _ end) => apply lacks_Join
    | |- lacks ?s (match ?x with _ => _ end) =>
        lazymatch type of x with
        | result _ =>
            let H := fresh "Hx" in
            assert (lacks s x) as H; [|destruct x; [clear H|specialize (H _ eq_refl)]]
        | _ => destruct x
        end
    | |- lacks _ (let '_ := _ in _) => cbv zeta
    | |- lacks _ ?m => let h := head m in unfold h
    end ].
Ltac lacks_solve := repeat lacks_step.

Section validators.
Abbreviation s := taskdir_errNoOutcome (only parsing).

(** The recursive readers. *)
Lemma lacks_roles seen roles : lacks s (validateTeamRolesFrom seen roles).
Proof. revert seen. induction roles as [|r roles IH]; intros seen; cbn [validateTeamRolesFrom]; lacks_solve. Qed.
Lemma lacks_durationLoop fuel l d : lacks s (durationLoop fuel l d).
Proof. revert l d. induction fuel as [|fuel IH]; intros [|c l] d; cbn [durationLoop]; lacks_solve. Qed.
Lemma lacks_environment seen values : lacks s (validateEnvironmentFrom seen values).
Proof. revert seen. induction values as [|v values IH]; intros seen; cbn [validateEnvironmentFrom]; lacks_solve. Qed.
Lemma lacks_inputs total l : lacks s (inputFilesFrom total l).
Proof. revert total. induction l as [|f l IH]; intros total; cbn [inputFilesFrom]; lacks_solve. Qed.
Lemma lacks_bindings names indices l : lacks s (bindingsFrom names indices l).
Proof. revert names indices. induction l as [|d l IH]; intros names indices; cbn [bindingsFrom]; lacks_solve. Qed.
#[local] Hint Resolve lacks_roles lacks_durationLoop lacks_environment lacks_inputs lacks_bindings : lacks.

Lemma lacks_ValidateTaskRecord r : lacks s (ValidateTaskRecord r).
Proof. lacks_solve.
Qed.
Lemma lacks_ValidateMetaRecord r : lacks s (ValidateMetaRecord r).
Proof. lacks_solve.
Qed.
Lemma lacks_ValidateSubmitRecord r : lacks s (ValidateSubmitRecord r).
Proof. lacks_solve.
Qed.
Lemma lacks_ValidateProviderStartRecord r : lacks s (ValidateProviderStartRecord r).
Proof. lacks_solve.
Qed.
Lemma lacks_ValidateOutcomeRecord r : lacks s (ValidateOutcomeRecord r).
Proof. lacks_solve.
Qed.
End validators.
#[export] Hint Resolve lacks_ValidateTaskRecord lacks_ValidateMetaRecord lacks_ValidateSubmitRecord
  lacks_ValidateProviderStartRecord lacks_ValidateOutcomeRecord : lacks.
