(* ===== verification/TaskLaunchProps.v ===== *)
(** * Grants, stops and refusals

    What a successful call proves about the directory before and after it: the canonical
    reader of a refusal finds a permanent stop and an outcome when there is one, a grant
    found no earlier grant and no refusal, a stop left its request, and a proof of refusal
    found no start and left the directory refusing every launch. *)
From S2P Require Import Prelude GoErrors GoTime GoText TaskTypes Encoding GoPath GoTimestamp TaskLifetime LifetimeClosure ControlDir ControlLifetimeProps.
From S2P Require Import TaskConfiguration TaskRecords TaskReducer SchedRequest TaskRecordsJson TaskDir TaskDirOps TaskPublication TaskDirProps.
From S2P Require Import InteractionJournalProps.
From Stdlib Require Import Ascii.
#[local] Open Scope Z_scope.
#[local] Open Scope tx_scope.

(** ** Names *)
Lemma HasSuffix_app id suffix : HasSuffix (str (bytes id ++ bytes suffix)) suffix = true.
Proof. unfold HasSuffix. by rewrite bytes_str, rev_app_distr, stripPrefix_app. Qed.

Lemma trimSuffix_app id suffix : trimSuffix (str (bytes id ++ bytes suffix)) suffix = id.
Proof.
  unfold trimSuffix. rewrite bytes_str, length_app, Nat.add_sub, take_app_length. apply str_bytes.
Qed.

Lemma request_not_stage id : IsRecognizedStageFile (str (bytes id ++ bytes stopRequestSuffix)) = false.
Proof.
  unfold IsRecognizedStageFile. assert (HasSuffix (str (bytes id ++ bytes stopRequestSuffix)) ".tmp" = false) as ->.
  { unfold HasSuffix. by rewrite bytes_str, rev_app_distr. }
  by rewrite andb_false_r, andb_false_l.
Qed.

Lemma request_name id : stopRecordName (str (bytes id ++ bytes stopRequestSuffix)) =
  if eqs id "" then None else Some (stopRequestSuffix, id).
Proof. unfold stopRecordName. rewrite HasSuffix_app. cbv zeta. by rewrite trimSuffix_app. Qed.

(** ** The inventory of stop records *)
Lemma addStop_mono ids name ids' : addStopRecordName ids name = Ok ids' -> sd_requests ids ⊆ sd_requests ids'.
Proof.
  unfold addStopRecordName. destruct (IsRecognizedStageFile name); [by intros [= <-]|]. destruct (stopRecordName name) as [[kind id]|]; [|done].
  intros ([] & _ & H)%bind_Ok. apply bind_Ok in H as ([] & _ & H). cbn [sd_entries sd_requests sd_replies sd_observations] in H.
  destruct (eqs kind stopRequestSuffix); [apply bind_Ok in H as ([] & _ & [= <-]); cbn; set_solver|].
  destruct (eqs kind stopReplySuffix); by injection H as <-.
Qed.

Lemma addStops_mono names ids ids' : addStopRecordNames ids names = Ok ids' -> sd_requests ids ⊆ sd_requests ids'.
Proof.
  revert ids. induction names as [|n names IH]; intros ids; cbn; [by intros [= <-]|].
  intros (ids1 & H1 & H2)%bind_Ok. apply addStop_mono in H1. apply IH in H2. set_solver.
Qed.

Lemma addStop_request ids id ids' : addStopRecordName ids (str (bytes id ++ bytes stopRequestSuffix)) = Ok ids' -> id ∈ sd_requests ids'.
Proof.
  unfold addStopRecordName. rewrite request_not_stage, request_name. destruct (eqs id ""); [done|].
  intros ([] & _ & H)%bind_Ok. apply bind_Ok in H as ([] & _ & H). rewrite eqs_refl in H. apply bind_Ok in H as ([] & _ & [= <-]). cbn. set_solver.
Qed.

Lemma addStops_request names ids id ids' : addStopRecordNames ids names = Ok ids' ->
  str (bytes id ++ bytes stopRequestSuffix) ∈ names -> id ∈ sd_requests ids'.
Proof.
  revert ids. induction names as [|n names IH]; intros ids; cbn; [by intros _ ?%not_elem_of_nil|].
  intros (ids1 & H1 & H2)%bind_Ok [<-|Hin]%elem_of_cons; [|by eapply IH].
  apply addStop_request in H1. apply addStops_mono in H2. set_solver.
Qed.

Lemma entries_request fs id : is_Some (fs !! stopName id stopRequestSuffix) -> str (bytes id ++ bytes stopRequestSuffix) ∈ stopEntries fs.
Proof.
  intros [data H]. unfold stopEntries. apply list_elem_of_omap. exists (stopName id stopRequestSuffix). split.
  - apply list_elem_of_fmap. exists (stopName id stopRequestSuffix, data). split; [done|]. by apply elem_of_map_to_list.
  - unfold CutPrefix, stopName. rewrite bytes_str. change (bytes "stop/" ++ bytes id ++ bytes stopRequestSuffix) with (bytes "stop/" ++ (bytes id ++ bytes stopRequestSuffix)).
    by rewrite stripPrefix_app.
Qed.

Lemma discover_request d ids d' id : discoverStopRecordIDs d = (Ok ids, d') ->
  is_Some (files d !! stopName id stopRequestSuffix) -> id ∈ sd_requests ids.
Proof.
  intros ([] & d1 & H1 & H)%txBind_Ok Hid. apply readonly_files with (1 := readonly_systemCall) in H1.
  apply txBind_Ok in H as (names & d2 & [= <- <-] & H). apply txJoin_Ok in H as (d3 & [H ->]%txOf_Ok & _).
  eapply addStops_request; [exact H|]. apply entries_request. by rewrite H1.
Qed.

Section task.
Context (D : TaskDecoders) (RootID TaskID : string).

(** A permanent stop request on disk. *)
Definition stopOnDisk (fs : gmap string string) (r : StopRequestRecord) : Prop :=
  exists id data, fs !! stopName id stopRequestSuffix = Some data /\ dec_StopRequest D data = inl r.

Lemma ReadStopRequest_Ok id d r d' : ReadStopRequest D RootID TaskID id d = (Ok r, d') ->
  files d' = files d /\ sq_RequestID r = id /\ exists data, files d !! stopName id stopRequestSuffix = Some data /\ dec_StopRequest D data = inl r.
Proof.
  intros H. split; [eapply readonly_files; [|exact H]; auto with tx|]. unfold ReadStopRequest in H.
  apply txBind_Ok in H as ([] & d1 & [_ ->]%txOf_Ok & H). apply txBind_Ok in H as (r' & d2 & [Hf Hr]%readRecord_Ok & H).
  apply txBind_Ok in H as ([] & d3 & [_ ->]%txOf_Ok & H). apply txBind_Ok in H as (p & d4 & _ & H).
  apply txBind_Ok in H as ([] & d5 & (Hid & -> & _)%txFail_Ok & H).
  rewrite !orb_false_iff, !negb_false_iff in Hid. destruct Hid as [[[[[[Hid%eqs_true _] _] _] _] _] _].
  assert (r' = r) as ->; [|done]. destruct (sq_NumericTaskID r'); [|by injection H as -> _].
  apply txBind_Ok in H as (receipt & d6 & _ & H). apply txBind_Ok in H as ([] & d7 & _ & [= -> _]). done.
Qed.

Lemma row_Ok id ids b d row b' d' : readStopRecordRow D RootID TaskID id ids b d = (Ok (row, b'), d') ->
  files d' = files d /\ sq_RequestID (sp_Request row) = id /\
  exists data, files d !! stopName id stopRequestSuffix = Some data /\ dec_StopRequest D data = inl (sp_Request row).
Proof.
  intros H. split; [eapply readonly_files; [|exact H]; unfold readStopRecordRow, readOptional, reserveStopRecord; auto 60 with tx|].
  unfold readStopRecordRow in H. apply txBind_Ok in H as (b1 & d1 & H1 & H). apply readonly_files in H1; [|unfold reserveStopRecord; auto 20 with tx].
  apply txBind_Ok in H as (r & d2 & (_ & Hid & Hr)%ReadStopRequest_Ok & H). rewrite H1 in Hr.
  apply txBind_Ok in H as (x & d3 & _ & H). apply txBind_Ok in H as (y & d4 & _ & [= <- _ _]). done.
Qed.

Lemma rows_Ok l ids b d rows d' : readRows D RootID TaskID l ids b d = (Ok rows, d') ->
  (forall id, id ∈ l -> exists row data, row ∈ rows /\ files d !! stopName id stopRequestSuffix = Some data /\ dec_StopRequest D data = inl (sp_Request row)) /\
  (forall row, row ∈ rows -> stopOnDisk (files d) (sp_Request row)).
Proof.
  revert b d rows d'. induction l as [|id l IH]; intros b d rows d'; cbn [readRows]; [intros [= <- _]; split; intros ? ?%not_elem_of_nil; done|].
  intros ([row b1] & d1 & (Hf & Hid & data & Hd & Hr)%row_Ok & H)%txBind_Ok. cbn [fst snd] in H.
  apply txBind_Ok in H as (rest & d2 & H & [= <- _]). apply IH in H as [H1 H2]. rewrite Hf in H1, H2. split.
  - intros id' [->|Hin]%elem_of_cons; [exists row, data; split; [apply elem_of_cons; auto|done]|].
    destruct (H1 id' Hin) as (row' & data' & Hin' & ?). exists row', data'. split; [apply elem_of_cons; auto|done].
  - intros row' [->|Hin]%elem_of_cons; [by exists id, data|by apply H2].
Qed.

Lemma ReadStopRecords_Ok d rows d' : ReadStopRecords D RootID TaskID d = (Ok rows, d') ->
  (forall id data, files d !! stopName id stopRequestSuffix = Some data ->
    exists row, row ∈ rows /\ dec_StopRequest D data = inl (sp_Request row)) /\
  (forall row, row ∈ rows -> stopOnDisk (files d) (sp_Request row)).
Proof.
  unfold ReadStopRecords, readStopRecordRows. intros (p & d1 & H1 & H)%txBind_Ok. apply readonly_files in H1; [|auto with tx].
  apply txBind_Ok in H as (ids & d2 & H2 & H). apply txBind_Ok in H as ([] & d3 & [_ ->]%txOf_Ok & H).
  pose proof H2 as Hf. apply readonly_files in Hf; [|apply readonly_discover]. apply rows_Ok in H as [Ha Hb]. rewrite Hf, H1 in Ha, Hb. split; [|done].
  intros id data Hd. assert (id ∈ sd_requests ids) as Hin by (eapply discover_request; [exact H2|rewrite H1; eauto]).
  destruct (Ha id) as (row & data' & Hrow & Hd' & Hr'); [rewrite merge_sort_Permutation; by apply elem_of_elements|].
  exists row. split; [done|]. congruence.
Qed.

(** ** Absence of an outcome *)
Definition txLacks {A} (s : sentinel) (m : Tx A) : Prop := forall d e d', m d = (Err e, d') -> errors_Is e s = false.

Lemma txLacks_ret {A} s (a : A) : txLacks s (txRet a).
Proof. done. Qed.
Lemma txLacks_of {A} s (r : result A) : lacks s r -> txLacks s (txOf r).
Proof. intros H d e d' [= -> _]. by apply H. Qed.
Lemma txLacks_fail s b e : errors_Is e s = false -> txLacks s (txFail b e).
Proof. intros H. by apply txLacks_of, lacks_fail_if. Qed.
Lemma txLacks_err {A} s e : errors_Is e s = false -> txLacks s (@txErr A e).
Proof. by intros H d e' d' [= <- _]. Qed.
Lemma txLacks_bind {A B} s (m : Tx A) (f : A -> Tx B) : txLacks s m -> (forall a, txLacks s (f a)) -> txLacks s (txBind m f).
Proof.
  intros Hm Hf d e d'. unfold txBind. destruct (m d) as [[a|e1] d1] eqn:E; [apply Hf|]. intros [= -> <-]. by eapply Hm.
Qed.
Lemma txLacks_try_bind {A B} s (m : Tx A) (f : result A -> Tx B) : (forall a, txLacks s (f (Ok a))) ->
  (forall e, (exists d d', m d = (Err e, d')) -> txLacks s (f (Err e))) -> txLacks s (txBind (txTry m) f).
Proof. intros H1 H2 d e d'. unfold txBind, txTry. destruct (m d) as [[a|e1] d1] eqn:E; [apply H1|apply H2; eauto]. Qed.

Abbreviation noOutcome := taskdir_errNoOutcome (only parsing).

Lemma txLacks_systemCall : txLacks noOutcome systemCall.
Proof.
  intros d e d'. unfold systemCall, txBind, nextFault. destruct (faults d) as [|f fs]; cbn; [done|].
  destruct f as [|x|x]; cbn; [done|intros [= <- _]; by destruct x|intros [= <- _]; by destruct x].
Qed.
Lemma txLacks_readBytes name limit : txLacks noOutcome (readBytes name limit).
Proof.
  apply txLacks_bind; [apply txLacks_systemCall|]. intros _ d e d'. destruct (files d !! name) as [b|]; [destruct (limit <? len b)|]; intros [= <- _]; done.
Qed.
Lemma txLacks_readRecord {A} (decode : string -> A + decodeFailure) name : txLacks noOutcome (readRecord decode name).
Proof.
  apply txLacks_bind; [apply txLacks_readBytes|]. intros data. apply txLacks_of. intros e. destruct (decode data) as [a|[]]; cbn; intros [= <-]; done.
Qed.
Lemma txLacks_fileDigest name : txLacks noOutcome (fileDigest name).
Proof. apply txLacks_bind; [apply txLacks_systemCall|]. intros _ d e d'. destruct (files d !! name); intros [= <- _]; done. Qed.
Lemma txLacks_exists name : txLacks noOutcome (exists_ name).
Proof. apply txLacks_bind; [apply txLacks_systemCall|]. by intros _ d e d'. Qed.
Lemma txLacks_checkPresent {A} (read : Tx A) check : txLacks noOutcome read -> (forall a, lacks noOutcome (check a)) ->
  txLacks noOutcome (checkPresent read check).
Proof.
  intros Hr Hc. apply txLacks_try_bind; [intros a; by apply txLacks_of|]. intros e (d & d' & H). destruct (errors_Is e fs_ErrNotExist); [done|].
  apply txLacks_err. by eapply Hr.
Qed.
#[local] Hint Resolve txLacks_ret txLacks_systemCall txLacks_readBytes txLacks_readRecord txLacks_fileDigest txLacks_exists txLacks_checkPresent : lacks.
Ltac tx_lacks :=
  repeat first
  [ solve [auto with lacks nocore]
  | lazymatch goal with
    | |- txLacks _ (txBind _ _) => apply txLacks_bind; [|intros ?]
    | |- txLacks _ (txFail _ _) => apply txLacks_fail; reflexivity
    | |- txLacks _ (txOf _) => apply txLacks_of; lacks_solve
    | |- txLacks _ (checkPresent _ _) => apply txLacks_checkPresent; [auto with lacks|intros ?; lacks_solve]
    | |- txLacks _ ?m => let h := head m in unfold h
    end ].

Lemma lacks_decoded {A} (x : A + decodeFailure) : lacks noOutcome (decoded x).
Proof. intros e. destruct x as [a|[]]; cbn; intros [= <-]; done. Qed.
#[local] Hint Resolve lacks_decoded : lacks.

Lemma txLacks_prepared : txLacks noOutcome (loadAndValidatePreparedSet D RootID TaskID).
Proof. unfold loadAndValidatePreparedSet, loadAndValidatePreparedSetWithReader. cbv zeta. tx_lacks. Qed.
Lemma txLacks_outputs l : txLacks noOutcome (existingOutputs l).
Proof. induction l as [|o l IH]; cbn [existingOutputs foldr]; tx_lacks. Qed.
Lemma txLacks_entries l : txLacks noOutcome (manifestEntries l).
Proof. induction l as [|o l IH]; cbn [manifestEntries]; [done|]. tx_lacks. Qed.
#[local] Hint Resolve txLacks_prepared txLacks_outputs txLacks_entries : lacks.
Lemma txLacks_rawManifest : txLacks noOutcome (rawManifest D RootID TaskID).
Proof. tx_lacks. Qed.
#[local] Hint Resolve txLacks_rawManifest : lacks.

(** [errNoOutcome] is reported only when the outcome is absent. *)
Lemma winner_absent meta spec hash d e d' : readWinnerRecord D RootID TaskID meta spec hash d = (Err e, d') ->
  errors_Is e noOutcome = true -> files d !! "outcome.json" = None.
Proof.
  unfold readWinnerRecord. unfold txBind at 1, txTry at 1. destruct (readRecord _ _ d) as [[o|e1] d1] eqn:E.
  - assert (forall m : Tx OutcomeRecord, txLacks noOutcome m -> m d1 = (Err e, d') -> errors_Is e noOutcome = true -> False) as Hc.
    { intros m Hm H. apply Hm in H. congruence. }
    intros H Hn. exfalso. revert H Hn. apply Hc. tx_lacks.
  - intros [= <- <-]. destruct (errors_Is e1 fs_ErrNotExist) eqn:Ee.
    + intros _. unfold readRecord, txBind in E. destruct (readBytes _ _ d) as [[b|e2] d2] eqn:Eb.
      * unfold txOf in E. apply (f_equal fst) in E. destruct (dec_Outcome D b) as [|f]; [done|]. cbn in E. injection E as <-. by destruct f.
      * assert (e2 = e1) as -> by (apply (f_equal fst) in E; cbn in E; by injection E). by eapply readBytes_notexist.
    + intros H. apply txLacks_readRecord in E. congruence.
Qed.
End task.

(** ** Grants and refusals *)
Section task.
Context (D : TaskDecoders) (RootID TaskID : string).

(** ** Refused directories *)
(** A directory that refuses every launch: it holds an outcome, or a stop request that
    is permanent if it can be read at all. *)
Definition refused (fs : gmap string string) : Prop :=
  is_Some (fs !! "outcome.json"%string) \/
  exists id data, fs !! stopName id stopRequestSuffix = Some data /\
    forall r, dec_StopRequest D data = inl r -> PermanentLaunchRefusalCause (sq_Cause r) = true.

Lemma refusal_cases d o d' : permanentLaunchRefusal D RootID TaskID d = (Ok o, d') ->
  files d' = files d /\ (is_Some o <-> refused (files d)).
Proof.
  intros H. split; [eapply readonly_files; [|exact H]; auto with tx|]. unfold permanentLaunchRefusal in H.
  apply txBind_Ok in H as ([] & d1 & H1 & H). apply readonly_files in H1; [|auto with tx].
  apply txBind_Ok in H as (p & d2 & H2 & H). apply readonly_files in H2; [|auto with tx].
  apply txBind_Ok in H as (w & d3 & H3 & H). apply txTry_eq in H3 as (w' & H3 & [= ->]).
  pose proof H3 as Hf3. apply readonly_files in Hf3; [|auto with tx].
  apply txBind_Ok in H as ([] & d4 & H4 & H). apply readonly_files in H4; [|auto with tx]. destruct w' as [out|e].
  - apply txBind_Ok in H as (data & d5 & _ & [= <- _]). split; [intros _; left|by intros _].
    unfold readWinnerRecord in H3. apply txBind_Ok in H3 as (r & d6 & Hr & H3). apply txTry_eq in Hr as (r' & Hr & [= ->]).
    destruct r' as [o'|e']; [|by destruct (errors_Is e' fs_ErrNotExist)]. apply readRecord_Ok in Hr as [_ (data' & Hd & _)].
    rewrite H2, H1 in Hd. eauto.
  - destruct (errors_Is e taskdir_errNoOutcome) eqn:Ee; [|done]. cbn [negb] in H.
    apply winner_absent in H3; [|done]. rewrite H2, H1 in H3.
    apply txBind_Ok in H as (records & d5 & H & Hfind). apply txJoin_Ok in H as (d6 & H & H6).
    apply ReadStopRecords_Ok in H as [Hall Hon]. rewrite H4, Hf3, H2, H1 in Hall, Hon.
    destruct (find isPermanentStop records) as [row|] eqn:EF.
    + apply txBind_Ok in Hfind as (data & d7 & _ & [= <- _]). split; [intros _|by eauto]. right.
      apply find_some in EF as [Hin Hp]. apply list_elem_of_In in Hin. destruct (Hon _ Hin) as (id & data' & Hd & Hr).
      exists id, data'. split; [done|]. intros r Hr'. rewrite Hr in Hr'. by injection Hr' as <-.
    + injection Hfind as <- _. split; [by intros [? ?]|]. intros [[x Hx]|(id & data & Hd & Hp)]; [congruence|]. exfalso.
      destruct (Hall id data Hd) as (row & Hrow & Hr). apply list_elem_of_In in Hrow.
      pose proof (find_none _ _ EF _ Hrow) as Hn. unfold isPermanentStop in Hn. by rewrite (Hp _ Hr) in Hn.
Qed.

Lemma permission_Ok d u d' : requireTaskLaunchPermission D RootID TaskID d = (Ok u, d') -> files d' = files d /\ ~ refused (files d).
Proof.
  unfold requireTaskLaunchPermission. intros (o & d1 & H1 & H2)%txBind_Ok. apply txFail_Ok in H2 as (H2 & -> & _).
  apply refusal_cases in H1 as [Hf H1]. split; [done|]. intros H%H1. by destruct o; [|destruct H].
Qed.

Lemma refused_extends fs fs' : fs ⊆ fs' -> refused fs -> refused fs'.
Proof.
  intros H [[o Ho]|(id & data & Hd & Hp)]; [left; exists o; by eapply lookup_weaken|right].
  exists id, data. split; [by eapply lookup_weaken|done].
Qed.

(** ** What a grant proves *)
Lemma submission_Ok u s d r d' : PrepareSubmission D RootID TaskID u s d = (Ok r, d') ->
  files d !! "submit.json"%string = None /\ is_Some (files d' !! "submit.json"%string) /\ ~ refused (files d).
Proof.
  unfold PrepareSubmission, contextErr. intros H.
  apply txBind_Ok in H as ([] & d1 & H1%readonly_files & H); [|auto with tx].
  apply txBind_Ok in H as ([] & d2 & H2%readonly_files & H); [|auto with tx].
  apply txBind_Ok in H as ([] & d3 & H3%readonly_files & H); [|auto with tx]. apply txOnFailure_Ok in H.
  apply txBind_Ok in H as (p & d4 & H4%readonly_files & H); [|auto with tx].
  apply txBind_Ok in H as ([] & d5 & (_ & -> & _)%txFail_Ok & H).
  apply txBind_Ok in H as (b & d6 & [H6 ->]%exists_Ok & H). apply txBind_Ok in H as ([] & d7 & (Hn & -> & _)%txFail_Ok & H).
  apply txBind_Ok in H as ([] & d8 & [H8 Hp]%permission_Ok & H). apply txBind_Ok in H as ([] & d9 & [_ ->]%txOf_Ok & H).
  apply txBind_Ok in H as ([] & d10 & [_ ->]%txOf_Ok & H). apply txBind_Ok in H as ([] & d11 & [_ Hc]%commitRecord_Ok & [= <- <-]).
  rewrite H8, H6, H4, H3, H2, H1 in *. apply bool_decide_eq_false in Hn. split_and!; [by apply eq_None_not_Some|rewrite Hc, lookup_insert_eq; eauto|done].
Qed.

Lemma start_Ok u b d r d' : PrepareStart D RootID TaskID u b d = (Ok r, d') ->
  files d !! "provider.start"%string = None /\ is_Some (files d' !! "provider.start"%string) /\ ~ refused (files d).
Proof.
  unfold PrepareStart, startBody. intros H.
  apply txBind_Ok in H as ([] & d1 & H1%readonly_files & H); [|auto with tx].
  apply txBind_Ok in H as ([] & d2 & H2%readonly_files & H); [|auto with tx]. apply txOnFailure_Ok in H.
  apply txBind_Ok in H as (p & d3 & H3%readonly_files & H); [|auto with tx]. cbv zeta in H.
  apply txBind_Ok in H as ([] & d4 & (_ & -> & _)%txFail_Ok & H).
  apply txBind_Ok in H as (x & d5 & [H5 ->]%exists_Ok & H). apply txBind_Ok in H as ([] & d6 & (Hn & -> & _)%txFail_Ok & H).
  apply txBind_Ok in H as (x & d7 & [H7 ->]%exists_Ok & H). apply txBind_Ok in H as ([] & d8 & (_ & -> & _)%txFail_Ok & H).
  apply txBind_Ok in H as (x & d9 & [H9 ->]%exists_Ok & H). apply txBind_Ok in H as ([] & d10 & (_ & -> & _)%txFail_Ok & H).
  apply txBind_Ok in H as ([] & d11 & [H11 Hp]%permission_Ok & H). apply txBind_Ok in H as ([] & d12 & [_ ->]%txOf_Ok & H).
  apply txBind_Ok in H as ([] & d13 & _ & H). apply txBind_Ok in H as ([] & d14 & [_ ->]%txOf_Ok & H).
  apply txBind_Ok in H as ([] & d15 & [_ Hc]%commitRecord_Ok & [= <- <-]).
  rewrite H9, H7, H5, H3, H2, H1 in *. apply bool_decide_eq_false in Hn. split_and!; [by apply eq_None_not_Some|rewrite Hc, lookup_insert_eq; eauto|done].
Qed.

Lemma stop_Ok u id cause deadline d r d' : PrepareStop D RootID TaskID u id cause deadline d = (Ok r, d') ->
  exists name, files d' !! stopName name stopRequestSuffix = Some (MarshalCanonical (jsonStopRequest r)).
Proof.
  unfold PrepareStop. intros H.
  apply txBind_Ok in H as ([] & d1 & _ & H). apply txBind_Ok in H as ([] & d2 & _ & H). apply txBind_Ok in H as ([] & d3 & _ & H).
  apply txBind_Ok in H as ([] & d4 & _ & H). apply txOnFailure_Ok in H. apply txBind_Ok in H as (r0 & d5 & _ & H).
  apply txBind_Ok in H as (existing & d6 & _ & H). exists id. destruct existing as [old|e]; [by apply txBind_Ok in H as ([] & ? & _ & H)|].
  apply txBind_Ok in H as ([] & d7 & _ & H). apply txBind_Ok in H as (data & d8 & [Hm ->]%txOf_Ok & H).
  apply txBind_Ok in H as ([] & d9 & _ & H). apply txBind_Ok in H as ([[c cl] err] & d10 & HS & H).
  apply txBind_Ok in H as ([] & d11 & Herr & [= <- <-]). apply stageReader_cases in HS as (c' & cl' & err' & [= -> -> ->] & Hc).
  unfold marshalControlRecord in Hm. destruct (_ <? _); [done|]. injection Hm as <-. destruct err' as [ce|].
  - exfalso. destruct (errors_Is ce fs_ErrExist); apply txErrors_Ok in Herr as [Herr _]; by destruct cl'.
  - apply txErrors_Ok in Herr as (_ & -> & _). destruct Hc as [[_ ?]|[_ ->]]; [done|by rewrite lookup_insert_eq].
Qed.

Lemma absent_Ok l d d' : taskRecordsAbsent l d = (Ok true, d') -> files d' = files d /\ forall name, name ∈ l -> files d !! name = None.
Proof.
  intros H. split; [eapply readonly_files; [apply readonly_recordsAbsent|exact H]|]. revert d H.
  induction l as [|n l IH]; intros d H; [by intros ? ?%not_elem_of_nil|]. cbn [taskRecordsAbsent] in H.
  apply txBind_Ok in H as (b & d1 & Hb & H). apply txJoin_Ok in Hb as (d2 & [H2 ->]%exists_Ok & H1%readonly_files); [|auto with tx].
  destruct (bool_decide_reflect (is_Some (files d !! n))) as [|Hn]; [done|]. specialize (IH _ H). rewrite H1, H2 in IH.
  intros name [->|Hin]%elem_of_cons; [by apply eq_None_not_Some|by apply IH].
Qed.

Lemma prove_refusal_Ok u fence o d digest d' : provePermanentRefusal D RootID TaskID u fence o d = (Ok (Some digest), d') ->
  (is_Some o -> refused (files d)) -> files d ⊆ files d' /\ refused (files d').
Proof.
  unfold provePermanentRefusal. intros (r & d1 & H1 & H)%txBind_Ok Ho.
  assert (files d ⊆ files d1 /\ (is_Some r -> refused (files d1))) as [Hg Hr].
  { destruct (fence && negb (is_some o)).
    - apply txBind_Ok in H1 as ([] & d2 & H2%growing_files & H1); [|apply growing_abandonment].
      apply refusal_cases in H1 as [-> H1]. split; [done|by intros Hx%H1].
    - injection H1 as <- <-. by split. }
  destruct r as [[name dg]|]; [|done]. apply txBind_Ok in H as ([] & d3 & H3%readonly_files & H); [|destruct fence; auto with tx].
  apply txBind_Ok in H as ([] & d4 & H4%readonly_files & [= _ <-]); [|auto with tx]. rewrite H4, H3. split; [done|]. apply Hr. eauto.
Qed.

Lemma section_Ok u fence d digest d' : unlaunchedSection D RootID TaskID u fence d = (Ok (Some digest), d') ->
  files d !! "provider.start"%string = None /\ refused (files d').
Proof.
  unfold unlaunchedSection. intros (p & d1 & H1%readonly_files & H)%txBind_Ok; [|auto with tx].
  apply txBind_Ok in H as (eligible & d2 & H2 & H). pose proof H2 as Hf2. apply readonly_files in Hf2; [|apply readonly_unlaunchedEvidence].
  destruct eligible; [|done]. cbn [negb] in H.
  apply txBind_Ok in H as (x & d3 & H3 & H). assert (files d3 = files d2) as Hf3.
  { destruct fence; [eapply readonly_files; [apply readonly_recordsAbsent|exact H3]|by injection H3 as _ ->]. }
  destruct x; [|done]. cbn [negb] in H. apply txBind_Ok in H as (o & d4 & [H4 Ho]%refusal_cases & H).
  apply txBind_Ok in H as (y & d5 & H5 & H). assert (files d5 = files d4) as Hf5.
  { destruct (bool_decide _); [by injection H5 as _ ->|eapply readonly_files; [apply readonly_recordsAbsent|exact H5]]. }
  destruct y; [|done]. cbn [negb] in H. apply prove_refusal_Ok in H as [_ Hr]; [|intros Hx%Ho; by rewrite Hf5, H4]. split; [|exact Hr].
  unfold unlaunchedTaskEvidence in H2. apply txBind_Ok in H2 as (ev & d6 & [_ ->]%txOf_Ok & H2). destruct (noLifetime ev); [|done]. cbn [negb] in H2.
  apply txBind_Ok in H2 as (absent & d7 & H7 & H2). destruct absent; [|done]. apply absent_Ok in H7 as [_ H7]. rewrite <- H1. apply H7. set_solver.
Qed.

Lemma runLock_Ok u fence d digest d' : withUnlaunchedTaskRunLock D RootID TaskID u fence d = (Ok (Some digest), d') ->
  files d !! "provider.start"%string = None /\ refused (files d').
Proof.
  unfold withUnlaunchedTaskRunLock. intros ([] & d1 & H1%readonly_files & H)%txBind_Ok; [|auto with tx].
  apply txBind_Ok in H as ([] & d2 & H2%readonly_files & H); [|auto with tx]. destruct (ts_run u); [done|].
  apply txJoin_Ok in H as (d3 & H & H3%readonly_files); [|auto with tx]. apply section_Ok in H. by rewrite H3, <- H1, <- H2.
Qed.

Lemma fence_Ok u d digest d' : FenceUnlaunchedTask D RootID TaskID u d = (Ok (Some digest), d') ->
  files d !! "provider.start"%string = None /\ refused (files d').
Proof.
  unfold FenceUnlaunchedTask. intros ([] & d1 & H1%readonly_files & H)%txBind_Ok; [|auto with tx].
  apply txBind_Ok in H as ([] & d2 & H2%readonly_files & H); [|auto with tx]. apply txJoin_Ok in H as (d3 & H & H3%readonly_files); [|auto with tx].
  apply txBind_Ok in H as ([] & d4 & H4%readonly_files & H); [|auto with tx]. destruct (ts_admission u); [done|].
  apply txJoin_Ok in H as (d5 & H & H5%readonly_files); [|auto with tx].
  apply txBind_Ok in H as ([] & d6 & H6%readonly_files & H); [|auto with tx]. destruct (ts_owner u); [done|].
  apply txJoin_Ok in H as (d7 & H & H7%readonly_files); [|auto with tx]. apply runLock_Ok in H.
  by rewrite H3, H5, H7, <- H1, <- H2, <- H4, <- H6.
Qed.

Lemma prove_Ok u d digest d' : ProveUnlaunchedTask D RootID TaskID u d = (Ok (Some digest), d') ->
  files d !! "provider.start"%string = None /\ refused (files d').
Proof.
  unfold ProveUnlaunchedTask. intros ([] & d1 & H1%readonly_files & H)%txBind_Ok; [|auto with tx]. destruct (ts_owner u); [done|].
  apply txJoin_Ok in H as (d2 & H & H2%readonly_files); [|auto with tx]. apply runLock_Ok in H. by rewrite H2, <- H1.
Qed.
End task.
