(* ===== verification/TaskSessionProps.v ===== *)
(** * The ledger of a session

    What the search for the owner of a session proves, and how the operations change the
    ledger. *)
From S2P Require Import Prelude GoErrors GoTime GoText TaskTypes Encoding GoPath GoTimestamp TaskLifetime LifetimeClosure ControlDir ControlLifetimeProps.
From S2P Require Import TaskConfiguration TaskRecords TaskReducer SchedRequest TaskRecordsJson TaskDir TaskDirOps TaskPublication TaskDirProps.
From S2P Require Import InteractionJournalProps TaskLaunchProps TaskSession.
From Stdlib Require Import Ascii.
#[local] Open Scope Z_scope.
#[local] Open Scope tx_scope.

(** ** Names *)
Lemma stripPrefix_split p l rest : stripPrefix p l = Some rest -> l = p ++ rest.
Proof.
  revert l. induction p as [|c p IH]; intros l; cbn; [by intros [= ->]|]. destruct l as [|x l]; [done|].
  case_bool_decide; [|done]. intros H1%IH. by subst.
Qed.

Lemma suffix_trim name suffix : HasSuffix name suffix = true -> name = str (bytes (trimSuffix name suffix) ++ bytes suffix).
Proof.
  unfold HasSuffix, trimSuffix. destruct (stripPrefix _ _) as [rest|] eqn:E; [|done]. intros _. apply stripPrefix_split in E.
  apply (f_equal (@rev ascii)) in E. rewrite rev_app_distr, !rev_involutive in E.
  rewrite bytes_str, E, length_app, Nat.add_sub, take_app_length, <- E. symmetry. apply str_bytes.
Qed.

Lemma claimName_inj a b : claimName a = claimName b -> a = b.
Proof. intros H%(f_equal (fun s => trimSuffix s claimSuffix)). unfold claimName in H. by rewrite !trimSuffix_app in H. Qed.

Lemma claim_not_release a b : claimName a <> releaseName b.
Proof.
  intros H%(f_equal (fun s => rev (bytes s))). unfold claimName, releaseName in H. rewrite !bytes_str, !rev_app_distr in H. done.
Qed.

Lemma releaseName_inj a b : releaseName a = releaseName b -> a = b.
Proof. intros H%(f_equal (fun s => trimSuffix s releaseSuffix)). unfold releaseName in H. by rewrite !trimSuffix_app in H. Qed.

(** The files of the ledger. *)
Definition isLedger (name : string) : bool := HasSuffix name claimSuffix || HasSuffix name releaseSuffix.

Lemma claim_ledger id : isLedger (claimName id) = true.
Proof. unfold isLedger, claimName. by rewrite HasSuffix_app. Qed.
Lemma release_ledger id : isLedger (releaseName id) = true.
Proof. unfold isLedger, releaseName. by rewrite HasSuffix_app, orb_true_r. Qed.

(** ** Exclusive ledgers *)
Definition unreleased (fs : gmap string string) (id : string) : Prop :=
  is_Some (fs !! claimName id) /\ fs !! releaseName id = None.
Definition exclusive (fs : gmap string string) : Prop := forall a b, unreleased fs a -> unreleased fs b -> a = b.

(** A ledger that keeps its records and stays exclusive. *)
Definition evolves (fs fs' : gmap string string) : Prop :=
  (forall name data, isLedger name = true -> fs !! name = Some data -> fs' !! name = Some data) /\ (exclusive fs -> exclusive fs').

#[export] Instance evolves_preorder : PreOrder evolves.
Proof. split; [by split|]. intros a b c [H1 H2] [H3 H4]. split; [|auto]. intros name data Hn Hd. by apply H3, H1. Qed.

(** Outside the ledger anything may change. *)
Lemma evolves_sameLedger fs fs' : (forall name, isLedger name = true -> fs' !! name = fs !! name) -> evolves fs fs'.
Proof.
  intros H. split; [intros name data Hn Hd; by rewrite H|]. intros HE a b. unfold unreleased.
  rewrite !H by (apply claim_ledger || apply release_ledger). apply HE.
Qed.

Lemma evolves_release fs id data : fs !! releaseName id = None -> evolves fs (<[releaseName id := data]> fs).
Proof.
  intros Hn. split.
  - intros name d _ Hd. rewrite lookup_insert_ne; [done|]. intros <-. congruence.
  - intros HE. assert (forall a, unreleased (<[releaseName id := data]> fs) a -> unreleased fs a) as Hs.
    { intros a [H1 H2]. rewrite lookup_insert_ne in H1 by (intros H; symmetry in H; by apply claim_not_release in H). split; [done|].
      destruct (decide (releaseName id = releaseName a)) as [E|E]; [by rewrite E, lookup_insert_eq in H2|by rewrite lookup_insert_ne in H2]. }
    intros a b Ha%Hs Hb%Hs. by apply HE.
Qed.

Lemma evolves_claim fs id data : fs !! claimName id = None -> (forall a, ~ unreleased fs a) -> evolves fs (<[claimName id := data]> fs).
Proof.
  intros Hn Hno. split.
  - intros name d _ Hd. rewrite lookup_insert_ne; [done|]. intros <-. congruence.
  - intros _. assert (forall a, unreleased (<[claimName id := data]> fs) a -> a = id) as Hs.
    { intros a [H1 H2]. destruct (decide (a = id)) as [->|Hne]; [done|]. destruct (Hno a). rewrite lookup_insert_ne in H1, H2.
      - by split.
      - by apply claim_not_release.
      - intros H%claimName_inj. done. }
    intros a b Ha%Hs Hb%Hs. congruence.
Qed.

(** A call after which the ledger evolved. *)
Definition evolving {A} (m : Tx A) : Prop := forall d, evolves (files d) (files (m d).2).

Lemma evolving_readonly {A} (m : Tx A) : readonly m -> evolving m.
Proof. intros H d. by rewrite H. Qed.
Lemma evolving_bind {A B} (m : Tx A) (f : A -> Tx B) : evolving m -> (forall a, evolving (f a)) -> evolving (txBind m f).
Proof.
  intros Hm Hf d. unfold txBind. specialize (Hm d). destruct (m d) as [[a|e] d1]; cbn in *; [|done]. etransitivity; [exact Hm|apply Hf].
Qed.
(** The continuation of a reader knows what the reader found. *)
Lemma evolving_after {A B} (m : Tx A) (f : A -> Tx B) : readonly m ->
  (forall d a d1, m d = (Ok a, d1) -> evolves (files d1) (files (f a d1).2)) -> evolving (txBind m f).
Proof.
  intros Hm Hf d. unfold txBind. pose proof (Hm d) as H. destruct (m d) as [[a|e] d1] eqn:E; cbn in *; [|by rewrite H].
  rewrite <- H. by eapply Hf.
Qed.
Lemma evolving_try {A} (m : Tx A) : evolving m -> evolving (txTry m).
Proof. intros H d. unfold txTry. specialize (H d). by destruct (m d). Qed.
Lemma evolving_join {A} (m : Tx A) c : evolving m -> readonly c -> evolving (txJoin m c).
Proof.
  intros Hm Hc. unfold txJoin. apply evolving_bind; [by apply evolving_try|intros r]. apply evolving_readonly. auto 10 with tx.
Qed.

(** A record is written only where there is none. *)
Lemma stage_evolves name data d : (files d !! name = None -> evolves (files d) (<[name := data]> (files d))) ->
  evolves (files d) (files (stageReader name data d).2).
Proof.
  intros H. destruct (stageReader name data d) as [r d'] eqn:E. apply stageReader_cases in E as (c & cl & err & _ & [[Hf _]|[Hn Hf]]); cbn;
    rewrite Hf; [done|auto].
Qed.
Lemma commit_evolves name j d : (forall data, files d !! name = None -> evolves (files d) (<[name := data]> (files d))) ->
  evolves (files d) (files (commitRecord name j d).2).
Proof.
  intros H. unfold commitRecord, txBind, txOf. destruct (marshalControlRecord j) as [data|e]; cbn; [|done].
  unfold stageRecord, txBind. pose proof (stage_evolves name data d (H data)) as HS. destruct (stageReader name data d) as [[[[c cl] err]|e] d1]; cbn in *; [|done].
  unfold txErrors. destruct (errors_Join _); done.
Qed.

Section session.
Context (D : SessionDecoders) (RootID TaskID : string).

(** Other directories' proofs do not touch the ledger. *)
Definition detached (u : sessionSituation) : Prop :=
  (forall owner digest, readonly (sn_proof u owner digest)) /\ (forall digest, readonly (sn_handoff u digest)).

Section calls.
Context (u : sessionSituation) (Hu : detached u).

Lemma readonly_proof owner digest : readonly (sn_proof u owner digest).
Proof. apply Hu. Qed.
Lemma readonly_handoff digest : readonly (sn_handoff u digest).
Proof. apply Hu. Qed.
#[local] Hint Resolve readonly_proof readonly_handoff : tx.

Lemma readonly_readClaim id provider conversation : readonly (readClaim D RootID id provider conversation).
Proof. unfold readClaim. auto 20 with tx. Qed.
Lemma readonly_readRelease claim : readonly (readRelease D u claim).
Proof. unfold readRelease. auto 20 with tx. Qed.
#[local] Hint Resolve readonly_readClaim readonly_readRelease : tx.
Lemma readonly_releaseNames provider conversation entries : readonly (validateReleaseNames D RootID provider conversation entries).
Proof. induction entries as [|n l IH]; cbn [validateReleaseNames]; auto 20 with tx. Qed.
Lemma readonly_claimOwner provider conversation id owner : readonly (claimOwner D RootID u provider conversation id owner).
Proof. unfold claimOwner. auto 20 with tx. Qed.
#[local] Hint Resolve readonly_releaseNames readonly_claimOwner : tx.
Lemma readonly_activeOwner provider conversation entries owner : readonly (activeOwner D RootID u provider conversation entries owner).
Proof. revert owner. induction entries as [|n l IH]; intros owner; cbn [activeOwner]; auto 20 with tx. Qed.
Lemma readonly_entries_ledger : readonly ledgerEntries.
Proof. unfold ledgerEntries. do 2 (apply readonly_bind; [auto with tx|intros _]). done. Qed.
#[local] Hint Resolve readonly_activeOwner readonly_entries_ledger : tx.
Lemma readonly_owner provider conversation : readonly (activeSessionOwner D RootID u provider conversation).
Proof. unfold activeSessionOwner. auto 20 with tx. Qed.

(** ** Reading the ledger *)
Lemma readClaim_Ok id provider conversation d claim d' : readClaim D RootID id provider conversation d = (Ok claim, d') ->
  files d' = files d /\ is_Some (files d !! claimName id) /\ sc_TaskID claim = id /\ id <> ""%string.
Proof.
  intros H. split; [eapply readonly_files; [|exact H]; auto with tx|]. unfold readClaim in H.
  apply txBind_Ok in H as (c & d1 & [_ (data & Hd & _)]%readRecord_Ok & H). apply txBind_Ok in H as ([] & d2 & [HV ->]%txOf_Ok & H).
  apply txBind_Ok in H as ([] & d3 & (Hm & _ & _)%txFail_Ok & [= -> _]).
  rewrite !orb_false_iff, !negb_false_iff in Hm. destruct Hm as [[[Hm%eqs_true _] _] _]. split; [eauto|]. split; [done|].
  unfold ValidateSessionClaimRecord, schemaAndIdentity in HV. apply bind_Ok in HV as ([] & HV & _). apply bind_Ok in HV as ([] & _ & HV).
  apply bind_Ok in HV as ([] & _ & HV). unfold ValidateTaskID in HV. apply fail_if_Ok, negb_false_iff in HV. intros ->. by rewrite Hm in HV.
Qed.

Lemma readRelease_Ok claim d r d' : readRelease D u claim d = (Ok r, d') -> is_Some (files d !! releaseName (sc_TaskID claim)).
Proof. unfold readRelease. intros (r0 & d1 & [_ (data & Hd & _)]%readRecord_Ok & _)%txBind_Ok. eauto. Qed.

(** ** The owner *)
(** One claim of the search: it is released, or it becomes the only owner. *)
Lemma claimOwner_Ok provider conversation id owner d o d' : claimOwner D RootID u provider conversation id owner d = (Ok o, d') ->
  files d' = files d /\ is_Some (files d !! claimName id) /\ id <> ""%string /\
  (o = owner /\ is_Some (files d !! releaseName id) \/
   o = id /\ owner = ""%string /\ exists claim d1 d2 e, sc_TaskID claim = id /\ files d1 = files d /\ readRelease D u claim d1 = (Err e, d2) /\
     errors_Is e fs_ErrNotExist = true).
Proof.
  intros H. split; [eapply readonly_files; [|exact H]; auto with tx|]. unfold claimOwner in H.
  apply txBind_Ok in H as (claim & d1 & (Hf & Hc & Hid & Hne)%readClaim_Ok & H). split; [done|]. split; [done|].
  apply txBind_Ok in H as (r & d2 & (r' & Hr & [= ->])%txTry_eq & H). destruct r' as [rel|e].
  - injection H as <- <-. left. split; [done|]. apply readRelease_Ok in Hr. by rewrite <- Hf, <- Hid.
  - apply txBind_Ok in H as ([] & d3 & (He & -> & _)%txFail_Ok & H). apply txBind_Ok in H as ([] & d4 & (Ho & -> & _)%txFail_Ok & [= <- <-]).
    apply negb_false_iff in He, Ho. apply eqs_true in Ho. right. split; [done|]. split; [done|]. by exists claim, d1, d2, e.
Qed.

Lemma activeOwner_Ok provider conversation entries owner d o d' :
  activeOwner D RootID u provider conversation entries owner d = (Ok o, d') ->
  (owner <> ""%string -> o = owner) /\
  (forall id, claimName id ∈ entries -> is_Some (files d !! claimName id) /\ id <> ""%string /\ (is_Some (files d !! releaseName id) \/ o = id)) /\
  (o = owner \/ claimName o ∈ entries /\ exists claim d1 d2 e, sc_TaskID claim = o /\ files d1 = files d /\
     readRelease D u claim d1 = (Err e, d2) /\ errors_Is e fs_ErrNotExist = true).
Proof.
  revert owner d. induction entries as [|name entries IH]; intros owner d; cbn [activeOwner].
  { intros [= <- <-]. split; [done|]. split; [by intros id ?%not_elem_of_nil|by left]. }
  intros (owner1 & d1 & H1 & H)%txBind_Ok. specialize (IH _ _ H) as (IH1 & IH2 & IH3).
  destruct (HasSuffix name claimSuffix) eqn:Es.
  - apply suffix_trim in Es. set (id := trimSuffix name claimSuffix) in *. change (name = claimName id) in Es.
    apply claimOwner_Ok in H1 as (Hf & Hc & Hne & Hcase). rewrite Hf in IH2, IH3. split_and!.
    + intros Ho. destruct Hcase as [[-> _]|(_ & ? & _)]; [by apply IH1|done].
    + intros i [Hi|Hi]%elem_of_cons; [|by apply IH2]. rewrite Es in Hi. apply claimName_inj in Hi as ->. split; [done|]. split; [done|].
      destruct Hcase as [[_ ?]|(-> & _)]; [by left|right]. by apply IH1.
    + destruct IH3 as [->|[Hin HE]]; [|right; split; [by apply elem_of_cons; right|done]].
      destruct Hcase as [[-> _]|(-> & _ & HE)]; [by left|right]. split; [apply elem_of_cons; by left|done].
  - injection H1 as <- <-. split_and!; [done| |].
    + intros i [Hi|Hi]%elem_of_cons; [|by apply IH2]. rewrite <- Hi in Es. unfold claimName in Es. by rewrite HasSuffix_app in Es.
    + destruct IH3 as [->|[Hin HE]]; [by left|right]. split; [by apply elem_of_cons; right|done].
Qed.

Lemma owner_Ok provider conversation d o d' : activeSessionOwner D RootID u provider conversation d = (Ok o, d') ->
  files d' = files d /\ (forall id, unreleased (files d) id -> o = id /\ id <> ""%string) /\
  (o = ""%string \/ is_Some (files d !! claimName o) /\ exists claim d1 d2 e, sc_TaskID claim = o /\ files d1 = files d /\
     readRelease D u claim d1 = (Err e, d2) /\ errors_Is e fs_ErrNotExist = true).
Proof.
  intros H. split; [eapply readonly_files; [apply readonly_owner|exact H]|]. unfold activeSessionOwner in H.
  apply txBind_Ok in H as (entries & d1 & H1 & H). apply txBind_Ok in H as ([] & d2 & H2%readonly_files & H); [|auto with tx].
  pose proof H1 as Hf1. apply readonly_files in Hf1; [|auto with tx].
  assert (entries = map fst (map_to_list (files d))) as ->.
  { unfold ledgerEntries in H1. apply txBind_Ok in H1 as ([] & d3 & H3%readonly_files & H1); [|auto with tx].
    apply txBind_Ok in H1 as ([] & d4 & H4%readonly_files & [= <- _]); [|auto with tx]. by rewrite H4, H3. }
  assert (forall name, is_Some (files d !! name) -> name ∈ map fst (map_to_list (files d))) as Hin.
  { intros name [data Hd]. apply list_elem_of_fmap. exists (name, data). split; [done|]. by apply elem_of_map_to_list. }
  apply activeOwner_Ok in H as (_ & Ha & Hb). rewrite H2, Hf1 in Ha, Hb. split.
  - intros id [Hc Hr]. destruct (Ha id (Hin _ Hc)) as (_ & Hne & [Hx|Hx]); [rewrite Hr in Hx; by destruct Hx|done].
  - destruct Hb as [->|[Ho HE]]; [by left|right]. split; [by apply Ha|done].
Qed.
End calls.
End session.
