(* ===== verification/TaskHistory.v ===== *)
(** * Histories of one task directory

    The composition of [internal/taskdir]: any number of processes call the operations of
    one directory in any order, each under the locks that make it atomic and with any
    file-system failure at any call.  Between them everything that is not one of the
    directory's control records changes arbitrarily: the raw captures, staged files and
    whatever a foreign process leaves.

    Every command keeps the control records that are there; a publication leaves the
    outcome it reports on disk with its payload, and what it reports rests on the sealed
    evidence. *)
From S2P Require Import Prelude GoErrors GoTime GoText TaskTypes Encoding GoPath GoTimestamp TaskLifetime LifetimeClosure ControlDir ControlLifetimeProps.
From S2P Require Import TaskConfiguration TaskRecords TaskReducer TaskReducerTheorems SchedRequest TaskRecordsJson TaskDir TaskDirOps TaskPublication.
From S2P Require Import TaskDirProps InteractionJournalProps TaskLaunchProps.
#[local] Open Scope Z_scope.
#[local] Open Scope tx_scope.

(** ** Events *)
(** What a caller was told: a submission or start it may perform once, that it now
    performs it, a stop it may deliver, a task proven never to launch, an outcome. *)
Inductive event : Set :=
| Submitted (r : SubmitRecord)
| Spawned
| Started (r : ProviderStartRecord)
| Launched
| Stopped (r : StopRequestRecord)
| Refused (digest : string)
| Published (o : OutcomeRecord).

(** The files, and the leases granted for submissions and for starts, oldest first. *)
Record world : Set := MkWorld { wd_files : gmap string string; wd_admissions : list leaseState; wd_runners : list leaseState }.

(** ** Control records *)
Definition controlRecords : list string :=
  ["brief.md"; "task.json"; "meta.json"; "submit.json"; "supervisor.ref.json"; "provider.start"; "provider.started.json";
   "provider.ref.json"; "provider.exit"; "outcome.json"; "result.txt"; "publish.reject"]%string.
Definition isControl (name : string) : bool := bool_decide (name ∈ controlRecords) || HasPrefix name "stop/".

(** The directory after a step of the rest of the system left [other] in it. *)
Definition elsewhere (fs other : gmap string string) : gmap string string :=
  filter (fun f => isControl (fst f) = true) fs ∪ filter (fun f => isControl (fst f) = false) other.

(** ** Commands *)
Inductive command : Type :=
| Create (brief reqData metaData : string)
| Submit (u : taskSituation) (supervisor : SupervisorRef)
| Spawn (i : nat)
| ReleaseSubmission (i : nat)
| Start (u : taskSituation) (budget : Z)
| Launch (i : nat)
| ReleaseRunner (i : nat)
| Writers (i : nat) (active : Z) (filesPrepared artifactsImported : bool) (poisoned : option error)
| Receipt (u : taskSituation) (r : SupervisorReceipt)
| ProviderStarted (i : nat) (u : taskSituation) (diagnosticNanos : Z) (identity : ProviderRuntimeIdentity)
| ProviderIdentity (i : nat) (u : taskSituation) (identity : SessionIdentity)
| SealRun (i : nat) (u : taskSituation) (invocation : string) (exitCode : Z) (exitErr : string) (predicate : PredicateRef)
    (identity : ProviderRuntimeIdentity)
| Stop (u : taskSituation) (id cause deadline : string)
| StopReply (u : taskSituation) (id : string) (facts : StopReplyFacts)
| StopObservation (u : taskSituation) (id : string) (facts : StopObservationFacts)
| Fence (u : taskSituation)
| Prove (u : taskSituation)
| CollectOutcome (u : taskSituation) (registry : Registry) (predicate : PredicateRef)
| FinalizeRun (i : nat) (registry : Registry) (predicate : PredicateRef)
| Elsewhere (other : gmap string string).

Section task.
Context (D : TaskDecoders) (RootID TaskID : string).

(** A call whose value the caller only checks for an error. *)
Definition quiet {A} (m : Tx A) (flts : list fault) (w : world) : list event * world :=
  ([], MkWorld (files (m (MkDisk (wd_files w) flts)).2) (wd_admissions w) (wd_runners w)).

(** A call through the runner lease [i], when there is one. *)
Definition withRunner (i : nat) (w : world) (f : leaseState -> list event * world) : list event * world :=
  match wd_runners w !! i with Some l => f l | None => ([], w) end.

Definition setRunner (w : world) (i : nat) (l : leaseState) (fs : gmap string string) : world :=
  MkWorld fs (wd_admissions w) (<[i := l]> (wd_runners w)).

Definition outcomeEvent (p : published) : list event :=
  match pb_Outcome p, pb_Err p with Some o, None => [Published o] | _, _ => [] end.

Definition exec (c : command) (flts : list fault) (w : world) : list event * world :=
  let d := MkDisk (wd_files w) flts in
  match c with
  | Create brief reqData metaData => quiet (prepareSet D RootID TaskID brief reqData metaData) flts w
  | Submit u supervisor =>
      match PrepareSubmission D RootID TaskID u supervisor d with
      | (Ok r, d') => ([Submitted r], MkWorld (files d') (wd_admissions w ++ [newLease]) (wd_runners w))
      | (Err _, d') => ([], MkWorld (files d') (wd_admissions w) (wd_runners w))
      end
  | Spawn i =>
      match l ← from_option Ok (Err ErrInvalidPermit) (wd_admissions w !! i); consume l with
      | Ok l => ([Spawned], MkWorld (wd_files w) (<[i := l]> (wd_admissions w)) (wd_runners w))
      | Err _ => ([], w)
      end
  | ReleaseSubmission i =>
      match wd_admissions w !! i with
      | Some l => ([], MkWorld (wd_files w) (<[i := (release l d).1.2]> (wd_admissions w)) (wd_runners w))
      | None => ([], w)
      end
  | Start u budget =>
      match PrepareStart D RootID TaskID u budget d with
      | (Ok r, d') => ([Started r], MkWorld (files d') (wd_admissions w) (wd_runners w ++ [newLease]))
      | (Err _, d') => ([], MkWorld (files d') (wd_admissions w) (wd_runners w))
      end
  | Launch i =>
      withRunner i w (fun l =>
        match consume l with
        | Ok l => ([Launched], setRunner w i l (wd_files w))
        | Err _ => ([], w)
        end)
  | ReleaseRunner i => withRunner i w (fun l => ([], setRunner w i (release l d).1.2 (wd_files w)))
  | Writers i active filesPrepared artifactsImported poisoned =>
      withRunner i w (fun l =>
        ([], setRunner w i (MkLease (le_released l) (le_releaseErr l) active filesPrepared artifactsImported (le_sealed l)
                              poisoned (le_consumed l)) (wd_files w)))
  | Receipt u r => quiet (RecordSupervisorReceipt D RootID TaskID u r) flts w
  | ProviderStarted i u nanos identity =>
      withRunner i w (fun l => quiet (RecordStarted D RootID TaskID l u nanos identity) flts w)
  | ProviderIdentity i u identity =>
      withRunner i w (fun l => quiet (RecordProviderIdentity D RootID TaskID l u identity) flts w)
  | SealRun i u invocation exitCode exitErr predicate identity =>
      withRunner i w (fun l =>
        let '(_, l', d') := Seal D RootID TaskID l u invocation exitCode exitErr predicate identity d in
        ([], setRunner w i l' (files d')))
  | Stop u id cause deadline =>
      match PrepareStop D RootID TaskID u id cause deadline d with
      | (Ok r, d') => ([Stopped r], MkWorld (files d') (wd_admissions w) (wd_runners w))
      | (Err _, d') => ([], MkWorld (files d') (wd_admissions w) (wd_runners w))
      end
  | StopReply u id facts => quiet (RecordStopReply D RootID TaskID u id facts) flts w
  | StopObservation u id facts => quiet (RecordStopObservation D RootID TaskID u id facts) flts w
  | Fence u =>
      let '(r, d') := FenceUnlaunchedTask D RootID TaskID u d in
      (match r with Ok (Some digest) => [Refused digest] | _ => [] end, MkWorld (files d') (wd_admissions w) (wd_runners w))
  | Prove u =>
      let '(r, d') := ProveUnlaunchedTask D RootID TaskID u d in
      (match r with Ok (Some digest) => [Refused digest] | _ => [] end, MkWorld (files d') (wd_admissions w) (wd_runners w))
  | CollectOutcome u registry predicate =>
      let '(p, d') := Collect D RootID TaskID u registry predicate d in
      (outcomeEvent p, MkWorld (files d') (wd_admissions w) (wd_runners w))
  | FinalizeRun i registry predicate =>
      withRunner i w (fun l =>
        let '(p, d') := Finalize D RootID TaskID l registry predicate d in
        (outcomeEvent p, MkWorld (files d') (wd_admissions w) (wd_runners w)))
  | Elsewhere other => ([], MkWorld (elsewhere (wd_files w) other) (wd_admissions w) (wd_runners w))
  end.

(** A history: its events and the world it ends in. *)
Fixpoint history (cs : list (command * list fault)) (w : world) : list event * world :=
  match cs with
  | [] => ([], w)
  | (c, flts) :: rest =>
      let '(now, w1) := exec c flts w in
      let '(later, w2) := history rest w1 in
      (now ++ later, w2)
  end.
End task.

(** ** Control records *)
Definition keeps (fs fs' : gmap string string) : Prop :=
  forall name data, isControl name = true -> fs !! name = Some data -> fs' !! name = Some data.

#[export] Instance keeps_preorder : PreOrder keeps.
Proof. split; [by intros fs name data|]. intros a b c H1 H2 name data Hn Hd. by apply H2, H1. Qed.

Lemma keeps_extends fs fs' : fs ⊆ fs' -> keeps fs fs'.
Proof. intros H name data _ Hd. by eapply lookup_weaken. Qed.

Lemma elsewhere_control fs other name : isControl name = true -> elsewhere fs other !! name = fs !! name.
Proof.
  intros H. unfold elsewhere. destruct (fs !! name) as [data|] eqn:E.
  - rewrite (lookup_union_Some_l _ _ _ data); [done|]. by apply map_lookup_filter_Some.
  - rewrite lookup_union_r; [|apply map_lookup_filter_None; by left].
    apply map_lookup_filter_None. right. intros x _ Hx. cbn in Hx. congruence.
Qed.

Lemma keeps_elsewhere fs other : keeps fs (elsewhere fs other).
Proof. intros name data Hn Hd. by rewrite elsewhere_control. Qed.

Lemma stopName_control id suffix : isControl (stopName id suffix) = true.
Proof.
  unfold isControl, HasPrefix, CutPrefix, stopName. rewrite bytes_str, stripPrefix_app. apply orb_true_r.
Qed.

Lemma keeps_refused D fs fs' : keeps fs fs' -> refused D fs -> refused D fs'.
Proof.
  intros H [[o Ho]|(id & data & Hd & Hp)]; [left; exists o; by apply H|right].
  exists id, data. split; [apply H; [apply stopName_control|done]|done].
Qed.

Lemma keeps_some fs fs' name : isControl name = true -> keeps fs fs' -> is_Some (fs !! name) -> is_Some (fs' !! name).
Proof. intros Hn H [x Hx]. exists x. by apply H. Qed.

(** ** Publication *)
Section task.
Context (D : TaskDecoders) (RootID TaskID : string).

(** The directory holds outcome [o], encoded or read back, with its payload. *)
Definition publishedIn (fs : gmap string string) (o : OutcomeRecord) : Prop :=
  (exists data, fs !! "outcome.json"%string = Some data /\ (dec_Outcome D data = inl o \/ data = MarshalCanonical (jsonOutcome o))) /\
  exists content, fs !! py_Basename (oc_Payload o) = Some content /\ isControl (py_Basename (oc_Payload o)) = true /\
    ComputeSHA256 content = py_SHA256 (oc_Payload o) /\ len content = py_Length (oc_Payload o).

Lemma keeps_published fs fs' o : keeps fs fs' -> publishedIn fs o -> publishedIn fs' o.
Proof.
  intros H [(data & Hd & Hr) (content & Hc & Hn & Hp)]. split; [exists data|exists content]; (split; [apply H; done|done]).
Qed.

Lemma payload_control d : ValidatePayloadDescriptor d = Ok tt -> isControl (py_Basename d) = true.
Proof.
  unfold ValidatePayloadDescriptor. intros ([] & H & _)%bind_Ok. apply fail_if_Ok in H. revert H.
  destruct (eqs (py_Basename d) "result.txt") eqn:E1; [apply eqs_true in E1 as ->; by intros _|].
  destruct (eqs (py_Basename d) "publish.reject") eqn:E2; [apply eqs_true in E2 as ->; by intros _|done].
Qed.

Lemma winnerRecord_Ok meta spec hash d o d' : readWinnerRecord D RootID TaskID meta spec hash d = (Ok o, d') ->
  publishedIn (files d) o.
Proof.
  unfold readWinnerRecord. intros (r & d1 & H1 & H)%txBind_Ok. apply txTry_eq in H1 as (r' & H1 & [= ->]).
  destruct r' as [x|e]; [|by destruct (errors_Is e fs_ErrNotExist)]. apply readRecord_Ok in H1 as [Hf1 (data & Hd & Hx)].
  apply txBind_Ok in H as ([] & d2 & [HV ->]%txOf_Ok & H). apply txBind_Ok in H as ([] & d3 & (_ & -> & _)%txFail_Ok & H).
  apply txBind_Ok in H as ([] & d4 & (_ & -> & _)%txFail_Ok & H).
  apply txBind_Ok in H as (f & d5 & [_ (content & Hc & ->)]%fileDigest_Ok & H).
  apply txBind_Ok in H as ([] & d6 & (Hp & -> & _)%txFail_Ok & H).
  apply txBind_Ok in H as (m & d7 & _ & H). apply txBind_Ok in H as ([] & d8 & _ & [= -> _]).
  cbn [fst snd] in Hp. apply orb_false_iff in Hp as [Hp1%negb_false_iff%eqs_true Hp2%negb_false_iff%Z.eqb_eq]. rewrite Hf1 in Hc.
  split; [exists data; auto|]. exists content. split_and!; try done. apply payload_control. unfold ValidateOutcomeRecord in HV.
  do 8 (apply bind_Ok in HV as ([] & _ & HV)). unfold validateOutcomePayload in HV. apply bind_Ok in HV as ([] & HV & _).
  unfold wrap_err in HV. by destruct (ValidatePayloadDescriptor _) as [[]|].
Qed.

Lemma winner_Ok meta spec hash d o d' : readWinner D RootID TaskID meta spec hash d = (Ok o, d') ->
  files d' = files d /\ publishedIn (files d) o.
Proof.
  intros H. split; [eapply readonly_files; [|exact H]; auto with tx|]. unfold readWinner, txMapErr in H.
  destruct (readWinnerRecord _ _ _ _ _ _ d) as [[x|e] d1] eqn:E; [|done]. injection H as -> ->. by eapply winnerRecord_Ok.
Qed.

(** What a publication reports without error is on disk. *)
Definition honest (m : Tx published) : Prop := forall d p d', m d = (Ok p, d') ->
  forall o, pb_Outcome p = Some o -> pb_Err p = None -> publishedIn (files d') o.

Lemma honest_failDiscarding e : honest (failDiscarding e).
Proof. intros d p d' (c & d1 & _ & [= <- _])%txBind_Ok o Ho. done. Qed.

Lemma acknowledgeWinner_honest winner d p d' : acknowledgeWinner winner d = (Ok p, d') -> publishedIn (files d) winner ->
  forall o, pb_Outcome p = Some o -> publishedIn (files d') o.
Proof.
  intros H Hw. pose proof H as Hf. apply readonly_files in Hf; [|auto with tx]. apply txBind_Ok in H as (a & d1 & _ & [= <- _]).
  intros o [= <-]. by rewrite Hf.
Qed.

Lemma commitOutcome_honest candidate d p d' : commitOutcome D RootID TaskID candidate (MarshalCanonical (jsonOutcome candidate)) d = (Ok p, d') ->
  (exists content, files d !! py_Basename (oc_Payload candidate) = Some content /\ isControl (py_Basename (oc_Payload candidate)) = true /\
    ComputeSHA256 content = py_SHA256 (oc_Payload candidate) /\ len content = py_Length (oc_Payload candidate)) ->
  py_Basename (oc_Payload candidate) <> "outcome.json"%string ->
  forall o, pb_Outcome p = Some o -> pb_Err p = None -> publishedIn (files d') o.
Proof.
  intros H (content & Hc & Hpay) Hname o Ho He. unfold commitOutcome in H. apply txBind_Ok in H as ([[c cl] err] & d1 & HS & H).
  apply stageReader_cases in HS as (c' & cl' & err' & [= -> -> ->] & Hcase). destruct err' as [e|].
  - destruct (errors_Is e fs_ErrExist); [|by injection H as <- _].
    apply txBind_Ok in H as (q & d2 & Hq & H). apply txBind_Ok in H as (winner & d3 & [Hf Hw]%winner_Ok & H).
    apply txBind_Ok in H as (a & d4 & Ha & H). rewrite <- Hf in Hw. pose proof (acknowledgeWinner_honest _ _ _ _ Ha Hw) as Hack.
    destruct (pb_Err a) eqn:Ea; [injection H as <- _; congruence|]. injection H as <- <-. cbn in Ho. injection Ho as <-.
    apply Hack. unfold acknowledgeWinner in Ha. by apply txBind_Ok in Ha as (x & d5 & _ & [= <- _]).
  - destruct c'; [|by injection H as <- _]. injection H as <- <-. cbn in Ho. injection Ho as <-.
    destruct Hcase as [[_ ?]|[Hn Hf]]; [done|]. rewrite Hf. split.
    + exists (MarshalCanonical (jsonOutcome candidate)). rewrite lookup_insert_eq. auto.
    + exists content. by rewrite lookup_insert_ne.
Qed.

Lemma commitPayload_Ok name content d d' : commitPayloadStage name content d = (Ok (None, None), d') ->
  exists data, files d' !! name = Some data /\ ComputeSHA256 data = ComputeSHA256 content /\ len data = len content.
Proof.
  unfold commitPayloadStage. intros ([[x cleanup] err] & d1 & _ & H)%txBind_Ok. apply txBind_Ok in H as ([cl e] & d2 & _ & H).
  destruct e; [done|]. apply txBind_Ok in H as (f & d3 & (f' & Hf & [= ->])%txTry_eq & H).
  destruct f' as [[digest size]|e]; [|injection H as _ H _; by destruct e]. apply fileDigest_Ok in Hf as [Hf (data & Hd & [= -> ->])].
  destruct (negb _ || negb _) eqn:E; [done|]. apply orb_false_iff in E as [E1%negb_false_iff%eqs_true E2%negb_false_iff%Z.eqb_eq].
  apply txBind_Ok in H as (b & d4 & (b' & Hb & [= ->])%txTry_eq & [= _ _ <-]). apply readonly_files in Hb; [|auto with tx].
  exists data. by rewrite Hb, Hf.
Qed.

Lemma publishPayload_honest seal spec meta r written : honest (publishPayload D RootID TaskID seal spec meta r written).
Proof.
  unfold publishPayload. destruct (payloadOf r written) as [name content] eqn:EP. intros d p d' H.
  assert (isControl name = true /\ name <> "outcome.json"%string) as [Hn Hne].
  { unfold payloadOf in EP. destruct (eqs _ _); injection EP as <- _; by split. }
  apply txBind_Ok in H as ([] & d1 & _ & H). apply txBind_Ok in H as (w & d2 & _ & H). destruct w as [w|e]; [|by eapply honest_failDiscarding].
  apply txBind_Ok in H as (f & d3 & _ & H). destruct f as [f|e]; [|by eapply honest_failDiscarding]. cbv zeta in H.
  destruct (ValidateOutcomeRecord _); [|by eapply honest_failDiscarding].
  destruct (marshalControlRecord _) as [data|e] eqn:EM; [|by eapply honest_failDiscarding].
  apply txBind_Ok in H as ([cleanup err] & d4 & Hp & H). destruct cleanup, err; try (by injection H as <- _).
  unfold marshalControlRecord in EM. destruct (_ <? _); [done|]. injection EM as <-.
  apply commitPayload_Ok in Hp as (data & Hd & Hsha & Hlen). intros o Ho He. eapply commitOutcome_honest; [exact H| |exact Hne|exact Ho|exact He].
  by exists data.
Qed.

Lemma collectOwned_honest registry predicate : honest (collectOwned D RootID TaskID registry predicate).
Proof.
  unfold collectOwned. intros d p d' H. apply txBind_Ok in H as (q & d1 & _ & H). apply txBind_Ok in H as ([] & d2 & _ & H).
  apply txBind_Ok in H as (w & d3 & (w' & Hw & [= ->])%txTry_eq & H). destruct w' as [winner|e].
  - apply winner_Ok in Hw as [Hf Hw]. rewrite <- Hf in Hw. intros o Ho _. by eapply acknowledgeWinner_honest.
  - apply txBind_Ok in H as ([] & d4 & _ & H). apply txBind_Ok in H as (b & d5 & _ & H). apply txBind_Ok in H as ([] & d6 & _ & H).
    apply txBind_Ok in H as (seal & d7 & _ & H). apply txBind_Ok in H as (interpreter & d8 & _ & H). unfold evaluateAndPublish in H.
    apply txBind_Ok in H as (raw & d9 & _ & H). apply txBind_Ok in H as (input & d10 & _ & H). apply txBind_Ok in H as ([] & d11 & _ & H).
    apply txBind_Ok in H as (ev & d12 & _ & H). destruct ev as [[r written]|err]; [by eapply publishPayload_honest|by eapply honest_failDiscarding].
Qed.

(** ** The public calls *)
Lemma asPublished_cases m d p d' : asPublished m d = (p, d') ->
  m d = (Ok p, d') \/ exists e, m d = (Err e, d') /\ pb_Err p = Some e.
Proof. unfold asPublished. destruct (m d) as [[q|e] d1]; intros [= <- <-]; eauto. Qed.

Lemma unlocking_cases m d p d' : unlocking m d = (p, d') ->
  exists q d1, m d = (q, d1) /\ files d' = files d1 /\ pb_Outcome p = pb_Outcome q /\ (pb_Err p = None -> pb_Err q = None).
Proof.
  unfold unlocking. destruct (m d) as [q d1]. pose proof (readonly_unlock d1) as Hu. destruct (unlock d1) as [c d2]. intros [= <- <-].
  exists q, d1. split_and!; try done. cbn. destruct (pb_Err q); [|done]. by destruct c.
Qed.

(** A call grows the directory, and what it reports is there. *)
Definition publishes (m : disk -> published * disk) : Prop := forall d p d', m d = (p, d') ->
  files d ⊆ files d' /\ forall o, pb_Outcome p = Some o -> pb_Err p = None -> publishedIn (files d') o.

Lemma publishes_asPublished m : growing m -> honest m -> publishes (asPublished m).
Proof.
  intros Hg Hh d p d' H. apply asPublished_cases in H as [H|(e & H & He)]; (split; [by eapply growing_files|]); [by eapply Hh|congruence].
Qed.
Lemma publishes_unlocking m : publishes m -> publishes (unlocking m).
Proof.
  intros Hm d p d' (q & d1 & H & Hf & Ho & He)%unlocking_cases. apply Hm in H as [Hg Hp]. rewrite Hf. split; [done|].
  intros o Ho' He'. apply Hp; [congruence|auto].
Qed.
Lemma publishes_after {A} (m : Tx A) (k : disk -> published * disk) : readonly m -> publishes k ->
  publishes (fun d => match m d with (Err e, d1) => (MkPublished None None (Some e), d1) | (Ok _, d1) => k d1 end).
Proof.
  intros Hm Hk d p d' H. specialize (Hm d). destruct (m d) as [[a|e] d1]; cbn in Hm.
  - apply Hk in H. by rewrite <- Hm.
  - injection H as <- <-. by rewrite Hm.
Qed.

Lemma collect_publishes u registry predicate : publishes (Collect D RootID TaskID u registry predicate).
Proof.
  unfold Collect, withCollection. apply publishes_after; [auto with tx|]. apply publishes_after; [auto with tx|].
  apply publishes_unlocking, publishes_after; [auto 20 with tx|]. apply publishes_unlocking, publishes_asPublished.
  - auto with grow.
  - apply collectOwned_honest.
Qed.

Lemma finalize_publishes l registry predicate : publishes (Finalize D RootID TaskID l registry predicate).
Proof.
  unfold Finalize. apply publishes_asPublished.
  - apply grows_bind; [apply grows_readonly; auto with tx|intros _]. apply grows_bind; [apply grows_readonly; auto with tx|intros _]. auto with grow.
  - intros d p d' H. apply txBind_Ok in H as ([] & d1 & _ & H). apply txBind_Ok in H as ([] & d2 & _ & H). by eapply collectOwned_honest.
Qed.
End task.

(** ** What a published outcome rests on *)
Section publication.
Context (D : TaskDecoders) (RootID TaskID : string).

(** The content of a stream is the file of that name, with the digest of its entry. *)
Definition sealedStreams (fs : gmap string string) (seal : ProviderExitRecord) (raw : evidence) : Prop :=
  forall name content, streamOf name raw = Some content -> fs !! name = Some content /\
    exists entry, entry ∈ pe_RawManifest seal /\ rm_Path entry = name /\ rm_SHA256 entry = ComputeSHA256 content.

Definition requestIn (fs : gmap string string) (req : TaskRecord) : Prop :=
  exists data, fs !! "task.json"%string = Some data /\ decodeTaskRequest D RootID TaskID data = Ok req.

(** The outcome is the interpretation of the evidence under the recorded seal, by the
    interpreter that the registry has for the predicate. *)
Definition rests (registry : Registry) (predicate : PredicateRef) (fs : gmap string string) (o : OutcomeRecord) : Prop :=
  exists seal data interpreter raw input req r written,
    fs !! "provider.exit"%string = Some data /\ dec_Exit D data = inl seal /\ ValidateProviderExitRecord (Some seal) = Ok tt /\
    sealedStreams fs seal raw /\ requestIn fs req /\ in_Seal input = seal /\ in_ExpectedSession input = expectedSession req /\ Resolve registry predicate = Ok interpreter /\
    ip_Evaluate interpreter input raw = (Ok r, written) /\ oc_Verdict o = it_Verdict r /\
    oc_Payload o = descriptor (fst (payloadOf r written)) (snd (payloadOf r written)).

Lemma streamOf_In name raw content : streamOf name raw = Some content -> (name, content) ∈ ed_streams raw.
Proof.
  unfold streamOf. destruct (find _ _) as [[n c]|] eqn:E; [|done]. intros [= <-]. apply find_some in E as [Hin He].
  apply eqs_true in He as <-. by apply list_elem_of_In.
Qed.

Lemma openEntries_Ok manifest d ss d' : openEntries manifest d = (Ok ss, d') -> forall name content, (name, content) ∈ ss ->
  files d !! name = Some content /\ exists entry, entry ∈ manifest /\ rm_Path entry = name /\ rm_SHA256 entry = ComputeSHA256 content.
Proof.
  revert d ss d'. induction manifest as [|entry manifest IH]; intros d ss d'; cbn [openEntries].
  - intros [= <- _] name content Hin. by apply not_elem_of_nil in Hin.
  - intros (s & d1 & H1 & H)%txBind_Ok. apply txBind_Ok in H as (ss' & d2 & H2 & [= <- _]).
    unfold openEvidenceEntry in H1. apply txBind_Ok in H1 as ([] & d3 & H0 & H1). apply readonly_files in H0 as Hf; [|auto with tx].
    destruct (files d3 !! rm_Path entry) as [b|] eqn:Eb; [|done]. rewrite Hf in Eb.
    destruct (negb (len b =? rm_Size entry) || negb (eqs (ComputeSHA256 b) (rm_SHA256 entry))) eqn:Ec; [done|]. injection H1 as <- <-.
    apply orb_false_iff in Ec as [_ Ec%negb_false_iff%eqs_true].
    intros name content [[= -> ->]|Hin]%elem_of_cons.
    + split; [done|]. exists entry. split_and!; [by left|done|done].
    + destruct (IH _ _ _ H2 _ _ Hin) as (Hn & e & He & Hp & Hs). rewrite Hf in Hn. split; [done|]. exists e. split_and!; [by right|done|done].
Qed.

Lemma evidence_Ok seal d raw d' : openValidatedEvidence D RootID TaskID seal d = (Ok raw, d') -> sealedStreams (files d) seal raw.
Proof.
  unfold openValidatedEvidence. intros ([] & d1 & H1 & H)%txBind_Ok. apply txBind_Ok in H as (p & d2 & H2 & H).
  apply txBind_Ok in H as (ss & d3 & H3 & [= <- _]). apply readonly_files in H1; [|auto with tx]. apply readonly_files in H2; [|auto with tx].
  unfold txMapErr in H3. destruct (openEntries _ d2) as [[x|e] d4] eqn:E; [|done]. injection H3 as -> ->.
  intros name content Hs%streamOf_In. cbn [ed_streams] in Hs. destruct (openEntries_Ok _ _ _ _ E _ _ Hs) as [Hf He].
  by rewrite H2, H1 in Hf.
Qed.

Lemma readSeal_Ok predicate spec meta d seal d' : readSeal D RootID TaskID predicate spec meta d = (Ok seal, d') ->
  ValidateProviderExitRecord (Some seal) = Ok tt /\ exists data, files d !! "provider.exit"%string = Some data /\ dec_Exit D data = inl seal.
Proof.
  unfold readSeal, txMapErr. destruct (readSealRecord _ _ _ _ _ _ d) as [[x|e] d1] eqn:E; [|done]. intros [= -> ->].
  unfold readSealRecord in E. apply txBind_Ok in E as (r & d2 & (r' & H1 & [= ->])%txTry_eq & E). destruct r' as [x|e]; [|discriminate E].
  apply readRecord_Ok in H1 as [_ (data & Hd & Hx)]. apply txBind_Ok in E as ([] & d3 & [HV ->]%txOf_Ok & E).
  do 5 (apply txBind_Ok in E as (? & ? & _ & E)). injection E as -> _. eauto.
Qed.

Lemma prepared_request d q d' : loadAndValidatePreparedSet D RootID TaskID d = (Ok q, d') -> requestIn (files d) (pp_req q).
Proof.
  unfold loadAndValidatePreparedSet. intros (brief & d1 & H1 & H)%txBind_Ok. apply readonly_files in H1; [|auto with tx].
  unfold loadAndValidatePreparedSetWithReader in H. apply txBind_Ok in H as (data & d2 & [H2 _]%readBytes_Ok & H).
  apply txBind_Ok in H as (metaData & d3 & _ & H). apply txBind_Ok in H as (req & d4 & [H4 _]%txOf_Ok & H).
  do 4 (apply txBind_Ok in H as (? & ? & _ & H)). injection H as <- _. exists data. by rewrite <- H1.
Qed.

Lemma input_Ok seal d input d' : interpretationInput D RootID TaskID seal d = (Ok input, d') ->
  in_Seal input = seal /\ exists req, requestIn (files d) req /\ in_ExpectedSession input = expectedSession req.
Proof.
  unfold interpretationInput. intros (q & d1 & H1%prepared_request & H)%txBind_Ok. apply txBind_Ok in H as (x & d2 & _ & H). destruct x as [x|ex].
  - injection H as <- _. split; [done|]. by exists (pp_req q).
  - destruct (errors_Is ex fs_ErrNotExist); [|discriminate H]. injection H as <- _. split; [done|]. by exists (pp_req q).
Qed.

Lemma evaluate_Ok interpreter input raw d r written d' : evaluate interpreter input raw d = (Ok (r, written), d') ->
  ip_Evaluate interpreter input raw = (Ok r, written).
Proof.
  unfold evaluate. destruct (ip_Evaluate interpreter input raw) as [[x|e] w]; intros (c & d1 & _ & H)%txBind_Ok;
    apply txBind_Ok in H as (c2 & d2 & _ & H); [|done]. by apply txBind_Ok in H as ([] & d3 & _ & [= -> -> _]).
Qed.

(** Whatever is returned without an error is the candidate. *)
Lemma commitOutcome_candidate candidate data d p d' o : commitOutcome D RootID TaskID candidate data d = (Ok p, d') ->
  pb_Outcome p = Some o -> pb_Err p = None -> o = candidate.
Proof.
  intros H Ho He. unfold commitOutcome in H. apply txBind_Ok in H as ([[c cl] err] & d1 & _ & H). destruct err as [e|].
  - destruct (errors_Is e fs_ErrExist); [|by injection H as <- _].
    apply txBind_Ok in H as (q & d2 & _ & H). apply txBind_Ok in H as (winner & d3 & _ & H). apply txBind_Ok in H as (a & d4 & _ & H).
    destruct (pb_Err a) eqn:Ea; [injection H as <- _; congruence|]. injection H as <- _. cbn [pb_Outcome pb_Err] in Ho, He. injection Ho as <-.
    destruct (sameOutcome candidate winner) eqn:Ec in He; [|discriminate He].
    apply (compare_outcomes_eq (Some candidate) (Some winner)) in Ec. by injection Ec.
  - destruct (negb c); injection H as <- _; cbn in Ho; congruence.
Qed.

Lemma failDiscarding_none e d p d' : failDiscarding e d = (Ok p, d') -> pb_Outcome p = None.
Proof. by intros (c & d1 & _ & [= <- _])%txBind_Ok. Qed.

Lemma publishPayload_candidate seal spec meta r written d p d' o : publishPayload D RootID TaskID seal spec meta r written d = (Ok p, d') ->
  pb_Outcome p = Some o -> pb_Err p = None ->
  oc_Verdict o = it_Verdict r /\ oc_Payload o = descriptor (fst (payloadOf r written)) (snd (payloadOf r written)).
Proof.
  unfold publishPayload. destruct (payloadOf r written) as [name content]. intros H Ho He.
  apply txBind_Ok in H as ([] & d1 & _ & H). apply txBind_Ok in H as (w & d2 & _ & H).
  destruct w as [w|e]; [|apply failDiscarding_none in H; congruence].
  apply txBind_Ok in H as (f & d3 & _ & H). destruct f as [f|e]; [|apply failDiscarding_none in H; congruence]. cbv zeta in H.
  destruct (ValidateOutcomeRecord _); [|apply failDiscarding_none in H; congruence].
  destruct (marshalControlRecord _) as [data|e]; [|apply failDiscarding_none in H; congruence].
  apply txBind_Ok in H as ([cleanup err] & d4 & _ & H). destruct cleanup, err; try (injection H as <- _; done).
  by rewrite (commitOutcome_candidate _ _ _ _ _ _ H Ho He).
Qed.

(** A publication without error, where there was no outcome, rests on the sealed evidence. *)
Definition grounded (P : gmap string string -> OutcomeRecord -> Prop) (m : disk -> published * disk) : Prop :=
  forall d p d' o, m d = (p, d') -> files d !! "outcome.json"%string = None -> pb_Outcome p = Some o -> pb_Err p = None -> P (files d) o.

Lemma collectOwned_rests registry predicate : grounded (rests registry predicate) (asPublished (collectOwned D RootID TaskID registry predicate)).
Proof.
  intros d p d' o H Hn Ho He. apply asPublished_cases in H as [H|(e & _ & He')]; [|congruence]. unfold collectOwned in H.
  apply txBind_Ok in H as (q & d1 & H1 & H). apply txBind_Ok in H as ([] & d2 & H2 & H).
  apply txBind_Ok in H as (w & d3 & (w' & Hw & [= ->])%txTry_eq & H). tx_files. destruct w' as [winner|e].
  - apply winner_Ok in Hw as [_ [(data & Hd & _) _]]. congruence.
  - apply txBind_Ok in H as ([] & d4 & H4 & H). apply txBind_Ok in H as (b & d5 & H5 & H). apply txBind_Ok in H as ([] & d6 & H6 & H).
    apply txBind_Ok in H as (seal & d7 & H7 & H). apply txBind_Ok in H as (interpreter & d8 & H8 & H). unfold evaluateAndPublish in H.
    apply txBind_Ok in H as (raw & d9 & H9 & H). apply txBind_Ok in H as (input & d10 & H10 & H). apply txBind_Ok in H as ([] & d11 & H11 & H).
    apply txBind_Ok in H as (ev & d12 & (ev' & Hev & [= ->])%txTry_eq & H). destruct ev' as [[r written]|err];
      [|apply failDiscarding_none in H; congruence].
    tx_files. apply readSeal_Ok in H7 as [HV (data & Hd & Hx)]. apply txOf_Ok in H8 as [HR _]. apply evidence_Ok in H9.
    apply evaluate_Ok in Hev. destruct (publishPayload_candidate _ _ _ _ _ _ _ _ _ H Ho He) as [Hv Hp].
    apply txOnFailure_Ok, input_Ok in H10 as [Hin (req & Hreq & Hex)].
    exists seal, data, interpreter, raw, input, req, r, written. repeat match goal with E : files ?a = _ |- _ => rewrite E in *; clear E end.
    by split_and!.
Qed.

Lemma grounded_unlocking P m : grounded P m -> grounded P (unlocking m).
Proof. intros Hm d p d' o (q & d1 & H & _ & Ho & He)%unlocking_cases Hn Ho' He'. eapply Hm; [exact H|done|congruence|auto]. Qed.

Lemma grounded_after {A} P (m : Tx A) (k : disk -> published * disk) : readonly m -> grounded P k ->
  grounded P (fun d => match m d with (Err e, d1) => (MkPublished None None (Some e), d1) | (Ok _, d1) => k d1 end).
Proof.
  intros Hm Hk d p d' o H Hn Ho He. specialize (Hm d). destruct (m d) as [[a|e] d1]; cbn in Hm; [|by injection H as <- _].
  rewrite <- Hm in *. by eapply Hk.
Qed.

Lemma collect_rests u registry predicate : grounded (rests registry predicate) (Collect D RootID TaskID u registry predicate).
Proof.
  unfold Collect, withCollection. apply grounded_after; [auto with tx|]. apply grounded_after; [auto with tx|].
  apply grounded_unlocking, grounded_after; [auto 20 with tx|]. apply grounded_unlocking, collectOwned_rests.
Qed.

Lemma finalize_rests l registry predicate : grounded (rests registry predicate) (Finalize D RootID TaskID l registry predicate).
Proof.
  unfold Finalize. intros d p d' o H Hn Ho He. apply asPublished_cases in H as [H|(e & _ & He')]; [|congruence].
  apply txBind_Ok in H as ([] & d1 & H1 & H). apply txBind_Ok in H as ([] & d2 & H2 & H). tx_files.
  assert (asPublished (collectOwned D RootID TaskID registry predicate) d2 = (p, d')) as HC by (unfold asPublished; by rewrite H).
  pose proof (collectOwned_rests registry predicate d2 p d' o HC) as HR. rewrite Hfs, Hfs0 in HR. auto.
Qed.
End publication.
