(* ===== verification/TaskFixture.v ===== *)
(** * Calls without faults, and a published task

    What the readers of a task directory return when no call fails, and a concrete
    published directory on which the theorems about histories are instantiated. *)
From S2P Require Import Prelude GoErrors GoTime GoText TaskTypes Encoding GoPath GoTimestamp TaskLifetime LifetimeClosure ControlDir ControlLifetimeProps.
From S2P Require Import TaskConfiguration TaskRecords TaskReducer SchedRequest TaskRecordsJson TaskDir TaskDirOps TaskPublication TaskDirProps TaskHistory.
#[local] Open Scope Z_scope.
#[local] Open Scope tx_scope.

(** ** Readers without faults *)
(** A call that returns a value and leaves the disk as it is. *)
Definition returns {A} (m : Tx A) (a : A) (d : disk) : Prop := m d = (Ok a, d).

Section calls.
Context {A B : Type} (d : disk).

Lemma bind_returns (m : Tx A) (f : A -> Tx B) a : returns m a d -> txBind m f d = f a d.
Proof. unfold returns, txBind. by intros ->. Qed.
Lemma bind_Ok_eq (m : Tx A) (f : A -> Tx B) a d' : m d = (Ok a, d') -> txBind m f d = f a d'.
Proof. unfold txBind. by intros ->. Qed.
Lemma bind_try_returns (m : Tx A) (f : result A -> Tx B) a : returns m a d -> txBind (txTry m) f d = f (Ok a) d.
Proof. unfold returns, txBind, txTry. by intros ->. Qed.
Lemma bind_try_fails (m : Tx A) (f : result A -> Tx B) e : m d = (Err e, d) -> txBind (txTry m) f d = f (Err e) d.
Proof. unfold txBind, txTry. by intros ->. Qed.
Lemma bind_try_eq (m : Tx A) (f : result A -> Tx B) a d' : m d = (Ok a, d') -> txBind (txTry m) f d = f (Ok a) d'.
Proof. unfold txBind, txTry. by intros ->. Qed.
Lemma join_returns (m : Tx A) call a : returns m a d -> returns call tt d -> returns (txJoin m call) a d.
Proof. unfold returns, txJoin, txBind, txTry. intros -> H. by rewrite H. Qed.
Lemma of_returns (r : result A) a : r = Ok a -> returns (txOf r) a d.
Proof. unfold returns, txOf. by intros ->. Qed.
End calls.

Lemma fail_returns d b e : b = false -> returns (txFail b e) tt d.
Proof. by intros ->. Qed.

Section faultless.
Context (D : TaskDecoders) (RootID TaskID : string) (fs : gmap string string).
#[local] Abbreviation d0 := (MkDisk fs []).

Lemma systemCall_free : returns systemCall tt d0.
Proof. done. Qed.

Lemma readBytes_free name limit b : fs !! name = Some b -> len b <= limit -> returns (readBytes name limit) b d0.
Proof.
  intros H Hl. unfold returns, readBytes. erewrite bind_returns by apply systemCall_free. cbn. rewrite H.
  destruct (Z.ltb_spec limit (len b)); [lia|done].
Qed.

Lemma readBytes_absent name limit : fs !! name = None -> readBytes name limit d0 = (Err errNotExist, d0).
Proof. intros H. unfold readBytes. erewrite bind_returns by apply systemCall_free. cbn. by rewrite H. Qed.

Lemma readRecord_free {A} (decode : string -> A + decodeFailure) name b a : fs !! name = Some b -> len b <= MaxControlRecordSize ->
  decode b = inl a -> returns (readRecord decode name) a d0.
Proof. intros H Hl Hd. unfold returns, readRecord. erewrite bind_returns by (apply readBytes_free; eassumption). unfold txOf. by rewrite Hd. Qed.

Lemma readRecord_absent {A} (decode : string -> A + decodeFailure) name : fs !! name = None ->
  readRecord decode name d0 = (Err errNotExist, d0).
Proof. intros H. unfold readRecord, txBind. by rewrite (readBytes_absent _ _ H). Qed.

Lemma exists_free name : returns (exists_ name) (bool_decide (is_Some (fs !! name))) d0.
Proof. done. Qed.

(** An identity that was not recorded is found absent. *)
Lemma identity_absent p : returns (loadAndValidatePreparedSet D RootID TaskID) p d0 -> fs !! "provider.ref.json"%string = None ->
  ReadProviderIdentity D RootID TaskID d0 = (Err errNotExist, d0).
Proof.
  intros Hp Hr. unfold ReadProviderIdentity. rewrite (bind_returns d0 _ _ (Err errNotExist, true)); [done|].
  unfold returns, ReadProviderIdentityPresence. rewrite (bind_try_returns _ _ _ _ Hp), (bind_try_fails _ _ _ _ (readRecord_absent _ _ Hr)).
  change (RecordAbsent errNotExist) with true. cbn [negb]. by rewrite (bind_try_returns _ _ _ _ (exists_free _)), Hr.
Qed.

Lemma fileDigest_free name b : fs !! name = Some b -> returns (fileDigest name) (ComputeSHA256 b, len b) d0.
Proof. intros H. unfold returns, fileDigest. erewrite bind_returns by apply systemCall_free. cbn [files]. by rewrite H. Qed.

Lemma checkPresent_absent {A} (read : Tx A) check : read d0 = (Err errNotExist, d0) -> returns (checkPresent read check) tt d0.
Proof. intros H. unfold returns, checkPresent. by rewrite (bind_try_fails _ _ _ _ H). Qed.

Lemma readBytesContext_free name limit b : fs !! name = Some b -> len b <= limit -> returns (readBytesContext name limit) b d0.
Proof.
  intros H Hl. unfold returns, readBytesContext. erewrite bind_returns by apply systemCall_free.
  apply join_returns; [by apply readBytes_free|apply systemCall_free].
Qed.

Lemma guards_absent req meta spec metaHash : fs !! "submit.json"%string = None -> fs !! "provider.start"%string = None ->
  returns (validateGuards D RootID TaskID req meta spec metaHash) tt d0.
Proof.
  intros H1 H2. unfold returns, validateGuards. erewrite bind_returns by (by apply checkPresent_absent, readRecord_absent).
  by apply checkPresent_absent, readRecord_absent.
Qed.

(** A prepared directory whose submission and start, if there are any, match. *)
Record preparedFiles (req : TaskRecord) (meta : MetaRecord) (brief reqData metaData : string) : Prop := {
  pf_brief : fs !! "brief.md"%string = Some brief;
  pf_briefSize : len brief <= MaxBriefSize;
  pf_task : fs !! "task.json"%string = Some reqData;
  pf_taskSize : len reqData <= MaxControlRecordSize;
  pf_meta : fs !! "meta.json"%string = Some metaData;
  pf_metaSize : len metaData <= MaxControlRecordSize;
  pf_guards : returns (validateGuards D RootID TaskID req meta (ComputeSHA256 reqData) (ComputeSHA256 metaData)) tt d0;
  pf_request : decodeTaskRequest D RootID TaskID reqData = Ok req;
  pf_decoded : decoded (dec_Meta D metaData) = Ok meta;
  pf_valid : ValidateMetaRecord (Some meta) = Ok tt;
  pf_match : matchPrepared RootID TaskID req meta (ComputeSHA256 brief, len brief) (ComputeSHA256 reqData) = Ok tt }.

Section prepared.
Context {req : TaskRecord} {meta : MetaRecord} {brief reqData metaData : string}.
Context (P : preparedFiles req meta brief reqData metaData).
#[local] Abbreviation p0 := (MkPrepared req meta (ComputeSHA256 reqData) (ComputeSHA256 metaData)).

Lemma withReader_free read : (forall name limit b, fs !! name = Some b -> len b <= limit -> returns (read name limit) b d0) ->
  returns (loadAndValidatePreparedSetWithReader D RootID TaskID (ComputeSHA256 brief, len brief) read) p0 d0.
Proof.
  intros Hread. destruct P. unfold returns, loadAndValidatePreparedSetWithReader.
  erewrite bind_returns by (apply Hread; eassumption). erewrite bind_returns by (apply Hread; eassumption). erewrite bind_returns by (apply of_returns; eassumption).
  erewrite bind_returns by (apply of_returns; eassumption). erewrite bind_returns by (apply of_returns; eassumption). cbv zeta.
  erewrite bind_returns by (apply of_returns; eassumption). by erewrite bind_returns by eassumption.
Qed.

Lemma prepared_free : returns (loadAndValidatePreparedSet D RootID TaskID) p0 d0.
Proof.
  unfold returns, loadAndValidatePreparedSet. erewrite bind_returns.
  2:{ unfold returns, readDigest. destruct P. by erewrite bind_returns by (apply readBytes_free; eassumption). }
  apply withReader_free. intros name limit b. apply readBytes_free.
Qed.

Lemma preparedContext_free : returns (loadAndValidatePreparedSetContext D RootID TaskID) p0 d0.
Proof.
  apply join_returns; [|apply systemCall_free]. unfold returns, loadPreparedSetContext. erewrite bind_returns.
  2:{ unfold returns. erewrite bind_returns by apply systemCall_free. apply join_returns; [|apply systemCall_free].
      unfold returns, readDigest. destruct P. by erewrite bind_returns by (apply readBytes_free; eassumption). }
  apply withReader_free. intros name limit b. apply readBytesContext_free.
Qed.

(** Nothing refuses it when it has neither an outcome nor a stop. *)
Lemma refusal_free : fs !! "outcome.json"%string = None -> stopEntries fs = [] ->
  returns (permanentLaunchRefusal D RootID TaskID) None d0.
Proof.
  intros Ho Hs. unfold returns, permanentLaunchRefusal. erewrite bind_returns by apply systemCall_free.
  erewrite bind_returns by apply preparedContext_free. cbn [pp_meta pp_spec pp_metaHash].
  assert (readWinnerRecord D RootID TaskID meta (ComputeSHA256 reqData) (ComputeSHA256 metaData) d0 = (Err errNoOutcome, d0)) as HW.
  { unfold readWinnerRecord. by rewrite (bind_try_fails _ _ _ _ (readRecord_absent (dec_Outcome D) _ Ho)). }
  rewrite (bind_try_fails _ _ _ _ HW). erewrite bind_returns by apply systemCall_free. cbn [errors_Is negb].
  change (errors_Is errNoOutcome taskdir_errNoOutcome) with true. cbn [negb]. rewrite (bind_returns _ _ _ []); [reflexivity|].
  apply join_returns; [|apply systemCall_free]. unfold returns, ReadStopRecords. erewrite bind_returns by apply prepared_free.
  assert (returns discoverStopRecordIDs (MkStopIDs ∅ ∅ ∅ 0) d0) as HD.
  { unfold returns, discoverStopRecordIDs. erewrite bind_returns by apply systemCall_free. erewrite bind_returns by (unfold returns; reflexivity).
    cbn [files]. rewrite Hs. by apply join_returns. }
  by rewrite (bind_returns _ _ _ _ HD).
Qed.

(** ... whose outcome is published, with both captures and its payload. *)
Context (o : OutcomeRecord) (out content stdout stderr : string).
Definition captureManifest : list RawManifestEntry :=
  [MkEntry "raw/stderr" (len stderr) (ComputeSHA256 stderr); MkEntry "raw/stdout" (len stdout) (ComputeSHA256 stdout)].
Record publishedFiles : Prop := {
  pl_outcome : fs !! "outcome.json"%string = Some out;
  pl_size : len out <= MaxControlRecordSize;
  pl_decoded : dec_Outcome D out = inl o;
  pl_valid : ValidateOutcomeRecord (Some o) = Ok tt;
  pl_root : oc_RootID o = RootID;
  pl_taskID : oc_TaskID o = TaskID;
  pl_spec : oc_SpecSHA256 o = ComputeSHA256 reqData;
  pl_metaHash : oc_MetaSHA256 o = ComputeSHA256 metaData;
  pl_predicate : PredicateEqual (oc_Predicate o) (me_Predicate meta) = true;
  pl_payload : fs !! py_Basename (oc_Payload o) = Some content;
  pl_digest : py_SHA256 (oc_Payload o) = ComputeSHA256 content;
  pl_length : py_Length (oc_Payload o) = len content;
  pl_stdout : fs !! "raw/stdout"%string = Some stdout;
  pl_stderr : fs !! "raw/stderr"%string = Some stderr;
  pl_noOutputs : me_OutputArtifacts meta = [];
  pl_notInteractive : tc_Interactive (me_RequestedConfig meta) = false;
  pl_evidence : oc_EvidenceSHA256 o = ComputeSHA256 (MarshalCanonical (jsonManifest captureManifest)) }.
Context (W : publishedFiles).

Lemma manifest_free : returns (rawManifest D RootID TaskID)
  (captureManifest, ComputeSHA256 (MarshalCanonical (jsonManifest captureManifest))) d0.
Proof.
  destruct W. unfold returns, rawManifest. erewrite bind_returns.
  2:{ unfold returns, admittedRawNames. erewrite bind_returns by apply prepared_free. cbn [pp_meta]. rewrite pl_noOutputs0, pl_notInteractive0.
      cbn [existingOutputs foldr]. by erewrite bind_returns. }
  assert (merge_sort (nameOrder id) (["stderr"; "stdout"]%string ++ [] ++ []) = ["stderr"; "stdout"]%string) as -> by reflexivity.
  cbn [manifestEntries]. erewrite bind_returns; [done|]. unfold returns.
  rewrite (bind_returns _ _ _ _ (fileDigest_free (rawPath "stderr") _ pl_stderr0)). erewrite bind_returns; [done|]. unfold returns.
  by rewrite (bind_returns _ _ _ _ (fileDigest_free (rawPath "stdout") _ pl_stdout0)).
Qed.

Lemma winner_free : returns (readWinner D RootID TaskID meta (ComputeSHA256 reqData) (ComputeSHA256 metaData)) o d0.
Proof.
  assert (returns (readWinnerRecord D RootID TaskID meta (ComputeSHA256 reqData) (ComputeSHA256 metaData)) o d0) as H.
  2:{ unfold returns in *. unfold readWinner, txMapErr. by rewrite H. }
  pose proof manifest_free as HM. destruct W. unfold returns, readWinnerRecord.
  erewrite bind_try_returns by (eapply readRecord_free; eassumption).
  erewrite bind_returns by (apply of_returns; eassumption).
  rewrite pl_root0, pl_taskID0, pl_spec0, pl_metaHash0, pl_predicate0, !eqs_refl.
  erewrite bind_returns by (apply fail_returns; reflexivity). erewrite bind_returns by (apply fail_returns; reflexivity).
  erewrite bind_returns by (apply fileDigest_free; eassumption). cbn [fst snd]. rewrite pl_digest0, pl_length0, eqs_refl, Z.eqb_refl.
  erewrite bind_returns by (apply fail_returns; reflexivity). erewrite bind_returns by exact HM. cbn [snd].
  rewrite pl_evidence0, eqs_refl. by erewrite bind_returns by (apply fail_returns; reflexivity).
Qed.

Lemma collect_free u registry : ts_maintenance u = false -> ts_run u = false ->
  Collect D RootID TaskID u registry (me_Predicate meta) d0 = (MkPublished (Some o) None None, d0).
Proof.
  intros Hm Hr. pose proof winner_free as HW. destruct W. unfold Collect. rewrite systemCall_free. unfold withCollection.
  assert (forall b, b = false -> returns (tryLock b) tt d0) as HL by (intros b ->; done). rewrite (HL _ Hm).
  assert (PredicateEqual (me_Predicate meta) (me_Predicate meta) = true) as HP by (unfold PredicateEqual; by rewrite !eqs_refl).
  unfold unlocking. erewrite bind_returns.
  2:{ unfold returns, collectCheck. erewrite bind_returns by apply preparedContext_free. cbn [pp_meta]. rewrite HP.
      erewrite bind_returns by (apply fail_returns; reflexivity). erewrite bind_returns by reflexivity. cbn [files]. by rewrite pl_outcome0. }
  rewrite (HL _ Hr). unfold asPublished, collectOwned. erewrite bind_returns by apply preparedContext_free. cbn [pp_meta pp_spec pp_metaHash].
  rewrite HP. erewrite bind_returns by (apply fail_returns; reflexivity). erewrite bind_try_returns by exact HW. done.
Qed.
End prepared.
End faultless.

(** ** A published directory *)
Definition demoRoot : string := "00000000000000000000000000000001".
Definition demoTask : string := "00000000000000000000000000000002".
Definition demoSHA : string := "0000000000000000000000000000000000000000000000000000000000000003".
Definition demoStamp : string := "2023-11-14T22:13:20Z".
Definition demoPredicate : PredicateRef := MkPredicateRef "fixture:test" "read-only" "1" demoSHA.
Definition demoConfig : TaskConfig := MkTaskConfig false "" "" "read-only" "1h0m0s" "" None.
Definition demoRequest (brief : string) : TaskRecord :=
  MkTaskRecord SchemaVersion demoRoot demoTask "fixture:test" "read-only" "/work" demoConfig 3600000000000 None
    (ComputeSHA256 brief) (len brief) None None.
Definition demoSupervisor : SupervisorRef :=
  MkSupervisorRef "/bin/pueue" "" "" "" "" "" "" "" "" "" "" "" "" "/run/pueue" "/etc/pueue.yml" demoSHA "1".
Definition demoMeta (reqData : string) : MetaRecord :=
  MkMeta SchemaVersion demoRoot demoTask (ComputeSHA256 reqData) demoConfig (MkEffectiveConfig "none" "none" demoSHA None)
    "none" "none" "/bin/fixture" "1" "" "" "" "build" "1" [] true demoPredicate demoSupervisor demoStamp [] "" [].
Definition demoOutcome (reqData metaData content stdout stderr : string) : OutcomeRecord :=
  MkOutcome SchemaVersion demoRoot demoTask (ComputeSHA256 reqData) (ComputeSHA256 metaData) VerdictCommitted
    (ComputeSHA256 (MarshalCanonical (jsonManifest (captureManifest stdout stderr)))) demoPredicate
    (descriptor "result.txt" content) [] [].

Definition noDecode {A} (_ : string) : A + decodeFailure := inr TrailingJSON.
Definition demoDecoders (brief reqData metaData content stdout stderr : string) : TaskDecoders :=
  MkTaskDecoders (fun _ => inl (demoRequest brief)) (fun _ => inl (demoMeta reqData)) noDecode noDecode noDecode noDecode noDecode
    (fun _ => inl (demoOutcome reqData metaData content stdout stderr)) noDecode noDecode noDecode.

Definition demoFiles (brief reqData metaData out content stdout stderr : string) : gmap string string :=
  list_to_map [("brief.md", brief); ("task.json", reqData); ("meta.json", metaData); ("outcome.json", out);
               ("result.txt", content); ("raw/stdout", stdout); ("raw/stderr", stderr)]%string.

(** Nobody holds a lock. *)
Definition demoSituation : taskSituation :=
  MkSituation false false false false (fun cwd => Ok cwd) demoStamp (Ok (MkEvidence None None None None [] None)) (Ok true).

Definition demoCollect : command := CollectOutcome demoSituation DefaultRegistry demoPredicate.

(** Digests are opaque in what follows: only their shape matters. *)
Lemma sha_valid data : ValidateSHA256 (ComputeSHA256 data) = Ok tt.
Proof. unfold ValidateSHA256. by rewrite ComputeSHA256_hex. Qed.

(** Skips a check that evaluates without its arguments. *)
Ltac passes := rewrite (proj2 (bind_Ok _ _ _)); [|eexists; split; [reflexivity|]].

Lemma demoRequest_with sha n : ValidateSHA256 sha = Ok tt -> 0 < n <= MaxBriefSize ->
  ValidateTaskRecord (Some (MkTaskRecord SchemaVersion demoRoot demoTask "fixture:test" "read-only" "/work" demoConfig 3600000000000
    None sha n None None)) = Ok tt.
Proof.
  intros H Hn. unfold ValidateTaskRecord. cbn [tk_SchemaVersion tk_RootID tk_TaskID tk_Workspace tk_Team tk_BriefSHA256 tk_BriefLength].
  do 5 (apply bind_Ok; exists tt; split; [reflexivity|]).
  apply bind_Ok. exists tt. split; [vm_compute; reflexivity|]. apply bind_Ok. exists tt. split; [by rewrite H|].
  apply fail_if_Ok, orb_false_iff. split; lia.
Qed.

Lemma demoMeta_with sha : ValidateSHA256 sha = Ok tt ->
  ValidateMetaRecord (Some (MkMeta SchemaVersion demoRoot demoTask sha demoConfig (MkEffectiveConfig "none" "none" demoSHA None)
    "none" "none" "/bin/fixture" "1" "" "" "" "build" "1" [] true demoPredicate demoSupervisor demoStamp [] "" [])) = Ok tt.
Proof.
  intros H. unfold ValidateMetaRecord. cbn [me_SchemaVersion me_RootID me_TaskID me_SpecSHA256 me_InputFiles me_OutputArtifacts me_OutputWriterContract].
  apply bind_Ok. exists tt. split; [reflexivity|]. apply bind_Ok. exists tt. split; [by rewrite H|].
  do 4 (apply bind_Ok; exists tt; split; [reflexivity|]). vm_compute. reflexivity.
Qed.

Lemma demoOutcome_with spec meta evidence payload n :
  ValidateSHA256 spec = Ok tt -> ValidateSHA256 meta = Ok tt -> ValidateSHA256 evidence = Ok tt -> ValidateSHA256 payload = Ok tt -> 0 < n ->
  ValidateOutcomeRecord (Some (MkOutcome SchemaVersion demoRoot demoTask spec meta VerdictCommitted evidence demoPredicate
    (MkPayload "result.txt" n payload) [] [])) = Ok tt.
Proof.
  intros H1 H2 H3 H4 Hn. unfold ValidateOutcomeRecord.
  cbn [oc_SchemaVersion oc_RootID oc_TaskID oc_SpecSHA256 oc_MetaSHA256 oc_Verdict oc_EvidenceSHA256 oc_Predicate oc_Usage oc_Diagnostics].
  apply bind_Ok. exists tt. split; [reflexivity|]. apply bind_Ok. exists tt. split; [by rewrite H1|]. apply bind_Ok. exists tt. split; [by rewrite H2|].
  apply bind_Ok. exists tt. split; [reflexivity|]. apply bind_Ok. exists tt. split; [by rewrite H3|].
  do 3 (apply bind_Ok; exists tt; split; [vm_compute; reflexivity|]).
  unfold validateOutcomePayload, ValidatePayloadDescriptor. cbn [oc_Payload py_Basename py_Length py_SHA256].
  destruct (Z.leb_spec n 0); [lia|]. by rewrite H4.
Qed.

Lemma demo_preparedIn fs brief reqData metaData content stdout stderr :
  0 < len brief <= MaxBriefSize -> len reqData <= MaxControlRecordSize -> len metaData <= MaxControlRecordSize ->
  fs !! "brief.md"%string = Some brief -> fs !! "task.json"%string = Some reqData -> fs !! "meta.json"%string = Some metaData ->
  fs !! "submit.json"%string = None -> fs !! "provider.start"%string = None ->
  preparedFiles (demoDecoders brief reqData metaData content stdout stderr) demoRoot demoTask fs (demoRequest brief) (demoMeta reqData)
    brief reqData metaData.
Proof.
  intros. split; try done; try lia.
  - by apply guards_absent.
  - unfold decodeTaskRequest. apply bind_Ok. exists (demoRequest brief). split; [done|]. apply bind_Ok. exists tt.
    split; [apply demoRequest_with; [apply sha_valid|done]|done].
  - apply demoMeta_with, sha_valid.
  - unfold matchPrepared, demoRequest, demoMeta. cbn [tk_RootID tk_TaskID me_RootID me_TaskID me_SpecSHA256 tk_BriefSHA256 tk_BriefLength fst snd].
    rewrite !eqs_refl, Z.eqb_refl. reflexivity.
Qed.

Section demo.
Context (brief reqData metaData out content stdout stderr : string).
Context (Hbrief : 0 < len brief <= MaxBriefSize) (Hreq : len reqData <= MaxControlRecordSize)
  (Hmeta : len metaData <= MaxControlRecordSize) (Hout : len out <= MaxControlRecordSize) (Hcontent : 0 < len content).

#[local] Abbreviation D0 := (demoDecoders brief reqData metaData content stdout stderr).
#[local] Abbreviation fs0 := (demoFiles brief reqData metaData out content stdout stderr).
#[local] Abbreviation o0 := (demoOutcome reqData metaData content stdout stderr).

Lemma demo_prepared : preparedFiles D0 demoRoot demoTask fs0 (demoRequest brief) (demoMeta reqData) brief reqData metaData.
Proof. by apply demo_preparedIn. Qed.

Lemma demo_files : publishedFiles D0 demoRoot demoTask fs0 (meta := demoMeta reqData) (reqData := reqData) (metaData := metaData)
  o0 out content stdout stderr.
Proof.
  split; try reflexivity; try done.
  apply demoOutcome_with; try apply sha_valid. done.
Qed.

(** Two callers collect the published outcome. *)
Lemma demo_history : history D0 demoRoot demoTask [(demoCollect, []); (demoCollect, [])] (MkWorld fs0 [] []) =
  ([Published o0; Published o0], MkWorld fs0 [] []).
Proof.
  assert (exec D0 demoRoot demoTask demoCollect [] (MkWorld fs0 [] []) = ([Published o0], MkWorld fs0 [] [])) as H.
  { unfold exec, demoCollect. pose proof (collect_free D0 demoRoot demoTask fs0 demo_prepared o0 out content stdout stderr demo_files demoSituation DefaultRegistry eq_refl eq_refl) as HC.
    cbn [wd_files]. change (me_Predicate (demoMeta reqData)) with demoPredicate in HC. by rewrite HC. }
  cbn [history]. by rewrite !H.
Qed.
End demo.

(** ** Encoded digests *)
Lemma hex_byte c : isHexLower c = true -> byte_of c < 128 /\ escapeRune (byte_of c, [c]) = [c].
Proof. destruct c as [[] [] [] [] [] [] [] []]; cbv; intros H; try discriminate H; split; reflexivity. Qed.

Lemma hex_runes l : forallb isHexLower l = true -> concat (map escapeRune (decodeRunes l)) = l.
Proof.
  induction l as [|c l IH]; cbn [forallb]; [done|]. intros [Hc Hl]%andb_true_iff. apply hex_byte in Hc as [H1 H2].
  cbn [decodeRunes]. destruct (Z.ltb_spec (byte_of c) 128); [|lia]. cbn [map concat]. by rewrite H2, IH.
Qed.

Lemma hex_string s n : hexText n s = true -> len (str (jsonString s)) = n + 2.
Proof.
  unfold hexText. intros [Hn%Z.eqb_eq Hs]%andb_true_iff. unfold jsonString, runes. rewrite hex_runes by done.
  unfold len in *. rewrite <- length_list_ascii in *. rewrite bytes_str. cbn. rewrite length_app. cbn. lia.
Qed.
