(* ===== verification/TaskHistoryTheorems.v ===== *)
(** * Authority over a task

    Across every history of a task directory the submission and the provider start are
    granted and used at most once, a refusal is final, and every published outcome is the
    same one. *)
From S2P Require Import Prelude GoErrors GoTime GoText TaskTypes Encoding GoPath GoTimestamp TaskLifetime LifetimeClosure ControlDir ControlLifetimeProps.
From S2P Require Import TaskConfiguration TaskRecords TaskReducer SchedRequest TaskRecordsJson TaskDir TaskDirOps TaskPublication TaskDirProps.
From S2P Require Import InteractionJournalProps TaskLaunchProps TaskHistory TaskFixture.
#[local] Open Scope Z_scope.
#[local] Open Scope tx_scope.

(** ** Counting events *)
Definition isSubmitted (e : event) : bool := match e with Submitted _ => true | _ => false end.
Definition isSpawned (e : event) : bool := match e with Spawned => true | _ => false end.
Definition isStarted (e : event) : bool := match e with Started _ => true | _ => false end.
Definition isLaunched (e : event) : bool := match e with Launched => true | _ => false end.

Definition count (p : event -> bool) (trace : list event) : nat := length (List.filter p trace).

Lemma count_app p l1 l2 : count p (l1 ++ l2) = (count p l1 + count p l2)%nat.
Proof. unfold count. by rewrite List.filter_app, length_app. Qed.

(** The grants that are still unused. *)
Definition unused (ls : list leaseState) : nat := length (List.filter (fun l => negb (le_consumed l)) ls).

Lemma unused_app l1 l2 : unused (l1 ++ l2) = (unused l1 + unused l2)%nat.
Proof. unfold unused. by rewrite List.filter_app, length_app. Qed.

Lemma unused_insert (ls : list leaseState) (i : nat) l l' : ls !! i = Some l ->
  (unused (<[i := l']> ls) + (if le_consumed l then 0 else 1) = unused ls + (if le_consumed l' then 0 else 1))%nat.
Proof.
  intros H. rewrite <- (take_drop_middle ls i l H) at 2. rewrite insert_take_drop by (by eapply lookup_lt_Some).
  rewrite !unused_app. unfold unused. cbn. destruct (le_consumed l), (le_consumed l'); cbn; lia.
Qed.

Lemma consume_Ok l l' : consume l = Ok l' -> le_consumed l = false /\ le_consumed l' = true.
Proof.
  unfold consume. intros ([] & _ & H)%bind_Ok. apply bind_Ok in H as ([] & H%fail_if_Ok & [= <-]). done.
Qed.

Section task.
Context (D : TaskDecoders) (RootID TaskID : string).

(** ** One command *)
Definition present (name : string) (w : world) : Prop := is_Some (wd_files w !! name).

(** What an event proves about the worlds around it. *)
Definition effect (w : world) (e : event) (w' : world) : Prop :=
  match e with
  | Submitted _ =>
      ~ present "submit.json" w /\ present "submit.json" w' /\ ~ refused D (wd_files w) /\
      wd_admissions w' = wd_admissions w ++ [newLease] /\ wd_runners w' = wd_runners w
  | Spawned =>
      (length (wd_admissions w') = length (wd_admissions w) /\ S (unused (wd_admissions w')) = unused (wd_admissions w))%nat /\
      wd_runners w' = wd_runners w
  | Started _ =>
      ~ present "provider.start" w /\ present "provider.start" w' /\ ~ refused D (wd_files w) /\
      wd_runners w' = wd_runners w ++ [newLease] /\ wd_admissions w' = wd_admissions w
  | Launched =>
      (length (wd_runners w') = length (wd_runners w) /\ S (unused (wd_runners w')) = unused (wd_runners w))%nat /\
      wd_admissions w' = wd_admissions w
  | Stopped r =>
      (exists name, wd_files w' !! stopName name stopRequestSuffix = Some (MarshalCanonical (jsonStopRequest r))) /\
      wd_runners w' = wd_runners w /\ wd_admissions w' = wd_admissions w
  | Refused _ =>
      ~ present "provider.start" w /\ refused D (wd_files w') /\ wd_runners w' = wd_runners w /\ wd_admissions w' = wd_admissions w
  | Published o => publishedIn D (wd_files w') o /\ wd_runners w' = wd_runners w /\ wd_admissions w' = wd_admissions w
  end.

(** A step without an event: leases change only in what their operations own. *)
Definition silent (w w' : world) : Prop :=
  le_consumed <$> wd_admissions w' = le_consumed <$> wd_admissions w /\ le_consumed <$> wd_runners w' = le_consumed <$> wd_runners w.

Definition effects (w : world) (es : list event) (w' : world) : Prop :=
  keeps (wd_files w) (wd_files w') /\ (es = [] /\ silent w w' \/ exists e, es = [e] /\ effect w e w').

Lemma unused_consumed ls ls' : le_consumed <$> ls' = le_consumed <$> ls -> unused ls' = unused ls /\ length ls' = length ls.
Proof.
  revert ls'. induction ls as [|l ls IH]; intros [|l' ls']; cbn; try done. intros [= Hc H]. apply IH in H as [H1 H2].
  unfold unused in *. cbn. rewrite Hc. destruct (le_consumed l); cbn; lia.
Qed.

Lemma consumed_insert (ls : list leaseState) (i : nat) l l' : ls !! i = Some l -> le_consumed l' = le_consumed l ->
  le_consumed <$> <[i := l']> ls = le_consumed <$> ls.
Proof. intros H Hc. rewrite list_fmap_insert, Hc. apply list_insert_id. by rewrite list_lookup_fmap, H. Qed.

Lemma release_consumed l d : le_consumed (release l d).1.2 = le_consumed l.
Proof.
  unfold release. destruct (le_released l); [done|]. destruct (negb _); [done|]. destruct (unlock d) as [a d1]. by destruct (unlock d1).
Qed.

Lemma quiet_effects {A} (m : Tx A) flts w es w' : growing m -> quiet m flts w = (es, w') -> effects w es w'.
Proof. intros H [= <- <-]. split; [apply keeps_extends; exact (H (MkDisk (wd_files w) flts))|]. left. by repeat split. Qed.

Lemma silent_effects w fs : wd_files w ⊆ fs -> effects w [] (MkWorld fs (wd_admissions w) (wd_runners w)).
Proof. intros H. split; [by apply keeps_extends|]. left. by repeat split. Qed.

Lemma runner_effects i w (f : leaseState -> list event * world) es w' : withRunner i w f = (es, w') ->
  (forall l, wd_runners w !! i = Some l -> f l = (es, w') -> effects w es w') -> effects w es w'.
Proof.
  unfold withRunner. intros H Hf. destruct (wd_runners w !! i) as [l|] eqn:E; [by eapply Hf|].
  injection H as <- <-. destruct w as [fs a r]. by apply (silent_effects (MkWorld fs a r)).
Qed.

Lemma setRunner_effects w i l l' fs : wd_runners w !! i = Some l -> le_consumed l' = le_consumed l -> wd_files w ⊆ fs ->
  effects w [] (setRunner w i l' fs).
Proof. intros Hl Hc Hf. split; [by apply keeps_extends|]. left. split; [done|]. split; [done|]. by eapply consumed_insert. Qed.

Lemma published_effects (m : disk -> published * disk) flts w es w' : publishes D m ->
  (let '(p, d') := m (MkDisk (wd_files w) flts) in (outcomeEvent p, MkWorld (files d') (wd_admissions w) (wd_runners w))) = (es, w') ->
  effects w es w'.
Proof.
  intros Hm. destruct (m _) as [p d'] eqn:E. apply Hm in E as [Hg Hp]. intros [= <- <-]. cbn in Hg. split; [by apply keeps_extends|].
  unfold outcomeEvent. destruct (pb_Outcome p) as [o|], (pb_Err p) as [e|]; try by (left; repeat split). right. exists (Published o).
  split; [done|]. split; [by apply Hp|done].
Qed.

Lemma spawn_effects w i l l' : wd_admissions w !! i = Some l -> consume l = Ok l' ->
  effects w [Spawned] (MkWorld (wd_files w) (<[i := l']> (wd_admissions w)) (wd_runners w)).
Proof.
  intros Hl [H1 H2]%consume_Ok. split; [done|]. right. exists Spawned. split; [done|]. split; [|done]. cbn [setRunner wd_admissions wd_runners].
  pose proof (unused_insert _ _ _ l' Hl) as Hu. rewrite H1, H2 in Hu. rewrite length_insert. lia.
Qed.

Lemma launch_effects w i l l' : wd_runners w !! i = Some l -> consume l = Ok l' -> effects w [Launched] (setRunner w i l' (wd_files w)).
Proof.
  intros Hl [H1 H2]%consume_Ok. split; [done|]. right. exists Launched. split; [done|]. split; [|done]. cbn [setRunner wd_admissions wd_runners].
  pose proof (unused_insert _ _ _ l' Hl) as Hu. rewrite H1, H2 in Hu. rewrite length_insert. lia.
Qed.

Lemma seal_consumed l u i c e p r d : le_consumed (Seal D RootID TaskID l u i c e p r d).1.2 = le_consumed l.
Proof.
  unfold Seal. destruct (sealCandidate _ _ _ _ _ _ _ _ _ _ d) as [[[s|s]|err] d1]; [destruct (acknowledgeRecord _ d1)|destruct (commitRecord _ _ d1)|]; done.
Qed.

Lemma refusal_effects m flts w es w' : growing m ->
  (forall d digest d', m d = (Ok (Some digest), d') -> files d !! "provider.start"%string = None /\ refused D (files d')) ->
  (let '(r, d') := m (MkDisk (wd_files w) flts) in
   (match r with Ok (Some digest) => [Refused digest] | _ => [] end, MkWorld (files d') (wd_admissions w) (wd_runners w))) = (es, w') ->
  effects w es w'.
Proof.
  intros Hg Hm. destruct (m _) as [r d'] eqn:E. pose proof (growing_files _ _ _ _ Hg E) as Hf. cbn in Hf. intros [= <- <-].
  destruct r as [[digest|]|e]; [|by apply silent_effects..]. split; [by apply keeps_extends|]. right. exists (Refused digest). split; [done|].
  apply Hm in E as [H1 H2]. unfold effect, present. cbn in *. rewrite H1. by split_and!.
Qed.

Lemma exec_effects c flts w es w' : exec D RootID TaskID c flts w = (es, w') -> effects w es w'.
Proof.
  destruct c; cbn [exec]; cbv zeta; intros H.
  - eapply quiet_effects; [|exact H]. apply growing_prepareSet.
  - destruct (PrepareSubmission _ _ _ _ _ _) as [[r|e] d'] eqn:E; pose proof (growing_files _ _ _ _ (growing_submission _ _ _ _ _) E) as Hf;
      injection H as <- <-; [|by apply silent_effects]. split; [by apply keeps_extends|]. right. exists (Submitted r). split; [done|].
    apply submission_Ok in E as (H1 & H2 & H3). unfold effect, present. cbn in *. rewrite H1. by split_and!.
  - destruct (wd_admissions w !! i) as [l|] eqn:El; cbn in H; [|injection H as <- <-; destruct w as [fs a r]; by apply (silent_effects (MkWorld fs a r))].
    destruct (consume l) as [l'|e] eqn:Ec; cbn in H; injection H as <- <-; [by eapply spawn_effects|].
    destruct w as [fs a r]. by apply (silent_effects (MkWorld fs a r)).
  - destruct (wd_admissions w !! i) as [l|] eqn:El; injection H as <- <-; [|destruct w as [fs a r]; by apply (silent_effects (MkWorld fs a r))].
    split; [done|]. left. split; [done|]. split; [|done]. eapply consumed_insert; [exact El|apply release_consumed].
  - destruct (PrepareStart _ _ _ _ _ _) as [[r|e] d'] eqn:E; pose proof (growing_files _ _ _ _ (growing_start _ _ _ _ _) E) as Hf;
      injection H as <- <-; [|by apply silent_effects]. split; [by apply keeps_extends|]. right. exists (Started r). split; [done|].
    apply start_Ok in E as (H1 & H2 & H3). unfold effect, present. cbn in *. rewrite H1. by split_and!.
  - eapply runner_effects; [exact H|]. intros l Hl Hc. cbv beta in Hc. destruct (consume l) as [l'|e] eqn:Ec; injection Hc as <- <-; [by eapply launch_effects|].
    destruct w as [fs a r]. by apply (silent_effects (MkWorld fs a r)).
  - eapply runner_effects; [exact H|]. intros l Hl [= <- <-]. eapply setRunner_effects; [exact Hl|apply release_consumed|done].
  - eapply runner_effects; [exact H|]. intros l Hl [= <- <-]. by eapply setRunner_effects.
  - eapply quiet_effects; [|exact H]. apply growing_receipt.
  - eapply runner_effects; [exact H|]. intros l _. apply quiet_effects, growing_started.
  - eapply runner_effects; [exact H|]. intros l _. apply quiet_effects, growing_identity.
  - eapply runner_effects; [exact H|]. intros l Hl. cbv beta.
    pose proof (grows_seal D RootID TaskID l u invocation exitCode exitErr predicate identity (MkDisk (wd_files w) flts)) as Hg.
    pose proof (seal_consumed l u invocation exitCode exitErr predicate identity (MkDisk (wd_files w) flts)) as Hc.
    destruct (Seal _ _ _ _ _ _ _ _ _ _ _) as [[s l'] d']. intros [= <- <-]. by eapply setRunner_effects.
  - destruct (PrepareStop _ _ _ _ _ _ _ _) as [[r|e] d'] eqn:E; pose proof (growing_files _ _ _ _ (growing_stop _ _ _ _ _ _ _) E) as Hf;
      injection H as <- <-; [|by apply silent_effects]. split; [by apply keeps_extends|]. right. exists (Stopped r). split; [done|].
    apply stop_Ok in E. done.
  - eapply quiet_effects; [|exact H]. apply growing_reply.
  - eapply quiet_effects; [|exact H]. apply growing_observation.
  - eapply refusal_effects; [| |exact H]; [apply growing_fence|]. intros d digest d' Hd. by eapply fence_Ok.
  - eapply refusal_effects; [| |exact H]; [apply growing_prove|]. intros d digest d' Hd. by eapply prove_Ok.
  - eapply published_effects; [|exact H]. apply collect_publishes.
  - eapply runner_effects; [exact H|]. intros l _. apply published_effects, finalize_publishes.
  - injection H as <- <-. split; [apply keeps_elsewhere|]. left. by repeat split.
Qed.

(** ** Histories *)
#[local] Abbreviation hist := (history D RootID TaskID).

Lemma history_ind (P : world -> list event -> world -> Prop) :
  (forall w, P w [] w) ->
  (forall w es w1 trace w2, effects w es w1 -> P w1 trace w2 -> P w (es ++ trace) w2) ->
  forall cs w trace w', hist cs w = (trace, w') -> P w trace w'.
Proof.
  intros H0 H1 cs. induction cs as [|[c flts] cs IH]; intros w trace w'; cbn [history]; [by intros [= <- <-]|].
  destruct (exec D RootID TaskID c flts w) as [es w1] eqn:E. destruct (hist cs w1) as [later w2] eqn:EH. intros [= <- <-].
  eapply H1; [by eapply exec_effects|by apply IH].
Qed.

(** An event of a history splits it into the histories before and after its step. *)
Lemma history_split cs w trace w' before e after : hist cs w = (trace, w') -> trace = before ++ e :: after ->
  exists cs1 cs2 w1 w2, hist cs1 w = (before, w1) /\ effect w1 e w2 /\ keeps (wd_files w1) (wd_files w2) /\ hist cs2 w2 = (after, w').
Proof.
  revert w trace before. induction cs as [|[c flts] cs IH]; intros w trace before; cbn [history]; [by intros [= <- <-] ?; destruct before|].
  destruct (exec D RootID TaskID c flts w) as [es w1] eqn:E. destruct (hist cs w1) as [later w2] eqn:EH. intros [= <- <-] Ht.
  pose proof (exec_effects _ _ _ _ _ E) as [Hk [[-> Hs]|(e' & -> & He)]].
  - destruct (IH _ _ _ EH Ht) as (cs1 & cs2 & w3 & w4 & H1 & H2). exists ((c, flts) :: cs1), cs2, w3, w4.
    split; [|done]. cbn [history]. by rewrite E, H1.
  - destruct before as [|b before]; cbn in Ht; injection Ht as -> Ht.
    + exists [], cs, w, w1. subst. done.
    + destruct (IH _ _ _ EH Ht) as (cs1 & cs2 & w3 & w4 & H1 & H2). exists ((c, flts) :: cs1), cs2, w3, w4.
      split; [|done]. cbn [history]. by rewrite E, H1.
Qed.

Lemma history_keeps cs w trace w' : hist cs w = (trace, w') -> keeps (wd_files w) (wd_files w').
Proof. revert cs w trace w'. apply history_ind; [done|]. intros w es w1 trace w2 [Hk _] H. by etransitivity. Qed.

(** The grants a history adds. *)
Lemma history_leases cs w trace w' : hist cs w = (trace, w') ->
  (length (wd_admissions w') = length (wd_admissions w) + count isSubmitted trace /\
   unused (wd_admissions w') + count isSpawned trace = unused (wd_admissions w) + count isSubmitted trace /\
   length (wd_runners w') = length (wd_runners w) + count isStarted trace /\
   unused (wd_runners w') + count isLaunched trace = unused (wd_runners w) + count isStarted trace)%nat.
Proof.
  revert cs w trace w'. apply history_ind; [intros w; unfold count; cbn; lia|].
  intros w es w1 trace w2 [_ He] IH. rewrite !count_app. destruct He as [[-> [[H1 H2]%unused_consumed [H3 H4]%unused_consumed]]|(e & -> & He)].
  - unfold count at 1 3 5 7 9 11. cbn [List.filter length]. lia.
  - unfold count at 1 3 5 7 9 11. destruct e; cbn in He; cbn [List.filter length isSubmitted isSpawned isStarted isLaunched].
    + destruct He as (_ & _ & _ & Ha & Hr). rewrite Ha, Hr, unused_app, length_app in IH. cbn in IH. unfold unused in *. lia.
    + destruct He as [[H1 H2] Hr]. rewrite Hr in IH. lia.
    + destruct He as (_ & _ & _ & Hr & Ha). rewrite Ha, Hr, unused_app, length_app in IH. cbn in IH. unfold unused in *. lia.
    + destruct He as [[H1 H2] Hr]. rewrite Hr in IH. lia.
    + destruct He as (_ & Hr & Ha). rewrite Ha, Hr in IH. lia.
    + destruct He as (_ & _ & Hr & Ha). rewrite Ha, Hr in IH. lia.
    + destruct He as (_ & Hr & Ha). rewrite Ha, Hr in IH. lia.
Qed.

Lemma present_keeps name w w' : isControl name = true -> keeps (wd_files w) (wd_files w') -> present name w -> present name w'.
Proof. intros Hn Hk. by apply keeps_some. Qed.

(** A directory with a submission or a start grants no other one. *)
Lemma grants_end cs w trace w' : hist cs w = (trace, w') ->
  (present "submit.json" w -> count isSubmitted trace = 0%nat) /\ (present "provider.start" w -> count isStarted trace = 0%nat).
Proof.
  revert cs w trace w'. apply history_ind; [done|].
  intros w es w1 trace w2 [Hk He] [IHs IHp]. split; intros Hp; (eapply present_keeps in Hp as Hp1; [|reflexivity|exact Hk]); rewrite count_app.
  - rewrite (IHs Hp1), Nat.add_0_r. destruct He as [[-> _]|(e & -> & He)]; [done|]. by destruct e; cbn in He; try (destruct He as [He _]).
  - rewrite (IHp Hp1), Nat.add_0_r. destruct He as [[-> _]|(e & -> & He)]; [done|]. by destruct e; cbn in He; try (destruct He as [He _]).
Qed.

Lemma granted_once cs w trace w' : hist cs w = (trace, w') -> (count isSubmitted trace <= 1 /\ count isStarted trace <= 1)%nat.
Proof.
  revert w trace w'. induction cs as [|[c flts] cs IH]; intros w trace w'; cbn [history]; [intros [= <- <-]; cbn; lia|].
  destruct (exec D RootID TaskID c flts w) as [es w1] eqn:E. destruct (hist cs w1) as [later w2] eqn:EH. intros [= <- <-].
  pose proof (IH _ _ _ EH) as [IH1 IH2]. pose proof (grants_end _ _ _ _ EH) as [G1 G2]. rewrite !count_app.
  apply exec_effects in E as [_ [[-> _]|(e & -> & He)]]; [unfold count at 1 3; cbn [List.filter length]; lia|].
  unfold count at 1 3. destruct e; cbn in He; cbn [List.filter length isSubmitted isStarted]; try lia.
  - destruct He as (_ & Hp & _). rewrite (G1 Hp). lia.
  - destruct He as (_ & Hp & _). rewrite (G2 Hp). lia.
Qed.

Lemma count_elem p (trace : list event) : (0 < count p trace)%nat -> exists e, e ∈ trace /\ p e = true.
Proof.
  unfold count. destruct (List.filter p trace) as [|e l] eqn:E; cbn; [lia|]. intros _. exists e.
  assert (In e (List.filter p trace)) as [H1 H2]%filter_In by (rewrite E; by left). by rewrite list_elem_of_In.
Qed.

(** ** Properties *)
(** C11: in every history of a task directory that no grant preceded, whatever the
    processes do and however the file system fails, at most one submission and one start
    are granted and at most one of each is used; a use is preceded by its grant. *)
Theorem provider_launched_once cs fs :
  let trace := fst (history D RootID TaskID cs (MkWorld fs [] [])) in
  (count isSubmitted trace <= 1 /\ count isSpawned trace <= 1 /\ count isStarted trace <= 1 /\ count isLaunched trace <= 1)%nat /\
  (forall before after, trace = before ++ Spawned :: after -> exists r, Submitted r ∈ before) /\
  (forall before after, trace = before ++ Launched :: after -> exists r, Started r ∈ before).
Proof.
  cbv zeta. destruct (history D RootID TaskID cs _) as [trace w] eqn:E. cbn [fst].
  pose proof (granted_once _ _ _ _ E) as [H1 H2]. pose proof (history_leases _ _ _ _ E) as (_ & H3 & _ & H4). cbn in H3, H4. split; [lia|].
  split; intros before after Ht; destruct (history_split _ _ _ _ _ _ _ E Ht) as (cs1 & cs2 & w1 & w2 & HB & He & _);
    pose proof (history_leases _ _ _ _ HB) as (_ & H5 & _ & H6); cbn in H5, H6; destruct He as [[_ He] _].
  - destruct (count_elem isSubmitted before) as (e & Hin & Hp); [lia|]. destruct e; try done. eauto.
  - destruct (count_elem isStarted before) as (e & Hin & Hp); [lia|]. destruct e; try done. eauto.
Qed.

Lemma refused_grants_nothing cs w trace w' : hist cs w = (trace, w') -> refused D (wd_files w) ->
  forall e, e ∈ trace -> isSubmitted e = false /\ isStarted e = false.
Proof.
  revert cs w trace w'. apply (history_ind (fun w trace _ => refused D (wd_files w) -> forall e, e ∈ trace -> isSubmitted e = false /\ isStarted e = false));
    [by intros w _ e ?%not_elem_of_nil|].
  intros w es w1 trace w2 [Hk He] IH Hr e [Hin|Hin]%elem_of_app; [|apply IH; [by eapply keeps_refused|done]].
  destruct He as [[-> _]|(e' & -> & He)]; [by apply not_elem_of_nil in Hin|]. apply list_elem_of_singleton in Hin as ->.
  destruct e'; cbn in He; try done; by destruct He as (_ & _ & He & _).
Qed.

(** The events after which nothing may be launched. *)
Definition final (e : event) : Prop :=
  match e with
  | Refused _ | Published _ => True
  | Stopped r =>
      PermanentLaunchRefusalCause (sq_Cause r) = true /\ dec_StopRequest D (MarshalCanonical (jsonStopRequest r)) = inl r
  | _ => False
  end.

(** C12: once a task is proven refused, published, or stopped with a permanent cause whose
    request decodes as it was written, no submission and no start is granted by any call
    that begins later; and a proof of refusal is given only for a task that was never
    started. *)
Theorem refusal_is_final cs fs before e after :
  fst (history D RootID TaskID cs (MkWorld fs [] [])) = before ++ e :: after -> final e ->
  (forall e', e' ∈ after -> isSubmitted e' = false /\ isStarted e' = false) /\
  (forall digest, e = Refused digest -> forall e', e' ∈ before -> isStarted e' = false /\ isLaunched e' = false).
Proof.
  destruct (history D RootID TaskID cs _) as [trace w] eqn:E. cbn [fst]. intros Ht Hf.
  destruct (history_split _ _ _ _ _ _ _ E Ht) as (cs1 & cs2 & w1 & w2 & HB & He & _ & HA). split.
  - eapply refused_grants_nothing; [exact HA|]. destruct e; try done; cbn in He, Hf.
    + destruct He as [[name He] _], Hf as [Hf Hd]. right. exists name, (MarshalCanonical (jsonStopRequest r)). split; [done|].
      intros r' Hr'. rewrite Hd in Hr'. by injection Hr' as <-.
    + by destruct He as (_ & He & _).
    + destruct He as [[(data & Hd & _) _] _]. left. eauto.
  - intros digest -> e' Hin. destruct He as [Hn _]. pose proof (history_leases _ _ _ _ HB) as (_ & _ & _ & HL). cbn in HL.
    assert (count isStarted before = 0%nat) as H0.
    { destruct (count isStarted before) eqn:EC; [done|]. destruct Hn. destruct (count_elem isStarted before) as (s & Hs & Hp); [lia|].
      apply list_elem_of_split in Hs as (b & a & Hs). destruct (history_split _ _ _ _ _ _ _ HB Hs) as (cs3 & cs4 & w3 & w4 & _ & Hx & _ & HA').
      apply history_keeps in HA'. destruct s; try done. destruct Hx as (_ & Hx & _). by eapply present_keeps. }
    assert (forall p, count p before = 0%nat -> p e' = false) as Hc.
    { intros p Hp. destruct (p e') eqn:Ep; [|done]. unfold count in Hp. assert (In e' (List.filter p before)) as Hi by (apply filter_In; by rewrite <- list_elem_of_In).
      by destruct (List.filter p before). }
    split; apply Hc; lia.
Qed.

(** C13: every outcome that any caller of a history is given is the same outcome; the
    directory holds it, and its payload has the recorded digest and length.  The decoder
    reads back the outcomes as they were written. *)
Theorem outcomes_agree cs fs o o' :
  let '(trace, w) := history D RootID TaskID cs (MkWorld fs [] []) in
  (forall x, Published x ∈ trace -> dec_Outcome D (MarshalCanonical (jsonOutcome x)) = inl x) ->
  Published o ∈ trace -> Published o' ∈ trace ->
  o' = o /\ exists data content, wd_files w !! "outcome.json"%string = Some data /\ dec_Outcome D data = inl o /\
    wd_files w !! py_Basename (oc_Payload o) = Some content /\ py_SHA256 (oc_Payload o) = ComputeSHA256 content /\
    py_Length (oc_Payload o) = len content.
Proof.
  destruct (history D RootID TaskID cs _) as [trace w] eqn:E. intros Hdec Ho Ho'.
  assert (forall x, Published x ∈ trace -> publishedIn D (wd_files w) x) as Hp.
  { intros x (b & a & Hs)%list_elem_of_split. destruct (history_split _ _ _ _ _ _ _ E Hs) as (cs1 & cs2 & w1 & w2 & _ & [Hx _] & _ & HA).
    apply history_keeps in HA. by eapply keeps_published. }
  assert (forall x, Published x ∈ trace -> exists data, wd_files w !! "outcome.json"%string = Some data /\ dec_Outcome D data = inl x) as Hd.
  { intros x Hx. destruct (Hp x Hx) as [(data & Hd & [H| ->]) _]; [by exists data|]. eexists. split; [exact Hd|by apply Hdec]. }
  destruct (Hd o Ho) as (data & H1 & H2), (Hd o' Ho') as (data' & H1' & H2'). split; [congruence|].
  destruct (Hp o Ho) as [_ (content & Hc & _ & Hs & Hl)]. exists data, content. done.
Qed.
End task.

(** ** Witnesses *)
(** Two callers collect one published outcome. *)
Definition demoD : TaskDecoders := demoDecoders "brief" "request" "meta" "result" "" "".
Definition demoFs : gmap string string := demoFiles "brief" "request" "meta" "outcome" "result" "" "".
Definition demoO : OutcomeRecord := demoOutcome "request" "meta" "result" "" "".
Definition demoTrace : list (command * list fault) := [(demoCollect, []); (demoCollect, [])].

Lemma demo_run : history demoD demoRoot demoTask demoTrace (MkWorld demoFs [] []) = ([Published demoO; Published demoO], MkWorld demoFs [] []).
Proof.
  assert (len "brief" = 5 /\ len "request" = 7 /\ len "meta" = 4 /\ len "outcome" = 7 /\ len "result" = 6) as (H1 & H2 & H3 & H4 & H5) by done.
  unfold demoD, demoFs, demoO, demoTrace, MaxBriefSize, MaxControlRecordSize in *. apply demo_history; unfold MaxBriefSize, MaxControlRecordSize; lia.
Qed.

Lemma refusal_is_final_witness :
  fst (history demoD demoRoot demoTask demoTrace (MkWorld demoFs [] [])) = [] ++ Published demoO :: [Published demoO] /\
  forall e', e' ∈ [Published demoO] -> isSubmitted e' = false /\ isStarted e' = false.
Proof.
  split; [by rewrite demo_run|].
  apply (refusal_is_final demoD demoRoot demoTask demoTrace demoFs [] (Published demoO) [Published demoO]); [by rewrite demo_run|exact I].
Defined.

Lemma outcomes_agree_witness :
  history demoD demoRoot demoTask demoTrace (MkWorld demoFs [] []) = ([Published demoO; Published demoO], MkWorld demoFs [] []) /\
  exists data content, demoFs !! "outcome.json"%string = Some data /\ dec_Outcome demoD data = inl demoO /\
    demoFs !! "result.txt"%string = Some content /\ py_SHA256 (oc_Payload demoO) = ComputeSHA256 content /\
    py_Length (oc_Payload demoO) = len content.
Proof.
  split; [exact demo_run|]. pose proof (outcomes_agree demoD demoRoot demoTask demoTrace demoFs demoO demoO) as H. rewrite demo_run in H.
  apply H; [intros x Hx|apply list_elem_of_here|apply list_elem_of_here].
  assert (x = demoO) as ->; [|reflexivity]. apply elem_of_cons in Hx as [Hx|Hx%list_elem_of_singleton]; by injection Hx.
Defined.

(** ** The grant of a start

    What [PrepareStart] does when no call fails: an admitted task gets its two empty
    captures and its start record, and the caller one permit. *)
Section task.
Context (D : TaskDecoders) (RootID TaskID : string).

Lemma stage_free fs name data : fs !! name = None ->
  stageRecord name data (MkDisk fs []) = (Ok tt, MkDisk (<[name := data]> fs) []).
Proof. intros H. unfold stageRecord, txBind, stageReader, nextFault. cbn. by rewrite H. Qed.

Lemma rawFile_free fs name : fs !! rawPath name = None ->
  initializeRawFile name (MkDisk fs []) = (Ok tt, MkDisk (<[rawPath name := ""%string]> fs) []).
Proof. intros H. unfold initializeRawFile, txBind. cbn -[rawPath]. by rewrite H. Qed.

Lemma raw_free fs : fs !! "raw/stdout"%string = None -> fs !! "raw/stderr"%string = None ->
  initializeRaw (MkDisk fs []) = (Ok tt, MkDisk (<["raw/stderr" := ""]> (<["raw/stdout" := ""]> fs))%string []).
Proof.
  intros H1 H2. unfold initializeRaw. erewrite bind_returns by apply systemCall_free.
  rewrite (bind_Ok_eq _ _ _ _ _ (rawFile_free fs "stdout" H1)).
  assert (<[rawPath "stdout" := ""%string]> fs !! rawPath "stderr" = None) as H3 by (rewrite lookup_insert_ne; done).
  by rewrite (bind_Ok_eq _ _ _ _ _ (rawFile_free _ "stderr" H3)).
Qed.

(** The record of a start granted now. *)
Definition startOf (u : taskSituation) (p : prepared) : ProviderStartRecord :=
  MkStart SchemaVersion RootID TaskID (pp_spec p) (pp_metaHash p) (tk_BudgetNanos (pp_req p)) (ts_timestamp u).

(** without faults and with both locks free, a start of a prepared task that nothing
    refuses and nothing started, sealed or published is granted: the captures are created
    empty, the start record binds the request, its plan and its budget, and nothing else
    changes. *)
Theorem start_granted fs u p :
  returns (loadAndValidatePreparedSet D RootID TaskID) p (MkDisk fs []) ->
  returns (permanentLaunchRefusal D RootID TaskID) None (MkDisk fs []) ->
  (forall name, name ∈ ["provider.start"; "provider.exit"; "outcome.json"; "raw/stdout"; "raw/stderr"]%string -> fs !! name = None) ->
  ts_maintenance u = false -> ts_run u = false ->
  validateExecutionDirectories (ts_directories u) (pp_req p) = Ok tt ->
  ValidateProviderStartRecord (Some (startOf u p)) = Ok tt ->
  len (MarshalCanonical (jsonStart (startOf u p))) <= MaxControlRecordSize ->
  PrepareStart D RootID TaskID u 0 (MkDisk fs []) =
    (Ok (startOf u p),
     MkDisk (<["provider.start" := MarshalCanonical (jsonStart (startOf u p))]> (<["raw/stderr" := ""]> (<["raw/stdout" := ""]> fs)))%string []).
Proof.
  intros HP HR Habs Hm Hr Hdir Hval Hlen. unfold PrepareStart. assert (forall b, b = false -> returns (tryLock b) tt (MkDisk fs [])) as HL by (by intros b ->).
  rewrite (bind_returns _ _ _ _ (HL _ Hm)). erewrite bind_returns.
  2:{ unfold returns, txOnFailure. by rewrite (bind_try_returns _ _ _ _ (HL _ Hr)). }
  enough (startBody D RootID TaskID u 0 (MkDisk fs []) = (Ok (startOf u p),
     MkDisk (<["provider.start" := MarshalCanonical (jsonStart (startOf u p))]> (<["raw/stderr" := ""]> (<["raw/stdout" := ""]> fs)))%string [])) as HB.
  { unfold txOnFailure. by rewrite (bind_try_eq _ _ _ _ _ HB). }
  assert (forall name, name ∈ ["provider.start"; "provider.exit"; "outcome.json"]%string -> returns (exists_ name) false (MkDisk fs [])) as HE.
  { intros name Hin. unfold returns, exists_. erewrite bind_returns by apply systemCall_free. cbn. rewrite Habs; [done|]. set_solver. }
  unfold startBody. rewrite (bind_returns _ _ _ _ HP). cbv zeta. cbn [Z.eqb].
  erewrite bind_returns by (apply fail_returns, negb_false_iff, Z.eqb_refl).
  do 3 (erewrite bind_returns by (apply HE; set_solver); erewrite bind_returns by (apply fail_returns; reflexivity)).
  erewrite bind_returns. 2:{ unfold returns, requireTaskLaunchPermission. by rewrite (bind_returns _ _ _ _ HR). }
  erewrite bind_returns by (by apply of_returns).
  erewrite bind_Ok_eq by (apply raw_free; apply Habs; set_solver).
  change (MkStart _ _ _ _ _ _ _) with (startOf u p). erewrite bind_returns by (by apply of_returns).
  erewrite bind_Ok_eq; [done|]. unfold commitRecord. erewrite bind_returns.
  2:{ apply of_returns. unfold marshalControlRecord. destruct (Z.ltb_spec MaxControlRecordSize (len (MarshalCanonical (jsonStart (startOf u p))))); [lia|done]. }
  apply stage_free. rewrite !lookup_insert_ne by done. apply Habs. set_solver.
Qed.
End task.

(** ** A start and its launch *)
Definition preparedFs (brief reqData metaData : string) : gmap string string :=
  list_to_map [("brief.md", brief); ("task.json", reqData); ("meta.json", metaData)]%string.

Lemma start_size spec meta stamp : hexText 64 spec = true -> hexText 64 meta = true -> stamp = demoStamp ->
  len (MarshalCanonical (jsonStart (MkStart SchemaVersion demoRoot demoTask spec meta 3600000000000 stamp))) <= MaxControlRecordSize.
Proof.
  intros H1 H2 ->. pose proof (hex_string _ _ H1) as S1. pose proof (hex_string _ _ H2) as S2.
  unfold MarshalCanonical, jsonStart, field, number. cbn [render map fst snd commaSep st_SchemaVersion st_RootID st_TaskID st_SpecSHA256 st_MetaSHA256
    st_BudgetNanos st_CreatedAt]. revert S1 S2. generalize (jsonString spec), (jsonString meta). intros a b S1 S2.
  unfold len, MaxControlRecordSize in *. rewrite <- length_list_ascii, bytes_str in *.
  repeat (progress (rewrite ?length_app; cbn [length])).
  repeat match goal with |- context [length (jsonString ?x)] => let v := eval vm_compute in (length (jsonString x)) in change (length (jsonString x)) with v end.
  repeat match goal with |- context [length (decimalText ?x)] => let v := eval vm_compute in (length (decimalText x)) in change (length (decimalText x)) with v end.
  lia.
Qed.

Section demo.
Context (brief reqData metaData : string).
Context (Hbrief : 0 < len brief <= MaxBriefSize) (Hreq : len reqData <= MaxControlRecordSize) (Hmeta : len metaData <= MaxControlRecordSize).
#[local] Abbreviation D0 := (demoDecoders brief reqData metaData "" "" "").
#[local] Abbreviation fs0 := (preparedFs brief reqData metaData).
#[local] Abbreviation p0 := (MkPrepared (demoRequest brief) (demoMeta reqData) (ComputeSHA256 reqData) (ComputeSHA256 metaData)).

Lemma prepared_demo : preparedFiles D0 demoRoot demoTask fs0 (demoRequest brief) (demoMeta reqData) brief reqData metaData.
Proof. by apply demo_preparedIn. Qed.

Lemma start_directories : validateExecutionDirectories (ts_directories demoSituation) (demoRequest brief) = Ok tt.
Proof.
  unfold validateExecutionDirectories. apply bind_Ok. exists (demoRequest brief). split; [|by rewrite bool_decide_eq_true_2].
  unfold NormalizeTaskRecord, demoRequest. generalize (ComputeSHA256 brief), (len brief). intros sha n. vm_compute. reflexivity.
Qed.

Lemma start_valid : ValidateProviderStartRecord (Some (startOf demoRoot demoTask demoSituation p0)) = Ok tt.
Proof.
  unfold ValidateProviderStartRecord. apply bind_Ok. exists tt. split; [reflexivity|].
  do 2 (apply bind_Ok; exists tt; split; [cbn [startOf st_SpecSHA256 st_MetaSHA256 pp_spec pp_metaHash]; by rewrite sha_valid|]).
  vm_compute. reflexivity.
Qed.
End demo.

(** A prepared task is started, and its permit launches the provider once. *)
Lemma start_granted_witness :
  let D := demoDecoders "brief" "request" "meta" "" "" "" in
  let p := MkPrepared (demoRequest "brief") (demoMeta "request") (ComputeSHA256 "request") (ComputeSHA256 "meta") in
  fst (PrepareStart D demoRoot demoTask demoSituation 0 (MkDisk (preparedFs "brief" "request" "meta") [])) =
    Ok (startOf demoRoot demoTask demoSituation p).
Proof.
  cbv zeta. assert (0 < len "brief" <= MaxBriefSize /\ len "request" <= MaxControlRecordSize /\ len "meta" <= MaxControlRecordSize) as (H1 & H2 & H3).
  { unfold MaxBriefSize, MaxControlRecordSize. change (len "brief") with 5. change (len "request") with 7. change (len "meta") with 4. lia. }
  pose proof (prepared_demo "brief" "request" "meta" H1 H2 H3) as P.
  rewrite (start_granted _ _ _ _ demoSituation _ (prepared_free _ _ _ _ P) (refusal_free _ _ _ _ P eq_refl eq_refl)).
  - exact eq_refl.
  - intros name Hin. by repeat (apply elem_of_cons in Hin as [->|Hin]; [reflexivity|]); apply not_elem_of_nil in Hin.
  - exact eq_refl.
  - exact eq_refl.
  - apply start_directories.
  - apply start_valid.
  - apply start_size; [apply ComputeSHA256_hex..|reflexivity].
Defined.
