(* ===== verification/TaskSessionTheorems.v ===== *)
(** * Sessions are exclusive

    In every history of one conversation's ledger at most one task holds it, and a task
    that released it never claims it again while its release is provable. *)
From S2P Require Import Prelude GoErrors GoTime GoText TaskTypes Encoding GoPath GoTimestamp TaskLifetime LifetimeClosure ControlDir ControlLifetimeProps.
From S2P Require Import TaskConfiguration TaskRecords TaskReducer SchedRequest TaskRecordsJson TaskDir TaskDirOps TaskPublication TaskDirProps.
From S2P Require Import InteractionJournalProps TaskLaunchProps TaskSession TaskSessionProps TaskFixture.
From Stdlib Require Import Ascii.
#[local] Open Scope Z_scope.
#[local] Open Scope tx_scope.

(** A task's request to the ledger, and what the rest of the system does to it: only
    claims and releases are the ledger's own. *)
Inductive sessionCommand : Type :=
| ClaimBy (TaskID : string) (u : sessionSituation)
| ReleaseBy (TaskID : string) (u : sessionSituation) (digest : string)
| SessionElsewhere (other : gmap string string).

Inductive sessionEvent : Set := Claimed (TaskID : string) | Released (TaskID : string).

Section session.
Context (D : SessionDecoders) (RootID provider conversation : string).

(** ** One command *)
Definition sessionExec (c : sessionCommand) (flts : list fault) (fs : gmap string string) : list sessionEvent * gmap string string :=
  match c with
  | ClaimBy id u =>
      let '(r, d) := ClaimSession D RootID id u provider conversation (MkDisk fs flts) in
      (if is_ok r then [Claimed id] else [], files d)
  | ReleaseBy id u digest =>
      let '(r, d) := ReleaseSession D RootID id u provider conversation digest (MkDisk fs flts) in
      (if is_ok r then [Released id] else [], files d)
  | SessionElsewhere other =>
      ([], filter (fun f => isLedger (fst f) = true) fs ∪ filter (fun f => isLedger (fst f) = false) other)
  end.

Fixpoint sessionHistory (cs : list (sessionCommand * list fault)) (fs : gmap string string) : list sessionEvent * gmap string string :=
  match cs with
  | [] => ([], fs)
  | (c, flts) :: rest =>
      let '(now, fs1) := sessionExec c flts fs in
      let '(later, fs2) := sessionHistory rest fs1 in
      (now ++ later, fs2)
  end.

Definition situationOf (c : sessionCommand) : option sessionSituation :=
  match c with ClaimBy _ u | ReleaseBy _ u _ => Some u | SessionElsewhere _ => None end.
Definition detachedAll (cs : list (sessionCommand * list fault)) : Prop :=
  forall c flts u, (c, flts) ∈ cs -> situationOf c = Some u -> detached u.

(** ** The lock *)
Lemma lock_not_ledger : isLedger sessionLockName = false.
Proof. done. Qed.

Definition sameLedger (fs fs' : gmap string string) : Prop := forall name, isLedger name = true -> fs' !! name = fs !! name.

Lemma openLock_same d : sameLedger (files d) (files (openSessionLock d).2).
Proof.
  unfold openSessionLock, txBind. pose proof (readonly_entries_ledger d) as H1. destruct (ledgerEntries d) as [[entries|e] d1]; cbn in H1; [|by rewrite <- H1].
  pose proof (readonly_systemCall d1) as H2. destruct (systemCall d1) as [[u|e] d2]; cbn in H2; rewrite <- H1, <- H2; [|done].
  case_bool_decide.
  - cbn. intros name Hn. rewrite lookup_insert_ne; [done|]. intros <-. by rewrite lock_not_ledger in Hn.
  - by destruct (files d2 !! sessionLockName).
Qed.
Lemma evolving_openLock : evolving openSessionLock.
Proof. intros d. apply evolves_sameLedger, openLock_same. Qed.

Lemma evolving_withSession u fn : evolving fn -> evolving (withSession u fn).
Proof.
  intros Hf. unfold withSession. apply evolving_bind; [apply evolving_readonly; auto with tx|intros _].
  apply evolving_bind; [apply evolving_readonly; auto with tx|intros _]. apply evolving_join; [|auto with tx].
  apply evolving_bind; [apply evolving_readonly; auto with tx|intros _]. apply evolving_bind; [apply evolving_openLock|intros _].
  apply evolving_join; [|auto with tx]. apply evolving_bind; [apply evolving_readonly; auto with tx|intros _].
  apply evolving_bind; [apply evolving_readonly; auto with tx|intros _]. exact Hf.
Qed.

(** A successful call ran its section on a ledger with the same records. *)
Lemma withSession_Ok u fn d r d' : withSession u fn d = (Ok r, d') ->
  exists d1 d2, sameLedger (files d) (files d1) /\ fn d1 = (Ok tt, d2) /\ files d' = files d2.
Proof.
  unfold withSession. intros ([] & d1 & H1%readonly_files & H)%txBind_Ok; [|auto with tx].
  apply txBind_Ok in H as ([] & d2 & H2%readonly_files & H); [|auto with tx]. apply txJoin_Ok in H as (d3 & H & H3%readonly_files); [|auto with tx].
  apply txBind_Ok in H as ([] & d4 & H4%readonly_files & H); [|auto with tx]. apply txBind_Ok in H as ([] & d5 & H5 & H).
  pose proof (openLock_same d4) as He. rewrite H5 in He. cbn in He. apply txJoin_Ok in H as (d6 & H & H6%readonly_files); [|auto with tx].
  apply txBind_Ok in H as ([] & d7 & H7%readonly_files & H); [|auto with tx]. apply txBind_Ok in H as ([] & d8 & (_ & -> & _)%txFail_Ok & H).
  destruct r. exists d7, d6. split; [|split; [done|congruence]]. by rewrite H7, <- H1, <- H2, <- H4.
Qed.

Section calls.
Context (TaskID : string) (u : sessionSituation) (Hu : detached u).

(** ** Claims *)
Lemma evolving_claimRecord rec : sc_Provider rec = provider -> sc_ConversationID rec = conversation ->
  evolving (claimSessionRecord D RootID TaskID u rec).
Proof.
  intros <- <-. unfold claimSessionRecord. cbv zeta. apply evolving_after; [by apply readonly_owner|]. intros d owner d1 (Hf & Ho & _)%owner_Ok; [|done].
  destruct (eqs owner TaskID); [by rewrite (readonly_systemCall d1)|]. destruct (eqs owner "") eqn:Ee; [|done]. apply eqs_true in Ee as ->. cbn [negb].
  assert (forall a, ~ unreleased (files d1) a) as Hno by (intros a Ha; rewrite Hf in Ha; apply Ho in Ha as [<- ?]; done).
  unfold txBind at 1, txTry. pose proof (readonly_readClaim D RootID TaskID (sc_Provider rec) (sc_ConversationID rec) d1) as HR.
  destruct (readClaim _ _ _ _ _ d1) as [[old|e] d2]; cbn in HR; rewrite <- HR in *.
  - apply evolving_bind; [by apply evolving_readonly, readonly_readRelease|]. by intros x d0.
  - unfold txBind, txFail, txOf. destruct (negb (errors_Is e fs_ErrNotExist)); cbn; [done|]. apply commit_evolves. intros data Hn. by apply evolves_claim.
Qed.

Lemma claimRecord_Ok rec d r d' : TaskID <> ""%string -> claimSessionRecord D RootID TaskID u rec d = (Ok r, d') ->
  is_Some (files d' !! claimName TaskID) /\ (forall a, unreleased (files d') a -> a = TaskID).
Proof.
  intros HT. unfold claimSessionRecord. cbv zeta. intros (owner & d1 & (Hf & Ho & Hown)%owner_Ok & H)%txBind_Ok; [|done].
  destruct (eqs owner TaskID) eqn:E1.
  - apply eqs_true in E1 as ->. apply readonly_files in H; [|auto with tx]. rewrite H, Hf. split; [|intros a Ha; by apply Ho in Ha as [<- _]].
    by destruct Hown as [->|[Hc _]].
  - destruct (eqs owner "") eqn:E2; [|done]. apply eqs_true in E2 as ->. cbn [negb] in H.
    apply txBind_Ok in H as (old & d2 & (old' & Hold & [= ->])%txTry_eq & H). apply readonly_files in Hold; [|apply readonly_readClaim].
    destruct old' as [claim|e]; [by apply txBind_Ok in H as (x & d3 & _ & H)|]. apply txBind_Ok in H as ([] & d3 & (_ & -> & _)%txFail_Ok & H).
    apply commitRecord_Ok in H as [_ H]. rewrite H, lookup_insert_eq. split; [eauto|]. intros a [Ha1 Ha2].
    destruct (decide (a = TaskID)) as [|Hne]; [done|]. exfalso.
    rewrite lookup_insert_ne in Ha1, Ha2; [|by apply claim_not_release|by intros ?%claimName_inj]. rewrite Hold, Hf in Ha1, Ha2.
    by destruct (Ho a (conj Ha1 Ha2)) as [<- ?].
Qed.

(** ** Releases *)
Lemma evolving_reconcile existing digest : evolving (reconcileSessionRelease TaskID u existing digest).
Proof. apply evolving_readonly. unfold reconcileSessionRelease. destruct Hu as [H1 H2]. auto 20 with tx. Qed.

Lemma evolving_releaseRecord rec : evolving (releaseSessionRecord D RootID TaskID u rec).
Proof.
  unfold releaseSessionRecord. apply evolving_bind; [apply evolving_readonly, readonly_readClaim|intros claim].
  apply evolving_bind; [by apply evolving_try, evolving_readonly, readonly_readRelease|intros [old|e]]; [apply evolving_reconcile|].
  apply evolving_bind; [apply evolving_readonly; auto with tx|intros _]. apply evolving_bind; [by apply evolving_readonly, readonly_owner|intros owner].
  apply evolving_bind; [apply evolving_readonly; auto with tx|intros _]. apply evolving_bind; [by apply evolving_readonly, Hu|intros _].
  intros d. apply commit_evolves. intros data Hn. by apply evolves_release.
Qed.

Lemma releaseRecord_Ok rec d r d' : releaseSessionRecord D RootID TaskID u rec d = (Ok r, d') ->
  is_Some (files d' !! claimName (sl_TaskID rec)) /\ is_Some (files d' !! releaseName (sl_TaskID rec)).
Proof.
  unfold releaseSessionRecord. intros (claim & d1 & (Hf & Hc & Hid & _)%readClaim_Ok & H)%txBind_Ok.
  apply txBind_Ok in H as (ex & d2 & (ex' & Hex & [= ->])%txTry_eq & H). pose proof Hex as Hf2. apply readonly_files in Hf2; [|by apply readonly_readRelease].
  destruct ex' as [old|e].
  - apply readRelease_Ok in Hex. pose proof (evolving_reconcile old (sl_PredecessorEvidenceSHA256 rec) d2) as [He _]. rewrite H in He. cbn in He.
    rewrite Hid in Hex. rewrite Hf2 in He. destruct Hc as [c Hc], Hex as [x Hex]. rewrite Hf in He, Hex.
    split; [exists c; apply He; [apply claim_ledger|done]|exists x; apply He; [apply release_ledger|done]].
  - apply txBind_Ok in H as ([] & d3 & (_ & -> & _)%txFail_Ok & H). apply txBind_Ok in H as (owner & d4 & (Hf4 & _)%owner_Ok & H); [|done].
    apply txBind_Ok in H as ([] & d5 & (_ & -> & _)%txFail_Ok & H). apply txBind_Ok in H as ([] & d6 & H6%readonly_files & H); [|apply Hu].
    apply commitRecord_Ok in H as [_ H]. rewrite H, lookup_insert_eq. split; [|eauto].
    rewrite lookup_insert_ne, H6, Hf4, Hf2, Hf; [done|]. intros E. symmetry in E. by apply claim_not_release in E.
Qed.

Lemma evolving_claim : evolving (ClaimSession D RootID TaskID u provider conversation).
Proof.
  unfold ClaimSession. apply evolving_bind; [apply evolving_readonly; auto with tx|intros _]. cbv zeta.
  apply evolving_bind; [apply evolving_readonly; auto with tx|intros _]. apply evolving_bind; [apply evolving_readonly; auto with tx|intros req].
  apply evolving_bind; [apply evolving_readonly; auto with tx|intros _]. by apply evolving_withSession, evolving_claimRecord.
Qed.
Lemma evolving_release digest : evolving (ReleaseSession D RootID TaskID u provider conversation digest).
Proof.
  unfold ReleaseSession. apply evolving_bind; [apply evolving_readonly; auto with tx|intros _]. cbv zeta.
  apply evolving_bind; [apply evolving_readonly; auto with tx|intros _]. by apply evolving_withSession, evolving_releaseRecord.
Qed.

(** The section a successful claim ran. *)
Lemma claim_section d r d' : ClaimSession D RootID TaskID u provider conversation d = (Ok r, d') -> exists rec d1 d2,
  TaskID <> ""%string /\ sameLedger (files d) (files d1) /\ claimSessionRecord D RootID TaskID u rec d1 = (Ok tt, d2) /\ files d' = files d2.
Proof.
  unfold ClaimSession. intros ([] & d1 & H1%readonly_files & H)%txBind_Ok; [|auto with tx]. cbv zeta in H.
  apply txBind_Ok in H as ([] & d2 & [HV ->]%txOf_Ok & H). apply txBind_Ok in H as (req & d3 & [_ ->]%txOf_Ok & H).
  apply txBind_Ok in H as ([] & d4 & (_ & -> & _)%txFail_Ok & H). apply withSession_Ok in H as (d5 & d6 & He & Hc & Hf).
  eexists _, d5, d6. split; [|split; [by rewrite <- H1|split; [exact Hc|done]]].
  unfold ValidateSessionClaimRecord, schemaAndIdentity in HV. apply bind_Ok in HV as ([] & HV & _). apply bind_Ok in HV as ([] & _ & HV).
  apply bind_Ok in HV as ([] & _ & HV). apply fail_if_Ok, negb_false_iff in HV. intros ->. done.
Qed.

Lemma claim_Ok d r d' : ClaimSession D RootID TaskID u provider conversation d = (Ok r, d') ->
  is_Some (files d' !! claimName TaskID) /\ (forall a, unreleased (files d') a -> a = TaskID).
Proof. intros (rec & d1 & d2 & HT & _ & H & Hf)%claim_section. rewrite Hf. by eapply claimRecord_Ok. Qed.

(** Before it, every unreleased claim is its own. *)
Lemma claim_before d r d' : ClaimSession D RootID TaskID u provider conversation d = (Ok r, d') ->
  forall a, unreleased (files d) a -> a = TaskID.
Proof.
  intros (rec & d1 & d2 & HT & Hk & H & _)%claim_section a Ha. unfold unreleased in Ha. rewrite <- !Hk in Ha by (apply claim_ledger || apply release_ledger).
  unfold claimSessionRecord in H. cbv zeta in H. apply txBind_Ok in H as (owner & d3 & (_ & Ho & _)%owner_Ok & H); [|done].
  apply Ho in Ha as [-> Hne]. destruct (eqs a TaskID) eqn:E; [by apply eqs_true in E|]. destruct (eqs a "") eqn:E2; [by apply eqs_true in E2|done].
Qed.

Lemma release_Ok digest d r d' : ReleaseSession D RootID TaskID u provider conversation digest d = (Ok r, d') ->
  is_Some (files d' !! claimName TaskID) /\ is_Some (files d' !! releaseName TaskID).
Proof.
  unfold ReleaseSession. intros ([] & d1 & _ & H)%txBind_Ok. cbv zeta in H. apply txBind_Ok in H as ([] & d2 & _ & H).
  apply withSession_Ok in H as (d3 & d4 & _ & H & Hf). apply releaseRecord_Ok in H. by rewrite Hf.
Qed.
End calls.
(** ** Released tasks *)
Lemma readRecord_notexist {A} (decode : string -> A + decodeFailure) name d e d' : readRecord decode name d = (Err e, d') ->
  errors_Is e fs_ErrNotExist = true -> files d !! name = None.
Proof.
  unfold readRecord, txBind. destruct (readBytes name _ d) as [[b|e1] d1] eqn:E.
  - unfold txOf. destruct (decode b) as [a|f]; [done|]. intros [= <- _]. by destruct f.
  - intros [= <- <-]. by eapply readBytes_notexist.
Qed.

Lemma readClaim_notexist id d e d' : readClaim D RootID id provider conversation d = (Err e, d') ->
  errors_Is e fs_ErrNotExist = true -> files d !! claimName id = None.
Proof.
  unfold readClaim. unfold txBind at 1. destruct (readRecord _ _ d) as [[claim|e1] d1] eqn:E; [|intros [= <- <-]; by eapply readRecord_notexist].
  intros H He. exfalso. assert (lacks fs_ErrNotExist (ValidateSessionClaimRecord (Some claim))) as HL by lacks_solve.
  unfold txBind at 1, txOf in H. destruct (ValidateSessionClaimRecord (Some claim)) as [[]|e2]; [|injection H as <- _; by rewrite (HL _ eq_refl) in He].
  unfold txBind, txFail, txOf in H. destruct (_ || _) in H; [|done]. cbn in H. by injection H as <- _.
Qed.

(** A release on the ledger reads, unless its proof reports a missing file. *)
Definition provable (u : sessionSituation) : Prop := forall owner digest, txLacks fs_ErrNotExist (sn_proof u owner digest).

Lemma readRelease_notexist u claim d e d' : provable u -> readRelease D u claim d = (Err e, d') ->
  errors_Is e fs_ErrNotExist = true -> files d !! releaseName (sc_TaskID claim) = None.
Proof.
  intros Hp. unfold readRelease. unfold txBind at 1. destruct (readRecord _ _ d) as [[rel|e1] d1] eqn:E; [|intros [= <- <-]; by eapply readRecord_notexist].
  intros H He. exfalso. assert (lacks fs_ErrNotExist (ValidateSessionReleaseRecord (Some rel))) as HL by lacks_solve.
  unfold txBind at 1, txOf in H. destruct (ValidateSessionReleaseRecord (Some rel)) as [[]|e2]; [|injection H as <- _; by rewrite (HL _ eq_refl) in He].
  unfold txBind at 1, txFail, txOf in H. destruct (_ || _) in H; cbn in H; [by injection H as <- _|].
  unfold txBind in H. destruct (sn_proof u _ _ d1) as [[[]|e3] d2] eqn:EP; [done|]. injection H as <- _. apply Hp in EP. congruence.
Qed.

Lemma claim_denied id u d r d' : detached u -> provable u -> is_Some (files d !! claimName id) -> is_Some (files d !! releaseName id) ->
  ClaimSession D RootID id u provider conversation d = (r, d') -> is_ok r = false.
Proof.
  intros Hu Hp Hc Hr H. destruct r as [r|]; [exfalso|done]. apply claim_section in H as (rec & d1 & d2 & HT & Hk & H & _).
  assert (is_Some (files d1 !! claimName id) /\ is_Some (files d1 !! releaseName id)) as [Hc1 Hr1].
  { by rewrite !Hk by (apply claim_ledger || apply release_ledger). }
  unfold claimSessionRecord in H. cbv zeta in H. apply txBind_Ok in H as (owner & d3 & (Hf & _ & Hown)%owner_Ok & H); [|done].
  destruct (eqs owner id) eqn:E1.
  - apply eqs_true in E1 as ->. destruct Hown as [->|[_ (claim & d4 & d5 & e & Hid & Hf4 & He & Hn)]]; [done|].
    apply readRelease_notexist in He; [|done..]. rewrite Hf4, Hid in He. rewrite He in Hr1. by destruct Hr1.
  - destruct (eqs owner "") eqn:E2; [|done]. cbn [negb] in H. apply txBind_Ok in H as (old & d4 & (old' & Hold & [= ->])%txTry_eq & H).
    destruct old' as [claim|e]; [by apply txBind_Ok in H as (x & d5 & _ & H)|]. apply txBind_Ok in H as ([] & d5 & (He & _ & _)%txFail_Ok & _).
    apply negb_false_iff in He. unfold readClaim in Hold. unfold txBind at 1 in Hold.
    destruct (readRecord (dec_Claim D) (claimName id) d3) as [[c|e1] d6] eqn:ER.
    + assert (lacks fs_ErrNotExist (ValidateSessionClaimRecord (Some c))) as HL by lacks_solve.
      unfold txBind at 1, txOf in Hold. destruct (ValidateSessionClaimRecord (Some c)) as [[]|e2]; [|injection Hold as <- _; by rewrite (HL _ eq_refl) in He].
      unfold txBind, txFail, txOf in Hold. destruct (_ || _) in Hold; cbn in Hold; [by injection Hold as <- _|done].
    + injection Hold as <- _. apply readRecord_notexist in ER; [|done]. rewrite Hf in ER. rewrite ER in Hc1. by destruct Hc1.
Qed.

(** ** Histories *)
Lemma elsewhere_evolves fs other :
  evolves fs (filter (fun f => isLedger (fst f) = true) fs ∪ filter (fun f => isLedger (fst f) = false) other).
Proof.
  apply evolves_sameLedger. intros name Hn. destruct (fs !! name) as [data|] eqn:E.
  - rewrite (lookup_union_Some_l _ _ _ data); [done|]. by apply map_lookup_filter_Some.
  - rewrite lookup_union_r; [|apply map_lookup_filter_None; by left]. apply map_lookup_filter_None. right. intros x _ Hx. cbn in Hx. congruence.
Qed.

Definition eventHolds (e : sessionEvent) (fs : gmap string string) : Prop :=
  match e with
  | Claimed id => is_Some (fs !! claimName id) /\ forall a, unreleased fs a -> a = id
  | Released id => is_Some (fs !! claimName id) /\ is_Some (fs !! releaseName id)
  end.

Lemma sessionExec_evolves c flts fs es fs' : (forall u, situationOf c = Some u -> detached u) -> sessionExec c flts fs = (es, fs') ->
  evolves fs fs' /\ (es = [] \/ exists e, es = [e] /\ eventHolds e fs').
Proof.
  intros Hc. destruct c as [id u|id u digest|other]; cbn [sessionExec].
  - pose proof (evolving_claim id u (Hc u eq_refl) (MkDisk fs flts)) as He.
    destruct (ClaimSession _ _ _ _ _ _ _) as [[r|e] d] eqn:E; cbn in *; intros [= <- <-]; (split; [done|]); [|by left].
    right. exists (Claimed id). split; [done|]. by eapply claim_Ok in E; [|apply Hc].
  - pose proof (evolving_release id u (Hc u eq_refl) digest (MkDisk fs flts)) as He.
    destruct (ReleaseSession _ _ _ _ _ _ _ _) as [[r|e] d] eqn:E; cbn in *; intros [= <- <-]; (split; [done|]); [|by left].
    right. exists (Released id). split; [done|]. by eapply release_Ok in E; [|apply Hc].
  - intros [= <- <-]. split; [apply elsewhere_evolves|by left].
Qed.

Lemma sessionHistory_evolves cs fs trace fs' : detachedAll cs -> sessionHistory cs fs = (trace, fs') -> evolves fs fs'.
Proof.
  revert fs trace. induction cs as [|[c flts] cs IH]; intros fs trace Hd; cbn [sessionHistory]; [by intros [= _ <-]|].
  destruct (sessionExec c flts fs) as [es fs1] eqn:E. destruct (sessionHistory cs fs1) as [later fs2] eqn:EH. intros [= _ <-].
  etransitivity; [eapply sessionExec_evolves; [|exact E]; intros u; eapply Hd; by apply elem_of_cons; left|].
  eapply IH; [|exact EH]. intros c' f' u Hin. eapply Hd. by apply elem_of_cons; right.
Qed.

(** An event splits its history at the command that gave it. *)
Lemma sessionHistory_split cs fs trace fs' before e after : detachedAll cs -> sessionHistory cs fs = (trace, fs') -> trace = before ++ e :: after ->
  exists cs1 c flts cs2 fs1 fs2, cs = cs1 ++ (c, flts) :: cs2 /\ sessionHistory cs1 fs = (before, fs1) /\ sessionExec c flts fs1 = ([e], fs2) /\
    sessionHistory cs2 fs2 = (after, fs').
Proof.
  revert fs trace before. induction cs as [|[c flts] cs IH]; intros fs trace before Hd; cbn [sessionHistory]; [by intros [= <- _] ?; destruct before|].
  destruct (sessionExec c flts fs) as [es fs1] eqn:E. destruct (sessionHistory cs fs1) as [later fs2] eqn:EH. intros [= <- <-] Ht.
  assert (detachedAll cs) as Hd' by (intros c' f' u Hin; eapply Hd; by apply elem_of_cons; right).
  pose proof E as E'. apply sessionExec_evolves in E' as [_ [->|(e' & -> & _)]]; [| |intros u; eapply Hd; by apply elem_of_cons; left].
  - destruct (IH _ _ _ Hd' EH Ht) as (cs1 & c' & f' & cs2 & fs3 & fs4 & -> & H1 & H2). exists ((c, flts) :: cs1), c', f', cs2, fs3, fs4.
    split; [done|]. split; [cbn [sessionHistory]; by rewrite E, H1|done].
  - destruct before as [|b before]; cbn in Ht; injection Ht as -> Ht.
    + exists [], c, flts, cs, fs, fs1. subst. by split_and!.
    + destruct (IH _ _ _ Hd' EH Ht) as (cs1 & c' & f' & cs2 & fs3 & fs4 & -> & H1 & H2). exists ((c, flts) :: cs1), c', f', cs2, fs3, fs4.
      split; [done|]. split; [cbn [sessionHistory]; by rewrite E, H1|done].
Qed.

(** ** Properties *)
(** C17: from a ledger with at most one unreleased claim, whatever the tasks of the
    conversation do and however the file system fails, at most one claim is unreleased;
    and when a claim is granted to one task, every other task that was ever granted one
    has its release on the ledger already. *)
Theorem session_exclusive cs fs : exclusive fs -> detachedAll cs ->
  let '(trace, fs') := sessionHistory cs fs in
  exclusive fs' /\
  forall before middle after a b, trace = (before ++ Claimed a :: middle) ++ Claimed b :: after -> a <> b ->
    exists cs1 cs2, cs = cs1 ++ cs2 /\ fst (sessionHistory cs1 fs) = before ++ Claimed a :: middle /\
      is_Some (snd (sessionHistory cs1 fs) !! releaseName a).
Proof.
  intros HE Hd. destruct (sessionHistory cs fs) as [trace fs'] eqn:EH. split; [by apply (sessionHistory_evolves _ _ _ _ Hd EH)|].
  intros before middle after a b Ht Hne. destruct (sessionHistory_split _ _ _ _ _ _ _ Hd EH Ht) as (cs1 & c & flts & cs2 & fs1 & fs2 & -> & H1 & H2 & _).
  exists cs1, ((c, flts) :: cs2). split; [done|]. rewrite H1. split; [done|]. cbn [snd].
  assert (detachedAll cs1) as Hd1 by (intros c' f' u Hin; eapply Hd; by apply elem_of_app; left).
  destruct (sessionHistory_split _ _ _ _ _ _ _ Hd1 H1 eq_refl) as (cs3 & c3 & f3 & cs4 & fs3 & fs4 & -> & _ & H3 & H4).
  assert (detachedAll cs4) as Hd4 by (intros c' f' u Hin; eapply Hd1; apply elem_of_app; right; by apply elem_of_cons; right).
  apply sessionHistory_evolves in H4 as [Hk _]; [|done].
  apply sessionExec_evolves in H3 as [_ [|(e & [= <-] & [[data Ha] _])]]; [done| |intros u; eapply Hd1; apply elem_of_app; right; by apply elem_of_cons; left].
  apply Hk in Ha; [|apply claim_ledger].
  destruct c as [id u|id u digest|other]; cbn [sessionExec] in H2; [| |done].
  - destruct (ClaimSession _ _ _ _ _ _ _) as [[r|e] d] eqn:E; [|done]. cbn in H2. injection H2 as <- <-.
    destruct (fs1 !! releaseName a) as [x|] eqn:Er; [eauto|]. destruct Hne. eapply claim_before; [|exact E|split; [cbn; eauto|done]].
    eapply Hd; [apply elem_of_app; right; by apply elem_of_cons; left|done].
  - by destruct (ReleaseSession _ _ _ _ _ _ _ _) as [[]].
Qed.

(** C18: while no proof of a release reports a missing file, a task that released the
    conversation never claims it again. *)
Theorem released_never_reclaims cs fs before a after : detachedAll cs ->
  (forall c flts u, (c, flts) ∈ cs -> situationOf c = Some u -> provable u) ->
  fst (sessionHistory cs fs) = before ++ Released a :: after -> Claimed a ∉ after.
Proof.
  intros Hd Hp Ht (l1 & l2 & Hs)%list_elem_of_split. destruct (sessionHistory cs fs) as [trace fs'] eqn:EH. cbn in Ht.
  destruct (sessionHistory_split _ _ _ _ _ _ _ Hd EH Ht) as (cs1 & c & flts & cs2 & fs1 & fs2 & -> & _ & H2 & H3).
  assert (detachedAll cs2) as Hd2 by (intros c' f' u Hin; eapply Hd; apply elem_of_app; right; by apply elem_of_cons; right).
  apply sessionExec_evolves in H2 as [_ [|(e & [= <-] & [[cd Hc] [rd Hr]])]]; [done| |intros u; eapply Hd; apply elem_of_app; right; by apply elem_of_cons; left].
  destruct (sessionHistory_split _ _ _ _ _ _ _ Hd2 H3 Hs) as (cs3 & c4 & f4 & cs4 & fs3 & fs4 & -> & H4 & H5 & _).
  apply sessionHistory_evolves in H4 as [Hk _]; [|intros c' f' u Hin; eapply Hd2; by apply elem_of_app; left].
  apply Hk in Hc; [|apply claim_ledger]. apply Hk in Hr; [|apply release_ledger].
  destruct c4 as [id u|id u digest|other]; cbn [sessionExec] in H5; [| |done].
  - destruct (ClaimSession _ _ _ _ _ _ _) as [r d] eqn:E. destruct (is_ok r) eqn:Er; [|done]. injection H5 as -> _.
    assert ((ClaimBy a u, f4) ∈ cs1 ++ (c, flts) :: cs3 ++ (ClaimBy a u, f4) :: cs4) as Hin by set_solver.
    eapply claim_denied in E; [congruence|by eapply Hd|by eapply Hp|cbn; eauto|cbn; eauto].
  - by destruct (ReleaseSession _ _ _ _ _ _ _ _) as [[]].
Qed.
End session.

(** ** Witnesses *)
(** Two tasks of one conversation, a claim, its release and the next claim. *)
Definition demoRootID : string := "00000000000000000000000000000001".
Definition taskA : string := "0000000000000000000000000000000a".
Definition taskB : string := "0000000000000000000000000000000b".
Definition demoEvidence : string := "0000000000000000000000000000000000000000000000000000000000000003".
Definition claimAt : string := "2023-11-14T22:13:20Z".
Definition demoClaim (id : string) : SessionClaimRecord := MkSessionClaim SchemaVersion "fixture:test" "chat" demoRootID id claimAt.
Definition demoRelease (id : string) : SessionReleaseRecord :=
  MkSessionRelease SchemaVersion "fixture:test" "chat" demoRootID id demoEvidence claimAt.
Definition demoLedgerDecoders : SessionDecoders :=
  MkSessionDecoders
    (fun data => if eqs data (MarshalCanonical (jsonSessionClaim (demoClaim taskA))) then inl (demoClaim taskA)
                 else if eqs data (MarshalCanonical (jsonSessionClaim (demoClaim taskB))) then inl (demoClaim taskB) else inr TrailingJSON)
    (fun data => if eqs data (MarshalCanonical (jsonSessionRelease (demoRelease taskA))) then inl (demoRelease taskA) else inr TrailingJSON).
Definition sessionRequest : TaskRecord :=
  MkTaskRecord SchemaVersion demoRootID taskA "fixture:test" "read-only" "/work" (MkTaskConfig false "" "" "read-only" "1h0m0s" "" None)
    3600000000000 None demoEvidence 5 None None.
(** A situation whose proofs answer [proof]. *)
Definition demoSession (proof : result unit) : sessionSituation :=
  MkSessionSituation false false claimAt (Ok sessionRequest) (fun _ _ => txOf proof) (fun _ => txRet false).

Lemma demo_detached proof : detached (demoSession proof).
Proof. by split. Qed.

Definition handoff : list (sessionCommand * list fault) :=
  [(ClaimBy taskA (demoSession (Ok tt)), []); (ReleaseBy taskA (demoSession (Ok tt)) demoEvidence, []);
   (ClaimBy taskB (demoSession (Ok tt)), [])].

Lemma handoff_runs : fst (sessionHistory demoLedgerDecoders demoRootID "fixture:test" "chat" handoff ∅) = [Claimed taskA; Released taskA; Claimed taskB].
Proof. vm_compute. reflexivity. Qed.

Lemma handoff_detached : detachedAll handoff.
Proof.
  intros c flts u Hin Hu. unfold handoff in Hin. rewrite !elem_of_cons, elem_of_nil in Hin.
  destruct Hin as [[= -> _]|[[= -> _]|[[= -> _]|[]]]]; cbn in Hu; injection Hu as <-; apply demo_detached.
Qed.

Lemma session_exclusive_witness :
  fst (sessionHistory demoLedgerDecoders demoRootID "fixture:test" "chat" handoff ∅) = [Claimed taskA; Released taskA; Claimed taskB] /\
  exclusive (snd (sessionHistory demoLedgerDecoders demoRootID "fixture:test" "chat" handoff ∅)).
Proof.
  split; [exact handoff_runs|]. assert (exclusive ∅) as HE by (intros a b [[x Hx] _]; by rewrite lookup_empty in Hx).
  pose proof (session_exclusive demoLedgerDecoders demoRootID "fixture:test" "chat" handoff ∅ HE handoff_detached) as H.
  destruct (sessionHistory _ _ _ _ handoff ∅) as [trace fs]. exact (proj1 H).
Defined.

Lemma released_never_reclaims_witness : Claimed taskA ∉ [Claimed taskB].
Proof.
  apply (released_never_reclaims demoLedgerDecoders demoRootID "fixture:test" "chat" handoff ∅ [Claimed taskA] taskA [Claimed taskB] handoff_detached);
    [|exact handoff_runs].
  intros c flts u Hin Hu owner digest. unfold handoff in Hin. rewrite !elem_of_cons, elem_of_nil in Hin.
  destruct Hin as [[= -> _]|[[= -> _]|[[= -> _]|[]]]]; cbn in Hu; injection Hu as <-; by intros d e d'.
Defined.

(** When the proof of its release reports a missing file, the released task holds the
    conversation again. *)
Definition reclaim : list (sessionCommand * list fault) :=
  [(ClaimBy taskA (demoSession (Ok tt)), []); (ReleaseBy taskA (demoSession (Ok tt)) demoEvidence, []);
   (ClaimBy taskA (demoSession (Err errNotExist)), [])].

(** A released task whose evidence is missing is granted the conversation again. *)
Theorem unproven_release_reclaimed :
  fst (sessionHistory demoLedgerDecoders demoRootID "fixture:test" "chat" reclaim ∅) = [Claimed taskA; Released taskA; Claimed taskA].
Proof. vm_compute. reflexivity. Qed.

(** The proof of a published task reports a missing file when its payload is gone. *)
Lemma missing_payload_reported D RootID TaskID fs req meta brief reqData metaData o out u digest :
  preparedFiles D RootID TaskID fs req meta brief reqData metaData ->
  fs !! "outcome.json"%string = Some out -> len out <= MaxControlRecordSize -> dec_Outcome D out = inl o ->
  ValidateOutcomeRecord (Some o) = Ok tt -> oc_RootID o = RootID -> oc_TaskID o = TaskID -> oc_SpecSHA256 o = ComputeSHA256 reqData ->
  oc_MetaSHA256 o = ComputeSHA256 metaData -> PredicateEqual (oc_Predicate o) (me_Predicate meta) = true ->
  fs !! py_Basename (oc_Payload o) = None -> ts_run u = false ->
  exists e d, terminalProof D RootID TaskID u digest (MkDisk fs []) = (Err e, d) /\ errors_Is e fs_ErrNotExist = true.
Proof.
  intros P Ho Hs Hd Hv H1 H2 H3 H4 H5 Hp Hr. unfold terminalProof.
  assert (returns (txMapErr (fun e => Joined "active runner" [Sentinel task_ErrSessionBusy; e]) (tryLock (ts_run u))) tt (MkDisk fs [])) as HL by (by rewrite Hr).
  rewrite (bind_returns _ _ _ _ HL).
  assert (readWinner D RootID TaskID meta (ComputeSHA256 reqData) (ComputeSHA256 metaData) (MkDisk fs []) =
    (Err (Joined "" [Sentinel task_ErrInvariantFault; errNotExist]), MkDisk fs [])) as HW.
  { assert (readWinnerRecord D RootID TaskID meta (ComputeSHA256 reqData) (ComputeSHA256 metaData) (MkDisk fs []) = (Err errNotExist, MkDisk fs [])) as HW.
    { unfold readWinnerRecord. erewrite bind_try_returns by (eapply readRecord_free; eassumption). erewrite bind_returns by (apply of_returns; eassumption).
      rewrite H1, H2, H3, H4, H5, !eqs_refl. erewrite bind_returns by (apply fail_returns; reflexivity).
      erewrite bind_returns by (apply fail_returns; reflexivity). unfold txBind at 1, fileDigest.
      erewrite bind_returns by apply systemCall_free. cbn [files]. by rewrite Hp. }
    unfold readWinner, txMapErr. rewrite HW. reflexivity. }
  assert (terminalEvidence D RootID TaskID u digest (MkDisk fs []) =
    (Err (Joined "" [Sentinel task_ErrInvariantFault; errNotExist]), MkDisk fs [])) as HT.
  { unfold terminalEvidence. erewrite bind_returns by (apply (preparedContext_free _ _ _ _ P)). cbn [pp_meta pp_spec pp_metaHash].
    by rewrite (bind_try_fails _ _ _ _ HW). }
  unfold txJoin. rewrite (bind_try_fails _ _ _ _ HT). eexists _, _. split; reflexivity.
Qed.
