(* ===== verification/TeamContract.v ===== *)
(** * Team definitions

    [internal/teams/contract]: definitions and their validity ([definition.go]), the scan of
    string escapes that precedes decoding ([encoding.go]), and the selection of a member
    for a task ([selection.go]).  [Decode] takes the strict decoder of a definition as an
    argument; [decodeTeam] is [task.DecodeStrict] into a definition. *)
From S2P Require Import Prelude GoErrors GoTime GoText TaskTypes Encoding ControlDir ProviderJson StrictJson SchedRequest TaskConfiguration.
From Stdlib Require Import Ascii.
#[local] Open Scope Z_scope.

Record Role : Set := MkRole { ro_ID : string; ro_Name : string; ro_Responsibility : string }.

Record ExecutionDefaults : Set := MkDefaults { ed_Provider : string; ed_Model : string; ed_Effort : string }.

Record Member : Set := MkMember {
  mb_ID : string; mb_Name : string; mb_RoleIDs : list string; mb_ExecutionDefaults : option ExecutionDefaults }.

(** A nil array of roles or members is [None]. *)
Record Team : Set := MkTeam {
  tm_SchemaVersion : Z; tm_ID : string; tm_Name : string; tm_Purpose : string;
  tm_Roles : option (list Role); tm_Members : option (list Member) }.

(** [contract.Record] *)
Record TeamRecord : Set := MkTeamRecord { rec_Reference : TeamReference; rec_Revision : Z; rec_Definition : Team }.

Record ResolvedMember : Set := MkResolvedMember { rm_CatalogID : string; rm_Record : TeamRecord; rm_Member : Member }.

#[global] Instance Role_eq_dec : EqDecision Role. Proof. solve_decision. Defined.
#[global] Instance ExecutionDefaults_eq_dec : EqDecision ExecutionDefaults. Proof. solve_decision. Defined.
#[global] Instance Member_eq_dec : EqDecision Member. Proof. solve_decision. Defined.
#[global] Instance Team_eq_dec : EqDecision Team. Proof. solve_decision. Defined.
#[global] Instance TeamRecord_eq_dec : EqDecision TeamRecord. Proof. solve_decision. Defined.

(** ** definition.go *)
Definition invalid (field : string) (err : error) : error := Joined field [Sentinel contract_ErrInvalidDefinition; err].

Definition validText (value : string) : bool := ValidString value && negb (eqs (TrimSpace value) "").

(** Membership in the [map[string]bool] of the identifiers seen so far. *)
Definition seenID (id : string) (seen : list string) : bool := existsb (eqs id) seen.

Definition validateRole (role : Role) (seen : list string) : result unit :=
  wrap_err (invalid "roles.id") (ValidateTeamID (ro_ID role)) ;;
  fail_if (seenID (ro_ID role) seen || negb (validText (ro_Name role)) || negb (validText (ro_Responsibility role)))
    (invalid "roles" (New "duplicate ID or missing name/responsibility")).

Definition validateDefaults (defaults : ExecutionDefaults) : result unit :=
  wrap_err (invalid "members.execution_defaults.provider") (ValidateProvider (ed_Provider defaults)) ;;
  fail_if (negb (ValidString (ed_Model defaults)) || negb (ValidString (ed_Effort defaults)))
    (invalid "members.execution_defaults" (New "invalid UTF-8 option")) ;;
  wrap_err (invalid "members.execution_defaults")
    (ValidateRequestedOptions (MkTaskConfig false (ed_Model defaults) (ed_Effort defaults) "" "" "" None)).

(** The loop over [member.RoleIDs]. *)
Fixpoint validateRoleIDs (roles memberRoles : list string) (ids : list string) : result unit :=
  match ids with
  | [] => Ok tt
  | id :: rest =>
      fail_if (negb (seenID id roles) || seenID id memberRoles)
        (invalid "members.role_ids" (New "unknown or repeated role reference")) ;;
      validateRoleIDs roles (id :: memberRoles) rest
  end.

Definition validateMember (member : Member) (roles seen : list string) : result unit :=
  wrap_err (invalid "members.id") (ValidateTeamID (mb_ID member)) ;;
  fail_if (seenID (mb_ID member) seen || negb (validText (mb_Name member)) || (Z.of_nat (length (mb_RoleIDs member)) =? 0))
    (invalid "members" (New "duplicate ID, missing name or empty role references")) ;;
  validateRoleIDs roles [] (mb_RoleIDs member) ;;
  when_some (mb_ExecutionDefaults member) validateDefaults.

(** The loop over [team.Roles]: the identifiers of all roles. *)
Fixpoint validateRoles (seen : list string) (roles : list Role) : result (list string) :=
  match roles with
  | [] => Ok seen
  | role :: rest => validateRole role seen ;; validateRoles (ro_ID role :: seen) rest
  end.

Fixpoint validateMembers (roles seen : list string) (members : list Member) : result unit :=
  match members with
  | [] => Ok tt
  | member :: rest => validateMember member roles seen ;; validateMembers roles (mb_ID member :: seen) rest
  end.

(** [contract.Validate] *)
Definition ValidateTeam (team : Team) : result unit :=
  match tm_Roles team, tm_Members team with
  | Some roles, Some members =>
      fail_if (negb (tm_SchemaVersion team =? 1))
        (invalid "schema_version/roles/members" (New "version 1 and explicit arrays are required")) ;;
      wrap_err (invalid "id") (ValidateTeamID (tm_ID team)) ;;
      fail_if (negb (validText (tm_Name team)) || negb (validText (tm_Purpose team)))
        (invalid "name/purpose" (New "nonblank UTF-8 text required")) ;;
      seen ← validateRoles [] roles;
      validateMembers seen [] members
  | _, _ => Err (invalid "schema_version/roles/members" (New "version 1 and explicit arrays are required"))
  end.

(** ** Canonical encoding of a validated definition, whose arrays are explicit *)
Definition jsonRole (r : Role) : json :=
  JObject [("id"%string, JString (ro_ID r)); ("name"%string, JString (ro_Name r));
           ("responsibility"%string, JString (ro_Responsibility r))].

Definition jsonDefaults (d : ExecutionDefaults) : json :=
  JObject (("provider"%string, JString (ed_Provider d)) :: omitString "model" (ed_Model d) ++ omitString "effort" (ed_Effort d)).

Definition jsonMember (m : Member) : json :=
  JObject ([("id"%string, JString (mb_ID m)); ("name"%string, JString (mb_Name m));
            ("role_ids"%string, JArray (map JString (mb_RoleIDs m)))] ++
           omitempty "execution_defaults" (jsonDefaults <$> mb_ExecutionDefaults m)).

Definition jsonTeam (t : Team) : json :=
  JObject [("schema_version"%string, JInt (tm_SchemaVersion t)); ("id"%string, JString (tm_ID t));
           ("name"%string, JString (tm_Name t)); ("purpose"%string, JString (tm_Purpose t));
           ("roles"%string, JArray (map jsonRole (default [] (tm_Roles t))));
           ("members"%string, JArray (map jsonMember (default [] (tm_Members t))))].

(** [contract.Encode] *)
Definition Encode (team : Team) : result string :=
  ValidateTeam team ;;
  let data := MarshalCanonical (jsonTeam team) in
  fail_if (MaxControlRecordSize <? len data) (invalid "definition" (Sentinel task_ErrControlRecordTooBig)) ;;
  Ok data.

(** ** encoding.go *)

(** [hex.Decode] of four digits, as [uint16(decoded[0])<<8 | uint16(decoded[1])]. *)
Definition definitionUnicodeUnit (l : list ascii) : result Z :=
  match l with
  | a :: b :: c :: d :: _ =>
      match hexValue a, hexValue b, hexValue c, hexValue d with
      | Some x, Some y, Some z, Some w => Ok (Z.lor (Z.shiftl (x * 16 + y) 8) (z * 16 + w))
      | _, _, _, _ => Err (New "JSON Unicode escape")
      end
  | _ => Err (New "incomplete JSON Unicode escape")
  end.

Definition errHighSurrogate : error := New "unpaired high UTF-16 surrogate".

(** The length of the escape (or pair of escapes) at the head of [l], a backslash and [u]. *)
Definition definitionUnicodeEscapeEnd (l : list ascii) : result nat :=
  unit ← definitionUnicodeUnit (drop 2 l);
  fail_if ((56320 <=? unit) && (unit <=? 57343)) (New "unpaired low UTF-16 surrogate") ;;
  if (unit <? 55296) || (56319 <? unit) then Ok 6%nat
  else match drop 6 l with
       | b :: u :: low4 =>
           fail_if ((Z.of_nat (length low4) <? 4) || negb (bool_decide (b = "\"%char)) || negb (bool_decide (u = "u"%char)))
             errHighSurrogate ;;
           low ← definitionUnicodeUnit low4;
           fail_if ((low <? 56320) || (57343 <? low)) errHighSurrogate ;;
           Ok 12%nat
       | _ => Err errHighSurrogate
       end.

(** The loop of [validateDefinitionEncoding] on what is left of the data; every iteration
    consumes at least one byte, so the length is enough fuel. *)
Fixpoint scanEscapes (fuel : nat) (quoted : bool) (l : list ascii) : result unit :=
  match l with
  | [] => Ok tt
  | c :: rest =>
      match fuel with
      | O => Err (New "out of fuel")
      | S fuel' =>
          if bool_decide (c = quote) then scanEscapes fuel' (negb quoted) rest
          else if negb quoted || negb (bool_decide (c = "\"%char)) then scanEscapes fuel' quoted rest
          else if bool_decide (head rest = Some "u"%char) then
            n ← definitionUnicodeEscapeEnd l; scanEscapes fuel' quoted (drop n l)
          else scanEscapes fuel' quoted (drop 2 l)
      end
  end.

Definition validateDefinitionEncoding (data : string) : result unit :=
  fail_if (MaxControlRecordSize <? len data) (Sentinel task_ErrControlRecordTooBig) ;;
  fail_if (negb (ValidString data)) (New "definition is not valid UTF-8") ;;
  scanEscapes (String.length data) false (bytes data).

(** *** The definition as a Go type *)
Definition roleType : gotype :=
  TStruct [("id", false, TString); ("name", false, TString); ("responsibility", false, TString)]%string.
Definition defaultsType : gotype :=
  TStruct [("provider", false, TString); ("model", true, TString); ("effort", true, TString)]%string.
Definition memberType : gotype :=
  TStruct [("id", false, TString); ("name", false, TString); ("role_ids", false, TSlice TString);
           ("execution_defaults", true, TPointer defaultsType)]%string.
Definition teamType : gotype :=
  TStruct [("schema_version", false, TInt); ("id", false, TString); ("name", false, TString); ("purpose", false, TString);
           ("roles", false, TSlice roleType); ("members", false, TSlice memberType)]%string.

Definition roleOf (v : govalue) : Role :=
  match v with
  | VStruct [id; name; responsibility] => MkRole (textOf id) (textOf name) (textOf responsibility)
  | _ => MkRole "" "" ""
  end.

Definition defaultsOf (v : govalue) : ExecutionDefaults :=
  match v with
  | VStruct [provider; model; effort] => MkDefaults (textOf provider) (textOf model) (textOf effort)
  | _ => MkDefaults "" "" ""
  end.

Definition memberOf (v : govalue) : Member :=
  match v with
  | VStruct [id; name; roleIDs; defaults] =>
      MkMember (textOf id) (textOf name) (textsOf roleIDs) (defaultsOf <$> pointeeOf defaults)
  | _ => MkMember "" "" [] None
  end.

Definition teamOf (v : govalue) : Team :=
  match v with
  | VStruct [version; id; name; purpose; roles; members] =>
      MkTeam (intOf version) (textOf id) (textOf name) (textOf purpose) (map roleOf <$> elementsOf roles) (map memberOf <$> elementsOf members)
  | _ => MkTeam 0 "" "" "" None None
  end.

(** [task.DecodeStrict(data, &team)] *)
Definition decodeTeam (orbit : Z -> Z) (data : string) : result Team :=
  match StrictJson.DecodeStrict orbit teamType data with
  | inl v => Ok (teamOf v)
  | inr f => Err (decodeErr f)
  end.

Section decoding.
Context (DecodeStrict : string -> result Team).

(** [contract.Decode] *)
Definition Decode (data : string) : result Team :=
  wrap_err (invalid "definition") (validateDefinitionEncoding data) ;;
  team ← wrap_err (invalid "definition") (DecodeStrict data);
  ValidateTeam team ;;
  Ok team.
End decoding.

(** ** selection.go *)
Record Execution : Set := MkExecution { ex_Provider : string; ex_Auto : bool; ex_Config : TaskConfig }.

(** The requested options with another model and effort. *)
Definition withModelEffort (model effort : string) (c : TaskConfig) : TaskConfig :=
  MkTaskConfig (tc_Interactive c) model effort (tc_Permission c) (tc_Budget c) (tc_NativeTimeout c) (tc_ReviewTarget c).

Definition MergeExecution (defaults : option ExecutionDefaults) (requested : TeamIntent) : result Execution :=
  let result := MkExecution (ti_Provider requested) (ti_Auto requested) (ti_Config requested) in
  ValidateRequestedOptions (ti_Config requested) ;;
  if ti_Auto requested then
    fail_if (negb (eqs (ti_Provider requested) "") || match defaults with Some _ => true | None => false end)
      (New "auto cannot be combined with an explicit or Member-bound provider") ;;
    Ok result
  else
    let result :=
      match defaults with
      | Some d =>
          if eqs (ti_Provider requested) "" || eqs (ti_Provider requested) (ed_Provider d) then
            let config := ex_Config result in
            MkExecution (ed_Provider d) (ex_Auto result)
              (withModelEffort (if eqs (tc_Model config) "" then ed_Model d else tc_Model config)
                 (if eqs (tc_Effort config) "" then ed_Effort d else tc_Effort config) config)
          else result
      | None => result
      end in
    fail_if (eqs (ex_Provider result) "")
      (New "Member without execution defaults requires an explicit provider or auto") ;;
    Ok result.

Definition validateResolvedMember (resolved : ResolvedMember) : result unit :=
  let definition := rec_Definition (rm_Record resolved) in
  ValidateTeam definition ;;
  fail_if (negb (eqs (tr_TeamID (rec_Reference (rm_Record resolved))) (tm_ID definition)))
    (invalid "resolved_member" (New "Team identity does not match definition")) ;;
  fail_if (negb (existsb (fun member => eqs (mb_ID member) (mb_ID (rm_Member resolved)) && bool_decide (member = rm_Member resolved))
                   (default [] (tm_Members definition))))
    (invalid "resolved_member" (New "Member does not match its authoritative definition")).

(** The roles of a member, in the order of the member. *)
Definition selectedRoles (ids : list string) (roles : list Role) : list TeamRoleContext :=
  flat_map (fun id => flat_map (fun role =>
    if eqs (ro_ID role) id then [MkTeamRole (ro_ID role) (ro_Name role) (ro_Responsibility role)] else []) roles) ids.

Definition SelectionContext (member : ResolvedMember) (intent : TeamIntent) : result TeamContext :=
  wrap_err (fun e => Joined "" [Sentinel task_ErrInvalidTeamSelection; e]) (validateResolvedMember member) ;;
  let record := rm_Record member in
  let definition := rec_Definition record in
  let selection :=
    MkTeamContext 1 (MkTeamTarget (rec_Reference record) (mb_ID (rm_Member member)) (rm_CatalogID member))
      (rec_Revision record) (tm_Name definition) (tm_Purpose definition) (mb_Name (rm_Member member))
      (selectedRoles (mb_RoleIDs (rm_Member member)) (default [] (tm_Roles definition))) intent in
  wrap_err (Errorf "creating selection context") (ValidateTeamContext (Some selection)) ;;
  Ok selection.
