(* ===== verification/TeamContractProps.v ===== *)
(** * Team definitions: encoding and selection

    What the scan of string escapes accepts, that encoded definitions are decoded to what
    they were, so that the strict decoder meets the law the catalog asks of it, and what a
    selection holds. *)
From S2P Require Import Prelude GoErrors GoTime GoText TaskTypes Encoding ProviderJson ProviderJsonGrammar ProviderJsonSound.
From S2P Require Import ProviderJsonTheorems StrictJson StrictJsonTheorems SchedRequest TaskConfiguration TeamContract.
From Stdlib Require Import Ascii.
#[local] Open Scope Z_scope.

(** ** Well-formed UTF-8 *)
Inductive utf8 : list ascii -> Prop :=
| u_nil : utf8 []
| u_ascii a l : byte_of a < 128 -> utf8 l -> utf8 (a :: l)
| u_two a b l : two_byte a b = true -> utf8 l -> utf8 (a :: b :: l)
| u_three a b c l : three_byte a b c = true -> utf8 l -> utf8 (a :: b :: c :: l)
| u_four a b c d l : four_byte a b c d = true -> utf8 l -> utf8 (a :: b :: c :: d :: l).

Lemma utf8_app s t : utf8 s -> utf8 t -> utf8 (s ++ t).
Proof. induction 1; intros Ht; cbn [app]; [done|..]; [apply u_ascii|apply u_two|apply u_three|apply u_four]; auto. Qed.

Lemma utf8_valid l : utf8 l -> ValidString (str l) = true.
Proof.
  unfold ValidString, runes. rewrite bytes_str. induction 1 as [|a l H _ IH|a b l H _ IH|a b c l H _ IH|a b c d l H _ IH]; [done|..]; cbn [decodeRunes].
  - rewrite (proj2 (Z.ltb_lt _ _) H). cbn [forallb fst snd length]. rewrite IH. rewrite (proj2 (Z.eqb_neq _ _)); [done|unfold RuneError; lia].
  - pose proof (proj1 (two_byte_spec _ _) H). rewrite (proj2 (Z.ltb_ge _ _)) by lia. rewrite H. cbn [forallb fst snd length]. by rewrite IH, andb_false_r.
  - pose proof (proj1 (three_byte_spec _ _ _) H) as (H1 & _). rewrite (proj2 (Z.ltb_ge _ _)) by lia.
    assert (two_byte a b = false) as -> by (destruct (two_byte a b) eqn:E; [apply two_byte_spec in E; lia|done]).
    rewrite H. cbn [forallb fst snd length]. by rewrite IH, andb_false_r.
  - pose proof (proj1 (four_byte_spec _ _ _ _) H) as (H1 & _). rewrite (proj2 (Z.ltb_ge _ _)) by lia.
    assert (two_byte a b = false) as -> by (destruct (two_byte a b) eqn:E; [apply two_byte_spec in E; lia|done]).
    assert (three_byte a b c = false) as -> by (destruct (three_byte a b c) eqn:E; [apply three_byte_spec in E as (? & _); lia|done]).
    rewrite H. cbn [forallb fst snd length]. by rewrite IH, andb_false_r.
Qed.

(** ** The scan, without fuel *)
Definition scanned (quoted : bool) (l : list ascii) : result unit := scanEscapes (length l) quoted l.

Lemma escapeEnd_positive l n : definitionUnicodeEscapeEnd l = Ok n -> n = 6%nat \/ n = 12%nat.
Proof.
  unfold definitionUnicodeEscapeEnd. intros (unit & _ & H)%bind_Ok. apply bind_Ok in H as ([] & _ & H).
  destruct (_ || _); [left; congruence|]. destruct (drop 6 l) as [|b [|u low4]]; [done..|].
  apply bind_Ok in H as ([] & _ & H). apply bind_Ok in H as (low & _ & H). apply bind_Ok in H as ([] & _ & H). right. congruence.
Qed.

Lemma scan_fuel n m quoted l : (length l <= n)%nat -> (length l <= m)%nat -> scanEscapes n quoted l = scanEscapes m quoted l.
Proof.
  revert m quoted l. induction n as [|n IH]; intros m quoted l Hn Hm.
  { destruct l; [by destruct m|cbn in Hn; lia]. }
  destruct l as [|c l]; [by destruct m|]. destruct m as [|m]; [cbn in Hm; lia|]. cbn [length] in *. cbn [scanEscapes].
  case_bool_decide; [apply IH; lia|]. destruct (_ || _); [apply IH; lia|].
  case_bool_decide.
  - destruct (definitionUnicodeEscapeEnd (c :: l)) as [k|e] eqn:E; [|done]. cbn [mbind result_bind].
    apply escapeEnd_positive in E. apply IH; rewrite length_drop; cbn [length]; lia.
  - apply IH; rewrite length_drop; cbn [length]; lia.
Qed.

Lemma scan_step quoted n l : (length l <= n)%nat -> scanEscapes n quoted l = scanned quoted l.
Proof. intros H. by apply scan_fuel. Qed.

Lemma scanned_cons quoted c l : scanned quoted (c :: l) =
  (if bool_decide (c = quote) then scanned (negb quoted) l
   else if negb quoted || negb (bool_decide (c = "\"%char)) then scanned quoted l
   else if bool_decide (head l = Some "u"%char) then n ← definitionUnicodeEscapeEnd (c :: l); scanned quoted (drop n (c :: l))
   else scanned quoted (drop 1 l)).
Proof.
  unfold scanned at 1. cbn [length].
  change (scanEscapes (S (length l)) quoted (c :: l)) with
    (if bool_decide (c = quote) then scanEscapes (length l) (negb quoted) l
     else if negb quoted || negb (bool_decide (c = "\"%char)) then scanEscapes (length l) quoted l
     else if bool_decide (head l = Some "u"%char) then n ← definitionUnicodeEscapeEnd (c :: l); scanEscapes (length l) quoted (drop n (c :: l))
     else scanEscapes (length l) quoted (drop 1 l)).
  destruct (bool_decide (c = quote)); [done|]. destruct (_ || _); [done|]. destruct (bool_decide _).
  - destruct (definitionUnicodeEscapeEnd (c :: l)) as [k|e] eqn:E; [|done]. cbn [mbind result_bind].
    apply escapeEnd_positive in E. apply scan_step. rewrite length_drop. cbn [length]. lia.
  - apply scan_step. rewrite length_drop. lia.
Qed.

Lemma scanned_quote quoted l : scanned quoted (quote :: l) = scanned (negb quoted) l.
Proof. reflexivity. Qed.

Lemma scanned_outside c l : c <> quote -> scanned false (c :: l) = scanned false l.
Proof. intros H. rewrite scanned_cons. by rewrite (bool_decide_false (c = quote)). Qed.

Lemma scanned_inside c l : c <> quote -> c <> "\"%char -> scanned true (c :: l) = scanned true l.
Proof. intros H H'. rewrite scanned_cons. by rewrite (bool_decide_false (c = quote)), (bool_decide_false (c = "\"%char)). Qed.

Lemma scanned_simple b l : b <> "u"%char -> scanned true ("\"%char :: b :: l) = scanned true l.
Proof. intros H. rewrite scanned_cons. cbn [head drop]. by rewrite (bool_decide_false (Some b = _)) by congruence. Qed.

Lemma scanned_unicode l : scanned true ("\"%char :: "u"%char :: l) =
  (n ← definitionUnicodeEscapeEnd ("\"%char :: "u"%char :: l); scanned true (drop n ("\"%char :: "u"%char :: l))).
Proof. rewrite scanned_cons. cbn [head]. by rewrite (bool_decide_true (Some _ = _)). Qed.

(** ** Escapes *)
Lemma hexValue_range b x : hexValue b = Some x -> 0 <= x < 16.
Proof.
  unfold hexValue, isDigit, between. intros H.
  repeat case_match; simplify_eq; rewrite ?andb_true_iff, ?Z.leb_le in *; lia.
Qed.

Lemma unit_value q r l : hexQuad q r -> definitionUnicodeUnit (q ++ l) = Ok r.
Proof.
  intros (a & b & c & d & x & y & z & w & -> & Ha & Hb & Hc & Hd & ->). cbn [app definitionUnicodeUnit]. rewrite Ha, Hb, Hc, Hd. f_equal.
  apply hexValue_range in Ha, Hb, Hc, Hd. rewrite Z.shiftl_mul_pow2 by lia. rewrite <- Z.add_nocarry_lor; [lia|].
  change (2 ^ 8) with 256. apply Z.bits_inj'. intros i Hi. rewrite Z.land_spec, Z.bits_0.
  destruct (Z.lt_ge_cases i 8) as [Hl|Hl].
  - change 256 with (2 ^ 8). rewrite Z.mul_pow2_bits_low by lia. done.
  - rewrite (Z.bits_above_log2 (z * 16 + w)); [apply andb_false_r|lia|].
    destruct (Z.eq_dec (z * 16 + w) 0) as [->|]; [cbn; lia|]. apply Z.log2_lt_pow2; [lia|].
    apply Z.lt_le_trans with (2 ^ 8); [change (2 ^ 8) with 256; lia|apply Z.pow_le_mono_r; lia].
Qed.

Lemma hexQuad_length q r : hexQuad q r -> length q = 4%nat.
Proof. by intros (a & b & c & d & x & y & z & w & -> & _). Qed.

(** An escape that is no surrogate, the first of a pair, a low surrogate. *)
Lemma escape_end q r l : hexQuad q r -> definitionUnicodeEscapeEnd ("\"%char :: "u"%char :: q ++ l) =
  (if (56320 <=? r) && (r <=? 57343) then Err (New "unpaired low UTF-16 surrogate")
   else if (r <? 55296) || (56319 <? r) then Ok 6%nat
   else match l with
        | b :: u :: low4 =>
            fail_if ((Z.of_nat (length low4) <? 4) || negb (bool_decide (b = "\"%char)) || negb (bool_decide (u = "u"%char)))
              errHighSurrogate ;;
            low ← definitionUnicodeUnit low4;
            fail_if ((low <? 56320) || (57343 <? low)) errHighSurrogate ;;
            Ok 12%nat
        | _ => Err errHighSurrogate
        end).
Proof.
  intros H. unfold definitionUnicodeEscapeEnd. change (drop 2 (_ :: _ :: q ++ l)) with (q ++ l). rewrite (unit_value _ _ _ H). cbn [mbind result_bind].
  destruct (_ && _); [done|]. cbn [fail_if mbind result_bind]. destruct (_ || _); [done|].
  change (drop 6 (_ :: _ :: q ++ l)) with (drop 4 (q ++ l)).
  assert (drop 4 (q ++ l) = l) as -> by (by rewrite <- (hexQuad_length _ _ H), drop_app_length). done.
Qed.

Lemma drop_escape q r l : hexQuad q r -> drop 6 ("\"%char :: "u"%char :: q ++ l) = l.
Proof. intros H. change (drop 6 (_ :: _ :: q ++ l)) with (drop 4 (q ++ l)). by rewrite <- (hexQuad_length _ _ H), drop_app_length. Qed.

Lemma scanned_escape q r l : hexQuad q r -> ~ 55296 <= r <= 57343 -> scanned true ("\"%char :: "u"%char :: q ++ l) = scanned true l.
Proof.
  intros H Hr. rewrite scanned_unicode, (escape_end _ _ _ H).
  destruct (_ && _) eqn:E1; [rewrite andb_true_iff, !Z.leb_le in E1; lia|].
  destruct (_ || _) eqn:E2; [|rewrite orb_false_iff, !Z.ltb_ge in E2; rewrite andb_false_iff, !Z.leb_gt in E1; lia].
  cbn [mbind result_bind]. by rewrite (drop_escape _ _ _ H).
Qed.

Lemma scanned_pair q r q' r' l : hexQuad q r -> 55296 <= r <= 56319 -> hexQuad q' r' -> 56320 <= r' <= 57343 ->
  scanned true ("\"%char :: "u"%char :: q ++ "\"%char :: "u"%char :: q' ++ l) = scanned true l.
Proof.
  intros H Hr H' Hr'. rewrite scanned_unicode, (escape_end _ _ _ H).
  destruct (_ && _) eqn:E1; [rewrite andb_true_iff, !Z.leb_le in E1; lia|].
  destruct (_ || _) eqn:E2; [rewrite orb_true_iff, !Z.ltb_lt in E2; lia|].
  cbn iota. rewrite (unit_value _ _ _ H'), (bool_decide_true ("\"%char = _)), (bool_decide_true ("u"%char = _)) by done. cbn [negb]. rewrite !orb_false_r.
  rewrite (proj2 (Z.ltb_ge _ _)) by (rewrite length_app, (hexQuad_length _ _ H'); lia). cbn [fail_if mbind result_bind].
  rewrite !(proj2 (Z.ltb_ge _ _)) by lia. cbn [orb fail_if mbind result_bind].
  change 12%nat with (6 + 6)%nat. rewrite <- drop_drop, (drop_escape _ _ _ H). by rewrite (drop_escape _ _ _ H').
Qed.

(** ** Documents of the grammar *)

(** Text without quotes or bytes beyond ASCII. *)
Definition ordinary (l : list ascii) : Prop := Forall (fun c => byte_of c < 128 /\ c <> quote) l.

(** Well-formed UTF-8 that the scan passes over, outside or inside a string. *)
Definition passes (quoted : bool) (t : list ascii) : Prop :=
  utf8 t /\ forall r, scanned quoted (t ++ r) = scanned quoted r.

Lemma passes_nil quoted : passes quoted [].
Proof. split; [constructor|done]. Qed.

Lemma passes_app quoted s t : passes quoted s -> passes quoted t -> passes quoted (s ++ t).
Proof. intros [Hs Es] [Ht Et]. split; [by apply utf8_app|]. intros r. by rewrite <- app_assoc, Es, Et. Qed.

Lemma passes_ordinary t : ordinary t -> passes false t.
Proof.
  induction 1 as [|c t [Hc Hq] _ [IH1 IH2]]; [apply passes_nil|]. split; [by constructor|].
  intros r. cbn [app]. by rewrite scanned_outside.
Qed.

Lemma ordinary_byte c : byte_of c < 128 -> c <> quote -> ordinary [c].
Proof. intros. by constructor. Qed.

Lemma ordinary_white t : white t -> ordinary t.
Proof.
  intros Hw. eapply Forall_impl; [exact Hw|]. cbn. intros c H. unfold isSpaceByte in H. rewrite !orb_true_iff, !bool_decide_eq_true in H.
  destruct H as [[[->| ->]| ->]| ->]; by split.
Qed.

Lemma digit_ordinary c : isDigit c = true -> byte_of c < 128 /\ c <> quote.
Proof. unfold isDigit, between. rewrite andb_true_iff, !Z.leb_le. intros H. split; [lia|]. intros ->. change (byte_of quote) with 34 in H. lia. Qed.

Lemma ordinary_digits t : digitText t -> ordinary t.
Proof. intros Hd. eapply Forall_impl; [exact Hd|]. apply digit_ordinary. Qed.

Lemma ordinary_number t : numberText t -> ordinary t.
Proof.
  destruct 1 as [s i f e Hs Hi Hf He]. unfold ordinary. rewrite !Forall_app. split_and!.
  - destruct Hs as [->| ->]; by repeat constructor.
  - destruct Hi as [|d ds Hd _ Hds]; [by repeat constructor|]. constructor; [by apply digit_ordinary|by apply ordinary_digits].
  - destruct Hf as [|ds Hds _]; [constructor|]. constructor; [done|by apply ordinary_digits].
  - destruct He as [|x s' ds Hx Hs' Hds _]; [constructor|]. constructor; [destruct Hx as [->| ->]; done|].
    apply Forall_app. split; [destruct Hs' as [->|[->| ->]]; by repeat constructor|by apply ordinary_digits].
Qed.

Lemma hex_ascii b x : hexValue b = Some x -> byte_of b < 128.
Proof. unfold hexValue, isDigit, between. intros H. repeat case_match; simplify_eq; rewrite ?andb_true_iff, ?Z.leb_le in *; lia. Qed.

Lemma utf8_quad q r l : hexQuad q r -> utf8 l -> utf8 (q ++ l).
Proof. intros (a & b & c & d & x & y & z & w & -> & Ha & Hb & Hc & Hd & _) Hl. cbn [app]. repeat apply u_ascii; eauto using hex_ascii. Qed.

Lemma simple_ascii b r : simpleEscape b = Some r -> byte_of b < 128 /\ b <> "u"%char.
Proof. unfold simpleEscape. intros H. repeat case_bool_decide; cbn in H; simplify_eq; done. Qed.

Lemma plain_character b : plain b = true -> byte_of b < 128 /\ b <> quote /\ b <> "\"%char.
Proof.
  unfold plain. rewrite negb_true_iff, !orb_false_iff, !bool_decide_eq_false, Z.leb_gt. tauto.
Qed.

Lemma wide_inside b l : 128 <= byte_of b -> scanned true (b :: l) = scanned true l.
Proof. intros H. apply scanned_inside; intros ->; [change (byte_of quote) with 34 in H|change (byte_of "\") with 92 in H]; lia. Qed.

Lemma chars_pass raw dec : chars raw dec -> passes true raw.
Proof.
  induction 1 as [|b raw dec Hb _ [IH1 IH2]|a b raw dec H _ [IH1 IH2]|a b c raw dec H _ [IH1 IH2]|a b c d raw dec H _ [IH1 IH2]
    |b r raw dec H _ [IH1 IH2]|q r raw dec H Hr _ [IH1 IH2]|q r q' r' raw dec H Hr H' Hr' _ [IH1 IH2]].
  - apply passes_nil.
  - apply plain_character in Hb as (H1 & H2 & H3). split; [by constructor|]. intros s. cbn [app]. by rewrite scanned_inside.
  - split; [by apply u_two|]. intros s. cbn [app]. apply two_byte_spec in H. by rewrite !wide_inside by lia.
  - split; [by apply u_three|]. intros s. cbn [app]. apply three_byte_spec in H as (H1 & H2 & H3).
    rewrite !wide_inside; [done|lia|destruct (byte_of a =? 224); lia|lia].
  - split; [by apply u_four|]. intros s. cbn [app]. apply four_byte_spec in H as (H1 & H2 & H3 & H4).
    rewrite !wide_inside; [done|lia|lia|destruct (byte_of a =? 240); lia|lia].
  - apply simple_ascii in H as [H1 H2]. split; [by repeat apply u_ascii|]. intros s. cbn [app]. by rewrite scanned_simple.
  - split; [repeat apply u_ascii; try done; by eapply utf8_quad|]. intros s. cbn [app]. rewrite <- app_assoc. by erewrite scanned_escape.
  - split; [repeat apply u_ascii; try done; eapply utf8_quad; [done|]; repeat apply u_ascii; try done; by eapply utf8_quad|].
    intros s. cbn [app]. rewrite <- app_assoc. cbn [app]. rewrite <- app_assoc. by erewrite scanned_pair.
Qed.

Lemma string_passes t dec : stringText t dec -> passes false t.
Proof.
  intros (raw & -> & [Hu Hs]%chars_pass). split.
  - apply u_ascii; [done|]. apply utf8_app; [done|]. apply u_ascii; [done|constructor].
  - intros r. cbn [app]. rewrite scanned_quote. cbn [negb]. rewrite <- app_assoc, Hs. apply scanned_quote.
Qed.

Lemma cons_passes c t : byte_of c < 128 -> c <> quote -> passes false t -> passes false (c :: t).
Proof. intros H1 H2 Ht. apply (passes_app false [c]); [by apply passes_ordinary, ordinary_byte|done]. Qed.

Ltac pass := repeat first [apply passes_nil | apply passes_app | (apply cons_passes; [done..|]) | assumption
  | (eapply string_passes; eassumption) | (apply passes_ordinary; solve [by apply ordinary_white | by apply ordinary_number | by repeat constructor])].

Lemma texts_pass d : (forall t, jsonText d t -> passes false t) /\ (forall t, elementsText d t -> passes false t) /\
  (forall t, membersText d t -> passes false t).
Proof. revert d. apply (texts_ind (fun _ => passes false) (fun _ => passes false) (fun _ => passes false)); intros; pass. Qed.

(** A strict document of bounded size passes the scan. *)
Lemma document_scanned data : document (bytes data) -> len data <= MaxControlRecordSize -> validateDefinitionEncoding data = Ok tt.
Proof.
  intros (w & t & w' & E & Hw & Ht & Hw') Hl. assert (passes false (bytes data)) as [Hu Hs].
  { rewrite E. apply passes_app; [by apply passes_ordinary, ordinary_white|]. apply passes_app; [exact (proj1 (texts_pass 0) t Ht)|].
    by apply passes_ordinary, ordinary_white. }
  unfold validateDefinitionEncoding. rewrite (proj2 (Z.ltb_ge _ _) Hl). cbn [fail_if mbind result_bind].
  apply utf8_valid in Hu. rewrite str_bytes in Hu. rewrite Hu. cbn [negb fail_if mbind result_bind].
  specialize (Hs []). rewrite app_nil_r in Hs. rewrite scan_step; [by rewrite Hs|]. by rewrite length_list_ascii.
Qed.

(** ** One string *)

(** The inside of a string as [encoding/json] reads it: any unicode escape. *)
Inductive laxChars : list ascii -> Prop :=
| lc_nil : laxChars []
| lc_plain b raw : plain b = true -> laxChars raw -> laxChars (b :: raw)
| lc_two a b raw : two_byte a b = true -> laxChars raw -> laxChars (a :: b :: raw)
| lc_three a b c raw : three_byte a b c = true -> laxChars raw -> laxChars (a :: b :: c :: raw)
| lc_four a b c d raw : four_byte a b c d = true -> laxChars raw -> laxChars (a :: b :: c :: d :: raw)
| lc_escape b r raw : simpleEscape b = Some r -> laxChars raw -> laxChars ("\"%char :: b :: raw)
| lc_unicode q r raw : hexQuad q r -> laxChars raw -> laxChars ("\"%char :: "u"%char :: q ++ raw).

(** An escape that starts like a unicode escape is one. *)
Lemma lax_escape raw : laxChars ("\"%char :: "u"%char :: raw) -> exists q r rest, raw = q ++ rest /\ hexQuad q r /\ laxChars rest.
Proof.
  inversion 1 as [|b raw' Hb|a b raw' Hb|a b c raw' Hb|a b c d raw' Hb|b r raw' Hb|q r raw' Hq]; subst; [done|..].
  - apply two_byte_spec in Hb. change (byte_of "\") with 92 in Hb. lia.
  - apply three_byte_spec in Hb as (Hb & _). change (byte_of "\") with 92 in Hb. lia.
  - apply four_byte_spec in Hb as (Hb & _). change (byte_of "\") with 92 in Hb. lia.
  - by apply simple_ascii in Hb as [_ Hb].
  - by do 3 eexists.
Qed.

(** What the scan passes over in a string is written with paired surrogates only. *)
Lemma lax_scanned raw : laxChars raw -> scanned true (raw ++ [quote]) = Ok tt -> exists dec, chars raw dec.
Proof.
  remember (length raw) as n eqn:En. assert (length raw <= n)%nat as Hn by lia. clear En. revert raw Hn.
  induction n as [|n IH]; intros raw Hn Hl Hs; [destruct raw; [eexists; constructor|cbn in Hn; lia]|].
  destruct Hl as [|b raw Hb Hl|a b raw Hb Hl|a b c raw Hb Hl|a b c d raw Hb Hl|b r raw Hb Hl|q r raw Hq Hl]; cbn [app length] in *.
  - eexists. constructor.
  - pose proof (plain_character _ Hb) as (_ & H1 & H2). rewrite scanned_inside in Hs by done.
    destruct (IH raw ltac:(lia) Hl Hs) as [dec Hd]. eexists. by apply ch_plain.
  - pose proof (proj1 (two_byte_spec _ _) Hb). rewrite !wide_inside in Hs by lia.
    destruct (IH raw ltac:(lia) Hl Hs) as [dec Hd]. eexists. by apply ch_two.
  - pose proof (proj1 (three_byte_spec _ _ _) Hb) as (H1 & H2 & H3).
    assert (128 <= byte_of b) by (destruct (byte_of a =? 224); lia). rewrite !wide_inside in Hs by lia.
    destruct (IH raw ltac:(lia) Hl Hs) as [dec Hd]. eexists. by apply ch_three.
  - pose proof (proj1 (four_byte_spec _ _ _ _) Hb) as (H1 & H2 & H3 & H4).
    assert (128 <= byte_of b) by (destruct (byte_of a =? 240); lia). rewrite !wide_inside in Hs by lia.
    destruct (IH raw ltac:(lia) Hl Hs) as [dec Hd]. eexists. by apply ch_four.
  - rewrite scanned_simple in Hs by by eapply simple_ascii.
    destruct (IH raw ltac:(lia) Hl Hs) as [dec Hd]. eexists. by apply (ch_escape b r).
  - rewrite <- app_assoc in Hs. rewrite length_app, (hexQuad_length _ _ Hq) in Hn.
    destruct (decide (55296 <= r <= 57343)) as [Hr|Hr].
    2:{ rewrite (scanned_escape q r) in Hs by done. destruct (IH raw ltac:(lia) Hl Hs) as [dec Hd]. eexists. by apply (ch_unicode q r). }
    rewrite scanned_unicode, (escape_end _ _ _ Hq) in Hs.
    destruct (_ && _) eqn:E1; [done|]. rewrite andb_false_iff, !Z.leb_gt in E1.
    destruct (_ || _) eqn:E2; [rewrite orb_true_iff, !Z.ltb_lt in E2; lia|]. clear E2.
    apply bind_Ok in Hs as (k & Hk & Hs). destruct raw as [|b [|u raw]]; [done|..]; cbn [app] in Hk.
    { apply bind_Ok in Hk as ([] & Hk%fail_if_Ok & _). done. }
    apply bind_Ok in Hk as ([] & Hk%fail_if_Ok & Hlow). bool_prop. subst b u.
    destruct (lax_escape _ Hl) as (q' & r' & rest & -> & Hq' & Hl'). rewrite <- app_assoc, (unit_value _ _ _ Hq') in Hlow.
    cbn [mbind result_bind] in Hlow. apply bind_Ok in Hlow as ([] & Hlow%fail_if_Ok & [= <-]). bool_prop.
    change 12%nat with (6 + 6)%nat in Hs. cbn [app] in Hs. rewrite <- drop_drop, (drop_escape _ _ _ Hq), <- app_assoc, (drop_escape _ _ _ Hq') in Hs.
    cbn [length] in Hn. rewrite length_app in Hn. destruct (IH rest ltac:(lia) Hl' Hs) as [dec Hd].
    eexists. apply (ch_pair q r q' r'); [done|lia|done|lia|exact Hd].
Qed.

(** C33: Before a definition is decoded, a JSON string is refused exactly when the decoder would have
    replaced part of it: among the strings [encoding/json] reads, those that pass the scan
    are the strings of the strict grammar, in which every surrogate escape belongs to a
    pair, whose bytes denote the text they spell. *)
Theorem string_scan_exact raw : laxChars raw ->
  (scanEscapes (length raw + 2) false (quote :: raw ++ [quote]) = Ok tt <-> exists dec, stringText (quote :: raw ++ [quote]) dec).
Proof.
  intros Hl. rewrite scan_step by (cbn; rewrite length_app; cbn; lia). rewrite scanned_quote. cbn [negb]. split.
  - intros [dec Hd]%lax_scanned; [|done]. exists dec. by exists raw.
  - intros (dec & raw' & [= E] & Hc). apply app_inv_tail in E as <-. apply chars_pass in Hc as [_ ->]. apply scanned_quote.
Qed.

Lemma string_scan_exact_witness :
  laxChars (bytes "a\ud83d\ude00") /\
  (scanEscapes 15 false (quote :: bytes "a\ud83d\ude00" ++ [quote]) = Ok tt <-> exists dec, stringText (quote :: bytes "a\ud83d\ude00" ++ [quote]) dec).
Proof.
  assert (laxChars (bytes "a\ud83d\ude00")) as H.
  { apply lc_plain; [done|]. apply (lc_unicode (bytes "d83d") 55357); [by do 8 eexists|].
    apply (lc_unicode (bytes "de00") 56832); [by do 8 eexists|]. constructor. }
  split; [exact H|]. exact (string_scan_exact _ H).
Defined.

(** ** Validated definitions hold valid text *)
Lemma ascii_utf8 l : Forall (fun c => byte_of c < 128) l -> utf8 l.
Proof. induction 1; by constructor. Qed.

Lemma utf8_string s : utf8 (bytes s) -> ValidString s = true.
Proof. intros H%utf8_valid. by rewrite str_bytes in H. Qed.

Lemma teamIdentifier_ascii l inWord : teamIdentifier l inWord = true -> Forall (fun c => byte_of c < 128) l.
Proof.
  revert inWord. induction l as [|c l IH]; intros inWord; cbn [teamIdentifier]; [constructor|].
  destruct (isDigit c || isLower c) eqn:E.
  - intros H%IH. constructor; [|done]. unfold isDigit, isLower, between in E. rewrite orb_true_iff, !andb_true_iff, !Z.leb_le in E. lia.
  - rewrite !andb_true_iff, bool_decide_eq_true. intros [[-> _] H%IH]. by constructor.
Qed.

Lemma teamID_valid id u : ValidateTeamID id = Ok u -> ValidString id = true.
Proof. intros H. apply fail_if_Ok in H. bool_prop. apply utf8_string, ascii_utf8. by eapply teamIdentifier_ascii. Qed.

Lemma cutBytes_found l sep word before after : cutBytes l sep word = (before, after, true) ->
  bytes before ++ sep :: bytes after = word ++ l.
Proof.
  revert word. induction l as [|c l IH]; intros word; cbn [cutBytes]; [done|]. case_bool_decide as Hc.
  - intros [= <- <-]. rewrite !bytes_str. by subst.
  - intros H%IH. by rewrite <- app_assoc in H.
Qed.

Lemma component_ascii value : validProviderComponent value = true -> Forall (fun c => byte_of c < 128) (bytes value).
Proof.
  unfold validProviderComponent. destruct (bytes value) as [|c l]; [done|]. rewrite andb_true_iff, forallb_forall. intros [Hc Hl].
  constructor; [unfold isLower, between in Hc; rewrite andb_true_iff, !Z.leb_le in Hc; lia|].
  rewrite <- (proj2 (decodeRunes_spec l)). pose proof (proj1 (decodeRunes_spec l)) as Hd. rewrite Forall_forall in Hd.
  apply Forall_concat, Forall_map, Forall_forall. intros p Hp. specialize (Hd p Hp). apply list_elem_of_In in Hp. apply Hl in Hp.
  unfold between in Hp. rewrite !orb_true_iff, !andb_true_iff, !Z.leb_le, !Z.eqb_eq in Hp.
  destruct Hd as [b Hb|a b H|a b d H|a b d e H|a]; cbn [fst snd] in *; [by repeat constructor|exfalso..].
  - apply two_byte_spec in H. lia.
  - apply three_byte_spec in H as (H1 & H2 & H3). destruct (Z.eqb_spec (byte_of a) 224); lia.
  - apply four_byte_spec in H as (H1 & H2 & H3 & H4). destruct (Z.eqb_spec (byte_of a) 240); lia.
  - unfold RuneError in Hp. lia.
Qed.

Lemma provider_valid p u : ValidateProvider p = Ok u -> ValidString p = true.
Proof.
  unfold ValidateProvider. destruct (Cut p ":") as [[name transport] found] eqn:E. intros H%fail_if_Ok. bool_prop. subst found.
  apply cutBytes_found in E. cbn [app] in E. apply utf8_string. rewrite <- E. apply utf8_app; [by apply ascii_utf8, component_ascii|].
  apply u_ascii; [done|]. by apply ascii_utf8, component_ascii.
Qed.

Lemma seenID_spec id seen : seenID id seen = true <-> id ∈ seen.
Proof.
  unfold seenID. rewrite existsb_exists. setoid_rewrite eqs_true. split; [by intros (x & H & <-); apply list_elem_of_In|].
  intros H. exists id. by rewrite <- list_elem_of_In.
Qed.

Lemma validText_valid s : validText s = true -> ValidString s = true.
Proof. unfold validText. rewrite andb_true_iff. tauto. Qed.

Definition valids (l : list string) : Prop := Forall (fun s => ValidString s = true) l.

(** An object whose keys are valid, field by field. *)
Lemma object_nil : validJson (JObject []) = true.
Proof. done. Qed.

Lemma object_cons name value l : ValidString name = true -> validJson value = true -> validJson (JObject l) = true ->
  validJson (JObject ((name, value) :: l)) = true.
Proof. intros Hn Hv Hl. cbn [validJson forallb fst snd] in *. by rewrite Hn, Hv, Hl. Qed.

Lemma object_app l l' : validJson (JObject l) = true -> validJson (JObject l') = true -> validJson (JObject (l ++ l')) = true.
Proof. intros Hl Hl'. cbn [validJson] in *. by rewrite forallb_app, Hl, Hl'. Qed.

Ltac fields := repeat first [exact object_nil | apply object_cons; [reflexivity| |]].

Lemma role_valid role seen u : validateRole role seen = Ok u -> validJson (jsonRole role) = true /\ ValidString (ro_ID role) = true.
Proof.
  unfold validateRole. intros ([] & H1%wrap_err_Ok & H2%fail_if_Ok)%bind_Ok. apply teamID_valid in H1. bool_prop.
  split; [|exact H1]. unfold jsonRole. fields; [exact H1|by apply validText_valid..].
Qed.

Lemma roles_valid roles seen ids : validateRoles seen roles = Ok ids -> valids seen ->
  forallb validJson (map jsonRole roles) = true /\ valids ids.
Proof.
  revert seen. induction roles as [|role roles IH]; intros seen; cbn [validateRoles].
  - by intros [= <-].
  - intros ([] & Hr & H)%bind_Ok Hs. apply role_valid in Hr as [Hj Hi]. destruct (IH _ H) as [IH1 IH2]; [by constructor|].
    split; [|exact IH2]. cbn [map forallb]. by rewrite Hj, IH1.
Qed.

Lemma roleIDs_valid roles used ids u : validateRoleIDs roles used ids = Ok u -> valids roles -> forallb validJson (map JString ids) = true.
Proof.
  revert used. induction ids as [|id ids IH]; intros used; cbn [validateRoleIDs map forallb]; [done|].
  intros ([] & H1%fail_if_Ok & H)%bind_Ok Hr. rewrite (IH _ H Hr). bool_prop. rewrite seenID_spec in *.
  unfold valids in Hr. rewrite Forall_forall in Hr. cbn [validJson]. by rewrite Hr.
Qed.

Lemma omitString_valid name s : ValidString name = true -> ValidString s = true -> validJson (JObject (omitString name s)) = true.
Proof. intros Hn Hs. destruct (omitString_inv name s) as [[_ ->]| ->]; [done|]. by apply object_cons. Qed.

Lemma defaults_valid d u : validateDefaults d = Ok u -> validJson (jsonDefaults d) = true.
Proof.
  unfold validateDefaults. intros ([] & H1%wrap_err_Ok & H)%bind_Ok. apply bind_Ok in H as ([] & H2%fail_if_Ok & _). bool_prop.
  apply provider_valid in H1. unfold jsonDefaults. apply object_cons; [reflexivity|exact H1|].
  apply object_app; apply omitString_valid; solve [reflexivity|assumption].
Qed.

Lemma member_valid m roles seen u : validateMember m roles seen = Ok u -> valids roles ->
  validJson (jsonMember m) = true.
Proof.
  unfold validateMember. intros ([] & H1%wrap_err_Ok & H)%bind_Ok Hr. apply bind_Ok in H as ([] & H2%fail_if_Ok & H).
  apply bind_Ok in H as ([] & H3 & H4). apply teamID_valid in H1. bool_prop. eapply roleIDs_valid in H3; [|done].
  unfold jsonMember. apply object_app; [fields; [exact H1|by apply validText_valid|exact H3]|].
  destruct (mb_ExecutionDefaults m) as [d|]; [|reflexivity]. apply object_cons; [reflexivity| |exact object_nil].
  exact (defaults_valid _ _ H4).
Qed.

Lemma members_valid roles seen members u : validateMembers roles seen members = Ok u -> valids roles ->
  forallb validJson (map jsonMember members) = true.
Proof.
  revert seen. induction members as [|m members IH]; intros seen; cbn [validateMembers map forallb]; [done|].
  intros ([] & Hm & H)%bind_Ok Hr. by rewrite (member_valid _ _ _ _ Hm Hr), (IH _ H Hr).
Qed.

Lemma team_inv t u : ValidateTeam t = Ok u -> exists roles members, tm_Roles t = Some roles /\ tm_Members t = Some members /\
  tm_SchemaVersion t = 1 /\ (exists ids, validateRoles [] roles = Ok ids /\ validateMembers ids [] members = Ok tt) /\
  ValidString (tm_ID t) = true /\ ValidString (tm_Name t) = true /\ ValidString (tm_Purpose t) = true.
Proof.
  unfold ValidateTeam. destruct (tm_Roles t) as [roles|], (tm_Members t) as [members|]; try done.
  intros ([] & H1%fail_if_Ok & H)%bind_Ok. apply bind_Ok in H as ([] & H2%wrap_err_Ok & H). apply bind_Ok in H as ([] & H3%fail_if_Ok & H).
  apply bind_Ok in H as (ids & H4 & H5). destruct u. apply teamID_valid in H2. bool_prop. exists roles, members.
  split_and!; try done; [by exists ids|by apply validText_valid..].
Qed.

Lemma team_valid t u : ValidateTeam t = Ok u -> validJson (jsonTeam t) = true.
Proof.
  intros (roles & members & Er & Em & _ & (ids & Hr & Hm) & Hi & Hn & Hp)%team_inv. apply roles_valid in Hr as [Hr Hids]; [|constructor].
  apply members_valid in Hm; [|exact Hids]. unfold jsonTeam. rewrite Er, Em.
  fields; [exact Hi|exact Hn|exact Hp|exact Hr|exact Hm].
Qed.

(** ** Encoded definitions are decoded to what they were *)

(** What the catalog relies on of the strict decoder: a canonical definition within the size
    of a control record is read back. *)
Class StrictDecoder (DecodeStrict : string -> result Team) : Prop :=
  decode_written : forall team, ValidateTeam team = Ok tt -> len (MarshalCanonical (jsonTeam team)) <= MaxControlRecordSize ->
    DecodeStrict (MarshalCanonical (jsonTeam team)) = Ok team.

(** The nesting of a definition. *)
Lemma nesting_array l n : 0 <= n -> Forall (fun j => nesting j <= n) l -> nesting (JArray l) <= n + 1.
Proof.
  intros Hn H. destruct l as [|x l]; [cbn; lia|]. cbn [nesting]. assert (foldr (fun j m => Z.max (nesting j) m) (nesting x) l <= n); [|lia].
  inversion H as [|? ? Hx Hl]; subst. clear H. induction Hl as [|y l Hy _ IH]; cbn; lia.
Qed.

Lemma nesting_object l n : 0 <= n -> Forall (fun f => nesting (snd f) <= n) l -> nesting (JObject l) <= n + 1.
Proof.
  intros Hn H. destruct l as [|[k x] l]; [cbn; lia|]. cbn [nesting].
  assert (foldr (fun f m => Z.max (nesting (snd f)) m) (nesting x) l <= n); [|lia].
  inversion H as [|? ? Hx Hl]; subst. cbn in Hx. clear H. induction Hl as [|[k' y] l Hy _ IH]; cbn in *; lia.
Qed.

Lemma nesting_omit name s n : 0 <= n -> Forall (fun f => nesting (snd f) <= n) (omitString name s).
Proof. intros H. destruct (omitString_inv name s) as [[_ ->]| ->]; [constructor|]. by repeat constructor. Qed.

Lemma team_nesting t : nesting (jsonTeam t) <= 5.
Proof.
  assert (forall r, nesting (jsonRole r) <= 1) as Hr by (intros r; by apply (nesting_object _ 0); [|repeat constructor]).
  assert (forall d, nesting (jsonDefaults d) <= 1) as Hd.
  { intros d. apply (nesting_object _ 0); [done|]. constructor; [done|]. apply Forall_app. split; by apply nesting_omit. }
  assert (forall m, nesting (jsonMember m) <= 3) as Hm.
  { intros m. apply (nesting_object _ 2); [done|]. apply Forall_app. split.
    - repeat apply Forall_cons_2; try apply Forall_nil_2; cbn [snd]; [cbn; lia..|].
      etrans; [apply (nesting_array _ 0); [done|]|lia]. by apply Forall_map, Forall_true.
    - destruct (mb_ExecutionDefaults m) as [d|]; [|constructor]. constructor; [|constructor]. cbn [snd]. specialize (Hd d). lia. }
  apply (nesting_object _ 4); [done|]. repeat apply Forall_cons_2; try apply Forall_nil_2; cbn [snd]; [cbn; lia..| |].
  - etrans; [apply (nesting_array _ 1); [done|]|lia]. apply Forall_map, Forall_forall. intros r _. apply Hr.
  - apply (nesting_array _ 3); [done|]. apply Forall_map, Forall_forall. intros m _. apply Hm.
Qed.

(** A definition as a value of its Go type. *)
Definition roleValue (r : Role) : govalue := VStruct [VString (ro_ID r); VString (ro_Name r); VString (ro_Responsibility r)].
Definition defaultsValue (d : ExecutionDefaults) : govalue := VStruct [VString (ed_Provider d); VString (ed_Model d); VString (ed_Effort d)].
Definition memberValue (m : Member) : govalue :=
  VStruct [VString (mb_ID m); VString (mb_Name m); VSlice (map VString (mb_RoleIDs m)); pointerTo (defaultsValue <$> mb_ExecutionDefaults m)].
Definition teamValue (t : Team) : govalue :=
  VStruct [VInt (tm_SchemaVersion t); VString (tm_ID t); VString (tm_Name t); VString (tm_Purpose t);
           VSlice (map roleValue (default [] (tm_Roles t))); VSlice (map memberValue (default [] (tm_Members t)))].

Lemma map_read {A B} (f : A -> B) (g : B -> A) l : (forall x, g (f x) = x) -> map g (map f l) = l.
Proof. intros H. rewrite map_map. rewrite <- (map_id l) at 2. by apply map_ext. Qed.

Lemma member_read m : memberOf (memberValue m) = m.
Proof. destruct m as [i n r [[p mo e]|]]; cbn; by rewrite map_read. Qed.

Section encoded.
Context (orbit : Z -> Z).
#[local] Abbreviation enc := (encodes orbit).

Lemma encodes_role r : enc roleType (roleValue r) (jsonRole r).
Proof. constructor. repeat (apply ef_present; [constructor|]). constructor. Qed.

Lemma encodes_defaults d : enc defaultsType (defaultsValue d) (jsonDefaults d).
Proof.
  constructor. apply ef_present; [constructor|]. apply encodes_omitString. rewrite <- (app_nil_r (omitString "effort" _)).
  apply encodes_omitString. constructor.
Qed.

Lemma encodes_member m : enc memberType (memberValue m) (jsonMember m).
Proof.
  constructor. do 2 (apply ef_present; [constructor|]). apply ef_present; [apply encodes_elements; constructor|]. cbn [app].
  rewrite <- (app_nil_r (omitempty _ _)). apply encodes_omitPointer; [|constructor]. intros d _. apply encodes_defaults.
Qed.

Lemma encodes_team t : in_int64 (tm_SchemaVersion t) -> enc teamType (teamValue t) (jsonTeam t).
Proof.
  intros Hv. constructor. apply ef_present; [by constructor|]. do 3 (apply ef_present; [constructor|]).
  do 2 (apply ef_present; [apply encodes_elements; intros; apply encodes_role || apply encodes_member|]). constructor.
Qed.
End encoded.

(** The strict decoder of the program meets it. *)
#[export] Instance decodeTeam_strict orbit `{CaseFold orbit} : StrictDecoder (decodeTeam orbit).
Proof.
  intros t Hv Hl. unfold decodeTeam. pose proof (team_inv t tt Hv) as (roles & members & Er & Em & Ev & _).
  rewrite (decode_canonical orbit teamType (teamValue t)).
  - f_equal. destruct t as [v i n p r m]. cbn in Er, Em. subst r m. cbn. rewrite !map_read; [done|apply member_read|by intros []].
  - apply distinct_ascii; [done|]. vm_compute. reflexivity.
  - apply encodes_team. by rewrite Ev.
  - done.
  - by eapply team_valid.
  - pose proof (team_nesting t). unfold maxNestingDepth. lia.
  - done.
Qed.

Lemma Encode_inv t data : Encode t = Ok data -> ValidateTeam t = Ok tt /\ data = MarshalCanonical (jsonTeam t) /\ len data <= MaxControlRecordSize.
Proof. unfold Encode. intros ([] & Hv & H)%bind_Ok. apply bind_Ok in H as ([] & Hl%fail_if_Ok & [= <-]). bool_prop. done. Qed.

Lemma decode_encoded DecodeStrict `{StrictDecoder DecodeStrict} team :
  ValidateTeam team = Ok tt -> len (MarshalCanonical (jsonTeam team)) <= MaxControlRecordSize ->
  Decode DecodeStrict (MarshalCanonical (jsonTeam team)) = Ok team.
Proof.
  intros Hv Hl. unfold Decode. rewrite document_scanned; [|apply canonical_document; etrans; [apply team_nesting|done]|done].
  cbn [wrap_err mbind result_bind]. rewrite decode_written by done. cbn [wrap_err mbind result_bind]. by rewrite Hv.
Qed.

(** C34: What the catalog writes it can read: whenever a definition is encoded, [Decode] with the
    strict decoder of [task/json.go] passes the bytes through the scan of escapes, the
    structural pass over their tokens, the check of their fields against the Go type, the
    typed decoding and the validation, and gives the definition: the encoding is never
    refused and loses nothing.  Of the case folding of Unicode it needs only what it does
    to ASCII. *)
Theorem encode_decode orbit `{CaseFold orbit} team data :
  Encode team = Ok data -> Decode (decodeTeam orbit) data = Ok team.
Proof. intros (Hv & -> & Hl)%Encode_inv. by apply (decode_encoded (decodeTeam orbit)). Qed.
