(* ===== verification/TeamCatalog.v ===== *)
(** * The team catalog

    [internal/teams]: one SQLite file that holds the revisioned definitions of teams and the
    default team of each project.  A call is one transaction ([transaction.go]): it prepares
    the file, checks the whole schema ([schema.go]) and runs its statements
    ([mutations.go], [reads.go], [defaults.go]).  Each SQL statement is the function its text
    denotes; every call into the file system and the driver may fail, and a failed
    COMMIT may or may not have taken effect. *)
From S2P Require Import Prelude GoErrors GoTime GoText TaskTypes Encoding GoPath SchedRequest SchedStore TaskConfiguration TeamContract.
From Stdlib Require Import Ascii.
From stdpp Require Import fin_maps.
#[local] Open Scope Z_scope.

(** ** Rows and files *)
Record teamKey : Set := MkKey { k_scope : string; k_kind : string; k_path : string; k_id : string }.
#[global] Instance teamKey_eq_dec : EqDecision teamKey. Proof. solve_decision. Defined.
#[global] Instance teamKey_countable : Countable teamKey.
Proof.
  apply (inj_countable' (fun k => (k_scope k, k_kind k, k_path k, k_id k)) (fun '(a, b, c, d) => MkKey a b c d)). by intros [].
Defined.

(** A row whose definition is NULL is the tombstone of a deleted team. *)
Record teamRow : Set := MkTeamRow { row_revision : Z; row_definition : option string }.

Record schemaObject : Set := MkSchemaObject { so_kind : string; so_name : string; so_sql : string }.
#[global] Instance schemaObject_eq_dec : EqDecision schemaObject. Proof. solve_decision. Defined.

(** The database in the file; [cf_Blank] when the file has no bytes. *)
Record catalogFile : Set := MkCatalogFile {
  cf_Blank : bool; cf_UserVersion : Z; cf_ApplicationID : Z; cf_JournalMode : string;
  cf_Schema : list schemaObject; cf_CatalogID : option string;
  cf_Teams : gmap teamKey teamRow; cf_Defaults : gmap (string * string) (string * string) }.

(** What SQLite sees in a file of no bytes. *)
Definition blankFile : catalogFile := MkCatalogFile true 0 0 "delete" [] None ∅ ∅.

Definition setTeams (m : gmap teamKey teamRow) (f : catalogFile) : catalogFile :=
  MkCatalogFile (cf_Blank f) (cf_UserVersion f) (cf_ApplicationID f) (cf_JournalMode f) (cf_Schema f) (cf_CatalogID f) m (cf_Defaults f).
Definition setDefaults (m : gmap (string * string) (string * string)) (f : catalogFile) : catalogFile :=
  MkCatalogFile (cf_Blank f) (cf_UserVersion f) (cf_ApplicationID f) (cf_JournalMode f) (cf_Schema f) (cf_CatalogID f) (cf_Teams f) m.

(** Directories and files by path, with their permission bits. *)
Inductive node : Set := NDir (perm : Z) | NFile (perm : Z) (file : catalogFile) | NOther.
Abbreviation world := (gmap string node).

(** ** Calls that may fail *)
Inductive call : Set :=
| CtxErr (where_ : string) | StatPath (path : string) | SyncDirectoryEntry (path : string) | LstatCatalog
| BarrierFile | CloseFile | NewConnector | BeginTx | Statement (what : string) | CloseRows (what : string)
| RandRead | Rollback | Commit | CloseDB.

(** [ev_Mkdir] and [ev_OpenFile]: an error, and whether the name exists afterwards all the
    same (created before the failure, or by a racing initializer). *)
Record environment : Type := MkEnvironment {
  ev_Fault : call -> option error;
  ev_Mkdir : string -> option (error * bool);
  ev_OpenFile : option (error * bool);
  ev_Late : option error;          (* ctx.Err() when an error is wrapped *)
  ev_Applied : bool;               (* whether a failed commit reached the file *)
  ev_Random : list Z;              (* the bytes of rand.Read *)
  ev_Darwin : bool;                (* runtime.GOOS *)
  ev_Setting : string -> Z         (* pragmas of the connection *)
}.

(** ** State, errors and early returns *)
Definition M (S A : Type) : Type := S -> result A * S.
Definition cret {S A} (a : A) : M S A := fun s => (Ok a, s).
Definition cfail {S A} (e : error) : M S A := fun s => (Err e, s).
Definition cbind {S A B} (m : M S A) (k : A -> M S B) : M S B := fun s =>
  match m s with (Ok a, s') => k a s' | (Err e, s') => (Err e, s') end.
Definition of_result {S A} (r : result A) : M S A := fun s => (r, s).
Definition gets {S A} (f : S -> A) : M S A := fun s => (Ok (f s), s).

Declare Scope team_scope.
Delimit Scope team_scope with team.
Notation "x <- m ;; k" := (cbind m (fun x => k)) (at level 100, m at next level, k at level 200, right associativity) : team_scope.
Notation "m ;;; k" := (cbind m (fun _ => k)) (at level 100, k at level 200, right associativity) : team_scope.
#[local] Open Scope team_scope.

(** ** References (catalog.go) *)
Record Catalog : Type := MkCatalog { c_path : string; c_validateDefaults : option (ExecutionDefaults -> result unit) }.

Definition validateProject (project : TeamProject) : result unit :=
  wrap_err (fun e => Joined "" [Sentinel teams_ErrProjectContext; e])
    (ValidateTeamReference (MkTeamReference "project" "validation" (Some project))).

Definition keyFor (ref : TeamReference) : teamKey :=
  match tr_Project ref with
  | Some p => MkKey (tr_Scope ref) (tp_Kind p) (tp_Path p) (tr_TeamID ref)
  | None => MkKey (tr_Scope ref) "" "" (tr_TeamID ref)
  end.

(** [key.reference()] *)
Definition keyReference (key : teamKey) : TeamReference :=
  MkTeamReference (k_scope key) (k_id key)
    (if eqs (k_scope key) "project" then Some (MkTeamProject (k_kind key) (k_path key)) else None).

(** [unavailable(ctx, action, err)] of an error. *)
Definition unavailable (env : environment) (action : string) (err : error) : error :=
  Joined action [Sentinel teams_ErrUnavailable; Joined "" (err :: option_list (ev_Late env))].

(** [c.definition(ref, definition)] *)
Definition definitionData (c : Catalog) (ref : TeamReference) (definition : Team) : result string :=
  ValidateTeamReference ref ;;
  fail_if (negb (eqs (tr_TeamID ref) (tm_ID definition)))
    (Errorf "definition ID must match the reference" (Sentinel contract_ErrInvalidDefinition)) ;;
  data ← Encode definition;
  (match c_validateDefaults c with
   | Some validate => each (fun member => match mb_ExecutionDefaults member with
                        | Some defaults => wrap_err (fun e => Joined "member defaults" [Sentinel contract_ErrInvalidDefinition; e]) (validate defaults)
                        | None => Ok tt
                        end) (default [] (tm_Members definition))
   | None => Ok tt
   end) ;;
  Ok data.

(** ** Schema (schema.go) *)
Definition nl : string := String "010" EmptyString.
Definition tab : string := String "009" EmptyString.

Definition schemaObjects : list schemaObject := [
  MkSchemaObject "table" "catalog_metadata" (String.concat nl [
    "CREATE TABLE catalog_metadata (";
    tab ++ "singleton INTEGER PRIMARY KEY CHECK (singleton = 1),";
    tab ++ "catalog_id TEXT NOT NULL CHECK (length(catalog_id) = 32 AND catalog_id NOT GLOB '*[^0-9a-f]*')";
    ") STRICT"])%string;
  MkSchemaObject "trigger" "catalog_metadata_immutable" (String.concat nl [
    "CREATE TRIGGER catalog_metadata_immutable BEFORE UPDATE ON catalog_metadata";
    "BEGIN SELECT RAISE(ABORT, 'catalog identity is immutable'); END"])%string;
  MkSchemaObject "trigger" "catalog_metadata_permanent" (String.concat nl [
    "CREATE TRIGGER catalog_metadata_permanent BEFORE DELETE ON catalog_metadata";
    "BEGIN SELECT RAISE(ABORT, 'catalog identity is permanent'); END"])%string;
  MkSchemaObject "table" "teams" (String.concat nl [
    "CREATE TABLE teams (";
    tab ++ "scope TEXT NOT NULL CHECK (scope IN ('user', 'project')),";
    tab ++ "project_kind TEXT NOT NULL,";
    tab ++ "project_path TEXT NOT NULL,";
    tab ++ "team_id TEXT NOT NULL,";
    tab ++ "revision INTEGER NOT NULL CHECK (revision > 0),";
    tab ++ "definition BLOB CHECK (definition IS NULL OR length(definition) BETWEEN 1 AND " ++ str (decimalText MaxControlRecordSize) ++ "),";
    tab ++ "PRIMARY KEY (scope, project_kind, project_path, team_id),";
    tab ++ "CHECK ((scope = 'user' AND project_kind = '' AND project_path = '') OR";
    tab ++ tab ++ "(scope = 'project' AND project_kind IN ('git', 'directory') AND project_path <> ''))";
    ") STRICT"])%string;
  MkSchemaObject "trigger" "teams_permanent" (String.concat nl [
    "CREATE TRIGGER teams_permanent BEFORE DELETE ON teams";
    "BEGIN SELECT RAISE(ABORT, 'team revision tombstones are permanent'); END"])%string;
  MkSchemaObject "table" "project_defaults" (String.concat nl [
    "CREATE TABLE project_defaults (";
    tab ++ "project_kind TEXT NOT NULL CHECK (project_kind IN ('git', 'directory')),";
    tab ++ "project_path TEXT NOT NULL CHECK (project_path <> ''),";
    tab ++ "team_scope TEXT NOT NULL CHECK (team_scope IN ('user', 'project')),";
    tab ++ "team_id TEXT NOT NULL,";
    tab ++ "PRIMARY KEY (project_kind, project_path)";
    ") STRICT"])%string ].

(** The CHECK clauses of the three tables. *)
Definition checkMetadata (id : string) : bool := hexText 32 id.

Definition checkTeam (key : teamKey) (row : teamRow) : bool :=
  (eqs (k_scope key) "user" || eqs (k_scope key) "project") && (0 <? row_revision row) &&
  (match row_definition row with None => true | Some d => (1 <=? len d) && (len d <=? MaxControlRecordSize) end) &&
  ((eqs (k_scope key) "user" && eqs (k_kind key) "" && eqs (k_path key) "") ||
   (eqs (k_scope key) "project" && (eqs (k_kind key) "git" || eqs (k_kind key) "directory") && negb (eqs (k_path key) ""))).

Definition checkDefault (project : string * string) (team : string * string) : bool :=
  (eqs (fst project) "git" || eqs (fst project) "directory") && negb (eqs (snd project) "") &&
  (eqs (fst team) "user" || eqs (fst team) "project").

Definition sameSchema (objects : list schemaObject) : bool :=
  (Z.of_nat (length objects) =? Z.of_nat (length schemaObjects)) &&
  forallb (fun object => existsb (fun candidate => bool_decide (object = candidate)) schemaObjects) objects.

(** [randomid.NewRandomID] *)
Definition NewRandomID (env : environment) : result string :=
  match ev_Fault env RandRead with
  | Some e => Err (Errorf "generating random ID" e)
  | None => Ok (str (concat (map (fun b => [hexDigit (b / 16); hexDigit (b mod 16)]) (ev_Random env))))
  end.

Section catalog.
Context (DecodeStrict : string -> result Team).

Section calls.
Context (c : Catalog) (env : environment).

(** A call of the file system or of the driver, reported by [wrap]. *)
Definition attempt {S} (k : call) (wrap : error -> error) : M S unit := fun s =>
  match ev_Fault env k with Some e => (Err (wrap e), s) | None => (Ok tt, s) end.

(** [tx.QueryRowContext(...).Scan(...)]: the raw error, [sql.ErrNoRows] without a row. *)
Definition queryRow {A} (what : string) (row : catalogFile -> option A) : M catalogFile A := fun f =>
  match ev_Fault env (Statement what), row f with
  | Some e, _ => (Err e, f)
  | None, Some a => (Ok a, f)
  | None, None => (Err (Sentinel sql_ErrNoRows), f)
  end.

(** [onNoRows] when the error is [sql.ErrNoRows]. *)
Definition noRows {A} (onNoRows : result A) (action : string) (e : error) : result A :=
  if errors_Is e sql_ErrNoRows then onNoRows else Err (unavailable env action e).

(** A statement that answers from the database, and one that changes it. *)
Definition query {A} (what action : string) (answer : catalogFile -> A) : M catalogFile A :=
  attempt (Statement what) (unavailable env action) ;;; gets answer.

Definition exec (what action : string) (change : catalogFile -> option catalogFile) : M catalogFile unit :=
  attempt (Statement what) (unavailable env action) ;;;
  fun f => match change f with
           | Some f' => (Ok tt, f')
           | None => (Err (unavailable env action (Sqlite SQLITE_CONSTRAINT_CHECK)), f)
           end.

(** [resultErr = joinClose(resultErr, closeErr)] *)
Definition joinClose {A} (m : result A) (closeErr : option error) : result A :=
  match closeErr with
  | None => m
  | Some e => Err (Joined "" (option_list (err_of m) ++ [Joined "closing catalog resource" [Sentinel teams_ErrUnavailable; e]]))
  end.

(** The result of [m] joined with that of a deferred close. *)
Definition closing {S A} (k : call) (m : M S A) : M S A := fun s => let '(r, s') := m s in (joinClose r (ev_Fault env k), s').

Definition readSchema : M catalogFile (list schemaObject) :=
  attempt (Statement "schema") (unavailable env "reading schema") ;;;
  closing (CloseRows "schema")
    (attempt (Statement "schema row") (unavailable env "decoding schema") ;;;
     query "schema rows" "reading schema" cf_Schema).

Definition verifyJournal : M catalogFile unit :=
  mode <- query "journal_mode" "reading journal mode (writer recovery may be required)" cf_JournalMode ;;
  of_result (fail_if (negb (eqs mode "delete")) (Errorf "expected DELETE rollback journal" (Sentinel teams_ErrSchema))).

Definition readCatalogID : M catalogFile string := fun f =>
  match queryRow "catalog_id" cf_CatalogID f with
  | (Err e, f) => (noRows (Err (Errorf "missing catalog identity" (Sentinel teams_ErrSchema))) "reading catalog identity" e, f)
  | (Ok id, f) => (wrap_err (fun e => Joined "metadata identity" [Sentinel teams_ErrSchema; e]) (ValidateRootID id) ;; Ok id, f)
  end.

(** [CREATE TABLE] and [CREATE TRIGGER] *)
Definition createObject (object : schemaObject) : M catalogFile unit :=
  exec (so_name object) "initializing schema" (fun f =>
    Some (MkCatalogFile (cf_Blank f) (cf_UserVersion f) (cf_ApplicationID f) (cf_JournalMode f)
            (cf_Schema f ++ [object]) (cf_CatalogID f) (cf_Teams f) (cf_Defaults f))).

Fixpoint createObjects (objects : list schemaObject) : M catalogFile unit :=
  match objects with
  | [] => cret tt
  | object :: rest => createObject object ;;; createObjects rest
  end.

Definition initializeSchema : M catalogFile unit :=
  id <- of_result (wrap_err (unavailable env "generating catalog identity") (NewRandomID env)) ;;
  createObjects schemaObjects ;;;
  exec "insert catalog_id" "initializing identity" (fun f =>
    if checkMetadata id then
      Some (MkCatalogFile (cf_Blank f) (cf_UserVersion f) (cf_ApplicationID f) (cf_JournalMode f)
              (cf_Schema f) (Some id) (cf_Teams f) (cf_Defaults f))
    else None) ;;;
  exec "user_version = 1" "initializing version" (fun f =>
    Some (MkCatalogFile (cf_Blank f) 1 (cf_ApplicationID f) (cf_JournalMode f)
            (cf_Schema f) (cf_CatalogID f) (cf_Teams f) (cf_Defaults f))).

Definition guardSchema (initialize : bool) : M catalogFile string :=
  version <- query "user_version" "reading schema version (writer recovery may be required)" cf_UserVersion ;;
  verifyJournal ;;;
  applicationID <- query "application_id" "reading application identity" cf_ApplicationID ;;
  of_result (fail_if (negb (applicationID =? 0)) (Errorf "foreign application identity" (Sentinel teams_ErrSchema))) ;;;
  objects <- readSchema ;;
  (if initialize && (version =? 0) && (Z.of_nat (length objects) =? 0) then
     attempt (StatPath (c_path c)) (unavailable env "inspecting uninitialized catalog") ;;;
     blank <- gets cf_Blank ;;
     of_result (fail_if (negb blank) (Errorf "existing database is not an empty initialization file" (Sentinel teams_ErrSchema))) ;;;
     initializeSchema
   else of_result (fail_if (negb (version =? 1) || negb (sameSchema objects))
                     (Errorf "unexpected schema or user_version" (Sentinel teams_ErrSchema)))) ;;;
  readCatalogID.

(** ** Transactions (transaction.go) *)
Inductive catalogMode : Set := catalogRead | catalogWrite | catalogCreate.
#[global] Instance catalogMode_eq_dec : EqDecision catalogMode. Proof. solve_decision. Defined.

Definition writes (mode : catalogMode) : bool := negb (bool_decide (mode = catalogRead)).

Definition errUnavailable (msg : string) : error := Errorf msg (Sentinel teams_ErrUnavailable).
Definition wrapUnavailable (msg : string) (e : error) : error := Joined msg [Sentinel teams_ErrUnavailable; e].

(** [os.Stat] of a directory entry. *)
Definition stat (path : string) : M world node := fun w =>
  match ev_Fault env (StatPath path), w !! path with
  | Some e, _ => (Err e, w)
  | None, Some n => (Ok n, w)
  | None, None => (Err (Sentinel fs_ErrNotExist), w)
  end.

(** [if err != nil { return wrap(err) }] *)
Definition onError {S A} (wrap : error -> error) (m : M S A) : M S A := fun s =>
  match m s with (Err e, s') => (Err (wrap e), s') | r => r end.

(** [os.Mkdir(path, 0o700)] *)
Definition mkdir (path : string) : M world unit := fun w =>
  match w !! path, ev_Mkdir env path with
  | Some _, _ => (Err (Sentinel fs_ErrExist), w)
  | None, None => (Ok tt, <[path := NDir 448]> w)
  | None, Some (e, exists_) => (Err e, if exists_ then <[path := NDir 448]> w else w)
  end.

Fixpoint ensureDirectory (fuel : nat) (path : string) : M world unit :=
  match fuel with
  | O => cfail (New "out of fuel")
  | S fuel' =>
      attempt (CtxErr path) (unavailable env "creating catalog directory") ;;;
      (fun w =>
         match stat path w with
         | (Ok (NDir _), w) => (Ok tt, w)
         | (Ok _, w) => (Err (errUnavailable "catalog ancestor must be a directory"), w)
         | (Err e, w) =>
             if errors_Is e fs_ErrNotExist then
               (ensureDirectory fuel' (Dir path) ;;;
                fun w => match mkdir path w with
                         | (Err e, w) => if errors_Is e fs_ErrExist then (Ok tt, w)
                                         else (Err (unavailable env "creating catalog directory" e), w)
                         | r => r
                         end) w
             else (Err (unavailable env "inspecting catalog directory" e), w)
         end) ;;;
      attempt (SyncDirectoryEntry path) (unavailable env "syncing catalog directory")
  end.

Definition privateDirectory (directory : string) : M world unit :=
  info <- onError (wrapUnavailable "inspecting catalog directory") (stat directory) ;;
  of_result (fail_if (match info with NDir perm => negb (perm =? 448) | _ => true end)
    (errUnavailable "catalog directory must be private (0700)")).

(** [os.OpenFile(path, os.O_CREATE|os.O_EXCL|os.O_RDWR, 0o600)] *)
Definition openExclusive (path : string) : M world unit := fun w =>
  match w !! path, ev_OpenFile env with
  | Some _, _ => (Err (Sentinel fs_ErrExist), w)
  | None, None => (Ok tt, <[path := NFile 384 blankFile]> w)
  | None, Some (e, exists_) => (Err e, if exists_ then <[path := NFile 384 blankFile]> w else w)
  end.

Definition createDatabase (path : string) : M world unit :=
  let directory := Dir path in
  ensureDirectory (S (String.length path)) directory ;;;
  privateDirectory directory ;;;
  fun w =>
    match openExclusive path w with
    | (Err e, w) => if errors_Is e fs_ErrExist then (Ok tt, w) else (Err (wrapUnavailable "creating catalog file" e), w)
    | (Ok _, w) =>
        match errors_Join [ev_Fault env BarrierFile; ev_Fault env CloseFile] with
        | Some e => (Err (wrapUnavailable "syncing new catalog" e), w)
        | None => attempt (SyncDirectoryEntry directory) (wrapUnavailable "syncing catalog directory entry") w
        end
    end.

Definition prepare (mode : catalogMode) : M world unit :=
  of_result (fail_if (negb (IsAbs (c_path c)) || negb (eqs (Clean (c_path c)) (c_path c)))
    (errUnavailable "catalog path must be absolute and clean")) ;;;
  (if bool_decide (mode = catalogCreate) then createDatabase (c_path c) else cret tt) ;;;
  fun w =>
    match (match ev_Fault env LstatCatalog, w !! c_path c with
           | Some e, _ => Err e
           | None, Some n => Ok n
           | None, None => Err (Sentinel fs_ErrNotExist)
           end) with
    | Err e => (Err (if errors_Is e fs_ErrNotExist then Sentinel teams_errMissingCatalog
                     else wrapUnavailable "inspecting catalog" e), w)
    | Ok info =>
        (of_result (fail_if (match info with NFile perm _ => writes mode && negb (perm =? 384) | _ => true end)
           (errUnavailable "catalog must be a regular file (0600 for mutation)")) ;;;
         if writes mode then privateDirectory (Dir (c_path c)) else cret tt) w
    end.

Fixpoint verifySettings (settings : list (string * Z)) : M catalogFile unit :=
  match settings with
  | [] => cret tt
  | (name, want) :: rest =>
      value <- query name "checking durability" (fun _ => ev_Setting env name) ;;
      of_result (fail_if (negb (value =? want)) (errUnavailable "required setting")) ;;;
      verifySettings rest
  end.

Definition verifyDurability : M catalogFile unit :=
  verifySettings (("synchronous"%string, 3) :: if ev_Darwin env then [("fullfsync"%string, 1)] else []).

(** The context always has a deadline: [transact] sets one. *)
Definition boundCommit : M catalogFile unit := query "busy_timeout" "bounding commit wait" (fun _ => tt).

(** [defer] of [tx.Rollback], after a failure that left the transaction open. *)
Definition rollback {A} (m : result A) : result A :=
  match ev_Fault env Rollback with
  | Some e => if errors_Is e sql_ErrTxDone then m else joinClose m (Some e)
  | None => m
  end.

(** A file that a schema was committed to has bytes. *)
Definition committed (f : catalogFile) : catalogFile :=
  MkCatalogFile (cf_Blank f && bool_decide (cf_Schema f = [])) (cf_UserVersion f) (cf_ApplicationID f) (cf_JournalMode f)
    (cf_Schema f) (cf_CatalogID f) (cf_Teams f) (cf_Defaults f).

(** From [BeginTx] to the deferred calls, on the file the transaction opened: the result,
    and the file afterwards. *)
Definition transaction {A} (mode : catalogMode) (body : string -> M catalogFile A) (f : catalogFile) : result A * catalogFile :=
  match ev_Fault env BeginTx with
  | Some e => (joinClose (Err (unavailable env "beginning transaction (writer recovery may be required)" e)) (ev_Fault env CloseDB), f)
  | None =>
      let steps :=
        (if writes mode then verifyDurability else cret tt) ;;;
        id <- guardSchema (bool_decide (mode = catalogCreate)) ;;
        a <- body id ;;
        (if writes mode then boundCommit else cret tt) ;;;
        cret a in
      match steps f with
      | (Err e, _) => (joinClose (rollback (Err e)) (ev_Fault env CloseDB), f)
      | (Ok a, f') =>
          match ev_Fault env Commit with
          | Some e => (joinClose (Err (unavailable env "committing transaction; inspect durable state before retrying mutation" e))
                         (ev_Fault env CloseDB), if ev_Applied env && writes mode then committed f' else f)
          | None => (joinClose (Ok a) (ev_Fault env CloseDB), if writes mode then committed f' else f')
          end
      end
  end.

Definition transact {A} (mode : catalogMode) (body : string -> M catalogFile A) : M world A :=
  attempt (CtxErr "") (unavailable env "opening catalog") ;;;
  prepare mode ;;;
  attempt NewConnector (unavailable env "opening connector") ;;;
  fun w =>
    match w !! c_path c with
    | Some (NFile perm f) => let '(r, f') := transaction mode body f in (r, <[c_path c := NFile perm f']> w)
    | _ => (Err (unavailable env "beginning transaction (writer recovery may be required)" (Sentinel fs_ErrNotExist)), w)
    end.

(** [errors.Is(err, errMissingCatalog)] *)
Definition missing {A} (replacement : result A) (m : M world A) : M world A := fun w =>
  match m w with
  | (Err e, w') => (if errors_Is e teams_errMissingCatalog then replacement else Err e, w')
  | r => r
  end.

(** ** Reads (reads.go) *)
Definition decodeRecord (ref : TeamReference) (revision : Z) (data : string) : result TeamRecord :=
  wrap_err (fun e => Joined "stored reference" [Sentinel contract_ErrInvalidDefinition; e]) (ValidateTeamReference ref) ;;
  definition ← Decode DecodeStrict data;
  fail_if (negb (eqs (tm_ID definition) (tr_TeamID ref)) || (revision <? 1))
    (Errorf "stored identity/revision mismatch" (Sentinel contract_ErrInvalidDefinition)) ;;
  canonical ← Encode definition;
  fail_if (negb (eqs canonical data)) (Errorf "stored definition is not canonical" (Sentinel contract_ErrInvalidDefinition)) ;;
  Ok (MkTeamRecord ref revision definition).

Definition scanTeam (key : teamKey) : M catalogFile teamRow := queryRow "team row" (fun f => cf_Teams f !! key).

Definition lookupTeam (ref : TeamReference) : M catalogFile TeamRecord := fun f =>
  match scanTeam (keyFor ref) f with
  | (Err e, f) => (noRows (Err (Sentinel teams_ErrNotFound)) "reading Team" e, f)
  | (Ok row, f) =>
      match row_definition row with
      | None => (Err (Sentinel teams_ErrNotFound), f)
      | Some data => (decodeRecord ref (row_revision row) data, f)
      end
  end.

Definition Lookup (ref : TeamReference) : M world (TeamRecord * string) :=
  of_result (ValidateTeamReference ref) ;;;
  missing (Err (Sentinel teams_ErrNotFound))
    (transact catalogRead (fun id => record <- lookupTeam ref ;; cret (record, id))).

Definition findMember (id : string) (members : list Member) : option Member := find (fun member => eqs (mb_ID member) id) members.

Definition ResolveMember (target : TeamTarget) : M world ResolvedMember :=
  of_result (ValidateTeamTarget target false) ;;;
  missing (Err (Sentinel teams_ErrNotFound)) (transact catalogRead (fun id =>
    of_result (fail_if (negb (eqs (tt_CatalogID target) "") && negb (eqs (tt_CatalogID target) id)) (Sentinel teams_ErrCatalogIdentity)) ;;;
    record <- lookupTeam (tt_Team target) ;;
    match findMember (tt_MemberID target) (default [] (tm_Members (rec_Definition record))) with
    | Some member => cret (MkResolvedMember id record member)
    | None => cfail (Sentinel teams_ErrNotFound)
    end)).

Record Diagnostic : Set := MkTeamDiagnostic { dg_Code : string; dg_Message : string; dg_Reference : option TeamReference }.

Record Listing : Set := MkListing { ls_CatalogID : string; ls_Records : list TeamRecord; ls_Diagnostics : list Diagnostic }.

(** [ORDER BY scope, project_kind, project_path, team_id] under the BINARY collation. *)
Fixpoint compareTexts (a b : list string) : comparison :=
  match a, b with
  | x :: a', y :: b' => match String.compare x y with Eq => compareTexts a' b' | o => o end
  | [], [] => Eq
  | [], _ => Lt
  | _, [] => Gt
  end.

Definition keyTexts (k : teamKey) : list string := [k_scope k; k_kind k; k_path k; k_id k].

Definition rowOrder (a b : teamKey * teamRow) : Prop := compareTexts (keyTexts (fst a)) (keyTexts (fst b)) <> Gt.
#[local] Instance rowOrder_dec : RelDecision rowOrder. Proof. intros a b. unfold rowOrder. apply _. Defined.

(** The WHERE clause of the listing. *)
Definition listed (kind path : string) (key : teamKey) (row : teamRow) : bool :=
  valid (row_definition row) &&
  (eqs (k_scope key) "user" || (eqs (k_scope key) "project" && eqs (k_kind key) kind && eqs (k_path key) path)).

Definition listedRows (kind path : string) (f : catalogFile) : list (teamKey * teamRow) :=
  merge_sort rowOrder (List.filter (fun r => listed kind path (fst r) (snd r)) (map_to_list (cf_Teams f))).

(** One iteration of the loop over the rows. *)
Definition listRow (result : Listing) (r : teamKey * teamRow) : Listing :=
  let ref := keyReference (fst r) in
  match decodeRecord ref (row_revision (snd r)) (default ""%string (row_definition (snd r))) with
  | Ok record => MkListing (ls_CatalogID result) (ls_Records result ++ [record]) (ls_Diagnostics result)
  | Err _ => MkListing (ls_CatalogID result) (ls_Records result)
               (ls_Diagnostics result ++ [MkTeamDiagnostic "invalid_record" "Stored Team is invalid and cannot be selected." (Some ref)])
  end.

Definition listRecords (project : option TeamProject) (result : Listing) : M catalogFile Listing :=
  let '(kind, path) := match project with Some p => (tp_Kind p, tp_Path p) | None => (""%string, ""%string) end in
  rows <- query "listing" "listing Teams" (listedRows kind path) ;;
  closing (CloseRows "listing") (query "listing rows" "reading Team listing" (fun _ => foldl listRow result rows)).

(** [c.List] *)
Definition ListTeams (project : option TeamProject) : M world Listing :=
  of_result (when_some project validateProject) ;;;
  missing (Ok (MkListing "" [] [])) (transact catalogRead (fun id => listRecords project (MkListing id [] []))).

(** ** Mutations (mutations.go) *)
Definition nextRevision (ref : TeamReference) (expected : Z) : M catalogFile Z := fun f =>
  match scanTeam (keyFor ref) f with
  | (Err e, f) => (noRows (if negb (expected =? 0) then Err (Sentinel teams_ErrNotFound) else Ok 1) "reading Team revision" e, f)
  | (Ok row, f) =>
      let revision := row_revision row in
      let active := valid (row_definition row) in
      (if negb (expected =? 0) && negb active then Err (Sentinel teams_ErrNotFound)
       else if ((expected =? 0) && active) || (negb (expected =? 0) && negb (expected =? revision)) || (revision =? max_int64)
       then Err (Sentinel teams_ErrConflict)
       else if revision <? 1 then Err (Errorf "invalid stored revision" (Sentinel teams_ErrSchema))
       else Ok (revision + 1), f)
  end.

(** [INSERT ... ON CONFLICT DO UPDATE], under the CHECK clauses of the table. *)
Definition upsertTeam (key : teamKey) (row : teamRow) (f : catalogFile) : option catalogFile :=
  if checkTeam key row then Some (setTeams (<[key := row]> (cf_Teams f)) f) else None.

(** [UPDATE teams SET revision = ?, definition = NULL WHERE ...] *)
Definition retireTeam (key : teamKey) (revision : Z) (f : catalogFile) : option catalogFile :=
  match cf_Teams f !! key with
  | Some _ => upsertTeam key (MkTeamRow revision None) f
  | None => Some f
  end.

Definition save (ref : TeamReference) (expected : Z) (definition : Team) : M world (TeamRecord * string) :=
  data <- of_result (definitionData c ref definition) ;;
  let mode := if expected =? 0 then catalogCreate else catalogWrite in
  missing (Err (Sentinel teams_ErrNotFound)) (transact mode (fun id =>
    revision <- nextRevision ref expected ;;
    exec "save" "saving Team" (upsertTeam (keyFor ref) (MkTeamRow revision (Some data))) ;;;
    record <- of_result (decodeRecord ref revision data) ;;
    cret (record, id))).

Definition Register (ref : TeamReference) (definition : Team) : M world (TeamRecord * string) := save ref 0 definition.

Definition errExpectedRevision : error := Errorf "expected revision must be positive" (Sentinel teams_ErrConflict).

Definition Update (ref : TeamReference) (expected : Z) (definition : Team) : M world (TeamRecord * string) :=
  of_result (fail_if (expected <? 1) errExpectedRevision) ;;; save ref expected definition.

(** [c.Delete] *)
Definition DeleteTeam (ref : TeamReference) (expected : Z) : M world Z :=
  of_result (ValidateTeamReference ref) ;;;
  of_result (fail_if (expected <? 1) errExpectedRevision) ;;;
  missing (Err (Sentinel teams_ErrNotFound)) (transact catalogWrite (fun _ =>
    revision <- nextRevision ref expected ;;
    exec "delete" "deleting Team" (retireTeam (keyFor ref) revision) ;;;
    cret revision)).

(** ** Defaults (defaults.go) *)
Record DefaultResult : Set := MkDefaultResult { df_Status : string; df_Reference : option TeamReference; df_Record : option TeamRecord }.

Definition projectKey (project : TeamProject) : string * string := (tp_Kind project, tp_Path project).

(** The row of a project's default, and the team it names. *)
Definition readDefault (project : TeamProject) : M catalogFile DefaultResult := fun f =>
  match queryRow "default" (fun f => cf_Defaults f !! projectKey project) f with
  | (Err e, f) => (noRows (Ok (MkDefaultResult "unset" None None)) "reading project default" e, f)
  | (Ok (scope, id), f) =>
      let ref := MkTeamReference scope id (if eqs scope "project" then Some project else None) in
      match wrap_err (fun e => Joined "project default" [Sentinel teams_ErrSchema; e]) (ValidateTeamReference ref) with
      | Err e => (Err e, f)
      | Ok _ =>
          match lookupTeam ref f with
          | (Err e, f) => (if errors_Is e teams_ErrNotFound then Ok (MkDefaultResult "stale" (Some ref) None) else Err e, f)
          | (Ok record, f) => (Ok (MkDefaultResult "resolved" (Some ref) (Some record)), f)
          end
      end
  end.

(** [c.Default] *)
Definition ProjectDefault (project : TeamProject) : M world DefaultResult :=
  of_result (validateProject project) ;;;
  missing (Ok (MkDefaultResult "unset" None None)) (transact catalogRead (fun _ => readDefault project)).

Definition SetDefault (project : TeamProject) (ref : TeamReference) : M world unit :=
  of_result (validateProject project) ;;;
  of_result (ValidateTeamReference ref) ;;;
  of_result (fail_if (match tr_Project ref with Some p => negb (bool_decide (p = project)) | None => false end)
    (Sentinel teams_ErrProjectMismatch)) ;;;
  missing (Err (Sentinel teams_ErrNotFound)) (transact catalogWrite (fun _ =>
    lookupTeam ref ;;;
    exec "set default" "setting project default" (fun f =>
      if checkDefault (projectKey project) (tr_Scope ref, tr_TeamID ref)
      then Some (setDefaults (<[projectKey project := (tr_Scope ref, tr_TeamID ref)]> (cf_Defaults f)) f) else None))).

Definition ClearDefault (project : TeamProject) : M world unit :=
  of_result (validateProject project) ;;;
  missing (Ok tt) (transact catalogWrite (fun _ =>
    exec "clear default" "clearing project default" (fun f =>
      Some (setDefaults (delete (projectKey project) (cf_Defaults f)) f)))).
End calls.
End catalog.

(** ** Projects (project.go) *)

(** [filepath.Rel] of two absolute paths, and [filepath.IsLocal]. *)
Definition components (path : string) : list string := List.filter (fun part => negb (eqs part "")) (Split (Clean path) "/").

Fixpoint dropCommon (base target : list string) : list string * list string :=
  match base, target with
  | b :: base', t :: target' => if eqs b t then dropCommon base' target' else (base, target)
  | _, _ => (base, target)
  end.

Definition Rel (base target : string) : result string :=
  if negb (Bool.eqb (IsAbs base) (IsAbs target)) then Err (New "Rel: can't make relative")
  else let '(b, t) := dropCommon (components base) (components target) in
       match map (fun _ => ".."%string) b ++ t with
       | [] => Ok "."%string
       | parts => Ok (String.concat "/" parts)
       end.

Definition IsLocal (path : string) : bool :=
  negb (IsAbs path) && negb (eqs path "") && negb (eqs (Clean path) "..") && negb (HasPrefix (Clean path) "../").

(** What the file system and git answer. *)
Record projectPorts : Type := MkProjectPorts {
  pp_Context : option error;
  pp_EvalSymlinks : string -> result string;
  pp_IsDir : string -> result bool;                      (* os.Stat, info.IsDir() *)
  pp_RepositoryIdentity : string -> result string        (* git.ResolveRepositoryIdentity: CommonDir *)
}.

Definition projectContext (msg : string) (e : error) : error := Joined msg [Sentinel teams_ErrProjectContext; e].

Definition canonicalDirectory (ports : projectPorts) (path : string) : result string :=
  fail_if (negb (IsCanonicalCwd path)) (Errorf "directory must be an explicit absolute, clean path" (Sentinel teams_ErrProjectContext)) ;;
  canonical ← wrap_err (projectContext "resolving directory") (pp_EvalSymlinks ports path);
  isDir ← wrap_err (projectContext "inspecting directory") (pp_IsDir ports canonical);
  fail_if (negb isDir) (Errorf "expected an existing directory" (Sentinel teams_ErrProjectContext)) ;;
  Ok canonical.

Definition ResolveProject (ports : projectPorts) (cwd projectRoot : string) : result TeamProject :=
  match pp_Context ports with
  | Some e => Err (projectContext "" e)
  | None =>
      directory ← canonicalDirectory ports cwd;
      match pp_RepositoryIdentity ports directory with
      | Ok commonDir =>
          fail_if (negb (eqs projectRoot "")) (Errorf "project-root is only valid outside Git" (Sentinel teams_ErrProjectContext)) ;;
          Ok (MkTeamProject "git" commonDir)
      | Err e =>
          fail_if (negb (errors_Is e workspace_ErrNotGitRepository)) (projectContext "observing Git identity" e) ;;
          fail_if (eqs projectRoot "") (Errorf "outside Git, supply an absolute project-root containing cwd" (Sentinel teams_ErrProjectContext)) ;;
          root ← canonicalDirectory ports projectRoot;
          relative ← wrap_err (projectContext "comparing project-root and cwd") (Rel root directory);
          fail_if (negb (IsLocal relative)) (Errorf "cwd must be contained in project-root" (Sentinel teams_ErrProjectMismatch)) ;;
          Ok (MkTeamProject "directory" root)
      end
  end.
