(* ===== verification/TeamCatalogProps.v ===== *)
(** * The team catalog: transactions and revisions

    What a transaction leaves of the file, under any faults: rows are only replaced by rows
    of a greater revision, and an initialized catalog keeps its identity. *)
From stdpp Require Import fin_maps.
From S2P Require Import Prelude GoErrors GoTime GoText TaskTypes Encoding GoPath SchedRequest SchedStore TaskConfiguration TeamContract TeamContractProps TeamCatalog.
From Stdlib Require Import Ascii.
#[local] Open Scope Z_scope.
#[local] Open Scope team_scope.

(** ** Steps that keep a relation *)
Definition keeps {S A} (R : S -> S -> Prop) (m : M S A) : Prop := forall s, R s (snd (m s)).

Lemma cbind_inv {S A B} (m : M S A) (k : A -> M S B) s r s' : cbind m k s = (r, s') ->
  (exists a s1, m s = (Ok a, s1) /\ k a s1 = (r, s')) \/ (exists e, m s = (Err e, s') /\ r = Err e).
Proof. unfold cbind. destruct (m s) as [[a|e] s1] eqn:E; [left; eauto|]. intros [= <- <-]. right. eauto. Qed.

Lemma cbind_Ok {S A B} (m : M S A) (k : A -> M S B) s b s' : cbind m k s = (Ok b, s') ->
  exists a s1, m s = (Ok a, s1) /\ k a s1 = (Ok b, s').
Proof. intros [H|(e & _ & [=])]%cbind_inv. exact H. Qed.

Section keeps.
Context {S : Type} (R : S -> S -> Prop) `{!PreOrder R}.

Lemma keeps_bind {A B} (m : M S A) (k : A -> M S B) : keeps R m -> (forall a, keeps R (k a)) -> keeps R (cbind m k).
Proof.
  intros Hm Hk s. unfold cbind. specialize (Hm s). destruct (m s) as [[a|e] s1]; cbn in *; [|done]. etrans; [exact Hm|apply Hk].
Qed.

Lemma kept_ret {A} (a : A) : keeps R (cret a). Proof. intros s. reflexivity. Qed.
Lemma keeps_fail {A} (e : error) : keeps R (cfail (A := A) e). Proof. intros s. reflexivity. Qed.
Lemma keeps_of_result {A} (r : result A) : keeps R (of_result r). Proof. intros s. reflexivity. Qed.
Lemma keeps_gets {A} (f : S -> A) : keeps R (gets f). Proof. intros s. reflexivity. Qed.
Lemma kept_attempt env k wrap : keeps R (attempt env k wrap).
Proof. intros s. unfold attempt. by case_match. Qed.
Lemma keeps_if {A} (b : bool) (m n : M S A) : keeps R m -> keeps R n -> keeps R (if b then m else n).
Proof. by destruct b. Qed.
End keeps.

Create HintDb keeps.
#[export] Hint Resolve kept_ret keeps_fail keeps_of_result keeps_gets kept_attempt : keeps.
Ltac keeps := repeat match goal with
  | |- keeps _ (cbind _ _) => apply keeps_bind; [apply _| |intros ?]
  | |- keeps _ (if _ then _ else _) => apply keeps_if
  | |- keeps _ _ => solve [eauto with keeps typeclass_instances]
  end.

Lemma keeps_query {A} (R : catalogFile -> catalogFile -> Prop) `{!PreOrder R} env what action (answer : catalogFile -> A) : keeps R (query env what action answer).
Proof. unfold query. keeps. Qed.

Lemma keeps_queryRow {A} (R : catalogFile -> catalogFile -> Prop) `{!PreOrder R} env what (row : catalogFile -> option A) : keeps R (queryRow env what row).
Proof. intros f. unfold queryRow. repeat case_match; reflexivity. Qed.
#[export] Hint Resolve keeps_query keeps_queryRow : keeps.

(** A statement changes the file only as its text says. *)
Lemma keeps_exec (R : catalogFile -> catalogFile -> Prop) `{!PreOrder R} env what action change :
  (forall f f', change f = Some f' -> R f f') -> keeps R (exec env what action change).
Proof.
  intros H.  unfold exec. keeps. intros f. destruct (change f) as [f'|] eqn:E; cbn; [by apply H|reflexivity].
Qed.

(** ** Reads leave the file as it is *)
Abbreviation reads := (keeps eq).

Lemma reads_eq {S A} (m : M S A) s r s' : reads m -> m s = (r, s') -> s' = s.
Proof. intros H E. specialize (H s). by rewrite E in H. Qed.

Lemma reads_verifySettings env settings : reads (verifySettings env settings).
Proof. induction settings as [|[name want] rest IH]; cbn [verifySettings]; keeps; done. Qed.

Lemma reads_verifyDurability env : reads (verifyDurability env).
Proof. apply reads_verifySettings. Qed.

Lemma reads_closing {S A} env k (m : M S A) : reads m -> reads (closing env k m).
Proof. intros H s. unfold closing. specialize (H s). by destruct (m s). Qed.

Lemma reads_readSchema env : reads (readSchema env).
Proof. unfold readSchema. keeps. apply reads_closing. by keeps. Qed.

Lemma reads_readCatalogID env : reads (readCatalogID env).
Proof.
  intros f. unfold readCatalogID. destruct (queryRow env _ _ f) as [[id|e] f1] eqn:E; apply reads_eq in E as ->; try done; by keeps.
Qed.

Lemma reads_scanTeam env key : reads (scanTeam env key).
Proof. unfold scanTeam. by keeps. Qed.

Section decoder.
Context (DecodeStrict : string -> result Team).

Lemma reads_lookupTeam env ref : reads (lookupTeam DecodeStrict env ref).
Proof.
  intros f. unfold lookupTeam. destruct (scanTeam env _ f) as [[row|e] f1] eqn:E; (apply reads_eq in E as ->; [|apply reads_scanTeam]); [|done].
  by destruct (row_definition row).
Qed.

Lemma reads_listRecords env project listing : reads (listRecords DecodeStrict env project listing).
Proof.
  unfold listRecords. destruct (match project with Some _ => _ | None => _ end) as [kind path]. keeps. apply reads_closing. by keeps.
Qed.

Lemma reads_readDefault env project : reads (readDefault DecodeStrict env project).
Proof.
  intros f. unfold readDefault. destruct (queryRow env _ _ f) as [[[scope id]|e] f1] eqn:E; (apply reads_eq in E as ->; [|by keeps]); [|done].
  destruct (wrap_err _ _); [|done]. destruct (lookupTeam DecodeStrict env _ f) as [[record|e] f1] eqn:E; by (apply reads_eq in E as ->; [|apply reads_lookupTeam]).
Qed.
End decoder.

Lemma reads_nextRevision env ref expected : reads (nextRevision env ref expected).
Proof.
  intros f. unfold nextRevision. destruct (scanTeam env _ f) as [[row|e] f1] eqn:E; by (apply reads_eq in E as ->; [|apply reads_scanTeam]).
Qed.

(** ** What a file keeps *)
Definition rowEvolves (row row' : teamRow) : Prop := row' = row \/ row_revision row < row_revision row'.

Definition evolves (f f' : catalogFile) : Prop :=
  (forall key row, cf_Teams f !! key = Some row -> exists row', cf_Teams f' !! key = Some row' /\ rowEvolves row row') /\
  (cf_UserVersion f = 1 -> cf_UserVersion f' = 1 /\ cf_CatalogID f' = cf_CatalogID f).

#[export] Instance rowEvolves_preorder : PreOrder rowEvolves.
Proof. split; [by left|]. intros a b c [->|H] [->|H']; unfold rowEvolves; try tauto. right. lia. Qed.

#[export] Instance evolves_preorder : PreOrder evolves.
Proof.
  split.
  - intros f. split; [|done]. intros key row H. exists row. split; [done|reflexivity].
  - intros a b c [H1 H2] [H3 H4]. split.
    + intros key row (row' & H & E)%H1. apply H3 in H as (row'' & H & E'). exists row''. split; [done|]. by etrans.
    + intros [H E]%H2. destruct (H4 H) as [H' E']. split; [done|congruence].
Qed.

Lemma same_evolves f f' : cf_Teams f' = cf_Teams f -> cf_UserVersion f' = cf_UserVersion f -> cf_CatalogID f' = cf_CatalogID f -> evolves f f'.
Proof. intros Ht Hv Hi. split; [|by rewrite Hv, Hi]. intros key row H. rewrite Ht. exists row. split; [done|reflexivity]. Qed.

Lemma reads_evolves {A} (m : M catalogFile A) : reads m -> keeps evolves m.
Proof. intros H f. rewrite <- (H f). reflexivity. Qed.

Lemma committed_evolves f : evolves f (committed f).
Proof. by apply same_evolves. Qed.

(** An insertion of a row above the revision that is there. *)
Lemma upsert_evolves key row f f' : upsertTeam key row f = Some f' ->
  (forall old, cf_Teams f !! key = Some old -> row_revision old < row_revision row) -> evolves f f'.
Proof.
  unfold upsertTeam. destruct (checkTeam key row); [|done]. intros [= <-] Hr. split; [|done]. cbn. intros key' old H.
  destruct (decide (key' = key)) as [->|Hne].
  - exists row. split; [by rewrite lookup_insert_eq|right; by apply Hr].
  - exists old. split; [by rewrite lookup_insert_ne|reflexivity].
Qed.

(** ** The guard *)
Lemma query_inv {A} env what action (answer : catalogFile -> A) f r f' : query env what action answer f = (r, f') ->
  f' = f /\ (forall a, r = Ok a -> a = answer f).
Proof. unfold query, attempt, cbind, gets. destruct (ev_Fault env _); intros E; injection E as <- <-; split; [done..|]; congruence. Qed.

Lemma queryRow_Ok {A} env what (row : catalogFile -> option A) f a f' : queryRow env what row f = (Ok a, f') -> row f = Some a /\ f' = f.
Proof. unfold queryRow. destruct (ev_Fault env _), (row f); naive_solver. Qed.

Lemma exec_Ok env what action change f u f' : exec env what action change f = (Ok u, f') -> change f = Some f'.
Proof.  unfold exec, attempt, cbind. destruct (ev_Fault env _); [done|]. destruct (change f); naive_solver. Qed.

Lemma of_result_inv {S A} (m : result A) (s : S) r s' : of_result m s = (r, s') -> r = m /\ s' = s.
Proof. by intros [= <- <-]. Qed.

Lemma readCatalogID_Ok env f id f' : readCatalogID env f = (Ok id, f') -> f' = f /\ cf_CatalogID f = Some id /\ ValidateRootID id = Ok tt.
Proof.
  unfold readCatalogID. destruct (queryRow env _ _ f) as [[id'|e] f1] eqn:E.
  - apply queryRow_Ok in E as [E ->]. intros [= H <-]. apply bind_Ok in H as ([] & H%wrap_err_Ok & [= ->]). done.
  - unfold noRows. by case_match.
Qed.

Lemma readSchema_Ok env f objects f' : readSchema env f = (Ok objects, f') -> f' = f /\ objects = cf_Schema f.
Proof.
  intros E. pose proof (reads_eq _ _ _ _ (reads_readSchema env) E) as ->. split; [done|]. unfold readSchema in E.
  apply cbind_Ok in E as (u & f1 & E1 & E). apply reads_eq in E1 as ->; [|by keeps]. unfold closing in E.
  destruct (cbind _ _ f) as [r f2] eqn:E2. destruct (ev_Fault env (CloseRows _)); cbn in E; [done|]. injection E as -> ->.
  apply cbind_Ok in E2 as (v & f3 & E3 & E2). apply reads_eq in E3 as ->; [|by keeps]. apply query_inv in E2 as [_ E2]. by apply E2.
Qed.

(** Creating the schema touches no row. *)
Definition sameRows (f f' : catalogFile) : Prop := cf_Teams f' = cf_Teams f /\ cf_Defaults f' = cf_Defaults f.
#[export] Instance sameRows_preorder : PreOrder sameRows.
Proof. split; [done|]. intros a b c [H1 H2] [H3 H4]. split; congruence. Qed.

Lemma sameRows_createObjects env objects : keeps sameRows (createObjects env objects).
Proof.
  induction objects as [|object objects IH]; cbn [createObjects]; keeps. apply keeps_exec; [apply _|]. by intros f f' [= <-].
Qed.

Lemma sameRows_initializeSchema env : keeps sameRows (initializeSchema env).
Proof.
  unfold initializeSchema. keeps; [apply sameRows_createObjects|..]; (apply keeps_exec; [apply _|]); intros f f'; [case_match|]; by intros [= <-].
Qed.

Lemma initializeSchema_Ok env f u f' : initializeSchema env f = (Ok u, f') -> cf_UserVersion f' = 1.
Proof.
  unfold initializeSchema. intros (? & ? & _ & H)%cbind_Ok. apply cbind_Ok in H as (? & ? & _ & H). apply cbind_Ok in H as (? & f1 & _ & H).
  apply exec_Ok in H. by injection H as <-.
Qed.

(** What the guard does of the file: nothing to an initialized one, and it initializes
    only one of version zero without a schema. *)
Definition guarded (initialize : bool) (f : catalogFile) (r : result string) (f' : catalogFile) : Prop :=
  (f' = f /\ forall id, r = Ok id -> cf_UserVersion f = 1) \/
  (initialize = true /\ cf_UserVersion f = 0 /\ cf_Schema f = [] /\ sameRows f f' /\ forall id, r = Ok id -> cf_UserVersion f' = 1).

Lemma guardSchema_guarded c env initialize f r f' : guardSchema c env initialize f = (r, f') ->
  guarded initialize f r f' /\ forall id, r = Ok id -> cf_CatalogID f' = Some id /\ ValidateRootID id = Ok tt.
Proof.
  unfold guardSchema. intros E.
  apply cbind_inv in E as [(version & f1 & E1 & E)|(e & E1 & ->)]; [|apply query_inv in E1 as [-> _]; by split; [left|]].
  apply query_inv in E1 as [-> Ev]. specialize (Ev _ eq_refl).
  apply cbind_inv in E as [(u & f1 & E1 & E)|(e & E1 & ->)]; (apply reads_eq in E1 as ->; [|unfold verifyJournal; by keeps]); [|by split; [left|]].
  apply cbind_inv in E as [(app & f1 & E1 & E)|(e & E1 & ->)]; (apply query_inv in E1 as [-> _]); [|by split; [left|]].
  apply cbind_inv in E as [(u' & f1 & E1 & E)|(e & E1 & ->)]; (apply of_result_inv in E1 as [_ ->]); [|by split; [left|]].
  apply cbind_inv in E as [(objects & f1 & E1 & E)|(e & E1 & ->)]; [|apply reads_eq in E1 as ->; [by split; [left|]|apply reads_readSchema]].
  apply readSchema_Ok in E1 as [-> ->].
  destruct (initialize && (version =? 0) && _) eqn:Ei.
  - rewrite !andb_true_iff, !Z.eqb_eq in Ei. destruct Ei as [[-> Ez] El]. assert (cf_Schema f = []) as Es by (destruct (cf_Schema f); [done|cbn in El; lia]).
    rewrite Ev in Ez.
    apply cbind_inv in E as [(u1 & f1 & E1 & E)|(e & E1 & ->)].
    + apply cbind_Ok in E1 as (u2 & f2 & E2 & E1). apply reads_eq in E2 as ->; [|by keeps].
      apply cbind_Ok in E1 as (b & f2 & E2 & E1). apply reads_eq in E2 as ->; [|by keeps].
      apply cbind_Ok in E1 as (u3 & f2 & E2 & E1). apply reads_eq in E2 as ->; [|by keeps].
      pose proof (sameRows_initializeSchema env f) as Hr. rewrite E1 in Hr. cbn in Hr.
      pose proof (initializeSchema_Ok _ _ _ _ E1) as Hv. pose proof (reads_eq _ _ _ _ (reads_readCatalogID env) E) as ->.
      split; [right; by split_and!|]. intros id ->. by apply readCatalogID_Ok in E as (_ & ? & ?).
    + assert (sameRows f f') as Hr.
      { match type of E1 with ?m f = _ => assert (keeps sameRows m) as Hk end; [|specialize (Hk f); by rewrite E1 in Hk].
        keeps. apply sameRows_initializeSchema. }
      split; [right; by split_and!|done].
  - apply cbind_inv in E as [(u1 & f1 & E1 & E)|(e & E1 & ->)]; apply of_result_inv in E1 as [E1 ->]; [|by split; [left|]].
    symmetry in E1. apply fail_if_Ok in E1. bool_prop. pose proof (reads_eq _ _ _ _ (reads_readCatalogID env) E) as ->.
    split; [left; split; [done|congruence]|]. intros id ->. by apply readCatalogID_Ok in E as (_ & ? & ?).
Qed.

Lemma guardSchema_evolves c env initialize : keeps evolves (guardSchema c env initialize).
Proof.
  intros f. destruct (guardSchema c env initialize f) as [r f'] eqn:E. apply guardSchema_guarded in E as [[[-> _]|(_ & Hv & _ & [Ht _] & _)] _]; cbn.
  - reflexivity.
  - split; [|intros; lia]. intros key row H. rewrite Ht. exists row. split; [done|reflexivity].
Qed.

(** ** Preparing the file *)
#[local] Abbreviation grows := (keeps (⊆@{world})).

Lemma worldGrows_insert (w : world) path n : w !! path = None -> w ⊆ <[path := n]> w.
Proof. apply insert_subseteq. Qed.

Lemma reads_grows {A} (m : M world A) : reads m -> grows m.
Proof. intros H w. by rewrite <- (H w). Qed.

Lemma reads_stat env path : reads (stat env path).
Proof. intros w. unfold stat. by repeat case_match. Qed.

Lemma reads_onError {S A} wrap (m : M S A) : reads m -> reads (onError wrap m).
Proof. intros H s. unfold onError. specialize (H s). by destruct (m s) as [[]]. Qed.

Lemma reads_privateDirectory env directory : reads (privateDirectory env directory).
Proof. unfold privateDirectory. keeps. apply reads_onError, reads_stat. Qed.

Lemma grows_mkdir env path : grows (mkdir env path).
Proof.
  intros w. unfold mkdir. destruct (w !! path) eqn:E; [done|]. destruct (ev_Mkdir env path) as [[e []]|]; cbn; try done; by apply worldGrows_insert.
Qed.

Lemma grows_openExclusive env path : grows (openExclusive env path).
Proof.
  intros w. unfold openExclusive. destruct (w !! path) eqn:E; [done|]. destruct (ev_OpenFile env) as [[e []]|]; cbn; try done; by apply worldGrows_insert.
Qed.

Lemma grows_ensureDirectory env fuel path : grows (ensureDirectory env fuel path).
Proof.
  revert path. induction fuel as [|fuel IH]; intros path; cbn [ensureDirectory]; keeps. intros w.
  destruct (stat env path w) as [[n|e] w1] eqn:E; (apply reads_eq in E as ->; [|apply reads_stat]); [by destruct n|].
  destruct (errors_Is e fs_ErrNotExist); [|done].
  match goal with |- _ ⊆ snd (?m w) => assert (grows m) as Hm; [|apply Hm] end.
  keeps. intros w1. pose proof (grows_mkdir env path w1) as H. destruct (mkdir env path w1) as [[[]|e'] w2]; [done|].
  by destruct (errors_Is e' fs_ErrExist).
Qed.

Lemma grows_createDatabase env path : grows (createDatabase env path).
Proof.
  unfold createDatabase. keeps; [apply grows_ensureDirectory|apply reads_grows, reads_privateDirectory|]. intros w.
  pose proof (grows_openExclusive env path w) as H. destruct (openExclusive env path w) as [[[]|e] w1]; cbn [snd] in H.
  - destruct (errors_Join _); [done|]. unfold attempt. by case_match.
  - by destruct (errors_Is e fs_ErrExist).
Qed.

Definition lstatCatalog (c : Catalog) (env : environment) (w : world) : result node :=
  match ev_Fault env LstatCatalog, w !! c_path c with
  | Some e, _ => Err e
  | None, Some n => Ok n
  | None, None => Err (Sentinel fs_ErrNotExist)
  end.

Lemma prepare_grows c env mode w r w' : prepare c env mode w = (r, w') -> w ⊆ w' /\ (mode <> catalogCreate -> w' = w).
Proof.
  unfold prepare. intros E. apply cbind_inv in E as [(u & w1 & E1 & E)|(e & E1 & ->)]; (apply of_result_inv in E1 as [_ ->]); [|done].
  assert (forall r w1 w', (let info := lstatCatalog c env w1 in
    match info with
    | Err e => (Err (if errors_Is e fs_ErrNotExist then Sentinel teams_errMissingCatalog else wrapUnavailable "inspecting catalog" e), w1)
    | Ok info => (of_result (fail_if (match info with NFile perm _ => writes mode && negb (perm =? 384) | _ => true end)
           (errUnavailable "catalog must be a regular file (0600 for mutation)")) ;;;
         if writes mode then privateDirectory env (Dir (c_path c)) else cret tt) w1
    end) = (r, w') -> w' = w1) as Hl.
  { clear. intros r w1 w'. cbv zeta. destruct (lstatCatalog c env w1) as [info|e]; [|by intros [= _ <-]]. intros E.
    eapply reads_eq; [|exact E]. keeps. apply reads_privateDirectory. }
  apply cbind_inv in E as [(u1 & w1 & E1 & E)|(e & E1 & ->)].
  - apply Hl in E as ->. case_bool_decide as Hm; [|by apply reads_eq in E1 as ->; [|keeps]]. split; [|done].
    pose proof (grows_createDatabase env (c_path c) w) as H. by rewrite E1 in H.
  - case_bool_decide as Hm; [|done]. split; [|done].
    pose proof (grows_createDatabase env (c_path c) w) as H. by rewrite E1 in H.
Qed.

(** ** Transactions *)
Lemma joinClose_Ok {A} (m : result A) e a : joinClose m e = Ok a -> m = Ok a.
Proof. by destruct e. Qed.

(** The body ran in full. *)
Definition bodyRan {A} (c : Catalog) (env : environment) (mode : catalogMode) (body : string -> M catalogFile A) (f : catalogFile)
    (a : A) (id : string) (f2 : catalogFile) : Prop :=
  exists f1, guardSchema c env (bool_decide (mode = catalogCreate)) f = (Ok id, f1) /\ body id f1 = (Ok a, f2).

Lemma transaction_inv {A} c env mode (body : string -> M catalogFile A) f r f' : transaction c env mode body f = (r, f') ->
  (is_ok r = false /\ f' = f) \/
  (exists a id f2, bodyRan c env mode body f a id f2 /\
     (f' = f \/ f' = f2 \/ (f' = committed f2 /\ writes mode = true)) /\
     (forall b, r = Ok b -> b = a /\ f' = if writes mode then committed f2 else f2)).
Proof.
  unfold transaction. destruct (ev_Fault env BeginTx) as [e|].
  { intros [= <- <-]. left. split; [|done]. unfold joinClose. by case_match. }
  destruct (cbind _ _ f) as [[a|e] f2] eqn:E.
  - apply cbind_Ok in E as (u & f1 & E1 & E). apply reads_eq in E1 as ->; [|destruct (writes mode); [apply reads_verifyDurability|by keeps]].
    apply cbind_Ok in E as (id & f1 & Eg & E). apply cbind_Ok in E as (a' & f3 & Eb & E). apply cbind_Ok in E as (u' & f4 & E1 & [= <- <-]).
    apply reads_eq in E1 as ->; [|destruct (writes mode); unfold boundCommit; by keeps].
    destruct (ev_Fault env Commit) as [e|]; intros [= <- <-]; right; exists a', id, f3.
    + split_and!; [by exists f1|destruct (ev_Applied env), (writes mode); cbn; eauto|]. by intros b [=]%joinClose_Ok.
    + split_and!; [by exists f1|destruct (writes mode); eauto|]. by intros b [= <-]%joinClose_Ok.
  - intros [= <- <-]. left. split; [|done]. unfold rollback, joinClose. by repeat case_match.
Qed.

Lemma transact_inv {A} c env mode (body : string -> M catalogFile A) w r w' : transact c env mode body w = (r, w') ->
  exists w1, w ⊆ w1 /\ (mode <> catalogCreate -> w1 = w) /\
    ((is_ok r = false /\ w' = w1) \/
     exists perm f f', w1 !! c_path c = Some (NFile perm f) /\ transaction c env mode body f = (r, f') /\ w' = <[c_path c := NFile perm f']> w1).
Proof.
  unfold transact. intros E.
  apply cbind_inv in E as [(u & w1 & E1 & E)|(e & E1 & ->)]; (apply reads_eq in E1 as ->; [|by keeps]); [|by exists w; split_and!; [..|left]].
  apply cbind_inv in E as [(u1 & w1 & E1 & E)|(e & E1 & ->)]; apply prepare_grows in E1 as [Hg Hn]; [|by exists w'; split_and!; [..|left]].
  apply cbind_inv in E as [(u2 & w2 & E1 & E)|(e & E1 & ->)]; (apply reads_eq in E1 as ->; [|by keeps]); [|by exists w1; split_and!; [..|left]].
  exists w1. split_and!; [done..|]. destruct (w1 !! c_path c) as [[perm|perm f|]|] eqn:Ec; try (injection E as <- <-; by left).
  destruct (transaction c env mode body f) as [r' f'] eqn:Et. injection E as <- <-. right. by exists perm, f, f'.
Qed.

(** ** What a call keeps of the catalog *)

(** [database/sql] reports [sql.ErrNoRows] only for a query without rows. *)
Definition honest (env : environment) : Prop :=
  forall what e, ev_Fault env (Statement what) = Some e -> errors_Is e sql_ErrNoRows = false.

Lemma queryRow_honest {A} env what (row : catalogFile -> option A) f e f' : honest env -> queryRow env what row f = (Err e, f') ->
  errors_Is e sql_ErrNoRows = true -> row f = None.
Proof.
  intros Hh. unfold queryRow. destruct (ev_Fault env _) as [e'|] eqn:E; [intros [= <- <-]; by rewrite (Hh _ _ E)|]. by destruct (row f).
Qed.

(** The revision a mutation writes, and what it requires of the row. *)
Definition successor (f : catalogFile) (key : teamKey) (expected n : Z) : Prop :=
  match cf_Teams f !! key with
  | None => expected = 0 /\ n = 1
  | Some row => n = row_revision row + 1 /\ 1 <= row_revision row /\ row_revision row <> max_int64 /\
      (if expected =? 0 then row_definition row = None else expected = row_revision row /\ is_Some (row_definition row))
  end.

Lemma nextRevision_Ok env ref expected f n f' : honest env -> nextRevision env ref expected f = (Ok n, f') ->
  f' = f /\ successor f (keyFor ref) expected n.
Proof.
  intros Hh. unfold nextRevision, scanTeam, successor. destruct (queryRow env _ _ f) as [[row|e] f1] eqn:E.
  - apply queryRow_Ok in E as [-> ->]. intros H. injection H as H <-. split; [done|].
    destruct (expected =? 0) eqn:Ee; cbn [negb andb orb] in H; destruct (row_definition row) as [d|] eqn:Ed; cbn in H; try discriminate H.
    + destruct (row_revision row =? max_int64) eqn:Em; [done|]. destruct (row_revision row <? 1) eqn:El; [done|]. bool_prop. split_and!; congruence || lia.
    + destruct (expected =? row_revision row) eqn:Er; cbn [negb orb] in H; [|done].
      destruct (row_revision row =? max_int64) eqn:Em; [done|]. destruct (row_revision row <? 1) eqn:El; [done|]. bool_prop. split_and!; try congruence || lia. done.
  - unfold noRows. destruct (errors_Is e sql_ErrNoRows) eqn:En; [|by intros [= H]].
    pose proof (queryRow_honest _ _ _ _ _ _ Hh E En) as ->. intros H. injection H as H <-.
    destruct (expected =? 0) eqn:Ee; cbn in H; [|done]. bool_prop. split; [|split; congruence].
    unfold queryRow in E. destruct (ev_Fault env _); [by injection E|]. by destruct (_ !! _); injection E.
Qed.

Lemma successor_greater f key expected n : successor f key expected n -> forall old, cf_Teams f !! key = Some old -> row_revision old < n.
Proof. unfold successor. intros H old E. rewrite E in H. lia. Qed.

(** The body of a mutation: its revision, its statement, its answer. *)
Lemma mutation_evolves {A} env ref expected what action change (k : Z -> M catalogFile A) : honest env ->
  (forall n f f', change n f = Some f' -> (forall old, cf_Teams f !! keyFor ref = Some old -> row_revision old < n) -> evolves f f') ->
  (forall n, reads (k n)) ->
  keeps evolves (n <- nextRevision env ref expected ;; exec env what action (change n) ;;; k n).
Proof.
  intros Hh Hc Hk f. destruct (cbind _ _ f) as [r f'] eqn:E. cbn [snd].
  apply cbind_inv in E as [(n & f1 & E1 & E)|(e & E1 & ->)].
  - apply nextRevision_Ok in E1 as [-> Hs]; [|done]. apply cbind_inv in E as [(u & f2 & E1 & E)|(e & E1 & ->)].
    + apply exec_Ok in E1. apply reads_eq in E as ->; [|done]. eapply Hc; [done|]. by eapply successor_greater.
    + unfold exec, attempt, cbind in E1. destruct (ev_Fault env _); [by injection E1 as <- <-|]. destruct (change n f); [done|]. by injection E1 as <- <-.
  - apply reads_eq in E1 as ->; [reflexivity|apply reads_nextRevision].
Qed.

Lemma retire_evolves key n f f' : retireTeam key n f = Some f' ->
  (forall old, cf_Teams f !! key = Some old -> row_revision old < n) -> evolves f f'.
Proof. unfold retireTeam. destruct (cf_Teams f !! key) as [row|] eqn:E; [|by intros [= <-]]. intros H Hr. eapply upsert_evolves; [done|]. by rewrite E. Qed.

Definition worldEvolves (path : string) (w w' : world) : Prop :=
  forall perm f, w !! path = Some (NFile perm f) -> exists f', w' !! path = Some (NFile perm f') /\ evolves f f'.

#[export] Instance worldEvolves_preorder path : PreOrder (worldEvolves path).
Proof.
  split; [intros w perm f H; by exists f|]. intros a b c H1 H2 perm f (f' & H & E)%H1. apply H2 in H as (f'' & H & E'). exists f''. split; [done|by etrans].
Qed.

Lemma transaction_evolves {A} c env mode (body : string -> M catalogFile A) f r f' : (forall id, keeps evolves (body id)) ->
  transaction c env mode body f = (r, f') -> evolves f f'.
Proof.
  intros Hb [[_ ->]|(a & id & f2 & (f1 & Hg & Hr) & Hf & _)]%transaction_inv; [reflexivity|].
  assert (evolves f f2) as H2.
  { etrans; [pose proof (guardSchema_evolves c env (bool_decide (mode = catalogCreate)) f) as H; rewrite Hg in H; exact H|].
    pose proof (Hb id f1) as H. rewrite Hr in H. exact H. }
  destruct Hf as [->|[->|[-> _]]]; [reflexivity|done|]. etrans; [exact H2|apply committed_evolves].
Qed.

Lemma transact_evolves {A} c env mode (body : string -> M catalogFile A) : (forall id, keeps evolves (body id)) ->
  keeps (worldEvolves (c_path c)) (transact c env mode body).
Proof.
  intros Hb w. destruct (transact c env mode body w) as [r w'] eqn:E. cbn [snd].
  apply transact_inv in E as (w1 & Hw & _ & [[_ ->]|(perm & f & f' & Hf & Ht & ->)]); intros perm' f0 H%(fun H => lookup_weaken _ _ _ _ H Hw).
  - by exists f0.
  - rewrite H in Hf. injection Hf as -> ->. exists f'. split; [by rewrite lookup_insert_eq|]. by eapply transaction_evolves.
Qed.

Lemma keeps_missing {A} (R : world -> world -> Prop) (replacement : result A) (m : M world A) : keeps R m -> keeps R (missing replacement m).
Proof. intros H w. unfold missing. specialize (H w). destruct (m w) as [[a|e] w']; done. Qed.

(** ** Calls and histories *)
Inductive operation : Type :=
| OpRegister (ref : TeamReference) (definition : Team)
| OpUpdate (ref : TeamReference) (expected : Z) (definition : Team)
| OpDelete (ref : TeamReference) (expected : Z)
| OpLookup (ref : TeamReference)
| OpResolveMember (target : TeamTarget)
| OpList (project : option TeamProject)
| OpDefault (project : TeamProject)
| OpSetDefault (project : TeamProject) (ref : TeamReference)
| OpClearDefault (project : TeamProject).

(** What a call answers. *)
Inductive answer : Type :=
| ARecord (record : TeamRecord) (catalogID : string) | ARevision (revision : Z) | AMember (member : ResolvedMember)
| AListing (listing : Listing) | ADefault (default : DefaultResult) | ADone.

Definition answering {A} (m : M world A) (f : A -> answer) : M world answer := a <- m ;; cret (f a).

Section history.
Context (DecodeStrict : string -> result Team).

Definition perform (c : Catalog) (env : environment) (op : operation) : M world answer :=
  match op with
  | OpRegister ref definition => answering (Register DecodeStrict c env ref definition) (fun p => ARecord (fst p) (snd p))
  | OpUpdate ref expected definition => answering (Update DecodeStrict c env ref expected definition) (fun p => ARecord (fst p) (snd p))
  | OpDelete ref expected => answering (DeleteTeam c env ref expected) ARevision
  | OpLookup ref => answering (Lookup DecodeStrict c env ref) (fun p => ARecord (fst p) (snd p))
  | OpResolveMember target => answering (ResolveMember DecodeStrict c env target) AMember
  | OpList project => answering (ListTeams DecodeStrict c env project) AListing
  | OpDefault project => answering (ProjectDefault DecodeStrict c env project) ADefault
  | OpSetDefault project ref => answering (SetDefault DecodeStrict c env project ref) (fun _ => ADone)
  | OpClearDefault project => answering (ClearDefault c env project) (fun _ => ADone)
  end.

(** A call of any process on the catalog at [path], with its own faults; or anything that
    leaves the file alone. *)
Inductive catalogStep (path : string) : world -> world -> Prop :=
| step_call c env op w : c_path c = path -> honest env -> catalogStep path w (snd (perform c env op w))
| step_elsewhere w w' : w' !! path = w !! path -> catalogStep path w w'.

Definition history (path : string) : world -> world -> Prop := rtc (catalogStep path).

(** The operations that only read. *)
Definition readOnly (op : operation) : bool :=
  match op with OpLookup _ | OpResolveMember _ | OpList _ | OpDefault _ => true | _ => false end.

Lemma reads_record env {A} ref (k : TeamRecord -> M catalogFile A) : (forall record, reads (k record)) ->
  reads (record <- lookupTeam DecodeStrict env ref ;; k record).
Proof. intros H. keeps. apply reads_lookupTeam. Qed.

Lemma defaults_evolves f m : evolves f (setDefaults m f).
Proof. by apply same_evolves. Qed.

Lemma perform_evolves c env op : honest env -> keeps (worldEvolves (c_path c)) (perform c env op).
Proof.
  intros Hh. assert (forall ref expected d, keeps (worldEvolves (c_path c)) (save DecodeStrict c env ref expected d)) as Hsave.
  { intros ref expected d. unfold save. keeps. apply keeps_missing, transact_evolves. intros id. apply mutation_evolves; [done| |intros n; by keeps].
    intros n f f' H Hr. by eapply upsert_evolves. }
  destruct op as [ref d|ref expected d|ref expected|ref|target|project|project|project ref|project]; unfold perform, answering; apply keeps_bind;
    try apply _; try (intros ?; by keeps).
  - apply Hsave.
  - unfold Update. by keeps.
  - unfold DeleteTeam. keeps. apply keeps_missing, transact_evolves. intros id. apply mutation_evolves; [done| |intros n; by keeps].
    intros n f f'. apply retire_evolves.
  - unfold Lookup. keeps. apply keeps_missing, transact_evolves. intros id. apply reads_evolves, reads_record. intros r. by keeps.
  - unfold ResolveMember. keeps. apply keeps_missing, transact_evolves. intros id. apply reads_evolves. keeps; [apply reads_lookupTeam|]. by case_match; keeps.
  - unfold ListTeams. keeps. apply keeps_missing, transact_evolves. intros id. apply reads_evolves, reads_listRecords.
  - unfold ProjectDefault. keeps. apply keeps_missing, transact_evolves. intros id. apply reads_evolves, reads_readDefault.
  - unfold SetDefault. keeps. apply keeps_missing, transact_evolves. intros id. keeps; [apply reads_evolves, reads_lookupTeam|].
    apply keeps_exec; [apply _|]. intros f f'. case_match; [|done]. intros [= <-]. apply defaults_evolves.
  - unfold ClearDefault. keeps. apply keeps_missing, transact_evolves. intros id. apply keeps_exec; [apply _|]. intros f f' [= <-]. apply defaults_evolves.
Qed.
End history.
