(* ===== verification/TeamCatalogTheorems.v ===== *)
(** * Theorems of the team catalog

    Revisions identify definitions and are used once, a catalog comes into being only by a
    registration, and without faults every call does what an abstract catalog of teams
    and defaults says. *)
From stdpp Require Import fin_maps.
From S2P Require Import Prelude GoErrors GoTime GoText TaskTypes Encoding GoPath SchedRequest SchedStore TaskConfiguration.
From S2P Require Import StrictJsonTheorems TeamContract TeamContractProps TeamCatalog TeamCatalogProps.
From Stdlib Require Import Ascii.
#[local] Open Scope Z_scope.
#[local] Open Scope team_scope.

(** ** Successful calls *)
Section successes.
Context (DecodeStrict : string -> result Team).

Lemma missing_Ok {A} (e : error) (m : M world A) w a w' : missing (Err e) m w = (Ok a, w') -> m w = (Ok a, w').
Proof. unfold missing. destruct (m w) as [[b|e'] w1]; [done|]. by destruct (errors_Is _ _). Qed.

Lemma answering_Ok {A} (m : M world A) (f : A -> answer) w r w' : answering m f w = (Ok r, w') -> exists a, m w = (Ok a, w') /\ r = f a.
Proof. unfold answering. intros (a & w1 & E & [= <- <-])%cbind_Ok. eauto. Qed.

(** The file of a transaction that succeeded, after its guard. *)
Lemma transact_called {A} c env mode (body : string -> M catalogFile A) w a w' : transact c env mode body w = (Ok a, w') ->
  exists w1 perm f f1 f2 id, w ⊆ w1 /\ (mode <> catalogCreate -> w1 = w) /\ w1 !! c_path c = Some (NFile perm f) /\
    guarded (bool_decide (mode = catalogCreate)) f (Ok id) f1 /\ cf_CatalogID f1 = Some id /\ body id f1 = (Ok a, f2) /\
    w' = <[c_path c := NFile perm (if writes mode then committed f2 else f2)]> w1.
Proof.
  intros (w1 & Hw & Hm & [[[=] _]|(perm & f & f' & Hf & Ht & ->)])%transact_inv.
  apply transaction_inv in Ht as [[[=] _]|(a' & id & f2 & (f1 & Hg & Hb) & _ & Hr)]. destruct (Hr a eq_refl) as [-> ->].
  apply guardSchema_guarded in Hg as [Hg Hi]. destruct (Hi id eq_refl) as [Hi' _]. exists w1, perm, f, f1, f2, id. done.
Qed.

Lemma guarded_teams init f r f1 : guarded init f r f1 -> cf_Teams f1 = cf_Teams f.
Proof. intros [[-> _]|(_ & _ & _ & [H _] & _)]; done. Qed.

Lemma guarded_version init f id f1 : guarded init f (Ok id) f1 -> cf_UserVersion f1 = 1.
Proof. intros [[-> H]|(_ & _ & _ & _ & H)]; by eapply H. Qed.

Lemma decodeRecord_Ok ref revision data record : decodeRecord DecodeStrict ref revision data = Ok record ->
  rec_Reference record = ref /\ rec_Revision record = revision /\ Encode (rec_Definition record) = Ok data.
Proof.
  unfold decodeRecord. intros (u & _ & H)%bind_Ok. apply bind_Ok in H as (d & _ & H). apply bind_Ok in H as (u1 & _ & H).
  apply bind_Ok in H as (canonical & He & H). apply bind_Ok in H as (u2 & Hc%fail_if_Ok & [= <-]). bool_prop. apply eqs_true in Hc as ->. done.
Qed.

(** What a lookup has seen. *)
Lemma Lookup_Ok c env ref w record id w' : Lookup DecodeStrict c env ref w = (Ok (record, id), w') ->
  w' = w /\ exists perm f row data, w !! c_path c = Some (NFile perm f) /\ cf_UserVersion f = 1 /\ cf_CatalogID f = Some id /\
    cf_Teams f !! keyFor ref = Some row /\ row_definition row = Some data /\ decodeRecord DecodeStrict ref (row_revision row) data = Ok record.
Proof.
  unfold Lookup. intros (u & w1 & E%of_result_inv & H)%cbind_Ok. destruct E as [_ ->].
  apply missing_Ok, transact_called in H as (w1 & perm & f & f1 & f2 & id' & _ & Hm & Hf & Hg & Hi & Hb & ->).
  rewrite Hm in * by done. destruct Hg as [[-> Hg]|([=] & _)]. apply cbind_Ok in Hb as (record' & f3 & Hb & [= <- <- <-]).
  pose proof (reads_eq _ _ _ _ (reads_lookupTeam DecodeStrict env ref) Hb) as ->. split; [by rewrite insert_id|].
  exists perm, f. unfold lookupTeam, scanTeam in Hb. destruct (queryRow env _ _ f) as [[row|e] f4] eqn:Eq.
  - apply queryRow_Ok in Eq as [Eq ->]. destruct (row_definition row) as [data|] eqn:Ed; [|done]. exists row, data. injection Hb as Hb.
    split_and!; try done. by eapply Hg.
  - unfold noRows in Hb. by destruct (errors_Is _ _).
Qed.

Lemma history_evolves path w w' : history DecodeStrict path w w' -> worldEvolves path w w'.
Proof.
  induction 1 as [|w1 w2 w3 H _ IH]; [reflexivity|]. etrans; [|exact IH]. destruct H as [c env op w1 <- Hh|w1 w2 H].
  - by apply perform_evolves.
  - intros perm f Hf. exists f. rewrite H. done.
Qed.
End successes.

(** C21: A revision names one definition.  Whatever calls of whatever processes happen between two
    successful lookups of a team, whatever fails in them, and even if the team was deleted
    and registered again in between: the catalog has the same identity, the revision has
    not gone back, and if it is the same then so is the whole record. *)
Theorem revision_identifies_definition DecodeStrict c c' env env' ref record record' id id' w w1 w2 w3 :
  Lookup DecodeStrict c env ref w = (Ok (record, id), w1) ->
  history DecodeStrict (c_path c) w1 w2 -> c_path c' = c_path c ->
  Lookup DecodeStrict c' env' ref w2 = (Ok (record', id'), w3) ->
  id' = id /\ rec_Revision record <= rec_Revision record' /\ (rec_Revision record' = rec_Revision record -> record' = record).
Proof.
  intros (-> & perm & f & row & data & Hf & Hv & Hi & Hr & Hd & He)%Lookup_Ok H%history_evolves Hp
    (-> & perm' & f' & row' & data' & Hf' & _ & Hi' & Hr' & Hd' & He')%Lookup_Ok.
  destruct (H _ _ Hf) as (f2 & Hf2 & Hrows & Hid). rewrite Hp, Hf2 in Hf'. injection Hf' as <- <-.
  destruct (Hid Hv) as [_ Hid']. destruct (Hrows _ _ Hr) as (row2 & Hr2 & Hev). rewrite Hr2 in Hr'. injection Hr' as <-.
  pose proof (decodeRecord_Ok _ _ _ _ _ He) as (_ & -> & _). pose proof (decodeRecord_Ok _ _ _ _ _ He') as (_ & -> & _).
  split; [congruence|]. split; [destruct Hev as [->|]; lia|]. destruct Hev as [->|]; [congruence|lia].
Qed.

(** ** Mutations of a team *)
Inductive mutation : Type :=
| MRegister (definition : Team) | MUpdate (expected : Z) (definition : Team) | MDelete (expected : Z).

Definition expectedOf (m : mutation) : Z := match m with MRegister _ => 0 | MUpdate expected _ | MDelete expected => expected end.

(** The call, answered with the revision it wrote. *)
Definition mutate (DecodeStrict : string -> result Team) (c : Catalog) (env : environment) (ref : TeamReference) (m : mutation) : M world Z :=
  match m with
  | MRegister definition => p <- Register DecodeStrict c env ref definition ;; cret (rec_Revision (fst p))
  | MUpdate expected definition => p <- Update DecodeStrict c env ref expected definition ;; cret (rec_Revision (fst p))
  | MDelete expected => DeleteTeam c env ref expected
  end.

(** The row after a mutation, and what was there before. *)
Definition mutated (path : string) (key : teamKey) (expected n : Z) (w w' : world) : Prop :=
  (exists perm f row, w' !! path = Some (NFile perm f) /\ cf_Teams f !! key = Some row /\ row_revision row = n) /\
  (forall perm f row, w !! path = Some (NFile perm f) -> cf_Teams f !! key = Some row -> row_revision row < n) /\
  (expected = 0 \/ n = expected + 1).

Section mutations.
Context (DecodeStrict : string -> result Team).

Lemma mutation_Ok {A} c env ref expected mode what action change (k : string -> Z -> M catalogFile A) (revision : A -> Z) w a w' :
  honest env -> 
  (forall n f f', change n f = Some f' -> successor f (keyFor ref) expected n ->
     exists row, cf_Teams f' !! keyFor ref = Some row /\ row_revision row = n) ->
  (forall id n f b f', k id n f = (Ok b, f') -> f' = f /\ revision b = n) ->
  writes mode = true ->
  transact c env mode (fun id => n <- nextRevision env ref expected ;; exec env what action (change n) ;;; k id n) w = (Ok a, w') ->
  mutated (c_path c) (keyFor ref) expected (revision a) w w'.
Proof.
  intros Hh Hc Hk Hm (w1 & perm & f & f1 & f2 & id & Hw & _ & Hf & Hg & _ & Hb & ->)%transact_called.
  apply cbind_Ok in Hb as (n & f3 & E & Hb). apply nextRevision_Ok in E as [-> Hs]; [|done].
  apply cbind_Ok in Hb as (u & f3 & E%exec_Ok & Hb). apply Hk in Hb as [-> <-]. rewrite Hm. split_and!.
  - destruct (Hc _ _ _ E Hs) as (row & Hr & Hn). exists perm, (committed f3), row. by rewrite lookup_insert_eq.
  - intros perm' f' row Hf' Hr. pose proof (lookup_weaken _ _ _ _ Hf' Hw) as Hf''. rewrite Hf in Hf''. injection Hf'' as -> ->.
    rewrite <- (guarded_teams _ _ _ _ Hg) in Hr. by eapply successor_greater.
  - unfold successor in Hs. destruct (cf_Teams f1 !! keyFor ref) as [row|]; [|by left; destruct Hs].
    destruct Hs as (-> & _ & _ & Hs). destruct (Z.eqb_spec expected 0) as [->|]; [by left|]. right. destruct Hs as [-> _]. done.
Qed.

Lemma mutate_mutated c env ref m w n w' : honest env -> mutate DecodeStrict c env ref m w = (Ok n, w') ->
  mutated (c_path c) (keyFor ref) (expectedOf m) n w w'.
Proof.
  intros Hh. assert (forall expected d p w', save DecodeStrict c env ref expected d w = (Ok p, w') ->
    mutated (c_path c) (keyFor ref) expected (rec_Revision (fst p)) w w') as Hsave.
  { clear w'. intros expected d p w' (data & w1 & E%of_result_inv & H)%cbind_Ok. destruct E as [_ ->]. apply missing_Ok in H.
    eapply (mutation_Ok _ _ _ _ _ _ _ _ _ (fun p => rec_Revision (fst p))) in H; [exact H|done|..].
    - intros n' f f' Hu _. unfold upsertTeam in Hu. destruct (checkTeam _ _); [|done]. injection Hu as <-. cbn. rewrite lookup_insert_eq. by eexists.
    - intros id n' f [record id'] f' Hr. apply cbind_Ok in Hr as (record' & f1 & E%of_result_inv & Hr). destruct E as [E ->]. symmetry in E.
      apply decodeRecord_Ok in E as (_ & E & _). by injection Hr as -> -> ->.
    - by destruct (expected =? 0). }
  destruct m as [d|expected d|expected]; cbn [mutate expectedOf].
  - intros (p & w1 & H & [= <- <-])%cbind_Ok. by apply Hsave in H.
  - intros (p & w1 & H & [= <- <-])%cbind_Ok. unfold Update in H. apply cbind_Ok in H as (u & w2 & E%of_result_inv & H).
    destruct E as [_ ->]. by apply Hsave in H.
  - unfold DeleteTeam. intros (u & w1 & E%of_result_inv & H)%cbind_Ok. destruct E as [_ ->].
    apply cbind_Ok in H as (u1 & w1 & E%of_result_inv & H). destruct E as [E ->]. symmetry in E. apply fail_if_Ok in E. bool_prop. apply missing_Ok in H.
    eapply (mutation_Ok _ _ _ _ _ _ _ _ _ id) in H; [exact H|done|..|done].
    + intros n' f f' Hu Hs. unfold retireTeam in Hu. unfold successor in Hs. destruct (cf_Teams f !! keyFor ref) as [row|]; [|destruct Hs; lia].
      unfold upsertTeam in Hu. destruct (checkTeam _ _); [|done]. injection Hu as <-. cbn. rewrite lookup_insert_eq. by eexists.
    + intros id' n' f b f' Hr. by injection Hr as <- <-.
Qed.
End mutations.

(** C20: No acknowledged change of a team is lost.  When a mutation was acknowledged with a revision,
    and, after any calls of any processes with any faults, another one is acknowledged
    too, then its revision is greater; and if it is an update or a deletion, the revision its
    caller expected is the one before its own, so at least that of the earlier change: it
    did not overwrite what its caller had not seen, and of two callers that expect the same
    revision at most one is acknowledged. *)
Theorem no_lost_update DecodeStrict c c' env env' ref m m' n n' w w1 w2 w3 :
  honest env -> honest env' -> c_path c' = c_path c ->
  mutate DecodeStrict c env ref m w = (Ok n, w1) ->
  history DecodeStrict (c_path c) w1 w2 ->
  mutate DecodeStrict c' env' ref m' w2 = (Ok n', w3) ->
  n < n' /\ (expectedOf m' <> 0 -> n' = expectedOf m' + 1 /\ n <= expectedOf m').
Proof.
  intros Hh Hh' Hp H1 Hist%history_evolves H2. apply mutate_mutated in H1 as ((perm & f & row & Hf & Hr & Hn) & _); [|done].
  apply mutate_mutated in H2 as (_ & Hlt & Hex); [|done]. destruct (Hist _ _ Hf) as (f2 & Hf2 & Hrows & _).
  destruct (Hrows _ _ Hr) as (row2 & Hr2 & Hev). rewrite Hp in Hlt. specialize (Hlt _ _ _ Hf2 Hr2). unfold rowEvolves in Hev.
  assert (n <= row_revision row2) by (destruct Hev as [->|]; lia). split; [lia|]. intros Hne. destruct Hex as [|]; [done|]. lia.
Qed.

(** ** Calls that leave no trace *)
Definition registers (op : operation) : bool := match op with OpRegister _ _ => true | _ => false end.

(** The answer about a catalog that does not exist. *)
Definition nothing (op : operation) : option answer :=
  match op with
  | OpList _ => Some (AListing (MkListing "" [] []))
  | OpDefault _ => Some (ADefault (MkDefaultResult "unset" None None))
  | OpClearDefault _ => Some ADone
  | _ => None
  end.

Section traces.
Context (DecodeStrict : string -> result Team).

(** Without a file, a transaction that does not create one fails where it stands. *)
Lemma transact_absent {A} c env mode (body : string -> M catalogFile A) w r w' :
  mode <> catalogCreate -> w !! c_path c = None -> transact c env mode body w = (r, w') -> w' = w /\ is_ok r = false.
Proof.
  intros Hm Hw (w1 & _ & Hn & [[Hr ->]|(perm & f & f' & Hf & _)])%transact_inv; rewrite (Hn Hm) in *; [done|congruence].
Qed.

Lemma transact_reads {A} c env (body : string -> M catalogFile A) : (forall id, reads (body id)) -> reads (transact c env catalogRead body).
Proof.
  intros Hb w. destruct (transact c env catalogRead body w) as [r w'] eqn:E. cbn [snd].
  apply transact_inv in E as (w1 & _ & Hn & [[Hr ->]|(perm & f & f' & Hf & Ht & ->)]); rewrite (Hn ltac:(done)) in *; [done|].
  apply transaction_inv in Ht as [[_ ->]|(a & id & f2 & (f1 & Hg & Hr) & Hf' & _)]; [by rewrite insert_id|].
  apply guardSchema_guarded in Hg as [[[-> _]|([=] & _)] _]. apply reads_eq in Hr as ->; [|done].
  destruct Hf' as [->|[->|[_ [=]]]]; by rewrite insert_id.
Qed.

Lemma missing_inv {A} (replacement : result A) (m : M world A) w r w' : missing replacement m w = (r, w') ->
  exists r0, m w = (r0, w') /\ (r = r0 \/ is_ok r0 = false /\ (r = replacement \/ is_ok r = false)).
Proof.
  unfold missing. destruct (m w) as [[a|e] w1]; intros [= <- <-]; eexists; (split; [done|]); [by left|]. right. split; [done|].
  destruct (errors_Is _ _); auto.
Qed.

(** A call, down to its transaction: the checks of its arguments, or the transaction. *)
Lemma absent_call {A} c env mode (checks : result unit) (replacement : result A) (body : string -> M catalogFile A) w r w' :
  mode <> catalogCreate -> w !! c_path c = None ->
  (of_result checks ;;; missing replacement (transact c env mode body)) w = (r, w') ->
  w' = w /\ (is_ok r = false \/ r = replacement).
Proof.
  intros Hm Hw [(u & w1 & E%of_result_inv & H)|(e & E%of_result_inv & ->)]%cbind_inv; destruct E as [_ ->]; [|split; [done|by left]].
  apply missing_inv in H as (r0 & H & Hr). apply transact_absent in H as [-> H0]; [|done..]. split; [done|].
  destruct Hr as [->|[_ [->|Hr]]]; auto.
Qed.

Lemma answering_inv {A} (m : M world A) (f : A -> answer) w r w' : answering m f w = (r, w') ->
  exists r0, m w = (r0, w') /\ (forall e, r0 = Err e -> r = Err e) /\ (forall a, r0 = Ok a -> r = Ok (f a)).
Proof.
  unfold answering, cbind. destruct (m w) as [[a|e] w1]; cbn; intros [= <- <-]; eexists; (split; [done|]); split; congruence.
Qed.

Lemma save_absent c env ref expected d w r w' : expected <> 0 -> w !! c_path c = None ->
  save DecodeStrict c env ref expected d w = (r, w') -> w' = w /\ is_ok r = false.
Proof.
  intros He Hw. unfold save. rewrite (proj2 (Z.eqb_neq _ _) He).
  intros [(data & w1 & E%of_result_inv & H)|(e & E%of_result_inv & ->)]%cbind_inv; destruct E as [_ ->]; [|done].
  apply missing_inv in H as (r0 & H & Hr). apply transact_absent in H as [-> H0]; [|done..]. split; [done|].
  by destruct Hr as [->|[_ [->|Hr]]].
Qed.

Lemma perform_absent c env op w r w' : registers op = false -> w !! c_path c = None -> perform DecodeStrict c env op w = (r, w') ->
  w' = w /\ (is_ok r = false \/ exists a, nothing op = Some a /\ r = Ok a).
Proof.
  intros Hr Hw. destruct op as [ref d|ref expected d|ref expected|ref|target|project|project|project ref|project]; [done|..];
    intros (r0 & E & HE & HO)%answering_inv; cbn [nothing].
  - apply cbind_inv in E as [(u & w1 & E1%of_result_inv & E)|(e & E1%of_result_inv & ->)]; destruct E1 as [E1 ->]; [|by rewrite (HE _ eq_refl); auto].
    symmetry in E1. apply fail_if_Ok in E1. bool_prop. apply save_absent in E as [-> E]; [|lia|done]. destruct r0 as [|e]; [done|]. rewrite (HE _ eq_refl). auto.
  - unfold DeleteTeam in E. apply cbind_inv in E as [(u & w1 & E1%of_result_inv & E)|(e & E1%of_result_inv & ->)]; destruct E1 as [E1 ->]; [|by rewrite (HE _ eq_refl); auto].
    apply absent_call in E as [-> E]; [|done..]. destruct r0 as [|e]; [by destruct E|]. rewrite (HE _ eq_refl). auto.
  - apply absent_call in E as [-> E]; [|done..]. destruct r0 as [|e]; [by destruct E|]. rewrite (HE _ eq_refl). auto.
  - apply absent_call in E as [-> E]; [|done..]. destruct r0 as [|e]; [by destruct E|]. rewrite (HE _ eq_refl). auto.
  - apply absent_call in E as [-> E]; [|done..]. destruct r0 as [l|e]; [|rewrite (HE _ eq_refl); auto].
    destruct E as [|[= ->]]; [done|]. rewrite (HO _ eq_refl). eauto.
  - apply absent_call in E as [-> E]; [|done..]. destruct r0 as [l|e]; [|rewrite (HE _ eq_refl); auto].
    destruct E as [|[= ->]]; [done|]. rewrite (HO _ eq_refl). eauto.
  - unfold SetDefault in E.
    apply cbind_inv in E as [(u & w1 & E1%of_result_inv & E)|(e & E1%of_result_inv & ->)]; destruct E1 as [E1 ->]; [|by rewrite (HE _ eq_refl); auto].
    clear u E1. apply cbind_inv in E as [(u & w1 & E1%of_result_inv & E)|(e & E1%of_result_inv & ->)]; destruct E1 as [E1 ->]; [|by rewrite (HE _ eq_refl); auto].
    apply absent_call in E as [-> E]; [|done..]. destruct r0 as [|e]; [by destruct E|]. rewrite (HE _ eq_refl). auto.
  - apply absent_call in E as [-> E]; [|done..]. destruct r0 as [[]|e]; [|rewrite (HE _ eq_refl); auto].
    rewrite (HO _ eq_refl). eauto.
Qed.

Lemma reads_missing {A} (replacement : result A) (m : M world A) : reads m -> reads (missing replacement m).
Proof. apply keeps_missing. Qed.

Lemma perform_reads c env op : readOnly op = true -> reads (perform DecodeStrict c env op).
Proof.
  destruct op as [ref d|ref expected d|ref expected|ref|target|project|project|project ref|project]; try done; intros _;
    unfold perform, answering, Lookup, ResolveMember, ListTeams, ProjectDefault; keeps; apply reads_missing, transact_reads; intros id.
  - apply reads_record. intros record. by keeps.
  - keeps; [apply reads_lookupTeam|]. by case_match; keeps.
  - apply reads_listRecords.
  - apply reads_readDefault.
Qed.
End traces.

(** C31: Only a registration brings a catalog into being, and reading leaves no trace.  Whatever fails:
    a lookup, a resolution, a listing or a question for a default changes nothing on disk,
    and without a file every call but a registration changes nothing either, fails, or, where an
    absent catalog is no error, answers what an empty one would. *)
Theorem calls_without_trace DecodeStrict c env op w r w' : perform DecodeStrict c env op w = (r, w') ->
  readOnly op = true \/ (registers op = false /\ w !! c_path c = None) ->
  w' = w /\ (registers op = false -> w !! c_path c = None -> is_ok r = false \/ exists a, nothing op = Some a /\ r = Ok a).
Proof.
  intros E [Hr|[Hr Hw]].
  - split; [by eapply reads_eq; [apply perform_reads|]|]. intros Hg Hw. by apply perform_absent in E as [_ ?].
  - apply perform_absent in E as [-> ?]; done.
Qed.

(** ** The catalog as a table of teams *)

(** A team's revision and, unless it was deleted, its definition. *)
Record catalogState : Type := MkState {
  cs_ID : string; cs_Teams : gmap teamKey (Z * option Team); cs_Defaults : gmap (string * string) (string * string) }.

Definition withTeam (key : teamKey) (row : Z * option Team) (st : catalogState) : catalogState :=
  MkState (cs_ID st) (<[key := row]> (cs_Teams st)) (cs_Defaults st).

(** The revision a change writes: registration brings back a deleted team, a change expects
    the revision of one that is there. *)
Definition specRevision (st : catalogState) (ref : TeamReference) (expected : Z) : result Z :=
  match cs_Teams st !! keyFor ref with
  | None => if expected =? 0 then Ok 1 else Err (Sentinel teams_ErrNotFound)
  | Some (revision, definition) =>
      match definition with
      | None => if negb (expected =? 0) then Err (Sentinel teams_ErrNotFound)
                else if revision =? max_int64 then Err (Sentinel teams_ErrConflict) else Ok (revision + 1)
      | Some _ => if (expected =? revision) && negb (revision =? max_int64) then Ok (revision + 1) else Err (Sentinel teams_ErrConflict)
      end
  end.

Definition specLookup (st : catalogState) (ref : TeamReference) : result TeamRecord :=
  match cs_Teams st !! keyFor ref with
  | Some (revision, Some definition) => Ok (MkTeamRecord ref revision definition)
  | _ => Err (Sentinel teams_ErrNotFound)
  end.

Definition specSave (st : catalogState) (ref : TeamReference) (expected : Z) (definition : Team) : result answer * catalogState :=
  match specRevision st ref expected with
  | Ok n => (Ok (ARecord (MkTeamRecord ref n definition) (cs_ID st)), withTeam (keyFor ref) (n, Some definition) st)
  | Err e => (Err e, st)
  end.

Definition specDefault (st : catalogState) (project : TeamProject) : DefaultResult :=
  match cs_Defaults st !! projectKey project with
  | None => MkDefaultResult "unset" None None
  | Some (scope, id) =>
      let ref := MkTeamReference scope id (if eqs scope "project" then Some project else None) in
      match specLookup st ref with
      | Ok record => MkDefaultResult "resolved" (Some ref) (Some record)
      | Err _ => MkDefaultResult "stale" (Some ref) None
      end
  end.

(** The teams a project may see: the user's and its own. *)
Definition visible (project : option TeamProject) (ref : TeamReference) : Prop :=
  tr_Scope ref = "user"%string \/ (tr_Scope ref = "project"%string /\ exists p, project = Some p /\ tr_Project ref = Some p).

Definition recordKey (record : TeamRecord) : list string := keyTexts (keyFor (rec_Reference record)).

(** What a listing shows: the current record of every valid reference that is visible, once,
    in the order of scope, project and name. *)
Definition listingOf (st : catalogState) (project : option TeamProject) (records : list TeamRecord) : Prop :=
  (forall record, record ∈ records <-> ValidateTeamReference (rec_Reference record) = Ok tt /\
     visible project (rec_Reference record) /\ specLookup st (rec_Reference record) = Ok record) /\
  NoDup records /\
  Sorted (fun a b => compareTexts (recordKey a) (recordKey b) <> Gt) records.

(** A call on an existing catalog; [listing] is what a listing of it shows. *)
Definition spec (listing : list TeamRecord) (op : operation) (st : catalogState) : result answer * catalogState :=
  match op with
  | OpRegister ref definition => specSave st ref 0 definition
  | OpUpdate ref expected definition => specSave st ref expected definition
  | OpDelete ref expected =>
      match specRevision st ref expected with
      | Ok n => (Ok (ARevision n), withTeam (keyFor ref) (n, None) st)
      | Err e => (Err e, st)
      end
  | OpLookup ref => ((fun record => ARecord record (cs_ID st)) <$> specLookup st ref, st)
  | OpResolveMember target =>
      (if negb (eqs (tt_CatalogID target) "") && negb (eqs (tt_CatalogID target) (cs_ID st)) then Err (Sentinel teams_ErrCatalogIdentity)
       else record ← specLookup st (tt_Team target);
            match findMember (tt_MemberID target) (default [] (tm_Members (rec_Definition record))) with
            | Some member => Ok (AMember (MkResolvedMember (cs_ID st) record member))
            | None => Err (Sentinel teams_ErrNotFound)
            end, st)
  | OpList _ => (Ok (AListing (MkListing (cs_ID st) listing [])), st)
  | OpDefault project => (Ok (ADefault (specDefault st project)), st)
  | OpSetDefault project ref =>
      match specLookup st ref with
      | Ok _ => (Ok ADone, MkState (cs_ID st) (cs_Teams st) (<[projectKey project := (tr_Scope ref, tr_TeamID ref)]> (cs_Defaults st)))
      | Err e => (Err e, st)
      end
  | OpClearDefault project => (Ok ADone, MkState (cs_ID st) (cs_Teams st) (delete (projectKey project) (cs_Defaults st)))
  end.

(** The first registration, which names the catalog. *)
Definition specCreate (id : string) (ref : TeamReference) (definition : Team) : result answer * catalogState :=
  specSave (MkState id ∅ ∅) ref 0 definition.

(** A request that passes the checks of its arguments. *)
Definition wellFormed (c : Catalog) (op : operation) : Prop :=
  match op with
  | OpRegister ref definition => is_ok (definitionData c ref definition) = true
  | OpUpdate ref expected definition => 1 <= expected /\ is_ok (definitionData c ref definition) = true
  | OpDelete ref expected => 1 <= expected /\ ValidateTeamReference ref = Ok tt
  | OpLookup ref => ValidateTeamReference ref = Ok tt
  | OpResolveMember target => ValidateTeamTarget target false = Ok tt
  | OpList project => when_some project validateProject = Ok tt
  | OpDefault project | OpClearDefault project => validateProject project = Ok tt
  | OpSetDefault project ref =>
      validateProject project = Ok tt /\ ValidateTeamReference ref = Ok tt /\ (forall p, tr_Project ref = Some p -> p = project)
  end.

(** Nothing fails, and the connection is set up as the sources require. *)
Record quiet (env : environment) : Prop := MkQuiet {
  q_fault : forall k, ev_Fault env k = None;
  q_mkdir : forall path, ev_Mkdir env path = None;
  q_open : ev_OpenFile env = None;
  q_synchronous : ev_Setting env "synchronous" = 3;
  q_fullfsync : ev_Darwin env = true -> ev_Setting env "fullfsync" = 1;
  q_random : length (ev_Random env) = 16%nat /\ Forall (fun b => 0 <= b < 256) (ev_Random env) }.

(** ** What a file represents *)
Definition encodeRow (row : Z * option Team) : teamRow := MkTeamRow (fst row) ((fun t => MarshalCanonical (jsonTeam t)) <$> snd row).

(** The rows of a catalog: valid references, positive revisions in range, valid definitions. *)
Definition validRow (key : teamKey) (row : Z * option Team) : Prop :=
  1 <= fst row <= max_int64 /\ (exists ref, ValidateTeamReference ref = Ok tt /\ keyFor ref = key) /\
  forall t, snd row = Some t -> is_ok (Encode t) = true /\ tm_ID t = k_id key.

Definition validDefault (project team : string * string) : Prop :=
  forall p, projectKey p = project ->
  ValidateTeamReference (MkTeamReference (fst team) (snd team) (if eqs (fst team) "project" then Some p else None)) = Ok tt.

Definition fileOf (st : catalogState) (f : catalogFile) : Prop :=
  cf_UserVersion f = 1 /\ cf_ApplicationID f = 0 /\ cf_JournalMode f = "delete"%string /\
  cf_Schema f = schemaObjects /\ cf_CatalogID f = Some (cs_ID st) /\ ValidateRootID (cs_ID st) = Ok tt /\
  cf_Teams f = encodeRow <$> cs_Teams st /\ cf_Defaults f = cs_Defaults st /\
  map_Forall validRow (cs_Teams st) /\ map_Forall validDefault (cs_Defaults st).

(** A private directory, with the catalog or without it. *)
Definition represents (c : Catalog) (w : world) (st : option catalogState) : Prop :=
  IsAbs (c_path c) = true /\ Clean (c_path c) = c_path c /\ Dir (c_path c) <> c_path c /\ w !! Dir (c_path c) = Some (NDir 448) /\
  match st with
  | None => w !! c_path c = None
  | Some st => exists f, w !! c_path c = Some (NFile 384 f) /\ fileOf st f
  end.

(** ** Without faults *)
Section quiet.
Context (DecodeStrict : string -> result Team) `{StrictDecoder DecodeStrict} (c : Catalog) (env : environment) (Q : quiet env).

Lemma attempt_quiet {S} k wrap (s : S) : attempt env k wrap s = (Ok tt, s).
Proof. unfold attempt. by rewrite (q_fault _ Q). Qed.

Lemma query_quiet {A} what action (answer : catalogFile -> A) f : query env what action answer f = (Ok (answer f), f).
Proof. unfold query, cbind. by rewrite attempt_quiet. Qed.

Lemma queryRow_quiet {A} what (row : catalogFile -> option A) f : queryRow env what row f =
  match row f with Some a => (Ok a, f) | None => (Err (Sentinel sql_ErrNoRows), f) end.
Proof. unfold queryRow. by rewrite (q_fault _ Q). Qed.

Lemma exec_quiet what action change f f' : change f = Some f' -> exec env what action change f = (Ok tt, f').
Proof. intros E. unfold exec, cbind. by rewrite attempt_quiet, E. Qed.

Lemma cbind_quiet {S A B} (m : M S A) (k : A -> M S B) s a s' : m s = (Ok a, s') -> cbind m k s = k a s'.
Proof. intros E. unfold cbind. by rewrite E. Qed.

Lemma cbind_result {S A B} a (k : A -> M S B) s : cbind (of_result (Ok a)) k s = k a s.
Proof. done. Qed.

Lemma joinClose_quiet {A} k (m : result A) : joinClose m (ev_Fault env k) = m.
Proof. by rewrite (q_fault _ Q). Qed.

Lemma sameSchema_refl : sameSchema schemaObjects = true.
Proof.
  unfold sameSchema. rewrite Z.eqb_refl. apply forallb_forall. intros o Ho. apply existsb_exists. exists o. split; [done|]. by apply bool_decide_eq_true.
Qed.

Lemma verifyDurability_quiet f : verifyDurability env f = (Ok tt, f).
Proof.
  unfold verifyDurability. cbn [verifySettings]. rewrite (cbind_quiet _ _ _ _ _ (query_quiet _ _ _ _)). rewrite (q_synchronous _ Q).
  destruct (ev_Darwin env) eqn:Ed; [|done]. rewrite (cbind_quiet _ _ _ tt f) by done. cbn [verifySettings].
  rewrite (cbind_quiet _ _ _ _ _ (query_quiet _ _ _ _)). by rewrite (q_fullfsync _ Q).
Qed.

Lemma readSchema_quiet f : readSchema env f = (Ok (cf_Schema f), f).
Proof.
  unfold readSchema. rewrite (cbind_quiet _ _ _ _ _ (attempt_quiet _ _ _)). unfold closing.
  rewrite (cbind_quiet _ _ _ _ _ (attempt_quiet _ _ _)), query_quiet. by rewrite joinClose_quiet.
Qed.

Lemma readCatalogID_quiet f id : cf_CatalogID f = Some id -> ValidateRootID id = Ok tt -> readCatalogID env f = (Ok id, f).
Proof. intros E Hv. unfold readCatalogID. rewrite queryRow_quiet, E. by rewrite Hv. Qed.

(** The checks of the guard that precede the decision to initialize. *)
Lemma guardSchema_quiet initialize f : cf_ApplicationID f = 0 -> cf_JournalMode f = "delete"%string ->
  guardSchema c env initialize f =
    cbind (if initialize && (cf_UserVersion f =? 0) && (Z.of_nat (length (cf_Schema f)) =? 0) then
             attempt env (StatPath (c_path c)) (unavailable env "inspecting uninitialized catalog") ;;;
             blank <- gets cf_Blank ;;
             of_result (fail_if (negb blank) (Errorf "existing database is not an empty initialization file" (Sentinel teams_ErrSchema))) ;;;
             initializeSchema env
           else of_result (fail_if (negb (cf_UserVersion f =? 1) || negb (sameSchema (cf_Schema f)))
                             (Errorf "unexpected schema or user_version" (Sentinel teams_ErrSchema))))
      (fun _ => readCatalogID env) f.
Proof.
  intros Ha Hj. unfold guardSchema. rewrite (cbind_quiet _ _ _ _ _ (query_quiet _ _ _ _)).
  rewrite (cbind_quiet _ _ _ tt f) by (unfold verifyJournal; rewrite (cbind_quiet _ _ _ _ _ (query_quiet _ _ _ _)); by rewrite Hj).
  rewrite (cbind_quiet _ _ _ _ _ (query_quiet _ _ _ _)), Ha. rewrite (cbind_quiet _ _ _ tt f) by done.
  by rewrite (cbind_quiet _ _ _ _ _ (readSchema_quiet f)).
Qed.

Lemma guard_initialized initialize st f : fileOf st f -> guardSchema c env initialize f = (Ok (cs_ID st), f).
Proof.
  intros (Hv & Ha & Hj & Hs & Hi & Hr & _). rewrite guardSchema_quiet by done. rewrite Hv, Hs, andb_false_r, sameSchema_refl.
  rewrite (cbind_quiet _ _ _ tt f) by done. by apply readCatalogID_quiet.
Qed.

Lemma transaction_quiet {A} mode (body : string -> M catalogFile A) id f f1 :
  guardSchema c env (bool_decide (mode = catalogCreate)) f = (Ok id, f1) ->
  transaction c env mode body f =
    match body id f1 with
    | (Ok a, f2) => (Ok a, if writes mode then committed f2 else f2)
    | (Err e, _) => (Err e, f)
    end.
Proof.
  intros Hg. unfold transaction. rewrite (q_fault _ Q BeginTx). cbv zeta.
  rewrite (cbind_quiet _ _ f tt f) by (destruct (writes mode); [apply verifyDurability_quiet|done]). rewrite (cbind_quiet _ _ _ _ _ Hg).
  destruct (body id f1) as [[a|e] f2] eqn:Eb.
  - rewrite (cbind_quiet _ _ _ _ _ Eb). rewrite (cbind_quiet _ _ f2 tt f2) by (destruct (writes mode); [apply query_quiet|done]).
    unfold cret. by rewrite (q_fault _ Q Commit), joinClose_quiet.
  - replace (cbind (body id) _ f1) with (@Err A e, f2) by (unfold cbind; by rewrite Eb).
    unfold rollback. by rewrite (q_fault _ Q Rollback), joinClose_quiet.
Qed.

Lemma stat_quiet path n w : w !! path = Some n -> stat env path w = (Ok n, w).
Proof. intros E. unfold stat. by rewrite (q_fault _ Q), E. Qed.

Lemma privateDirectory_quiet path w : w !! path = Some (NDir 448) -> privateDirectory env path w = (Ok tt, w).
Proof. intros E. unfold privateDirectory, onError, cbind. by rewrite (stat_quiet _ _ _ E). Qed.

Lemma ensureDirectory_quiet fuel path perm w : w !! path = Some (NDir perm) -> ensureDirectory env (S fuel) path w = (Ok tt, w).
Proof.
  intros E. cbn [ensureDirectory]. rewrite (cbind_quiet _ _ _ _ _ (attempt_quiet _ _ _)). rewrite (cbind_quiet _ _ w tt w) by by rewrite (stat_quiet _ _ _ E).
  apply attempt_quiet.
Qed.

(** The file after [createDatabase]. *)
Definition created (w : world) : world := match w !! c_path c with Some _ => w | None => <[c_path c := NFile 384 blankFile]> w end.

Lemma createDatabase_quiet w : w !! Dir (c_path c) = Some (NDir 448) -> createDatabase env (c_path c) w = (Ok tt, created w).
Proof.
  intros Hd. unfold createDatabase. rewrite (cbind_quiet _ _ _ _ _ (ensureDirectory_quiet _ _ _ _ Hd)).
  rewrite (cbind_quiet _ _ _ _ _ (privateDirectory_quiet _ _ Hd)). unfold openExclusive, created.
  destruct (w !! c_path c); [done|]. rewrite (q_open _ Q). rewrite !(q_fault _ Q). apply attempt_quiet.
Qed.

Lemma prepare_quiet mode w perm f : IsAbs (c_path c) = true -> Clean (c_path c) = c_path c -> Dir (c_path c) <> c_path c ->
  w !! Dir (c_path c) = Some (NDir 448) ->
  (if bool_decide (mode = catalogCreate) then created w else w) !! c_path c = Some (NFile 384 f) -> perm = 384 ->
  prepare c env mode w = (Ok tt, if bool_decide (mode = catalogCreate) then created w else w).
Proof.
  intros Ha Hc Hne Hd Hf ->. unfold prepare. rewrite Ha, Hc, eqs_refl. rewrite (cbind_quiet _ _ w tt w) by done.
  set (w1 := if bool_decide (mode = catalogCreate) then created w else w) in *.
  assert (w1 !! Dir (c_path c) = Some (NDir 448)) as Hd1.
  { unfold w1, created. case_bool_decide; [|done]. case_match; [done|]. by rewrite lookup_insert_ne. }
  rewrite (cbind_quiet _ _ w tt w1) by (unfold w1; case_bool_decide; [by apply createDatabase_quiet|done]).
  rewrite (q_fault _ Q), Hf. cbn [negb]. rewrite Z.eqb_refl. cbn [negb]. rewrite andb_false_r.
  rewrite (cbind_quiet _ _ w1 tt w1) by done. destruct (writes mode); [by apply privateDirectory_quiet|done].
Qed.

Lemma transact_quiet {A} mode (body : string -> M catalogFile A) w st f : represents c w (Some st) ->
  w !! c_path c = Some (NFile 384 f) ->
  transact c env mode body w =
    match body (cs_ID st) f with
    | (Ok a, f2) => (Ok a, <[c_path c := NFile 384 (if writes mode then committed f2 else f2)]> w)
    | (Err e, _) => (Err e, w)
    end.
Proof.
  intros (Ha & Hc & Hne & Hd & f' & Hf' & Hs) Hf. rewrite Hf in Hf'. injection Hf' as <-.
  unfold transact. rewrite (cbind_quiet _ _ _ _ _ (attempt_quiet _ _ _)).
  assert ((if bool_decide (mode = catalogCreate) then created w else w) = w) as Hw by (unfold created; rewrite Hf; by case_bool_decide).
  rewrite (cbind_quiet _ _ w tt w).
  2:{ rewrite (prepare_quiet mode w 384 f), Hw; try done. by rewrite Hw. }
  rewrite (cbind_quiet _ _ _ _ _ (attempt_quiet _ _ _)), Hf.
  rewrite (transaction_quiet mode body _ _ _ (guard_initialized _ st f Hs)).
  destruct (body (cs_ID st) f) as [[a|e] f2]; [done|]. by rewrite insert_id.
Qed.

(** ** Rows *)
Lemma row_lookup st f key : fileOf st f -> cf_Teams f !! key = encodeRow <$> cs_Teams st !! key.
Proof. intros (_ & _ & _ & _ & _ & _ & -> & _). apply lookup_fmap. Qed.

Lemma row_valid st f key row : fileOf st f -> cs_Teams st !! key = Some row -> validRow key row.
Proof. intros (_ & _ & _ & _ & _ & _ & _ & _ & Hr & _) E. by apply Hr. Qed.

Lemma scanTeam_quiet st f key : fileOf st f -> scanTeam env key f =
  match cs_Teams st !! key with Some row => (Ok (encodeRow row), f) | None => (Err (Sentinel sql_ErrNoRows), f) end.
Proof. intros Hf. unfold scanTeam. rewrite queryRow_quiet, (row_lookup _ _ _ Hf). by destruct (cs_Teams st !! key). Qed.

Lemma encode_team t : is_ok (Encode t) = true -> Encode t = Ok (MarshalCanonical (jsonTeam t)).
Proof. destruct (Encode t) as [data|e] eqn:E; [|done]. intros _. by apply Encode_inv in E as (_ & -> & _). Qed.

(** A valid definition is read back from its row. *)
Lemma decodeRecord_stored ref revision t : ValidateTeamReference ref = Ok tt -> is_ok (Encode t) = true -> tm_ID t = tr_TeamID ref -> 1 <= revision ->
  decodeRecord DecodeStrict ref revision (MarshalCanonical (jsonTeam t)) = Ok (MkTeamRecord ref revision t).
Proof.
  intros Hr He%encode_team Hi Hn. destruct (Encode_inv _ _ He) as (Hv & _ & Hl). unfold decodeRecord. rewrite Hr. cbn [wrap_err mbind result_bind].
  rewrite (decode_encoded DecodeStrict t Hv Hl). cbn [mbind result_bind]. rewrite Hi, eqs_refl, (proj2 (Z.ltb_ge _ _)) by lia.
  cbn [negb orb fail_if mbind result_bind]. rewrite He. cbn [mbind result_bind]. by rewrite eqs_refl.
Qed.

Lemma keyFor_id ref : k_id (keyFor ref) = tr_TeamID ref.
Proof. unfold keyFor. by destruct (tr_Project ref). Qed.

Lemma lookupTeam_quiet st f ref : fileOf st f -> ValidateTeamReference ref = Ok tt -> lookupTeam DecodeStrict env ref f = (specLookup st ref, f).
Proof.
  intros Hf Hr. unfold lookupTeam, specLookup. rewrite (scanTeam_quiet _ _ _ Hf). destruct (cs_Teams st !! keyFor ref) as [[n [t|]]|] eqn:E; [|done..].
  cbn [encodeRow row_definition row_revision fst snd fmap option_fmap option_map]. destruct (row_valid _ _ _ _ Hf E) as ([Hn _] & _ & Ht). cbn [fst snd] in *.
  destruct (Ht t eq_refl) as [He Hi]. rewrite keyFor_id in Hi. by rewrite decodeRecord_stored.
Qed.

Lemma nextRevision_quiet st f ref expected : fileOf st f -> 0 <= expected -> nextRevision env ref expected f = (specRevision st ref expected, f).
Proof.
  intros Hf He. unfold nextRevision, specRevision. rewrite (scanTeam_quiet _ _ _ Hf). destruct (cs_Teams st !! keyFor ref) as [[n d]|] eqn:E.
  - destruct (row_valid _ _ _ _ Hf E) as ([Hn _] & _). cbn [fst] in Hn. cbn [encodeRow row_definition row_revision fst snd].
    rewrite (proj2 (Z.ltb_ge n 1)) by lia. f_equal. destruct d as [t|]; cbn [fmap option_fmap option_map SchedStore.valid].
    + destruct (Z.eqb_spec expected 0) as [->|Hne]; cbn [negb andb orb].
      * by rewrite (proj2 (Z.eqb_neq 0 n)) by lia.
      * destruct (expected =? n), (n =? max_int64); done.
    + destruct (expected =? 0); cbn [negb andb orb]; [|done]. by destruct (n =? max_int64).
  - cbn. by destruct (expected =? 0).
Qed.

(** Rows of valid references satisfy the CHECK clauses. *)
Lemma canonical_nonempty j : 1 <= len (MarshalCanonical j).
Proof. unfold len. rewrite <- length_list_ascii. unfold MarshalCanonical. rewrite bytes_str, length_app. cbn. lia. Qed.

Lemma canonicalCwd_nonempty path : IsCanonicalCwd path = true -> eqs path "" = false.
Proof. destruct (eqs path "") eqn:E; [|done]. apply eqs_true in E as ->. done. Qed.

Lemma reference_inv ref : ValidateTeamReference ref = Ok tt ->
  (tr_Scope ref = "user"%string /\ tr_Project ref = None) \/
  (tr_Scope ref = "project"%string /\ exists p, tr_Project ref = Some p /\ eqs (tp_Path p) "" = false /\
     (tp_Kind p = "git"%string \/ tp_Kind p = "directory"%string)).
Proof.
  unfold ValidateTeamReference. intros ([] & _ & Hr)%bind_Ok. destruct (eqs (tr_Scope ref) "user") eqn:Eu.
  - left. apply eqs_true in Eu. apply fail_if_Ok in Hr. by destruct (tr_Project ref).
  - destruct (eqs (tr_Scope ref) "project") eqn:Ep; [|done]. right. apply eqs_true in Ep. apply fail_if_Ok in Hr. destruct (tr_Project ref) as [p|]; [|done].
    apply orb_false_iff in Hr as [Hc Hk]. apply negb_false_iff, canonicalCwd_nonempty in Hc. split; [done|]. exists p. split_and!; [done..|].
    destruct (eqs (tp_Kind p) "git") eqn:Eg; [left; by apply eqs_true|]. destruct (eqs (tp_Kind p) "directory") eqn:Ed; [right; by apply eqs_true|done].
Qed.

Lemma checkTeam_valid ref row : ValidateTeamReference ref = Ok tt -> validRow (keyFor ref) row -> checkTeam (keyFor ref) (encodeRow row) = true.
Proof.
  intros Hr ([Hn _] & _ & Ht). unfold checkTeam.
  assert (match row_definition (encodeRow row) with None => true | Some d => (1 <=? len d) && (len d <=? MaxControlRecordSize) end = true) as ->.
  { destruct row as [n [t|]]; cbn; [|done]. destruct (Ht t eq_refl) as [He%encode_team _]. apply Encode_inv in He as (_ & _ & Hl).
    rewrite !(proj2 (Z.leb_le _ _)); [done|done|apply canonical_nonempty]. }
  cbn [row_revision encodeRow]. rewrite (proj2 (Z.ltb_lt _ _)) by lia.
  destruct (reference_inv _ Hr) as [[Es Ep]|(Es & p & Ep & Hp & Hk)]; unfold keyFor; rewrite Ep; cbn [k_scope k_kind k_path k_id]; rewrite Es; [done|].
  rewrite Hp. destruct Hk as [-> | ->]; done.
Qed.

(** Writing a valid row. *)
Lemma fileOf_withTeam st f key row : fileOf st f -> validRow key row ->
  fileOf (withTeam key row st) (committed (setTeams (<[key := encodeRow row]> (cf_Teams f)) f)).
Proof.
  intros (Hv & Ha & Hj & Hs & Hi & Hr & Ht & Hd & Hrows & Hdef) Hrow. unfold fileOf, committed, setTeams, withTeam. cbn.
  split_and!; try done; [by rewrite Ht, fmap_insert|by apply map_Forall_insert_2].
Qed.

Lemma fileOf_withDefaults st f m : fileOf st f -> map_Forall validDefault m ->
  fileOf (MkState (cs_ID st) (cs_Teams st) m) (committed (setDefaults m f)).
Proof.
  intros (Hv & Ha & Hj & Hs & Hi & Hr & Ht & Hd & Hrows & Hdef) Hm. unfold fileOf, committed, setDefaults. cbn. by split_and!.
Qed.

Lemma represents_file w st st' f : represents c w (Some st) -> fileOf st' f -> represents c (<[c_path c := NFile 384 f]> w) (Some st').
Proof.
  intros (Ha & Hc & Hne & Hd & _) Hf. split_and!; [done..|by rewrite lookup_insert_ne|]. exists f. by rewrite lookup_insert_eq.
Qed.

Lemma specRevision_range st ref expected n f : fileOf st f -> specRevision st ref expected = Ok n -> 1 <= n <= max_int64.
Proof.
  unfold specRevision. intros Hf. destruct (cs_Teams st !! keyFor ref) as [[r d]|] eqn:E.
  - destruct (row_valid _ _ _ _ Hf E) as ([H1 H2] & _). cbn [fst] in *. intros Hn.
    assert ((r =? max_int64) = false /\ n = r + 1) as [Hm ->].
    { destruct d, (expected =? 0), (expected =? r), (r =? max_int64); cbn in Hn; by simplify_eq. }
    apply Z.eqb_neq in Hm. lia.
  - destruct (expected =? 0); [|done]. intros [= <-]. unfold max_int64. lia.
Qed.

Lemma missing_quiet {A} (replacement : result A) (m : M world A) w r w' : m w = (r, w') ->
  (forall e, r = Err e -> errors_Is e teams_errMissingCatalog = false) -> missing replacement m w = (r, w').
Proof. intros E Hr. unfold missing. rewrite E. destruct r as [a|e]; [done|]. by rewrite Hr. Qed.

(** ** Calls *)
Lemma read_call {A} (body : string -> M catalogFile A) w st f r : represents c w (Some st) -> w !! c_path c = Some (NFile 384 f) ->
  body (cs_ID st) f = (r, f) -> transact c env catalogRead body w = (r, w).
Proof. intros Hw Hf Hb. rewrite (transact_quiet _ _ _ _ _ Hw Hf), Hb. destruct r; [|done]. cbn. by rewrite insert_id. Qed.

Lemma file_of w st : represents c w (Some st) -> exists f, w !! c_path c = Some (NFile 384 f) /\ fileOf st f.
Proof. by intros (_ & _ & _ & _ & H1). Qed.

(** A call whose state and answer are those of the specification. *)
Definition follows (m : M world answer) (w : world) (p : result answer * catalogState) : Prop :=
  exists w', m w = (fst p, w') /\ represents c w' (Some (snd p)).

Lemma definitionData_inv ref t : is_ok (definitionData c ref t) = true ->
  definitionData c ref t = Ok (MarshalCanonical (jsonTeam t)) /\ ValidateTeamReference ref = Ok tt /\ tm_ID t = tr_TeamID ref /\ is_ok (Encode t) = true.
Proof.
  destruct (definitionData c ref t) as [data|e] eqn:E; [|done]. intros _. unfold definitionData in E.
  apply bind_Ok in E as ([] & Hr & E). apply bind_Ok in E as ([] & Hi%fail_if_Ok & E). bool_prop. apply eqs_true in Hi.
  apply bind_Ok in E as (data' & He & E). apply bind_Ok in E as ([] & _ & [= ->]). pose proof (Encode_inv _ _ He) as (_ & -> & _). by rewrite He.
Qed.

Lemma validRow_new ref st f expected n t : fileOf st f -> specRevision st ref expected = Ok n -> ValidateTeamReference ref = Ok tt ->
  (forall d, t = Some d -> is_ok (Encode d) = true /\ tm_ID d = tr_TeamID ref) -> validRow (keyFor ref) (n, t).
Proof.
  intros Hf Hn Hr Ht. split; [by eapply specRevision_range|]. split; [by exists ref|]. cbn [snd]. intros d Hd. rewrite keyFor_id. by apply Ht.
Qed.

(** The body of [save] on a file. *)
Lemma save_body st f ref expected t : fileOf st f -> 0 <= expected -> ValidateTeamReference ref = Ok tt -> is_ok (Encode t) = true -> tm_ID t = tr_TeamID ref ->
  (revision <- nextRevision env ref expected ;;
   exec env "save" "saving Team" (upsertTeam (keyFor ref) (MkTeamRow revision (Some (MarshalCanonical (jsonTeam t))))) ;;;
   record <- of_result (decodeRecord DecodeStrict ref revision (MarshalCanonical (jsonTeam t))) ;;
   cret (record, cs_ID st)) f =
  match specRevision st ref expected with
  | Ok n => (Ok (MkTeamRecord ref n t, cs_ID st), setTeams (<[keyFor ref := encodeRow (n, Some t)]> (cf_Teams f)) f)
  | Err e => (Err e, f)
  end.
Proof.
  intros Hf He Hr Ht Hi. unfold cbind at 1. rewrite (nextRevision_quiet _ _ _ _ Hf He). destruct (specRevision st ref expected) as [n|e] eqn:En; [|done].
  assert (validRow (keyFor ref) (n, Some t)) as Hrow by (eapply validRow_new; [done..|]; by intros d [= <-]).
  rewrite (cbind_quiet _ _ _ tt (setTeams (<[keyFor ref := encodeRow (n, Some t)]> (cf_Teams f)) f)).
  - unfold cbind, of_result. rewrite decodeRecord_stored; [done..|]. pose proof (specRevision_range _ _ _ _ _ Hf En). lia.
  - apply exec_quiet. unfold upsertTeam. change (MkTeamRow n (Some (MarshalCanonical (jsonTeam t)))) with (encodeRow (n, Some t)). by rewrite checkTeam_valid.
Qed.

Lemma spec_errors st ref expected e : specRevision st ref expected = Err e -> errors_Is e teams_errMissingCatalog = false.
Proof.
  unfold specRevision. destruct (cs_Teams st !! keyFor ref) as [[n [t|]]|].
  - by case_match; intros [= <-].
  - by repeat case_match; intros [= <-].
  - by case_match; intros [= <-].
Qed.

Lemma lookup_errors st ref e : specLookup st ref = Err e -> e = Sentinel teams_ErrNotFound.
Proof. unfold specLookup. repeat case_match; congruence. Qed.

Lemma answering_quiet {A} (m : M world A) (g : A -> answer) w r w' : m w = (r, w') -> answering m g w = (g <$> r, w').
Proof. intros E. unfold answering, cbind. rewrite E. by destruct r. Qed.

Lemma save_follows w st ref expected t : represents c w (Some st) -> 0 <= expected -> is_ok (definitionData c ref t) = true ->
  follows (answering (save DecodeStrict c env ref expected t) (fun p => ARecord (fst p) (snd p))) w (specSave st ref expected t).
Proof.
  intros Hw He (Ed & Hr & Hi & Ht)%definitionData_inv. destruct (file_of _ _ Hw) as (f & Hf & Hs). unfold follows, specSave.
  pose proof (save_body st f ref expected t Hs He Hr Ht Hi) as Hb. set (mode := if expected =? 0 then catalogCreate else catalogWrite).
  assert (writes mode = true) as Hm by (unfold mode; by destruct (expected =? 0)).
  pose proof (transact_quiet mode (fun id => revision <- nextRevision env ref expected ;;
   exec env "save" "saving Team" (upsertTeam (keyFor ref) (MkTeamRow revision (Some (MarshalCanonical (jsonTeam t))))) ;;;
   record <- of_result (decodeRecord DecodeStrict ref revision (MarshalCanonical (jsonTeam t))) ;; cret (record, id)) w st f Hw Hf) as Htr.
  cbn beta in Htr. rewrite Hb, Hm in Htr. assert (forall r w', transact c env mode (fun id => revision <- nextRevision env ref expected ;;
   exec env "save" "saving Team" (upsertTeam (keyFor ref) (MkTeamRow revision (Some (MarshalCanonical (jsonTeam t))))) ;;;
   record <- of_result (decodeRecord DecodeStrict ref revision (MarshalCanonical (jsonTeam t))) ;; cret (record, id)) w = (r, w') ->
    (forall e, r = Err e -> errors_Is e teams_errMissingCatalog = false) -> save DecodeStrict c env ref expected t w = (r, w')) as Hsave.
  { intros r w' E Hn. unfold save. rewrite Ed. rewrite cbind_result. by apply missing_quiet. }
  destruct (specRevision st ref expected) as [n|e] eqn:En.
  - eexists. split; [by rewrite (answering_quiet _ _ _ _ _ (Hsave _ _ Htr ltac:(done)))|]. cbn [snd].
    eapply represents_file; [exact Hw|]. apply fileOf_withTeam; [done|]. eapply validRow_new; [done..|]. by intros d [= <-].
  - exists w. split; [|done]. rewrite (answering_quiet _ _ _ _ _ (Hsave _ _ Htr ltac:(intros e' [= <-]; by eapply spec_errors))). done.
Qed.

Lemma delete_body st f ref expected : fileOf st f -> 1 <= expected -> ValidateTeamReference ref = Ok tt ->
  (revision <- nextRevision env ref expected ;;
   exec env "delete" "deleting Team" (retireTeam (keyFor ref) revision) ;;; cret revision) f =
  match specRevision st ref expected with
  | Ok n => (Ok n, setTeams (<[keyFor ref := encodeRow (n, None)]> (cf_Teams f)) f)
  | Err e => (Err e, f)
  end.
Proof.
  intros Hs He Hr. unfold cbind at 1. rewrite (nextRevision_quiet _ _ _ _ Hs) by lia.
  destruct (specRevision st ref expected) as [n|e] eqn:En; [|done].
  assert (validRow (keyFor ref) (n, None)) as Hrow by (by eapply validRow_new).
  assert (is_Some (cs_Teams st !! keyFor ref)) as [row Erow].
  { unfold specRevision in En. destruct (cs_Teams st !! keyFor ref); [done|]. by rewrite (proj2 (Z.eqb_neq _ _)) in En by lia. }
  rewrite (cbind_quiet _ _ _ tt (setTeams (<[keyFor ref := encodeRow (n, None)]> (cf_Teams f)) f)); [done|].
  apply exec_quiet. unfold retireTeam. rewrite (row_lookup _ _ _ Hs), Erow. unfold upsertTeam.
  change (MkTeamRow n None) with (encodeRow (n, None)). by rewrite checkTeam_valid.
Qed.

Lemma delete_follows w st ref expected : represents c w (Some st) -> 1 <= expected -> ValidateTeamReference ref = Ok tt ->
  follows (answering (DeleteTeam c env ref expected) ARevision) w (spec [] (OpDelete ref expected) st).
Proof.
  intros Hw He Hr. destruct (file_of _ _ Hw) as (f & Hf & Hs). unfold follows, spec.
  pose proof (transact_quiet catalogWrite (fun _ => revision <- nextRevision env ref expected ;;
    exec env "delete" "deleting Team" (retireTeam (keyFor ref) revision) ;;; cret revision) w st f Hw Hf) as Htr.
  cbn beta in Htr. rewrite (delete_body _ _ _ _ Hs He Hr) in Htr.
  assert (forall r w', transact c env catalogWrite (fun _ => revision <- nextRevision env ref expected ;;
    exec env "delete" "deleting Team" (retireTeam (keyFor ref) revision) ;;; cret revision) w = (r, w') ->
    (forall e, r = Err e -> errors_Is e teams_errMissingCatalog = false) -> answering (DeleteTeam c env ref expected) ARevision w = (ARevision <$> r, w')) as Hd.
  { intros r w' E Hn. apply answering_quiet. unfold DeleteTeam. rewrite Hr, cbind_result.
    rewrite (proj2 (Z.ltb_ge _ _)) by lia. cbn [fail_if]. rewrite cbind_result. by apply missing_quiet. }
  destruct (specRevision st ref expected) as [n|e] eqn:En.
  - eexists. split; [exact (Hd (Ok n) _ Htr ltac:(done))|]. eapply represents_file; [exact Hw|]. apply fileOf_withTeam; [done|]. by eapply validRow_new.
  - exists w. split; [|done]. apply (Hd (Err e) _ Htr). intros e' [= <-]. by eapply spec_errors.
Qed.

(** Calls that read answer from the table. *)
Lemma reading_follows {A} (checks : result unit) (replacement : result A) (body : string -> M catalogFile A) (g : A -> answer) w st r :
  represents c w (Some st) -> checks = Ok tt ->
  (forall f, fileOf st f -> body (cs_ID st) f = (r, f)) -> (forall e, r = Err e -> errors_Is e teams_errMissingCatalog = false) ->
  follows (answering (of_result checks ;;; missing replacement (transact c env catalogRead body)) g) w (g <$> r, st).
Proof.
  intros Hw -> Hb Hr. destruct (file_of _ _ Hw) as (f & Hf & Hs). exists w. split; [|done]. apply answering_quiet. rewrite cbind_result.
  apply missing_quiet; [|done]. eapply read_call; [done..|]. by apply Hb.
Qed.

Lemma target_valid target : ValidateTeamTarget target false = Ok tt -> ValidateTeamReference (tt_Team target) = Ok tt.
Proof. unfold ValidateTeamTarget. by intros ([] & H1 & _)%bind_Ok. Qed.

Lemma default_body st f project : fileOf st f -> readDefault DecodeStrict env project f = (Ok (specDefault st project), f).
Proof.
  intros Hf. pose proof Hf as (_ & _ & _ & _ & _ & _ & _ & Ed & _ & Hv). unfold readDefault, specDefault. rewrite queryRow_quiet, Ed.
  destruct (cs_Defaults st !! projectKey project) as [[scope id]|] eqn:E; [|done]. pose proof (Hv _ _ E project eq_refl) as Hr. cbn [fst snd] in Hr.
  rewrite Hr. cbn [wrap_err]. rewrite (lookupTeam_quiet st f _ Hf Hr). destruct (specLookup st _) as [record|e] eqn:El; [done|].
  by rewrite (lookup_errors _ _ _ El).
Qed.

Lemma setDefault_follows w st project ref : represents c w (Some st) -> wellFormed c (OpSetDefault project ref) ->
  follows (answering (SetDefault DecodeStrict c env project ref) (fun _ => ADone)) w (spec [] (OpSetDefault project ref) st).
Proof.
  intros Hw (Hp & Hr & Hm). destruct (file_of _ _ Hw) as (f & Hf & Hs). unfold spec.
  assert (match tr_Project ref with Some p => negb (bool_decide (p = project)) | None => false end = false) as Hmatch.
  { destruct (tr_Project ref) as [p|]; [|done]. by rewrite (Hm p), bool_decide_true. }
  set (f' := setDefaults (<[projectKey project := (tr_Scope ref, tr_TeamID ref)]> (cf_Defaults f)) f).
  set (body := fun _ : string => lookupTeam DecodeStrict env ref ;;; exec env "set default" "setting project default" (fun f =>
      if checkDefault (projectKey project) (tr_Scope ref, tr_TeamID ref)
      then Some (setDefaults (<[projectKey project := (tr_Scope ref, tr_TeamID ref)]> (cf_Defaults f)) f) else None)).
  assert (forall r w', transact c env catalogWrite body w = (r, w') -> (forall e, r = Err e -> errors_Is e teams_errMissingCatalog = false) ->
    answering (SetDefault DecodeStrict c env project ref) (fun _ => ADone) w = ((fun _ => ADone) <$> r, w')) as Hd.
  { intros r w' E Hn. apply answering_quiet. unfold SetDefault. rewrite Hp, cbind_result, Hr, cbind_result, Hmatch. cbn [fail_if]. rewrite cbind_result.
    by apply missing_quiet. }
  pose proof (transact_quiet catalogWrite body w st f Hw Hf) as Htr. unfold body in Htr at 2. unfold cbind at 1 in Htr.
  rewrite (lookupTeam_quiet st f ref Hs Hr) in Htr. destruct (specLookup st ref) as [record|e] eqn:El.
  - rewrite (exec_quiet _ _ _ f f') in Htr.
    2:{ replace (checkDefault _ _) with true; [done|]. unfold checkDefault, projectKey. cbn [fst snd].
        unfold validateProject in Hp. apply wrap_err_Ok, reference_inv in Hp as [[[=] _]|(_ & p & [= <-] & Hne & Hk)]. rewrite Hne.
        destruct (reference_inv _ Hr) as [[-> _]|[-> _]], Hk as [-> | ->]; done. }
    eexists. split; [exact (Hd _ _ Htr ltac:(done))|]. eapply represents_file; [exact Hw|].
    pose proof Hs as (_ & _ & _ & _ & _ & _ & _ & Ed & _ & Hv). unfold f'. rewrite Ed. apply fileOf_withDefaults; [done|].
    apply map_Forall_insert_2; [|done]. intros p Hk. cbn [fst snd].
    assert (p = project) as -> by (destruct p, project; cbn in Hk; by injection Hk as -> ->).
    destruct ref as [scope id proj]. cbn [tr_Scope tr_TeamID] in *. destruct (reference_inv _ Hr) as [[E1 E2]|(E1 & p & E2 & _)]; cbn in E1, E2; subst; [done|].
    by rewrite <- (Hm p eq_refl).
  - exists w. split; [|done]. apply (Hd (Err e) _ Htr). intros e' [= <-]. by rewrite (lookup_errors _ _ _ El).
Qed.

Lemma clearDefault_follows w st project : represents c w (Some st) -> validateProject project = Ok tt ->
  follows (answering (ClearDefault c env project) (fun _ => ADone)) w (spec [] (OpClearDefault project) st).
Proof.
  intros Hw Hp. destruct (file_of _ _ Hw) as (f & Hf & Hs).
  set (body := fun _ : string => exec env "clear default" "clearing project default" (fun f =>
      Some (setDefaults (delete (projectKey project) (cf_Defaults f)) f))).
  pose proof (transact_quiet catalogWrite body w st f Hw Hf) as Htr. unfold body in Htr at 2.
  rewrite (exec_quiet "clear default" "clearing project default" _ f (setDefaults (delete (projectKey project) (cf_Defaults f)) f)) in Htr by done.
  eexists. split.
  - assert (forall r w', transact c env catalogWrite body w = (r, w') -> (forall e, r = Err e -> errors_Is e teams_errMissingCatalog = false) ->
      ClearDefault c env project w = (r, w')) as Hd.
    { intros r w' E Hn. unfold ClearDefault. rewrite Hp, cbind_result. by apply missing_quiet. }
    by rewrite (answering_quiet _ _ _ _ _ (Hd _ _ Htr ltac:(done))).
  - pose proof Hs as (_ & _ & _ & _ & _ & _ & _ & Ed & _ & Hv). eapply represents_file; [exact Hw|]. rewrite Ed. apply fileOf_withDefaults; [done|].
    by apply map_Forall_delete.
Qed.

(** Every call but a listing. *)
Lemma calls_follow w st op listing : represents c w (Some st) -> wellFormed c op -> (forall project, op <> OpList project) ->
  follows (perform DecodeStrict c env op) w (spec listing op st).
Proof.
  intros Hw Hop Hl. revert Hop. destruct op as [ref d|ref expected d|ref expected|ref|target|project|project|project ref|project]; cbn [wellFormed perform].
  - intros Hd. unfold Register. apply save_follows; [done|lia|done].
  - intros [He Hd]. destruct (save_follows w st ref expected d Hw ltac:(lia) Hd) as (w' & E & H'). exists w'. split; [|done].
    etrans; [|exact E]. unfold answering, Update. by rewrite (proj2 (Z.ltb_ge _ _)) by lia.
  - intros [He Hr]. by apply delete_follows.
  - intros Hr. cbn [spec]. destruct (reading_follows (ValidateTeamReference ref) (Err (Sentinel teams_ErrNotFound))
      (fun id => record <- lookupTeam DecodeStrict env ref ;; cret (record, id)) (fun p => ARecord (fst p) (snd p)) w st
      ((fun record => (record, cs_ID st)) <$> specLookup st ref) Hw Hr) as (w' & E & H').
    + intros f Hf. unfold cbind. rewrite (lookupTeam_quiet _ _ _ Hf Hr). by destruct (specLookup st ref).
    + intros e He. destruct (specLookup st ref) eqn:El; [done|]. injection He as <-. by rewrite (lookup_errors _ _ _ El).
    + exists w'. split; [|done]. unfold Lookup. rewrite E. cbn [fst]. by destruct (specLookup st ref).
  - intros Ht. cbn [spec]. pose proof (target_valid _ Ht) as Hr. set (mismatch := negb (eqs (tt_CatalogID target) "") && negb (eqs (tt_CatalogID target) (cs_ID st))).
    destruct (reading_follows (ValidateTeamTarget target false) (Err (Sentinel teams_ErrNotFound)) (fun id =>
      of_result (fail_if (negb (eqs (tt_CatalogID target) "") && negb (eqs (tt_CatalogID target) id)) (Sentinel teams_ErrCatalogIdentity)) ;;;
      record <- lookupTeam DecodeStrict env (tt_Team target) ;;
      match findMember (tt_MemberID target) (default [] (tm_Members (rec_Definition record))) with
      | Some member => cret (MkResolvedMember id record member)
      | None => cfail (Sentinel teams_ErrNotFound)
      end) AMember w st
      (if mismatch then Err (Sentinel teams_ErrCatalogIdentity)
       else record ← specLookup st (tt_Team target);
            match findMember (tt_MemberID target) (default [] (tm_Members (rec_Definition record))) with
            | Some member => Ok (MkResolvedMember (cs_ID st) record member)
            | None => Err (Sentinel teams_ErrNotFound)
            end) Hw Ht) as (w' & E & H').
    + intros f Hf. fold mismatch. destruct mismatch; [done|]. cbn [fail_if]. rewrite cbind_result. unfold cbind. rewrite (lookupTeam_quiet _ _ _ Hf Hr).
      destruct (specLookup st (tt_Team target)) as [record|e]; [|done]. cbn [mbind result_bind]. by case_match.
    + intros e He. destruct mismatch; [by injection He as <-|]. destruct (specLookup st (tt_Team target)) eqn:El; cbn [mbind result_bind] in He.
      * case_match; [done|]. by injection He as <-.
      * injection He as <-. by rewrite (lookup_errors _ _ _ El).
    + exists w'. split; [|done]. unfold ResolveMember. rewrite E. cbn [fst]. destruct mismatch; [done|].
      destruct (specLookup st (tt_Team target)); [|done]. cbn [mbind result_bind]. by case_match.
  - by destruct (Hl project).
  - intros Hp. cbn [spec]. apply (reading_follows _ _ _ ADefault w st (Ok (specDefault st project)) Hw Hp); [|done]. intros f Hf. by apply default_body.
  - by apply setDefault_follows.
  - by apply clearDefault_follows.
Qed.

(** ** The first registration *)
Definition initialFile (id : string) : catalogFile := MkCatalogFile true 1 0 "delete" schemaObjects (Some id) ∅ ∅.

Lemma randomID_hex : exists id, NewRandomID env = Ok id /\ hexText 32 id = true.
Proof.
  unfold NewRandomID. rewrite (q_fault _ Q). eexists. split; [done|]. destruct (q_random _ Q) as [Hl Hf]. revert Hl Hf. generalize (ev_Random env). intros l Hl Hf.
  unfold hexText, len. rewrite bytes_str, <- length_list_ascii, bytes_str.
  assert (length (concat (map (fun b => [hexDigit (b / 16); hexDigit (b mod 16)]) l)) = (2 * length l)%nat) as ->.
  { clear. induction l; cbn; [done|]. rewrite IHl. lia. }
  rewrite Hl. apply andb_true_iff. split; [done|]. clear Hl. induction Hf as [|b l Hb Hf IH]; [done|]. cbn. rewrite !hexDigit_hex; [done| |].
  - apply Z.mod_pos_bound. done.
  - split; [apply Z.div_pos; lia|apply Z.div_lt_upper_bound; lia].
Qed.

(** A statement that always applies. *)
Lemma exec_applies {B} what action (g : catalogFile -> catalogFile) (k : unit -> M catalogFile B) f :
  cbind (exec env what action (fun f => Some (g f))) k f = k tt (g f).
Proof. apply cbind_quiet. by apply exec_quiet. Qed.

Lemma createObjects_quiet objects f : createObjects env objects f =
  (Ok tt, MkCatalogFile (cf_Blank f) (cf_UserVersion f) (cf_ApplicationID f) (cf_JournalMode f) (cf_Schema f ++ objects) (cf_CatalogID f) (cf_Teams f) (cf_Defaults f)).
Proof.
  revert f. induction objects as [|o objects IH]; intros f; cbn [createObjects]; [destruct f; cbn; by rewrite app_nil_r|].
  unfold createObject. rewrite exec_applies, IH. cbn. by rewrite <- app_assoc.
Qed.

Lemma guard_blank id : NewRandomID env = Ok id -> hexText 32 id = true -> guardSchema c env true blankFile = (Ok id, initialFile id).
Proof.
  intros Hi Hh. rewrite guardSchema_quiet by done. cbn [blankFile cf_UserVersion cf_Schema length]. rewrite !Z.eqb_refl. cbn [andb].
  rewrite (cbind_quiet _ _ _ tt (initialFile id)).
  - apply readCatalogID_quiet; [done|]. unfold ValidateRootID. by rewrite Hh.
  - rewrite (cbind_quiet _ _ _ _ _ (attempt_quiet _ _ _)). rewrite (cbind_quiet (gets cf_Blank) _ _ true blankFile) by done.
    cbn [negb fail_if]. rewrite cbind_result. unfold initializeSchema. rewrite Hi. cbn [wrap_err]. rewrite cbind_result.
    rewrite (cbind_quiet _ _ _ _ _ (createObjects_quiet schemaObjects blankFile)).
    unfold checkMetadata. rewrite Hh, exec_applies.
    by apply exec_quiet.
Qed.

Lemma transact_create {A} (body : string -> M catalogFile A) w id a f2 : represents c w None -> NewRandomID env = Ok id -> hexText 32 id = true ->
  body id (initialFile id) = (Ok a, f2) ->
  transact c env catalogCreate body w = (Ok a, <[c_path c := NFile 384 (committed f2)]> w).
Proof.
  intros (Ha & Hc & Hne & Hd & Hw) Hi Hh Hb. unfold transact. rewrite (cbind_quiet _ _ _ _ _ (attempt_quiet _ _ _)).
  assert (created w = <[c_path c := NFile 384 blankFile]> w) as Hcr by (unfold created; by rewrite Hw).
  rewrite (cbind_quiet _ _ w tt (created w)).
  2:{ apply (prepare_quiet catalogCreate w 384 blankFile); try done. change (created w !! c_path c = Some (NFile 384 blankFile)). by rewrite Hcr, lookup_insert_eq. }
  rewrite (cbind_quiet _ _ _ _ _ (attempt_quiet _ _ _)), Hcr, lookup_insert_eq.
  rewrite (transaction_quiet catalogCreate body id blankFile (initialFile id)) by by apply guard_blank. rewrite Hb. cbn [writes bool_decide decide_rel negb].
  by rewrite insert_insert_eq.
Qed.

Lemma create_follows w ref t id : represents c w None -> NewRandomID env = Ok id -> hexText 32 id = true -> is_ok (definitionData c ref t) = true ->
  follows (answering (Register DecodeStrict c env ref t) (fun p => ARecord (fst p) (snd p))) w (specCreate id ref t).
Proof.
  intros Hw Hi Hh (Ed & Hr & Hid & Ht)%definitionData_inv.
  assert (fileOf (MkState id ∅ ∅) (initialFile id)) as Hf.
  { unfold fileOf, initialFile. cbn. split_and!; try done. unfold ValidateRootID. by rewrite Hh. }
  pose proof (save_body _ _ ref 0 t Hf ltac:(done) Hr Ht Hid) as Hb. unfold specCreate, specSave.
  assert (specRevision (MkState id ∅ ∅) ref 0 = Ok 1) as E1 by (unfold specRevision; cbn; by rewrite lookup_empty). rewrite E1 in *. cbn [cs_ID] in Hb.
  pose proof (transact_create (fun id => revision <- nextRevision env ref 0 ;;
   exec env "save" "saving Team" (upsertTeam (keyFor ref) (MkTeamRow revision (Some (MarshalCanonical (jsonTeam t))))) ;;;
   record <- of_result (decodeRecord DecodeStrict ref revision (MarshalCanonical (jsonTeam t))) ;; cret (record, id)) w id _ _ Hw Hi Hh Hb) as Htr.
  assert (Register DecodeStrict c env ref t w = (Ok (MkTeamRecord ref 1 t, id),
    <[c_path c := NFile 384 (committed (setTeams (<[keyFor ref := encodeRow (1, Some t)]> (cf_Teams (initialFile id))) (initialFile id)))]> w)) as E.
  { unfold Register, save. rewrite Ed, cbind_result. by apply missing_quiet. }
  eexists. split; [by rewrite (answering_quiet _ _ _ _ _ E)|]. destruct Hw as (Ha & Hc & Hne & Hd & Hw). split_and!; [done..|by rewrite lookup_insert_ne|].
  eexists. split; [by rewrite lookup_insert_eq|]. apply fileOf_withTeam; [done|]. eapply validRow_new; [done..|]. by intros d [= <-].
Qed.
End quiet.

(** ** Listings *)
Lemma compareTexts_total a : forall b, compareTexts a b <> Gt \/ compareTexts b a <> Gt.
Proof.
  induction a as [|x a IH]; intros [|y b]; cbn [compareTexts]; try (left; congruence); try (right; congruence).
  rewrite (String.compare_antisym x y). destruct (String.compare y x); cbn [CompOpp]; [apply IH|right|left]; congruence.
Qed.

#[local] Instance rowOrder_total : Total rowOrder.
Proof. intros a b. apply compareTexts_total. Qed.

Lemma keyReference_keyFor ref : ValidateTeamReference ref = Ok tt -> keyReference (keyFor ref) = ref.
Proof.
  intros Hr. destruct ref as [scope id proj]. destruct (reference_inv _ Hr) as [[E1 E2]|(E1 & p & E2 & _)]; cbn in E1, E2; subst; [done|].
  unfold keyReference, keyFor. cbn. by destruct p.
Qed.

Lemma Forall2_right {A B} (P : A -> B -> Prop) l k y : Forall2 P l k -> y ∈ k -> exists x, x ∈ l /\ P x y.
Proof. intros HP (i & Hi)%list_elem_of_lookup. destruct (Forall2_lookup_r _ _ _ _ _ HP Hi) as (x & Hx & HPx). exists x. split; [by eapply list_elem_of_lookup_2|done]. Qed.

Lemma Forall2_left {A B} (P : A -> B -> Prop) l k x : Forall2 P l k -> x ∈ l -> exists y, P x y /\ y ∈ k.
Proof. intros HP (i & Hi)%list_elem_of_lookup. destruct (Forall2_lookup_l _ _ _ _ _ HP Hi) as (y & Hy & HPy). exists y. split; [done|by eapply list_elem_of_lookup_2]. Qed.

Lemma filter_sublist {A} (f : A -> bool) l : List.filter f l `sublist_of` l.
Proof. induction l as [|x l IH]; cbn; [constructor|]. destruct (f x); by constructor. Qed.

Section listing.
Context (DecodeStrict : string -> result Team) `{StrictDecoder DecodeStrict} (c : Catalog) (env : environment) (Q : quiet env).

(** A listed row and its record. *)
Definition decodes (r : teamKey * teamRow) (record : TeamRecord) : Prop :=
  decodeRecord DecodeStrict (keyReference (fst r)) (row_revision (snd r)) (default ""%string (row_definition (snd r))) = Ok record /\
  keyFor (rec_Reference record) = fst r.

Lemma foldl_listRow rows records l : Forall2 decodes rows records ->
  foldl (listRow DecodeStrict) l rows = MkListing (ls_CatalogID l) (ls_Records l ++ records) (ls_Diagnostics l).
Proof.
  intros Hf. revert l. induction Hf as [|r record rows records [Hd _] _ IH]; intros l; cbn [foldl]; [destruct l; cbn; by rewrite app_nil_r|].
  rewrite IH. unfold listRow. rewrite Hd. cbn. by rewrite <- app_assoc.
Qed.

Lemma listed_row st f project r : fileOf st f -> r ∈ map_to_list (cf_Teams f) ->
  listed (from_option tp_Kind ""%string project) (from_option tp_Path ""%string project) (fst r) (snd r) = true ->
  exists n t ref, cs_Teams st !! keyFor ref = Some (n, Some t) /\ ValidateTeamReference ref = Ok tt /\ visible project ref /\
    fst r = keyFor ref /\ decodes r (MkTeamRecord ref n t).
Proof.
  destruct r as [key row]. intros Hf Hin Hl. apply elem_of_map_to_list in Hin. rewrite (row_lookup _ _ _ Hf) in Hin.
  destruct (cs_Teams st !! key) as [[n d]|] eqn:E; [|done]. injection Hin as <-. pose proof (row_valid _ _ _ _ Hf E) as ([Hn _] & (ref & Hr & <-) & Ht).
  unfold listed in Hl. cbn [fst snd] in *. apply andb_true_iff in Hl as [Hd Hl]. destruct d as [t|]; [|done].
  destruct (Ht t eq_refl) as [He Hi]. rewrite keyFor_id in Hi. exists n, t, ref. split_and!; try done.
  - destruct (reference_inv _ Hr) as [[Es Ep]|(Es & p & Ep & Hne & Hk)]; [by left|right]. split; [done|]. unfold keyFor in Hl. rewrite Ep in Hl.
    cbn [k_scope k_kind k_path] in Hl. rewrite Es in Hl. cbn [orb andb] in Hl. apply andb_true_iff in Hl as [Hl1 Hl2].
    apply eqs_true in Hl1, Hl2. exists p. split; [|done]. destruct project as [q|]; cbn in *; [destruct p, q; cbn in *; by subst|].
    rewrite Hl2 in Hne. done.
  - unfold decodes. cbn [fst snd]. rewrite keyReference_keyFor by done. cbn. split; [|done]. by apply decodeRecord_stored.
Qed.

Lemma listed_visible st f project ref n t : fileOf st f -> ValidateTeamReference ref = Ok tt -> cs_Teams st !! keyFor ref = Some (n, Some t) -> visible project ref ->
  (keyFor ref, encodeRow (n, Some t)) ∈ map_to_list (cf_Teams f) /\
  listed (from_option tp_Kind ""%string project) (from_option tp_Path ""%string project) (keyFor ref) (encodeRow (n, Some t)) = true.
Proof.
  intros Hf Hr E Hv. split; [apply elem_of_map_to_list; by rewrite (row_lookup _ _ _ Hf), E|]. unfold listed. cbn [encodeRow row_definition fst snd fmap option_fmap option_map SchedStore.valid andb].
  destruct Hv as [Es|(Es & p & -> & Ep)].
  - unfold keyFor. destruct (tr_Project ref); cbn [k_scope]; by rewrite Es.
  - unfold keyFor. rewrite Ep. cbn [k_scope k_kind k_path from_option]. by rewrite Es, !eqs_refl.
Qed.

Lemma list_body st f project : fileOf st f -> exists records,
  listRecords DecodeStrict env project (MkListing (cs_ID st) [] []) f = (Ok (MkListing (cs_ID st) records []), f) /\ listingOf st project records.
Proof.
  intros Hf. set (rows := listedRows (from_option tp_Kind ""%string project) (from_option tp_Path ""%string project) f).
  assert (forall r, r ∈ rows <-> r ∈ map_to_list (cf_Teams f) /\
    listed (from_option tp_Kind ""%string project) (from_option tp_Path ""%string project) (fst r) (snd r) = true) as Hrows.
  { intros r. unfold rows, listedRows. rewrite merge_sort_Permutation, list_elem_of_In, filter_In, <- list_elem_of_In. done. }
  assert (exists records, Forall2 decodes rows records) as [records Hd].
  { assert (forall r, r ∈ rows -> exists record, decodes r record) as Hr.
    { intros r [Hin Hl]%Hrows. destruct (listed_row _ _ _ _ Hf Hin Hl) as (n & t & ref & _ & _ & _ & _ & Hdec). by eexists. }
    clear Hrows. induction rows as [|r rows IH]; [by exists []|]. destruct (Hr r) as [record Hrec]; [by left|].
    destruct IH as [records IH]; [intros r' Hr'; apply Hr; by right|]. exists (record :: records). by constructor. }
  exists records. unfold listingOf. split_and!.
  - unfold listRecords. assert (match project with Some p => (tp_Kind p, tp_Path p) | None => (""%string, ""%string) end =
      (from_option tp_Kind ""%string project, from_option tp_Path ""%string project)) as -> by by destruct project.
    rewrite (cbind_quiet _ _ _ _ _ (query_quiet env Q _ _ _ _)). unfold closing. rewrite (query_quiet env Q). fold rows.
    rewrite (foldl_listRow _ _ _ Hd). by rewrite (joinClose_quiet env Q).
  - intros record. split.
    + intros Hin. apply (Forall2_right _ _ _ _ Hd) in Hin as (r & [Hin Hl]%Hrows & [Hdec _]).
      destruct (listed_row _ _ _ _ Hf Hin Hl) as (n & t & ref & E & Hr & Hv & _ & [Hdec' _]). rewrite Hdec' in Hdec. injection Hdec as <-. cbn.
      split_and!; [done..|]. unfold specLookup. by rewrite E.
    + destruct record as [ref n t]. cbn [rec_Reference]. intros (Hr & Hv & Hs). unfold specLookup in Hs.
      destruct (cs_Teams st !! keyFor ref) as [[n' [t'|]]|] eqn:E; [|done..]. injection Hs as -> ->.
      destruct (listed_visible _ _ _ _ _ _ Hf Hr E Hv) as [Hin Hl].
      destruct (Forall2_left _ _ _ _ Hd (proj2 (Hrows _) (conj Hin Hl))) as (record & [Hdec _] & Hrec).
      destruct (listed_row _ _ _ _ Hf Hin Hl) as (n2 & t2 & ref2 & E2 & _ & _ & Hk & [Hdec2 _]). rewrite Hdec in Hdec2. injection Hdec2 as ->.
      cbn [fst] in Hk. rewrite <- Hk, E in E2. injection E2 as <- <-.
      pose proof (decodeRecord_Ok _ _ _ _ _ Hdec) as (Href & _). cbn [fst rec_Reference] in Href. rewrite keyReference_keyFor in Href by done. by subst ref2.
  - assert (NoDup (map fst rows)) as Hn.
    { unfold rows, listedRows. rewrite merge_sort_Permutation. eapply sublist_NoDup; [exact (NoDup_fst_map_to_list (cf_Teams f))|]. apply sublist_map, filter_sublist. }
    clear Hrows. induction Hd as [|r record rows records [_ Hk] Hd IH]; [constructor|]. cbn [map] in Hn. apply NoDup_cons in Hn as [Hr Hn]. constructor; [|by apply IH].
    intros Hin. apply (Forall2_right _ _ _ _ Hd) in Hin as (r' & Hr' & _ & Hk'). apply Hr. rewrite <- Hk, Hk'. apply list_elem_of_In, in_map. by apply list_elem_of_In.
  - assert (Sorted rowOrder rows) as Hs by apply Sorted_merge_sort, _. clear Hrows. revert Hs.
    induction Hd as [|r record rs records [_ Hk] Hd IH]; intros Hs; [constructor|]. inversion Hs as [|? ? Hs' Hhd]; subst.
    constructor; [by apply IH|]. destruct Hd as [|r' record' rs' records' [_ Hk'] _]; [constructor|]. constructor.
    inversion Hhd as [|? ? Hle]; subst. unfold recordKey. rewrite Hk, Hk'. exact Hle.
Qed.
Lemma list_follows w st project : represents c w (Some st) -> when_some project validateProject = Ok tt -> exists records,
  ListTeams DecodeStrict c env project w = (Ok (MkListing (cs_ID st) records []), w) /\ listingOf st project records.
Proof.
  intros Hw Hp. destruct (file_of _ _ _ Hw) as (f & Hf & Hs). destruct (list_body _ _ project Hs) as (records & Hb & Hl).
  exists records. split; [|done]. unfold ListTeams. rewrite Hp, cbind_result. apply missing_quiet; [|done].
  by eapply (read_call c env Q (fun id => listRecords DecodeStrict env project (MkListing id [] []))).
Qed.

Lemma every_call_follows w st op : represents c w (Some st) -> wellFormed c op -> exists listing,
  (forall project, op = OpList project -> listingOf st project listing) /\ follows c (perform DecodeStrict c env op) w (spec listing op st).
Proof.
  intros Hw Hop. assert ((exists project, op = OpList project) \/ forall project, op <> OpList project) as [[project ->]|Hl]
    by (destruct op; (by left; eexists) || (by right)).
  - destruct (list_follows _ _ _ Hw Hop) as (records & E & Hl). exists records. split; [by intros ? [= <-]|]. exists w. split; [|done].
    by apply (answering_quiet _ AListing _ _ _ E).
  - exists []. split; [by intros project ->; destruct (Hl project)|]. by apply calls_follow.
Qed.
End listing.

(** C19: Without faults the catalog is the table it is meant to be.  Every call whose arguments pass
    their checks (registering, updating, deleting, looking up and resolving, listing, and
    setting, reading and clearing defaults) on an existing catalog returns exactly what the
    specification of a table of teams and defaults says, refusals included, and leaves a
    file that represents the specified table: a registration gives a deleted team the
    revision after its last, an update or deletion applies only to the revision it expects,
    deleting a team makes the defaults that name it stale and registering it again resolves
    them, a listing shows the visible teams, each once and in order.  The first registration
    creates the catalog with a new identity.  Definitions are read back by the strict decoder
    of [task/json.go]; the check of a registered definition bounds its size. *)
Theorem catalog_follows_spec orbit `{CaseFold orbit} c env w op :
  quiet env -> wellFormed c op ->
  (forall st, represents c w (Some st) ->
     exists listing w', (forall project, op = OpList project -> listingOf st project listing) /\
       perform (decodeTeam orbit) c env op w = (fst (spec listing op st), w') /\ represents c w' (Some (snd (spec listing op st)))) /\
  (forall ref definition, represents c w None -> op = OpRegister ref definition ->
     exists id w', NewRandomID env = Ok id /\
       perform (decodeTeam orbit) c env op w = (fst (specCreate id ref definition), w') /\
       represents c w' (Some (snd (specCreate id ref definition)))).
Proof.
  intros Q Hop. split.
  - intros st Hw. destruct (every_call_follows (decodeTeam orbit) c env Q w st op Hw Hop) as (listing & Hl & w' & E & Hw'). by exists listing, w'.
  - intros ref t Hw ->. destruct (randomID_hex env Q) as (id & Hi & Hh).
    destruct (create_follows (decodeTeam orbit) c env Q w ref t id Hw Hi Hh Hop) as (w' & E & Hw'). by exists id, w'.
Qed.

(** C32: A listing shows every team a project may choose and nothing else.  Without faults, listing for a
    project (or for none) returns the identity of the catalog, no diagnostics, and the current
    records of exactly the valid references that are the user's or the project's own, deleted
    teams left out, each once and in the order of scope, project and name; the catalog is
    unchanged.  The rows are read by the strict decoder of [task/json.go], and none that the
    catalog wrote is reported as invalid. *)
Theorem listing_complete orbit `{CaseFold orbit} c env w st project :
  quiet env -> represents c w (Some st) -> when_some project validateProject = Ok tt ->
  exists records,
    ListTeams (decodeTeam orbit) c env project w = (Ok (MkListing (cs_ID st) records []), w) /\
    (forall record, record ∈ records <-> ValidateTeamReference (rec_Reference record) = Ok tt /\
       visible project (rec_Reference record) /\ specLookup st (rec_Reference record) = Ok record) /\
    NoDup records /\
    Sorted (fun a b => compareTexts (recordKey a) (recordKey b) <> Gt) records.
Proof. intros Q Hw Hp. exact (list_follows (decodeTeam orbit) c env Q w st project Hw Hp). Qed.

(** ** A concrete catalog *)
(** The decoder with ASCII folding. *)
#[local] Abbreviation decodeTeam0 := (decodeTeam asciiOrbit).
Definition exampleCatalog : Catalog := MkCatalog "/c/teams.db" None.
Definition exampleEnv : environment := MkEnvironment (fun _ => None) (fun _ => None) None None false (replicate 16 0) false (fun _ => 3).
Definition exampleWorld : world := {["/c"%string := NDir 448]}.
Definition exampleRef : TeamReference := MkTeamReference "user" "reviewers" None.
Definition exampleTeam (name : string) : Team :=
  MkTeam 1 "reviewers" name "Review changes" (Some [MkRole "reviewer" "Reviewer" "Check correctness"])
    (Some [MkMember "primary" "Primary" ["reviewer"%string] (Some (MkDefaults "codex:exec" "" "high"))]).

Lemma example_quiet : quiet exampleEnv.
Proof. split; try done. cbn. split; [done|]. by repeat constructor. Qed.

Lemma example_honest : honest exampleEnv.
Proof. by intros what e [=]. Qed.

Lemma example_valid name : name = "A"%string \/ name = "B"%string -> is_ok (definitionData exampleCatalog exampleRef (exampleTeam name)) = true.
Proof. intros [-> | ->]; vm_compute; reflexivity. Qed.

Lemma example_empty : represents exampleCatalog exampleWorld None.
Proof. split_and!; done. Qed.

(** A registration, and an update after it. *)
Definition exampleID : string := "00000000000000000000000000000000".
Definition exampleState1 : catalogState := snd (specCreate exampleID exampleRef (exampleTeam "A")).
Definition exampleState2 : catalogState := snd (spec [] (OpUpdate exampleRef 1 (exampleTeam "B")) exampleState1).

Lemma ARecord_inj record record' id id' : ARecord record id = ARecord record' id' -> (record, id) = (record', id').
Proof. by intros [= -> ->]. Qed.

Lemma answered_record (m : M world (TeamRecord * string)) w record id w' :
  answering m (fun p => ARecord (fst p) (snd p)) w = (Ok (ARecord record id), w') -> m w = (Ok (record, id), w').
Proof. intros ([record' id'] & E & ->%ARecord_inj)%answering_Ok. exact E. Qed.

Lemma example_register : exists w1,
  Register decodeTeam0 exampleCatalog exampleEnv exampleRef (exampleTeam "A") exampleWorld = (Ok (MkTeamRecord exampleRef 1 (exampleTeam "A"), exampleID), w1) /\
  represents exampleCatalog w1 (Some exampleState1).
Proof.
  destruct (create_follows decodeTeam0 exampleCatalog exampleEnv example_quiet exampleWorld exampleRef (exampleTeam "A") exampleID example_empty
    eq_refl eq_refl (example_valid _ (or_introl eq_refl))) as (w1 & E & Hw).
  exists w1. split; [|exact Hw]. apply answered_record. exact E.
Qed.

Lemma example_update w1 : represents exampleCatalog w1 (Some exampleState1) -> exists w2,
  perform decodeTeam0 exampleCatalog exampleEnv (OpUpdate exampleRef 1 (exampleTeam "B")) w1 =
    (Ok (ARecord (MkTeamRecord exampleRef 2 (exampleTeam "B")) exampleID), w2) /\
  represents exampleCatalog w2 (Some exampleState2).
Proof.
  intros Hw. apply (calls_follow decodeTeam0 exampleCatalog exampleEnv example_quiet w1 exampleState1 (OpUpdate exampleRef 1 (exampleTeam "B")) [] Hw); [|done].
  split; [done|apply example_valid; by right].
Qed.

Lemma example_lookup w st n t : represents exampleCatalog w (Some st) -> specLookup st exampleRef = Ok (MkTeamRecord exampleRef n t) ->
  Lookup decodeTeam0 exampleCatalog exampleEnv exampleRef w = (Ok (MkTeamRecord exampleRef n t, cs_ID st), w).
Proof.
  intros Hw Hs. destruct (calls_follow decodeTeam0 exampleCatalog exampleEnv example_quiet w st (OpLookup exampleRef) [] Hw eq_refl ltac:(done)) as (w' & E & _).
  cbn [spec fst] in E. rewrite Hs in E. apply answered_record in E.
  pose proof (Lookup_Ok _ _ _ _ _ _ _ _ E) as [-> _]. exact E.
Qed.

Lemma revision_identifies_definition_witness : exists w1 w2,
  Lookup decodeTeam0 exampleCatalog exampleEnv exampleRef w1 = (Ok (MkTeamRecord exampleRef 1 (exampleTeam "A"), exampleID), w1) /\
  history decodeTeam0 "/c/teams.db" w1 w2 /\
  Lookup decodeTeam0 exampleCatalog exampleEnv exampleRef w2 = (Ok (MkTeamRecord exampleRef 2 (exampleTeam "B"), exampleID), w2) /\
  1 <= 2.
Proof.
  destruct example_register as (w1 & _ & H1). destruct (example_update w1 H1) as (w2 & E2 & H2). exists w1, w2.
  assert (history decodeTeam0 "/c/teams.db" w1 w2) as Hh.
  { eapply rtc_l; [|apply rtc_refl]. replace w2 with (snd (perform decodeTeam0 exampleCatalog exampleEnv (OpUpdate exampleRef 1 (exampleTeam "B")) w1)) by (by rewrite E2).
    by apply step_call; [|apply example_honest]. }
  pose proof (example_lookup w1 exampleState1 1 (exampleTeam "A") H1 eq_refl) as L1.
  pose proof (example_lookup w2 exampleState2 2 (exampleTeam "B") H2 eq_refl) as L2.
  split; [exact L1|]. split; [exact Hh|]. split; [exact L2|].
  exact (proj1 (proj2 (revision_identifies_definition decodeTeam0 exampleCatalog exampleCatalog exampleEnv exampleEnv exampleRef _ _ _ _ w1 w1 w2 w2
    L1 Hh eq_refl L2))).
Defined.

Lemma no_lost_update_witness : exists w1 w2,
  mutate decodeTeam0 exampleCatalog exampleEnv exampleRef (MRegister (exampleTeam "A")) exampleWorld = (Ok 1, w1) /\
  mutate decodeTeam0 exampleCatalog exampleEnv exampleRef (MUpdate 1 (exampleTeam "B")) w1 = (Ok 2, w2) /\ 1 < 2.
Proof.
  destruct example_register as (w1 & E1 & H1). destruct (example_update w1 H1) as (w2 & E2 & H2). exists w1, w2.
  assert (mutate decodeTeam0 exampleCatalog exampleEnv exampleRef (MRegister (exampleTeam "A")) exampleWorld = (Ok 1, w1)) as M1
    by (unfold mutate, cbind; by rewrite E1).
  assert (mutate decodeTeam0 exampleCatalog exampleEnv exampleRef (MUpdate 1 (exampleTeam "B")) w1 = (Ok 2, w2)) as M2.
  { apply answered_record in E2. unfold mutate, cbind. by rewrite E2. }
  split; [exact M1|]. split; [exact M2|].
  exact (proj1 (no_lost_update decodeTeam0 exampleCatalog exampleCatalog exampleEnv exampleEnv exampleRef _ _ _ _ _ _ _ _
    example_honest example_honest eq_refl M1 (rtc_refl _ _) M2)).
Defined.

Lemma calls_without_trace_witness : exists r w',
  perform decodeTeam0 exampleCatalog exampleEnv (OpLookup exampleRef) exampleWorld = (r, w') /\ w' = exampleWorld /\
  (registers (OpLookup exampleRef) = false -> exampleWorld !! c_path exampleCatalog = None ->
   is_ok r = false \/ exists a, nothing (OpLookup exampleRef) = Some a /\ r = Ok a).
Proof.
  destruct (perform decodeTeam0 exampleCatalog exampleEnv (OpLookup exampleRef) exampleWorld) as [r w'] eqn:E. exists r, w'. split; [done|].
  exact (calls_without_trace decodeTeam0 exampleCatalog exampleEnv (OpLookup exampleRef) exampleWorld r w' E (or_introl eq_refl)).
Defined.

Lemma catalog_follows_spec_witness : exists id w', NewRandomID exampleEnv = Ok id /\
  perform decodeTeam0 exampleCatalog exampleEnv (OpRegister exampleRef (exampleTeam "A")) exampleWorld =
    (fst (specCreate id exampleRef (exampleTeam "A")), w') /\
  represents exampleCatalog w' (Some (snd (specCreate id exampleRef (exampleTeam "A")))).
Proof.
  exact (proj2 (catalog_follows_spec asciiOrbit exampleCatalog exampleEnv exampleWorld (OpRegister exampleRef (exampleTeam "A")) example_quiet
    (example_valid _ (or_introl eq_refl))) _ _ example_empty eq_refl).
Defined.

Lemma listing_complete_witness : exists w1 records,
  represents exampleCatalog w1 (Some exampleState1) /\
  ListTeams decodeTeam0 exampleCatalog exampleEnv None w1 = (Ok (MkListing exampleID records []), w1) /\
  MkTeamRecord exampleRef 1 (exampleTeam "A") ∈ records.
Proof.
  destruct example_register as (w1 & _ & H1).
  destruct (listing_complete asciiOrbit exampleCatalog exampleEnv w1 exampleState1 None example_quiet H1 eq_refl) as (records & E & Hr & _).
  exists w1, records. split; [exact H1|]. split; [exact E|]. apply Hr. split; [reflexivity|]. split; [by left|reflexivity].
Defined.

Lemma encode_decode_witness : exists data, Encode (exampleTeam "A") = Ok data /\ Decode decodeTeam0 data = Ok (exampleTeam "A").
Proof.
  destruct (definitionData_inv exampleCatalog exampleRef (exampleTeam "A") (example_valid _ (or_introl eq_refl))) as (_ & _ & _ & E%encode_team).
  exists (MarshalCanonical (jsonTeam (exampleTeam "A"))). split; [exact E|]. exact (encode_decode asciiOrbit (exampleTeam "A") _ E).
Defined.
