(* ===== verification/PiEvidence.v ===== *)
(** * The Pi adapter's reading of its evidence

    [internal/provider/pi]: the state of the event parser ([parser.go]), the current parser
    over the JSON cursor ([current_parser.go], [current_outcome.go],
    [current_parser_summary.go], [usage.go]), the contracts and their references
    ([contract.go]) and the interpreter ([predicate.go]), an instance of the interpreters that
    [TaskPublication] collects.

    Sealed evidence is read without faults: a read that fails poisons the evidence, and
    its failure is one of the faults of [TaskPublication.evaluate].  The parser of the
    revisions before the current wire is an argument, [historicalStdout]. *)
From S2P Require Import Prelude GoErrors GoTime GoText TaskTypes Encoding GoPath GoTimestamp TaskLifetime LifetimeClosure ControlDir.
From S2P Require Import TaskConfiguration TaskRecords TaskReducer TaskPublication ProviderJson.
From Stdlib Require Import Ascii.
#[local] Open Scope Z_scope.

(** ** Contracts *)
Definition Provider : string := "pi:json".
Definition maxEventLineBytes : Z := MaxControlRecordSize.
Definition maxUsageRows : Z := 1024.
Definition predicateVersion : string := "4".
Definition currentPredicateVersion : string := "5".
Definition priorReadOnlyVersion : string := "6".
Definition priorWorkspaceVersion : string := "8".
Definition outcomeEvidenceVersion : string := "9".
Definition currentReadOnlyVersion : string := outcomeEvidenceVersion.
Definition currentWorkspaceVersion : string := outcomeEvidenceVersion.
Definition historicalPredicateV3 : string := "3".
Definition historicalPredicateV2 : string := "2".
Definition legacyPredicateVersion : string := "1".

Definition quoted (s : string) : string := str (map (fun c => if bool_decide (c = "`"%char) then quote else c) (bytes s)).

(** The admitted bytes; their quotes are written with [`]. *)
Definition readOnlyContractV2 : string :=
  quoted "{`adapter`:`pi:json`,`mode`:`read-only`,`version`:`2`,`native`:`Pi JSON event stream`,`permissions`:`read-only maps the native --tools allowlist to read,grep,find,ls; provider configuration, extensions, authentication, and startup behavior remain provider-owned. Pi workspace-write is not advertised because its built-in write and edit tools accept arbitrary absolute paths without a native workspace boundary`,`session`:`one session event with a UUID id; native session discovery and continuation use the exact recorded id`,`events`:`one agent_start, one or more turn_start/turn_end pairs, and one agent_end in order; message events may occur between turn_start and turn_end; unknown telemetry is tolerated while unknown lifecycle events reject`,`result`:`the final turn_end.message and final assistant message in agent_end.messages must agree; assistant stopReason=toolUse is allowed only for an intermediate tool turn and stopReason=stop is required for the final turn; text content blocks are concatenated in order`,`failure`:`malformed or oversized JSONL, invalid UTF-8, conflicting session identity, missing lifecycle completion, unsuccessful assistant stop reasons (length, error, or aborted), provider error, nonzero exit, empty final text, or more than 1024 retained usage rows reject`,`tools`:`read,grep,find,ls`}" ++ str ["010"%char].
Definition readOnlyContractV3 : string :=
  quoted "{`adapter`:`pi:json`,`mode`:`read-only`,`version`:`3`,`native`:`Pi JSON event stream`,`permissions`:`read-only maps the native --tools allowlist to read,grep,find,ls; provider configuration, extensions, authentication, and startup behavior remain provider-owned`,`session`:`one session event with a UUID id; native session discovery and continuation use the exact recorded id`,`events`:`one or more sequential complete native agent cycles may occur within one CLI invocation for retries, compaction, or extension followups; each cycle has agent_start, one or more turn_start/turn_end pairs, and agent_end in order; message events may occur between turn_start and turn_end; auto_retry_start requires a subsequent complete cycle; auto_retry_end is completion telemetry and does not require another cycle; retry markers do not impose provider retry policy; unknown telemetry is tolerated while unknown lifecycle events reject`,`result`:`the final cycle must complete successfully: its final turn_end.message and final assistant message in agent_end.messages must agree; assistant stopReason=toolUse is allowed only for an intermediate tool turn and stopReason=stop is required for the final turn; text content blocks are concatenated in order; agent_settled is optional for older native releases and terminal when present`,`failure`:`malformed or oversized JSONL, invalid UTF-8, conflicting session identity, overlapping or incomplete cycles, an auto_retry_start without a subsequent complete cycle, unsuccessful final assistant stop reasons (length, error, or aborted), provider error, nonzero exit, empty final text, or more than 1024 retained usage rows reject`,`tools`:`read,grep,find,ls`}" ++ str ["010"%char].
Definition readOnlyContractV4 : string :=
  quoted "{`adapter`:`pi:json`,`mode`:`read-only`,`version`:`4`,`native`:`Pi JSON event stream`,`permissions`:`read-only maps the native --tools allowlist to read,grep,find,ls; provider configuration, extensions, authentication, and startup behavior remain provider-owned`,`session`:`one session event with a UUID id; native session discovery and continuation use the exact recorded id`,`events`:`one or more sequential complete native agent cycles may occur within one CLI invocation for retries, compaction, or extension followups; each cycle has agent_start, one or more turn_start/turn_end pairs, and agent_end in order; auto_retry_start requires a subsequent complete cycle; auto_retry_end is accepted only within an active cycle, and a trailing marker after a successful agent_end is malformed; retry markers do not impose provider retry policy; unknown telemetry is tolerated while unknown lifecycle events reject`,`result`:`the final cycle must complete successfully: its final turn_end.message and final assistant message in agent_end.messages must agree; assistant stopReason=toolUse is allowed only for an intermediate tool turn and stopReason=stop is required for the final turn; text content blocks are concatenated in order; agent_settled is optional for older native releases and terminal when present`,`failure`:`malformed or oversized JSONL, invalid UTF-8, conflicting session identity, overlapping or incomplete cycles, an auto_retry_start without a subsequent complete cycle, unsuccessful final assistant stop reasons (length, error, or aborted), provider error, nonzero exit, empty final text, or more than 1024 retained usage rows reject`,`tools`:`read,grep,find,ls`}" ++ str ["010"%char].
Definition workspaceWriteContractV3 : string :=
  quoted "{`adapter`:`pi:json`,`mode`:`workspace-write`,`version`:`3`,`native`:`Pi JSON event stream`,`permissions`:`workspace-write uses Pi's provider-native configured tools, extensions, authentication, and permission behavior; the adapter omits --tools and does not impose an independent workspace boundary`,`session`:`one session event with a UUID id; native session discovery and continuation use the exact recorded id`,`events`:`one or more sequential complete native agent cycles may occur within one CLI invocation for retries, compaction, or extension followups; each cycle has agent_start, one or more turn_start/turn_end pairs, and agent_end in order; auto_retry_start requires a subsequent complete cycle; auto_retry_end is completion telemetry and does not require another cycle; retry markers do not impose provider retry policy; unknown telemetry is tolerated while unknown lifecycle events reject`,`result`:`the final cycle must complete successfully: its final turn_end.message and final assistant message in agent_end.messages must agree; assistant stopReason=toolUse is allowed only for an intermediate tool turn and stopReason=stop is required for the final turn; text content blocks are concatenated in order; agent_settled is optional for older native releases and terminal when present`,`failure`:`malformed or oversized JSONL, invalid UTF-8, conflicting session identity, overlapping or incomplete cycles, an auto_retry_start without a subsequent complete cycle, unsuccessful final assistant stop reasons (length, error, or aborted), provider error, nonzero exit, empty final text, or more than 1024 retained usage rows reject`,`tools`:`provider-native configured tools`}" ++ str ["010"%char].
Definition workspaceWriteContractV4 : string :=
  quoted "{`adapter`:`pi:json`,`mode`:`workspace-write`,`version`:`4`,`native`:`Pi JSON event stream`,`permissions`:`workspace-write uses Pi's provider-native configured tools, extensions, authentication, and permission behavior; the adapter omits --tools and does not impose an independent workspace boundary`,`session`:`one session event with a UUID id; native session discovery and continuation use the exact recorded id`,`events`:`one or more sequential complete native agent cycles may occur within one CLI invocation for retries, compaction, or extension followups; each cycle has agent_start, one or more turn_start/turn_end pairs, and agent_end in order; auto_retry_start requires a subsequent complete cycle; auto_retry_end is accepted only within an active cycle, and a trailing marker after a successful agent_end is malformed; retry markers do not impose provider retry policy; unknown telemetry is tolerated while unknown lifecycle events reject`,`result`:`the final cycle must complete successfully: its final turn_end.message and final assistant message in agent_end.messages must agree; assistant stopReason=toolUse is allowed only for an intermediate tool turn and stopReason=stop is required for the final turn; text content blocks are concatenated in order; agent_settled is optional for older native releases and terminal when present`,`failure`:`malformed or oversized JSONL, invalid UTF-8, conflicting session identity, overlapping or incomplete cycles, an auto_retry_start without a subsequent complete cycle, unsuccessful final assistant stop reasons (length, error, or aborted), provider error, nonzero exit, empty final text, or more than 1024 retained usage rows reject`,`tools`:`provider-native configured tools`}" ++ str ["010"%char].
Definition legacyContractV1 : string :=
  quoted "{`adapter`:`pi:json`,`mode`:`read-only`,`version`:`1`,`native`:`Pi JSON event stream`,`permissions`:`--no-extensions and --offline prevent extension execution and startup package/network work; the native tool allowlist is read,grep,find,ls. Read-only admission rejects project .pi/commands migration state and a native agent directory overlapping the workspace. Pi workspace-write is not advertised because its built-in write and edit tools accept arbitrary absolute paths without a native workspace boundary`,`session`:`one session event with a UUID id; --session-dir binds storage to the resolved native directory and continuation uses the exact recorded id`,`events`:`one agent_start, one or more turn_start/turn_end pairs, and one agent_end in order; message events may occur between turn_start and turn_end; unknown telemetry is tolerated while unknown lifecycle events reject`,`result`:`the final turn_end.message and final assistant message in agent_end.messages must agree; assistant stopReason=toolUse is allowed only for an intermediate tool turn and stopReason=stop is required for the final turn; text content blocks are concatenated in order`,`failure`:`malformed or oversized JSONL, invalid UTF-8, conflicting session identity, missing lifecycle completion, unsuccessful assistant stop reasons (length, error, or aborted), provider error, nonzero exit, empty final text, startup migration that could mutate the workspace, or more than 1024 retained usage rows reject`,`tools`:`read,grep,find,ls`}" ++ str ["010"%char].

(** [strings.Replace(s, old, new, 1)] for a nonempty [old]. *)
Fixpoint replaceFirst (l old new : list ascii) : list ascii :=
  match stripPrefix old l, l with
  | Some rest, _ => new ++ rest
  | None, c :: l' => c :: replaceFirst l' old new
  | None, [] => []
  end.
Definition Replace (s old new : string) : string := str (replaceFirst (bytes s) (bytes old) (bytes new)).

Definition versionField (version : string) : string := quoted ("`version`:`" +:+ version +:+ "`").

Definition messageEventsReplaced (contract : string) : string :=
  Replace contract "agent_end in order; auto_retry_start"
    "agent_end in order; message events may occur between turn_start and turn_end; auto_retry_start".

Definition workspaceContractForVersion (version : string) : string :=
  let contract := if eqs version historicalPredicateV3 then workspaceWriteContractV3 else workspaceWriteContractV4 in
  if negb (eqs version historicalPredicateV3) && negb (eqs version predicateVersion) then ""
  else messageEventsReplaced contract.

Definition readOnlyContractV4Current : string := messageEventsReplaced readOnlyContractV4.

(** The replacements of the fifth version, common to both modes. *)
Definition currentWire (contract : string) : string :=
  let contract := Replace contract (versionField "4") (versionField "5") in
  let contract := Replace contract "malformed or oversized JSONL" "malformed JSONL or invalid relevant control values" in
  Replace contract "or more than 1024 retained usage rows" "usage is optional and unreliable; malformed usage is ignored".

Definition readOnlyContractV5Historical : string := currentWire readOnlyContractV4Current.

Definition readOnlyContractV6Historical : string :=
  let contract := Replace readOnlyContractV5Historical (versionField "5") (versionField "6") in
  Replace contract
    "read-only maps the native --tools allowlist to read,grep,find,ls; provider configuration, extensions, authentication, and startup behavior remain provider-owned"
    "read-only maps the native --tools allowlist to read,grep,find,ls, disables provider extensions during startup, and pins the effective native session directory; provider configuration and authentication remain provider-owned".

Definition workspaceContractV5Historical : string := currentWire (workspaceContractForVersion predicateVersion).

Definition workspaceContractV7Current : string := Replace workspaceContractV5Historical (versionField "5") (versionField "7").

Definition workspaceContractV8Historical : string :=
  let contract := Replace workspaceContractV7Current (versionField "7") (versionField "8") in
  let contract := Replace contract
    "workspace-write uses Pi's provider-native configured tools, extensions, authentication, and permission behavior; the adapter omits --tools and does not impose an independent workspace boundary"
    "workspace-write selects Pi's built-in read,bash,edit,write tools; provider extensions, authentication, and permission behavior remain provider-owned; the adapter does not impose an independent workspace boundary" in
  Replace contract (quoted "`tools`:`provider-native configured tools`") (quoted "`tools`:`read,bash,edit,write`").

Definition outcomeContractV9 (prior priorVersion : string) : string :=
  let contract := Replace prior (versionField priorVersion) (versionField outcomeEvidenceVersion) in
  let contract := Replace contract
    "unknown telemetry is tolerated while unknown lifecycle events reject"
    "auto_retry_end.success=false reports final retry failure; documented session_info_changed and thinking_level_changed display events carry no completion authority and are ignored; unknown telemetry is tolerated while unknown lifecycle events reject" in
  let contract := Replace contract
    "agent_settled is optional for older native releases and terminal when present"
    "agent_settled is optional for older native releases and terminal when present; agent_settled.aborted=true is a failed run" in
  Replace contract
    "provider error, nonzero exit,"
    "provider error, agent_settled.aborted=true, auto_retry_end.success=false, non-boolean or duplicate aborted or success values, nonzero exit,".

Definition readOnlyContractV9Current : string := outcomeContractV9 readOnlyContractV6Historical priorReadOnlyVersion.
Definition workspaceContractV9Current : string := outcomeContractV9 workspaceContractV8Historical priorWorkspaceVersion.

Definition readOnlyContractForVersion (version : string) : string :=
  if eqs version legacyPredicateVersion then legacyContractV1
  else if eqs version historicalPredicateV2 then readOnlyContractV2
  else if eqs version historicalPredicateV3 then readOnlyContractV3
  else if eqs version predicateVersion then readOnlyContractV4Current
  else if eqs version currentPredicateVersion then readOnlyContractV5Historical
  else if eqs version priorReadOnlyVersion then readOnlyContractV6Historical
  else if eqs version currentReadOnlyVersion then readOnlyContractV9Current
  else "".

Definition contractForVersion (mode version : string) : string :=
  if eqs mode ModeReadOnly then readOnlyContractForVersion version
  else if eqs mode ModeWorkspaceWrite then
    if eqs version currentPredicateVersion then workspaceContractV5Historical
    else if eqs version "7" then workspaceContractV7Current
    else if eqs version priorWorkspaceVersion then workspaceContractV8Historical
    else if eqs version currentWorkspaceVersion then workspaceContractV9Current
    else workspaceContractForVersion version
  else "".

Definition referenceForVersion (mode version : string) : PredicateRef :=
  let contract := contractForVersion mode version in
  if eqs contract "" then MkPredicateRef "" "" "" ""
  else MkPredicateRef Provider mode version (ComputeSHA256 contract).

Definition validMode (mode : string) : bool := eqs mode ModeReadOnly || eqs mode ModeWorkspaceWrite.

Definition sessionIDByte (index : Z) (c : ascii) : bool :=
  if (index =? 8) || (index =? 13) || (index =? 18) || (index =? 23) then bool_decide (c = "-"%char)
  else isDigit c || between 97 (byte_of c) 102 || between 65 (byte_of c) 70.

(** [validSessionID]: the shape of a UUID. *)
Definition validSessionID (id : string) : bool :=
  (len id =? 36) && forallb (fun p => sessionIDByte (Z.of_nat (fst p)) (snd p)) (imap pair (bytes id)).

(** ** Parser state *)
Record parserOptions : Set := MkOptions {
  po_allowNativeRetry : bool; po_settledTerminal : bool; po_rejectTrailingRetryEnd : bool; po_requireAgentEndErrorMatch : bool;
  po_nativeOutcome : bool }.

Record usageTotals : Set := MkTotals {
  ut_present : bool; ut_input : option Z; ut_output : option Z; ut_thinking : option Z; ut_total : option Z; ut_cacheRead : option Z;
  ut_cacheCreation : option Z }.

(** The digest is written in hexadecimal. *)
Record piTextSummary : Set := MkSummary { ts_digest : string; ts_length : Z; ts_nonblank : bool; ts_seen : bool }.

Definition zeroSummary : piTextSummary := MkSummary (str (replicate 64 "0"%char)) 0 false false.

Record eventState : Set := MkState {
  es_current : bool; es_sessionID : string; es_sessionSeen : bool; es_agentStarted : bool; es_agentEnded : bool; es_turnStarted : bool;
  es_turnEnded : bool; es_turnStopReason : string; es_turnErrorMessage : string; es_messageOpen : bool; es_providerFail : bool;
  es_stickyProviderFail : bool; es_semanticErr : option string; es_options : parserOptions; es_nativeOutcomeFailed : bool; es_retryPending : bool;
  es_lastMessageText : list ascii; es_lastMessageSeen : bool; es_lastMessageStopReason : string; es_messageUsage : option usageTotals;
  es_messageUsageReliable : bool; es_turnText : list ascii; es_agentText : list ascii; es_agentSettled : bool; es_usage : list usageTotals;
  es_currentLastMessage : piTextSummary; es_currentTurnText : piTextSummary; es_currentAgentText : piTextSummary; es_currentTurnMessageStart : Z;
  es_currentTurnMessageEnd : Z; es_currentUsagePresent : bool; es_currentUsageReliable : bool }.

Definition eta (s : eventState) : eventState :=
  MkState (es_current s) (es_sessionID s) (es_sessionSeen s) (es_agentStarted s) (es_agentEnded s) (es_turnStarted s) (es_turnEnded s) (es_turnStopReason s)
    (es_turnErrorMessage s) (es_messageOpen s) (es_providerFail s) (es_stickyProviderFail s) (es_semanticErr s) (es_options s)
    (es_nativeOutcomeFailed s) (es_retryPending s) (es_lastMessageText s) (es_lastMessageSeen s) (es_lastMessageStopReason s) (es_messageUsage s)
    (es_messageUsageReliable s) (es_turnText s) (es_agentText s) (es_agentSettled s) (es_usage s) (es_currentLastMessage s) (es_currentTurnText s)
    (es_currentAgentText s) (es_currentTurnMessageStart s) (es_currentTurnMessageEnd s) (es_currentUsagePresent s) (es_currentUsageReliable s).

(** The state with one field replaced, from the expanded record. *)
Ltac assign field v s :=
  let t := eval cbv beta delta [eta] in (eta s) in
  match eval pattern (field s) in t with ?g _ => let r := eval cbv beta in (g v) in exact r end.

Definition set_current (v : bool) (s : eventState) : eventState := ltac:(assign es_current v s).
Definition set_sessionID (v : string) (s : eventState) : eventState := ltac:(assign es_sessionID v s).
Definition set_sessionSeen (v : bool) (s : eventState) : eventState := ltac:(assign es_sessionSeen v s).
Definition set_agentStarted (v : bool) (s : eventState) : eventState := ltac:(assign es_agentStarted v s).
Definition set_agentEnded (v : bool) (s : eventState) : eventState := ltac:(assign es_agentEnded v s).
Definition set_turnStarted (v : bool) (s : eventState) : eventState := ltac:(assign es_turnStarted v s).
Definition set_turnEnded (v : bool) (s : eventState) : eventState := ltac:(assign es_turnEnded v s).
Definition set_turnStopReason (v : string) (s : eventState) : eventState := ltac:(assign es_turnStopReason v s).
Definition set_turnErrorMessage (v : string) (s : eventState) : eventState := ltac:(assign es_turnErrorMessage v s).
Definition set_messageOpen (v : bool) (s : eventState) : eventState := ltac:(assign es_messageOpen v s).
Definition set_providerFail (v : bool) (s : eventState) : eventState := ltac:(assign es_providerFail v s).
Definition set_stickyProviderFail (v : bool) (s : eventState) : eventState := ltac:(assign es_stickyProviderFail v s).
Definition set_semanticErr (v : option string) (s : eventState) : eventState := ltac:(assign es_semanticErr v s).
Definition set_nativeOutcomeFailed (v : bool) (s : eventState) : eventState := ltac:(assign es_nativeOutcomeFailed v s).
Definition set_retryPending (v : bool) (s : eventState) : eventState := ltac:(assign es_retryPending v s).
Definition set_lastMessageText (v : list ascii) (s : eventState) : eventState := ltac:(assign es_lastMessageText v s).
Definition set_lastMessageSeen (v : bool) (s : eventState) : eventState := ltac:(assign es_lastMessageSeen v s).
Definition set_lastMessageStopReason (v : string) (s : eventState) : eventState := ltac:(assign es_lastMessageStopReason v s).
Definition set_messageUsage (v : option usageTotals) (s : eventState) : eventState := ltac:(assign es_messageUsage v s).
Definition set_messageUsageReliable (v : bool) (s : eventState) : eventState := ltac:(assign es_messageUsageReliable v s).
Definition set_turnText (v : list ascii) (s : eventState) : eventState := ltac:(assign es_turnText v s).
Definition set_agentText (v : list ascii) (s : eventState) : eventState := ltac:(assign es_agentText v s).
Definition set_agentSettled (v : bool) (s : eventState) : eventState := ltac:(assign es_agentSettled v s).
Definition set_usage (v : list usageTotals) (s : eventState) : eventState := ltac:(assign es_usage v s).
Definition set_currentLastMessage (v : piTextSummary) (s : eventState) : eventState := ltac:(assign es_currentLastMessage v s).
Definition set_currentTurnText (v : piTextSummary) (s : eventState) : eventState := ltac:(assign es_currentTurnText v s).
Definition set_currentAgentText (v : piTextSummary) (s : eventState) : eventState := ltac:(assign es_currentAgentText v s).
Definition set_currentTurnMessageStart (v : Z) (s : eventState) : eventState := ltac:(assign es_currentTurnMessageStart v s).
Definition set_currentTurnMessageEnd (v : Z) (s : eventState) : eventState := ltac:(assign es_currentTurnMessageEnd v s).
Definition set_currentUsagePresent (v : bool) (s : eventState) : eventState := ltac:(assign es_currentUsagePresent v s).
Definition set_currentUsageReliable (v : bool) (s : eventState) : eventState := ltac:(assign es_currentUsageReliable v s).

(** The zero value. *)
Definition emptyState (options : parserOptions) : eventState :=
  MkState false "" false false false false false "" "" false false false None options false false [] false "" None false [] [] false [] zeroSummary
    zeroSummary zeroSummary 0 0 false false.

(** [s.markSemantic(reason)]: the first fault stays.  The reasons, which no result of the
    interpreter contains, are given without the names and causes that the code adds. *)
Definition markSemantic (reason : string) (s : eventState) : eventState :=
  match es_semanticErr s with None => set_semanticErr (Some reason) s | Some _ => s end.

Definition semanticFault (s : eventState) : bool := match es_semanticErr s with Some _ => true | None => false end.

(** ** Text summaries *)
#[export] Instance outcome_bind : MBind outcome := fun A B f m => match m with Done a => f a | Fault e => Fault e end.

(** An error of the adapter. *)
Definition raised {A} (msg : string) : outcome A := Fault (ReadFault (New msg)).

(** [if err != nil { return errors.New(msg) }] *)
Definition orRaise {A} (m : outcome A) (msg : string) : outcome A := match m with Done a => Done a | Fault _ => raised msg end.

Definition require (b : bool) (msg : string) : outcome unit := if b then Done tt else raised msg.

(** [hash] is what it has been given. *)
Record piSummaryWriter : Set := MkWriter { sw_hash : list ascii; sw_nonblank : bool; sw_length : Z }.

(** [w.Write(p)].  The chunks of a decoded string end at the end of a rune, so that white
    space can be tested on the whole string. *)
Definition Write (w : piSummaryWriter) (p : list ascii) : piSummaryWriter :=
  MkWriter (sw_hash w ++ p) (sw_nonblank w || negb (eqs (TrimSpace (str p)) "")) (sw_length w + Z.of_nat (length p)).

Definition newWriter : piSummaryWriter := MkWriter [] false 0.

Definition summary (w : piSummaryWriter) : piTextSummary :=
  MkSummary (ComputeSHA256 (str (sw_hash w))) (sw_length w) (sw_nonblank w) true.

Fixpoint copyAll (values : list Value) (w : piSummaryWriter) : outcome piSummaryWriter :=
  match values with
  | [] => Done w
  | value :: rest => p ← CopyString value; copyAll rest (Write w p)
  end.

Definition summarizePiValues (values : list Value) : outcome piTextSummary :=
  w ← copyAll values newWriter; Done (summary w).

Definition equalPiText (left right : piTextSummary) : bool :=
  bool_decide (ts_seen left = ts_seen right) && (ts_length left =? ts_length right) && eqs (ts_digest left) (ts_digest right).

(** ** Fields *)
Section parsing.
Context (orbit : Z -> Z).

Abbreviation fieldsOf := (gmap string Value).

Definition piCurrentNull (value : Value) : bool :=
  match Raw value 8 with Done raw => eqs (TrimSpace (str raw)) "null" | Fault _ => false end.

Definition piCurrentRequiredString (fields : fieldsOf) (name : string) (limit : Z) : outcome string :=
  match fields !! name with
  | None => raised "is missing"
  | Some value =>
      match String value limit with
      | Done text => if eqs text "" then raised "is not a nonempty string" else Done text
      | Fault _ => raised "is not a nonempty string"
      end
  end.

Definition piCurrentOptionalString (fields : fieldsOf) (name : string) (limit : Z) : outcome (option string) :=
  match fields !! name with
  | None => Done None
  | Some value => text ← String value limit; Done (Some text)
  end.

(** [bytes.TrimSpace] of a raw number, parsed and not negative. *)
Definition nonnegative (raw : list ascii) : outcome Z :=
  match Atoi (TrimSpace (str raw)) with
  | Ok number => if number <? 0 then raised "is not a nonnegative integer" else Done number
  | Err _ => raised "is not a nonnegative integer"
  end.

Definition piCurrentOptionalNonnegativeInt (fields : fieldsOf) (name : string) : outcome (option Z) :=
  match fields !! name with
  | None => Done None
  | Some value => if piCurrentNull value then Done None else raw ← Raw value 64; number ← nonnegative raw; Done (Some number)
  end.

(** The value, if the field is present. *)
Definition piCurrentOptionalBool (fields : fieldsOf) (name : string) : outcome (option bool) :=
  match fields !! name with
  | None => Done None
  | Some field =>
      raw ← Raw field 8;
      let text := TrimSpace (str raw) in
      if eqs text "true" then Done (Some true) else if eqs text "false" then Done (Some false) else raised "is not a boolean"
  end.

(** ** Usage *)

(** [piCurrentUsageCounter]: the counter, whether it is still reliable and how many are known. *)
Fixpoint piCurrentUsageCounter (fields : fieldsOf) (reliable : bool) (known : Z) (names : list string) : option Z * bool * Z :=
  match names with
  | [] => (None, reliable, known)
  | name :: rest =>
      match fields !! name with
      | None => piCurrentUsageCounter fields reliable known rest
      | Some value =>
          match (if piCurrentNull value then raised "null" else raw ← Raw value 64; nonnegative raw) with
          | Done number => (Some number, reliable, known + 1)
          | Fault _ => (None, false, known + 1)
          end
      end
  end.

Definition usageNames : list (list string) :=
  [["input_tokens"; "inputTokens"; "input"]; ["output_tokens"; "outputTokens"; "output"];
   ["thinking_tokens"; "thinkingTokens"; "thinking"]; ["total_tokens"; "totalTokens"; "total"];
   ["cache_read_input_tokens"; "cacheReadInputTokens"; "cacheRead"];
   ["cache_creation_input_tokens"; "cacheCreationInputTokens"; "cacheWrite"]]%string.

Definition presentOnly : usageTotals := MkTotals true None None None None None None.

Definition parsePiCurrentUsage (value : Value) : option usageTotals * bool :=
  match v_Reader value with
  | None => (None, true)
  | Some _ =>
      if piCurrentNull value then (Some presentOnly, false)
      else
        match Object orbit value (concat usageNames) with
        | Fault _ => (Some presentOnly, false)
        | Done fields =>
            let counter r k names := piCurrentUsageCounter fields r k names in
            let '(input, r, k) := counter true 0 ["input_tokens"; "inputTokens"; "input"]%string in
            let '(output, r, k) := counter r k ["output_tokens"; "outputTokens"; "output"]%string in
            let '(thinking, r, k) := counter r k ["thinking_tokens"; "thinkingTokens"; "thinking"]%string in
            let '(total, r, k) := counter r k ["total_tokens"; "totalTokens"; "total"]%string in
            let '(cacheRead, r, k) := counter r k ["cache_read_input_tokens"; "cacheReadInputTokens"; "cacheRead"]%string in
            let '(cacheCreation, r, k) :=
              counter r k ["cache_creation_input_tokens"; "cacheCreationInputTokens"; "cacheWrite"]%string in
            (Some (MkTotals true input output thinking total cacheRead cacheCreation), if k =? 0 then false else r)
        end
  end.

(** The usage of an object, unreliable when its fields cannot be selected. *)
Definition usageOf (value : Value) : option usageTotals * bool :=
  match Object orbit value ["usage"%string] with
  | Fault _ => (Some presentOnly, false)
  | Done fields => parsePiCurrentUsage (default (MkValue None 0 0) (fields !! "usage"%string))
  end.

(** ** Messages *)
Record piCurrentMessage : Set := MkMessage {
  pm_role : string; pm_text : piTextSummary; pm_stopReason : string; pm_errorMessage : string; pm_usage : option usageTotals;
  pm_usageReliable : bool }.

Definition validateCompletedAssistantStopReason (reason : string) : outcome unit :=
  if existsb (eqs reason) ["stop"; "toolUse"; "length"; "error"; "aborted"]%string then Done tt
  else if eqs reason "" then raised "stopReason is missing" else raised "unsupported stopReason".

Definition failedAssistantStopReason (reason : string) : bool := existsb (eqs reason) ["length"; "error"; "aborted"]%string.

(** The visitor of a content block. *)
Definition visitContentBlock (keepText : bool) (block : Value) (w : piSummaryWriter) : option fault * piSummaryWriter :=
  match (fields ← orRaise (Object orbit block ["type"%string]) "message content block is not an object";
         kind ← orRaise (piCurrentRequiredString fields "type" 128) "message content block type is missing or invalid";
         if negb (eqs kind "text") then Done w
         else
           fields ← Object orbit block ["text"%string];
           text ← match fields !! "text"%string with Some text => Done text | None => raised "text content block is invalid" end;
           if keepText then p ← CopyString text; Done (Write w p)
           else _ ← orRaise (summarizePiValues [text]) "text content block is invalid"; Done w) with
  | Done w' => (None, w')
  | Fault f => (Some f, w)
  end.

Definition decodePiCurrentContentBlocks (value : Value) (keepText : bool) : outcome piTextSummary :=
  if piCurrentNull value then raised "message content is not an array"
  else
    let '(r, w) := Array (visitContentBlock keepText) value newWriter in
    _ ← r;
    Done (if keepText then summary w else MkSummary (ComputeSHA256 "") 0 false true).

Definition optionalStopReason (fields : fieldsOf) : outcome string :=
  match fields !! "stopReason"%string with
  | None => Done ""%string
  | Some raw => value ← orRaise (String raw 128) "message stopReason is invalid";
                _ ← require (negb (eqs value "")) "message stopReason is invalid"; Done value
  end.

Definition optionalErrorMessage (fields : fieldsOf) : outcome string :=
  match fields !! "errorMessage"%string with
  | None => Done ""%string
  | Some raw => if piCurrentNull raw then Done ""%string
                else orRaise (String raw maxEventLineBytes) "message errorMessage is invalid"
  end.

Definition messageNames : list string := ["role"; "content"; "stopReason"; "errorMessage"]%string.

Definition decodePiCurrentMessage (value : Value) (keepText : bool) : outcome piCurrentMessage :=
  fields ← orRaise (Object orbit value messageNames) "message is not an object";
  role ← orRaise (piCurrentRequiredString fields "role" 128) "message role is missing or invalid";
  content ← match fields !! "content"%string with Some content => Done content | None => raised "message content is missing" end;
  text ← match summarizePiValues [content] with
         | Done plain => Done plain
         | Fault _ => decodePiCurrentContentBlocks content (keepText && eqs role "assistant")
         end;
  stopReason ← optionalStopReason fields;
  errorMessage ← optionalErrorMessage fields;
  let '(usage, usageReliable) := usageOf value in
  Done (MkMessage role text stopReason errorMessage usage usageReliable).

(** The final assistant message so far, and whether one reported an error. *)
Definition visitFinalMessage (element : Value) (s : option piCurrentMessage * bool)
    : option fault * (option piCurrentMessage * bool) :=
  let '(result, assistantError) := s in
  match decodePiCurrentMessage element true with
  | Fault f => (Some f, s)
  | Done message =>
      if negb (eqs (pm_role message) "assistant") then (None, s)
      else
        let assistantError := assistantError || negb (eqs (pm_errorMessage message) "") in
        match validateCompletedAssistantStopReason (pm_stopReason message) with
        | Fault f => (Some f, (result, assistantError))
        | Done _ => (None, (Some message, assistantError))
        end
  end.

Definition set_errorMessage (v : string) (m : piCurrentMessage) : piCurrentMessage :=
  MkMessage (pm_role m) (pm_text m) (pm_stopReason m) v (pm_usage m) (pm_usageReliable m).

Definition decodePiCurrentFinalMessage (value : Value) : outcome (piCurrentMessage * bool) :=
  if piCurrentNull value then raised "messages is not an array"
  else
    let '(r, (result, assistantError)) := Array visitFinalMessage value (None, false) in
    _ ← r;
    match result with
    | None => raised "agent_end has no assistant message"
    | Some result =>
        Done (if assistantError && eqs (pm_errorMessage result) "" then set_errorMessage "assistant error payload" result
              else result, assistantError)
    end.

Definition visitToolResult (element : Value) (s : unit) : option fault * unit :=
  match (if piCurrentNull element then raised "null" else Object orbit element []) with
  | Done _ => (None, s)
  | Fault _ => (Some (ReadFault (New "turn_end toolResults contains a non-object")), s)
  end.

Definition validatePiCurrentToolResults (fields : fieldsOf) : outcome unit :=
  match fields !! "toolResults"%string with
  | None => raised "turn_end toolResults is missing"
  | Some value =>
      if piCurrentNull value then raised "turn_end toolResults is missing"
      else orRaise (fst (Array visitToolResult value tt)) "turn_end toolResults is not an array"
  end.

(** ** Events *)
Record piCurrentEvent : Set := MkEvent { ev_typeName : string; ev_fields : fieldsOf; ev_value : Value }.

Definition eventSession : string := "session".
Definition eventAgentStart : string := "agent_start".
Definition eventAgentEnd : string := "agent_end".
Definition eventTurnStart : string := "turn_start".
Definition eventTurnEnd : string := "turn_end".
Definition eventMessageStart : string := "message_start".
Definition eventMessageUpdate : string := "message_update".
Definition eventMessageEnd : string := "message_end".
Definition eventAutoRetryStart : string := "auto_retry_start".
Definition eventAutoRetryEnd : string := "auto_retry_end".
Definition eventAgentSettled : string := "agent_settled".
Definition eventError : string := "error".
Definition eventSessionInfoChanged : string := "session_info_changed".
Definition eventThinkingLevelChanged : string := "thinking_level_changed".

Definition piCurrentSelectedFields (typeName : string) (nativeOutcome : bool) : list string :=
  (if eqs typeName eventSession then ["id"; "version"; "cwd"]
   else if eqs typeName eventMessageStart || eqs typeName eventMessageEnd then ["message"]
   else if eqs typeName eventMessageUpdate then ["assistantMessageEvent"]
   else if eqs typeName eventTurnEnd then ["message"; "toolResults"]
   else if eqs typeName eventAgentEnd then ["messages"]
   else if eqs typeName eventError then ["error"]
   else if eqs typeName eventAgentSettled then if nativeOutcome then ["aborted"] else []
   else if eqs typeName eventAutoRetryEnd then if nativeOutcome then ["success"] else []
   else [])%string.

Definition piCurrentObservationalEvent (typeName : string) : bool :=
  eqs typeName eventSessionInfoChanged || eqs typeName eventThinkingLevelChanged.

Definition decodePiCurrentEvent (value : Value) (nativeOutcome : bool) : outcome piCurrentEvent :=
  base ← Object orbit value ["type"%string];
  typeName ← orRaise (piCurrentRequiredString base "type" 128) "event type is not a nonempty string";
  fields ← Object orbit value (piCurrentSelectedFields typeName nativeOutcome);
  Done (MkEvent typeName fields value).

(** ** Handlers *)
Definition applyPiCurrentUnknownEvent (typeName : string) (s : eventState) : eventState :=
  if HasPrefix typeName "session_" || HasPrefix typeName "agent_" || HasPrefix typeName "turn_"
  then markSemantic "unknown lifecycle event" s else s.

Definition applyPiCurrentError (s : eventState) : eventState := set_stickyProviderFail true (set_providerFail true s).

Definition applyPiCurrentSettledOutcome (fields : fieldsOf) (s : eventState) : eventState :=
  if negb (po_nativeOutcome (es_options s)) then s
  else match piCurrentOptionalBool fields "aborted" with
       | Fault _ => markSemantic "agent_settled aborted is not a boolean" s
       | Done (Some true) => set_nativeOutcomeFailed true s
       | Done _ => s
       end.

Definition applyPiCurrentRetryOutcome (fields : fieldsOf) (s : eventState) : eventState :=
  if negb (po_nativeOutcome (es_options s)) then s
  else match piCurrentOptionalBool fields "success" with
       | Fault _ => markSemantic "auto_retry_end success is not a boolean" s
       | Done (Some false) => set_nativeOutcomeFailed true s
       | Done _ => s
       end.

Definition beginPiCurrentCycle (s : eventState) : eventState :=
  let s := set_agentStarted false (set_agentEnded false (set_turnStarted false (set_turnEnded false s))) in
  let s := set_turnStopReason "" (set_turnErrorMessage "" (set_messageOpen false (set_messageUsage None s))) in
  let s := set_lastMessageText [] (set_lastMessageSeen false (set_lastMessageStopReason "" s)) in
  let s := set_turnText [] (set_agentText [] s) in
  let s := set_currentLastMessage zeroSummary (set_currentTurnText zeroSummary (set_currentAgentText zeroSummary s)) in
  let s := set_currentTurnMessageStart 0 (set_currentTurnMessageEnd 0 s) in
  let s := set_retryPending false (set_nativeOutcomeFailed false s) in
  set_providerFail (es_stickyProviderFail s) s.

Definition sessionVersionInvalid (fields : fieldsOf) : bool :=
  match piCurrentOptionalNonnegativeInt fields "version" with Fault _ => true | Done _ => false end.

Definition sessionCwdInvalid (fields : fieldsOf) : bool :=
  match piCurrentOptionalString fields "cwd" 4096 with
  | Fault _ => true
  | Done (Some cwd) => eqs cwd ""
  | Done None => false
  end.

Definition applyPiCurrentSession (fields : fieldsOf) (s : eventState) : eventState :=
  if es_sessionSeen s then markSemantic "multiple session events" s
  else if es_agentStarted s || es_turnStarted s then markSemantic "session event appears after agent start" s
  else match piCurrentRequiredString fields "id" 128 with
       | Fault _ => markSemantic "session id is invalid" s
       | Done id =>
           if negb (validSessionID id) then markSemantic "session id is invalid" s
           else if sessionVersionInvalid fields then markSemantic "session version is invalid" s
           else if sessionCwdInvalid fields then markSemantic "session cwd is invalid" s
           else set_sessionSeen true (set_sessionID id s)
       end.

Definition applyPiCurrentAgentStart (s : eventState) : eventState :=
  if negb (es_sessionSeen s) || es_agentStarted s || es_turnStarted s then markSemantic "invalid agent_start lifecycle" s
  else set_agentStarted true s.

Definition applyPiCurrentRetryStart (s : eventState) : eventState :=
  if negb (es_agentEnded s) || es_retryPending s then markSemantic "invalid auto_retry_start lifecycle" s
  else set_retryPending true s.

Definition applyPiCurrentTurnStart (s : eventState) : eventState :=
  if negb (es_agentStarted s) || (es_turnStarted s && negb (es_turnEnded s)) then markSemantic "invalid turn_start lifecycle" s
  else
    let s := if es_turnEnded s
             then
               let s := set_turnEnded false (set_turnStopReason "" (set_turnErrorMessage "" s)) in
               let s := set_currentLastMessage zeroSummary (set_currentTurnText zeroSummary s) in
               let s := set_currentTurnMessageStart 0 (set_currentTurnMessageEnd 0 s) in
               set_lastMessageStopReason "" (set_lastMessageSeen false s)
             else s in
    set_turnStarted true s.

(** The usage of a message that is not kept as a row. *)
Definition observeUsage (usage : option usageTotals) (reliable : bool) (s : eventState) : eventState :=
  match usage with
  | None => s
  | Some _ => set_currentUsageReliable (es_currentUsageReliable s && reliable) (set_currentUsagePresent true s)
  end.

Definition applyPiCurrentMessageStart (fields : fieldsOf) (s : eventState) : eventState :=
  if negb (es_turnStarted s) || es_turnEnded s || es_messageOpen s then markSemantic "invalid message_start lifecycle" s
  else match fields !! "message"%string with
       | None => markSemantic "message_start message is missing" s
       | Some message =>
           match decodePiCurrentMessage message false with
           | Fault _ => markSemantic "message_start message" s
           | Done decoded =>
               let s := observeUsage (pm_usage decoded) (pm_usageReliable decoded) s in
               set_messageOpen true (set_messageUsageReliable true (set_messageUsage None s))
           end
       end.

(** The usage of a [message_update]. *)
Definition updateUsage (value : Value) (s : eventState) : eventState :=
  let '(usage, reliable) := usageOf value in
  match usage with
  | None => s
  | Some _ => observeUsage usage reliable (set_messageUsageReliable reliable (set_messageUsage usage s))
  end.

Definition validateAssistantEvent (fields : fieldsOf) : outcome unit :=
  event ← match fields !! "assistantMessageEvent"%string with
          | Some event => Done event
          | None => raised "message_update assistantMessageEvent is missing"
          end;
  eventFields ← orRaise (Object orbit event ["type"; "delta"]%string) "message_update assistantMessageEvent is not an object";
  typeName ← orRaise (piCurrentRequiredString eventFields "type" 128) "message_update assistantMessageEvent type is invalid";
  if negb (eqs typeName "text_delta") then Done tt
  else
    delta ← match eventFields !! "delta"%string with Some delta => Done delta | None => raised "message_update text_delta is missing delta" end;
    _ ← orRaise (summarizePiValues [delta]) "message_update text_delta delta is not a string"; Done tt.

Definition errorText (f : fault) : string :=
  match f with FieldError code _ _ => code | ReadFault (New msg) => msg | _ => "" end.

Definition applyPiCurrentMessageUpdate (fields : fieldsOf) (value : Value) (s : eventState) : eventState :=
  if negb (es_turnStarted s) || es_turnEnded s then markSemantic "invalid message_update lifecycle" s
  else match validateAssistantEvent fields with
       | Fault f => markSemantic (errorText f) s
       | Done _ => updateUsage value s
       end.

Definition appendPiCurrentUsage (usage : option usageTotals) (reliable : bool) (s : eventState) : eventState :=
  match usage with
  | None => s
  | Some row =>
      let s := observeUsage usage reliable s in
      if maxUsageRows <=? Z.of_nat (length (es_usage s)) then set_currentUsageReliable false s
      else set_usage (es_usage s ++ [row]) s
  end.

(** What an error message or a failed stop reason of a message leaves behind. *)
Definition noteErrorMessage (m : piCurrentMessage) (s : eventState) : eventState :=
  if eqs (pm_errorMessage m) "" then s else set_providerFail true s.
Definition noteStopReason (m : piCurrentMessage) (s : eventState) : eventState :=
  if failedAssistantStopReason (pm_stopReason m) then set_providerFail true s else s.

Definition applyPiCurrentMessageEnd (fields : fieldsOf) (s : eventState) : eventState :=
  if negb (es_turnStarted s) || es_turnEnded s || negb (es_messageOpen s) then markSemantic "invalid message_end lifecycle" s
  else match fields !! "message"%string with
       | None => markSemantic "message_end message is missing" s
       | Some value =>
           match decodePiCurrentMessage value true with
           | Fault _ => markSemantic "message_end message" s
           | Done message =>
               let s := set_messageOpen false s in
               if negb (eqs (pm_role message) "assistant") then s
               else
                 let s := noteErrorMessage message s in
                 match validateCompletedAssistantStopReason (pm_stopReason message) with
                 | Fault _ => markSemantic "message_end assistant stop reason" s
                 | Done _ =>
                     let s := noteStopReason message s in
                     let s := match pm_usage message with
                              | Some _ => appendPiCurrentUsage (pm_usage message) (pm_usageReliable message) s
                              | None => appendPiCurrentUsage (es_messageUsage s) (es_messageUsageReliable s) s
                              end in
                     let s := set_messageUsageReliable true (set_messageUsage None s) in
                     set_lastMessageStopReason (pm_stopReason message)
                       (set_lastMessageSeen true (set_currentLastMessage (pm_text message) s))
                 end
           end
       end.

(** The error of [validatePiCurrentTurnEndMessage], and the state it leaves. *)
Definition validatePiCurrentTurnEndMessage (message : piCurrentMessage) (s : eventState) : option string * eventState :=
  if negb (eqs (pm_role message) "assistant") then (Some "turn_end message is not an assistant message"%string, s)
  else
    let s := noteErrorMessage message s in
    match validateCompletedAssistantStopReason (pm_stopReason message) with
    | Fault _ => (Some "turn_end assistant stop reason"%string, s)
    | Done _ =>
        let s := noteStopReason message s in
        (if ts_seen (es_currentLastMessage s) && negb (equalPiText (es_currentLastMessage s) (pm_text message))
         then Some "turn_end assistant text conflicts with message_end"
         else if negb (eqs (es_lastMessageStopReason s) "") && negb (eqs (es_lastMessageStopReason s) (pm_stopReason message))
              then Some "turn_end assistant stop reason conflicts with message_end"
              else None, s)%string
    end.

Definition applyPiCurrentTurnEnd (fields : fieldsOf) (s : eventState) : eventState :=
  if negb (es_turnStarted s) || es_turnEnded s || es_messageOpen s then markSemantic "invalid turn_end lifecycle" s
  else match fields !! "message"%string with
       | None => markSemantic "turn_end message is missing" s
       | Some value =>
           match decodePiCurrentMessage value true with
           | Fault _ => markSemantic "turn_end message" s
           | Done message =>
               match validatePiCurrentToolResults fields with
               | Fault f => markSemantic (errorText f) s
               | Done _ =>
                   match validatePiCurrentTurnEndMessage message (observeUsage (pm_usage message) (pm_usageReliable message) s) with
                   | (Some reason, s) => markSemantic reason s
                   | (None, s) =>
                       let s := set_currentTurnText (pm_text message) s in
                       let s := set_currentTurnMessageEnd (v_End value) (set_currentTurnMessageStart (v_Start value) s) in
                       let s := set_turnErrorMessage (pm_errorMessage message) (set_turnStopReason (pm_stopReason message) s) in
                       set_turnEnded true s
                   end
               end
           end
       end.

Definition applyPiCurrentAgentEnd (fields : fieldsOf) (s : eventState) : eventState :=
  if negb (es_turnEnded s) || es_agentEnded s then markSemantic "invalid agent_end lifecycle" s
  else match fields !! "messages"%string with
       | None => markSemantic "agent_end messages are missing" s
       | Some value =>
           match decodePiCurrentFinalMessage value with
           | Fault _ => markSemantic "agent_end messages" s
           | Done (message, assistantError) =>
               let s := observeUsage (pm_usage message) (pm_usageReliable message) s in
               let s := if negb (eqs (pm_errorMessage message) "") || assistantError then set_providerFail true s else s in
               if negb (eqs (es_turnStopReason s) (pm_stopReason message))
               then markSemantic "agent_end assistant stop reason conflicts with turn_end" s
               else if negb (equalPiText (es_currentTurnText s) (pm_text message))
               then markSemantic "agent_end assistant text conflicts with turn_end" s
               else if po_requireAgentEndErrorMatch (es_options s) && negb (eqs (es_turnErrorMessage s) (pm_errorMessage message))
               then markSemantic "agent_end assistant error message conflicts with turn_end" s
               else if negb (eqs (pm_stopReason message) "stop")
               then if failedAssistantStopReason (pm_stopReason message) then set_agentEnded true (set_providerFail true s)
                    else markSemantic "agent_end final assistant stop reason is not stop" s
               else set_agentEnded true (set_currentAgentText (pm_text message) s)
           end
       end.

Definition applyPiCurrentMessageEvent (event : piCurrentEvent) (s : eventState) : eventState :=
  if eqs (ev_typeName event) eventMessageStart then applyPiCurrentMessageStart (ev_fields event) s
  else if eqs (ev_typeName event) eventMessageUpdate then applyPiCurrentMessageUpdate (ev_fields event) (ev_value event) s
  else if eqs (ev_typeName event) eventMessageEnd then applyPiCurrentMessageEnd (ev_fields event) s
  else s.

Definition applyPiCurrentRetryEvent (event : piCurrentEvent) (s : eventState) : eventState :=
  if eqs (ev_typeName event) eventAutoRetryStart then applyPiCurrentRetryStart s
  else if negb (es_agentStarted s) then markSemantic "auto_retry_end appears outside an active cycle" s
  else applyPiCurrentRetryOutcome (ev_fields event) s.

Definition isOneOf (names : list string) (typeName : string) : bool := existsb (eqs typeName) names.

Definition applyPiCurrentBeforeAgentEnd (event : piCurrentEvent) (s : eventState) : eventState :=
  let typeName := ev_typeName event in
  if eqs typeName eventSession then applyPiCurrentSession (ev_fields event) s
  else if eqs typeName eventAgentStart then applyPiCurrentAgentStart s
  else if eqs typeName eventTurnStart then applyPiCurrentTurnStart s
  else if isOneOf [eventMessageStart; eventMessageUpdate; eventMessageEnd] typeName then applyPiCurrentMessageEvent event s
  else if eqs typeName eventTurnEnd then applyPiCurrentTurnEnd (ev_fields event) s
  else if eqs typeName eventAgentEnd then applyPiCurrentAgentEnd (ev_fields event) s
  else if isOneOf [eventAutoRetryStart; eventAutoRetryEnd] typeName then applyPiCurrentRetryEvent event s
  else if eqs typeName eventError then applyPiCurrentError s
  else applyPiCurrentUnknownEvent typeName s.

Definition applyPiCurrentAfterAgentEnd (event : piCurrentEvent) (s : eventState) : eventState :=
  let typeName := ev_typeName event in
  if eqs typeName eventAgentEnd then markSemantic "duplicate agent_end event" s
  else if eqs typeName eventAgentSettled then
    if es_agentSettled s then markSemantic "duplicate agent_settled event" s
    else applyPiCurrentSettledOutcome (ev_fields event) (set_agentSettled true s)
  else if eqs typeName eventAutoRetryStart then applyPiCurrentRetryStart s
  else if eqs typeName eventAutoRetryEnd then
    if po_rejectTrailingRetryEnd (es_options s) && negb (es_providerFail s) && negb (es_retryPending s)
    then markSemantic "auto_retry_end appears after agent_end" s
    else applyPiCurrentRetryOutcome (ev_fields event) s
  else if isOneOf [eventSession; eventAgentStart; eventTurnStart; eventTurnEnd; eventMessageStart; eventMessageUpdate; eventMessageEnd] typeName
  then markSemantic "event appears after agent_end" s
  else if eqs typeName eventError then applyPiCurrentError s
  else applyPiCurrentUnknownEvent typeName s.

Definition applyPiCurrentEvent (event : piCurrentEvent) (s : eventState) : eventState :=
  if semanticFault s then s
  else if po_nativeOutcome (es_options s) && piCurrentObservationalEvent (ev_typeName event) then s
  else if es_agentSettled s && po_settledTerminal (es_options s) then markSemantic "event appears after agent_settled" s
  else if es_agentEnded s then
    if eqs (ev_typeName event) eventAgentStart then applyPiCurrentAgentStart (beginPiCurrentCycle s)
    else applyPiCurrentAfterAgentEnd event s
  else applyPiCurrentBeforeAgentEnd event s.

(** ** The stream *)
Definition processPiCurrentRecord (value : Value) (s : eventState) : eventState :=
  match decodePiCurrentEvent value (po_nativeOutcome (es_options s)) with
  | Fault f => markSemantic (errorText f) s
  | Done event => applyPiCurrentEvent event s
  end.

Definition semanticError (s : eventState) : option error := New <$> es_semanticErr s.

(** The visitor of [parseStdout]. *)
Definition visitRecord (value : Value) (line : Z) (s : eventState) : option error * eventState :=
  if semanticFault s then (semanticError s, s)
  else
    let s := if v_Start value =? v_End value then markSemantic "blank JSONL event line" s else processPiCurrentRecord value s in
    (semanticError s, s).

Definition initialState (options : parserOptions) : eventState :=
  set_currentUsageReliable true (set_current true
    (emptyState (MkOptions true true true true (po_nativeOutcome options)))).

(** The reads of a sealed stream, a buffer at a time. *)
Fixpoint readsOf (fuel : nat) (content : list ascii) : list readResult :=
  match fuel, content with
  | S fuel', _ :: _ =>
      let chunk := take (Z.to_nat BufferSize) content in
      MkRead (Z.of_nat (length chunk)) chunk None :: readsOf fuel' (drop (Z.to_nat BufferSize) content)
  | _, _ => []
  end.

Definition sealedReads (content : list ascii) : list readResult := readsOf (length content) content.

Definition parseStdout (content : list ascii) (options : parserOptions) : result eventState :=
  let '(semanticErr, readErr, state) :=
    Records (Some (sealedReads content)) (Some (MkReaderAt content None)) visitRecord (initialState options) in
  let state := match es_semanticErr state, semanticErr with None, Some _ => markSemantic "invalid records" state | _, _ => state end in
  match readErr with
  | Some e => Err (Errorf "reading Pi stdout" e)
  | None => Ok state
  end.

(** ** The answer *)

(** The visitor of an answer's content block. *)
Definition copyContentBlock (block : Value) (out : list ascii) : option fault * list ascii :=
  match (blockFields ← Object orbit block ["type"%string];
         kind ← piCurrentRequiredString blockFields "type" 128;
         if negb (eqs kind "text") then Done out
         else
           textFields ← Object orbit block ["text"%string];
           text ← match textFields !! "text"%string with Some text => Done text | None => raised "pi text content block is missing text" end;
           p ← CopyString text; Done (out ++ p)) with
  | Done out' => (None, out')
  | Fault f => (Some f, out)
  end.

(** [copyPiMessageValue]: what [out] has received, up to the value that failed. *)
Definition copyPiMessageValue (message : Value) (out : list ascii) : option fault * list ascii :=
  match Object orbit message ["role"; "content"]%string with
  | Fault f => (Some f, out)
  | Done fields =>
      match fields !! "content"%string with
      | None => (Some (ReadFault (New "pi turn answer content is missing")), out)
      | Some content =>
          match CopyString content with
          | Done p => (None, out ++ p)
          | Fault (FieldError _ _ _) =>
              let '(r, out) := Array copyContentBlock content out in
              (match r with Done _ => None | Fault f => Some f end, out)
          | Fault f => (Some f, out)
          end
      end
  end.

Definition faultError (f : fault) : error := match f with ReadFault e => e | _ => New (errorText f) end.

(** The visitor of [copyPiCurrentMessageText] with [found] and [out]. *)
Definition copyRecord (start stop : Z) (record : Value) (line : Z) (s : bool * list ascii) : option error * (bool * list ascii) :=
  let '(found, out) := s in
  if (start <? v_Start record) || (v_End record <? stop) then (None, s)
  else
    let '(r, out) := copyPiMessageValue (MkValue (v_Reader record) start stop) out in
    (faultError <$> r, (true, out)).

Definition copyPiCurrentMessageText (content : list ascii) (start stop : Z) : result (list ascii) :=
  fail_if ((start <? 0) || (stop <=? start)) (New "pi turn answer range is invalid") ;;
  let '(semanticErr, readErr, (found, out)) :=
    Records (Some (sealedReads content)) (Some (MkReaderAt content None)) (copyRecord start stop) (false, []) in
  match errors_Join [semanticErr; readErr] with
  | Some e => Err e
  | None => if found then Ok out else Err (New "selected Pi turn answer record was not found")
  end.
End parsing.

(** ** Interpretation *)
Definition refusalMalformed : string := "invalid-output".
Definition refusalIdentity : string := "identity-mismatch".
Definition refusalIncomplete : string := "incomplete-output".
Definition refusalEmpty : string := "empty-output".
Definition refusalProviderFailed : string := "provider-failed".

Definition usageRow (reliability : string) (u : usageTotals) : UsageMetadata :=
  MkUsage "unknown" "provider-event" reliability (ut_input u) (ut_output u) (ut_thinking u) (ut_total u) (ut_cacheRead u) None None None
    (ut_cacheCreation u) None.

Definition usageFromState (s : eventState) (reliability : string) : list UsageMetadata :=
  map (usageRow reliability) (List.filter ut_present (es_usage s)).

Definition currentUsageFromState (s : eventState) (reliability : string) : list UsageMetadata :=
  if negb (es_current s) then usageFromState s reliability
  else usageFromState s (if negb (es_currentUsageReliable s) then "unreliable" else reliability).

Definition piCurrentUsageWarning (s : eventState) : list OutputDiagnostic :=
  if negb (es_current s) || negb (es_currentUsagePresent s) || es_currentUsageReliable s then []
  else [MkDiagnostic "optional_usage_unavailable"
          "Optional Pi usage could not be interpreted; the answer was assessed independently." "usage" 0 0].

Definition piCurrentDiagnostic (refusal : string) : OutputDiagnostic :=
  let diagnostic code message := MkDiagnostic code message "" 0 0 in
  if eqs refusal refusalMalformed then diagnostic "invalid_output"%string "Pi output contained invalid completion metadata."%string
  else if eqs refusal refusalIdentity then diagnostic "identity_mismatch"%string "Pi session identity did not match the task."%string
  else if eqs refusal refusalIncomplete then diagnostic "incomplete_output"%string "Pi output did not contain a complete successful cycle."%string
  else if eqs refusal refusalEmpty then diagnostic "empty_output"%string "Pi output did not contain a nonblank final answer."%string
  else if HasPrefix refusal refusalProviderFailed then diagnostic "provider_failed"%string "Pi reported a failed or interrupted completion."%string
  else diagnostic "provider_output_rejected"%string "Pi output did not satisfy the recorded completion contract."%string.

Definition sealRefusal (seal : ProviderExitRecord) : string :=
  if eqs (pe_InvocationState seal) InvocationStartFailed then refusalProviderFailed +:+ ": start_failed: " +:+ pe_Error seal
  else if negb (eqs (pe_Error seal) "") then refusalProviderFailed +:+ ": seal_error: " +:+ pe_Error seal
  else if negb (pe_ExitCode seal =? 0) then refusalProviderFailed +:+ ": exit_code=" +:+ str (decimalText (pe_ExitCode seal))
  else "".

Definition identityMatches (input : Input) (sessionID : string) : bool :=
  let expected := in_ExpectedSession input in
  if negb (validSessionID sessionID) then false
  else if (if se_Required expected then negb (validSessionID (se_ID expected)) || negb (eqs (se_ID expected) sessionID)
           else negb (eqs (se_ID expected) "")) then false
  else match in_RecordedSession input with
       | Some recorded => eqs (si_Provider recorded) Provider && eqs (si_ConversationID recorded) sessionID
       | None => true
       end.

Definition currentCycleAnswerRefusal (s : eventState) : string :=
  if negb (ts_nonblank (es_currentTurnText s)) || negb (ts_nonblank (es_currentAgentText s)) then refusalEmpty else "".

Definition blank (text : list ascii) : bool := eqs (TrimSpace (str text)) "".

Definition historicalCycleAnswerEmpty (s : eventState) : bool := blank (es_turnText s) || blank (es_agentText s).

Definition refusalForCompletedCycle (input : Input) (s : eventState) : string :=
  if negb (es_sessionSeen s) || negb (es_agentStarted s) || negb (es_turnStarted s) then refusalMalformed
  else if negb (identityMatches input (es_sessionID s)) then refusalIdentity
  else if es_retryPending s || negb (es_turnEnded s) || negb (es_agentEnded s) then refusalIncomplete
  else if es_nativeOutcomeFailed s then refusalProviderFailed
  else if es_current s then currentCycleAnswerRefusal s
  else if historicalCycleAnswerEmpty s then refusalEmpty
  else "".

Definition refusalFor (input : Input) (s : eventState) : string :=
  let refusal := sealRefusal (in_Seal input) in
  if negb (eqs refusal "") then refusal
  else if semanticFault s then refusalMalformed
  else if es_providerFail s then refusalProviderFailed
  else refusalForCompletedCycle input s.

(** ** The interpreter *)
Record interpreter : Set := MkInterpreterValue { i_mode : string; i_version : string; i_legacy : bool }.

Definition currentVersionForMode (mode : string) : string := if eqs mode ModeReadOnly then currentReadOnlyVersion else currentWorkspaceVersion.
Definition priorVersionForMode (mode : string) : string := if eqs mode ModeReadOnly then priorReadOnlyVersion else priorWorkspaceVersion.

Definition NewInterpreter (mode : string) : interpreter :=
  let selected := if eqs mode "" then ModeReadOnly else mode in MkInterpreterValue selected (currentVersionForMode selected) false.
Definition newLegacyInterpreter : interpreter := MkInterpreterValue ModeReadOnly legacyPredicateVersion true.
Definition newReadOnlyV2Interpreter : interpreter := MkInterpreterValue ModeReadOnly historicalPredicateV2 false.
Definition newHistoricalInterpreter (mode version : string) : interpreter := MkInterpreterValue mode version false.
Definition newPriorCurrentInterpreter (mode : string) : interpreter := MkInterpreterValue mode (priorVersionForMode mode) false.

(** [i.Reference()] and [i.Target()] *)
Definition Reference (i : interpreter) : PredicateRef := referenceForVersion (i_mode i) (i_version i).

Definition noPolicy : parserOptions := MkOptions false false false false false.

Definition currentEvidencePolicy (mode version : string) : option parserOptions :=
  if eqs version outcomeEvidenceVersion && validMode mode then Some (MkOptions false false false false true)
  else if eqs version currentPredicateVersion then Some noPolicy
  else if eqs mode ModeReadOnly && eqs version priorReadOnlyVersion then Some noPolicy
  else if eqs mode ModeWorkspaceWrite && (eqs version "7" || eqs version priorWorkspaceVersion) then Some noPolicy
  else None.

Definition recoverableReferencesForMode (mode : string) : list PredicateRef :=
  if eqs mode ModeReadOnly
  then [referenceForVersion ModeReadOnly priorReadOnlyVersion; referenceForVersion ModeReadOnly currentPredicateVersion]
  else [referenceForVersion ModeWorkspaceWrite priorWorkspaceVersion; referenceForVersion ModeWorkspaceWrite "7"].

(** The interpreters that [Registration] lists. *)
Definition registeredInterpreters : list interpreter :=
  [NewInterpreter ModeReadOnly; NewInterpreter ModeWorkspaceWrite;
   newPriorCurrentInterpreter ModeReadOnly; newPriorCurrentInterpreter ModeWorkspaceWrite;
   newHistoricalInterpreter ModeWorkspaceWrite "7";
   newHistoricalInterpreter ModeReadOnly currentPredicateVersion; newHistoricalInterpreter ModeWorkspaceWrite currentPredicateVersion;
   newHistoricalInterpreter ModeReadOnly predicateVersion; newHistoricalInterpreter ModeWorkspaceWrite predicateVersion;
   newHistoricalInterpreter ModeReadOnly historicalPredicateV3; newHistoricalInterpreter ModeWorkspaceWrite historicalPredicateV3;
   newReadOnlyV2Interpreter; newLegacyInterpreter].

Definition CanRecover (i : interpreter) (source : PredicateRef) : bool :=
  if i_legacy i || negb (eqs (i_version i) (currentVersionForMode (i_mode i))) then false
  else existsb (PredicateEqual source) (recoverableReferencesForMode (i_mode i)).

(** [raw.Read(stream, consume)] *)
Definition readStream {A} (raw : evidence) (path : string) (consume : list ascii -> result A) : result A :=
  match streamOf path raw with
  | Some content => consume (bytes content)
  | None => Err evidenceFault
  end.

(** [DrainReader] *)
Fixpoint drainLoop (reads : list readResult) (noProgress : Z) : result unit :=
  match reads with
  | [] => Ok tt
  | rd :: reads' =>
      if (rd_n rd <? 0) || (BufferSize <? rd_n rd) then Err (New "reader returned invalid byte count")
      else
        let stalled := if 0 <? rd_n rd then 0 else noProgress + 1 in
        match rd_err rd with
        | None => if (rd_n rd =? 0) && (100 <=? stalled) then Err (Sentinel io_ErrNoProgress) else drainLoop reads' stalled
        | Some e => if errors_Is e io_EOF then Ok tt else Err e
        end
  end.

Definition DrainReader (content : list ascii) : result unit := drainLoop (sealedReads content) 0.

Section evaluation.
Context (orbit : Z -> Z) (historicalStdout : parserOptions -> list ascii -> result eventState).

(** The state of stdout, or the joined failures of reading both streams. *)
Definition bothStreams (stdout : result eventState) (stderr : result unit) : result eventState :=
  match stdout, stderr with
  | Ok state, Ok _ => Ok state
  | _, _ => Err (default evidenceFault (errors_Join [err_of stdout; err_of stderr]))
  end.

Definition readEvidenceWithOptions (raw : evidence) (options : parserOptions) : result eventState :=
  bothStreams (readStream raw "raw/stdout" (historicalStdout options)) (readStream raw "raw/stderr" DrainReader).

Definition readCurrentEvidence (raw : evidence) (options : parserOptions) : result eventState :=
  bothStreams (readStream raw "raw/stdout" (fun content => parseStdout orbit content options)) (readStream raw "raw/stderr" DrainReader).

Definition validateEvaluationInput (input : Input) (reference : PredicateRef) : result unit :=
  fail_if (negb (PredicateEqual (pe_Predicate (in_Seal input)) reference)) mismatch ;;
  ValidateProviderExitRecord (Some (in_Seal input)).

Definition historicalOptions (i : interpreter) : parserOptions :=
  let nativeRetryContract := eqs (i_version i) predicateVersion || eqs (i_version i) historicalPredicateV3 in
  MkOptions nativeRetryContract nativeRetryContract (eqs (i_version i) predicateVersion) (eqs (i_version i) predicateVersion) false.

Definition readEvidence (i : interpreter) (raw : evidence) : result eventState :=
  match currentEvidencePolicy (i_mode i) (i_version i) with
  | Some options => readCurrentEvidence raw options
  | None => readEvidenceWithOptions raw (historicalOptions i)
  end.

Definition rejection (refusal : string) (s : eventState) : Interpretation :=
  MkInterpretation VerdictRejected refusal None (currentUsageFromState s "unreliable")
    (if es_current s then piCurrentDiagnostic refusal :: piCurrentUsageWarning s else []).

(** The answer of an accepted state, as [out] receives it: [writeAnswer] sends the whole
    text of a historical state. *)
Definition acceptedAnswer (raw : evidence) (s : eventState) : result (list ascii) :=
  if es_current s
  then readStream raw "raw/stdout" (fun content =>
         copyPiCurrentMessageText orbit content (es_currentTurnMessageStart s) (es_currentTurnMessageEnd s))
  else Ok (es_turnText s).

Definition evaluateAgainst (i : interpreter) (input : Input) (raw : evidence) (reference : PredicateRef)
    : result Interpretation * string :=
  match (fail_if (negb (validMode (i_mode i))) mismatch ;;
         validateEvaluationInput input reference ;;
         readEvidence i raw) with
  | Err e => (Err e, ""%string)
  | Ok stdout =>
      let refusal := refusalFor input stdout in
      if negb (eqs refusal "") then (Ok (rejection refusal stdout), ""%string)
      else match acceptedAnswer raw stdout with
           | Err e => (Err e, ""%string)
           | Ok answer =>
               (Ok (MkInterpretation VerdictCommitted "" (Some (MkSessionIdentity Provider (es_sessionID stdout)))
                      (currentUsageFromState stdout "reported") (if es_current stdout then piCurrentUsageWarning stdout else [])),
                str answer)
           end
  end.

Definition Evaluate (i : interpreter) (input : Input) (raw : evidence) : result Interpretation * string :=
  evaluateAgainst i input raw (Reference i).

Definition Recover (i : interpreter) (input : Input) (raw : evidence) : result Interpretation * string :=
  if negb (CanRecover i (pe_Predicate (in_Seal input))) then (Err (Sentinel task_ErrIncompatiblePredicate), ""%string)
  else evaluateAgainst i input raw (pe_Predicate (in_Seal input)).

Definition registered (i : interpreter) : Interpreter := MkInterpreter (Reference i) (Evaluate i).

(** [Registration().Interpreters] *)
Definition Interpreters : list Interpreter := map registered registeredInterpreters.
End evaluation.
