(* ===== verification/PiProtocol.v ===== *)
(** * The protocol of the Pi event stream

    What the events of a stream must be, as a machine with five positions, and the proof
    that the parser of [PiEvidence], with its thirty fields and its early returns, is that
    machine: it faults exactly where the machine stops, and its fields say where the machine
    is.  The last part is what a stream looks like when the machine has come to the end of
    a cycle. *)
From S2P Require Import Prelude GoErrors GoTime GoText TaskTypes Encoding GoPath GoTimestamp TaskLifetime LifetimeClosure ControlDir.
From S2P Require Import TaskConfiguration TaskRecords TaskReducer TaskPublication ProviderJson PiEvidence.
From Stdlib Require Import Ascii.
#[local] Open Scope Z_scope.

(** ** Kinds of events *)
Inductive kind : Set :=
| KSession | KAgentStart | KTurnStart | KMessageStart | KMessageUpdate | KMessageEnd | KTurnEnd | KAgentEnd
| KRetryStart | KRetryEnd | KSettled | KError | KLifecycle | KTelemetry.

#[export] Instance kind_eq_dec : EqDecision kind. Proof. solve_decision. Defined.

Definition kindOf (typeName : string) : kind :=
  if eqs typeName eventSession then KSession
  else if eqs typeName eventAgentStart then KAgentStart
  else if eqs typeName eventTurnStart then KTurnStart
  else if eqs typeName eventMessageStart then KMessageStart
  else if eqs typeName eventMessageUpdate then KMessageUpdate
  else if eqs typeName eventMessageEnd then KMessageEnd
  else if eqs typeName eventTurnEnd then KTurnEnd
  else if eqs typeName eventAgentEnd then KAgentEnd
  else if eqs typeName eventAutoRetryStart then KRetryStart
  else if eqs typeName eventAutoRetryEnd then KRetryEnd
  else if eqs typeName eventError then KError
  else if eqs typeName eventAgentSettled then KSettled
  else if HasPrefix typeName "session_" || HasPrefix typeName "agent_" || HasPrefix typeName "turn_" then KLifecycle
  else KTelemetry.

(** ** The machine *)

(** Before the first cycle; in a cycle before its first turn; in a turn, with a message open
    or not and the last finished answer; after the turn whose answer is [message], read
    from [value]; after the cycle that ended with [final], perhaps awaiting a retry. *)
Inductive position : Set :=
| Outside
| Opened
| InTurn (isOpen : bool) (last : option piCurrentMessage)
| TurnEnded (value : Value) (message : piCurrentMessage)
| CycleEnded (value : Value) (message final : piCurrentMessage) (awaiting : bool).

Record progress : Set := MkProgress {
  pg_session : option string; pg_where : position; pg_settled : bool; pg_failed : bool; pg_broken : bool; pg_aborted : bool }.

Definition start : progress := MkProgress None Outside false false false false.

Definition moveTo (w : position) (p : progress) : progress :=
  MkProgress (pg_session p) w (pg_settled p) (pg_failed p) (pg_broken p) (pg_aborted p).
Definition failing (b : bool) (p : progress) : progress :=
  MkProgress (pg_session p) (pg_where p) (pg_settled p) (pg_failed p || b) (pg_broken p) (pg_aborted p).
Definition aborting (b : bool) (p : progress) : progress :=
  MkProgress (pg_session p) (pg_where p) (pg_settled p) (pg_failed p) (pg_broken p) (pg_aborted p || b).

Section machine.
Context (orbit : Z -> Z) (native : bool).

(** The session a session event announces. *)
Definition announced (e : piCurrentEvent) : option string :=
  match piCurrentRequiredString (ev_fields e) "id" 128 with
  | Done id => if validSessionID id && negb (sessionVersionInvalid (ev_fields e)) && negb (sessionCwdInvalid (ev_fields e))
               then Some id else None
  | Fault _ => None
  end.

Definition messageOf (e : piCurrentEvent) (keepText : bool) : option (Value * piCurrentMessage) :=
  match ev_fields e !! "message"%string with
  | Some v => match decodePiCurrentMessage orbit v keepText with Done m => Some (v, m) | Fault _ => None end
  | None => None
  end.

Definition completed (m : piCurrentMessage) : bool :=
  match validateCompletedAssistantStopReason (pm_stopReason m) with Done _ => true | Fault _ => false end.

Definition assistant (m : piCurrentMessage) : bool := eqs (pm_role m) "assistant".

(** A message that reports a failure. *)
Definition bad (m : piCurrentMessage) : bool := negb (eqs (pm_errorMessage m) "") || failedAssistantStopReason (pm_stopReason m).

Definition sameAnswer (a b : piCurrentMessage) : bool := equalPiText (pm_text a) (pm_text b) && eqs (pm_stopReason a) (pm_stopReason b).

Definition agrees (last : option piCurrentMessage) (m : piCurrentMessage) : bool :=
  match last with Some l => sameAnswer l m | None => true end.

Definition finalOf (e : piCurrentEvent) : option (piCurrentMessage * bool) :=
  match ev_fields e !! "messages"%string with
  | Some v => match decodePiCurrentFinalMessage orbit v with Done r => Some r | Fault _ => None end
  | None => None
  end.

(** Whether a boolean field, read only under the native-outcome policy, has the value [b]. *)
Definition reports (name : string) (b : bool) (e : piCurrentEvent) : option bool :=
  if negb native then Some false
  else match piCurrentOptionalBool (ev_fields e) name with
       | Done (Some v) => Some (Bool.eqb v b)
       | Done None => Some false
       | Fault _ => None
       end.

Definition isDone {A} (r : outcome A) : bool := match r with Done _ => true | Fault _ => false end.

Definition silent (e : piCurrentEvent) : bool := native && piCurrentObservationalEvent (ev_typeName e).

(** The position after the event, or [None] where the stream is invalid. *)
Definition advance (p : progress) (e : piCurrentEvent) : option progress :=
  if silent e then Some p
  else if pg_settled p then None
  else
    match kindOf (ev_typeName e), pg_where p with
    | KTelemetry, _ => Some p
    | KError, w => Some (MkProgress (pg_session p) w false true true (pg_aborted p))
    | KSession, Outside =>
        match pg_session p, announced e with
        | None, Some id => Some (MkProgress (Some id) Outside false (pg_failed p) (pg_broken p) (pg_aborted p))
        | _, _ => None
        end
    | KAgentStart, Outside => match pg_session p with Some _ => Some (moveTo Opened p) | None => None end
    | KAgentStart, CycleEnded _ _ _ _ => Some (MkProgress (pg_session p) Opened false (pg_broken p) (pg_broken p) false)
    | KTurnStart, Opened | KTurnStart, TurnEnded _ _ => Some (moveTo (InTurn false None) p)
    | KMessageStart, InTurn false last => _ ← messageOf e false; Some (moveTo (InTurn true last) p)
    | KMessageUpdate, InTurn _ _ => if isDone (validateAssistantEvent orbit (ev_fields e)) then Some p else None
    | KMessageEnd, InTurn true last =>
        '(_, m) ← messageOf e true;
        if negb (assistant m) then Some (moveTo (InTurn false last) p)
        else if completed m then Some (failing (bad m) (moveTo (InTurn false (Some m)) p)) else None
    | KTurnEnd, InTurn false last =>
        '(v, m) ← messageOf e true;
        if isDone (validatePiCurrentToolResults orbit (ev_fields e)) && assistant m && completed m && agrees last m
        then Some (failing (bad m) (moveTo (TurnEnded v m) p)) else None
    | KAgentEnd, TurnEnded v m =>
        '(f, error) ← finalOf e;
        if sameAnswer m f && eqs (pm_errorMessage m) (pm_errorMessage f) &&
           (eqs (pm_stopReason f) "stop" || failedAssistantStopReason (pm_stopReason f))
        then Some (failing (bad f || error) (moveTo (CycleEnded v m f false) p)) else None
    | KRetryStart, CycleEnded v m f false => Some (moveTo (CycleEnded v m f true) p)
    | KRetryEnd, Opened | KRetryEnd, InTurn _ _ | KRetryEnd, TurnEnded _ _ => b ← reports "success" false e; Some (aborting b p)
    | KRetryEnd, CycleEnded _ _ _ awaiting =>
        if pg_failed p || awaiting then b ← reports "success" false e; Some (aborting b p) else None
    | KSettled, CycleEnded _ _ _ _ =>
        b ← reports "aborted" true e; Some (aborting b (MkProgress (pg_session p) (pg_where p) true (pg_failed p) (pg_broken p) (pg_aborted p)))
    | _, _ => None
    end.

Fixpoint follow (p : progress) (es : list piCurrentEvent) : option progress :=
  match es with
  | [] => Some p
  | e :: es' => p' ← advance p e; follow p' es'
  end.

(** ** The state that a position stands for *)
Definition lastIs (last : option piCurrentMessage) (s : eventState) : Prop :=
  match last with
  | None => ts_seen (es_currentLastMessage s) = false /\ es_lastMessageStopReason s = ""%string
  | Some m => es_currentLastMessage s = pm_text m /\ es_lastMessageStopReason s = pm_stopReason m /\
              ts_seen (pm_text m) = true /\ completed m = true
  end.

Definition answerIs (v : Value) (m : piCurrentMessage) (s : eventState) : Prop :=
  es_currentTurnText s = pm_text m /\ es_currentTurnMessageStart s = v_Start v /\ es_currentTurnMessageEnd s = v_End v /\
  es_turnStopReason s = pm_stopReason m /\ es_turnErrorMessage s = pm_errorMessage m.

Definition flags (s : eventState) (agent turn turnEnded agentEnded isOpen pending : bool) : Prop :=
  es_agentStarted s = agent /\ es_turnStarted s = turn /\ es_turnEnded s = turnEnded /\ es_agentEnded s = agentEnded /\
  es_messageOpen s = isOpen /\ es_retryPending s = pending.

Definition whereIs (w : position) (s : eventState) : Prop :=
  match w with
  | Outside => flags s false false false false false false /\ lastIs None s
  | Opened => flags s true false false false false false /\ lastIs None s
  | InTurn isOpen last => flags s true true false false isOpen false /\ lastIs last s
  | TurnEnded v m => flags s true true true false false false /\ answerIs v m s
  | CycleEnded v m f awaiting => flags s true true true true false awaiting /\ answerIs v m s /\
      (if eqs (pm_stopReason f) "stop" then es_currentAgentText s = pm_text f else es_providerFail s = true)
  end.

Record stands (p : progress) (s : eventState) : Prop := MkStands {
  st_current : es_current s = true;
  st_valid : es_semanticErr s = None;
  st_options : es_options s = MkOptions true true true true native;
  st_session : es_sessionSeen s = bool_decide (is_Some (pg_session p)) /\ (forall id, pg_session p = Some id -> es_sessionID s = id);
  st_settled : es_agentSettled s = pg_settled p;
  st_failed : es_providerFail s = pg_failed p;
  st_broken : es_stickyProviderFail s = pg_broken p;
  st_aborted : es_nativeOutcomeFailed s = pg_aborted p;
  st_where : whereIs (pg_where p) s;
  st_begun : pg_where p = Outside \/ is_Some (pg_session p)
}.
End machine.

(** ** The parser is the machine *)
Lemma eqs_eq a b : eqs a b = true <-> a = b.
Proof. unfold eqs. by rewrite bool_decide_eq_true. Qed.

(** An event is of a named kind, or its name is none of theirs. *)
Definition named : list (string * kind) :=
  [(eventSession, KSession); (eventAgentStart, KAgentStart); (eventTurnStart, KTurnStart); (eventMessageStart, KMessageStart);
   (eventMessageUpdate, KMessageUpdate); (eventMessageEnd, KMessageEnd); (eventTurnEnd, KTurnEnd); (eventAgentEnd, KAgentEnd);
   (eventAutoRetryStart, KRetryStart); (eventAutoRetryEnd, KRetryEnd); (eventError, KError); (eventAgentSettled, KSettled)].

Lemma kind_named t : (t, kindOf t) ∈ named \/ (forall name k, (name, k) ∈ named -> eqs t name = false) /\
  kindOf t = if HasPrefix t "session_" || HasPrefix t "agent_" || HasPrefix t "turn_" then KLifecycle else KTelemetry.
Proof.
  destruct (decide (t ∈ map fst named)) as [H|H].
  - left. assert (forallb (fun x => bool_decide ((x, kindOf x) ∈ named)) (map fst named) = true) as F by (vm_compute; reflexivity).
    rewrite forallb_forall in F. specialize (F t (proj1 (list_elem_of_In _ _) H)). by apply bool_decide_eq_true in F.
  - right. assert (forall name k, (name, k) ∈ named -> eqs t name = false) as Hq.
    { intros name k Hq. apply bool_decide_eq_false. intros ->. apply H, list_elem_of_fmap. by exists (name, k). }
    split; [exact Hq|]. unfold kindOf.
    rewrite (Hq eventSession KSession), (Hq eventAgentStart KAgentStart), (Hq eventTurnStart KTurnStart),
      (Hq eventMessageStart KMessageStart), (Hq eventMessageUpdate KMessageUpdate), (Hq eventMessageEnd KMessageEnd),
      (Hq eventTurnEnd KTurnEnd), (Hq eventAgentEnd KAgentEnd), (Hq eventAutoRetryStart KRetryStart),
      (Hq eventAutoRetryEnd KRetryEnd), (Hq eventError KError), (Hq eventAgentSettled KSettled)
      by (unfold named; set_solver). done.
Qed.

Section simulation.
Context (orbit : Z -> Z) (native : bool).

Lemma decoded_seen v keepText m : decodePiCurrentMessage orbit v keepText = Done m -> ts_seen (pm_text m) = true.
Proof.
  unfold decodePiCurrentMessage. intros H. repeat (match type of H with (?m ≫= _) = _ => destruct m eqn:?; [cbn [mbind outcome_bind] in H|done] end).
  match type of H with context [Done ?m = _] => idtac | context [let '(_, _) := ?u in _] => destruct u end. injection H as <-. cbn [pm_text].
  match goal with E : match summarizePiValues ?l with _ => _ end = Done _ |- _ => rename E into Et end.
  destruct (summarizePiValues _) as [plain|f] eqn:Es.
  - injection Et as <-. unfold summarizePiValues in Es. destruct (copyAll _ _); [|done]. by injection Es as <-.
  - unfold decodePiCurrentContentBlocks in Et. destruct (piCurrentNull _); [done|]. destruct (Array _ _ _) as [[|] w]; [|done].
    injection Et as <-. by destruct (_ && _).
Qed.

(** The dispatch of the parser, by the kind of the event. *)
Definition handle (e : piCurrentEvent) (s : eventState) : eventState :=
  match kindOf (ev_typeName e), es_agentEnded s with
  | KTelemetry, _ => s
  | KLifecycle, _ | KSettled, false => markSemantic "unknown lifecycle event" s
  | KError, _ => applyPiCurrentError s
  | KSession, false => applyPiCurrentSession (ev_fields e) s
  | KAgentStart, false => applyPiCurrentAgentStart s
  | KAgentStart, true => applyPiCurrentAgentStart (beginPiCurrentCycle s)
  | KTurnStart, false => applyPiCurrentTurnStart s
  | KMessageStart, false => applyPiCurrentMessageStart orbit (ev_fields e) s
  | KMessageUpdate, false => applyPiCurrentMessageUpdate orbit (ev_fields e) (ev_value e) s
  | KMessageEnd, false => applyPiCurrentMessageEnd orbit (ev_fields e) s
  | KTurnEnd, false => applyPiCurrentTurnEnd orbit (ev_fields e) s
  | KAgentEnd, false => applyPiCurrentAgentEnd orbit (ev_fields e) s
  | KAgentEnd, true => markSemantic "duplicate agent_end event" s
  | KRetryStart, _ => applyPiCurrentRetryStart s
  | KRetryEnd, false => if negb (es_agentStarted s) then markSemantic "auto_retry_end appears outside an active cycle" s
                        else applyPiCurrentRetryOutcome (ev_fields e) s
  | KRetryEnd, true => if po_rejectTrailingRetryEnd (es_options s) && negb (es_providerFail s) && negb (es_retryPending s)
                       then markSemantic "auto_retry_end appears after agent_end" s
                       else applyPiCurrentRetryOutcome (ev_fields e) s
  | KSettled, true => if es_agentSettled s then markSemantic "duplicate agent_settled event" s
                      else applyPiCurrentSettledOutcome (ev_fields e) (set_agentSettled true s)
  | _, true => markSemantic "event appears after agent_end" s
  end.

Lemma unknown_dispatch e s : (forall name k, (name, k) ∈ named -> eqs (ev_typeName e) name = false) ->
  (if es_agentEnded s
   then if eqs (ev_typeName e) eventAgentStart then applyPiCurrentAgentStart (beginPiCurrentCycle s)
        else applyPiCurrentAfterAgentEnd e s
   else applyPiCurrentBeforeAgentEnd orbit e s) = applyPiCurrentUnknownEvent (ev_typeName e) s.
Proof.
  intros Hq. unfold applyPiCurrentAfterAgentEnd, applyPiCurrentBeforeAgentEnd, isOneOf. cbn [existsb].
  rewrite (Hq eventSession KSession), (Hq eventAgentStart KAgentStart), (Hq eventTurnStart KTurnStart),
    (Hq eventMessageStart KMessageStart), (Hq eventMessageUpdate KMessageUpdate), (Hq eventMessageEnd KMessageEnd),
    (Hq eventTurnEnd KTurnEnd), (Hq eventAgentEnd KAgentEnd), (Hq eventAutoRetryStart KRetryStart),
    (Hq eventAutoRetryEnd KRetryEnd), (Hq eventError KError), (Hq eventAgentSettled KSettled)
    by (unfold named; set_solver). by destruct (es_agentEnded s).
Qed.

Lemma dispatched e s :
  (if es_agentEnded s
   then if eqs (ev_typeName e) eventAgentStart then applyPiCurrentAgentStart (beginPiCurrentCycle s)
        else applyPiCurrentAfterAgentEnd e s
   else applyPiCurrentBeforeAgentEnd orbit e s) = handle e s.
Proof.
  destruct (kind_named (ev_typeName e)) as [H|[Hq Hk]].
  - destruct e as [t fields value]. unfold handle. cbn [ev_typeName ev_fields ev_value] in *. revert H. generalize (kindOf t).
    unfold named. intros k H. rewrite !elem_of_cons, elem_of_nil in H.
    repeat (destruct H as [[= -> ->]|H]; [destruct (es_agentEnded s); reflexivity|]). done.
  - rewrite unknown_dispatch by done. unfold handle, applyPiCurrentUnknownEvent. rewrite Hk. by destruct (_ || _).
Qed.

Lemma applied p e s : stands native p s -> silent native e = false -> pg_settled p = false -> applyPiCurrentEvent orbit e s = handle e s.
Proof.
  intros [_ Hv Ho _ Hs _ _ _ _ _] Hn Hp. unfold applyPiCurrentEvent, semanticFault. rewrite Hv, Ho, Hs, Hp. cbn [po_nativeOutcome po_settledTerminal andb].
  unfold silent in Hn. rewrite Hn. apply dispatched.
Qed.

(** What one event does to a state that stands for a position. *)
Definition reaches (p : option progress) (s : eventState) : Prop :=
  match p with Some p' => stands native p' s | None => semanticFault s = true end.

Lemma mark_fault reason s : semanticFault (markSemantic reason s) = true.
Proof. unfold semanticFault, markSemantic. destruct (es_semanticErr s) eqn:E; [by rewrite E|done]. Qed.

(** Usage is telemetry: it leaves the position alone. *)
Ltac kept := intros [? ? ? [? ?] ? ? ? ? Hw ?]; constructor; cbn; try done; destruct (pg_where _); exact Hw.

Lemma stands_messageUsage u p s : stands native p s -> stands native p (set_messageUsage u s).
Proof. kept. Qed.
Lemma stands_messageUsageReliable b p s : stands native p s -> stands native p (set_messageUsageReliable b s).
Proof. kept. Qed.
Lemma stands_usage l p s : stands native p s -> stands native p (set_usage l s).
Proof. kept. Qed.
Lemma stands_usageReliable b p s : stands native p s -> stands native p (set_currentUsageReliable b s).
Proof. kept. Qed.
Lemma stands_usagePresent b p s : stands native p s -> stands native p (set_currentUsagePresent b s).
Proof. kept. Qed.

Create HintDb usage.
Hint Resolve stands_messageUsage stands_messageUsageReliable stands_usage stands_usageReliable stands_usagePresent : usage.

Lemma stands_observe u b p s : stands native p s -> stands native p (observeUsage u b s).
Proof. intros H. destruct u; cbn [observeUsage]; auto with usage. Qed.
Hint Resolve stands_observe : usage.

Lemma stands_update v p s : stands native p s -> stands native p (updateUsage orbit v s).
Proof. intros H. unfold updateUsage. destruct (usageOf orbit v) as [[u|] b]; auto with usage. Qed.

Lemma stands_append u b p s : stands native p s -> stands native p (appendPiCurrentUsage u b s).
Proof. intros H. destruct u; cbn [appendPiCurrentUsage]; [|done]. destruct (_ <=? _); auto with usage. Qed.
Hint Resolve stands_update stands_append : usage.

(** Failures. *)
Lemma stands_fail p s : stands native p s -> stands native (failing true p) (set_providerFail true s).
Proof.
  intros [? ? ? [? ?] ? ? ? ? Hw ?]. constructor; cbn; try done; [by rewrite orb_true_r|].
  destruct (pg_where _); try exact Hw. destruct Hw as (? & ? & Hw). split_and!; [done..|]. cbn. by destruct (eqs _ _).
Qed.

Lemma failing_false p : failing false p = p.
Proof. destruct p. unfold failing. cbn. by rewrite orb_false_r. Qed.

Lemma failing_twice a b p : failing b (failing a p) = failing (a || b) p.
Proof. unfold failing. cbn. by rewrite orb_assoc. Qed.

Lemma stands_failing (b : bool) p s : stands native p s -> stands native (failing b p) (if b then set_providerFail true s else s).
Proof. intros H. destruct b; [by apply stands_fail|by rewrite failing_false]. Qed.

Lemma stands_noted m p s : stands native p s -> stands native (failing (bad m) p) (noteStopReason m (noteErrorMessage m s)).
Proof.
  intros H. unfold bad, noteStopReason, noteErrorMessage. rewrite <- failing_twice. apply stands_failing. apply (stands_failing (negb (eqs (pm_errorMessage m) ""))) in H.
  by destruct (eqs _ _).
Qed.

(** Boolean fields of the native outcome. *)
Lemma stands_aborted b p s : stands native p s ->
  stands native (aborting b p) (if b then set_nativeOutcomeFailed true s else s).
Proof.
  intros [? ? ? [? ?] ? ? ? Ha Hw ?]. destruct b; constructor; cbn; try done; try (by rewrite ?orb_true_r, ?orb_false_r); destruct (pg_where _); exact Hw.
Qed.

Lemma retry_outcome p e s : stands native p s ->
  reaches (b ← reports native "success" false e; Some (aborting b p)) (applyPiCurrentRetryOutcome (ev_fields e) s).
Proof.
  intros H. unfold reports, applyPiCurrentRetryOutcome. rewrite (st_options _ _ _ H). cbn [po_nativeOutcome].
  pose proof (stands_aborted false p s H) as H0. pose proof (stands_aborted true p s H) as H1. destruct (negb native); [exact H0|].
  destruct (piCurrentOptionalBool _ _) as [[[]|]|]; cbn [mbind option_bind Bool.eqb];
    [exact H0|exact H1|exact H0|apply mark_fault].
Qed.

Lemma settled_outcome p e s : stands native p s ->
  reaches (b ← reports native "aborted" true e; Some (aborting b p)) (applyPiCurrentSettledOutcome (ev_fields e) s).
Proof.
  intros H. unfold reports, applyPiCurrentSettledOutcome. rewrite (st_options _ _ _ H). cbn [po_nativeOutcome].
  pose proof (stands_aborted false p s H) as H0. pose proof (stands_aborted true p s H) as H1. destruct (negb native); [exact H0|].
  destruct (piCurrentOptionalBool _ _) as [[[]|]|]; cbn [mbind option_bind Bool.eqb];
    [exact H1|exact H0|exact H0|apply mark_fault].
Qed.

(** ** One event *)

(** Rewrite the fields that the position fixes, and fault where the handler does. *)
Ltac fields_of s :=
  repeat match goal with
  | F : ?f s = ?v |- context [?f s] => rewrite F
  | F : ?f s = ?v, G : context [?f s] |- _ => progress rewrite F in G
  end; cbn [negb andb orb].

Ltac locate H p s :=
  destruct H as [? ? ? [? ?] ? ? ? ? Hw Hbegun];
  destruct (pg_where p) as [| |wasOpen latest|value message|value message final awaiting] eqn:Ew; cbn [whereIs] in Hw; unfold flags in Hw; destruct_and! Hw.

Ltac stand :=
  constructor; cbn [pg_session pg_where pg_settled pg_failed pg_broken pg_aborted moveTo failing aborting whereIs lastIs];
  unfold flags, lastIs, answerIs in *; repeat split; cbn; destruct_and?; try done; try congruence; try (by left); try (by right).

Ltac faults := repeat case_match; apply mark_fault.

Lemma sim_session p e s : stands native p s -> pg_settled p = false ->
  reaches (match pg_where p with
           | Outside => match pg_session p, announced e with
                        | None, Some id => Some (MkProgress (Some id) Outside false (pg_failed p) (pg_broken p) (pg_aborted p))
                        | _, _ => None
                        end
           | _ => None
           end) (if es_agentEnded s then markSemantic "event appears after agent_end" s else applyPiCurrentSession (ev_fields e) s).
Proof.
  intros H Hn. locate H p s; unfold applyPiCurrentSession; fields_of s; [|faults..].
  destruct (pg_session p) as [id|] eqn:Es; [rewrite bool_decide_true by done; apply mark_fault|].
  rewrite bool_decide_false by by intros []. unfold announced. destruct (piCurrentRequiredString _ _ _) as [id|]; [|apply mark_fault].
  destruct (validSessionID id), (sessionVersionInvalid _), (sessionCwdInvalid _); cbn; try apply mark_fault. stand.
Qed.

Lemma sim_agentStart p s : stands native p s -> pg_settled p = false ->
  reaches (match pg_where p with
           | Outside => match pg_session p with Some _ => Some (moveTo Opened p) | None => None end
           | CycleEnded _ _ _ _ => Some (MkProgress (pg_session p) Opened false (pg_broken p) (pg_broken p) false)
           | _ => None
           end) (if es_agentEnded s then applyPiCurrentAgentStart (beginPiCurrentCycle s) else applyPiCurrentAgentStart s).
Proof.
  intros H Hn. locate H p s; unfold applyPiCurrentAgentStart; fields_of s; [|rewrite ?orb_true_r; apply mark_fault..|].
  - destruct (pg_session p) as [id|] eqn:Es.
    + rewrite bool_decide_true by done. stand; rewrite ?Es; eauto.
    + rewrite bool_decide_false by by intros []. apply mark_fault.
  - destruct Hbegun as [?|Hid]; [congruence|].
    change (es_sessionSeen (beginPiCurrentCycle s)) with (es_sessionSeen s). fields_of s. rewrite bool_decide_true by done. cbn. stand.
Qed.

Lemma sim_turnStart p s : stands native p s ->
  reaches (match pg_where p with
           | Opened | TurnEnded _ _ => Some (moveTo (InTurn false None) p)
           | _ => None
           end) (if es_agentEnded s then markSemantic "event appears after agent_end" s else applyPiCurrentTurnStart s).
Proof.
  intros H. locate H p s; unfold applyPiCurrentTurnStart; fields_of s; try apply mark_fault; destruct Hbegun as [?|Hid]; try congruence; stand.
Qed.

Lemma message_value e keepText : messageOf orbit e keepText =
  match ev_fields e !! "message"%string with
  | Some v => match decodePiCurrentMessage orbit v keepText with Done m => Some (v, m) | Fault _ => None end
  | None => None
  end.
Proof. done. Qed.

(** The usage of a message, at any position. *)
Lemma stands_openMessage u b p s last : stands native p s -> pg_where p = InTurn false last ->
  stands native (moveTo (InTurn true last) p) (set_messageOpen true (set_messageUsageReliable true (set_messageUsage None (observeUsage u b s)))).
Proof.
  intros H Hp. apply (stands_observe u b) in H. revert H. generalize (observeUsage u b s). clear s. intros s H.
  locate H p s; simplify_eq. destruct Hbegun as [?|Hid]; [congruence|]. stand.
Qed.

Lemma sim_messageStart p e s : stands native p s ->
  reaches (match pg_where p with
           | InTurn false last => _ ← messageOf orbit e false; Some (moveTo (InTurn true last) p)
           | _ => None
           end) (if es_agentEnded s then markSemantic "event appears after agent_end" s else applyPiCurrentMessageStart orbit (ev_fields e) s).
Proof.
  intros H. pose proof H as H'. locate H p s; unfold applyPiCurrentMessageStart; fields_of s; try apply mark_fault.
  destruct wasOpen; [apply mark_fault|]. unfold messageOf. destruct (_ !! _) as [v|]; [|apply mark_fault].
  destruct (decodePiCurrentMessage _ _ _) as [m|]; [|apply mark_fault]. by apply stands_openMessage.
Qed.

Lemma sim_messageUpdate p e s : stands native p s ->
  reaches (match pg_where p with
           | InTurn _ _ => if isDone (validateAssistantEvent orbit (ev_fields e)) then Some p else None
           | _ => None
           end) (if es_agentEnded s then markSemantic "event appears after agent_end" s
                 else applyPiCurrentMessageUpdate orbit (ev_fields e) (ev_value e) s).
Proof.
  intros H. pose proof H as H'. locate H p s; unfold applyPiCurrentMessageUpdate; fields_of s; try apply mark_fault.
  destruct (validateAssistantEvent _ _); [by apply stands_update|apply mark_fault].
Qed.

(** A finished message of the assistant, once its usage has been booked. *)
Lemma stands_lastMessage m p s isOpen last : stands native p s -> pg_where p = InTurn isOpen last -> ts_seen (pm_text m) = true ->
  completed m = true ->
  stands native (moveTo (InTurn isOpen (Some m)) p)
    (set_lastMessageStopReason (pm_stopReason m) (set_lastMessageSeen true (set_currentLastMessage (pm_text m) s))).
Proof. intros H Hp Ht Hm. locate H p s; simplify_eq. destruct Hbegun as [?|Hid]; [congruence|]. stand. Qed.

Lemma stands_closed p s last : stands native p s -> pg_where p = InTurn true last ->
  stands native (moveTo (InTurn false last) p) (set_messageOpen false s).
Proof. intros H Hp. locate H p s; simplify_eq. destruct Hbegun as [?|Hid]; [congruence|]. stand. Qed.

Lemma sim_messageEnd p e s : stands native p s ->
  reaches (match pg_where p with
           | InTurn true last =>
               '(_, m) ← messageOf orbit e true;
               if negb (assistant m) then Some (moveTo (InTurn false last) p)
               else if completed m then Some (failing (bad m) (moveTo (InTurn false (Some m)) p)) else None
           | _ => None
           end) (if es_agentEnded s then markSemantic "event appears after agent_end" s else applyPiCurrentMessageEnd orbit (ev_fields e) s).
Proof.
  intros H. pose proof H as H'. locate H p s; unfold applyPiCurrentMessageEnd; fields_of s; try apply mark_fault.
  destruct wasOpen; [|apply mark_fault]. cbn [negb]. unfold messageOf. destruct (_ !! _) as [v|]; [|apply mark_fault].
  destruct (decodePiCurrentMessage _ _ _) as [m|] eqn:Em; [|apply mark_fault]. cbn [mbind option_bind].
  apply (stands_closed p s latest) in H'; [|done]. revert H'. generalize (set_messageOpen false s). intros s' Hs'.
  unfold assistant. destruct (eqs (pm_role m) _); [|exact Hs']. cbn [negb].
  destruct (completed m) eqn:Ec; unfold completed in Ec; destruct (validateCompletedAssistantStopReason _) eqn:Ev; try done; [|apply mark_fault].
  apply (stands_noted m) in Hs'. revert Hs'. generalize (noteStopReason m (noteErrorMessage m s')). intros s2 Hs2. cbn [reaches].
  assert (stands native (failing (bad m) (moveTo (InTurn false latest) p))
    (match pm_usage m with
     | Some _ => appendPiCurrentUsage (pm_usage m) (pm_usageReliable m) s2
     | None => appendPiCurrentUsage (es_messageUsage s2) (es_messageUsageReliable s2) s2
     end)) as Hs3 by (destruct (pm_usage m); by apply stands_append).
  apply stands_messageUsage with (u := None), stands_messageUsageReliable with (b := true) in Hs3.
  apply (stands_lastMessage m _ _ false latest) in Hs3; [exact Hs3|done|by eapply decoded_seen|].
  unfold completed. by rewrite Ev.
Qed.

(** The answer of a turn. *)
Lemma stands_answer v m p s last : stands native p s -> pg_where p = InTurn false last ->
  stands native (moveTo (TurnEnded v m) p)
    (set_turnEnded true (set_turnErrorMessage (pm_errorMessage m) (set_turnStopReason (pm_stopReason m)
      (set_currentTurnMessageEnd (v_End v) (set_currentTurnMessageStart (v_Start v) (set_currentTurnText (pm_text m) s)))))).
Proof. intros H Hp. locate H p s; simplify_eq. destruct Hbegun as [?|Hid]; [congruence|]. stand. Qed.

(** The comparison with the last finished message. *)
Lemma conflict_agrees m s last : lastIs last s ->
  (ts_seen (es_currentLastMessage s) && negb (equalPiText (es_currentLastMessage s) (pm_text m)) ||
   negb (eqs (es_lastMessageStopReason s) "") && negb (eqs (es_lastMessageStopReason s) (pm_stopReason m)))
  = negb (agrees last m).
Proof.
  destruct last as [l|]; cbn [lastIs agrees].
  - intros (-> & -> & Hs & Hc). rewrite Hs. unfold sameAnswer. cbn [andb].
    assert (eqs (pm_stopReason l) "" = false) as ->.
    { apply bool_decide_eq_false. intros E. unfold completed in Hc. rewrite E in Hc. by vm_compute in Hc. }
    by rewrite negb_andb.
  - intros [-> ->]. done.
Qed.

Lemma turnEnd_message m p s last : stands native p s -> pg_where p = InTurn false last ->
  match validatePiCurrentTurnEndMessage m s with
  | (None, s') => assistant m && completed m && agrees last m = true /\ stands native (failing (bad m) p) s'
  | (Some _, _) => assistant m && completed m && agrees last m = false
  end.
Proof.
  intros H Hp. unfold validatePiCurrentTurnEndMessage, assistant, completed. destruct (eqs (pm_role m) _); [|done]. cbn [negb andb].
  destruct (validateCompletedAssistantStopReason _); [|done]. cbn [andb]. pose proof (stands_noted m p s H) as Hn.
  revert Hn. generalize (noteStopReason m (noteErrorMessage m s)). intros s' Hn. pose proof (st_where _ _ _ Hn) as Hw.
  cbn [pg_where failing] in Hw. rewrite Hp in Hw. destruct Hw as [_ Hl%(conflict_agrees m)].
  destruct (ts_seen _ && negb _); [by destruct (agrees last m)|]. destruct (negb _ && negb _); by destruct (agrees last m).
Qed.

Lemma sim_turnEnd p e s : stands native p s ->
  reaches (match pg_where p with
           | InTurn false last =>
               '(v, m) ← messageOf orbit e true;
               if isDone (validatePiCurrentToolResults orbit (ev_fields e)) && assistant m && completed m && agrees last m
               then Some (failing (bad m) (moveTo (TurnEnded v m) p)) else None
           | _ => None
           end) (if es_agentEnded s then markSemantic "event appears after agent_end" s else applyPiCurrentTurnEnd orbit (ev_fields e) s).
Proof.
  intros H. pose proof H as H'. locate H p s; unfold applyPiCurrentTurnEnd; fields_of s; try apply mark_fault.
  destruct wasOpen; [apply mark_fault|]. unfold messageOf. destruct (_ !! _) as [v|]; [|apply mark_fault].
  destruct (decodePiCurrentMessage _ _ _) as [m|] eqn:Em; [|apply mark_fault]. cbn [mbind option_bind].
  destruct (validatePiCurrentToolResults _ _); [|apply mark_fault]. cbn [isDone andb].
  apply (stands_observe (pm_usage m) (pm_usageReliable m)) in H'. revert H'. generalize (observeUsage (pm_usage m) (pm_usageReliable m) s).
  intros s' Hs'. pose proof (turnEnd_message m p s' latest Hs' Ew) as Ht. destruct (validatePiCurrentTurnEndMessage m s') as [[reason|] s2].
  - rewrite Ht. apply mark_fault.
  - destruct Ht as [-> Hs2]. by apply (stands_answer v m _ _ latest) in Hs2.
Qed.

(** The end of a cycle. *)
Lemma stands_cycleEnd v m f b p s : stands native p s -> pg_where p = TurnEnded v m ->
  (eqs (pm_stopReason f) "stop" = false -> b = true) ->
  stands native (failing b (moveTo (CycleEnded v m f false) p))
    (set_agentEnded true (if eqs (pm_stopReason f) "stop" then set_currentAgentText (pm_text f) (if b then set_providerFail true s else s)
                          else set_providerFail true (if b then set_providerFail true s else s))).
Proof.
  intros H Hp Hb. locate H p s; simplify_eq. destruct Hbegun as [?|Hid]; [congruence|].
  destruct (eqs (pm_stopReason f) "stop") eqn:Es, b; try (discriminate (Hb eq_refl)); rewrite ?failing_false; stand;
    rewrite ?Es; try done; by rewrite orb_true_r.
Qed.

Lemma sim_agentEnd p e s : stands native p s ->
  reaches (match pg_where p with
           | TurnEnded v m =>
               '(f, error) ← finalOf orbit e;
               if sameAnswer m f && eqs (pm_errorMessage m) (pm_errorMessage f) &&
                  (eqs (pm_stopReason f) "stop" || failedAssistantStopReason (pm_stopReason f))
               then Some (failing (bad f || error) (moveTo (CycleEnded v m f false) p)) else None
           | _ => None
           end) (if es_agentEnded s then markSemantic "duplicate agent_end event" s else applyPiCurrentAgentEnd orbit (ev_fields e) s).
Proof.
  intros H. pose proof H as H'. locate H p s; unfold applyPiCurrentAgentEnd; fields_of s; try apply mark_fault.
  unfold finalOf. destruct (_ !! _) as [fv|]; [|apply mark_fault].
  destruct (decodePiCurrentFinalMessage _ _) as [[f error]|] eqn:Em; [|apply mark_fault]. cbn [mbind option_bind].
  apply (stands_observe (pm_usage f) (pm_usageReliable f)) in H'. revert H'. generalize (observeUsage (pm_usage f) (pm_usageReliable f) s).
  intros s1 Hs1. pose proof (stands_failing (negb (eqs (pm_errorMessage f) "") || error) p s1 Hs1) as Hs2.
  set (s2 := if _ || _ then _ else _) in *. pose proof (st_where _ _ _ Hs2) as Hw. cbn [pg_where failing] in Hw. rewrite Ew in Hw.
  destruct Hw as (_ & Ht & _ & _ & Hr & He). rewrite Ht, Hr, He, (st_options _ _ _ Hs2). cbn [po_requireAgentEndErrorMatch andb].
  unfold sameAnswer. destruct (eqs (pm_stopReason message) (pm_stopReason f)); [|rewrite andb_false_r; apply mark_fault].
  destruct (equalPiText (pm_text message) (pm_text f)); [|apply mark_fault].
  destruct (eqs (pm_errorMessage message) (pm_errorMessage f)); [|apply mark_fault]. cbn [negb andb].
  pose proof (stands_cycleEnd value message f (bad f || error) p s1 Hs1 Ew) as Hend. unfold bad in *.
  destruct (eqs (pm_stopReason f) "stop") eqn:Es; cbn [negb orb].
  - apply eqs_eq in Es. assert (failedAssistantStopReason (pm_stopReason f) = false) as Ef by (by rewrite Es).
    rewrite Ef, orb_false_r in *. by apply Hend.
  - destruct (failedAssistantStopReason (pm_stopReason f)); [|apply mark_fault]. rewrite orb_true_r in *. specialize (Hend (fun _ => eq_refl)).
    unfold s2. by destruct (_ || _).
Qed.

Lemma sim_retryStart p s : stands native p s ->
  reaches (match pg_where p with CycleEnded v m f false => Some (moveTo (CycleEnded v m f true) p) | _ => None end) (applyPiCurrentRetryStart s).
Proof.
  intros H. destruct H as [? ? ? [? ?] ? ? ? ? Hw Hbegun]. unfold applyPiCurrentRetryStart.
  destruct (pg_where p) as [| |wasOpen latest|value message|value message final awaiting] eqn:Ew; cbn [whereIs] in Hw; unfold flags in Hw;
    destruct_and! Hw; fields_of s; try apply mark_fault.
  destruct awaiting; [apply mark_fault|]. destruct Hbegun as [?|Hid]; [congruence|]. stand. by destruct (eqs (pm_stopReason final) "stop"); [|congruence].
Qed.

Lemma sim_retryEnd p e s : stands native p s ->
  reaches (match pg_where p with
           | Opened | InTurn _ _ | TurnEnded _ _ => b ← reports native "success" false e; Some (aborting b p)
           | CycleEnded _ _ _ awaiting =>
               if pg_failed p || awaiting then b ← reports native "success" false e; Some (aborting b p) else None
           | Outside => None
           end)
    (if es_agentEnded s
     then if po_rejectTrailingRetryEnd (es_options s) && negb (es_providerFail s) && negb (es_retryPending s)
          then markSemantic "auto_retry_end appears after agent_end" s else applyPiCurrentRetryOutcome (ev_fields e) s
     else if negb (es_agentStarted s) then markSemantic "auto_retry_end appears outside an active cycle" s
          else applyPiCurrentRetryOutcome (ev_fields e) s).
Proof.
  intros H. pose proof (retry_outcome p e s H) as Hr. locate H p s; fields_of s; try apply mark_fault; try exact Hr.
  cbn [po_rejectTrailingRetryEnd andb]. destruct (pg_failed p), awaiting; cbn [negb andb orb]; try exact Hr. apply mark_fault.
Qed.

Lemma sim_settled p e s : stands native p s -> pg_settled p = false ->
  reaches (match pg_where p with
           | CycleEnded _ _ _ _ =>
               b ← reports native "aborted" true e;
               Some (aborting b (MkProgress (pg_session p) (pg_where p) true (pg_failed p) (pg_broken p) (pg_aborted p)))
           | _ => None
           end)
    (if es_agentEnded s
     then if es_agentSettled s then markSemantic "duplicate agent_settled event" s
          else applyPiCurrentSettledOutcome (ev_fields e) (set_agentSettled true s)
     else markSemantic "unknown lifecycle event" s).
Proof.
  intros H Hn. assert (stands native (MkProgress (pg_session p) (pg_where p) true (pg_failed p) (pg_broken p) (pg_aborted p)) (set_agentSettled true s)) as H'.
  { destruct H as [? ? ? [? ?] ? ? ? ? Hw ?]. constructor; cbn [pg_session pg_where pg_settled pg_failed pg_broken pg_aborted]; try done; destruct (pg_where p); exact Hw. }
  apply (settled_outcome _ e) in H'. rewrite (st_settled _ _ _ H), Hn. pose proof (st_where _ _ _ H) as Hw. clear H.
  destruct (pg_where p); cbn [whereIs] in Hw; unfold flags in Hw; destruct_and! Hw;
    match goal with F : es_agentEnded s = _ |- _ => rewrite F end; [apply mark_fault..|exact H'].
Qed.

Lemma stands_error p s : stands native p s -> stands native (MkProgress (pg_session p) (pg_where p) (pg_settled p) true true (pg_aborted p)) (applyPiCurrentError s).
Proof.
  intros H%stands_fail. destruct H as [? ? ? [? ?] ? ? ? ? Hw ?]. constructor; cbn [pg_session pg_where pg_settled pg_failed pg_broken pg_aborted]; try done;
    cbn [pg_where failing] in Hw; destruct (pg_where p); exact Hw.
Qed.

(** The parser does what the machine does. *)
Lemma simulates p e s : stands native p s -> reaches (advance orbit native p e) (applyPiCurrentEvent orbit e s).
Proof.
  intros H. unfold advance. destruct (silent native e) eqn:Es.
  { unfold applyPiCurrentEvent. unfold semanticFault. rewrite (st_valid _ _ _ H), (st_options _ _ _ H). cbn [po_nativeOutcome].
    unfold silent in Es. by rewrite Es. }
  destruct (pg_settled p) eqn:Hn.
  { unfold applyPiCurrentEvent. unfold semanticFault. rewrite (st_valid _ _ _ H), (st_options _ _ _ H), (st_settled _ _ _ H), Hn.
    unfold silent in Es. cbn [po_nativeOutcome po_settledTerminal andb]. rewrite Es. apply mark_fault. }
  rewrite (applied p e s H Es Hn). unfold handle. destruct (kindOf (ev_typeName e)).
  - by apply (sim_session p e s).
  - by apply (sim_agentStart p s).
  - by apply (sim_turnStart p s).
  - by apply (sim_messageStart p e s).
  - by apply (sim_messageUpdate p e s).
  - by apply (sim_messageEnd p e s).
  - by apply (sim_turnEnd p e s).
  - by apply (sim_agentEnd p e s).
  - pose proof (sim_retryStart p s H) as Hr. by destruct (es_agentEnded s).
  - by apply (sim_retryEnd p e s).
  - by apply (sim_settled p e s).
  - pose proof (stands_error p s H) as Hr. rewrite Hn in Hr. by destruct (es_agentEnded s).
  - destruct (pg_where p), (es_agentEnded s); apply mark_fault.
  - by destruct (es_agentEnded s).
Qed.
End simulation.

(** ** What a stream looks like *)
Section traces.
Context (orbit : Z -> Z) (native : bool).

Definition isKind (k : kind) (e : piCurrentEvent) : bool := bool_decide (kindOf (ev_typeName e) = k).

(** Events that may come anywhere in a cycle. *)
Definition quiet (e : piCurrentEvent) : Prop :=
  silent native e = true \/ kindOf (ev_typeName e) ∈ [KRetryEnd; KError; KTelemetry].

(** Events of a turn. *)
Definition inTurn (e : piCurrentEvent) : Prop :=
  quiet e \/ kindOf (ev_typeName e) ∈ [KMessageStart; KMessageUpdate; KMessageEnd].

(** Events after a cycle. *)
Definition resting (e : piCurrentEvent) : Prop :=
  quiet e \/ kindOf (ev_typeName e) ∈ [KRetryStart; KSettled].

(** The last finished message of the assistant in the events of a turn. *)
Definition answerAfter (last : option piCurrentMessage) (e : piCurrentEvent) : option piCurrentMessage :=
  if isKind KMessageEnd e then
    match messageOf orbit e true with
    | Some (_, m) => if assistant m then Some m else last
    | None => last
    end
  else last.
Definition lastAnswer (body : list piCurrentEvent) : option piCurrentMessage := fold_left answerAfter body None.

(** The stream ends within a turn whose events are [body]. *)
Definition turnOpen (es body : list piCurrentEvent) : Prop :=
  exists before t, es = before ++ t :: body /\ kindOf (ev_typeName t) = KTurnStart /\ Forall inTurn body.

(** The last turn ended with the answer [m], read from [v]: the event that ended it carries
    it, and the last message of the turn, if any, says the same. *)
Definition turnDone (es : list piCurrentEvent) (v : Value) (m : piCurrentMessage) : Prop :=
  exists before e after body, es = before ++ e :: after /\ turnOpen before body /\ kindOf (ev_typeName e) = KTurnEnd /\
    messageOf orbit e true = Some (v, m) /\ assistant m = true /\ completed m = true /\ agrees (lastAnswer body) m = true /\
    Forall quiet after.

(** The last cycle ended after that turn with [f], the last message of the assistant that
    its end reports; the answers agree. *)
Definition cycleDone (es : list piCurrentEvent) (v : Value) (m f : piCurrentMessage) (awaiting : bool) : Prop :=
  exists before e after reported, es = before ++ e :: after /\ turnDone before v m /\ kindOf (ev_typeName e) = KAgentEnd /\
    finalOf orbit e = Some (f, reported) /\ sameAnswer m f = true /\ pm_errorMessage m = pm_errorMessage f /\
    Forall resting after /\ awaiting = existsb (isKind KRetryStart) after.

(** The one session event of the stream. *)
Definition sessionOnce (es : list piCurrentEvent) (id : string) : Prop :=
  exists before e after, es = before ++ e :: after /\ kindOf (ev_typeName e) = KSession /\ announced e = Some id /\
    Forall (fun e => isKind KSession e = false) (before ++ after).

Definition traceOf (es : list piCurrentEvent) (p : progress) : Prop :=
  match pg_where p with
  | Outside | Opened => True
  | InTurn _ last => exists body, turnOpen es body /\ last = lastAnswer body
  | TurnEnded v m => turnDone es v m /\ (pg_failed p = false -> bad m = false)
  | CycleEnded v m f awaiting => cycleDone es v m f awaiting /\ (pg_failed p = false -> bad m = false /\ bad f = false)
  end.

Record explains (es : list piCurrentEvent) (p : progress) : Prop := MkExplains {
  ex_where : traceOf es p;
  ex_session : match pg_session p with Some id => sessionOnce es id | None => Forall (fun e => isKind KSession e = false) es end;
  ex_error : pg_broken p = false -> Forall (fun e => isKind KError e = false) es;
  ex_broken : pg_broken p = true -> pg_failed p = true
}.

Lemma Forall_snoc {A} (P : A -> Prop) l x : Forall P l -> P x -> Forall P (l ++ [x]).
Proof. intros Hl Hx. apply Forall_app. split; [done|]. by apply Forall_singleton. Qed.

Lemma turnOpen_more es body e : turnOpen es body -> inTurn e -> turnOpen (es ++ [e]) (body ++ [e]).
Proof. intros (b & t & -> & Ht & HF) He. exists b, t. split_and!; [by rewrite <- app_assoc|done|]. by apply Forall_snoc. Qed.

Lemma turnDone_more es v m e : turnDone es v m -> quiet e -> turnDone (es ++ [e]) v m.
Proof.
  intros (b & x & a & body & -> & Ho & Hk & Hm & H1 & H2 & H3 & HF) He. exists b, x, (a ++ [e]), body.
  split_and!; try done; [by rewrite <- app_assoc|]. by apply Forall_snoc.
Qed.

Lemma cycleDone_more es v m f awaiting e : cycleDone es v m f awaiting -> resting e ->
  cycleDone (es ++ [e]) v m f (awaiting || isKind KRetryStart e).
Proof.
  intros (b & x & a & r & -> & Ht & Hk & Hf & H1 & H2 & HF & ->) He. exists b, x, (a ++ [e]), r.
  split_and!; try done; [by rewrite <- app_assoc|by apply Forall_snoc|].
  rewrite existsb_app. cbn. by rewrite orb_false_r.
Qed.

Lemma lastAnswer_snoc body e : lastAnswer (body ++ [e]) = answerAfter (lastAnswer body) e.
Proof. unfold lastAnswer. by rewrite fold_left_app. Qed.

Lemma answerAfter_other last e : isKind KMessageEnd e = false -> answerAfter last e = last.
Proof. unfold answerAfter. by intros ->. Qed.

Lemma isKind_of e k k' : kindOf (ev_typeName e) = k -> isKind k' e = bool_decide (k = k').
Proof. unfold isKind. by intros ->. Qed.

(** Observational events are of no kind the machine moves on. *)
Lemma silent_kind e : silent native e = true -> kindOf (ev_typeName e) = KLifecycle \/ kindOf (ev_typeName e) = KTelemetry.
Proof.
  unfold silent, piCurrentObservationalEvent. intros [_ [->%eqs_eq| ->%eqs_eq]%orb_true_iff]%andb_true_iff; vm_compute; auto.
Qed.

Lemma quiet_not_messageEnd e : quiet e -> isKind KMessageEnd e = false.
Proof.
  unfold isKind. intros [[->| ->]%silent_kind|H]; [done..|]. rewrite !elem_of_cons, elem_of_nil in H.
  destruct H as [->|[->|[->|[]]]]; done.
Qed.

Lemma quiet_not_retryStart e : quiet e -> isKind KRetryStart e = false.
Proof.
  unfold isKind. intros [[->| ->]%silent_kind|H]; [done..|]. rewrite !elem_of_cons, elem_of_nil in H.
  destruct H as [->|[->|[->|[]]]]; done.
Qed.

(** A quiet event leaves the trace of a position as it was, whatever it does to the flags. *)
Lemma trace_quiet es p p' e : traceOf es p -> quiet e -> pg_where p' = pg_where p -> (pg_failed p' = false -> pg_failed p = false) ->
  traceOf (es ++ [e]) p'.
Proof.
  intros H He Hw Hf. unfold traceOf in *. rewrite Hw. destruct (pg_where p) as [| |o last|v m|v m f aw]; try done.
  - destruct H as (body & Ho & ->). exists (body ++ [e]). split; [apply turnOpen_more; [done|by left]|].
    by rewrite lastAnswer_snoc, answerAfter_other by by apply quiet_not_messageEnd.
  - destruct H as [Ht Hb]. split; [by apply turnDone_more|auto].
  - destruct H as [Ht Hb]. split; [|auto]. apply (cycleDone_more _ _ _ _ _ e) in Ht; [|by left].
    by rewrite quiet_not_retryStart, orb_false_r in Ht.
Qed.

Lemma quiet_kind e k : kindOf (ev_typeName e) = k -> k ∈ [KRetryEnd; KError; KTelemetry] -> quiet e.
Proof. intros <- H. by right. Qed.

(** An event of a message within a turn. *)
Lemma trace_message es p p' e o last o' : traceOf es p -> pg_where p = InTurn o last ->
  kindOf (ev_typeName e) ∈ [KMessageStart; KMessageUpdate; KMessageEnd] -> pg_where p' = InTurn o' (answerAfter last e) ->
  traceOf (es ++ [e]) p'.
Proof.
  unfold traceOf. intros H Hw Hk Hw'. rewrite Hw in H. rewrite Hw'. destruct H as (body & Ho & ->). exists (body ++ [e]).
  split; [|by rewrite lastAnswer_snoc]. apply turnOpen_more; [done|by right].
Qed.

Lemma trace_turnEnd es p e v m last b : traceOf es p -> pg_where p = InTurn false last -> kindOf (ev_typeName e) = KTurnEnd ->
  messageOf orbit e true = Some (v, m) -> assistant m && completed m && agrees last m = true ->
  traceOf (es ++ [e]) (failing (b || bad m) (moveTo (TurnEnded v m) p)).
Proof.
  unfold traceOf. intros H Hw Hk Hm Hc. rewrite Hw in H. destruct H as (body & Ho & ->). cbn [pg_where failing moveTo pg_failed].
  apply andb_true_iff in Hc as [[Ha Hc]%andb_true_iff Hg]. split.
  - exists es, e, [], body. split_and!; try done; apply Forall_nil_2.
  - intros [_ [_ Hb]%orb_false_iff]%orb_false_iff. done.
Qed.

Lemma trace_agentEnd es p e v m f reported : traceOf es p -> pg_where p = TurnEnded v m -> kindOf (ev_typeName e) = KAgentEnd ->
  finalOf orbit e = Some (f, reported) -> sameAnswer m f = true -> eqs (pm_errorMessage m) (pm_errorMessage f) = true ->
  traceOf (es ++ [e]) (failing (bad f || reported) (moveTo (CycleEnded v m f false) p)).
Proof.
  unfold traceOf. intros H Hw Hk Hf Hs He%eqs_eq. rewrite Hw in H. destruct H as [Ht Hb]. cbn [pg_where failing moveTo pg_failed]. split.
  - exists es, e, [], reported. split_and!; try done; apply Forall_nil_2.
  - intros [Hp [Hbf _]%orb_false_iff]%orb_false_iff. auto.
Qed.

Lemma trace_resting es p p' e v m f awaiting : traceOf es p -> pg_where p = CycleEnded v m f awaiting ->
  kindOf (ev_typeName e) ∈ [KRetryStart; KSettled] -> pg_where p' = CycleEnded v m f (awaiting || isKind KRetryStart e) ->
  pg_failed p' = pg_failed p -> traceOf (es ++ [e]) p'.
Proof.
  unfold traceOf. intros H Hw Hk Hw' Hf. rewrite Hw in H. rewrite Hw', Hf. destruct H as [Ht Hb]. split; [|done].
  apply cycleDone_more; [done|by right].
Qed.

Lemma answerAfter_end last e v m : kindOf (ev_typeName e) = KMessageEnd -> messageOf orbit e true = Some (v, m) ->
  answerAfter last e = if assistant m then Some m else last.
Proof. intros Hk Hm. unfold answerAfter. by rewrite (isKind_of e _ _ Hk), Hm. Qed.

Ltac kind_in := rewrite !elem_of_cons; tauto.

Ltac quieted H K := intros [= <-]; apply (trace_quiet _ _ _ _ H); [right; rewrite K; kind_in|done|done].

Lemma trace_step es p e p' : traceOf es p -> advance orbit native p e = Some p' -> traceOf (es ++ [e]) p'.
Proof.
  intros H. unfold advance. destruct (silent native e) eqn:Es.
  { intros [= <-]. apply (trace_quiet es p); try done. by left. }
  destruct (pg_settled p); [done|]. destruct (kindOf (ev_typeName e)) eqn:K; try done; destruct (pg_where p) as [| |o last|v m|v m f aw] eqn:W; try done.
  - destruct (pg_session p), (announced e); try done. by intros [= <-].
  - destruct (pg_session p); try done. by intros [= <-].
  - by intros [= <-].
  - intros [= <-]. exists []. split; [|done]. exists es, e. split_and!; try done; apply Forall_nil_2.
  - intros [= <-]. exists []. split; [|done]. exists es, e. split_and!; try done; apply Forall_nil_2.
  - destruct o; [done|]. destruct (messageOf _ _ _); [|done]. intros [= <-].
    apply (trace_message es p _ e false last true); [done|done|rewrite K; kind_in|].
    cbn. by rewrite answerAfter_other by by rewrite (isKind_of e _ _ K).
  - destruct (isDone _); [|done]. intros [= <-]. apply (trace_message es p _ e o last o); [done|done|rewrite K; kind_in|].
    by rewrite answerAfter_other by by rewrite (isKind_of e _ _ K).
  - destruct o; [|done]. destruct (messageOf orbit e true) as [[v m]|] eqn:Em; [|done]. cbn [mbind option_bind].
    pose proof (answerAfter_end last e v m K Em) as Ha.
    destruct (assistant m); cbn [negb]; [destruct (completed m); [|done]|]; intros [= <-];
      (apply (trace_message es p _ e true last false); [done|done|rewrite K; kind_in|by rewrite Ha]).
  - destruct o; [done|]. destruct (messageOf orbit e true) as [[v m]|] eqn:Em; [|done]. cbn [mbind option_bind].
    destruct (isDone _); [|done]. cbn [andb]. destruct (assistant m && completed m && agrees last m) eqn:Ec; [|done]. intros [= <-].
    by apply (trace_turnEnd es p e v m last false).
  - destruct (finalOf orbit e) as [[f r]|] eqn:Ef; [|done]. cbn [mbind option_bind].
    destruct (sameAnswer m f) eqn:E1; [|done]. destruct (eqs (pm_errorMessage m) _) eqn:E2; [|done]. cbn [andb].
    destruct (_ || _) in |- *; [|done]. intros [= <-]. by apply (trace_agentEnd es p e v m f r).
  - destruct aw; [done|]. intros [= <-]. apply (trace_resting es p _ e v m f false); [done|done|rewrite K; kind_in| |done].
    cbn. by rewrite (isKind_of e _ _ K).
  - destruct (reports _ _ _ _) as [b|]; [|done]. quieted H K.
  - destruct (reports _ _ _ _) as [b|]; [|done]. quieted H K.
  - destruct (reports _ _ _ _) as [b|]; [|done]. quieted H K.
  - destruct (_ || aw); [|done]. destruct (reports _ _ _ _) as [b|]; [|done]. quieted H K.
  - destruct (reports _ _ _ _) as [b|]; [|done]. intros [= <-]. apply (trace_resting es p _ e v m f aw); [done|done|rewrite K; kind_in| |done].
    cbn. by rewrite (isKind_of e _ _ K), orb_false_r.
  - quieted H K.
  - quieted H K.
  - quieted H K.
  - quieted H K.
  - quieted H K.
  - quieted H K.
  - quieted H K.
  - quieted H K.
  - quieted H K.
  - quieted H K.
Qed.

(** Every way in which an event can be accepted. *)
Ltac accepted H :=
  repeat first [progress simplify_eq/= | apply bind_Some in H as (? & ? & H) | case_match].

(** What an event does to the session and to the errors. *)
Lemma advance_session p e p' : advance orbit native p e = Some p' ->
  (pg_session p' = pg_session p /\ isKind KSession e = false) \/
  (pg_session p = None /\ kindOf (ev_typeName e) = KSession /\ exists id, announced e = Some id /\ pg_session p' = Some id).
Proof.
  unfold advance, isKind. destruct (silent native e) eqn:Es.
  { intros [= <-]. left. split; [done|]. by destruct (silent_kind e Es) as [-> | ->]. }
  destruct (pg_settled p); [done|]. destruct (kindOf (ev_typeName e)) eqn:K;
    try (intros H; left; split; [|done]; accepted H; done).
  destruct (pg_where p); try done. destruct (pg_session p); [done|]. destruct (announced e) as [id|]; [|done].
  intros [= <-]. right. eauto.
Qed.

Lemma advance_error p e p' : advance orbit native p e = Some p' -> (pg_broken p = true -> pg_failed p = true) ->
  (pg_broken p' = false -> pg_broken p = false /\ isKind KError e = false) /\ (pg_broken p' = true -> pg_failed p' = true).
Proof.
  unfold advance, isKind. destruct (silent native e) eqn:Es.
  { intros [= <-] Hb. split; [|done]. intros ?. split; [done|]. by destruct (silent_kind e Es) as [-> | ->]. }
  destruct (pg_settled p); [done|]. destruct (kindOf (ev_typeName e)) eqn:K; intros H Hb; accepted H;
    (split; [intros; try done; by split|intros; try done; by rewrite ?Hb]).
Qed.

Lemma explains_step es p e p' : explains es p -> advance orbit native p e = Some p' -> explains (es ++ [e]) p'.
Proof.
  intros [Ht Hs He Hb] Ha. destruct (advance_error p e p' Ha Hb) as [He' Hb']. constructor; [by eapply trace_step| | |exact Hb'].
  - destruct (advance_session p e p' Ha) as [[-> Hk]|(Hn & Hk & id & Hi & ->)].
    + destruct (pg_session p) as [id|]; [|by apply Forall_snoc]. destruct Hs as (b & x & a & -> & H1 & H2 & H3).
      exists b, x, (a ++ [e]). split_and!; [by rewrite <- app_assoc|done|done|]. rewrite app_assoc. by apply Forall_snoc.
    + rewrite Hn in Hs. exists es, e, []. split_and!; try done. by rewrite app_nil_r.
  - intros [H1 H2]%He'. apply Forall_snoc; auto.
Qed.

Lemma explains_start : explains [] start.
Proof. constructor; try done; intros; apply Forall_nil_2. Qed.

Lemma follow_snoc p es e : follow orbit native p (es ++ [e]) = p' ← follow orbit native p es; advance orbit native p' e.
Proof.
  revert p. induction es as [|x es IH]; intros p; cbn.
  - by destruct (advance orbit native p e).
  - destruct (advance orbit native p x); [apply IH|done].
Qed.

Lemma follow_explains es p : follow orbit native start es = Some p -> explains es p.
Proof.
  revert p. induction es as [|e es IH] using rev_ind; intros p; [intros [= <-]; exact explains_start|].
  rewrite follow_snoc. intros (p' & H & Ha)%bind_Some. eapply explains_step; eauto.
Qed.
End traces.
