(* ===== verification/PiTheorems.v ===== *)
(** * The answer of a Pi task

    The bytes of the evidence under the machine of [PiProtocol]: the records of a stream,
    the answer that is copied from it, and what a committed interpretation stands for. *)
From S2P Require Import Prelude GoErrors GoTime GoText TaskTypes Encoding GoPath GoTimestamp TaskLifetime LifetimeClosure ControlDir.
From S2P Require Import TaskConfiguration TaskRecords TaskReducer TaskPublication ProviderJson ProviderJsonGrammar ProviderJsonSound ProviderJsonRecords.
From S2P Require Import PiEvidence PiProtocol TaskReducerTheorems TaskFixture.
From Stdlib Require Import Ascii.
#[local] Open Scope Z_scope.

#[local] Open Scope cursor_scope.

Lemma bind_run {A B} (m : C A) (k : A -> C B) c a c1 : m c = (Done a, c1) -> bind m k c = k a c1.
Proof. unfold bind. by intros ->. Qed.

(** ** Selecting fewer fields *)
Section selection.
Context (orbit : Z -> Z).

Lemma selectField_Done fields names key v r : selectField orbit fields names key v = Done r ->
  (forall name, name ∈ names -> EqualFold orbit key name = true -> key = name /\ fields !! name = None) /\
  r = if decide (key ∈ names) then <[key := v]> fields else fields.
Proof.
  revert fields. induction names as [|n names IH]; intros fields; cbn.
  - intros [= <-]. split; [intros ? []%elem_of_nil|]. by destruct (decide _) as [[]%elem_of_nil|].
  - destruct (EqualFold orbit key n) eqn:Ef; cbn [negb].
    + destruct (bool_decide (is_Some (fields !! n))) eqn:Eb; [done|]. destruct (eqs key n) eqn:Ee; [|done]. cbn [negb orb].
      apply eqs_eq in Ee as ->. apply bool_decide_eq_false in Eb. rewrite <- eq_None_not_Some in Eb. intros [H1 H2]%IH.
      assert (n ∉ names) as Hn.
      { intros Hin. destruct (H1 n Hin Ef) as [_ Hx]. by rewrite lookup_insert_eq in Hx. }
      split.
      * intros name [->|Hin]%elem_of_cons Hf; [done|]. destruct (H1 name Hin Hf) as [<- _]. done.
      * subst r. rewrite decide_False by done. by rewrite decide_True by by left.
    + intros [H1 H2]%IH. split.
      * intros name [->|Hin]%elem_of_cons Hf; [congruence|]. auto.
      * subst r. assert (key <> n) as Hk.
        { intros ->. unfold EqualFold in Ef. by rewrite bool_decide_true in Ef. }
        destruct (decide (key ∈ names)); [by rewrite decide_True by by right|].
        rewrite decide_False; [done|]. rewrite elem_of_cons. tauto.
Qed.

Context (names names' : list string) (Hnodup : NoDup names') (Hsub : forall n, n ∈ names' -> n ∈ names).

Definition agree (m m' : gmap string Value) : Prop := forall n, n ∈ names' -> m' !! n = m !! n.

Lemma selectField_subset fields fields' key v r : agree fields fields' -> selectField orbit fields names key v = Done r ->
  exists r', selectField orbit fields' names' key v = Done r' /\ agree r r'.
Proof.
  intros Ha [H1 ->]%selectField_Done.
  assert (forall l f, NoDup l -> (forall n, n ∈ l -> n ∈ names') -> (forall n, n ∈ l -> f !! n = fields !! n) ->
    selectField orbit f l key v = Done (if decide (key ∈ l) then <[key := v]> f else f)) as Hl.
  { induction l as [|n l IH]; intros f Hn Hin Hf; cbn; [by rewrite decide_False by by intros []%elem_of_nil|].
    apply NoDup_cons in Hn as [Hnl Hn]. destruct (EqualFold orbit key n) eqn:Ef; cbn [negb].
    - destruct (H1 n) as [-> He]; [apply Hsub, Hin; by left|done|]. rewrite (Hf n), He by by left.
      rewrite bool_decide_false by by intros []. unfold eqs. rewrite bool_decide_true by done. cbn [negb orb].
      rewrite (decide_True) by by left. rewrite IH; [by rewrite decide_False|done|intros; apply Hin; by right|].
      intros k Hk. rewrite lookup_insert_ne by by intros ->. apply Hf. by right.
    - rewrite IH; [|done|intros; apply Hin; by right|intros; apply Hf; by right].
      assert (key <> n) as Hk by (intros ->; unfold EqualFold in Ef; by rewrite bool_decide_true in Ef).
      destruct (decide (key ∈ l)); [by rewrite decide_True by by right|]. rewrite decide_False; [done|]. rewrite elem_of_cons. tauto. }
  exists (if decide (key ∈ names') then <[key := v]> fields' else fields'). split; [by apply Hl|].
  intros n Hn. destruct (decide (key = n)) as [->|Hk].
  - rewrite !decide_True by auto. by rewrite !lookup_insert_eq.
  - repeat case_decide; rewrite ?lookup_insert_ne by done; by apply Ha.
Qed.

Lemma objectLoop_subset fuel reader fields fields' c m c' : agree fields fields' ->
  objectLoop orbit fuel reader names fields c = (Done m, c') ->
  exists m', objectLoop orbit fuel reader names' fields' c = (Done m', c') /\ agree m m'.
Proof.
  revert fields fields' c. induction fuel as [|fuel IH]; intros fields fields' c Ha; cbn [objectLoop]; [done|].
  intros ([k v] & c1 & Hm & H)%bind_Done. cbn [fst snd] in H. apply bind_Done in H as (fs & c2 & Hs & H).
  apply bind_Done in H as (b & c3 & Hb & H). rewrite (bind_run _ _ _ _ _ Hm). cbn [fst snd].
  assert (exists fs', (match k with Some key => fun c => (selectField orbit fields' names' key v, c) | None => ret fields' end) c1 = (Done fs', c2)
    /\ agree fs fs') as (fs' & Hs' & Ha').
  { destruct k as [key|]; cbn in *.
    - injection Hs as Hs <-. destruct (selectField_subset _ _ _ _ _ Ha Hs) as (fs' & -> & Ha'). by exists fs'.
    - injection Hs as <- <-. by exists fields'. }
  rewrite (bind_run _ _ _ _ _ Hs'), (bind_run _ _ _ _ _ Hb). destruct (bool_decide (b = "}"%char)); [|by apply (IH fs)].
  injection H as <- <-. by exists fs'.
Qed.

(** Fewer names are selected from the same object, with the same values. *)
Lemma Object_subset v m : Object orbit v names = Done m -> exists m', Object orbit v names' = Done m' /\ agree m m'.
Proof.
  unfold Object. destruct (valid v) as [r|f]; [|done]. unfold run. set (c := section _ _ _).
  set (X := expect _ ;;; _). set (Y := expect _ ;;; _). intros H.
  assert (exists c', X c = (Done m, c')) as [c' HX] by (destruct (X c) as [o c']; cbn in H; subst o; eauto). subst X.
  apply bind_Done in HX as (u & c1 & H1 & HX). apply bind_Done in HX as (b & c2 & H2 & HX).
  subst Y. cbn beta. rewrite (bind_run _ _ _ _ _ H1), (bind_run _ _ _ _ _ H2). destruct (bool_decide (b = "}"%char)).
  - exists m. split; [by rewrite HX|done].
  - apply bind_Done in HX as (fs & c3 & H3 & HX). unfold withFuel in H3.
    destruct (objectLoop_subset _ _ ∅ ∅ c2 fs c3 (fun _ _ => eq_refl) H3) as (fs' & H3' & Ha).
    rewrite (bind_run (withFuel (fun fuel => objectLoop orbit fuel (v_Reader v) names' ∅)) _ _ _ _ H3'). apply bind_Done in HX as (u' & c4 & H4 & HX). rewrite (bind_run _ _ _ _ _ H4).
    injection HX as <- <-. by exists fs'.
Qed.
End selection.

(** ** The two readings of an answer *)
Section answers.
Context (orbit : Z -> Z).

(** A visitor that succeeds wherever another does. *)
Lemma Array_related {S T} (visit : Value -> S -> option fault * S) (visit' : Value -> T -> option fault * T) (R : S -> T -> Prop) v s s' t :
  (forall x s t s', R s t -> visit x s = (None, s') -> exists t', visit' x t = (None, t') /\ R s' t') ->
  R s t -> Array visit v s = (Done tt, s') -> exists t', Array visit' v t = (Done tt, t') /\ R s' t'.
Proof.
  intros Hv HR. unfold Array. destruct (valid v) as [r|f]; [|done].
  destruct ((expect "[" ;;; peek) _) as [[b|f] c]; [|done]. destruct (bool_decide (b = "]"%char)).
  { intros [= -> <-]. eauto. }
  assert (forall fuel s s' t c o c', R s t -> arrayLoop visit fuel (v_Reader v) s c = (Done o, c', s') ->
    exists t', arrayLoop visit' fuel (v_Reader v) t c = (Done o, c', t') /\ R s' t') as Hl.
  { induction fuel as [|fuel IH]; intros x x' y d o d' Hxy; cbn [arrayLoop]; [done|].
    destruct ((space ;;; _) d) as [[start|f] c1]; [|done].
    destruct (visit _ x) as [[f|] x1] eqn:Ex; [done|]. destruct (Hv _ _ _ _ Hxy Ex) as (y1 & -> & H1).
    destruct (separator "]" c1) as [[b'|f] c2]; [|done]. destruct (bool_decide (b' = "]"%char)).
    - intros [= H <-]. exists y1. by rewrite H.
    - by apply IH. }
  destruct (arrayLoop visit _ _ s c) as [[o d] x] eqn:E. intros [= -> ->].
  destruct (Hl _ _ _ _ _ _ _ HR E) as (t' & -> & Ht). eauto.
Qed.

(** An array is not a string. *)
Lemma array_not_string {S} (visit : Value -> S -> option fault * S) v s s' : Array visit v s = (Done tt, s') ->
  exists code offset field, CopyString v = Fault (FieldError code offset field).
Proof.
  unfold Array, CopyString. destruct (valid v) as [r|f]; [|done]. set (c := section _ _ _).
  destruct ((expect "[" ;;; peek) c) as [[b|f] c1] eqn:E; [|done]. intros _.
  apply bind_Done in E as (u & c2 & E & _). unfold expect in E. apply bind_Done in E as (u' & c3 & E1 & E).
  apply bind_Done in E as (x & c4 & E2 & E). destruct (bool_decide (x = "["%char)) eqn:Ex; [|done]. apply bool_decide_eq_true in Ex as ->.
  unfold run, stringValue, expect. unfold bind at 1 2 3. rewrite E1. unfold bind at 1. rewrite E2. cbn. eauto.
Qed.

(** What a summary says of the text it was made from. *)
Definition summarizes (s : piTextSummary) (text : list ascii) : Prop :=
  ts_digest s = ComputeSHA256 (str text) /\ ts_length s = Z.of_nat (length text) /\ (ts_nonblank s = true -> text <> []).

Definition written (w : piSummaryWriter) (out : list ascii) : Prop :=
  sw_hash w = out /\ sw_length w = Z.of_nat (length out) /\ (sw_nonblank w = true -> out <> []).

Lemma written_more w out p : written w out -> written (Write w p) (out ++ p).
Proof.
  intros (H1 & H2 & H3). unfold Write, written. cbn [sw_hash sw_length sw_nonblank]. split_and!; [by rewrite H1|rewrite H2, length_app; lia|].
  intros Hb Hn. apply app_eq_nil in Hn as [-> ->]. apply orb_true_iff in Hb as [Hb|Hb]; [by destruct (H3 Hb)|]. done.
Qed.

Lemma written_summary w out : written w out -> summarizes (summary w) out.
Proof. intros (H1 & H2 & H3). unfold summary, summarizes. cbn. by rewrite H1. Qed.

Lemma block_related x w out w' : written w out -> visitContentBlock orbit true x w = (None, w') ->
  exists out', copyContentBlock orbit x out = (None, out') /\ written w' out'.
Proof.
  intros HR. unfold visitContentBlock, copyContentBlock. destruct (Object orbit x ["type"%string]) as [fields|]; [|done]. cbn [orRaise mbind outcome_bind].
  destruct (piCurrentRequiredString fields "type" 128) as [k|]; [|done]. cbn [orRaise mbind outcome_bind].
  destruct (negb (eqs k "text")); [intros [= <-]; eauto|].
  destruct (Object orbit x ["text"%string]) as [tf|]; [|done]. cbn [mbind outcome_bind].
  destruct (tf !! "text"%string) as [t|]; [|done]. cbn [mbind outcome_bind].
  destruct (CopyString t) as [p|]; [|done]. cbn [mbind outcome_bind]. intros [= <-]. exists (out ++ p). split; [done|]. by apply written_more.
Qed.

(** The message that was summarized is the message that is copied. *)
Lemma message_copied v m : decodePiCurrentMessage orbit v true = Done m -> assistant m = true ->
  exists text, copyPiMessageValue orbit v [] = (None, text) /\ summarizes (pm_text m) text.
Proof.
  unfold decodePiCurrentMessage. destruct (Object orbit v messageNames) as [fields|] eqn:Eo; [|done]. cbn [orRaise mbind outcome_bind].
  destruct (Object_subset orbit messageNames ["role"; "content"]%string) with (v := v) (m := fields) as (fields' & Eo' & Ha); [| |exact Eo|].
  { repeat constructor; set_solver. }
  { unfold messageNames. set_solver. }
  assert (fields' !! "content"%string = fields !! "content"%string) as Hc by (apply Ha; set_solver).
  destruct (piCurrentRequiredString fields "role" 128) as [role|]; [|done]. cbn [orRaise mbind outcome_bind].
  destruct (fields !! "content"%string) as [content|]; [|done]. cbn [mbind outcome_bind]. intros H Hr.
  assert (exists text, (match summarizePiValues [content] with
      | Done plain => Done plain
      | Fault _ => decodePiCurrentContentBlocks orbit content (true && eqs role "assistant")
      end) = Done text /\ pm_text m = text /\ pm_role m = role) as (text & Et & -> & Er).
  { destruct (match summarizePiValues [content] with Done plain => _ | Fault _ => _ end) as [text|]; [|done]. cbn [mbind outcome_bind] in H.
    destruct (optionalStopReason fields); [|done]. cbn [mbind outcome_bind] in H. destruct (optionalErrorMessage fields); [|done].
    cbn [mbind outcome_bind] in H. destruct (usageOf orbit v). injection H as <-. eauto. }
  unfold assistant in Hr. rewrite Er in Hr. rewrite Hr in Et. clear H Er Hr. unfold copyPiMessageValue. rewrite Eo', Hc.
  unfold summarizePiValues in Et. cbn [copyAll] in Et. destruct (CopyString content) as [p|f] eqn:Ec; cbn [mbind outcome_bind] in Et.
  - injection Et as <-. exists p. split; [done|]. apply written_summary. apply (written_more newWriter []). by split_and!.
  - unfold decodePiCurrentContentBlocks in Et. destruct (piCurrentNull content); [done|]. cbn [andb] in Et.
    destruct (Array _ content newWriter) as [[u|] w] eqn:Ea; [|done]. cbn [mbind outcome_bind] in Et. injection Et as <-. destruct u.
    destruct (array_not_string _ _ _ _ Ea) as (code & offset & field & Es). rewrite Ec in Es. injection Es as ->.
    destruct (Array_related (visitContentBlock orbit true) (copyContentBlock orbit) written content newWriter w []
      (fun x a b a' => block_related x a b a') ltac:(by split_and!) Ea) as (out & -> & Hw).
    exists out. split; [done|]. by apply written_summary.
Qed.
End answers.

(** ** The records of a sealed stream *)
Fixpoint splitLines (l : list ascii) : list (list ascii) * list ascii :=
  match l with
  | [] => ([], [])
  | b :: l' =>
      let '(ls, last) := splitLines l' in
      if bool_decide (b = newline) then ([] :: ls, last)
      else match ls with [] => ([], b :: last) | r :: ls' => ((b :: r) :: ls', last) end
  end.

Definition framesOf (content : list ascii) : list (Z * Z * Z) := placedLines 0 0 (fst (splitLines content)) (snd (splitLines content)).

Definition valueAt (content : list ascii) (p : Z * Z * Z) : Value := MkValue (Some (MkReaderAt content None)) p.1.1 p.1.2.

(** The ranges of the lines of a stream; a last line without a newline counts if it is not empty. *)
Definition recordsOf (content : list ascii) : list Value := map (valueAt content) (framesOf content).

Lemma splitLines_spec l : let '(ls, last) := splitLines l in
  linesText ls last = l /\ Forall (fun r => newline ∉ r) ls /\ newline ∉ last /\ (length ls <= length l)%nat.
Proof.
  induction l as [|b l IH]; cbn [splitLines]; [split_and!; [done|apply Forall_nil_2|set_solver|done]|].
  destruct (splitLines l) as [ls last]. destruct IH as (H1 & H2 & H3 & H4).
  destruct (bool_decide (b = newline)) eqn:E.
  - apply bool_decide_eq_true in E as ->. split_and!; [unfold linesText; cbn; by rewrite <- H1|constructor; [set_solver|done]|done|cbn; lia].
  - apply bool_decide_eq_false in E. destruct ls as [|r ls].
    + split_and!; [unfold linesText in *; cbn in *; by rewrite H1|apply Forall_nil_2|set_solver|cbn; lia].
    + apply Forall_cons in H2 as [Hr H2]. split_and!; [unfold linesText in *; cbn in *; by rewrite H1|constructor; [set_solver|done]|done|cbn in *; lia].
Qed.

Lemma readsOf_chunks fuel l : (length l <= fuel)%nat -> exists chunks, readsOf fuel l = map full chunks /\ concat chunks = l /\
  Forall (fun c => 0 < Z.of_nat (length c) <= BufferSize) chunks.
Proof.
  revert l. induction fuel as [|fuel IH]; intros [|x l] Hl; try (exists []; split_and!; [done|done|apply Forall_nil_2]); [cbn in Hl; lia|].
  cbn [readsOf]. assert (Z.of_nat (Z.to_nat BufferSize) = BufferSize) as HB by by apply Z2Nat.id. revert HB.
  generalize (Z.to_nat BufferSize). intros size HB. assert (0 < Z.of_nat size) as Hs by by rewrite HB.
  destruct (IH (drop size (x :: l))) as (cs & E & Hc & HF); [rewrite length_drop; cbn [length] in *; lia|].
  exists (take size (x :: l) :: cs). rewrite E. split_and!; [done|cbn [concat]; by rewrite Hc, take_drop|].
  constructor; [|done]. rewrite length_take. cbn [length]. lia.
Qed.

Lemma Records_sealed {S} content reader (visit : Value -> Z -> S -> option error * S) s : Z.of_nat (length content) < 2 ^ 63 ->
  Records (Some (sealedReads content)) (Some reader) visit s =
    let '(fault, s') := visitAll (fun start stop line => visit (MkValue (Some reader) start stop) line) (framesOf content) s in
    (fault, None, s').
Proof.
  intros Hl. destruct (readsOf_chunks (length content) content ltac:(lia)) as (cs & E & Hc & HF). cbn [Records]. unfold sealedReads. rewrite E.
  pose proof (splitLines_spec content) as Hs. unfold framesOf. destruct (splitLines content) as [ls last]. destruct Hs as (Ht & H1 & H2 & H3).
  cbn [fst snd]. set (v := fun start stop line => visit _ line).
  assert (recordsLoop v (map full cs) 0 (NewFramer s) = let f := Finish v (feedBytes v (NewFramer s) (linesText ls last)) in (f_fault f, None, f_state f)) as ->.
  { rewrite Ht, <- Hc. destruct cs as [|c cs]; [done|]. rewrite <- (app_nil_r (map full (c :: cs))). by rewrite recordsLoop_chunks. }
  pose proof (framer_reported v ls last H1 H2 (NewFramer s) eq_refl eq_refl ltac:(cbn; lia) ltac:(cbn; lia)) as Hf.
  cbn zeta in Hf. unfold reported in Hf. cbn [NewFramer f_fault f_offset f_line f_state] in Hf.
  destruct (visitAll v _ s) as [fault s']. cbn zeta. by injection Hf as -> ->.
Qed.

(** ** The parser over a stream *)
Section stream.
Context (orbit : Z -> Z) (options : parserOptions).
Abbreviation native := (po_nativeOutcome options).

(** A record that is not blank and decodes to an event. *)
Definition decodes (v : Value) (e : piCurrentEvent) : Prop := v_Start v <> v_End v /\ decodePiCurrentEvent orbit v native = Done e.

Lemma decodes_functional l es es' : Forall2 decodes l es -> Forall2 decodes l es' -> es' = es.
Proof.
  intros H. revert es'. induction H as [|w e l es [_ He] _ IH]; intros es' H'; inversion H' as [|? e2 ? es2 [_ He2] H2]; subst; [done|].
  f_equal; [congruence|auto].
Qed.

Definition visits (reader : ReaderAt) (start stop line : Z) : eventState -> option error * eventState :=
  visitRecord orbit (MkValue (Some reader) start stop) line.

Lemma visit_valid p s v line : stands native p s ->
  match visitRecord orbit v line s with
  | (None, s') => exists e p', decodes v e /\ advance orbit native p e = Some p' /\ stands native p' s'
  | (Some _, s') => semanticFault s' = true /\ forall e, decodes v e -> advance orbit native p e = None
  end.
Proof.
  intros H. unfold visitRecord. unfold semanticFault at 1. rewrite (st_valid _ _ _ H).
  assert (forall reason, exists x, semanticError (markSemantic reason s) = Some x /\ semanticFault (markSemantic reason s) = true) as Hm.
  { intros reason. unfold markSemantic, semanticError, semanticFault. rewrite (st_valid _ _ _ H). cbn. eauto. }
  destruct (v_Start v =? v_End v) eqn:Ev; bool_prop.
  { destruct (Hm "blank JSONL event line"%string) as (x & -> & Hf). split; [done|]. by intros e []. }
  unfold processPiCurrentRecord. rewrite (st_options _ _ _ H). cbn [po_nativeOutcome].
  destruct (decodePiCurrentEvent orbit v native) as [e|f] eqn:Ed.
  - pose proof (simulates orbit native p e s H) as Hr. destruct (advance orbit native p e) as [p'|] eqn:Ea; cbn [reaches] in Hr.
    + unfold semanticError. rewrite (st_valid _ _ _ Hr). cbn. exists e, p'. by split_and!.
    + unfold semanticError. unfold semanticFault in Hr |- *. destruct (es_semanticErr _); [|done]. cbn. split; [done|].
      intros e' [_ He]. congruence.
  - destruct (Hm (errorText f)) as (x & -> & Hf). split; [done|]. intros e [_ He]. congruence.
Qed.

Lemma visitAll_valid content frames p s : stands native p s ->
  match visitAll (visits (MkReaderAt content None)) frames s with
  | (None, s') => exists es p', Forall2 decodes (map (valueAt content) frames) es /\ follow orbit native p es = Some p' /\ stands native p' s'
  | (Some _, s') => semanticFault s' = true /\ forall es, Forall2 decodes (map (valueAt content) frames) es -> follow orbit native p es = None
  end.
Proof.
  revert p s. induction frames as [|[[a b] n] frames IH]; intros p s H; cbn [visitAll map].
  - exists [], p. split_and!; [constructor|done|done].
  - unfold visits at 1. pose proof (visit_valid p s (MkValue (Some (MkReaderAt content None)) a b) n H) as Hv.
    destruct (visitRecord orbit _ n s) as [[x|] s'].
    + destruct Hv as [Hf Hn]. split; [done|]. intros es Hes. inversion Hes as [|? e ? es' He Hes']; subst. cbn [follow].
      by rewrite (Hn e He).
    + destruct Hv as (e & p' & He & Ha & Hs'). specialize (IH p' s' Hs'). destruct (visitAll _ frames s') as [[x|] s2].
      * destruct IH as [Hf Hn]. split; [done|]. intros es Hes. inversion Hes as [|? e' ? es' He' Hes']; subst. cbn [follow].
        assert (e' = e) as -> by (destruct He as [_ He], He' as [_ He']; unfold valueAt in He'; cbn [fst snd] in He'; congruence).
        rewrite Ha. cbn [mbind option_bind]. by apply Hn.
      * destruct IH as (es & p2 & Hes & Hf & Hs2). exists (e :: es), p2. split_and!; [by constructor| |done].
        cbn [follow]. by rewrite Ha.
Qed.

Lemma initial_stands : stands native start (initialState options).
Proof. constructor; try done; first [by left|by repeat split]. Qed.

(** What the parser makes of a stream. *)
Lemma parse_valid content : Z.of_nat (length content) < 2 ^ 63 -> exists s, parseStdout orbit content options = Ok s /\
  (if semanticFault s then forall es, Forall2 decodes (recordsOf content) es -> follow orbit native start es = None
   else exists es p, Forall2 decodes (recordsOf content) es /\ follow orbit native start es = Some p /\ stands native p s).
Proof.
  intros Hl. unfold parseStdout. rewrite Records_sealed by done. pose proof (visitAll_valid content (framesOf content) start _ initial_stands) as Hv.
  change (fun a b line => visitRecord orbit (MkValue (Some (MkReaderAt content None)) a b) line) with (visits (MkReaderAt content None)).
  destruct (visitAll _ _ _) as [[x|] s].
  - destruct Hv as [Hf Hn]. exists s. unfold semanticFault in Hf |- *. destruct (es_semanticErr s) eqn:E; [|done]. by split.
  - destruct Hv as (es & p & Hes & Hp & Hs). exists s. unfold semanticFault. rewrite (st_valid _ _ _ Hs). split; [done|]. by exists es, p.
Qed.
End stream.

(** ** Where the fields of a record are *)
Section ranges.
Context (orbit : Z -> Z).

Lemma moved_pos c t c' : moved c t c' -> pos c <= pos c'.
Proof. intros (_ & -> & _). lia. Qed.

Lemma member_range reader c k v c' : member reader c = (Done (k, v), c') ->
  exists t, moved c t c' /\ v_Reader v = reader /\ pos c <= v_Start v < v_End v /\ v_End v <= pos c'.
Proof.
  unfold member. intros (key & c1 & H1 & H)%bind_Done. apply bind_Done in H as (u2 & c2 & H2 & H). apply bind_Done in H as (u3 & c3 & H3 & H).
  apply bind_Done in H as (a & c4 & H4 & H). injection H4 as <- <-. apply bind_Done in H as (u5 & c5 & H5 & H).
  apply bind_Done in H as (b & c6 & H6 & H). injection H6 as <- <-. injection H as _ <- <-. cbn [v_Reader v_Start v_End].
  destruct (sound_stringValue _ _ _ H1) as (t1 & M1 & _). destruct (sound_expect _ _ _ _ H2) as (t2 & M2 & _).
  destruct (sound_space _ _ _ H3) as (t3 & M3 & _). unfold withFuel in H5. destruct (sound_value _ _ _ _ _ H5) as (t5 & M5 & Hv).
  exists (t1 ++ t2 ++ t3 ++ t5). split; [repeat (eapply moved_trans; [done|]); done|]. split; [done|].
  apply valueSound_nonempty in Hv. assert (0 < Z.of_nat (length t5)) by (destruct t5; cbn; [done|lia]).
  pose proof (moved_pos _ _ _ M1). pose proof (moved_pos _ _ _ M2). pose proof (moved_pos _ _ _ M3). destruct M5 as (_ & M5 & _). lia.
Qed.

Lemma objectLoop_range fuel reader names fields c m c' : objectLoop orbit fuel reader names fields c = (Done m, c') ->
  exists t, moved c t c' /\ forall k f, m !! k = Some f ->
    fields !! k = Some f \/ (v_Reader f = reader /\ pos c <= v_Start f < v_End f /\ v_End f <= pos c').
Proof.
  revert fields c. induction fuel as [|fuel IH]; intros fields c; cbn [objectLoop]; [done|].
  intros ([k v] & c1 & H1 & H)%bind_Done. destruct (member_range _ _ _ _ _ H1) as (t1 & M1 & Hr & Hv1 & Hv2). cbn [fst snd] in H.
  apply bind_Done in H as (fs & c2 & H2 & H).
  assert (c2 = c1 /\ forall k f, fs !! k = Some f -> fields !! k = Some f \/ f = v) as [-> Hfs].
  { destruct k as [key|]; cbn in H2; [|injection H2 as <- <-; auto]. injection H2 as H2 <-. split; [done|].
    apply selectField_Done in H2 as [_ ->]. intros k f. case_decide; [|auto].
    destruct (decide (key = k)) as [->|]; [rewrite lookup_insert_eq; intros [= <-]; auto|rewrite lookup_insert_ne by done; auto]. }
  apply bind_Done in H as (b & c3 & H3 & H). destruct (sound_separator _ _ _ _ H3) as (t3 & M3 & _).
  pose proof (moved_pos _ _ _ M1). pose proof (moved_pos _ _ _ M3).
  destruct (bool_decide (b = "}"%char)).
  - injection H as <- <-. exists (t1 ++ t3). split; [by eapply moved_trans|].
    intros k' f [Hf| ->]%Hfs; [by left|]. right. split_and!; [done|lia..].
  - destruct (IH _ _ H) as (t4 & M4 & Hm). pose proof (moved_pos _ _ _ M4). exists (t1 ++ t3 ++ t4).
    split; [repeat (eapply moved_trans; [done|]); done|]. intros k' f [[Hf| ->]%Hfs|(E1 & E2 & E3)]%Hm; [by left| |]; right; (split_and!; [done|lia..]).
Qed.

Lemma section_length r start stop : 0 <= start <= stop -> Z.of_nat (length (rest (section r start stop))) <= stop - start /\
  pos (section r start stop) = start.
Proof.
  intros H. unfold section. assert (forall l a b, a <= b -> Z.of_nat (length (slice l a b)) <= b - a) as Hs.
  { intros l a b Hab. unfold slice. rewrite length_take. lia. }
  destruct (ra_fails r) as [[at_ e]|]; [destruct (at_ <? stop) eqn:E|]; cbn [rest pos]; bool_prop; split; try done; try (apply Hs; lia).
  etrans; [apply Hs; lia|lia].
Qed.

(** A selected field lies within its object. *)
Lemma Object_range v names m k f : Object orbit v names = Done m -> m !! k = Some f ->
  v_Reader f = v_Reader v /\ v_Start v <= v_Start f < v_End f /\ v_End f <= v_End v /\ 0 <= v_Start f.
Proof.
  unfold Object. destruct (valid v) as [r|] eqn:Ev; [|done]. intros H Hk.
  assert (0 <= v_Start v <= v_End v) as Hr.
  { unfold valid in Ev. destruct (v_Reader v); [|done]. destruct (v_Start v <? 0) eqn:E1, (v_End v <? v_Start v) eqn:E2; try done. bool_prop. lia. }
  destruct (section_length r _ _ Hr) as [Hlen Hpos]. unfold run in H. set (c := section _ _ _) in *. set (X := expect _ ;;; _) in H.
  assert (exists c', X c = (Done m, c')) as [c' HX] by (destruct (X c) as [o c']; cbn in H; subst o; eauto). subst X.
  apply bind_Done in HX as (u & c1 & H1 & HX). apply bind_Done in HX as (b & c2 & H2 & HX).
  destruct (sound_expect _ _ _ _ H1) as (t1 & M1 & _). destruct (sound_peek _ _ _ H2) as (t2 & M2 & _).
  destruct (bool_decide (b = "}"%char)).
  - apply bind_Done in HX as (? & ? & ? & HX). apply bind_Done in HX as (? & ? & ? & HX). injection HX as <- <-. by rewrite lookup_empty in Hk.
  - apply bind_Done in HX as (fs & c3 & H3 & HX). apply bind_Done in HX as (? & ? & ? & HX). injection HX as <- <-. unfold withFuel in H3.
    destruct (objectLoop_range _ _ _ _ _ _ _ H3) as (t3 & M3 & Hm). destruct (Hm _ _ Hk) as [Hn|(E1 & E2 & E3)]; [by rewrite lookup_empty in Hn|].
    pose proof (moved_pos _ _ _ M1). pose proof (moved_pos _ _ _ M2). pose proof (moved_shorter _ _ _ M1). pose proof (moved_shorter _ _ _ M2).
    pose proof (moved_shorter _ _ _ M3). destruct M1 as (_ & M1 & _), M2 as (_ & M2 & _), M3 as (_ & M3 & _).
    split_and!; [done|lia..].
Qed.

(** ** The records of a stream are apart *)
Lemma placedLines_from p n lines last start stop line : (start, stop, line) ∈ placedLines p n lines last -> p <= start <= stop.
Proof.
  revert p n. induction lines as [|r lines IH]; intros p n; cbn [placedLines].
  - destruct (0 <? _) eqn:E; [|by intros ?%elem_of_nil]. intros [= -> -> ->]%list_elem_of_singleton. lia.
  - intros [[= -> -> ->]|H%IH]%elem_of_cons; lia.
Qed.

Definition contains (a b : Z) (p : Z * Z * Z) : bool := negb ((a <? p.1.1) || (p.1.2 <? b)).

(** One record, and only one, contains a range that lies in a record. *)
Lemma one_record p n lines last a b f : a < b -> f ∈ placedLines p n lines last -> contains a b f = true ->
  exists before after, placedLines p n lines last = before ++ f :: after /\
    Forall (fun g => contains a b g = false) (before ++ after).
Proof.
  intros Hab. revert p n. induction lines as [|r lines IH]; intros p n; cbn [placedLines].
  - destruct (0 <? _) eqn:E; [|by intros ?%elem_of_nil]. intros ->%list_elem_of_singleton Hc. exists [], []. by split.
  - destruct f as [[start stop] line]. intros [[= -> -> ->]|H]%elem_of_cons Hc.
    + exists [], (placedLines (p + Z.of_nat (length r) + 1) (n + 1) lines last). split; [done|].
      apply Forall_forall. intros [[s t] l] Hin%placedLines_from. unfold contains in *. cbn [fst snd] in *. bool_prop.
      apply negb_false_iff, orb_true_iff. left. apply Z.ltb_lt. lia.
    + destruct (IH _ _ H Hc) as (before & after & -> & HF). eexists (_ :: before), after. split; [done|].
      constructor; [|done]. apply placedLines_from in H. unfold contains in *. cbn [fst snd] in *. bool_prop.
      apply negb_false_iff, orb_true_iff. right. apply Z.ltb_lt. lia.
Qed.
End ranges.

(** ** The second reading *)
Section copying.
Context (orbit : Z -> Z).

Lemma visitAll_app {S} (visit : Z -> Z -> Z -> S -> option error * S) xs ys s :
  visitAll visit (xs ++ ys) s = match visitAll visit xs s with (None, s') => visitAll visit ys s' | r => r end.
Proof.
  revert s. induction xs as [|[[a b] n] xs IH]; intros s; cbn [visitAll app]; [done|].
  destruct (visit a b n s) as [[e|] s']; [done|]. apply IH.
Qed.

Definition copies (reader : ReaderAt) (a b start stop line : Z) (s : bool * list ascii) : option error * (bool * list ascii) :=
  copyRecord orbit a b (MkValue (Some reader) start stop) line s.

Lemma copies_nothing reader a b frames s : Forall (fun g => contains a b g = false) frames ->
  visitAll (copies reader a b) frames s = (None, s).
Proof.
  induction 1 as [|[[x y] n] frames H _ IH]; cbn [visitAll]; [done|]. unfold copies at 1, copyRecord. destruct s as [found out].
  cbn [v_Start v_End]. unfold contains in H. cbn [fst snd] in H. apply negb_false_iff in H. by rewrite H.
Qed.

Lemma text_copied content a b g text : Z.of_nat (length content) < 2 ^ 63 -> 0 <= a < b -> g ∈ framesOf content -> contains a b g = true ->
  copyPiMessageValue orbit (MkValue (Some (MkReaderAt content None)) a b) [] = (None, text) ->
  copyPiCurrentMessageText orbit content a b = Ok text.
Proof.
  intros Hl Hab Hg Hc Ht. unfold copyPiCurrentMessageText. rewrite (proj2 (Z.ltb_ge a 0)), (proj2 (Z.leb_gt b a)) by lia. cbn [orb fail_if mbind result_bind].
  rewrite Records_sealed by done.
  change (fun start stop line => copyRecord orbit a b (MkValue (Some (MkReaderAt content None)) start stop) line) with (copies (MkReaderAt content None) a b).
  destruct (one_record 0 0 _ _ a b g ltac:(lia) Hg Hc) as (before & after & E & HF). unfold framesOf. rewrite E.
  apply Forall_app in HF as [H1 H2]. rewrite visitAll_app, copies_nothing by done. destruct g as [[x y] n]. cbn [visitAll].
  unfold copies at 1, copyRecord. cbn [v_Start v_End v_Reader]. unfold contains in Hc. cbn [fst snd] in Hc. apply negb_true_iff in Hc. rewrite Hc, Ht.
  cbn [fmap option_fmap option_map]. by rewrite copies_nothing.
Qed.

Lemma drained content : DrainReader content = Ok tt.
Proof.
  unfold DrainReader. destruct (readsOf_chunks (length content) content ltac:(lia)) as (cs & E & _ & HF). unfold sealedReads. rewrite E. clear E.
  generalize 0 as k. induction HF as [|c cs Hc _ IH]; intros k; cbn [map drainLoop full rd_n rd_err]; [done|].
  rewrite (proj2 (Z.ltb_ge _ 0)), (proj2 (Z.ltb_ge BufferSize _)) by lia. cbn [orb]. rewrite (proj2 (Z.eqb_neq _ 0)) by lia. apply IH.
Qed.

(** A field of an event lies in one of the records of the stream. *)
Lemma field_in_record options content es before e after k v :
  Forall2 (decodes orbit options) (recordsOf content) es -> es = before ++ e :: after -> ev_fields e !! k = Some v ->
  v_Reader v = Some (MkReaderAt content None) /\ 0 <= v_Start v < v_End v /\ exists g, g ∈ framesOf content /\ contains (v_Start v) (v_End v) g = true.
Proof.
  intros HF -> Hk. apply Forall2_app_inv_r in HF as (l1 & l2 & _ & H & El). inversion H as [|w ? l3 ? [_ Hd] _]; subst.
  assert (w ∈ recordsOf content) as Hw by (rewrite El; set_solver). unfold recordsOf in Hw. apply list_elem_of_fmap in Hw as (g & -> & Hg).
  unfold decodePiCurrentEvent in Hd. destruct (Object orbit _ ["type"%string]); [|done]. cbn [mbind outcome_bind] in Hd.
  destruct (orRaise _ _) as [t|]; [|done]. cbn [mbind outcome_bind] in Hd. destruct (Object orbit _ (piCurrentSelectedFields _ _)) as [fs|] eqn:Eo; [|done].
  injection Hd as <-. cbn [ev_fields] in Hk. destruct (Object_range _ _ _ _ _ _ Eo Hk) as (E1 & E2 & E3 & E4). cbn [valueAt v_Reader v_Start v_End] in *.
  split_and!; [done|lia..|]. exists g. split; [done|]. unfold contains. apply negb_true_iff, orb_false_iff. split; apply Z.ltb_ge; lia.
Qed.

(** The answer of the last turn is copied from the stream as it was summarized. *)
Lemma answer_copied options content es v m f awaiting : Z.of_nat (length content) < 2 ^ 63 ->
  Forall2 (decodes orbit options) (recordsOf content) es -> cycleDone orbit (po_nativeOutcome options) es v m f awaiting ->
  exists text, copyPiMessageValue orbit v [] = (None, text) /\ summarizes (pm_text m) text /\
    copyPiCurrentMessageText orbit content (v_Start v) (v_End v) = Ok text.
Proof.
  intros Hl HF (b1 & g & a1 & reported & -> & (b2 & e & a2 & body & -> & _ & _ & Hm & Ha & _) & _).
  rewrite <- app_assoc in HF. unfold messageOf in Hm. destruct (ev_fields e !! "message"%string) as [w|] eqn:Ew; [|done].
  destruct (decodePiCurrentMessage orbit w true) as [m'|] eqn:Ed; [|done]. injection Hm as -> ->.
  destruct (message_copied orbit v m Ed Ha) as (text & Ht & Hs). exists text. split_and!; [done|done|].
  destruct (field_in_record options content _ _ _ _ _ _ HF eq_refl Ew) as (Hr & Hp & fr & Hfr & Hc).
  eapply text_copied; [done|done|exact Hfr|done|]. destruct v as [rd x y]. cbn [v_Reader v_Start v_End] in *. by subst rd.
Qed.
End copying.

(** ** What is committed *)

(** A stream at the end of a cycle that succeeded, for the session [id]. *)
Definition succeeded (p : progress) (id : string) (v : Value) (m f : piCurrentMessage) : Prop :=
  pg_session p = Some id /\ pg_where p = CycleEnded v m f false /\ pg_failed p = false /\ pg_aborted p = false /\
  ts_nonblank (pm_text m) = true /\ ts_nonblank (pm_text f) = true.

Lemma refused_identity input s : es_sessionSeen s = true -> es_agentStarted s = true -> es_turnStarted s = true ->
  refusalForCompletedCycle input s = if negb (identityMatches input (es_sessionID s)) then refusalIdentity
    else if es_retryPending s || negb (es_turnEnded s) || negb (es_agentEnded s) then refusalIncomplete
    else if es_nativeOutcomeFailed s then refusalProviderFailed
    else if es_current s then currentCycleAnswerRefusal s
    else if historicalCycleAnswerEmpty s then refusalEmpty else ""%string.
Proof. unfold refusalForCompletedCycle. by intros -> -> ->. Qed.

Lemma accepted_sound native input p s : stands native p s -> refusalFor input s = ""%string ->
  sealRefusal (in_Seal input) = ""%string /\ exists id v m f, identityMatches input id = true /\ succeeded p id v m f /\ pm_stopReason f = "stop"%string.
Proof.
  intros H. unfold refusalFor. destruct (eqs (sealRefusal _) "") eqn:Es; cbn [negb]; [|intros E; by rewrite E in Es].
  apply eqs_eq in Es. unfold semanticFault. rewrite (st_valid _ _ _ H), (st_failed _ _ _ H). destruct (pg_failed p) eqn:Ef; [done|].
  unfold refusalForCompletedCycle. destruct (st_session _ _ _ H) as [-> Hid]. destruct (pg_session p) as [id|] eqn:Ep; [|done].
  rewrite bool_decide_true by done. rewrite (Hid id eq_refl), (st_aborted _ _ _ H), (st_current _ _ _ H). cbn [negb orb].
  pose proof (st_where _ _ _ H) as Hw. destruct (pg_where p) as [| |o last|v m|v m f aw] eqn:W; cbn [whereIs] in Hw; unfold flags in Hw;
    destruct_and! Hw; repeat match goal with F : ?g s = _ |- context [?g s] => rewrite F end; cbn [negb orb]; try done;
    destruct (identityMatches input id) eqn:Ei; cbn [negb]; try done.
  destruct aw; [done|]. cbn [orb]. destruct (pg_aborted p) eqn:Ea; [done|]. unfold currentCycleAnswerRefusal.
  match goal with A : answerIs _ _ _ |- _ => destruct A as (-> & _) end.
  destruct (eqs (pm_stopReason f) "stop") eqn:Et; [|pose proof (st_failed _ _ _ H); congruence]. apply eqs_eq in Et.
  match goal with A : es_currentAgentText s = _ |- _ => rewrite A end.
  destruct (ts_nonblank (pm_text m)) eqn:N1, (ts_nonblank (pm_text f)) eqn:N2; try done. intros _. split; [done|].
  exists id, v, m, f. split_and!; try done.
Qed.

Lemma accepted_complete native input p s id v m f : stands native p s -> sealRefusal (in_Seal input) = ""%string ->
  identityMatches input id = true -> succeeded p id v m f -> refusalFor input s = ""%string.
Proof.
  intros H Hs Hi (Hp & Hw & Hf & Ha & N1 & N2). unfold refusalFor. rewrite Hs. unfold semanticFault.
  rewrite (st_valid _ _ _ H), (st_failed _ _ _ H), Hf. cbn [negb]. change (eqs "" "") with true. cbn [negb].
  destruct (st_session _ _ _ H) as [Hseen Hid]. rewrite Hp in Hseen. rewrite bool_decide_true in Hseen by done.
  pose proof (st_where _ _ _ H) as W. rewrite Hw in W. cbn [whereIs] in W. unfold flags in W. destruct_and! W.
  rewrite refused_identity by done. rewrite (Hid id Hp), Hi, (st_aborted _ _ _ H), Ha, (st_current _ _ _ H).
  repeat match goal with F : ?g s = _ |- context [?g s] => rewrite F end. cbn [negb orb]. unfold currentCycleAnswerRefusal.
  match goal with A : answerIs _ _ _ |- _ => destruct A as (-> & _) end. rewrite N1.
  destruct (eqs (pm_stopReason f) "stop") eqn:Et; [|pose proof (st_failed _ _ _ H); congruence].
  match goal with A : es_currentAgentText s = _ |- _ => rewrite A end. by rewrite N2.
Qed.

Section evaluation.
Context (orbit : Z -> Z) (historicalStdout : parserOptions -> list ascii -> result eventState).

Lemma both_Ok stdout stderr s : bothStreams stdout stderr = Ok s -> stdout = Ok s /\ stderr = Ok tt.
Proof. destruct stdout as [a|], stderr as [[]|]; cbn; naive_solver. Qed.

Lemma committed_inv i options input raw reference r text : currentEvidencePolicy (i_mode i) (i_version i) = Some options ->
  evaluateAgainst orbit historicalStdout i input raw reference = (Ok r, text) -> it_Verdict r = VerdictCommitted ->
  exists content s answer, streamOf "raw/stdout" raw = Some content /\ parseStdout orbit (bytes content) options = Ok s /\
    refusalFor input s = ""%string /\ it_Session r = Some (MkSessionIdentity Provider (es_sessionID s)) /\ text = str answer /\
    (es_current s = true -> copyPiCurrentMessageText orbit (bytes content) (es_currentTurnMessageStart s) (es_currentTurnMessageEnd s) = Ok answer).
Proof.
  intros Hp. unfold evaluateAgainst, readEvidence. rewrite Hp. destruct (fail_if _ _); [|done]. cbn [mbind result_bind].
  destruct (validateEvaluationInput _ _); [|done]. cbn [mbind result_bind].
  destruct (readCurrentEvidence orbit raw options) as [s|] eqn:Er; [|done]. unfold readCurrentEvidence in Er. apply both_Ok in Er as [Er _].
  unfold readStream in Er. destruct (streamOf "raw/stdout" raw) as [content|] eqn:Es; [|done].
  destruct (eqs (refusalFor input s) "") eqn:Ef; cbn [negb]; [|intros [= <- _]; by intros E].
  apply eqs_eq in Ef. destruct (acceptedAnswer orbit raw s) as [answer|] eqn:Ew; [|done]. intros [= <- <-] _.
  exists content, s, answer. split_and!; try done. intros Hc. unfold acceptedAnswer in Ew. rewrite Hc in Ew. unfold readStream in Ew. by rewrite Es in Ew.
Qed.

(** A stream that succeeded is accepted, and its answer is found again. *)
Lemma stream_accepted options input content es p id v m f : sealRefusal (in_Seal input) = ""%string -> Z.of_nat (length content) < 2 ^ 63 ->
  Forall2 (decodes orbit options) (recordsOf content) es -> follow orbit (po_nativeOutcome options) start es = Some p ->
  succeeded p id v m f -> identityMatches input id = true ->
  exists s out, parseStdout orbit content options = Ok s /\ stands (po_nativeOutcome options) p s /\ refusalFor input s = ""%string /\
    copyPiMessageValue orbit v [] = (None, out) /\ summarizes (pm_text m) out /\
    copyPiCurrentMessageText orbit content (es_currentTurnMessageStart s) (es_currentTurnMessageEnd s) = Ok out.
Proof.
  intros Hseal Hl Hes Hfo Hsu Hid. destruct (parse_valid orbit options content Hl) as (s & Hs & Hf).
  destruct (semanticFault s); [by rewrite (Hf es Hes) in Hfo|]. destruct Hf as (es' & p' & Hes' & Hfo' & Hst).
  pose proof (decodes_functional _ _ _ _ _ Hes Hes') as ->. rewrite Hfo in Hfo'. injection Hfo' as <-.
  pose proof (accepted_complete _ _ _ _ _ _ _ _ Hst Hseal Hid Hsu) as Hr. destruct Hsu as (_ & Hpw & _).
  pose proof (ex_where _ _ _ _ (follow_explains orbit _ es p Hfo)) as Ht. unfold traceOf in Ht. rewrite Hpw in Ht. destruct Ht as [Hcy _].
  destruct (answer_copied orbit options _ es v m f false Hl Hes Hcy) as (out & Ho & Hsum & Hcopy).
  pose proof (st_where _ _ _ Hst) as W. rewrite Hpw in W. destruct W as (_ & (_ & Wa & Wb & _) & _).
  exists s, out. rewrite Wa, Wb. by split_and!.
Qed.

(** What the interpreter makes of an accepted state. *)
Lemma accepted_committed i options input raw reference content errors s out :
  currentEvidencePolicy (i_mode i) (i_version i) = Some options -> validMode (i_mode i) = true ->
  validateEvaluationInput input reference = Ok tt -> streamOf "raw/stdout" raw = Some content -> streamOf "raw/stderr" raw = Some errors ->
  parseStdout orbit (bytes content) options = Ok s -> es_current s = true -> refusalFor input s = ""%string ->
  copyPiCurrentMessageText orbit (bytes content) (es_currentTurnMessageStart s) (es_currentTurnMessageEnd s) = Ok out ->
  evaluateAgainst orbit historicalStdout i input raw reference =
    (Ok (MkInterpretation VerdictCommitted "" (Some (MkSessionIdentity Provider (es_sessionID s))) (currentUsageFromState s "reported")
           (piCurrentUsageWarning s)), str out).
Proof.
  intros Hp Hmode Hin Hc Herr Hs Hcur Hr Hcopy. unfold evaluateAgainst, readEvidence, readCurrentEvidence, readStream.
  rewrite Hmode, Hin, Hp, Hc, Herr, Hs, drained. cbn [negb fail_if mbind result_bind bothStreams]. rewrite Hr. change (eqs "" "") with true.
  cbn [negb]. unfold acceptedAnswer, readStream. by rewrite Hcur, Hc, Hcopy.
Qed.

(** The answer of a Pi task is what the stream says it is.  Whenever the interpreter of a current
    revision commits, the provider exited without an error; every line of stdout is an
    event; there is one session event, whose identity is the one returned and the one the task
    expects; no event reports an error; and the stream ends after a cycle whose last turn
    carries an assistant message that did not fail, whose last finished message, if the turn
    has one, and the last assistant message at the end of the cycle say the same.  What was
    written is the text of that message, copied in a second reading: its digest and length
    are those that were compared, and it is not empty. *)
Theorem committed_answer_verified i options input raw reference r text content :
  currentEvidencePolicy (i_mode i) (i_version i) = Some options -> streamOf "raw/stdout" raw = Some content -> len content < 2 ^ 63 ->
  evaluateAgainst orbit historicalStdout i input raw reference = (Ok r, text) -> it_Verdict r = VerdictCommitted ->
  exists es id v m f,
    Forall2 (decodes orbit options) (recordsOf (bytes content)) es /\
    sessionOnce es id /\ it_Session r = Some (MkSessionIdentity Provider id) /\ identityMatches input id = true /\
    Forall (fun e => isKind KError e = false) es /\ sealRefusal (in_Seal input) = ""%string /\
    cycleDone orbit (po_nativeOutcome options) es v m f false /\ bad m = false /\ bad f = false /\ pm_stopReason f = "stop"%string /\
    copyPiMessageValue orbit v [] = (None, bytes text) /\ summarizes (pm_text m) (bytes text) /\ text <> ""%string.
Proof.
  intros Hp Hc Hl He Hv. destruct (committed_inv _ _ _ _ _ _ _ Hp He Hv) as (c & s & answer & Ec & Hs & Hr & Hi & -> & Hw).
  rewrite Hc in Ec. injection Ec as <-. assert (Z.of_nat (length (bytes content)) < 2 ^ 63) as Hl' by by rewrite length_list_ascii.
  destruct (parse_valid orbit options (bytes content) Hl') as (s' & Hs' & Hf). rewrite Hs in Hs'. injection Hs' as <-.
  assert (semanticFault s = false) as Ef.
  { unfold refusalFor in Hr. destruct (negb _) eqn:E; [by rewrite Hr in E|]. by destruct (semanticFault s). }
  rewrite Ef in Hf. destruct Hf as (es & p & Hes & Hfo & Hst). destruct (accepted_sound _ _ _ _ Hst Hr) as (Hseal & id & v & m & f & Hid & Hsu & Hstop).
  destruct Hsu as (Hps & Hpw & Hpf & Hpa & N1 & N2). pose proof (follow_explains orbit _ es p Hfo) as [Ht Hse Her Hbr].
  unfold traceOf in Ht. rewrite Hpw in Ht. destruct Ht as [Hcy Hbad]. destruct (Hbad Hpf) as [Hm Hbf]. rewrite Hps in Hse.
  destruct (answer_copied orbit options _ es v m f false Hl' Hes Hcy) as (out & Ho & Hsum & Hcopy).
  pose proof (st_where _ _ _ Hst) as W. rewrite Hpw in W. destruct W as (_ & (_ & Wa & Wb & _) & _).
  specialize (Hw (st_current _ _ _ Hst)). rewrite Wa, Wb, Hcopy in Hw. injection Hw as <-.
  exists es, id, v, m, f. rewrite bytes_str. split_and!; try done.
  - by rewrite Hi, (proj2 (st_session _ _ _ Hst) id Hps).
  - apply Her. destruct (pg_broken p); [|done]. by rewrite Hbr in Hpf.
  - intros E. destruct Hsum as (_ & _ & Hn). apply (Hn N1). by rewrite <- (bytes_str out), E.
Qed.

(** A complete transcript is committed.  If every line of stdout decodes to an event, the
    events follow the protocol to the end of a cycle that succeeded and was not aborted, for a
    session that is the expected one, with a nonblank answer, and the provider exited without an
    error, then the interpreter of a current revision accepts the stream, finds the
    answer again and commits exactly its text. *)
Theorem complete_stream_committed i options input raw reference content errors es p id v m f :
  currentEvidencePolicy (i_mode i) (i_version i) = Some options -> validMode (i_mode i) = true ->
  validateEvaluationInput input reference = Ok tt -> sealRefusal (in_Seal input) = ""%string ->
  streamOf "raw/stdout" raw = Some content -> streamOf "raw/stderr" raw = Some errors -> len content < 2 ^ 63 ->
  Forall2 (decodes orbit options) (recordsOf (bytes content)) es -> follow orbit (po_nativeOutcome options) start es = Some p ->
  succeeded p id v m f -> identityMatches input id = true ->
  exists text usage diagnostics, copyPiMessageValue orbit v [] = (None, bytes text) /\ summarizes (pm_text m) (bytes text) /\
    evaluateAgainst orbit historicalStdout i input raw reference =
      (Ok (MkInterpretation VerdictCommitted "" (Some (MkSessionIdentity Provider id)) usage diagnostics), text).
Proof.
  intros Hp Hmode Hin Hseal Hc Herr Hl Hes Hfo Hsu Hid. unfold len in Hl. rewrite <- length_list_ascii in Hl.
  destruct (stream_accepted options input (bytes content) es p id v m f Hseal Hl Hes Hfo Hsu Hid) as (s & out & Hs & Hst & Hr & Ho & Hsum & Hcopy).
  pose proof (accepted_committed _ _ _ _ _ _ errors _ _ Hp Hmode Hin Hc Herr Hs (st_current _ _ _ Hst) Hr Hcopy) as He.
  rewrite (proj2 (st_session _ _ _ Hst) id (proj1 Hsu)) in He. exists (str out). rewrite bytes_str. eauto.
Qed.

(** C16: The parser of the event stream is the protocol.  It always returns, its state faults exactly
    on the streams that have a line that is no event or whose events the protocol does not
    allow, and otherwise the state stands for the position of the protocol: its flags, its
    session, its failures and the answer it refers to. *)
Theorem parser_follows_protocol options content : Z.of_nat (length content) < 2 ^ 63 ->
  exists s, parseStdout orbit content options = Ok s /\
    (semanticFault s = false <-> exists es p, Forall2 (decodes orbit options) (recordsOf content) es /\
       follow orbit (po_nativeOutcome options) start es = Some p) /\
    (forall es p, Forall2 (decodes orbit options) (recordsOf content) es -> follow orbit (po_nativeOutcome options) start es = Some p ->
       stands (po_nativeOutcome options) p s).
Proof.
  intros Hl. destruct (parse_valid orbit options content Hl) as (s & Hs & Hf). exists s. split; [done|].
  destruct (semanticFault s).
  - split; [split; [done|]|]; [intros (es & p & Hes & Hp)|intros es p Hes Hp]; by rewrite (Hf es Hes) in Hp.
  - destruct Hf as (es & p & Hes & Hfo & Hst). split; [split; [eauto|done]|]. intros es' p' Hes' Hfo'.
    pose proof (decodes_functional _ _ _ _ _ Hes Hes') as ->.
    congruence.
Qed.
End evaluation.

(** ** Witnesses *)
Lemma turnEnd_advances orbit native p e v m : kindOf (ev_typeName e) = KTurnEnd -> silent native e = false -> pg_settled p = false ->
  pg_where p = InTurn false None -> messageOf orbit e true = Some (v, m) -> isDone (validatePiCurrentToolResults orbit (ev_fields e)) = true ->
  assistant m = true -> completed m = true -> advance orbit native p e = Some (failing (bad m) (moveTo (TurnEnded v m) p)).
Proof. intros Hk Hs Hp Hw Hm Ht Ha Hc. unfold advance. rewrite Hs, Hp, Hk, Hw, Hm. cbn [mbind option_bind]. by rewrite Ht, Ha, Hc. Qed.

Lemma sameAnswer_refl m : sameAnswer m m = true.
Proof. unfold sameAnswer, equalPiText, eqs. by rewrite !bool_decide_true, Z.eqb_refl by done. Qed.

Lemma agentEnd_advances orbit native p e v m : kindOf (ev_typeName e) = KAgentEnd -> silent native e = false -> pg_settled p = false ->
  pg_where p = TurnEnded v m -> finalOf orbit e = Some (m, false) -> pm_stopReason m = "stop"%string ->
  advance orbit native p e = Some (failing (bad m) (moveTo (CycleEnded v m m false) p)).
Proof.
  intros Hk Hs Hp Hw Hf Ht. unfold advance. rewrite Hs, Hp, Hk, Hw, Hf. cbn [mbind option_bind].
  rewrite sameAnswer_refl, Ht. unfold eqs at 1. rewrite bool_decide_true by done. cbn [andb]. by rewrite (orb_false_r (bad m)).
Qed.

(** The shortest stream with an answer. *)
Definition demoID : string := "01234567-89ab-cdef-0123-456789abcdef".
Definition demoLine (s : string) : string := quoted s +:+ str [newline].
Definition demoStream : string :=
  demoLine ("{`type`:`session`,`id`:`" +:+ demoID +:+ "`}") +:+ demoLine "{`type`:`agent_start`}" +:+ demoLine "{`type`:`turn_start`}" +:+
  demoLine "{`type`:`turn_end`,`message`:{`role`:`assistant`,`content`:`Hi`,`stopReason`:`stop`},`toolResults`:[]}" +:+
  demoLine "{`type`:`agent_end`,`messages`:[{`role`:`assistant`,`content`:`Hi`,`stopReason`:`stop`}]}".

Definition demoOrbit (r : Z) : Z := r.
Definition demoReading (content : list ascii) (p : Z * Z * Z) : piCurrentEvent :=
  match decodePiCurrentEvent demoOrbit (valueAt content p) true with Done e => e | Fault _ => MkEvent "" ∅ (valueAt content p) end.
Definition demoEvents : list piCurrentEvent := map (demoReading (bytes demoStream)) (framesOf (bytes demoStream)).
Definition demoAnswer : piCurrentMessage := MkMessage "assistant" (summary (MkWriter (bytes "Hi") true 2)) "stop" "" None true.

Definition demoOptions : parserOptions := MkOptions false false false false true.

Lemma demo_decodes : Forall2 (decodes demoOrbit demoOptions) (recordsOf (bytes demoStream)) demoEvents.
Proof.
  unfold demoEvents, recordsOf. assert (forallb (fun p => negb (v_Start (valueAt (bytes demoStream) p) =? v_End (valueAt (bytes demoStream) p)) &&
    isDone (decodePiCurrentEvent demoOrbit (valueAt (bytes demoStream) p) true)) (framesOf (bytes demoStream)) = true) as H by (vm_compute; reflexivity).
  induction (framesOf (bytes demoStream)) as [|p l IH]; cbn [map forallb] in *; constructor.
  - apply andb_true_iff in H as [H _]. apply andb_true_iff in H as [Hb Hd]. unfold decodes, demoReading. apply negb_true_iff, Z.eqb_neq in Hb. split; [done|].
    change (po_nativeOutcome demoOptions) with true. destruct (decodePiCurrentEvent demoOrbit (valueAt (bytes demoStream) p) true); [done|by cbn in Hd].
  - apply andb_true_iff in H as [_ H]. by apply IH.
Qed.

Definition demoValue : Value := default (MkValue None 0 0) (ev_fields (nth 3 demoEvents (demoReading [] (0, 0, 0))) !! "message"%string).
(** The element of the messages at the end of the cycle. *)
Definition demoMessages : Value := default (MkValue None 0 0) (ev_fields (nth 4 demoEvents (demoReading [] (0, 0, 0))) !! "messages"%string).
Definition demoFinal : Value := MkValue (v_Reader demoMessages) (v_Start demoMessages + 1) (v_End demoMessages - 1).
Definition demoProgress : progress := MkProgress (Some demoID) (CycleEnded demoValue demoAnswer demoAnswer false) false false false false.

(** A message of the assistant with a plain text. *)
Lemma plain_message orbit v keepText fields content p stop : Object orbit v messageNames = Done fields ->
  piCurrentRequiredString fields "role" 128 = Done "assistant"%string -> fields !! "content"%string = Some content -> CopyString content = Done p ->
  optionalStopReason fields = Done stop -> optionalErrorMessage fields = Done ""%string -> usageOf orbit v = (None, true) ->
  decodePiCurrentMessage orbit v keepText = Done (MkMessage "assistant" (summary (Write newWriter p)) stop "" None true).
Proof.
  intros Ho Hr Hc Hp Hs He Hu. unfold decodePiCurrentMessage, summarizePiValues. cbn [copyAll]. rewrite Ho. cbn [orRaise mbind outcome_bind].
  rewrite Hr. cbn [orRaise mbind outcome_bind]. rewrite Hc. cbn [mbind outcome_bind]. rewrite Hp. cbn [mbind outcome_bind].
  rewrite Hs. cbn [mbind outcome_bind]. rewrite He. cbn [mbind outcome_bind]. by rewrite Hu.
Qed.

Definition got {A} (d : A) (o : outcome A) : A := match o with Done a => a | Fault _ => d end.

Lemma demo_message v : v = demoValue \/ v = demoFinal -> decodePiCurrentMessage demoOrbit v true = Done demoAnswer.
Proof.
  intros Hv. refine (plain_message demoOrbit v true (got ∅ (Object demoOrbit v messageNames))
    (default demoValue (got ∅ (Object demoOrbit v messageNames) !! "content"%string)) (bytes "Hi") "stop" _ _ _ _ _ _ _);
    destruct Hv as [-> | ->]; vm_compute; reflexivity.
Qed.

(** The array has one element. *)
Lemma demo_array {S} (visit : Value -> S -> option fault * S) s s' : visit demoFinal s = (None, s') -> Array visit demoMessages s = (Done tt, s').
Proof.
  intros H. vm_compute. match goal with |- context [visit ?x s] => change x with demoFinal end. by rewrite H.
Qed.

Lemma demo_final : decodePiCurrentFinalMessage demoOrbit demoMessages = Done (demoAnswer, false).
Proof.
  unfold decodePiCurrentFinalMessage. assert (piCurrentNull demoMessages = false) as -> by (vm_compute; reflexivity).
  rewrite (demo_array _ (None, false) (Some demoAnswer, false)); [done|]. unfold visitFinalMessage. by rewrite demo_message by by right.
Qed.

Definition demoEvent (n : nat) : piCurrentEvent := nth n demoEvents (demoReading [] (0, 0, 0)).

Lemma demo_kind3 : kindOf (ev_typeName (demoEvent 3)) = KTurnEnd. Proof. vm_compute. reflexivity. Qed.
Lemma demo_kind4 : kindOf (ev_typeName (demoEvent 4)) = KAgentEnd. Proof. vm_compute. reflexivity. Qed.
Lemma demo_loud : silent true (demoEvent 3) = false /\ silent true (demoEvent 4) = false. Proof. vm_compute. by split. Qed.
Lemma demo_tools : isDone (validatePiCurrentToolResults demoOrbit (ev_fields (demoEvent 3))) = true. Proof. vm_compute. reflexivity. Qed.

Lemma demo_turn : messageOf demoOrbit (demoEvent 3) true = Some (demoValue, demoAnswer).
Proof.
  unfold messageOf. assert (ev_fields (demoEvent 3) !! "message"%string = Some demoValue) as -> by (vm_compute; reflexivity).
  by rewrite demo_message by by left.
Qed.

Lemma demo_end : finalOf demoOrbit (demoEvent 4) = Some (demoAnswer, false).
Proof.
  unfold finalOf. assert (ev_fields (demoEvent 4) !! "messages"%string = Some demoMessages) as -> by (vm_compute; reflexivity).
  by rewrite demo_final.
Qed.

Lemma demo_follows : follow demoOrbit true start demoEvents = Some demoProgress.
Proof.
  assert (demoEvents = [demoEvent 0; demoEvent 1; demoEvent 2; demoEvent 3; demoEvent 4]) as -> by (vm_compute; reflexivity).
  cbn [follow].
  assert (advance demoOrbit true start (demoEvent 0) = Some (MkProgress (Some demoID) Outside false false false false)) as ->
    by (vm_compute; reflexivity). cbn [mbind option_bind].
  assert (advance demoOrbit true (MkProgress (Some demoID) Outside false false false false) (demoEvent 1) =
    Some (MkProgress (Some demoID) Opened false false false false)) as -> by (vm_compute; reflexivity). cbn [mbind option_bind].
  assert (advance demoOrbit true (MkProgress (Some demoID) Opened false false false false) (demoEvent 2) =
    Some (MkProgress (Some demoID) (InTurn false None) false false false false)) as -> by (vm_compute; reflexivity). cbn [mbind option_bind].
  rewrite (turnEnd_advances _ _ (MkProgress (Some demoID) (InTurn false None) false false false false) _ demoValue demoAnswer demo_kind3 (proj1 demo_loud) eq_refl eq_refl demo_turn demo_tools eq_refl eq_refl).
  cbn [mbind option_bind].
  change (failing _ _) with (MkProgress (Some demoID) (TurnEnded demoValue demoAnswer) false false false false).
  by rewrite (agentEnd_advances _ _ (MkProgress (Some demoID) (TurnEnded demoValue demoAnswer) false false false false) _ demoValue demoAnswer demo_kind4 (proj2 demo_loud) eq_refl eq_refl demo_end eq_refl).
Qed.

Definition demoInterpreter : interpreter := NewInterpreter ModeReadOnly.

Lemma demo_succeeded : succeeded demoProgress demoID demoValue demoAnswer demoAnswer.
Proof. by split_and!. Qed.

Lemma parser_follows_protocol_witness :
  exists s, parseStdout demoOrbit (bytes demoStream) demoOptions = Ok s /\ semanticFault s = false /\ stands true demoProgress s.
Proof.
  assert (Z.of_nat (length (bytes demoStream)) < 2 ^ 63) as Hl by (vm_compute; reflexivity).
  destruct (parser_follows_protocol demoOrbit demoOptions (bytes demoStream) Hl) as (s & Hs & Hf & Hp).
  exists s. split; [exact Hs|]. split; [apply Hf; exists demoEvents, demoProgress; exact (conj demo_decodes demo_follows)|].
  exact (Hp _ _ demo_decodes demo_follows).
Defined.
