(* ===== verification/PiPublication.v ===== *)
(** * From a sealed Pi task to its published outcome

    The interpreters of the Pi adapter under the publication of [TaskPublication]: what the
    published payload of a task is, that nothing the adapter returns is refused, that the
    registry of the adapter resolves every revision, and that a complete transcript is
    published. *)
From S2P Require Import Prelude GoErrors GoTime GoText TaskTypes Encoding GoPath GoTimestamp TaskLifetime LifetimeClosure ControlDir ControlLifetimeProps.
From S2P Require Import TaskConfiguration TaskRecords TaskReducer TaskReducerTheorems SchedRequest TaskRecordsJson TaskDir TaskDirOps TaskPublication.
From S2P Require Import TaskDirProps InteractionJournalProps TaskLaunchProps TaskHistory TaskFixture ProviderJson ProviderJsonRecords PiEvidence PiProtocol PiTheorems.
From Stdlib Require Import Ascii.
#[local] Open Scope Z_scope.
#[local] Open Scope tx_scope.

(** ** The answer of a Pi task *)
Section pi.
Context (orbit : Z -> Z) (historicalStdout : parserOptions -> list ascii -> result eventState).
Context (D : TaskDecoders) (RootID TaskID : string).

(** What the stream [stdout] says of the answer [text] in the session [id]. *)
Definition answers (options : parserOptions) (stdout id text : string) : Prop :=
  exists es v m f,
    Forall2 (decodes orbit options) (recordsOf (bytes stdout)) es /\ sessionOnce es id /\ Forall (fun e => isKind KError e = false) es /\
    cycleDone orbit (po_nativeOutcome options) es v m f false /\ bad m = false /\ bad f = false /\ pm_stopReason f = "stop"%string /\
    copyPiMessageValue orbit v [] = (None, bytes text) /\ summarizes (pm_text m) (bytes text) /\ text <> ""%string.

Lemma identity_expected input id : identityMatches input id = true ->
  match se_Required (in_ExpectedSession input) with true => se_ID (in_ExpectedSession input) = id | false => True end.
Proof.
  unfold identityMatches. destruct (negb (validSessionID id)); [done|]. destruct (se_Required (in_ExpectedSession input)); [|done].
  destruct (negb (validSessionID _) || negb (eqs (se_ID (in_ExpectedSession input)) id)) eqn:E; [done|].
  by apply orb_false_iff in E as [_ E%negb_false_iff%eqs_true].
Qed.

(** C14: The published payload of a Pi task is the answer in its sealed transcript.  Let a
    collection, or the finalization by the runner, under any faults, return an outcome with
    the verdict of a commitment and no error, where there was none before, and let the
    registry have an interpreter of a current revision for the predicate.  Then the
    recorded seal, which the decoder reads from the directory, is of a provider that exited
    without an error; its manifest has the digest of the standard output on disk; that
    output is a complete stream of the protocol, of the session that the request continues
    if it continues one; and the payload on disk has the digest and length of the text
    that the turn, and the end of its cycle, agree on. *)
Theorem published_answer_in_transcript registry predicate i options u l d p d' o :
  currentEvidencePolicy (i_mode i) (i_version i) = Some options -> Resolve registry predicate = Ok (registered orbit historicalStdout i) ->
  (forall content, files d !! "raw/stdout"%string = Some content -> len content < 2 ^ 63) ->
  Collect D RootID TaskID u registry predicate d = (p, d') \/ Finalize D RootID TaskID l registry predicate d = (p, d') ->
  files d !! "outcome.json"%string = None -> pb_Outcome p = Some o -> pb_Err p = None -> oc_Verdict o = VerdictCommitted ->
  exists seal data entry req stdout id text stored,
    files d !! "provider.exit"%string = Some data /\ dec_Exit D data = inl seal /\ sealRefusal seal = ""%string /\
    files d !! "raw/stdout"%string = Some stdout /\ entry ∈ pe_RawManifest seal /\ rm_Path entry = "raw/stdout"%string /\
    rm_SHA256 entry = ComputeSHA256 stdout /\ answers options stdout id text /\
    requestIn D RootID TaskID (files d) req /\ (forall prior, tk_PriorSession req = Some prior -> id = ps_ConversationID prior) /\
    oc_Payload o = descriptor "result.txt" text /\
    files d' !! "result.txt"%string = Some stored /\ ComputeSHA256 stored = ComputeSHA256 text /\ len stored = len text.
Proof.
  intros Hp HR Hlen H Hn Ho He Hv.
  assert (rests D RootID TaskID registry predicate (files d) o) as Hrests by (destruct H as [H|H]; [by eapply collect_rests|by eapply finalize_rests]).
  assert (publishedIn D (files d') o) as [_ (stored & Hst & _ & Hsha & Hsl)].
  { destruct H as [H|H]; [apply collect_publishes in H as [_ H]|apply finalize_publishes in H as [_ H]]; auto. }
  destruct Hrests as (seal & data & interpreter & raw & input & req & r & written & Hd & Hx & _ & Hs & Hreq & Hin & Hex & HR' & Hev & Hov & Hop).
  rewrite HR in HR'. injection HR' as <-. cbn [registered ip_Evaluate] in Hev. unfold Evaluate in Hev. rewrite Hv in Hov. symmetry in Hov.
  destruct (committed_inv _ _ _ _ _ _ _ _ _ Hp Hev Hov) as (stdout & _ & _ & Hout & _).
  destruct (Hs _ _ Hout) as (Hfile & entry & Hentry & Hpath & Hdigest).
  destruct (committed_answer_verified _ _ _ _ _ _ _ _ _ _ Hp Hout (Hlen _ Hfile) Hev Hov) as (es & id & v & m & f & A1 & A2 & A3 & A4 & A5 & A6 & A7 & A8 & A9 & A10 & A11 & A12 & A13).
  assert (payloadOf r written = ("result.txt"%string, written)) as Epay by (unfold payloadOf; by rewrite Hov).
  rewrite Epay in Hop. cbn [fst snd] in Hop. rewrite Hop in Hst, Hsha, Hsl. cbn [descriptor py_Basename py_SHA256 py_Length] in Hst, Hsha, Hsl.
  exists seal, data, entry, req, stdout, id, written, stored. rewrite Hin in A6. split_and!; try done.
  - by exists es, v, m, f.
  - intros prior Hprior. apply identity_expected in A4. rewrite Hex in A4. unfold expectedSession in A4. by rewrite Hprior in A4.
Qed.
End pi.

(** ** The registry of the adapter *)
Lemma registerAll_distinct entries interpreters : Forall (fun v => ValidatePredicateRef (ip_Reference v) = Ok tt) interpreters ->
  NoDup (map fst entries ++ map ip_Reference interpreters) ->
  registerAll entries interpreters = Ok (entries ++ map (fun v => (ip_Reference v, v)) interpreters).
Proof.
  intros H. revert entries. induction H as [|v l Hv _ IH]; intros entries Hn; cbn [registerAll map]; [by rewrite app_nil_r|].
  rewrite Hv. cbn [mbind result_bind].
  assert (existsb (fun old => PredicateEqual (ip_Reference v) (fst old)) entries = false) as ->.
  { destruct (existsb _ entries) eqn:E; [|done]. apply existsb_exists in E as (old & Hin & He%PredicateEqual_true).
    apply NoDup_app in Hn as (_ & Hd & _). exfalso. apply (Hd (fst old)); [|rewrite <- He; by left].
    apply list_elem_of_fmap. exists old. split; [done|by apply list_elem_of_In]. }
  cbn [fail_if mbind result_bind]. rewrite IH; [by rewrite <- app_assoc|]. rewrite map_app, <- app_assoc. exact Hn.
Qed.

Lemma resolve_distinct (interpreters : list Interpreter) v : NoDup (map ip_Reference interpreters) -> v ∈ interpreters ->
  Resolve (map (fun v => (ip_Reference v, v)) interpreters) (ip_Reference v) = Ok v.
Proof.
  induction interpreters as [|x l IH]; intros Hn Hin; [by apply not_elem_of_nil in Hin|]. cbn [map Resolve] in *. apply NoDup_cons in Hn as [Hx Hn].
  destruct (PredicateEqual (ip_Reference v) (ip_Reference x)) eqn:E.
  - apply PredicateEqual_true in E. apply elem_of_cons in Hin as [->|Hin]; [done|]. exfalso. apply Hx. rewrite <- E.
    apply list_elem_of_fmap. by exists v.
  - apply elem_of_cons in Hin as [->|Hin]; [|by apply IH]. by rewrite (proj2 (PredicateEqual_true _ _) eq_refl) in E.
Qed.

Definition modeAndVersion (ref : PredicateRef) : string * string := (pr_Mode ref, pr_Version ref).

Lemma registered_references : Forall (fun i => Reference i = MkPredicateRef Provider (i_mode i) (i_version i)
  (ComputeSHA256 (contractForVersion (i_mode i) (i_version i)))) registeredInterpreters.
Proof.
  assert (forallb (fun i => negb (eqs (contractForVersion (i_mode i) (i_version i)) "")) registeredInterpreters = true) as H
    by (vm_compute; reflexivity).
  apply Forall_forall. intros i Hi. rewrite forallb_forall in H. specialize (H i (proj1 (list_elem_of_In _ _) Hi)).
  unfold Reference, referenceForVersion. apply negb_true_iff in H. by rewrite H.
Qed.

Lemma registered_distinct : NoDup (map Reference registeredInterpreters).
Proof.
  apply (NoDup_fmap_1 modeAndVersion). change (modeAndVersion <$> map Reference registeredInterpreters) with (map modeAndVersion (map Reference registeredInterpreters)).
  rewrite map_map. assert (map (fun i => modeAndVersion (Reference i)) registeredInterpreters = map (fun i => (i_mode i, i_version i)) registeredInterpreters) as ->.
  { apply map_ext_in. intros i Hi%list_elem_of_In. pose proof registered_references as H. rewrite Forall_forall in H. by rewrite (H i Hi). }
  apply (bool_decide_unpack _). vm_compute. exact I.
Qed.

Lemma registered_valid : Forall (fun i => ValidatePredicateRef (Reference i) = Ok tt) registeredInterpreters.
Proof.
  assert (Forall (fun i => (ValidateProvider Provider ;; fail_if (eqs (i_mode i) "") (New "missing predicate mode") ;; ValidateMode (i_mode i) ;;
    fail_if (negb (nonblank (i_version i))) (New "missing predicate version")) = Ok tt) registeredInterpreters) as H by (repeat constructor).
  apply Forall_forall. intros i Hi. pose proof registered_references as HR. rewrite Forall_forall in H, HR. rewrite (HR i Hi). specialize (H i Hi).
  unfold ValidatePredicateRef. cbn [pr_Adapter pr_Mode pr_Version pr_SHA256]. apply bind_Ok in H as ([] & H1 & H). apply bind_Ok in H as ([] & H2 & H).
  apply bind_Ok in H as ([] & H3 & H). rewrite H1, H2, H3, H. apply sha_valid.
Qed.

(** The interpreters that the adapter registers are accepted as a registry, and every
    reference that one of them has is resolved to that interpreter, whose revision it
    names, with the digest of its contract. *)
Lemma registration_resolves (orbit : Z -> Z) (historicalStdout : parserOptions -> list ascii -> result eventState) :
  exists registry, NewRegistry (Interpreters orbit historicalStdout) = Ok registry /\
    forall i, i ∈ registeredInterpreters ->
      Resolve registry (Reference i) = Ok (registered orbit historicalStdout i) /\
      Reference i = MkPredicateRef Provider (i_mode i) (i_version i) (ComputeSHA256 (contractForVersion (i_mode i) (i_version i))).
Proof.
  assert (map ip_Reference (Interpreters orbit historicalStdout) = map Reference registeredInterpreters) as E by done.
  eexists. split.
  - unfold NewRegistry. apply registerAll_distinct; [|cbn [map app]; rewrite E; exact registered_distinct].
    apply Forall_fmap. exact registered_valid.
  - intros i Hi. split; [|by pose proof registered_references as H; rewrite Forall_forall in H; apply H]. cbn [app].
    change (Reference i) with (ip_Reference (registered orbit historicalStdout i)). apply resolve_distinct; [rewrite E; exact registered_distinct|].
    unfold Interpreters. apply list_elem_of_fmap. exists i. split; [reflexivity|exact Hi].
Qed.

(** ** What the adapter returns is accepted *)

(** *** Usage rows *)
Definition counterValid (o : option Z) : Prop := match o with Some n => 0 <= n <= max_int64 | None => True end.

Definition totalsValid (u : usageTotals) : Prop :=
  counterValid (ut_input u) /\ counterValid (ut_output u) /\ counterValid (ut_thinking u) /\ counterValid (ut_total u) /\
  counterValid (ut_cacheRead u) /\ counterValid (ut_cacheCreation u).

Definition totalsOK (o : option usageTotals) : Prop := match o with Some u => totalsValid u | None => True end.

(** The rows of a state are within bounds, and so is the row of an open message. *)
Definition rowsValid (s : eventState) : Prop :=
  Forall totalsValid (es_usage s) /\ Z.of_nat (length (es_usage s)) <= maxUsageRows /\ totalsOK (es_messageUsage s).

Lemma presentOnly_valid : totalsValid presentOnly.
Proof. by repeat split. Qed.

Lemma nonnegative_bounds raw n : nonnegative raw = Done n -> 0 <= n <= max_int64.
Proof.
  unfold nonnegative, Atoi. destruct (match bytes _ with [] => _ | _ :: _ => _ end) as [neg digits].
  destruct (negb (0 <? _) || _); [done|]. destruct ((_ <? min_int64) || (max_int64 <? _)) eqn:E; [done|].
  destruct (_ <? 0) eqn:En; [done|]. intros [= <-]. apply orb_false_iff in E as [_ E%Z.ltb_ge]. apply Z.ltb_ge in En. lia.
Qed.

Lemma counter_valid fields reliable known names : counterValid (fst (fst (piCurrentUsageCounter fields reliable known names))).
Proof.
  revert known. induction names as [|name names IH]; intros known; cbn [piCurrentUsageCounter]; [done|].
  destruct (fields !! name) as [value|]; [|apply IH]. destruct (piCurrentNull value); [done|].
  destruct (Raw value 64) as [raw|]; [|done]. cbn [mbind outcome_bind]. destruct (nonnegative raw) as [n|] eqn:E; [|done].
  exact (nonnegative_bounds _ _ E).
Qed.

Section rows.
Context (orbit : Z -> Z).

Lemma parsed_valid value : totalsOK (fst (parsePiCurrentUsage orbit value)).
Proof.
  unfold parsePiCurrentUsage. destruct (v_Reader value); [|done]. destruct (piCurrentNull value); [exact presentOnly_valid|].
  destruct (Object orbit value _) as [fields|]; [|exact presentOnly_valid].
  repeat match goal with |- context [piCurrentUsageCounter ?f ?r ?k ?n] =>
    pose proof (counter_valid f r k n); destruct (piCurrentUsageCounter f r k n) as [[? ?] ?]; cbn [fst] in * end.
  by split_and!.
Qed.

Lemma usageOf_valid value : totalsOK (fst (usageOf orbit value)).
Proof. unfold usageOf. destruct (Object orbit value _); [apply parsed_valid|exact presentOnly_valid]. Qed.

Lemma message_valid value keepText m : decodePiCurrentMessage orbit value keepText = Done m -> totalsOK (pm_usage m).
Proof.
  unfold decodePiCurrentMessage. intros H. repeat (match type of H with (?m ≫= _) = _ => destruct m; [cbn [mbind outcome_bind] in H|done] end).
  pose proof (usageOf_valid value) as Hu. destruct (usageOf orbit value) as [u r]. injection H as <-. exact Hu.
Qed.

(** Steps through a handler whose setters leave the rows. *)
Lemma rows_mark reason s : rowsValid s -> rowsValid (markSemantic reason s).
Proof. unfold markSemantic. by destruct (es_semanticErr s). Qed.

Lemma rows_observe usage reliable s : rowsValid s -> rowsValid (observeUsage usage reliable s).
Proof. unfold observeUsage. by destruct usage. Qed.

Lemma rows_append usage reliable s : totalsOK usage -> rowsValid s -> rowsValid (appendPiCurrentUsage usage reliable s).
Proof.
  intros Hu Hs. unfold appendPiCurrentUsage. destruct usage as [row|]; [|done].
  destruct (rows_observe (Some row) reliable s Hs) as (H1 & H2 & H3). revert H1 H2 H3. generalize (observeUsage (Some row) reliable s). intros s1 H1 H2 H3.
  destruct (maxUsageRows <=? Z.of_nat (length (es_usage s1))) eqn:E; [by split_and!|]. apply Z.leb_gt in E.
  split_and!; [change (Forall totalsValid (es_usage s1 ++ [row])); apply Forall_app; by split; [|constructor]| |exact H3].
  change (Z.of_nat (length (es_usage s1 ++ [row])) <= maxUsageRows). rewrite length_app. cbn [length]. lia.
Qed.

Lemma rows_note m s : rowsValid s -> rowsValid (noteErrorMessage m s) /\ rowsValid (noteStopReason m s).
Proof. intros H. unfold noteErrorMessage, noteStopReason. by split; case_match. Qed.

Lemma rows_update value s : rowsValid s -> rowsValid (updateUsage orbit value s).
Proof.
  intros (H1 & H2 & H3). unfold updateUsage. pose proof (usageOf_valid value) as Hu. destruct (usageOf orbit value) as [[u|] r]; [|by split_and!].
  apply rows_observe. by split_and!.
Qed.

Lemma rows_messageEnd fields s : rowsValid s -> rowsValid (applyPiCurrentMessageEnd orbit fields s).
Proof.
  intros Hs. unfold applyPiCurrentMessageEnd. destruct (_ || _ || _); [by apply rows_mark|]. destruct (fields !! _) as [v|]; [|by apply rows_mark].
  destruct (decodePiCurrentMessage orbit v true) as [m|] eqn:Em; [|by apply rows_mark]. apply message_valid in Em.
  set (s1 := set_messageOpen false s). assert (rowsValid s1) as H1 by exact Hs. revert H1. generalize s1. clear s1. intros s1 H1.
  destruct (negb _); [done|]. cbv zeta. destruct (rows_note m s1 H1) as [H2 _]. revert H2. generalize (noteErrorMessage m s1). intros s2 H2.
  destruct (validateCompletedAssistantStopReason _); [|by apply rows_mark].
  destruct (rows_note m s2 H2) as [_ H3]. revert H3. generalize (noteStopReason m s2). intros s3 H3.
  set (final := fun t => set_lastMessageStopReason (pm_stopReason m) (set_lastMessageSeen true (set_currentLastMessage (pm_text m)
    (set_messageUsageReliable true (set_messageUsage None t))))).
  assert (forall t, rowsValid t -> rowsValid (final t)) as Hf by (by intros t (? & ? & ?); split_and!).
  apply (Hf (match pm_usage m with Some _ => _ | None => _ end)).
  destruct (pm_usage m) as [row|] eqn:Eu; apply rows_append; try done. by destruct H3 as (_ & _ & ?).
Qed.

Lemma rows_turnEnd fields s : rowsValid s -> rowsValid (applyPiCurrentTurnEnd orbit fields s).
Proof.
  intros Hs. unfold applyPiCurrentTurnEnd. destruct (_ || _ || _); [by apply rows_mark|]. destruct (fields !! _) as [v|]; [|by apply rows_mark].
  destruct (decodePiCurrentMessage orbit v true) as [m|]; [|by apply rows_mark]. destruct (validatePiCurrentToolResults orbit fields); [|by apply rows_mark].
  pose proof (rows_observe (pm_usage m) (pm_usageReliable m) s Hs) as H1. revert H1. generalize (observeUsage (pm_usage m) (pm_usageReliable m) s). intros s1 H1.
  assert (rowsValid (snd (validatePiCurrentTurnEndMessage m s1))) as H2.
  { unfold validatePiCurrentTurnEndMessage. destruct (negb _); [done|]. cbv zeta. destruct (rows_note m s1 H1) as [H2 _].
    destruct (validateCompletedAssistantStopReason _); [|done]. by destruct (rows_note m _ H2) as [_ H3]. }
  destruct (validatePiCurrentTurnEndMessage m s1) as [[reason|] s2]; [by apply rows_mark|done].
Qed.

Lemma rows_agentEnd fields s : rowsValid s -> rowsValid (applyPiCurrentAgentEnd orbit fields s).
Proof.
  intros Hs. unfold applyPiCurrentAgentEnd. destruct (_ || _); [by apply rows_mark|]. destruct (fields !! _) as [v|]; [|by apply rows_mark].
  destruct (decodePiCurrentFinalMessage orbit v) as [[m b]|]; [|by apply rows_mark]. cbv zeta.
  pose proof (rows_observe (pm_usage m) (pm_usageReliable m) s Hs) as H1. revert H1. generalize (observeUsage (pm_usage m) (pm_usageReliable m) s). intros s1 H1.
  assert (rowsValid (if negb (eqs (pm_errorMessage m) "") || b then set_providerFail true s1 else s1)) as H2 by (by case_match).
  revert H2. generalize (if negb (eqs (pm_errorMessage m) "") || b then set_providerFail true s1 else s1). intros s2 H2.
  repeat (case_match; try first [by apply rows_mark|done]).
Qed.

Lemma rows_settled fields s : rowsValid s -> rowsValid (applyPiCurrentSettledOutcome fields s).
Proof. intros H. unfold applyPiCurrentSettledOutcome. repeat case_match; try done. by apply rows_mark. Qed.
Lemma rows_retry fields s : rowsValid s -> rowsValid (applyPiCurrentRetryOutcome fields s).
Proof. intros H. unfold applyPiCurrentRetryOutcome. repeat case_match; try done. by apply rows_mark. Qed.
Lemma rows_unknown t s : rowsValid s -> rowsValid (applyPiCurrentUnknownEvent t s).
Proof. intros H. unfold applyPiCurrentUnknownEvent. case_match; [by apply rows_mark|done]. Qed.
Lemma rows_begin s : rowsValid s -> rowsValid (beginPiCurrentCycle s).
Proof. intros (? & ? & ?). by split_and!. Qed.
Lemma rows_agentStart s : rowsValid s -> rowsValid (applyPiCurrentAgentStart s).
Proof. intros H. unfold applyPiCurrentAgentStart. case_match; [by apply rows_mark|done]. Qed.
Lemma rows_retryStart s : rowsValid s -> rowsValid (applyPiCurrentRetryStart s).
Proof. intros H. unfold applyPiCurrentRetryStart. case_match; [by apply rows_mark|done]. Qed.
Lemma rows_turnStart s : rowsValid s -> rowsValid (applyPiCurrentTurnStart s).
Proof. intros H. unfold applyPiCurrentTurnStart. repeat case_match; [by apply rows_mark|done..]. Qed.
Lemma rows_session fields s : rowsValid s -> rowsValid (applyPiCurrentSession fields s).
Proof. intros H. unfold applyPiCurrentSession. repeat (case_match; try by apply rows_mark). done. Qed.
Lemma rows_messageStart fields s : rowsValid s -> rowsValid (applyPiCurrentMessageStart orbit fields s).
Proof.
  intros H. unfold applyPiCurrentMessageStart. destruct (_ || _ || _); [by apply rows_mark|]. destruct (fields !! _) as [v|]; [|by apply rows_mark].
  destruct (decodePiCurrentMessage orbit v false) as [m|]; [|by apply rows_mark].
  by destruct (rows_observe (pm_usage m) (pm_usageReliable m) s H) as (? & ? & ?).
Qed.
Lemma rows_messageUpdate fields v s : rowsValid s -> rowsValid (applyPiCurrentMessageUpdate orbit fields v s).
Proof.
  intros H. unfold applyPiCurrentMessageUpdate. destruct (_ || _); [by apply rows_mark|].
  destruct (validateAssistantEvent _ _); [by apply rows_update|by apply rows_mark].
Qed.

#[local] Hint Resolve rows_mark rows_settled rows_retry rows_unknown rows_begin rows_agentStart rows_retryStart rows_turnStart rows_session
  rows_messageStart rows_messageUpdate rows_messageEnd rows_turnEnd rows_agentEnd : core.

Lemma rows_event e s : rowsValid s -> rowsValid (applyPiCurrentEvent orbit e s).
Proof.
  intros H. assert (rowsValid (applyPiCurrentError s)) as He by exact H.
  assert (rowsValid (set_agentSettled true s)) as Hse by exact H.
  unfold applyPiCurrentEvent, applyPiCurrentAfterAgentEnd, applyPiCurrentBeforeAgentEnd, applyPiCurrentMessageEvent, applyPiCurrentRetryEvent.
  repeat (match goal with |- rowsValid (if ?b then _ else _) => destruct b end; auto).
Qed.

Lemma rows_record v line s : rowsValid s -> rowsValid (snd (visitRecord orbit v line s)).
Proof.
  intros H. unfold visitRecord, processPiCurrentRecord. destruct (semanticFault s); [done|]. cbn [snd].
  destruct (_ =? _); [by apply rows_mark|]. destruct (decodePiCurrentEvent _ _ _); [by apply rows_event|by apply rows_mark].
Qed.

Lemma rows_parsed content options s : Z.of_nat (length content) < 2 ^ 63 -> parseStdout orbit content options = Ok s -> rowsValid s.
Proof.
  intros Hl. unfold parseStdout. rewrite Records_sealed by done.
  assert (forall frames t, rowsValid t -> rowsValid (snd (visitAll (visits orbit (MkReaderAt content None)) frames t))) as Hv.
  { induction frames as [|[[a b] n] frames IH]; intros t Ht; cbn [visitAll]; [done|]. unfold visits at 1.
    pose proof (rows_record (MkValue (Some (MkReaderAt content None)) a b) n t Ht) as H1.
    destruct (visitRecord orbit _ n t) as [[x|] t1]; [done|by apply IH]. }
  specialize (Hv (framesOf content) (initialState options) ltac:(by split_and!)).
  change (fun a b line => visitRecord orbit (MkValue (Some (MkReaderAt content None)) a b) line) with (visits orbit (MkReaderAt content None)).
  destruct (visitAll _ _ _) as [fault t]. cbn [snd] in Hv. intros [= <-]. repeat case_match; try done. by apply rows_mark.
Qed.
End rows.

(** *** Sizes of encoded records *)
Definition size (j : json) : Z := Z.of_nat (length (render j)).
Definition textSize (s : string) : Z := Z.of_nat (length (jsonString s)).

(** What a field adds to an object, with its colon and a comma. *)
Definition cost (f : string * json) : Z := textSize (fst f) + size (snd f) + 2.
Definition costs (l : list (string * json)) : Z := foldr (fun f n => cost f + n) 0 l.

Lemma costs_app a b : costs (a ++ b) = costs a + costs b.
Proof. induction a as [|f a IH]; cbn [costs foldr app]; [done|]. fold (costs (a ++ b)) (costs a). lia. Qed.

Lemma size_object fields : size (JObject fields) <= 2 + costs fields.
Proof.
  unfold size. cbn [render]. cbn [length]. rewrite length_app. cbn [length].
  assert (Z.of_nat (length (commaSep (map (fun f => jsonString (fst f) ++ ":"%char :: render (snd f)) fields))) <= costs fields) as H; [|lia].
  induction fields as [|f [|g fields] IH]; [done| |].
  - cbn [map commaSep costs foldr]. unfold cost, size, textSize. rewrite length_app. cbn [length]. lia.
  - cbn [costs foldr]. fold (costs (g :: fields)) in *. change (map ?h (f :: g :: fields)) with (h f :: map h (g :: fields)).
    cbn [costs foldr] in *. fold (costs fields) in *. revert IH. cbn [map]. set (X := commaSep (_ :: _)). intros IH.
    change (commaSep (?a :: ?b :: ?c)) with (a ++ ","%char :: commaSep (b :: c)). fold X. rewrite !length_app. cbn [length].
    unfold cost at 1, size at 1, textSize at 1. lia.
Qed.

Lemma size_array bound entries : Forall (fun j => size j <= bound) entries -> size (JArray entries) <= 2 + Z.of_nat (length entries) * (bound + 1).
Proof.
  intros HF. unfold size in *. cbn [render]. cbn [length]. rewrite length_app. cbn [length].
  assert (Z.of_nat (length (commaSep (map render entries))) <= Z.of_nat (length entries) * (bound + 1)) as H; [|lia].
  induction HF as [|j [|k entries] Hj HF IH]; [done| |].
  - cbn [map commaSep length]. lia.
  - change (commaSep (map render (j :: k :: entries))) with (render j ++ ","%char :: commaSep (map render (k :: entries))).
    rewrite length_app. cbn [length] in *. lia.
Qed.

Lemma little_digits d : (Decimal.nb_digits (Decimal.Little.double d) <= S (Decimal.nb_digits d))%nat /\
  (Decimal.nb_digits (Decimal.Little.succ_double d) <= S (Decimal.nb_digits d))%nat.
Proof. induction d as [|d IH|d IH|d IH|d IH|d IH|d IH|d IH|d IH|d IH|d IH]; cbn in *; lia. Qed.

Lemma positive_digits p : (Decimal.nb_digits (Pos.to_little_uint p) <= Pos.size_nat p)%nat.
Proof.
  induction p as [p IH|p IH|]; cbn [Pos.to_little_uint Pos.size_nat]; [| |done].
  - destruct (little_digits (Pos.to_little_uint p)) as [_ H]. lia.
  - destruct (little_digits (Pos.to_little_uint p)) as [H _]. lia.
Qed.

Lemma positive_size p : 2 ^ Z.of_nat (Pos.size_nat p) <= 2 * Z.pos p.
Proof.
  induction p as [p IH|p IH|]; cbn [Pos.size_nat]; [| |done]; rewrite Nat2Z.inj_succ, Z.pow_succ_r by lia; lia.
Qed.

Lemma uint_length d : length (bytes (DecimalString.NilEmpty.string_of_uint d)) = Decimal.nb_digits d.
Proof. rewrite length_list_ascii. induction d; cbn; congruence. Qed.

Lemma decimal_size n : 0 <= n <= max_int64 -> size (JInt n) <= 64.
Proof.
  intros Hn. unfold size. cbn [render]. unfold decimalText. destruct n as [|p|p]; [done| |lia].
  change (Z.to_int (Z.pos p)) with (Decimal.Pos (Pos.to_uint p)). unfold DecimalString.NilZero.string_of_int.
  assert (length (bytes (DecimalString.NilZero.string_of_uint (Pos.to_uint p))) <= Nat.max 1 (Decimal.nb_digits (Pos.to_uint p)))%nat as H.
  { unfold DecimalString.NilZero.string_of_uint. destruct (Pos.to_uint p); rewrite ?uint_length; cbn; lia. }
  unfold Pos.to_uint in H. rewrite DecimalFacts.nb_digits_rev in H. pose proof (positive_digits p) as Hp.
  assert (Pos.size_nat p <= 63)%nat; [|unfold Pos.to_uint in *; lia].
  destruct (Nat.le_gt_cases (Pos.size_nat p) 63) as [Hl|Hl]; [done|]. pose proof (positive_size p) as Hz.
  assert (2 ^ 64 <= 2 ^ Z.of_nat (Pos.size_nat p)) by (apply Z.pow_le_mono_r; lia). unfold max_int64 in Hn. lia.
Qed.

Definition usageRowOf (row : UsageMetadata) : Prop :=
  exists reliability u, (reliability = "reported" \/ reliability = "unreliable")%string /\ totalsValid u /\ row = usageRow reliability u.

Lemma reported_rows s reliability : rowsValid s -> (reliability = "reported" \/ reliability = "unreliable")%string ->
  Forall (usageRowOf) (currentUsageFromState s reliability) /\ Z.of_nat (length (currentUsageFromState s reliability)) <= maxUsageRows.
Proof.
  intros (HF & Hl & _) Hr. assert (forall r, (r = "reported" \/ r = "unreliable")%string ->
    Forall (usageRowOf) (usageFromState s r) /\ Z.of_nat (length (usageFromState s r)) <= maxUsageRows) as H.
  { intros r Hr'. unfold usageFromState. split.
    - apply Forall_fmap, Forall_forall. intros u Hu. apply list_elem_of_In, filter_In in Hu as [Hu _].
      rewrite Forall_forall in HF. exists r, u. split_and!; [done|apply HF; by apply list_elem_of_In|done].
    - rewrite length_map. pose proof (filter_length_le ut_present (es_usage s)). lia. }
  unfold currentUsageFromState. destruct (negb (es_current s)); [by apply H|]. apply H. destruct (negb _); auto.
Qed.

Lemma counter_cost name o : counterValid o -> costs (omitempty name (JInt <$> o)) <= textSize name + 66.
Proof.
  destruct o as [n|]; cbn [fmap option_fmap option_map omitempty costs foldr]; [|unfold textSize; lia].
  intros H%decimal_size. unfold cost. cbn [fst snd]. lia.
Qed.

Lemma row_size row : usageRowOf row -> size (jsonUsage row) <= 850.
Proof.
  intros (reliability & u & Hr & (H1 & H2 & H3 & H4 & H5 & H6) & ->). unfold jsonUsage, usageRow.
  cbn [us_Scope us_Source us_Reliability us_InputTokens us_OutputTokens us_ThinkingTokens us_TotalTokens us_CacheReadTokens us_NumTurns
    us_DurationSeconds us_Model us_CacheCreationTokens us_EstimatedCostUSD].
  etransitivity; [apply size_object|]. rewrite !costs_app.
  pose proof (counter_cost "input_tokens" _ H1). pose proof (counter_cost "output_tokens" _ H2). pose proof (counter_cost "thinking_tokens" _ H3).
  pose proof (counter_cost "total_tokens" _ H4). pose proof (counter_cost "cache_read_tokens" _ H5). pose proof (counter_cost "cache_creation_tokens" _ H6).
  assert (textSize "input_tokens" = 14 /\ textSize "output_tokens" = 15 /\ textSize "thinking_tokens" = 17 /\ textSize "total_tokens" = 14 /\
    textSize "cache_read_tokens" = 19 /\ textSize "cache_creation_tokens" = 23) as (T1 & T2 & T3 & T4 & T5 & T6) by (vm_compute; by split_and!).
  assert (costs [field "scope" "unknown"; field "source" "provider-event"; field "reliability" reliability] <= 100) as HB
    by (destruct Hr as [-> | ->]; vm_compute; by intros).
  change (costs (omitempty "num_turns" (JInt <$> None))) with 0. change (costs (omitempty "duration_seconds" (JString <$> None))) with 0.
  change (costs (omitempty "model" (JString <$> None))) with 0. change (costs (omitempty "estimated_cost_usd" (JString <$> None))) with 0. lia.
Qed.

Lemma usage_row_valid row : usageRowOf row -> ValidateUsageMetadata row = Ok tt.
Proof.
  intros (reliability & u & Hr & (H1 & H2 & H3 & H4 & H5 & H6) & ->). unfold ValidateUsageMetadata, usageRow.
  cbn [us_Scope us_Source us_Reliability us_InputTokens us_OutputTokens us_ThinkingTokens us_TotalTokens us_CacheReadTokens us_NumTurns
    us_DurationSeconds us_Model us_CacheCreationTokens us_EstimatedCostUSD each].
  assert (forall o, counterValid o -> fail_if (match o with Some n => n <? 0 | None => false end) (New "negative usage counter") = Ok tt) as Hc.
  { intros [n|] Hn; [|done]. cbn in Hn. by rewrite (proj2 (Z.ltb_ge n 0)) by lia. }
  rewrite !Hc by done. destruct Hr as [-> | ->]; vm_compute; reflexivity.
Qed.

Lemma each_all {A} (check : A -> result unit) l : Forall (fun x => check x = Ok tt) l -> each check l = Ok tt.
Proof. induction 1 as [|x l Hx _ IH]; cbn [each]; [done|]. by rewrite Hx, IH. Qed.

Lemma rows_accepted s reliability : rowsValid s -> (reliability = "reported" \/ reliability = "unreliable")%string ->
  ValidateUsageMetadataList (currentUsageFromState s reliability) = Ok tt.
Proof.
  intros H Hr. apply each_all. destruct (reported_rows s reliability H Hr) as [HF _]. apply (Forall_impl _ _ _ HF).
  intros row Hrow%usage_row_valid. by rewrite Hrow.
Qed.

(** The diagnostics of the adapter are of a few texts. *)
Definition knownDiagnostic (d : OutputDiagnostic) : Prop := ValidateOutputDiagnostic d = Ok tt /\ size (jsonDiagnostic d) <= 200.

Lemma warning_known s : Forall knownDiagnostic (piCurrentUsageWarning s) /\ (length (piCurrentUsageWarning s) <= 1)%nat.
Proof.
  unfold piCurrentUsageWarning. destruct (_ || _ || _); [by split; [constructor|cbn; lia]|].
  split; [|done]. constructor; [|constructor]. split; [vm_compute; reflexivity|vm_compute; by intros].
Qed.

Lemma diagnostic_known refusal : knownDiagnostic (piCurrentDiagnostic refusal).
Proof.
  unfold piCurrentDiagnostic. repeat (match goal with |- knownDiagnostic (if ?b then _ else _) => destruct b end;
    [split; [vm_compute; reflexivity|vm_compute; by intros]|]). split; [vm_compute; reflexivity|vm_compute; by intros].
Qed.

Lemma diagnostics_accepted l : Forall knownDiagnostic l -> (length l <= 2)%nat -> ValidateOutputDiagnostics l = Ok tt.
Proof.
  intros HF Hl. unfold ValidateOutputDiagnostics. rewrite (proj2 (Z.ltb_ge MaxOutputDiagnostics _)) by (unfold MaxOutputDiagnostics; lia).
  cbn [fail_if mbind result_bind]. apply each_all, (Forall_impl _ _ _ HF). intros d [-> _]. done.
Qed.

(** *** Interpretations *)
Lemma sessionID_plain id : validSessionID id = true -> forallb spaceless (bytes id) = true /\ ContainsByte id "000" = false /\ len id = 36.
Proof.
  unfold validSessionID. intros [Hl%Z.eqb_eq H]%andb_true_iff. rewrite forallb_forall in H.
  assert (forall c, In c (bytes id) -> spaceless c = true /\ c <> "000"%char) as Hb.
  2: { split; [apply forallb_forall; by intros c [Hc _]%Hb|split; [|done]]. unfold ContainsByte. destruct (existsb _ _) eqn:E; [|done].
       by apply existsb_exists in E as (c & [_ Hc]%Hb & E%bool_decide_eq_true). }
  intros c Hc. apply list_elem_of_In, list_elem_of_lookup in Hc as [k Hk].
  assert (sessionIDByte (Z.of_nat k) c = true) as Hb.
  { apply (H (k, c)), list_elem_of_In, (list_elem_of_lookup_2 _ k). rewrite list_lookup_imap, Hk. done. }
  clear -Hb. unfold sessionIDByte in Hb. destruct ((_ =? 8) || _ || _ || _); [apply bool_decide_eq_true in Hb as ->; split; [reflexivity|discriminate]|].
  destruct c as [[] [] [] [] [] [] [] []]; first [discriminate Hb|split; [reflexivity|discriminate]].
Qed.

Lemma sessionID_accepted id : validSessionID id = true -> ValidateSessionIdentity (MkSessionIdentity Provider id) = Ok tt.
Proof.
  intros (Hp & Hz & Hl)%sessionID_plain. unfold ValidateSessionIdentity. cbn [si_Provider si_ConversationID].
  assert (nonblank id = true) as ->; [|by vm_compute]. unfold nonblank. rewrite (TrimSpace_spaceless _ Hp).
  rewrite Hz. destruct (eqs id "") eqn:E; [|done]. by apply eqs_eq in E as ->.
Qed.

(** What a current interpretation has, whatever the state it is of. *)
Definition interpreted (input : Input) (r : Interpretation) (text : string) : Prop :=
  (exists s reliability, rowsValid s /\ (reliability = "reported" \/ reliability = "unreliable")%string /\
     it_Usage r = currentUsageFromState s reliability) /\
  Forall knownDiagnostic (it_Diagnostics r) /\ (length (it_Diagnostics r) <= 2)%nat /\
  ((it_Verdict r = VerdictRejected /\ it_Refusal r <> ""%string /\ it_Session r = None) \/
   (it_Verdict r = VerdictCommitted /\ it_Refusal r = ""%string /\ text <> ""%string /\
    exists id, it_Session r = Some (MkSessionIdentity Provider id) /\ identityMatches input id = true)).

Section interpretations.
Context (orbit : Z -> Z) (historicalStdout : parserOptions -> list ascii -> result eventState).

Lemma interpretation_cases i options input raw reference r text :
  currentEvidencePolicy (i_mode i) (i_version i) = Some options ->
  (forall content, streamOf "raw/stdout" raw = Some content -> len content < 2 ^ 63) ->
  evaluateAgainst orbit historicalStdout i input raw reference = (Ok r, text) ->
  validMode (i_mode i) = true /\ validateEvaluationInput input reference = Ok tt /\ interpreted input r text.
Proof.
  intros Hp Hlen He. pose proof He as He'. unfold evaluateAgainst, readEvidence in He. rewrite Hp in He.
  destruct (validMode (i_mode i)) eqn:Em; [|done]. split; [done|]. cbn [negb fail_if mbind result_bind] in He.
  destruct (validateEvaluationInput _ _) as [[]|]; [|done]. cbn [mbind result_bind] in He. split; [done|].
  destruct (readCurrentEvidence orbit raw options) as [s|] eqn:Er; [|done]. unfold readCurrentEvidence in Er. apply both_Ok in Er as [Er _].
  unfold readStream in Er. destruct (streamOf "raw/stdout" raw) as [content|] eqn:Es; [|done]. specialize (Hlen _ eq_refl) as Hl.
  unfold len in Hl. rewrite <- length_list_ascii in Hl. pose proof (rows_parsed orbit _ _ _ Hl Er) as Hrows.
  destruct (warning_known s) as [Hw1 Hw2]. destruct (eqs (refusalFor input s) "") eqn:Ef; cbn [negb] in He.
  - destruct (acceptedAnswer orbit raw s) as [answer|] eqn:Ea; [|done]. injection He as <- <-.
    destruct (committed_answer_verified _ _ _ _ _ _ _ _ _ _ Hp Es (Hlen _ eq_refl) He' eq_refl) as (es & id & v & m & f & A).
    destruct A as (_ & _ & A3 & A4 & _ & _ & _ & _ & _ & _ & _ & _ & A13). cbn [it_Session] in A3. unfold interpreted.
    cbn [it_Usage it_Diagnostics it_Verdict it_Refusal it_Session]. split_and!.
    + exists s, "reported"%string. auto.
    + by destruct (es_current s).
    + destruct (es_current s); [lia|cbn; lia].
    + right. split_and!; [done|done|done|]. by exists id.
  - injection He as <- <-. unfold interpreted, rejection. cbn [it_Usage it_Diagnostics it_Verdict it_Refusal it_Session]. split_and!.
    + exists s, "unreliable"%string. auto.
    + destruct (es_current s); [|done]. constructor; [apply diagnostic_known|done].
    + destruct (es_current s); cbn [length]; lia.
    + left. split_and!; [done| |done]. intros E. by rewrite E in Ef.
Qed.
End interpretations.

Lemma interpreted_valid input r text : interpreted input r text -> ValidateInterpretation r = Ok tt.
Proof.
  intros ((s & reliability & Hs & Hr & Hu) & HF & Hl & H). unfold ValidateInterpretation.
  rewrite Hu, (rows_accepted s reliability Hs Hr), diagnostics_accepted by done.
  destruct H as [(-> & Hn & ->)|(-> & -> & _ & id & -> & Hid)].
  - destruct (eqs (it_Refusal r) "") eqn:E; [by apply eqs_eq in E|done].
  - cbn [mbind result_bind when_some]. rewrite sessionID_accepted; [done|]. unfold identityMatches in Hid. by destruct (validSessionID id).
Qed.

Lemma interpreted_identity input r text : pr_Adapter (pe_Predicate (in_Seal input)) = Provider -> interpreted input r text ->
  validateInterpretedIdentity input r = Ok tt.
Proof.
  intros Ha (_ & _ & _ & [(_ & _ & Hn)|(_ & _ & _ & id & Hs & Hid)]); unfold validateInterpretedIdentity; [by rewrite Hn|].
  pose proof (identity_expected _ _ Hid) as He. unfold identityMatches in Hid. rewrite Hs, Ha. cbn [when_some si_Provider si_ConversationID].
  rewrite !eqs_refl. cbn [negb fail_if mbind result_bind].
  assert (se_Required (in_ExpectedSession input) && negb (eqs id (se_ID (in_ExpectedSession input))) = false) as ->.
  { destruct (se_Required _); [|done]. rewrite He, eqs_refl. done. }
  cbn [fail_if mbind result_bind]. destruct (negb (validSessionID id)); [done|].
  destruct (if se_Required (in_ExpectedSession input) then _ else _); [done|]. destruct (in_RecordedSession input) as [recorded|]; [|done].
  cbn [when_some]. apply andb_true_iff in Hid as [->%eqs_eq ->%eqs_eq]. by rewrite !eqs_refl.
Qed.

Lemma current_interpreter i options : currentEvidencePolicy (i_mode i) (i_version i) = Some options -> validMode (i_mode i) = true ->
  i_mode i ∈ [ModeReadOnly; ModeWorkspaceWrite] /\
  i_version i ∈ [outcomeEvidenceVersion; currentPredicateVersion; priorReadOnlyVersion; "7"%string; priorWorkspaceVersion].
Proof.
  unfold validMode. intros Hp Hm%orb_true_iff. split; [destruct Hm as [Hm|Hm]; apply eqs_true in Hm as ->; repeat constructor|].
  unfold currentEvidencePolicy in Hp.
  destruct (eqs (i_version i) outcomeEvidenceVersion) eqn:E1; [apply eqs_true in E1 as ->; by left|].
  destruct (eqs (i_version i) currentPredicateVersion) eqn:E2; [apply eqs_true in E2 as ->; by right; left|].
  destruct (eqs (i_version i) priorReadOnlyVersion) eqn:E3; [apply eqs_true in E3 as ->; by right; right; left|].
  destruct (eqs (i_version i) "7") eqn:E4; [apply eqs_true in E4 as ->; by do 3 right; left|].
  destruct (eqs (i_version i) priorWorkspaceVersion) eqn:E5; [apply eqs_true in E5 as ->; by do 4 right; left|].
  cbn [andb orb] in Hp. by rewrite andb_false_r, andb_false_r in Hp.
Qed.

Lemma hex_size n s : hexText n s = true -> textSize s = n + 2.
Proof. intros <-%hex_string. unfold textSize, len. by rewrite <- length_list_ascii, bytes_str. Qed.

Lemma cost_field name s n : textSize s <= n -> cost (field name s) <= textSize name + n + 2.
Proof. unfold cost, field, size. cbn [fst snd render]. fold (textSize s). lia. Qed.

Lemma reference_size i : i_mode i ∈ [ModeReadOnly; ModeWorkspaceWrite] ->
  i_version i ∈ [outcomeEvidenceVersion; currentPredicateVersion; priorReadOnlyVersion; "7"%string; priorWorkspaceVersion] ->
  ValidatePredicateRef (Reference i) = Ok tt -> pr_Adapter (Reference i) = Provider /\ size (jsonPredicateRef (Reference i)) <= 400.
Proof.
  intros Hm Hv Hr. unfold Reference, referenceForVersion in *. destruct (eqs (contractForVersion _ _) ""); [discriminate Hr|].
  cbn [pr_Adapter]. split; [done|]. clear Hr. generalize (ComputeSHA256_hex (contractForVersion (i_mode i) (i_version i))).
  generalize (ComputeSHA256 (contractForVersion (i_mode i) (i_version i))). intros sha Hs%hex_size.
  unfold jsonPredicateRef. cbn [pr_Adapter pr_Mode pr_Version pr_SHA256]. etransitivity; [apply size_object|].
  assert (textSize (i_mode i) <= 30) as H1.
  { assert (forallb (fun s => textSize s <=? 30) [ModeReadOnly; ModeWorkspaceWrite] = true) as H by (vm_compute; reflexivity).
    rewrite forallb_forall in H. apply Z.leb_le, H. by apply list_elem_of_In. }
  assert (textSize (i_version i) <= 30) as H2.
  { assert (forallb (fun s => textSize s <=? 30) [outcomeEvidenceVersion; currentPredicateVersion; priorReadOnlyVersion; "7"%string;
      priorWorkspaceVersion] = true) as H by (vm_compute; reflexivity).
    rewrite forallb_forall in H. apply Z.leb_le, H. by apply list_elem_of_In. }
  pose proof (cost_field "mode" _ _ H1). pose proof (cost_field "version" _ _ H2). pose proof (cost_field "sha256" sha 66 ltac:(lia)).
  unfold field in *. cbn [costs foldr]. change (cost ("adapter"%string, JString Provider)) with 20.
  change (textSize "mode") with 6 in *. change (textSize "version") with 9 in *. change (textSize "sha256") with 8 in *. lia.
Qed.

Lemma interpreted_size input r text : interpreted input r text ->
  costs (omitArray "usage" jsonUsage (it_Usage r) ++ omitArray "diagnostics" jsonDiagnostic (it_Diagnostics r)) <= 880000.
Proof.
  intros ((s & reliability & Hs & Hr & ->) & HF & Hl & _). rewrite costs_app.
  assert (forall A (encode : A -> json) name l bound n, textSize name <= 20 -> Forall (fun x => size (encode x) <= bound) l ->
    0 <= bound -> Z.of_nat (length l) <= n -> costs (omitArray name encode l) <= 24 + n * (bound + 1)) as H.
  { intros A encode name l bound n Hn HFl Hb Hln. unfold omitArray. destruct l as [|x l]; [cbn [omitempty costs foldr]; nia|].
    cbn [omitempty costs foldr]. unfold cost. cbn [fst snd]. pose proof (size_array bound (map encode (x :: l))) as Hz.
    rewrite length_map in Hz. enough (size (JArray (map encode (x :: l))) <= 2 + n * (bound + 1)) by lia.
    etransitivity; [apply Hz; by apply Forall_fmap|]. nia. }
  destruct (reported_rows s reliability Hs Hr) as [Hrows Hlen].
  pose proof (H _ jsonUsage "usage"%string _ 850 maxUsageRows ltac:(by vm_compute) (Forall_impl _ _ _ Hrows row_size) ltac:(lia) Hlen) as H1.
  pose proof (H _ jsonDiagnostic "diagnostics"%string (it_Diagnostics r) 200 2 ltac:(by vm_compute)
    (Forall_impl _ _ _ HF (fun d Hd => proj2 Hd)) ltac:(lia) ltac:(lia)) as H2.
  unfold maxUsageRows in H1. lia.
Qed.

Lemma candidate_size i input r text name content : interpreted input r text -> pe_Predicate (in_Seal input) = Reference i ->
  size (jsonPredicateRef (Reference i)) <= 400 -> name ∈ ["result.txt"; "publish.reject"]%string -> it_Verdict r ∈ [VerdictCommitted; VerdictRejected] ->
  hexText 32 (pe_RootID (in_Seal input)) = true -> hexText 32 (pe_TaskID (in_Seal input)) = true ->
  hexText 64 (pe_SpecSHA256 (in_Seal input)) = true -> hexText 64 (pe_MetaSHA256 (in_Seal input)) = true ->
  hexText 64 (pe_ManifestSHA256 (in_Seal input)) = true -> len content < 2 ^ 63 ->
  let seal := in_Seal input in
  size (jsonOutcome (TaskPublication.outcomeOf (pe_RootID seal) (pe_TaskID seal) seal (pe_SpecSHA256 seal) (pe_MetaSHA256 seal) r name content)) <= 900000.
Proof.
  intros Hr Hp Hsize Hn Hv H1%hex_size H2%hex_size H3%hex_size H4%hex_size H5%hex_size Hl seal. unfold jsonOutcome, TaskPublication.outcomeOf, descriptor.
  cbn [oc_SchemaVersion oc_RootID oc_TaskID oc_SpecSHA256 oc_MetaSHA256 oc_Verdict oc_EvidenceSHA256 oc_Predicate oc_Payload oc_Usage oc_Diagnostics].
  subst seal. rewrite Hp. etransitivity; [apply size_object|]. rewrite costs_app. pose proof (interpreted_size _ _ _ Hr).
  assert (textSize name <= 20) as Htn.
  { assert (forallb (fun s => textSize s <=? 20) ["result.txt"; "publish.reject"]%string = true) as E by (vm_compute; reflexivity).
    rewrite forallb_forall in E. apply Z.leb_le, E. by apply list_elem_of_In. }
  assert (textSize (it_Verdict r) <= 20) as Htv.
  { assert (forallb (fun s => textSize s <=? 20) [VerdictCommitted; VerdictRejected] = true) as E by (vm_compute; reflexivity).
    rewrite forallb_forall in E. apply Z.leb_le, E. by apply list_elem_of_In. }
  assert (size (jsonPayload (MkPayload name (len content) (ComputeSHA256 content))) <= 300) as Hpay.
  { pose proof (hex_size _ _ (ComputeSHA256_hex content)) as Hs. revert Hs. generalize (ComputeSHA256 content). intros sha Hs.
    unfold jsonPayload. cbn [py_Basename py_Length py_SHA256]. etransitivity; [apply size_object|]. cbn [costs foldr].
    pose proof (cost_field "basename" _ _ Htn). pose proof (cost_field "sha256" sha 66 ltac:(lia)).
    pose proof (decimal_size (len content) ltac:(unfold len, max_int64 in *; lia)).
    assert (cost (TaskRecordsJson.number "length" (len content)) <= 8 + 64 + 2) by (unfold cost, TaskRecordsJson.number; cbn [fst snd]; change (textSize "length") with 8; lia).
    change (textSize "basename") with 10 in *. change (textSize "sha256") with 8 in *. lia. }
  pose proof (cost_field "root_id" _ 34 ltac:(rewrite H1; done)). pose proof (cost_field "task_id" _ 34 ltac:(rewrite H2; done)).
  pose proof (cost_field "spec_sha256" _ 66 ltac:(rewrite H3; done)). pose proof (cost_field "meta_sha256" _ 66 ltac:(rewrite H4; done)).
  pose proof (cost_field "verdict" _ _ Htv). pose proof (cost_field "evidence_sha256" _ 66 ltac:(rewrite H5; done)).
  change (textSize "root_id") with 9 in *. change (textSize "task_id") with 9 in *. change (textSize "spec_sha256") with 13 in *.
  change (textSize "meta_sha256") with 13 in *. change (textSize "verdict") with 9 in *. change (textSize "evidence_sha256") with 17 in *.
  cbn [costs foldr].
  assert (cost ("predicate"%string, jsonPredicateRef (Reference i)) <= 11 + 400 + 2) by (unfold cost; cbn [fst snd]; change (textSize "predicate") with 11; lia).
  assert (cost ("payload"%string, jsonPayload (MkPayload name (len content) (ComputeSHA256 content))) <= 9 + 300 + 2)
    by (unfold cost; cbn [fst snd]; change (textSize "payload") with 9; lia).
  assert (cost (TaskRecordsJson.number "schema_version" SchemaVersion) <= 40) by (by vm_compute).
  lia.
Qed.

Lemma payload_cases r text : let '(name, content) := payloadOf r text in
  (name = "result.txt"%string /\ content = text /\ it_Verdict r <> VerdictRejected) \/
  (name = "publish.reject"%string /\ content = it_Refusal r /\ it_Verdict r = VerdictRejected).
Proof.
  unfold payloadOf. destruct (eqs (it_Verdict r) VerdictRejected) eqn:E; [apply eqs_true in E; by right|apply eqs_false in E; by left].
Qed.

Lemma seal_fields seal : ValidateProviderExitRecord (Some seal) = Ok tt ->
  hexText 32 (pe_RootID seal) = true /\ hexText 32 (pe_TaskID seal) = true /\ hexText 64 (pe_SpecSHA256 seal) = true /\
  hexText 64 (pe_MetaSHA256 seal) = true /\ hexText 64 (pe_ManifestSHA256 seal) = true /\ ValidatePredicateRef (pe_Predicate seal) = Ok tt.
Proof.
  unfold ValidateProviderExitRecord, schemaAndIdentity. intros H. apply bind_Ok in H as ([] & Hi & H). apply bind_Ok in Hi as ([] & _ & Hi).
  apply bind_Ok in Hi as ([] & Hroot%fail_if_Ok%negb_false_iff & Htask%fail_if_Ok%negb_false_iff).
  apply bind_Ok in H as ([] & Hspec%wrap_err_Ok%ValidateSHA256_Ok & H). apply bind_Ok in H as ([] & Hmeta%wrap_err_Ok%ValidateSHA256_Ok & H).
  apply bind_Ok in H as ([] & _ & H). apply bind_Ok in H as ([] & Hmanifest%ValidateSHA256_Ok & H). apply bind_Ok in H as ([] & _ & H).
  by apply bind_Ok in H as ([] & Hpredicate & _).
Qed.

Section publishable.
Context (orbit : Z -> Z) (historicalStdout : parserOptions -> list ascii -> result eventState).

(** C28: Nothing that the adapter returns is refused on the way to publication.  What an
    interpreter of a current revision returns for streams of less than 2^63 bytes is a
    valid interpretation, of a session that the identity check of the task accepts; and
    the outcome that is made of it for the sealed task, with a payload whose length is an
    [int64], passes the validation of outcomes and is encoded within the size limit of
    control records, whatever usage the stream reported. *)
Theorem evaluation_publishable i options input raw r text :
  currentEvidencePolicy (i_mode i) (i_version i) = Some options ->
  (forall content, streamOf "raw/stdout" raw = Some content -> len content < 2 ^ 63) ->
  Evaluate orbit historicalStdout i input raw = (Ok r, text) -> len (snd (payloadOf r text)) < 2 ^ 63 ->
  ValidateInterpretation r = Ok tt /\ validateInterpretedIdentity input r = Ok tt /\
  let seal := in_Seal input in
  let candidate := TaskPublication.outcomeOf (pe_RootID seal) (pe_TaskID seal) seal (pe_SpecSHA256 seal) (pe_MetaSHA256 seal) r
                     (fst (payloadOf r text)) (snd (payloadOf r text)) in
  ValidateOutcomeRecord (Some candidate) = Ok tt /\ marshalControlRecord (jsonOutcome candidate) = Ok (MarshalCanonical (jsonOutcome candidate)).
Proof.
  intros Hp Hlen He Hl. destruct (interpretation_cases orbit historicalStdout _ _ _ _ _ _ _ Hp Hlen He) as (Hm & Hin & Hr).
  destruct (current_interpreter _ _ Hp Hm) as [Hmode Hversion].
  unfold validateEvaluationInput in Hin. apply bind_Ok in Hin as ([] & Href & Hseal). apply fail_if_Ok, negb_false_iff, PredicateEqual_true in Href.
  apply seal_fields in Hseal as (H1 & H2 & H3 & H4 & H5 & Hvalid). rewrite Href in Hvalid.
  destruct (reference_size i Hmode Hversion Hvalid) as [Hadapter Hsize]. rewrite <- Href in Hadapter.
  split; [by eapply interpreted_valid|]. split; [by eapply interpreted_identity|]. cbv zeta.
  pose proof (payload_cases r text) as Hpay. destruct (payloadOf r text) as [name content]. cbn [fst snd] in *.
  set (candidate := TaskPublication.outcomeOf _ _ _ _ _ _ _ _).
  assert (it_Verdict r = VerdictCommitted /\ name = "result.txt"%string /\ content = text /\ text <> ""%string \/
    it_Verdict r = VerdictRejected /\ name = "publish.reject"%string /\ content = it_Refusal r /\ it_Refusal r <> ""%string) as Hverdict.
  { destruct Hr as (_ & _ & _ & [(Hv & Hn & _)|(Hv & _ & Hn & _)]); rewrite Hv in Hpay; [right|left]; destruct Hpay as [(-> & -> & Hx)|(-> & -> & Hx)]; by first [done|destruct Hx]. }
  split.
  - destruct Hr as ((s & reliability & Hs & Hrel & Hu) & HF & Hdl & _). clear Hpay. revert candidate.
    unfold TaskPublication.outcomeOf, ValidateOutcomeRecord, schemaAndIdentity, validateOutcomePayload, ValidatePayloadDescriptor, descriptor.
    cbn [oc_SchemaVersion oc_RootID oc_TaskID oc_SpecSHA256 oc_MetaSHA256 oc_Verdict oc_EvidenceSHA256 oc_Predicate oc_Payload oc_Usage
      oc_Diagnostics py_Basename py_Length py_SHA256].
    rewrite Hu, (rows_accepted s reliability Hs Hrel), (diagnostics_accepted _ HF Hdl), Href, Hvalid, sha_valid.
    rewrite (proj2 (ValidateSHA256_Ok _) H3), (proj2 (ValidateSHA256_Ok _) H4), (proj2 (ValidateSHA256_Ok _) H5).
    unfold ValidateRootID, ValidateTaskID. rewrite H1, H2.
    assert ((len content <=? 0) = false) as ->.
    { apply Z.leb_gt. unfold len. destruct Hverdict as [(_ & _ & -> & Hn)|(_ & _ & -> & Hn)]; [destruct text|destruct (it_Refusal r)]; cbn; first [done|lia]. }
    destruct Hverdict as [(-> & -> & _)|(-> & -> & _)]; done.
  - assert (size (jsonOutcome candidate) <= 900000) as Hc.
    { apply (candidate_size i input r text); try done; destruct Hverdict as [(Hv & -> & _)|(Hv & -> & _)]; try rewrite Hv; repeat constructor. }
    unfold marshalControlRecord. destruct (Z.ltb_spec MaxControlRecordSize (len (MarshalCanonical (jsonOutcome candidate)))) as [H|H]; [|done].
    unfold MarshalCanonical, len in H. rewrite <- length_list_ascii, bytes_str, length_app in H. unfold size in Hc. unfold MaxControlRecordSize in H.
    cbn [length] in H. revert H Hc. generalize (length (render (jsonOutcome candidate))). clear. lia.
Qed.
End publishable.

(** ** Collecting a sealed task without faults *)
Section sealed.
Context (D : TaskDecoders) (RootID TaskID : string) (fs : gmap string string).
Context {req : TaskRecord} {meta : MetaRecord} {brief reqData metaData : string}.
Context (P : preparedFiles D RootID TaskID fs req meta brief reqData metaData).
Context (seal : ProviderExitRecord) (sealData : string).
#[local] Abbreviation d0 := (MkDisk fs []).

(** A directory whose provider has exited: the seal is recorded, after a start, and the
    files of its manifest are on disk. *)
Record sealedFiles : Prop := {
  sf_seal : fs !! "provider.exit"%string = Some sealData;
  sf_size : len sealData <= MaxControlRecordSize;
  sf_decoded : dec_Exit D sealData = inl seal;
  sf_valid : ValidateProviderExitRecord (Some seal) = Ok tt;
  sf_predicate : pe_Predicate seal = me_Predicate meta;
  sf_root : pe_RootID seal = RootID;
  sf_taskID : pe_TaskID seal = TaskID;
  sf_spec : pe_SpecSHA256 seal = ComputeSHA256 reqData;
  sf_meta : pe_MetaSHA256 seal = ComputeSHA256 metaData;
  sf_started : is_Some (fs !! "provider.start"%string);
  sf_declared : Forall (fun e => rm_Path e ∈ allowedRawPaths meta) (pe_RawManifest seal);
  sf_files : Forall (fun e => exists b, fs !! rm_Path e = Some b /\ rm_SHA256 e = ComputeSHA256 b /\ rm_Size e = len b) (pe_RawManifest seal) }.
Context (W : sealedFiles).

Definition sealedStreamsOf : list (string * string) := map (fun e => (rm_Path e, default ""%string (fs !! rm_Path e))) (pe_RawManifest seal).

Lemma declarations_free : returns (validateManifestDeclarations D RootID TaskID (pe_RawManifest seal)) tt d0.
Proof.
  unfold returns, validateManifestDeclarations. rewrite (bind_returns _ _ _ _ (prepared_free _ _ _ _ P)). apply fail_returns. cbn [pp_meta].
  destruct W as [_ _ _ _ _ _ _ _ _ _ H _]. induction H as [|e l He _ IH]; [done|]. cbn [existsb]. by rewrite bool_decide_true.
Qed.

Lemma sealedFiles_free : returns (validateSealedFiles D RootID TaskID seal) tt d0.
Proof.
  unfold returns, validateSealedFiles. erewrite bind_returns by apply declarations_free. destruct W as [_ _ _ _ _ _ _ _ _ _ _ H].
  induction H as [|e l (b & Hb & Hs & Hl) _ IH]; [done|]. cbn [sealedFilesMatch]. erewrite bind_returns by (by apply fileDigest_free).
  cbn [fst snd]. rewrite Hs, Hl, eqs_refl, Z.eqb_refl. erewrite bind_returns by (by apply fail_returns). exact IH.
Qed.

Lemma readSeal_free : returns (readSeal D RootID TaskID (me_Predicate meta) (ComputeSHA256 reqData) (ComputeSHA256 metaData)) seal d0.
Proof.
  assert (returns (readSealRecord D RootID TaskID (me_Predicate meta) (ComputeSHA256 reqData) (ComputeSHA256 metaData)) seal d0) as H.
  2:{ unfold returns in *. unfold readSeal, txMapErr. by rewrite H. }
  pose proof sealedFiles_free as HF. destruct W. unfold returns, readSealRecord.
  erewrite bind_try_returns by (eapply readRecord_free; eassumption). erewrite bind_returns by (apply of_returns; eassumption).
  rewrite sf_predicate0, (proj2 (PredicateEqual_true _ _) eq_refl), sf_root0, sf_taskID0, sf_spec0, sf_meta0, !eqs_refl.
  erewrite bind_returns by (by apply fail_returns). erewrite bind_returns by (by apply fail_returns).
  erewrite bind_returns by apply exists_free. rewrite bool_decide_true by done. erewrite bind_returns by (by apply fail_returns).
  by erewrite bind_returns by exact HF.
Qed.

Lemma entries_free : returns (openEntries (pe_RawManifest seal)) sealedStreamsOf d0.
Proof.
  unfold sealedStreamsOf. destruct W as [_ _ _ _ _ _ _ _ _ _ _ H]. induction H as [|e l (b & Hb & Hs & Hl) _ IH]; [done|].
  cbn [openEntries map]. unfold returns. rewrite (bind_returns _ _ _ (rm_Path e, b)).
  - by erewrite bind_returns, Hb by exact IH.
  - unfold returns, openEvidenceEntry. erewrite bind_returns by apply systemCall_free. cbn [files]. rewrite Hb, Hs, Hl, eqs_refl, Z.eqb_refl. done.
Qed.

Definition sealedEvidence : evidence := MkSealed sealedStreamsOf (map oa_Name (me_OutputArtifacts meta)).

Lemma evidence_free : returns (openValidatedEvidence D RootID TaskID seal) sealedEvidence d0.
Proof.
  unfold returns, openValidatedEvidence. erewrite bind_returns by apply declarations_free.
  rewrite (bind_returns _ _ _ _ (prepared_free _ _ _ _ P)). rewrite (bind_returns _ _ _ sealedStreamsOf); [done|].
  unfold returns, txMapErr. by rewrite entries_free.
Qed.

(** Its interpretation is returned, with a result that the checks accept. *)
Context (u : taskSituation) (registry : Registry) (interpreter : Interpreter) (input : Input) (r : Interpretation) (text : string).
Context (Hunlocked : ts_maintenance u = false) (Hidle : ts_run u = false) (Hnew : fs !! "outcome.json"%string = None).
Context (Hresolved : Resolve registry (me_Predicate meta) = Ok interpreter).
Context (Hinput : returns (interpretationInput D RootID TaskID seal) input d0).
Context (Hevaluated : ip_Evaluate interpreter input sealedEvidence = (Ok r, text)).
Context (Hvalid : ValidateInterpretation r = Ok tt) (Hidentity : validateInterpretedIdentity input r = Ok tt).

Let name := fst (payloadOf r text).
Let content := snd (payloadOf r text).
Let candidate := TaskPublication.outcomeOf RootID TaskID seal (ComputeSHA256 reqData) (ComputeSHA256 metaData) r name content.
Context (Hunpublished : fs !! name = None).
Context (Hcandidate : ValidateOutcomeRecord (Some candidate) = Ok tt).
Context (Hencoded : marshalControlRecord (jsonOutcome candidate) = Ok (MarshalCanonical (jsonOutcome candidate))).

#[local] Abbreviation d1 := (MkDisk (<[name := content]> fs) []).
#[local] Abbreviation d2 := (MkDisk (<["outcome.json"%string := MarshalCanonical (jsonOutcome candidate)]> (<[name := content]> fs)) []).

Lemma payload_committed : commitPayloadStage name content d0 = (Ok (None, None), d1).
Proof.
  unfold commitPayloadStage. rewrite (bind_Ok_eq _ _ _ (true, None, None) d1).
  2:{ unfold commitStage. rewrite (bind_returns _ _ _ NoFault) by done. cbv beta iota. cbn [files]. by rewrite Hunpublished. }
  cbv beta iota. rewrite (bind_returns _ _ _ (None, None)) by done. cbv beta iota.
  rewrite (bind_try_returns _ _ _ (ComputeSHA256 content, len content)) by (apply fileDigest_free, lookup_insert_eq). cbv beta iota.
  by rewrite eqs_refl, Z.eqb_refl.
Qed.

Lemma name_cases : name = "result.txt"%string \/ name = "publish.reject"%string.
Proof. unfold name, payloadOf. destruct (eqs _ _); auto. Qed.

Lemma outcome_committed : commitOutcome D RootID TaskID candidate (MarshalCanonical (jsonOutcome candidate)) d1 =
  (Ok (MkPublished (Some candidate) None None), d2).
Proof.
  unfold commitOutcome. rewrite (bind_Ok_eq _ _ _ (true, None, None) d2); [done|].
  unfold stageReader. rewrite (bind_returns _ _ _ NoFault) by done. cbv beta iota.
  cbn [files]. rewrite lookup_insert_ne, Hnew by (by destruct name_cases as [-> | ->]). done.
Qed.

Lemma evaluated_published : evaluateAndPublish D RootID TaskID interpreter seal (ComputeSHA256 reqData) (ComputeSHA256 metaData) d0 =
  (Ok (MkPublished (Some candidate) None None), d2).
Proof.
  unfold evaluateAndPublish. rewrite (bind_returns _ _ _ _ evidence_free).
  rewrite (bind_returns _ _ _ input) by (unfold returns, txOnFailure; by rewrite (bind_try_returns _ _ _ _ Hinput)).
  rewrite (bind_returns _ _ _ tt) by done.
  rewrite (bind_try_returns _ _ _ (r, text)).
  2:{ unfold returns, evaluate. rewrite Hevaluated. rewrite (bind_try_returns _ _ _ tt), (bind_try_returns _ _ _ tt) by done.
      by rewrite Hvalid, Hidentity. }
  cbv beta iota. unfold publishPayload. pose proof payload_committed as HC. pose proof outcome_committed as HO.
  revert HC HO Hcandidate Hencoded. unfold candidate, name, content. clear. destruct (payloadOf r text) as [n c]. cbn [fst snd].
  intros HC HO Hcandidate Hencoded. rewrite (bind_returns _ _ _ tt) by (by destruct (eqs _ _)).
  rewrite (bind_try_returns _ _ _ tt) by (by destruct (eqs _ _)). rewrite (bind_try_returns _ _ _ tt) by done.
  cbv zeta. rewrite Hcandidate, Hencoded. rewrite (bind_Ok_eq _ _ _ _ _ HC). exact HO.
Qed.

Lemma outcome_absent : readWinner D RootID TaskID meta (ComputeSHA256 reqData) (ComputeSHA256 metaData) d0 = (Err errNoOutcome, d0).
Proof.
  assert (readWinnerRecord D RootID TaskID meta (ComputeSHA256 reqData) (ComputeSHA256 metaData) d0 = (Err errNoOutcome, d0)) as H.
  { unfold readWinnerRecord. by rewrite (bind_try_fails _ _ _ _ (readRecord_absent _ (dec_Outcome D) _ Hnew)). }
  unfold readWinner, txMapErr. by rewrite H.
Qed.

(** The outcome is published, and the payload before it. *)
Lemma collect_sealed : Collect D RootID TaskID u registry (me_Predicate meta) d0 = (MkPublished (Some candidate) None None, d2).
Proof.
  assert (PredicateEqual (me_Predicate meta) (me_Predicate meta) = true) as HP by (by apply PredicateEqual_true).
  assert (forall b d, b = false -> returns (tryLock b) tt (MkDisk d [])) as HL by (intros b d ->; done).
  unfold Collect. rewrite systemCall_free. unfold withCollection. rewrite (HL _ _ Hunlocked). unfold unlocking.
  erewrite bind_returns.
  2:{ unfold returns, collectCheck. rewrite (bind_returns _ _ _ _ (preparedContext_free _ _ _ _ P)). cbn [pp_meta]. rewrite HP.
      erewrite bind_returns by (by apply fail_returns). erewrite bind_returns by apply exists_free. rewrite Hnew. cbn [bool_decide decide_rel].
      rewrite bool_decide_false by (by intros []). erewrite bind_returns by apply exists_free.
      rewrite (bool_decide_true (is_Some (fs !! "provider.exit"%string))) by (by rewrite (sf_seal W)). reflexivity. }
  rewrite (HL _ _ Hidle). unfold asPublished, collectOwned. rewrite (bind_returns _ _ _ _ (preparedContext_free _ _ _ _ P)). cbn [pp_meta pp_spec pp_metaHash].
  rewrite HP. erewrite bind_returns by (by apply fail_returns).
  rewrite (bind_try_fails _ _ _ _ outcome_absent).
  change (errors_Is errNoOutcome taskdir_errNoOutcome) with true. cbn [negb].
  erewrite bind_returns by (by apply fail_returns). erewrite bind_returns by apply exists_free. rewrite Hnew, bool_decide_false by (by intros []).
  erewrite bind_returns by (by apply fail_returns). rewrite (bind_returns _ _ _ _ readSeal_free).
  erewrite bind_returns by (by apply of_returns). rewrite evaluated_published. done.
Qed.
End sealed.

(** A validated manifest has both captures. *)
Lemma manifest_captures manifest digest path : ValidateRawManifest manifest digest = Ok tt -> path ∈ ["raw/stdout"; "raw/stderr"]%string ->
  existsb (fun e => eqs (rm_Path e) path) manifest = true.
Proof.
  unfold ValidateRawManifest. intros H Hp. apply bind_Ok in H as ([] & _ & H). apply bind_Ok in H as ([] & _ & H).
  apply bind_Ok in H as ([] & H%fail_if_Ok & _). apply orb_false_iff in H as [H1%negb_false_iff H2%negb_false_iff].
  apply elem_of_cons in Hp as [->|Hp]; [exact H1|]. by apply list_elem_of_singleton in Hp as ->.
Qed.

Lemma sealed_stream D RootID TaskID fs meta reqData metaData seal sealData path :
  sealedFiles D RootID TaskID fs (meta := meta) (reqData := reqData) (metaData := metaData) seal sealData -> path ∈ ["raw/stdout"; "raw/stderr"]%string ->
  exists content, fs !! path = Some content /\ streamOf path (sealedEvidence fs seal (meta := meta)) = Some content.
Proof.
  intros W Hp. pose proof (sf_valid _ _ _ _ _ _ W) as Hv.
  assert (exists e, ValidateRawManifest (pe_RawManifest seal) e = Ok tt) as [e Hm].
  { unfold ValidateProviderExitRecord in Hv. do 5 (apply bind_Ok in Hv as ([] & _ & Hv)). apply bind_Ok in Hv as ([] & Hv & _). eauto. }
  pose proof (manifest_captures _ _ _ Hm Hp) as He. pose proof (sf_files _ _ _ _ _ _ W) as Hf. unfold streamOf, sealedEvidence, sealedStreamsOf. cbn [ed_streams].
  clear -He Hf. induction Hf as [|x l (b & Hb & _) _ IH]; [done|]. cbn [existsb map find fst] in *.
  destruct (eqs (rm_Path x) path) eqn:E; [|by apply IH]. apply eqs_true in E as <-. exists b. by rewrite Hb.
Qed.

Section liveness.
Context (orbit : Z -> Z) (historicalStdout : parserOptions -> list ascii -> result eventState).
Context (D : TaskDecoders) (RootID TaskID : string) (fs : gmap string string).
Context (req : TaskRecord) (meta : MetaRecord) (brief reqData metaData : string) (seal : ProviderExitRecord) (sealData : string).

(** What a collection makes of such a transcript, for any registry that has the interpreter. *)
Lemma transcript_collected registry i options u input stdout es p id v m f :
  Resolve registry (Reference i) = Ok (registered orbit historicalStdout i) -> validMode (i_mode i) = true ->
  currentEvidencePolicy (i_mode i) (i_version i) = Some options -> me_Predicate meta = Reference i ->
  preparedFiles D RootID TaskID fs req meta brief reqData metaData ->
  sealedFiles D RootID TaskID fs (meta := meta) (reqData := reqData) (metaData := metaData) seal sealData -> sealRefusal seal = ""%string ->
  ts_maintenance u = false -> ts_run u = false -> fs !! "outcome.json"%string = None -> fs !! "result.txt"%string = None ->
  fs !! "raw/stdout"%string = Some stdout -> len stdout < 2 ^ 63 ->
  Forall2 (decodes orbit options) (recordsOf (bytes stdout)) es -> follow orbit (po_nativeOutcome options) start es = Some p ->
  succeeded p id v m f -> returns (interpretationInput D RootID TaskID seal) input (MkDisk fs []) -> identityMatches input id = true ->
  (forall answer, copyPiMessageValue orbit v [] = (None, answer) -> Z.of_nat (length answer) < 2 ^ 63) ->
  exists text o, copyPiMessageValue orbit v [] = (None, bytes text) /\ oc_Verdict o = VerdictCommitted /\ oc_Payload o = descriptor "result.txt" text /\
    Collect D RootID TaskID u registry (Reference i) (MkDisk fs []) =
      (MkPublished (Some o) None None,
       MkDisk (<["outcome.json"%string := MarshalCanonical (jsonOutcome o)]> (<["result.txt"%string := text]> fs)) []).
Proof.
  intros Hresolved Hmode Hp Hpred P W Hrefusal Hm Hr Ho Ht Hout Hl Hes Hfo Hsu Hin Hid Hanswer.
  destruct (sealed_stream _ _ _ _ _ _ _ _ _ "raw/stdout"%string W ltac:(by left)) as (out & Hout' & Hstdout). rewrite Hout in Hout'. injection Hout' as <-.
  destruct (sealed_stream _ _ _ _ _ _ _ _ _ "raw/stderr"%string W ltac:(by right; left)) as (stderr & _ & Hstderr).
  assert (in_Seal input = seal) as Hseal by exact (proj1 (input_Ok _ _ _ _ _ _ _ Hin)).
  assert (validateEvaluationInput input (Reference i) = Ok tt) as Hinput.
  { unfold validateEvaluationInput. rewrite Hseal, (sf_predicate _ _ _ _ _ _ W), Hpred, (proj2 (PredicateEqual_true _ _) eq_refl).
    exact (sf_valid _ _ _ _ _ _ W). }
  destruct (complete_stream_committed orbit historicalStdout i options input _ (Reference i) stdout stderr es p id v m f Hp Hmode Hinput
    ltac:(by rewrite Hseal) Hstdout Hstderr Hl Hes Hfo Hsu Hid) as (text & usage & diagnostics & Hcopy & _ & He).
  pose proof (Hanswer _ Hcopy) as Hlen. rewrite length_list_ascii in Hlen. change (Z.of_nat (String.length text)) with (len text) in Hlen.
  destruct (evaluation_publishable orbit historicalStdout i options input _ _ _ Hp (fun c Hc => ltac:(rewrite Hstdout in Hc; injection Hc as <-; exact Hl)) He Hlen)
    as (Hv1 & Hv2 & Hv3 & Hv4). rewrite Hseal in Hv3, Hv4.
  rewrite (sf_root _ _ _ _ _ _ W), (sf_taskID _ _ _ _ _ _ W), (sf_spec _ _ _ _ _ _ W), (sf_meta _ _ _ _ _ _ W) in Hv3, Hv4.
  rewrite <- Hpred in Hresolved.
  exists text. eexists. split; [exact Hcopy|]. split; [|split; [|rewrite <- Hpred; exact (collect_sealed D RootID TaskID fs P seal sealData W u registry
    (registered orbit historicalStdout i) input _ text Hm Hr Ho Hresolved Hin He Hv1 Hv2 Ht Hv3 Hv4)]]; reflexivity.
Qed.

(** C15: A complete transcript is published.  Let a prepared task have the predicate of an
    interpreter that the adapter registers, of a current revision, and let its provider
    have exited without an error after writing a stream that follows the protocol to the
    end of a cycle that succeeded, in the session that the task expects, with an answer.
    Then, without faults and with nobody at its locks, a collection through the registry
    of the adapter ends: it returns, and writes to the directory, the answer of that
    stream as the payload, and after it the outcome that commits it. *)
Theorem complete_transcript_published registry i options u input stdout es p id v m f :
  NewRegistry (Interpreters orbit historicalStdout) = Ok registry -> i ∈ registeredInterpreters ->
  currentEvidencePolicy (i_mode i) (i_version i) = Some options -> me_Predicate meta = Reference i ->
  preparedFiles D RootID TaskID fs req meta brief reqData metaData ->
  sealedFiles D RootID TaskID fs (meta := meta) (reqData := reqData) (metaData := metaData) seal sealData -> sealRefusal seal = ""%string ->
  ts_maintenance u = false -> ts_run u = false -> fs !! "outcome.json"%string = None -> fs !! "result.txt"%string = None ->
  fs !! "raw/stdout"%string = Some stdout -> len stdout < 2 ^ 63 ->
  Forall2 (decodes orbit options) (recordsOf (bytes stdout)) es -> follow orbit (po_nativeOutcome options) start es = Some p ->
  succeeded p id v m f -> returns (interpretationInput D RootID TaskID seal) input (MkDisk fs []) -> identityMatches input id = true ->
  (forall answer, copyPiMessageValue orbit v [] = (None, answer) -> Z.of_nat (length answer) < 2 ^ 63) ->
  exists text o, copyPiMessageValue orbit v [] = (None, bytes text) /\ oc_Verdict o = VerdictCommitted /\ oc_Payload o = descriptor "result.txt" text /\
    Collect D RootID TaskID u registry (Reference i) (MkDisk fs []) =
      (MkPublished (Some o) None None,
       MkDisk (<["outcome.json"%string := MarshalCanonical (jsonOutcome o)]> (<["result.txt"%string := text]> fs)) []).
Proof.
  intros Hreg Hi. destruct (registration_resolves orbit historicalStdout) as (registry' & Hreg' & Hres). rewrite Hreg in Hreg'. injection Hreg' as <-.
  apply (transcript_collected registry i options u input stdout es p id v m f (proj1 (Hres i Hi))).
  assert (forallb (fun i => validMode (i_mode i)) registeredInterpreters = true) as H by (vm_compute; reflexivity).
  rewrite forallb_forall in H. by apply H, list_elem_of_In.
Qed.
End liveness.

(** ** A sealed task of the adapter *)
Definition piRef (sha : string) : PredicateRef := MkPredicateRef Provider ModeReadOnly currentReadOnlyVersion sha.
Definition piRequest (brief : string) : TaskRecord :=
  MkTaskRecord SchemaVersion demoRoot demoTask Provider ModeReadOnly "/work" demoConfig 3600000000000 None (ComputeSHA256 brief) (len brief) None None.
Definition piMeta (ref : PredicateRef) (spec : string) : MetaRecord :=
  MkMeta SchemaVersion demoRoot demoTask spec demoConfig (MkEffectiveConfig "none" "none" demoSHA None)
    "none" "none" "/bin/pi" "1" "" "" "" "build" "1" [] true ref demoSupervisor demoStamp [] "" [].
Definition piStart (spec : string) : ProviderStartRecord := MkStart SchemaVersion demoRoot demoTask spec spec 3600000000000 demoStamp.
Definition piSeal (ref : PredicateRef) (spec stdout stderr : string) : ProviderExitRecord :=
  MkExit SchemaVersion demoRoot demoTask spec spec InvocationStarted 0 "" ref (captureManifest stdout stderr)
    (ComputeSHA256 (MarshalCanonical (jsonManifest (captureManifest stdout stderr)))) demoStamp (MkRuntime "" "" "").
Definition piDecoders (ref : PredicateRef) (brief record stdout stderr : string) : TaskDecoders :=
  MkTaskDecoders (fun _ => inl (piRequest brief)) (fun _ => inl (piMeta ref (ComputeSHA256 record))) noDecode noDecode
    (fun _ => inl (piStart (ComputeSHA256 record))) noDecode (fun _ => inl (piSeal ref (ComputeSHA256 record) stdout stderr)) noDecode noDecode noDecode noDecode.
Definition piFiles (brief record stdout stderr : string) : gmap string string :=
  list_to_map [("brief.md", brief); ("task.json", record); ("meta.json", record); ("provider.start", record); ("provider.exit", record);
               ("raw/stdout", stdout); ("raw/stderr", stderr)]%string.

Lemma piRef_valid sha : ValidateSHA256 sha = Ok tt -> ValidatePredicateRef (piRef sha) = Ok tt.
Proof.
  intros H. unfold ValidatePredicateRef, piRef. cbn [pr_Adapter pr_Mode pr_Version pr_SHA256]. do 4 (apply bind_Ok; exists tt; split; [vm_compute; reflexivity|]).
  exact H.
Qed.

Lemma piRequest_valid sha n : ValidateSHA256 sha = Ok tt -> 0 < n <= MaxBriefSize ->
  ValidateTaskRecord (Some (MkTaskRecord SchemaVersion demoRoot demoTask Provider ModeReadOnly "/work" demoConfig 3600000000000 None sha n None None)) = Ok tt.
Proof.
  intros H Hn. unfold ValidateTaskRecord. cbn [tk_SchemaVersion tk_RootID tk_TaskID tk_Workspace tk_Team tk_BriefSHA256 tk_BriefLength].
  do 5 (apply bind_Ok; exists tt; split; [reflexivity|]).
  apply bind_Ok. exists tt. split; [vm_compute; reflexivity|]. apply bind_Ok. exists tt. split; [by rewrite H|].
  apply fail_if_Ok, orb_false_iff. split; lia.
Qed.

Lemma piMeta_valid ref spec : ref = piRef (pr_SHA256 ref) -> ValidateSHA256 (pr_SHA256 ref) = Ok tt -> ValidateSHA256 spec = Ok tt ->
  ValidateMetaRecord (Some (piMeta ref spec)) = Ok tt.
Proof.
  intros -> Hr%piRef_valid H. unfold ValidateMetaRecord, piMeta. cbn [me_SchemaVersion me_RootID me_TaskID me_SpecSHA256 me_InputFiles me_OutputArtifacts me_OutputWriterContract].
  apply bind_Ok. exists tt. split; [reflexivity|]. apply bind_Ok. exists tt. split; [by rewrite H|].
  do 4 (apply bind_Ok; exists tt; split; [reflexivity|]). unfold validateMetaConfiguration. cbn [me_Environment me_Predicate].
  apply bind_Ok. exists tt. split; [reflexivity|]. apply bind_Ok. exists tt. split; [exact Hr|]. vm_compute. reflexivity.
Qed.

Lemma captures_valid stdout stderr : ValidateRawManifest (captureManifest stdout stderr)
  (ComputeSHA256 (MarshalCanonical (jsonManifest (captureManifest stdout stderr)))) = Ok tt.
Proof.
  unfold ValidateRawManifest. apply seq_Ok; [reflexivity|].
  assert (forall path data, path ∈ ["raw/stderr"; "raw/stdout"]%string -> validateRawEntry (MkEntry path (len data) (ComputeSHA256 data)) = Ok tt) as He.
  { intros path data Hp. unfold validateRawEntry. cbn [rm_Path rm_Size rm_SHA256]. rewrite sha_valid, (proj2 (Z.ltb_ge (len data) 0)) by (unfold len; lia).
    rewrite !elem_of_cons in Hp. destruct Hp as [-> | [-> | Hp]]; [vm_compute; reflexivity..|set_solver]. }
  apply seq_Ok; [|apply seq_Ok; [reflexivity|by rewrite eqs_refl]].
  unfold captureManifest. cbn [eachAfter]. apply seq_Ok; [apply seq_Ok; [apply He; set_solver|reflexivity]|].
  apply seq_Ok; [apply seq_Ok; [apply He; set_solver|vm_compute; reflexivity]|done].
Qed.

Section demo.
Context (ref : PredicateRef) (Href : ref = piRef (pr_SHA256 ref)) (Hsha : ValidateSHA256 (pr_SHA256 ref) = Ok tt).
Context (brief record stdout stderr : string) (Hbrief : 0 < len brief <= MaxBriefSize) (Hrecord : len record <= MaxControlRecordSize).
#[local] Abbreviation D0 := (piDecoders ref brief record stdout stderr).
#[local] Abbreviation fs0 := (piFiles brief record stdout stderr).
#[local] Abbreviation seal0 := (piSeal ref (ComputeSHA256 record) stdout stderr).

Lemma pi_start_valid spec : ValidateSHA256 spec = Ok tt -> ValidateProviderStartRecord (Some (piStart spec)) = Ok tt.
Proof.
  intros H. unfold ValidateProviderStartRecord, piStart. cbn [st_SchemaVersion st_RootID st_TaskID st_SpecSHA256 st_MetaSHA256 st_BudgetNanos st_CreatedAt].
  apply bind_Ok. exists tt. split; [reflexivity|]. rewrite H. vm_compute. reflexivity.
Qed.

Lemma pi_prepared : preparedFiles D0 demoRoot demoTask fs0 (piRequest brief) (piMeta ref (ComputeSHA256 record)) brief record record.
Proof.
  split; try done; try lia.
  - unfold returns, validateGuards. erewrite bind_returns by (by apply checkPresent_absent, readRecord_absent).
    unfold validateStartGuard, checkPresent. rewrite (bind_try_returns _ _ _ (piStart (ComputeSHA256 record))) by (by apply (readRecord_free _ _ _ record)).
    apply of_returns. rewrite pi_start_valid by apply sha_valid. cbn [mbind result_bind piStart st_RootID st_TaskID st_SpecSHA256 st_MetaSHA256 st_BudgetNanos].
    by rewrite !eqs_refl.
  - unfold decodeTaskRequest. apply bind_Ok. exists (piRequest brief). split; [done|]. apply bind_Ok. exists tt.
    split; [apply piRequest_valid; [apply sha_valid|done]|done].
  - by apply piMeta_valid; [| |apply sha_valid].
  - unfold matchPrepared, piRequest, piMeta. cbn [tk_RootID tk_TaskID me_RootID me_TaskID me_SpecSHA256 tk_BriefSHA256 tk_BriefLength fst snd me_Predicate].
    rewrite !eqs_refl, Z.eqb_refl, Href. reflexivity.
Qed.

Lemma pi_seal_valid : ValidateProviderExitRecord (Some seal0) = Ok tt.
Proof.
  apply seal_valid; [vm_compute; reflexivity..|apply ComputeSHA256_hex|vm_compute; reflexivity| |apply captures_valid|apply ComputeSHA256_hex].
  rewrite Href. by apply piRef_valid.
Qed.

Lemma pi_sealed : sealedFiles D0 demoRoot demoTask fs0 (meta := piMeta ref (ComputeSHA256 record)) (reqData := record) (metaData := record) seal0 record.
Proof.
  split; try done.
  - apply pi_seal_valid.
  - repeat constructor.
  - constructor; [|constructor; [|done]]; [exists stderr|exists stdout]; done.
Qed.

Definition pi_input : Input := MkInput seal0 (MkExpectation false "") None demoConfig.

Lemma pi_input_free : returns (interpretationInput D0 demoRoot demoTask seal0) pi_input (MkDisk fs0 []).
Proof.
  unfold returns, interpretationInput. rewrite (bind_returns _ _ _ _ (prepared_free _ _ _ _ pi_prepared)).
  rewrite (bind_try_fails _ _ _ errNotExist); [done|]. by eapply identity_absent; [exact (prepared_free _ _ _ _ pi_prepared)|].
Qed.

Lemma pi_input_valid : validateEvaluationInput pi_input ref = Ok tt.
Proof. unfold validateEvaluationInput. change (pe_Predicate (in_Seal pi_input)) with ref. rewrite (proj2 (PredicateEqual_true ref ref) eq_refl). apply pi_seal_valid. Qed.
End demo.

(** ** Witnesses *)
Definition noHistory (_ : parserOptions) (_ : list ascii) : result eventState := Err evidenceFault.
#[local] Abbreviation piReference := (Reference demoInterpreter).
Definition piDirectory : gmap string string := piFiles "Do it." "{}" demoStream "".
Definition piDirectoryDecoders : TaskDecoders := piDecoders piReference "Do it." "{}" demoStream "".
Definition piDirectorySeal : ProviderExitRecord := piSeal piReference (ComputeSHA256 "{}") demoStream "".

Lemma demo_registered : demoInterpreter ∈ registeredInterpreters.
Proof. by left. Qed.

Lemma piReference_is : piReference = piRef (pr_SHA256 piReference) /\ ValidateSHA256 (pr_SHA256 piReference) = Ok tt.
Proof.
  pose proof registered_references as HR. pose proof registered_valid as HV. rewrite Forall_forall in HR, HV.
  specialize (HR _ demo_registered). specialize (HV _ demo_registered). revert HR HV. generalize (Reference demoInterpreter).
  generalize (ComputeSHA256 (contractForVersion (i_mode demoInterpreter) (i_version demoInterpreter))). intros sha ref -> HV.
  split; [reflexivity|]. unfold ValidatePredicateRef in HV. do 4 (apply bind_Ok in HV as ([] & _ & HV)). exact HV.
Qed.

Lemma piDirectory_prepared : preparedFiles piDirectoryDecoders demoRoot demoTask piDirectory (piRequest "Do it.")
  (piMeta piReference (ComputeSHA256 "{}")) "Do it." "{}" "{}".
Proof. apply pi_prepared; [apply piReference_is..|by vm_compute|by vm_compute]. Qed.

Lemma piDirectory_sealed : sealedFiles piDirectoryDecoders demoRoot demoTask piDirectory (meta := piMeta piReference (ComputeSHA256 "{}"))
  (reqData := "{}"%string) (metaData := "{}"%string) piDirectorySeal "{}".
Proof. apply pi_sealed; [apply piReference_is..|by vm_compute]. Qed.

Lemma piDirectory_input : returns (interpretationInput piDirectoryDecoders demoRoot demoTask piDirectorySeal)
  (pi_input piReference "{}" demoStream "") (MkDisk piDirectory []).
Proof. apply pi_input_free; [apply piReference_is..|by vm_compute|by vm_compute]. Qed.

Lemma piMeta_predicate ref spec : me_Predicate (piMeta ref spec) = ref. Proof. reflexivity. Qed.
Lemma piSeal_refusal ref spec stdout stderr : sealRefusal (piSeal ref spec stdout stderr) = ""%string. Proof. reflexivity. Qed.
Lemma piFiles_has brief record stdout stderr : let fs := piFiles brief record stdout stderr in
  fs !! "outcome.json"%string = None /\ fs !! "result.txt"%string = None /\ fs !! "raw/stdout"%string = Some stdout.
Proof. by split_and!. Qed.

Lemma demo_matches ref spec stdout stderr : identityMatches (MkInput (piSeal ref spec stdout stderr) (MkExpectation false "") None demoConfig) demoID = true.
Proof. vm_compute. reflexivity. Qed.

Lemma demo_answer answer : copyPiMessageValue demoOrbit demoValue [] = (None, answer) -> Z.of_nat (length answer) < 2 ^ 63.
Proof.
  assert (copyPiMessageValue demoOrbit demoValue [] = (None, bytes "Hi")) as -> by (vm_compute; reflexivity). intros [= <-]. by vm_compute.
Qed.

Lemma complete_transcript_published_witness : exists registry text o, NewRegistry (Interpreters demoOrbit noHistory) = Ok registry /\
  oc_Verdict o = VerdictCommitted /\ oc_Payload o = descriptor "result.txt" text /\
  Collect piDirectoryDecoders demoRoot demoTask demoSituation registry piReference (MkDisk piDirectory []) =
    (MkPublished (Some o) None None,
     MkDisk (<["outcome.json"%string := MarshalCanonical (jsonOutcome o)]> (<["result.txt"%string := text]> piDirectory)) []).
Proof.
  destruct (registration_resolves demoOrbit noHistory) as (registry & Hreg & _).
  destruct (complete_transcript_published demoOrbit noHistory piDirectoryDecoders demoRoot demoTask piDirectory
    (piRequest "Do it.") (piMeta piReference (ComputeSHA256 "{}")) "Do it." "{}" "{}" piDirectorySeal "{}" registry demoInterpreter
    demoOptions demoSituation _ demoStream demoEvents demoProgress demoID demoValue demoAnswer demoAnswer Hreg demo_registered eq_refl
    (piMeta_predicate _ _) piDirectory_prepared piDirectory_sealed (piSeal_refusal _ _ _ _) eq_refl eq_refl (proj1 (piFiles_has _ _ _ _))
    (proj1 (proj2 (piFiles_has _ _ _ _))) (proj2 (proj2 (piFiles_has _ _ _ _))) ltac:(by vm_compute) demo_decodes demo_follows
    demo_succeeded piDirectory_input (demo_matches _ _ _ _) demo_answer) as (text & o & _ & Hv & Hpay & HC).
  exists registry, text, o. split; [exact Hreg|]. split; [exact Hv|]. split; [exact Hpay|]. exact HC.
Defined.

Lemma published_answer_in_transcript_witness : exists registry o p d' stdout id text,
  Collect piDirectoryDecoders demoRoot demoTask demoSituation registry piReference (MkDisk piDirectory []) = (p, d') /\
  pb_Outcome p = Some o /\ piDirectory !! "raw/stdout"%string = Some stdout /\ answers demoOrbit demoOptions stdout id text /\
  oc_Payload o = descriptor "result.txt" text.
Proof.
  destruct (registration_resolves demoOrbit noHistory) as (registry & _ & Hres). destruct (Hres _ demo_registered) as [Hresolved _].
  destruct (transcript_collected demoOrbit noHistory piDirectoryDecoders demoRoot demoTask piDirectory
    (piRequest "Do it.") (piMeta piReference (ComputeSHA256 "{}")) "Do it." "{}" "{}" piDirectorySeal "{}" registry demoInterpreter
    demoOptions demoSituation _ demoStream demoEvents demoProgress demoID demoValue demoAnswer demoAnswer Hresolved eq_refl eq_refl
    (piMeta_predicate _ _) piDirectory_prepared piDirectory_sealed (piSeal_refusal _ _ _ _) eq_refl eq_refl (proj1 (piFiles_has _ _ _ _))
    (proj1 (proj2 (piFiles_has _ _ _ _))) (proj2 (proj2 (piFiles_has _ _ _ _))) ltac:(by vm_compute) demo_decodes demo_follows
    demo_succeeded piDirectory_input (demo_matches _ _ _ _) demo_answer) as (text & o & _ & Hv & _ & HC).
  assert (forall content, files (MkDisk piDirectory []) !! "raw/stdout"%string = Some content -> len content < 2 ^ 63) as Hlen.
  { intros content Hc. assert (piDirectory !! "raw/stdout"%string = Some demoStream) as E by apply (proj2 (proj2 (piFiles_has _ _ _ _))).
    cbn [files] in Hc. rewrite E in Hc. injection Hc as <-. by vm_compute. }
  destruct (published_answer_in_transcript demoOrbit noHistory piDirectoryDecoders demoRoot demoTask registry piReference demoInterpreter demoOptions
    demoSituation newLease (MkDisk piDirectory []) _ _ o eq_refl Hresolved Hlen (or_introl HC) (proj1 (piFiles_has _ _ _ _)) eq_refl eq_refl Hv)
    as (seal & data & entry & request & stdout & id & answer & stored & A). destruct A as (_ & _ & _ & A1 & _ & _ & _ & A2 & _ & _ & A3 & _).
  exists registry, o. eexists _, _. exists stdout, id, answer. split; [exact HC|]. split; [reflexivity|]. split; [exact A1|]. split; [exact A2|exact A3].
Defined.

Lemma evaluation_publishable_witness : exists r text candidate,
  Evaluate demoOrbit noHistory demoInterpreter (pi_input piReference "{}" demoStream "") (sealedEvidence piDirectory piDirectorySeal
    (meta := piMeta piReference (ComputeSHA256 "{}"))) = (Ok r, text) /\ ValidateInterpretation r = Ok tt /\ oc_Diagnostics candidate = it_Diagnostics r /\
  ValidateOutcomeRecord (Some candidate) = Ok tt /\ marshalControlRecord (jsonOutcome candidate) = Ok (MarshalCanonical (jsonOutcome candidate)).
Proof.
  destruct (sealed_stream _ _ _ _ _ _ _ _ _ "raw/stdout"%string piDirectory_sealed ltac:(by left)) as (stdout & Hout & Hstdout).
  unfold piDirectory in Hout. rewrite (proj2 (proj2 (piFiles_has _ _ _ _))) in Hout. injection Hout as <-.
  destruct (sealed_stream _ _ _ _ _ _ _ _ _ "raw/stderr"%string piDirectory_sealed ltac:(by right; left)) as (stderr & _ & Hstderr).
  assert (validateEvaluationInput (pi_input piReference "{}" demoStream "") piReference = Ok tt) as Hinput.
  { apply pi_input_valid; apply piReference_is. }
  destruct (complete_stream_committed demoOrbit noHistory demoInterpreter demoOptions (pi_input piReference "{}" demoStream "") _ piReference
    demoStream stderr demoEvents demoProgress demoID demoValue demoAnswer demoAnswer eq_refl eq_refl Hinput (piSeal_refusal _ _ _ _) Hstdout Hstderr
    ltac:(by vm_compute) demo_decodes demo_follows demo_succeeded (demo_matches _ _ _ _)) as (text & usage & diagnostics & Hcopy & _ & He).
  pose proof (demo_answer _ Hcopy) as Hlen. rewrite length_list_ascii in Hlen.
  assert (forall c, streamOf "raw/stdout" (sealedEvidence piDirectory piDirectorySeal (meta := piMeta piReference (ComputeSHA256 "{}"))) = Some c ->
    len c < 2 ^ 63) as Hl by (rewrite Hstdout; intros c [= <-]; by vm_compute).
  destruct (evaluation_publishable demoOrbit noHistory demoInterpreter demoOptions (pi_input piReference "{}" demoStream "") _ _ _ eq_refl Hl He Hlen)
    as (Hv1 & _ & Hv3 & Hv4).
  eexists _, _, _. split; [exact He|]. split; [exact Hv1|]. split; [|split; [exact Hv3|exact Hv4]]. reflexivity.
Defined.
